(* ===== verification/_CoqProject ===== *)
-Q . S2P
Prelude.v
Driver.v
Bi.v
BiArith.v
BiDiv.v
BiExp.v
BiIO.v
Rsa.v
BiTheorems.v
Buff.v
McpEngine.v
McpDgst.v
McpDgstProofs.v
McpTheorems.v
McpCipher.v
McpCipherProofs.v
McpCipherEngine.v
McpCipherTheorems.v
McpDev.v
McpDevTheorems.v
Rpc.v
RpcProofs.v
RpcTheorems.v
RpcConc.v
RpcCall.v
ScBuff.v
Queue.v
Kfifo.v
ScdAtr.v
Cec.v
CecProofs.v
CecInv.v
CecTx.v
CecRx.v
CecOps.v
CecLive.v
CecTheorems.v
Scd.v
ScdProofs.v
ScdOps.v
ScdRuns.v
ScdTheorems.v
Md.v
MdProofs.v
MdCopy.v
MdOps.v
MdRuns.v
MdTheorems.v
Se.v
SeProofs.v
SeQueue.v
SeRuns.v
SeTheorems.v
Dvr.v
DvrProofs.v
DvrOps.v
DvrTheorems.v
DvrMem.v
DvrMemProofs.v
DvrMemOps.v
DvrMemAll.v
DvrMemTheorems.v
I2c.v
I2cPins.v
I2cBus.v
I2cBits.v
I2cG2c.v
I2cBytes.v
I2cTransfer.v
I2cEnds.v
I2cHw.v
I2cHwProofs.v
I2cMessages.v
I2cTheorems.v
Ir.v
IrProofs.v
IrNec.v
IrRun.v
IrTheorems.v
