(* ===== verification/Prelude.v ===== *)
(** * Verification of the Realtek platform code of Open-HMR600

    The repository is the firmware source of a media player: a Linux 2.6.12
    kernel and BusyBox 1.1.3, both vendored, and the code that Realtek added for
    its Venus and Mars boards (32-bit little-endian MIPS).  This development is
    about that added code.  Paths below are relative to [Src/linux-2.6.12];
    [mcp/] is [arch/mips/realtek-boards/drivers/mcp/].

    ** The parts and how they interact

    - The MCP crypto stack.  User programs call ioctls of three device files
      ([mcp/mcp_cipher_dev.c], [mcp/mcp_dgst_dev.c], [mcp/mcp_rsa_dev.c]).  These
      use stream contexts for ciphers ([mcp/mcp_cipher.c], [aes.c], [des.c],
      [tdes.c]) and digests ([mcp/mcp_dgst.c], [sha1.c], [aes_h.c]), which build
      descriptors for the crypto engine and run it ([drivers/mcp.c]) over packet
      buffers ([mcp/mcp_buff.c]).  The signature check ([mcp/rsa.c]) uses no
      engine but a multi-precision library of its own ([mcp/bi.c]).
    - Inter-processor calls.  The system CPU, the audio and the video processor
      exchange messages over rings in shared memory, for user programs by polling
      ([RPCpoll.c]) or by interrupt ([RPCintr.c]), and for the kernel
      ([RPCkern.c]); [RPCDriver.c] has the interrupt handler and the copy loop.
    - Smart card and CEC.  The messages of both drivers live in buffers and
      queues ([drivers/smartcard/core/scd_buff.c], [drivers/cec/core/cm_buff.c]:
      the same code twice) over the lists of [include/linux/list.h]; a card's
      answer to reset is parsed by [drivers/smartcard/core/scd_atr.c].  The card
      reader ([drivers/smartcard/adapter/scd_mars_priv.c], [scd_mars.c]) is a state
      machine driven by a timer that polls the controller, and by the requests of
      the device file ([drivers/smartcard/core/scd_dev.c]).  The CEC
      adapter ([drivers/cec/adapter/cec_mars.c]) sends and receives with two state
      machines that run in its interrupt handler and in deferred work, beside the
      callers of the device file ([drivers/cec/core/cec_dev.c]) that sleep until
      their message is done.
    - The move engine ([arch/mips/realtek-boards/drivers/md.c]): drivers and user
      programs have memory copied and filled by commands in a ring that the engine
      works off in the background; a table of 64 copies holds the DMA mappings
      until a copy is done.
    - The stream engine ([arch/mips/realtek-boards/drivers/se.c]): programs draw by
      commands that the driver copies into a ring of the engine, from a call or,
      at each vertical synchronisation, from queues in memory that the programs
      share with the driver.
    - The remote control receiver ([arch/mips/realtek-boards/drivers/venus_ir.c]):
      its interrupt handler takes frames from the controller, or decodes the
      samples of the signal, and puts keys into a byte queue ([kernel/kfifo.c])
      that the device file is read from.
    - The I2C adapter ([drivers/i2c/busses/i2c-venus-priv.c]), with the function that
      takes a list of messages from the kernel ([i2c-venus-k.c]): a message goes
      through the controller, which interrupts when its FIFOs want service, or the
      driver makes the signal itself by moving the two lines of the bus as GPIO pins
      (the [g2c] functions; also every write without a stop).
    - The recording memory ([mm/dvrblueprint.c]): a zone of memory that is handed
      out in blocks of [2^k] pages by a buddy allocator.  Drivers and one program
      get memory from it ([mm/auth.c]), and each piece is noted in a tree under its
      address; the crypto stack gets its large buffers here.

    ** The files

    - [Prelude] (this file): outcomes ([res]), machine words, arrays, loops, the
      allocation monad [M], the tactics, and the hint databases [arr] and [bi].
    - [Driver]: the monad [Drv] of code that works on a state, and total
      correctness of its actions ([wp]); the CEC, card reader, engine, remote
      control, memory and I2C models are written in it.  Hardware that works in the background
      is fair ([fair]) if it makes a step now and then; [gap] counts the accesses
      until then.
    - [Bi]: every function of [bi.c] under its name.  A number is the record
      [BI] (sign, digit count, digit array).  [BiArith], [BiDiv], [BiExp], [BiIO]
      hold the lemmas, by function: what each computes in terms of the magnitude
      [mag]; [BiArith] states the interface [Subtractor], against which [Mod] and
      [Exp_Mod] are proved in [BiExp], and [Sub_checked], the driver's [Sub] with
      a check that no borrow is lost, is the instance.  [Rsa] models [rsa.c].  [BiTheorems] has the properties.
    - [Buff]: blocks of bytes with bounds ([load], [store]) and [mcp_buff.c].
    - [McpEngine]: [mcp.c]; the engine and the DMA address translation are the
      parameter [mcp_hw], the driver's registers, semaphore and mappings are the
      record [dev], and the monad [D] threads them.  [McpDgst] and [McpCipher]
      model the contexts: [sha1.c]/[aes_h.c] and [aes.c]/[des.c]/[tdes.c] are the
      same text over different constants, so the code is there once over the
      records [md_alg] and [cipher_alg], with one instance per file.
      [McpDgstProofs], [McpCipherProofs], [McpCipherEngine] hold the lemmas,
      [McpTheorems], [McpCipherTheorems] the properties.
    - [McpDev], [McpDevTheorems]: open, release and ioctl of the three devices
      over a user memory, with the pages shared with the kernel.
    - [Rpc]: the rings and the calls; [RpcProofs], [RpcTheorems] for sequential
      use, [RpcConc] for one reader and one writer at the same time, [RpcCall] for
      whole calls with the program on the other processor as a parameter.
    - [ScBuff], [Queue]: the message buffers and the queues; the [next] and [prev]
      fields of all list heads are two finite maps, so that the linked structure
      and not a list of values is what the code works on.
    - [ScdAtr]: the answer to reset, against a format of its own ([answer]).
    - [Cec]: the CEC adapter and its requests; the controller is the class
      [CecHw], whose registers answer as they like, the driver is the record
      [mars_cec] with the buffers and list heads it works on.  [CecProofs] follows the buffers from place to place,
      [CecInv] has the histories, the invariant and the rules for total
      correctness, [CecTx], [CecRx], [CecOps] prove one operation after the other,
      [CecLive] that a transmission ends.  [CecTheorems] puts the driver among its
      callers: a transition system ([reach]) in which interrupts, work and the
      parts of system calls happen in any order.
    - [Scd]: the card reader.  The class [ScdEnv] gives the answers of the
      controller, the bytes that arrive from the card and the runs of the timer
      during a sleep; the reader is the record [mars_scd], in [scd_st] with the
      receive queue and the history of register writes.  [ScdProofs] has the
      invariant ([SInv]) and the state machine, [ScdOps] the operations,
      [ScdRuns] the collection of an answer and sequences of requests
      ([scd_run]), [ScdTheorems] the properties.
    - [Md]: the move engine driver.  The engine is the state [md_hw] and runs
      between the accesses of the driver as the class [MdEnv] says.  [MdProofs]
      has the invariant of the ring, how long the driver can wait, and
      [WriteCmd]; [MdCopy] the table of copies; [MdOps] the operations;
      [MdRuns] sequences of requests ([op], [run_ops]); [MdTheorems] the
      properties.
    - [Se]: the stream engine driver; the class [SeEnv] says which chip it is, when
      the engine fetches words, and what registers answer.  [SeProofs] has the
      invariant of the ring and [WriteCmd]; [SeQueue] what the queues in shared
      memory mean ([frame], [vsync_queue]), how they lie there ([QRep], [cyc]) and
      the interrupt; [SeRuns] the specification ([spec_op]) and the states that can
      be reached ([reached]); [SeTheorems] the properties.
    - [Dvr]: the allocator of the recording memory.  [DvrProofs] has blocks and
      buddies, the invariant of the free lists ([BInv]) and the two changes of
      them ([rem], [ins]); [DvrOps] the operations; [DvrTheorems] the sequences
      of allocations and frees, and the properties.
    - [DvrMem]: the requests of drivers and of the program; the class [MemEnv] gives
      the answers of the kernel's allocators, and the radix tree of the records is
      a finite map.  [DvrMemProofs] has the invariant ([MInv]: the records of the zone
      are the blocks in use); [DvrMemOps] one request after the other; [DvrMemAll]
      the freeing of everything, batch by batch; [DvrMemTheorems] sequences of
      requests ([mreach]) and the properties.
    - [Kfifo]: the byte queues, with what a queue holds ([holds]) and the
      refinement of bounded lists.  [Ir]: the remote control receiver; the class
      [IrEnv] gives what registers answer, the samples, and the interrupts that
      come while a reader works or sleeps.  [IrProofs] has the keys in the queue
      ([Keys]) and an interrupt against the receiver of the specification ([accept],
      [represents]); [IrNec] the decoder of raw samples; [IrRun] that both decoders
      end, and reads with interrupts at any point; [IrTheorems] sequences of events
      and the properties.
    - [I2c]: registers, the record [venus_i2c] and its transfer [xfer], set-up, the
      recovery of a bus that a device holds, and the transfers on the lines.  The class
      [I2cEnv] says who else is on the bus, what registers answer and how long a delay
      takes.  [I2cPins]: lines and pins.  [I2cBus]: a device at the level of the bus
      (the class [Device]; the edges of the lines move its state), what it notes of a
      transfer ([spec_write], [spec_read], [spec_random_read]), and the environment made
      of it ([bus_env]).  [I2cBits], [I2cG2c], [I2cBytes], [I2cTransfer]: a bit, the
      phases, a byte, a transfer with this device.  [I2cEnds]: transfers in any
      environment.  [I2cHw]: the controller, its interrupts and timer, repeated
      attempts, the list of messages and the handles; [I2cHwProofs] and [I2cMessages]
      its lemmas; [I2cTheorems] the properties.

    Definitions have the name of the C function they translate.  A function that
    changes an object returns its new value; pointers into a block are addresses;
    every access is bounds-checked and a bad one is [Fault], so that a theorem
    whose result is [Ret] also says that the code stays inside its memory.

    ** What the theorems show

    - Big integers: each operation computes what its name says for every operand
      within its stated size, terminates, stays in its arrays and allocates just
      its result; [Exp_Mod] is modular exponentiation and [rsa_verify] recovers
      the digest of every correctly padded signature, both when no borrow is lost.
      This condition is explicit where it is needed: [Sub] drops a borrow that
      meets a zero digit, and a theorem shows it on [2^64 - 1].
    - Digests and ciphers: a stream cut into updates in any way gives the result
      of the whole (refinement to a one-shot function); decryption inverts
      encryption over whole sessions; whatever the engine answers, the driver
      leaves its semaphore, mappings and registers as they were.
    - Devices: the ioctls return what the layers below compute and release what
      they allocate, on the error paths as well, except where a theorem shows that
      they do not.
    - Rings: sequential use refines a bounded byte queue; under every interleaving
      of a reader and a writer the bytes read are those written, in order (a step
      relation with an invariant); a kernel call returns the answer of the other
      processor.
    - Buffers and queues refine double-ended queues of bytes and of buffers; the
      lock is free and the length right after every operation.
    - Answer to reset: the test says complete exactly at the last byte of every
      well-formed answer of three bytes or more, and decomposition into a cleared
      structure recovers its fields.
    - Card reader: every sequence of polls and allowed requests returns and keeps the
      invariant, in which an active card has an answer with all its bytes; a reset
      followed by a poll in time delivers the first answer of a card; a reset always
      returns; a write sends the bytes of the message and a read gives those of the card;
      parameters that are set can be read back.
    - CEC: in every reachable state every operation, with memory for received messages
      and 1 to 255 bytes to send, returns without a fault or a deadlock; messages are sent once, in order and with their bytes; the eight
      receive buffers are conserved; a transmission ends when its time is up and
      switching off wakes every sender; a receive gives the oldest message.
    - Move engine: for every engine that makes progress, every sequence of
      allowed requests returns and the engine executes exactly their commands, in order;
      [md_memcpy] returns 0 when exactly the bytes asked for have been moved;
      mappings are removed of finished copies only; suspending ends with no copy
      left; the test for completion is exact for [2^15] commands.
    - Stream engine: in every sequence of covered operations the words fetched and
      waiting are exactly those written and those taken from the queues, frame by
      frame, and all of them are fetched in the end.
    - Recording memory: no page is in two blocks or lost, an allocation fails only
      if there is no aligned run of free pages, and when everything has been freed
      the lists are those of the start.  With the requests on top of it: every page
      is free or in the piece of one record, whatever memory runs out; a piece is
      new and has the size asked for; freeing all of a program ends and leaves the
      records of drivers.
    - Remote control: every sequence of interrupts and calls returns, in raw mode as
      well, until a read has to sleep; keys are queued as the specification of an interrupt says,
      and read in order with interrupts at any point of a read; a read that sleeps
      is woken by the first key; the decoder of raw samples inverts the coding of
      keys into pulses; the queue always holds whole words; byte queues refine
      bounded lists.
    - I2C adapter: a transfer on the lines is, for a device on the bus, the transfer of
      the specification, event by event and bit by bit, and the caller gets its result
      and its bytes; whatever is on the bus, it ends and the lines are released.  The
      controller is given the bytes of a write in order, in at most two attempts, and
      every list of messages of 1 to 32,767 bytes is answered with its buffers alone
      written.
    - Some theorems state a defect of the code: they show the input and what the
      code does with it (a time-out reported as success, a ring that reads as
      empty after it was filled, a cipher update that overwrites its input, ...).

    ** Assumptions, bounds and fuel

    Hardware and other programs are parameters.  What is assumed of them is a
    named hypothesis: the engine applies a compression function or a block cipher
    to whole blocks; [kmalloc] returns a block of the size asked for; the program
    on the other processor answers a request.  Each property with such a
    hypothesis has a witness with a concrete instance.

    Loops whose recursion is not structural have fuel.  [bi.c]: [mod_fuel] and
    [exp_fuel] are constants that are proved enough for the largest numbers the
    arrays hold (a turn of [Mod] removes over a quarter of the number; an exponent is
    halved or decremented).  [MCP_SHA1_DataHash]: one turn per byte of the message
    is more than enough.  Purging a queue, and emptying the CEC queues
    ([drain_fuel]): one turn per buffer and one more.  The waits of the move
    engine: with an engine that executes a command within every [dly] accesses
    ([fair]), [1024 * dly] turns are proved enough for the ring and 64 more for
    suspending; a copy takes at most two commands ([copy_fuel]); for the stream
    engine it is [4096 * dly], and a turn per word of a queue.  The card reader:
    an answer has at most 32 bytes ([atr_fuel]), and every turn of the wait for a
    reset takes a tick of the clock or more ([reset_fuel]).  The loops of the remote
    control end when the controller has no more frames ([polite]) or when the
    level of the signal changes or the samples run out ([at_most]: 33 turns for each
    sample); the fuel is a parameter, and the theorems say how much is enough.  Requests for memory: 19 turns find the order of a gigabyte, and
    freeing all takes at most a batch per record.  A transfer of [n] bytes on the lines of
    the I2C bus with a device that holds the clock for at most [h] looks is over in
    [xfer_turns h n] turns; with any devices the time-out of two seconds ends it within
    [last_turn] turns, since every 3000 turns sleep for a tick or more; the environment may make a
    delay longer, but not by [2^30] ticks ([slip]).  Emptying the receive FIFO of the
    controller needs that it reads as empty within the fuel ([fifos_drain]).  The polling loop of the engine has the bound of the code itself.  In
    every theorem that claims a result the outcome is [Ret], never "unless the
    fuel runs out".

    Sizes: a number has at most the digits its array holds, blocks are smaller
    than 2 GB, and addresses are below [2^32]; wrap-around is written out where the
    C types have it ([u8], [u32], [u64], [s32]).

    ** Not modelled

    Printing and self tests of the MCP files, the interrupt variant of [mcp.c]
    (compiled out), module initialisation and registration, weak memory ordering
    beyond the [sync] of the ring code, and preemption inside the sequential
    components.  In the interleavings of [RpcConc] the test for room is one step (the
    code reads the pointer of the other side up to three times), and in those of
    [CecTheorems] so is switching the adapter on or off, with its separately locked
    parts.  Of CEC: registration on the device model ([cec_core.c]), creation
    of the device nodes, and copies from the user that fail.  Of the move engine:
    that closing frees memory, a second opening, and requests that overlap in time
    (but for the interleaving of [md_copy_race]).  Of the card reader: registration
    ([scd_core.c], the device nodes), the timer running in the middle of a request
    that does not sleep, and how long a wait for a change of the card takes.  Of the
    stream engine: creation of the device, and interrupts in the middle of a write
    (but for that of [se_irq_race]).  Of the recording memory: how pages are cleared
    of other uses ([mm/pageremap.c], part of the vendored page cache), requests that
    overlap in time, and authorisation.  Of the
    remote control: registration.  Of the I2C adapter: registration on the device
    model, the printing of states, and [drivers/i2c/busses/i2c-venus.c], the driver
    that is built in its place when transfers by interrupt are configured off.  Whole drivers that are not here: the common
    interface, the flash and SATA drivers, USB gadget and wireless, which are mostly
    register access or vendor code.  The vendored kernel and BusyBox are left
    aside. *)
From stdpp Require Import base tactics list numbers option.
From Stdlib Require Import ZArith Lia.

#[export] Set Default Goal Selector "!".
Open Scope Z_scope.

(** ** Outcomes of C code

    [Ret a] is normal completion.  [Fault] is an access the C program must not
    make (an index outside an array, a NULL dereference, a division by zero).
    [OutOfFuel] only says that the bound given to the model of a loop was too
    small; every theorem that claims a result proves that it does not occur. *)

Inductive res (A : Type) : Type :=
| Ret (a : A)
| Fault
| OutOfFuel.
Arguments Ret {A} a.
Arguments Fault {A}.
Arguments OutOfFuel {A}.

#[export] Instance res_ret : MRet res := @Ret.
#[export] Instance res_bind : MBind res := fun A B f m =>
  match m with
  | Ret a => f a
  | Fault => Fault
  | OutOfFuel => OutOfFuel
  end.
#[export] Instance res_fmap : FMap res := fun A B f m =>
  match m with
  | Ret a => Ret (f a)
  | Fault => Fault
  | OutOfFuel => OutOfFuel
  end.

#[export] Instance res_eq_dec {A} `{EqDecision A} : EqDecision (res A).
Proof. solve_decision. Defined.

(** ** Machine words *)

Definition W32 : Z := 4294967296.
Definition u8 (x : Z) : Z := x mod 256.
Definition u32 (x : Z) : Z := x mod W32.
Definition u64 (x : Z) : Z := x mod (W32 * W32).

Definition is_byte (x : Z) : Prop := 0 <= x < 256.
Definition is_u32 (x : Z) : Prop := 0 <= x < W32.

(** The value of a 32-bit pattern read as a C [int]. *)
Definition s32 (x : Z) : Z :=
  if u32 x <? 2147483648 then u32 x else u32 x - W32.

(** ** Arrays *)

Definition Zlen {A} (a : list A) : Z := Z.of_nat (length a).

(** [rd a i] and [wr a i v] are [a[i]] and [a[i] = v]; an index outside the
    array is a [Fault]. *)
Definition rd (a : list Z) (i : Z) : res Z :=
  if i <? 0 then Fault else
  match a !! Z.to_nat i with
  | Some v => Ret v
  | None => Fault
  end.

Definition wr (a : list Z) (i v : Z) : res (list Z) :=
  if (0 <=? i) && (i <? Zlen a) then Ret (<[Z.to_nat i := v]> a) else Fault.

(** The element at [i], for specifications. *)
Definition at_ (a : list Z) (i : Z) : Z := nth (Z.to_nat i) a 0.
Notation "a .[ i ]" := (at_ a i) (at level 1, left associativity, format "a .[ i ]") : Z_scope.

(** ** Counted loops

    [forU n i f s] is [for (k = i; k < i + n; k++) s = f(k, s)] and
    [forD n i f s] is [for (k = i; k > i - n; k--) s = f(k, s)]. *)
Fixpoint forU {S : Type} (n : nat) (i : Z) (f : Z -> S -> res S) (s : S) : res S :=
  match n with
  | O => Ret s
  | Datatypes.S n' => s' ← f i s; forU n' (i + 1) f s'
  end.

Fixpoint forD {S : Type} (n : nat) (i : Z) (f : Z -> S -> res S) (s : S) : res S :=
  match n with
  | O => Ret s
  | Datatypes.S n' => s' ← f i s; forD n' (i - 1) f s'
  end.

(** ** The kernel allocator

    Code that calls [kmalloc]/[kfree] runs in the monad [M].  The heap state
    counts the objects that are allocated ([live]) and how many can be
    allocated at once ([cap]): [kmalloc] returns NULL exactly when the heap is
    full.  Leaks show as a difference of [live] before and after a call. *)
Record heap := mkHeap { cap : nat; live : nat }.

Definition M (A : Type) : Type := heap -> res (A * heap).

#[export] Instance M_ret : MRet M := fun A a h => Ret (a, h).
#[export] Instance M_bind : MBind M := fun A B f m h =>
  match m h with
  | Ret (a, h') => f a h'
  | Fault => Fault
  | OutOfFuel => OutOfFuel
  end.

Definition lift {A} (m : res A) : M A := fun h => a ← m; Ret (a, h).
Definition faultM {A} : M A := fun _ => Fault.
Definition fuelM {A} : M A := fun _ => OutOfFuel.

(** [true]: a block was returned; [false]: NULL. *)
Definition kmalloc : M bool := fun h =>
  if (live h <? cap h)%nat then Ret (true, mkHeap (cap h) (S (live h)))
  else Ret (false, h).

Definition kfree : M unit := fun h => Ret (tt, mkHeap (cap h) (pred (live h))).

(** Dereferencing a pointer that may be NULL. *)
Definition deref {A} (p : option A) : M A :=
  match p with
  | Some a => mret a
  | None => faultM
  end.

Definition forM {S : Type} (n : nat) (i : Z) (f : Z -> S -> M S) (s : S) : M S :=
  fun h => forU n i (fun j '(t, g) => f j t g) (s, h).

(** ** Lemmas on outcomes, arrays and loops *)

Lemma res_bind_Ret {A B} (f : A -> res B) (a : A) : (Ret a ≫= f) = f a.
Proof. reflexivity. Qed.

Lemma u32_range x : is_u32 (u32 x).
Proof. unfold is_u32, u32, W32. apply Z.mod_pos_bound. lia. Qed.

Lemma u32_small x : is_u32 x -> u32 x = x.
Proof. unfold is_u32, u32. intros. apply Z.mod_small. lia. Qed.

Lemma rd_ok a i : 0 <= i < Zlen a -> rd a i = Ret a.[i].
Proof.
  unfold rd, Zlen, at_. intros Hi.
  destruct (Z.ltb_spec i 0); [lia|].
  destruct (lookup_lt_is_Some_2 a (Z.to_nat i)) as [v Hv]; [lia|].
  rewrite Hv. f_equal. symmetry. by apply nth_lookup_Some.
Qed.

Lemma wr_ok a i v : 0 <= i < Zlen a -> wr a i v = Ret (<[Z.to_nat i := v]> a).
Proof.
  unfold wr. intros Hi.
  destruct (Z.leb_spec 0 i), (Z.ltb_spec i (Zlen a)); try lia. done.
Qed.

Lemma at_insert_eq a i v : 0 <= i < Zlen a -> (<[Z.to_nat i := v]> a).[i] = v.
Proof.
  unfold at_, Zlen. intros Hi. apply nth_lookup_Some.
  apply list_lookup_insert_eq. lia.
Qed.

Lemma at_insert_ne a i j v :
  0 <= i -> 0 <= j -> i <> j -> (<[Z.to_nat i := v]> a).[j] = a.[j].
Proof.
  unfold at_. intros Hi Hj Hij.
  rewrite !nth_lookup, list_lookup_insert_ne; [done|lia].
Qed.

Lemma at_insert a i j v : 0 <= i < Zlen a -> 0 <= j ->
  (<[Z.to_nat i := v]> a).[j] = if i =? j then v else a.[j].
Proof.
  intros Hi Hj. destruct (Z.eqb_spec i j) as [<-|].
  - by apply at_insert_eq.
  - apply at_insert_ne; lia.
Qed.

Lemma Zlen_insert (a : list Z) n v : Zlen (<[n := v]> a) = Zlen a.
Proof. unfold Zlen. by rewrite length_insert. Qed.

Lemma Zlen_cons {A} (x : A) l : Zlen (x :: l) = Zlen l + 1.
Proof. unfold Zlen. cbn [length]. lia. Qed.

Lemma Zlen_app {A} (a b : list A) : Zlen (a ++ b) = Zlen a + Zlen b.
Proof. unfold Zlen. rewrite length_app. lia. Qed.

Lemma Zlen_nonneg {A} (a : list A) : 0 <= Zlen a.
Proof. unfold Zlen. lia. Qed.

Lemma at_app_l a b i : 0 <= i < Zlen a -> (a ++ b).[i] = a.[i].
Proof. unfold at_, Zlen. intros. apply app_nth1. lia. Qed.

Lemma at_app_r a b i : Zlen a <= i -> (a ++ b).[i] = b.[i - Zlen a].
Proof. unfold at_, Zlen. intros. rewrite app_nth2 by lia. f_equal. lia. Qed.

(** The element at an index inside a list. *)
Lemma lookup_at (V : list Z) n : (n < length V)%nat -> V !! n = Some V.[Z.of_nat n].
Proof. intros Hn. unfold at_. rewrite Nat2Z.id. destruct (nth_lookup_or_length V n 0); [done|lia]. Qed.

Lemma at_Forall (P : Z -> Prop) a i : Forall P a -> 0 <= i < Zlen a -> P a.[i].
Proof.
  unfold at_, Zlen. intros HF Hi. rewrite Forall_lookup in HF.
  destruct (lookup_lt_is_Some_2 a (Z.to_nat i)) as [v Hv]; [lia|].
  rewrite (nth_lookup_Some _ _ 0 _ Hv). eauto.
Qed.

Lemma Forall_insert_Z (P : Z -> Prop) a n v : Forall P a -> P v -> Forall P (<[n := v]> a).
Proof. intros. by apply Forall_insert. Qed.

(** A disjoint [or] of a shifted word and a word is their sum. *)
Lemma lxor_byte x y : is_byte x -> is_byte y -> is_byte (Z.lxor x y).
Proof.
  unfold is_byte. intros Hx Hy. split; [apply Z.lxor_nonneg; lia|].
  destruct (decide (Z.lxor x y = 0)) as [->|]; [lia|]. change 256 with (2 ^ 8).
  assert (0 < Z.lxor x y) by (pose proof (proj2 (Z.lxor_nonneg x y)); lia).
  apply Z.log2_lt_pow2; [done|]. eapply Z.le_lt_trans; [apply Z.log2_lxor; lia|].
  assert (forall z, 0 <= z < 256 -> Z.log2 z < 8) as Hlog.
  { intros z Hz. destruct (decide (z = 0)) as [->|]; [done|]. apply Z.log2_lt_pow2; lia. }
  pose proof (Hlog x Hx). pose proof (Hlog y Hy). lia.
Qed.

Lemma lor_shiftl_add h k x : 0 <= k -> 0 <= x < 2 ^ k -> Z.lor (Z.shiftl h k) x = h * 2 ^ k + x.
Proof.
  intros Hk Hx. rewrite <- Z.lxor_lor, <- Z.add_nocarry_lxor.
  - by rewrite Z.shiftl_mul_pow2.
  - apply Z.bits_inj'. intros n Hn. rewrite Z.land_spec, Z.bits_0.
    destruct (Z.ltb_spec n k).
    + by rewrite Z.shiftl_spec_low.
    + rewrite andb_comm. rewrite <- (Z.mod_small x (2 ^ k)) by lia.
      by rewrite Z.mod_pow2_bits_high by lia.
  - apply Z.bits_inj'. intros n Hn. rewrite Z.land_spec, Z.bits_0.
    destruct (Z.ltb_spec n k).
    + by rewrite Z.shiftl_spec_low.
    + rewrite andb_comm. rewrite <- (Z.mod_small x (2 ^ k)) by lia.
      by rewrite Z.mod_pow2_bits_high by lia.
Qed.

(** The invariant rule for counted loops; it also gives that the loop
    completes. *)
Lemma forU_inv {S} (P : Z -> S -> Prop) f n i (s : S) :
  P i s ->
  (forall j t, i <= j < i + Z.of_nat n -> P j t ->
     exists t', f j t = Ret t' /\ P (j + 1) t') ->
  exists s', forU n i f s = Ret s' /\ P (i + Z.of_nat n) s'.
Proof.
  revert i s. induction n as [|n IH]; intros i s Hs Hf; simpl.
  - exists s. rewrite Z.add_0_r. done.
  - destruct (Hf i s) as (t & Ht & HPt); [lia|done|]. rewrite Ht. simpl.
    destruct (IH (i + 1) t HPt) as (s' & Hs' & HP).
    + intros j t' Hj. apply Hf. lia.
    + exists s'. split; [done|]. by replace (i + Z.of_nat (Datatypes.S n)) with (i + 1 + Z.of_nat n) by lia.
Qed.

Lemma forD_inv {S} (P : Z -> S -> Prop) f n i (s : S) :
  P i s ->
  (forall j t, i - Z.of_nat n < j <= i -> P j t ->
     exists t', f j t = Ret t' /\ P (j - 1) t') ->
  exists s', forD n i f s = Ret s' /\ P (i - Z.of_nat n) s'.
Proof.
  revert i s. induction n as [|n IH]; intros i s Hs Hf; simpl.
  - exists s. rewrite Z.sub_0_r. done.
  - destruct (Hf i s) as (t & Ht & HPt); [lia|done|]. rewrite Ht. simpl.
    destruct (IH (i - 1) t HPt) as (s' & Hs' & HP).
    + intros j t' Hj. apply Hf. lia.
    + exists s'. split; [done|]. by replace (i - Z.of_nat (Datatypes.S n)) with (i - 1 - Z.of_nat n) by lia.
Qed.

(** ** Stepping through monadic code *)

Lemma bindM_Ret {A B} (m : M A) (f : A -> M B) h a h' :
  m h = Ret (a, h') -> (m ≫= f) h = f a h'.
Proof. intros H. unfold mbind, M_bind. by rewrite H. Qed.

Lemma lift_Ret {A} (m : res A) h a : m = Ret a -> lift m h = Ret (a, h).
Proof. intros ->. reflexivity. Qed.

Lemma bindR_Ret {A B} (m : res A) (f : A -> res B) a : m = Ret a -> (m ≫= f) = f a.
Proof. intros ->. reflexivity. Qed.

Lemma mretM {A} (a : A) h : (mret a : M A) h = Ret (a, h).
Proof. reflexivity. Qed.

Lemma kmalloc_ok c l : (l < c)%nat -> kmalloc (mkHeap c l) = Ret (true, mkHeap c (S l)).
Proof. intros H. unfold kmalloc; simpl. by rewrite (proj2 (Nat.ltb_lt _ _) H). Qed.

Lemma kfree_S c l : kfree (mkHeap c (S l)) = Ret (tt, mkHeap c l).
Proof. reflexivity. Qed.

(** [mstep H]: the first action of a monadic goal is known to return. *)
Ltac mstep H :=
  first [ rewrite (bindM_Ret _ _ _ _ _ H) | rewrite (bindR_Ret _ _ _ H)
        | rewrite (bindM_Ret _ _ _ _ _ (lift_Ret _ _ _ H)) ].

(** Case analysis on the boolean comparisons of the goal, with their
    arithmetic meaning in the context. *)
Ltac zcase :=
  match goal with
  | |- context [?a <? ?b] => destruct (Z.ltb_spec a b)
  | |- context [?a <=? ?b] => destruct (Z.leb_spec a b)
  | |- context [?a =? ?b] => destruct (Z.eqb_spec a b)
  | |- context [?a >? ?b] => rewrite (Z.gtb_ltb a b)
  | |- context [?a >=? ?b] => rewrite (Z.geb_leb a b)
  end; try (exfalso; lia).

(** [lia] with quotients and remainders by constants. *)
Ltac dlia := Z.to_euclidean_division_equations; lia.

Create HintDb bi discriminated.
Create Rewrite HintDb arr.
#[export] Hint Rewrite Zlen_insert @Zlen_app : arr.
#[export] Hint Resolve u32_range Zlen_nonneg Forall_insert_Z : bi.
