(* ===== verification/Driver.v ===== *)
(** * Code that works on a state

    The monad of the drivers: an action changes the state of the driver and of
    its hardware and has an outcome ([res]); and total correctness of actions,
    with one rule per construct. *)
From stdpp Require Import base tactics.
From Stdlib Require Import ZArith Lia.
From S2P Require Import Prelude.

Definition Drv (S A : Type) : Type := S -> res (A * S).

#[export] Instance Drv_ret {S} : MRet (Drv S) := fun A a s => Ret (a, s).
#[export] Instance Drv_bind {S} : MBind (Drv S) := fun A B f m s =>
  match m s with
  | Ret (a, s') => f a s'
  | Fault => Fault
  | OutOfFuel => OutOfFuel
  end.

(** [time_after(a, b)] on 32-bit jiffies. *)
Definition time_after (a b : Z) : bool := s32 (b - a) <? 0.

Section actions.
Context {S : Type}.

Definition get : Drv S S := fun s => Ret (s, s).
Definition modify (f : S -> S) : Drv S unit := fun s => Ret (tt, f s).
Definition lift_res {A} (m : res A) : Drv S A := fun s =>
  match m with Ret a => Ret (a, s) | Fault => Fault | OutOfFuel => OutOfFuel end.

(** An access that must not be made; a loop without fuel. *)
Definition fault {A} : Drv S A := fun _ => Fault.
Definition stuck {A} : Drv S A := fun _ => OutOfFuel.

(** The action returns, and its result and the state then satisfy [Q]. *)
Definition wp {A} (m : Drv S A) (s : S) (Q : A -> S -> Prop) : Prop := exists a s', m s = Ret (a, s') /\ Q a s'.

Lemma wp_ret {A} (a : A) s (Q : A -> S -> Prop) : Q a s -> wp (mret a) s Q.
Proof. intros H. by exists a, s. Qed.

Lemma wp_bind {A B} (m : Drv S A) (f : A -> Drv S B) s Q : wp m s (fun a s' => wp (f a) s' Q) -> wp (m ≫= f) s Q.
Proof. intros (a & s1 & E1 & b & s2 & E2 & H). exists b, s2. split; [|done]. unfold mbind, Drv_bind. by rewrite E1. Qed.

Lemma wp_mono {A} (m : Drv S A) s (P Q : A -> S -> Prop) : wp m s P -> (forall a s', P a s' -> Q a s') -> wp m s Q.
Proof. intros (a & s' & E & H) HPQ. exists a, s'. auto. Qed.

Lemma wp_seq {A B C} (m : Drv S A) (f : A -> Drv S B) (g : B -> Drv S C) s (P : B -> S -> Prop) Q :
  wp (m ≫= f) s P -> (forall b s', P b s' -> wp (g b) s' Q) -> wp (m ≫= (fun a => f a ≫= g)) s Q.
Proof.
  intros (b & s1 & E & HP) HQ. destruct (HQ _ _ HP) as (c & s2 & E2 & H). exists c, s2. split; [|done]. revert E. unfold mbind, Drv_bind.
  destruct (m s) as [[a s']| |]; [|done..]. by intros ->.
Qed.

Lemma wp_get s (Q : S -> S -> Prop) : Q s s -> wp get s Q.
Proof. intros H. by exists s, s. Qed.

Lemma wp_modify f s (Q : unit -> S -> Prop) : Q tt (f s) -> wp (modify f) s Q.
Proof. intros H. by exists tt, (f s). Qed.

Lemma wp_lift {A} (m : res A) s a (Q : A -> S -> Prop) : m = Ret a -> Q a s -> wp (lift_res m) s Q.
Proof. intros -> H. by exists a, s. Qed.
End actions.

(** ** Hardware that works in the background

    [turns t]: how many steps the hardware makes before the [t]-th access of the
    driver. *)
Section background.
Context (turns : nat -> nat).

(** Among [dly] accesses in a row there is one before which the hardware makes a
    step. *)
Definition fair (dly : nat) : Prop := forall t, exists k, (k < dly)%nat /\ (0 < turns (t + k))%nat.

(** The number of accesses until then. *)
Fixpoint gap (n t : nat) : nat :=
  match n with
  | O => O
  | S n' => if decide (turns t = O) then S (gap n' (S t)) else O
  end.

Lemma gap_found n : forall t k, (k < n)%nat -> (0 < turns (t + k))%nat -> (gap n t <= k)%nat.
Proof.
  induction n as [|n IH]; intros t k Hk Ht; [lia|]. cbn [gap]. destruct (decide (turns t = O)); [|lia].
  destruct k as [|k]; [rewrite Nat.add_0_r in Ht; lia|]. apply le_n_S, IH; [lia|]. by rewrite Nat.add_succ_comm.
Qed.

Lemma gap_more n : forall m t k, (k < n)%nat -> (n <= m)%nat -> (0 < turns (t + k))%nat -> gap m t = gap n t.
Proof.
  induction n as [|n IH]; intros m t k Hk Hm Ht; [lia|]. destruct m as [|m]; [lia|]. cbn [gap].
  destruct (decide (turns t = O)); [|done]. destruct k as [|k]; [rewrite Nat.add_0_r in Ht; lia|]. f_equal.
  apply (IH m (S t) k); [lia|lia|]. by rewrite Nat.add_succ_comm.
Qed.

Variable dly : nat.
Hypothesis Hfair : fair dly.

Lemma gap_lt t : (gap dly t < dly)%nat.
Proof. destruct (Hfair t) as (k & Hk & Ht). pose proof (gap_found _ _ _ Hk Ht). lia. Qed.

Lemma gap_next t : turns t = O -> S (gap dly (S t)) = gap dly t.
Proof.
  intros Ht. destruct (Hfair t) as (k & Hk & Hk'). destruct dly as [|n]; [lia|].
  destruct k as [|k]; [rewrite Nat.add_0_r in Hk'; lia|]. transitivity (S (gap n (S t))); [|cbn [gap]; by rewrite decide_True by done].
  f_equal. apply (gap_more n (S n) (S t) k); [lia|lia|]. by rewrite Nat.add_succ_comm.
Qed.
End background.
