(* ===== verification/Bi.v ===== *)
(** * Big integers: [arch/mips/realtek-boards/drivers/mcp/bi.c]

    The multi-precision arithmetic behind the RSA signature check of the MCP
    driver.  This file holds the data type and the operations; the lemmas are
    in [BiArith.v], [BiDiv.v] and [BiExp.v].

    A [BI] is modelled by value.  The functions of bi.c that update their first
    argument in place ([Add], [Sub], [Add_p], ...) return the new value of that
    argument; no caller in the driver passes the same object as both arguments
    of an in-place operation.  [kmalloc]/[kfree] are the effects of the monad
    [M]; a NULL result that the C code goes on to dereference is a [Fault]. *)
From stdpp Require Import base tactics list numbers option.
From Stdlib Require Import ZArith Lia.
From S2P Require Import Prelude.

Definition BI_MAXLEN : Z := 129.
Definition DEC : Z := 10.
Definition HEX : Z := 16.
Definition MASK32 : Z := 4294967295.

(** [typedef struct big_int].  [m_nSign] is 1 for a non-negative number and 0
    for a negative one; digits are in base 2^32, least significant first. *)
Record BI := mkBI {
  m_nSign : Z;
  m_nLength : Z;
  m_ulValue : list Z
}.

#[export] Instance BI_eq_dec : EqDecision BI.
Proof. solve_decision. Defined.

Definition with_value (A : BI) (v : list Z) : BI := mkBI (m_nSign A) (m_nLength A) v.
Definition with_sign (A : BI) (s : Z) : BI := mkBI s (m_nLength A) (m_ulValue A).

(** ** Division of a 64-bit number by a 32-bit one

    One pass of the loop of [do_div64_32] from label 1 to label 3: subtract the
    base when the 33-bit remainder [cf:md] reaches it. *)
Definition div_pass (base md q cf : Z) : Z * Z :=
  if negb (cf =? 0) || (base <=? md) then (u32 (md - base), u32 (q + 1)) else (md, q).

(** [n] passes; between two passes (label 0) remainder, dividend and quotient
    are shifted left by one, the top bit of the dividend entering the
    remainder. *)
Fixpoint div64_32_loop (n : nat) (base md low q cf : Z) : Z * Z :=
  let '(md1, q1) := div_pass base md q cf in
  match n with
  | O => (q1, md1)
  | S n' =>
      div64_32_loop n' base
        (Z.lor (u32 (Z.shiftl md1 1)) (Z.shiftr low 31))
        (u32 (Z.shiftl low 1))
        (u32 (Z.shiftl q1 1))
        (Z.shiftr md1 31)
  end.

(** The loop counter starts at 0x21, so there are 33 passes. *)
Definition do_div64_32 (high low base : Z) : Z * Z :=
  div64_32_loop 32 base high low 0 0.

Definition do_div (n base : Z) : res Z :=
  let high := Z.shiftr n 32 in
  let low := u32 n in
  '(upper, high) ←
    (if high =? 0 then Ret (high, high)
     else if base =? 0 then Fault
     else Ret (high mod base, high / base));
  let '(quot32, _) := do_div64_32 upper low base in
  Ret (Z.lor (Z.shiftl high 32) quot32).

(** ** Allocation, copies, comparisons *)

Definition zeroBI : BI := mkBI 1 1 (replicate (Z.to_nat BI_MAXLEN) 0).

Definition init_BI : M (option BI) :=
  ok ← kmalloc;
  if (ok : bool) then mret (Some zeroBI) else mret None.

Definition free_BI : M unit := kfree.

Definition move (A : BI) : M (option BI) :=
  p ← init_BI;
  match p with
  | Some _ => mret (Some A)
  | None => mret None
  end.

Definition move_p_fill (p : BI) (b : Z) : res BI :=
  p ← (if b >? MASK32 then
         v ← wr (m_ulValue p) 1 (u32 (Z.shiftr b 32));
         v ← wr v 0 (u32 b);
         Ret (mkBI (m_nSign p) 2 v)
       else
         v ← wr (m_ulValue p) 0 (u32 b);
         Ret (mkBI (m_nSign p) 1 v));
  v ← forU (Z.to_nat (BI_MAXLEN - m_nLength p)) (m_nLength p)
        (fun i v => wr v i 0) (m_ulValue p);
  Ret (with_value p v).

Definition move_p (b : Z) : M (option BI) :=
  p ← init_BI;
  match p with
  | Some p => r ← lift (move_p_fill p b); mret (Some r)
  | None => mret None
  end.

Fixpoint Cmp_loop (a b : list Z) (n : nat) : res Z :=
  match n with
  | O => Ret 0
  | S n' =>
      x ← rd a (Z.of_nat n');
      y ← rd b (Z.of_nat n');
      if x >? y then Ret 1
      else if x <? y then Ret (-1)
      else Cmp_loop a b n'
  end.

Definition Cmp (A B : BI) : res Z :=
  if m_nLength A >? m_nLength B then Ret 1
  else if m_nLength A <? m_nLength B then Ret (-1)
  else Cmp_loop (m_ulValue A) (m_ulValue B) (Z.to_nat (m_nLength A)).

Definition isZero (A : BI) : res bool :=
  if m_nLength A =? 1 then x ← rd (m_ulValue A) 0; Ret (x =? 0)
  else Ret false.

Definition SetZero (A : BI) : BI := zeroBI.

(** ** Addition and subtraction *)

Definition add_step (b : list Z) (i : Z) (st : list Z * Z) : res (list Z * Z) :=
  let '(v, carry) := st in
  x ← rd b i;
  y ← rd v i;
  let sum := u64 (x + y + carry) in
  v ← wr v i (u32 sum);
  Ret (v, if sum >? MASK32 then 1 else 0).

(** The branch of [Add] for equal signs. *)
Definition Add_same (A B : BI) : res BI :=
  let len := if m_nLength A <? m_nLength B then m_nLength B else m_nLength A in
  '(v, carry) ← forU (Z.to_nat len) 0 (add_step (m_ulValue B)) (m_ulValue A, 0);
  if len <? BI_MAXLEN then
    v ← wr v len carry;
    Ret (mkBI (m_nSign A) (len + carry) v)
  else Ret (mkBI (m_nSign A) len v).

(** [s]/[d] are the arrays of the larger/smaller number; one of them is the
    array that is written. *)
Definition sub_step (cmp : Z) (b : list Z) (i : Z) (st : list Z * Z) : res (list Z * Z) :=
  let '(v, carry) := st in
  x ← rd v i;
  y ← rd b i;
  let '(s, d) := if cmp >? 0 then (x, y) else (y, x) in
  if u32 (s - carry) >=? d then
    v ← wr v i (u32 (u32 (s - carry) - d));
    Ret (v, 0)
  else
    let num := u64 (W32 + s) in
    v ← wr v i (u32 (num - carry - d));
    Ret (v, 1).

(** [while (p->m_ulValue[len-1] == 0) len--;] *)
Fixpoint trim (v : list Z) (n : nat) : res Z :=
  match n with
  | O => Fault
  | S n' =>
      x ← rd v (Z.of_nat n');
      if x =? 0 then trim v n' else Ret (Z.of_nat (S n'))
  end.

(** The branch of [Sub] for equal signs. *)
Definition Sub_same (A B : BI) : res BI :=
  cmp ← Cmp A B;
  if cmp =? 0 then Ret (SetZero A)
  else
    let len := if cmp >? 0 then m_nLength A else m_nLength B in
    let sign := if cmp >? 0 then m_nSign A else 1 - m_nSign A in
    '(v, _) ← forU (Z.to_nat len) 0 (sub_step cmp (m_ulValue B)) (m_ulValue A, 0);
    len ← trim v (Z.to_nat len);
    Ret (mkBI sign len v).

(** [Add] and [Sub] call each other when the signs differ. *)
Fixpoint Add_rec (fuel : nat) (A B : BI) : M BI :=
  match fuel with
  | O => fuelM
  | S fuel' =>
      if m_nSign A =? m_nSign B then lift (Add_same A B)
      else
        p ← move B;
        p ← deref p;
        A' ← Sub_rec fuel' A (with_sign p (1 - m_nSign p));
        _ ← kfree;
        mret A'
  end
with Sub_rec (fuel : nat) (A B : BI) : M BI :=
  match fuel with
  | O => fuelM
  | S fuel' =>
      if m_nSign A =? m_nSign B then lift (Sub_same A B)
      else
        p ← move B;
        p ← deref p;
        A' ← Add_rec fuel' A (with_sign p (1 - m_nSign p));
        _ ← kfree;
        mret A'
  end.

Definition Add (A B : BI) : M BI := Add_rec 2 A B.
Definition Sub (A B : BI) : M BI := Sub_rec 2 A B.

(** [while (p->m_ulValue[i] == x) { p->m_ulValue[i] = y; i++; }] *)
Fixpoint ripple (fuel : nat) (x y : Z) (v : list Z) (i : Z) : res (list Z * Z) :=
  match fuel with
  | O => OutOfFuel
  | S fuel' =>
      w ← rd v i;
      if w =? x then v ← wr v i y; ripple fuel' x y v (i + 1)
      else Ret (v, i)
  end.

Definition ripple_fuel : nat := Z.to_nat (BI_MAXLEN + 1).

(** The branch of [Add_p] for [m_nSign * b >= 0].  [b + m_ulValue[0]] is an
    [unsigned int] expression. *)
Definition Add_p_same (A : BI) (b : Z) : res BI :=
  x ← rd (m_ulValue A) 0;
  let sum := u32 (b + x) in
  v ← wr (m_ulValue A) 0 (u32 sum);
  if sum >? MASK32 then
    '(v, i) ← ripple ripple_fuel MASK32 0 v 1;
    w ← rd v i;
    v ← wr v i (u32 (w + 1));
    Ret (mkBI (m_nSign A) (if i <? BI_MAXLEN then i + 1 else m_nLength A) v)
  else Ret (with_value A v).

(** The branch of [Sub_p] for [m_nSign * b >= 0]. *)
Definition Sub_p_same (A : BI) (b : Z) : res BI :=
  x ← rd (m_ulValue A) 0;
  if x >=? u32 b then
    v ← wr (m_ulValue A) 0 (u32 (x - b));
    Ret (with_value A v)
  else if m_nLength A =? 1 then
    v ← wr (m_ulValue A) 0 (u32 (b - x));
    Ret (mkBI (1 - m_nSign A) (m_nLength A) v)
  else
    let num := u64 (W32 + x) in
    v ← wr (m_ulValue A) 0 (u32 (num - b));
    '(v, i) ← ripple ripple_fuel 0 MASK32 v 1;
    w ← rd v i;
    v ← wr v i (u32 (w - 1));
    Ret (mkBI (m_nSign A) (if w =? 1 then m_nLength A - 1 else m_nLength A) v).

Fixpoint Add_p_rec (fuel : nat) (A : BI) (b : Z) : res BI :=
  match fuel with
  | O => OutOfFuel
  | S fuel' => if m_nSign A * b >=? 0 then Add_p_same A b else Sub_p_rec fuel' A (s32 (- b))
  end
with Sub_p_rec (fuel : nat) (A : BI) (b : Z) : res BI :=
  match fuel with
  | O => OutOfFuel
  | S fuel' => if m_nSign A * b >=? 0 then Sub_p_same A b else Add_p_rec fuel' A (s32 (- b))
  end.

Definition Add_p (A : BI) (b : Z) : res BI := Add_p_rec 2 A b.
Definition Sub_p (A : BI) (b : Z) : res BI := Sub_p_rec 2 A b.

(** ** Multiplication *)

Definition mul_step (a : list Z) (bi : Z) (j : Z) (st : list Z * Z) : res (list Z * Z) :=
  let '(q, carry) := st in
  x ← rd a j;
  let mul := u64 (x * bi + carry) in
  q ← wr q j (u32 mul);
  Ret (q, u32 (Z.shiftr mul 32)).

(** Move the first [qlen - i] digits up by [i] places and clear the lowest
    [i]: the two shift loops used by [Mul], [Div] and [Mod]. *)
Definition shift_up (v : list Z) (qlen i : Z) : res (list Z) :=
  v ← forD (Z.to_nat (qlen - i)) (qlen - 1)
        (fun k v => x ← rd v (k - i); wr v k x) v;
  forU (Z.to_nat i) 0 (fun k v => wr v k 0) v.

(** One iteration of the outer loop of [Mul]: the partial product for digit
    [i] of [B], added to the accumulator. *)
Definition mul_row (A B : BI) (i : Z) (st : BI * BI) : M (BI * BI) :=
  let '(p, q) := st in
  bi ← lift (rd (m_ulValue B) i);
  '(qv, carry) ← lift (forU (Z.to_nat (m_nLength A)) 0 (mul_step (m_ulValue A) bi) (m_ulValue q, 0));
  let qlen := m_nLength A in
  '(qv, qlen) ← lift (if negb (carry =? 0) && (qlen <? BI_MAXLEN)
                      then w ← wr qv qlen carry; Ret (w, qlen + 1)
                      else Ret (qv, qlen));
  '(qv, qlen) ← lift (if qlen <? BI_MAXLEN - i
                      then w ← shift_up qv (qlen + i) i; Ret (w, qlen + i)
                      else Ret (qv, qlen));
  let q := mkBI (m_nSign q) qlen qv in
  p ← Add p q;
  mret (p, q).

Definition Mul (A B : BI) : M BI :=
  p ← init_BI;
  q ← init_BI;
  p ← deref p;
  q ← deref q;
  '(p, _) ← forM (Z.to_nat (m_nLength B)) 0 (mul_row A B) (p, q);
  _ ← kfree;
  mret (with_sign p (if m_nSign A + m_nSign B =? 1 then 0 else 1)).

Definition mulp_step (b : Z) (i : Z) (st : list Z * Z) : res (list Z * Z) :=
  let '(v, carry) := st in
  x ← rd v i;
  let mul := u64 (x * u64 b + carry) in
  v ← wr v i (u32 mul);
  Ret (v, u32 (Z.shiftr (u64 (mul - u32 mul)) 32)).

Definition Mul_p (A : BI) (b : Z) : res BI :=
  '(v, carry) ← forU (Z.to_nat (m_nLength A)) 0 (mulp_step b) (m_ulValue A, 0);
  '(v, len) ← (if negb (carry =? 0) && (m_nLength A <? BI_MAXLEN)
               then w ← wr v (m_nLength A) carry; Ret (w, m_nLength A + 1)
               else Ret (v, m_nLength A));
  Ret (mkBI (if b <? 0 then 1 - m_nSign A else m_nSign A) len v).

(** ** Division by a machine integer *)

Definition divp_step (b : Z) (i : Z) (st : list Z * Z) : res (list Z * Z) :=
  let '(v, carry) := st in
  x ← rd v i;
  let div := u64 (Z.shiftl carry 32 + x) in
  t ← do_div div (u32 b);
  v ← wr v i (u32 t);
  let mul := u64 (t * u64 b) in
  Ret (v, u32 (div - mul)).

Definition Div_p (A : BI) (b : Z) : res BI :=
  if m_nLength A =? 1 then
    x ← rd (m_ulValue A) 0;
    if u32 b =? 0 then Fault
    else v ← wr (m_ulValue A) 0 (x / u32 b); Ret (with_value A v)
  else
    '(v, _) ← forD (Z.to_nat (m_nLength A)) (m_nLength A - 1) (divp_step b) (m_ulValue A, 0);
    top ← rd v (m_nLength A - 1);
    Ret (mkBI (if b <? 0 then 1 - m_nSign A else m_nSign A)
              (if top =? 0 then m_nLength A - 1 else m_nLength A) v).

Definition modp_step (b : Z) (a : list Z) (i : Z) (carry : Z) : res Z :=
  x ← rd a i;
  let div := u64 (carry * W32 + x) in
  t ← do_div div (u32 b);
  Ret (u32 (div - u64 (t * u64 b))).

Definition Mod_p (A : BI) (b : Z) : res Z :=
  if m_nLength A =? 1 then
    x ← rd (m_ulValue A) 0;
    if u32 b =? 0 then Fault else Ret (x mod u32 b)
  else
    forD (Z.to_nat (m_nLength A)) (m_nLength A - 1) (modp_step b (m_ulValue A)) 0.

(** ** Division by a big integer

    The quotient estimate shared by [Div] and [Mod]: [Some (div, len)] asks to
    subtract [div * B * 2^(32 len)]; [None] is the last branch of the [if]. *)
Definition quot_estimate (p B : BI) : res (option (Z * Z)) :=
  pt ← rd (m_ulValue p) (m_nLength p - 1);
  bt ← rd (m_ulValue B) (m_nLength B - 1);
  if pt >? bt then
    if u32 (bt + 1) =? 0 then Fault
    else Ret (Some (pt / u32 (bt + 1), m_nLength p - m_nLength B))
  else if m_nLength p >? m_nLength B then
    nx ← rd (m_ulValue p) (m_nLength p - 2);
    let num := u64 (Z.shiftl pt 32 + nx) in
    div ← (if bt =? MASK32 then Ret (Z.shiftr num 32) else do_div num (u32 (bt + 1)));
    Ret (Some (div, m_nLength p - m_nLength B - 1))
  else Ret None.

(** [Mod] and [Exp_Mod] are written over the in-place subtraction they call;
    [bi.c] calls [Sub]. *)
Section with_subtraction.
Variable sub : BI -> BI -> M BI.

Fixpoint Mod_loop (fuel : nat) (p B : BI) : M BI :=
  match fuel with
  | O => fuelM
  | S fuel' =>
      c ← lift (Cmp p B);
      if c >? 0 then
        e ← lift (quot_estimate p B);
        match e with
        | None => sub p B
        | Some (div, len) =>
            tmp ← move_p div;
            tmp ← deref tmp;
            q ← Mul tmp B;
            _ ← kfree;
            let qlen := m_nLength q + len in
            qv ← lift (shift_up (m_ulValue q) qlen len);
            p ← sub p (mkBI (m_nSign q) qlen qv);
            _ ← kfree;
            Mod_loop fuel' p B
        end
      else mret p
  end.

Definition Mod_with (fuel : nat) (A B : BI) : M BI :=
  p ← move A;
  p ← deref p;
  p ← Mod_loop fuel p B;
  c ← lift (Cmp p B);
  mret (if c =? 0 then SetZero p else p).

(** [tmp = Mul(x, y); free(x); x = tmp; tmp = Mod(x, mod); free(x); x = tmp;] *)
Definition mulmod (fuel : nat) (x y m : BI) : M BI :=
  t ← Mul x y;
  _ ← kfree;
  r ← Mod_with fuel t m;
  _ ← kfree;
  mret r.

Fixpoint Exp_Mod_loop (mfuel fuel : nat) (x y z m : BI) : M BI :=
  match fuel with
  | O => fuelM
  | S fuel' =>
      z0 ← lift (rd (m_ulValue z) 0);
      if negb (m_nLength z =? 1) || negb (z0 =? 0) then
        if Z.testbit z0 0 then
          z ← lift (Sub_p z 1);
          x ← mulmod mfuel x y m;
          Exp_Mod_loop mfuel fuel' x y z m
        else
          z ← lift (Div_p z 2);
          y ← mulmod mfuel y y m;
          Exp_Mod_loop mfuel fuel' x y z m
      else mret x
  end.

Definition Exp_Mod_with (mfuel fuel : nat) (base exp m : BI) : M BI :=
  x ← move_p 1;
  y ← move base;
  z ← move exp;
  x ← deref x;
  y ← deref y;
  z ← deref z;
  x ← Exp_Mod_loop mfuel fuel x y z m;
  _ ← kfree;
  _ ← kfree;
  mret x.
End with_subtraction.

(** Loop bounds; [BiExp.v] proves that they are never reached ([mod_fuel_enough]: an
    iteration of [Mod] removes more than a quarter of the number). *)
Definition mod_fuel : nat := Z.to_nat 10321.
Definition exp_fuel : nat := Z.to_nat 8400.

Definition Mod (A B : BI) : M BI := Mod_with Sub mod_fuel A B.
Definition Exp_Mod (base exp m : BI) : M BI := Exp_Mod_with Sub mod_fuel exp_fuel base exp m.

(** One iteration of [Div] allocates [r] afresh without releasing the previous
    block. *)
Fixpoint Div_loop (fuel : nat) (p q r B : BI) : M (BI * BI * BI) :=
  match fuel with
  | O => fuelM
  | S fuel' =>
      c ← lift (Cmp q B);
      if c >? 0 then
        e ← lift (quot_estimate q B);
        match e with
        | None => p ← lift (Add_p p 1); mret (p, q, r)
        | Some (div, len) =>
            r ← move_p div;
            r ← deref r;
            let rlen := m_nLength r + len in
            rv ← lift (shift_up (m_ulValue r) rlen len);
            let r := mkBI (m_nSign r) rlen rv in
            p ← Add p r;
            tmp ← Mul r B;
            _ ← kfree;
            q ← Sub q tmp;
            Div_loop fuel' p q tmp B
        end
      else mret (p, q, r)
  end.

Definition Div (A B : BI) : M BI :=
  p ← init_BI;
  q ← move A;
  r ← init_BI;
  p ← deref p;
  q ← deref q;
  r ← deref r;
  '(p, q, r) ← Div_loop mod_fuel p q r B;
  c ← lift (Cmp q B);
  p ← lift (if c =? 0 then Add_p p 1 else Ret p);
  _ ← kfree;
  _ ← kfree;
  mret (with_sign p (if m_nSign A + m_nSign B =? 1 then 0 else 1)).

(** ** Input and output *)

(** The digit value of character [ch]; for any other base the previous value
    of [c] is kept. *)
Definition digit_of (system ch c : Z) : Z :=
  if system =? DEC then ch - 48
  else if system =? HEX then
    if ch >=? 97 then ch - 97 + 10
    else if ch >=? 65 then ch - 65 + 10
    else ch - 48
  else c.

Fixpoint str_loop (p : BI) (str : list Z) (system c : Z) : res BI :=
  match str with
  | [] => Ret p
  | ch :: str' =>
      p ← Mul_p p system;
      let c := digit_of system ch c in
      p ← Add_p p c;
      str_loop p str' system c
  end.

(** The characters before the terminating NUL. *)
Fixpoint cstr (s : list Z) : list Z :=
  match s with
  | [] => []
  | ch :: s' => if ch =? 0 then [] else ch :: cstr s'
  end.

Definition InPutFromStr (str : list Z) (system : Z) : M (option BI) :=
  p ← init_BI;
  match p with
  | None => mret None
  | Some p => r ← lift (str_loop p (cstr str) system 0); mret (Some r)
  end.

(** ['0' + nibble]: the digits above 9 are the characters [':'] to ['?'], which
    [InPutFromStr] reads back with [ch - 48]. *)
Definition nibble_chars (b : Z) : list Z := [48 + Z.shiftr b 4; 48 + Z.land b 15].

Definition InPutFromAddr (addr : list Z) (len : Z) : M (option BI) :=
  if len >? 128 then mret None
  else
    let bytes := firstn (Z.to_nat len) addr in
    if Zlen bytes <? len then faultM
    else InPutFromStr (concat (map nibble_chars bytes) ++ [0]) HEX.

(** The four bytes of a digit, most significant first. *)
Definition be_bytes (x : Z) : list Z :=
  [Z.land (Z.shiftr x 24) 255; Z.land (Z.shiftr x 16) 255;
   Z.land (Z.shiftr x 8) 255; Z.land (Z.shiftr x 0) 255].

(** A 32-bit store of the little-endian CPU. *)
Definition le_bytes (x : Z) : list Z :=
  [Z.land (Z.shiftr x 0) 255; Z.land (Z.shiftr x 8) 255;
   Z.land (Z.shiftr x 16) 255; Z.land (Z.shiftr x 24) 255].

(** The bytes written from [addr] on. *)
Definition OutPutToAddr (A : BI) (reverse : bool) : res (list Z) :=
  if reverse then
    forD (Z.to_nat (m_nLength A)) (m_nLength A - 1)
      (fun i out => x ← rd (m_ulValue A) i; Ret (out ++ be_bytes x)) []
  else
    forU (Z.to_nat (m_nLength A)) 0
      (fun i out => x ← rd (m_ulValue A) i; Ret (out ++ le_bytes x)) [].
