(* ===== verification/BiArith.v ===== *)
(** * Big integers: comparison, addition, subtraction, multiplication

    Lemmas on the operations of [Bi.v]: the invariant [wf] of the [BI]
    structure, the number [mag] it stands for, and the specifications of
    [Cmp], [Add], [Sub], [Mul] in terms of it. *)
From stdpp Require Import base tactics list numbers option.
From Stdlib Require Import ZArith Lia.
From S2P Require Import Prelude Bi.

(** ** The number a [BI] stands for *)

Definition Wn (n : nat) : Z := W32 ^ Z.of_nat n.

(** The number held by the first [n] digits. *)
Fixpoint val (v : list Z) (n : nat) : Z :=
  match n with
  | O => 0
  | S n' => val v n' + v.[Z.of_nat n'] * Wn n'
  end.

Definition blen (A : BI) : nat := Z.to_nat (m_nLength A).
Definition mag (A : BI) : Z := val (m_ulValue A) (blen A).

(** Arrays of [BI_MAXLEN] 32-bit digits. *)
Definition digits (v : list Z) : Prop := Zlen v = BI_MAXLEN /\ Forall is_u32 v.

Definition zeros_from (v : list Z) (n : Z) : Prop :=
  forall j, n <= j -> 0 <= j -> v.[j] = 0.

Record wf (A : BI) : Prop := {
  wf_digits : digits (m_ulValue A);
  wf_len : 1 <= m_nLength A <= BI_MAXLEN;
  wf_zero : zeros_from (m_ulValue A) (m_nLength A);
  wf_sign : m_nSign A = 1
}.

(** No leading zero digit. *)
Definition norm (A : BI) : Prop := m_nLength A = 1 \/ Wn (blen A - 1) <= mag A.

(** ** Digits whose borrow the subtraction loop loses

    [sub_step] compares [s[i] - carry] as an unsigned word, so a borrow that
    reaches a zero digit of the minuend is dropped.  [borrow_ok s d i n c] says
    that this does not happen from digit [i] on. *)
Fixpoint borrow_ok (s d : list Z) (i : Z) (n : nat) (carry : Z) : bool :=
  match n with
  | O => true
  | S n' =>
      negb ((carry =? 1) && (s.[i] =? 0)) &&
      borrow_ok s d (i + 1) n' (if s.[i] - carry <? d.[i] then 1 else 0)
  end.

Definition sub_safe (A B : BI) : bool :=
  match Cmp A B with
  | Ret c =>
      if c >? 0 then borrow_ok (m_ulValue A) (m_ulValue B) 0 (blen A) 0
      else if c <? 0 then borrow_ok (m_ulValue B) (m_ulValue A) 0 (blen B) 0
      else true
  | _ => false
  end.

(** [Sub] with that condition checked. *)
Definition Sub_checked (A B : BI) : M BI := if sub_safe A B then Sub A B else faultM.

(** What [Mod] and [Exp_Mod] need from a subtraction: on non-negative
    normalised numbers with [B <= A] it either stops or returns the normalised
    difference, and leaves the heap as it was. *)
Class Subtractor (sub : BI -> BI -> M BI) := {
  subtractor_spec : forall A B h,
    wf A -> wf B -> norm A -> norm B -> mag B <= mag A ->
    sub A B h = Fault \/
    exists R, sub A B h = Ret (R, h) /\ wf R /\ norm R /\ mag R = mag A - mag B
}.

(** ** Powers of the base and values of digit arrays *)

Lemma Wn_0 : Wn 0 = 1.
Proof. reflexivity. Qed.

Lemma Wn_S n : Wn (S n) = W32 * Wn n.
Proof. unfold Wn. rewrite Nat2Z.inj_succ, Z.pow_succ_r; lia. Qed.

Lemma Wn_add n m : Wn (n + m) = Wn n * Wn m.
Proof. unfold Wn. rewrite Nat2Z.inj_add, Z.pow_add_r; lia. Qed.

Lemma Wn_pos n : 0 < Wn n.
Proof. unfold Wn, W32. apply Z.pow_pos_nonneg; lia. Qed.

Lemma Wn_le n m : (n <= m)%nat -> Wn n <= Wn m.
Proof. intros. unfold Wn, W32. apply Z.pow_le_mono_r; lia. Qed.

Lemma Wn_lt_inv n m : Wn n < Wn m -> (n < m)%nat.
Proof.
  intros H. destruct (Nat.lt_ge_cases n m); [done|].
  pose proof (Wn_le m n ltac:(done)). lia.
Qed.

Lemma digits_at v i : digits v -> is_u32 v.[i].
Proof.
  intros [Hl Hd]. destruct (decide (0 <= i < Zlen v)).
  - by apply at_Forall.
  - unfold at_. destruct (decide (i < 0)).
    + replace (Z.to_nat i) with 0%nat by lia.
      replace (nth 0 v 0) with v.[0] by done. apply at_Forall; [done|].
      unfold BI_MAXLEN in Hl. lia.
    + rewrite nth_overflow; [unfold is_u32, W32; lia|]. unfold Zlen in *. lia.
Qed.

Lemma digits_insert v i x : digits v -> is_u32 x -> digits (<[Z.to_nat i := x]> v).
Proof.
  intros [Hl Hd] Hx. split.
  - by rewrite Zlen_insert.
  - by apply Forall_insert.
Qed.

Lemma val_bound v n : digits v -> 0 <= val v n < Wn n.
Proof.
  intros Hd. induction n as [|n IH]; simpl.
  - rewrite Wn_0. lia.
  - pose proof (digits_at v (Z.of_nat n) Hd) as H. unfold is_u32 in H.
    rewrite Wn_S. nia.
Qed.

Lemma val_1 v : val v 1 = v.[0].
Proof. cbn [val]. change (Z.of_nat 0) with 0. rewrite Wn_0. lia. Qed.

Lemma val_ext v w n :
  (forall i, 0 <= i < Z.of_nat n -> v.[i] = w.[i]) -> val v n = val w n.
Proof.
  induction n as [|n IH]; intros H; [done|]. simpl.
  rewrite IH by (intros; apply H; lia). rewrite (H (Z.of_nat n)) by lia. done.
Qed.

Lemma val_insert v n i x :
  Z.of_nat n <= i -> val (<[Z.to_nat i := x]> v) n = val v n.
Proof. intros. apply val_ext. intros j Hj. apply at_insert_ne; lia. Qed.

(** Writing digit [n] and then reading [n + 1] digits. *)
Lemma val_insert_top v n x :
  Z.of_nat n < Zlen v -> val (<[Z.to_nat (Z.of_nat n) := x]> v) (S n) = val v n + x * Wn n.
Proof.
  intros. cbn [val]. rewrite val_insert by lia. by rewrite at_insert_eq by lia.
Qed.

Lemma val_zeros v n m :
  zeros_from v (Z.of_nat n) -> (n <= m)%nat -> val v m = val v n.
Proof.
  intros Hz. induction m as [|m IH]; intros Hm.
  - by replace n with 0%nat by lia.
  - destruct (decide (n = S m)) as [->|]; [done|]. simpl.
    rewrite Hz, IH by lia. lia.
Qed.

Lemma val_mono v n m : digits v -> (n <= m)%nat -> val v n <= val v m.
Proof.
  intros Hd Hm. induction m as [|m IH].
  - by replace n with 0%nat by lia.
  - destruct (decide (n = S m)) as [->|]; [done|]. simpl.
    pose proof (digits_at v (Z.of_nat m) Hd) as H. unfold is_u32 in H.
    pose proof (Wn_pos m). assert (val v n <= val v m) by (apply IH; lia). nia.
Qed.

Lemma mag_wide A n : wf A -> (blen A <= n)%nat -> val (m_ulValue A) n = mag A.
Proof.
  intros HA Hn. apply val_zeros; [|done]. unfold blen.
  destruct HA. rewrite Z2Nat.id by lia. done.
Qed.

Lemma mag_1 A : m_nLength A = 1 -> mag A = (m_ulValue A).[0].
Proof. intros E. unfold mag, blen. rewrite E. apply val_1. Qed.

Lemma blen_Z A : wf A -> Z.of_nat (blen A) = m_nLength A.
Proof. intros []. unfold blen. lia. Qed.

Lemma blen_pos A : wf A -> (1 <= blen A <= 129)%nat.
Proof. intros []. unfold blen, BI_MAXLEN in *. lia. Qed.

Lemma mag_bound A : wf A -> 0 <= mag A < Wn (blen A).
Proof. intros HA. apply val_bound, HA. Qed.

Lemma norm_lower A : wf A -> norm A -> 0 < mag A -> Wn (blen A - 1) <= mag A.
Proof.
  intros HA [H|H] Hp; [|done]. unfold blen. rewrite H. simpl.
  change (Wn 0) with 1. lia.
Qed.

Lemma norm_top A : wf A -> norm A -> 0 < mag A -> 1 <= (m_ulValue A).[m_nLength A - 1].
Proof.
  intros HA HN Hp. pose proof (norm_lower A HA HN Hp) as HL.
  pose proof (blen_pos A HA). unfold mag in *.
  destruct (blen A) as [|n] eqn:E; [lia|]. cbn [val] in HL.
  replace (S n - 1)%nat with n in HL by lia.
  pose proof (blen_Z A HA). rewrite E in *.
  replace (m_nLength A - 1) with (Z.of_nat n) by lia.
  destruct (val_bound (m_ulValue A) n (wf_digits _ HA)).
  pose proof (digits_at _ (Z.of_nat n) (wf_digits _ HA)) as Hd. unfold is_u32 in Hd.
  pose proof (Wn_pos n).
  destruct (decide (1 <= (m_ulValue A).[Z.of_nat n])); [done|].
  assert ((m_ulValue A).[Z.of_nat n] = 0) as E0 by lia. rewrite E0 in HL. lia.
Qed.

(** A longer normalised number is larger. *)
Lemma norm_len_lt A B : wf A -> wf B -> norm B ->
  m_nLength A < m_nLength B -> mag A < mag B.
Proof.
  intros HA HB HN Hlt. destruct HN as [HN|HN].
  - pose proof (wf_len _ HA). lia.
  - pose proof (mag_bound A HA). pose proof (blen_Z A HA). pose proof (blen_Z B HB).
    assert (Wn (blen A) <= Wn (blen B - 1)) by (apply Wn_le; lia). lia.
Qed.

Lemma digits_zero : digits (replicate (Z.to_nat BI_MAXLEN) 0).
Proof.
  split; [done|]. apply Forall_replicate. unfold is_u32, W32. lia.
Qed.

Lemma at_replicate0 n i : (replicate n 0).[i] = 0.
Proof.
  unfold at_. rewrite nth_lookup.
  destruct (replicate n 0 !! Z.to_nat i) as [x|] eqn:E; [|done].
  by apply lookup_replicate in E as [-> _].
Qed.

Lemma wf_zeroBI : wf zeroBI.
Proof.
  unfold zeroBI. split; cbn [m_nSign m_nLength m_ulValue].
  - apply digits_zero.
  - unfold BI_MAXLEN. lia.
  - intros j _ _. apply at_replicate0.
  - done.
Qed.

Lemma norm_zeroBI : norm zeroBI.
Proof. by left. Qed.

Lemma mag_zeroBI : mag zeroBI = 0.
Proof. reflexivity. Qed.
#[export] Hint Resolve wf_zeroBI norm_zeroBI Wn_pos : bi.

(** ** Comparison *)

Definition Zcmp (x y : Z) : Z := if y <? x then 1 else if x <? y then -1 else 0.

Lemma Cmp_loop_spec v w n :
  digits v -> digits w -> Z.of_nat n <= BI_MAXLEN ->
  Cmp_loop v w n = Ret (Zcmp (val v n) (val w n)).
Proof.
  intros Hv Hw. induction n as [|n IH]; intros Hn; [done|].
  cbn [Cmp_loop val].
  rewrite !rd_ok by (destruct Hv, Hw; unfold BI_MAXLEN in *; lia).
  rewrite !res_bind_Ret.
  pose proof (val_bound v n Hv). pose proof (val_bound w n Hw).
  unfold Zcmp. rewrite IH by lia. unfold Zcmp.
  repeat zcase; try reflexivity; exfalso; nia.
Qed.

Lemma Cmp_spec A B : wf A -> wf B -> norm A -> norm B ->
  Cmp A B = Ret (Zcmp (mag A) (mag B)).
Proof.
  intros HA HB NA NB. unfold Cmp.
  rewrite Z.gtb_ltb. destruct (Z.ltb_spec (m_nLength B) (m_nLength A)) as [H|H].
  - pose proof (norm_len_lt B A HB HA NA H). unfold Zcmp. by zcase.
  - destruct (Z.ltb_spec (m_nLength A) (m_nLength B)) as [H'|H'].
    + pose proof (norm_len_lt A B HA HB NB H'). unfold Zcmp. repeat zcase; done.
    + assert (m_nLength A = m_nLength B) as E by lia.
      rewrite Cmp_loop_spec.
      * unfold mag, blen. by rewrite E.
      * apply HA.
      * apply HB.
      * pose proof (wf_len _ HA). lia.
Qed.

(** ** Addition *)

Definition add_inv (a b : list Z) (i : Z) (st : list Z * Z) : Prop :=
  let '(v, c) := st in
  digits v /\ 0 <= c <= 1 /\
  val v (Z.to_nat i) + c * Wn (Z.to_nat i) = val a (Z.to_nat i) + val b (Z.to_nat i) /\
  (forall j, i <= j -> v.[j] = a.[j]).

Lemma add_step_inv a b i st :
  digits b -> 0 <= i < BI_MAXLEN -> add_inv a b i st ->
  exists st', add_step b i st = Ret st' /\ add_inv a b (i + 1) st'.
Proof.
  destruct st as [v c]. intros Hb Hi (Hv & Hc & HV & Hj).
  pose proof (digits_at v i Hv) as Hvi. pose proof (digits_at b i Hb) as Hbi.
  unfold add_step. rewrite !rd_ok by (destruct Hv, Hb; lia). rewrite !res_bind_Ret.
  rewrite wr_ok by (destruct Hv; lia). rewrite res_bind_Ret.
  assert (Hs : u64 (b.[i] + v.[i] + c) = b.[i] + v.[i] + c).
  { unfold u64, is_u32, W32 in *. apply Z.mod_small. lia. }
  rewrite Hs. set (sum := b.[i] + v.[i] + c).
  eexists. split; [reflexivity|].
  set (c' := if sum >? MASK32 then 1 else 0).
  assert (Hsum : u32 sum + c' * W32 = sum).
  { unfold c', u32, MASK32, is_u32, W32 in *. subst sum. rewrite Z.gtb_ltb.
    destruct (Z.ltb_spec 4294967295 (b.[i] + v.[i] + c)).
    - rewrite <- (Z.mod_unique_pos _ _ 1 (b.[i] + v.[i] + c - 4294967296)); lia.
    - rewrite Z.mod_small; lia. }
  unfold add_inv. repeat split.
  - by rewrite Zlen_insert; apply Hv.
  - apply Forall_insert; [apply Hv|apply u32_range].
  - unfold c'. destruct (sum >? MASK32); lia.
  - unfold c'. destruct (sum >? MASK32); lia.
  - replace (Z.to_nat (i + 1)) with (S (Z.to_nat i)) by lia.
    replace i with (Z.of_nat (Z.to_nat i)) at 1 by lia.
    rewrite val_insert_top by (destruct Hv; lia).
    cbn [val]. rewrite Wn_S. rewrite Z2Nat.id by lia.
    rewrite <- (Hj i) by lia. unfold sum in Hsum. fold sum in Hsum.
    pose proof (Wn_pos (Z.to_nat i)). subst sum. nia.
  - intros j Hj'. rewrite at_insert_ne by lia. apply Hj. lia.
Qed.

Lemma Add_same_spec A B :
  wf A -> wf B -> Z.max (m_nLength A) (m_nLength B) < BI_MAXLEN ->
  exists R, Add_same A B = Ret R /\ wf R /\ mag R = mag A + mag B /\
    Z.max (m_nLength A) (m_nLength B) <= m_nLength R <= Z.max (m_nLength A) (m_nLength B) + 1 /\
    (m_nLength R > Z.max (m_nLength A) (m_nLength B) ->
       Wn (Z.to_nat (Z.max (m_nLength A) (m_nLength B))) <= mag R).
Proof.
  intros HA HB Hmax. unfold Add_same.
  replace (if m_nLength A <? m_nLength B then m_nLength B else m_nLength A)
    with (Z.max (m_nLength A) (m_nLength B)) by (zcase; lia).
  set (len := Z.max (m_nLength A) (m_nLength B)) in *.
  pose proof (wf_len _ HA). pose proof (wf_len _ HB).
  destruct (forU_inv (add_inv (m_ulValue A) (m_ulValue B)) (add_step (m_ulValue B))
              (Z.to_nat len) 0 (m_ulValue A, 0)) as ([v c] & Hloop & HI).
  { split; [apply HA|]. simpl. repeat split; try lia. }
  { intros j t Hj. apply add_step_inv; [apply HB|lia]. }
  mstep Hloop. rewrite Z.add_0_l, Z2Nat.id in HI by lia.
  destruct HI as (Hv & Hc & HV & Hj).
  zcase. rewrite wr_ok by (destruct Hv; lia). rewrite res_bind_Ret.
  rewrite (mag_wide A) in HV by (done || unfold blen; lia).
  rewrite (mag_wide B) in HV by (done || unfold blen; lia).
  assert (HR : mag (mkBI (m_nSign A) (len + c) (<[Z.to_nat len := c]> v)) = mag A + mag B).
  { rewrite <- HV. unfold mag, blen; cbn [m_nLength m_ulValue].
    destruct (decide (c = 0)) as [->|].
    - rewrite Z.add_0_r, val_insert by lia. lia.
    - assert (c = 1) as -> by lia.
      replace (Z.to_nat (len + 1)) with (S (Z.to_nat len)) by lia.
      rewrite <- (val_insert_top v (Z.to_nat len) 1) by (destruct Hv; lia).
      by rewrite Z2Nat.id by lia. }
  eexists. split; [reflexivity|]. split; [|split; [done|split]].
  - split; cbn [m_nSign m_nLength m_ulValue].
    + apply digits_insert; [done|]. unfold is_u32, W32. lia.
    + lia.
    + intros j Hj1 Hj2. rewrite at_insert by (destruct Hv; lia).
      zcase; [lia|]. rewrite Hj by lia. apply HA; lia.
    + apply HA.
  - simpl. lia.
  - cbn [m_nLength]. intros Hgt. rewrite HR, <- HV.
    pose proof (val_bound v (Z.to_nat len) Hv). nia.
Qed.

Lemma Add_spec A B h :
  wf A -> wf B -> Z.max (m_nLength A) (m_nLength B) < BI_MAXLEN ->
  exists R, Add A B h = Ret (R, h) /\ wf R /\ mag R = mag A + mag B /\
    Z.max (m_nLength A) (m_nLength B) <= m_nLength R <= Z.max (m_nLength A) (m_nLength B) + 1 /\
    (m_nLength R > Z.max (m_nLength A) (m_nLength B) ->
       Wn (Z.to_nat (Z.max (m_nLength A) (m_nLength B))) <= mag R).
Proof.
  intros HA HB Hmax. destruct (Add_same_spec A B HA HB Hmax) as (R & HR & H).
  exists R. split; [|done]. unfold Add. cbn [Add_rec].
  rewrite (wf_sign _ HA), (wf_sign _ HB). simpl. by apply lift_Ret.
Qed.

(** ** Subtraction *)

(** The loop of [Sub_same] with minuend [s] and subtrahend [d]; [a] is the
    array that is overwritten. *)
Definition sub_inv (a s d : list Z) (n : nat) (i : Z) (st : list Z * Z) : Prop :=
  let '(v, c) := st in
  digits v /\ 0 <= c <= 1 /\
  val v (Z.to_nat i) + val d (Z.to_nat i) = val s (Z.to_nat i) + c * Wn (Z.to_nat i) /\
  (forall j, i <= j -> v.[j] = a.[j]) /\
  borrow_ok s d i (Z.to_nat (Z.of_nat n - i)) c = true.

Lemma sub_step_inv cmp a b n i st :
  let s := if cmp >? 0 then a else b in
  let d := if cmp >? 0 then b else a in
  digits b -> 0 <= i < Z.of_nat n -> Z.of_nat n <= BI_MAXLEN ->
  sub_inv a s d n i st ->
  exists st', sub_step cmp b i st = Ret st' /\ sub_inv a s d n (i + 1) st'.
Proof.
  intros s d Hb Hi Hn. destruct st as [v c]. intros (Hv & Hc & HV & Hj & Hok).
  pose proof (digits_at v i Hv) as Hvi. pose proof (digits_at b i Hb) as Hbi.
  unfold sub_step. rewrite !rd_ok by (destruct Hv, Hb; lia). rewrite !res_bind_Ret.
  assert (Esd : (if cmp >? 0 then (v.[i], b.[i]) else (b.[i], v.[i])) = (s.[i], d.[i])).
  { unfold s, d. rewrite (Hj i) by lia. by destruct (cmp >? 0). }
  rewrite Esd.
  assert (Hs : is_u32 s.[i]) by (unfold s; destruct (cmp >? 0); [rewrite <- (Hj i) by lia|]; done).
  assert (Hd : is_u32 d.[i]) by (unfold d; destruct (cmp >? 0); [|rewrite <- (Hj i) by lia]; done).
  replace (Z.to_nat (Z.of_nat n - i)) with (S (Z.to_nat (Z.of_nat n - (i + 1)))) in Hok by lia.
  cbn [borrow_ok] in Hok. apply andb_prop in Hok as [Hz Hok].
  assert (Hsc : u32 (s.[i] - c) = s.[i] - c).
  { apply u32_small. unfold is_u32 in *. destruct (Z.eqb_spec c 1), (Z.eqb_spec s.[i] 0); simpl in Hz; lia. }
  rewrite Hsc, Z.geb_leb.
  set (c' := if s.[i] - c <? d.[i] then 1 else 0) in *.
  set (x := s.[i] - c - d.[i] + c' * W32).
  assert (Hx : is_u32 x).
  { unfold x, c', is_u32, W32 in *. zcase; destruct (Z.eqb_spec c 1), (Z.eqb_spec s.[i] 0); simpl in Hz; lia. }
  assert (Hstep : exists v', v' = <[Z.to_nat i := x]> v /\
    (if d.[i] <=? s.[i] - c
     then v0 ← wr v i (u32 (s.[i] - c - d.[i])); Ret (v0, 0)
     else v0 ← wr v i (u32 (u64 (W32 + s.[i]) - c - d.[i])); Ret (v0, 1)) = Ret (v', c')).
  { eexists. split; [reflexivity|]. rewrite !wr_ok by (destruct Hv; lia).
    unfold c', x. destruct (Z.leb_spec d.[i] (s.[i] - c)); simpl.
    - unfold c' in *. destruct (Z.ltb_spec (s.[i] - c) d.[i]); [lia|].
      by rewrite Z.mul_0_l, Z.add_0_r, u32_small by (unfold is_u32 in *; lia).
    - unfold c', x in *. destruct (Z.ltb_spec (s.[i] - c) d.[i]); [|lia].
      replace (u64 (W32 + s.[i])) with (W32 + s.[i])
        by (unfold u64, is_u32, W32 in *; symmetry; apply Z.mod_small; lia).
      replace (W32 + s.[i] - c - d.[i]) with (s.[i] - c - d.[i] + 1 * W32) by lia.
      by rewrite u32_small. }
  destruct Hstep as (v' & -> & Hstep).
  exists (<[Z.to_nat i := x]> v, c'). split; [exact Hstep|].
  split; [by apply digits_insert|]. split; [unfold c'; zcase; lia|].
  split; [|split; [|done]].
  - replace (Z.to_nat (i + 1)) with (S (Z.to_nat i)) by lia.
    replace i with (Z.of_nat (Z.to_nat i)) at 1 by lia.
    rewrite val_insert_top by (destruct Hv; lia).
    cbn [val]. rewrite Wn_S, Z2Nat.id by lia. unfold x. nia.
  - intros j Hj'. rewrite at_insert_ne by lia. apply Hj. lia.
Qed.

Lemma trim_spec v n :
  digits v -> Z.of_nat n <= BI_MAXLEN -> 0 < val v n ->
  exists m, trim v n = Ret (Z.of_nat m) /\ (1 <= m <= n)%nat /\
    val v m = val v n /\ Wn (m - 1) <= val v m /\
    (forall j, Z.of_nat m <= j < Z.of_nat n -> v.[j] = 0).
Proof.
  intros Hv. induction n as [|n IH]; intros Hn Hp; [simpl in Hp; lia|].
  cbn [trim]. rewrite rd_ok by (destruct Hv; lia). rewrite res_bind_Ret.
  destruct (Z.eqb_spec v.[Z.of_nat n] 0) as [E|E].
  - cbn [val] in *. rewrite E, Z.mul_0_l, Z.add_0_r in *.
    destruct IH as (m & H1 & H2 & H3 & H4 & H5); [lia|done|].
    exists m. rewrite H1. repeat split; try lia.
    intros j Hj. destruct (decide (j = Z.of_nat n)) as [->|]; [done|]. apply H5. lia.
  - exists (S n). split; [done|]. split; [lia|]. split; [done|]. split; [|lia].
    cbn [val]. replace (S n - 1)%nat with n by lia.
    pose proof (val_bound v n Hv). pose proof (digits_at v (Z.of_nat n) Hv) as H0.
    unfold is_u32 in H0. pose proof (Wn_pos n). nia.
Qed.

(** The equal-sign branch computes the absolute difference, and the sign says
    which operand was larger. *)
Lemma Sub_same_spec A B :
  wf A -> wf B -> norm A -> norm B -> sub_safe A B = true ->
  exists R, Sub_same A B = Ret R /\ digits (m_ulValue R) /\
    1 <= m_nLength R <= BI_MAXLEN /\ zeros_from (m_ulValue R) (m_nLength R) /\
    norm R /\ mag R = Z.abs (mag A - mag B) /\
    m_nSign R = (if mag A <? mag B then 0 else 1).
Proof.
  intros HA HB NA NB. unfold sub_safe, Sub_same.
  rewrite (Cmp_spec A B HA HB NA NB), res_bind_Ret.
  destruct (Z.eq_dec (mag A) (mag B)) as [E|E].
  { intros _. unfold Zcmp. rewrite E, Z.ltb_irrefl. simpl.
    exists zeroBI. split; [done|].
    split; [apply wf_zeroBI|]. split; [unfold BI_MAXLEN; simpl; lia|].
    split; [apply wf_zeroBI|]. split; [apply norm_zeroBI|]. split; [|done].
    change (mag (SetZero A)) with 0. change (mag zeroBI) with 0. lia. }
  set (cmp := Zcmp (mag A) (mag B)).
  set (s := if cmp >? 0 then m_ulValue A else m_ulValue B).
  set (d := if cmp >? 0 then m_ulValue B else m_ulValue A).
  set (n := if cmp >? 0 then blen A else blen B).
  intros Hsafe.
  assert (Hok : borrow_ok s d 0 n 0 = true).
  { revert Hsafe. unfold s, d, n, cmp, Zcmp. repeat (zcase; simpl); done. }
  assert (Hcmp : (cmp =? 0) = false) by (unfold cmp, Zcmp; repeat zcase; done).
  assert (Hlen : Z.to_nat (if cmp >? 0 then m_nLength A else m_nLength B) = n).
  { unfold n, blen. by destruct (cmp >? 0). }
  pose proof (blen_pos A HA). pose proof (blen_pos B HB).
  assert (Hle : (blen A <= n /\ blen B <= n /\ 1 <= n <= 129)%nat).
  { unfold n, cmp, Zcmp. pose proof (blen_Z A HA). pose proof (blen_Z B HB).
    destruct (Z.ltb_spec (mag B) (mag A)); simpl.
    - destruct (decide (m_nLength A < m_nLength B)) as [Hl|]; [|lia].
      pose proof (norm_len_lt A B HA HB NB Hl). lia.
    - destruct (Z.ltb_spec (mag A) (mag B)); simpl; [|lia].
      destruct (decide (m_nLength B < m_nLength A)) as [Hl|]; [|lia].
      pose proof (norm_len_lt B A HB HA NA Hl). lia. }
  rewrite Hcmp, Hlen.
  destruct (forU_inv (sub_inv (m_ulValue A) s d n) (sub_step cmp (m_ulValue B))
              n 0 (m_ulValue A, 0)) as ([v c] & Hloop & HI).
  { split; [apply HA|]. simpl. repeat split; try lia. by rewrite Z.sub_0_r, Nat2Z.id. }
  { intros j t Hj. apply sub_step_inv; [apply HB|lia|]. unfold BI_MAXLEN. lia. }
  mstep Hloop. rewrite Z.add_0_l in HI. destruct HI as (Hv & Hc & HV & Hj & _).
  rewrite Nat2Z.id in HV.
  pose proof (val_bound v n Hv) as Hb.
  assert (Hval : val v n = Z.abs (mag A - mag B)).
  { assert (val s n = Z.max (mag A) (mag B) /\ val d n = Z.min (mag A) (mag B)) as [Es Ed].
    { unfold s, d, cmp, Zcmp in *. repeat (zcase; simpl); rewrite !mag_wide by (done || lia); lia. }
    rewrite Es, Ed in HV. assert (c = 0) as -> by nia. lia. }
  destruct (trim_spec v n Hv) as (m & Ht & Hm & Hm1 & Hm2 & Hm3); [unfold BI_MAXLEN; lia|lia|].
  mstep Ht. eexists. split; [reflexivity|]. cbn [m_ulValue m_nLength m_nSign].
  split; [done|]. split; [unfold BI_MAXLEN; lia|].
  split; [|split; [|split]].
  - intros j Hj1 Hj2. destruct (decide (j < Z.of_nat n)); [apply Hm3; lia|].
    rewrite Hj by lia. apply HA; [|lia]. pose proof (blen_Z A HA). lia.
  - right. unfold mag, blen. cbn [m_ulValue m_nLength]. by rewrite Nat2Z.id.
  - unfold mag, blen. cbn [m_ulValue m_nLength]. by rewrite Nat2Z.id, Hm1.
  - rewrite (wf_sign _ HA). unfold cmp, Zcmp in *. repeat (zcase; simpl); lia.
Qed.

Lemma Sub_spec A B h :
  wf A -> wf B -> norm A -> norm B -> mag B <= mag A -> sub_safe A B = true ->
  exists R, Sub A B h = Ret (R, h) /\ wf R /\ norm R /\ mag R = mag A - mag B.
Proof.
  intros HA HB NA NB Hle Hs.
  destruct (Sub_same_spec A B HA HB NA NB Hs) as (R & HR & H1 & H2 & H3 & H4 & H5 & H6).
  exists R. split.
  - unfold Sub. cbn [Sub_rec]. rewrite (wf_sign _ HA), (wf_sign _ HB). simpl. by apply lift_Ret.
  - split; [|split; [done|lia]]. split; try done. rewrite H6. zcase; lia.
Qed.

#[export] Instance Sub_checked_subtractor : Subtractor Sub_checked.
Proof.
  split. intros A B h HA HB NA NB Hle. unfold Sub_checked.
  destruct (sub_safe A B) eqn:E; [right|by left].
  by apply Sub_spec.
Qed.

(** ** Moving digits up *)

Lemma shift_down_loop v qlen i :
  digits v -> 0 <= i -> i <= qlen <= BI_MAXLEN ->
  exists w, forD (Z.to_nat (qlen - i)) (qlen - 1)
              (fun k v => x ← rd v (k - i); wr v k x) v = Ret w /\
    digits w /\ (forall j, 0 <= j -> w.[j] = if (i <=? j) && (j <? qlen) then v.[j - i] else v.[j]).
Proof.
  intros Hv Hi Hq.
  destruct (forD_inv
    (fun k w => digits w /\ (forall j, 0 <= j ->
       w.[j] = if (k <? j) && (j <? qlen) then v.[j - i] else v.[j]))
    (fun k v => x ← rd v (k - i); wr v k x)
    (Z.to_nat (qlen - i)) (qlen - 1) v) as (w & Hw & HI).
  - split; [done|]. intros j Hj. destruct (Z.ltb_spec (qlen - 1) j), (Z.ltb_spec j qlen); done || lia.
  - intros k t Hk [Ht HT]. rewrite rd_ok by (destruct Ht; lia). rewrite res_bind_Ret.
    rewrite wr_ok by (destruct Ht; lia). eexists. split; [reflexivity|]. split.
    + apply digits_insert; [done|]. by apply digits_at.
    + intros j Hj. rewrite at_insert by (destruct Ht; lia).
      destruct (Z.eqb_spec k j) as [->|].
      * rewrite HT by lia. repeat (zcase; simpl); done || lia.
      * rewrite HT by lia. repeat (zcase; simpl); done || lia.
  - exists w. split; [exact Hw|]. destruct HI as [Hd HT]. split; [done|].
    intros j Hj. rewrite HT by lia. repeat (zcase; simpl); done || lia.
Qed.

Lemma clear_loop v i :
  digits v -> 0 <= i <= BI_MAXLEN ->
  exists w, forU (Z.to_nat i) 0 (fun k v => wr v k 0) v = Ret w /\ digits w /\
    (forall j, 0 <= j -> w.[j] = if j <? i then 0 else v.[j]).
Proof.
  intros Hv Hi.
  destruct (forU_inv
    (fun k w => digits w /\ (forall j, 0 <= j -> w.[j] = if j <? k then 0 else v.[j]))
    (fun k v => wr v k 0) (Z.to_nat i) 0 v) as (w & Hw & HI).
  - split; [done|]. intros j Hj. by zcase.
  - intros k t Hk [Ht HT]. rewrite wr_ok by (destruct Ht; lia). eexists. split; [reflexivity|].
    split.
    + apply digits_insert; [done|]. unfold is_u32, W32. lia.
    + intros j Hj. rewrite at_insert by (destruct Ht; lia). rewrite HT by lia.
      repeat zcase; done || lia.
  - exists w. split; [exact Hw|]. rewrite Z.add_0_l, Z2Nat.id in HI by lia. done.
Qed.

Lemma shift_up_spec v qlen i :
  digits v -> 0 <= i -> i <= qlen <= BI_MAXLEN ->
  exists w, shift_up v qlen i = Ret w /\ digits w /\
    (forall j, 0 <= j -> w.[j] =
       if j <? i then 0 else if j <? qlen then v.[j - i] else v.[j]).
Proof.
  intros Hv Hi Hq. unfold shift_up.
  destruct (shift_down_loop v qlen i Hv Hi Hq) as (w1 & H1 & D1 & E1). mstep H1.
  destruct (clear_loop w1 i D1) as (w2 & H2 & D2 & E2); [lia|].
  exists w2. rewrite H2. split; [done|]. split; [done|].
  intros j Hj. rewrite E2, E1 by lia. repeat (zcase; simpl); done.
Qed.

Lemma val_shift v w i n :
  (forall j, 0 <= j < Z.of_nat (i + n) -> w.[j] = if j <? Z.of_nat i then 0 else v.[j - Z.of_nat i]) ->
  val w (i + n) = val v n * Wn i.
Proof.
  intros H. induction n as [|n IH].
  - rewrite Nat.add_0_r in *. simpl. rewrite Z.mul_0_l.
    assert (forall k, (k <= i)%nat -> val w k = 0) as Hk; [|by apply Hk].
    induction k as [|k IHk]; intros; [done|]. simpl. rewrite IHk by lia.
    rewrite H by lia. destruct (Z.ltb_spec (Z.of_nat k) (Z.of_nat i)); lia.
  - rewrite Nat.add_succ_r. cbn [val]. rewrite IH by (intros; apply H; lia).
    rewrite (H (Z.of_nat (i + n))) by lia.
    destruct (Z.ltb_spec (Z.of_nat (i + n)) (Z.of_nat i)); [lia|].
    replace (Z.of_nat (i + n) - Z.of_nat i) with (Z.of_nat n) by lia.
    rewrite Wn_add. lia.
Qed.

(** A whole number moved up by [i] digits. *)
Lemma shift_BI_spec q i :
  wf q -> 0 <= i -> m_nLength q + i <= BI_MAXLEN ->
  exists w, shift_up (m_ulValue q) (m_nLength q + i) i = Ret w /\
    wf (mkBI (m_nSign q) (m_nLength q + i) w) /\
    mag (mkBI (m_nSign q) (m_nLength q + i) w) = mag q * Wn (Z.to_nat i).
Proof.
  intros Hq Hi Hl. pose proof (wf_len _ Hq).
  destruct (shift_up_spec (m_ulValue q) (m_nLength q + i) i) as (w & Hw & Hd & E);
    [apply Hq|lia|lia|].
  exists w. split; [done|]. split.
  - split; cbn [m_nSign m_nLength m_ulValue]; [done|lia| |apply Hq].
    intros j Hj1 Hj2. rewrite E by lia. repeat zcase. apply Hq; lia.
  - unfold mag, blen. cbn [m_nLength m_ulValue].
    replace (Z.to_nat (m_nLength q + i)) with (Z.to_nat i + Z.to_nat (m_nLength q))%nat by lia.
    apply val_shift. intros j Hj. rewrite Z2Nat.id by lia. rewrite E by lia.
    repeat zcase; done || lia.
Qed.

(** ** Multiplication *)

Definition mul_inv (a q0 : list Z) (b : Z) (j : Z) (st : list Z * Z) : Prop :=
  let '(q, c) := st in
  digits q /\ is_u32 c /\
  val q (Z.to_nat j) + c * Wn (Z.to_nat j) = val a (Z.to_nat j) * b /\
  (forall k, j <= k -> q.[k] = q0.[k]).

Lemma mul_step_inv a q0 b j st :
  digits a -> is_u32 b -> 0 <= j < BI_MAXLEN -> mul_inv a q0 b j st ->
  exists st', mul_step a b j st = Ret st' /\ mul_inv a q0 b (j + 1) st'.
Proof.
  destruct st as [q c]. intros Ha Hb Hj (Hq & Hc & HV & Hk).
  pose proof (digits_at a j Ha) as Haj.
  unfold mul_step. rewrite rd_ok by (destruct Ha; lia). rewrite res_bind_Ret.
  rewrite wr_ok by (destruct Hq; lia). rewrite res_bind_Ret.
  set (m := a.[j] * b + c).
  assert (Hm : 0 <= m < W32 * W32) by (unfold m, is_u32, W32 in *; nia).
  assert (u64 m = m) as -> by (apply Z.mod_small; done).
  rewrite Z.shiftr_div_pow2 by lia. change (2 ^ 32) with W32.
  assert (Hdiv : is_u32 (m / W32)).
  { unfold is_u32. split; [apply Z.div_pos; unfold W32 in *; lia|].
    apply Z.div_lt_upper_bound; unfold W32 in *; lia. }
  rewrite (u32_small (m / W32)) by done.
  eexists. split; [reflexivity|]. split; [by apply digits_insert, u32_range|].
  split; [done|]. split.
  - replace (Z.to_nat (j + 1)) with (S (Z.to_nat j)) by lia.
    replace j with (Z.of_nat (Z.to_nat j)) at 1 by lia.
    rewrite val_insert_top by (destruct Hq; lia). cbn [val]. rewrite Wn_S, Z2Nat.id by lia.
    assert (u32 m + W32 * (m / W32) = m).
    { unfold u32. pose proof (Z.div_mod m W32). unfold W32 in *. lia. }
    unfold m in *. nia.
  - intros k Hk'. rewrite at_insert_ne by lia. apply Hk. lia.
Qed.

(** The accumulator and the scratch number of [Mul] before iteration [i]. *)
Definition row_inv (A B : BI) (i : Z) (st : BI * BI) : Prop :=
  let '(p, q) := st in
  wf p /\ m_nLength p <= Z.max 1 (m_nLength A + i - (if i =? 0 then m_nLength A else 0)) /\
  mag p = mag A * val (m_ulValue B) (Z.to_nat i) /\
  digits (m_ulValue q) /\ m_nSign q = 1 /\ zeros_from (m_ulValue q) (m_nLength A + i) /\
  (norm A -> 0 < mag A -> 0 < i -> (m_ulValue B).[i - 1] <> 0 -> Wn (blen p - 1) <= mag p).

(** The partial product before it is moved up: digits, length and value. *)
Lemma mul_digit_spec A q b :
  wf A -> is_u32 b -> digits q -> m_nLength A < BI_MAXLEN ->
  exists qv0 carry qv qlen,
    forU (Z.to_nat (m_nLength A)) 0 (mul_step (m_ulValue A) b) (q, 0) = Ret (qv0, carry) /\
    (if negb (carry =? 0) && (m_nLength A <? BI_MAXLEN)
     then w ← wr qv0 (m_nLength A) carry; Ret (w, m_nLength A + 1)
     else Ret (qv0, m_nLength A)) = Ret (qv, qlen) /\
    digits qv /\ m_nLength A <= qlen <= m_nLength A + 1 /\
    val qv (Z.to_nat qlen) = mag A * b /\
    (qlen = m_nLength A + 1 -> Wn (blen A) <= mag A * b) /\
    (forall j, qlen <= j -> qv.[j] = q.[j]).
Proof.
  intros HA Hb Hq Hlt. pose proof (wf_len _ HA).
  destruct (forU_inv (mul_inv (m_ulValue A) q b) (mul_step (m_ulValue A) b)
             (Z.to_nat (m_nLength A)) 0 (q, 0)) as ([qv c] & Hloop & HI).
  { split; [done|]. split; [unfold is_u32, W32; lia|]. simpl. split; [lia|done]. }
  { intros j t Hj. apply mul_step_inv; [apply HA|done|lia]. }
  rewrite Z.add_0_l, Z2Nat.id in HI by lia. destruct HI as (Hd & Hc & HV & Hk).
  change (val (m_ulValue A) (Z.to_nat (m_nLength A))) with (mag A) in HV.
  pose proof (val_bound qv (Z.to_nat (m_nLength A)) Hd).
  destruct (Z.eqb_spec c 0) as [->|Hne]; simpl.
  - exists qv, 0, qv, (m_nLength A). split; [done|]. split; [done|]. split; [done|]. split; [lia|].
    split; [lia|]. split; [lia|]. done.
  - exists qv, c, (<[Z.to_nat (m_nLength A) := c]> qv), (m_nLength A + 1). split; [done|].
    destruct (Z.eqb_spec c 0); [done|]. zcase. simpl.
    rewrite wr_ok by (destruct Hd; lia). split; [done|]. split; [by apply digits_insert|].
    split; [lia|]. split; [|split].
    + replace (Z.to_nat (m_nLength A + 1)) with (S (Z.to_nat (m_nLength A))) by lia.
      replace (m_nLength A) with (Z.of_nat (Z.to_nat (m_nLength A))) at 1 by lia.
      rewrite val_insert_top by (destruct Hd; lia). done.
    + intros _. unfold blen. rewrite <- HV. unfold is_u32 in Hc. pose proof (Wn_pos (Z.to_nat (m_nLength A))). nia.
    + intros j Hj. rewrite at_insert_ne by lia. apply Hk. lia.
Qed.

Lemma mul_row_spec A B i st h :
  wf A -> wf B -> 0 <= i < m_nLength B -> m_nLength A + m_nLength B < BI_MAXLEN ->
  row_inv A B i st ->
  exists st', mul_row A B i st h = Ret (st', h) /\ row_inv A B (i + 1) st'.
Proof.
  destruct st as [p q]. intros HA HB Hi Hsz (Hp & Hpl & Hpm & Hq & Hqs & Hqz & _).
  pose proof (wf_len _ HA). pose proof (wf_len _ HB). pose proof (wf_len _ Hp).
  unfold mul_row.
  assert (Hrd : rd (m_ulValue B) i = Ret (m_ulValue B).[i]).
  { apply rd_ok. destruct (wf_digits _ HB). lia. }
  mstep Hrd. set (b := (m_ulValue B).[i]).
  pose proof (digits_at _ i (wf_digits _ HB) : is_u32 b) as Hb.
  destruct (mul_digit_spec A (m_ulValue q) b HA Hb Hq) as
    (qv0 & c & qv & ql & Hl1 & Hl2 & Hd & Hql & Hval & Hbig & Hrest); [lia|].
  mstep Hl1. mstep Hl2. zcase.
  destruct (shift_up_spec qv (ql + i) i Hd) as (w & Hw & Hwd & E); [lia|lia|].
  rewrite (bindM_Ret _ _ _ (w, ql + i) h) by (apply lift_Ret; by mstep Hw).
  set (q' := mkBI (m_nSign q) (ql + i) w).
  assert (Hz : forall j, ql + i <= j -> w.[j] = 0).
  { intros j Hj. rewrite E by lia. repeat zcase. rewrite Hrest by lia. apply Hqz; lia. }
  assert (Hq' : wf q').
  { split; cbn; [done|lia| |done]. intros j Hj _. by apply Hz. }
  assert (Hqm : mag q' = mag A * b * Wn (Z.to_nat i)).
  { unfold q', mag at 1, blen. cbn [m_nLength m_ulValue].
    replace (Z.to_nat (ql + i)) with (Z.to_nat i + Z.to_nat ql)%nat by lia.
    rewrite (val_shift qv w); [by rewrite Hval|].
    intros j Hj. rewrite E, Z2Nat.id by lia. repeat zcase; done. }
  assert (Hpl' : m_nLength p <= ql + i) by (revert Hpl; zcase; lia).
  destruct (Add_spec p q' h Hp Hq') as (R & HR & HRwf & HRm & HRl & HRc); [cbn; lia|].
  mstep HR. rewrite mretM. eexists. split; [reflexivity|].
  replace (Z.max (m_nLength p) (m_nLength q')) with (ql + i) in * by (cbn; lia).
  assert (Hval1 : mag A * val (m_ulValue B) (Z.to_nat (i + 1)) = mag R).
  { replace (Z.to_nat (i + 1)) with (S (Z.to_nat i)) by lia. cbn [val].
    rewrite Z2Nat.id by lia. fold b. rewrite HRm, Hqm, Hpm. lia. }
  assert (HRl' : m_nLength R <= m_nLength A + (i + 1)).
  { destruct (decide (m_nLength R <= m_nLength A + (i + 1))); [done|].
    assert (ql = m_nLength A + 1) by lia.
    pose proof (HRc ltac:(lia)) as Hc. pose proof (mag_bound A HA).
    pose proof (val_bound (m_ulValue B) (Z.to_nat (i + 1)) (wf_digits _ HB)).
    replace (Z.to_nat (ql + i)) with (blen A + Z.to_nat (i + 1))%nat in Hc by (unfold blen; lia).
    rewrite Wn_add in Hc. nia. }
  split; [done|]. split; [zcase; lia|]. split; [done|]. split; [done|].
  split; [done|]. split; [intros j Hj1 Hj2; apply Hz; lia|].
  intros NA Hpos _ Hbne. replace (i + 1 - 1) with i in Hbne by lia. fold b in Hbne.
  pose proof (norm_lower A HA NA Hpos) as HAl. pose proof (blen_Z R HRwf).
  assert (Hb1 : 1 <= b) by (unfold is_u32 in Hb; lia).
  assert (Hqlow : Wn (Z.to_nat (ql + i) - 1) <= mag q').
  { rewrite Hqm. replace (Z.to_nat (ql + i) - 1)%nat with ((Z.to_nat ql - 1) + Z.to_nat i)%nat by lia.
    rewrite Wn_add. apply Z.mul_le_mono_nonneg_r; [pose proof (Wn_pos (Z.to_nat i)); lia|].
    destruct (decide (ql = m_nLength A + 1)) as [E1|].
    - replace (Z.to_nat ql - 1)%nat with (blen A) by (unfold blen; lia). auto.
    - replace (Z.to_nat ql - 1)%nat with (blen A - 1)%nat by (unfold blen; lia). nia. }
  pose proof (mag_bound p Hp).
  destruct (decide (m_nLength R = ql + i)) as [E1|].
  - replace (blen R) with (Z.to_nat (ql + i)) by (unfold blen; lia). lia.
  - replace (blen R - 1)%nat with (Z.to_nat (ql + i)) by (unfold blen; lia). apply HRc. lia.
Qed.

Lemma init_BI_ok c l : (l < c)%nat -> init_BI (mkHeap c l) = Ret (Some zeroBI, mkHeap c (S l)).
Proof. intros H. unfold init_BI. by mstep (kmalloc_ok c l H). Qed.

Lemma move_ok A c l : (l < c)%nat -> move A (mkHeap c l) = Ret (Some A, mkHeap c (S l)).
Proof. intros H. unfold move. by mstep (init_BI_ok c l H). Qed.

Lemma with_sign_id A : m_nSign A = 1 -> with_sign A 1 = A.
Proof. destruct A. simpl. by intros ->. Qed.

(** [Mul]: the product, in one new object. *)
Lemma Mul_spec A B c l :
  wf A -> wf B -> m_nLength A + m_nLength B < BI_MAXLEN -> (l + 2 <= c)%nat ->
  exists R, Mul A B (mkHeap c l) = Ret (R, mkHeap c (S l)) /\ wf R /\
    mag R = mag A * mag B /\ m_nLength R <= m_nLength A + m_nLength B /\
    (norm A -> norm B -> 0 < mag A -> 0 < mag B -> norm R).
Proof.
  intros HA HB Hsz Hl. unfold Mul.
  mstep (init_BI_ok c l ltac:(lia)). mstep (init_BI_ok c (S l) ltac:(lia)).
  rewrite !(bindM_Ret (deref (Some zeroBI)) _ _ zeroBI (mkHeap c (S (S l)))) by done.
  pose proof (wf_len _ HA). pose proof (wf_len _ HB).
  destruct (forU_inv (fun i '(st, h) => h = mkHeap c (S (S l)) /\ row_inv A B i st)
              (fun j '(t, g) => mul_row A B j t g) (Z.to_nat (m_nLength B)) 0
              ((zeroBI, zeroBI), mkHeap c (S (S l)))) as ([[p q] h] & Hloop & -> & HI).
  { split; [done|]. split; [apply wf_zeroBI|]. split; [cbn; lia|]. split; [rewrite mag_zeroBI; change (Z.to_nat 0) with 0%nat; cbn [val]; lia|].
    split; [apply wf_zeroBI|]. split; [done|]. split; [|lia].
    intros j _ _. apply at_replicate0. }
  { intros j [st h] Hj [-> HI].
    destruct (mul_row_spec A B j st (mkHeap c (S (S l))) HA HB) as (st' & Hst & HI'); [lia|lia|done|].
    by exists (st', mkHeap c (S (S l))). }
  rewrite (bindM_Ret _ _ _ (p, q) (mkHeap c (S (S l)))) by exact Hloop.
  mstep (kfree_S c (S l)). rewrite mretM.
  rewrite Z.add_0_l, Z2Nat.id in HI by lia.
  destruct HI as (Hp & Hpl & Hpm & _ & _ & _ & Hn).
  rewrite (wf_sign _ HA), (wf_sign _ HB). simpl. rewrite with_sign_id by apply Hp.
  eexists. split; [reflexivity|]. split; [done|]. split; [done|].
  split; [revert Hpl; zcase; lia|].
  intros NA NB HpA HpB. right. apply Hn; try (done || lia).
  pose proof (norm_top B HB NB HpB). lia.
Qed.
