(* ===== verification/BiDiv.v ===== *)
(** * Big integers: division and remainder

    The 64-by-32-bit division of [bi.c] computes the quotient; division and
    remainder by a machine integer; the estimate of a quotient digit; [Mod]
    reduces by a big integer within the given number of iterations. *)
From stdpp Require Import base tactics list numbers option.
From Stdlib Require Import ZArith Lia.
From S2P Require Import Prelude Bi BiArith.

(** ** [do_div64_32] and [do_div] *)

Lemma div_pass_spec base md q cf :
  0 < base <= W32 -> is_u32 md -> 0 <= cf -> cf * W32 + md < 2 * base -> 0 <= q ->
  q + 1 < W32 \/ cf * W32 + md < base ->
  exists r q1, div_pass base md q cf = (r, q1) /\ 0 <= r < base /\
    q1 * base + r = q * base + (cf * W32 + md) /\ q <= q1 <= q + 1.
Proof.
  intros Hb Hm Hc HR Hq Hov. unfold div_pass. unfold is_u32 in Hm.
  assert (cf = 0 \/ cf = 1) as [-> | ->] by nia.
  - simpl. destruct (Z.leb_spec base md).
    + eexists _, _. split; [reflexivity|].
      rewrite (u32_small (md - base)), (u32_small (q + 1)) by (unfold is_u32; lia). lia.
    + eexists _, _. split; [reflexivity|]. lia.
  - simpl. eexists _, _. split; [reflexivity|].
    rewrite (u32_small (q + 1)) by (unfold is_u32; lia).
    assert (u32 (md - base) = W32 + md - base) as ->.
    { unfold u32. symmetry. apply (Z.mod_unique_pos _ _ (-1)); lia. }
    lia.
Qed.

Lemma quot_no_carry q base R : 0 < base -> q * base + R < W32 * base ->
  q + 1 < W32 \/ R < base.
Proof. intros Hb H. destruct (decide (R < base)); [by right|left]. unfold W32 in *. nia. Qed.

Lemma quot_half q base r P t :
  0 < base -> 0 <= r -> 0 <= q -> 1 <= P -> 0 <= t ->
  (q * base + r) * (2 * P) + t < W32 * base -> 2 * q < W32.
Proof.
  intros Hb Hr Hq HP Ht H. apply (Z.mul_lt_mono_pos_r base); [done|].
  assert (q * base * 2 <= (q * base + r) * 2) by lia.
  assert ((q * base + r) * 2 * 1 <= (q * base + r) * 2 * P) by (apply Z.mul_le_mono_nonneg_l; nia).
  lia.
Qed.

(** The [n] most significant bits of a 32-bit word. *)
Lemma top_bits_step low n :
  is_u32 low -> (n < 32)%nat ->
  low / 2 ^ (32 - Z.of_nat (S n)) =
  Z.shiftr low 31 * 2 ^ Z.of_nat n + u32 (Z.shiftl low 1) / 2 ^ (32 - Z.of_nat n).
Proof.
  unfold is_u32. intros Hl Hn. rewrite Z.shiftr_div_pow2, Z.shiftl_mul_pow2 by lia.
  set (k := 31 - Z.of_nat n).
  replace (32 - Z.of_nat (S n)) with k by lia. replace (32 - Z.of_nat n) with (1 + k) by lia.
  rewrite Z.pow_add_r by lia. change (2 ^ 1) with 2.
  set (bit := low / 2 ^ 31). set (rest := low mod 2 ^ 31).
  assert (Hlow : low = 2 ^ 31 * bit + rest) by (apply Z.div_mod; lia).
  assert (0 <= rest < 2 ^ 31) by (apply Z.mod_pos_bound; lia).
  assert (Hbit : bit = 0 \/ bit = 1).
  { unfold W32 in Hl. change (2 ^ 31) with 2147483648 in *. lia. }
  assert (u32 (low * 2) = 2 * rest) as ->.
  { unfold u32, W32. symmetry. apply (Z.mod_unique_pos _ _ bit); [lia|].
    change (2 ^ 31) with 2147483648 in *. lia. }
  rewrite (Z.mul_comm 2 rest), (Z.mul_comm 2 (2 ^ k)), Z.div_mul_cancel_r by lia.
  rewrite Hlow at 1.
  replace (2 ^ 31 * bit) with (bit * 2 ^ Z.of_nat n * 2 ^ k).
  - rewrite Z.add_comm, Z.div_add by lia. lia.
  - rewrite <- Z.mul_assoc, <- Z.pow_add_r by lia. replace (Z.of_nat n + k) with 31 by lia. lia.
Qed.

(** Shifting a bit into a 32-bit remainder; the bit shifted out is kept. *)
Lemma shift_in_bit r bit : 0 <= r < W32 -> 0 <= bit < 2 ->
  Z.shiftr r 31 * W32 + Z.lor (u32 (Z.shiftl r 1)) bit = 2 * r + bit /\
  is_u32 (Z.lor (u32 (Z.shiftl r 1)) bit).
Proof.
  intros Hr Hb. assert (u32 (Z.shiftl r 1) = Z.shiftl (r mod 2 ^ 31) 1) as ->.
  { rewrite !Z.shiftl_mul_pow2 by lia. unfold u32, W32 in *.
    change (2 ^ 1) with 2. change (2 ^ 31) with 2147483648. dlia. }
  rewrite lor_shiftl_add by lia. rewrite Z.shiftr_div_pow2 by lia.
  unfold is_u32, W32 in *. change (2 ^ 1) with 2. change (2 ^ 31) with 2147483648. dlia.
Qed.

Lemma div64_32_loop_spec n base md low q cf :
  0 < base <= W32 -> (n <= 32)%nat ->
  is_u32 md -> is_u32 low -> 0 <= cf -> cf * W32 + md < 2 * base -> 0 <= q ->
  (q * base + (cf * W32 + md)) * 2 ^ Z.of_nat n + low / 2 ^ (32 - Z.of_nat n) < W32 * base ->
  exists q' r, div64_32_loop n base md low q cf = (q', r) /\ 0 <= r < base /\ 0 <= q' /\
    q' * base + r =
    (q * base + (cf * W32 + md)) * 2 ^ Z.of_nat n + low / 2 ^ (32 - Z.of_nat n).
Proof.
  intros Hb. revert md low q cf.
  induction n as [|n IH]; intros md low q cf Hn Hm Hl Hc HR Hq Hov.
  all: assert (0 <= low / 2 ^ (32 - Z.of_nat 0)) by (apply Z.div_pos; unfold is_u32 in *; lia).
  - change (2 ^ Z.of_nat 0) with 1 in *.
    assert (Hz : low / 2 ^ (32 - Z.of_nat 0) = 0).
    { apply Z.div_small. unfold is_u32, W32 in Hl. simpl. lia. }
    rewrite Hz in *.
    destruct (div_pass_spec base md q cf) as (r & q1 & E & ? & ? & ?); try done.
    { apply quot_no_carry; lia. }
    cbn [div64_32_loop]. rewrite E. exists q1, r. split; [done|]. split; [done|]. split; [lia|]. lia.
  - assert (HP : 2 ^ Z.of_nat (S n) = 2 * 2 ^ Z.of_nat n) by (rewrite Nat2Z.inj_succ, Z.pow_succ_r; lia).
    assert (Hpn : 0 < 2 ^ Z.of_nat n) by (apply Z.pow_pos_nonneg; lia).
    assert (Htop : 0 <= low / 2 ^ (32 - Z.of_nat (S n))) by (apply Z.div_pos; unfold is_u32 in *; lia).
    rewrite HP in *.
    destruct (div_pass_spec base md q cf) as (r & q1 & E & Hr & HE & Hq1); try done.
    { apply quot_no_carry; [lia|]. unfold is_u32 in Hm.
      assert (0 <= q * base + (cf * W32 + md)) by nia. nia. }
    cbn [div64_32_loop]. rewrite E.
    assert (Hq1W : 2 * q1 < W32).
    { apply (quot_half q1 base r (2 ^ Z.of_nat n) (low / 2 ^ (32 - Z.of_nat (S n)))); lia. }
    rewrite (top_bits_step low n Hl) in * by lia.
    set (bit := Z.shiftr low 31) in *. set (low' := u32 (Z.shiftl low 1)) in *.
    assert (Hbit : 0 <= bit < 2).
    { unfold bit. rewrite Z.shiftr_div_pow2 by lia. unfold is_u32, W32 in Hl.
      change (2 ^ 31) with 2147483648. clear -Hl. dlia. }
    destruct (shift_in_bit r bit) as [Hmd Hmd32]; [lia|lia|].
    assert (u32 (Z.shiftl q1 1) = 2 * q1) as ->.
    { rewrite Z.shiftl_mul_pow2 by lia. rewrite u32_small; unfold is_u32; lia. }
    destruct (IH (Z.lor (u32 (Z.shiftl r 1)) bit) low' (2 * q1) (Z.shiftr r 31))
      as (q' & r' & E' & Hr' & Hq' & HE').
    + lia.
    + done.
    + apply u32_range.
    + rewrite Z.shiftr_div_pow2 by lia. apply Z.div_pos; lia.
    + lia.
    + lia.
    + rewrite Hmd. nia.
    + exists q', r'. split; [done|]. rewrite HE', Hmd. split; [done|]. split; [done|]. nia.
Qed.

Lemma do_div64_32_spec high low base :
  0 <= high < base -> base <= W32 -> is_u32 low ->
  do_div64_32 high low base = ((high * W32 + low) / base, (high * W32 + low) mod base).
Proof.
  intros Hh Hb Hl. unfold do_div64_32.
  destruct (div64_32_loop_spec 32 base high low 0 0) as (q & r & E & Hr & Hq & HE);
    try (unfold is_u32 in *; lia).
  - change (2 ^ Z.of_nat 32) with W32. change (2 ^ (32 - Z.of_nat 32)) with 1.
    rewrite Z.div_1_r. unfold is_u32 in Hl. nia.
  - change (2 ^ Z.of_nat 32) with W32 in HE. change (2 ^ (32 - Z.of_nat 32)) with 1 in HE.
    rewrite Z.div_1_r in HE. rewrite E. f_equal.
    + apply (Z.div_unique_pos _ _ _ r); lia.
    + apply (Z.mod_unique_pos _ _ q); lia.
Qed.

Lemma do_div_spec n base :
  0 <= n < W32 * W32 -> 0 < base < W32 -> do_div n base = Ret (n / base).
Proof.
  intros Hn Hb. unfold do_div. rewrite Z.shiftr_div_pow2 by lia. change (2 ^ 32) with W32.
  set (high := n / W32). set (low := u32 n).
  assert (Hlow : is_u32 low) by apply u32_range.
  assert (En : n = W32 * high + low) by (apply Z.div_mod; unfold W32; lia).
  assert (Hh : 0 <= high < W32) by (unfold is_u32 in Hlow; split; nia).
  assert (Hgo : (if high =? 0 then Ret (high, high)
     else if base =? 0 then Fault else Ret (high mod base, high / base)) = Ret (high mod base, high / base)).
  { destruct (Z.eqb_spec high 0) as [E0|E0]; [|by zcase].
    rewrite E0. by rewrite Z.mod_0_l, Z.div_0_l by lia. }
  mstep Hgo. pose proof (Z.mod_pos_bound high base ltac:(lia)).
  rewrite do_div64_32_spec by (done || lia). f_equal.
  rewrite lor_shiftl_add; [|lia|].
  - change (2 ^ 32) with W32. rewrite En.
    replace (W32 * high + low) with (W32 * (high / base) * base + (high mod base * W32 + low)).
    + rewrite Z.div_add_l by lia. lia.
    + pose proof (Z.div_mod high base). nia.
  - split; [apply Z.div_pos; unfold is_u32 in *; unfold W32 in *; nia|].
    apply Z.div_lt_upper_bound; [lia|]. change (2 ^ 32) with W32. unfold is_u32 in Hlow. nia.
Qed.

(** ** Division by a machine integer *)

Lemma val_insert_in v n i x :
  digits v -> 0 <= i < Z.of_nat n -> i < BI_MAXLEN ->
  val (<[Z.to_nat i := x]> v) n = val v n + (x - v.[i]) * Wn (Z.to_nat i).
Proof.
  intros Hv Hi Hm. induction n as [|n IH]; [lia|]. cbn [val].
  destruct (decide (i = Z.of_nat n)) as [->|].
  - rewrite val_insert by lia. rewrite at_insert_eq by (destruct Hv; lia). rewrite Nat2Z.id. lia.
  - rewrite IH by lia. rewrite at_insert_ne by lia. lia.
Qed.

Definition is_divisor (b : Z) : Prop := 0 < b < 2147483648.

Lemma divisor_words b : is_divisor b -> u32 b = b /\ u64 b = b /\ 0 < b < W32.
Proof.
  unfold is_divisor. intros H. split; [apply u32_small; unfold is_u32, W32; lia|].
  split; [apply Z.mod_small|]; unfold W32; lia.
Qed.

(** One digit of schoolbook division: quotient digit and remainder. *)
Lemma digit_div b c x :
  is_divisor b -> 0 <= c < b -> is_u32 x ->
  let div := u64 (Z.shiftl c 32 + x) in
  div = c * W32 + x /\ do_div div (u32 b) = Ret (div / b) /\
  is_u32 (div / b) /\ u32 (div - u64 (div / b * u64 b)) = div mod b.
Proof.
  intros Hb Hc Hx div. destruct (divisor_words b Hb) as (E1 & E2 & Hb').
  assert (Hdiv : div = c * W32 + x).
  { unfold div. rewrite Z.shiftl_mul_pow2 by lia. change (2 ^ 32) with W32.
    apply Z.mod_small. unfold is_u32 in Hx. nia. }
  assert (Hr : 0 <= div < b * W32) by (rewrite Hdiv; unfold is_u32 in Hx; nia).
  split; [done|]. rewrite E1, E2. split; [|split].
  - apply do_div_spec; [|done]. unfold W32 in *. nia.
  - split; [apply Z.div_pos; lia|]. apply Z.div_lt_upper_bound; lia.
  - pose proof (Z.div_mod div b ltac:(lia)). pose proof (Z.mod_pos_bound div b ltac:(lia)).
    replace (u64 (div / b * b)) with (div / b * b)
      by (symmetry; apply Z.mod_small;
          pose proof (Z.mod_le div b ltac:(lia) ltac:(lia)); unfold W32 in *; lia).
    rewrite u32_small; unfold is_u32, W32 in *; lia.
Qed.

Definition divp_inv (a : list Z) (n : nat) (b i : Z) (st : list Z * Z) : Prop :=
  let '(v, c) := st in
  digits v /\ 0 <= c < b /\ (forall j, j <= i \/ Z.of_nat n <= j -> 0 <= j -> v.[j] = a.[j]) /\
  val a n - val a (Z.to_nat (i + 1)) =
    (val v n - val v (Z.to_nat (i + 1))) * b + c * Wn (Z.to_nat (i + 1)).

Lemma divp_step_inv a n b i st :
  digits a -> is_divisor b -> 0 <= i < Z.of_nat n -> Z.of_nat n <= BI_MAXLEN ->
  divp_inv a n b i st ->
  exists st', divp_step b i st = Ret st' /\ divp_inv a n b (i - 1) st'.
Proof.
  destruct st as [v c]. intros Ha Hb Hi Hn (Hv & Hc & Hj & HV).
  pose proof (digits_at v i Hv) as Hvi.
  unfold divp_step. rewrite rd_ok by (destruct Hv; lia). rewrite res_bind_Ret.
  destruct (digit_div b c v.[i] Hb Hc Hvi) as (Hdiv & Hdo & Ht & Hrem).
  cbn zeta in *. set (div := u64 (Z.shiftl c 32 + v.[i])) in *.
  rewrite Hdo, res_bind_Ret. rewrite wr_ok by (destruct Hv; lia). rewrite res_bind_Ret.
  rewrite Hrem, (u32_small (div / b)) by done.
  eexists. split; [reflexivity|]. unfold is_divisor in Hb.
  pose proof (Z.div_mod div b ltac:(lia)). pose proof (Z.mod_pos_bound div b ltac:(lia)).
  split; [by apply digits_insert|]. split; [done|]. split.
  - intros j Hj' Hj0. rewrite at_insert_ne by lia. apply Hj; lia.
  - replace (i - 1 + 1) with i by lia. rewrite val_insert_in by (done || lia).
    rewrite val_insert by lia.
    replace (Z.to_nat (i + 1)) with (S (Z.to_nat i)) in HV by lia.
    cbn [val] in HV. rewrite Wn_S, Z2Nat.id in HV by lia.
    rewrite <- (Hj i) in HV by lia. nia.
Qed.

Lemma divp_loop_spec A b :
  wf A -> is_divisor b ->
  exists v c, forD (Z.to_nat (m_nLength A)) (m_nLength A - 1) (divp_step b) (m_ulValue A, 0) = Ret (v, c) /\
    digits v /\ val v (blen A) = mag A / b /\ c = mag A mod b /\
    (forall j, m_nLength A <= j -> 0 <= j -> v.[j] = 0).
Proof.
  intros HA Hb. pose proof (wf_len _ HA). pose proof (blen_Z A HA).
  destruct (forD_inv (divp_inv (m_ulValue A) (blen A) b) (divp_step b)
    (Z.to_nat (m_nLength A)) (m_nLength A - 1) (m_ulValue A, 0)) as ([v c] & Hl & HI).
  - split; [apply HA|]. unfold is_divisor in Hb. split; [lia|]. split; [done|].
    replace (Z.to_nat (m_nLength A - 1 + 1)) with (blen A) by (unfold blen; lia). lia.
  - intros j t Hj. apply divp_step_inv; try done; [apply HA|lia|lia].
  - exists v, c. split; [done|].
    replace (m_nLength A - 1 - Z.of_nat (Z.to_nat (m_nLength A))) with (-1) in HI by lia.
    destruct HI as (Hv & Hc & Hj & HV). change (Z.to_nat (-1 + 1)) with 0%nat in HV.
    cbn [val] in HV. rewrite Wn_0 in HV. change (val (m_ulValue A) (blen A)) with (mag A) in HV.
    split; [done|]. split; [|split].
    + apply (Z.div_unique_pos _ _ _ c); lia.
    + apply (Z.mod_unique_pos _ _ (val v (blen A))); lia.
    + intros j Hj1 Hj2. rewrite Hj by lia. apply HA; lia.
Qed.

Lemma Div_p_spec A b :
  wf A -> norm A -> is_divisor b ->
  exists R, Div_p A b = Ret R /\ wf R /\ norm R /\ mag R = mag A / b /\ m_nLength R <= m_nLength A.
Proof.
  intros HA NA Hb. pose proof (wf_len _ HA). destruct (divisor_words b Hb) as (E1 & _ & HbW).
  unfold Div_p. destruct (Z.eqb_spec (m_nLength A) 1) as [E|E].
  - pose proof (mag_1 A E) as Hmag.
    pose proof (digits_at _ 0 (wf_digits _ HA)) as H0. unfold is_u32 in H0.
    rewrite rd_ok by (destruct (wf_digits _ HA); unfold BI_MAXLEN in *; lia). rewrite res_bind_Ret.
    rewrite E1. zcase. rewrite wr_ok by (destruct (wf_digits _ HA); unfold BI_MAXLEN in *; lia).
    rewrite res_bind_Ret. eexists. split; [reflexivity|].
    assert (Hq : 0 <= (m_ulValue A).[0] / b < W32).
    { split; [apply Z.div_pos; lia|]. apply Z.div_lt_upper_bound; nia. }
    split; [|split; [|split]].
    + split; cbn [with_value m_nSign m_nLength m_ulValue]; [|done| |apply HA].
      * apply (digits_insert _ 0); [apply HA|done].
      * intros j Hj1 Hj2. rewrite at_insert_ne by lia. apply HA; lia.
    + by left.
    + rewrite mag_1 by done. cbn [with_value m_ulValue]. rewrite Hmag.
      apply (at_insert_eq _ 0). destruct (wf_digits _ HA); unfold BI_MAXLEN in *; lia.
    + cbn. lia.
  - destruct (divp_loop_spec A b HA Hb) as (v & c & Hl & Hv & HV & Hc & Hz). mstep Hl.
    rewrite rd_ok by (destruct Hv; lia). rewrite res_bind_Ret.
    eexists. split; [reflexivity|]. replace (b <? 0) with false by (zcase; lia || done).
    set (len := if v.[m_nLength A - 1] =? 0 then m_nLength A - 1 else m_nLength A).
    assert (Hval : val v (Z.to_nat len) = mag A / b).
    { unfold len. rewrite <- HV. destruct (Z.eqb_spec v.[m_nLength A - 1] 0) as [E0|E0]; [|done].
      symmetry. apply val_zeros; [|unfold blen; lia]. intros j Hj1 Hj2.
      destruct (decide (j = m_nLength A - 1)) as [->|]; [done|]. apply Hz; lia. }
    assert (Hlen : m_nLength A - 1 <= len <= m_nLength A) by (unfold len; zcase; lia).
    split; [|split; [|split; [exact Hval|cbn; lia]]].
    + split; cbn [m_nSign m_nLength m_ulValue]; [done|lia| |apply HA].
      intros j Hj1 Hj2. unfold len in Hj1. destruct (Z.eqb_spec v.[m_nLength A - 1] 0) as [E0|E0].
      * destruct (decide (j = m_nLength A - 1)) as [->|]; [done|]. apply Hz; lia.
      * apply Hz; lia.
    + right. unfold mag, blen. cbn [m_nLength m_ulValue]. rewrite Hval. unfold len.
      destruct (Z.eqb_spec v.[m_nLength A - 1] 0) as [E0|E0].
      * destruct NA as [|NA]; [lia|]. apply Z.div_le_lower_bound; [lia|].
        replace (blen A - 1)%nat with (S (Z.to_nat (m_nLength A - 1) - 1)) in NA by (unfold blen; lia).
        rewrite Wn_S in NA. pose proof (Wn_pos (Z.to_nat (m_nLength A - 1) - 1)). nia.
      * rewrite <- HV. replace (blen A) with (S (Z.to_nat (m_nLength A) - 1)) by (unfold blen; lia).
        cbn [val]. pose proof (val_bound v (Z.to_nat (m_nLength A) - 1) Hv).
        replace (Z.of_nat (Z.to_nat (m_nLength A) - 1)) with (m_nLength A - 1) by lia.
        pose proof (digits_at v (m_nLength A - 1) Hv) as Hd. unfold is_u32 in Hd.
        pose proof (Wn_pos (Z.to_nat (m_nLength A) - 1)). nia.
Qed.

Lemma Mod_p_spec A b : wf A -> is_divisor b -> Mod_p A b = Ret (mag A mod b).
Proof.
  intros HA Hb. pose proof (wf_len _ HA). destruct (divisor_words b Hb) as (E1 & _ & HbW).
  unfold Mod_p. destruct (Z.eqb_spec (m_nLength A) 1) as [E|E].
  - rewrite rd_ok by (destruct (wf_digits _ HA); unfold BI_MAXLEN in *; lia). rewrite res_bind_Ret, E1.
    zcase. by rewrite mag_1.
  - set (a := m_ulValue A).
    destruct (forD_inv (fun i c => 0 <= c < b /\ exists q,
        mag A - val a (Z.to_nat (i + 1)) = q * b + c * Wn (Z.to_nat (i + 1)))
      (modp_step b a) (Z.to_nat (m_nLength A)) (m_nLength A - 1) 0) as (c & Hl & Hc & q & HV).
    + split; [lia|]. exists 0. replace (Z.to_nat (m_nLength A - 1 + 1)) with (blen A) by (unfold blen; lia).
      unfold mag, a. lia.
    + intros i c Hi [Hc [q HV]]. pose proof (digits_at a i (wf_digits _ HA)) as Hai.
      unfold modp_step. rewrite rd_ok by (destruct (wf_digits _ HA); unfold a; lia). rewrite res_bind_Ret.
      destruct (digit_div b c a.[i] Hb Hc Hai) as (Hdiv & Hdo & Ht & Hrem).
      cbn zeta in *. rewrite Z.shiftl_mul_pow2 in * by lia. change (2 ^ 32) with W32 in *.
      set (div := u64 (c * W32 + a.[i])) in *.
      rewrite Hdo, res_bind_Ret, Hrem. eexists. split; [reflexivity|].
      pose proof (Z.div_mod div b ltac:(lia)). pose proof (Z.mod_pos_bound div b ltac:(lia)).
      split; [done|]. exists (q + div / b * Wn (Z.to_nat i)).
      replace (i - 1 + 1) with i by lia.
      replace (Z.to_nat (i + 1)) with (S (Z.to_nat i)) in HV by lia.
      cbn [val] in HV. rewrite Wn_S, Z2Nat.id in HV by lia. nia.
    + rewrite Hl. f_equal.
      replace (m_nLength A - 1 - Z.of_nat (Z.to_nat (m_nLength A))) with (-1) in HV by lia.
      change (Z.to_nat (-1 + 1)) with 0%nat in HV. cbn [val] in HV. rewrite Wn_0 in HV.
      apply (Z.mod_unique_pos _ _ q); lia.
Qed.
