(* ===== verification/BiExp.v ===== *)
(** * Big integers: [Mod] and [Exp_Mod]

    [Mod] computes the remainder and [Exp_Mod] the modular power, for every
    subtraction that meets [Subtractor]; the driver's own [Sub] does so as long
    as no borrow reaches a zero digit ([Sub_checked]). *)
From stdpp Require Import base tactics list numbers option.
From Stdlib Require Import ZArith Lia Znumtheory Zpow_facts.
From S2P Require Import Prelude Bi BiArith BiDiv.

(** ** Allocating a number *)

Lemma clear_range v i n :
  digits v -> 0 <= i -> i + Z.of_nat n <= BI_MAXLEN ->
  exists w, forU n i (fun k v => wr v k 0) v = Ret w /\ digits w /\
    (forall j, 0 <= j -> w.[j] = if (i <=? j) && (j <? i + Z.of_nat n) then 0 else v.[j]).
Proof.
  intros Hv Hi Hn.
  destruct (forU_inv
    (fun k w => digits w /\ (forall j, 0 <= j -> w.[j] = if (i <=? j) && (j <? k) then 0 else v.[j]))
    (fun k v => wr v k 0) n i v) as (w & Hw & HI).
  - split; [done|]. intros j Hj. repeat (zcase; simpl); done.
  - intros k t Hk [Ht HT]. rewrite wr_ok by (destruct Ht; lia). eexists. split; [reflexivity|].
    split.
    + apply digits_insert; [done|]. unfold is_u32, W32. lia.
    + intros j Hj. rewrite at_insert by (destruct Ht; lia). rewrite HT by lia.
      repeat (zcase; simpl); done || lia.
  - by exists w.
Qed.

Lemma move_p_spec b c l :
  is_u32 b -> (l < c)%nat ->
  exists R, move_p b (mkHeap c l) = Ret (Some R, mkHeap c (S l)) /\
    wf R /\ norm R /\ mag R = b /\ m_nLength R = 1.
Proof.
  intros Hb Hl. unfold move_p. mstep (init_BI_ok c l Hl).
  pose proof digits_zero as Hz. unfold is_u32, W32 in Hb.
  assert (Hfill : exists R, move_p_fill zeroBI b = Ret R /\ wf R /\ norm R /\ mag R = b /\ m_nLength R = 1).
  { unfold move_p_fill, MASK32. zcase. zcase.
    cbn [m_nLength m_nSign m_ulValue zeroBI].
    rewrite wr_ok by (destruct Hz; unfold BI_MAXLEN in *; lia). rewrite !res_bind_Ret.
    cbn [m_nLength m_nSign m_ulValue].
    destruct (clear_range (<[Z.to_nat 0 := u32 b]> (replicate (Z.to_nat BI_MAXLEN) 0)) 1
      (Z.to_nat (BI_MAXLEN - 1))) as (w & Hw & Hd & E).
    - apply digits_insert; [done|apply u32_range].
    - lia.
    - unfold BI_MAXLEN. lia.
    - rewrite Hw, res_bind_Ret. eexists. split; [reflexivity|].
      assert (w.[0] = b) as E0.
      { rewrite E by lia. replace (1 <=? 0) with false by done. cbn [andb].
        rewrite at_insert_eq by (destruct Hz; unfold BI_MAXLEN in *; lia).
        apply u32_small. unfold is_u32, W32. lia. }
      split; [|split; [by left|split; [by rewrite mag_1|done]]].
      split; cbn; [done|unfold BI_MAXLEN; lia| |done].
      intros j Hj1 Hj2. rewrite E by lia. destruct ((1 <=? j) && (j <? _)) eqn:?; [done|].
      rewrite at_insert_ne by lia. apply at_replicate0. }
  destruct Hfill as (R & HR & H). exists R. split; [|done].
  by mstep HR.
Qed.

(** ** The quotient estimate *)

Lemma mag_top p : wf p -> exists r, 0 <= r < Wn (blen p - 1) /\
  mag p = (m_ulValue p).[m_nLength p - 1] * Wn (blen p - 1) + r.
Proof.
  intros Hp. pose proof (blen_pos p Hp). pose proof (blen_Z p Hp).
  exists (val (m_ulValue p) (blen p - 1)). split; [apply val_bound, Hp|].
  unfold mag. replace (blen p) with (S (blen p - 1)) at 1 by lia. cbn [val].
  replace (Z.of_nat (blen p - 1)) with (m_nLength p - 1) by lia. lia.
Qed.

(** The estimate [num / (bt + 1)] for [num * X + r] divided by [bt * Y + r'],
    with [X = Y * L], never exceeds the quotient and is at least a quarter of it. *)
Lemma estimate_bounds num bt X Y L r r' :
  0 < Y -> 0 < L -> X = Y * L -> 0 <= r < X -> 0 <= r' < Y -> 1 <= bt -> bt + 1 <= num ->
  let div := num / (bt + 1) in
  1 <= div /\ div * (bt * Y + r') * L <= num * X + r /\
  num * X + r < 4 * (div * (bt * Y + r') * L).
Proof.
  intros HY HL -> Hr Hr' Hbt Hnum div.
  pose proof (Z.div_mod num (bt + 1) ltac:(lia)) as Hdm. fold div in Hdm.
  pose proof (Z.mod_pos_bound num (bt + 1) ltac:(lia)) as Hm.
  assert (H1 : 1 <= div) by (apply Z.div_le_lower_bound; lia).
  assert (Hup : div * (bt + 1) <= num) by lia.
  assert (Hlo : num + 1 <= 4 * (div * bt)).
  { assert (num + 1 <= (div + 1) * (bt + 1)) by lia. nia. }
  split; [done|]. split.
  - assert (div * (bt * Y + r') <= num * Y) by nia. nia.
  - assert (num * (Y * L) + r < (num + 1) * (Y * L)) by lia.
    assert ((num + 1) * (Y * L) <= 4 * (div * bt) * (Y * L)) by (apply Z.mul_le_mono_nonneg_r; nia).
    assert (0 <= div * r' * L) by nia. nia.
Qed.

Definition estimate_ok (p B : BI) (e : option (Z * Z)) : Prop :=
  match e with
  | None => mag p < 2 * mag B
  | Some (div, len) =>
      1 <= div < W32 /\ 0 <= len /\
      div * mag B * Wn (Z.to_nat len) <= mag p < 4 * (div * mag B * Wn (Z.to_nat len))
  end.

Lemma Wn_split n m : (m <= n)%nat -> Wn n = Wn m * Wn (n - m).
Proof. intros. rewrite <- Wn_add. f_equal. lia. Qed.

Lemma quot_estimate_spec p B :
  wf p -> wf B -> norm p -> norm B -> 0 < mag B -> mag B < mag p ->
  exists e, quot_estimate p B = Ret e /\ estimate_ok p B e.
Proof.
  intros Hp HB Np NB HB0 Hlt.
  destruct (mag_top p Hp) as (r & Hr & Ep). destruct (mag_top B HB) as (r' & Hr' & EB).
  pose proof (norm_top p Hp Np ltac:(lia)) as Hpt. pose proof (norm_top B HB NB HB0) as Hbt.
  pose proof (wf_len _ Hp). pose proof (wf_len _ HB).
  pose proof (blen_Z p Hp). pose proof (blen_Z B HB).
  unfold quot_estimate.
  rewrite (rd_ok _ (m_nLength p - 1)), (rd_ok _ (m_nLength B - 1))
    by (destruct (wf_digits _ Hp), (wf_digits _ HB); lia). rewrite !res_bind_Ret.
  set (pt := (m_ulValue p).[m_nLength p - 1]) in *. set (bt := (m_ulValue B).[m_nLength B - 1]) in *.
  assert (is_u32 pt) by (apply digits_at, Hp). assert (is_u32 bt) by (apply digits_at, HB).
  unfold is_u32 in *.
  assert (Hlen : m_nLength B <= m_nLength p).
  { destruct (decide (m_nLength p < m_nLength B)) as [Hl|]; [|lia].
    pose proof (norm_len_lt p B Hp HB NB Hl). lia. }
  rewrite Z.gtb_ltb. destruct (Z.ltb_spec bt pt).
  - rewrite u32_small by (unfold is_u32; lia). zcase.
    eexists. split; [reflexivity|]. unfold estimate_ok.
    destruct (estimate_bounds pt bt (Wn (blen p - 1)) (Wn (blen B - 1))
      (Wn (Z.to_nat (m_nLength p - m_nLength B))) r r') as (Hd1 & Hd2 & Hd3); try (apply Wn_pos || lia).
    { rewrite (Wn_split (blen p - 1) (blen B - 1)) by lia. do 2 f_equal. lia. }
    rewrite <- EB, <- Ep in *. split; [|lia]. split; [done|]. apply Z.div_lt_upper_bound; nia.
  - rewrite Z.gtb_ltb. destruct (Z.ltb_spec (m_nLength B) (m_nLength p)).
    + rewrite rd_ok by (destruct (wf_digits _ Hp); lia). rewrite res_bind_Ret.
      set (nx := (m_ulValue p).[m_nLength p - 2]).
      assert (Hnx : is_u32 nx) by apply digits_at, Hp. unfold is_u32 in Hnx.
      set (num := pt * W32 + nx).
      assert (Hnum : u64 (Z.shiftl pt 32 + nx) = num).
      { rewrite Z.shiftl_mul_pow2 by lia. apply Z.mod_small. change (2 ^ 32) with W32. nia. }
      rewrite Hnum.
      assert (Hdiv : (if bt =? MASK32 then Ret (Z.shiftr num 32) else do_div num (u32 (bt + 1)))
                     = Ret (num / (bt + 1))).
      { unfold MASK32. zcase.
        - rewrite Z.shiftr_div_pow2 by lia. do 2 f_equal. change (2 ^ 32) with 4294967296. lia.
        - rewrite u32_small by (unfold is_u32, W32 in *; lia). apply do_div_spec; unfold W32 in *; nia. }
      mstep Hdiv. eexists. split; [reflexivity|]. unfold estimate_ok.
      assert (Ep2 : exists r2, 0 <= r2 < Wn (blen p - 2) /\ mag p = num * Wn (blen p - 2) + r2).
      { exists (val (m_ulValue p) (blen p - 2)). split; [apply val_bound, Hp|].
        unfold mag. replace (blen p) with (S (S (blen p - 2))) at 1 by lia. cbn [val].
        replace (Z.of_nat (S (blen p - 2))) with (m_nLength p - 1) by lia.
        replace (Z.of_nat (blen p - 2)) with (m_nLength p - 2) by lia.
        fold pt nx. rewrite Wn_S. unfold num. lia. }
      destruct Ep2 as (r2 & Hr2 & Ep2).
      assert (Hnb : bt + 1 <= num) by (clear -H4 Hpt Hnx; unfold num, W32 in *; lia).
      destruct (estimate_bounds num bt (Wn (blen p - 2)) (Wn (blen B - 1))
        (Wn (Z.to_nat (m_nLength p - m_nLength B - 1))) r2 r') as (Hd1 & Hd2 & Hd3);
        try (apply Wn_pos || lia).
      { rewrite (Wn_split (blen p - 2) (blen B - 1)) by lia. do 2 f_equal. lia. }
      rewrite <- EB, <- Ep2 in *. split; [|lia]. split; [done|]. apply Z.div_lt_upper_bound; nia.
    + eexists. split; [reflexivity|]. unfold estimate_ok.
      assert (blen p = blen B) as E by lia. rewrite E in *. nia.
Qed.

(** ** [Mod] *)

Lemma norm_len_le A B : wf A -> wf B -> norm A -> mag A <= mag B -> m_nLength A <= m_nLength B.
Proof.
  intros HA HB NA Hle. destruct (decide (m_nLength B < m_nLength A)) as [H|]; [|lia].
  pose proof (norm_len_lt B A HB HA NA H). lia.
Qed.

Lemma Zcmp_gt x y : (Zcmp x y >? 0) = (y <? x).
Proof. unfold Zcmp. repeat zcase; done. Qed.

Lemma Zcmp_eq x y : (Zcmp x y =? 0) = (x =? y).
Proof. unfold Zcmp. repeat zcase; done || lia. Qed.

(** One iteration subtracts a multiple of [B] that is more than a quarter of
    [p]: the product of the estimate and [B], moved up. *)
Lemma estimate_product p B div len c l :
  wf p -> wf B -> norm p -> norm B -> 0 < mag B -> m_nLength B <= 127 ->
  estimate_ok p B (Some (div, len)) -> (l + 3 <= c)%nat ->
  exists tmp q v,
    move_p div (mkHeap c l) = Ret (Some tmp, mkHeap c (S l)) /\
    Mul tmp B (mkHeap c (S l)) = Ret (q, mkHeap c (S (S l))) /\
    shift_up (m_ulValue q) (m_nLength q + len) len = Ret v /\
    let Q := mkBI (m_nSign q) (m_nLength q + len) v in
    wf Q /\ norm Q /\ mag Q = div * mag B * Wn (Z.to_nat len).
Proof.
  intros Hp HB Np NB HB0 HBl (Hd & Hl & Hle & _) Hc. pose proof (wf_len _ HB). pose proof (wf_len _ Hp).
  destruct (move_p_spec div c l) as (tmp & Ht & Htw & Htn & Htm & Htl); [unfold is_u32; lia|lia|].
  destruct (Mul_spec tmp B c (S l) Htw HB) as (q & Hq & Hqw & Hqm & _ & Hqn); [unfold BI_MAXLEN; lia|lia|].
  rewrite Htm in Hqm. specialize (Hqn Htn NB ltac:(lia) HB0).
  assert (Hq0 : 0 < mag q) by nia.
  pose proof (norm_lower q Hqw Hqn Hq0) as Hlow. pose proof (mag_bound p Hp) as Hpb.
  pose proof (blen_Z q Hqw). pose proof (blen_Z p Hp). pose proof (wf_len _ Hqw).
  assert (Hlow' : Wn (blen q - 1 + Z.to_nat len) <= div * mag B * Wn (Z.to_nat len)).
  { rewrite Wn_add, <- Hqm. apply Z.mul_le_mono_nonneg_r; [|done]. pose proof (Wn_pos (Z.to_nat len)). lia. }
  assert (blen q - 1 + Z.to_nat len < blen p)%nat by (apply Wn_lt_inv; lia).
  destruct (shift_BI_spec q len Hqw Hl) as (v & Hv & Hvw & Hvm); [lia|].
  exists tmp, q, v. split; [done|]. split; [done|]. split; [done|].
  split; [done|]. rewrite Hvm, Hqm. split; [|done]. right. rewrite Hvm, Hqm.
  unfold blen at 1. cbn [m_nLength].
  replace (Z.to_nat (m_nLength q + len) - 1)%nat with (blen q - 1 + Z.to_nat len)%nat by lia. done.
Qed.

Section Reduction.
Context (sub : BI -> BI -> M BI) `{!Subtractor sub}.

Lemma Mod_loop_spec n p B c l :
  wf p -> wf B -> norm p -> norm B -> 0 < mag B -> m_nLength B <= 127 ->
  (l + 3 <= c)%nat -> mag p * 3 ^ Z.of_nat n < 4 ^ Z.of_nat n ->
  Mod_loop sub (S n) p B (mkHeap c l) = Fault \/
  exists R, Mod_loop sub (S n) p B (mkHeap c l) = Ret (R, mkHeap c l) /\
    wf R /\ norm R /\ mag R <= mag B /\ (mag B | mag p - mag R).
Proof.
  revert p. induction n as [|n IH]; intros p Hp HB Np NB HB0 HBl Hc Hfuel.
  all: assert (Hcmp : Cmp p B = Ret (Zcmp (mag p) (mag B))) by by apply Cmp_spec.
  - change (3 ^ Z.of_nat 0) with 1 in Hfuel. change (4 ^ Z.of_nat 0) with 1 in Hfuel.
    right. exists p. cbn [Mod_loop]. mstep Hcmp. rewrite Zcmp_gt. zcase.
    split; [done|]. split; [done|]. split; [done|]. split; [lia|].
    exists 0. lia.
  - remember (S n) as m eqn:Em. cbn [Mod_loop]. mstep Hcmp. rewrite Zcmp_gt.
    destruct (Z.ltb_spec (mag B) (mag p)) as [Hlt|Hge]; cycle 1.
    { right. exists p. split; [done|]. split; [done|]. split; [done|]. split; [done|]. exists 0. lia. }
    destruct (quot_estimate_spec p B Hp HB Np NB HB0 Hlt) as (e & He & Hok). mstep He.
    destruct e as [[div len]|]; cycle 1.
    { destruct (subtractor_spec p B (mkHeap c l) Hp HB Np NB ltac:(lia)) as [E|(R & E & H1 & H2 & H3)].
      - by left.
      - right. exists R. unfold estimate_ok in Hok. split; [done|]. split; [done|]. split; [done|].
        split; [lia|]. exists 1. lia. }
    destruct (estimate_product p B div len c l Hp HB Np NB HB0 HBl Hok Hc)
      as (tmp & q & v & H1 & H2 & H3 & HQw & HQn & HQm).
    mstep H1. rewrite (bindM_Ret (deref (Some tmp)) _ _ tmp (mkHeap c (S l))) by done.
    mstep H2. mstep (kfree_S c (S l)). mstep H3.
    destruct Hok as (Hd & Hl & Hle & Hge).
    destruct (subtractor_spec p _ (mkHeap c (S l)) Hp HQw Np HQn ltac:(lia)) as [E|(R & E & HR & NR & HRm)].
    { left. unfold mbind, M_bind. by rewrite E. }
    mstep E. mstep (kfree_S c l). subst m.
    assert (Hfuel' : mag R * 3 ^ Z.of_nat n < 4 ^ Z.of_nat n).
    { rewrite Nat2Z.inj_succ, !Z.pow_succ_r in Hfuel by lia.
      assert (4 * mag R <= 3 * mag p) by lia.
      assert (0 < 3 ^ Z.of_nat n) by (apply Z.pow_pos_nonneg; lia). nia. }
    destruct (IH R HR HB NR NB HB0 HBl Hc Hfuel') as [E'|(R' & E' & H4 & H5 & H6 & [k Hk])].
    + by left.
    + right. exists R'. split; [done|]. split; [done|]. split; [done|]. split; [done|].
      exists (k + div * Wn (Z.to_nat len)). rewrite HRm, HQm in Hk. lia.
Qed.

Lemma Mod_with_spec n A B c l :
  wf A -> wf B -> norm A -> norm B -> 0 < mag B -> m_nLength B <= 127 ->
  (l + 4 <= c)%nat -> mag A * 3 ^ Z.of_nat n < 4 ^ Z.of_nat n ->
  Mod_with sub (S n) A B (mkHeap c l) = Fault \/
  exists R, Mod_with sub (S n) A B (mkHeap c l) = Ret (R, mkHeap c (S l)) /\
    wf R /\ norm R /\ mag R = mag A mod mag B.
Proof.
  intros HA HB NA NB HB0 HBl Hc Hfuel. unfold Mod_with.
  mstep (move_ok A c l ltac:(lia)).
  rewrite (bindM_Ret (deref (Some A)) _ _ A (mkHeap c (S l))) by done.
  destruct (Mod_loop_spec n A B c (S l) HA HB NA NB HB0 HBl ltac:(lia) Hfuel)
    as [E|(R & E & HR & NR & Hle & [k Hk])].
  { left. unfold mbind, M_bind. by rewrite E. }
  right. mstep E. pose proof (Cmp_spec R B HR HB NR NB) as Hcmp. mstep Hcmp.
  rewrite Zcmp_eq, mretM. eexists. split; [reflexivity|]. pose proof (mag_bound R HR).
  destruct (Z.eqb_spec (mag R) (mag B)).
  - split; [apply wf_zeroBI|]. split; [apply norm_zeroBI|]. unfold SetZero. rewrite mag_zeroBI.
    apply (Z.mod_unique_pos _ _ (k + 1)); lia.
  - split; [done|]. split; [done|]. apply (Z.mod_unique_pos _ _ k); lia.
Qed.
End Reduction.

(** The bound on the iterations of [Mod] is enough for every number that fits
    a [BI]. *)
Lemma mod_fuel_enough : exists n, mod_fuel = S n /\ Wn 129 * 3 ^ Z.of_nat n < 4 ^ Z.of_nat n.
Proof.
  exists (Z.to_nat 10320). split; [reflexivity|]. rewrite Z2Nat.id by lia.
  unfold Wn, W32. change 4294967296 with (4 ^ 16). rewrite <- Z.pow_mul_r by lia.
  change (16 * Z.of_nat 129) with 2064. change 10320 with (5 * 2064).
  rewrite !(Z.pow_mul_r _ 5 2064) by lia. rewrite <- Z.pow_mul_l.
  apply Z.pow_lt_mono_l; [lia|]. split; [|reflexivity]. discriminate.
Qed.

Lemma Mod_sub_spec sub `{!Subtractor sub} A B c l :
  wf A -> wf B -> norm A -> norm B -> 0 < mag B -> m_nLength B <= 127 -> (l + 4 <= c)%nat ->
  Mod_with sub mod_fuel A B (mkHeap c l) = Fault \/
  exists R, Mod_with sub mod_fuel A B (mkHeap c l) = Ret (R, mkHeap c (S l)) /\
    wf R /\ norm R /\ mag R = mag A mod mag B.
Proof.
  intros HA HB NA NB HB0 HBl Hc. destruct mod_fuel_enough as (n & -> & Hn).
  apply Mod_with_spec; try done. pose proof (mag_bound A HA). pose proof (blen_pos A HA).
  pose proof (Wn_le (blen A) 129 ltac:(lia)).
  assert (0 < 3 ^ Z.of_nat n) by (apply Z.pow_pos_nonneg; lia). nia.
Qed.

(** ** The exponent: clearing the lowest bit and halving *)

Lemma val_low v n : exists k, val v (S n) = v.[0] + W32 * k.
Proof.
  induction n as [|n [k IH]].
  - exists 0. rewrite val_1. lia.
  - exists (k + v.[Z.of_nat (S n)] * Wn n). change (val v (S (S n))) with
      (val v (S n) + v.[Z.of_nat (S n)] * Wn (S n)). rewrite IH, Wn_S. lia.
Qed.

Lemma mag_parity z : wf z -> Z.odd (mag z) = Z.odd (m_ulValue z).[0].
Proof.
  intros Hz. pose proof (blen_pos z Hz). unfold mag.
  destruct (blen z) as [|n]; [lia|]. destruct (val_low (m_ulValue z) n) as [k ->].
  rewrite Z.odd_add, Z.odd_mul. change (Z.odd W32) with false. simpl. by destruct (Z.odd _).
Qed.

Lemma Sub_p_1_spec z :
  wf z -> norm z -> Z.odd (mag z) = true ->
  exists R, Sub_p z 1 = Ret R /\ wf R /\ norm R /\ mag R = mag z - 1.
Proof.
  intros Hz Nz Hodd. pose proof (wf_len _ Hz). pose proof (blen_pos z Hz) as Hbl.
  pose proof (digits_at _ 0 (wf_digits _ Hz)) as H0.
  rewrite mag_parity in Hodd by done.
  assert (Hx : 1 <= (m_ulValue z).[0]).
  { unfold is_u32 in H0. destruct (decide ((m_ulValue z).[0] = 0)) as [E|]; [|lia]. by rewrite E in Hodd. }
  set (x := (m_ulValue z).[0]) in *.
  set (R := with_value z (<[Z.to_nat 0 := x - 1]> (m_ulValue z))).
  assert (HR : Sub_p z 1 = Ret R).
  { unfold Sub_p. cbn [Sub_p_rec]. rewrite (wf_sign _ Hz). simpl. unfold Sub_p_same.
    assert (Hl : 0 <= 0 < Zlen (m_ulValue z)) by (destruct (wf_digits _ Hz); unfold BI_MAXLEN in *; lia).
    rewrite rd_ok by done. rewrite res_bind_Ret. fold x. change (u32 1) with 1.
    rewrite Z.geb_leb. destruct (Z.leb_spec 1 x); [|lia].
    rewrite wr_ok, res_bind_Ret by done. unfold is_u32 in H0.
    by rewrite u32_small by (unfold is_u32; lia). }
  assert (Hm : mag R = mag z - 1).
  { unfold mag, R, blen. cbn [with_value m_nLength m_ulValue].
    rewrite val_insert_in; [|apply Hz|lia|unfold BI_MAXLEN; lia].
    change (Wn (Z.to_nat 0)) with (Wn 0). rewrite Wn_0. fold x. lia. }
  exists R. split; [done|]. split; [|split; [|done]].
  - split; cbn [R with_value m_nSign m_nLength m_ulValue]; [|done| |apply Hz].
    + apply digits_insert; [apply Hz|]. unfold is_u32 in *. lia.
    + intros j Hj1 Hj2. rewrite at_insert_ne by lia. apply Hz; lia.
  - destruct (decide (m_nLength z = 1)); [by left|]. right. rewrite Hm.
    replace (blen R) with (blen z) by done. destruct Nz as [|Nz]; [lia|].
    assert (Hne : mag z <> Wn (blen z - 1)).
    { intros E. pose proof (mag_parity z Hz) as Hp. fold x in Hp. rewrite Hodd, E in Hp.
      replace (blen z - 1)%nat with (S (blen z - 2)) in Hp by (unfold blen in *; lia).
      rewrite Wn_S, Z.odd_mul in Hp. by change (Z.odd W32) with false in Hp. }
    lia.
Qed.

(** ** [Exp_Mod] *)

Lemma coprime_nonzero a m : 1 < m -> rel_prime a m -> 0 <= a -> 0 < a.
Proof.
  intros Hm Hr Ha. destruct (decide (a = 0)) as [->|]; [|lia].
  assert (Z.gcd 0 m = 1) by by apply Zgcd_1_rel_prime. rewrite Z.gcd_0_l in *. lia.
Qed.

Lemma rel_prime_mulmod a b m : 1 < m -> rel_prime a m -> rel_prime b m -> rel_prime ((a * b) mod m) m.
Proof.
  intros Hm Ha Hb. apply rel_prime_mod; [lia|].
  apply rel_prime_sym, rel_prime_mult; by apply rel_prime_sym.
Qed.

(** The base, and every intermediate value, is a unit modulo [m]. *)
Definition operand (m x : BI) : Prop :=
  wf x /\ norm x /\ m_nLength x <= 64 /\ rel_prime (mag x) (mag m).

Definition modulus (m : BI) : Prop :=
  wf m /\ norm m /\ m_nLength m <= 64 /\ 1 < mag m.

Section Exponentiation.
Context (sub : BI -> BI -> M BI) `{!Subtractor sub}.

Lemma mulmod_spec x y m c l :
  modulus m -> operand m x -> operand m y -> (l + 5 <= c)%nat ->
  mulmod sub mod_fuel x y m (mkHeap c (S l)) = Fault \/
  exists R, mulmod sub mod_fuel x y m (mkHeap c (S l)) = Ret (R, mkHeap c (S l)) /\
    operand m R /\ mag R = (mag x * mag y) mod mag m.
Proof.
  intros (Hm & Nm & Hml & Hm1) (Hx & Nx & Hxl & Rx) (Hy & Ny & Hyl & Ry) Hc. unfold mulmod.
  pose proof (coprime_nonzero _ _ Hm1 Rx (proj1 (mag_bound x Hx))).
  pose proof (coprime_nonzero _ _ Hm1 Ry (proj1 (mag_bound y Hy))).
  destruct (Mul_spec x y c (S l) Hx Hy) as (t & Ht & Htw & Htm & _ & Htn); [unfold BI_MAXLEN; lia|lia|].
  mstep Ht. mstep (kfree_S c (S l)).
  destruct (Mod_sub_spec sub t m c (S l)) as [E|(R & E & HR & NR & HRm)]; try (done || lia).
  { by apply Htn. }
  { left. unfold mbind, M_bind. by rewrite E. }
  right. mstep E. mstep (kfree_S c (S l)). exists R. split; [done|].
  rewrite Htm in HRm. split; [|done]. split; [done|]. split; [done|].
  rewrite HRm. split; [|by apply rel_prime_mulmod].
  pose proof (Z.mod_pos_bound (mag x * mag y) (mag m) ltac:(lia)).
  pose proof (norm_len_le R m HR Hm NR ltac:(lia)). lia.
Qed.

Lemma Exp_Mod_loop_spec fuel k x y z m c l :
  modulus m -> operand m x -> operand m y -> wf z -> norm z -> mag x < mag m ->
  (l + 5 <= c)%nat -> mag z < 2 ^ k -> 0 <= k -> 2 * k + 1 + mag z mod 2 <= Z.of_nat fuel ->
  Exp_Mod_loop sub mod_fuel fuel x y z m (mkHeap c (S l)) = Fault \/
  exists R, Exp_Mod_loop sub mod_fuel fuel x y z m (mkHeap c (S l)) = Ret (R, mkHeap c (S l)) /\
    operand m R /\ mag R = (mag x * mag y ^ mag z) mod mag m.
Proof.
  intros Hm. revert k x y z. induction fuel as [|fuel IH];
    intros k x y z Hx Hy Hz Nz Hlt Hc Hk Hk0 Hfuel.
  { pose proof (Z.mod_pos_bound (mag z) 2). lia. }
  pose proof (mag_bound z Hz) as Hzb. cbn [Exp_Mod_loop].
  assert (Hrd : rd (m_ulValue z) 0 = Ret (m_ulValue z).[0]).
  { apply rd_ok. destruct (wf_digits _ Hz); unfold BI_MAXLEN in *; lia. }
  mstep Hrd. rewrite Z.bit0_odd, <- (mag_parity z Hz).
  replace (negb (m_nLength z =? 1) || negb ((m_ulValue z).[0] =? 0)) with (negb (mag z =? 0)); cycle 1.
  { destruct (Z.eqb_spec (m_nLength z) 1) as [E|E]; simpl; [by rewrite mag_1|].
    destruct Nz as [|Nz]; [done|]. pose proof (Wn_pos (blen z - 1)). by zcase. }
  pose proof Hm as (Hmw & Nm & Hml & Hm1).
  destruct (Z.eqb_spec (mag z) 0) as [E0|E0]; simpl.
  { right. exists x. split; [done|]. split; [done|]. rewrite E0, Z.pow_0_r, Z.mul_1_r, Z.mod_small; [done|].
    pose proof (mag_bound x (proj1 Hx)). lia. }
  assert (Hk1 : 1 <= k).
  { destruct (decide (k = 0)) as [->|]; [|lia]. change (2 ^ 0) with 1 in Hk. lia. }
  pose proof (Zmod_odd (mag z)) as Hpar.
  destruct (Z.odd (mag z)) eqn:Eodd.
  - destruct (Sub_p_1_spec z Hz Nz Eodd) as (z' & Hz' & Hzw & Hzn & Hzm). mstep Hz'.
    destruct (mulmod_spec x y m c l ltac:(done) Hx Hy Hc) as [E|(x' & E & Hx' & Hxm)].
    { left. unfold mbind, M_bind. by rewrite E. }
    mstep E.
    assert (Hmod' : mag z' mod 2 = 0) by (rewrite Hzm, Zminus_mod, Hpar; reflexivity).
    destruct (IH k x' y z') as [E'|(R & E' & HR & HRm)]; try (done || lia).
    { rewrite Hxm. apply Z.mod_pos_bound. lia. }
    { by left. }
    right. exists R. split; [done|]. split; [done|]. rewrite HRm, Hxm, Hzm.
    rewrite Zmult_mod_idemp_l. f_equal.
    replace (mag z) with (Z.succ (mag z - 1)) at 2 by lia. rewrite Z.pow_succ_r by lia. lia.
  - assert (Hdiv : is_divisor 2) by (unfold is_divisor; lia).
    destruct (Div_p_spec z 2 Hz Nz Hdiv) as (z' & Hz' & Hzw & Hzn & Hzm & _). mstep Hz'.
    destruct (mulmod_spec y y m c l ltac:(done) Hy Hy Hc) as [E|(y' & E & Hy' & Hym)].
    { left. unfold mbind, M_bind. by rewrite E. }
    mstep E. pose proof (Z.mod_pos_bound (mag z') 2 ltac:(lia)).
    assert (Hhalf : mag z = 2 * mag z') by (rewrite Hzm; pose proof (Z.div_mod (mag z) 2); lia).
    assert (Hkk : 2 ^ k = 2 * 2 ^ (k - 1)) by (rewrite <- Z.pow_succ_r by lia; f_equal; lia).
    destruct (IH (k - 1) x y' z') as [E'|(R & E' & HR & HRm)]; try (done || lia).
    { by left. }
    right. exists R. split; [done|]. split; [done|]. rewrite HRm, Hym, Hhalf.
    rewrite <- Zmult_mod_idemp_r, <- Zpower_mod, Zmult_mod_idemp_r by lia. f_equal. f_equal.
    rewrite Z.pow_mul_r by lia. f_equal. lia.
Qed.

Lemma Exp_Mod_with_spec base exp m c l :
  modulus m -> operand m base -> wf exp -> norm exp -> (l + 7 <= c)%nat ->
  Exp_Mod_with sub mod_fuel exp_fuel base exp m (mkHeap c l) = Fault \/
  exists R, Exp_Mod_with sub mod_fuel exp_fuel base exp m (mkHeap c l) = Ret (R, mkHeap c (S l)) /\
    wf R /\ norm R /\ mag R = mag base ^ mag exp mod mag m.
Proof.
  intros Hm Hb He Ne Hc. unfold Exp_Mod_with.
  destruct (move_p_spec 1 c l) as (x & Hx & Hxw & Hxn & Hxm & Hxl); [unfold is_u32, W32; lia|lia|].
  mstep Hx. mstep (move_ok base c (S l) ltac:(lia)). mstep (move_ok exp c (S (S l)) ltac:(lia)).
  rewrite (bindM_Ret (deref (Some x)) _ _ x (mkHeap c (S (S (S l))))) by done.
  rewrite (bindM_Ret (deref (Some base)) _ _ base (mkHeap c (S (S (S l))))) by done.
  rewrite (bindM_Ret (deref (Some exp)) _ _ exp (mkHeap c (S (S (S l))))) by done.
  pose proof (mag_bound exp He). pose proof (blen_pos exp He).
  pose proof (Wn_le (blen exp) 129 ltac:(lia)).
  destruct (Exp_Mod_loop_spec exp_fuel 4128 x base exp m c (S (S l)))
    as [E|(R & E & HR & HRm)]; try (done || lia).
  - split; [done|]. split; [done|]. split; [lia|]. rewrite Hxm. apply rel_prime_1.
  - destruct Hm as (_ & _ & _ & ?). lia.
  - assert (Wn 129 = 2 ^ 4128) by reflexivity. lia.
  - change (Z.of_nat exp_fuel) with 8400. pose proof (Z.mod_pos_bound (mag exp) 2). lia.
  - left. unfold mbind, M_bind. by rewrite E.
  - right. mstep E. mstep (kfree_S c (S (S l))). mstep (kfree_S c (S l)).
    exists R. split; [done|]. destruct HR as (? & ? & _ & _). split; [done|]. split; [done|].
    rewrite HRm, Hxm. f_equal. lia.
Qed.
End Exponentiation.
