(* ===== verification/BiIO.v ===== *)
(** * Big integers: conversion from and to bytes

    [InPutFromStr] and [InPutFromAddr] read a number in hexadecimal and in
    big-endian bytes; [OutPutToAddr] writes one. *)
From stdpp Require Import base tactics list numbers option.
From Stdlib Require Import ZArith Lia.
From S2P Require Import Prelude Bi BiArith BiDiv.

(** ** Numbers as digit and byte strings *)

(** The number written by [ds] in base [b], most significant digit first. *)
Definition be_num (b : Z) (ds : list Z) : Z := fold_left (fun acc d => acc * b + d) ds 0.

(** The number of a byte string, least significant byte first. *)
Fixpoint le_num (bs : list Z) : Z :=
  match bs with
  | [] => 0
  | x :: bs' => x + 256 * le_num bs'
  end.

Lemma be_num_app b xs ys : be_num b (xs ++ ys) = be_num b xs * b ^ Zlen ys + be_num b ys.
Proof.
  unfold be_num. rewrite fold_left_app. generalize (fold_left (fun acc d => acc * b + d) xs 0) as a.
  assert (H : forall a, fold_left (fun acc d => acc * b + d) ys a =
                        a * b ^ Zlen ys + fold_left (fun acc d => acc * b + d) ys 0); [|done].
  induction ys as [|y ys IH]; intros a; cbn [fold_left].
  - unfold Zlen. simpl. lia.
  - rewrite IH, (IH (0 * b + y)). unfold Zlen. rewrite length_cons, Nat2Z.inj_succ, Z.pow_succ_r by lia. lia.
Qed.

Lemma be_num_snoc b xs x : be_num b (xs ++ [x]) = be_num b xs * b + x.
Proof. rewrite be_num_app. unfold be_num at 2, Zlen. simpl. lia. Qed.

Lemma be_num_bound b xs :
  1 < b -> Forall (fun d => 0 <= d < b) xs -> 0 <= be_num b xs < b ^ Zlen xs.
Proof.
  intros Hb. induction xs as [|x xs IH] using rev_ind; intros HF.
  - unfold Zlen, be_num. simpl. lia.
  - apply Forall_app in HF as [HF Hx]. rewrite Forall_singleton in Hx.
    rewrite be_num_snoc, Zlen_app. change (Zlen [x]) with 1.
    rewrite Z.pow_add_r, Z.pow_1_r by (apply Zlen_nonneg || lia). specialize (IH HF). cbn beta in Hx.
    assert (be_num b xs * b <= (b ^ Zlen xs - 1) * b) by (apply Z.mul_le_mono_nonneg_r; lia).
    assert (0 <= be_num b xs * b) by (apply Z.mul_nonneg_nonneg; lia). lia.
Qed.

Lemma le_num_app xs ys : le_num (xs ++ ys) = le_num xs + 256 ^ Zlen xs * le_num ys.
Proof.
  induction xs as [|x xs IH]; cbn [app le_num].
  - unfold Zlen. simpl. lia.
  - rewrite IH. unfold Zlen. rewrite length_cons, Nat2Z.inj_succ, Z.pow_succ_r by lia. lia.
Qed.

Lemma le_num_bound xs : Forall is_byte xs -> 0 <= le_num xs < 256 ^ Zlen xs.
Proof.
  induction 1 as [|x xs Hx HF IH]; cbn [le_num]; [unfold Zlen; simpl; lia|].
  unfold is_byte in Hx. unfold Zlen in *. rewrite length_cons, Nat2Z.inj_succ, Z.pow_succ_r by lia. lia.
Qed.

Lemma le_num_inj xs ys :
  Forall is_byte xs -> Forall is_byte ys -> length xs = length ys -> le_num xs = le_num ys -> xs = ys.
Proof.
  intros HX. revert ys. induction HX as [|x xs Hx HF IH]; intros [|y ys] HY Hl HE; try done.
  inversion HY; subst. cbn [le_num] in HE. unfold is_byte in *.
  assert (x = y) as -> by lia. f_equal. apply IH; try done; [by injection Hl|lia].
Qed.

(** ** Multiplication and addition of a small number *)

Lemma Mul_p_spec A b :
  wf A -> norm A -> 0 < b < 2147483648 -> m_nLength A < BI_MAXLEN ->
  exists R, Mul_p A b = Ret R /\ wf R /\ norm R /\ mag R = mag A * b.
Proof.
  intros HA NA Hb Hlt. pose proof (wf_len _ HA).
  destruct (divisor_words b Hb) as (_ & E64 & HbW).
  set (a := m_ulValue A).
  destruct (forU_inv (mul_inv a a b) (mulp_step b) (Z.to_nat (m_nLength A)) 0 (a, 0))
    as ([v c] & Hl & HI).
  { split; [apply HA|]. split; [unfold is_u32, W32; lia|]. simpl. split; [lia|done]. }
  { intros j [v c] Hj HI. pose proof HI as (Hv & Hc & HV & Hk).
    destruct (mul_step_inv a a b j (v, c)) as (st & Hst & HI'); try done; [apply HA|unfold is_u32; lia|lia|].
    exists st. split; [|done]. revert Hst. unfold mul_step, mulp_step.
    rewrite !rd_ok by (destruct Hv, (wf_digits _ HA); unfold a; lia). rewrite !res_bind_Ret, E64, (Hk j) by lia.
    set (m := u64 (a.[j] * b + c)).
    assert (Hm : 0 <= m < W32 * W32) by (apply Z.mod_pos_bound; unfold W32; lia).
    assert (Eq : Z.shiftr (u64 (m - u32 m)) 32 = Z.shiftr m 32); [|by rewrite Eq].
    rewrite !Z.shiftr_div_pow2 by lia. unfold u64, u32, W32 in *. change (2 ^ 32) with 4294967296. dlia. }
  rewrite Z.add_0_l, Z2Nat.id in HI by lia. destruct HI as (Hv & Hc & HV & Hk).
  change (val a (Z.to_nat (m_nLength A))) with (mag A) in HV.
  pose proof (val_bound v (Z.to_nat (m_nLength A)) Hv) as Hvb.
  unfold Mul_p. mstep Hl. replace (b <? 0) with false by (zcase; done).
  destruct (Z.eqb_spec c 0) as [->|Hne]; cbn [negb andb].
  - rewrite res_bind_Ret. eexists. split; [reflexivity|].
    assert (Hm : mag (mkBI (m_nSign A) (m_nLength A) v) = mag A * b).
    { unfold mag at 1, blen. cbn [m_nLength m_ulValue]. lia. }
    split; [|split; [|done]].
    + split; cbn; [done|lia| |apply HA]. intros j Hj1 Hj2. rewrite Hk by done. by apply HA.
    + destruct NA as [NA|NA]; [by left|right]. rewrite Hm. unfold blen in *. cbn [m_nLength] in *.
      pose proof (mag_bound A HA). nia.
  - zcase. rewrite wr_ok by (destruct Hv; lia). rewrite !res_bind_Ret. eexists. split; [reflexivity|].
    assert (Hm : mag (mkBI (m_nSign A) (m_nLength A + 1) (<[Z.to_nat (m_nLength A) := c]> v)) = mag A * b).
    { unfold mag at 1, blen. cbn [m_nLength m_ulValue].
      replace (Z.to_nat (m_nLength A + 1)) with (S (Z.to_nat (m_nLength A))) by lia.
      rewrite <- HV, <- (val_insert_top v (Z.to_nat (m_nLength A)) c) by (destruct Hv; lia).
      by rewrite Z2Nat.id by lia. }
    split; [|split; [|done]].
    + split; cbn; [by apply digits_insert|lia| |apply HA].
      intros j Hj1 Hj2. rewrite at_insert_ne by lia. rewrite Hk by lia. apply HA; lia.
    + right. rewrite Hm, <- HV. unfold blen. cbn [m_nLength].
      replace (Z.to_nat (m_nLength A + 1) - 1)%nat with (Z.to_nat (m_nLength A)) by lia.
      unfold is_u32 in Hc. pose proof (Wn_pos (Z.to_nat (m_nLength A))). nia.
Qed.

(** [Add_p] is right when the lowest digit does not overflow. *)
Lemma Add_p_spec A b :
  wf A -> norm A -> 0 <= b -> (m_ulValue A).[0] + b < W32 ->
  exists R, Add_p A b = Ret R /\ wf R /\ norm R /\ mag R = mag A + b.
Proof.
  intros HA NA Hb Hs. pose proof (wf_len _ HA).
  pose proof (digits_at _ 0 (wf_digits _ HA)) as H0. unfold is_u32 in H0.
  assert (Hl : 0 <= 0 < Zlen (m_ulValue A)) by (destruct (wf_digits _ HA); unfold BI_MAXLEN in *; lia).
  set (x := (m_ulValue A).[0]) in *.
  set (R := with_value A (<[Z.to_nat 0 := b + x]> (m_ulValue A))).
  assert (HR : Add_p A b = Ret R).
  { unfold Add_p. cbn [Add_p_rec]. rewrite (wf_sign _ HA), Z.mul_1_l.
    replace (b >=? 0) with true by (rewrite Z.geb_leb; zcase; done).
    unfold Add_p_same. rewrite rd_ok by done. rewrite res_bind_Ret. fold x.
    rewrite !(u32_small (b + x)) by (unfold is_u32; lia). rewrite wr_ok, res_bind_Ret by done.
    unfold MASK32. destruct (Z.gtb_spec (b + x) 4294967295); [unfold W32 in *; lia|done]. }
  assert (Hm : mag R = mag A + b).
  { unfold mag, R, blen. cbn [with_value m_nLength m_ulValue].
    rewrite val_insert_in; [|apply HA|lia|unfold BI_MAXLEN; lia].
    change (Wn (Z.to_nat 0)) with (Wn 0). rewrite Wn_0. fold x. lia. }
  exists R. split; [done|]. split; [|split; [|done]].
  - split; cbn [R with_value m_nSign m_nLength m_ulValue]; [|done| |apply HA].
    + apply digits_insert; [apply HA|]. unfold is_u32. lia.
    + intros j Hj1 Hj2. rewrite at_insert_ne by lia. apply HA; lia.
  - destruct NA as [|NA]; [by left|right]. rewrite Hm. replace (blen R) with (blen A) by done. lia.
Qed.

(** ** Hexadecimal input *)

Definition hex_char (ch : Z) : Prop := 48 <= ch < 64 \/ 65 <= ch <= 70 \/ 97 <= ch <= 102.

Lemma digit_of_hex ch c : hex_char ch -> 0 <= digit_of HEX ch c < 16.
Proof. unfold hex_char, digit_of, HEX, DEC. intros H. simpl. repeat zcase; lia. Qed.

Lemma mul16_low A B : wf A -> mag A = mag B * 16 -> (m_ulValue A).[0] + 15 < W32.
Proof.
  intros HA HE. pose proof (blen_pos A HA). unfold mag in HE at 1.
  destruct (blen A) as [|n]; [lia|].
  assert (Hk : exists k, val (m_ulValue A) (S n) = (m_ulValue A).[0] + W32 * k).
  { clear. induction n as [|n [k IH]].
    - exists 0. rewrite val_1. lia.
    - exists (k + (m_ulValue A).[Z.of_nat (S n)] * Wn n). cbn [val] in *. rewrite IH, Wn_S. lia. }
  destruct Hk as [k Hk]. rewrite Hk in HE. pose proof (digits_at _ 0 (wf_digits _ HA)) as H0.
  unfold is_u32, W32 in *. lia.
Qed.

Lemma str_loop_spec p str c :
  wf p -> norm p -> Forall hex_char str -> (mag p + 1) * 16 ^ Zlen str <= W32 ^ 128 ->
  exists R, str_loop p str HEX c = Ret R /\ wf R /\ norm R /\
    mag R = mag p * 16 ^ Zlen str + be_num 16 (map (fun ch => digit_of HEX ch 0) str).
Proof.
  revert p c. induction str as [|ch str IH]; intros p c Hp Np HF Hsz.
  - exists p. split; [done|]. split; [done|]. split; [done|]. unfold Zlen, be_num. simpl. lia.
  - inversion HF as [|? ? Hch HF']; subst. cbn [str_loop].
    pose proof (mag_bound p Hp) as Hpb.
    assert (Hpow : 16 ^ Zlen (ch :: str) = 16 * 16 ^ Zlen str).
    { unfold Zlen. by rewrite length_cons, Nat2Z.inj_succ, Z.pow_succ_r by lia. }
    rewrite Hpow in *. assert (Hp16 : 0 < 16 ^ Zlen str) by (apply Z.pow_pos_nonneg; [lia|apply Zlen_nonneg]).
    assert (Hlen : m_nLength p < BI_MAXLEN).
    { destruct (decide (0 < mag p)) as [H0|]; cycle 1.
      - destruct Np as [Np|Np]; [unfold BI_MAXLEN; lia|]. pose proof (Wn_pos (blen p - 1)). lia.
      - pose proof (norm_lower p Hp Np H0). pose proof (blen_Z p Hp).
        assert (blen p - 1 < 128)%nat by (apply Wn_lt_inv; change (Wn 128) with (W32 ^ 128); nia).
        unfold BI_MAXLEN. lia. }
    destruct (Mul_p_spec p HEX Hp Np) as (q & Hq & Hqw & Hqn & Hqm); [unfold HEX; lia|done|].
    mstep Hq. pose proof (digit_of_hex ch 0 Hch) as Hd. pose proof (mul16_low q p Hqw Hqm) as Hlow.
    change (digit_of HEX ch c) with (digit_of HEX ch 0).
    destruct (Add_p_spec q (digit_of HEX ch 0) Hqw Hqn) as (r & Hr & Hrw & Hrn & Hrm); [lia|lia|].
    mstep Hr. unfold HEX in Hqm.
    destruct (IH r (digit_of HEX ch 0) Hrw Hrn HF') as (R & HR & HRw & HRn & HRm).
    { rewrite Hrm, Hqm. transitivity ((mag p * 16 + 16) * 16 ^ Zlen str); [|lia].
      apply Z.mul_le_mono_nonneg_r; lia. }
    exists R. split; [done|]. split; [done|]. split; [done|].
    rewrite HRm, Hrm, Hqm, map_cons. change (?x :: ?l) with ([x] ++ l).
    rewrite be_num_app. unfold Zlen. rewrite length_map. unfold be_num at 2. simpl fold_left. lia.
Qed.

(** ** Bytes *)

Lemma nibbles_of_byte b : is_byte b ->
  Forall hex_char (nibble_chars b) /\
  be_num 16 (map (fun ch => digit_of HEX ch 0) (nibble_chars b)) = b.
Proof.
  intros Hb. unfold is_byte in Hb. unfold nibble_chars.
  assert (H1 : 0 <= Z.shiftr b 4 < 16).
  { rewrite Z.shiftr_div_pow2 by lia. change (2 ^ 4) with 16. dlia. }
  assert (H2 : Z.land b 15 = b mod 16) by (change 15 with (Z.ones 4); by rewrite Z.land_ones by lia).
  rewrite H2. pose proof (Z.mod_pos_bound b 16).
  assert (Hdig : forall d, 0 <= d < 16 -> digit_of HEX (48 + d) 0 = d).
  { intros d Hd. unfold digit_of, HEX, DEC. simpl. repeat zcase; lia. }
  split.
  - repeat constructor; unfold hex_char; lia.
  - cbn [map]. rewrite !Hdig by lia. unfold be_num. cbn [fold_left].
    rewrite Z.shiftr_div_pow2 by lia. change (2 ^ 4) with 16. dlia.
Qed.

Lemma cstr_app_nul s : Forall (fun ch => ch <> 0) s -> cstr (s ++ [0]) = s.
Proof.
  induction 1 as [|ch s Hch HF IH]; [done|]. cbn [app cstr]. rewrite IH.
  destruct (Z.eqb_spec ch 0); [done|done].
Qed.

Lemma nibble_string bs : Forall is_byte bs ->
  Forall hex_char (concat (map nibble_chars bs)) /\
  Zlen (concat (map nibble_chars bs)) = 2 * Zlen bs /\
  be_num 16 (map (fun ch => digit_of HEX ch 0) (concat (map nibble_chars bs))) = be_num 256 bs.
Proof.
  induction bs as [|b bs IH] using rev_ind; intros HF; [done|].
  apply Forall_app in HF as [HF Hb]. rewrite Forall_singleton in Hb.
  destruct (IH HF) as (H1 & H2 & H3). destruct (nibbles_of_byte b Hb) as [H4 H5].
  rewrite map_app, concat_app. cbn [map concat]. rewrite app_nil_r. split; [|split].
  - by apply Forall_app.
  - rewrite !Zlen_app, H2. unfold Zlen. simpl. lia.
  - rewrite map_app, be_num_app, H3, H5, be_num_snoc. do 2 f_equal.
Qed.

(** [InPutFromAddr] reads a big-endian number of at most 128 bytes. *)
Lemma InPutFromAddr_spec addr len c l :
  Forall is_byte addr -> 0 <= len <= 128 -> len <= Zlen addr -> (l < c)%nat ->
  exists R, InPutFromAddr addr len (mkHeap c l) = Ret (Some R, mkHeap c (S l)) /\
    wf R /\ norm R /\ mag R = be_num 256 (firstn (Z.to_nat len) addr).
Proof.
  intros HF Hlen Haddr Hl. unfold InPutFromAddr. rewrite Z.gtb_ltb. zcase.
  set (bs := firstn (Z.to_nat len) addr).
  assert (Hbl : Zlen bs = len) by (unfold bs, Zlen in *; rewrite length_firstn; lia).
  zcase. assert (HB : Forall is_byte bs) by by apply Forall_take.
  destruct (nibble_string bs HB) as (H1 & H2 & H3).
  set (str := concat (map nibble_chars bs)) in *.
  unfold InPutFromStr. mstep (init_BI_ok c l Hl).
  rewrite cstr_app_nul by (eapply Forall_impl; [|exact H1]; unfold hex_char; intros ? ?; cbn in *; lia).
  destruct (str_loop_spec zeroBI str 0 wf_zeroBI norm_zeroBI H1) as (R & HR & HRw & HRn & HRm).
  { rewrite mag_zeroBI, H2. change W32 with (16 ^ 8). rewrite <- Z.pow_mul_r by lia.
    rewrite Z.mul_1_l. apply Z.pow_le_mono_r; lia. }
  mstep HR. exists R. split; [done|]. split; [done|]. split; [done|].
  rewrite HRm, mag_zeroBI. lia.
Qed.

(** ** Output *)

Lemma byte_of x k : 0 <= k -> Z.land (Z.shiftr x (8 * k)) 255 = (x / 256 ^ k) mod 256.
Proof.
  intros Hk. rewrite Z.shiftr_div_pow2 by lia. change 255 with (Z.ones 8).
  rewrite Z.land_ones by lia. rewrite Z.pow_mul_r by lia. done.
Qed.

Lemma le_bytes_spec x : is_u32 x -> Forall is_byte (le_bytes x) /\ le_num (le_bytes x) = x.
Proof.
  unfold is_u32, W32. intros Hx. unfold le_bytes.
  pose proof (byte_of x 0 ltac:(lia)) as E0. pose proof (byte_of x 1 ltac:(lia)) as E1.
  pose proof (byte_of x 2 ltac:(lia)) as E2. pose proof (byte_of x 3 ltac:(lia)) as E3.
  change (8 * 0) with 0 in E0. change (8 * 1) with 8 in E1.
  change (8 * 2) with 16 in E2. change (8 * 3) with 24 in E3. rewrite E0, E1, E2, E3.
  change (256 ^ 0) with 1. change (256 ^ 1) with 256. change (256 ^ 2) with 65536.
  change (256 ^ 3) with 16777216. clear E0 E1 E2 E3. split.
  - repeat constructor; unfold is_byte; dlia.
  - cbn [le_num]. dlia.
Qed.

Lemma be_bytes_rev x : be_bytes x = rev (le_bytes x).
Proof. reflexivity. Qed.

Lemma be_num_rev bs : be_num 256 (rev bs) = le_num bs.
Proof.
  induction bs as [|x bs IH]; [done|]. cbn [rev le_num]. rewrite be_num_snoc, IH. lia.
Qed.

(** The digits below [n], as bytes in memory order. *)
Fixpoint mem_bytes (v : list Z) (n : nat) : list Z :=
  match n with
  | O => []
  | S n' => mem_bytes v n' ++ le_bytes v.[Z.of_nat n']
  end.

Lemma mem_bytes_spec v n : digits v ->
  Forall is_byte (mem_bytes v n) /\ length (mem_bytes v n) = (4 * n)%nat /\ le_num (mem_bytes v n) = val v n.
Proof.
  intros Hv. induction n as [|n (H1 & H2 & H3)]; [done|]. cbn [mem_bytes val].
  destruct (le_bytes_spec v.[Z.of_nat n] (digits_at v _ Hv)) as [H4 H5].
  split; [by apply Forall_app|]. split; [rewrite length_app, H2; simpl; lia|].
  rewrite le_num_app, H3, H5. unfold Zlen. rewrite H2.
  replace (256 ^ Z.of_nat (4 * n)) with (Wn n); [lia|].
  unfold Wn. change W32 with (256 ^ 4). rewrite <- Z.pow_mul_r by lia. f_equal. lia.
Qed.

Lemma OutPutToAddr_fwd A : wf A -> OutPutToAddr A false = Ret (mem_bytes (m_ulValue A) (blen A)).
Proof.
  intros HA. pose proof (wf_len _ HA). unfold OutPutToAddr.
  destruct (forU_inv (fun i out => out = mem_bytes (m_ulValue A) (Z.to_nat i))
    (fun i out => x ← rd (m_ulValue A) i; Ret (out ++ le_bytes x))
    (Z.to_nat (m_nLength A)) 0 []) as (s & Hs & ->); [done| |].
  - intros j t Hj ->. rewrite rd_ok by (destruct (wf_digits _ HA); lia). eexists. split; [reflexivity|].
    replace (Z.to_nat (j + 1)) with (S (Z.to_nat j)) by lia. cbn [mem_bytes]. by rewrite Z2Nat.id by lia.
  - rewrite Hs. do 2 f_equal. unfold blen. lia.
Qed.

Lemma OutPutToAddr_rev A : wf A -> OutPutToAddr A true = Ret (rev (mem_bytes (m_ulValue A) (blen A))).
Proof.
  intros HA. pose proof (wf_len _ HA). unfold OutPutToAddr.
  destruct (forD_inv (fun i out => out ++ rev (mem_bytes (m_ulValue A) (Z.to_nat (i + 1))) =
                                   rev (mem_bytes (m_ulValue A) (blen A)))
    (fun i out => x ← rd (m_ulValue A) i; Ret (out ++ be_bytes x))
    (Z.to_nat (m_nLength A)) (m_nLength A - 1) []) as (s & Hs & HE).
  - cbn [app]. do 3 f_equal. unfold blen. lia.
  - intros j t Hj HE. rewrite rd_ok by (destruct (wf_digits _ HA); lia). eexists. split; [reflexivity|].
    rewrite <- HE. replace (Z.to_nat (j + 1)) with (S (Z.to_nat j)) by lia. cbn [mem_bytes].
    rewrite rev_app_distr, Z2Nat.id, be_bytes_rev, app_assoc by lia.
    by replace (j - 1 + 1) with j by lia.
  - rewrite Hs. f_equal. rewrite <- HE.
    replace (m_nLength A - 1 - Z.of_nat (Z.to_nat (m_nLength A)) + 1) with 0 by lia.
    change (mem_bytes (m_ulValue A) (Z.to_nat 0)) with (@nil Z). by rewrite app_nil_r.
Qed.

(** ** Normalised numbers are determined by their value *)

Lemma val_digits_inj v w n :
  digits v -> digits w -> val v n = val w n -> forall i, 0 <= i < Z.of_nat n -> v.[i] = w.[i].
Proof.
  intros Hv Hw. induction n as [|n IH]; intros HE i Hi; [lia|]. cbn [val] in HE.
  pose proof (val_bound v n Hv). pose proof (val_bound w n Hw).
  assert (v.[Z.of_nat n] = w.[Z.of_nat n]) as Et by nia.
  destruct (decide (i = Z.of_nat n)) as [->|]; [done|]. apply IH; [|lia]. rewrite Et in HE. lia.
Qed.

Lemma BI_value_inj A B : wf A -> wf B -> norm A -> norm B -> mag A = mag B -> A = B.
Proof.
  intros HA HB NA NB HE. assert (El : m_nLength A = m_nLength B).
  { destruct (Z.lt_trichotomy (m_nLength A) (m_nLength B)) as [H|[H|H]]; [|done|].
    - pose proof (norm_len_lt A B HA HB NB H). lia.
    - pose proof (norm_len_lt B A HB HA NA H). lia. }
  assert (Hlen : length (m_ulValue A) = length (m_ulValue B)).
  { destruct (wf_digits _ HA) as [H1 _], (wf_digits _ HB) as [H2 _]. unfold Zlen in *. lia. }
  assert (Hv : m_ulValue A = m_ulValue B).
  { apply (nth_ext _ _ 0 0); [done|]. intros n Hn.
    assert (Hat : (m_ulValue A).[Z.of_nat n] = (m_ulValue B).[Z.of_nat n]);
      [|unfold at_ in Hat; by rewrite Nat2Z.id in Hat].
    destruct (decide (Z.of_nat n < m_nLength A)).
    - apply (val_digits_inj _ _ (blen A)); [apply HA|apply HB| |pose proof (blen_Z A HA); lia].
      unfold mag, blen in *. by rewrite El in *.
    - rewrite (wf_zero _ HA), (wf_zero _ HB) by lia. done. }
  destruct A, B. cbn in *. f_equal; try done. destruct HA, HB. cbn in *. congruence.
Qed.
