(* ===== verification/Rsa.v ===== *)
(** * RSA signature recovery: [arch/mips/realtek-boards/drivers/mcp/rsa.c]

    [rsa_verify] raises the signature to the public exponent and strips the
    [01 FF ... FF 00] header from the result.  The file holds the two functions
    and their properties. *)
From stdpp Require Import base tactics list numbers option.
From Stdlib Require Import ZArith Lia Znumtheory.
From S2P Require Import Prelude Bi BiArith BiDiv BiExp BiIO.

(** ** The functions *)

(** The digit array seen through [(unsigned char* )] on the little-endian CPU,
    and back. *)
Definition words_to_bytes (v : list Z) : list Z := concat (map le_bytes v).

Fixpoint bytes_to_words (bs : list Z) : list Z :=
  match bs with
  | a :: b :: c :: d :: bs' => (a + 256 * (b + 256 * (c + 256 * d))) :: bytes_to_words bs'
  | _ => []
  end.

(** The first loop, from index [n - 1] down: [Some i] is [header_start = i];
    [None] is one of the two exits with -1. *)
Fixpoint find_header (ptr : list Z) (n : nat) : res (option Z) :=
  match n with
  | O => Ret None
  | S n' =>
      b ← rd ptr (Z.of_nat n');
      if (b =? 31) || (b =? 1) then Ret (Some (Z.of_nat n'))
      else if b =? 0 then find_header ptr n'
      else Ret None
  end.

(** The second loop, which goes on below [header_start]. *)
Fixpoint find_tail (ptr : list Z) (n : nat) : res (option Z) :=
  match n with
  | O => Ret None
  | S n' =>
      b ← rd ptr (Z.of_nat n');
      if b =? 0 then Ret (Some (Z.of_nat n'))
      else if b =? 255 then find_tail ptr n'
      else Ret None
  end.

Definition strip_len (header_tail : Z) : Z :=
  header_tail / 4 + (if header_tail mod 4 =? 0 then 0 else 1).

(** Return value and the number after the call. *)
Definition rsa_strip (bi : BI) : res (Z * BI) :=
  let ptr := words_to_bytes (m_ulValue bi) in
  h ← find_header ptr (S (Z.to_nat (m_nLength bi * 4)));
  match h with
  | None => Ret (-1, bi)
  | Some header_start =>
      t ← find_tail ptr (Z.to_nat header_start);
      match t with
      | None => Ret (-1, bi)
      | Some header_tail =>
          ptr ← forU (Z.to_nat (header_start - header_tail)) header_tail
                  (fun k p => wr p k 0) ptr;
          Ret (0, mkBI (m_nSign bi) (strip_len header_tail) (bytes_to_words ptr))
      end
  end.

(** Return value and the contents of [dgst] after the call. *)
Definition rsa_verify (signature pub_exp md dgst : option BI) : M (Z * option BI) :=
  match signature, pub_exp, md, dgst with
  | Some signature, Some pub_exp, Some md, Some _ =>
      r ← Exp_Mod signature pub_exp md;
      '(_, r) ← lift (rsa_strip r);
      _ ← free_BI;
      mret (0, Some r)
  | _, _, _, _ => mret (-1, dgst)
  end.

(** ** Checked runs are runs *)

(** [refines m m']: whenever [m] returns, [m'] returns the same. *)
Definition refines {A} (m m' : M A) : Prop := forall h r, m h = Ret r -> m' h = Ret r.

#[export] Instance refines_refl {A} : Reflexive (@refines A).
Proof. by intros m h r. Qed.

#[export] Instance refines_trans {A} : Transitive (@refines A).
Proof. intros m1 m2 m3 H1 H2 h r H. by apply H2, H1. Qed.

#[export] Instance refines_bind {A B} :
  Proper (pointwise_relation A refines ==> refines ==> refines) (@mbind M _ A B).
Proof.
  intros f f' Hf m m' Hm h r. unfold mbind, M_bind.
  destruct (m h) as [[a h']| |] eqn:E; try done. rewrite (Hm h (a, h') E). apply Hf.
Qed.

Lemma Sub_checked_refines A B : refines (Sub_checked A B) (Sub A B).
Proof. unfold Sub_checked. destruct (sub_safe A B); [done|]. by intros h r. Qed.

(** Stepping under a bind whose first action is the same on both sides. *)
Ltac refine_bind := apply refines_bind; [intros ?|reflexivity].

Lemma Mod_loop_refines fuel p B : refines (Mod_loop Sub_checked fuel p B) (Mod_loop Sub fuel p B).
Proof.
  revert p. induction fuel as [|fuel IH]; intros p; [done|]. cbn [Mod_loop].
  refine_bind. destruct (_ >? 0); [|done].
  refine_bind. destruct a0 as [[div len]|]; [|apply Sub_checked_refines].
  do 5 refine_bind. apply refines_bind; [intros ?|apply Sub_checked_refines].
  refine_bind. apply IH.
Qed.

Lemma Mod_with_refines fuel A B : refines (Mod_with Sub_checked fuel A B) (Mod_with Sub fuel A B).
Proof. unfold Mod_with. do 2 refine_bind. apply refines_bind; [done|apply Mod_loop_refines]. Qed.

Lemma mulmod_refines fuel x y m : refines (mulmod Sub_checked fuel x y m) (mulmod Sub fuel x y m).
Proof. unfold mulmod. do 2 refine_bind. apply refines_bind; [done|apply Mod_with_refines]. Qed.

Lemma Exp_Mod_loop_refines mf fuel x y z m :
  refines (Exp_Mod_loop Sub_checked mf fuel x y z m) (Exp_Mod_loop Sub mf fuel x y z m).
Proof.
  revert x y z. induction fuel as [|fuel IH]; intros x y z; [done|]. cbn [Exp_Mod_loop].
  refine_bind. destruct (_ || _); [|done].
  destruct (Z.testbit a 0); refine_bind; (apply refines_bind; [intros ?; apply IH|apply mulmod_refines]).
Qed.

Lemma Exp_Mod_refines mf fuel b e m :
  refines (Exp_Mod_with Sub_checked mf fuel b e m) (Exp_Mod_with Sub mf fuel b e m).
Proof. unfold Exp_Mod_with. do 6 refine_bind. apply refines_bind; [done|apply Exp_Mod_loop_refines]. Qed.

(** [Exp_Mod] on runs in which no borrow is lost. *)
Lemma Exp_Mod_spec base exp m c l :
  modulus m -> operand m base -> wf exp -> norm exp -> (l + 7 <= c)%nat ->
  Exp_Mod_with Sub_checked mod_fuel exp_fuel base exp m (mkHeap c l) <> Fault ->
  exists R, Exp_Mod base exp m (mkHeap c l) = Ret (R, mkHeap c (S l)) /\
    wf R /\ norm R /\ mag R = mag base ^ mag exp mod mag m.
Proof.
  intros Hm Hb He Ne Hc Hnf.
  destruct (Exp_Mod_with_spec Sub_checked base exp m c l Hm Hb He Ne Hc) as [E|(R & E & H)]; [done|].
  exists R. split; [|done]. by apply Exp_Mod_refines.
Qed.

(** ** Memory images *)

Lemma at_cons_S x v n : (x :: v).[Z.of_nat (S n)] = v.[Z.of_nat n].
Proof. unfold at_. by rewrite !Nat2Z.id. Qed.

Lemma val_cons x v n : val (x :: v) (S n) = x + W32 * val v n.
Proof.
  induction n as [|n IH].
  - rewrite val_1. cbn [val]. unfold at_. simpl. lia.
  - change (val (x :: v) (S (S n))) with (val (x :: v) (S n) + (x :: v).[Z.of_nat (S n)] * Wn (S n)).
    rewrite IH, at_cons_S. cbn [val]. rewrite Wn_S. lia.
Qed.

Lemma le_num_words v n : Forall is_u32 v ->
  (n <= length v)%nat -> le_num (firstn (4 * n) (words_to_bytes v)) = val v n.
Proof.
  intros HF. revert n. induction HF as [|x v Hx HF IH]; intros n Hn.
  - simpl in Hn. by replace n with 0%nat by lia.
  - destruct n as [|n]; [done|]. replace (4 * S n)%nat with (4 + 4 * n)%nat by lia.
    unfold words_to_bytes. cbn [map concat]. change 4%nat with (length (le_bytes x)) at 1.
    rewrite firstn_app_2, le_num_app, val_cons. destruct (le_bytes_spec x Hx) as [_ ->].
    fold (words_to_bytes v). rewrite IH by (simpl in Hn; lia). done.
Qed.

Lemma words_to_bytes_ok v : Forall is_u32 v ->
  Forall is_byte (words_to_bytes v) /\ length (words_to_bytes v) = (4 * length v)%nat.
Proof.
  induction 1 as [|x v Hx HF [IH1 IH2]]; [done|]. unfold words_to_bytes. cbn [map concat].
  destruct (le_bytes_spec x Hx) as [H _]. split; [by apply Forall_app|].
  rewrite length_app. unfold words_to_bytes in IH2. rewrite IH2. simpl. lia.
Qed.

Lemma list_ind4 {A} (P : list A -> Prop) :
  P [] -> (forall a b c d l, P l -> P (a :: b :: c :: d :: l)) ->
  forall n l, length l = (4 * n)%nat -> P l.
Proof.
  intros H0 H4. induction n as [|n IH]; intros l Hl.
  - by destruct l.
  - do 4 (destruct l as [|? l]; [simpl in Hl; lia|]). apply H4, IH. simpl in Hl. lia.
Qed.

Lemma bytes_to_words_ok bs n : Forall is_byte bs -> length bs = (4 * n)%nat ->
  Forall is_u32 (bytes_to_words bs) /\ length (bytes_to_words bs) = n /\
  forall k, (k <= n)%nat -> val (bytes_to_words bs) k = le_num (firstn (4 * k) bs).
Proof.
  revert bs. induction n as [|n IH]; intros bs HF Hl.
  - destruct bs; [|done]. split; [constructor|]. split; [done|]. intros k Hk. by replace k with 0%nat by lia.
  - destruct bs as [|a [|b [|c [|d bs]]]]; try (simpl in Hl; lia).
    inversion HF as [|? ? Ha HF1]; subst. inversion HF1 as [|? ? Hb HF2]; subst.
    inversion HF2 as [|? ? Hc HF3]; subst. inversion HF3 as [|? ? Hd HF4]; subst.
    destruct (IH bs HF4) as (H1 & H2 & H3); [simpl in Hl; lia|]. cbn [bytes_to_words].
    unfold is_byte in *. split; [|split].
    + constructor; [unfold is_u32, W32; lia|done].
    + simpl. lia.
    + intros [|k] Hk; [done|]. rewrite val_cons, H3 by lia.
      replace (4 * S k)%nat with (S (S (S (S (4 * k))))) by lia. cbn [firstn le_num]. unfold W32. lia.
Qed.

(** ** Finding the header *)

Lemma find_header_spec ptr hs n :
  (hs < n)%nat -> (n <= length ptr)%nat -> ptr.[Z.of_nat hs] = 1 \/ ptr.[Z.of_nat hs] = 31 ->
  (forall i, (hs < i < n)%nat -> ptr.[Z.of_nat i] = 0) ->
  find_header ptr n = Ret (Some (Z.of_nat hs)).
Proof.
  intros Hlt Hn Hh Hz. induction n as [|n IH]; [lia|]. cbn [find_header].
  rewrite rd_ok by (unfold Zlen; lia). rewrite res_bind_Ret.
  destruct (decide (n = hs)) as [->|].
  - by destruct Hh as [-> | ->].
  - rewrite Hz by lia. simpl. apply IH; try lia. intros i Hi. apply Hz. lia.
Qed.

Lemma find_tail_spec ptr ht n :
  (ht < n)%nat -> (n <= length ptr)%nat -> ptr.[Z.of_nat ht] = 0 ->
  (forall i, (ht < i < n)%nat -> ptr.[Z.of_nat i] = 255) ->
  find_tail ptr n = Ret (Some (Z.of_nat ht)).
Proof.
  intros Hlt Hn Hh Hf. induction n as [|n IH]; [lia|]. cbn [find_tail].
  rewrite rd_ok by (unfold Zlen; lia). rewrite res_bind_Ret.
  destruct (decide (n = ht)) as [->|]; [by rewrite Hh|].
  rewrite Hf by lia. simpl. apply IH; try lia. intros i Hi. apply Hf. lia.
Qed.

Lemma memset0_spec ptr i n :
  0 <= i -> i + Z.of_nat n <= Zlen ptr ->
  forU n i (fun k p => wr p k 0) ptr =
  Ret (firstn (Z.to_nat i) ptr ++ replicate n 0 ++ skipn (Z.to_nat i + n) ptr).
Proof.
  intros Hi. revert i ptr Hi. induction n as [|n IH]; intros i ptr Hi Hn.
  - cbn [forU replicate app]. rewrite Nat.add_0_r. by rewrite firstn_skipn.
  - cbn [forU]. rewrite wr_ok by lia. rewrite res_bind_Ret, IH by (rewrite ?Zlen_insert; lia).
    f_equal. replace (Z.to_nat (i + 1)) with (S (Z.to_nat i)) by lia.
    assert (Hlt : (Z.to_nat i < length ptr)%nat) by (unfold Zlen in Hn; lia).
    rewrite (take_S_r _ _ 0) by (by apply list_lookup_insert_eq).
    rewrite take_insert_ge, drop_insert_lt by lia.
    rewrite <- app_assoc. cbn [replicate app].
    replace (Z.to_nat i + S n)%nat with (S (Z.to_nat i) + n)%nat by lia. done.
Qed.

(** ** Stripping *)

(** A padded block in memory: [D 00 FF .. FF h 00 ..], least significant byte
    first. *)
Definition padded (D : list Z) (n : nat) (h : Z) : list Z := D ++ [0] ++ replicate n 255 ++ [h].

Lemma at_replicate n x i : 0 <= i < Z.of_nat n -> (replicate n x).[i] = x.
Proof. unfold at_. intros. apply nth_lookup_Some. apply lookup_replicate. lia. Qed.

Lemma padded_at D n h k i :
  let ptr := padded D n h ++ replicate k 0 in
  0 <= i ->
  (i = Zlen D -> ptr.[i] = 0) /\ (Zlen D < i <= Zlen D + Z.of_nat n -> ptr.[i] = 255) /\
  (i = Zlen D + 1 + Z.of_nat n -> ptr.[i] = h) /\ (Zlen D + 1 + Z.of_nat n < i -> ptr.[i] = 0).
Proof.
  intros ptr Hi. unfold ptr, padded. rewrite <- !app_assoc. cbn [app].
  pose proof (Zlen_nonneg D).
  assert (Hr : Zlen (replicate n 255) = Z.of_nat n) by (unfold Zlen; by rewrite length_replicate).
  assert (Hc : forall x (l : list Z) j, 0 < j -> (x :: l).[j] = l.[j - 1]).
  { intros x l j Hj. rewrite (at_app_r [x] l); [done|]. unfold Zlen. simpl. lia. }
  repeat split; intros Hc'; rewrite at_app_r by lia.
  - by replace (i - Zlen D) with 0 by lia.
  - rewrite Hc, at_app_l by lia. apply at_replicate. lia.
  - rewrite Hc, at_app_r by lia. by replace (i - Zlen D - 1 - Zlen (replicate n 255)) with 0 by lia.
  - rewrite Hc, at_app_r, Hc by lia. apply at_replicate0.
Qed.

Lemma strip_len_spec k : 0 < k -> 1 <= strip_len k /\ k <= 4 * strip_len k <= k + 3.
Proof. intros Hk. unfold strip_len. zcase; dlia. Qed.

Lemma le_num_zeros xs n : le_num (xs ++ replicate n 0) = le_num xs.
Proof.
  rewrite le_num_app. assert (le_num (replicate n 0) = 0) as ->; [|lia].
  induction n as [|n IH]; [done|]. cbn [replicate le_num]. lia.
Qed.

Lemma rsa_strip_spec bi D n h k :
  digits (m_ulValue bi) -> 1 <= m_nLength bi <= 128 ->
  words_to_bytes (m_ulValue bi) = padded D n h ++ replicate k 0 ->
  h = 1 \/ h = 31 -> D <> [] -> (2 <= n)%nat -> Zlen D + 1 + Z.of_nat n <= 4 * m_nLength bi ->
  exists R, rsa_strip bi = Ret (0, R) /\ m_nLength R = strip_len (Zlen D) /\
    mag R = le_num D /\ m_nSign R = m_nSign bi /\
    words_to_bytes (m_ulValue bi) = D ++ [0] ++ replicate n 255 ++ [h] ++ replicate k 0 /\
    m_ulValue R = bytes_to_words (D ++ replicate (S n) 0 ++ [h] ++ replicate k 0).
Proof.
  intros [Hlv Hdv] Hlen Hptr Hh HD Hn Hin.
  destruct (words_to_bytes_ok _ Hdv) as [Hby Hbl]. unfold BI_MAXLEN, Zlen in Hlv.
  assert (HD0 : 0 < Zlen D) by (unfold Zlen; destruct D; [done|simpl; lia]).
  set (ptr := words_to_bytes (m_ulValue bi)) in *.
  set (hs := (length D + 1 + n)%nat).
  assert (Hhs : Z.of_nat hs = Zlen D + 1 + Z.of_nat n) by (unfold hs, Zlen; lia).
  assert (Hat : forall i, 0 <= i -> _) by exact (fun i => padded_at D n h k i). cbv zeta in Hat.
  rewrite <- Hptr in Hat. unfold rsa_strip. fold ptr.
  assert (Hfh : find_header ptr (S (Z.to_nat (m_nLength bi * 4))) = Ret (Some (Z.of_nat hs))).
  { apply find_header_spec; [lia|lia| |].
    - destruct (Hat (Z.of_nat hs) ltac:(lia)) as (_ & _ & E & _). rewrite E by lia. tauto.
    - intros i Hi. destruct (Hat (Z.of_nat i) ltac:(lia)) as (_ & _ & _ & E). apply E. lia. }
  mstep Hfh. rewrite Nat2Z.id.
  assert (Hft : find_tail ptr hs = Ret (Some (Z.of_nat (length D)))).
  { apply find_tail_spec; [unfold hs; lia|lia| |].
    - destruct (Hat (Z.of_nat (length D)) ltac:(lia)) as (E & _). apply E. done.
    - intros i Hi. destruct (Hat (Z.of_nat i) ltac:(lia)) as (_ & E & _). apply E. unfold hs, Zlen in *. lia. }
  mstep Hft. rewrite memset0_spec by (unfold Zlen in *; lia). rewrite res_bind_Ret, Nat2Z.id.
  replace (Z.to_nat (Z.of_nat hs - Z.of_nat (length D))) with (S n) by (unfold hs; lia).
  assert (Himg : firstn (length D) ptr ++ replicate (S n) 0 ++ skipn (length D + S n) ptr =
                 D ++ replicate (S n) 0 ++ [h] ++ replicate k 0).
  { rewrite Hptr. unfold padded. rewrite <- !app_assoc, take_app_length. do 2 f_equal.
    rewrite skipn_app, skipn_all2 by lia. cbn [app].
    replace (length D + S n - length D)%nat with (S n) by lia. cbn [skipn].
    rewrite skipn_app, skipn_all2 by (rewrite length_replicate; lia). cbn [app].
    by rewrite length_replicate, Nat.sub_diag. }
  rewrite Himg. eexists. split; [reflexivity|]. cbn [m_nLength m_nSign m_ulValue].
  split; [done|]. split; [|split; [done|split; [|done]]].
  - set (img := D ++ replicate (S n) 0 ++ [h] ++ replicate k 0) in *.
    assert (Hil : length img = (4 * 129)%nat).
    { rewrite <- Himg, !length_app, length_firstn, length_replicate, length_skipn.
      unfold hs, Zlen in *. lia. }
    assert (HDb : Forall is_byte D).
    { rewrite Hptr in Hby. unfold padded in Hby. rewrite <- app_assoc in Hby. by apply Forall_app in Hby as [H _]. }
    assert (Hib : Forall is_byte img).
    { unfold img. rewrite !Forall_app. split; [done|].
      split; [apply Forall_replicate; unfold is_byte; lia|].
      split; [|apply Forall_replicate; unfold is_byte; lia].
      rewrite Forall_singleton. unfold is_byte. lia. }
    destruct (bytes_to_words_ok img 129 Hib Hil) as (_ & _ & HV).
    destruct (strip_len_spec (Zlen D) HD0) as [Hs1 Hs2].
    unfold mag, blen. cbn [m_nLength m_ulValue]. rewrite HV by (unfold Zlen in *; lia).
    unfold img. rewrite take_app, take_ge by (unfold Zlen in *; lia).
    rewrite take_app, length_replicate.
    unfold Zlen in *.
    replace (4 * Z.to_nat (strip_len (Z.of_nat (length D))) - length D - S n)%nat with 0%nat by lia.
    rewrite take_0, app_nil_r, take_replicate. apply le_num_zeros.
  - rewrite Hptr. unfold padded. by rewrite <- !app_assoc.
Qed.

(** A normalised number is laid out in memory as its bytes followed by zeros. *)
Lemma value_layout R bs :
  wf R -> Forall is_byte bs -> mag R = le_num bs -> (length bs <= 4 * 129)%nat ->
  words_to_bytes (m_ulValue R) = bs ++ replicate (4 * 129 - length bs) 0.
Proof.
  intros HR Hbs Hm Hl. destruct (wf_digits _ HR) as [Hlv Hdv]. unfold BI_MAXLEN, Zlen in Hlv.
  destruct (words_to_bytes_ok _ Hdv) as [Hby Hbl]. apply le_num_inj; [done| | |].
  - apply Forall_app. split; [done|]. apply Forall_replicate. unfold is_byte. lia.
  - rewrite length_app, length_replicate. lia.
  - rewrite le_num_zeros, <- Hm, <- (mag_wide R 129) by (done || pose proof (blen_pos R HR); lia).
    rewrite <- (le_num_words _ 129) by (done || lia). f_equal. rewrite take_ge by lia. done.
Qed.
