(* ===== verification/BiTheorems.v ===== *)
(** * The properties of the big-integer library and of the RSA check

    Each theorem states what one entry point of [bi.c] or [rsa.c] computes.
    Concrete numbers for the witnesses are written with [BI_of], and the
    invariants on them are decided by [bi_ok]. *)
From stdpp Require Import base tactics list numbers option.
From Stdlib Require Import ZArith Lia Znumtheory Zpow_facts.
From S2P Require Import Prelude Bi BiArith BiDiv BiExp BiIO Rsa.

(** ** Concrete numbers *)

Fixpoint limbs (k : nat) (n : Z) : list Z :=
  match k with
  | O => []
  | S k' => u32 n :: limbs k' (Z.shiftr n 32)
  end.

(** The normalised [BI] of a non-negative number below [2^4128]. *)
Definition BI_of (n : Z) : BI :=
  mkBI 1 (Z.log2 n / 32 + 1) (limbs (Z.to_nat BI_MAXLEN) n).

Definition u32_ok (x : Z) : bool := (0 <=? x) && (x <? W32).

(** A decision procedure for [wf] and [norm]. *)
Definition bi_ok (A : BI) : bool :=
  (Zlen (m_ulValue A) =? BI_MAXLEN) && forallb u32_ok (m_ulValue A) &&
  (1 <=? m_nLength A) && (m_nLength A <=? BI_MAXLEN) &&
  forallb (Z.eqb 0) (skipn (blen A) (m_ulValue A)) &&
  (m_nSign A =? 1) &&
  ((m_nLength A =? 1) || (1 <=? (m_ulValue A).[m_nLength A - 1])).

Lemma skipn_zeros v n : forallb (Z.eqb 0) (skipn n v) = true -> zeros_from v (Z.of_nat n).
Proof.
  intros H j Hj Hj0. rewrite forallb_forall in H. unfold at_.
  destruct (decide (Z.to_nat j < length v)%nat); [|apply nth_overflow; lia].
  symmetry. apply Z.eqb_eq, H. replace (Z.to_nat j) with (n + (Z.to_nat j - n))%nat by lia.
  rewrite <- nth_skipn. apply nth_In. rewrite length_skipn. lia.
Qed.

Lemma top_digit_norm A : wf A -> 1 <= (m_ulValue A).[m_nLength A - 1] -> norm A.
Proof.
  intros HA Ht. right. destruct (mag_top A HA) as (r & Hr & ->).
  pose proof (Wn_pos (blen A - 1)). nia.
Qed.

Lemma bi_ok_sound A : bi_ok A = true -> wf A /\ norm A.
Proof.
  unfold bi_ok. rewrite !andb_true_iff, orb_true_iff, !Z.eqb_eq, !Z.leb_le.
  intros ((((((Hl & Hd) & H1) & H2) & Hz) & Hs) & Hn).
  assert (HA : wf A).
  { split; [split; [done|]|done| |done].
    - apply List.Forall_forall. intros x Hx. rewrite forallb_forall in Hd.
      apply Hd in Hx. unfold u32_ok in Hx.
      rewrite andb_true_iff, Z.leb_le, Z.ltb_lt in Hx. done.
    - apply skipn_zeros in Hz. unfold blen in Hz. by rewrite Z2Nat.id in Hz by lia. }
  split; [done|]. destruct Hn as [Hn|Hn]; [by left|by apply top_digit_norm].
Qed.

(** Discharges [wf A] and [norm A] on a concrete [A]. *)
Ltac bi_decide := apply bi_ok_sound; vm_compute; reflexivity.

(** ** Modular exponentiation and the signature check *)

(** C33: [Exp_Mod] is modular exponentiation.  For a modulus of at most 64
    digits and a base coprime to it, on a heap with seven free objects, the
    call terminates with exactly one new object, a normalised number equal to
    [base ^ exp mod m], whenever no subtraction of the run loses a borrow. *)
Theorem Exp_Mod_correct base exp m c l :
  modulus m -> operand m base -> wf exp -> norm exp -> (l + 7 <= c)%nat ->
  Exp_Mod_with Sub_checked mod_fuel exp_fuel base exp m (mkHeap c l) <> Fault ->
  exists R, Exp_Mod base exp m (mkHeap c l) = Ret (R, mkHeap c (S l)) /\
    wf R /\ norm R /\ mag R = mag base ^ mag exp mod mag m.
Proof. apply Exp_Mod_spec. Qed.

Lemma modulus_ok m : bi_ok m && (m_nLength m <=? 64) && (1 <? mag m) = true -> modulus m.
Proof.
  rewrite !andb_true_iff, Z.leb_le, Z.ltb_lt. intros ((H & H1) & H2).
  destruct (bi_ok_sound m H). unfold modulus. auto.
Qed.

Lemma gcd_1_rel_prime a b : Z.gcd a b = 1 -> rel_prime a b.
Proof.
  intros H. split; [apply Z.divide_1_l..|]. intros x Ha Hb.
  rewrite <- H. by apply Z.gcd_greatest.
Qed.

Lemma operand_ok m x :
  bi_ok x && (m_nLength x <=? 64) && (Z.gcd (mag x) (mag m) =? 1) = true -> operand m x.
Proof.
  rewrite !andb_true_iff, Z.leb_le, Z.eqb_eq. intros ((H & H1) & H2).
  destruct (bi_ok_sound x H). unfold operand. auto 6 using gcd_1_rel_prime.
Qed.

Definition is_fault {A} (r : res A) : bool := match r with Fault => true | _ => false end.

Lemma not_fault {A} (r : res A) : is_fault r = false -> r <> Fault.
Proof. by intros H ->. Qed.

(** A three-digit modulus, a base and the public exponent 65537. *)
Definition demo_m : BI := BI_of (2 ^ 89 - 1).
Definition demo_b : BI := BI_of 123456789012345678901.
Definition demo_e : BI := BI_of 65537.

Lemma Exp_Mod_correct_witness :
  exists R, Exp_Mod demo_b demo_e demo_m (mkHeap 7 0) = Ret (R, mkHeap 7 1) /\
    wf R /\ norm R /\ mag R = mag demo_b ^ mag demo_e mod mag demo_m.
Proof.
  apply (Exp_Mod_correct demo_b demo_e demo_m 7 0).
  - apply modulus_ok. vm_compute. reflexivity.
  - apply operand_ok. vm_compute. reflexivity.
  - bi_decide.
  - bi_decide.
  - lia.
  - apply not_fault. vm_compute. reflexivity.
Defined.

Lemma padded_lower D n h : Forall is_byte D -> 1 <= h ->
  256 ^ (Zlen D + 1 + Z.of_nat n) <= le_num (padded D n h).
Proof.
  intros HD Hh. unfold padded. rewrite !app_assoc, le_num_app.
  assert (Forall is_byte ((D ++ [0]) ++ replicate n 255)) as HF.
  { rewrite !Forall_app, Forall_singleton. repeat split; try done.
    apply Forall_replicate. unfold is_byte. lia. }
  pose proof (le_num_bound _ HF) as Hb. rewrite !Zlen_app in *.
  replace (Zlen (replicate n 255)) with (Z.of_nat n) in * by (unfold Zlen; by rewrite length_replicate).
  change (Zlen [0]) with 1 in *. cbn [le_num].
  pose proof (Z.pow_pos_nonneg 256 (Zlen D + 1 + Z.of_nat n)). pose proof (Zlen_nonneg D). nia.
Qed.

(** A normalised number at least [256^k] has its [k]-th byte within its digits. *)
Lemma byte_within R k : wf R -> 0 <= k -> 256 ^ k <= mag R -> k < 4 * m_nLength R.
Proof.
  intros HR Hk Hm. pose proof (mag_bound R HR) as [_ Hb]. unfold Wn in Hb.
  rewrite (blen_Z R HR) in Hb. change W32 with (256 ^ 4) in Hb.
  rewrite <- Z.pow_mul_r in Hb by (pose proof (wf_len _ HR); lia).
  apply (Z.pow_lt_mono_r_iff 256); pose proof (wf_len _ HR); lia.
Qed.

Lemma padded_bytes D n h : Forall is_byte D -> is_byte h -> Forall is_byte (padded D n h).
Proof.
  intros HD Hh. unfold padded. rewrite !Forall_app, !Forall_singleton. repeat split; try done.
  - apply Forall_replicate. unfold is_byte. lia.
  - apply Hh.
  - apply Hh.
Qed.

Lemma rsa_verify_spec signature pub_exp md dgst D n h c l :
  modulus md -> operand md signature -> wf pub_exp -> norm pub_exp -> (l + 7 <= c)%nat ->
  Exp_Mod_with Sub_checked mod_fuel exp_fuel signature pub_exp md (mkHeap c l) <> Fault ->
  Forall is_byte D -> D <> [] -> (2 <= n)%nat -> h = 1 \/ h = 31 ->
  mag signature ^ mag pub_exp mod mag md = le_num (padded D n h) ->
  exists R, rsa_verify (Some signature) (Some pub_exp) (Some md) (Some dgst) (mkHeap c l) =
              Ret ((0, Some R), mkHeap c l) /\
    mag R = le_num D /\ m_nLength R = strip_len (Zlen D).
Proof.
  intros Hm Hs He Ne Hc Hf HD HD0 Hn Hh Hsig.
  destruct (Exp_Mod_spec signature pub_exp md c l Hm Hs He Ne Hc Hf) as (r & Er & Hr & Nr & Hrm).
  assert (Hhb : is_byte h) by (unfold is_byte; lia).
  assert (Hml : m_nLength r <= 64).
  { destruct Hm as (Hmw & Nm & Hml & Hm1).
    pose proof (Z.mod_pos_bound (mag signature ^ mag pub_exp) (mag md) ltac:(lia)).
    pose proof (norm_len_le r md Hr Hmw Nr ltac:(lia)). lia. }
  assert (Hin : Zlen D + 1 + Z.of_nat n < 4 * m_nLength r).
  { apply byte_within; [done|pose proof (Zlen_nonneg D); lia|].
    rewrite Hrm, Hsig. apply padded_lower; [done|lia]. }
  assert (Hlen : Zlen (padded D n h) = Zlen D + 2 + Z.of_nat n).
  { unfold padded, Zlen. rewrite !length_app, length_replicate. simpl. lia. }
  pose proof (value_layout r (padded D n h) Hr (padded_bytes D n h HD Hhb)
                ltac:(congruence) ltac:(unfold Zlen in *; lia)) as Hlay.
  destruct (rsa_strip_spec r D n h _ (wf_digits _ Hr) ltac:(pose proof (wf_len _ Hr); lia)
              Hlay Hh HD0 Hn ltac:(lia)) as (R & ER & HRl & HRm & _).
  exists R. split; [|done]. unfold rsa_verify. mstep Er. mstep ER. by mstep (kfree_S c l).
Qed.

(** C1: [rsa_verify] recovers the signed digest.  When the signature raised to
    the public exponent is the block [h FF .. FF 00 D] modulo the key (bytes in
    memory order reversed), with [h] 01 or 1F and at least two FF bytes, the
    call returns 0, stores a number equal to [D] of exactly the digits that
    [D] needs, and releases every object it allocated - provided that no borrow is
    lost in the exponentiation: [Sub] drops one that meets a zero digit
    ([Sub_borrow_lost]), and the run with the checked subtraction must be free of
    that. *)
Theorem rsa_verify_correct signature pub_exp md dgst D n h c l :
  modulus md -> operand md signature -> wf pub_exp -> norm pub_exp -> (l + 7 <= c)%nat ->
  Exp_Mod_with Sub_checked mod_fuel exp_fuel signature pub_exp md (mkHeap c l) <> Fault ->
  Forall is_byte D -> D <> [] -> (2 <= n)%nat -> h = 1 \/ h = 31 ->
  mag signature ^ mag pub_exp mod mag md = le_num (padded D n h) ->
  exists R, rsa_verify (Some signature) (Some pub_exp) (Some md) (Some dgst) (mkHeap c l) =
              Ret ((0, Some R), mkHeap c l) /\
    mag R = le_num D /\ m_nLength R = strip_len (Zlen D).
Proof. apply rsa_verify_spec. Qed.

(** A two-prime key, the public exponent 65537 and a signature made with the
    private one of the block [01 FF*8 00 42 EF BE AD DE]. *)
Definition demo_key : BI := BI_of ((2 ^ 61 - 1) * (2 ^ 89 - 1)).
Definition demo_sig : BI := BI_of 151368838422647417258136313233802630388941574.
Definition demo_dgst : list Z := [222; 173; 190; 239; 66].

Lemma rsa_verify_correct_witness :
  exists R, rsa_verify (Some demo_sig) (Some demo_e) (Some demo_key) (Some zeroBI) (mkHeap 7 0) =
              Ret ((0, Some R), mkHeap 7 0) /\
    mag R = le_num demo_dgst /\ m_nLength R = strip_len (Zlen demo_dgst).
Proof.
  apply (rsa_verify_correct demo_sig demo_e demo_key zeroBI demo_dgst 8 1 7 0).
  - apply modulus_ok. vm_compute. reflexivity.
  - apply operand_ok. vm_compute. reflexivity.
  - bi_decide.
  - bi_decide.
  - lia.
  - apply not_fault. vm_compute. reflexivity.
  - repeat constructor; unfold is_byte; lia.
  - done.
  - lia.
  - by left.
  - rewrite <- Zpow_mod_correct by (apply Z.eqb_neq; vm_compute; reflexivity).
    vm_compute. reflexivity.
Defined.

(** [rsa_verify] does not report a malformed block.  With four non-NULL
    arguments every call that returns has return value 0, also when
    [rsa_strip] rejects the recovered block; the caller then gets the
    recovered number as it is.  With a NULL argument the call returns -1 and
    changes nothing. *)
Theorem rsa_verify_status signature pub_exp md dgst h :
  (forall s e m d r, signature = Some s -> pub_exp = Some e -> md = Some m -> dgst = Some d ->
     rsa_verify signature pub_exp md dgst h = Ret r ->
     exists R g, Exp_Mod s e m h = Ret (R, g) /\
       r = ((0, Some (match rsa_strip R with Ret (_, R') => R' | _ => R end)), mkHeap (cap g) (pred (live g)))) /\
  (signature = None \/ pub_exp = None \/ md = None \/ dgst = None ->
     rsa_verify signature pub_exp md dgst h = Ret ((-1, dgst), h)).
Proof.
  split.
  - intros s e m d r -> -> -> -> H. unfold rsa_verify, mbind, M_bind in H.
    destruct (Exp_Mod s e m h) as [[R g]| |]; [|done..]. exists R, g. split; [done|].
    unfold lift in H. destruct (rsa_strip R) as [[z R']| |]; [|done..].
    simpl in H. injection H as <-. done.
  - intros H. unfold rsa_verify. by destruct signature, pub_exp, md, dgst, H as [|[|[|]]].
Qed.

Lemma rsa_verify_status_witness :
  rsa_verify None (Some demo_e) (Some demo_m) (Some zeroBI) (mkHeap 7 0) =
  Ret ((-1, Some zeroBI), mkHeap 7 0).
Proof.
  apply (rsa_verify_status None (Some demo_e) (Some demo_m) (Some zeroBI) (mkHeap 7 0)). by left.
Defined.

(** [rsa_strip] on the image of a padded block: it returns 0, keeps the
    bytes of [D], clears the separator and the FF bytes, leaves the header
    byte in the array beyond the new length, and sets the length so that the
    number is [D]. *)
Theorem rsa_strip_correct bi D n h k :
  digits (m_ulValue bi) -> 1 <= m_nLength bi <= 128 ->
  words_to_bytes (m_ulValue bi) = padded D n h ++ replicate k 0 ->
  h = 1 \/ h = 31 -> D <> [] -> (2 <= n)%nat -> Zlen D + 1 + Z.of_nat n <= 4 * m_nLength bi ->
  exists R, rsa_strip bi = Ret (0, R) /\ m_nLength R = strip_len (Zlen D) /\ mag R = le_num D /\
    m_ulValue R = bytes_to_words (D ++ replicate (S n) 0 ++ [h] ++ replicate k 0).
Proof.
  intros H1 H2 H3 H4 H5 H6 H7.
  destruct (rsa_strip_spec bi D n h k H1 H2 H3 H4 H5 H6 H7) as (R & E & HL & HM & _ & _ & HV). by exists R.
Qed.

Definition demo_block : BI := BI_of (le_num (padded demo_dgst 8 1)).

Lemma rsa_strip_correct_witness :
  exists R, rsa_strip demo_block = Ret (0, R) /\ m_nLength R = strip_len (Zlen demo_dgst) /\
    mag R = le_num demo_dgst /\
    m_ulValue R = bytes_to_words (demo_dgst ++ replicate 9 0 ++ [1] ++ replicate 501 0).
Proof.
  apply (rsa_strip_correct demo_block demo_dgst 8 1 501).
  - apply bi_ok_sound. vm_compute. reflexivity.
  - vm_compute. split; discriminate.
  - vm_compute. reflexivity.
  - by left.
  - done.
  - lia.
  - vm_compute. discriminate.
Defined.

(** ** The operations *)

(** [Mod] is the remainder.  For a positive modulus of at most 127 digits
    the call terminates with one new object holding [A mod B], whenever no
    subtraction of the run loses a borrow. *)
Theorem Mod_correct A B c l :
  wf A -> wf B -> norm A -> norm B -> 0 < mag B -> m_nLength B <= 127 -> (l + 4 <= c)%nat ->
  Mod_with Sub_checked mod_fuel A B (mkHeap c l) <> Fault ->
  exists R, Mod A B (mkHeap c l) = Ret (R, mkHeap c (S l)) /\
    wf R /\ norm R /\ mag R = mag A mod mag B.
Proof.
  intros HA HB NA NB HB0 HBl Hc Hnf.
  destruct (Mod_sub_spec Sub_checked A B c l HA HB NA NB HB0 HBl Hc) as [E|(R & E & H)]; [done|].
  exists R. split; [|done]. by apply Mod_with_refines.
Qed.

Lemma Mod_correct_witness :
  exists R, Mod demo_sig demo_m (mkHeap 4 0) = Ret (R, mkHeap 4 1) /\
    wf R /\ norm R /\ mag R = mag demo_sig mod mag demo_m.
Proof.
  apply (Mod_correct demo_sig demo_m 4 0); try bi_decide.
  - vm_compute. reflexivity.
  - vm_compute. discriminate.
  - lia.
  - apply not_fault. vm_compute. reflexivity.
Defined.

(** [Mul] is multiplication: the product in one new object, normalised
    when both factors are normalised and not zero. *)
Theorem Mul_correct A B c l :
  wf A -> wf B -> m_nLength A + m_nLength B < BI_MAXLEN -> (l + 2 <= c)%nat ->
  exists R, Mul A B (mkHeap c l) = Ret (R, mkHeap c (S l)) /\ wf R /\ mag R = mag A * mag B /\
    (norm A -> norm B -> 0 < mag A -> 0 < mag B -> norm R).
Proof.
  intros HA HB Hl Hc. destruct (Mul_spec A B c l HA HB Hl Hc) as (R & E & HR & HM & _ & HN). by exists R.
Qed.

Lemma Mul_correct_witness :
  exists R, Mul demo_b demo_m (mkHeap 2 0) = Ret (R, mkHeap 2 1) /\ wf R /\ mag R = mag demo_b * mag demo_m /\
    (norm demo_b -> norm demo_m -> 0 < mag demo_b -> 0 < mag demo_m -> norm R).
Proof. apply (Mul_correct demo_b demo_m 2 0); [bi_decide|bi_decide|vm_compute; reflexivity|lia]. Defined.

(** [Sub] is signed subtraction.  On non-negative normalised numbers whose
    borrows never reach a zero digit of the larger one, the result is
    normalised, its magnitude is [|A - B|] and its sign field tells which of
    the two was larger; nothing stays allocated. *)
Theorem Sub_correct A B h :
  wf A -> wf B -> norm A -> norm B -> sub_safe A B = true ->
  exists R, Sub A B h = Ret (R, h) /\ digits (m_ulValue R) /\ zeros_from (m_ulValue R) (m_nLength R) /\
    norm R /\ mag R = Z.abs (mag A - mag B) /\ m_nSign R = (if mag A <? mag B then 0 else 1).
Proof.
  intros HA HB NA NB Hs.
  destruct (Sub_same_spec A B HA HB NA NB Hs) as (R & E & H1 & _ & H3 & H4 & H5 & H6).
  exists R. split; [|done]. unfold Sub. cbn [Sub_rec].
  rewrite (wf_sign _ HA), (wf_sign _ HB). by apply lift_Ret.
Qed.

Lemma Sub_correct_witness :
  exists R, Sub demo_b demo_m (mkHeap 0 0) = Ret (R, mkHeap 0 0) /\ digits (m_ulValue R) /\
    zeros_from (m_ulValue R) (m_nLength R) /\
    norm R /\ mag R = Z.abs (mag demo_b - mag demo_m) /\ m_nSign R = (if mag demo_b <? mag demo_m then 0 else 1).
Proof. apply (Sub_correct demo_b demo_m); try bi_decide. vm_compute. reflexivity. Defined.

(** a borrow that reaches a zero digit is lost.  On [2^64] and [1] the
    call returns, and the result is not the difference. *)
Theorem Sub_borrow_lost :
  exists R, Sub (BI_of (2 ^ 64)) (BI_of 1) (mkHeap 0 0) = Ret (R, mkHeap 0 0) /\
    mag R = 2 ^ 64 + 2 ^ 64 - 2 ^ 32 + (2 ^ 32 - 1) /\ mag R <> 2 ^ 64 - 1.
Proof. eexists. split; [vm_compute; reflexivity|]. split; [vm_compute; reflexivity|vm_compute; discriminate]. Qed.

(** [Add] is addition on non-negative numbers, with room for the carry
    digit; the result is never longer than the longer operand plus one. *)
Theorem Add_correct A B h :
  wf A -> wf B -> Z.max (m_nLength A) (m_nLength B) < BI_MAXLEN ->
  exists R, Add A B h = Ret (R, h) /\ wf R /\ mag R = mag A + mag B /\
    m_nLength R <= Z.max (m_nLength A) (m_nLength B) + 1.
Proof.
  intros HA HB Hl. destruct (Add_spec A B h HA HB Hl) as (R & E & HR & HM & HL & _).
  exists R. repeat (split; [done|]). apply HL.
Qed.

Lemma Add_correct_witness :
  exists R, Add demo_b demo_m (mkHeap 0 0) = Ret (R, mkHeap 0 0) /\ wf R /\ mag R = mag demo_b + mag demo_m /\
    m_nLength R <= Z.max (m_nLength demo_b) (m_nLength demo_m) + 1.
Proof. apply (Add_correct demo_b demo_m); [bi_decide|bi_decide|vm_compute; reflexivity]. Defined.

(** [Cmp] orders normalised numbers: 1, -1 or 0 as [A] is larger, smaller
    or equal. *)
Theorem Cmp_correct A B : wf A -> wf B -> norm A -> norm B ->
  Cmp A B = Ret (if mag B <? mag A then 1 else if mag A <? mag B then -1 else 0).
Proof. apply Cmp_spec. Qed.

Lemma Cmp_correct_witness :
  Cmp demo_b demo_m =
  Ret (if mag demo_m <? mag demo_b then 1 else if mag demo_b <? mag demo_m then -1 else 0).
Proof. apply (Cmp_correct demo_b demo_m); bi_decide. Defined.

(** the shift-subtract loop of [do_div64_32] and the macro [do_div] built
    on it compute the 64-bit by 32-bit quotient for every dividend and every
    non-zero divisor. *)
Theorem do_div_correct n base :
  0 <= n < W32 * W32 -> 0 < base < W32 -> do_div n base = Ret (n / base).
Proof. apply do_div_spec. Qed.

Lemma do_div_correct_witness :
  do_div 18446744073709551615 4294967295 = Ret (18446744073709551615 / 4294967295).
Proof. apply (do_div_correct 18446744073709551615 4294967295); unfold W32; lia. Defined.

(** [Div_p] and [Mod_p] are quotient and remainder by a positive machine
    integer: both return, and [A = b * Div_p A b + Mod_p A b]. *)
Theorem Div_p_Mod_p_correct A b :
  wf A -> norm A -> is_divisor b ->
  exists Q r, Div_p A b = Ret Q /\ Mod_p A b = Ret r /\ wf Q /\ norm Q /\
    mag A = b * mag Q + r /\ 0 <= r < b.
Proof.
  intros HA NA Hb. destruct (Div_p_spec A b HA NA Hb) as (Q & EQ & HQ & NQ & HM & _).
  exists Q, (mag A mod b). rewrite (Mod_p_spec A b HA Hb), HM. unfold is_divisor in Hb.
  pose proof (Z.div_mod (mag A) b ltac:(lia)). pose proof (Z.mod_pos_bound (mag A) b ltac:(lia)). done.
Qed.

Lemma Div_p_Mod_p_correct_witness :
  exists Q r, Div_p demo_sig 10 = Ret Q /\ Mod_p demo_sig 10 = Ret r /\ wf Q /\ norm Q /\
    mag demo_sig = 10 * mag Q + r /\ 0 <= r < 10.
Proof. apply (Div_p_Mod_p_correct demo_sig 10); try bi_decide. unfold is_divisor. lia. Defined.

(** the carry of [Add_p] is lost.  When adding a machine integer overflows
    the lowest digit, the call returns with the carry dropped: the result is
    too small by [2^32]. *)
Theorem Add_p_carry_lost A b :
  wf A -> 0 <= b < 2147483648 -> W32 <= (m_ulValue A).[0] + b ->
  exists R, Add_p A b = Ret R /\ m_nLength R = m_nLength A /\ mag R = mag A + b - W32.
Proof.
  intros HA Hb Hov. pose proof (wf_digits _ HA) as Hd. destruct (Hd) as [Hl _]. unfold BI_MAXLEN in Hl.
  pose proof (digits_at _ 0 Hd) as H0. unfold is_u32 in H0. pose proof (wf_len _ HA) as HL.
  unfold Add_p. cbn [Add_p_rec]. rewrite (wf_sign _ HA). do 2 zcase. unfold Add_p_same.
  rewrite rd_ok by lia. rewrite res_bind_Ret.
  assert (Hsum : u32 (b + (m_ulValue A).[0]) = (m_ulValue A).[0] + b - W32).
  { unfold u32. symmetry. apply (Z.mod_unique_pos _ _ 1); unfold W32 in *; lia. }
  rewrite Hsum, (u32_small ((m_ulValue A).[0] + b - W32)), wr_ok by (unfold is_u32, W32 in *; lia).
  rewrite res_bind_Ret, Z.gtb_ltb. unfold MASK32. destruct (Z.ltb_spec 4294967295 ((m_ulValue A).[0] + b - W32)).
  { unfold W32 in *. lia. }
  eexists. split; [done|]. split; [done|]. unfold mag, blen. cbn [m_nLength m_ulValue with_value].
  rewrite val_insert_in by (done || unfold BI_MAXLEN; lia). change (Wn (Z.to_nat 0)) with 1. lia.
Qed.

Lemma Add_p_carry_lost_witness :
  exists R, Add_p (BI_of (2 ^ 32 - 1)) 1 = Ret R /\ m_nLength R = m_nLength (BI_of (2 ^ 32 - 1)) /\
    mag R = mag (BI_of (2 ^ 32 - 1)) + 1 - W32.
Proof.
  apply (Add_p_carry_lost (BI_of (2 ^ 32 - 1)) 1); [bi_decide|lia|vm_compute; discriminate].
Defined.

(** [Sub_p] drops digits.  Subtracting 1 from [2^64 + 2^32] borrows from an
    inner digit that is 1; the length is then reduced although the top digit
    is not zero, so the call returns [2^32 - 1]. *)
Theorem Sub_p_inner_one :
  exists R, Sub_p (BI_of (2 ^ 64 + 2 ^ 32)) 1 = Ret R /\ m_nLength R = 2 /\
    mag R = 2 ^ 32 - 1 /\ (m_ulValue R).[2] = 1.
Proof. eexists. split; [vm_compute; reflexivity|]. by vm_compute. Qed.

(** [Div] leaks.  Dividing [2^96 + 5] by 7 returns the right quotient, but
    the number of allocated objects has grown by more than the one object
    that is returned: one object per iteration of its loop is not released. *)
Theorem Div_leaks :
  exists R, Div (BI_of (2 ^ 96 + 5)) (BI_of 7) (mkHeap 100 0) = Ret (R, mkHeap 100 33) /\
    mag R = (2 ^ 96 + 5) / 7.
Proof. eexists. split; [vm_compute; reflexivity|]. by vm_compute. Qed.

(** ** Input and output *)

(** [InPutFromAddr] reads at most 128 bytes as a big-endian number, into
    one new normalised object. *)
Theorem InPutFromAddr_correct addr len c l :
  Forall is_byte addr -> 0 <= len <= 128 -> len <= Zlen addr -> (l < c)%nat ->
  exists R, InPutFromAddr addr len (mkHeap c l) = Ret (Some R, mkHeap c (S l)) /\
    wf R /\ norm R /\ mag R = be_num 256 (firstn (Z.to_nat len) addr).
Proof. apply InPutFromAddr_spec. Qed.

Lemma demo_dgst_bytes : Forall is_byte demo_dgst.
Proof. repeat constructor; unfold is_byte; lia. Qed.

Lemma InPutFromAddr_correct_witness :
  exists R, InPutFromAddr demo_dgst 4 (mkHeap 1 0) = Ret (Some R, mkHeap 1 1) /\
    wf R /\ norm R /\ mag R = be_num 256 (firstn (Z.to_nat 4) demo_dgst).
Proof.
  apply (InPutFromAddr_correct demo_dgst 4 1 0); [apply demo_dgst_bytes|lia| |lia].
  vm_compute. discriminate.
Defined.

(** round trip.  The bytes that [OutPutToAddr] writes in reverse order for
    a number of at most 32 digits, read back by [InPutFromAddr], give the same
    object: sign, length and all 129 digits. *)
Theorem OutPut_InPut_roundtrip A c l :
  wf A -> norm A -> m_nLength A <= 32 -> (l < c)%nat ->
  exists bytes, OutPutToAddr A true = Ret bytes /\
    InPutFromAddr bytes (4 * m_nLength A) (mkHeap c l) = Ret (Some A, mkHeap c (S l)).
Proof.
  intros HA NA Hl Hc. eexists. split; [by apply OutPutToAddr_rev|].
  destruct (mem_bytes_spec (m_ulValue A) (blen A) (wf_digits _ HA)) as (Hb & Hlen & Hv).
  set (bs := rev (mem_bytes (m_ulValue A) (blen A))).
  pose proof (wf_len _ HA). pose proof (blen_Z A HA).
  assert (HL : length bs = (4 * blen A)%nat) by (unfold bs; by rewrite length_rev).
  destruct (InPutFromAddr_spec bs (4 * m_nLength A) c l) as (R & E & HR & NR & HM).
  - unfold bs. by apply Forall_rev.
  - lia.
  - unfold Zlen. lia.
  - done.
  - rewrite E. do 2 f_equal. f_equal. apply BI_value_inj; try done.
    rewrite HM, firstn_all2 by lia. unfold bs. by rewrite be_num_rev, Hv.
Qed.

Lemma OutPut_InPut_roundtrip_witness :
  exists bytes, OutPutToAddr demo_sig true = Ret bytes /\
    InPutFromAddr bytes (4 * m_nLength demo_sig) (mkHeap 1 0) = Ret (Some demo_sig, mkHeap 1 1).
Proof.
  apply (OutPut_InPut_roundtrip demo_sig 1 0); [bi_decide|bi_decide| |lia].
  vm_compute. discriminate.
Defined.
