(* ===== verification/Buff.v ===== *)
(** * Packet buffers: [drivers/mcp/mcp_buff.c]

    An [mcp_buff] is a block of memory with four pointers: the data bytes are
    those from [data] to [tail], with head room before them and tail room after
    them.  Pointers are 32-bit addresses; a block owns its bytes ([mem]), and
    an access outside the block is a [Fault].  The operations of the C file
    only warn about pointers that leave the block ([CHECK_BOUNDRARY]). *)
From stdpp Require Import base tactics list numbers option.
From Stdlib Require Import ZArith Lia.
From S2P Require Import Prelude.

(** ** Blocks of bytes *)

(** [n] bytes from index [i], and the store of [bs] at index [i]. *)
Definition load (m : list Z) (i n : Z) : res (list Z) :=
  if (0 <=? i) && (0 <=? n) && (i + n <=? Zlen m)
  then Ret (firstn (Z.to_nat n) (skipn (Z.to_nat i) m)) else Fault.

Definition store (m : list Z) (i : Z) (bs : list Z) : res (list Z) :=
  if (0 <=? i) && (i + Zlen bs <=? Zlen m)
  then Ret (firstn (Z.to_nat i) m ++ bs ++ skipn (Z.to_nat i + length bs) m) else Fault.

(** ** The structure and its operations *)

Definition MAX_MCPB_LEN : Z := 4 * 1024.
Definition MCP_BUFF_HEAD_RESERVE : Z := 128.
Definition MCP_BUFF_TAIL_RESERVE : Z := 128.
Definition MCP_BUFF_RESERVE_AREA : Z := MCP_BUFF_HEAD_RESERVE + MCP_BUFF_TAIL_RESERVE.

(** [sizeof(mcp_buff)]: four pointers and a length. *)
Definition sizeof_mcp_buff : Z := 20.

(** [self] is the address of the structure itself, in front of its bytes. *)
Record mcp_buff := mkBuff {
  self : Z;
  head : Z;
  data : Z;
  tail : Z;
  end_ : Z;
  len : Z;
  mem : list Z
}.

Definition set_ptrs (b : mcp_buff) (d t l : Z) : mcp_buff :=
  mkBuff (self b) (head b) d t (end_ b) l (mem b).
Definition set_mem (b : mcp_buff) (m : list Z) : mcp_buff :=
  mkBuff (self b) (head b) (data b) (tail b) (end_ b) (len b) m.

(** [true] when the warning is printed. *)
Definition CHECK_BOUNDRARY (b : mcp_buff) : bool :=
  (data b <? head b) || (tail b >? end_ b) || (tail b <? data b).

(** The two allocators, and the allocator's answer: an address and the bytes
    found there. *)
Inductive allocator := DVR_MALLOC | KMALLOC.

#[export] Instance allocator_eq_dec : EqDecision allocator.
Proof. solve_decision. Defined.

Definition alloc_fun : Type := allocator -> Z -> option (Z * list Z).

Definition pick (len : Z) : allocator := if len >=? MAX_MCPB_LEN then DVR_MALLOC else KMALLOC.

Definition mcpb_reserve (b : mcp_buff) (n : Z) : mcp_buff :=
  set_ptrs b (u32 (data b + n)) (u32 (tail b + n)) (len b).

(** [m] is the block without the structure at its start. *)
Definition __alloc_mcpb (al : alloc_fun) (n : Z) : option mcp_buff :=
  let n := u32 (n + sizeof_mcp_buff) in
  match al (pick n) n with
  | Some (p, m) =>
      let h := u32 (p + sizeof_mcp_buff) in
      Some (mkBuff p h h h (u32 (h + n - sizeof_mcp_buff)) 0
              (skipn (Z.to_nat sizeof_mcp_buff) m))
  | None => None
  end.

Definition alloc_mcpb (al : alloc_fun) (n : Z) : option mcp_buff :=
  match __alloc_mcpb al (u32 (n + MCP_BUFF_RESERVE_AREA)) with
  | None => None
  | Some b => Some (mcpb_reserve b MCP_BUFF_HEAD_RESERVE)
  end.

(** Which allocator gets which pointer back. *)
Definition free_mcpb (p : option mcp_buff) : option (allocator * Z) :=
  match p with
  | Some b => Some (pick (u32 (end_ b - self b)), self b)
  | None => None
  end.

(** The returned pointer is the previous tail. *)
Definition mcpb_put (b : mcp_buff) (n : Z) : Z * mcp_buff :=
  (tail b, set_ptrs b (data b) (u32 (tail b + n)) (u32 (len b + n))).

Definition mcpb_trim (b : mcp_buff) (n : Z) : mcp_buff :=
  set_ptrs b (data b) (u32 (tail b - n)) (u32 (len b - n)).

Definition mcpb_push (b : mcp_buff) (n : Z) : Z * mcp_buff :=
  let d := u32 (data b - n) in (d, set_ptrs b d (tail b) (u32 (len b + n))).

Definition mcpb_pull (b : mcp_buff) (n : Z) : option Z * mcp_buff :=
  if n <=? len b then
    let d := u32 (data b + n) in (Some d, set_ptrs b d (tail b) (u32 (len b - n)))
  else (None, b).

Definition __mcpb_purge (b : mcp_buff) : mcp_buff := set_ptrs b (head b) (head b) 0.
Definition mcpb_purge (b : mcp_buff) : mcp_buff := mcpb_reserve (__mcpb_purge b) MCP_BUFF_HEAD_RESERVE.
Definition mcpb_headroom (b : mcp_buff) : Z := s32 (data b - head b).
Definition mcpb_tailroom (b : mcp_buff) : Z := s32 (end_ b - tail b).

(** Memory accesses through a pointer into the block. *)
Definition bload (b : mcp_buff) (p n : Z) : res (list Z) := load (mem b) (p - head b) n.
Definition bstore (b : mcp_buff) (p : Z) (bs : list Z) : res mcp_buff :=
  m ← store (mem b) (p - head b) bs; Ret (set_mem b m).

(** ** The invariant and the bytes held *)

Record valid (b : mcp_buff) : Prop := {
  valid_head : 0 <= head b;
  valid_data : head b <= data b;
  valid_tail : data b <= tail b;
  valid_end : tail b <= end_ b;
  valid_mem : Zlen (mem b) = end_ b - head b;
  valid_top : end_ b < W32;
  valid_size : end_ b - head b < 2147483648;
  valid_len : len b = tail b - data b;
  valid_bytes : Forall is_byte (mem b)
}.

Definition contents (b : mcp_buff) : list Z :=
  firstn (Z.to_nat (len b)) (skipn (Z.to_nat (data b - head b)) (mem b)).

(** ** Lemmas on blocks *)

Lemma load_ok m i n : 0 <= i -> 0 <= n -> i + n <= Zlen m ->
  load m i n = Ret (firstn (Z.to_nat n) (skipn (Z.to_nat i) m)).
Proof. intros. unfold load. by repeat zcase. Qed.

Lemma store_ok m i bs : 0 <= i -> i + Zlen bs <= Zlen m ->
  store m i bs = Ret (firstn (Z.to_nat i) m ++ bs ++ skipn (Z.to_nat i + length bs) m).
Proof. intros. unfold store. by repeat zcase. Qed.

Lemma store_length m i bs m' : store m i bs = Ret m' -> length m' = length m.
Proof.
  unfold store. destruct (_ && _) eqn:E; [|done]. intros [= <-].
  rewrite andb_true_iff, !Z.leb_le in E. unfold Zlen in E.
  rewrite !length_app, length_firstn, length_skipn. lia.
Qed.

Lemma store_Forall (P : Z -> Prop) m i bs m' :
  Forall P m -> Forall P bs -> store m i bs = Ret m' -> Forall P m'.
Proof.
  unfold store. destruct (_ && _); [|done]. intros Hm Hb [= <-].
  rewrite !Forall_app. split; [by apply Forall_take|]. split; [done|by apply Forall_drop].
Qed.

(** Reading back what was stored, and reading what was not touched. *)
Lemma load_store_same m i bs m' : store m i bs = Ret m' -> load m' i (Zlen bs) = Ret bs.
Proof.
  intros H. pose proof (store_length _ _ _ _ H) as HL. unfold store in H.
  destruct (_ && _) eqn:E; [|done]. injection H as <-.
  rewrite andb_true_iff, !Z.leb_le in E. unfold Zlen in *.
  rewrite load_ok by (unfold Zlen; lia). f_equal. rewrite Nat2Z.id.
  rewrite drop_app_length' by (rewrite length_firstn; lia). by rewrite take_app_length.
Qed.

Lemma firstn_skipn_app_l {A} (l1 l2 : list A) i n :
  (i + n <= length l1)%nat -> firstn n (skipn i (l1 ++ l2)) = firstn n (skipn i l1).
Proof.
  intros H. rewrite skipn_app, firstn_app, length_skipn.
  replace (n - (length l1 - i))%nat with 0%nat by lia. by rewrite firstn_O, app_nil_r.
Qed.

Lemma load_store_below m i bs m' j n :
  store m i bs = Ret m' -> 0 <= j -> 0 <= n -> j + n <= i -> load m' j n = load m j n.
Proof.
  intros H Hj Hn Hji. pose proof (store_length _ _ _ _ H) as HL. unfold store in H.
  destruct (_ && _) eqn:E; [|done]. injection H as <-.
  rewrite andb_true_iff, !Z.leb_le in E. unfold Zlen in *.
  rewrite !load_ok by (unfold Zlen; lia). f_equal.
  rewrite firstn_skipn_app_l by (rewrite length_firstn; lia).
  rewrite <- (firstn_skipn (Z.to_nat i) m) at 2.
  by rewrite firstn_skipn_app_l by (rewrite length_firstn; lia).
Qed.

Lemma load_store_above m i bs m' j n :
  store m i bs = Ret m' -> 0 <= n -> i + Zlen bs <= j -> j + n <= Zlen m -> load m' j n = load m j n.
Proof.
  intros H Hn Hji Hjn. pose proof (store_length _ _ _ _ H) as HL. unfold store in H.
  destruct (_ && _) eqn:E; [|done]. injection H as <-.
  rewrite andb_true_iff, !Z.leb_le in E. unfold Zlen in *.
  rewrite !load_ok by (unfold Zlen; lia). f_equal.
  rewrite app_assoc, skipn_app, skipn_all2 by (rewrite length_app, length_firstn; lia).
  cbn [app]. rewrite length_app, length_firstn, skipn_skipn. do 2 f_equal. lia.
Qed.

Lemma load_bounds m i n x : load m i n = Ret x -> 0 <= i /\ 0 <= n /\ i + n <= Zlen m /\ Zlen x = n.
Proof.
  unfold load. destruct (_ && _) eqn:E; [|done]. intros [= <-].
  rewrite !andb_true_iff, !Z.leb_le in E. repeat (split; [lia|]).
  unfold Zlen in *. rewrite length_firstn, length_skipn. lia.
Qed.

Lemma load_app m i n1 n2 x y :
  load m i n1 = Ret x -> load m (i + n1) n2 = Ret y -> load m i (n1 + n2) = Ret (x ++ y).
Proof.
  intros Hx Hy. pose proof (load_bounds _ _ _ _ Hx) as (? & ? & ? & ?).
  pose proof (load_bounds _ _ _ _ Hy) as (? & ? & ? & ?).
  rewrite load_ok in * by lia. injection Hx as <-. injection Hy as <-. f_equal.
  rewrite !Z2Nat.inj_add by lia. by rewrite <- drop_drop, take_take_drop.
Qed.

Lemma store_nil m i : 0 <= i <= Zlen m -> store m i [] = Ret m.
Proof.
  intros Hi. rewrite store_ok by (unfold Zlen in *; simpl; lia). cbn [app length].
  rewrite Nat.add_0_r. by rewrite firstn_skipn.
Qed.

(** A part of what was read. *)
Lemma load_sub m i n x j k : load m i n = Ret x -> 0 <= j -> 0 <= k -> j + k <= n ->
  load m (i + j) k = load x j k.
Proof.
  intros Hx Hj Hk Hjk. pose proof (load_bounds _ _ _ _ Hx) as (? & ? & ? & Hxl).
  rewrite load_ok in Hx by lia. injection Hx as <-. rewrite !load_ok by lia. f_equal.
  rewrite Z2Nat.inj_add by lia. rewrite <- drop_drop, skipn_firstn_comm, firstn_firstn.
  f_equal. lia.
Qed.

(** Reading a byte at a time. *)
Lemma load_S m i n x : load m i (Z.of_nat (S n)) = Ret x ->
  exists y x', x = y :: x' /\ load m i 1 = Ret [y] /\ load m (i + 1) (Z.of_nat n) = Ret x'.
Proof.
  intros H. pose proof (load_bounds _ _ _ _ H) as (H1 & H2 & H3 & H4).
  pose proof (load_sub _ _ _ _ 0 1 H ltac:(lia) ltac:(lia) ltac:(lia)) as Ha.
  pose proof (load_sub _ _ _ _ 1 (Z.of_nat n) H ltac:(lia) ltac:(lia) ltac:(lia)) as Hb.
  destruct x as [|y x']; [unfold Zlen in H4; cbn in H4; lia|]. exists y, x'. split; [done|].
  rewrite Z.add_0_r in Ha. rewrite Ha, Hb. rewrite Zlen_cons in H4.
  rewrite !load_ok by (rewrite ?Zlen_cons; lia). split; [done|].
  cbn [skipn Z.to_nat]. rewrite Nat2Z.id. f_equal. change (skipn (Z.to_nat 1) (y :: x')) with x'. apply firstn_all2. unfold Zlen in H4. lia.
Qed.

Lemma load_Forall (P : Z -> Prop) m i n x : Forall P m -> load m i n = Ret x -> Forall P x.
Proof.
  unfold load. destruct (_ && _); [|done]. intros Hm [= <-]. by apply Forall_take, Forall_drop.
Qed.

(** A region is not changed by a store outside it. *)
Lemma load_store_disjoint m i bs m' j n : store m i bs = Ret m' -> 0 <= j -> 0 <= n -> j + n <= Zlen m ->
  j + n <= i \/ i + Zlen bs <= j -> load m' j n = load m j n.
Proof.
  intros Hst Hj Hn Hjn [H|H]; [by apply (load_store_below _ _ _ _ _ _ Hst)|by apply (load_store_above _ _ _ _ _ _ Hst)].
Qed.

Lemma store_app m i x y m1 m2 : store m i x = Ret m1 -> store m1 (i + Zlen x) y = Ret m2 ->
  store m i (x ++ y) = Ret m2.
Proof.
  intros H1 H2. pose proof (store_length _ _ _ _ H1) as HL. unfold store in H1, H2.
  destruct ((0 <=? i) && (i + Zlen x <=? Zlen m)) eqn:E1; [|done]. injection H1 as H1.
  destruct ((0 <=? i + Zlen x) && _) eqn:E2; [|done]. injection H2 as H2.
  rewrite andb_true_iff, !Z.leb_le in E1, E2. pose proof (Zlen_nonneg y). unfold Zlen in *.
  rewrite store_ok by (unfold Zlen; rewrite ?length_app; lia). f_equal. rewrite <- H2, <- H1.
  set (a := firstn (Z.to_nat i) m). assert (Ha : length a = Z.to_nat i) by (unfold a; rewrite length_firstn; lia).
  rewrite (app_assoc a x). assert (Hax : length (a ++ x) = Z.to_nat (i + Z.of_nat (length x))) by (rewrite length_app; lia).
  rewrite <- Hax, take_app_length, drop_app_add, drop_drop, <- !app_assoc. do 4 f_equal. rewrite !length_app. lia.
Qed.

(** ** Operations on valid buffers

    [view b h l t]: [b] is valid, with [h] bytes of head room, the bytes [l],
    and [t] bytes of tail room. *)
Definition view (b : mcp_buff) (h : Z) (l : list Z) (t : Z) : Prop :=
  valid b /\ data b - head b = h /\ contents b = l /\ end_ b - tail b = t.

(** The operations never move a block. *)
Definition same_block (b b' : mcp_buff) : Prop :=
  self b' = self b /\ head b' = head b /\ end_ b' = end_ b.

#[export] Instance same_block_refl : Reflexive same_block.
Proof. by intros b. Qed.

#[export] Instance same_block_trans : Transitive same_block.
Proof. intros a b c (H1 & H2 & H3) (H4 & H5 & H6). unfold same_block. by rewrite H4, H5, H6. Qed.

Lemma u32_id x : 0 <= x < W32 -> u32 x = x.
Proof. apply u32_small. Qed.

Lemma load_contents b : valid b -> bload b (data b) (len b) = Ret (contents b).
Proof. intros []. unfold bload. by rewrite load_ok by lia. Qed.

Lemma contents_length b : valid b -> Zlen (contents b) = len b.
Proof. intros H. by pose proof (load_bounds _ _ _ _ (load_contents b H)) as (_ & _ & _ & ?). Qed.

Lemma contents_bytes b : valid b -> Forall is_byte (contents b).
Proof. intros H. apply Forall_take, Forall_drop, H. Qed.

Lemma view_len b h l t : view b h l t -> len b = Zlen l /\ 0 <= h /\ 0 <= t.
Proof.
  intros (Hv & <- & <- & <-). rewrite contents_length by done. destruct Hv. split; [done|lia].
Qed.

(** A buffer is known once its pointers and a read of its bytes are. *)
Lemma view_intro b h l t :
  valid b -> data b - head b = h -> bload b (data b) (len b) = Ret l -> end_ b - tail b = t -> view b h l t.
Proof. intros Hv Hh Hl Ht. rewrite load_contents in Hl by done. injection Hl as Hl. done. Qed.

Lemma bstore_ok b p bs : valid b -> Forall is_byte bs -> head b <= p -> p + Zlen bs <= end_ b ->
  exists m, bstore b p bs = Ret (set_mem b m) /\ store (mem b) (p - head b) bs = Ret m /\
    Zlen m = Zlen (mem b) /\ Forall is_byte m.
Proof.
  intros Hv Hb Hp He. destruct Hv. unfold bstore.
  destruct (store (mem b) (p - head b) bs) as [m| |] eqn:E.
  - exists m. split; [done|]. split; [done|]. split.
    + unfold Zlen. by rewrite (store_length _ _ _ _ E).
    + apply (store_Forall _ (mem b) (p - head b) bs); done.
  - rewrite store_ok in E by lia. done.
  - rewrite store_ok in E by lia. done.
Qed.

Lemma view_put b h l t bs : view b h l t -> Forall is_byte bs -> Zlen bs <= t ->
  exists b', bstore b (tail b) bs = Ret b' /\ same_block b b' /\
    view (snd (mcpb_put b' (Zlen bs))) h (l ++ bs) (t - Zlen bs).
Proof.
  intros (Hv & Hh & Hl & Ht) Hb Hbt. pose proof Hv as []. pose proof (Zlen_nonneg bs).
  destruct (bstore_ok b (tail b) bs Hv Hb) as (m & E & Es & Hm & Hmb); [lia|lia|].
  exists (set_mem b m). split; [done|]. split; [done|]. unfold mcpb_put. cbn [snd].
  apply view_intro; unfold set_ptrs, set_mem; cbn [self head data tail end_ len mem]; try lia.
  - rewrite !u32_id by lia. split; cbn [self head data tail end_ len mem]; try lia. done.
  - rewrite !u32_id by lia. unfold bload. cbn [head mem]. apply load_app.
    + rewrite (load_store_below _ _ _ _ _ _ Es) by lia. rewrite <- Hl. by apply load_contents.
    + replace (data b - head b + len b) with (tail b - head b) by lia.
      by apply load_store_same in Es.
  - rewrite u32_id by lia. lia.
Qed.

Lemma view_push b h l t bs : view b h l t -> Forall is_byte bs -> Zlen bs <= h ->
  exists b', bstore (snd (mcpb_push b (Zlen bs))) (fst (mcpb_push b (Zlen bs))) bs = Ret b' /\
    same_block b b' /\ view b' (h - Zlen bs) (bs ++ l) t /\ data b' = fst (mcpb_push b (Zlen bs)).
Proof.
  intros (Hv & Hh & Hl & Ht) Hb Hbt. pose proof Hv as []. pose proof (Zlen_nonneg bs).
  destruct (bstore_ok b (data b - Zlen bs) bs Hv Hb) as (m & _ & Es & Hm & Hmb); [lia|lia|].
  unfold mcpb_push. cbn [fst snd]. rewrite !u32_id by lia.
  unfold bstore, set_ptrs. cbn [head mem]. rewrite Es, res_bind_Ret.
  eexists. split; [reflexivity|]. split; [done|]. split; [|done].
  apply view_intro; unfold set_mem; cbn [self head data tail end_ len mem]; try lia.
  - split; cbn [self head data tail end_ len mem]; try lia. done.
  - unfold bload. cbn [head mem]. rewrite Z.add_comm. apply load_app.
    + by apply load_store_same in Es.
    + replace (data b - Zlen bs - head b + Zlen bs) with (data b - head b) by lia.
      rewrite (load_store_above _ _ _ _ _ _ Es) by lia. rewrite <- Hl. by apply load_contents.
Qed.

Lemma firstn_skipn_skipn {A} (m : list A) d n k :
  (k <= n)%nat -> firstn (n - k) (skipn (d + k) m) = skipn k (firstn n (skipn d m)).
Proof.
  intros H. rewrite <- drop_drop. rewrite take_drop_commute. do 2 f_equal. lia.
Qed.

Lemma view_pull b h l t n : view b h l t -> 0 <= n <= Zlen l ->
  exists b', mcpb_pull b n = (Some (data b + n), b') /\ same_block b b' /\
    view b' (h + n) (skipn (Z.to_nat n) l) t.
Proof.
  intros (Hv & Hh & Hl & Ht) Hn. pose proof (contents_length b Hv) as HL. rewrite Hl in HL.
  pose proof Hv as []. unfold mcpb_pull. zcase. rewrite !u32_id by lia.
  eexists. split; [done|]. split; [done|].
  split; [|split; [|split]]; unfold set_ptrs; cbn [self head data tail end_ len mem]; try lia.
  - split; cbn [self head data tail end_ len mem]; try lia. done.
  - rewrite <- Hl. unfold contents. cbn [head data len mem].
    replace (Z.to_nat (len b - n)) with (Z.to_nat (len b) - Z.to_nat n)%nat by lia.
    replace (Z.to_nat (data b + n - head b)) with (Z.to_nat (data b - head b) + Z.to_nat n)%nat by lia.
    apply firstn_skipn_skipn. lia.
Qed.

Lemma view_trim b h l t n : view b h l t -> 0 <= n <= Zlen l ->
  same_block b (mcpb_trim b n) /\ view (mcpb_trim b n) h (firstn (Z.to_nat (Zlen l - n)) l) (t + n).
Proof.
  intros (Hv & Hh & Hl & Ht) Hn. pose proof (contents_length b Hv) as HL. rewrite Hl in HL.
  pose proof Hv as []. unfold mcpb_trim. rewrite !u32_id by lia. split; [done|].
  split; [|split; [|split]]; unfold set_ptrs; cbn [self head data tail end_ len mem]; try lia.
  - split; cbn [self head data tail end_ len mem]; try lia. done.
  - replace (Zlen l - n) with (len b - n) by lia. rewrite <- Hl.
    unfold contents. cbn [head data len mem]. rewrite firstn_firstn. f_equal. lia.
Qed.

Lemma view_purge b h l t : view b h l t -> 128 <= h + Zlen l + t ->
  same_block b (mcpb_purge b) /\ view (mcpb_purge b) 128 [] (h + Zlen l + t - 128).
Proof.
  intros (Hv & Hh & Hl & Ht) Hn. pose proof (contents_length b Hv) as HL. rewrite Hl in HL.
  pose proof Hv as []. unfold mcpb_purge, mcpb_reserve, __mcpb_purge, set_ptrs, MCP_BUFF_HEAD_RESERVE.
  cbn [self head data tail end_ len mem]. rewrite !u32_id by lia. split; [done|].
  split; [|split; [|split]]; cbn [self head data tail end_ len mem]; try lia; try done.
  split; cbn [self head data tail end_ len mem]; try lia. done.
Qed.

Lemma mcpb_tailroom_view b h l t : view b h l t -> mcpb_tailroom b = t.
Proof.
  intros (Hv & _ & _ & <-). destruct Hv. unfold mcpb_tailroom, s32. rewrite u32_id by lia. by zcase.
Qed.

Lemma mcpb_headroom_view b h l t : view b h l t -> mcpb_headroom b = h.
Proof.
  intros (Hv & <- & _). destruct Hv. unfold mcpb_headroom, s32. rewrite u32_id by lia. by zcase.
Qed.

Lemma check_boundrary_view b h l t : view b h l t -> CHECK_BOUNDRARY b = false.
Proof. intros (Hv & _). destruct Hv. unfold CHECK_BOUNDRARY. rewrite Z.gtb_ltb. by repeat zcase. Qed.

(** ** Allocation *)

(** What the kernel promises about a block it hands out: [n] bytes below the
    top of the address space. *)
Definition alloc_ok (al : alloc_fun) : Prop :=
  forall a n p m, al a n = Some (p, m) ->
    Zlen m = n /\ 0 <= p /\ p + n < W32 /\ Forall is_byte m.

Lemma alloc_view al n b :
  alloc_ok al -> 0 <= n -> n + 276 < 2147483648 -> alloc_mcpb al n = Some b ->
  view b 128 [] (n + 128) /\ head b = self b + 20 /\ end_ b = self b + n + 276 /\
  exists m, al (pick (n + 276)) (n + 276) = Some (self b, m).
Proof.
  intros Hal Hn Hs. unfold alloc_mcpb, __alloc_mcpb, MCP_BUFF_RESERVE_AREA, MCP_BUFF_TAIL_RESERVE,
    MCP_BUFF_HEAD_RESERVE, sizeof_mcp_buff.
  rewrite (u32_id (n + (128 + 128))) by (unfold W32; lia).
  rewrite (u32_id (n + (128 + 128) + 20)) by (unfold W32; lia).
  replace (n + (128 + 128) + 20) with (n + 276) by lia.
  destruct (al (pick (n + 276)) (n + 276)) as [[p m]|] eqn:E; [|done].
  destruct (Hal _ _ _ _ E) as (Hm & Hp & Hpn & Hmb). intros [= <-].
  unfold mcpb_reserve, set_ptrs. cbn [self head data tail end_ len mem].
  rewrite !u32_id by (rewrite ?u32_id; unfold W32 in *; lia).
  split; [|split; [|split; [lia|by exists m]]]; [|done].
  split; [|split; [|split]]; cbn [self head data tail end_ len mem]; try lia; try done.
  split; cbn [self head data tail end_ len mem]; try lia.
  - unfold Zlen in *. rewrite length_skipn. lia.
  - by apply Forall_drop.
Qed.

(** ** The buffer as a double-ended queue of bytes *)

Inductive bop :=
| Put (bs : list Z)
| Push (bs : list Z)
| Pull (n : Z)
| Trim (n : Z)
| Purge.

(** An operation with the copy of the new bytes through the returned pointer. *)
Definition run_op (b : mcp_buff) (o : bop) : res mcp_buff :=
  match o with
  | Put bs => let '(p, b) := mcpb_put b (Zlen bs) in bstore b p bs
  | Push bs => let '(p, b) := mcpb_push b (Zlen bs) in bstore b p bs
  | Pull n => Ret (snd (mcpb_pull b n))
  | Trim n => Ret (mcpb_trim b n)
  | Purge => Ret (mcpb_purge b)
  end.

Fixpoint run_ops (b : mcp_buff) (os : list bop) : res mcp_buff :=
  match os with
  | [] => Ret b
  | o :: os' => b ← run_op b o; run_ops b os'
  end.

(** The specification: free bytes in front, bytes held, free bytes behind;
    [None] when there is no room. *)
Record deque := mkDeque { front : Z; items : list Z; back : Z }.

Definition spec_op (q : deque) (o : bop) : option deque :=
  let '(mkDeque h l t) := q in
  match o with
  | Put bs => if forallb (fun x => (0 <=? x) && (x <? 256)) bs && (Zlen bs <=? t)
              then Some (mkDeque h (l ++ bs) (t - Zlen bs)) else None
  | Push bs => if forallb (fun x => (0 <=? x) && (x <? 256)) bs && (Zlen bs <=? h)
               then Some (mkDeque (h - Zlen bs) (bs ++ l) t) else None
  | Pull n => if n <? 0 then None
              else if n <=? Zlen l then Some (mkDeque (h + n) (skipn (Z.to_nat n) l) t)
              else Some q
  | Trim n => if (0 <=? n) && (n <=? Zlen l)
              then Some (mkDeque h (firstn (Z.to_nat (Zlen l - n)) l) (t + n)) else None
  | Purge => if 128 <=? h + Zlen l + t
             then Some (mkDeque 128 [] (h + Zlen l + t - 128)) else None
  end.

Fixpoint spec_ops (q : deque) (os : list bop) : option deque :=
  match os with
  | [] => Some q
  | o :: os' => match spec_op q o with Some q' => spec_ops q' os' | None => None end
  end.

Definition implements (b : mcp_buff) (q : deque) : Prop := view b (front q) (items q) (back q).

Lemma bytes_ok bs : forallb (fun x => (0 <=? x) && (x <? 256)) bs = true -> Forall is_byte bs.
Proof.
  intros H. rewrite forallb_forall in H. apply List.Forall_forall. intros x Hx.
  apply H in Hx. rewrite andb_true_iff, Z.leb_le, Z.ltb_lt in Hx. done.
Qed.

Lemma bstore_put b p bs b' n : bstore b p bs = Ret b' ->
  bstore (snd (mcpb_put b n)) p bs = Ret (snd (mcpb_put b' n)).
Proof.
  unfold bstore, mcpb_put, set_ptrs. cbn [snd head mem].
  destruct (store _ _ _); [|done..]. by intros [= <-].
Qed.

Lemma run_op_spec b q o q' : implements b q -> spec_op q o = Some q' ->
  exists b', run_op b o = Ret b' /\ same_block b b' /\ implements b' q'.
Proof.
  unfold implements. destruct q as [h l t]. cbn [front items back].
  intros Hv. destruct o as [bs|bs|n|n|]; cbn [spec_op].
  - destruct (_ && _) eqn:E; [|done]. intros [= <-].
    rewrite andb_true_iff, Z.leb_le in E. destruct E as [Hb Hle].
    destruct (view_put b h l t bs Hv (bytes_ok bs Hb) Hle) as (b' & Es & Hs & Hv').
    exists (snd (mcpb_put b' (Zlen bs))). by rewrite <- (bstore_put _ _ _ _ (Zlen bs) Es).
  - destruct (_ && _) eqn:E; [|done]. intros [= <-].
    rewrite andb_true_iff, Z.leb_le in E. destruct E as [Hb Hle].
    destruct (view_push b h l t bs Hv (bytes_ok bs Hb) Hle) as (b' & Es & Hs & Hv' & _). by exists b'.
  - destruct (Z.ltb_spec n 0); [done|]. destruct (Z.leb_spec n (Zlen l)); intros [= <-].
    + destruct (view_pull b h l t n Hv ltac:(lia)) as (b' & E & Hs & Hv').
      exists b'. cbn [run_op]. by rewrite E.
    + exists b. cbn [run_op]. unfold mcpb_pull. destruct (view_len b h l t Hv) as (-> & _).
      by destruct (Z.leb_spec n (Zlen l)); [lia|].
  - destruct (_ && _) eqn:E; [|done]. intros [= <-].
    rewrite andb_true_iff, !Z.leb_le in E.
    destruct (view_trim b h l t n Hv ltac:(lia)) as (Hs & Hv'). by exists (mcpb_trim b n).
  - destruct (Z.leb_spec 128 (h + Zlen l + t)); [|done]. intros [= <-].
    destruct (view_purge b h l t Hv ltac:(lia)) as (Hs & Hv'). by exists (mcpb_purge b).
Qed.

Lemma run_ops_spec b0 q0 os q : implements b0 q0 -> spec_ops q0 os = Some q ->
  exists b', run_ops b0 os = Ret b' /\ same_block b0 b' /\ implements b' q.
Proof.
  revert b0 q0. induction os as [|o os IH]; intros b0 q0 Hi; cbn [spec_ops run_ops].
  - intros [= ->]. by exists b0.
  - destruct (spec_op q0 o) as [q1|] eqn:E; [|done]. intros Hq.
    destruct (run_op_spec b0 q0 o q1 Hi E) as (b1 & E1 & S1 & I1). rewrite E1, res_bind_Ret.
    destruct (IH b1 q1 I1 Hq) as (b' & E' & S' & I'). exists b'.
    split; [done|]. split; [by transitivity b1|done].
Qed.

(** C35: a buffer implements a double-ended queue of bytes.  Every sequence of
    put, push, pull, trim and purge that stays within the rooms of a freshly
    allocated buffer runs without an access outside the block, ends in a valid
    buffer that holds the bytes of the specification, never triggers the
    boundary warning, and at the end [free_mcpb] hands the same pointer back to
    the allocator that produced it. *)
Theorem mcpb_refines_deque al n b os q :
  alloc_ok al -> 0 <= n -> n + 276 < 2147483648 -> alloc_mcpb al n = Some b ->
  spec_ops (mkDeque 128 [] (n + 128)) os = Some q ->
  exists b' a, run_ops b os = Ret b' /\ implements b' q /\ CHECK_BOUNDRARY b' = false /\
    free_mcpb (Some b') = Some (a, self b) /\ exists m, al a (n + 276) = Some (self b, m).
Proof.
  intros Hal Hn Hs Ha Hq. destruct (alloc_view al n b Hal Hn Hs Ha) as (Hv & Hh & He & Hm).
  destruct (run_ops_spec b (mkDeque 128 [] (n + 128)) os q Hv Hq) as (b' & E & (S1 & S2 & S3) & Hi).
  exists b', (pick (n + 276)). split; [done|]. split; [done|].
  split; [by eapply check_boundrary_view|]. split; [|done].
  unfold free_mcpb. rewrite S1, S3, He.
  replace (self b + n + 276 - self b) with (n + 276) by lia. by rewrite u32_id by (unfold W32; lia).
Qed.

(** An allocator that answers every request from one place. *)
Definition demo_alloc : alloc_fun := fun _ n =>
  if (0 <=? n) && (n <? 100000) then Some (4096, replicate (Z.to_nat n) 0) else None.

Lemma demo_alloc_ok : alloc_ok demo_alloc.
Proof.
  intros a n p m. unfold demo_alloc. destruct (_ && _) eqn:E; [|done]. intros [= <- <-].
  rewrite andb_true_iff, Z.leb_le, Z.ltb_lt in E. unfold Zlen, W32. rewrite length_replicate.
  split; [lia|]. split; [lia|]. split; [lia|]. apply Forall_replicate. unfold is_byte. lia.
Qed.

(** The buffer that [demo_alloc] gives for 16 bytes. *)
Definition demo_buff : mcp_buff := mkBuff 4096 4116 4244 4244 4388 0 (replicate 272 0).

Lemma mcpb_refines_deque_witness :
  exists b' a, run_ops demo_buff [Put [1; 2; 3; 4]; Push [9; 8]; Pull 1; Trim 2] = Ret b' /\
    implements b' (mkDeque 127 [8; 1; 2] 142) /\ CHECK_BOUNDRARY b' = false /\
    free_mcpb (Some b') = Some (a, 4096) /\ exists m, demo_alloc a (16 + 276) = Some (4096, m).
Proof.
  apply (mcpb_refines_deque demo_alloc 16 demo_buff); [apply demo_alloc_ok|lia|lia|reflexivity|reflexivity].
Defined.

(** a put beyond the tail room is only warned about: the boundary check
    fires, and the copy through the returned pointer is outside the block. *)
Theorem mcpb_put_overflow b h l t bs :
  view b h l t -> t < Zlen bs -> end_ b + Zlen bs < W32 ->
  CHECK_BOUNDRARY (snd (mcpb_put b (Zlen bs))) = true /\ run_op b (Put bs) = Fault.
Proof.
  intros (Hv & Hh & Hl & Ht) Hbs Htop. destruct Hv. pose proof (Zlen_nonneg bs). split.
  - unfold CHECK_BOUNDRARY, mcpb_put, set_ptrs. cbn [snd head data tail end_].
    rewrite u32_id by lia. rewrite Z.gtb_ltb. by repeat zcase.
  - unfold run_op, mcpb_put, bstore, set_ptrs. cbn [head mem]. unfold store. by repeat zcase.
Qed.

Lemma demo_buff_view : view demo_buff 128 [] 144.
Proof. apply (alloc_view demo_alloc 16 demo_buff demo_alloc_ok); [lia|lia|reflexivity]. Qed.

Lemma mcpb_put_overflow_witness :
  CHECK_BOUNDRARY (snd (mcpb_put demo_buff (Zlen (replicate 145 7)))) = true /\
  run_op demo_buff (Put (replicate 145 7)) = Fault.
Proof.
  apply (mcpb_put_overflow demo_buff 128 [] 144 (replicate 145 7)).
  - apply demo_buff_view.
  - vm_compute. reflexivity.
  - vm_compute. reflexivity.
Defined.
