(* ===== verification/McpEngine.v ===== *)
(** * The MCP engine driver: [arch/mips/realtek-boards/drivers/mcp.c]

    The driver builds descriptors, maps buffers for DMA, points the ring
    registers of the engine at the descriptors, starts it and polls its status.
    The engine itself (and the DMA address translation) is hardware: it is a
    parameter of type [mcp_hw].  The state of the driver ([dev]) is what it
    wrote to the registers, the semaphore that serialises commands, and the DMA
    mappings that are open; releasing a mapping that is not open, or taking the
    semaphore twice, is a [Fault]. *)
From stdpp Require Import base tactics list numbers option.
From Stdlib Require Import ZArith Lia.
From S2P Require Import Prelude Buff.

(** ** Registers and constants ([mcp_reg.h], [mcp.h]) *)

Definition MCP_GO : Z := Z.shiftl 1 1.
Definition MCP_CLEAR : Z := Z.shiftl 1 4.
Definition MCP_ARB_MODE (x : Z) : Z := Z.shiftl (Z.land x 1) 6.
Definition MCP_WRITE_DATA : Z := 1.
Definition MCP_RING_EMPTY : Z := Z.shiftl 1 1.
Definition MCP_AES_PAD_OFF (x : Z) : Z := Z.shiftl (Z.land x 1) 10.
Definition MCP_CSA_ENTROPY (x : Z) : Z := Z.shiftl (Z.land x 3) 8.
Definition ORIGIONAL_MODE : Z := 0.
Definition MCP_ROUND_NO (x : Z) : Z := Z.land x 255.

Definition MARS_MCP_MODE (x : Z) : Z := Z.land x 31.
Definition MARS_MCP_BCM (x : Z) : Z := Z.shiftl (Z.land x 3) 6.
Definition MARS_MCP_ENC (x : Z) : Z := Z.shiftl (Z.land x 1) 5.
Definition MARS_MCP_KEY_SEL (x : Z) : Z := Z.shiftl (Z.land x 1) 12.
Definition MARS_MCP_IV_SEL (x : Z) : Z := Z.shiftl (Z.land x 1) 11.
Definition MCP_ALGO_DES : Z := 0.
Definition MCP_ALGO_3DES : Z := 1.
Definition MCP_ALGO_SHA_1 : Z := 4.
Definition MCP_ALGO_AES : Z := 5.
Definition MCP_ALGO_AES_H : Z := 7.
Definition MCP_BCM_ECB : Z := 0.
Definition MCP_BCM_CBC : Z := 1.
Definition MCP_BCM_CTR : Z := 2.
Definition MCP_KEY_SEL_OTP : Z := 1.
Definition MCP_IV_SEL_REG : Z := 1.
Definition FIRST_BLOCK : Z := 128.
Definition LAST_BLOCK : Z := 8.
Definition SHA1_DIGEST_SIZE : Z := 20.
Definition SHA1_ALIGNMENT_CHECK : Z := 63.

Record mcp_desc := mkDesc {
  flags : Z;
  key : list Z;       (* 6 words *)
  iv : list Z;        (* 4 words *)
  data_in : Z;
  data_out : Z;
  length_ : Z
}.

Definition sizeof_mcp_desc : Z := 56.

(** [memset(p_desc, 0, sizeof(mcp_desc))] *)
Definition zero_desc : mcp_desc := mkDesc 0 (replicate 6 0) (replicate 4 0) 0 0 0.

Inductive mcp_reg := CTRL | STATUS | EN | BASE | LIMIT | RDPTR | WRPTR | CTRL1.

Record dev := mkDev {
  r_ctrl : Z; r_status : Z; r_en : Z;
  r_base : Z; r_limit : Z; r_rdptr : Z; r_wrptr : Z; r_ctrl1 : Z;
  sem : Z;                      (* mcp_semaphore *)
  maps : list (Z * Z)           (* open DMA mappings: address and length *)
}.

(** The hardware: the address of a descriptor on the kernel stack, the DMA
    address of a buffer, the bytes the engine produces for a descriptor and its
    input bytes, and the values of CTRL and STATUS at the n-th poll after a
    list of descriptors was started. *)
Record mcp_hw := mkHw {
  hw_stack : Z;
  hw_dma : Z -> Z;
  hw_exec : mcp_desc -> list Z -> list Z;
  hw_poll : list mcp_desc -> nat -> Z * Z
}.

(** ** The monad of the driver *)

Definition D (A : Type) : Type := dev -> res (A * dev).

#[export] Instance D_ret : MRet D := fun A a d => Ret (a, d).
#[export] Instance D_bind : MBind D := fun A B f m d =>
  match m d with
  | Ret (a, d') => f a d'
  | Fault => Fault
  | OutOfFuel => OutOfFuel
  end.

Definition getD : D dev := fun d => Ret (d, d).
Definition liftD {A} (m : res A) : D A := fun d => a ← m; Ret (a, d).

Definition writel (r : mcp_reg) (v : Z) : D unit := fun d =>
  let '(mkDev c s e b l rp wp c1 sm mp) := d in
  Ret (tt, match r with
           | CTRL => mkDev v s e b l rp wp c1 sm mp
           | STATUS => mkDev c v e b l rp wp c1 sm mp
           | EN => mkDev c s v b l rp wp c1 sm mp
           | BASE => mkDev c s e v l rp wp c1 sm mp
           | LIMIT => mkDev c s e b v rp wp c1 sm mp
           | RDPTR => mkDev c s e b l v wp c1 sm mp
           | WRPTR => mkDev c s e b l rp v c1 sm mp
           | CTRL1 => mkDev c s e b l rp wp v sm mp
           end).

Definition set_sem (d : dev) (n : Z) : dev :=
  mkDev (r_ctrl d) (r_status d) (r_en d) (r_base d) (r_limit d) (r_rdptr d) (r_wrptr d) (r_ctrl1 d) n (maps d).
Definition set_maps (d : dev) (m : list (Z * Z)) : dev :=
  mkDev (r_ctrl d) (r_status d) (r_en d) (r_base d) (r_limit d) (r_rdptr d) (r_wrptr d) (r_ctrl1 d) (sem d) m.

(** [down(&mcp_semaphore)], [up(&mcp_semaphore)] *)
Definition down : D unit := fun d => if sem d <=? 0 then Fault else Ret (tt, set_sem d (sem d - 1)).
Definition up : D unit := fun d => Ret (tt, set_sem d (sem d + 1)).

Fixpoint unmap (x : Z * Z) (l : list (Z * Z)) : option (list (Z * Z)) :=
  match l with
  | [] => None
  | y :: l' => if decide (x = y) then Some l'
               else match unmap x l' with Some r => Some (y :: r) | None => None end
  end.

Definition _mcp_map_single (hw : mcp_hw) (p n : Z) : D Z := fun d =>
  Ret (hw_dma hw p, set_maps d ((hw_dma hw p, n) :: maps d)).
Definition _mcp_unmap_single (a n : Z) : D unit := fun d =>
  match unmap (a, n) (maps d) with
  | Some m => Ret (tt, set_maps d m)
  | None => Fault
  end.

(** ** Starting and stopping the engine *)

(** The interrupt path ([MCP_INTERRUPT_ENABLE]) is compiled out. *)
Definition mcp_init (is_mars_cpu is_jupiter_cpu : bool) : D Z :=
  if is_mars_cpu || is_jupiter_cpu then
    _ ← writel CTRL MCP_GO;
    _ ← writel EN 254;
    _ ← writel STATUS 254;
    _ ← writel BASE 0;
    _ ← writel LIMIT 0;
    _ ← writel RDPTR 0;
    _ ← writel WRPTR 0;
    _ ← (if is_jupiter_cpu then
           _ ← writel CTRL (Z.lor (MCP_ARB_MODE 1) MCP_WRITE_DATA);
           writel CTRL1 (Z.lor (Z.lor (MCP_AES_PAD_OFF 1) (MCP_CSA_ENTROPY ORIGIONAL_MODE)) (MCP_ROUND_NO 0))
         else mret tt);
    mret 0
  else mret (-1).

Definition mcp_uninit : D unit :=
  _ ← writel CTRL MCP_GO;
  _ ← writel EN 254;
  _ ← writel BASE 0;
  _ ← writel LIMIT 0;
  _ ← writel RDPTR 0;
  writel WRPTR 0.

Definition _mcp_set_desc_buffer (base limit rp wp : Z) : D Z :=
  _ ← writel BASE base;
  _ ← writel LIMIT limit;
  _ ← writel RDPTR rp;
  _ ← writel WRPTR wp;
  mret 0.

(** The poll at which the loop is left; [n] polls are made at most. *)
Fixpoint wait_loop (n : nat) (poll : nat -> Z * Z) (k : nat) : nat :=
  match n with
  | O => k
  | S n' =>
      let '(ctrl, status) := poll k in
      if (Z.land ctrl MCP_GO =? 0) || negb (status =? 0) then k
      else wait_loop n' poll (S k)
  end.

Definition WaitTime : nat := Z.to_nat (Z.shiftl 1023 2).

(** The engine runs the descriptors between RDPTR and WRPTR; [ring] holds the
    descriptors in memory, each with the bytes at its [data_in].  The result is
    the return value and what the engine wrote for each descriptor. *)
Definition _mcp_start_xfer (hw : mcp_hw) (ring : list (mcp_desc * list Z)) : D (Z * list (list Z)) :=
  _ ← writel CTRL (Z.lor MCP_CLEAR MCP_WRITE_DATA);
  _ ← writel EN 254;
  _ ← writel STATUS 254;
  _ ← writel CTRL (Z.lor MCP_GO MCP_WRITE_DATA);
  d ← getD;
  let run := firstn (Z.to_nat ((r_wrptr d - r_rdptr d) / sizeof_mcp_desc)) ring in
  let poll := hw_poll hw (map fst run) in
  let status := snd (poll (wait_loop WaitTime poll 0)) in
  let ret := if Z.land status (Z.lnot MCP_RING_EMPTY) =? 0 then 0 else -1 in
  _ ← writel CTRL MCP_GO;
  _ ← writel STATUS 254;
  mret (ret, map (fun di => hw_exec hw (fst di) (snd di)) run).

(** [p_desc] is the address of the descriptors. *)
Definition mcp_do_command (hw : mcp_hw) (p_desc : Z) (ring : list (mcp_desc * list Z)) : D (Z * list (list Z)) :=
  let n_desc := Zlen ring in
  let len := sizeof_mcp_desc * n_desc in
  if negb (n_desc =? 0) then
    _ ← down;
    addr ← _mcp_map_single hw p_desc len;
    _ ← _mcp_set_desc_buffer addr (addr + len + sizeof_mcp_desc) addr (addr + len);
    r ← _mcp_start_xfer hw ring;
    _ ← _mcp_set_desc_buffer 0 0 0 0;
    _ ← _mcp_unmap_single addr len;
    _ ← up;
    mret r
  else mret (0, []).

(** ** Words from bytes *)

(** [(h[i]<<24) + (h[i+1]<<16) + (h[i+2]<<8) + h[i+3]] as a 32-bit word. *)
Definition be_word (h : list Z) (i : Z) : res Z :=
  a ← rd h i;
  b ← rd h (i + 1);
  c ← rd h (i + 2);
  d ← rd h (i + 3);
  Ret (u32 (Z.shiftl a 24 + Z.shiftl b 16 + Z.shiftl c 8 + d)).

(** [(h[i]<<16) + (h[i+1]<<8) + h[i+2]] *)
Definition be_word3 (h : list Z) (i : Z) : res Z :=
  a ← rd h i;
  b ← rd h (i + 1);
  c ← rd h (i + 2);
  Ret (u32 (Z.shiftl a 16 + Z.shiftl b 8 + c)).

Definition with_iv (d : mcp_desc) (w : list Z) : mcp_desc :=
  mkDesc (flags d) (key d) w (data_in d) (data_out d) (length_ d).
Definition with_key (d : mcp_desc) (w : list Z) : mcp_desc :=
  mkDesc (flags d) w (iv d) (data_in d) (data_out d) (length_ d).
Definition with_flags (d : mcp_desc) (f : Z) : mcp_desc :=
  mkDesc f (key d) (iv d) (data_in d) (data_out d) (length_ d).
Definition with_data (d : mcp_desc) (i o n : Z) : mcp_desc :=
  mkDesc (flags d) (key d) (iv d) i o n.

(** ** Padding

    The bytes written at [p_buff]: 0x80, zeros, and the length in bits as a
    big-endian 64-bit number. *)
Definition be64 (x : Z) : list Z :=
  [Z.land (Z.shiftr x 56) 255; Z.land (Z.shiftr x 48) 255;
   Z.land (Z.shiftr x 40) 255; Z.land (Z.shiftr x 32) 255;
   Z.land (Z.shiftr x 24) 255; Z.land (Z.shiftr x 16) 255;
   Z.land (Z.shiftr x 8) 255; Z.land x 255].

Definition pad_bytes (pad_sz bit_len : Z) : list Z :=
  firstn (Z.to_nat (pad_sz - 8)) (128 :: replicate (Z.to_nat (pad_sz - 1)) 0) ++ be64 bit_len.

(** The return value and the bytes written ([None]: nothing is written). *)
Definition MCP_AES_H_PADDING (buff_len data_len : Z) : Z * option (list Z) :=
  let bit_len := u64 (Z.shiftl data_len 3) in
  let pad_sz := 16 - Z.land data_len 15 in
  let pad_sz := if pad_sz <=? 8 then pad_sz + 16 else pad_sz in
  if buff_len <? pad_sz then (0, None) else (pad_sz, Some (pad_bytes pad_sz bit_len)).

Definition MCP_SHA1_PADDING (buff_len data_len : Z) : Z * option (list Z) :=
  let bit_len := u64 (Z.shiftl data_len 3) in
  let pad_sz := 64 - Z.land data_len SHA1_ALIGNMENT_CHECK in
  let pad_sz := if pad_sz <=? 8 then pad_sz + 64 else pad_sz in
  if buff_len <? pad_sz then (-1, None) else (pad_sz, Some (pad_bytes pad_sz bit_len)).

(** ** One descriptor

    The part shared by all hashing and cipher calls: map [n_in] bytes at [p_in]
    and [n_out] bytes at [p_out], run the descriptor on the [length_] bytes
    [inp], unmap.  The result is the return value and what the engine wrote. *)
Definition mapped_command (hw : mcp_hw) (d : mcp_desc) (p_in n_in p_out n_out : Z) (inp : list Z) :
    D (Z * list Z) :=
  addr1 ← _mcp_map_single hw p_in n_in;
  addr2 ← _mcp_map_single hw p_out n_out;
  '(ret, out) ← mcp_do_command hw (hw_stack hw) [(with_data d addr1 addr2 (Zlen inp), inp)];
  _ ← _mcp_unmap_single addr1 n_in;
  _ ← _mcp_unmap_single addr2 n_out;
  mret (ret, concat out).

(** ** AES_H hashing *)

Definition MCP_AES_H_HASH_INIT : mcp_desc :=
  let d := with_flags zero_desc
             (Z.lor (Z.lor (MARS_MCP_MODE MCP_ALGO_AES_H) (MARS_MCP_BCM MCP_BCM_ECB)) (MARS_MCP_ENC 1)) in
  with_iv d [0x2DC2DF39; 0x420321D0; 0xCEF1FE23; 0x74029D95].

Definition MCP_AES_H_IV_UPDATE (d : mcp_desc) (hash : list Z) : res mcp_desc :=
  w0 ← be_word hash 0;
  w1 ← be_word hash 4;
  w2 ← be_word hash 8;
  w3 ← be_word hash 12;
  Ret (with_iv d [w0; w1; w2; w3]).

(** [inp] is the [len] bytes at [p_in]; the result is the return value and the
    bytes the engine wrote at [p_out]. *)
Definition MCP_AES_H_Hashing (hw : mcp_hw) (d : mcp_desc) (p_in : Z) (inp : list Z) (p_out : Z) :
    D (Z * list Z) :=
  mapped_command hw d p_in (Zlen inp) p_out 16 inp.

(** The loop of the two [DataHash] functions: [data] are the [data_len] bytes
    still to be hashed, at address [p]. *)
Fixpoint AES_H_DataHash_loop (fuel : nat) (hw : mcp_hw) (d : mcp_desc) (p : Z) (data : list Z)
    (p_hash : Z) (hash : list Z) (block_size ret : Z) : D (Z * list Z) :=
  if (Zlen data =? 0) || negb (ret =? 0) then mret (ret, hash)
  else match fuel with
  | O => fun _ => OutOfFuel
  | S fuel' =>
      let n := if Zlen data >? block_size then block_size else Zlen data in
      '(ret, hash) ← MCP_AES_H_Hashing hw d p (firstn (Z.to_nat n) data) p_hash;
      d ← liftD (MCP_AES_H_IV_UPDATE d hash);
      AES_H_DataHash_loop fuel' hw d (p + n) (skipn (Z.to_nat n) data) p_hash hash block_size ret
  end.

Definition MCP_AES_H_DataHash (fuel : nat) (hw : mcp_hw) (p_data : Z) (data : list Z) (p_hash : Z)
    (hash : list Z) (block_size first_block : Z) : D (Z * list Z) :=
  let d := MCP_AES_H_HASH_INIT in
  d ← liftD (if first_block =? 0 then MCP_AES_H_IV_UPDATE d hash else Ret d);
  AES_H_DataHash_loop fuel hw d p_data data p_hash hash block_size 0.

(** ** SHA-1 hashing *)

Definition MCP_SHA1_HASH_INIT : mcp_desc :=
  with_key (with_flags zero_desc (MARS_MCP_MODE MCP_ALGO_SHA_1))
    [0x67452301; 0xEFCDAB89; 0x98BADCFE; 0x10325476; 0xC3D2E1F0; 0].

Definition MCP_SHA1_IV_UPDATE (d : mcp_desc) (hash : list Z) : res mcp_desc :=
  w0 ← be_word hash 0;
  w1 ← be_word hash 4;
  w2 ← be_word hash 8;
  w3 ← be_word hash 12;
  w4 ← be_word hash 16;
  Ret (with_key d ([w0; w1; w2; w3; w4] ++ skipn 5 (key d))).

(** [None]: nothing was written at [p_out]. *)
Definition MCP_SHA1_Hashing (hw : mcp_hw) (d : mcp_desc) (p_in : Z) (inp : list Z) (p_out : Z) :
    D (Z * option (list Z)) :=
  if negb (Z.land (Zlen inp) SHA1_ALIGNMENT_CHECK =? 0) then mret (-1, None)
  else
    '(ret, out) ← mapped_command hw d p_in (Zlen inp) p_out SHA1_DIGEST_SIZE inp;
    mret (ret, Some out).

Fixpoint SHA1_DataHash_loop (fuel : nat) (hw : mcp_hw) (d : mcp_desc) (p : Z) (data : list Z)
    (p_hash : Z) (hash : list Z) (block_size ret : Z) : D (Z * list Z) :=
  if (Zlen data =? 0) || negb (ret =? 0) then mret (ret, hash)
  else match fuel with
  | O => fun _ => OutOfFuel
  | S fuel' =>
      let n := if Zlen data >? block_size then block_size else Zlen data in
      '(ret, out) ← MCP_SHA1_Hashing hw d p (firstn (Z.to_nat n) data) p_hash;
      let hash := default hash out in
      d ← liftD (MCP_SHA1_IV_UPDATE d hash);
      SHA1_DataHash_loop fuel' hw d (p + n) (skipn (Z.to_nat n) data) p_hash hash block_size ret
  end.

(** [data_len % block_size] traps on a zero block size. *)
Definition MCP_SHA1_DataHash (fuel : nat) (hw : mcp_hw) (p_data : Z) (data : list Z) (p_hash : Z)
    (hash : list Z) (block_size block_status : Z) : D (Z * list Z) :=
  let d := MCP_SHA1_HASH_INIT in
  if negb (Z.land (Zlen data) SHA1_ALIGNMENT_CHECK =? 0) then mret (-1, hash)
  else if negb (Z.land block_size SHA1_ALIGNMENT_CHECK =? 0) then mret (-1, hash)
  else
    bad ← liftD (if Z.land block_status LAST_BLOCK =? 0
                 then if block_size =? 0 then Fault else Ret (negb (Zlen data mod block_size =? 0))
                 else Ret false);
    if (bad : bool) then mret (-1, hash)
    else
      d ← liftD (if Z.land block_status FIRST_BLOCK =? 0 then MCP_SHA1_IV_UPDATE d hash else Ret d);
      SHA1_DataHash_loop fuel hw d p_data data p_hash hash block_size 0.

(** ** Block ciphers *)

(** [if (IV) { iv[0] = ...; iv[1] = ...; }] *)
Definition iv_words2 (d : mcp_desc) (IV : option (list Z)) : res mcp_desc :=
  match IV with
  | None => Ret d
  | Some v =>
      w0 ← be_word v 0;
      w1 ← be_word v 4;
      Ret (with_iv d ([w0; w1] ++ skipn 2 (iv d)))
  end.

Definition MCP_DES_DESC_INIT (EnDe Mode : Z) (Key : list Z) (IV : option (list Z)) : res mcp_desc :=
  let d := with_flags zero_desc
             (Z.lor (Z.lor (MARS_MCP_MODE MCP_ALGO_DES) (MARS_MCP_BCM Mode)) (MARS_MCP_ENC EnDe)) in
  k0 ← be_word Key 0;
  k1 ← be_word3 Key 4;
  iv_words2 (with_key d ([k0; k1] ++ skipn 2 (key d))) IV.

(** For decryption the three keys are loaded in the opposite order. *)
Definition MCP_TDES_DESC_INIT (EnDe Mode : Z) (Key : list Z) (IV : option (list Z)) : res mcp_desc :=
  let d := with_flags zero_desc
             (Z.lor (Z.lor (MARS_MCP_MODE MCP_ALGO_3DES) (MARS_MCP_BCM Mode)) (MARS_MCP_ENC EnDe)) in
  a0 ← be_word Key 0;
  a1 ← be_word3 Key 4;
  b0 ← be_word Key 7;
  b1 ← be_word3 Key 11;
  c0 ← be_word Key 14;
  c1 ← be_word3 Key 18;
  iv_words2 (with_key d (if EnDe =? 0 then [c0; c1; b0; b1; a0; a1] else [a0; a1; b0; b1; c0; c1])) IV.

(** The return value and the descriptor. *)
Definition MCP_AES_DESC_INIT (EnDe Mode : Z) (Key IV : option (list Z)) : res (Z * mcp_desc) :=
  if (Mode =? MCP_BCM_ECB) || (Mode =? MCP_BCM_CBC) || (Mode =? MCP_BCM_CTR) then
    let d := with_flags zero_desc
               (Z.lor (Z.lor (MARS_MCP_MODE MCP_ALGO_AES) (MARS_MCP_BCM Mode)) (MARS_MCP_ENC EnDe)) in
    d ← match Key with
        | Some k =>
            k0 ← be_word k 0;
            k1 ← be_word k 4;
            k2 ← be_word k 8;
            k3 ← be_word k 12;
            Ret (with_key d ([k0; k1; k2; k3] ++ skipn 4 (key d)))
        | None => Ret (with_flags d (Z.lor (flags d) (MARS_MCP_KEY_SEL MCP_KEY_SEL_OTP)))
        end;
    d ← match IV with
        | Some v =>
            v0 ← be_word v 0;
            v1 ← be_word v 4;
            v2 ← be_word v 8;
            v3 ← be_word v 12;
            Ret (with_iv d [v0; v1; v2; v3])
        | None => Ret (with_flags d (Z.lor (flags d) (MARS_MCP_IV_SEL MCP_IV_SEL_REG)))
        end;
    Ret (0, d)
  else Ret (-1, zero_desc).

(** [len & ~mask] *)
Definition align_down (n mask : Z) : Z := Z.land n (Z.lnot mask).

(** The common part of the six cipher calls: [inp] is the [len] bytes at
    [p_in]; the engine processes the first [len & ~mask] of them. *)
Definition mcp_cipher_call (hw : mcp_hw) (d : mcp_desc) (mask p_in : Z) (inp : list Z) (p_out : Z) :
    D (Z * list Z) :=
  mapped_command hw d p_in (Zlen inp) p_out (Zlen inp)
    (firstn (Z.to_nat (align_down (Zlen inp) mask)) inp).

Definition MCP_DES_Decryption (hw : mcp_hw) (Mode : Z) (Key : list Z) (IV : option (list Z))
    (p_in : Z) (inp : list Z) (p_out : Z) : D (Z * list Z) :=
  d ← liftD (MCP_DES_DESC_INIT 0 Mode Key IV);
  mcp_cipher_call hw d 7 p_in inp p_out.

Definition MCP_DES_Encryption (hw : mcp_hw) (Mode : Z) (Key : list Z) (IV : option (list Z))
    (p_in : Z) (inp : list Z) (p_out : Z) : D (Z * list Z) :=
  d ← liftD (MCP_DES_DESC_INIT 1 Mode Key IV);
  mcp_cipher_call hw d 7 p_in inp p_out.

Definition MCP_TDES_Decryption (hw : mcp_hw) (Mode : Z) (Key : list Z) (IV : option (list Z))
    (p_in : Z) (inp : list Z) (p_out : Z) : D (Z * list Z) :=
  d ← liftD (MCP_TDES_DESC_INIT 0 Mode Key IV);
  mcp_cipher_call hw d 7 p_in inp p_out.

Definition MCP_TDES_Encryption (hw : mcp_hw) (Mode : Z) (Key : list Z) (IV : option (list Z))
    (p_in : Z) (inp : list Z) (p_out : Z) : D (Z * list Z) :=
  d ← liftD (MCP_TDES_DESC_INIT 1 Mode Key IV);
  mcp_cipher_call hw d 7 p_in inp p_out.

(** The return value of [MCP_AES_DESC_INIT] is not looked at. *)
Definition MCP_AES_Decryption (hw : mcp_hw) (Mode : Z) (Key IV : option (list Z))
    (p_in : Z) (inp : list Z) (p_out : Z) : D (Z * list Z) :=
  '(_, d) ← liftD (MCP_AES_DESC_INIT 0 Mode Key IV);
  mcp_cipher_call hw d 15 p_in inp p_out.

Definition MCP_AES_Encryption (hw : mcp_hw) (Mode : Z) (Key IV : option (list Z))
    (p_in : Z) (inp : list Z) (p_out : Z) : D (Z * list Z) :=
  '(_, d) ← liftD (MCP_AES_DESC_INIT 1 Mode Key IV);
  mcp_cipher_call hw d 15 p_in inp p_out.

(** ** The ioctl of the core device

    [user] reads the descriptor at a user address.  [MCP_IOCTL_DO_COMMAND]
    copies batches of at most ten descriptors to the stack; [p_desc] is a
    [mcp_desc*], so [p_desc += sizeof(mcp_desc) * n_desc] moves it by
    [sizeof(mcp_desc) * sizeof(mcp_desc) * n_desc] bytes. *)
Definition mcp_desc_ENTRY_COUNT : Z := 10.
Definition EFAULT : Z := 14.

Section core_ioctl.
Variable user : Z -> option (mcp_desc * list Z).

(** [copy_from_user(&desc_list, p_desc, sizeof(mcp_desc) * n)] *)
Fixpoint copy_descs (p : Z) (n : nat) : option (list (mcp_desc * list Z)) :=
  match n with
  | O => Some []
  | S n' =>
      match user p, copy_descs (p + sizeof_mcp_desc) n' with
      | Some d, Some l => Some (d :: l)
      | _, _ => None
      end
  end.

Fixpoint do_command_loop (fuel : nat) (hw : mcp_hw) (p_desc n : Z) (outs : list (list Z)) :
    D (Z * list (list Z)) :=
  if n =? 0 then mret (0, outs)
  else match fuel with
  | O => fun _ => OutOfFuel
  | S fuel' =>
      let n_desc := if n >=? mcp_desc_ENTRY_COUNT then mcp_desc_ENTRY_COUNT else n in
      match copy_descs p_desc (Z.to_nat n_desc) with
      | None => mret (- EFAULT, outs)
      | Some desc_list =>
          '(ret, out) ← mcp_do_command hw (hw_stack hw) desc_list;
          if ret <? 0 then mret (- EFAULT, outs ++ out)
          else do_command_loop fuel' hw
                 (p_desc + sizeof_mcp_desc * (sizeof_mcp_desc * n_desc)) (n - n_desc) (outs ++ out)
      end
  end.
End core_ioctl.

(** ** Memory *)

Definition PAGE_SIZE : Z := 4096.

Inductive page_alloc := FREE_PAGES | KMALLOC_.

(** Which allocator serves a request of [size] bytes, and which one is given
    the block back. *)
Definition mcp_malloc (size : Z) : page_alloc := if size >=? PAGE_SIZE then FREE_PAGES else KMALLOC_.
Definition mcp_free (size : Z) : page_alloc := if size >=? PAGE_SIZE then FREE_PAGES else KMALLOC_.

(** ** Commands leave the driver quiet *)

(** The return value of a transfer of [descs]. *)
Definition xfer_ret (hw : mcp_hw) (descs : list mcp_desc) : Z :=
  let poll := hw_poll hw descs in
  if Z.land (snd (poll (wait_loop WaitTime poll 0))) (Z.lnot MCP_RING_EMPTY) =? 0 then 0 else -1.

(** The semaphore is free again, the same mappings are open, and the ring
    registers are clear. *)
Record quiet (d d' : dev) : Prop := {
  quiet_sem : sem d' = sem d;
  quiet_maps : maps d' = maps d;
  quiet_base : r_base d' = 0;
  quiet_limit : r_limit d' = 0;
  quiet_rdptr : r_rdptr d' = 0;
  quiet_wrptr : r_wrptr d' = 0
}.

#[export] Instance quiet_trans : Transitive quiet.
Proof. intros a b c [] []. split; congruence. Qed.

Lemma bindD_Ret {A B} (m : D A) (f : A -> D B) d a d' :
  m d = Ret (a, d') -> (m ≫= f) d = f a d'.
Proof. intros H. unfold mbind, D_bind. by rewrite H. Qed.

Lemma liftD_Ret {A} (m : res A) d a : m = Ret a -> liftD m d = Ret (a, d).
Proof. intros ->. reflexivity. Qed.

(** [dstep H]: the first action of a driver goal is known to return. *)
Ltac dstep H :=
  first [ rewrite (bindD_Ret _ _ _ _ _ H) | rewrite (bindD_Ret _ _ _ _ _ (liftD_Ret _ _ _ H)) ].

Lemma unmap_head x l : unmap x (x :: l) = Some l.
Proof. cbn [unmap]. by rewrite decide_True. Qed.

(** Two mappings opened one after the other are closed in the same order. *)
Lemma unmap_two x y l : exists m, unmap x (y :: x :: l) = Some m /\ unmap y m = Some l.
Proof.
  cbn [unmap]. destruct (decide (x = y)) as [->|].
  - eexists. split; [done|]. apply unmap_head.
  - rewrite decide_True by done. eexists. split; [done|]. apply unmap_head.
Qed.

Lemma mcp_do_command_spec hw p ring d : sem d = 1 -> ring <> [] ->
  exists d', mcp_do_command hw p ring d =
    Ret ((xfer_ret hw (map fst ring), map (fun di => hw_exec hw (fst di) (snd di)) ring), d') /\
    quiet d d'.
Proof.
  intros Hs Hr. unfold mcp_do_command.
  assert (0 < Zlen ring) by (unfold Zlen; destruct ring; [done|simpl; lia]).
  destruct (Z.eqb_spec (Zlen ring) 0); [lia|]. cbn [negb].
  destruct d as [c s e b l rp wp c1 sm mp]. cbn [sem] in Hs. subst sm.
  unfold mbind, D_bind, down. cbn [sem Z.leb Z.compare]. unfold _mcp_map_single, set_sem, set_maps.
  cbn [r_ctrl r_status r_en r_base r_limit r_rdptr r_wrptr r_ctrl1 sem maps].
  unfold _mcp_set_desc_buffer, _mcp_start_xfer, _mcp_unmap_single, mbind, D_bind, getD, writel, mret, D_ret.
  cbn [r_ctrl r_status r_en r_base r_limit r_rdptr r_wrptr r_ctrl1 sem maps]. rewrite unmap_head.
  unfold up, set_sem, set_maps.
  replace (hw_dma hw p + sizeof_mcp_desc * Zlen ring - hw_dma hw p) with (Zlen ring * sizeof_mcp_desc) by lia.
  rewrite Z.div_mul by done. unfold Zlen. rewrite Nat2Z.id, firstn_all.
  eexists. split; [reflexivity|]. by split.
Qed.

(** The descriptor that runs. *)
Definition run_desc (hw : mcp_hw) (d : mcp_desc) (p_in p_out : Z) (inp : list Z) : mcp_desc :=
  with_data d (hw_dma hw p_in) (hw_dma hw p_out) (Zlen inp).

Lemma mapped_command_spec hw desc p1 n1 p2 n2 inp d :
  sem d = 1 ->
  exists d', mapped_command hw desc p1 n1 p2 n2 inp d =
    Ret ((xfer_ret hw [run_desc hw desc p1 p2 inp], hw_exec hw (run_desc hw desc p1 p2 inp) inp), d') /\
    quiet d d'.
Proof.
  intros Hs. unfold mapped_command.
  set (d1 := set_maps d ((hw_dma hw p1, n1) :: maps d)).
  set (d2 := set_maps d1 ((hw_dma hw p2, n2) :: maps d1)).
  assert (H1 : _mcp_map_single hw p1 n1 d = Ret (hw_dma hw p1, d1)) by done. dstep H1.
  assert (H2 : _mcp_map_single hw p2 n2 d1 = Ret (hw_dma hw p2, d2)) by done. dstep H2.
  destruct (mcp_do_command_spec hw (hw_stack hw) [(run_desc hw desc p1 p2 inp, inp)] d2)
    as (d3 & E & []); [done|done|]. dstep E.
  destruct (unmap_two (hw_dma hw p1, n1) (hw_dma hw p2, n2) (maps d)) as (m & Hm1 & Hm2).
  assert (H4 : _mcp_unmap_single (hw_dma hw p1) n1 d3 = Ret (tt, set_maps d3 m)).
  { unfold _mcp_unmap_single. rewrite quiet_maps0. unfold d2, d1. cbn [maps set_maps]. by rewrite Hm1. }
  dstep H4.
  assert (H5 : _mcp_unmap_single (hw_dma hw p2) n2 (set_maps d3 m) = Ret (tt, set_maps d3 (maps d))).
  { unfold _mcp_unmap_single. cbn [maps set_maps]. by rewrite Hm2. }
  dstep H5. exists (set_maps d3 (maps d)). split.
  - cbn [map fst snd concat]. by rewrite app_nil_r.
  - split; cbn [set_maps sem maps r_base r_limit r_rdptr r_wrptr]; done.
Qed.
