(* ===== verification/McpDgst.v ===== *)
(** * Message digests: [drivers/mcp/mcp_dgst.c], [sha1.c], [aes_h.c]

    A digest context collects the data of a message in any number of updates,
    keeps an incomplete block in a temporary buffer, and has the engine hash
    whole blocks.  [sha1.c] and [aes_h.c] are the same code over different
    engine calls and block sizes; the model has the code once, over the record
    [md_alg] of what differs, and instantiates it for both. *)
From stdpp Require Import base tactics list numbers option strings.
From Stdlib Require Import ZArith Lia.
From S2P Require Import Prelude Buff McpEngine.

(** ** Contexts *)

(** [SHA1_CTX] and [AES_H_CTX]; [hash_addr] is the address of [hash]. *)
Record md_data := mkMD {
  tmp : option mcp_buff;
  byte_count : Z;
  hash_addr : Z;
  hash : list Z
}.

(** The four constant [MCP_MD] structures. *)
Inductive md_kind := aes_h_md | Mars_aes_h_md | sha1_md | Mars_sha1_md.

#[export] Instance md_kind_eq_dec : EqDecision md_kind.
Proof. solve_decision. Defined.

Record MCP_MD_CTX := mkCtx {
  digest : option md_kind;
  ctx_data : option md_data;
  private_data : option mcp_buff
}.

Definition with_data_ (c : MCP_MD_CTX) (d : md_data) : MCP_MD_CTX :=
  mkCtx (digest c) (Some d) (private_data c).

(** What [sha1.c] and [aes_h.c] differ in. *)
Record md_alg := mkAlg {
  alg_block : Z;
  alg_size : Z;
  alg_init_hash : list Z;
  alg_init_desc : mcp_desc;
  alg_iv_update : mcp_desc -> list Z -> res mcp_desc;
  alg_padding : Z -> Z -> Z * option (list Z);
  alg_hashing : mcp_hw -> mcp_desc -> Z -> list Z -> Z -> D (Z * option (list Z))
}.

Definition derefD {A} (p : option A) : D A :=
  match p with
  | Some a => mret a
  | None => fun _ => Fault
  end.

(** ** The code shared by [sha1.c] and [aes_h.c] *)

Section md_code.
Variable hw : mcp_hw.
Variable al : alloc_fun.
Variable alg : md_alg.

(** [SHA1_CTX_Init], [AES_H_CTX_Init] *)
Definition md_ctx_init (p : md_data) : D md_data :=
  t ← derefD (tmp p);
  mret (mkMD (Some (mcpb_purge t)) 0 (hash_addr p) (alg_init_hash alg)).

(** [SHA1_DigestInit], [AES_H_DigestInit] *)
Definition md_init (ctx : MCP_MD_CTX) : D (Z * MCP_MD_CTX) :=
  match ctx_data ctx with
  | Some p =>
      match alloc_mcpb al (alg_block alg) with
      | None => mret (-1, with_data_ ctx (mkMD None (byte_count p) (hash_addr p) (hash p)))
      | Some t =>
          p ← md_ctx_init (mkMD (Some t) (byte_count p) (hash_addr p) (hash p));
          mret (0, with_data_ ctx p)
      end
  | None => mret (-1, ctx)
  end.

(** Short-block handling: the bytes kept from the last update are put in front
    of the new ones. *)
Definition md_unstash (t b : mcp_buff) : D (mcp_buff * mcp_buff) :=
  if len t =? 0 then mret (t, b)
  else
    let '(_, b) := mcpb_push b (len t) in
    bs ← liftD (bload t (data t) (len t));
    b ← liftD (bstore b (data b) bs);
    mret (mcpb_purge t, b).

(** Whole blocks are hashed. *)
Definition md_blocks (d : mcp_desc) (p : md_data) (b : mcp_buff) : D (md_data * mcp_buff) :=
  if len b >? alg_block alg then
    let n := align_down (len b) (alg_block alg - 1) in
    inp ← liftD (bload b (data b) n);
    '(_, out) ← alg_hashing alg hw d (data b) inp (hash_addr p);
    let p := mkMD (tmp p) (u64 (byte_count p + n)) (hash_addr p) (default (hash p) out) in
    mret (p, snd (mcpb_pull b n))
  else mret (p, b).

(** The rest is kept. *)
Definition md_stash (t b : mcp_buff) : D mcp_buff :=
  if len b =? 0 then mret t
  else
    bs ← liftD (bload b (data b) (len b));
    t ← liftD (bstore t (data t) bs);
    mret (snd (mcpb_put t (len b))).

(** [SHA1_DigestUpdate], [AES_H_DigestUpdate] *)
Definition md_update (ctx : MCP_MD_CTX) (mcpb : mcp_buff) : D (Z * MCP_MD_CTX * mcp_buff) :=
  p ← derefD (ctx_data ctx);
  d ← liftD (alg_iv_update alg (alg_init_desc alg) (hash p));
  t ← derefD (tmp p);
  '(t, mcpb) ← md_unstash t mcpb;
  '(p, mcpb) ← md_blocks d p mcpb;
  t ← md_stash t mcpb;
  mret (0, with_data_ ctx (mkMD (Some t) (byte_count p) (hash_addr p) (hash p)), mcpb).

(** [SHA1_DigestFinal], [AES_H_DigestFinal]; also the bytes copied to [pHash].
    [data_len] of the padding functions is an [unsigned long]. *)
Definition md_final (ctx : MCP_MD_CTX) : D (Z * MCP_MD_CTX * list Z) :=
  p ← derefD (ctx_data ctx);
  d ← liftD (alg_iv_update alg (alg_init_desc alg) (hash p));
  t ← derefD (tmp p);
  let '(pad_sz, pad) := alg_padding alg (u32 (mcpb_tailroom t)) (u32 (byte_count p + len t)) in
  t ← liftD (match pad with Some bs => bstore t (tail t) bs | None => Ret t end);
  let '(_, t) := mcpb_put t pad_sz in
  inp ← liftD (bload t (data t) (len t));
  '(_, out) ← alg_hashing alg hw d (data t) inp (hash_addr p);
  let h := default (hash p) out in
  p ← md_ctx_init (mkMD (Some t) (byte_count p) (hash_addr p) h);
  mret (0, with_data_ ctx p, h).

(** [SHA1_DigestPeek], [AES_H_DigestPeek] *)
Definition md_peek (ctx : MCP_MD_CTX) : D (Z * list Z) :=
  p ← derefD (ctx_data ctx);
  mret (0, hash p).

(** [SHA1_DigestCleanup], [AES_H_DigestCleanup]: what is released, and the
    cleared context data. *)
Definition md_cleanup (ctx : MCP_MD_CTX) : D (option (allocator * Z) * MCP_MD_CTX) :=
  p ← derefD (ctx_data ctx);
  mret (free_mcpb (tmp p), with_data_ ctx (mkMD None 0 (hash_addr p) (replicate (length (hash p)) 0))).
End md_code.

(** ** The two algorithms *)

Definition SHA1InitHash : list Z :=
  [0x67; 0x45; 0x23; 0x01; 0xEF; 0xCD; 0xAB; 0x89;
   0x98; 0xBA; 0xDC; 0xFE; 0x10; 0x32; 0x54; 0x76;
   0xC3; 0xD2; 0xE1; 0xF0].

Definition AES_H_InitHash : list Z :=
  [0x2D; 0xC2; 0xDF; 0x39; 0x42; 0x03; 0x21; 0xD0;
   0xCE; 0xF1; 0xFE; 0x23; 0x74; 0x02; 0x9D; 0x95].

Definition sha1_alg : md_alg :=
  mkAlg 64 20 SHA1InitHash MCP_SHA1_HASH_INIT MCP_SHA1_IV_UPDATE MCP_SHA1_PADDING MCP_SHA1_Hashing.

Definition aes_h_alg : md_alg :=
  mkAlg 16 16 AES_H_InitHash MCP_AES_H_HASH_INIT MCP_AES_H_IV_UPDATE MCP_AES_H_PADDING
    (fun hw d p inp o => '(ret, out) ← MCP_AES_H_Hashing hw d p inp o; mret (ret, Some out)).

Definition SHA1_DigestInit al := md_init al sha1_alg.
Definition SHA1_DigestUpdate hw := md_update hw sha1_alg.
Definition SHA1_DigestFinal hw := md_final hw sha1_alg.
Definition AES_H_DigestInit al := md_init al aes_h_alg.
Definition AES_H_DigestUpdate hw := md_update hw aes_h_alg.
Definition AES_H_DigestFinal hw := md_final hw aes_h_alg.

(** ** The variants for the Mars CPU *)

(** Every update hashes a complete padded message, in front of which the
    previous hash value is put. *)
Definition MARS_SHA1_DigestUpdate (hw : mcp_hw) (ctx : MCP_MD_CTX) (mcpb : mcp_buff) :
    D (Z * MCP_MD_CTX * mcp_buff) :=
  p ← derefD (ctx_data ctx);
  mcpb ← (if byte_count p =? 0 then mret mcpb
          else let '(q, b) := mcpb_push mcpb 20 in liftD (bstore b q (hash p)));
  let '(pad_sz, pad) := MCP_SHA1_PADDING (u32 (mcpb_tailroom mcpb)) (len mcpb) in
  mcpb ← liftD (match pad with Some bs => bstore mcpb (tail mcpb) bs | None => Ret mcpb end);
  let '(_, mcpb) := mcpb_put mcpb pad_sz in
  inp ← liftD (bload mcpb (data mcpb) (len mcpb));
  '(_, out) ← MCP_SHA1_Hashing hw MCP_SHA1_HASH_INIT (data mcpb) inp (hash_addr p);
  mret (0, with_data_ ctx (mkMD (tmp p) (u64 (byte_count p + len mcpb)) (hash_addr p) (default (hash p) out)), mcpb).

(** [MARS_SHA1_DigestFinal], [MARS_AES_H_DigestFinal] *)
Definition mars_final (alg : md_alg) (ctx : MCP_MD_CTX) : D (Z * MCP_MD_CTX * list Z) :=
  p ← derefD (ctx_data ctx);
  p' ← md_ctx_init alg p;
  mret (0, with_data_ ctx p', hash p).

Definition MARS_SHA1_DigestFinal := mars_final sha1_alg.
Definition MARS_AES_H_DigestFinal := mars_final aes_h_alg.

Definition MARS_AES_H_DigestUpdate (hw : mcp_hw) (ctx : MCP_MD_CTX) (mcpb : mcp_buff) :
    D (Z * MCP_MD_CTX * mcp_buff) :=
  p ← derefD (ctx_data ctx);
  d ← liftD (MCP_AES_H_IV_UPDATE MCP_AES_H_HASH_INIT (hash p));
  inp ← liftD (bload mcpb (data mcpb) (len mcpb));
  '(_, out) ← MCP_AES_H_Hashing hw d (data mcpb) inp (hash_addr p);
  mret (0, with_data_ ctx (mkMD (tmp p) (byte_count p) (hash_addr p) out), snd (mcpb_pull mcpb (len mcpb))).

(** ** The dispatch of [mcp_dgst.c] *)

Record MCP_MD := mkMCP_MD {
  digest_sz : Z;
  block_size : Z;
  md_init_ : MCP_MD_CTX -> D (Z * MCP_MD_CTX);
  md_update_ : MCP_MD_CTX -> mcp_buff -> D (Z * MCP_MD_CTX * mcp_buff);
  md_final_ : MCP_MD_CTX -> D (Z * MCP_MD_CTX * list Z);
  md_peek_ : MCP_MD_CTX -> D (Z * list Z);
  md_cleanup_ : MCP_MD_CTX -> D (option (allocator * Z) * MCP_MD_CTX)
}.

Definition MCP_MD_of (hw : mcp_hw) (al : alloc_fun) (k : md_kind) : MCP_MD :=
  match k with
  | sha1_md => mkMCP_MD 20 64 (SHA1_DigestInit al) (SHA1_DigestUpdate hw) (SHA1_DigestFinal hw) md_peek md_cleanup
  | Mars_sha1_md =>
      mkMCP_MD 20 64 (SHA1_DigestInit al) (MARS_SHA1_DigestUpdate hw) MARS_SHA1_DigestFinal md_peek md_cleanup
  | aes_h_md => mkMCP_MD 16 16 (AES_H_DigestInit al) (AES_H_DigestUpdate hw) (AES_H_DigestFinal hw) md_peek md_cleanup
  | Mars_aes_h_md =>
      mkMCP_MD 16 16 (AES_H_DigestInit al) (MARS_AES_H_DigestUpdate hw) MARS_AES_H_DigestFinal md_peek md_cleanup
  end.

Definition MCP_MD_CTX_init : MCP_MD_CTX := mkCtx None None None.

Section dispatch.
Variable hw : mcp_hw.
Variable al : alloc_fun.

(** [kmalloc(type->ctx_size)] gives fresh context data at address [p], with
    whatever bytes are there. *)
Definition MCP_DigestInit (ctx : MCP_MD_CTX) (type : md_kind) : D (Z * MCP_MD_CTX) :=
  let ctx_size := match type with sha1_md | Mars_sha1_md => 40 | _ => 32 end in
  let fresh := match al KMALLOC ctx_size with
               | Some (p, _) => Some (mkMD None 0 (p + 16) [])
               | None => None
               end in
  md_init_ (MCP_MD_of hw al type) (mkCtx (Some type) fresh (private_data ctx)).

Definition MCP_DigestUpdate (ctx : option MCP_MD_CTX) (mcpb : mcp_buff) :
    D (Z * option MCP_MD_CTX * mcp_buff) :=
  match ctx with
  | Some c =>
      match digest c with
      | Some k =>
          '(ret, c, mcpb) ← md_update_ (MCP_MD_of hw al k) c mcpb;
          mret (ret, Some c, mcpb)
      | None => mret (-1, ctx, mcpb)
      end
  | None => mret (-1, ctx, mcpb)
  end.

(** [ctx] and [ctx->digest] are dereferenced before they are tested.  The
    result holds the digest and its size. *)
Definition MCP_DigestFinal (ctx : option MCP_MD_CTX) : D (Z * option MCP_MD_CTX * list Z * Z) :=
  c ← derefD ctx;
  k ← derefD (digest c);
  '(ret, c, h) ← md_final_ (MCP_MD_of hw al k) c;
  mret (ret, Some c, h, digest_sz (MCP_MD_of hw al k)).

Definition MCP_DigestPeek (ctx : option MCP_MD_CTX) : D (Z * list Z * Z) :=
  c ← derefD ctx;
  k ← derefD (digest c);
  '(ret, h) ← md_peek_ (MCP_MD_of hw al k) c;
  mret (ret, h, digest_sz (MCP_MD_of hw al k)).

(** The blocks released: the temporary buffer and the context data.  The
    pointers of [ctx] are left as they were. *)
Definition MCP_MD_CTX_cleanup (ctx : option MCP_MD_CTX) : D (Z * list (option (allocator * Z)) * option MCP_MD_CTX) :=
  match ctx with
  | Some c =>
      match ctx_data c with
      | Some p =>
          '(freed, c) ← (match digest c with
                         | Some k => '(f, c) ← md_cleanup_ (MCP_MD_of hw al k) c; mret ([f], c)
                         | None => mret ([], c)
                         end);
          mret (0, freed ++ [Some (KMALLOC, hash_addr p - 16)], Some c)
      | None => mret (0, [], ctx)
      end
  | None => mret (0, [], ctx)
  end.
End dispatch.

Definition MCP_get_digestbyname (name : String.string) : option md_kind :=
  if String.eqb name "aes_h"%string then Some aes_h_md
  else if String.eqb name "mars_aes_h"%string then Some Mars_aes_h_md
  else None.
