(* ===== verification/McpDgstProofs.v ===== *)
(** * Streaming digests are digests of the whole message

    The engine is assumed to hash whole blocks by an iterated compression
    function; from that, any way of cutting a message into updates gives the
    hash of the padded message. *)
From stdpp Require Import base tactics list numbers option.
From Stdlib Require Import ZArith Lia.
From S2P Require Import Prelude Buff McpEngine McpDgst.

(** ** Iterated compression *)

Fixpoint md_fold (c : list Z -> list Z -> list Z) (bs : nat) (n : nat) (h inp : list Z) : list Z :=
  match n with
  | O => h
  | S n' => md_fold c bs n' (c h (firstn bs inp)) (skipn bs inp)
  end.

(** The hash value after the whole blocks of [inp], from the value [h]. *)
Definition md_hash (c : list Z -> list Z -> list Z) (bs : Z) (h inp : list Z) : list Z :=
  md_fold c (Z.to_nat bs) (length inp / Z.to_nat bs) h inp.

(** The padding of a message of [L] bytes: 0x80, the fewest zeros, and the
    length in bits. *)
Definition md_pad (bs L : Z) : list Z :=
  128 :: replicate (Z.to_nat ((bs - 9 - L) mod bs)) 0 ++ be64 (8 * L).

Definition byte_list (n : Z) (h : list Z) : Prop := Zlen h = n /\ Forall is_byte h.

(** ** What the code needs from an algorithm and from the engine *)

Class MdAlg (alg : md_alg) := {
  alg_pow2 : exists k, 4 <= k <= 6 /\ alg_block alg = 2 ^ k;
  alg_init_ok : byte_list (alg_size alg) (alg_init_hash alg);
  alg_padding_ok : forall room L, 0 <= L < W32 -> alg_block alg + 8 <= room ->
    alg_padding alg room L = (Zlen (md_pad (alg_block alg) L), Some (md_pad (alg_block alg) L))
}.

Class HashEngine (hw : mcp_hw) (alg : md_alg) (c : list Z -> list Z -> list Z) := {
  engine_size : forall h b, byte_list (alg_size alg) h -> byte_list (alg_block alg) b ->
    byte_list (alg_size alg) (c h b);
  engine_hash : forall h, byte_list (alg_size alg) h ->
    exists desc, alg_iv_update alg (alg_init_desc alg) h = Ret desc /\
      forall p inp q d, sem d = 1 -> Forall is_byte inp -> Zlen inp mod alg_block alg = 0 ->
        exists ret d', alg_hashing alg hw desc p inp q d =
          Ret ((ret, Some (md_hash c (alg_block alg) h inp)), d') /\ quiet d d'
}.

(** ** Lemmas on blocks *)

Lemma md_fold_app c bs n m h x y : (0 < bs)%nat -> length x = (bs * n)%nat ->
  md_fold c bs (n + m) h (x ++ y) = md_fold c bs m (md_fold c bs n h x) y.
Proof.
  intros Hbs. revert h x. induction n as [|n IH]; intros h x Hx.
  - destruct x; [done|simpl in Hx; lia].
  - cbn [Nat.add md_fold]. rewrite firstn_app, skipn_app.
    replace (bs - length x)%nat with 0%nat by lia. rewrite firstn_O, app_nil_r. cbn [skipn].
    apply IH. rewrite length_skipn. lia.
Qed.

Lemma md_hash_app c bs h x y : 0 < bs -> Zlen x mod bs = 0 ->
  md_hash c bs h (x ++ y) = md_hash c bs (md_hash c bs h x) y.
Proof.
  intros Hbs Hx. unfold md_hash. apply Z.mod_divide in Hx as [k Hk]; [|lia]. unfold Zlen in Hk.
  assert (Hl : length x = (Z.to_nat k * Z.to_nat bs)%nat) by nia.
  rewrite length_app, Hl, Nat.div_add_l, Nat.div_mul by lia.
  apply md_fold_app; lia.
Qed.

Lemma md_fold_ok c bs size n h inp :
  (forall h b, byte_list size h -> byte_list (Z.of_nat bs) b -> byte_list size (c h b)) ->
  byte_list size h -> Forall is_byte inp -> (bs * n <= length inp)%nat ->
  byte_list size (md_fold c bs n h inp).
Proof.
  intros Hc. revert h inp. induction n as [|n IH]; intros h inp Hh Hi Hl; [done|].
  cbn [md_fold]. apply IH.
  - apply Hc; [done|]. split; [unfold Zlen; rewrite length_firstn; lia|by apply Forall_take].
  - by apply Forall_drop.
  - rewrite length_skipn. lia.
Qed.

Lemma align_down_pow2 n k : 0 <= n -> 0 <= k -> align_down n (2 ^ k - 1) = n - n mod 2 ^ k.
Proof.
  intros Hn Hk. unfold align_down. rewrite <- Z.ldiff_land.
  replace (2 ^ k - 1) with (Z.ones k) by (rewrite Z.ones_equiv; lia).
  rewrite Z.ldiff_ones_r, Z.shiftr_div_pow2, Z.shiftl_mul_pow2 by lia.
  pose proof (Z.div_mod n (2 ^ k)). lia.
Qed.

Lemma be64_bytes x : Forall is_byte (be64 x).
Proof.
  unfold be64, is_byte. repeat constructor; change 255 with (Z.ones 8); rewrite Z.land_ones by lia;
    apply Z.mod_pos_bound; lia.
Qed.

Lemma md_pad_ok bs L : 0 < bs -> Forall is_byte (md_pad bs L) /\
  Zlen (md_pad bs L) = 9 + (bs - 9 - L) mod bs.
Proof.
  intros Hbs. unfold md_pad. pose proof (Z.mod_pos_bound (bs - 9 - L) bs Hbs). split.
  - constructor; [unfold is_byte; lia|]. apply Forall_app. split; [|apply be64_bytes].
    apply Forall_replicate. unfold is_byte. lia.
  - unfold Zlen. cbn [length]. rewrite length_app, length_replicate. simpl. lia.
Qed.

(** The padded message is a whole number of blocks. *)
Lemma md_pad_aligned bs L : 0 < bs -> (L + Zlen (md_pad bs L)) mod bs = 0.
Proof.
  intros Hbs. destruct (md_pad_ok bs L Hbs) as [_ ->].
  rewrite Z.add_assoc, Zplus_mod_idemp_r.
  replace (L + 9 + (bs - 9 - L)) with bs by lia. by apply Z.mod_same; lia.
Qed.

(** [md_pad] is what the padding code writes. *)
Lemma pad_bytes_md bs L r : 8 < bs -> 0 <= L < W32 -> r = L mod bs ->
  let sz := if bs - r <=? 8 then bs - r + bs else bs - r in
  pad_bytes sz (u64 (Z.shiftl L 3)) = md_pad bs L /\ sz = Zlen (md_pad bs L).
Proof.
  intros Hbs HL Hr sz. pose proof (Z.mod_pos_bound L bs ltac:(lia)) as Hm. rewrite <- Hr in Hm.
  assert (Hz : (bs - 9 - L) mod bs = sz - 9).
  { symmetry. unfold sz. pose proof (Z.div_mod L bs ltac:(lia)) as HLd. rewrite <- Hr in HLd.
    destruct (Z.leb_spec (bs - r) 8).
    - apply (Z.mod_unique_pos _ _ (- (L / bs) - 1)); [lia|nia].
    - apply (Z.mod_unique_pos _ _ (- (L / bs))); [lia|nia]. }
  destruct (md_pad_ok bs L ltac:(lia)) as [_ Hlen]. split; [|lia].
  assert (9 <= sz) by (unfold sz; destruct (Z.leb_spec (bs - r) 8); lia).
  unfold pad_bytes, md_pad. rewrite Hz.
  replace (Z.to_nat (sz - 8)) with (S (Z.to_nat (sz - 9))) by lia. cbn [firstn].
  rewrite take_replicate. replace (Nat.min (Z.to_nat (sz - 9)) (Z.to_nat (sz - 1))) with (Z.to_nat (sz - 9)) by lia.
  cbn [app]. do 3 f_equal. rewrite Z.shiftl_mul_pow2 by lia. unfold u64. change (2 ^ 3) with 8.
  rewrite Z.mod_small; [lia|]. unfold W32 in *. lia.
Qed.

(** The semaphore and the open mappings are as before. *)
Definition calm (d d' : dev) : Prop := sem d' = sem d /\ maps d' = maps d.

#[export] Instance calm_refl : Reflexive calm.
Proof. by intros d. Qed.

#[export] Instance calm_trans : Transitive calm.
Proof. intros a b d [H1 H2] [H3 H4]. split; congruence. Qed.

Lemma quiet_calm d d' : quiet d d' -> calm d d'.
Proof. by intros []. Qed.

(** ** The invariant of a digest context *)

Section streaming.
Context (hw : mcp_hw) (alg : md_alg) (c : list Z -> list Z -> list Z).
Context `{HA : !MdAlg alg} `{HE : !HashEngine hw alg c}.

(** [p] has hashed the blocks [done], and its temporary buffer holds [rest]. *)
Record digest_state (p : md_data) (done rest : list Z) : Prop := {
  ds_aligned : Zlen done mod alg_block alg = 0;
  ds_hash : hash p = md_hash c (alg_block alg) (alg_init_hash alg) done;
  ds_count : byte_count p = Zlen done;
  ds_tmp : exists t, tmp p = Some t /\ view t 128 rest (alg_block alg + 128 - Zlen rest);
  ds_short : Zlen rest <= alg_block alg;
  ds_done : Forall is_byte done;
  ds_rest : Forall is_byte rest
}.

(** [p] has consumed the message [msg]. *)
Definition digest_inv (p : md_data) (msg : list Z) : Prop :=
  exists done rest, msg = done ++ rest /\ digest_state p done rest.

Lemma block_range : 16 <= alg_block alg <= 64.
Proof.
  destruct alg_pow2 as (k & Hk & ->). split.
  - change 16 with (2 ^ 4). apply Z.pow_le_mono_r; lia.
  - change 64 with (2 ^ 6). apply Z.pow_le_mono_r; lia.
Qed.

Lemma block_align n : 0 <= n -> align_down n (alg_block alg - 1) = n - n mod alg_block alg.
Proof. intros Hn. destruct alg_pow2 as (k & Hk & ->). apply align_down_pow2; lia. Qed.

Lemma hash_ok h x : byte_list (alg_size alg) h -> Forall is_byte x ->
  byte_list (alg_size alg) (md_hash c (alg_block alg) h x).
Proof.
  intros Hh Hx. pose proof block_range. apply md_fold_ok; [|done|done|].
  - intros h' b Hh' Hb. apply engine_size; [done|]. by rewrite Z2Nat.id in Hb by lia.
  - apply Nat.Div0.mul_div_le.
Qed.

Lemma md_unstash_spec t b d rest m h r :
  view t 128 rest (alg_block alg + 128 - Zlen rest) -> view b h m r -> Zlen rest <= h ->
  Forall is_byte rest ->
  exists t' b', md_unstash t b d = Ret ((t', b'), d) /\
    view t' 128 [] (alg_block alg + 128) /\ view b' (h - Zlen rest) (rest ++ m) r.
Proof.
  intros Ht Hb Hh Hr. pose proof block_range. destruct (view_len _ _ _ _ Ht) as (Htl & _).
  unfold md_unstash. rewrite Htl. destruct (Z.eqb_spec (Zlen rest) 0) as [E|E].
  - assert (rest = []) as -> by (unfold Zlen in E; destruct rest; [done|simpl in E; lia]).
    exists t, b. split; [done|]. unfold Zlen in *. simpl in *. rewrite !Z.sub_0_r in *. done.
  - destruct (view_push b h m r rest Hb Hr Hh) as (b' & Eb & _ & Hb' & _).
    destruct (mcpb_push b (Zlen rest)) as [q b1] eqn:Eq. cbn [fst snd] in Eb.
    assert (data b1 = q) as Hq by (unfold mcpb_push in Eq; by injection Eq as <- <-).
    assert (Hload : bload t (data t) (Zlen rest) = Ret rest).
    { rewrite <- Htl. destruct Ht as (Hv & _ & <- & _). by apply load_contents. }
    dstep Hload. rewrite Hq. dstep Eb.
    destruct (view_purge t 128 rest _ Ht ltac:(lia)) as [_ Hp].
    exists (mcpb_purge t), b'. split; [done|]. split; [|done].
    by replace (alg_block alg + 128) with (128 + Zlen rest + (alg_block alg + 128 - Zlen rest) - 128) by lia.
Qed.

Lemma md_blocks_spec desc p b d x h r :
  sem d = 1 -> byte_list (alg_size alg) (hash p) -> alg_iv_update alg (alg_init_desc alg) (hash p) = Ret desc ->
  view b h x r -> 0 <= byte_count p -> byte_count p + Zlen x < W32 ->
  exists k p' b' d', md_blocks hw alg desc p b d = Ret ((p', b'), d') /\ calm d d' /\
    tmp p' = tmp p /\ hash_addr p' = hash_addr p /\
    Z.of_nat k mod alg_block alg = 0 /\ (k <= length x)%nat /\
    hash p' = md_hash c (alg_block alg) (hash p) (firstn k x) /\
    byte_count p' = byte_count p + Z.of_nat k /\
    Zlen (skipn k x) <= alg_block alg /\ exists h', view b' h' (skipn k x) r.
Proof.
  intros Hs Hh Hd Hb Hc0 Hc. pose proof block_range. destruct (view_len _ _ _ _ Hb) as (Hbl & _ & _).
  unfold md_blocks. rewrite Hbl, Z.gtb_ltb. pose proof (Zlen_nonneg x).
  destruct (Z.ltb_spec (alg_block alg) (Zlen x)) as [Hgt|Hle].
  - rewrite block_align by lia. set (n := Zlen x - Zlen x mod alg_block alg).
    pose proof (Z.mod_pos_bound (Zlen x) (alg_block alg) ltac:(lia)) as Hm.
    assert (Hn : 0 <= n <= Zlen x) by (unfold n; lia).
    assert (Hnm : n mod alg_block alg = 0) by (unfold n; rewrite Zminus_mod_idemp_r, Z.sub_diag; done).
    pose proof (contents_bytes b ltac:(apply Hb)) as Hxb.
    destruct Hb as (Hv & Hh' & Hcx & Hr). rewrite Hcx in Hxb.
    assert (Hload : bload b (data b) n = Ret (firstn (Z.to_nat n) x)).
    { destruct Hv. unfold bload. rewrite load_ok by lia. f_equal. rewrite <- Hcx. unfold contents.
      rewrite firstn_firstn. f_equal. lia. }
    dstep Hload.
    destruct (engine_hash (hash p) Hh) as (desc' & Hd' & Heng).
    rewrite Hd in Hd'. injection Hd' as <-.
    destruct (Heng (data b) (firstn (Z.to_nat n) x) (hash_addr p) d Hs) as (ret & d' & Ee & Hq).
    { by apply Forall_take. }
    { unfold Zlen in *. rewrite length_firstn, Nat.min_l by lia. by rewrite Z2Nat.id by lia. }
    dstep Ee. cbn [default].
    destruct (view_pull b h x r n) as (b' & Ep & _ & Hb'); [done|done|]. rewrite Ep. cbn [snd].
    exists (Z.to_nat n). eexists _, b', d'. split; [reflexivity|].
    cbn [tmp hash_addr hash byte_count]. split; [by apply quiet_calm|]. rewrite Z2Nat.id by lia.
    unfold u64. rewrite (Z.mod_small (byte_count p + n)) by (unfold W32 in *; lia).
    repeat (split; [done || (unfold Zlen in *; lia)|]). split; [|by eexists].
    unfold Zlen in *. rewrite length_skipn. lia.
  - exists 0%nat, p, b, d. split; [done|]. cbn [firstn skipn].
    unfold md_hash. cbn [length]. rewrite Nat.Div0.div_0_l. cbn [md_fold].
    repeat (split; [done || lia|]). by eexists.
Qed.

Lemma md_stash_spec t b d x h r :
  view t 128 [] (alg_block alg + 128) -> view b h x r -> Zlen x <= alg_block alg ->
  exists t', md_stash t b d = Ret (t', d) /\ view t' 128 x (alg_block alg + 128 - Zlen x).
Proof.
  intros Ht Hb Hx. destruct (view_len _ _ _ _ Hb) as (Hbl & _). unfold md_stash. rewrite Hbl.
  pose proof (contents_bytes b ltac:(apply Hb)) as Hxb. destruct (Z.eqb_spec (Zlen x) 0) as [E|E].
  - assert (x = []) as -> by (unfold Zlen in E; destruct x; [done|simpl in E; lia]).
    exists t. split; [done|]. unfold Zlen. simpl. by rewrite Z.sub_0_r.
  - pose proof Hb as (Hv & _ & Hcx & _). rewrite Hcx in Hxb.
    assert (Hload : bload b (data b) (Zlen x) = Ret x).
    { rewrite <- Hbl, <- Hcx. by apply load_contents. }
    dstep Hload.
    destruct (view_put t 128 [] (alg_block alg + 128) x Ht Hxb ltac:(lia)) as (t1 & Et & _ & Ht1).
    assert (tail t = data t) as Htd.
    { destruct (view_len _ _ _ _ Ht) as (Hl & _). destruct Ht as (Hvt & _). destruct Hvt.
      unfold Zlen in Hl. simpl in Hl. lia. }
    rewrite Htd in Et. dstep Et. by exists (snd (mcpb_put t1 (Zlen x))).
Qed.

Lemma digest_state_hash p done rest : digest_state p done rest -> byte_list (alg_size alg) (hash p).
Proof. intros []. rewrite ds_hash0. apply hash_ok; [apply alg_init_ok|done]. Qed.

Lemma md_update_spec ctx p msg b m h r d :
  ctx_data ctx = Some p -> digest_inv p msg -> view b h m r -> alg_block alg <= h ->
  Zlen msg + Zlen m < W32 -> sem d = 1 ->
  exists p' b' d', md_update hw alg ctx b d = Ret ((0, with_data_ ctx p', b'), d') /\
    calm d d' /\ digest_inv p' (msg ++ m).
Proof.
  intros Hp (done & rest & -> & Hst) Hb Hh Hsz Hs. pose proof (digest_state_hash _ _ _ Hst) as Hhash.
  destruct Hst as [Hal Hhv Hcnt (t & Ht & Htv) Hshort Hdb Hrb]. pose proof block_range.
  pose proof (contents_bytes b ltac:(apply Hb)) as Hmb. destruct (Hb) as (_ & _ & Hcm & _). rewrite Hcm in Hmb.
  rewrite Zlen_app in Hsz. pose proof (Zlen_nonneg done).
  unfold md_update. rewrite Hp. cbn [derefD].
  rewrite (bindD_Ret _ _ d p d) by reflexivity.
  destruct (engine_hash (hash p) Hhash) as (desc & Hdesc & _). dstep Hdesc.
  rewrite Ht. cbn [derefD]. rewrite (bindD_Ret _ _ d t d) by reflexivity.
  destruct (md_unstash_spec t b d rest m h r Htv Hb ltac:(lia) Hrb) as (t1 & b1 & E1 & Ht1 & Hb1). dstep E1.
  destruct (md_blocks_spec desc p b1 d (rest ++ m) (h - Zlen rest) r Hs Hhash Hdesc Hb1)
    as (k & p' & b' & d' & E2 & Hcalm & Hpt & Hpa & Hk & Hkl & Hph & Hpc & Hkr & h' & Hb'); [lia|rewrite Zlen_app; lia|].
  dstep E2.
  destruct (md_stash_spec t1 b' d' (skipn k (rest ++ m)) h' r Ht1 Hb' Hkr) as (t2 & E3 & Ht2). dstep E3.
  eexists _, b', d'. split; [reflexivity|]. split; [done|].
  exists (done ++ firstn k (rest ++ m)), (skipn k (rest ++ m)).
  assert (Hfk : Zlen (firstn k (rest ++ m)) = Z.of_nat k) by (unfold Zlen; rewrite length_firstn; lia).
  assert (Hrm : Forall is_byte (rest ++ m)) by (by apply Forall_app).
  split; [by rewrite <- !app_assoc, firstn_skipn|]. split; cbn [hash byte_count tmp]; try done.
  - rewrite Zlen_app, Hfk, Z.add_mod, Hal, Hk by lia. done.
  - rewrite Hph, Hhv, md_hash_app by (done || lia). done.
  - rewrite Hpc, Hcnt, Zlen_app, Hfk. done.
  - by exists t2.
  - apply Forall_app. split; [done|by apply Forall_take].
  - by apply Forall_drop.
Qed.

Lemma md_ctx_init_spec p t h l r d :
  tmp p = Some t -> view t h l r -> h + Zlen l + r = alg_block alg + 256 ->
  exists p', md_ctx_init alg p d = Ret (p', d) /\ digest_inv p' [].
Proof.
  intros Ht Hv Hsz. pose proof block_range. unfold md_ctx_init. rewrite Ht. cbn [derefD].
  rewrite (bindD_Ret _ _ d t d) by reflexivity. eexists. split; [reflexivity|].
  exists [], []. split; [done|]. split; cbn [hash byte_count tmp]; try done.
  - unfold md_hash. simpl length. by rewrite Nat.Div0.div_0_l.
  - eexists. split; [done|]. destruct (view_purge t h l r Hv ltac:(lia)) as [_ Hp].
    change (@Zlen Z []) with 0. by replace (alg_block alg + 128 - 0) with (h + Zlen l + r - 128) by lia.
  - unfold Zlen. simpl. lia.
Qed.

Lemma md_final_spec ctx p msg d :
  ctx_data ctx = Some p -> digest_inv p msg -> Zlen msg < W32 -> sem d = 1 ->
  exists p' d', md_final hw alg ctx d =
    Ret ((0, with_data_ ctx p',
          md_hash c (alg_block alg) (alg_init_hash alg) (msg ++ md_pad (alg_block alg) (Zlen msg))), d') /\
    calm d d' /\ digest_inv p' [].
Proof.
  intros Hp (done & rest & -> & Hst) Hsz Hs. pose proof (digest_state_hash _ _ _ Hst) as Hhash.
  destruct Hst as [Hal Hhv Hcnt (t & Ht & Htv) Hshort Hdb Hrb]. pose proof block_range.
  pose proof (Zlen_nonneg done). pose proof (Zlen_nonneg rest).
  unfold md_final. rewrite Hp. cbn [derefD]. rewrite (bindD_Ret _ _ d p d) by reflexivity.
  destruct (engine_hash (hash p) Hhash) as (desc & Hdesc & Heng). dstep Hdesc.
  rewrite Ht. cbn [derefD]. rewrite (bindD_Ret _ _ d t d) by reflexivity.
  destruct (view_len _ _ _ _ Htv) as (Htl & _). rewrite (mcpb_tailroom_view _ _ _ _ Htv), Htl, Hcnt.
  rewrite (u32_id (alg_block alg + 128 - Zlen rest)) by (unfold W32; lia).
  rewrite Zlen_app in *. rewrite (u32_id (Zlen done + Zlen rest)) by lia.
  set (L := Zlen done + Zlen rest) in *. set (pad := md_pad (alg_block alg) L).
  destruct (md_pad_ok (alg_block alg) L ltac:(lia)) as [Hpb Hpl]. fold pad in Hpb, Hpl.
  pose proof (Z.mod_pos_bound (alg_block alg - 9 - L) (alg_block alg) ltac:(lia)).
  pose proof (md_pad_aligned (alg_block alg) L ltac:(lia)) as Hpa. fold pad in Hpa.
  rewrite alg_padding_ok by (unfold L; lia). fold pad.
  destruct (view_put t 128 rest _ pad Htv Hpb ltac:(lia)) as (t1 & Et & _ & Ht1). dstep Et.
  destruct (mcpb_put t1 (Zlen pad)) as [q t2]. cbn [snd] in Ht1.
  destruct (view_len _ _ _ _ Ht1) as (Ht2l & _).
  assert (Hload : bload t2 (data t2) (len t2) = Ret (rest ++ pad)).
  { pose proof Ht1 as (Hv2 & _ & <- & _). by apply load_contents. }
  dstep Hload.
  destruct (Heng (data t2) (rest ++ pad) (hash_addr p) d Hs) as (ret & d' & Ee & Hq).
  { by apply Forall_app. }
  { rewrite Zlen_app. unfold L in Hpa. rewrite <- (Z.mod_add _ (Zlen done / alg_block alg)) by lia.
    pose proof (Z.div_mod (Zlen done) (alg_block alg) ltac:(lia)) as Hdm. rewrite Hal in Hdm.
    rewrite <- Hpa. f_equal. lia. }
  dstep Ee. cbn [default].
  destruct (md_ctx_init_spec (mkMD (Some t2) (Zlen done) (hash_addr p)
              (md_hash c (alg_block alg) (hash p) (rest ++ pad))) t2 _ _ _ d' eq_refl Ht1)
    as (p' & Ep & Hinv); [rewrite Zlen_app; lia|].
  dstep Ep. exists p', d'. split; [|split; [by apply quiet_calm|done]].
  rewrite Hhv, <- app_assoc, <- (md_hash_app c _ _ done) by (done || lia). done.
Qed.
End streaming.

(** ** The two algorithms on the engine *)

(** The bytes of a descriptor word, as the engine reads it. *)
Definition word_bytes (w : Z) : list Z :=
  [Z.land (Z.shiftr w 24) 255; Z.land (Z.shiftr w 16) 255; Z.land (Z.shiftr w 8) 255; Z.land w 255].

Definition words_bytes (ws : list Z) : list Z := concat (map word_bytes ws).

(** What the engine does with a SHA-1 descriptor (the initial value is in
    [key[0..4]]) and with an AES_H descriptor (in [iv]). *)
Definition sha1_engine (hw : mcp_hw) (c : list Z -> list Z -> list Z) : Prop :=
  (forall h b, byte_list 20 h -> byte_list 64 b -> byte_list 20 (c h b)) /\
  (forall d inp, Z.land (flags d) 31 = MCP_ALGO_SHA_1 -> Zlen inp mod 64 = 0 ->
     hw_exec hw d inp = md_hash c 64 (words_bytes (firstn 5 (key d))) inp).

Definition aes_h_engine (hw : mcp_hw) (c : list Z -> list Z -> list Z) : Prop :=
  (forall h b, byte_list 16 h -> byte_list 16 b -> byte_list 16 (c h b)) /\
  (forall d inp, Z.land (flags d) 31 = MCP_ALGO_AES_H -> Zlen inp mod 16 = 0 ->
     hw_exec hw d inp = md_hash c 16 (words_bytes (iv d)) inp).

Lemma word_bytes_word a b c d : is_byte a -> is_byte b -> is_byte c -> is_byte d ->
  word_bytes (u32 (Z.shiftl a 24 + Z.shiftl b 16 + Z.shiftl c 8 + d)) = [a; b; c; d].
Proof.
  unfold is_byte. intros. rewrite !Z.shiftl_mul_pow2 by lia. rewrite u32_id by (unfold W32; lia).
  unfold word_bytes. change 255 with (Z.ones 8). rewrite !Z.land_ones, !Z.shiftr_div_pow2 by lia.
  change (2 ^ 24) with 16777216. change (2 ^ 16) with 65536. change (2 ^ 8) with 256.
  repeat f_equal; dlia.
Qed.

Lemma land_63 n : Z.land n SHA1_ALIGNMENT_CHECK = n mod 64.
Proof. change SHA1_ALIGNMENT_CHECK with (Z.ones 6). by rewrite Z.land_ones by lia. Qed.

Lemma land_15 n : Z.land n 15 = n mod 16.
Proof. change 15 with (Z.ones 4). by rewrite Z.land_ones by lia. Qed.

#[export] Instance sha1_MdAlg : MdAlg sha1_alg.
Proof.
  split.
  - exists 6. done.
  - split; [done|]. repeat constructor; unfold is_byte; lia.
  - intros room L HL Hroom. cbn [alg_block alg_padding sha1_alg] in *. unfold MCP_SHA1_PADDING.
    rewrite land_63. destruct (pad_bytes_md 64 L (L mod 64)) as [Hp Hs]; [lia|done|done|].
    rewrite Hp, <- Hs. pose proof (Z.mod_pos_bound L 64). repeat zcase; try done.
Qed.

#[export] Instance aes_h_MdAlg : MdAlg aes_h_alg.
Proof.
  split.
  - exists 4. done.
  - split; [done|]. repeat constructor; unfold is_byte; lia.
  - intros room L HL Hroom. cbn [alg_block alg_padding aes_h_alg] in *. unfold MCP_AES_H_PADDING.
    rewrite land_15. destruct (pad_bytes_md 16 L (L mod 16)) as [Hp Hs]; [lia|done|done|].
    rewrite Hp, <- Hs. pose proof (Z.mod_pos_bound L 16). repeat zcase; try done.
Qed.

(** A list of known length is spelled out. *)
Ltac spell h n Hlen :=
  match n with
  | O => destruct h; [|discriminate Hlen]
  | S ?n' => destruct h as [|? h]; [discriminate Hlen|]; spell h n' Hlen
  end.

Ltac split_bytes :=
  repeat match goal with H : Forall is_byte (_ :: _) |- _ => inversion H; clear H; subst end.

Lemma sha1_iv_update h : byte_list 20 h ->
  exists ws, MCP_SHA1_IV_UPDATE MCP_SHA1_HASH_INIT h = Ret (with_key MCP_SHA1_HASH_INIT (ws ++ [0])) /\
    length ws = 5%nat /\ words_bytes ws = h.
Proof.
  intros [Hl Hb]. unfold Zlen in Hl. assert (Hn : length h = 20%nat) by lia. clear Hl.
  spell h 20%nat Hn. split_bytes. eexists [_; _; _; _; _].
  split; [reflexivity|]. split; [done|]. unfold words_bytes. cbn [map concat].
  by rewrite !word_bytes_word by done.
Qed.

Lemma aes_h_iv_update h : byte_list 16 h ->
  exists ws, MCP_AES_H_IV_UPDATE MCP_AES_H_HASH_INIT h = Ret (with_iv MCP_AES_H_HASH_INIT ws) /\
    words_bytes ws = h.
Proof.
  intros [Hl Hb]. unfold Zlen in Hl. assert (Hn : length h = 16%nat) by lia. clear Hl.
  spell h 16%nat Hn. split_bytes. eexists [_; _; _; _].
  split; [reflexivity|]. unfold words_bytes. cbn [map concat]. by rewrite !word_bytes_word by done.
Qed.

Lemma sha1_HashEngine hw c : sha1_engine hw c -> HashEngine hw sha1_alg c.
Proof.
  intros [Hc He]. split; [exact Hc|]. cbn [alg_block alg_size alg_iv_update alg_init_desc alg_hashing sha1_alg].
  intros h Hh. destruct (sha1_iv_update h Hh) as (ws & E & Hws & Hwb).
  eexists. split; [exact E|]. intros p inp q d Hs Hi Hm. unfold MCP_SHA1_Hashing.
  rewrite land_63, Hm. cbn [Z.eqb negb].
  set (desc := with_key MCP_SHA1_HASH_INIT (ws ++ [0])).
  destruct (mapped_command_spec hw desc p (Zlen inp) q SHA1_DIGEST_SIZE inp d Hs) as (d' & Em & Hq).
  dstep Em. exists (xfer_ret hw [run_desc hw desc p q inp]), d'. split; [|done].
  rewrite He by done. cbn [run_desc with_data key desc with_key].
  rewrite <- Hws, firstn_app, firstn_all, Nat.sub_diag, firstn_O, app_nil_r, Hwb. done.
Qed.

Lemma aes_h_HashEngine hw c : aes_h_engine hw c -> HashEngine hw aes_h_alg c.
Proof.
  intros [Hc He]. split; [exact Hc|]. cbn [alg_block alg_size alg_iv_update alg_init_desc alg_hashing aes_h_alg].
  intros h Hh. destruct (aes_h_iv_update h Hh) as (ws & E & Hwb).
  eexists. split; [exact E|]. intros p inp q d Hs Hi Hm. unfold MCP_AES_H_Hashing.
  set (desc := with_iv MCP_AES_H_HASH_INIT ws).
  destruct (mapped_command_spec hw desc p (Zlen inp) q 16 inp d Hs) as (d' & Em & Hq).
  dstep Em. exists (xfer_ret hw [run_desc hw desc p q inp]), d'. split; [|done].
  rewrite He by done. cbn [run_desc with_data iv desc with_iv]. by rewrite Hwb.
Qed.

(** ** Whole sessions through [mcp_dgst.c] *)

Fixpoint digest_updates (hw : mcp_hw) (al : alloc_fun) (ctx : option MCP_MD_CTX) (bufs : list mcp_buff) :
    D (option MCP_MD_CTX) :=
  match bufs with
  | [] => mret ctx
  | b :: bufs' => '(_, ctx, _) ← MCP_DigestUpdate hw al ctx b; digest_updates hw al ctx bufs'
  end.

(** Init, any number of updates, final. *)
Definition digest_session (hw : mcp_hw) (al : alloc_fun) (k : md_kind) (bufs : list mcp_buff) :
    D (Z * list Z * Z) :=
  '(_, ctx) ← MCP_DigestInit hw al MCP_MD_CTX_init k;
  ctx ← digest_updates hw al (Some ctx) bufs;
  '(ret, _, h, sz) ← MCP_DigestFinal hw al ctx;
  mret (ret, h, sz).

(** [bufs] hold the pieces [ms] of the message, with at least [n] bytes of head
    room each. *)
Definition pieces (n : Z) (bufs : list mcp_buff) (ms : list (list Z)) : Prop :=
  Forall2 (fun b m => exists h r, view b h m r /\ n <= h) bufs ms.

(** The two kinds whose context is kept by the code of [McpDgst]. *)
Definition streams (k : md_kind) (alg : md_alg) : Prop :=
  (k = sha1_md /\ alg = sha1_alg) \/ (k = aes_h_md /\ alg = aes_h_alg).

Lemma md_init_spec al alg `{!MdAlg alg} c ctx p t d :
  ctx_data ctx = Some p -> alloc_ok al -> alloc_mcpb al (alg_block alg) = Some t ->
  exists p', md_init al alg ctx d = Ret ((0, with_data_ ctx p'), d) /\ digest_inv alg c p' [].
Proof.
  intros Hp Hal Ht. pose proof (block_range alg). unfold md_init. rewrite Hp, Ht.
  destruct (alloc_view al (alg_block alg) t Hal ltac:(lia) ltac:(lia) Ht) as (Hv & _).
  destruct (md_ctx_init_spec alg c (mkMD (Some t) (byte_count p) (hash_addr p) (hash p)) t 128 []
              (alg_block alg + 128) d eq_refl Hv) as (p' & E & Hinv); [unfold Zlen; simpl; lia|].
  dstep E. by exists p'.
Qed.

Section session.
Context (hw : mcp_hw) (al : alloc_fun) (k : md_kind) (alg : md_alg) (c : list Z -> list Z -> list Z).
Context `{!MdAlg alg} `{!HashEngine hw alg c} (Hk : streams k alg).

Lemma stream_ops :
  md_init_ (MCP_MD_of hw al k) = md_init al alg /\ md_update_ (MCP_MD_of hw al k) = md_update hw alg /\
  md_final_ (MCP_MD_of hw al k) = md_final hw alg /\ digest_sz (MCP_MD_of hw al k) = alg_size alg.
Proof. by destruct Hk as [[-> ->]|[-> ->]]. Qed.

Lemma digest_updates_spec bufs ms ctx p msg d :
  digest ctx = Some k -> ctx_data ctx = Some p -> digest_inv alg c p msg ->
  pieces (alg_block alg) bufs ms -> Zlen msg + Zlen (concat ms) < W32 -> sem d = 1 ->
  exists ctx' p' d', digest_updates hw al (Some ctx) bufs d = Ret (Some ctx', d') /\ calm d d' /\
    digest ctx' = Some k /\ ctx_data ctx' = Some p' /\ digest_inv alg c p' (msg ++ concat ms).
Proof.
  destruct stream_ops as (_ & Hu & _). intros Hd Hp Hi Hms. revert ctx p msg d Hd Hp Hi.
  induction Hms as [|b m bufs ms (h & r & Hb & Hh) _ IH]; intros ctx p msg d Hd Hp Hi Hsz Hs.
  - exists ctx, p, d. cbn [concat]. rewrite app_nil_r. done.
  - cbn [digest_updates concat]. cbn [concat] in Hsz. rewrite Zlen_app in Hsz.
    pose proof (Zlen_nonneg (concat ms)).
    destruct (md_update_spec hw alg c ctx p msg b m h r d Hp Hi Hb Hh ltac:(lia) Hs)
      as (p' & b' & d' & E & Hc & Hi').
    unfold MCP_DigestUpdate. rewrite Hd, Hu.
    assert (E' : ('(ret, c, mcpb) ← md_update hw alg ctx b; mret (ret, Some c, mcpb)) d =
                 Ret ((0, Some (with_data_ ctx p'), b'), d')) by (by dstep E).
    dstep E'. destruct (IH (with_data_ ctx p') p' (msg ++ m) d') as (ctx2 & p2 & d2 & E2 & C2 & D2 & P2 & I2);
      [done|done|done|rewrite Zlen_app; lia|by destruct Hc as [-> _]|].
    exists ctx2, p2, d2. rewrite app_assoc. split; [done|]. split; [by transitivity d'|done].
Qed.

Lemma digest_session_spec t a bufs ms d :
  alloc_ok al -> (forall n, 0 <= n <= 40 -> exists m, al KMALLOC n = Some (a, m)) ->
  alloc_mcpb al (alg_block alg) = Some t ->
  pieces (alg_block alg) bufs ms -> Zlen (concat ms) < W32 -> sem d = 1 ->
  exists d', digest_session hw al k bufs d =
    Ret ((0, md_hash c (alg_block alg) (alg_init_hash alg)
               (concat ms ++ md_pad (alg_block alg) (Zlen (concat ms))), alg_size alg), d') /\ calm d d'.
Proof.
  destruct stream_ops as (Hi & _ & Hf & Hz). intros Hal Hkm Ht Hms Hsz Hs. unfold digest_session.
  assert (exists p, al KMALLOC (match k with sha1_md | Mars_sha1_md => 40 | _ => 32 end) = Some (a, p)) as [m0 Hm0].
  { destruct Hk as [[-> _]|[-> _]]; apply Hkm; lia. }
  set (ctx0 := mkCtx (Some k) (Some (mkMD None 0 (a + 16) [])) None).
  destruct (md_init_spec al alg c ctx0 (mkMD None 0 (a + 16) []) t d eq_refl Hal Ht) as (p & Ep & Hp).
  assert (E0 : MCP_DigestInit hw al MCP_MD_CTX_init k d = Ret ((0, with_data_ ctx0 p), d)).
  { unfold MCP_DigestInit. by rewrite Hi, Hm0. }
  dstep E0.
  destruct (digest_updates_spec bufs ms (with_data_ ctx0 p) p [] d)
    as (ctx1 & p1 & d1 & E1 & C1 & D1 & P1 & I1); [done|done|done|done|done|done|].
  cbn [app] in I1. dstep E1.
  destruct (md_final_spec hw alg c ctx1 p1 (concat ms) d1 P1 I1 Hsz) as (p2 & d2 & E2 & C2 & _);
    [by destruct C1 as [-> _]|].
  exists d2. split; [|by transitivity d1].
  unfold MCP_DigestFinal, mbind, D_bind. cbn [derefD]. unfold mret, D_ret. rewrite D1. cbn [derefD].
  unfold mret, D_ret. by rewrite Hf, Hz, E2.
Qed.
End session.

(** ** Claims *)

(** C2: streaming SHA-1.  However a message of less than 2^32 bytes is cut into
    updates (buffers with at least 64 bytes of head room), a session through
    [mcp_dgst.c] returns 0 and the engine's hash of the message followed by the
    standard padding, 20 bytes, and leaves the semaphore and the DMA mappings as
    they were. *)
Theorem sha1_streaming hw al c t a bufs ms d :
  sha1_engine hw c -> alloc_ok al ->
  (forall n, 0 <= n <= 40 -> exists m, al KMALLOC n = Some (a, m)) -> alloc_mcpb al 64 = Some t ->
  pieces 64 bufs ms -> Zlen (concat ms) < W32 -> sem d = 1 ->
  exists d', digest_session hw al sha1_md bufs d =
    Ret ((0, md_hash c 64 SHA1InitHash (concat ms ++ md_pad 64 (Zlen (concat ms))), 20), d') /\ calm d d'.
Proof.
  intros He. pose proof (sha1_HashEngine hw c He).
  apply (digest_session_spec hw al sha1_md sha1_alg c). by left.
Qed.

(** streaming AES_H, the same with blocks and digests of 16 bytes. *)
Theorem aes_h_streaming hw al c t a bufs ms d :
  aes_h_engine hw c -> alloc_ok al ->
  (forall n, 0 <= n <= 40 -> exists m, al KMALLOC n = Some (a, m)) -> alloc_mcpb al 16 = Some t ->
  pieces 16 bufs ms -> Zlen (concat ms) < W32 -> sem d = 1 ->
  exists d', digest_session hw al aes_h_md bufs d =
    Ret ((0, md_hash c 16 AES_H_InitHash (concat ms ++ md_pad 16 (Zlen (concat ms))), 16), d') /\ calm d d'.
Proof.
  intros He. pose proof (aes_h_HashEngine hw c He).
  apply (digest_session_spec hw al aes_h_md aes_h_alg c). by right.
Qed.

(** A compression function and an engine built on it. *)
Fixpoint demo_compress (h b : list Z) : list Z :=
  match h, b with
  | x :: h', y :: b' => (31 * x + y) mod 256 :: demo_compress h' b'
  | _, _ => []
  end.

Definition demo_hw : mcp_hw := mkHw 8192 (fun a => a)
  (fun d inp => if Z.land (flags d) 31 =? MCP_ALGO_SHA_1
                then md_hash demo_compress 64 (words_bytes (firstn 5 (key d))) inp
                else md_hash demo_compress 16 (words_bytes (iv d)) inp)
  (fun _ _ => (0, MCP_RING_EMPTY)).

Definition demo_dev : dev := mkDev 0 0 0 0 0 0 0 0 1 [].

Lemma demo_compress_ok n m h b : n <= m -> byte_list n h -> byte_list m b -> byte_list n (demo_compress h b).
Proof.
  unfold byte_list, Zlen. revert n m b. induction h as [|x h IH]; intros n m b Hnm [Hn Hh] [Hm Hb].
  - done.
  - destruct b as [|y b]; [simpl in *; lia|]. inversion Hh; subst. inversion Hb; subst.
    destruct (IH (Z.of_nat (length h)) (Z.of_nat (length b)) b) as [H1' H2']; [simpl in *; lia|done|done|].
    cbn [demo_compress length]. split; [lia|]. constructor; [|done].
    apply Z.mod_pos_bound. lia.
Qed.

Lemma demo_sha1 : sha1_engine demo_hw demo_compress.
Proof.
  split; [intros h b; by apply demo_compress_ok|]. intros d inp Hf _. cbn [hw_exec demo_hw]. by rewrite Hf.
Qed.

Lemma demo_aes_h : aes_h_engine demo_hw demo_compress.
Proof.
  split; [intros h b; by apply demo_compress_ok|]. intros d inp Hf _. cbn [hw_exec demo_hw]. by rewrite Hf.
Qed.

Lemma demo_kmalloc n : 0 <= n <= 40 -> exists m, demo_alloc KMALLOC n = Some (4096, m).
Proof. intros Hn. unfold demo_alloc. repeat zcase. by eexists. Qed.

(** The buffer for 64 bytes, and a buffer with the bytes [m] in it. *)
Definition demo_tmp : mcp_buff := mkBuff 4096 4116 4244 4244 4436 0 (replicate 320 0).
Definition demo_piece (m : list Z) : mcp_buff :=
  mkBuff 9000 9020 9148 (9148 + Zlen m) 9400 (Zlen m) (replicate 128 0 ++ m ++ replicate (252 - length m) 0).

Lemma demo_piece_view m : (length m <= 252)%nat -> Forall is_byte m ->
  view (demo_piece m) 128 m (252 - Zlen m).
Proof.
  intros Hl Hm. unfold demo_piece. split; [|split; [|split]]; cbn [self head data tail end_ len mem]; try lia.
  - unfold Zlen. split; cbn [self head data tail end_ len mem]; unfold W32; try lia.
    + unfold Zlen. rewrite !length_app, !length_replicate. lia.
    + assert (forall k, Forall is_byte (replicate k 0)) as Hz
        by (intros; apply Forall_replicate; unfold is_byte; lia).
      rewrite !Forall_app. auto.
  - unfold contents. cbn [head data len mem]. change (Z.to_nat (9148 - 9020)) with 128%nat.
    rewrite drop_app_length' by (by rewrite length_replicate).
    unfold Zlen. rewrite Nat2Z.id. apply take_app_length.
Qed.

Definition demo_ms : list (list Z) := [replicate 70 7; [1; 2; 3]; replicate 60 9].

Lemma demo_pieces n : n <= 128 -> pieces n (map demo_piece demo_ms) demo_ms.
Proof.
  intros Hn. unfold pieces, demo_ms. cbn [map]. repeat constructor.
  all: eexists _, _; split; [apply demo_piece_view|exact Hn]; [simpl; lia|].
  - apply Forall_replicate. unfold is_byte. lia.
  - repeat constructor; unfold is_byte; lia.
  - apply Forall_replicate. unfold is_byte. lia.
Qed.

Lemma sha1_streaming_witness :
  exists d', digest_session demo_hw demo_alloc sha1_md (map demo_piece demo_ms) demo_dev =
    Ret ((0, md_hash demo_compress 64 SHA1InitHash (concat demo_ms ++ md_pad 64 (Zlen (concat demo_ms))), 20), d')
    /\ calm demo_dev d'.
Proof.
  apply (sha1_streaming demo_hw demo_alloc demo_compress demo_tmp 4096).
  - apply demo_sha1.
  - apply demo_alloc_ok.
  - apply demo_kmalloc.
  - reflexivity.
  - apply demo_pieces. lia.
  - vm_compute. reflexivity.
  - reflexivity.
Defined.

Lemma aes_h_streaming_witness :
  exists d', digest_session demo_hw demo_alloc aes_h_md (map demo_piece demo_ms) demo_dev =
    Ret ((0, md_hash demo_compress 16 AES_H_InitHash (concat demo_ms ++ md_pad 16 (Zlen (concat demo_ms))), 16), d')
    /\ calm demo_dev d'.
Proof.
  apply (aes_h_streaming demo_hw demo_alloc demo_compress demo_buff 4096).
  - apply demo_aes_h.
  - apply demo_alloc_ok.
  - apply demo_kmalloc.
  - reflexivity.
  - apply demo_pieces. lia.
  - vm_compute. reflexivity.
  - reflexivity.
Defined.

Lemma SHA1_PADDING_spec room L : 0 <= L < W32 ->
  (L + Zlen (md_pad 64 L)) mod 64 = 0 /\ 9 <= Zlen (md_pad 64 L) <= 72 /\
  MCP_SHA1_PADDING room L =
    if room <? Zlen (md_pad 64 L) then (-1, None) else (Zlen (md_pad 64 L), Some (md_pad 64 L)).
Proof.
  intros HL. destruct (md_pad_ok 64 L ltac:(lia)) as [_ Hlen].
  pose proof (Z.mod_pos_bound (64 - 9 - L) 64 ltac:(lia)).
  split; [apply md_pad_aligned; lia|]. split; [lia|].
  unfold MCP_SHA1_PADDING. rewrite land_63.
  destruct (pad_bytes_md 64 L (L mod 64)) as [Hp Hs]; [lia|done|done|].
  rewrite Hp, Hs. done.
Qed.

(** the padding functions.  For every length below 2^32 and enough room,
    [MCP_SHA1_PADDING] writes 0x80, zeros and the bit length, returns the number
    of bytes written, and message and padding together are a whole number of
    64-byte blocks; with too little room it writes nothing and returns -1. *)
Theorem SHA1_PADDING_correct room L :
  0 <= L < W32 ->
  let pad := md_pad 64 L in
  (L + Zlen pad) mod 64 = 0 /\ 9 <= Zlen pad <= 72 /\
  MCP_SHA1_PADDING room L = if room <? Zlen pad then (-1, None) else (Zlen pad, Some pad).
Proof. apply SHA1_PADDING_spec. Qed.

Lemma SHA1_PADDING_correct_witness :
  (119 + Zlen (md_pad 64 119)) mod 64 = 0 /\ 9 <= Zlen (md_pad 64 119) <= 72 /\
  MCP_SHA1_PADDING 72 119 =
    if 72 <? Zlen (md_pad 64 119) then (-1, None) else (Zlen (md_pad 64 119), Some (md_pad 64 119)).
Proof. apply (SHA1_PADDING_correct 72 119). unfold W32. lia. Defined.

(** ** Hashing a block of memory in pieces *)

(** [d] is a SHA-1 descriptor whose initial value is [h]. *)
Definition sha1_desc (d : mcp_desc) (h : list Z) : Prop :=
  exists ws, d = with_key MCP_SHA1_HASH_INIT (ws ++ [0]) /\ length ws = 5%nat /\ words_bytes ws = h.

Lemma sha1_update_desc d h h' : sha1_desc d h -> byte_list 20 h' ->
  exists d', MCP_SHA1_IV_UPDATE d h' = Ret d' /\ sha1_desc d' h'.
Proof.
  intros (ws & -> & Hl & _) Hh. destruct (sha1_iv_update h' Hh) as (ws' & E & Hws).
  exists (with_key MCP_SHA1_HASH_INIT (ws' ++ [0])). split; [|by exists ws'].
  do 5 (destruct ws as [|? ws]; [discriminate Hl|]). destruct ws; [|discriminate Hl]. exact E.
Qed.

Lemma sha1_hashing_spec hw c d h p inp q s : sha1_engine hw c -> sha1_desc d h -> sem s = 1 ->
  Zlen inp mod 64 = 0 ->
  exists s', MCP_SHA1_Hashing hw d p inp q s =
    Ret ((xfer_ret hw [run_desc hw d p q inp], Some (md_hash c 64 h inp)), s') /\ quiet s s'.
Proof.
  intros [_ He] (ws & -> & Hws & Hwb) Hs Hm. unfold MCP_SHA1_Hashing. rewrite land_63, Hm. cbn [Z.eqb negb].
  set (desc := with_key MCP_SHA1_HASH_INIT (ws ++ [0])).
  destruct (mapped_command_spec hw desc p (Zlen inp) q SHA1_DIGEST_SIZE inp s Hs) as (s' & Em & Hq).
  dstep Em. exists s'. split; [|done]. rewrite He by done. cbn [run_desc with_data key desc with_key].
  rewrite <- Hws, firstn_app, firstn_all, Nat.sub_diag, firstn_O, app_nil_r, Hwb. done.
Qed.

Lemma SHA1_DataHash_loop_spec hw c fuel d p data q h0 h bsz s :
  sha1_engine hw c -> (forall ds, xfer_ret hw ds = 0) -> 0 < bsz -> bsz mod 64 = 0 ->
  sha1_desc d h -> byte_list 20 h -> (data = [] -> h0 = h) -> Forall is_byte data -> Zlen data mod 64 = 0 ->
  sem s = 1 -> (length data <= fuel)%nat ->
  exists s', SHA1_DataHash_loop fuel hw d p data q h0 bsz 0 s = Ret ((0, md_hash c 64 h data), s') /\ calm s s'.
Proof.
  intros He Hx Hb0 Hbm. revert d p data h0 h s.
  induction fuel as [|fuel IH]; intros d p data h0 h s Hd Hh H0 Hdb Hdm Hs Hf.
  - destruct data; [|simpl in Hf; lia]. rewrite H0 by done. exists s. done.
  - cbn [SHA1_DataHash_loop]. destruct (Z.eqb_spec (Zlen data) 0) as [E|E].
    { assert (data = []) as -> by (unfold Zlen in E; destruct data; [done|simpl in E; lia]).
      rewrite H0 by done. exists s. done. }
    cbn [Z.eqb negb orb]. set (n := if Zlen data >? bsz then bsz else Zlen data).
    pose proof (Zlen_nonneg data).
    assert (Hn : 0 < n <= Zlen data) by (unfold n; rewrite Z.gtb_ltb; destruct (Z.ltb_spec bsz (Zlen data)); lia).
    assert (Hnm : n mod 64 = 0) by (unfold n; by destruct (_ >? _)).
    assert (Hfn : Zlen (firstn (Z.to_nat n) data) = n) by (unfold Zlen in *; rewrite length_firstn; lia).
    assert (Hsn : Zlen (skipn (Z.to_nat n) data) = Zlen data - n) by (unfold Zlen in *; rewrite length_skipn; lia).
    destruct (sha1_hashing_spec hw c d h p (firstn (Z.to_nat n) data) q s He Hd Hs) as (s1 & E1 & Q1);
      [by rewrite Hfn|]. dstep E1. rewrite Hx. cbn [default].
    assert (Hh' : byte_list 20 (md_hash c 64 h (firstn (Z.to_nat n) data))).
    { pose proof (sha1_HashEngine hw c He). apply (hash_ok hw sha1_alg c); [done|by apply Forall_take]. }
    destruct (sha1_update_desc d h _ Hd Hh') as (d2 & E2 & Hd2). dstep E2.
    destruct (IH d2 (p + n) (skipn (Z.to_nat n) data) (md_hash c 64 h (firstn (Z.to_nat n) data))
                (md_hash c 64 h (firstn (Z.to_nat n) data)) s1 Hd2 Hh' ltac:(done)) as (s2 & E3 & C3).
    + by apply Forall_drop.
    + rewrite Hsn, Zminus_mod, Hdm, Hnm. done.
    + by rewrite (quiet_sem _ _ Q1).
    + unfold Zlen in *. rewrite length_skipn. lia.
    + exists s2. split; [|etransitivity; [by apply quiet_calm|done]].
      etransitivity; [exact E3|]. rewrite <- md_hash_app by (rewrite ?Hfn; done). by rewrite firstn_skipn.
Qed.

(** [MCP_SHA1_DataHash] hashes memory of any length that is a multiple of
    64 bytes, cut into pieces of any block size that is a positive multiple of
    64, to the same value as one run of the engine; it starts from the standard
    value on the first block and from [hash] otherwise, and returns 0. *)
Theorem SHA1_DataHash_correct hw c fuel p data q hash bsz status s :
  sha1_engine hw c -> (forall ds, xfer_ret hw ds = 0) -> 0 < bsz -> bsz mod 64 = 0 ->
  Forall is_byte data -> 0 < Zlen data -> Zlen data mod 64 = 0 -> byte_list 20 hash ->
  Zlen data mod bsz = 0 \/ Z.land status LAST_BLOCK <> 0 ->
  sem s = 1 -> (length data <= fuel)%nat ->
  exists s', MCP_SHA1_DataHash fuel hw p data q hash bsz status s =
    Ret ((0, md_hash c 64 (if Z.land status FIRST_BLOCK =? 0 then hash else SHA1InitHash) data), s') /\ calm s s'.
Proof.
  intros He Hx Hb0 Hbm Hdb Hd0 Hdm Hh Hst Hs Hf. unfold MCP_SHA1_DataHash.
  rewrite !land_63, Hdm, Hbm. cbn [Z.eqb negb].
  assert (Hbad : (if Z.land status LAST_BLOCK =? 0
                  then if bsz =? 0 then Fault else Ret (negb (Zlen data mod bsz =? 0)) else Ret false) = Ret false).
  { destruct (Z.eqb_spec (Z.land status LAST_BLOCK) 0); [|done]. destruct (Z.eqb_spec bsz 0); [lia|].
    destruct Hst as [->|]; done. }
  dstep Hbad.
  assert (Hi : sha1_desc MCP_SHA1_HASH_INIT SHA1InitHash).
  { exists [0x67452301; 0xEFCDAB89; 0x98BADCFE; 0x10325476; 0xC3D2E1F0]. done. }
  assert (exists d, (if Z.land status FIRST_BLOCK =? 0 then MCP_SHA1_IV_UPDATE MCP_SHA1_HASH_INIT hash
                     else Ret MCP_SHA1_HASH_INIT) = Ret d /\
            sha1_desc d (if Z.land status FIRST_BLOCK =? 0 then hash else SHA1InitHash)) as (d & Ed & Hd).
  { destruct (Z.land status FIRST_BLOCK =? 0); [by eapply sha1_update_desc|by eexists]. }
  dstep Ed. eapply SHA1_DataHash_loop_spec; try done.
  - destruct (Z.land status FIRST_BLOCK =? 0); [done|]. split; [done|]. repeat constructor; unfold is_byte; lia.
  - intros ->. done.
Qed.

Lemma demo_bytes n x : is_byte x -> Forall is_byte (replicate n x).
Proof. intros. by apply Forall_replicate. Qed.

Lemma SHA1_DataHash_correct_witness :
  exists s', MCP_SHA1_DataHash 200 demo_hw 0 (replicate 192 5) 0 SHA1InitHash 128 136 demo_dev =
    Ret ((0, md_hash demo_compress 64 (if Z.land 136 FIRST_BLOCK =? 0 then SHA1InitHash else SHA1InitHash)
               (replicate 192 5)), s') /\ calm demo_dev s'.
Proof.
  apply (SHA1_DataHash_correct demo_hw demo_compress).
  - apply demo_sha1.
  - intros ds. reflexivity.
  - lia.
  - reflexivity.
  - apply demo_bytes. unfold is_byte. lia.
  - reflexivity.
  - reflexivity.
  - apply sha1_MdAlg.
  - right. discriminate.
  - reflexivity.
  - rewrite length_replicate. lia.
Defined.
