(* ===== verification/McpTheorems.v ===== *)
(** * Properties of the engine driver and limits of the digest code

    The command protocol of [mcp.c] for every behaviour of the engine, its
    time-out, the batches of the core ioctl, and the inputs on which the digest
    code does not do what it is meant to. *)
From stdpp Require Import base tactics list numbers option.
From Stdlib Require Import ZArith Lia.
From S2P Require Import Prelude Buff McpEngine McpDgst McpDgstProofs.

(** ** Commands *)

Lemma wait_loop_le n poll k : (wait_loop n poll k <= k + n)%nat.
Proof.
  revert k. induction n as [|n IH]; intros k; cbn [wait_loop]; [lia|].
  destruct (poll k) as [ctrl status]. destruct (_ || _); [lia|]. specialize (IH (S k)). lia.
Qed.

(** C39: the command protocol.  Whatever the engine answers, [mcp_do_command] on
    a non-empty list of descriptors returns after at most 4092 polls, has run
    every descriptor once in order, returns 0 or -1 according to the error bits
    of the status read last, and leaves the semaphore free, its own DMA mapping
    closed and the four ring registers clear. *)
Theorem mcp_do_command_protocol hw p ring d :
  sem d = 1 -> ring <> [] ->
  exists n d', (n <= 4092)%nat /\
    let status := snd (hw_poll hw (map fst ring) n) in
    mcp_do_command hw p ring d =
      Ret ((if Z.land status (Z.lnot MCP_RING_EMPTY) =? 0 then 0 else -1,
            map (fun di => hw_exec hw (fst di) (snd di)) ring), d') /\ quiet d d'.
Proof.
  intros Hs Hr. exists (wait_loop WaitTime (hw_poll hw (map fst ring)) 0).
  destruct (mcp_do_command_spec hw p ring d Hs Hr) as (d' & E & Hq).
  exists d'. split; [|by split]. apply (wait_loop_le WaitTime).
Qed.

Definition demo_ring : list (mcp_desc * list Z) := [(MCP_SHA1_HASH_INIT, replicate 64 1)].

Lemma mcp_do_command_protocol_witness :
  exists n d', (n <= 4092)%nat /\
    let status := snd (hw_poll demo_hw (map fst demo_ring) n) in
    mcp_do_command demo_hw 0 demo_ring demo_dev =
      Ret ((if Z.land status (Z.lnot MCP_RING_EMPTY) =? 0 then 0 else -1,
            map (fun di => hw_exec demo_hw (fst di) (snd di)) demo_ring), d') /\ quiet demo_dev d'.
Proof. apply (mcp_do_command_protocol demo_hw 0 demo_ring demo_dev); [reflexivity|discriminate]. Defined.

Lemma wait_loop_busy n poll k :
  (forall i, poll i = (MCP_GO, 0)) -> wait_loop n poll k = (k + n)%nat.
Proof.
  intros Hp. revert k. induction n as [|n IH]; intros k; cbn [wait_loop]; [lia|].
  rewrite Hp. change ((Z.land MCP_GO MCP_GO =? 0) || negb (0 =? 0)) with false. cbv iota. rewrite IH. lia.
Qed.

(** a time-out is reported as success.  When the engine never finishes
    (GO stays set and STATUS stays 0) the command returns 0. *)
Theorem mcp_timeout_is_success hw p ring d :
  sem d = 1 -> ring <> [] -> (forall i, hw_poll hw (map fst ring) i = (MCP_GO, 0)) ->
  wait_loop WaitTime (hw_poll hw (map fst ring)) 0 = 4092%nat /\
  exists out d', mcp_do_command hw p ring d = Ret ((0, out), d').
Proof.
  intros Hs Hr Hp. split.
  - rewrite wait_loop_busy by done. reflexivity.
  - destruct (mcp_do_command_spec hw p ring d Hs Hr) as (d' & E & _).
    unfold xfer_ret in E. rewrite Hp in E. cbn [snd Z.land Z.eqb] in E. by eexists _, d'.
Qed.

Definition hung_hw : mcp_hw := mkHw 0 (fun a => a) (fun _ _ => []) (fun _ _ => (MCP_GO, 0)).

Lemma mcp_timeout_is_success_witness :
  wait_loop WaitTime (hw_poll hung_hw (map fst demo_ring)) 0 = 4092%nat /\
  exists out d', mcp_do_command hung_hw 0 demo_ring demo_dev = Ret ((0, out), d').
Proof.
  apply (mcp_timeout_is_success hung_hw 0 demo_ring demo_dev); [reflexivity|discriminate|].
  intros i. reflexivity.
Defined.

(** ** The core ioctl *)

(** An engine that reports the descriptor it runs. *)
Definition echo_hw : mcp_hw :=
  mkHw 0 (fun a => a) (fun d _ => [length_ d]) (fun _ _ => (0, MCP_RING_EMPTY)).

(** User memory in which the descriptor at address [a] says so. *)
Definition user_echo (a : Z) : option (mcp_desc * list Z) :=
  Some (mkDesc 0 [] [] 0 0 a, []).

(** batches.  A request of at most ten descriptors at [p] runs the
    descriptors at [p], [p + 56], ...; of eleven descriptors the last one is
    taken from [p + 56 * 560] instead of [p + 560]. *)
Theorem core_ioctl_batches :
  (exists d', do_command_loop user_echo 1 echo_hw 1000 10 [] demo_dev =
     Ret ((0, map (fun i => [1000 + 56 * Z.of_nat i]) (seq 0 10)), d')) /\
  (exists d', do_command_loop user_echo 2 echo_hw 1000 11 [] demo_dev =
     Ret ((0, map (fun i => [1000 + 56 * Z.of_nat i]) (seq 0 10) ++ [[1000 + 56 * 560]]), d')).
Proof. split; eexists; vm_compute; reflexivity. Qed.

(** ** Inputs the code does not reject *)

(** [MCP_SHA1_DataHash] does not reject a block size of zero.  On the last
    block of a message it then hashes nothing for ever: no number of iterations
    is enough. *)
Theorem SHA1_DataHash_zero_block hw c fuel p data q hash status s :
  sha1_engine hw c -> (forall ds, xfer_ret hw ds = 0) -> byte_list 20 hash ->
  0 < Zlen data -> Zlen data mod 64 = 0 ->
  Z.land status LAST_BLOCK <> 0 -> Z.land status FIRST_BLOCK = 0 -> sem s = 1 ->
  MCP_SHA1_DataHash fuel hw p data q hash 0 status s = OutOfFuel.
Proof.
  intros He Hx Hh Hd0 Hdm HL HF Hs. unfold MCP_SHA1_DataHash. rewrite land_63, Hdm. cbn [Z.eqb negb].
  change (Z.land 0 SHA1_ALIGNMENT_CHECK =? 0) with true. cbn [negb].
  destruct (Z.eqb_spec (Z.land status LAST_BLOCK) 0); [done|].
  rewrite (bindD_Ret _ _ s false s) by reflexivity. rewrite HF. cbn [Z.eqb].
  assert (Hi : sha1_desc MCP_SHA1_HASH_INIT SHA1InitHash).
  { exists [0x67452301; 0xEFCDAB89; 0x98BADCFE; 0x10325476; 0xC3D2E1F0]. done. }
  destruct (sha1_update_desc _ _ hash Hi Hh) as (d & Ed & Hd). dstep Ed.
  clear Ed Hi. revert d p s Hd Hs. induction fuel as [|fuel IH]; intros d p s Hd Hs; cbn [SHA1_DataHash_loop].
  { destruct (Z.eqb_spec (Zlen data) 0); [lia|]. done. }
  destruct (Z.eqb_spec (Zlen data) 0); [lia|]. cbn [Z.eqb negb orb]. rewrite Z.gtb_ltb.
  destruct (Z.ltb_spec 0 (Zlen data)); [|lia]. change (Z.to_nat 0) with 0%nat. cbn [firstn skipn].
  destruct (sha1_hashing_spec hw c d hash p [] q s He Hd Hs eq_refl) as (s1 & E1 & Q1). dstep E1. rewrite Hx.
  destruct (sha1_update_desc d hash hash Hd Hh) as (d2 & E2 & Hd2).
  change (default hash (Some (md_hash c 64 hash []))) with hash. dstep E2.
  rewrite Z.add_0_r. apply IH; [done|by rewrite (quiet_sem _ _ Q1)].
Qed.

Lemma SHA1_DataHash_zero_block_witness :
  MCP_SHA1_DataHash 1000 demo_hw 0 (replicate 64 5) 0 SHA1InitHash 0 8 demo_dev = OutOfFuel.
Proof.
  apply (SHA1_DataHash_zero_block demo_hw demo_compress).
  - apply demo_sha1.
  - intros ds. reflexivity.
  - apply sha1_MdAlg.
  - reflexivity.
  - reflexivity.
  - discriminate.
  - reflexivity.
  - reflexivity.
Defined.

(** finishing a digest that was never initialised.  [MCP_DigestUpdate]
    tests the context and returns -1; [MCP_DigestFinal] and [MCP_DigestPeek]
    dereference the missing digest before they test it. *)
Theorem Digest_uninitialised hw al b d :
  MCP_DigestUpdate hw al (Some MCP_MD_CTX_init) b d = Ret ((-1, Some MCP_MD_CTX_init, b), d) /\
  MCP_DigestFinal hw al (Some MCP_MD_CTX_init) d = Fault /\
  MCP_DigestPeek hw al (Some MCP_MD_CTX_init) d = Fault.
Proof. done. Qed.

(** the Mars variant of SHA-1 on a buffer without tail room.  When the
    padding does not fit, its return value -1 is used as a length: the data is
    shortened by a byte, the engine call rejects the length, and the update
    returns 0 with the hash value unchanged. *)
Theorem MARS_SHA1_no_tailroom hw ctx p b h l t d :
  ctx_data ctx = Some p -> byte_count p = 0 -> view b h l t -> t < 9 ->
  0 < Zlen l -> (Zlen l - 1) mod 64 <> 0 ->
  exists ctx' p' b', MARS_SHA1_DigestUpdate hw ctx b d = Ret ((0, ctx', b'), d) /\
    ctx_data ctx' = Some p' /\ hash p' = hash p /\ len b' = Zlen l - 1.
Proof.
  intros Hp Hc Hv Ht Hl Hm. unfold MARS_SHA1_DigestUpdate. rewrite Hp. cbn [derefD].
  rewrite (bindD_Ret _ _ d p d) by reflexivity. rewrite Hc. cbn [Z.eqb].
  rewrite (bindD_Ret _ _ d b d) by reflexivity.
  rewrite (mcpb_tailroom_view _ _ _ _ Hv). destruct (view_len _ _ _ _ Hv) as (Hbl & Hh0 & Ht0).
  rewrite (u32_id t) by (unfold W32; lia). rewrite Hbl.
  pose proof Hv as (Hvb & Hdh & Hcl & Het). destruct Hvb.
  destruct (SHA1_PADDING_spec t (Zlen l)) as (_ & Hpl & ->); [lia|].
  destruct (Z.ltb_spec t (Zlen (md_pad 64 (Zlen l)))); [|lia].
  rewrite (bindD_Ret _ _ d b d) by reflexivity. unfold mcpb_put, set_ptrs.
  cbn [data tail len mem head self end_].
  assert (H1 : u32 (len b + -1) = Zlen l - 1) by (rewrite u32_id by lia; lia). rewrite H1.
  assert (Hload : bload (mkBuff (self b) (head b) (data b) (u32 (tail b + -1)) (end_ b) (Zlen l - 1) (mem b))
                    (data b) (Zlen l - 1) = Ret (firstn (Z.to_nat (Zlen l - 1)) l)).
  { unfold bload. cbn [head mem]. rewrite load_ok by lia. f_equal. rewrite <- Hbl, <- Hcl.
    unfold contents. rewrite firstn_firstn. f_equal. lia. }
  dstep Hload. unfold MCP_SHA1_Hashing. rewrite land_63.
  replace (Zlen (firstn (Z.to_nat (Zlen l - 1)) l)) with (Zlen l - 1)
    by (unfold Zlen in *; rewrite length_firstn; lia).
  destruct (Z.eqb_spec ((Zlen l - 1) mod 64) 0); [done|].
  rewrite (bindD_Ret _ _ d (-1, None) d) by reflexivity.
  by eexists _, _, _.
Qed.

Lemma MARS_SHA1_no_tailroom_witness :
  exists ctx' p' b', MARS_SHA1_DigestUpdate demo_hw (mkCtx (Some Mars_sha1_md) (Some (mkMD (Some demo_tmp) 0 0 SHA1InitHash)) None)
      (demo_piece (replicate 252 3)) demo_dev = Ret ((0, ctx', b'), demo_dev) /\
    ctx_data ctx' = Some p' /\ hash p' = SHA1InitHash /\ len b' = Zlen (replicate 252 3) - 1.
Proof.
  apply (MARS_SHA1_no_tailroom demo_hw _ (mkMD (Some demo_tmp) 0 0 SHA1InitHash) _ 128 (replicate 252 3) 0).
  - reflexivity.
  - reflexivity.
  - apply (demo_piece_view (replicate 252 3)); [rewrite length_replicate; lia|].
    apply demo_bytes. unfold is_byte. lia.
  - lia.
  - reflexivity.
  - discriminate.
Defined.
