(* ===== verification/McpCipher.v ===== *)
(** * Block ciphers: [drivers/mcp/mcp_cipher.c], [aes.c], [des.c], [tdes.c]

    A cipher context encrypts or decrypts a stream that arrives in pieces of
    any size: whole blocks go to the engine, an incomplete block is kept in the
    context.  [aes.c], [des.c] and [tdes.c] are the same code over different
    sizes and engine calls; the model has it once, over the record [cipher_alg].

    Input and output are in one memory, a list of bytes addressed from 0, so
    that overlapping buffers behave as in C. *)
From stdpp Require Import base tactics list numbers option strings.
From Stdlib Require Import ZArith Lia.
From S2P Require Import Prelude Buff McpEngine McpDgst.

Definition MAX_CIPHER_BLOCK_SIZE : Z := 32.
Definition MCP_CIPH_ECB_MODE : Z := 1.
Definition MCP_CIPH_CBC_MODE : Z := 2.

(** [AES_CTX], [DES_CTX], [TDES_CTX]: the key pointer is NULL or points to
    [buff[0]]; the iv pointer always points to [buff[1]]. *)
Record ciph_data := mkCiph {
  cd_mode : Z;
  cd_enc : Z;
  cd_key : option (list Z);
  cd_iv : list Z
}.

(** What the three files differ in: block size, bytes of key and iv copied, and
    the engine calls. *)
Record cipher_alg := mkCipherAlg {
  ca_block : Z;
  ca_key : Z;
  ca_buff : Z;
  ca_encrypt : mcp_hw -> Z -> option (list Z) -> option (list Z) -> Z -> list Z -> Z -> D (Z * list Z);
  ca_decrypt : mcp_hw -> Z -> option (list Z) -> option (list Z) -> Z -> list Z -> Z -> D (Z * list Z)
}.

Definition aes_alg : cipher_alg := mkCipherAlg 16 16 16 MCP_AES_Encryption MCP_AES_Decryption.

Definition with_key_ptr {A} (f : list Z -> D A) (k : option (list Z)) : D A :=
  match k with
  | Some k => f k
  | None => fun _ => Fault
  end.

(** [Key[0]] is read without a test for NULL. *)
Definition des_alg : cipher_alg := mkCipherAlg 8 7 8
  (fun hw m k v p i o => with_key_ptr (fun k => MCP_DES_Encryption hw m k v p i o) k)
  (fun hw m k v p i o => with_key_ptr (fun k => MCP_DES_Decryption hw m k v p i o) k).

Definition tdes_alg : cipher_alg := mkCipherAlg 8 21 21
  (fun hw m k v p i o => with_key_ptr (fun k => MCP_TDES_Encryption hw m k v p i o) k)
  (fun hw m k v p i o => with_key_ptr (fun k => MCP_TDES_Decryption hw m k v p i o) k).

(** The six constant [MCP_CIPHER] structures. *)
Inductive cipher_kind := aes_128_ecb | aes_128_cbc | des_ecb | des_cbc | tdes_ecb | tdes_cbc.

Definition alg_of (k : cipher_kind) : cipher_alg :=
  match k with
  | aes_128_ecb | aes_128_cbc => aes_alg
  | des_ecb | des_cbc => des_alg
  | tdes_ecb | tdes_cbc => tdes_alg
  end.

Record MCP_CIPHER_CTX := mkCipherCtx {
  cipher : option cipher_kind;
  cipher_data : option ciph_data;
  buff_len : Z;
  buff : list Z
}.

Definition MCP_CIPHER_CTX_init : MCP_CIPHER_CTX :=
  mkCipherCtx None None 0 (replicate (Z.to_nat MAX_CIPHER_BLOCK_SIZE) 0).

(** ** [AES_Init], [DES_Init], [TDES_Init] *)

(** The return value and the context data.  [memcpy] of the key and the iv
    reads [ca_key] and one block of bytes. *)
Definition ciph_init (alg : cipher_alg) (key iv : option (list Z)) (mode enc : Z) : res (Z * ciph_data) :=
  let zero := replicate (Z.to_nat (ca_buff alg)) 0 in
  if (mode =? MCP_CIPH_ECB_MODE) || (mode =? MCP_CIPH_CBC_MODE) then
    let m := if mode =? MCP_CIPH_ECB_MODE then MCP_BCM_ECB else MCP_BCM_CBC in
    k ← (match key with
         | Some k => bs ← load k 0 (ca_key alg); b ← store zero 0 bs; Ret (Some b)
         | None => Ret None
         end);
    v ← (match iv with
         | Some v => bs ← load v 0 (ca_block alg); store zero 0 bs
         | None => Ret zero
         end);
    Ret (0, mkCiph m (if enc =? 0 then 0 else 1) k v)
  else Ret (-1, mkCiph 0 0 None zero).

Definition AES_Init := ciph_init aes_alg.
Definition DES_Init := ciph_init des_alg.
Definition TDES_Init := ciph_init tdes_alg.

(** The [init] functions of the six ciphers: ECB ignores the iv. *)
Definition AES_128_ECB_Init (key iv : option (list Z)) (enc : Z) := AES_Init key None MCP_CIPH_ECB_MODE enc.
Definition AES_128_CBC_Init (key iv : option (list Z)) (enc : Z) := AES_Init key iv MCP_CIPH_CBC_MODE enc.
Definition DES_ECB_Init (key iv : option (list Z)) (enc : Z) := DES_Init key None MCP_CIPH_ECB_MODE enc.
Definition DES_CBC_Init (key iv : option (list Z)) (enc : Z) := DES_Init key iv MCP_CIPH_CBC_MODE enc.
Definition TDES_ECB_Init (key iv : option (list Z)) (enc : Z) := TDES_Init key None MCP_CIPH_ECB_MODE enc.
Definition TDES_CBC_Init (key iv : option (list Z)) (enc : Z) := TDES_Init key iv MCP_CIPH_CBC_MODE enc.

Definition cipher_init (k : cipher_kind) (key iv : option (list Z)) (enc : Z) : res (Z * ciph_data) :=
  match k with
  | aes_128_ecb => AES_128_ECB_Init key iv enc
  | aes_128_cbc => AES_128_CBC_Init key iv enc
  | des_ecb => DES_ECB_Init key iv enc
  | des_cbc => DES_CBC_Init key iv enc
  | tdes_ecb => TDES_ECB_Init key iv enc
  | tdes_cbc => TDES_CBC_Init key iv enc
  end.

(** ** [AES_DoCipher], [DES_DoCipher], [TDES_DoCipher]

    [inp] is the [len] bytes at [p_in]: all of them are read before the engine
    writes.  The iv is saved after an encryption and before a decryption. *)
Definition DoCipher (hw : mcp_hw) (alg : cipher_alg) (p : ciph_data) (p_in : Z) (inp : list Z)
    (m : list Z) (out : Z) : D (Z * ciph_data * list Z) :=
  let bs := ca_block alg in
  let len := align_down (Zlen inp) (bs - 1) in
  if len =? 0 then mret (len, p, m)
  else
    let inp := firstn (Z.to_nat len) inp in
    if negb (cd_enc p =? 0) then
      '(_, o) ← ca_encrypt alg hw (cd_mode p) (cd_key p) (Some (cd_iv p)) p_in inp out;
      m ← liftD (store m out o);
      iv ← liftD (if cd_mode p =? MCP_BCM_CBC
                  then last ← load m (out + len - bs) bs; store (cd_iv p) 0 last
                  else Ret (cd_iv p));
      mret (len, mkCiph (cd_mode p) (cd_enc p) (cd_key p) iv, m)
    else
      iv0 ← liftD (load (cd_iv p) 0 bs);
      iv ← liftD (if cd_mode p =? MCP_BCM_CBC
                  then last ← load inp (len - bs) bs; store (cd_iv p) 0 last
                  else Ret (cd_iv p));
      '(_, o) ← ca_decrypt alg hw (cd_mode p) (cd_key p) (Some iv0) p_in inp out;
      m ← liftD (store m out o);
      mret (len, mkCiph (cd_mode p) (cd_enc p) (cd_key p) iv, m).

Definition AES_DoCipher hw := DoCipher hw aes_alg.
Definition DES_DoCipher hw := DoCipher hw des_alg.
Definition TDES_DoCipher hw := DoCipher hw tdes_alg.

(** ** [mcp_cipher.c] *)

(** [kmalloc] gave the context data ([true]) or NULL, which [init] writes to. *)
Definition MCP_CipherInit (ctx : MCP_CIPHER_CTX) (type : cipher_kind) (key iv : option (list Z))
    (enc : Z) (kmalloc_ok : bool) : res (Z * MCP_CIPHER_CTX) :=
  if kmalloc_ok then
    '(ret, p) ← cipher_init type key iv enc;
    Ret (ret, mkCipherCtx (Some type) (Some p) 0 (buff ctx))
  else Fault.

(** [do_cipher] returns a length, which is not negative for requests below
    2 GB; the two returns on a negative value are left out.

    [None]: return at once with the value; [Some]: go on with the remaining
    input, the output pointer and [outl]. *)
Definition update_buffered (hw : mcp_hw) (alg : cipher_alg) (ctx : MCP_CIPHER_CTX) (p : ciph_data)
    (m : list Z) (inp len out : Z) :
    D (option (Z * Z * Z * Z) * Z * MCP_CIPHER_CTX * ciph_data * list Z) :=
  if buff_len ctx =? 0 then mret (Some (inp, len, out, 0), 0, ctx, p, m)
  else if buff_len ctx + len <? ca_block alg then
    bs ← liftD (load m inp len);
    b ← liftD (store (buff ctx) (buff_len ctx) bs);
    mret (None, 0, mkCipherCtx (cipher ctx) (cipher_data ctx) (u8 (buff_len ctx + len)) b, p, m)
  else
    let n := ca_block alg - buff_len ctx in
    bs ← liftD (load m inp n);
    b ← liftD (store (buff ctx) (buff_len ctx) bs);
    blk ← liftD (load b 0 (ca_block alg));
    '(ret, p, m) ← DoCipher hw alg p 0 blk m out;
    mret (Some (inp + n, len - n, out + ret, ret), 0, mkCipherCtx (cipher ctx) (cipher_data ctx) 0 b, p, m).

(** [if (len) { ... } return outl;] *)
Definition update_rest (hw : mcp_hw) (alg : cipher_alg) (ctx : MCP_CIPHER_CTX) (p : ciph_data)
    (m : list Z) (inp len out outl : Z) : D (Z * MCP_CIPHER_CTX * list Z) :=
  if len =? 0 then mret (outl, mkCipherCtx (cipher ctx) (Some p) (buff_len ctx) (buff ctx), m)
  else
    src ← liftD (load m inp len);
    '(ret, p, m) ← DoCipher hw alg p inp src m out;
    let inp := inp + ret in
    let len := len - ret in
    if len =? 0 then
      mret (outl + ret, mkCipherCtx (cipher ctx) (Some p) (buff_len ctx) (buff ctx), m)
    else
      bs ← liftD (load m inp len);
      b ← liftD (store (buff ctx) 0 bs);
      mret (outl + ret, mkCipherCtx (cipher ctx) (Some p) (u8 len) b, m).

Definition MCP_CipherUpdate (hw : mcp_hw) (ctx : MCP_CIPHER_CTX) (m : list Z) (inp len out : Z) :
    D (Z * MCP_CIPHER_CTX * list Z) :=
  k ← derefD (cipher ctx);
  p ← derefD (cipher_data ctx);
  '(go, ret, ctx, p, m) ← update_buffered hw (alg_of k) ctx p m inp len out;
  match go with
  | None => mret (ret, mkCipherCtx (cipher ctx) (Some p) (buff_len ctx) (buff ctx), m)
  | Some (inp, len, out, outl) => update_rest hw (alg_of k) ctx p m inp len out outl
  end.

(** The remaining bytes are copied out as they are. *)
Definition MCP_CipherFinal (ctx : MCP_CIPHER_CTX) (m : list Z) (out : Z) : res (Z * MCP_CIPHER_CTX * list Z) :=
  if buff_len ctx =? 0 then Ret (0, ctx, m)
  else
    bs ← load (buff ctx) 0 (buff_len ctx);
    m ← store m out bs;
    Ret (buff_len ctx, mkCipherCtx (cipher ctx) (cipher_data ctx) 0 (buff ctx), m).

(** [memset(ctx, 0, sizeof(ctx))] clears the first four bytes only: the
    [cipher] pointer.  Whether the context data was released. *)
Definition MCP_CIPHER_CTX_cleanup (ctx : option MCP_CIPHER_CTX) : Z * bool * option MCP_CIPHER_CTX :=
  match ctx with
  | Some c =>
      match cipher_data c with
      | Some _ => (0, true, Some (mkCipherCtx None (cipher_data c) (buff_len c) (buff c)))
      | None => (0, false, ctx)
      end
  | None => (0, false, ctx)
  end.

Definition MCP_get_cipherbyname (name : String.string) : option cipher_kind :=
  if String.eqb name "aes_128_ecb"%string then Some aes_128_ecb
  else if String.eqb name "aes_128_cbc"%string then Some aes_128_cbc
  else if String.eqb name "des_ecb"%string then Some des_ecb
  else if String.eqb name "des_cbc"%string then Some des_cbc
  else if String.eqb name "tdes_ecb"%string then Some tdes_ecb
  else if String.eqb name "tdes_cbc"%string then Some tdes_cbc
  else None.
