(* ===== verification/McpCipherProofs.v ===== *)
(** * Streaming ciphers are ciphers of the whole stream

    The engine is assumed to apply a block cipher in ECB or CBC mode to whole
    blocks.  From that, any way of cutting a stream into updates gives the same
    output: the cipher text of the whole blocks, and the last incomplete block
    unchanged. *)
From stdpp Require Import base tactics list numbers option.
From Stdlib Require Import ZArith Lia.
From S2P Require Import Prelude Buff McpEngine McpDgst McpDgstProofs McpCipher.

(** ** Block modes *)

(** [f iv b] is the output for block [b] and the next iv. *)
Definition mode_fun : Type := list Z -> list Z -> list Z * list Z.

Fixpoint run_blocks (f : mode_fun) (bs n : nat) (iv inp : list Z) : list Z * list Z :=
  match n with
  | O => ([], iv)
  | S n' =>
      let '(o, iv1) := f iv (firstn bs inp) in
      let '(os, iv2) := run_blocks f bs n' iv1 (skipn bs inp) in
      (o ++ os, iv2)
  end.

Definition crypt (f : mode_fun) (bs : Z) (iv inp : list Z) : list Z * list Z :=
  run_blocks f (Z.to_nat bs) (length inp / Z.to_nat bs) iv inp.

Fixpoint xorl (a b : list Z) : list Z :=
  match a, b with
  | x :: a', y :: b' => Z.lxor x y :: xorl a' b'
  | _, _ => []
  end.

(** The four modes over a block cipher [E] with inverse [U]. *)
Definition mode_step (E U : list Z -> list Z -> list Z) (mode enc : Z) (key : list Z) : mode_fun :=
  fun iv b =>
    if mode =? MCP_BCM_CBC then
      if enc =? 0 then (xorl (U key b) iv, b)
      else let o := E key (xorl b iv) in (o, o)
    else if enc =? 0 then (U key b, iv) else (E key b, iv).

Lemma run_blocks_app f bs n k iv x y : (0 < bs)%nat -> length x = (bs * n)%nat ->
  run_blocks f bs (n + k) iv (x ++ y) =
  let '(o1, iv1) := run_blocks f bs n iv x in
  let '(o2, iv2) := run_blocks f bs k iv1 y in (o1 ++ o2, iv2).
Proof.
  intros Hbs. revert iv x. induction n as [|n IH]; intros iv x Hx.
  - destruct x; [|simpl in Hx; lia]. cbn [run_blocks Nat.add app].
    by destruct (run_blocks f bs k iv y).
  - cbn [Nat.add run_blocks]. rewrite firstn_app, skipn_app.
    replace (bs - length x)%nat with 0%nat by lia. rewrite firstn_O, app_nil_r. cbn [skipn].
    destruct (f iv (firstn bs x)) as [o iv1]. rewrite IH by (rewrite length_skipn; lia).
    destruct (run_blocks f bs n iv1 (skipn bs x)) as [o1 iv2].
    destruct (run_blocks f bs k iv2 y) as [o2 iv3]. by rewrite app_assoc.
Qed.

Lemma crypt_app f bs iv x y : 0 < bs -> Zlen x mod bs = 0 ->
  crypt f bs iv (x ++ y) =
  let '(o1, iv1) := crypt f bs iv x in
  let '(o2, iv2) := crypt f bs iv1 y in (o1 ++ o2, iv2).
Proof.
  intros Hbs Hx. unfold crypt. apply Z.mod_divide in Hx as [k Hk]; [|lia]. unfold Zlen in Hk.
  assert (Hl : length x = (Z.to_nat k * Z.to_nat bs)%nat) by nia.
  rewrite length_app, Hl, Nat.div_add_l, Nat.div_mul by lia. apply run_blocks_app; lia.
Qed.

Lemma crypt_nil f bs iv : crypt f bs iv [] = ([], iv).
Proof. unfold crypt. simpl length. by rewrite Nat.Div0.div_0_l. Qed.

(** A mode function keeps the sizes. *)
Definition sized (bs : Z) (f : mode_fun) : Prop :=
  forall iv b, byte_list bs iv -> byte_list bs b -> byte_list bs (fst (f iv b)) /\ byte_list bs (snd (f iv b)).

Lemma run_blocks_ok f bs n iv inp :
  sized (Z.of_nat bs) f -> byte_list (Z.of_nat bs) iv -> Forall is_byte inp -> (bs * n <= length inp)%nat ->
  Zlen (fst (run_blocks f bs n iv inp)) = Z.of_nat (bs * n) /\
  Forall is_byte (fst (run_blocks f bs n iv inp)) /\
  byte_list (Z.of_nat bs) (snd (run_blocks f bs n iv inp)).
Proof.
  intros Hf. revert iv inp. induction n as [|n IH]; intros iv inp Hiv Hi Hl.
  - rewrite Nat.mul_0_r. done.
  - cbn [run_blocks].
    destruct (Hf iv (firstn bs inp) Hiv) as [Ho Hv1].
    { split; [unfold Zlen; rewrite length_firstn; lia|by apply Forall_take]. }
    destruct (f iv (firstn bs inp)) as [o iv1]. cbn [fst snd] in Ho, Hv1.
    destruct (IH iv1 (skipn bs inp) Hv1 (Forall_drop _ _ _ Hi)) as (H1 & H2 & H3); [rewrite length_skipn; lia|].
    destruct (run_blocks f bs n iv1 (skipn bs inp)) as [os iv2]. cbn [fst snd] in *.
    destruct Ho as [Ho1 Ho2]. rewrite Zlen_app, Ho1, H1. split; [lia|]. split; [by apply Forall_app|done].
Qed.

Lemma crypt_ok f bs iv inp : 0 < bs -> sized bs f -> byte_list bs iv -> Forall is_byte inp ->
  Zlen inp mod bs = 0 ->
  Zlen (fst (crypt f bs iv inp)) = Zlen inp /\ Forall is_byte (fst (crypt f bs iv inp)) /\
  byte_list bs (snd (crypt f bs iv inp)).
Proof.
  intros Hbs Hf Hiv Hi Hm. unfold crypt. apply Z.mod_divide in Hm as [k Hk]; [|lia]. unfold Zlen in Hk.
  assert (Hl : length inp = (Z.to_nat k * Z.to_nat bs)%nat) by nia.
  rewrite Hl, Nat.div_mul by lia.
  replace bs with (Z.of_nat (Z.to_nat bs)) in Hf, Hiv by lia.
  destruct (run_blocks_ok f (Z.to_nat bs) (Z.to_nat k) iv inp Hf Hiv Hi ltac:(lia)) as (H1 & H2 & H3).
  rewrite Z2Nat.id in H3 by lia. split; [|done]. rewrite H1. unfold Zlen. lia.
Qed.

Lemma xorl_ok n a b : byte_list n a -> byte_list n b -> byte_list n (xorl a b).
Proof.
  unfold byte_list, Zlen. revert n b. induction a as [|x a IH]; intros n b [Hn Ha] [Hm Hb]; [done|].
  destruct b as [|y b]; [simpl in *; lia|]. inversion Ha; subst. inversion Hb; subst.
  destruct (IH (Z.of_nat (length a)) b) as [H5 H6]; [done|simpl in *; split; [lia|done]|].
  cbn [xorl length]. split; [lia|]. constructor; [by apply lxor_byte|done].
Qed.

(** The last block of a CBC stream is the next iv. *)
Lemma cbc_last_enc E U key bs n iv inp :
  (0 < n)%nat -> (bs * n <= length inp)%nat -> byte_list (Z.of_nat bs) iv -> Forall is_byte inp ->
  (forall b, byte_list (Z.of_nat bs) b -> byte_list (Z.of_nat bs) (E key b)) ->
  let '(o, iv') := run_blocks (mode_step E U MCP_BCM_CBC 1 key) bs n iv inp in
  skipn (bs * n - bs) o = iv' /\ length o = (bs * n)%nat.
Proof.
  intros Hn Hl Hiv Hi HE. revert iv inp Hl Hiv Hi. induction n as [|n IH]; intros iv inp Hl Hiv Hi; [lia|].
  cbn [run_blocks]. unfold mode_step at 1. cbn [Z.eqb MCP_BCM_CBC Pos.eqb].
  set (o := E key (xorl (firstn bs inp) iv)).
  assert (Hob : byte_list (Z.of_nat bs) o).
  { apply HE, xorl_ok; [|done]. split; [unfold Zlen; rewrite length_firstn; lia|by apply Forall_take]. }
  assert (Ho : length o = bs) by (destruct Hob as [Hob _]; unfold Zlen in Hob; lia).
  destruct (decide (n = 0%nat)) as [->|].
  - cbn [run_blocks]. rewrite app_nil_r, Nat.mul_1_r, Nat.sub_diag. done.
  - specialize (IH ltac:(lia) o (skipn bs inp)). rewrite length_skipn in IH.
    specialize (IH ltac:(lia) Hob (Forall_drop _ _ _ Hi)).
    destruct (run_blocks (mode_step E U MCP_BCM_CBC 1 key) bs n o (skipn bs inp)) as [os iv2].
    destruct IH as [<- IHl]. rewrite length_app. split; [|lia].
    replace (bs * S n - bs)%nat with (length o + (bs * n - bs))%nat by nia.
    by rewrite drop_app_add.
Qed.

Lemma cbc_last_dec E U key bs n iv inp :
  (0 < n)%nat -> length inp = (bs * n)%nat ->
  snd (run_blocks (mode_step E U MCP_BCM_CBC 0 key) bs n iv inp) = skipn (bs * n - bs) inp.
Proof.
  intros Hn. revert iv inp. induction n as [|n IH]; intros iv inp Hl; [lia|].
  cbn [run_blocks]. unfold mode_step at 1. cbn [Z.eqb MCP_BCM_CBC Pos.eqb].
  destruct (decide (n = 0%nat)) as [->|].
  - cbn [run_blocks snd]. rewrite Nat.mul_1_r, Nat.sub_diag. rewrite drop_0. apply firstn_all2. lia.
  - specialize (IH ltac:(lia) (firstn bs inp) (skipn bs inp)). rewrite length_skipn in IH.
    specialize (IH ltac:(lia)).
    destruct (run_blocks (mode_step E U MCP_BCM_CBC 0 key) bs n (firstn bs inp) (skipn bs inp)) as [os iv2].
    cbn [snd] in *. rewrite IH, drop_drop. f_equal. nia.
Qed.

(** ** What the code needs from the engine *)

(** The engine applies [mode_step] to whole blocks; keys and ivs are the
    buffers of the context. *)
Class CipherEngine (hw : mcp_hw) (alg : cipher_alg) (E U : list Z -> list Z -> list Z) := {
  ce_pow2 : exists k, 3 <= k <= 4 /\ ca_block alg = 2 ^ k;
  ce_buff : ca_block alg <= ca_buff alg;
  ce_E : forall key b, byte_list (ca_block alg) b -> byte_list (ca_block alg) (E key b);
  ce_U : forall key b, byte_list (ca_block alg) b -> byte_list (ca_block alg) (U key b);
  ce_run : forall enc mode key iv p inp q d, sem d = 1 -> enc = 0 \/ enc = 1 -> mode = MCP_BCM_ECB \/ mode = MCP_BCM_CBC ->
    byte_list (ca_buff alg) key -> Forall is_byte iv -> ca_block alg <= Zlen iv -> Forall is_byte inp ->
    Zlen inp mod ca_block alg = 0 ->
    exists ret d', (if enc =? 0 then ca_decrypt alg else ca_encrypt alg) hw mode (Some key) (Some iv) p inp q d =
      Ret ((ret, fst (crypt (mode_step E U mode enc key) (ca_block alg)
                        (firstn (Z.to_nat (ca_block alg)) iv) inp)), d') /\ quiet d d'
}.

Section engine.
Context (hw : mcp_hw) (alg : cipher_alg) (E U : list Z -> list Z -> list Z).
Context `{HC : !CipherEngine hw alg E U}.

Lemma cblock_range : 8 <= ca_block alg <= 16.
Proof.
  destruct ce_pow2 as (k & Hk & ->). split.
  - change 8 with (2 ^ 3). apply Z.pow_le_mono_r; lia.
  - change 16 with (2 ^ 4). apply Z.pow_le_mono_r; lia.
Qed.

Lemma mode_step_sized mode enc key : sized (ca_block alg) (mode_step E U mode enc key).
Proof.
  intros iv b Hiv Hb. unfold mode_step.
  pose proof (@ce_E hw alg E U HC) as HE. pose proof (@ce_U hw alg E U HC) as HU.
  destruct (mode =? _), (enc =? 0); cbn [fst snd]; split; auto using xorl_ok.
Qed.

(** The state of a context that the code keeps. *)
Record ciph_ok (p : ciph_data) (mode enc : Z) (key iv : list Z) : Prop := {
  co_mode : cd_mode p = mode;
  co_modes : mode = MCP_BCM_ECB \/ mode = MCP_BCM_CBC;
  co_enc : cd_enc p = enc;
  co_encs : enc = 0 \/ enc = 1;
  co_key : cd_key p = Some key;
  co_keyb : byte_list (ca_buff alg) key;
  co_ivb : byte_list (ca_buff alg) (cd_iv p);
  co_iv : firstn (Z.to_nat (ca_block alg)) (cd_iv p) = iv
}.

Lemma ciph_ok_iv p mode enc key iv : ciph_ok p mode enc key iv -> byte_list (ca_block alg) iv.
Proof.
  intros []. subst iv. destruct co_ivb0 as [Hl Hb]. pose proof cblock_range. pose proof ce_buff.
  split; [unfold Zlen in *; rewrite length_firstn; lia|by apply Forall_take].
Qed.

(** Saving an iv. *)
Lemma save_iv p mode enc key iv last : ciph_ok p mode enc key iv -> byte_list (ca_block alg) last ->
  exists v, store (cd_iv p) 0 last = Ret v /\ ciph_ok (mkCiph (cd_mode p) (cd_enc p) (cd_key p) v) mode enc key last.
Proof.
  intros [] [Hll Hlb]. pose proof cblock_range. pose proof ce_buff. destruct co_ivb0 as [Hvl Hvb].
  assert (Es : exists v, store (cd_iv p) 0 last = Ret v) by (rewrite store_ok by lia; by eexists).
  destruct Es as [v Es]. exists v. split; [done|]. split; try done; cbn [cd_iv].
  - split; [|by apply (store_Forall _ (cd_iv p) 0 last)]. unfold Zlen. by rewrite (store_length _ _ _ _ Es).
  - apply load_store_same in Es. rewrite Hll in Es.
    pose proof (load_bounds _ _ _ _ Es) as (_ & _ & ? & _). rewrite load_ok in Es by lia.
    injection Es as Es. done.
Qed.

Lemma firstn_aligned (x : list Z) n : 0 <= n -> n = Zlen x - Zlen x mod ca_block alg ->
  Zlen (firstn (Z.to_nat n) x) = n /\ n mod ca_block alg = 0.
Proof.
  intros Hn0 Hn. pose proof cblock_range. pose proof (Z.mod_pos_bound (Zlen x) (ca_block alg) ltac:(lia)). split.
  - unfold Zlen in *. rewrite length_firstn. lia.
  - rewrite Hn, Zminus_mod_idemp_r, Z.sub_diag. done.
Qed.

(** The bytes that the code saves as the next iv. *)
Lemma cbc_last enc key iv x :
  enc = 0 \/ enc = 1 -> byte_list (ca_block alg) iv -> Forall is_byte x -> 0 < Zlen x ->
  Zlen x mod ca_block alg = 0 ->
  let r := crypt (mode_step E U MCP_BCM_CBC enc key) (ca_block alg) iv x in
  load (if enc =? 0 then x else fst r) (Zlen x - ca_block alg) (ca_block alg) = Ret (snd r).
Proof.
  intros Henc Hiv Hx Hx0 Hm r. pose proof cblock_range. unfold r, crypt. clear r.
  apply Z.mod_divide in Hm as [k Hk]; [|lia]. assert (0 < k) by nia.
  set (bs := Z.to_nat (ca_block alg)). set (n := Z.to_nat k).
  assert (Hl : length x = (bs * n)%nat) by (unfold Zlen, bs, n in *; nia).
  replace (length x / bs)%nat with n by (rewrite Hl, Nat.mul_comm, Nat.div_mul; lia).
  assert (Hlast : forall y, length y = (bs * n)%nat ->
    load y (Zlen x - ca_block alg) (ca_block alg) = Ret (skipn (bs * n - bs) y)).
  { intros y Hy. assert (bs <= bs * n)%nat by (unfold bs, n; nia).
    rewrite load_ok by (unfold Zlen, bs in *; lia). f_equal.
    replace (Z.to_nat (Zlen x - ca_block alg)) with (bs * n - bs)%nat by (unfold Zlen, bs in *; lia).
    apply firstn_all2. rewrite length_skipn. fold bs. lia. }
  destruct Henc as [-> | ->]; cbn [Z.eqb].
  - rewrite Hlast by done. rewrite cbc_last_dec by (unfold n in *; lia || done). done.
  - assert (Hb : Z.of_nat bs = ca_block alg) by (unfold bs; lia).
    pose proof (cbc_last_enc E U key bs n iv x ltac:(unfold n; lia) ltac:(lia)) as He. rewrite Hb in He.
    specialize (He Hiv Hx (ce_E key)).
    destruct (run_blocks (mode_step E U MCP_BCM_CBC 1 key) bs n iv x) as [o iv']. cbn [fst snd].
    destruct He as [<- Ho]. by apply Hlast.
Qed.

(** The iv is saved in CBC mode only. *)
Lemma next_iv p mode enc key iv x src :
  ciph_ok p mode enc key iv -> Forall is_byte x -> 0 < Zlen x -> Zlen x mod ca_block alg = 0 ->
  let r := crypt (mode_step E U mode enc key) (ca_block alg) iv x in
  (mode = MCP_BCM_CBC -> src = load (if enc =? 0 then x else fst r) (Zlen x - ca_block alg) (ca_block alg)) ->
  exists v, (if cd_mode p =? MCP_BCM_CBC then last ← src; store (cd_iv p) 0 last else Ret (cd_iv p)) = Ret v /\
    ciph_ok (mkCiph (cd_mode p) (cd_enc p) (cd_key p) v) mode enc key (snd r).
Proof.
  intros Hp Hx Hx0 Hm r Hsrc. pose proof (ciph_ok_iv _ _ _ _ _ Hp) as Hiv. pose proof cblock_range.
  destruct (crypt_ok (mode_step E U mode enc key) (ca_block alg) iv x ltac:(lia) (mode_step_sized _ _ _) Hiv Hx Hm)
    as (_ & _ & Hiv'). fold r in Hiv'.
  pose proof Hp as []. rewrite co_mode0. destruct (Z.eqb_spec mode MCP_BCM_CBC) as [Em|Em].
  - assert (Hs : src = Ret (snd r)).
    { rewrite Hsrc by done. unfold r. rewrite Em. by apply cbc_last. }
    rewrite Hs, res_bind_Ret. destruct (save_iv _ _ _ _ _ _ Hp Hiv') as (v & Ev & Hv). exists v.
    rewrite co_mode0 in Hv. done.
  - exists (cd_iv p). split; [done|].
    assert (snd r = iv) as ->; [|by split].
    unfold r, crypt. clear -Em. revert iv x.
    assert (forall n k iv y, snd (run_blocks (mode_step E U mode enc key) k n iv y) = iv) as Hfix; [|by intros; apply Hfix].
    induction n as [|n IH]; intros k iv y; [done|]. cbn [run_blocks]. unfold mode_step at 1.
    destruct (Z.eqb_spec mode MCP_BCM_CBC); [done|]. destruct (enc =? 0).
    all: specialize (IH k iv (skipn k y)); destruct (run_blocks _ _ n _ _); done.
Qed.

Lemma DoCipher_spec p mode enc key iv p_in inp m out d :
  sem d = 1 -> ciph_ok p mode enc key iv -> Forall is_byte inp ->
  let n := Zlen inp - Zlen inp mod ca_block alg in
  let r := crypt (mode_step E U mode enc key) (ca_block alg) iv (firstn (Z.to_nat n) inp) in
  0 <= out -> out + n <= Zlen m ->
  exists p' m' d', DoCipher hw alg p p_in inp m out d = Ret ((n, p', m'), d') /\ calm d d' /\
    ciph_ok p' mode enc key (snd r) /\ store m out (fst r) = Ret m'.
Proof.
  intros Hs Hp Hi n r Ho Hon. pose proof cblock_range as Hbr. pose proof (ciph_ok_iv _ _ _ _ _ Hp) as Hiv.
  pose proof (Z.mod_pos_bound (Zlen inp) (ca_block alg) ltac:(lia)) as Hmb. pose proof (Zlen_nonneg inp).
  assert (Hn : 0 <= n) by (unfold n; pose proof (Z.mod_le (Zlen inp) (ca_block alg)); lia).
  destruct (firstn_aligned inp n Hn eq_refl) as [Hfl Hfm].
  assert (Ha : align_down (Zlen inp) (ca_block alg - 1) = n).
  { destruct ce_pow2 as (k & Hk & Ek). unfold n. rewrite Ek. apply align_down_pow2; lia. }
  unfold DoCipher. rewrite Ha. destruct (Z.eqb_spec n 0) as [E0|E0].
  { exists p, m, d. assert (Hr : r = ([], iv)).
    { unfold r. rewrite E0. cbn [Z.to_nat firstn]. apply crypt_nil. }
    rewrite E0, Hr. split; [done|]. split; [done|]. split; [done|]. apply store_nil. lia. }
  set (x := firstn (Z.to_nat n) inp) in *. assert (Hxb : Forall is_byte x) by (by apply Forall_take).
  assert (Hxm : Zlen x mod ca_block alg = 0) by (by rewrite Hfl).
  destruct (crypt_ok (mode_step E U mode enc key) (ca_block alg) iv x ltac:(lia) (mode_step_sized _ _ _) Hiv Hxb Hxm)
    as (Hol & Hob & Hiv'). fold r in Hol, Hob, Hiv'.
  assert (Est : exists m', store m out (fst r) = Ret m') by (rewrite store_ok by lia; by eexists).
  destruct Est as [m' Est]. pose proof Hp as [Hmode Hmodes Henc Hencs Hkey Hkeyb Hivb Hivf].
  assert (Hn16 : ca_block alg <= Zlen x).
  { rewrite Hfl. apply Z.divide_pos_le; [lia|]. apply Z.mod_divide; [lia|done]. }
  assert (Hlast : load m' (out + n - ca_block alg) (ca_block alg) =
                  load (fst r) (Zlen x - ca_block alg) (ca_block alg)).
  { pose proof (load_store_same _ _ _ _ Est) as El.
    rewrite <- (load_sub _ _ _ _ (Zlen x - ca_block alg) (ca_block alg) El) by lia. f_equal. lia. }
  destruct (next_iv p mode enc key iv x
              (load (if enc =? 0 then x else fst r) (Zlen x - ca_block alg) (ca_block alg))
              Hp Hxb ltac:(lia) Hxm ltac:(done)) as (v & Ev & Hv). fold r in Hv.
  exists (mkCiph (cd_mode p) (cd_enc p) (cd_key p) v), m'.
  destruct Hencs as [-> | ->]; rewrite Henc in *; cbn [Z.eqb negb].
  - assert (Hiv0 : load (cd_iv p) 0 (ca_block alg) = Ret iv).
    { pose proof (@ce_buff hw alg E U HC). rewrite load_ok by (rewrite ?(proj1 Hivb); lia). by rewrite <- Hivf. }
    dstep Hiv0. rewrite <- Hfl. dstep Ev.
    destruct (ce_run 0 mode key iv p_in x out d Hs (or_introl eq_refl) Hmodes Hkeyb (proj2 Hiv) ltac:(rewrite (proj1 Hiv); lia) Hxb Hxm)
      as (ret & d' & Erun & Hq). cbn [Z.eqb] in Erun.
    rewrite firstn_all2 in Erun by (destruct Hiv as [Hivl _]; unfold Zlen in Hivl; lia).
    rewrite Hmode, Hkey. dstep Erun. fold r. dstep Est. exists d'.
    rewrite Hmode, Hkey in Hv. split; [done|]. split; [by apply quiet_calm|done].
  - destruct (ce_run 1 mode key (cd_iv p) p_in x out d Hs (or_intror eq_refl) Hmodes Hkeyb (proj2 Hivb)
                ltac:(rewrite (proj1 Hivb); apply ce_buff) Hxb Hxm) as (ret & d' & Erun & Hq).
    cbn [Z.eqb] in Erun. rewrite Hivf in Erun. fold r in Erun.
    rewrite Hmode, Hkey in *. dstep Erun. dstep Est. rewrite Hlast. dstep Ev. exists d'.
    split; [done|]. split; [by apply quiet_calm|done].
Qed.

(** ** The invariant of a cipher context *)

(** The context holds the incomplete block [rest], and the next block is
    processed with [iv]. *)
Record ctx_ok (ctx : MCP_CIPHER_CTX) (mode enc : Z) (key iv rest : list Z) : Prop := {
  cx_data : exists p, cipher_data ctx = Some p /\ ciph_ok p mode enc key iv;
  cx_len : buff_len ctx = Zlen rest;
  cx_short : Zlen rest < ca_block alg;
  cx_buff : byte_list 32 (buff ctx);
  cx_rest : load (buff ctx) 0 (Zlen rest) = Ret rest
}.

Definition whole (n : Z) : Z := n - n mod ca_block alg.

Lemma whole_range n : 0 <= n -> 0 <= whole n <= n /\ n - whole n < ca_block alg.
Proof.
  intros Hn. pose proof cblock_range. unfold whole.
  pose proof (Z.mod_pos_bound n (ca_block alg) ltac:(lia)). pose proof (Z.mod_le n (ca_block alg)). lia.
Qed.

Lemma set_buff ctx x : byte_list 32 (buff ctx) -> Forall is_byte x -> Zlen x < ca_block alg ->
  exists b, store (buff ctx) 0 x = Ret b /\ byte_list 32 b /\ load b 0 (Zlen x) = Ret x.
Proof.
  intros [Hl Hb] Hx Hxl. pose proof cblock_range.
  assert (Es : exists b, store (buff ctx) 0 x = Ret b) by (rewrite store_ok by lia; by eexists).
  destruct Es as [b Es]. exists b. split; [done|]. split; [|by apply load_store_same in Es].
  split; [unfold Zlen; by rewrite (store_length _ _ _ _ Es)|by apply (store_Forall _ (buff ctx) 0 x)].
Qed.

(** The second half of an update: nothing is buffered. *)
Lemma update_rest_spec ctx p mode enc key iv m inp len out outl x d :
  sem d = 1 -> ciph_ok p mode enc key iv -> buff_len ctx = 0 -> byte_list 32 (buff ctx) ->
  Forall is_byte m -> load m inp len = Ret x ->
  0 <= out -> out + whole (Zlen x) <= Zlen m -> inp + len <= out \/ out <= inp ->
  let r := crypt (mode_step E U mode enc key) (ca_block alg) iv (firstn (Z.to_nat (whole (Zlen x))) x) in
  exists ctx' m' d', update_rest hw alg ctx p m inp len out outl d = Ret ((outl + whole (Zlen x), ctx', m'), d') /\
    calm d d' /\ cipher ctx' = cipher ctx /\ store m out (fst r) = Ret m' /\
    ctx_ok ctx' mode enc key (snd r) (skipn (Z.to_nat (whole (Zlen x))) x).
Proof.
  intros Hs Hp Hbl Hbb Hm Hx Ho Hom Hdis r. pose proof cblock_range.
  pose proof (load_bounds _ _ _ _ Hx) as (Hi0 & Hl0 & Hil & Hxl). pose proof (load_Forall _ _ _ _ _ Hm Hx) as Hxb.
  destruct (whole_range (Zlen x) ltac:(lia)) as [Hw1 Hw2]. set (n := whole (Zlen x)) in *.
  unfold update_rest. destruct (Z.eqb_spec len 0) as [E0|E0].
  { assert (Hn : n = 0) by lia. assert (Hx0 : x = []) by (destruct x; [done|unfold Zlen in *; simpl in *; lia]).
    assert (Hr : r = ([], iv)) by (unfold r; rewrite Hn, Hx0; apply crypt_nil).
    exists (mkCipherCtx (cipher ctx) (Some p) (buff_len ctx) (buff ctx)), m, d. rewrite Hn, Hx0, Hr, Z.add_0_r.
    split; [done|]. split; [done|]. split; [done|]. split; [apply store_nil; lia|].
    split; cbn [cipher_data buff_len buff]; try done; [by exists p|unfold Zlen; simpl; lia|].
    destruct Hbb as [Hbb1 _]. rewrite load_ok by (unfold Zlen in *; simpl; lia). done. }
  dstep Hx.
  destruct (DoCipher_spec p mode enc key iv inp x m out d Hs Hp Hxb Ho Hom) as (p' & m' & d' & Ed & Hc & Hp' & Est).
  change (Zlen x - Zlen x mod ca_block alg) with n in Ed, Hp', Est. fold r in Hp', Est. dstep Ed.
  assert (Hrl : Zlen (fst r) = n).
  { pose proof (ciph_ok_iv _ _ _ _ _ Hp) as Hiv. destruct (firstn_aligned x n ltac:(lia) eq_refl) as [Hfl Hfm].
    destruct (crypt_ok (mode_step E U mode enc key) (ca_block alg) iv (firstn (Z.to_nat n) x) ltac:(lia)
                (mode_step_sized _ _ _) Hiv (Forall_take _ _ _ Hxb) ltac:(by rewrite Hfl)) as (Hol & _). by rewrite <- Hfl. }
  assert (Hrest : load m (inp + n) (len - n) = Ret (skipn (Z.to_nat n) x)).
  { rewrite (load_sub _ _ _ _ n (len - n) Hx) by lia. rewrite load_ok by lia. f_equal.
    apply firstn_all2. rewrite length_skipn. unfold Zlen in *. lia. }
  pose proof (load_bounds _ _ _ _ Hrest) as (_ & _ & _ & Hrl').
  destruct (Z.eqb_spec (len - n) 0) as [E1|E1].
  - eexists _, m', d'. split; [reflexivity|]. split; [done|]. split; [done|]. split; [done|].
    assert (Hr0 : skipn (Z.to_nat n) x = []) by (destruct (skipn (Z.to_nat n) x); [done|unfold Zlen in *; simpl in *; lia]).
    rewrite Hr0. split; cbn [cipher_data buff_len buff]; try done; [by exists p'|unfold Zlen; simpl; lia|].
    destruct Hbb as [Hbb1 _]. rewrite load_ok by (unfold Zlen in *; simpl; lia). done.
  - assert (Hrest' : load m' (inp + n) (len - n) = Ret (skipn (Z.to_nat n) x)).
    { rewrite (load_store_disjoint _ _ _ _ _ _ Est) by lia. done. }
    dstep Hrest'.
    destruct (set_buff ctx (skipn (Z.to_nat n) x) Hbb (Forall_drop _ _ _ Hxb) ltac:(lia)) as (b & Eb & Hb1 & Hb2).
    dstep Eb. eexists _, m', d'. split; [reflexivity|]. split; [done|]. split; [done|]. split; [done|].
    split; cbn [cipher_data buff_len buff]; try done; [by exists p'| |lia].
    rewrite Hrl'. unfold u8. apply Z.mod_small. lia.
Qed.

(** The first block of an update, completed from the buffered bytes. *)
Lemma fill_block ctx mode enc key iv rest m inp x :
  ctx_ok ctx mode enc key iv rest -> Forall is_byte m -> load m inp (Zlen x) = Ret x ->
  ca_block alg <= Zlen rest + Zlen x ->
  let n1 := ca_block alg - Zlen rest in
  exists b, load m inp n1 = Ret (firstn (Z.to_nat n1) x) /\
    store (buff ctx) (Zlen rest) (firstn (Z.to_nat n1) x) = Ret b /\ byte_list 32 b /\
    load b 0 (ca_block alg) = Ret (rest ++ firstn (Z.to_nat n1) x).
Proof.
  intros [] Hm Hx Hlen n1. pose proof cblock_range. pose proof (Zlen_nonneg rest).
  pose proof (load_Forall _ _ _ _ _ Hm Hx) as Hxb.
  assert (Hn1 : 0 < n1 <= Zlen x /\ Zlen rest + n1 = ca_block alg) by (unfold n1; lia).
  assert (Hf : Zlen (firstn (Z.to_nat n1) x) = n1) by (unfold Zlen, n1 in *; rewrite length_firstn; lia).
  assert (Hl : load m inp n1 = Ret (firstn (Z.to_nat n1) x)).
  { pose proof (load_sub _ _ _ _ 0 n1 Hx ltac:(lia) ltac:(lia) ltac:(lia)) as Hsub.
    rewrite Z.add_0_r in Hsub. rewrite Hsub, load_ok by lia. done. }
  destruct cx_buff0 as [Hbl Hbb].
  assert (Es : exists b, store (buff ctx) (Zlen rest) (firstn (Z.to_nat n1) x) = Ret b)
    by (rewrite store_ok by lia; by eexists). destruct Es as [b Es].
  exists b. split; [done|]. split; [done|]. split.
  - split; [unfold Zlen; by rewrite (store_length _ _ _ _ Es)|].
    by apply (store_Forall _ (buff ctx) (Zlen rest) (firstn (Z.to_nat n1) x)); [| apply Forall_take |].
  - replace (ca_block alg) with (Zlen rest + n1) by lia. apply load_app.
    + rewrite (load_store_below _ _ _ _ _ _ Es) by lia. done.
    + apply load_store_same in Es. by rewrite Hf in Es.
Qed.

Lemma whole_add n : 0 <= n -> whole (ca_block alg + n) = ca_block alg + whole n.
Proof.
  intros Hn. pose proof cblock_range. unfold whole.
  replace ((ca_block alg + n) mod ca_block alg) with (n mod ca_block alg); [lia|].
  rewrite <- (Z_mod_plus_full n 1). f_equal. lia.
Qed.

(** Fewer bytes than a block so far: all of them are buffered. *)
Lemma update_short ctx p mode enc key iv rest m inp len out x d :
  cipher_data ctx = Some p -> ctx_ok ctx mode enc key iv rest -> Forall is_byte m -> load m inp len = Ret x ->
  Zlen rest <> 0 -> Zlen rest + len < ca_block alg ->
  exists ctx', update_buffered hw alg ctx p m inp len out d = Ret ((None, 0, ctx', p, m), d) /\
    cipher ctx' = cipher ctx /\ cipher_data ctx' = Some p /\ ctx_ok ctx' mode enc key iv (rest ++ x).
Proof.
  intros Hpd [Hp Hbl Hshort [Hbl1 Hbb] Hrest] Hm Hx H0 Hlt. pose proof cblock_range as Hbr.
  pose proof (load_bounds _ _ _ _ Hx) as (Hi0 & Hl0 & Hil & Hxl). pose proof (load_Forall _ _ _ _ _ Hm Hx) as Hxb.
  pose proof (Zlen_nonneg rest) as Hr0.
  assert (Hbst : exists b, store (buff ctx) (Zlen rest) x = Ret b) by (rewrite store_ok by lia; by eexists).
  destruct Hbst as [b Eb]. unfold update_buffered. rewrite Hbl. repeat zcase.
  dstep Hx. dstep Eb. eexists. split; [reflexivity|]. split; [done|]. split; [done|].
  split; cbn [cipher_data buff_len buff]; try done.
  - rewrite Zlen_app. unfold u8. rewrite Hxl. apply Z.mod_small. lia.
  - rewrite Zlen_app. lia.
  - split; [unfold Zlen; by rewrite (store_length _ _ _ _ Eb)|by apply (store_Forall _ (buff ctx) (Zlen rest) x)].
  - rewrite Zlen_app. apply load_app.
    + rewrite (load_store_below _ _ _ _ _ _ Eb) by lia. done.
    + by apply load_store_same in Eb.
Qed.

(** The buffered bytes and the start of the input make a block, which is
    processed; the rest of the input is untouched when the output does not
    overtake it. *)
Lemma update_fill ctx p mode enc key iv rest m inp len out x d :
  sem d = 1 -> cipher_data ctx = Some p -> ciph_ok p mode enc key iv -> ctx_ok ctx mode enc key iv rest ->
  Forall is_byte m -> load m inp len = Ret x -> Zlen rest <> 0 -> ca_block alg <= Zlen rest + len ->
  0 <= out -> out + ca_block alg <= Zlen m -> inp + len <= out \/ out + Zlen rest <= inp ->
  let n1 := ca_block alg - Zlen rest in
  let blk := rest ++ firstn (Z.to_nat n1) x in
  let r := crypt (mode_step E U mode enc key) (ca_block alg) iv blk in
  exists b p1 m1 d1,
    update_buffered hw alg ctx p m inp len out d =
      Ret ((Some (inp + n1, len - n1, out + ca_block alg, ca_block alg), 0,
            mkCipherCtx (cipher ctx) (cipher_data ctx) 0 b, p1, m1), d1) /\
    calm d d1 /\ byte_list 32 b /\ ciph_ok p1 mode enc key (snd r) /\ Zlen blk = ca_block alg /\
    store m out (fst r) = Ret m1 /\ Zlen (fst r) = ca_block alg /\ Forall is_byte m1 /\
    load m1 (inp + n1) (len - n1) = Ret (skipn (Z.to_nat n1) x).
Proof.
  intros Hs Hpd Hp Hctx Hm Hx H0 Hge Ho Hom Hdis n1 blk r. pose proof cblock_range as Hbr.
  pose proof (load_bounds _ _ _ _ Hx) as (Hi0 & Hl0 & Hil & Hxl). pose proof (Zlen_nonneg rest) as Hr0.
  pose proof Hctx as [_ Hbl Hshort _ _]. rewrite <- Hxl in Hx.
  destruct (fill_block ctx mode enc key iv rest m inp x Hctx Hm Hx ltac:(lia)) as (b & Hl1 & Eb & Hb32 & Hblk).
  rewrite Hxl in Hx. fold n1 in Hl1, Eb, Hblk. fold blk in Hblk.
  assert (Hn1 : 0 < n1 <= len /\ Zlen rest + n1 = ca_block alg) by (unfold n1; lia).
  assert (Hblen : Zlen blk = ca_block alg) by (by pose proof (load_bounds _ _ _ _ Hblk) as (_ & _ & _ & ?)).
  assert (Hblkb : Forall is_byte blk) by (apply (load_Forall _ b 0 (ca_block alg)); [apply Hb32|done]).
  assert (Hbm : Zlen blk mod ca_block alg = 0) by (rewrite Hblen; apply Z.mod_same; lia).
  destruct (DoCipher_spec p mode enc key iv 0 blk m out d Hs Hp Hblkb Ho) as (p1 & m1 & d1 & Ed & Hc1 & Hp1 & Est1); [lia|].
  rewrite Hbm, Z.sub_0_r, Hblen in Ed, Hp1, Est1. rewrite firstn_all2 in Hp1, Est1 by (unfold Zlen in Hblen; lia).
  fold r in Hp1, Est1.
  destruct (crypt_ok (mode_step E U mode enc key) (ca_block alg) iv blk ltac:(lia) (mode_step_sized _ _ _)
              (ciph_ok_iv _ _ _ _ _ Hp) Hblkb Hbm) as (Ho1 & Hob1 & _). fold r in Ho1, Hob1.
  exists b, p1, m1, d1. split.
  { unfold update_buffered. rewrite Hbl. repeat zcase. fold n1. dstep Hl1. dstep Eb. dstep Hblk. dstep Ed. reflexivity. }
  split; [done|]. split; [done|]. split; [done|]. split; [done|]. split; [done|]. split; [lia|].
  split; [by apply (store_Forall _ m out (fst r))|].
  rewrite (load_store_disjoint _ _ _ _ _ _ Est1) by lia.
  rewrite (load_sub _ _ _ _ n1 (len - n1) Hx) by lia. rewrite load_ok by lia. f_equal.
  apply firstn_all2. unfold Zlen in *. rewrite length_skipn. lia.
Qed.

(** The output may be written over the input as long as it does not overtake
    it: [out + Zlen rest <= inp]. *)
Lemma MCP_CipherUpdate_spec ctx k mode enc key iv rest m inp len out x d :
  sem d = 1 -> cipher ctx = Some k -> alg_of k = alg -> ctx_ok ctx mode enc key iv rest ->
  Forall is_byte m -> load m inp len = Ret x ->
  let n := whole (Zlen (rest ++ x)) in
  let r := crypt (mode_step E U mode enc key) (ca_block alg) iv (firstn (Z.to_nat n) (rest ++ x)) in
  0 <= out -> out + n <= Zlen m -> inp + len <= out \/ out + Zlen rest <= inp ->
  exists ctx' m' d', MCP_CipherUpdate hw ctx m inp len out d = Ret ((n, ctx', m'), d') /\
    calm d d' /\ cipher ctx' = Some k /\ store m out (fst r) = Ret m' /\
    ctx_ok ctx' mode enc key (snd r) (skipn (Z.to_nat n) (rest ++ x)).
Proof.
  intros Hs Hk Hka Hctx Hm Hx n r Ho Hom Hdis. pose proof cblock_range as Hbr.
  pose proof (load_bounds _ _ _ _ Hx) as (Hi0 & Hl0 & Hil & Hxl).
  pose proof Hctx as [(p & Hpd & Hp) Hbl Hshort Hbb Hrest]. pose proof (Zlen_nonneg rest) as Hr0.
  assert (Htot : Zlen (rest ++ x) = Zlen rest + len) by (rewrite Zlen_app; lia).
  unfold MCP_CipherUpdate. rewrite Hk, Hpd. cbn [derefD].
  rewrite (bindD_Ret _ _ d k d) by reflexivity. rewrite (bindD_Ret _ _ d p d) by reflexivity. rewrite Hka.
  destruct (decide (Zlen rest = 0)) as [E0|E0].
  { assert (Hrest0 : rest = []) by (destruct rest; [done|unfold Zlen in *; simpl in *; lia]).
    unfold r, n in *. rewrite Hrest0 in *. cbn [app] in *.
    unfold update_buffered. rewrite Hbl. change (Zlen [] =? 0) with true. cbv iota.
    rewrite (bindD_Ret _ _ d (Some (inp, len, out, 0), 0, ctx, p, m) d) by reflexivity.
    destruct (update_rest_spec ctx p mode enc key iv m inp len out 0 x d Hs Hp Hbl Hbb Hm Hx Ho Hom ltac:(lia))
      as (ctx' & m' & d' & Eu & Hc & Hk' & Hst & Hok).
    exists ctx', m', d'. rewrite Z.add_0_l in Eu. rewrite Hk in Hk'. done. }
  destruct (Z.ltb_spec (Zlen rest + len) (ca_block alg)) as [Hlt|Hge].
  - assert (Hn : n = 0) by (unfold n, whole; rewrite Htot, Z.mod_small by lia; lia).
    assert (Hr : r = ([], iv)) by (unfold r; rewrite Hn; apply crypt_nil).
    destruct (update_short ctx p mode enc key iv rest m inp len out x d Hpd Hctx Hm Hx E0 Hlt) as (ctx' & Eu & Hc1 & Hc2 & Hok).
    dstep Eu. eexists _, m, d. rewrite Hr, Hn. split; [reflexivity|]. cbn [cipher_data buff_len buff cipher fst snd].
    split; [done|]. split; [by rewrite Hc1|]. split; [apply store_nil; lia|].
    change (Z.to_nat 0) with 0%nat. rewrite drop_0, <- Hc2. by destruct ctx'.
  - assert (Hnn : n = ca_block alg + whole (len - (ca_block alg - Zlen rest))).
    { unfold n. rewrite Htot, <- whole_add by lia. f_equal. lia. }
    destruct (whole_range (len - (ca_block alg - Zlen rest)) ltac:(lia)) as [Hw1 Hw2].
    destruct (update_fill ctx p mode enc key iv rest m inp len out x d Hs Hpd Hp Hctx Hm Hx E0 Hge Ho ltac:(lia) Hdis)
      as (b & p1 & m1 & d1 & Eu & Hc1 & Hb32 & Hp1 & Hblen & Est1 & Ho1 & Hm1b & Hx2).
    set (n1 := ca_block alg - Zlen rest) in *. set (blk := rest ++ firstn (Z.to_nat n1) x) in *.
    set (f := mode_step E U mode enc key) in *. set (x2 := skipn (Z.to_nat n1) x) in *.
    pose proof (load_bounds _ _ _ _ Hx2) as (_ & _ & _ & Hx2l).
    assert (Hm1 : Zlen m1 = Zlen m) by (unfold Zlen; by rewrite (store_length _ _ _ _ Est1)).
    dstep Eu.
    destruct (update_rest_spec (mkCipherCtx (cipher ctx) (cipher_data ctx) 0 b) p1 mode enc key
                (snd (crypt f (ca_block alg) iv blk)) m1 (inp + n1) (len - n1) (out + ca_block alg) (ca_block alg) x2 d1)
      as (ctx' & m' & d' & Er & Hc2 & Hk' & Hst & Hok); try done; rewrite ?Hx2l; try lia.
    { by destruct Hc1 as [-> _]. }
    rewrite Hx2l in *. fold f in Hst, Hok.
    exists ctx', m', d'. rewrite Hnn. split; [exact Er|]. split; [by transitivity d1|]. split; [by rewrite Hk' |].
    assert (Hsplit : rest ++ x = blk ++ x2) by (unfold blk, x2; by rewrite <- app_assoc, firstn_skipn).
    assert (Hfn : firstn (Z.to_nat n) (rest ++ x) = blk ++ firstn (Z.to_nat (whole (len - n1))) x2).
    { rewrite Hsplit, Hnn, Z2Nat.inj_add by lia. rewrite firstn_app, firstn_all2 by (unfold Zlen in Hblen; lia).
      do 2 f_equal. unfold Zlen in Hblen. lia. }
    assert (Hsn : skipn (Z.to_nat n) (rest ++ x) = skipn (Z.to_nat (whole (len - n1))) x2).
    { rewrite Hsplit, Hnn, Z2Nat.inj_add by lia. rewrite skipn_app, skipn_all2 by (unfold Zlen in Hblen; lia).
      cbn [app]. f_equal. unfold Zlen in Hblen. lia. }
    rewrite <- Hnn, Hsn. unfold r. rewrite Hfn, crypt_app by (rewrite ?Hblen; try apply Z.mod_same; lia).
    destruct (crypt f (ca_block alg) iv blk) as [o1 iv1]. cbn [fst snd] in *.
    destruct (crypt f (ca_block alg) iv1 _) as [o2 iv2]. cbn [fst snd] in *. split; [|done].
    apply (store_app _ _ _ _ m1); [done|]. rewrite Ho1. done.
Qed.
End engine.
