(* ===== verification/McpCipherEngine.v ===== *)
(** * The cipher calls of [mcp.c] on the engine

    What the engine does with a cipher descriptor, and the proof that the
    descriptors built by [MCP_AES_DESC_INIT], [MCP_DES_DESC_INIT] and
    [MCP_TDES_DESC_INIT] make it the block cipher that [McpCipherProofs] needs. *)
From stdpp Require Import base tactics list numbers option.
From Stdlib Require Import ZArith Lia.
From S2P Require Import Prelude Buff McpEngine McpDgst McpDgstProofs McpCipher McpCipherProofs.

(** ** Words of a byte buffer *)

Definition word_at (h : list Z) (i : Z) : Z :=
  u32 (Z.shiftl h.[i] 24 + Z.shiftl h.[i + 1] 16 + Z.shiftl h.[i + 2] 8 + h.[i + 3]).
Definition word3_at (h : list Z) (i : Z) : Z :=
  u32 (Z.shiftl h.[i] 16 + Z.shiftl h.[i + 1] 8 + h.[i + 2]).

Lemma be_word_ok h i : 0 <= i -> i + 4 <= Zlen h -> be_word h i = Ret (word_at h i).
Proof. intros. unfold be_word. rewrite !rd_ok by lia. done. Qed.

Lemma be_word3_ok h i : 0 <= i -> i + 3 <= Zlen h -> be_word3 h i = Ret (word3_at h i).
Proof. intros. unfold be_word3. rewrite !rd_ok by lia. done. Qed.

Lemma slice4 h i : 0 <= i -> i + 4 <= Zlen h ->
  firstn 4 (skipn (Z.to_nat i) h) = [h.[i]; h.[i + 1]; h.[i + 2]; h.[i + 3]].
Proof.
  intros Hi Hl. unfold at_. unfold Zlen in Hl. rewrite !Z2Nat.inj_add by lia.
  change (Z.to_nat 1) with 1%nat. change (Z.to_nat 2) with 2%nat. change (Z.to_nat 3) with 3%nat.
  rewrite <- (Nat.add_0_r (Z.to_nat i)) at 2. rewrite <- !nth_skipn.
  assert (Hs : (4 <= length (skipn (Z.to_nat i) h))%nat) by (rewrite length_skipn; lia).
  destruct (skipn (Z.to_nat i) h) as [|a [|b [|c [|d t]]]]; simpl in Hs; try lia. done.
Qed.

Lemma word_at_bytes h i : Forall is_byte h -> 0 <= i -> i + 4 <= Zlen h ->
  word_bytes (word_at h i) = firstn 4 (skipn (Z.to_nat i) h).
Proof.
  intros Hb Hi Hl. rewrite slice4 by done. apply word_bytes_word; apply at_Forall; (done || lia).
Qed.

(** Two and four words in a row. *)
Lemma words_at_2 h : Forall is_byte h -> 8 <= Zlen h ->
  words_bytes [word_at h 0; word_at h 4] = firstn 8 h.
Proof.
  intros Hb Hl. unfold words_bytes. cbn [map concat]. rewrite !word_at_bytes by (done || lia).
  change (Z.to_nat 0) with 0%nat. change (Z.to_nat 4) with 4%nat.
  rewrite app_nil_r, drop_0. apply (take_take_drop h 4 4).
Qed.

Lemma words_at_4 h : Forall is_byte h -> 16 <= Zlen h ->
  words_bytes [word_at h 0; word_at h 4; word_at h 8; word_at h 12] = firstn 16 h.
Proof.
  intros Hb Hl. unfold words_bytes. cbn [map concat]. rewrite !word_at_bytes by (done || lia).
  change (Z.to_nat 0) with 0%nat. change (Z.to_nat 4) with 4%nat.
  change (Z.to_nat 8) with 8%nat. change (Z.to_nat 12) with 12%nat.
  rewrite app_nil_r, drop_0, !app_assoc, (take_take_drop h 4 4).
  change (4 + 4)%nat with 8%nat. rewrite (take_take_drop h 8 4).
  apply (take_take_drop h 12 4).
Qed.

(** ** The engine on cipher descriptors *)

Definition d_algo (d : mcp_desc) : Z := Z.land (flags d) 31.
Definition d_enc (d : mcp_desc) : Z := Z.land (Z.shiftr (flags d) 5) 1.
Definition d_mode (d : mcp_desc) : Z := Z.land (Z.shiftr (flags d) 6) 3.

(** Key and iv come from the descriptor (the OTP key and the iv register are
    not selected): the first [nk] words of [key] and the first [nv] of [iv]. *)
Definition cipher_engine (hw : mcp_hw) (algo bs : Z) (nk nv : nat) (E U : list Z -> list Z -> list Z) : Prop :=
  (forall ws b, byte_list bs b -> byte_list bs (E ws b)) /\
  (forall ws b, byte_list bs b -> byte_list bs (U ws b)) /\
  (forall d inp, d_algo d = algo -> Z.land (Z.shiftr (flags d) 11) 3 = 0 -> Zlen inp mod bs = 0 ->
     hw_exec hw d inp =
     fst (crypt (mode_step E U (d_mode d) (d_enc d) (firstn nk (key d))) bs (words_bytes (firstn nv (iv d))) inp)).

Definition aes_engine hw := cipher_engine hw MCP_ALGO_AES 16 4 4.
Definition des_engine hw := cipher_engine hw MCP_ALGO_DES 8 2 2.
Definition tdes_engine hw := cipher_engine hw MCP_ALGO_3DES 8 6 2.

(** The key words of a key buffer. *)
Definition aes_words (k : list Z) : list Z := [word_at k 0; word_at k 4; word_at k 8; word_at k 12].
Definition des_words (k : list Z) : list Z := [word_at k 0; word3_at k 4].
Definition tdes_words (k : list Z) : list Z :=
  [word_at k 0; word3_at k 4; word_at k 7; word3_at k 11; word_at k 14; word3_at k 18].
(** The three keys in the order used for decryption. *)
Definition tdes_words_rev (k : list Z) : list Z :=
  [word_at k 14; word3_at k 18; word_at k 7; word3_at k 11; word_at k 0; word3_at k 4].

Lemma land_7_mod n : 0 <= n -> align_down n 7 = n - n mod 8.
Proof. intros. apply (align_down_pow2 n 3); lia. Qed.

Lemma land_15_mod n : 0 <= n -> align_down n 15 = n - n mod 16.
Proof. intros. apply (align_down_pow2 n 4); lia. Qed.

(** A call on whole blocks runs the engine on all of them. *)
Lemma cipher_call_spec hw desc mask p inp q d :
  sem d = 1 -> align_down (Zlen inp) mask = Zlen inp ->
  exists d', mcp_cipher_call hw desc mask p inp q d =
    Ret ((xfer_ret hw [run_desc hw desc p q inp], hw_exec hw (run_desc hw desc p q inp) inp), d') /\ quiet d d'.
Proof.
  intros Hs Ha. unfold mcp_cipher_call. rewrite Ha. unfold Zlen at 3. rewrite Nat2Z.id, firstn_all.
  by apply mapped_command_spec.
Qed.

Lemma aes_CipherEngine hw E U : aes_engine hw E U ->
  CipherEngine hw aes_alg (fun k => E (aes_words k)) (fun k => U (aes_words k)).
Proof.
  intros (HE & HU & Hx). split; cbn [ca_block ca_buff ca_encrypt ca_decrypt aes_alg].
  - by exists 4.
  - lia.
  - intros. by apply HE.
  - intros. by apply HU.
  - intros enc mode key iv p inp q d Hs Henc Hmode [Hkl Hkb] Hvb Hvl Hib Him.
    pose proof (Zlen_nonneg inp).
    assert (Hal : align_down (Zlen inp) 15 = Zlen inp) by (rewrite land_15_mod, Him by lia; lia).
    set (desc := mkDesc (Z.lor (Z.lor 5 (MARS_MCP_BCM mode)) (MARS_MCP_ENC enc)) (aes_words key ++ [0; 0])
                   [word_at iv 0; word_at iv 4; word_at iv 8; word_at iv 12] 0 0 0).
    assert (Hinit : MCP_AES_DESC_INIT enc mode (Some key) (Some iv) = Ret (0, desc)).
    { unfold MCP_AES_DESC_INIT. rewrite !be_word_ok by lia. by destruct Hmode as [-> | ->]. }
    destruct (cipher_call_spec hw desc 15 p inp q d Hs Hal) as (d' & Ec & Hq).
    eexists _, d'. split; [|exact Hq].
    assert (Hout : hw_exec hw (run_desc hw desc p q inp) inp =
      fst (crypt (mode_step (fun k => E (aes_words k)) (fun k => U (aes_words k)) mode enc key) 16 (firstn 16 iv) inp)).
    { rewrite Hx; [| |by destruct Hmode as [-> | ->], Henc as [-> | ->]|done].
      - cbn [run_desc with_data desc McpEngine.key McpEngine.iv flags aes_words app firstn].
        rewrite words_at_4 by done. by destruct Hmode as [-> | ->], Henc as [-> | ->].
      - by destruct Hmode as [-> | ->], Henc as [-> | ->]. }
    rewrite Hout in Ec.
    destruct Henc as [-> | ->]; cbn [Z.eqb]; unfold MCP_AES_Decryption, MCP_AES_Encryption; dstep Hinit; exact Ec.
Qed.

Lemma des_CipherEngine hw E U : des_engine hw E U ->
  CipherEngine hw des_alg (fun k => E (des_words k)) (fun k => U (des_words k)).
Proof.
  intros (HE & HU & Hx). split; cbn [ca_block ca_buff ca_encrypt ca_decrypt des_alg].
  - by exists 3.
  - lia.
  - intros. by apply HE.
  - intros. by apply HU.
  - intros enc mode key iv p inp q d Hs Henc Hmode [Hkl Hkb] Hvb Hvl Hib Him.
    pose proof (Zlen_nonneg inp).
    assert (Hal : align_down (Zlen inp) 7 = Zlen inp) by (rewrite land_7_mod, Him by lia; lia).
    set (desc := mkDesc (Z.lor (Z.lor 0 (MARS_MCP_BCM mode)) (MARS_MCP_ENC enc)) (des_words key ++ [0; 0; 0; 0])
                   [word_at iv 0; word_at iv 4; 0; 0] 0 0 0).
    assert (Hinit : MCP_DES_DESC_INIT enc mode key (Some iv) = Ret desc).
    { unfold MCP_DES_DESC_INIT, iv_words2. rewrite !be_word_ok, be_word3_ok by lia. done. }
    destruct (cipher_call_spec hw desc 7 p inp q d Hs Hal) as (d' & Ec & Hq).
    eexists _, d'. split; [|exact Hq].
    assert (Hout : hw_exec hw (run_desc hw desc p q inp) inp =
      fst (crypt (mode_step (fun k => E (des_words k)) (fun k => U (des_words k)) mode enc key) 8 (firstn 8 iv) inp)).
    { rewrite Hx; [| |by destruct Hmode as [-> | ->], Henc as [-> | ->]|done].
      - cbn [run_desc with_data desc McpEngine.key McpEngine.iv flags des_words app firstn].
        rewrite words_at_2 by done. by destruct Hmode as [-> | ->], Henc as [-> | ->].
      - by destruct Hmode as [-> | ->], Henc as [-> | ->]. }
    rewrite Hout in Ec.
    destruct Henc as [-> | ->]; cbn [Z.eqb with_key_ptr]; unfold MCP_DES_Decryption, MCP_DES_Encryption; dstep Hinit; exact Ec.
Qed.

(** The driver loads the three keys in the opposite order to decrypt. *)
Lemma tdes_CipherEngine hw E U : tdes_engine hw E U ->
  CipherEngine hw tdes_alg (fun k => E (tdes_words k)) (fun k => U (tdes_words_rev k)).
Proof.
  intros (HE & HU & Hx). split; cbn [ca_block ca_buff ca_encrypt ca_decrypt tdes_alg].
  - by exists 3.
  - lia.
  - intros. by apply HE.
  - intros. by apply HU.
  - intros enc mode key iv p inp q d Hs Henc Hmode [Hkl Hkb] Hvb Hvl Hib Him.
    pose proof (Zlen_nonneg inp).
    assert (Hal : align_down (Zlen inp) 7 = Zlen inp) by (rewrite land_7_mod, Him by lia; lia).
    set (desc := mkDesc (Z.lor (Z.lor 1 (MARS_MCP_BCM mode)) (MARS_MCP_ENC enc))
                   (if enc =? 0 then tdes_words_rev key else tdes_words key) [word_at iv 0; word_at iv 4; 0; 0] 0 0 0).
    assert (Hinit : MCP_TDES_DESC_INIT enc mode key (Some iv) = Ret desc).
    { unfold MCP_TDES_DESC_INIT, iv_words2. rewrite !be_word_ok, !be_word3_ok by lia. done. }
    destruct (cipher_call_spec hw desc 7 p inp q d Hs Hal) as (d' & Ec & Hq).
    eexists _, d'. split; [|exact Hq].
    assert (Hout : hw_exec hw (run_desc hw desc p q inp) inp =
      fst (crypt (mode_step (fun k => E (tdes_words k)) (fun k => U (tdes_words_rev k)) mode enc key) 8 (firstn 8 iv) inp)).
    { rewrite Hx; [| |by destruct Hmode as [-> | ->], Henc as [-> | ->]|done].
      - cbn [run_desc with_data desc McpEngine.key McpEngine.iv flags app firstn].
        rewrite words_at_2 by done. by destruct Hmode as [-> | ->], Henc as [-> | ->].
      - by destruct Hmode as [-> | ->], Henc as [-> | ->]. }
    rewrite Hout in Ec.
    destruct Henc as [-> | ->]; cbn [Z.eqb with_key_ptr]; unfold MCP_TDES_Decryption, MCP_TDES_Encryption; dstep Hinit; exact Ec.
Qed.

(** ** Sessions *)

(** Init, any number of updates and final, through [mcp_cipher.c].  Each update
    runs on a memory with the input at 0 and the output area behind it; the
    output is what the calls report. *)
Fixpoint cipher_updates (hw : mcp_hw) (ctx : MCP_CIPHER_CTX) (chunks : list (list Z)) :
    D (MCP_CIPHER_CTX * list Z) :=
  match chunks with
  | [] => mret (ctx, [])
  | x :: chunks' =>
      '(n, ctx, m) ← MCP_CipherUpdate hw ctx (x ++ replicate (length x + 16) 0) 0 (Zlen x) (Zlen x);
      o ← liftD (load m (Zlen x) n);
      '(ctx, os) ← cipher_updates hw ctx chunks';
      mret (ctx, o ++ os)
  end.

Definition cipher_session (hw : mcp_hw) (k : cipher_kind) (key iv : list Z) (enc : Z) (chunks : list (list Z)) :
    D (list Z) :=
  '(_, ctx) ← liftD (MCP_CipherInit MCP_CIPHER_CTX_init k (Some key) (Some iv) enc true);
  '(ctx, o) ← cipher_updates hw ctx chunks;
  '(n, _, m) ← liftD (MCP_CipherFinal ctx (replicate 32 0) 0);
  r ← liftD (load m 0 n);
  mret (o ++ r).

Definition kind_mode (k : cipher_kind) : Z :=
  match k with aes_128_ecb | des_ecb | tdes_ecb => MCP_BCM_ECB | _ => MCP_BCM_CBC end.

(** The key and the iv buffers after [ciph_init]. *)
Definition key_buff (k : cipher_kind) (key : list Z) : list Z :=
  firstn (Z.to_nat (ca_key (alg_of k))) key ++ replicate (Z.to_nat (ca_buff (alg_of k) - ca_key (alg_of k))) 0.
Definition start_iv (k : cipher_kind) (iv : list Z) : list Z :=
  if kind_mode k =? MCP_BCM_CBC then firstn (Z.to_nat (ca_block (alg_of k))) iv
  else replicate (Z.to_nat (ca_block (alg_of k))) 0.

(** The specification: whole blocks of the stream through the mode, the rest
    unchanged. *)
Definition stream_spec (f : mode_fun) (bs : Z) (iv x : list Z) : list Z :=
  let n := Z.to_nat (Zlen x - Zlen x mod bs) in
  fst (crypt f bs iv (firstn n x)) ++ skipn n x.

Section sessions.
Context (hw : mcp_hw) (k : cipher_kind) (E U : list Z -> list Z -> list Z).
Context `{HC : !CipherEngine hw (alg_of k) E U}.

Lemma whole_split a n : 0 <= n -> a mod ca_block (alg_of k) = 0 ->
  whole (alg_of k) (a + n) = a + whole (alg_of k) n.
Proof.
  intros Hn Ha. pose proof (cblock_range hw (alg_of k) E U). unfold whole.
  rewrite <- (Zplus_mod_idemp_l a), Ha, Z.add_0_l. lia.
Qed.

Lemma rest_bytes ctx mode enc key iv rest : ctx_ok (alg_of k) ctx mode enc key iv rest -> Forall is_byte rest.
Proof. intros [_ _ _ [_ Hb] Hr]. by apply (load_Forall _ (buff ctx) 0 (Zlen rest)). Qed.

Lemma cipher_updates_spec chunks ctx mode enc key iv rest d :
  sem d = 1 -> cipher ctx = Some k -> ctx_ok (alg_of k) ctx mode enc key iv rest -> Forall (Forall is_byte) chunks ->
  let t := rest ++ concat chunks in
  let n := whole (alg_of k) (Zlen t) in
  let r := crypt (mode_step E U mode enc key) (ca_block (alg_of k)) iv (firstn (Z.to_nat n) t) in
  exists ctx' d', cipher_updates hw ctx chunks d = Ret ((ctx', fst r), d') /\ calm d d' /\
    ctx_ok (alg_of k) ctx' mode enc key (snd r) (skipn (Z.to_nat n) t).
Proof.
  pose proof (cblock_range hw (alg_of k) E U) as Hbr.
  intros Hs Hk Hctx Hch. revert ctx iv rest d Hs Hk Hctx.
  induction Hch as [|x chunks Hx _ IH]; intros ctx iv rest d Hs Hk Hctx t n r.
  - assert (Hn : n = 0).
    { unfold n, t, whole. cbn [concat]. rewrite app_nil_r, Z.mod_small by (destruct Hctx; pose proof (Zlen_nonneg rest); lia). lia. }
    assert (Hr : r = ([], iv)) by (unfold r; rewrite Hn; apply crypt_nil).
    exists ctx, d. rewrite Hr, Hn. split; [done|]. split; [done|]. unfold t. cbn [concat].
    change (Z.to_nat 0) with 0%nat. by rewrite drop_0, app_nil_r.
  - cbn [cipher_updates]. pose proof (rest_bytes _ _ _ _ _ _ Hctx) as Hrb. pose proof (cx_short _ _ _ _ _ _ _ Hctx) as Hrs.
    set (m := x ++ replicate (length x + 16) 0).
    assert (Hml : Zlen m = 2 * Zlen x + 16) by (unfold m, Zlen; rewrite length_app, length_replicate; lia).
    assert (Hmb : Forall is_byte m).
    { unfold m. apply Forall_app. split; [done|]. apply Forall_replicate. unfold is_byte. lia. }
    assert (Hlx : load m 0 (Zlen x) = Ret x).
    { rewrite load_ok by (pose proof (Zlen_nonneg x); lia). unfold m, Zlen. change (Z.to_nat 0) with 0%nat.
      rewrite drop_0, Nat2Z.id, take_app_length. done. }
    pose proof (Zlen_nonneg x). pose proof (Zlen_nonneg rest).
    destruct (whole_range hw (alg_of k) E U (Zlen (rest ++ x))) as [Hw1 Hw2]; [apply Zlen_nonneg|].
    pose proof (Zlen_app rest x) as Hrx.
    destruct (MCP_CipherUpdate_spec hw (alg_of k) E U ctx k mode enc key iv rest m 0 (Zlen x) (Zlen x) x d
                Hs Hk eq_refl Hctx Hmb Hlx) as (ctx1 & m1 & d1 & E1 & Hc1 & Hk1 & Hst1 & Hctx1); [lia|lia|lia|].
    dstep E1. set (n1 := whole (alg_of k) (Zlen (rest ++ x))) in *.
    set (f := mode_step E U mode enc key) in *.
    set (r1 := crypt f (ca_block (alg_of k)) iv (firstn (Z.to_nat n1) (rest ++ x))) in *.
    destruct (firstn_aligned hw (alg_of k) E U (rest ++ x) n1 ltac:(lia) eq_refl) as [Hfl Hfm].
    assert (Hrxb : Forall is_byte (rest ++ x)) by (by apply Forall_app).
    destruct (crypt_ok f (ca_block (alg_of k)) iv (firstn (Z.to_nat n1) (rest ++ x)) ltac:(lia)
                (mode_step_sized hw (alg_of k) E U _ _ _)) as (Hol & _).
    { destruct Hctx as [(p & _ & Hp) _ _ _ _]. by apply (ciph_ok_iv hw (alg_of k) E U _ _ _ _ _ Hp). }
    { by apply Forall_take. }
    { by rewrite Hfl. }
    fold r1 in Hol. rewrite Hfl in Hol.
    assert (Ho1 : load m1 (Zlen x) n1 = Ret (fst r1)) by (rewrite <- Hol; by apply (load_store_same m)).
    dstep Ho1.
    destruct (IH ctx1 (snd r1) (skipn (Z.to_nat n1) (rest ++ x)) d1) as (ctx2 & d2 & E2 & Hc2 & Hctx2);
      [by destruct Hc1 as [-> _]|done|done|].
    dstep E2. exists ctx2, d2.
    assert (Ht : t = firstn (Z.to_nat n1) (rest ++ x) ++ (skipn (Z.to_nat n1) (rest ++ x) ++ concat chunks)).
    { unfold t. cbn [concat]. by rewrite app_assoc, (app_assoc (firstn _ _)), firstn_skipn. }
    set (t2 := skipn (Z.to_nat n1) (rest ++ x) ++ concat chunks) in *.
    assert (Hn : n = n1 + whole (alg_of k) (Zlen t2)).
    { unfold n. rewrite Ht, Zlen_app, Hfl. apply whole_split; [apply Zlen_nonneg|done]. }
    destruct (whole_range hw (alg_of k) E U (Zlen t2) (Zlen_nonneg _)) as [Hw3 _].
    assert (Hfl' : length (firstn (Z.to_nat n1) (rest ++ x)) = Z.to_nat n1) by (unfold Zlen in Hfl; lia).
    assert (Hft : firstn (Z.to_nat n) t =
                  firstn (Z.to_nat n1) (rest ++ x) ++ firstn (Z.to_nat (whole (alg_of k) (Zlen t2))) t2).
    { rewrite Ht, Hn, Z2Nat.inj_add by lia. rewrite firstn_app, firstn_all2 by lia. do 2 f_equal. lia. }
    assert (Hdt : skipn (Z.to_nat n) t = skipn (Z.to_nat (whole (alg_of k) (Zlen t2))) t2).
    { rewrite Ht, Hn, Z2Nat.inj_add by lia. rewrite skipn_app, skipn_all2 by lia. cbn [app]. f_equal. lia. }
    rewrite Hdt. unfold r. rewrite Hft, crypt_app by (rewrite ?Hfl; (done || lia)).
    fold f r1. destruct r1 as [o1 iv1]. cbn [fst snd] in *. fold f in Hctx2.
    destruct (crypt f (ca_block (alg_of k)) iv1 _) as [o2 iv2]. cbn [fst snd] in *.
    split; [done|]. split; [by transitivity d1|done].
Qed.

Lemma store_prefix n x : Zlen x <= Z.of_nat n ->
  store (replicate n 0) 0 x = Ret (x ++ replicate (n - length x) 0).
Proof.
  intros Hx. rewrite store_ok by (unfold Zlen in *; rewrite ?length_replicate; lia).
  change (Z.to_nat 0) with 0%nat. rewrite firstn_O, Nat.add_0_l. cbn [app].
  by rewrite drop_replicate.
Qed.

Lemma load_prefix x n : 0 <= n <= Zlen x -> load x 0 n = Ret (firstn (Z.to_nat n) x).
Proof. intros Hn. by rewrite load_ok by lia. Qed.

Lemma buffers_ok key : 0 <= ca_key (alg_of k) <= ca_buff (alg_of k) -> ca_key (alg_of k) <= Zlen key ->
  Forall is_byte key -> byte_list (ca_buff (alg_of k)) (key_buff k key).
Proof.
  intros Hr Hk Hb. unfold key_buff. split.
  - unfold Zlen in *. rewrite length_app, length_firstn, length_replicate. lia.
  - apply Forall_app. split; [by apply Forall_take|]. apply Forall_replicate. unfold is_byte. lia.
Qed.

Lemma CipherInit_spec key iv enc :
  0 <= ca_key (alg_of k) <= ca_buff (alg_of k) -> ca_key (alg_of k) <= Zlen key -> Forall is_byte key ->
  ca_block (alg_of k) <= Zlen iv -> Forall is_byte iv -> enc = 0 \/ enc = 1 ->
  exists ctx, MCP_CipherInit MCP_CIPHER_CTX_init k (Some key) (Some iv) enc true = Ret (0, ctx) /\
    cipher ctx = Some k /\
    ctx_ok (alg_of k) ctx (kind_mode k) enc (key_buff k key) (start_iv k iv) [].
Proof.
  intros Hr Hk Hkb Hv Hvb He. pose proof (cblock_range hw (alg_of k) E U) as Hbr.
  pose proof (@ce_buff hw (alg_of k) E U HC) as Hcb.
  assert (Hkey : (bs ← load key 0 (ca_key (alg_of k));
                  b ← store (replicate (Z.to_nat (ca_buff (alg_of k))) 0) 0 bs; Ret (Some b)) = Ret (Some (key_buff k key))).
  { rewrite load_prefix by lia. rewrite res_bind_Ret, store_prefix, res_bind_Ret.
    - unfold key_buff. do 4 f_equal. rewrite length_firstn. unfold Zlen in *. lia.
    - unfold Zlen in *. rewrite length_firstn. lia. }
  assert (Hiv : exists v, (if kind_mode k =? MCP_BCM_CBC
                 then bs ← load iv 0 (ca_block (alg_of k)); store (replicate (Z.to_nat (ca_buff (alg_of k))) 0) 0 bs
                 else Ret (replicate (Z.to_nat (ca_buff (alg_of k))) 0)) = Ret v /\
                 byte_list (ca_buff (alg_of k)) v /\ firstn (Z.to_nat (ca_block (alg_of k))) v = start_iv k iv).
  { unfold start_iv. assert (forall n, Forall is_byte (replicate n 0)) as Hz
      by (intros; apply Forall_replicate; unfold is_byte; lia).
    destruct (kind_mode k =? MCP_BCM_CBC).
    - rewrite load_prefix by lia. rewrite res_bind_Ret, store_prefix by (unfold Zlen in *; rewrite length_firstn; lia).
      eexists. split; [done|]. split.
      + split; [unfold Zlen in *; rewrite length_app, length_firstn, length_replicate; lia|].
        apply Forall_app. split; [by apply Forall_take|done].
      + rewrite firstn_app, firstn_firstn, Nat.min_id, length_firstn.
        replace (Z.to_nat (ca_block (alg_of k)) - _)%nat with 0%nat by (unfold Zlen in *; lia).
        by rewrite firstn_O, app_nil_r.
    - eexists. split; [done|]. split; [split; [unfold Zlen; rewrite length_replicate; lia|done]|].
      rewrite take_replicate. f_equal. lia. }
  destruct Hiv as (v & Ev & Hvv & Hvs).
  exists (mkCipherCtx (Some k) (Some (mkCiph (kind_mode k) enc (Some (key_buff k key)) v)) 0 (replicate 32 0)).
  split; [|split; [done|]].
  - assert (Henc : (if enc =? 0 then 0 else 1) = enc) by (by destruct He as [-> | ->]).
    unfold MCP_CipherInit, cipher_init, AES_128_ECB_Init, AES_128_CBC_Init, DES_ECB_Init, DES_CBC_Init, TDES_ECB_Init, TDES_CBC_Init,
      AES_Init, DES_Init, TDES_Init, ciph_init.
    destruct k; cbn [kind_mode alg_of Z.eqb MCP_CIPH_ECB_MODE MCP_CIPH_CBC_MODE MCP_BCM_CBC MCP_BCM_ECB Pos.eqb orb] in *;
      rewrite Hkey, res_bind_Ret, Ev, res_bind_Ret, Henc; done.
  - split; cbn [cipher_data buff_len buff]; try done.
    + eexists. split; [done|]. split; cbn [cd_mode cd_enc cd_key cd_iv]; try done.
      * destruct k; cbn [kind_mode]; tauto.
      * by apply buffers_ok.
    + unfold Zlen. simpl. lia.
    + split; [done|]. apply Forall_replicate. unfold is_byte. lia.
Qed.

Lemma cipher_session_spec key iv enc chunks d :
  0 <= ca_key (alg_of k) <= ca_buff (alg_of k) -> ca_key (alg_of k) <= Zlen key -> Forall is_byte key ->
  ca_block (alg_of k) <= Zlen iv -> Forall is_byte iv -> enc = 0 \/ enc = 1 ->
  Forall (Forall is_byte) chunks -> sem d = 1 ->
  exists d', cipher_session hw k key iv enc chunks d =
    Ret (stream_spec (mode_step E U (kind_mode k) enc (key_buff k key)) (ca_block (alg_of k)) (start_iv k iv) (concat chunks), d')
    /\ calm d d'.
Proof.
  intros Hr Hk Hkb Hv Hvb He Hch Hs. pose proof (cblock_range hw (alg_of k) E U) as Hbr.
  destruct (CipherInit_spec key iv enc Hr Hk Hkb Hv Hvb He) as (ctx & Ei & Hck & Hctx).
  unfold cipher_session. dstep Ei.
  destruct (cipher_updates_spec chunks ctx _ _ _ _ [] d Hs Hck Hctx Hch) as (ctx' & d' & Eu & Hc & Hctx').
  dstep Eu. cbn [app] in *. set (t := concat chunks) in *. set (n := whole (alg_of k) (Zlen t)) in *.
  exists d'. split; [|done]. unfold MCP_CipherFinal.
  destruct Hctx' as [_ Hbl Hsh [Hb32 _] Hload]. rewrite Hbl. unfold stream_spec. fold (whole (alg_of k) (Zlen t)). fold n.
  destruct (Z.eqb_spec (Zlen (skipn (Z.to_nat n) t)) 0) as [E0|E0].
  - assert (Hnil : skipn (Z.to_nat n) t = []) by (destruct (skipn (Z.to_nat n) t); [done|unfold Zlen in E0; simpl in E0; lia]).
    by rewrite Hnil.
  - pose proof (Zlen_nonneg (skipn (Z.to_nat n) t)).
    rewrite Hload, res_bind_Ret, store_prefix by lia. rewrite res_bind_Ret.
    erewrite bindD_Ret; [|by apply liftD_Ret].
    assert (Hl : load (skipn (Z.to_nat n) t ++ replicate (32 - length (skipn (Z.to_nat n) t)) 0) 0
                   (Zlen (skipn (Z.to_nat n) t)) = Ret (skipn (Z.to_nat n) t)).
    { rewrite load_prefix by (rewrite Zlen_app; pose proof (Zlen_nonneg (replicate (32 - length (skipn (Z.to_nat n) t)) 0)); lia).
      unfold Zlen. by rewrite Nat2Z.id, take_app_length. }
    cbv beta iota. by dstep Hl.
Qed.
End sessions.

(** ** Decryption inverts encryption *)

Lemma xorl_xorl n a b : byte_list n a -> byte_list n b -> xorl (xorl a b) b = a.
Proof.
  unfold byte_list, Zlen. revert n b. induction a as [|x a IH]; intros n b [Hn Ha] [Hm Hb]; [done|].
  destruct b as [|y b]; [simpl in *; lia|]. inversion Ha; subst. inversion Hb; subst. cbn [xorl].
  rewrite Z.lxor_assoc, Z.lxor_nilpotent, Z.lxor_0_r. f_equal.
  apply (IH (Z.of_nat (length a))); split; (done || simpl in *; lia).
Qed.

(** Block by block, the two directions of a mode are inverse when the block
    ciphers are. *)
Lemma run_blocks_inverse E U bs mode key n iv x :
  sized (Z.of_nat bs) (mode_step E U mode 1 key) ->
  (forall b, byte_list (Z.of_nat bs) b -> byte_list (Z.of_nat bs) (E key b) /\ U key (E key b) = b) ->
  byte_list (Z.of_nat bs) iv -> Forall is_byte x -> length x = (bs * n)%nat ->
  fst (run_blocks (mode_step E U mode 0 key) bs n iv (fst (run_blocks (mode_step E U mode 1 key) bs n iv x))) = x.
Proof.
  intros Hsz HEU. revert iv x. induction n as [|n IH]; intros iv x Hiv Hx Hl.
  - destruct x; [done|simpl in Hl; lia].
  - cbn [run_blocks].
    assert (Hb : byte_list (Z.of_nat bs) (firstn bs x)).
    { split; [unfold Zlen; rewrite length_firstn; lia|by apply Forall_take]. }
    assert (Hd : length (skipn bs x) = (bs * n)%nat) by (rewrite length_skipn; lia).
    set (fe := mode_step E U mode 1 key) in *. set (fd := mode_step E U mode 0 key).
    destruct (Hsz iv (firstn bs x) Hiv Hb) as [Ho Hiv1].
    assert (Hinv : fd iv (fst (fe iv (firstn bs x))) = (firstn bs x, snd (fe iv (firstn bs x)))).
    { unfold fd, fe, mode_step. destruct (mode =? MCP_BCM_CBC); cbn [Z.eqb fst snd].
      - destruct (HEU (xorl (firstn bs x) iv) (xorl_ok _ _ _ Hb Hiv)) as [_ ->].
        by rewrite (xorl_xorl (Z.of_nat bs)).
      - by destruct (HEU (firstn bs x) Hb) as [_ ->]. }
    destruct (fe iv (firstn bs x)) as [o iv1]. cbn [fst snd] in *.
    specialize (IH iv1 (skipn bs x) Hiv1 (Forall_drop _ _ _ Hx) Hd). fold fd in IH.
    destruct (run_blocks fe bs n iv1 (skipn bs x)) as [os iv2] eqn:Er. cbn [fst] in *.
    assert (Hol : length o = bs) by (destruct Ho as [Ho _]; unfold Zlen in Ho; lia).
    rewrite firstn_app, skipn_app, Hol, Nat.sub_diag, firstn_O, app_nil_r, firstn_all2, skipn_all2 by lia.
    cbn [app]. rewrite drop_0, Hinv. destruct (run_blocks fd bs n iv1 os) as [os' iv3]. cbn [fst] in *.
    by rewrite IH, firstn_skipn.
Qed.

Lemma stream_inverse E U bs mode key iv x :
  0 < bs -> sized bs (mode_step E U mode 1 key) ->
  (forall b, byte_list bs b -> byte_list bs (E key b) /\ U key (E key b) = b) ->
  byte_list bs iv -> Forall is_byte x ->
  stream_spec (mode_step E U mode 0 key) bs iv (stream_spec (mode_step E U mode 1 key) bs iv x) = x.
Proof.
  intros Hbs Hsz HEU Hiv Hx. unfold stream_spec.
  set (n := Zlen x - Zlen x mod bs). pose proof (Zlen_nonneg x).
  pose proof (Z.mod_pos_bound (Zlen x) bs Hbs). pose proof (Z.mod_le (Zlen x) bs ltac:(lia) Hbs).
  assert (Hn : 0 <= n <= Zlen x) by (unfold n; lia).
  assert (Hnm : n mod bs = 0) by (unfold n; rewrite Zminus_mod_idemp_r, Z.sub_diag; done).
  assert (Hfl : Zlen (firstn (Z.to_nat n) x) = n) by (unfold Zlen in *; rewrite length_firstn; lia).
  destruct (crypt_ok (mode_step E U mode 1 key) bs iv (firstn (Z.to_nat n) x) Hbs Hsz Hiv
              (Forall_take _ _ _ Hx) ltac:(by rewrite Hfl)) as (Hol & _).
  set (o := fst (crypt (mode_step E U mode 1 key) bs iv (firstn (Z.to_nat n) x))) in *.
  assert (Hsl : Zlen (skipn (Z.to_nat n) x) = Zlen x - n) by (unfold Zlen in *; rewrite length_skipn; lia).
  replace (Zlen (o ++ skipn (Z.to_nat n) x)) with (Zlen x) by (rewrite Zlen_app; lia). fold n.
  assert (Hoz : length o = Z.to_nat n) by (unfold Zlen in *; lia).
  rewrite firstn_app, skipn_app, Hoz, Nat.sub_diag, firstn_O, app_nil_r, firstn_all2, skipn_all2 by lia.
  cbn [app]. rewrite drop_0. unfold o, crypt at 1.
  apply Z.mod_divide in Hnm as [q Hq]; [|lia].
  assert (Hlen : length (firstn (Z.to_nat n) x) = (Z.to_nat bs * Z.to_nat q)%nat) by (unfold Zlen in Hfl; nia).
  fold o. rewrite Hoz. replace (Z.to_nat n / Z.to_nat bs)%nat with (Z.to_nat q) by (rewrite Hq, Z2Nat.inj_mul, Nat.div_mul; nia).
  unfold o, crypt. rewrite Hlen, Nat.mul_comm, Nat.div_mul by lia.
  rewrite run_blocks_inverse; [by rewrite firstn_skipn| | | |by apply Forall_take|lia];
    by rewrite ?Z2Nat.id by lia.
Qed.
