(* ===== verification/McpCipherTheorems.v ===== *)
(** * Properties of the ciphers

    Streaming, round trips, and the overlapping buffers that the device driver
    passes. *)
From stdpp Require Import base tactics list numbers option.
From Stdlib Require Import ZArith Lia.
From S2P Require Import Prelude Buff McpEngine McpDgst McpDgstProofs McpCipher McpCipherProofs McpCipherEngine.

(** ** Demonstration cipher *)

Definition zsum (ws : list Z) : Z := fold_right Z.add 0 ws.
Definition demo_E (ws b : list Z) : list Z := map (fun x => (x + zsum ws) mod 256) b.
Definition demo_U (ws b : list Z) : list Z := map (fun x => (x - zsum ws) mod 256) b.

Lemma demo_cipher_ok (f : Z -> Z) n b : byte_list n b -> byte_list n (map (fun x => f x mod 256) b).
Proof.
  intros [Hl _]. split; [unfold Zlen in *; by rewrite length_map|].
  apply List.Forall_forall. intros x Hx. apply in_map_iff in Hx as (y & <- & _). apply Z.mod_pos_bound. lia.
Qed.

Lemma demo_UE ws ws' b : zsum ws = zsum ws' -> Forall is_byte b -> demo_U ws' (demo_E ws b) = b.
Proof.
  intros Hs Hb. unfold demo_U, demo_E. rewrite map_map, Hs.
  induction Hb as [|x b Hx Hb IH]; [done|]. cbn [map]. rewrite IH. f_equal.
  rewrite Zminus_mod_idemp_l. replace (x + zsum ws' - zsum ws') with x by lia. apply Z.mod_small. apply Hx.
Qed.

(** An engine with this cipher in all three algorithms. *)
Definition demo_chw : mcp_hw := mkHw 8192 (fun a => a)
  (fun d inp =>
     if d_algo d =? MCP_ALGO_AES then
       fst (crypt (mode_step demo_E demo_U (d_mode d) (d_enc d) (firstn 4 (key d))) 16 (words_bytes (firstn 4 (iv d))) inp)
     else if d_algo d =? MCP_ALGO_DES then
       fst (crypt (mode_step demo_E demo_U (d_mode d) (d_enc d) (firstn 2 (key d))) 8 (words_bytes (firstn 2 (iv d))) inp)
     else
       fst (crypt (mode_step demo_E demo_U (d_mode d) (d_enc d) (firstn 6 (key d))) 8 (words_bytes (firstn 2 (iv d))) inp))
  (fun _ _ => (0, MCP_RING_EMPTY)).

Lemma demo_aes : aes_engine demo_chw demo_E demo_U.
Proof.
  split; [intros ws b; apply demo_cipher_ok|]. split; [intros ws b; apply demo_cipher_ok|].
  intros d inp Ha _ _. cbn [hw_exec demo_chw]. by rewrite Ha.
Qed.

(** ** AES *)

(** C3: streaming AES.  However a byte stream is cut into updates, the outputs
    of the updates and of the final call together are the ECB or CBC encryption
    (or decryption) of its whole 16-byte blocks, followed by the incomplete last
    block as it is; the semaphore and the DMA mappings are as before. *)
Theorem aes_streaming hw E U k key iv enc chunks d :
  aes_engine hw E U -> k = aes_128_ecb \/ k = aes_128_cbc ->
  16 <= Zlen key -> Forall is_byte key -> 16 <= Zlen iv -> Forall is_byte iv -> enc = 0 \/ enc = 1 ->
  Forall (Forall is_byte) chunks -> sem d = 1 ->
  exists d', cipher_session hw k key iv enc chunks d =
    Ret (stream_spec (mode_step (fun kb => E (aes_words kb)) (fun kb => U (aes_words kb))
                        (kind_mode k) enc (key_buff k key)) 16 (start_iv k iv) (concat chunks), d') /\ calm d d'.
Proof.
  intros He Hk Hkl Hkb Hvl Hvb Henc Hch Hs. pose proof (aes_CipherEngine hw E U He) as HC.
  destruct Hk as [-> | ->].
  - apply (cipher_session_spec hw aes_128_ecb (fun kb => E (aes_words kb)) (fun kb => U (aes_words kb)));
      cbn; (done || lia).
  - apply (cipher_session_spec hw aes_128_cbc (fun kb => E (aes_words kb)) (fun kb => U (aes_words kb)));
      cbn; (done || lia).
Qed.

Definition demo_ckey : list Z := [1; 2; 3; 4; 5; 6; 7; 8; 9; 10; 11; 12; 13; 14; 15; 16; 17; 18; 19; 20; 21].
Definition demo_iv : list Z := [99; 98; 97; 96; 95; 94; 93; 92; 91; 90; 89; 88; 87; 86; 85; 84].
Definition demo_chunks : list (list Z) := [replicate 7 65; replicate 30 66; [1; 2; 3]; replicate 5 67].

Lemma demo_ckey_bytes : Forall is_byte demo_ckey.
Proof. repeat constructor; unfold is_byte; lia. Qed.

Lemma demo_iv_bytes : Forall is_byte demo_iv.
Proof. repeat constructor; unfold is_byte; lia. Qed.

Lemma demo_chunks_bytes : Forall (Forall is_byte) demo_chunks.
Proof. unfold demo_chunks. cbn [replicate]. repeat constructor; unfold is_byte; lia. Qed.

Lemma aes_streaming_witness :
  exists d', cipher_session demo_chw aes_128_cbc demo_ckey demo_iv 1 demo_chunks demo_dev =
    Ret (stream_spec (mode_step (fun kb => demo_E (aes_words kb)) (fun kb => demo_U (aes_words kb))
                        (kind_mode aes_128_cbc) 1 (key_buff aes_128_cbc demo_ckey)) 16
           (start_iv aes_128_cbc demo_iv) (concat demo_chunks), d') /\ calm demo_dev d'.
Proof.
  apply (aes_streaming demo_chw demo_E demo_U).
  - apply demo_aes.
  - by right.
  - vm_compute. discriminate.
  - apply demo_ckey_bytes.
  - vm_compute. discriminate.
  - apply demo_iv_bytes.
  - by right.
  - apply demo_chunks_bytes.
  - reflexivity.
Defined.

(** A decrypting session undoes an encrypting one. *)
Lemma session_roundtrip hw k E U key iv chunks chunks' out d0 d d1 :
  CipherEngine hw (alg_of k) E U ->
  0 <= ca_key (alg_of k) <= ca_buff (alg_of k) -> ca_key (alg_of k) <= Zlen key -> Forall is_byte key ->
  ca_block (alg_of k) <= Zlen iv -> Forall is_byte iv ->
  (forall b, byte_list (ca_block (alg_of k)) b -> U (key_buff k key) (E (key_buff k key) b) = b) ->
  Forall (Forall is_byte) chunks -> Forall (Forall is_byte) chunks' -> sem d0 = 1 -> sem d = 1 ->
  cipher_session hw k key iv 1 chunks d0 = Ret (out, d1) -> concat chunks' = out ->
  exists d', cipher_session hw k key iv 0 chunks' d = Ret (concat chunks, d') /\ calm d d'.
Proof.
  intros HC Hr Hk Hkb Hv Hvb HEU Hch Hch' Hs0 Hs He Hout.
  pose proof (cblock_range hw (alg_of k) E U) as Hbr.
  destruct (cipher_session_spec hw k E U key iv 1 chunks d0 Hr Hk Hkb Hv Hvb (or_intror eq_refl) Hch Hs0) as (d2 & E2 & _).
  destruct (cipher_session_spec hw k E U key iv 0 chunks' d Hr Hk Hkb Hv Hvb (or_introl eq_refl) Hch' Hs) as (d3 & E3 & C3).
  exists d3. split; [|done]. rewrite E3. rewrite E2 in He. injection He as Ho _. rewrite Hout, <- Ho.
  f_equal. f_equal. apply stream_inverse; [lia|by apply (mode_step_sized hw (alg_of k) E U)| | |].
  - intros b Hb. split; [by apply (@ce_E hw _ E U HC)|by apply HEU].
  - destruct (CipherInit_spec hw k E U key iv 1 Hr Hk Hkb Hv Hvb (or_intror eq_refl)) as (ctx & _ & _ & Hctx).
    destruct Hctx as [(p & _ & Hp) _ _ _ _]. by apply (ciph_ok_iv hw (alg_of k) E U _ _ _ _ _ Hp).
  - apply Forall_concat. done.
Qed.

(** C34: AES round trip.  When the engine's block decryption inverts its block
    encryption, decrypting the output of an encrypting session, cut into pieces
    in any other way, gives the original stream back. *)
Theorem aes_roundtrip hw E U k key iv chunks chunks' out d0 d d1 :
  aes_engine hw E U -> k = aes_128_ecb \/ k = aes_128_cbc ->
  (forall ws b, byte_list 16 b -> U ws (E ws b) = b) ->
  16 <= Zlen key -> Forall is_byte key -> 16 <= Zlen iv -> Forall is_byte iv ->
  Forall (Forall is_byte) chunks -> Forall (Forall is_byte) chunks' -> sem d0 = 1 -> sem d = 1 ->
  cipher_session hw k key iv 1 chunks d0 = Ret (out, d1) -> concat chunks' = out ->
  exists d', cipher_session hw k key iv 0 chunks' d = Ret (concat chunks, d') /\ calm d d'.
Proof.
  intros He Hk HEU Hkl Hkb Hvl Hvb Hch Hch' Hs0 Hs. pose proof (aes_CipherEngine hw E U He) as HC.
  destruct Hk as [-> | ->].
  - apply (session_roundtrip hw aes_128_ecb _ _ key iv chunks chunks' out d0 d d1 HC); cbn; try done; try lia.
    intros b Hb. by apply HEU.
  - apply (session_roundtrip hw aes_128_cbc _ _ key iv chunks chunks' out d0 d d1 HC); cbn; try done; try lia.
    intros b Hb. by apply HEU.
Qed.

Lemma aes_roundtrip_witness :
  exists d', cipher_session demo_chw aes_128_cbc demo_ckey demo_iv 0
      [firstn 20 (stream_spec (mode_step (fun kb => demo_E (aes_words kb)) (fun kb => demo_U (aes_words kb))
                        (kind_mode aes_128_cbc) 1 (key_buff aes_128_cbc demo_ckey)) 16
           (start_iv aes_128_cbc demo_iv) (concat demo_chunks));
       skipn 20 (stream_spec (mode_step (fun kb => demo_E (aes_words kb)) (fun kb => demo_U (aes_words kb))
                        (kind_mode aes_128_cbc) 1 (key_buff aes_128_cbc demo_ckey)) 16
           (start_iv aes_128_cbc demo_iv) (concat demo_chunks))] demo_dev
    = Ret (concat demo_chunks, d') /\ calm demo_dev d'.
Proof.
  eapply (aes_roundtrip demo_chw demo_E demo_U aes_128_cbc demo_ckey demo_iv demo_chunks _ _ demo_dev demo_dev).
  - apply demo_aes.
  - by right.
  - intros ws b [_ Hb]. by apply demo_UE.
  - vm_compute. discriminate.
  - apply demo_ckey_bytes.
  - vm_compute. discriminate.
  - apply demo_iv_bytes.
  - apply demo_chunks_bytes.
  - vm_compute. repeat constructor; discriminate.
  - reflexivity.
  - reflexivity.
  - vm_compute. reflexivity.
  - vm_compute. reflexivity.
Defined.

(** ** Triple DES *)

(** The engine applies the three keys in slot order: encryption with the first
    and the third, decryption with the second; in decryption mode the other way
    round. *)
Definition ede (e u : list Z -> list Z -> list Z) (ws b : list Z) : list Z :=
  e (firstn 2 (skipn 4 ws)) (u (firstn 2 (skipn 2 ws)) (e (firstn 2 ws) b)).

(** The descriptor's key order inverts: the slots of a decryption are those of
    the encryption from last to first. *)
Lemma ede_inverse e u kb b :
  (forall ws b, byte_list 8 b -> byte_list 8 (e ws b) /\ u ws (e ws b) = b) ->
  (forall ws b, byte_list 8 b -> byte_list 8 (u ws b) /\ e ws (u ws b) = b) ->
  byte_list 8 b -> ede u e (tdes_words_rev kb) (ede e u (tdes_words kb) b) = b.
Proof.
  intros He Hu Hb. unfold ede, tdes_words, tdes_words_rev. cbn [firstn skipn].
  destruct (He [word_at kb 0; word3_at kb 4] b Hb) as [H1 I1].
  destruct (Hu [word_at kb 7; word3_at kb 11] _ H1) as [H2 I2].
  destruct (He [word_at kb 14; word3_at kb 18] _ H2) as [_ I3].
  by rewrite I3, I2, I1.
Qed.

(** TDES round trip.  [MCP_TDES_DESC_INIT] loads the three 56-bit keys from
    first to last for encryption and from last to first for decryption; on an
    engine that applies its slots in order this makes a decrypting session the
    inverse of an encrypting one, for every cutting of the stream. *)
Theorem tdes_roundtrip hw e u k key iv chunks chunks' out d0 d d1 :
  tdes_engine hw (ede e u) (ede u e) -> k = tdes_ecb \/ k = tdes_cbc ->
  (forall ws b, byte_list 8 b -> byte_list 8 (e ws b) /\ u ws (e ws b) = b) ->
  (forall ws b, byte_list 8 b -> byte_list 8 (u ws b) /\ e ws (u ws b) = b) ->
  21 <= Zlen key -> Forall is_byte key -> 8 <= Zlen iv -> Forall is_byte iv ->
  Forall (Forall is_byte) chunks -> Forall (Forall is_byte) chunks' -> sem d0 = 1 -> sem d = 1 ->
  cipher_session hw k key iv 1 chunks d0 = Ret (out, d1) -> concat chunks' = out ->
  exists d', cipher_session hw k key iv 0 chunks' d = Ret (concat chunks, d') /\ calm d d'.
Proof.
  intros Hen Hk He Hu Hkl Hkb Hvl Hvb Hch Hch' Hs0 Hs. pose proof (tdes_CipherEngine hw _ _ Hen) as HC.
  destruct Hk as [-> | ->].
  - apply (session_roundtrip hw tdes_ecb _ _ key iv chunks chunks' out d0 d d1 HC); cbn; try done; try lia.
    intros b Hb. by apply ede_inverse.
  - apply (session_roundtrip hw tdes_cbc _ _ key iv chunks chunks' out d0 d d1 HC); cbn; try done; try lia.
    intros b Hb. by apply ede_inverse.
Qed.

Definition demo_thw : mcp_hw := mkHw 8192 (fun a => a)
  (fun d inp =>
     fst (crypt (mode_step (ede demo_E demo_U) (ede demo_U demo_E) (d_mode d) (d_enc d) (firstn 6 (key d))) 8
            (words_bytes (firstn 2 (iv d))) inp))
  (fun _ _ => (0, MCP_RING_EMPTY)).

Lemma demo_EU ws b : Forall is_byte b -> demo_E ws (demo_U ws b) = b.
Proof.
  intros Hb. unfold demo_U, demo_E. rewrite map_map.
  induction Hb as [|x b Hx Hb IH]; [done|]. cbn [map]. rewrite IH. f_equal.
  rewrite Zplus_mod_idemp_l. replace (x - zsum ws + zsum ws) with x by lia. apply Z.mod_small. apply Hx.
Qed.

Lemma demo_tdes : tdes_engine demo_thw (ede demo_E demo_U) (ede demo_U demo_E).
Proof.
  split; [intros ws b Hb; unfold ede; by repeat apply demo_cipher_ok|].
  split; [intros ws b Hb; unfold ede; by repeat apply demo_cipher_ok|].
  intros d inp _ _ _. done.
Qed.

Lemma tdes_roundtrip_witness :
  exists d', cipher_session demo_thw tdes_ecb demo_ckey demo_iv 0
      [stream_spec (mode_step (fun kb => ede demo_E demo_U (tdes_words kb)) (fun kb => ede demo_U demo_E (tdes_words_rev kb))
                        (kind_mode tdes_ecb) 1 (key_buff tdes_ecb demo_ckey)) 8
           (start_iv tdes_ecb demo_iv) (concat demo_chunks)] demo_dev
    = Ret (concat demo_chunks, d') /\ calm demo_dev d'.
Proof.
  eapply (tdes_roundtrip demo_thw demo_E demo_U tdes_ecb demo_ckey demo_iv demo_chunks _ _ demo_dev demo_dev).
  - apply demo_tdes.
  - by left.
  - intros ws b Hb. split; [by apply demo_cipher_ok|]. by apply demo_UE, Hb.
  - intros ws b Hb. split; [by apply demo_cipher_ok|]. by apply demo_EU, Hb.
  - vm_compute. discriminate.
  - apply demo_ckey_bytes.
  - vm_compute. discriminate.
  - apply demo_iv_bytes.
  - apply demo_chunks_bytes.
  - vm_compute. repeat constructor; discriminate.
  - reflexivity.
  - reflexivity.
  - vm_compute. reflexivity.
  - vm_compute. reflexivity.
Defined.
