(* ===== verification/McpDev.v ===== *)
(** * Device files: [mcp_cipher_dev.c], [mcp_dgst_dev.c], [mcp_rsa_dev.c]

    The file operations through which user programs reach the ciphers, the
    digests and the signature check.  A pointer from user space is an address;
    [mcp_is_pli_address] (a lookup in the caller's memory map) tells whether it
    lies in memory shared with the kernel, which the driver then uses in place;
    otherwise the bytes are copied. *)
From stdpp Require Import base tactics list numbers option.
From Stdlib Require Import ZArith Lia.
From S2P Require Import Prelude Bi Rsa Buff McpEngine McpDgst McpCipher.

(** ** User memory *)

(** The caller's memory, by address, and the memory shared with the kernel, by
    offset from 0x80000000. *)
Record world := mkWorld { user : list Z; dvr : list Z }.
Definition set_user (w : world) (u : list Z) : world := mkWorld u (dvr w).
Definition set_dvr (w : world) (m : list Z) : world := mkWorld (user w) m.

Definition pli_to_kernel (a : Z) : Z := Z.lor (Z.land a 1073741823) 2147483648.
Definition koff (a : Z) : Z := pli_to_kernel a - 2147483648.

(** [None]: not all bytes could be read. *)
Definition copy_from_user (w : world) (a n : Z) : option (list Z) :=
  match load (user w) a n with Ret bs => Some bs | _ => None end.

(** The number of bytes that could not be written, and the memory: the bytes
    up to the first one that is not mapped are written. *)
Definition copy_to_user (w : world) (a : Z) (bs : list Z) : Z * world :=
  let n := if a <? 0 then 0 else Z.min (Zlen bs) (Z.max 0 (Zlen (user w) - a)) in
  match store (user w) a (firstn (Z.to_nat n) bs) with
  | Ret u => (Zlen bs - n, set_user w u)
  | _ => (Zlen bs, w)
  end.

(** A little-endian word of a structure read from user space. *)
Definition le_word (bs : list Z) (i : Z) : Z :=
  bs.[i] + 256 * bs.[i + 1] + 65536 * bs.[i + 2] + 16777216 * bs.[i + 3].

(** ** [mcp_cipher_dev.c] *)

Definition MAX_CIPHER_KEY_SIZE : Z := 32.
Definition MAX_CIPHER_IV_SIZE : Z := 32.
Definition MCP_CIPHER_IOCTL_INIT : Z := 310611968.
Definition MCP_CIPHER_IOCTL_UPDATE : Z := MCP_CIPHER_IOCTL_INIT + 1.
Definition MCP_CIPHER_IOCTL_FINAL : Z := MCP_CIPHER_IOCTL_INIT + 2.

Record MCP_CIPHER_PARAM := mkParam {
  cp_type : Z;
  cp_enc : Z;
  cp_key_len : Z;
  cp_key : Z;
  cp_iv_len : Z;
  cp_iv : Z
}.

(** The 16 bytes of the structure. *)
Definition cipher_param (bs : list Z) : MCP_CIPHER_PARAM :=
  mkParam bs.[0] bs.[1] bs.[2] (le_word bs 4) bs.[8] (le_word bs 12).

Definition cipher_of_type (t : Z) : option cipher_kind :=
  if t =? 32 then Some aes_128_ecb
  else if t =? 33 then Some aes_128_cbc
  else if t =? 0 then Some des_ecb
  else if t =? 1 then Some des_cbc
  else if t =? 16 then Some tdes_ecb
  else if t =? 17 then Some tdes_cbc
  else None.

(** One of the two copies of [mcp_cipher_do_init]: [None] when the copy fails,
    otherwise the pointer to pass on.  [n] is cut to the size of the field. *)
Definition param_bytes (w : world) (p n max : Z) : option (option (list Z)) :=
  if negb (p =? 0) && negb (n =? 0) then
    let n := if n >? max then max else n in
    match copy_from_user w p n with
    | Some bs => Some (Some (bs ++ replicate (Z.to_nat (max - n)) 0))
    | None => None
    end
  else Some None.

Section devices.
Variable hw : mcp_hw.
Variable mcp_is_pli_address : Z -> bool.
(** The allocators' answers: the bytes of a block of [n] bytes, or NULL. *)
Variable kalloc : Z -> option (list Z).

(** The iv is behind the key in one buffer of 64 bytes, so that what follows
    the key is the iv. *)
Definition mcp_cipher_do_init (ctx : MCP_CIPHER_CTX) (param : MCP_CIPHER_PARAM) (w : world) (kmalloc_ok : bool) :
    res (Z * MCP_CIPHER_CTX) :=
  match cipher_of_type (cp_type param) with
  | None => Ret (- EFAULT, ctx)
  | Some c =>
      match param_bytes w (cp_key param) (cp_key_len param) MAX_CIPHER_KEY_SIZE with
      | None => Ret (- EFAULT, ctx)
      | Some key =>
          match param_bytes w (cp_iv param) (cp_iv_len param) MAX_CIPHER_IV_SIZE with
          | None => Ret (- EFAULT, ctx)
          | Some iv =>
              let zero := replicate 32 0 in
              let tail := match iv with Some v => v | None => zero end in
              MCP_CipherInit ctx c (match key with Some k => Some (k ++ tail) | None => None end) iv
                (cp_enc param) kmalloc_ok
          end
      end
  end.

(** The four cases of where the buffers are.  When only one is shared memory,
    the kernel buffer and the shared memory are one address space here, the
    kernel buffer being the part that an overrun leaves.  [do_cipher] does not
    return a negative length. *)
Definition mcp_cipher_do_update (ctx : MCP_CIPHER_CTX) (inp len out : Z) (w : world) :
    D (Z * MCP_CIPHER_CTX * world) :=
  if mcp_is_pli_address inp && mcp_is_pli_address out then
    '(n, ctx, m) ← MCP_CipherUpdate hw ctx (dvr w) (koff inp) len (koff out);
    mret (n, ctx, set_dvr w m)
  else
    match kalloc len with
    | None => mret (- EFAULT, ctx, w)
    | Some b =>
        if mcp_is_pli_address inp then
          _ ← liftD (load (dvr w) (koff inp) len);
          '(n, ctx, m) ← MCP_CipherUpdate hw ctx (dvr w ++ b) (koff inp) len (Zlen (dvr w));
          o ← liftD (load m (Zlen (dvr w)) n);
          let '(rest, w) := copy_to_user w out o in
          mret (if rest =? 0 then n else - EFAULT, ctx, w)
        else
          match copy_from_user w inp len with
          | None => mret (- EFAULT, ctx, w)
          | Some b =>
              if mcp_is_pli_address out then
                '(n, ctx, m) ← MCP_CipherUpdate hw ctx (b ++ dvr w) 0 len (len + koff out);
                mret (n, ctx, set_dvr w (skipn (Z.to_nat len) m))
              else
                '(n, ctx, m) ← MCP_CipherUpdate hw ctx b 0 len 0;
                o ← liftD (load m 0 n);
                let '(rest, w) := copy_to_user w out o in
                mret (if rest =? 0 then n else - EFAULT, ctx, w)
          end
    end.

(** The stack buffer of [mcp_cipher_do_final] is not initialised; only the
    bytes written to it are copied. *)
Definition mcp_cipher_do_final (ctx : MCP_CIPHER_CTX) (out : Z) (w : world) : res (Z * MCP_CIPHER_CTX * world) :=
  if mcp_is_pli_address out then
    '(n, ctx, m) ← MCP_CipherFinal ctx (dvr w) (koff out);
    Ret (n, ctx, set_dvr w m)
  else
    '(n, ctx, m) ← MCP_CipherFinal ctx (replicate 32 0) 0;
    if n >? 0 then
      o ← load m 0 n;
      let '(rest, w) := copy_to_user w out o in
      Ret (if rest =? 0 then n else - EFAULT, ctx, w)
    else Ret (n, ctx, w).

(** The return value and [file->private_data]. *)
Definition mcp_cipher_open (kmalloc_ok : bool) : Z * option MCP_CIPHER_CTX :=
  if kmalloc_ok then (0, Some MCP_CIPHER_CTX_init) else (- EFAULT, None).

(** The return value, and whether the context data was released. *)
Definition mcp_cipher_release (ctx : option MCP_CIPHER_CTX) : Z * bool :=
  match ctx with
  | Some _ => let '(_, freed, _) := MCP_CIPHER_CTX_cleanup ctx in (0, freed)
  | None => (0, false)
  end.

Definition mcp_cipher_ioctl (file : option MCP_CIPHER_CTX) (cmd arg : Z) (w : world) (kmalloc_ok : bool) :
    D (Z * option MCP_CIPHER_CTX * world) :=
  if cmd =? MCP_CIPHER_IOCTL_INIT then
    match copy_from_user w arg 16 with
    | None => mret (- EFAULT, file, w)
    | Some bs =>
        ctx ← derefD file;
        '(ret, ctx) ← liftD (mcp_cipher_do_init ctx (cipher_param bs) w kmalloc_ok);
        mret (ret, Some ctx, w)
    end
  else if cmd =? MCP_CIPHER_IOCTL_UPDATE then
    match copy_from_user w arg 12 with
    | None => mret (- EFAULT, file, w)
    | Some bs =>
        ctx ← derefD file;
        '(ret, ctx, w) ← mcp_cipher_do_update ctx (le_word bs 0) (le_word bs 4) (le_word bs 8) w;
        mret (ret, Some ctx, w)
    end
  else if cmd =? MCP_CIPHER_IOCTL_FINAL then
    ctx ← derefD file;
    '(ret, ctx, w) ← liftD (mcp_cipher_do_final ctx arg w);
    mret (ret, Some ctx, w)
  else mret (- EFAULT, file, w).

(** ** [mcp_dgst_dev.c] *)

Variable al : alloc_fun.

Definition MCP_DGST_IOCTL_INIT : Z := 0.
Definition MCP_DGST_IOCTL_UPDATE : Z := 1.
Definition MCP_DGST_IOCTL_FINAL : Z := 2.
Definition MCP_DGST_IOCTL_PEEK : Z := 3.

Definition md_of_arg (arg : Z) : option md_kind :=
  if arg =? 0 then Some aes_h_md
  else if arg =? 1 then Some Mars_aes_h_md
  else if arg =? 2 then Some sha1_md
  else if arg =? 3 then Some Mars_sha1_md
  else None.

Definition set_private (ctx : MCP_MD_CTX) (b : option mcp_buff) : MCP_MD_CTX := mkCtx (digest ctx) (ctx_data ctx) b.

Definition mcp_dgst_dev_open (kmalloc_ok : bool) : Z * option MCP_MD_CTX :=
  if kmalloc_ok then (0, Some (set_private MCP_MD_CTX_init None)) else (- EFAULT, None).

(** The blocks released: the private buffer, those of the context, and the
    context itself (not listed). *)
Definition mcp_dgst_dev_release (file : option MCP_MD_CTX) : D (Z * list (option (allocator * Z))) :=
  match file with
  | Some ctx =>
      let f := match private_data ctx with Some b => [free_mcpb (Some b)] | None => [] end in
      '(_, g, _) ← MCP_MD_CTX_cleanup hw al file;
      mret (0, f ++ g)
  | None => mret (0, [])
  end.

(** A buffer described by the caller, in shared memory: the bytes from its head
    on are those of the shared memory. *)
Definition pli_buff (bs : list Z) (w : world) : mcp_buff :=
  let h := pli_to_kernel (le_word bs 0) in
  mkBuff 0 h (pli_to_kernel (le_word bs 4)) (pli_to_kernel (le_word bs 8)) (pli_to_kernel (le_word bs 12))
    (le_word bs 16) (skipn (Z.to_nat (koff (le_word bs 0))) (dvr w)).

(** The private buffer for [n] bytes: the old one when it has the room behind
    its head reserve ([int] against [unsigned long]), otherwise a new one. *)
Definition private_buff (old : option mcp_buff) (n : Z) : option mcp_buff :=
  match old with
  | Some k => let k := mcpb_purge k in if u32 (mcpb_tailroom k) <? n then alloc_mcpb al n else Some k
  | None => alloc_mcpb al n
  end.

Definition dgst_do_update (ctx : MCP_MD_CTX) (bs : list Z) (w : world) : D (Z * MCP_MD_CTX * world) :=
  if mcp_is_pli_address (le_word bs 0) then
    '(ret, c, b) ← MCP_DigestUpdate hw al (Some ctx) (pli_buff bs w);
    ctx ← derefD c;
    mret (ret, ctx, set_dvr w (firstn (Z.to_nat (koff (le_word bs 0))) (dvr w) ++ mem b))
  else
    let n := le_word bs 16 in
    match private_buff (private_data ctx) n with
    | None => mret (- EFAULT, set_private ctx None, w)
    | Some k =>
        match copy_from_user w (le_word bs 4) n with
        | None => mret (- EFAULT, set_private ctx (Some k), w)
        | Some x =>
            k ← liftD (bstore k (data k) x);
            '(ret, c, k) ← MCP_DigestUpdate hw al (Some ctx) (snd (mcpb_put k n));
            ctx ← derefD c;
            mret (ret, set_private ctx (Some k), w)
        end
    end.

(** The common end of FINAL and PEEK.  [copy_to_user] does not return a
    negative number, so that the size is returned in every case. *)
Definition dgst_out (ret : Z) (hash : list Z) (hash_len arg : Z) (w : world) : Z * world :=
  if ret <? 0 then (- EFAULT, w)
  else let '(rest, w) := copy_to_user w arg (firstn (Z.to_nat hash_len) hash) in
       (if rest <? 0 then - EFAULT else hash_len, w).

Definition mcp_dgst_dev_ioctl (file : option MCP_MD_CTX) (cmd arg : Z) (w : world) :
    D (Z * option MCP_MD_CTX * world) :=
  if cmd =? MCP_DGST_IOCTL_INIT then
    match md_of_arg arg with
    | Some k =>
        ctx ← derefD file;
        '(ret, ctx) ← MCP_DigestInit hw al ctx k;
        mret (ret, Some ctx, w)
    | None => mret (- EFAULT, file, w)
    end
  else if cmd =? MCP_DGST_IOCTL_UPDATE then
    match copy_from_user w arg 20 with
    | None => mret (- EFAULT, file, w)
    | Some bs =>
        ctx ← derefD file;
        '(ret, ctx, w) ← dgst_do_update ctx bs w;
        mret (ret, Some ctx, w)
    end
  else if cmd =? MCP_DGST_IOCTL_FINAL then
    '(ret, ctx, hash, hash_len) ← MCP_DigestFinal hw al file;
    let '(r, w) := dgst_out ret hash hash_len arg w in
    mret (r, ctx, w)
  else if cmd =? MCP_DGST_IOCTL_PEEK then
    '(ret, hash, hash_len) ← MCP_DigestPeek hw al file;
    let '(r, w) := dgst_out ret hash hash_len arg w in
    mret (r, file, w)
  else mret (- EFAULT, file, w).
End devices.

(** ** [mcp_rsa_dev.c] *)

(** The structure has four pointers to numbers in user memory, which [get]
    reads ([None]: the copy fails); [put_ok] tells whether the digest can be
    written back. *)
Record RSA_VERIFY := mkRsa { rv_signature : Z; rv_pub_exp : Z; rv_mod : Z; rv_dgst : Z }.

Section rsa_dev.
Variable get : Z -> option BI.
Variable put_ok : Z -> bool.

Definition MCP_RSA_IOCTL_VERIFY : Z := 16.
Definition DEF_RSA_MOD : list Z := replicate 16 70.

Definition free_if (p : option BI) : M unit := match p with Some _ => free_BI | None => mret tt end.

(** The objects released at [end_proc]. *)
Definition end_proc (signature pub_exp md dgst : option BI) : M unit :=
  _ ← free_if signature; _ ← free_if pub_exp; _ ← free_if md; free_if dgst.

(** [init_BI] and [copy_from_user] into the new object; [inl]: go to
    [end_proc].  A copy to NULL is a fault. *)
Definition fetch_BI (p : Z) : M (option BI + BI) :=
  o ← init_BI;
  _ ← deref o;
  match get p with
  | Some b => mret (inr b)
  | None => mret (inl o)
  end.

(** The return value, and the digest written to user memory, if any.  Every
    caller passes a structure; [copy_to_user] reads the digest. *)
Definition rsa_dev_do_rsa_verify (rsa : RSA_VERIFY) : M (Z * option BI) :=
  dgst ← init_BI;
  if rv_dgst rsa =? 0 then mret (- EFAULT, None)
  else if rv_signature rsa =? 0 then
    _ ← end_proc None None None dgst; mret (- EFAULT, None)
  else
    s ← fetch_BI (rv_signature rsa);
    match s with
    | inl s => _ ← end_proc s None None dgst; mret (- EFAULT, None)
    | inr s =>
        e ← (if rv_pub_exp rsa =? 0 then e ← move_p 65537; mret (inr e)
             else r ← fetch_BI (rv_pub_exp rsa);
                  mret (match r with inl e => inl e | inr e => inr (Some e) end));
        match e with
        | inl e => _ ← end_proc (Some s) e None dgst; mret (- EFAULT, None)
        | inr e =>
            m ← (if rv_mod rsa =? 0 then m ← InPutFromStr DEF_RSA_MOD HEX; mret (inr m)
                 else r ← fetch_BI (rv_mod rsa);
                      mret (match r with inl m => inl m | inr m => inr (Some m) end));
            match m with
            | inl m => _ ← end_proc (Some s) e m dgst; mret (- EFAULT, None)
            | inr m =>
                '(ret, d) ← rsa_verify (Some s) e m dgst;
                _ ← deref d;
                _ ← end_proc (Some s) e m d;
                mret (if put_ok (rv_dgst rsa) then (ret, d) else (- EFAULT, None))
            end
        end
    end.

Definition rsa_dev_ioctl (cmd : Z) (arg : option RSA_VERIFY) : M (Z * option BI) :=
  if cmd =? MCP_RSA_IOCTL_VERIFY then
    match arg with
    | None => mret (- EFAULT, None)
    | Some rsa => rsa_dev_do_rsa_verify rsa
    end
  else mret (- EFAULT, None).
End rsa_dev.
