(* ===== verification/McpDevTheorems.v ===== *)
(** * Properties of the device files *)
From stdpp Require Import base tactics list numbers option.
From Stdlib Require Import ZArith Zpow_facts Lia.
From S2P Require Import Prelude Bi BiArith BiDiv BiExp BiIO Rsa BiTheorems.
From S2P Require Import Buff McpEngine McpDgst McpDgstProofs McpCipher McpCipherProofs McpCipherEngine McpCipherTheorems McpDev.

(** ** Lemmas on user memory *)

Lemma copy_from_user_ok w a n x : load (user w) a n = Ret x -> copy_from_user w a n = Some x.
Proof. intros H. unfold copy_from_user. by rewrite H. Qed.

Lemma copy_to_user_ok w a bs u : store (user w) a bs = Ret u -> copy_to_user w a bs = (0, set_user w u).
Proof.
  intros H. unfold copy_to_user. pose proof (Zlen_nonneg bs).
  assert (Hr : 0 <= a /\ a + Zlen bs <= Zlen (user w)).
  { unfold store in H. destruct (_ && _) eqn:E; [|done]. rewrite andb_true_iff, !Z.leb_le in E. lia. }
  zcase. replace (Z.min (Zlen bs) _) with (Zlen bs) by lia.
  unfold Zlen at 1. rewrite Nat2Z.id, firstn_all, H. f_equal. lia.
Qed.

(** Nothing is written when the first byte is not mapped. *)
Lemma copy_to_user_none w a bs : Zlen (user w) <= a -> copy_to_user w a bs = (Zlen bs, w).
Proof.
  intros H. unfold copy_to_user. pose proof (Zlen_nonneg (user w)). pose proof (Zlen_nonneg bs). zcase.
  replace (Z.min (Zlen bs) _) with 0 by lia. change (firstn (Z.to_nat 0) bs) with (@nil Z).
  destruct (store (user w) a []) as [u| |] eqn:E; [|done|done].
  f_equal; [lia|]. unfold store in E. destruct (_ && _) eqn:E1; [|done]. injection E as <-.
  destruct w as [u m]. cbn [user dvr] in *. unfold set_user. cbn [user dvr length app].
  by rewrite Nat.add_0_r, firstn_skipn.
Qed.

(** ** The cipher device *)

(** an update through the device with ordinary user buffers.  When no bytes
    are left over from earlier updates, the kernel encrypts or decrypts in place
    in its own copy; the caller's output buffer gets exactly the whole blocks of
    the input, the rest is kept in the context, and the input may overlap the
    output. *)
Theorem cipher_dev_update hw E U is_pli kalloc k ctx mode enc key iv inp len out x b w d :
  aes_engine hw E U -> k = aes_128_ecb \/ k = aes_128_cbc -> cipher ctx = Some k ->
  ctx_ok aes_alg ctx mode enc key iv [] -> sem d = 1 ->
  is_pli inp = false -> is_pli out = false -> kalloc len = Some b ->
  Forall is_byte (user w) -> load (user w) inp len = Ret x ->
  let n := len - len mod 16 in
  let r := crypt (mode_step (fun kb => E (aes_words kb)) (fun kb => U (aes_words kb)) mode enc key) 16 iv
             (firstn (Z.to_nat n) x) in
  0 <= out -> out + n <= Zlen (user w) ->
  exists ctx' u d', mcp_cipher_do_update hw is_pli kalloc ctx inp len out w d = Ret ((n, ctx', set_user w u), d') /\
    calm d d' /\ store (user w) out (fst r) = Ret u /\
    ctx_ok aes_alg ctx' mode enc key (snd r) (skipn (Z.to_nat n) x).
Proof.
  intros He Hk Hck Hctx Hs Hpi Hpo Hka Hub Hx n r Ho Hon. pose proof (aes_CipherEngine hw E U He) as HC.
  pose proof (load_bounds _ _ _ _ Hx) as (Hi0 & Hl0 & Hil & Hxl).
  assert (Halg : alg_of k = aes_alg) by (by destruct Hk as [-> | ->]).
  assert (Hxb : Forall is_byte x) by (by apply (load_Forall _ (user w) inp len)).
  assert (Hlx : load x 0 len = Ret x) by (rewrite load_prefix by lia; rewrite <- Hxl; unfold Zlen; by rewrite Nat2Z.id, firstn_all).
  pose proof (Z.mod_pos_bound len 16 ltac:(lia)). pose proof (Z.mod_le len 16 ltac:(lia) ltac:(lia)).
  destruct (MCP_CipherUpdate_spec hw aes_alg _ _ ctx k mode enc key iv [] x 0 len 0 x d Hs Hck Halg Hctx Hxb Hlx)
    as (ctx' & m' & d' & Eu & Hc & _ & Hst & Hok).
  { lia. }
  { cbn [app]. unfold whole. cbn [ca_block aes_alg]. rewrite Hxl. lia. }
  { right. unfold Zlen. simpl. lia. }
  cbn [app] in *. unfold whole in *. cbn [ca_block aes_alg] in *. rewrite Hxl in *. fold n in Eu, Hst, Hok. fold r in Hst, Hok.
  assert (Hrl : Zlen (fst r) = n).
  { destruct (crypt_ok (mode_step (fun kb => E (aes_words kb)) (fun kb => U (aes_words kb)) mode enc key) 16 iv
               (firstn (Z.to_nat n) x)) as (Hol & _).
    - lia.
    - by apply (mode_step_sized hw aes_alg).
    - destruct Hctx as [(p & _ & Hp) _ _ _ _]. by apply (ciph_ok_iv hw aes_alg _ _ _ _ _ _ _ Hp).
    - by apply Forall_take.
    - unfold Zlen. rewrite length_firstn. unfold Zlen in Hxl. rewrite Nat.min_l by lia. unfold n.
      rewrite Z2Nat.id by lia. rewrite Zminus_mod_idemp_r, Z.sub_diag. done.
    - unfold r. rewrite Hol. unfold Zlen in *. rewrite length_firstn. lia. }
  assert (Hlo : load m' 0 n = Ret (fst r)) by (rewrite <- Hrl; by apply (load_store_same x)).
  assert (Hsu : exists u, store (user w) out (fst r) = Ret u) by (rewrite store_ok by lia; by eexists).
  destruct Hsu as [u Hsu].
  exists ctx', u, d'. split; [|done]. unfold mcp_cipher_do_update. rewrite Hpi, Hpo, Hka. cbn [andb].
  rewrite (copy_from_user_ok _ _ _ _ Hx). dstep Eu. dstep Hlo. by rewrite (copy_to_user_ok _ _ _ _ Hsu).
Qed.

(** A run of commands on an open file: the return values, and the memory. *)
Fixpoint ioctls (hw : mcp_hw) (file : option MCP_CIPHER_CTX) (cmds : list (Z * Z)) (w : world) :
    D (list Z * option MCP_CIPHER_CTX * world) :=
  match cmds with
  | [] => mret ([], file, w)
  | (cmd, arg) :: cmds' =>
      '(ret, file, w) ← mcp_cipher_ioctl hw (fun _ => false) (fun n => Some (replicate (Z.to_nat n) 0)) file cmd arg w true;
      '(rets, file, w) ← ioctls hw file cmds' w;
      mret (ret :: rets, file, w)
  end.

(** A caller's memory: an AES-ECB parameter structure at 16, two data
    structures at 32 and 48 for pieces of [n1] and [n2] bytes, the key at 64,
    the input at 96 and the output at 160. *)
Definition demo_user (n1 n2 : Z) : list Z :=
  replicate 16 0 ++
  [32; 1; 16; 0; 64; 0; 0; 0; 0; 0; 0; 0; 0; 0; 0; 0] ++
  [96; 0; 0; 0; n1; 0; 0; 0; 160; 0; 0; 0; 0; 0; 0; 0] ++
  [96 + n1; 0; 0; 0; n2; 0; 0; 0; 160; 0; 0; 0; 0; 0; 0; 0] ++
  firstn 16 demo_ckey ++ replicate 16 0 ++ map Z.of_nat (seq 1 64) ++ replicate 64 0.

Definition demo_world (n1 n2 : Z) : world := mkWorld (demo_user n1 n2) [].
Definition demo_cmds : list (Z * Z) :=
  [(MCP_CIPHER_IOCTL_INIT, 16); (MCP_CIPHER_IOCTL_UPDATE, 32); (MCP_CIPHER_IOCTL_UPDATE, 48)].

Lemma cipher_dev_update_witness :
  exists ctx' u d', mcp_cipher_do_update demo_chw (fun _ => false) (fun n => Some (replicate (Z.to_nat n) 0))
      (mkCipherCtx (Some aes_128_cbc) (Some (mkCiph 1 1 (Some (firstn 16 demo_ckey)) demo_iv)) 0 (replicate 32 0))
      96 40 160 (demo_world 4 40) demo_dev = Ret ((32, ctx', set_user (demo_world 4 40) u), d') /\
    calm demo_dev d'.
Proof.
  destruct (cipher_dev_update demo_chw demo_E demo_U (fun _ => false) (fun n => Some (replicate (Z.to_nat n) 0))
    aes_128_cbc (mkCipherCtx (Some aes_128_cbc) (Some (mkCiph 1 1 (Some (firstn 16 demo_ckey)) demo_iv)) 0 (replicate 32 0))
    1 1 (firstn 16 demo_ckey) demo_iv 96 40 160 (map Z.of_nat (seq 1 40)) (replicate 40 0) (demo_world 4 40) demo_dev)
    as (ctx' & u & d' & H & Hc & _).
  - apply demo_aes.
  - by right.
  - reflexivity.
  - split.
    + eexists. split; [reflexivity|]. split; cbn [cd_mode cd_enc cd_key cd_iv]; try done; [by right|by right| |].
      * split; [reflexivity|]. apply Forall_take, demo_ckey_bytes.
      * split; [reflexivity|]. apply demo_iv_bytes.
    + reflexivity.
    + reflexivity.
    + split; [reflexivity|]. apply Forall_replicate. unfold is_byte. lia.
    + reflexivity.
  - reflexivity.
  - reflexivity.
  - reflexivity.
  - reflexivity.
  - vm_compute. repeat constructor; discriminate.
  - reflexivity.
  - lia.
  - vm_compute. discriminate.
  - exists ctx', u, d'. split; [exact H|exact Hc].
Defined.

(** the device corrupts a stream that leaves bytes over.  The kernel buffer
    of an update has the size of its input, and serves as input and output.
    When bytes are buffered from the update before, the first output block is
    written over input that is still to be read (pieces of 4 and 40 bytes: the
    second block is not the one of the stream), and the output can be longer
    than the buffer (pieces of 15 and 17 bytes: the write leaves it). *)
Theorem cipher_dev_in_place :
  (exists file w d, ioctls demo_chw (Some MCP_CIPHER_CTX_init) demo_cmds (demo_world 4 40) demo_dev =
     Ret (([0; 0; 32], file, w), d) /\
     load (user w) 160 16 = load (stream_spec (mode_step (fun kb => demo_E (aes_words kb)) (fun kb => demo_U (aes_words kb))
                 MCP_BCM_ECB 1 (key_buff aes_128_ecb demo_ckey)) 16 (replicate 16 0) (map Z.of_nat (seq 1 44))) 0 16 /\
     load (user w) 176 16 <> load (stream_spec (mode_step (fun kb => demo_E (aes_words kb)) (fun kb => demo_U (aes_words kb))
                 MCP_BCM_ECB 1 (key_buff aes_128_ecb demo_ckey)) 16 (replicate 16 0) (map Z.of_nat (seq 1 44))) 16 16) /\
  ioctls demo_chw (Some MCP_CIPHER_CTX_init) demo_cmds (demo_world 15 17) demo_dev = Fault.
Proof.
  split; [|vm_compute; reflexivity].
  eexists _, _, _. split; [vm_compute; reflexivity|]. split; [vm_compute; reflexivity|vm_compute; discriminate].
Qed.

(** ** The digest device *)

(** FINAL does not report a failed copy.  When the digest is ready but the
    caller's address is not mapped, the command returns the size of the digest
    and writes nothing. *)
Theorem dgst_dev_final_unmapped hw is_pli al file ctx arg w d d' ret h n :
  MCP_DigestFinal hw al file d = Ret ((ret, ctx, h, n), d') -> 0 <= ret -> Zlen (user w) <= arg ->
  mcp_dgst_dev_ioctl hw is_pli al file MCP_DGST_IOCTL_FINAL arg w d = Ret ((n, ctx, w), d').
Proof.
  intros Hf Hr Ha. unfold mcp_dgst_dev_ioctl. cbn [Z.eqb Pos.eqb MCP_DGST_IOCTL_FINAL MCP_DGST_IOCTL_INIT MCP_DGST_IOCTL_UPDATE].
  dstep Hf. unfold dgst_out. rewrite copy_to_user_none by done. zcase.
  pose proof (Zlen_nonneg (firstn (Z.to_nat n) h)). by zcase.
Qed.

Lemma dgst_dev_final_unmapped_witness :
  exists ctx d', mcp_dgst_dev_ioctl demo_hw (fun _ => false) (fun _ _ => None)
     (Some (mkCtx (Some sha1_md) (Some (mkMD (Some demo_tmp) 0 0 SHA1InitHash)) None))
     MCP_DGST_IOCTL_FINAL 100 (mkWorld [] []) demo_dev = Ret ((20, ctx, mkWorld [] []), d').
Proof.
  eexists _, _. eapply (dgst_dev_final_unmapped demo_hw).
  - vm_compute. reflexivity.
  - lia.
  - vm_compute. discriminate.
Defined.

(** ** The RSA device *)

Section rsa_device.
Context (get : Z -> option BI) (put_ok : Z -> bool).

Lemma fetch_ok p b c l : (l < c)%nat -> get p = Some b -> fetch_BI get p (mkHeap c l) = Ret (inr b, mkHeap c (S l)).
Proof. intros Hl Hg. unfold fetch_BI. mstep (init_BI_ok c l Hl). by rewrite Hg. Qed.

Lemma fetch_fail p c l : (l < c)%nat -> get p = None ->
  fetch_BI get p (mkHeap c l) = Ret (inl (Some zeroBI), mkHeap c (S l)).
Proof. intros Hl Hg. unfold fetch_BI. mstep (init_BI_ok c l Hl). by rewrite Hg. Qed.

Lemma default_exponent c l : (l < c)%nat -> move_p 65537 (mkHeap c l) = Ret (Some demo_e, mkHeap c (S l)).
Proof.
  intros Hl. unfold move_p. mstep (init_BI_ok c l Hl).
  assert (H : move_p_fill zeroBI 65537 = Ret demo_e) by (vm_compute; reflexivity). by mstep H.
Qed.

(** Every object that was allocated is released. *)
Lemma end_proc_frees s e m d c l :
  end_proc s e m d (mkHeap c (length (omap id [s; e; m; d]) + l)) = Ret (tt, mkHeap c l).
Proof. by destruct s, e, m, d. Qed.

(** the signature check through the device.  With a valid signature in user
    memory, the default public exponent 65537 and a key in user memory, the
    command returns 0, gives the caller the signed digest, and releases all the
    objects it allocated. *)
Theorem rsa_dev_verify rsa signature md D n h c l :
  rv_dgst rsa <> 0 -> rv_signature rsa <> 0 -> rv_pub_exp rsa = 0 -> rv_mod rsa <> 0 ->
  get (rv_signature rsa) = Some signature -> get (rv_mod rsa) = Some md -> put_ok (rv_dgst rsa) = true ->
  modulus md -> operand md signature -> (l + 11 <= c)%nat ->
  Exp_Mod_with Sub_checked mod_fuel exp_fuel signature demo_e md (mkHeap c (4 + l)) <> Fault ->
  Forall is_byte D -> D <> [] -> (2 <= n)%nat -> h = 1 \/ h = 31 ->
  mag signature ^ 65537 mod mag md = le_num (padded D n h) ->
  exists R, rsa_dev_ioctl get put_ok MCP_RSA_IOCTL_VERIFY (Some rsa) (mkHeap c l) = Ret ((0, Some R), mkHeap c l) /\
    mag R = le_num D /\ m_nLength R = strip_len (Zlen D).
Proof.
  intros Hd Hs He Hm Hgs Hgm Hp Hmod Hop Hc Hf HD HD0 Hn Hh Hsig.
  destruct (rsa_verify_spec signature demo_e md zeroBI D n h c (4 + l) Hmod Hop) as (R & HR & HRD); try done.
  - bi_decide.
  - bi_decide.
  - lia.
  - exists R. split; [|done]. unfold rsa_dev_ioctl, rsa_dev_do_rsa_verify. cbn [Z.eqb Pos.eqb MCP_RSA_IOCTL_VERIFY].
    mstep (init_BI_ok c l ltac:(lia)). rewrite !(proj2 (Z.eqb_neq _ _)), He by done. cbn [Z.eqb].
    mstep (fetch_ok _ _ c (S l) ltac:(lia) Hgs).
    erewrite bindM_Ret; [|by mstep (default_exponent c (S (S l)) ltac:(lia))].
    cbv beta iota. erewrite bindM_Ret; [|by mstep (fetch_ok _ _ c (S (S (S l))) ltac:(lia) Hgm)].
    cbv beta iota. mstep HR. cbn [deref]. rewrite Hp.
    erewrite bindM_Ret; [|reflexivity].
    by mstep (end_proc_frees (Some signature) (Some demo_e) (Some md) (Some R) c l).
Qed.

(** C40: error paths of the signature command.  A missing signature pointer and a
    signature, exponent or key that cannot be read give -EFAULT with every
    object released; a missing digest pointer gives -EFAULT with one object
    leaked. *)
Theorem rsa_dev_errors rsa c l :
  (l + 4 <= c)%nat ->
  (rv_dgst rsa = 0 ->
     rsa_dev_do_rsa_verify get put_ok rsa (mkHeap c l) = Ret ((- EFAULT, None), mkHeap c (S l))) /\
  (rv_dgst rsa <> 0 ->
     rv_signature rsa = 0 \/ get (rv_signature rsa) = None \/
     (rv_pub_exp rsa <> 0 /\ get (rv_pub_exp rsa) = None) \/ (rv_mod rsa <> 0 /\ get (rv_mod rsa) = None) ->
     rsa_dev_do_rsa_verify get put_ok rsa (mkHeap c l) = Ret ((- EFAULT, None), mkHeap c l)).
Proof.
  intros Hc. split; intros Hd; unfold rsa_dev_do_rsa_verify.
  { mstep (init_BI_ok c l ltac:(lia)). by rewrite Hd. }
  intros H. mstep (init_BI_ok c l ltac:(lia)). rewrite (proj2 (Z.eqb_neq _ _) Hd).
  destruct (Z.eqb_spec (rv_signature rsa) 0) as [E|Es].
  { by mstep (end_proc_frees None None None (Some zeroBI) c l). }
  destruct (get (rv_signature rsa)) as [s|] eqn:Gs; cycle 1.
  { mstep (fetch_fail _ c (S l) ltac:(lia) Gs). by mstep (end_proc_frees (Some zeroBI) None None (Some zeroBI) c l). }
  mstep (fetch_ok _ _ c (S l) ltac:(lia) Gs).
  destruct H as [H|[H|H]]; [done|done|].
  assert (He : (rv_pub_exp rsa <> 0 /\ get (rv_pub_exp rsa) = None) \/
    exists e, (if rv_pub_exp rsa =? 0 then e ← move_p 65537; mret (inr e)
             else r ← fetch_BI get (rv_pub_exp rsa);
                  mret (match r with inl e => inl e | inr e => inr (Some e) end))
              (mkHeap c (S (S l))) = Ret (inr (Some e), mkHeap c (S (S (S l))))).
  { destruct (Z.eqb_spec (rv_pub_exp rsa) 0) as [E|E].
    - right. exists demo_e. by mstep (default_exponent c (S (S l)) ltac:(lia)).
    - destruct (get (rv_pub_exp rsa)) as [e|] eqn:Ge; [|by left].
      right. exists e. by mstep (fetch_ok _ _ c (S (S l)) ltac:(lia) Ge). }
  destruct He as [[He Ge]|[e Ee]].
  { rewrite (proj2 (Z.eqb_neq _ _) He).
    erewrite bindM_Ret; [|by mstep (fetch_fail _ c (S (S l)) ltac:(lia) Ge)]. cbv beta iota.
    by mstep (end_proc_frees (Some s) (Some zeroBI) None (Some zeroBI) c l). }
  mstep Ee. destruct H as [[H1 H2]|[Hm Gm]].
  { rewrite (proj2 (Z.eqb_neq _ _) H1) in Ee. by rewrite (bindM_Ret _ _ _ _ _ (fetch_fail _ c (S (S l)) ltac:(lia) H2)) in Ee. }
  rewrite (proj2 (Z.eqb_neq _ _) Hm).
  erewrite bindM_Ret; [|by mstep (fetch_fail _ c (S (S (S l))) ltac:(lia) Gm)]. cbv beta iota.
  by mstep (end_proc_frees (Some s) (Some e) (Some zeroBI) (Some zeroBI) c l).
Qed.
End rsa_device.

Definition demo_get (p : Z) : option BI :=
  if p =? 100 then Some demo_sig else if p =? 200 then Some BiTheorems.demo_key else None.

Lemma rsa_dev_verify_witness :
  exists R, rsa_dev_ioctl demo_get (fun _ => true) MCP_RSA_IOCTL_VERIFY (Some (mkRsa 100 0 200 300)) (mkHeap 11 0) =
      Ret ((0, Some R), mkHeap 11 0) /\
    mag R = le_num demo_dgst /\ m_nLength R = strip_len (Zlen demo_dgst).
Proof.
  apply (rsa_dev_verify demo_get (fun _ => true) (mkRsa 100 0 200 300) demo_sig BiTheorems.demo_key demo_dgst 8 1 11 0).
  - discriminate.
  - discriminate.
  - reflexivity.
  - discriminate.
  - reflexivity.
  - reflexivity.
  - reflexivity.
  - apply modulus_ok. vm_compute. reflexivity.
  - apply operand_ok. vm_compute. reflexivity.
  - lia.
  - apply not_fault. vm_compute. reflexivity.
  - repeat constructor; unfold is_byte; lia.
  - discriminate.
  - lia.
  - by left.
  - rewrite <- Zpow_mod_correct by (apply Z.eqb_neq; vm_compute; reflexivity).
    vm_compute. reflexivity.
Defined.

Lemma rsa_dev_errors_witness :
  rsa_dev_do_rsa_verify demo_get (fun _ => true) (mkRsa 100 0 200 0) (mkHeap 4 0) = Ret ((- EFAULT, None), mkHeap 4 1) /\
  rsa_dev_do_rsa_verify demo_get (fun _ => true) (mkRsa 100 0 150 300) (mkHeap 4 0) = Ret ((- EFAULT, None), mkHeap 4 0).
Proof.
  split.
  - apply (rsa_dev_errors demo_get (fun _ => true) (mkRsa 100 0 200 0) 4 0); [lia|reflexivity].
  - apply (rsa_dev_errors demo_get (fun _ => true) (mkRsa 100 0 150 300) 4 0); [lia|discriminate|].
    right. right. right. split; [discriminate|reflexivity].
Defined.
