(* ===== verification/Rpc.v ===== *)
(** * Inter-processor calls: [RPCpoll.c], [RPCintr.c], [RPCkern.c], [RPCDriver.c]

    The system CPU and the audio and video processors exchange messages through
    rings of 512 bytes in uncached memory: polled rings and interrupt rings for
    user programs, and rings for the kernel's own calls.  The three files have
    the same ring code; the model has it once ([ring_get], [ring_put]).

    A ring's pointers are addresses; [rmem] holds the bytes from [ringStart].
    Semaphores are counters: an operation that would sleep for ever is a
    [Fault]. *)
From stdpp Require Import base tactics list numbers option gmap.
From Stdlib Require Import ZArith Lia.
From S2P Require Import Prelude Buff.

Definition RPC_RING_SIZE : Z := 512.
Definition RPC_NR_DEVS : Z := 8.
Definition RPC_NR_PAIR : Z := 2.
Definition RPC_NR_KERN_DEVS : Z := 4.
Definition RPC_POLL_DEV_ADDR : Z := 2717900800.
Definition RPC_INTR_DEV_ADDR : Z := RPC_POLL_DEV_ADDR + RPC_RING_SIZE.
Definition RPC_KERN_DEV_ADDR : Z := 2717905408.
Definition RPC_RECORD_SIZE : Z := 64.
Definition RPC_POLL_RECORD_ADDR : Z := 2717904896.
Definition RPC_INTR_RECORD_ADDR : Z := RPC_POLL_RECORD_ADDR + RPC_RECORD_SIZE * (RPC_NR_DEVS / RPC_NR_PAIR).
Definition RPC_KERN_RECORD_ADDR : Z := 2717907456.
Definition ERESTARTSYS : Z := 512.
Definition RPC_OK : Z := 0.
Definition RPC_FAIL : Z := -1.
Definition RPC_AUDIO : Z := 0.
Definition RPC_VIDEO : Z := 1.
Definition KERNELID : Z := 98.

(** [RPC_POLL_Dev], [RPC_INTR_Dev], [RPC_KERN_Dev] *)
Record RPC_Dev := mkRing {
  ringStart : Z;
  ringEnd : Z;
  ringIn : Z;
  ringOut : Z;
  readSem : Z;
  writeSem : Z;
  rmem : list Z
}.

Definition set_in (r : RPC_Dev) (p : Z) (m : list Z) : RPC_Dev :=
  mkRing (ringStart r) (ringEnd r) p (ringOut r) (readSem r) (writeSem r) m.
Definition set_out (r : RPC_Dev) (p : Z) : RPC_Dev :=
  mkRing (ringStart r) (ringEnd r) (ringIn r) p (readSem r) (writeSem r) (rmem r).
Definition set_readSem (r : RPC_Dev) (n : Z) : RPC_Dev :=
  mkRing (ringStart r) (ringEnd r) (ringIn r) (ringOut r) n (writeSem r) (rmem r).
Definition set_writeSem (r : RPC_Dev) (n : Z) : RPC_Dev :=
  mkRing (ringStart r) (ringEnd r) (ringIn r) (ringOut r) (readSem r) n (rmem r).

(** ** [my_copy_user] *)

(** Words while four bytes are left; memories and pointers of the destination
    and the source. *)
Fixpoint copy_words (n : nat) (dm : list Z) (d : Z) (sm : list Z) (s size : Z) : res (list Z * Z * Z * Z) :=
  if size >=? 4 then
    match n with
    | O => OutOfFuel
    | S n' =>
        w ← load sm s 4;
        dm ← store dm d w;
        copy_words n' dm (d + 4) sm (s + 4) (size - 4)
    end
  else Ret (dm, d, s, size).

Definition copy_bytes (dm : list Z) (d : Z) (sm : list Z) (s size : Z) : res (list Z) :=
  forU (Z.to_nat size) 0 (fun i dm => b ← load sm (s + i) 1; store dm (d + i) b) dm.

(** It returns 0 in every case; the result is the destination memory. *)
Definition my_copy_user (dm : list Z) (d : Z) (sm : list Z) (s size : Z) : res (list Z) :=
  '(dm, d, s, size) ← copy_words (Z.to_nat size) dm d sm s size;
  copy_bytes dm d sm s size.

(** ** The ring code *)

(** [(count+3) & 0xfffffffc] *)
Definition align4 (count : Z) : Z := Z.land (u32 (count + 3)) 4294967292.

(** The bytes in the ring. *)
Definition ring_used (r : RPC_Dev) : Z :=
  if ringIn r =? ringOut r then 0
  else if ringIn r >? ringOut r then ringIn r - ringOut r
  else RPC_RING_SIZE + ringIn r - ringOut r.

(** The rest of a read when [size] bytes are available.  [size] and [temp] are
    signed, [count] is not. *)
Definition ring_get (r : RPC_Dev) (size : Z) (buf : list Z) (count : Z) : res (Z * RPC_Dev * list Z) :=
  let count := if count >? u32 size then size else count in
  let temp := ringEnd r - ringOut r in
  if u32 temp >=? count then
    buf ← my_copy_user buf 0 (rmem r) (ringOut r - ringStart r) count;
    let ptmp := ringOut r + align4 count in
    Ret (count, set_out r (if ptmp =? ringEnd r then ringStart r else ptmp), buf)
  else
    buf ← my_copy_user buf 0 (rmem r) (ringOut r - ringStart r) temp;
    let count := count - temp in
    buf ← my_copy_user buf temp (rmem r) 0 count;
    Ret (temp + count, set_out r (ringStart r + align4 count), buf).

(** A write: [false] when there is no room and nothing is done. *)
Definition ring_put (r : RPC_Dev) (buf : list Z) (count : Z) : res (bool * Z * RPC_Dev) :=
  let size := ring_used r in
  if count >? u32 (RPC_RING_SIZE - size - 1) then Ret (false, 0, r)
  else
    let temp := ringEnd r - ringIn r in
    if u32 temp >=? count then
      m ← my_copy_user (rmem r) (ringIn r - ringStart r) buf 0 count;
      let ptmp := ringIn r + align4 count in
      Ret (true, count, set_in r (if ptmp =? ringEnd r then ringStart r else ptmp) m)
    else
      m ← my_copy_user (rmem r) (ringIn r - ringStart r) buf 0 temp;
      let count := count - temp in
      m ← my_copy_user m 0 buf temp count;
      Ret (true, temp + count, set_in r (ringStart r + align4 count) m).

(** [down_interruptible] ... [up] around a read or a write; [sig]: a signal
    arrives while the caller sleeps. *)
Definition with_readSem {A} (sig : bool) (r : RPC_Dev) (interrupted : A) (body : RPC_Dev -> res (Z * RPC_Dev * A)) :
    res (Z * RPC_Dev * A) :=
  if sig then Ret (- ERESTARTSYS, r, interrupted)
  else if readSem r <=? 0 then Fault
  else
    '(ret, r, a) ← body (set_readSem r (readSem r - 1));
    Ret (ret, set_readSem r (readSem r + 1), a).

Definition with_writeSem {A} (sig : bool) (r : RPC_Dev) (interrupted : A) (body : RPC_Dev -> res (Z * RPC_Dev * A)) :
    res (Z * RPC_Dev * A) :=
  if sig then Ret (- ERESTARTSYS, r, interrupted)
  else if writeSem r <=? 0 then Fault
  else
    '(ret, r, a) ← body (set_writeSem r (writeSem r - 1));
    Ret (ret, set_writeSem r (writeSem r + 1), a).

(** ** [RPCpoll.c] *)

(** The pointers of a ring are set to an address; the bytes stay as they are. *)
Definition ring_pointers (addr : Z) (r : RPC_Dev) : RPC_Dev :=
  mkRing addr (addr + RPC_RING_SIZE) addr addr (readSem r) (writeSem r) (rmem r).
Definition sema_init (r : RPC_Dev) : RPC_Dev := set_writeSem (set_readSem r 1) 1.

(** [devs]: the records in memory before. *)
Definition rpc_poll_init (devs : list RPC_Dev) : list RPC_Dev :=
  imap (fun i r => sema_init (ring_pointers (RPC_POLL_DEV_ADDR + Z.of_nat i * RPC_RING_SIZE * 2) r))
    (firstn (Z.to_nat (RPC_NR_DEVS / RPC_NR_PAIR)) devs).

Definition rpc_poll_read (sig : bool) (r : RPC_Dev) (buf : list Z) (count : Z) : res (Z * RPC_Dev * list Z) :=
  with_readSem sig r buf (fun r =>
    if ringIn r =? ringOut r then Ret (0, r, buf)
    else ring_get r (ring_used r) buf count).

Definition rpc_poll_write (sig : bool) (r : RPC_Dev) (buf : list Z) (count : Z) : res (Z * RPC_Dev * unit) :=
  with_writeSem sig r tt (fun r =>
    '(_, ret, r) ← ring_put r buf count;
    Ret (ret, r, tt)).

(** Which device a newly opened file of a minor number is on. *)
Inductive rpc_file := RPC_ctrl | RPC_poll (dev : Z) | RPC_intr (dev f_pos : Z).

Definition rpc_intr_open (minor : Z) : rpc_file := RPC_intr (minor / RPC_NR_PAIR) minor.

Definition rpc_poll_open (minor : Z) : rpc_file :=
  if minor =? 100 then RPC_ctrl
  else if negb (minor mod RPC_NR_PAIR =? 0) then rpc_intr_open minor
  else RPC_poll (minor / RPC_NR_PAIR).

(** ** [RPCintr.c] *)

Definition rpc_intr_init (devs : list RPC_Dev) : list RPC_Dev :=
  imap (fun i r => sema_init (ring_pointers (RPC_INTR_DEV_ADDR + Z.of_nat i * RPC_RING_SIZE * 2) r))
    (firstn (Z.to_nat (RPC_NR_DEVS / RPC_NR_PAIR)) devs).

(** What ends a sleep on the wait queue: the time-out, or a wake-up with the
    other side's [ringIn] and memory, whether the process is to be frozen, and
    whether a signal is pending after that. *)
Inductive wake := W_timeout | W_wake (ringIn' : Z) (m' : list Z) (freeze sig : bool).

(** [false]: [goto out]. *)
Fixpoint intr_wait (ws : list wake) (r : RPC_Dev) : res (bool * RPC_Dev) :=
  match ws with
  | [] => OutOfFuel
  | W_timeout :: _ => Ret (false, r)
  | W_wake p m freeze sig :: ws' =>
      let r := set_in r p m in
      if freeze && negb sig then intr_wait ws' r
      else if sig then Ret (false, r)
      else Ret (true, r)
  end.

Definition rpc_intr_read (sig nonblock : bool) (ws : list wake) (r : RPC_Dev) (buf : list Z) (count : Z) :
    res (Z * RPC_Dev * list Z) :=
  with_readSem sig r buf (fun r =>
    '(go, r) ← (if ringIn r =? ringOut r then (if nonblock then Ret (false, r) else intr_wait ws r) else Ret (true, r));
    if (go : bool) then
      let size := if ringIn r >? ringOut r then ringIn r - ringOut r else RPC_RING_SIZE + ringIn r - ringOut r in
      ring_get r size buf count
    else Ret (0, r, buf)).

(** The value written to the interrupt register for a device number. *)
Definition intr_doorbell (f_pos : Z) : list Z :=
  if f_pos =? 1 then [3] else if f_pos =? 5 then [5] else [].

Definition rpc_intr_write (sig : bool) (f_pos : Z) (r : RPC_Dev) (buf : list Z) (count : Z) :
    res (Z * RPC_Dev * list Z) :=
  with_writeSem sig r [] (fun r =>
    '(ok, ret, r) ← ring_put r buf count;
    Ret (ret, r, if (ok : bool) then intr_doorbell f_pos else [])).

Definition ENOTTY : Z := 25.

(** [_IO('k', nr)] on MIPS. *)
Definition RPC_IOC (nr : Z) : Z := 536898304 + nr.

(** The return value and the new time-out. *)
Definition rpc_intr_ioctl (timeout cmd arg : Z) : Z * Z :=
  if cmd =? RPC_IOC 0 then (0, s32 arg)
  else if cmd =? RPC_IOC 1 then (timeout, timeout)
  else (- ENOTTY, timeout).

(** ** [RPCkern.c] *)

(** The semaphores are set up (and the threads started) the first time only. *)
Definition rpc_kern_init (is_init : bool) (devs : list RPC_Dev) : list RPC_Dev :=
  imap (fun i r =>
          let r := ring_pointers (RPC_KERN_DEV_ADDR + Z.of_nat i * RPC_RING_SIZE) r in
          if is_init then r else sema_init r)
    (firstn (Z.to_nat RPC_NR_KERN_DEVS) devs).

(** The kernel rings, the values written to the interrupt register, and the
    words of kernel memory. *)
Record rpc_state := mkRpc {
  kern_devices : list RPC_Dev;
  doorbell : list Z;
  words : gmap Z Z
}.

Definition set_kern (s : rpc_state) (i : Z) (r : RPC_Dev) : rpc_state :=
  mkRpc (<[Z.to_nat i := r]> (kern_devices s)) (doorbell s) (words s).
Definition ring_bell (s : rpc_state) (b : list Z) : rpc_state :=
  mkRpc (kern_devices s) (doorbell s ++ b) (words s).
Definition poke (s : rpc_state) (a v : Z) : rpc_state :=
  mkRpc (kern_devices s) (doorbell s) (<[a := v]> (words s)).

Definition kern_dev (s : rpc_state) (i : Z) : res RPC_Dev :=
  match kern_devices s !! Z.to_nat i with
  | Some r => if i <? 0 then Fault else Ret r
  | None => Fault
  end.

Definition rpc_kern_read (sig : bool) (s : rpc_state) (opt : Z) (buf : list Z) (count : Z) :
    res (Z * rpc_state * list Z) :=
  let i := opt * RPC_NR_KERN_DEVS / RPC_NR_PAIR + 1 in
  r ← kern_dev s i;
  '(ret, r, buf) ← with_readSem sig r buf (fun r =>
    if ringIn r =? ringOut r then Ret (0, r, buf)
    else ring_get r (ring_used r) buf count);
  Ret (ret, set_kern s i r, buf).

Definition kern_doorbell (opt : Z) : list Z :=
  if opt =? RPC_AUDIO then [3] else if opt =? RPC_VIDEO then [5] else [].

Definition rpc_kern_write (sig : bool) (s : rpc_state) (opt : Z) (buf : list Z) (count : Z) : res (Z * rpc_state) :=
  let i := opt * RPC_NR_KERN_DEVS / RPC_NR_PAIR in
  r ← kern_dev s i;
  '(ret, r, bell) ← with_writeSem sig r [] (fun r =>
    '(ok, ret, r) ← ring_put r buf count;
    Ret (ret, r, if (ok : bool) then kern_doorbell opt else []));
  Ret (ret, ring_bell (set_kern s i r) bell).

(** Words in memory are little-endian; [htonl] and [ntohl] swap the bytes. *)
Definition word_of (b0 b1 b2 b3 : Z) : Z := b0 + 256 * b1 + 65536 * b2 + 16777216 * b3.
Definition byte_of (w i : Z) : Z := Z.land (Z.shiftr w (8 * i)) 255.
Definition htonl (w : Z) : Z := word_of (byte_of w 3) (byte_of w 2) (byte_of w 1) (byte_of w 0).
Definition ntohl (w : Z) : Z := htonl w.
Definition put_word (w : Z) : list Z := [byte_of w 0; byte_of w 1; byte_of w 2; byte_of w 3].
Definition get_word (bs : list Z) (i : Z) : Z := word_of bs.[i] bs.[i + 1] bs.[i + 2] bs.[i + 3].

Record RPC_STRUCT := mkRpcStruct {
  programID : Z;
  versionID : Z;
  procedureID : Z;
  taskID : Z;
  parameterSize : Z;
  mycontext : Z
}.

Definition rpc_bytes (p : RPC_STRUCT) : list Z :=
  put_word (programID p) ++ put_word (versionID p) ++ put_word (procedureID p) ++
  put_word (taskID p) ++ put_word (parameterSize p) ++ put_word (mycontext p).

(** The message of [send_rpc_command]. *)
Definition request (command param1 param2 sync retvalue : Z) : list Z :=
  rpc_bytes (mkRpcStruct (htonl KERNELID) (htonl KERNELID) 0 (htonl sync) (htonl 12) (htonl retvalue)) ++
  put_word (htonl command) ++ put_word (htonl param1) ++ put_word (htonl param2).

(** One round of [rpc_kernel_thread]: [None] while the ring is empty. *)
Definition rpc_kernel_thread (s : rpc_state) (p : Z) : res (option rpc_state) :=
  r ← kern_dev s p;
  if ringIn r =? ringOut r then Ret None
  else
    '(ret, s, readbuf) ← rpc_kern_read false s (p / RPC_NR_PAIR) (replicate 32 0) 32;
    if negb (ret =? 32) then Ret (Some s)
    else
      let s := poke s (ntohl (get_word readbuf 20)) (ntohl (get_word readbuf 28)) in
      let s := poke s (ntohl (get_word readbuf 24)) 1 in
      Ret (Some s).

(** [while (sync == 0) msleep(1)]; [env] is what the rest of the system does in
    a millisecond. *)
Fixpoint rpc_sync (fuel : nat) (env : rpc_state -> res rpc_state) (sync : Z) (s : rpc_state) : res rpc_state :=
  match words s !! sync with
  | None => Fault
  | Some v =>
      if negb (v =? 0) then Ret s
      else match fuel with
           | O => OutOfFuel
           | S fuel' => s ← env s; rpc_sync fuel' env sync s
           end
  end.

(** [sync] is the address of the local variable of that name. *)
Definition send_rpc_command (fuel : nat) (env : rpc_state -> res rpc_state) (sync : Z) (s : rpc_state)
    (opt command param1 param2 retvalue : Z) : res (Z * rpc_state) :=
  let s := poke s sync 0 in
  '(ret, s) ← rpc_kern_write false s opt (request command param1 param2 sync retvalue) 36;
  if negb (ret =? 36) then Ret (RPC_FAIL, s)
  else
    s ← rpc_sync fuel env sync s;
    Ret (RPC_OK, s).

(** ** [RPCDriver.c] *)

(** The interrupt handler: [regs] are the values of the interrupt register at
    each read.  The result is whether the interrupt was ours, the acknowledge
    values written, and the devices whose queues are woken. *)
Definition isr_ack (itr : Z) : list Z * list Z :=
  let '(a, w) := if negb (Z.land itr 8 =? 0) then ([8], [1]) else ([], []) in
  if negb (Z.land itr 64 =? 0) then (a ++ [64], w ++ [3]) else (a, w).

Fixpoint isr_loop (regs : list Z) (acks woken : list Z) : res (list Z * list Z) :=
  match regs with
  | [] => OutOfFuel
  | itr :: regs' =>
      if negb (Z.land itr 72 =? 0) then
        let '(a, w) := isr_ack itr in isr_loop regs' (acks ++ a) (woken ++ w)
      else Ret (acks, woken)
  end.

Definition rpc_isr (regs : list Z) : res (bool * list Z * list Z) :=
  match regs with
  | [] => OutOfFuel
  | itr :: _ =>
      if negb (Z.land itr 72 =? 0) then
        '(a, w) ← isr_loop regs [] [];
        Ret (true, a, w)
      else Ret (false, [], [])
  end.

(** [RPC_IOCTRESET]: all rings are set up again, the interrupt register and two
    words that the other processors read are written. *)
Definition rpc_ctrl_ioctl (cmd : Z) (poll intr kern : list RPC_Dev) :
    (list RPC_Dev * list RPC_Dev * list RPC_Dev) * list (Z * Z) :=
  if cmd =? RPC_IOC 2 then
    ((rpc_poll_init poll, rpc_intr_init intr, rpc_kern_init true kern),
     [(3087114500, 62); (2684354768, 4294967295); (2684354772, 4294967295)])
  else ((poll, intr, kern), []).
