(* ===== verification/RpcProofs.v ===== *)
(** * Lemmas on the rings of [Rpc.v] *)
From stdpp Require Import base tactics list numbers option gmap.
From Stdlib Require Import ZArith Lia.
From S2P Require Import Prelude Buff Rpc.

(** ** Bytes by position *)

Lemma at_ext (a b : list Z) : Zlen a = Zlen b -> (forall k, 0 <= k < Zlen a -> a.[k] = b.[k]) -> a = b.
Proof.
  intros Hl H. unfold Zlen in *. apply (nth_ext a b 0 0); [lia|]. intros n Hn.
  specialize (H (Z.of_nat n) ltac:(lia)). unfold at_ in H. by rewrite Nat2Z.id in H.
Qed.

Lemma at_firstn m n k : 0 <= k < n -> (firstn (Z.to_nat n) m).[k] = m.[k].
Proof.
  intros Hk. unfold at_. rewrite !nth_lookup. rewrite lookup_take. by rewrite decide_True by lia.
Qed.

Lemma at_skipn m i k : 0 <= i -> 0 <= k -> (skipn (Z.to_nat i) m).[k] = m.[i + k].
Proof. intros Hi Hk. unfold at_. rewrite !nth_lookup, lookup_drop. do 2 f_equal. lia. Qed.

Lemma at_app a b k : 0 <= k -> (a ++ b).[k] = if k <? Zlen a then a.[k] else b.[k - Zlen a].
Proof.
  intros Hk. unfold at_, Zlen. zcase.
  - by rewrite app_nth1 by lia.
  - rewrite app_nth2 by lia. f_equal. lia.
Qed.

Lemma load_at m i n x k : load m i n = Ret x -> 0 <= k < n -> x.[k] = m.[i + k].
Proof.
  intros Hx Hk. pose proof (load_bounds _ _ _ _ Hx) as (? & ? & ? & _). rewrite load_ok in Hx by lia.
  injection Hx as <-. rewrite at_firstn, at_skipn by lia. done.
Qed.

Lemma store_at m i bs m' j : store m i bs = Ret m' -> 0 <= j ->
  m'.[j] = if (i <=? j) && (j <? i + Zlen bs) then bs.[j - i] else m.[j].
Proof.
  unfold store. destruct (_ && _) eqn:E; [|done]. intros [= <-] Hj.
  rewrite andb_true_iff, !Z.leb_le in E. unfold Zlen in *.
  assert (Hf : length (firstn (Z.to_nat i) m) = Z.to_nat i) by (rewrite length_firstn; lia).
  rewrite at_app by done. unfold Zlen. rewrite Hf, Z2Nat.id by lia. repeat (zcase; cbn [andb]).
  - rewrite at_firstn by lia. done.
  - rewrite at_app by lia. unfold Zlen. zcase. done.
  - rewrite at_app by lia. unfold Zlen. zcase.
    replace (Z.to_nat i + length bs)%nat with (Z.to_nat (i + Z.of_nat (length bs))) by lia.
    rewrite at_skipn by lia. f_equal. lia.
Qed.

(** ** [my_copy_user] copies *)

Lemma firstn_load m i n x k : load m i n = Ret x -> 0 <= k <= n -> load m i k = Ret (firstn (Z.to_nat k) x).
Proof.
  intros Hx Hk. pose proof (load_bounds _ _ _ _ Hx) as (? & ? & ? & Hl).
  pose proof (load_sub _ _ _ _ 0 k Hx ltac:(lia) ltac:(lia) ltac:(lia)) as Hs1. rewrite Z.add_0_r in Hs1.
  rewrite Hs1. by rewrite load_ok by lia.
Qed.

Lemma skipn_load m i n x k : load m i n = Ret x -> 0 <= k <= n -> load m (i + k) (n - k) = Ret (skipn (Z.to_nat k) x).
Proof.
  intros Hx Hk. pose proof (load_bounds _ _ _ _ Hx) as (? & ? & ? & Hl).
  rewrite (load_sub _ _ _ _ k (n - k) Hx) by lia. rewrite load_ok by lia. f_equal.
  apply firstn_all2. rewrite length_skipn. unfold Zlen in *. lia.
Qed.

Lemma store_exists m i bs : 0 <= i -> i + Zlen bs <= Zlen m -> exists m', store m i bs = Ret m' /\ Zlen m' = Zlen m.
Proof.
  intros Hi Hl. destruct (store m i bs) as [m'| |] eqn:E.
  - exists m'. split; [done|]. unfold Zlen. by rewrite (store_length _ _ _ _ E).
  - rewrite store_ok in E by lia. done.
  - rewrite store_ok in E by lia. done.
Qed.

Lemma Zlen_firstn (x : list Z) k : 0 <= k <= Zlen x -> Zlen (firstn (Z.to_nat k) x) = k.
Proof. intros. unfold Zlen in *. rewrite length_firstn. lia. Qed.

Lemma Zlen_skipn (x : list Z) k : 0 <= k <= Zlen x -> Zlen (skipn (Z.to_nat k) x) = Zlen x - k.
Proof. intros. unfold Zlen in *. rewrite length_skipn. lia. Qed.

Lemma copy_words_spec n dm d sm s size x :
  (Z.to_nat size <= n)%nat -> load sm s size = Ret x -> 0 <= d -> d + size <= Zlen dm ->
  exists dm', let w := size - size mod 4 in
    copy_words n dm d sm s size = Ret (dm', d + w, s + w, size mod 4) /\
    store dm d (firstn (Z.to_nat w) x) = Ret dm'.
Proof.
  revert dm d s size x. induction n as [|n IH]; intros dm d s size x Hn Hx Hd Hl;
    pose proof (load_bounds _ _ _ _ Hx) as (Hs & Hsz & Hsl & Hxl); cbn [copy_words]; zcase.
  - exists dm. cbv zeta. zcase. assert (size = 0) as -> by lia. change (0 mod 4) with 0. rewrite !Z.add_0_r.
    split; [done|]. apply (store_nil dm d). lia.
  - zcase.
    + assert (H4 : load sm s 4 = Ret (firstn (Z.to_nat 4) x)) by (by apply (firstn_load _ _ size)).
      rewrite H4, res_bind_Ret.
      destruct (store_exists dm d (firstn (Z.to_nat 4) x)) as (dm1 & E1 & L1); [done|rewrite Zlen_firstn; lia|].
      rewrite E1, res_bind_Ret.
      destruct (IH dm1 (d + 4) (s + 4) (size - 4) (skipn (Z.to_nat 4) x)) as (dm' & E2 & S2);
        [lia|by apply (skipn_load _ _ size)|lia|lia|].
      assert (Hm : (size - 4) mod 4 = size mod 4) by (replace (size - 4) with (size + (-1) * 4) by lia; apply Z_mod_plus_full).
      rewrite Hm in *. exists dm'. cbv zeta. rewrite E2. split; [do 3 f_equal; [f_equal|]; lia|].
      pose proof (Z.mod_pos_bound size 4 ltac:(lia)).
      assert (Hle : 4 <= size - size mod 4) by (pose proof (Z.div_mod size 4); lia).
      replace (firstn (Z.to_nat (size - size mod 4)) x) with
        (firstn (Z.to_nat 4) x ++ firstn (Z.to_nat (size - 4 - size mod 4)) (skipn (Z.to_nat 4) x)).
      * apply (store_app _ _ _ _ dm1); [done|]. rewrite Zlen_firstn by lia. exact S2.
      * rewrite take_take_drop. f_equal. lia.
    + exists dm. cbv zeta. rewrite Z.mod_small by lia. rewrite Z.sub_diag, !Z.add_0_r. split; [done|]. apply store_nil. lia.
Qed.

Lemma copy_bytes_spec dm d sm s size x :
  load sm s size = Ret x -> 0 <= d -> d + size <= Zlen dm -> copy_bytes dm d sm s size = store dm d x.
Proof.
  intros Hx Hd Hl. pose proof (load_bounds _ _ _ _ Hx) as (Hs & Hsz & Hsl & Hxl). unfold copy_bytes.
  destruct (forU_inv (fun i m => store dm d (firstn (Z.to_nat i) x) = Ret m)
    (fun i dm => b ← load sm (s + i) 1; store dm (d + i) b) (Z.to_nat size) 0 dm) as (m & Em & Hm).
  - apply store_nil. lia.
  - intros j t Hj Ht. rewrite (load_sub _ _ _ _ j 1 Hx) by lia. rewrite load_ok by lia. rewrite res_bind_Ret.
    assert (Hone : Zlen (firstn (Z.to_nat 1) (skipn (Z.to_nat j) x)) = 1) by (rewrite Zlen_firstn; rewrite ?Zlen_skipn; lia).
    assert (Htl : Zlen t = Zlen dm) by (unfold Zlen; by rewrite (store_length _ _ _ _ Ht)).
    destruct (store_exists t (d + j) (firstn (Z.to_nat 1) (skipn (Z.to_nat j) x))) as (t' & Et & _); [lia|lia|].
    exists t'. split; [done|].
    replace (Z.to_nat (j + 1)) with (Z.to_nat j + Z.to_nat 1)%nat by lia. rewrite <- take_take_drop.
    apply (store_app _ _ _ _ t); [done|]. rewrite Zlen_firstn by lia. done.
  - rewrite Em. cbn beta in Hm. rewrite Z.add_0_l, Z2Nat.id in Hm by lia.
    rewrite <- Hxl in Hm. unfold Zlen in Hm. rewrite Nat2Z.id, firstn_all in Hm. done.
Qed.

Lemma my_copy_user_spec dm d sm s size x :
  load sm s size = Ret x -> 0 <= d -> d + size <= Zlen dm -> my_copy_user dm d sm s size = store dm d x.
Proof.
  intros Hx Hd Hl. pose proof (load_bounds _ _ _ _ Hx) as (Hs & Hsz & Hsl & Hxl).
  destruct (copy_words_spec (Z.to_nat size) dm d sm s size x ltac:(lia) Hx Hd Hl) as (dm1 & Ew & Sw).
  pose proof (Z.mod_pos_bound size 4 ltac:(lia)). pose proof (Z.mod_le size 4 ltac:(lia) ltac:(lia)).
  set (w := size - size mod 4) in *. unfold my_copy_user. rewrite Ew, res_bind_Ret.
  pose proof (skipn_load _ _ _ _ w Hx ltac:(lia)) as Hr. replace (size - w) with (size mod 4) in Hr by (unfold w; lia).
  assert (Hd1 : Zlen dm1 = Zlen dm) by (unfold Zlen; by rewrite (store_length _ _ _ _ Sw)).
  rewrite (copy_bytes_spec _ _ _ _ _ _ Hr) by lia.
  destruct (store_exists dm1 (d + w) (skipn (Z.to_nat w) x)) as (dm2 & E2 & _); [lia|rewrite Zlen_skipn; lia|].
  rewrite E2, <- (firstn_skipn (Z.to_nat w) x). symmetry. apply (store_app _ _ _ _ dm1); [done|].
  rewrite Zlen_firstn by lia. done.
Qed.

(** ** Alignment *)

Lemma align4_eq n : 0 <= n <= 4294967288 -> align4 n = (n + 3) / 4 * 4.
Proof.
  intros Hn. unfold align4. rewrite u32_small by (unfold is_u32, W32; lia).
  set (x := n + 3). assert (Hx : 0 <= x < 2 ^ 32) by (unfold x; lia).
  change 4294967292 with (Z.shiftl (Z.ones 30) 2). change (x / 4 * 4) with (x / 2 ^ 2 * 2 ^ 2).
  rewrite <- Z.shiftl_mul_pow2, <- Z.shiftr_div_pow2 by lia.
  apply Z.bits_inj'. intros i Hi. rewrite Z.land_spec. destruct (Z.ltb_spec i 2).
  - by rewrite !Z.shiftl_spec_low, andb_false_r by lia.
  - rewrite !Z.shiftl_spec, Z.shiftr_spec by lia. replace (i - 2 + 2) with i by lia.
    destruct (Z.ltb_spec i 32).
    + by rewrite Z.ones_spec_low, andb_true_r by lia.
    + rewrite <- (Z.mod_small x (2 ^ 32)) by lia. by rewrite Z.mod_pow2_bits_high by lia.
Qed.

Lemma align4_range n : 0 <= n <= 512 -> n <= align4 n < n + 4 /\ align4 n mod 4 = 0.
Proof. intros Hn. rewrite align4_eq by lia. split; [dlia|apply Z_mod_mult]. Qed.

Lemma align4_le n m : 0 <= n <= m -> m <= 512 -> m mod 4 = 0 -> align4 n <= m.
Proof. intros Hn Hm H4. rewrite align4_eq by lia. dlia. Qed.

Lemma align4_id n : 0 <= n <= 512 -> n mod 4 = 0 -> align4 n = n.
Proof. intros Hn H4. rewrite align4_eq by lia. dlia. Qed.

(** ** Circular slices *)

(** [n] bytes of a ring memory from offset [o] on, across its end. *)
Definition slice (m : list Z) (o n : Z) : list Z :=
  map (fun k => m.[(o + Z.of_nat k) mod 512]) (seq 0 (Z.to_nat n)).

Lemma slice_length m o n : 0 <= n -> Zlen (slice m o n) = n.
Proof. intros. unfold slice, Zlen. rewrite length_map, length_seq. lia. Qed.

Lemma slice_at m o n k : 0 <= k < n -> (slice m o n).[k] = m.[(o + k) mod 512].
Proof.
  intros Hk. unfold slice, at_ at 1. rewrite (nth_indep _ _ (m.[(o + Z.of_nat 0) mod 512]))
    by (rewrite length_map, length_seq; lia).
  rewrite (map_nth (fun k => m.[(o + Z.of_nat k) mod 512])). rewrite seq_nth by lia.
  do 2 f_equal. lia.
Qed.

Lemma slice_nil m o : slice m o 0 = [].
Proof. reflexivity. Qed.

Lemma slice_mod m o n : slice m (o mod 512) n = slice m o n.
Proof. unfold slice. apply map_ext. intros k. by rewrite Zplus_mod_idemp_l. Qed.

Lemma slice_firstn m o n k : 0 <= k <= n -> firstn (Z.to_nat k) (slice m o n) = slice m o k.
Proof.
  intros Hk. apply at_ext; [rewrite Zlen_firstn; rewrite ?slice_length; lia|].
  intros i Hi. rewrite Zlen_firstn in Hi by (rewrite slice_length; lia).
  rewrite at_firstn by lia. by rewrite !slice_at by lia.
Qed.

Lemma slice_skipn m o n k : 0 <= k <= n -> skipn (Z.to_nat k) (slice m o n) = slice m (o + k) (n - k).
Proof.
  intros Hk. apply at_ext; [rewrite Zlen_skipn; rewrite ?slice_length; lia|].
  intros i Hi. rewrite Zlen_skipn in Hi by (rewrite slice_length; lia). rewrite slice_length in Hi by lia.
  rewrite at_skipn by lia. rewrite !slice_at by lia. do 2 f_equal. lia.
Qed.

Lemma slice_app m o a b : 0 <= a -> 0 <= b -> slice m o (a + b) = slice m o a ++ slice m (o + a) b.
Proof.
  intros Ha Hb. apply at_ext; [rewrite Zlen_app, !slice_length; lia|].
  intros i Hi. rewrite slice_length in Hi by lia. rewrite slice_at by lia.
  rewrite at_app, slice_length by lia. zcase; rewrite slice_at by lia; do 2 f_equal; lia.
Qed.

(** A slice that does not cross the end. *)
Lemma load_slice m o n : Zlen m = 512 -> 0 <= o -> 0 <= n -> o + n <= 512 -> load m o n = Ret (slice m o n).
Proof.
  intros Hm Ho Hn Hon. rewrite load_ok by lia. f_equal.
  apply at_ext; [rewrite Zlen_firstn, slice_length; rewrite ?Zlen_skipn; lia|].
  intros i Hi. rewrite Zlen_firstn in Hi by (rewrite Zlen_skipn; lia).
  rewrite at_firstn, at_skipn, slice_at by lia. f_equal. symmetry. apply Z.mod_small. lia.
Qed.

(** A store changes the slice it covers, and none that it does not touch. *)
Lemma slice_store m i bs m' : store m i bs = Ret m' -> Zlen m = 512 -> slice m' i (Zlen bs) = bs.
Proof.
  intros Hs Hm. pose proof (load_store_same _ _ _ _ Hs) as Hl.
  pose proof (load_bounds _ _ _ _ Hl) as (? & ? & ? & _).
  assert (Hm' : Zlen m' = 512) by (unfold Zlen; rewrite (store_length _ _ _ _ Hs); done).
  rewrite load_slice in Hl by lia. by injection Hl.
Qed.

Lemma slice_store_other m i bs m' o n : store m i bs = Ret m' ->
  (forall k, 0 <= k < n -> (o + k) mod 512 < i \/ i + Zlen bs <= (o + k) mod 512) -> slice m' o n = slice m o n.
Proof.
  intros Hs Hd. destruct (Z.le_gt_cases n 0) as [Hn|Hn].
  { unfold slice. by replace (Z.to_nat n) with 0%nat by lia. }
  apply at_ext; [by rewrite !slice_length by lia|]. intros k Hk. rewrite slice_length in Hk by lia.
  rewrite !slice_at by lia. pose proof (Z.mod_pos_bound (o + k) 512 ltac:(lia)).
  rewrite (store_at _ _ _ _ _ Hs) by lia. specialize (Hd k Hk). repeat (zcase; cbn [andb]); done.
Qed.

(** ** The invariant of a ring *)

(** The ring holds the bytes [q]: whole words, less than the ring size. *)
Record ring_ok (r : RPC_Dev) (q : list Z) : Prop := {
  ro_end : ringEnd r = ringStart r + RPC_RING_SIZE;
  ro_in : 0 <= ringIn r - ringStart r < RPC_RING_SIZE;
  ro_out : 0 <= ringOut r - ringStart r < RPC_RING_SIZE;
  ro_in4 : (ringIn r - ringStart r) mod 4 = 0;
  ro_out4 : (ringOut r - ringStart r) mod 4 = 0;
  ro_mem : Zlen (rmem r) = RPC_RING_SIZE;
  ro_len : Zlen q = (ringIn r - ringOut r) mod RPC_RING_SIZE;
  ro_q : q = slice (rmem r) (ringOut r - ringStart r) (Zlen q)
}.

Lemma ring_used_ok r q : ring_ok r q -> ring_used r = Zlen q /\ 0 <= Zlen q < 512 /\ Zlen q mod 4 = 0.
Proof.
  intros []. unfold RPC_RING_SIZE in *. split; [|rewrite ro_len0; split; [apply Z.mod_pos_bound; lia|dlia]].
  rewrite ro_len0. unfold ring_used, RPC_RING_SIZE. repeat zcase; dlia.
Qed.

Lemma ring_ok_in r q : ring_ok r q -> ringIn r - ringStart r = (ringOut r - ringStart r + Zlen q) mod 512.
Proof. intros []. unfold RPC_RING_SIZE in *. rewrite ro_len0. dlia. Qed.

(** Where a pointer ends up. *)
Lemma advance_in s p n : 0 <= p - s < 512 -> 0 <= n -> p - s + n <= 512 ->
  (if p + n =? s + 512 then s else p + n) = s + (p - s + n) mod 512.
Proof. intros. zcase; dlia. Qed.

Lemma ring_get_spec r q buf count :
  ring_ok r q -> 0 <= count < W32 ->
  let n := Z.min count (Zlen q) in n <= Zlen buf ->
  exists p buf', ring_get r (Zlen q) buf count = Ret (n, set_out r p, buf') /\
    store buf 0 (firstn (Z.to_nat n) q) = Ret buf' /\
    ring_ok (set_out r p) (skipn (Z.to_nat (align4 n)) q).
Proof.
  intros Hr Hc n Hn. destruct (ring_used_ok _ _ Hr) as (_ & Hq & Hq4). pose proof Hr as []. unfold RPC_RING_SIZE in *.
  set (o := ringOut r - ringStart r) in *.
  assert (Hn0 : 0 <= n <= Zlen q) by (unfold n; lia).
  pose proof (align4_range n ltac:(lia)) as [Ha1 Ha2]. pose proof (align4_le n (Zlen q) ltac:(lia) ltac:(lia) Hq4) as Ha3.
  assert (Hok : ring_ok (set_out r (ringStart r + (o + align4 n) mod 512)) (skipn (Z.to_nat (align4 n)) q)).
  { split; cbn [set_out ringStart ringEnd ringIn ringOut rmem]; unfold RPC_RING_SIZE; try done.
    - pose proof (Z.mod_pos_bound (o + align4 n) 512). lia.
    - replace (ringStart r + (o + align4 n) mod 512 - ringStart r) with ((o + align4 n) mod 512) by lia. dlia.
    - rewrite Zlen_skipn by lia. unfold o. dlia.
    - rewrite Zlen_skipn by lia. rewrite ro_q0 at 1. rewrite slice_skipn by lia.
      replace (ringStart r + (o + align4 n) mod 512 - ringStart r) with ((o + align4 n) mod 512) by lia.
      by rewrite slice_mod. }
  assert (Hcount : (if count >? u32 (Zlen q) then Zlen q else count) = n).
  { rewrite u32_small by (unfold is_u32, W32; lia). unfold n. repeat zcase; lia. }
  unfold ring_get. rewrite Hcount, ro_end0. replace (ringStart r + 512 - ringOut r) with (512 - o) by (unfold o; lia).
  rewrite (u32_small (512 - o)) by (unfold is_u32, W32; lia). fold o.
  assert (Hqn : firstn (Z.to_nat n) q = slice (rmem r) o n) by (rewrite ro_q0; by apply slice_firstn).
  rewrite Z.geb_leb. destruct (Z.leb_spec n (512 - o)).
  - assert (Hld : load (rmem r) o n = Ret (firstn (Z.to_nat n) q)) by (rewrite Hqn; apply load_slice; lia).
    rewrite (my_copy_user_spec _ _ _ _ _ _ Hld) by lia.
    destruct (store_exists buf 0 (firstn (Z.to_nat n) q)) as (buf' & Eb & _); [lia|rewrite Zlen_firstn; lia|].
    rewrite Eb, res_bind_Ret. eexists _, buf'. split; [reflexivity|]. split; [done|].
    pose proof (align4_le n (512 - o) ltac:(lia) ltac:(lia) ltac:(dlia)).
    rewrite (advance_in (ringStart r)) by (fold o; lia). exact Hok.
  - set (t := 512 - o) in *.
    assert (Hsplit : slice (rmem r) o n = slice (rmem r) o t ++ slice (rmem r) 0 (n - t)).
    { replace n with (t + (n - t)) at 1 by lia. rewrite slice_app by lia. f_equal.
      rewrite <- (slice_mod _ (o + t)). by replace ((o + t) mod 512) with 0 by (unfold t; dlia). }
    assert (Hl1 : load (rmem r) o t = Ret (slice (rmem r) o t)) by (apply load_slice; lia).
    assert (Hl2 : load (rmem r) 0 (n - t) = Ret (slice (rmem r) 0 (n - t))) by (apply load_slice; lia).
    destruct (store_exists buf 0 (slice (rmem r) o t)) as (b1 & E1 & L1); [lia|rewrite slice_length; lia|].
    destruct (store_exists b1 t (slice (rmem r) 0 (n - t))) as (b2 & E2 & _); [lia|rewrite slice_length; lia|].
    rewrite (my_copy_user_spec _ _ _ _ _ _ Hl1), E1, res_bind_Ret by lia.
    rewrite (my_copy_user_spec _ _ _ _ _ _ Hl2), E2, res_bind_Ret by lia.
    eexists _, b2. split; [by replace (t + (n - t)) with n by lia|]. split.
    + rewrite Hqn, Hsplit. apply (store_app _ _ _ _ b1); [done|]. by rewrite slice_length by lia.
    + replace (ringStart r + align4 (n - t)) with (ringStart r + (o + align4 n) mod 512); [exact Hok|].
      assert (Ht4 : t mod 4 = 0) by (unfold t; dlia). rewrite !align4_eq by lia. unfold t in *. dlia.
Qed.

(** No room: nothing is done. *)
Lemma ring_put_full r q buf count : ring_ok r q -> 511 - Zlen q < count -> ring_put r buf count = Ret (false, 0, r).
Proof.
  intros Hr Hc. destruct (ring_used_ok _ _ Hr) as (Hu & Hq & _). unfold ring_put. rewrite Hu. unfold RPC_RING_SIZE.
  rewrite u32_small by (unfold is_u32, W32; lia). rewrite Z.gtb_ltb.
  destruct (Z.ltb_spec (512 - Zlen q - 1) count); [done|lia].
Qed.

(** The memory after the copies of a write at offset [i], in both cases. *)
Lemma ring_copy_in r buf count x i :
  Zlen (rmem r) = 512 -> 0 <= i < 512 -> 0 <= count < 512 -> load buf 0 count = Ret x ->
  exists m, Zlen m = 512 /\ slice m i count = x /\
    (forall o n, (forall k, 0 <= k < n -> (o + k - i) mod 512 >= count) -> slice m o n = slice (rmem r) o n) /\
    (if 512 - i >=? count then my_copy_user (rmem r) i buf 0 count
     else m ← my_copy_user (rmem r) i buf 0 (512 - i); my_copy_user m 0 buf (512 - i) (count - (512 - i))) = Ret m.
Proof.
  intros Hm Hi Hc Hx. pose proof (load_bounds _ _ _ _ Hx) as (_ & _ & Hbl & Hxl).
  rewrite Z.geb_leb. destruct (Z.leb_spec count (512 - i)).
  - destruct (store_exists (rmem r) i x) as (m & E & L); [lia|lia|]. exists m.
    split; [lia|]. split; [rewrite <- Hxl; by apply (slice_store (rmem r))|]. split.
    + intros o n Hd. apply (slice_store_other _ _ _ _ _ _ E). intros k Hk. specialize (Hd k Hk). rewrite Hxl. dlia.
    + by rewrite (my_copy_user_spec _ _ _ _ _ _ Hx) by lia.
  - set (t := 512 - i) in *.
    pose proof (firstn_load _ _ _ _ t Hx ltac:(lia)) as Hx1. pose proof (skipn_load _ _ _ _ t Hx ltac:(lia)) as Hx2.
    rewrite Z.add_0_l in Hx2.
    destruct (store_exists (rmem r) i (firstn (Z.to_nat t) x)) as (m1 & E1 & L1); [lia|rewrite Zlen_firstn; lia|].
    destruct (store_exists m1 0 (skipn (Z.to_nat t) x)) as (m & E2 & L2); [lia|rewrite Zlen_skipn; lia|].
    pose proof (slice_store _ _ _ _ E1 Hm) as S1. rewrite Zlen_firstn in S1 by lia.
    pose proof (slice_store _ _ _ _ E2 ltac:(lia)) as S2. rewrite Zlen_skipn in S2 by lia.
    exists m. split; [lia|]. split; [|split].
    + replace count with (t + (count - t)) by lia. rewrite slice_app by lia.
      rewrite <- (slice_mod _ (i + t)). replace ((i + t) mod 512) with 0 by (unfold t; dlia).
      rewrite (slice_store_other _ _ _ _ _ _ E2).
      * rewrite S1. replace (count - t) with (Zlen x - t) by lia. rewrite S2. apply firstn_skipn.
      * intros k Hk. rewrite Zlen_skipn by lia. unfold t in *. dlia.
    + intros o n Hd. rewrite (slice_store_other _ _ _ _ _ _ E2), (slice_store_other _ _ _ _ _ _ E1); [done| |].
      * intros k Hk. specialize (Hd k Hk). rewrite Zlen_firstn by lia. unfold t in *. dlia.
      * intros k Hk. specialize (Hd k Hk). rewrite Zlen_skipn by lia. unfold t in *. dlia.
    + rewrite (my_copy_user_spec _ _ _ _ _ _ Hx1), E1, res_bind_Ret by lia.
      by rewrite (my_copy_user_spec _ _ _ _ _ _ Hx2) by lia.
Qed.

(** The memory [m'] is [m] with the bytes [x] put at offset [i], across the end;
    this determines it. *)
Definition mem_put (m m' : list Z) (i : Z) (x : list Z) : Prop :=
  Zlen m' = 512 /\ slice m' i (Zlen x) = x /\
  forall j, 0 <= j < 512 -> Zlen x <= (j - i) mod 512 -> m'.[j] = m.[j].

Lemma mem_put_unique m m1 m2 i x : mem_put m m1 i x -> mem_put m m2 i x -> m1 = m2.
Proof.
  intros (L1 & S1 & O1) (L2 & S2 & O2). apply at_ext; [lia|]. intros j Hj.
  pose proof (Z.mod_pos_bound (j - i) 512 ltac:(lia)).
  destruct (Z.lt_ge_cases ((j - i) mod 512) (Zlen x)) as [H1|H1]; [|rewrite O1, O2 by lia; done].
  assert (Hj' : j = (i + (j - i) mod 512) mod 512) by dlia.
  pose proof (slice_at m1 i (Zlen x) ((j - i) mod 512) ltac:(lia)) as A1.
  pose proof (slice_at m2 i (Zlen x) ((j - i) mod 512) ltac:(lia)) as A2.
  rewrite S1 in A1. rewrite S2 in A2. rewrite <- Hj' in A1, A2. congruence.
Qed.

Lemma ring_put_spec r q buf count x :
  ring_ok r q -> load buf 0 count = Ret x -> Zlen q + align4 count < 512 -> count <= 511 ->
  exists m pad, let p := ringStart r + (ringIn r - ringStart r + align4 count) mod 512 in
    ring_put r buf count = Ret (true, count, set_in r p m) /\
    Zlen pad = align4 count - count /\ ring_ok (set_in r p m) (q ++ x ++ pad) /\
    mem_put (rmem r) m (ringIn r - ringStart r) x.
Proof.
  intros Hr Hx Hroom Hc511. destruct (ring_used_ok _ _ Hr) as (Hu & Hq & Hq4). pose proof (ring_ok_in _ _ Hr) as Hin.
  pose proof (load_bounds _ _ _ _ Hx) as (_ & Hc0 & Hbl & Hxl).
  pose proof (align4_range count ltac:(lia)) as [Ha1 Ha2].
  pose proof Hr as []. unfold RPC_RING_SIZE in *.
  set (i := ringIn r - ringStart r) in *. set (o := ringOut r - ringStart r) in *.
  destruct (ring_copy_in r buf count x i ro_mem0 ro_in0 ltac:(lia) Hx) as (m & Lm & Sm & Om & Em).
  set (pad := slice m (i + count) (align4 count - count)).
  assert (Hok : ring_ok (set_in r (ringStart r + (i + align4 count) mod 512) m) (q ++ x ++ pad)).
  { assert (Hlen : Zlen (q ++ x ++ pad) = Zlen q + align4 count)
      by (rewrite !Zlen_app; unfold pad; rewrite slice_length by lia; lia).
    split; cbn [set_in ringStart ringEnd ringIn ringOut rmem]; unfold RPC_RING_SIZE; try done.
    - pose proof (Z.mod_pos_bound (i + align4 count) 512). lia.
    - replace (ringStart r + (i + align4 count) mod 512 - ringStart r) with ((i + align4 count) mod 512) by lia. dlia.
    - rewrite Hlen. unfold i, o in *. dlia.
    - rewrite Hlen. fold o. rewrite slice_app by lia. f_equal.
      + rewrite ro_q0 at 1. symmetry. apply Om. intros k Hk. dlia.
      + rewrite <- (slice_mod _ (o + Zlen q)), <- Hin. replace (align4 count) with (count + (align4 count - count)) by lia.
        rewrite slice_app by lia. by rewrite Sm. }
  unfold ring_put. rewrite Hu, ro_end0. unfold RPC_RING_SIZE.
  replace (ringStart r + 512 - ringIn r) with (512 - i) by (unfold i; lia).
  rewrite (u32_small (512 - Zlen q - 1)), (u32_small (512 - i)) by (unfold is_u32, W32; lia). fold i.
  rewrite (Z.gtb_ltb count). destruct (Z.ltb_spec (512 - Zlen q - 1) count); [lia|].
  exists m, pad. cbv zeta. split; [|split; [unfold pad; rewrite slice_length; lia|split; [done|]]]; cycle 1.
  { split; [done|]. split; [by rewrite Hxl|]. intros j Hj Hd. rewrite Hxl in Hd.
    assert (H1 : slice m j 1 = slice (rmem r) j 1).
    { apply Om. intros k Hk. replace (j + k - i) with (j - i) by lia. lia. }
    pose proof (slice_at m j 1 0 ltac:(lia)) as A1. pose proof (slice_at (rmem r) j 1 0 ltac:(lia)) as A2.
    rewrite H1 in A1. rewrite Z.add_0_r, Z.mod_small in A1, A2 by lia. congruence. }
  destruct (512 - i >=? count) eqn:E; rewrite Z.geb_leb in E.
  - apply Z.leb_le in E. rewrite Em, res_bind_Ret.
    pose proof (align4_le count (512 - i) ltac:(lia) ltac:(lia) ltac:(dlia)).
    by rewrite (advance_in (ringStart r)) by (fold i; lia).
  - apply Z.leb_gt in E. destruct (my_copy_user (rmem r) i buf 0 (512 - i)) as [m1| |]; [|done..].
    rewrite res_bind_Ret in Em. rewrite res_bind_Ret, Em, res_bind_Ret. replace (512 - i + (count - (512 - i))) with count by lia.
    do 3 f_equal. rewrite !align4_eq by lia. dlia.
Qed.
