(* ===== verification/RpcTheorems.v ===== *)
(** * Properties of the inter-processor rings *)
From stdpp Require Import base tactics list numbers option gmap.
From Stdlib Require Import ZArith Lia.
From S2P Require Import Prelude Buff Rpc RpcProofs.

(** ** A ring is a queue of words *)

(** The driver calls on a ring: through the polled and the interrupt devices
    ([f_pos] is the device number). *)
Inductive ring_op :=
| PollWrite (x : list Z)
| PollRead (n : Z)
| IntrWrite (f_pos : Z) (x : list Z)
| IntrRead (n : Z).

(** The return value and the bytes delivered. *)
Definition ring_step (r : RPC_Dev) (op : ring_op) : res (Z * list Z * RPC_Dev) :=
  match op with
  | PollWrite x => '(ret, r, _) ← rpc_poll_write false r x (Zlen x); Ret (ret, [], r)
  | IntrWrite f x => '(ret, r, _) ← rpc_intr_write false f r x (Zlen x); Ret (ret, [], r)
  | PollRead n =>
      '(ret, r, buf) ← rpc_poll_read false r (replicate (Z.to_nat n) 0) n; Ret (ret, firstn (Z.to_nat ret) buf, r)
  | IntrRead n =>
      '(ret, r, buf) ← rpc_intr_read false true [] r (replicate (Z.to_nat n) 0) n; Ret (ret, firstn (Z.to_nat ret) buf, r)
  end.

Fixpoint ring_run (r : RPC_Dev) (ops : list ring_op) : res (list (Z * list Z) * RPC_Dev) :=
  match ops with
  | [] => Ret ([], r)
  | op :: ops' =>
      '(ret, out, r) ← ring_step r op;
      '(outs, r) ← ring_run r ops';
      Ret ((ret, out) :: outs, r)
  end.

(** The abstract queue: a write is accepted when the queue stays below the ring
    size, a read takes what there is. *)
Definition queue_step (q : list Z) (op : ring_op) : Z * list Z * list Z :=
  match op with
  | PollWrite x | IntrWrite _ x => if Zlen q + Zlen x <? RPC_RING_SIZE then (Zlen x, [], q ++ x) else (0, [], q)
  | PollRead n | IntrRead n =>
      let k := Z.min n (Zlen q) in (k, firstn (Z.to_nat k) q, skipn (Z.to_nat k) q)
  end.

Fixpoint queue_run (q : list Z) (ops : list ring_op) : list (Z * list Z) * list Z :=
  match ops with
  | [] => ([], q)
  | op :: ops' =>
      let '(ret, out, q) := queue_step q op in
      let '(outs, q) := queue_run q ops' in
      ((ret, out) :: outs, q)
  end.

(** Messages and requests are whole words. *)
Definition word_op (op : ring_op) : Prop :=
  match op with
  | PollWrite x | IntrWrite _ x => Zlen x mod 4 = 0
  | PollRead n | IntrRead n => 0 <= n < W32 /\ n mod 4 = 0
  end.

Definition sems_free (r : RPC_Dev) : Prop := readSem r = 1 /\ writeSem r = 1.

Lemma ring_ok_sems r q a b : ring_ok r q -> ring_ok (set_writeSem (set_readSem r a) b) q.
Proof. intros []. by split. Qed.

Lemma ring_ok_readSem r q a : ring_ok r q -> ring_ok (set_readSem r a) q.
Proof. intros []. by split. Qed.

Lemma ring_ok_writeSem r q a : ring_ok r q -> ring_ok (set_writeSem r a) q.
Proof. intros []. by split. Qed.

Lemma write_step r q x : ring_ok r q -> sems_free r -> Zlen x mod 4 = 0 ->
  exists ok ret r', ring_put (set_writeSem r 0) x (Zlen x) = Ret (ok, ret, r') /\ readSem r' = 1 /\ writeSem r' = 0 /\
    (if Zlen q + Zlen x <? RPC_RING_SIZE then ok = true /\ ret = Zlen x /\ ring_ok r' (q ++ x)
     else ok = false /\ ret = 0 /\ ring_ok r' q).
Proof.
  intros Hr [Hrs Hws] Hx4. pose proof (ring_ok_writeSem r q 0 Hr) as Hr0.
  destruct (ring_used_ok _ _ Hr) as (_ & Hq & Hq4). pose proof (Zlen_nonneg x). unfold RPC_RING_SIZE.
  zcase.
  - assert (Ha : align4 (Zlen x) = Zlen x) by (apply align4_id; [lia|done]).
    assert (Hl : load x 0 (Zlen x) = Ret x).
    { rewrite load_ok by lia. unfold Zlen. by rewrite Nat2Z.id, drop_0, firstn_all. }
    destruct (ring_put_spec _ q x (Zlen x) x Hr0 Hl ltac:(lia) ltac:(lia)) as (m & pad & E & Hp & Hok & _).
    assert (pad = []) as -> by (destruct pad; [done|unfold Zlen in *; simpl in *; lia]).
    rewrite app_nil_r in Hok. by eexists _, _, _.
  - rewrite (ring_put_full _ q) by (done || dlia). eexists _, _, _. split; [reflexivity|]. by split.
Qed.

Lemma read_step r q n : ring_ok r q -> q <> [] -> 0 <= n < W32 -> n mod 4 = 0 ->
  let k := Z.min n (Zlen q) in
  exists r' buf', ring_get (set_readSem r 0) (Zlen q) (replicate (Z.to_nat n) 0) n = Ret (k, r', buf') /\
    readSem r' = 0 /\ writeSem r' = writeSem r /\ firstn (Z.to_nat k) buf' = firstn (Z.to_nat k) q /\
    ring_ok r' (skipn (Z.to_nat k) q).
Proof.
  intros Hr Hq0 Hn Hn4 k. pose proof (ring_ok_readSem r q 0 Hr) as Hr0.
  destruct (ring_used_ok _ _ Hr) as (_ & Hq & Hq4).
  assert (Hk : 0 <= k <= Zlen q /\ k <= n) by (unfold k; lia).
  assert (Hb : Zlen (replicate (Z.to_nat n) 0) = n) by (unfold Zlen; rewrite length_replicate; lia).
  destruct (ring_get_spec _ q (replicate (Z.to_nat n) 0) n Hr0 Hn) as (p & buf' & E & Hs & Hok); [fold k; lia|].
  fold k in E, Hs, Hok. exists (set_out (set_readSem r 0) p), buf'. split; [done|]. split; [done|]. split; [done|]. split.
  - pose proof (load_store_same _ _ _ _ Hs) as Hl. rewrite Zlen_firstn in Hl by lia.
    pose proof (load_bounds _ _ _ _ Hl) as (_ & _ & ? & _). rewrite load_ok in Hl by lia. by injection Hl.
  - rewrite align4_id in Hok; [done|lia|]. unfold k. destruct (Z.min_spec n (Zlen q)) as [[_ ->]|[_ ->]]; done.
Qed.

Lemma ring_step_spec r q op : ring_ok r q -> sems_free r -> word_op op ->
  exists r', ring_step r op = Ret (fst (fst (queue_step q op)), snd (fst (queue_step q op)), r') /\
    ring_ok r' (snd (queue_step q op)) /\ sems_free r'.
Proof.
  intros Hr [Hrs Hws] Hop. destruct (ring_used_ok _ _ Hr) as (Hu & Hq & Hq4). pose proof (ro_len _ _ Hr) as Hlen.
  pose proof (ro_in _ _ Hr). pose proof (ro_out _ _ Hr).
  assert (He : q = [] <-> ringIn r = ringOut r).
  { unfold RPC_RING_SIZE in *. split; intros Heq; [subst q; unfold Zlen in *; simpl in *; dlia|].
    rewrite Heq, Z.sub_diag in Hlen. change (0 mod 512) with 0 in Hlen. destruct q; [done|]. unfold Zlen in *. simpl in *. lia. }
  destruct op as [x|n|f x|n]; cbn [word_op] in Hop; cbn [ring_step queue_step].
  - unfold rpc_poll_write, with_writeSem. rewrite Hws. cbn [Z.leb Z.compare].
    destruct (write_step r q x Hr (conj Hrs Hws) Hop) as (ok & ret & r' & E & Hr1 & Hw1 & Hc).
    change (1 - 1) with 0. rewrite E, !res_bind_Ret. exists (set_writeSem r' (writeSem r' + 1)).
    destruct (_ <? _); destruct Hc as (_ & -> & Hok); (split; [done|]; split; [by apply ring_ok_writeSem|]);
      unfold sems_free; cbn; lia.
  - unfold rpc_poll_read, with_readSem. rewrite Hrs. cbn [Z.leb Z.compare]. change (1 - 1) with 0.
    cbn [set_readSem ringIn ringOut]. destruct (Z.eqb_spec (ringIn r) (ringOut r)) as [E|E].
    + rewrite (proj2 He E). rewrite !res_bind_Ret. change (Zlen (@nil Z)) with 0. rewrite Z.min_r by lia.
      eexists. split; [done|]. split; [|by split; cbn].
      apply ring_ok_readSem, ring_ok_readSem. by rewrite <- (proj2 He E).
    + destruct (read_step r q n Hr) as (r' & buf' & Eg & Hr1 & Hw1 & Hf & Hok); [tauto|lia|lia|].
      replace (ring_used _) with (Zlen q) by (by rewrite <- Hu). rewrite Eg, !res_bind_Ret, Hf.
      eexists. split; [done|]. split; [by apply ring_ok_readSem|]. unfold sems_free. cbn. lia.
  - unfold rpc_intr_write, with_writeSem. rewrite Hws. cbn [Z.leb Z.compare].
    destruct (write_step r q x Hr (conj Hrs Hws) Hop) as (ok & ret & r' & E & Hr1 & Hw1 & Hc).
    change (1 - 1) with 0. rewrite E, !res_bind_Ret. exists (set_writeSem r' (writeSem r' + 1)).
    destruct (_ <? _); destruct Hc as (_ & -> & Hok); (split; [done|]; split; [by apply ring_ok_writeSem|]);
      unfold sems_free; cbn; lia.
  - unfold rpc_intr_read, with_readSem. rewrite Hrs. cbn [Z.leb Z.compare]. change (1 - 1) with 0.
    cbn [set_readSem ringIn ringOut]. destruct (Z.eqb_spec (ringIn r) (ringOut r)) as [E|E].
    + rewrite (proj2 He E). rewrite !res_bind_Ret. change (Zlen (@nil Z)) with 0. rewrite Z.min_r by lia.
      eexists. split; [done|]. split; [|by split; cbn].
      apply ring_ok_readSem, ring_ok_readSem. by rewrite <- (proj2 He E).
    + destruct (read_step r q n Hr) as (r' & buf' & Eg & Hr1 & Hw1 & Hf & Hok); [tauto|lia|lia|].
      rewrite res_bind_Ret. cbn [set_readSem ringIn ringOut].
      replace (if ringIn r >? ringOut r then _ else _) with (Zlen q)
        by (rewrite <- Hu; unfold ring_used; by rewrite (proj2 (Z.eqb_neq _ _) E)).
      rewrite Eg, !res_bind_Ret, Hf.
      eexists. split; [done|]. split; [by apply ring_ok_readSem|]. unfold sems_free. cbn. lia.
Qed.

(** C5: a ring is a queue of words.  For every sequence of polled and interrupt
    reads and writes of whole words, the return values and the bytes delivered
    are those of a bounded byte queue: messages come out complete and in order,
    across the end of the ring, a write is refused exactly when it would fill
    the ring, and the semaphores are released. *)
Theorem ring_refines_queue r q ops :
  ring_ok r q -> sems_free r -> Forall word_op ops ->
  exists r', ring_run r ops = Ret (fst (queue_run q ops), r') /\ ring_ok r' (snd (queue_run q ops)) /\ sems_free r'.
Proof.
  intros Hr Hs Hops. revert r q Hr Hs. induction Hops as [|op ops Hop _ IH]; intros r q Hr Hs.
  - by exists r.
  - destruct (ring_step_spec r q op Hr Hs Hop) as (r1 & E1 & Hr1 & Hs1).
    cbn [ring_run queue_run]. rewrite E1, res_bind_Ret.
    destruct (queue_step q op) as [[ret out] q1]. cbn [fst snd] in *.
    destruct (IH r1 q1 Hr1 Hs1) as (r2 & E2 & Hr2 & Hs2). rewrite E2, res_bind_Ret.
    destruct (queue_run q1 ops) as [outs q2]. cbn [fst snd] in *. by exists r2.
Qed.

Lemma ring_refines_queue_witness :
  exists r', ring_run (ring_pointers 4096 (mkRing 0 0 0 0 1 1 (replicate 512 7)))
      [PollWrite (replicate 400 1); PollRead 396; IntrWrite 1 (replicate 300 2); IntrRead 1000; PollWrite (replicate 512 3)] =
    Ret ([(400, []); (396, replicate 396 1); (300, []); (304, replicate 4 1 ++ replicate 300 2); (0, [])], r') /\
    ring_ok r' [] /\ sems_free r'.
Proof.
  apply (ring_refines_queue _ []).
  - by split.
  - by split.
  - repeat constructor; unfold W32; lia.
Defined.

(** a message that is not a whole number of words can empty the ring.  The
    room is checked for the unrounded size, but the pointer moves by the rounded
    one: when that fills the ring the pointers meet, the call reports all bytes
    as written, and the ring reads as empty. *)
Theorem ring_fill_lost r q buf count x :
  ring_ok r q -> load buf 0 count = Ret x -> count <= 511 - Zlen q -> Zlen q + align4 count = 512 ->
  exists r', ring_put r buf count = Ret (true, count, r') /\ ringIn r' = ringOut r' /\ ring_used r' = 0.
Proof.
  intros Hr Hx Hc Hroom. destruct (ring_used_ok _ _ Hr) as (Hu & Hq & Hq4). pose proof (ring_ok_in _ _ Hr) as Hin.
  pose proof (load_bounds _ _ _ _ Hx) as (_ & Hc0 & Hbl & Hxl).
  pose proof (align4_range count ltac:(lia)) as [Ha1 Ha2].
  pose proof Hr as [Hend Hi Ho Hi4 Ho4 Hmem Hl _]. unfold RPC_RING_SIZE in *.
  set (i := ringIn r - ringStart r) in *. set (o := ringOut r - ringStart r) in *.
  destruct (ring_copy_in r buf count x i Hmem Hi ltac:(lia) Hx) as (m & _ & _ & _ & Em).
  exists (set_in r (ringOut r) m). split; [|split; [done|unfold ring_used; cbn; by rewrite Z.eqb_refl]].
  assert (Hwrap : (i + align4 count) mod 512 = o) by dlia.
  unfold ring_put. rewrite Hu, Hend. unfold RPC_RING_SIZE.
  replace (ringStart r + 512 - ringIn r) with (512 - i) by (unfold i; lia).
  rewrite (u32_small (512 - Zlen q - 1)), (u32_small (512 - i)) by (unfold is_u32, W32; lia). fold i.
  rewrite (Z.gtb_ltb count). destruct (Z.ltb_spec (512 - Zlen q - 1) count); [lia|].
  destruct (512 - i >=? count) eqn:E; rewrite Z.geb_leb in E.
  - apply Z.leb_le in E. rewrite Em, res_bind_Ret.
    pose proof (align4_le count (512 - i) ltac:(lia) ltac:(lia) ltac:(dlia)).
    rewrite (advance_in (ringStart r)) by (fold i; lia). fold i. rewrite Hwrap. do 3 f_equal. unfold o. lia.
  - apply Z.leb_gt in E. destruct (my_copy_user (rmem r) i buf 0 (512 - i)) as [m1| |]; [|done..].
    rewrite res_bind_Ret in Em. rewrite res_bind_Ret, Em, res_bind_Ret.
    replace (512 - i + (count - (512 - i))) with count by lia.
    do 3 f_equal. rewrite !align4_eq in * by lia. unfold o in *. dlia.
Qed.

Lemma ring_fill_lost_witness :
  exists r', ring_put (ring_pointers 4096 (mkRing 0 0 0 0 1 1 (replicate 512 7))) (replicate 509 1) 509 = Ret (true, 509, r') /\
    ringIn r' = ringOut r' /\ ring_used r' = 0.
Proof.
  apply (ring_fill_lost _ [] _ _ (replicate 509 1)).
  - by split.
  - reflexivity.
  - vm_compute. discriminate.
  - reflexivity.
Defined.

(** ** Blocking reads and the interrupt handler *)

(** A blocking read of an empty ring that sleeps through any number of freezes
    and is then woken by data delivers the data. *)
Lemma intr_read_woken r freezes p m q n :
  ringIn r = ringOut r -> sems_free r -> 0 <= n < W32 -> n mod 4 = 0 ->
  Forall (fun w => exists p' m', w = W_wake p' m' true false) freezes ->
  ring_ok (set_in r p m) q -> q <> [] ->
  exists r' buf, rpc_intr_read false false (freezes ++ [W_wake p m false false]) r (replicate (Z.to_nat n) 0) n =
      Ret (Z.min n (Zlen q), r', buf) /\
    firstn (Z.to_nat (Z.min n (Zlen q))) buf = firstn (Z.to_nat (Z.min n (Zlen q))) q /\
    ring_ok r' (skipn (Z.to_nat (Z.min n (Zlen q))) q) /\ sems_free r'.
Proof.
  intros He [Hrs Hws] Hn Hn4 Hfr Hok Hq.
  assert (Hwait : forall r, intr_wait (freezes ++ [W_wake p m false false]) r = Ret (true, set_in r p m)).
  { clear -Hfr. induction Hfr as [|w l (p' & m' & ->) _ IH]; intros r; [done|]. cbn [app intr_wait andb negb].
    rewrite IH. by destruct r. }
  destruct (ring_used_ok _ _ Hok) as (Hu & Hq5 & _).
  destruct (read_step (set_in r p m) q n Hok Hq Hn Hn4) as (r' & buf' & Eg & Hr1 & Hw1 & Hf & Hok').
  exists (set_readSem r' (readSem r' + 1)), buf'. split; [|split; [done|split]].
  - unfold rpc_intr_read, with_readSem. rewrite Hrs. cbn [Z.leb Z.compare]. change (1 - 1) with 0.
    cbn [set_readSem ringIn ringOut]. rewrite He, Z.eqb_refl, Hwait, res_bind_Ret.
    change (set_in (set_readSem r 0) p m) with (set_readSem (set_in r p m) 0).
    change (ringIn (set_readSem (set_in r p m) 0)) with p. change (ringOut (set_readSem (set_in r p m) 0)) with (ringOut r).
    replace (if p >? ringOut r then _ else _) with (Zlen q); [by rewrite Eg, res_bind_Ret|].
    rewrite <- Hu. unfold ring_used. cbn [set_in ringIn ringOut].
    destruct (Z.eqb_spec p (ringOut r)) as [Ep|]; [|done]. exfalso. rewrite <- Hu in Hq5. apply Hq.
    unfold ring_used in Hu. cbn [set_in ringIn ringOut] in Hu. rewrite Ep, Z.eqb_refl in Hu.
    destruct q; [done|]. unfold Zlen in Hu. simpl in Hu. lia.
  - by apply ring_ok_readSem.
  - unfold sems_free. cbn. cbn in Hw1. lia.
Qed.

(** A signal or a time-out ends a blocking read with nothing consumed. *)
Lemma intr_read_interrupted r n buf ws w : ringIn r = ringOut r -> sems_free r ->
  (w = W_timeout \/ exists fz, w = W_wake (ringIn r) (rmem r) fz true) ->
  rpc_intr_read false false (w :: ws) r buf n = Ret (0, r, buf).
Proof.
  intros He [Hrs Hws] Hw. unfold rpc_intr_read, with_readSem. rewrite Hrs. cbn [Z.leb Z.compare]. change (1 - 1) with 0.
  cbn [set_readSem ringIn ringOut]. rewrite He, Z.eqb_refl.
  destruct Hw as [-> | [fz ->]]; cbn [intr_wait]; [|rewrite andb_false_r]; rewrite !res_bind_Ret; destruct r; simpl in *; subst; done.
Qed.

(** The handler wakes exactly the devices whose interrupts it acknowledges, in
    order. *)
Lemma rpc_isr_wakes regs b acks woken : rpc_isr regs = Ret (b, acks, woken) ->
  acks = map (fun d => if d =? 1 then 8 else 64) woken /\ (b = false -> acks = []).
Proof.
  assert (Hloop : forall regs a w, a = map (fun d => if d =? 1 then 8 else 64) w ->
    forall a' w', isr_loop regs a w = Ret (a', w') -> a' = map (fun d => if d =? 1 then 8 else 64) w').
  { clear. induction regs as [|itr regs IH]; intros a w Ha a' w'; [done|]. cbn [isr_loop].
    destruct (negb (Z.land itr 72 =? 0)); [|intros [= <- <-]; done].
    unfold isr_ack. destruct (negb (Z.land itr 8 =? 0)), (negb (Z.land itr 64 =? 0)); cbn [app];
      apply IH; rewrite map_app, Ha; done. }
  unfold rpc_isr. destruct regs as [|itr regs]; [done|]. destruct (negb (Z.land itr 72 =? 0)).
  - destruct (isr_loop (itr :: regs) [] []) as [[a w]| |] eqn:E; [|done..]. intros [= <- <- <-].
    split; [|done]. by apply (Hloop (itr :: regs) [] [] eq_refl a w E).
  - intros [= <- <- <-]. done.
Qed.
