(* ===== verification/RpcConc.v ===== *)
(** * A reader and a writer on one ring at the same time

    Reads and writes of a ring take different semaphores, and the two ends of a
    ring are on different processors: one read and one write can run at the same
    time.  Here a write is cut into the steps that other processors can see, the
    check of the room, the copy of each word, and the store to [ringIn]; a read
    likewise.  Steps of both sides interleave in any way.  (The code has a
    [sync] between the copies of a write and the store to [ringIn]; the words of
    a copy are stored before it.) *)
From stdpp Require Import base tactics list numbers option gmap.
From Stdlib Require Import ZArith Lia Relations.
From S2P Require Import Prelude Buff Rpc RpcProofs.

(** ** Steps *)

Inductive writer := W_idle | W_copy (x : list Z) (k : Z).
Inductive reader := R_idle | R_copy (n k : Z) (acc : list Z).

(** [sent] and [got] record the messages of completed calls. *)
Record conc := mkConc {
  ring : RPC_Dev;
  wr_state : writer;
  rd_state : reader;
  sent : list Z;
  got : list Z
}.

(** The address [k] bytes behind [p], across the end of the ring. *)
Definition ring_addr (r : RPC_Dev) (p k : Z) : Z := if p + k <? ringEnd r then p + k else p + k - RPC_RING_SIZE.

(** The pointer after [count] bytes, as at the end of [ring_put] and
    [ring_get]. *)
Definition bump (r : RPC_Dev) (p count : Z) : Z :=
  let temp := ringEnd r - p in
  if temp >=? count then
    let ptmp := p + align4 count in if ptmp =? ringEnd r then ringStart r else ptmp
  else ringStart r + align4 (count - temp).

(** The write call begins: the room is checked. *)
Definition w_start (x : list Z) (c : conc) : option conc :=
  match wr_state c with
  | W_idle =>
      if Zlen x >? RPC_RING_SIZE - ring_used (ring c) - 1 then None
      else Some (mkConc (ring c) (W_copy x 0) (rd_state c) (sent c) (got c))
  | _ => None
  end.

Definition w_word (c : conc) : option conc :=
  match wr_state c with
  | W_copy x k =>
      if k <? Zlen x then
        let r := ring c in
        match store (rmem r) (ring_addr r (ringIn r) k - ringStart r) (firstn 4 (skipn (Z.to_nat k) x)) with
        | Ret m => Some (mkConc (set_in r (ringIn r) m) (W_copy x (k + 4)) (rd_state c) (sent c) (got c))
        | _ => None
        end
      else None
  | _ => None
  end.

Definition w_publish (c : conc) : option conc :=
  match wr_state c with
  | W_copy x k =>
      if k =? Zlen x then
        let r := ring c in
        Some (mkConc (set_in r (bump r (ringIn r) (Zlen x)) (rmem r)) W_idle (rd_state c) (sent c ++ x) (got c))
      else None
  | _ => None
  end.

(** The read call begins: it returns at once when the ring is empty. *)
Definition r_start (count : Z) (c : conc) : option conc :=
  match rd_state c with
  | R_idle =>
      let r := ring c in
      if ringIn r =? ringOut r then None
      else Some (mkConc r (wr_state c) (R_copy (if count >? ring_used r then ring_used r else count) 0 []) (sent c) (got c))
  | _ => None
  end.

Definition r_word (c : conc) : option conc :=
  match rd_state c with
  | R_copy n k acc =>
      if k <? n then
        let r := ring c in
        match load (rmem r) (ring_addr r (ringOut r) k - ringStart r) 4 with
        | Ret w => Some (mkConc r (wr_state c) (R_copy n (k + 4) (acc ++ w)) (sent c) (got c))
        | _ => None
        end
      else None
  | _ => None
  end.

Definition r_publish (c : conc) : option conc :=
  match rd_state c with
  | R_copy n k acc =>
      if k =? n then
        let r := ring c in
        Some (mkConc (set_out r (bump r (ringOut r) n)) (wr_state c) R_idle (sent c) (got c ++ acc))
      else None
  | _ => None
  end.

(** Calls are for whole words. *)
Inductive cstep (c c' : conc) : Prop :=
| S_w_start x : Zlen x mod 4 = 0 -> w_start x c = Some c' -> cstep c c'
| S_w_word : w_word c = Some c' -> cstep c c'
| S_w_publish : w_publish c = Some c' -> cstep c c'
| S_r_start n : 0 <= n -> n mod 4 = 0 -> r_start n c = Some c' -> cstep c c'
| S_r_word : r_word c = Some c' -> cstep c c'
| S_r_publish : r_publish c = Some c' -> cstep c c'.

(** ** The invariant *)

Definition writer_ok (r : RPC_Dev) (q : list Z) (w : writer) : Prop :=
  match w with
  | W_idle => True
  | W_copy x k =>
      Zlen x mod 4 = 0 /\ k mod 4 = 0 /\ 0 <= k <= Zlen x /\ Zlen q + Zlen x < 512 /\
      slice (rmem r) (ringIn r - ringStart r) k = firstn (Z.to_nat k) x
  end.

Definition reader_ok (q : list Z) (rd : reader) : Prop :=
  match rd with
  | R_idle => True
  | R_copy n k acc => n mod 4 = 0 /\ k mod 4 = 0 /\ 0 <= k <= n /\ n <= Zlen q /\ acc = firstn (Z.to_nat k) q
  end.

Record conc_ok (c : conc) (q : list Z) : Prop := {
  co_ring : ring_ok (ring c) q;
  co_writer : writer_ok (ring c) q (wr_state c);
  co_reader : reader_ok q (rd_state c);
  co_fifo : sent c = got c ++ q
}.

Lemma ring_addr_mod r q p k : ring_ok r q -> 0 <= p - ringStart r < 512 -> 0 <= k < 512 ->
  ring_addr r p k - ringStart r = (p - ringStart r + k) mod 512.
Proof. intros [He _ _ _ _ _ _ _] Hp Hk. unfold ring_addr, RPC_RING_SIZE in *. zcase; dlia. Qed.

Lemma bump_mod r q p n : ring_ok r q -> 0 <= p - ringStart r < 512 -> (p - ringStart r) mod 4 = 0 -> 0 <= n < 512 ->
  n mod 4 = 0 -> bump r p n = ringStart r + (p - ringStart r + n) mod 512.
Proof.
  intros [He _ _ _ _ _ _ _] Hp Hp4 Hn Hn4. unfold bump, RPC_RING_SIZE in *. rewrite He, Z.geb_leb.
  destruct (Z.leb_spec n (ringStart r + 512 - p)).
  - rewrite align4_id by lia. rewrite (advance_in (ringStart r)) by lia. done.
  - rewrite align4_id by (lia || dlia). dlia.
Qed.

(** A word of a list of whole words. *)
Lemma firstn_word (x : list Z) k : 0 <= k -> firstn (Z.to_nat (k + 4)) x = firstn (Z.to_nat k) x ++ firstn 4 (skipn (Z.to_nat k) x).
Proof. intros Hk. rewrite take_take_drop. f_equal. lia. Qed.

Lemma word_room k n : k < n -> k mod 4 = 0 -> n mod 4 = 0 -> k + 4 <= n.
Proof. intros. dlia. Qed.

Lemma w_word_ok c q c' : conc_ok c q -> w_word c = Some c' -> conc_ok c' q.
Proof.
  intros [Hr Hw Hrd Hf]. unfold w_word. destruct (wr_state c) as [|x k] eqn:Ew; [done|].
  destruct Hw as (Hx4 & Hk4 & Hk & Hroom & Hs). destruct (Z.ltb_spec k (Zlen x)) as [Hlt|]; [|done].
  pose proof (word_room _ _ Hlt Hk4 Hx4) as Hk'. pose proof (ring_ok_in _ _ Hr) as Hin.
  pose proof Hr as [Hend Hi Ho Hi4 Ho4 Hmem Hlen Hq]. unfold RPC_RING_SIZE in *.
  pose proof (Zlen_nonneg q).
  assert (Hw4 : Zlen (firstn 4 (skipn (Z.to_nat k) x)) = 4).
  { change 4%nat with (Z.to_nat 4). rewrite Zlen_firstn; rewrite ?Zlen_skipn; lia. }
  rewrite (ring_addr_mod (ring c) q) by (done || lia).
  set (r := ring c) in *. set (i := ringIn r - ringStart r) in *. set (o := ringOut r - ringStart r) in *.
  set (a := (i + k) mod 512). assert (Ha : 0 <= a <= 508) by (unfold a; dlia).
  destruct (store_exists (rmem r) a (firstn 4 (skipn (Z.to_nat k) x))) as (m & E & L); [lia|lia|].
  rewrite E. intros [= <-].
  assert (Hsq : slice m o (Zlen q) = slice (rmem r) o (Zlen q)).
  { apply (slice_store_other _ _ _ _ _ _ E). intros j Hj. rewrite Hw4. unfold a. dlia. }
  split; cbn [ring wr_state rd_state sent got]; try done.
  - split; cbn [set_in ringStart ringEnd ringIn ringOut rmem]; unfold RPC_RING_SIZE; try done; [lia|].
    fold o. rewrite Hsq. done.
  - cbn [writer_ok]. split; [done|]. split; [dlia|]. split; [lia|]. split; [done|].
    cbn [set_in ringIn ringStart rmem]. fold i. rewrite slice_app, firstn_word by lia. f_equal.
    + rewrite <- Hs. apply (slice_store_other _ _ _ _ _ _ E). intros j Hj. rewrite Hw4. unfold a. dlia.
    + pose proof (slice_store _ _ _ _ E ltac:(lia)) as S1. rewrite Hw4 in S1. unfold a in S1.
      by rewrite slice_mod in S1.
Qed.

Lemma w_publish_ok c q c' : conc_ok c q -> w_publish c = Some c' -> exists q', conc_ok c' q'.
Proof.
  intros [Hr Hw Hrd Hf]. unfold w_publish. destruct (wr_state c) as [|x k] eqn:Ew; [done|].
  destruct Hw as (Hx4 & Hk4 & Hk & Hroom & Hs). destruct (Z.eqb_spec k (Zlen x)) as [->|]; [|done]. intros [= <-].
  pose proof (ring_ok_in _ _ Hr) as Hin. pose proof (ring_used_ok _ _ Hr) as (_ & Hq5 & Hq4).
  pose proof Hr as [Hend Hi Ho Hi4 Ho4 Hmem Hlen Hq]. unfold RPC_RING_SIZE in *.
  rewrite (bump_mod (ring c) q) by (done || lia).
  set (r := ring c) in *. set (i := ringIn r - ringStart r) in *. set (o := ringOut r - ringStart r) in *.
  assert (Hxs : slice (rmem r) i (Zlen x) = x) by (rewrite Hs; unfold Zlen; by rewrite Nat2Z.id, firstn_all).
  exists (q ++ x). split; cbn [ring wr_state rd_state sent got]; try done.
  - split; cbn [set_in ringStart ringEnd ringIn ringOut rmem]; unfold RPC_RING_SIZE; try done.
    + pose proof (Z.mod_pos_bound (i + Zlen x) 512). lia.
    + replace (ringStart r + (i + Zlen x) mod 512 - ringStart r) with ((i + Zlen x) mod 512) by lia. dlia.
    + rewrite Zlen_app. unfold i, o in *. dlia.
    + rewrite Zlen_app. fold o. rewrite slice_app by lia. rewrite <- Hq. f_equal.
      by rewrite <- (slice_mod _ (o + Zlen q)), <- Hin.
  - destruct (rd_state c) as [|n k acc]; [done|]. destruct Hrd as (Hn4 & Hk4' & Hkn & Hnq & ->).
    cbn [reader_ok]. rewrite Zlen_app. repeat (split; [done || lia|]).
    rewrite take_app_le by (unfold Zlen in *; lia). done.
  - by rewrite Hf, app_assoc.
Qed.

Lemma r_word_ok c q c' : conc_ok c q -> r_word c = Some c' -> conc_ok c' q.
Proof.
  intros [Hr Hw Hrd Hf]. unfold r_word. destruct (rd_state c) as [|n k acc] eqn:Er; [done|].
  destruct Hrd as (Hn4 & Hk4 & Hkn & Hnq & Hacc). destruct (Z.ltb_spec k n) as [Hlt|]; [|done].
  pose proof (word_room _ _ Hlt Hk4 Hn4) as Hk'. pose proof (ring_used_ok _ _ Hr) as (_ & Hq5 & Hq4).
  pose proof Hr as [Hend Hi Ho Hi4 Ho4 Hmem Hlen Hq]. unfold RPC_RING_SIZE in *.
  rewrite (ring_addr_mod (ring c) q) by (done || lia).
  set (r := ring c) in *. set (o := ringOut r - ringStart r) in *.
  assert (Ha : 0 <= (o + k) mod 512 <= 508) by dlia.
  rewrite load_slice by lia. intros [= <-]. split; cbn [ring wr_state rd_state sent got]; try done.
  cbn [reader_ok]. split; [done|]. split; [dlia|]. split; [lia|]. split; [done|].
  rewrite firstn_word by lia. rewrite Hacc. f_equal. rewrite slice_mod. rewrite Hq at 1.
  rewrite slice_skipn by lia. change 4%nat with (Z.to_nat 4). rewrite slice_firstn by lia. done.
Qed.

Lemma r_publish_ok c q c' : conc_ok c q -> r_publish c = Some c' -> exists q', conc_ok c' q'.
Proof.
  intros [Hr Hw Hrd Hf]. unfold r_publish. destruct (rd_state c) as [|n k acc] eqn:Er; [done|].
  destruct Hrd as (Hn4 & Hk4 & Hkn & Hnq & Hacc). destruct (Z.eqb_spec k n) as [->|]; [|done]. intros [= <-].
  pose proof (ring_used_ok _ _ Hr) as (_ & Hq5 & Hq4).
  pose proof Hr as [Hend Hi Ho Hi4 Ho4 Hmem Hlen Hq]. unfold RPC_RING_SIZE in *.
  rewrite (bump_mod (ring c) q) by (done || lia).
  set (r := ring c) in *. set (o := ringOut r - ringStart r) in *.
  exists (skipn (Z.to_nat n) q). split; cbn [ring wr_state rd_state sent got]; try done.
  - split; cbn [set_out ringStart ringEnd ringIn ringOut rmem]; unfold RPC_RING_SIZE; try done.
    + pose proof (Z.mod_pos_bound (o + n) 512). lia.
    + replace (ringStart r + (o + n) mod 512 - ringStart r) with ((o + n) mod 512) by lia. dlia.
    + rewrite Zlen_skipn by lia. unfold o in *. dlia.
    + rewrite Zlen_skipn by lia. rewrite Hq at 1. rewrite slice_skipn by lia.
      replace (ringStart r + (o + n) mod 512 - ringStart r) with ((o + n) mod 512) by lia. by rewrite slice_mod.
  - destruct (wr_state c) as [|x k]; [done|]. destruct Hw as (Hx4 & Hk4' & Hk & Hroom & Hs).
    cbn [writer_ok]. rewrite Zlen_skipn by lia. repeat (split; [done || lia|]). done.
  - by rewrite Hf, Hacc, <- app_assoc, firstn_skipn.
Qed.

Lemma cstep_ok c q c' : conc_ok c q -> cstep c c' -> exists q', conc_ok c' q'.
Proof.
  intros Hc [x Hx4 E|E|E|n Hn0 Hn4 E|E|E].
  - destruct Hc as [Hr Hw Hrd Hf]. unfold w_start in E. destruct (wr_state c); [|done].
    pose proof (ring_used_ok _ _ Hr) as (Hu & Hq5 & Hq4). rewrite Hu, Z.gtb_ltb in E. unfold RPC_RING_SIZE in E.
    destruct (Z.ltb_spec (512 - Zlen q - 1) (Zlen x)); [done|]. injection E as <-. exists q. pose proof (Zlen_nonneg x).
    split; try done. cbn. assert (Zlen q + Zlen x < 512) by dlia. repeat (split; [done || lia|]). done.
  - exists q. by apply (w_word_ok c).
  - by apply (w_publish_ok c q).
  - destruct Hc as [Hr Hw Hrd Hf]. unfold r_start in E. destruct (rd_state c); [|done].
    pose proof (ring_used_ok _ _ Hr) as (Hu & Hq5 & Hq4). destruct (_ =? _); [done|]. injection E as <-. exists q.
    split; try done. cbn. rewrite Hu. rewrite Z.gtb_ltb. destruct (Z.ltb_spec (Zlen q) n); repeat (split; [done || lia|]); done.
  - exists q. by apply (r_word_ok c).
  - by apply (r_publish_ok c q).
Qed.

(** ** The steps are the steps of the driver

    Without interference, the steps of a write reach exactly the state that
    [ring_put] returns, and those of a read the one of [ring_get]. *)

Lemma w_words_alone r q x k rd s g : ring_ok r q -> writer_ok r q (W_copy x k) -> reader_ok q rd ->
  exists m, rtc cstep (mkConc r (W_copy x k) rd s g) (mkConc (set_in r (ringIn r) m) (W_copy x (Zlen x)) rd s g) /\
    ring_ok (set_in r (ringIn r) m) q /\ Zlen m = 512 /\
    slice m (ringIn r - ringStart r) (Zlen x) = x /\
    forall j, 0 <= j < 512 -> Zlen x <= (j - (ringIn r - ringStart r)) mod 512 -> m.[j] = (rmem r).[j].
Proof.
  intros Hr Hw Hrd. remember (Z.to_nat ((Zlen x - k) / 4)) as n eqn:En. revert r k Hr Hw En.
  induction n as [|n IH]; intros r k Hr Hw En; pose proof Hw as (Hx4 & Hk4 & Hk & Hroom & Hs);
    pose proof Hr as [Hend Hi Ho Hi4 Ho4 Hmem Hlen Hq]; unfold RPC_RING_SIZE in *; pose proof (Zlen_nonneg q).
  - assert (k = Zlen x) as -> by dlia. exists (rmem r).
    assert (Hid : set_in r (ringIn r) (rmem r) = r) by (by destruct r). rewrite Hid.
    split; [done|]. split; [done|]. split; [done|]. split; [|done].
    rewrite Hs. unfold Zlen. by rewrite Nat2Z.id, firstn_all.
  - assert (Hk' : k + 4 <= Zlen x) by dlia.
    assert (Hw4 : Zlen (firstn 4 (skipn (Z.to_nat k) x)) = 4).
    { change 4%nat with (Z.to_nat 4). rewrite Zlen_firstn; rewrite ?Zlen_skipn; lia. }
    set (a := (ringIn r - ringStart r + k) mod 512). assert (Ha : 0 <= a <= 508) by (unfold a; dlia).
    destruct (store_exists (rmem r) a (firstn 4 (skipn (Z.to_nat k) x))) as (m1 & E & L); [lia|lia|].
    assert (Estep : forall s g, w_word (mkConc r (W_copy x k) rd s g) =
                    Some (mkConc (set_in r (ringIn r) m1) (W_copy x (k + 4)) rd s g)).
    { intros s' g'. unfold w_word. cbn [wr_state ring rd_state sent got]. destruct (Z.ltb_spec k (Zlen x)); [|lia].
      rewrite (ring_addr_mod r q) by (done || lia). fold a. by rewrite E. }
    destruct (w_word_ok _ q _ (Build_conc_ok (mkConc r (W_copy x k) rd (g ++ q) g) q Hr Hw Hrd eq_refl) (Estep _ _))
      as [Hr1 Hw1 _ _].
    destruct (IH (set_in r (ringIn r) m1) (k + 4) Hr1 Hw1) as (m & Hsteps & Hok & Lm & Sm & Om); [dlia|].
    exists m. split; [|split; [done|split; [done|split; [done|]]]].
    + eapply rtc_l; [by apply S_w_word, Estep|]. done.
    + intros j Hj Hd. cbn [set_in ringIn ringStart rmem] in Om. rewrite Om by done.
      rewrite (store_at _ _ _ _ _ E) by lia. rewrite Hw4.
      destruct ((a <=? j) && (j <? a + 4)) eqn:Ea; [|done].
      rewrite andb_true_iff, Z.leb_le, Z.ltb_lt in Ea. unfold a in *. dlia.
Qed.

Lemma writer_alone r q x rd s g : ring_ok r q -> reader_ok q rd -> Zlen x mod 4 = 0 -> Zlen q + Zlen x < 512 ->
  exists r', ring_put r x (Zlen x) = Ret (true, Zlen x, r') /\
    rtc cstep (mkConc r W_idle rd s g) (mkConc r' W_idle rd (s ++ x) g).
Proof.
  intros Hr Hrd Hx4 Hroom. destruct (ring_used_ok _ _ Hr) as (Hu & Hq & Hq4). pose proof (Zlen_nonneg x).
  assert (Ha : align4 (Zlen x) = Zlen x) by (apply align4_id; [lia|done]).
  assert (Hl : load x 0 (Zlen x) = Ret x).
  { rewrite load_ok by lia. unfold Zlen. by rewrite Nat2Z.id, drop_0, firstn_all. }
  destruct (ring_put_spec r q x (Zlen x) x Hr Hl ltac:(lia) ltac:(lia)) as (m & pad & E & _ & _ & Hput).
  destruct (w_words_alone r q x 0 rd s g Hr) as (m2 & Hsteps & Hok & Lm & Sm & Om).
  { cbn. repeat (split; [done || lia|]). done. }
  { done. }
  assert (m2 = m) as -> by (by apply (mem_put_unique (rmem r) m2 m (ringIn r - ringStart r) x)).
  eexists. split; [exact E|]. cbv zeta. rewrite Ha.
  eapply rtc_l; [apply (S_w_start _ _ x Hx4)|].
  { unfold w_start. cbn [wr_state ring]. rewrite Hu, Z.gtb_ltb. unfold RPC_RING_SIZE.
    destruct (Z.ltb_spec (512 - Zlen q - 1) (Zlen x)); [lia|reflexivity]. }
  etransitivity; [exact Hsteps|]. apply rtc_once, S_w_publish. unfold w_publish. cbn [wr_state ring rd_state sent got].
  rewrite Z.eqb_refl. do 3 f_equal.
  rewrite (bump_mod _ q _ _ Hok); cbn [set_in ringIn ringStart]; try done; try lia; destruct Hr; unfold RPC_RING_SIZE in *; done || lia.
Qed.

Lemma r_words_alone r q n k w s g : ring_ok r q -> writer_ok r q w -> reader_ok q (R_copy n k (firstn (Z.to_nat k) q)) ->
  rtc cstep (mkConc r w (R_copy n k (firstn (Z.to_nat k) q)) s g) (mkConc r w (R_copy n n (firstn (Z.to_nat n) q)) s g).
Proof.
  intros Hr Hw Hrd. remember (Z.to_nat ((n - k) / 4)) as j eqn:Ej. revert k Hrd Ej.
  induction j as [|j IH]; intros k Hrd Ej; pose proof Hrd as (Hn4 & Hk4 & Hkn & Hnq & _).
  - assert (k = n) as -> by dlia. done.
  - assert (Hk' : k + 4 <= n) by dlia. pose proof (ring_used_ok _ _ Hr) as (_ & Hq5 & Hq4).
    assert (Estep : forall s g, r_word (mkConc r w (R_copy n k (firstn (Z.to_nat k) q)) s g) =
                    Some (mkConc r w (R_copy n (k + 4) (firstn (Z.to_nat (k + 4)) q)) s g)).
    { intros s' g'. unfold r_word. cbn [wr_state ring rd_state sent got]. destruct (Z.ltb_spec k n); [|lia].
      pose proof Hr as [Hend Hi Ho Hi4 Ho4 Hmem Hlen Hq]. unfold RPC_RING_SIZE in *.
      rewrite (ring_addr_mod r q) by (done || lia). rewrite load_slice by (lia || dlia).
      rewrite firstn_word by lia. do 4 f_equal. rewrite slice_mod. rewrite Hq at 1.
      rewrite slice_skipn by lia. change 4%nat with (Z.to_nat 4). by rewrite slice_firstn by lia. }
    eapply rtc_l; [by apply S_r_word, Estep|]. apply IH; [|dlia].
    cbn. repeat (split; [done || lia || dlia|]). done.
Qed.

Lemma reader_alone r q n w s g buf : ring_ok r q -> q <> [] -> writer_ok r q w -> 0 <= n < W32 -> n mod 4 = 0 ->
  let k := Z.min n (Zlen q) in k <= Zlen buf ->
  exists r' buf', ring_get r (Zlen q) buf n = Ret (k, r', buf') /\ store buf 0 (firstn (Z.to_nat k) q) = Ret buf' /\
    rtc cstep (mkConc r w R_idle s g) (mkConc r' w R_idle s (g ++ firstn (Z.to_nat k) q)).
Proof.
  intros Hr Hq0 Hw Hn Hn4 k Hb. destruct (ring_used_ok _ _ Hr) as (Hu & Hq & Hq4).
  destruct (ring_get_spec r q buf n Hr Hn Hb) as (p & buf' & E & Est & Hok). fold k in E, Est, Hok.
  assert (Hk : 0 <= k <= Zlen q) by (unfold k; lia).
  assert (Hk4 : k mod 4 = 0) by (unfold k; destruct (Z.min_spec n (Zlen q)) as [[_ ->]|[_ ->]]; done).
  exists (set_out r p), buf'. split; [done|]. split; [done|].
  assert (Hne : ringIn r <> ringOut r).
  { intros Heq. destruct Hr as [_ _ _ _ _ _ Hl _]. rewrite Heq, Z.sub_diag in Hl. unfold RPC_RING_SIZE in Hl.
    change (0 mod 512) with 0 in Hl. destruct q; [done|]. unfold Zlen in Hl. simpl in Hl. lia. }
  eapply rtc_l; [apply (S_r_start _ _ n); [lia|done|]|].
  { unfold r_start. cbn [rd_state ring]. rewrite (proj2 (Z.eqb_neq _ _) Hne), Hu.
    replace (if n >? Zlen q then Zlen q else n) with k by (unfold k; rewrite Z.gtb_ltb; destruct (Z.ltb_spec (Zlen q) n); lia).
    reflexivity. }
  etransitivity; [apply (r_words_alone r q k 0); try done; cbn; repeat (split; [done || lia|]); done|].
  apply rtc_once, S_r_publish. unfold r_publish. cbn [wr_state ring rd_state sent got]. rewrite Z.eqb_refl. do 4 f_equal.
  pose proof Hr as [Hend Hi Ho Hi4 Ho4 Hmem Hlen Hqq]. unfold RPC_RING_SIZE in *.
  rewrite (bump_mod r q) by (done || lia).
  pose proof (ro_len _ _ Hok) as Hl2. pose proof (ro_out _ _ Hok) as Ho2. cbn [set_out ringIn ringOut ringStart] in Hl2, Ho2.
  rewrite align4_id in Hl2 by (done || lia). rewrite Zlen_skipn in Hl2 by lia. unfold RPC_RING_SIZE in *. dlia.
Qed.

(** ** Reads see what was written *)

(** C4: one reader and one writer.  In every state that a concurrent reader and
    writer of whole words can reach, in whatever order their steps interleave,
    the bytes delivered by completed reads, followed by the bytes in the ring,
    are the bytes of completed writes: no byte is lost, repeated, torn or
    overwritten before it is read. *)
Theorem ring_concurrent_fifo r c :
  ring_ok r [] -> rtc cstep (mkConc r W_idle R_idle [] []) c ->
  exists q, sent c = got c ++ q /\ ring_ok (ring c) q /\ Zlen q < RPC_RING_SIZE.
Proof.
  intros Hr Hc.
  assert (Hinv : exists q, conc_ok c q).
  { assert (H0 : exists q, conc_ok (mkConc r W_idle R_idle [] []) q) by (exists []; by split).
    induction Hc as [|c c1 c2 Hstep _ IH]; [done|]. apply IH. destruct H0 as [q Hq]. by apply (cstep_ok c q). }
  destruct Hinv as [q [Hring _ _ Hf]]. exists q. split; [done|]. split; [done|].
  unfold RPC_RING_SIZE. pose proof (ring_used_ok _ _ Hring). lia.
Qed.

(** A write of two words, a read of one of them while the next write copies its
    word, and the end of both. *)
Lemma ring_concurrent_fifo_witness :
  exists c, got c = [1; 2; 3; 4] /\ sent c = [1; 2; 3; 4; 5; 6; 7; 8; 9; 9; 9; 9] /\
    exists q, sent c = got c ++ q /\ ring_ok (ring c) q /\ Zlen q < RPC_RING_SIZE.
Proof.
  eexists. split; [|split].
  3: { eapply (ring_concurrent_fifo (ring_pointers 4096 (mkRing 0 0 0 0 1 1 (replicate 512 7)))).
       - by split.
       - eapply rtc_l; [apply (S_w_start _ _ [1; 2; 3; 4; 5; 6; 7; 8]); vm_compute; reflexivity|].
         eapply rtc_l; [apply S_w_word; vm_compute; reflexivity|].
         eapply rtc_l; [apply S_w_word; vm_compute; reflexivity|].
         eapply rtc_l; [apply S_w_publish; vm_compute; reflexivity|].
         eapply rtc_l; [apply (S_r_start _ _ 4); [lia|reflexivity|vm_compute; reflexivity]|].
         eapply rtc_l; [apply (S_w_start _ _ [9; 9; 9; 9]); vm_compute; reflexivity|].
         eapply rtc_l; [apply S_r_word; vm_compute; reflexivity|].
         eapply rtc_l; [apply S_w_word; vm_compute; reflexivity|].
         eapply rtc_l; [apply S_r_publish; vm_compute; reflexivity|].
         apply rtc_once, S_w_publish. vm_compute. reflexivity. }
  - reflexivity.
  - reflexivity.
Defined.
