(* ===== verification/RpcCall.v ===== *)
(** * Calls from the kernel to the audio and video processors

    [send_rpc_command] and the kernel thread that receives the replies, together
    with the program on the other processor, which is a parameter. *)
From stdpp Require Import base tactics list numbers option gmap.
From Stdlib Require Import ZArith Lia.
From S2P Require Import Prelude Buff Rpc RpcProofs.

(** ** Words of a message *)

Lemma byte_of_mod w i : 0 <= i -> byte_of w i = (w / 2 ^ (8 * i)) mod 256.
Proof.
  intros Hi. unfold byte_of. change 255 with (Z.ones 8). rewrite Z.land_ones, Z.shiftr_div_pow2 by lia. done.
Qed.

Lemma byte_of_byte w i : is_byte (byte_of w i).
Proof. unfold byte_of, is_byte. change 255 with (Z.ones 8). rewrite Z.land_ones by lia. apply Z.mod_pos_bound. lia. Qed.

Lemma word_bytes_id w : is_u32 w -> word_of (byte_of w 0) (byte_of w 1) (byte_of w 2) (byte_of w 3) = w.
Proof. intros [H0 H1]. unfold W32 in H1. unfold word_of. rewrite !byte_of_mod by lia. dlia. Qed.

Lemma byte_of_word a b c d : is_byte a -> is_byte b -> is_byte c -> is_byte d ->
  byte_of (word_of a b c d) 0 = a /\ byte_of (word_of a b c d) 1 = b /\
  byte_of (word_of a b c d) 2 = c /\ byte_of (word_of a b c d) 3 = d.
Proof. unfold is_byte. intros. unfold word_of. rewrite !byte_of_mod by lia. repeat split; dlia. Qed.

Lemma word_of_u32 a b c d : is_byte a -> is_byte b -> is_byte c -> is_byte d -> is_u32 (word_of a b c d).
Proof. unfold is_byte, is_u32, W32, word_of. lia. Qed.

Lemma htonl_u32 w : is_u32 (htonl w).
Proof. apply word_of_u32; apply byte_of_byte. Qed.

(** [ntohl] undoes [htonl]. *)
Lemma ntohl_htonl w : is_u32 w -> ntohl (htonl w) = w.
Proof.
  intros Hw. unfold ntohl, htonl at 1.
  destruct (byte_of_word (byte_of w 3) (byte_of w 2) (byte_of w 1) (byte_of w 0)) as (E0 & E1 & E2 & E3);
    try apply byte_of_byte.
  unfold htonl. rewrite E0, E1, E2, E3. by apply word_bytes_id.
Qed.

(** The words of a message made of words. *)
Definition message (ws : list Z) : list Z := concat (map put_word ws).

Lemma message_length ws : Zlen (message ws) = 4 * Zlen ws.
Proof. unfold message, Zlen. induction ws as [|w ws IH]; [done|]. cbn [map concat length app put_word]. lia. Qed.

Lemma message_word ws i : Forall is_u32 ws -> (i < length ws)%nat -> get_word (message ws) (4 * Z.of_nat i) = nth i ws 0.
Proof.
  intros Hws. revert i. induction Hws as [|w ws Hw _ IH]; intros i Hi; [simpl in Hi; lia|].
  destruct i as [|i].
  - by apply word_bytes_id.
  - simpl in Hi. cbn [nth]. rewrite <- IH by lia. unfold message. cbn [map concat]. fold (message ws). unfold get_word.
    replace (4 * Z.of_nat (S i)) with (4 * Z.of_nat i + 4) by lia.
    rewrite !(at_app (put_word w)) by lia. change (Zlen (put_word w)) with 4.
    destruct (Z.ltb_spec (4 * Z.of_nat i + 4) 4); [lia|]. destruct (Z.ltb_spec (4 * Z.of_nat i + 4 + 1) 4); [lia|].
    destruct (Z.ltb_spec (4 * Z.of_nat i + 4 + 2) 4); [lia|]. destruct (Z.ltb_spec (4 * Z.of_nat i + 4 + 3) 4); [lia|].
    f_equal; f_equal; lia.
Qed.

Lemma request_message command param1 param2 sync retvalue :
  request command param1 param2 sync retvalue =
  message [htonl KERNELID; htonl KERNELID; 0; htonl sync; htonl 12; htonl retvalue;
           htonl command; htonl param1; htonl param2].
Proof. reflexivity. Qed.

(** ** The other processor *)

(** A program on the other processor that takes one request of nine words out of
    its ring and answers with eight words: it echoes the context and the task of
    the request, and its last word is the result [f] of the command. *)
Definition answers (remote : RPC_Dev -> RPC_Dev -> RPC_Dev * RPC_Dev) (f : Z -> Z -> Z -> Z) : Prop :=
  forall r1 r2 ws, ring_ok r1 (message ws) -> length ws = 9%nat -> Forall is_u32 ws -> ring_ok r2 [] ->
    exists h0 h1 h2 h3 h4, Forall is_u32 [h0; h1; h2; h3; h4] /\
    ring_ok (fst (remote r1 r2)) [] /\
    ring_ok (snd (remote r1 r2))
      (message [h0; h1; h2; h3; h4; nth 5 ws 0; nth 3 ws 0;
                htonl (f (ntohl (nth 6 ws 0)) (ntohl (nth 7 ws 0)) (ntohl (nth 8 ws 0)))]) /\
    readSem (fst (remote r1 r2)) = readSem r1 /\ writeSem (fst (remote r1 r2)) = writeSem r1 /\
    readSem (snd (remote r1 r2)) = readSem r2 /\ writeSem (snd (remote r1 r2)) = writeSem r2.

(** What happens in a millisecond: the other processor answers, and the kernel
    thread of the reply ring runs. *)
Definition rpc_env (remote : RPC_Dev -> RPC_Dev -> RPC_Dev * RPC_Dev) (opt : Z) (s : rpc_state) : res rpc_state :=
  r1 ← kern_dev s (2 * opt);
  r2 ← kern_dev s (2 * opt + 1);
  let '(r1, r2) := remote r1 r2 in
  let s := set_kern (set_kern s (2 * opt) r1) (2 * opt + 1) r2 in
  o ← rpc_kernel_thread s (2 * opt + 1);
  Ret (match o with Some s => s | None => s end).

(** The state before and after calls: both rings of a processor are empty and
    free. *)
Definition idle (s : rpc_state) (opt : Z) : Prop :=
  exists r1 r2, kern_dev s (2 * opt) = Ret r1 /\ kern_dev s (2 * opt + 1) = Ret r2 /\
    ring_ok r1 [] /\ ring_ok r2 [] /\ readSem r1 = 1 /\ writeSem r1 = 1 /\ readSem r2 = 1 /\ writeSem r2 = 1.

Lemma kern_dev_set s i r : 0 <= i -> (Z.to_nat i < length (kern_devices s))%nat -> kern_dev (set_kern s i r) i = Ret r.
Proof.
  intros Hi Hl. unfold kern_dev, set_kern. cbn [kern_devices]. rewrite list_lookup_insert_eq by done.
  by destruct (Z.ltb_spec i 0); [lia|].
Qed.

Lemma kern_dev_set_ne s i j r : i <> j -> 0 <= i -> 0 <= j -> kern_dev (set_kern s i r) j = kern_dev s j.
Proof. intros Hij Hi Hj. unfold kern_dev, set_kern. cbn [kern_devices]. by rewrite list_lookup_insert_ne by lia. Qed.

Lemma kern_dev_len s i r : kern_dev s i = Ret r -> 0 <= i /\ (Z.to_nat i < length (kern_devices s))%nat.
Proof.
  unfold kern_dev. destruct (kern_devices s !! Z.to_nat i) eqn:E; [|done].
  destruct (Z.ltb_spec i 0); [done|]. intros _. split; [done|]. by apply lookup_lt_Some in E.
Qed.

(** A ring that can be written, or read. *)
Lemma kern_write_spec s opt r buf : 0 <= opt ->
  kern_dev s (2 * opt) = Ret r -> ring_ok r [] -> writeSem r = 1 -> Zlen buf mod 4 = 0 -> Zlen buf <= 508 ->
  exists r', rpc_kern_write false s opt buf (Zlen buf) =
      Ret (Zlen buf, ring_bell (set_kern s (2 * opt) r') (kern_doorbell opt)) /\
    ring_ok r' buf /\ readSem r' = readSem r /\ writeSem r' = 1.
Proof.
  intros Hopt Hd Hr Hws Hb4 Hb. pose proof (Zlen_nonneg buf).
  assert (Ha : align4 (Zlen buf) = Zlen buf) by (apply align4_id; [lia|done]).
  assert (Hl : load buf 0 (Zlen buf) = Ret buf).
  { rewrite load_ok by lia. unfold Zlen. by rewrite Nat2Z.id, drop_0, firstn_all. }
  assert (Hr0 : ring_ok (set_writeSem r 0) []) by (destruct Hr; by split).
  destruct (ring_put_spec _ [] buf (Zlen buf) buf Hr0 Hl) as (m & pad & E & Hp & Hok & _);
    [unfold Zlen at 1; simpl; lia|lia|].
  assert (pad = []) as -> by (destruct pad; [done|unfold Zlen in *; simpl in *; lia]).
  rewrite app_nil_r in Hok. cbn [app] in Hok. eexists. split.
  { unfold rpc_kern_write, RPC_NR_KERN_DEVS, RPC_NR_PAIR. replace (opt * 4 / 2) with (2 * opt) by dlia.
    rewrite Hd, res_bind_Ret. unfold with_writeSem. rewrite Hws. cbn [Z.leb Z.compare]. change (1 - 1) with 0.
    rewrite E, !res_bind_Ret. reflexivity. }
  cbn. split; [destruct Hok; by split|]. by split.
Qed.

Lemma kern_read_spec s opt r q n : 0 <= opt ->
  kern_dev s (2 * opt + 1) = Ret r -> ring_ok r q -> readSem r = 1 -> q <> [] -> Zlen q = n ->
  exists r', rpc_kern_read false s opt (replicate (Z.to_nat n) 0) n = Ret (n, set_kern s (2 * opt + 1) r', q) /\
    ring_ok r' [] /\ readSem r' = 1 /\ writeSem r' = writeSem r.
Proof.
  intros Hopt Hd Hr Hrs Hq0 Hn. destruct (ring_used_ok _ _ Hr) as (Hu & Hq & Hq4).
  assert (Hr0 : ring_ok (set_readSem r 0) q) by (destruct Hr; by split).
  assert (Hb : Zlen (replicate (Z.to_nat n) 0) = n) by (unfold Zlen; rewrite length_replicate; lia).
  destruct (ring_get_spec _ q (replicate (Z.to_nat n) 0) n Hr0) as (p & buf' & E & Hs & Hok); [unfold W32; lia|lia|].
  rewrite Z.min_l in E, Hs, Hok by lia. rewrite align4_id in Hok by (lia || by rewrite <- Hn).
  assert (Hf : firstn (Z.to_nat n) q = q) by (apply firstn_all2; unfold Zlen in *; lia).
  assert (Hsk : skipn (Z.to_nat n) q = []) by (apply skipn_all2; unfold Zlen in *; lia).
  rewrite Hf in Hs. rewrite Hsk in Hok.
  assert (buf' = q) as ->.
  { rewrite store_ok in Hs by lia. injection Hs as <-. cbn [firstn app Z.to_nat].
    rewrite skipn_all2 by (rewrite length_replicate; unfold Zlen in *; lia). by rewrite app_nil_r. }
  assert (Hne : ringIn r <> ringOut r).
  { intros Heq. destruct Hr as [_ _ _ _ _ _ Hl _]. rewrite Heq, Z.sub_diag in Hl. unfold RPC_RING_SIZE in Hl.
    change (0 mod 512) with 0 in Hl. destruct q; [done|]. unfold Zlen in Hl. simpl in Hl. lia. }
  eexists. split.
  { unfold rpc_kern_read, RPC_NR_KERN_DEVS, RPC_NR_PAIR. replace (opt * 4 / 2) with (2 * opt) by dlia.
    rewrite Hd, res_bind_Ret. unfold with_readSem. rewrite Hrs. cbn [Z.leb Z.compare]. change (1 - 1) with 0.
    cbn [set_readSem ringIn ringOut]. rewrite (proj2 (Z.eqb_neq _ _) Hne).
    replace (ring_used _) with (Zlen q) by (by rewrite <- Hu). rewrite E, !res_bind_Ret. reflexivity. }
  cbn. split; [destruct Hok; by split|]. by split.
Qed.

(** The kernel thread stores the result where the caller asked for it, and then
    releases the caller. *)
Lemma kernel_thread_spec s opt r h0 h1 h2 h3 h4 ctxp sync v : 0 <= opt ->
  kern_dev s (2 * opt + 1) = Ret r ->
  ring_ok r (message [h0; h1; h2; h3; h4; htonl ctxp; htonl sync; htonl v]) ->
  Forall is_u32 [h0; h1; h2; h3; h4] -> is_u32 ctxp -> is_u32 sync -> is_u32 v -> readSem r = 1 ->
  exists r', rpc_kernel_thread s (2 * opt + 1) =
      Ret (Some (poke (poke (set_kern s (2 * opt + 1) r') ctxp v) sync 1)) /\
    ring_ok r' [] /\ readSem r' = 1 /\ writeSem r' = writeSem r.
Proof.
  intros Hopt Hd Hr Hh Hc Hsy Hv Hrs. set (ws := [h0; h1; h2; h3; h4; htonl ctxp; htonl sync; htonl v]) in *.
  assert (Hws : Forall is_u32 ws).
  { change ws with ([h0; h1; h2; h3; h4] ++ [htonl ctxp; htonl sync; htonl v]). apply Forall_app. split; [done|].
    repeat constructor; apply htonl_u32. }
  destruct (kern_read_spec s opt r (message ws) 32 Hopt Hd Hr Hrs) as (r' & E & Hok & Hrs' & Hws'); [done|by rewrite message_length|].
  exists r'. split; [|done]. unfold rpc_kernel_thread. rewrite Hd, res_bind_Ret.
  assert (Hne : ringIn r <> ringOut r).
  { intros Heq. destruct Hr as [_ _ _ _ _ _ Hl _]. rewrite Heq, Z.sub_diag in Hl. done. }
  rewrite (proj2 (Z.eqb_neq _ _) Hne). unfold RPC_NR_PAIR. replace ((2 * opt + 1) / 2) with opt by dlia.
  change 32%nat with (Z.to_nat 32). rewrite E, res_bind_Ret. cbn [Z.eqb Pos.eqb negb].
  change (get_word (message ws) 20) with (get_word (message ws) (4 * Z.of_nat 5)).
  change (get_word (message ws) 24) with (get_word (message ws) (4 * Z.of_nat 6)).
  change (get_word (message ws) 28) with (get_word (message ws) (4 * Z.of_nat 7)).
  rewrite !message_word by (done || (simpl; lia)). cbn [nth ws]. by rewrite !ntohl_htonl.
Qed.

(** C6: a kernel call.  With a program on the other processor that answers
    requests, [send_rpc_command] puts the command into the ring, rings the
    processor's interrupt, and returns RPC_OK with the result of the command in
    the caller's variable; the rings are empty and free for the next call. *)
Theorem rpc_call_correct remote f fuel s opt command param1 param2 sync retvalue :
  answers remote f -> (forall a b c, is_u32 (f a b c)) -> opt = RPC_AUDIO \/ opt = RPC_VIDEO -> idle s opt ->
  is_u32 command -> is_u32 param1 -> is_u32 param2 -> is_u32 sync -> is_u32 retvalue -> sync <> retvalue ->
  exists s', send_rpc_command (S fuel) (rpc_env remote opt) sync s opt command param1 param2 retvalue = Ret (RPC_OK, s') /\
    words s' !! retvalue = Some (f command param1 param2) /\ words s' !! sync = Some 1 /\
    (forall a, a <> sync -> a <> retvalue -> words s' !! a = words s !! a) /\
    doorbell s' = doorbell s ++ kern_doorbell opt /\ idle s' opt.
Proof.
  intros Hrem Hf Hopt (r1 & r2 & Hd1 & Hd2 & Hr1 & Hr2 & Hs1 & Hw1 & Hs2 & Hw2) Hc H1 H2 Hsy Hrv Hne.
  assert (Ho : 0 <= opt) by (unfold RPC_AUDIO, RPC_VIDEO in Hopt; lia).
  pose proof (kern_dev_len _ _ _ Hd1) as [_ Hn1]. pose proof (kern_dev_len _ _ _ Hd2) as [_ Hn2].
  set (ws := [htonl KERNELID; htonl KERNELID; 0; htonl sync; htonl 12; htonl retvalue; htonl command; htonl param1; htonl param2]).
  assert (Hws : Forall is_u32 ws) by (unfold ws; repeat constructor; try apply htonl_u32; unfold W32; lia).
  destruct (kern_write_spec (poke s sync 0) opt r1 (message ws) Ho Hd1 Hr1 Hw1) as (r1' & Ew & Hr1' & Hrs1 & Hws1);
    [by rewrite message_length|by rewrite message_length|].
  destruct (Hrem r1' r2 ws Hr1' eq_refl Hws Hr2) as (h0 & h1 & h2 & h3 & h4 & Hh & Hq1 & Hq2 & Ha & Hb & Hcc & Hdd).
  unfold ws in Hq2. cbn [nth] in Hq2. rewrite !ntohl_htonl in Hq2 by done. fold ws in Hq2.
  set (s1 := ring_bell (set_kern (poke s sync 0) (2 * opt) r1') (kern_doorbell opt)) in *.
  destruct (remote r1' r2) as [t1 t2] eqn:Er. cbn [fst snd] in *.
  set (s2 := set_kern (set_kern s1 (2 * opt) t1) (2 * opt + 1) t2).
  assert (Hl1 : length (kern_devices s1) = length (kern_devices s)) by (unfold s1, set_kern; cbn; by rewrite length_insert).
  assert (Hk2 : kern_dev s2 (2 * opt + 1) = Ret t2).
  { apply kern_dev_set; [lia|]. unfold set_kern. cbn [kern_devices]. rewrite length_insert, Hl1. done. }
  destruct (kernel_thread_spec s2 opt t2 h0 h1 h2 h3 h4 retvalue sync (f command param1 param2) Ho Hk2 Hq2 Hh Hrv Hsy (Hf _ _ _))
    as (t2' & Et & Hok2 & Hrs2 & Hws2); [congruence|].
  set (s3 := poke (poke (set_kern s2 (2 * opt + 1) t2') retvalue (f command param1 param2)) sync 1) in *.
  assert (Henv : rpc_env remote opt s1 = Ret s3).
  { unfold rpc_env.
    assert (Hk1 : kern_dev s1 (2 * opt) = Ret r1') by (by apply (kern_dev_set (poke s sync 0)); [lia|]).
    assert (Hk1' : kern_dev s1 (2 * opt + 1) = Ret r2)
      by (rewrite <- Hd2; apply (kern_dev_set_ne (poke s sync 0)); lia).
    rewrite Hk1, res_bind_Ret, Hk1', res_bind_Ret, Er. fold s2. by rewrite Et, res_bind_Ret. }
  exists s3. split; [|split; [|split; [|split; [|split]]]].
  - unfold send_rpc_command. rewrite request_message. fold ws. change 36 with (Zlen (message ws)).
    rewrite Ew, res_bind_Ret, Z.eqb_refl. fold s1. cbn [negb rpc_sync].
    assert (Hw0 : words s1 !! sync = Some 0) by (apply lookup_insert_eq). rewrite Hw0. cbn [Z.eqb negb].
    rewrite Henv, res_bind_Ret.
    assert (Hw3 : words s3 !! sync = Some 1) by (apply lookup_insert_eq).
    destruct fuel; cbn [rpc_sync]; rewrite Hw3; done.
  - cbn. rewrite lookup_insert_ne by done. apply lookup_insert_eq.
  - apply lookup_insert_eq.
  - intros a Ha1 Ha2. cbn. by rewrite !lookup_insert_ne by done.
  - done.
  - exists t1, t2'. split.
    { unfold s3, s2. change (kern_dev (poke (poke (set_kern (set_kern (set_kern s1 (2 * opt) t1) (2 * opt + 1) t2) (2 * opt + 1) t2')
        retvalue (f command param1 param2)) sync 1) (2 * opt)) with
        (kern_dev (set_kern (set_kern (set_kern s1 (2 * opt) t1) (2 * opt + 1) t2) (2 * opt + 1) t2') (2 * opt)).
      rewrite !kern_dev_set_ne by lia. apply kern_dev_set; [lia|]. by rewrite Hl1. }
    split.
    { change (kern_dev s3 (2 * opt + 1)) with (kern_dev (set_kern s2 (2 * opt + 1) t2') (2 * opt + 1)).
      apply kern_dev_set; [lia|]. unfold s2, set_kern. cbn [kern_devices]. rewrite !length_insert, Hl1. done. }
    repeat (split; [done || congruence|]). congruence.
Qed.

(** A program that answers with the sum of its arguments. *)
Definition demo_f (a b c : Z) : Z := u32 (a + b + c).

Definition demo_reply (m : list Z) : list Z :=
  message [0; 0; 0; 0; 0; get_word m 20; get_word m 12;
           htonl (demo_f (ntohl (get_word m 24)) (ntohl (get_word m 28)) (ntohl (get_word m 32)))].

Definition demo_remote (r1 r2 : RPC_Dev) : RPC_Dev * RPC_Dev :=
  match ring_get r1 (ring_used r1) (replicate 36 0) 36 with
  | Ret (_, r1, m) => match ring_put r2 (demo_reply m) 32 with Ret (_, _, r2) => (r1, r2) | _ => (r1, r2) end
  | _ => (r1, r2)
  end.

Lemma demo_answers : answers demo_remote demo_f.
Proof.
  intros r1 r2 ws Hr1 Hlen Hws Hr2. exists 0, 0, 0, 0, 0.
  split; [repeat constructor; unfold W32; lia|].
  assert (Hml : Zlen (message ws) = 36) by (rewrite message_length; unfold Zlen; rewrite Hlen; done).
  destruct (ring_used_ok _ _ Hr1) as (Hu & _ & _).
  destruct (ring_get_spec r1 (message ws) (replicate 36 0) 36 Hr1) as (p & buf & E & Hs & Hok);
    [unfold W32; lia|rewrite Hml; reflexivity|].
  rewrite Hml in E, Hs, Hok. change (Z.min 36 36) with 36 in E, Hs, Hok. change (align4 36) with 36 in Hok.
  rewrite firstn_all2 in Hs by (unfold Zlen in Hml; lia). rewrite skipn_all2 in Hok by (unfold Zlen in Hml; lia).
  assert (buf = message ws) as ->.
  { rewrite store_ok in Hs by (rewrite ?Hml; reflexivity || lia). injection Hs as <-. cbn [firstn app Z.to_nat].
    rewrite skipn_all2 by (unfold Zlen in Hml; simpl length; lia). by rewrite app_nil_r. }
  assert (Hrep : demo_reply (message ws) = message [0; 0; 0; 0; 0; nth 5 ws 0; nth 3 ws 0;
                htonl (demo_f (ntohl (nth 6 ws 0)) (ntohl (nth 7 ws 0)) (ntohl (nth 8 ws 0)))]).
  { unfold demo_reply.
    change 20 with (4 * Z.of_nat 5). change 12 with (4 * Z.of_nat 3). change 24 with (4 * Z.of_nat 6).
    change 28 with (4 * Z.of_nat 7). change 32 with (4 * Z.of_nat 8). by rewrite !message_word by (done || lia). }
  destruct (ring_put_spec r2 [] (demo_reply (message ws)) 32 (demo_reply (message ws)) Hr2) as (m & pad & Ep & Hp & Hok2 & _);
    [by rewrite Hrep|reflexivity|lia|].
  change (align4 32) with 32 in Hp. assert (pad = []) as -> by (destruct pad; [done|unfold Zlen in *; simpl in *; lia]).
  rewrite app_nil_r in Hok2. cbn [app] in Hok2. rewrite Hrep in Hok2.
  unfold demo_remote. rewrite Hu, Hml, E, Ep. by split.
Qed.

Definition demo_rpc : rpc_state :=
  mkRpc (rpc_kern_init false (replicate 4 (mkRing 0 0 0 0 0 0 (replicate 512 7)))) [] ∅.

Lemma rpc_call_correct_witness :
  exists s', send_rpc_command 1 (rpc_env demo_remote RPC_VIDEO) 2147483648 demo_rpc RPC_VIDEO 11 22 33 2147483652 = Ret (RPC_OK, s') /\
    words s' !! 2147483652 = Some 66 /\ words s' !! 2147483648 = Some 1 /\
    (forall a, a <> 2147483648 -> a <> 2147483652 -> words s' !! a = words demo_rpc !! a) /\
    doorbell s' = [5] /\ idle s' RPC_VIDEO.
Proof.
  apply (rpc_call_correct demo_remote demo_f 0 demo_rpc RPC_VIDEO 11 22 33 2147483648 2147483652).
  - apply demo_answers.
  - intros a b c. apply u32_range.
  - by right.
  - eexists _, _. split; [reflexivity|]. split; [reflexivity|]. by repeat split.
  - unfold is_u32, W32. lia.
  - unfold is_u32, W32. lia.
  - unfold is_u32, W32. lia.
  - unfold is_u32, W32. lia.
  - unfold is_u32, W32. lia.
  - discriminate.
Defined.

(** ** Memory layout *)

(** The regions [start, start + size) of the rings and of the record arrays, for
    records of [rec] bytes. *)
Definition rpc_regions (rec : Z) : list (Z * Z) :=
  map (fun i => (RPC_POLL_DEV_ADDR + i * RPC_RING_SIZE * 2, RPC_RING_SIZE)) [0; 1; 2; 3] ++
  map (fun i => (RPC_INTR_DEV_ADDR + i * RPC_RING_SIZE * 2, RPC_RING_SIZE)) [0; 1; 2; 3] ++
  map (fun i => (RPC_KERN_DEV_ADDR + i * RPC_RING_SIZE, RPC_RING_SIZE)) [0; 1; 2; 3] ++
  [(RPC_POLL_RECORD_ADDR, 4 * rec); (RPC_INTR_RECORD_ADDR, 4 * rec); (RPC_KERN_RECORD_ADDR, 4 * rec)].

Definition disjoint_regions (a b : Z * Z) : Prop := fst a + snd a <= fst b \/ fst b + snd b <= fst a.

(** The rings and the record arrays do not overlap when a record fits in the 64
    bytes reserved for it. *)
Lemma rpc_layout rec : 0 < rec <= RPC_RECORD_SIZE -> ForallOrdPairs disjoint_regions (rpc_regions rec).
Proof.
  intros Hrec. unfold RPC_RECORD_SIZE in Hrec. unfold rpc_regions. cbn [map app].
  change RPC_INTR_RECORD_ADDR with 2717905152.
  repeat first [apply FOP_nil | apply FOP_cons | apply List.Forall_nil | apply List.Forall_cons];
    unfold disjoint_regions, RPC_INTR_DEV_ADDR, RPC_POLL_DEV_ADDR, RPC_KERN_DEV_ADDR, RPC_POLL_RECORD_ADDR,
      RPC_KERN_RECORD_ADDR, RPC_RING_SIZE;
    cbn [fst snd]; lia.
Qed.
