(* ===== verification/ScBuff.v ===== *)
(** * Message buffers: [drivers/smartcard/core/scd_buff.c], [drivers/cec/core/cm_buff.c]

    The data side of the buffers that [Queue] links: a block with four
    pointers, as in [Buff], but a length that is an [unsigned char].  The two
    source files have the same code under two prefixes. *)
From stdpp Require Import base tactics list numbers option.
From Stdlib Require Import ZArith Lia.
From S2P Require Import Prelude Buff.

Definition XMIT_OK : Z := 0.
Definition WAIT_XMIT : Z := 255.
Definition RX_BUFFER_SIZE : Z := 64.

(** [complete] is the count of the completion; the four pointers, the length
    and the bytes are an [mcp_buff]. *)
Record sc_buff := mkSc { status : Z; flags : Z; complete : Z; buf : mcp_buff }.

Definition set_buf (b : sc_buff) (m : mcp_buff) : sc_buff := mkSc (status b) (flags b) (complete b) m.

(** [kmalloc] gives an address and the bytes found there; [sizeof(sc_buff)]
    depends on the configuration of the kernel. *)
Section sized.
Variable sizeof_sc_buff : Z.

Definition alloc_scb (kmalloc : Z -> option (Z * list Z)) (size : Z) : option sc_buff :=
  match kmalloc (u32 (sizeof_sc_buff + size)) with
  | Some (p, m) =>
      let h := u32 (p + sizeof_sc_buff) in
      Some (mkSc 0 0 0 (mkBuff p h h h (u32 (h + size)) 0 (skipn (Z.to_nat sizeof_sc_buff) m)))
  | None => None
  end.

Definition alloc_cmb := alloc_scb.
End sized.

(** [true] when one of the two warnings is printed. *)
Definition CHECK_BOUNDRARY_scb (b : sc_buff) : bool :=
  (tail (buf b) >? end_ (buf b)) || (data (buf b) <? head (buf b)).

Definition scb_tailroom (b : sc_buff) : Z := s32 (end_ (buf b) - tail (buf b)).

Definition scb_reserve (b : sc_buff) (n : Z) : sc_buff :=
  set_buf b (set_ptrs (buf b) (u32 (data (buf b) + n)) (u32 (tail (buf b) + n)) (len (buf b))).

Definition scb_put (b : sc_buff) (n : Z) : Z * sc_buff :=
  (tail (buf b), set_buf b (set_ptrs (buf b) (data (buf b)) (u32 (tail (buf b) + n)) (u8 (len (buf b) + n)))).

Definition scb_push (b : sc_buff) (n : Z) : Z * sc_buff :=
  let d := u32 (data (buf b) - n) in
  (d, set_buf b (set_ptrs (buf b) d (tail (buf b)) (u8 (len (buf b) + n)))).

Definition scb_pull (b : sc_buff) (n : Z) : option Z * sc_buff :=
  if n <=? len (buf b) then
    let d := u32 (data (buf b) + n) in
    (Some d, set_buf b (set_ptrs (buf b) d (tail (buf b)) (u8 (len (buf b) - n))))
  else (None, b).

Definition scb_purge (b : sc_buff) : sc_buff :=
  set_buf b (set_ptrs (buf b) (head (buf b)) (head (buf b)) 0).

Definition cmb_tailroom := scb_tailroom.
Definition cmb_reserve := scb_reserve.
Definition cmb_put := scb_put.
Definition cmb_push := scb_push.
Definition cmb_pull := scb_pull.
Definition cmb_purge := scb_purge.

(** ** Messages of at most 255 bytes *)

Lemma u8_id x : 0 <= x < 256 -> u8 x = x.
Proof. apply Z.mod_small. Qed.

(** Within that length the operations are those of [Buff]. *)
Lemma scb_put_small b n : 0 <= len (buf b) + n < 256 ->
  scb_put b n = (fst (mcpb_put (buf b) n), set_buf b (snd (mcpb_put (buf b) n))).
Proof.
  intros H. unfold scb_put, mcpb_put. cbn [fst snd]. rewrite u8_id by done.
  by rewrite (u32_id (len (buf b) + n)) by (unfold W32; lia).
Qed.

Lemma scb_push_small b n : 0 <= len (buf b) + n < 256 ->
  scb_push b n = (fst (mcpb_push (buf b) n), set_buf b (snd (mcpb_push (buf b) n))).
Proof.
  intros H. unfold scb_push, mcpb_push. cbn [fst snd]. rewrite u8_id by done.
  by rewrite (u32_id (len (buf b) + n)) by (unfold W32; lia).
Qed.

Lemma scb_pull_small b n : 0 <= n -> len (buf b) < 256 ->
  scb_pull b n = (fst (mcpb_pull (buf b) n), set_buf b (snd (mcpb_pull (buf b) n))).
Proof.
  intros Hn H. unfold scb_pull, mcpb_pull. destruct (Z.leb_spec n (len (buf b))); [|by destruct b].
  rewrite u8_id by lia. by rewrite (u32_id (len (buf b) - n)) by (unfold W32; lia).
Qed.

Lemma view_reserve b h t n : view b h [] t -> 0 <= n <= t ->
  same_block b (mcpb_reserve b n) /\ view (mcpb_reserve b n) (h + n) [] (t - n).
Proof.
  intros (Hv & Hh & Hl & Ht) Hn. pose proof (contents_length b Hv) as HL. rewrite Hl in HL.
  pose proof Hv as []. unfold mcpb_reserve, set_ptrs. rewrite !u32_id by (unfold Zlen in HL; cbn in HL; lia).
  split; [done|]. split; [|split; [|split]]; cbn [self head data tail end_ len mem]; try lia.
  - split; cbn [self head data tail end_ len mem]; try lia. done.
  - unfold contents. cbn [head data len mem]. rewrite <- HL. done.
Qed.

Lemma view_scb_purge b h l t : view (buf b) h l t ->
  same_block (buf b) (buf (scb_purge b)) /\ view (buf (scb_purge b)) 0 [] (h + Zlen l + t).
Proof.
  intros (Hv & Hh & Hl & Ht). pose proof (contents_length _ Hv) as HL. rewrite Hl in HL. pose proof Hv as [].
  split; [done|]. unfold scb_purge, set_buf, set_ptrs.
  split; [|split; [|split]]; cbn [buf self head data tail end_ len mem]; try lia; try done.
  split; cbn [self head data tail end_ len mem]; try lia. done.
Qed.

(** ** A message buffer as a double-ended queue of bytes *)

Inductive sop :=
| SPut (bs : list Z)
| SPush (bs : list Z)
| SPull (n : Z)
| SReserve (n : Z)
| SPurge.

(** An operation with the copy of the new bytes through the returned pointer. *)
Definition run_sop (b : sc_buff) (o : sop) : res sc_buff :=
  match o with
  | SPut bs => let '(p, b) := scb_put b (Zlen bs) in m ← bstore (buf b) p bs; Ret (set_buf b m)
  | SPush bs => let '(p, b) := scb_push b (Zlen bs) in m ← bstore (buf b) p bs; Ret (set_buf b m)
  | SPull n => Ret (snd (scb_pull b n))
  | SReserve n => Ret (scb_reserve b n)
  | SPurge => Ret (scb_purge b)
  end.

Fixpoint run_sops (b : sc_buff) (os : list sop) : res sc_buff :=
  match os with
  | [] => Ret b
  | o :: os' => b ← run_sop b o; run_sops b os'
  end.

(** The specification: as for the packet buffers, with at most 255 bytes held,
    and room reserved only while nothing is. *)
Definition spec_sop (q : deque) (o : sop) : option deque :=
  match o with
  | SPut bs => if Zlen (items q) + Zlen bs <? 256 then spec_op q (Put bs) else None
  | SPush bs => if Zlen (items q) + Zlen bs <? 256 then spec_op q (Push bs) else None
  | SPull n => spec_op q (Pull n)
  | SReserve n => if bool_decide (items q = []) && (0 <=? n) && (n <=? back q)
                  then Some (mkDeque (front q + n) [] (back q - n)) else None
  | SPurge => Some (mkDeque 0 [] (front q + Zlen (items q) + back q))
  end.

Fixpoint spec_sops (q : deque) (os : list sop) : option deque :=
  match os with
  | [] => Some q
  | o :: os' => match spec_sop q o with Some q' => spec_sops q' os' | None => None end
  end.

Definition simplements (b : sc_buff) (q : deque) : Prop := implements (buf b) q /\ Zlen (items q) < 256.

Lemma set_buf_buf b m m' : set_buf (set_buf b m) m' = set_buf b m'.
Proof. done. Qed.

Lemma pull_length q n q' : spec_op q (Pull n) = Some q' -> Zlen (items q') <= Zlen (items q).
Proof.
  destruct q as [h l t]. cbn [spec_op]. destruct (Z.ltb_spec n 0); [done|].
  destruct (Z.leb_spec n (Zlen l)); intros [= <-]; cbn [items]; [|lia]. unfold Zlen in *. rewrite length_skipn. lia.
Qed.

Lemma run_sop_spec b q o q' : simplements b q -> spec_sop q o = Some q' ->
  exists b', run_sop b o = Ret b' /\ same_block (buf b) (buf b') /\ simplements b' q' /\ status b' = status b.
Proof.
  intros [Hi Hl]. pose proof Hi as Hv. destruct (view_len _ _ _ _ Hv) as (HL & H0 & H1).
  destruct o as [bs|bs|n|n|]; cbn [spec_sop].
  - destruct (Z.ltb_spec (Zlen (items q) + Zlen bs) 256); [|done]. intros Hq.
    destruct (run_op_spec (buf b) q (Put bs) q' Hi Hq) as (m & E & Hs & Hi').
    pose proof (Zlen_nonneg bs). pose proof (Zlen_nonneg (items q)).
    exists (set_buf b m). cbn [run_sop run_op] in *. rewrite scb_put_small by lia. unfold mcpb_put in *.
    cbn [fst snd] in *. cbn [set_buf buf]. rewrite E, res_bind_Ret. split; [done|]. split; [done|]. split; [|done].
    split; [done|]. destruct q as [h l t]. cbn [spec_op] in Hq. destruct (_ && _); [|done]. injection Hq as <-.
    cbn [items] in *. rewrite Zlen_app. lia.
  - destruct (Z.ltb_spec (Zlen (items q) + Zlen bs) 256); [|done]. intros Hq.
    destruct (run_op_spec (buf b) q (Push bs) q' Hi Hq) as (m & E & Hs & Hi').
    pose proof (Zlen_nonneg bs). pose proof (Zlen_nonneg (items q)).
    exists (set_buf b m). cbn [run_sop run_op] in *. rewrite scb_push_small by lia. unfold mcpb_push in *.
    cbn [fst snd] in *. cbn [set_buf buf]. rewrite E, res_bind_Ret. split; [done|]. split; [done|]. split; [|done].
    split; [done|]. destruct q as [h l t]. cbn [spec_op] in Hq. destruct (_ && _); [|done]. injection Hq as <-.
    cbn [items] in *. rewrite Zlen_app. lia.
  - intros Hq. pose proof (pull_length _ _ _ Hq). assert (0 <= n)
      by (destruct q; cbn [spec_op] in Hq; destruct (Z.ltb_spec n 0); [done|lia]).
    destruct (run_op_spec (buf b) q (Pull n) q' Hi Hq) as (m & E & Hs & Hi').
    cbn [run_sop run_op] in *. injection E as E. rewrite scb_pull_small by lia. cbn [snd]. rewrite E.
    exists (set_buf b m). split; [done|]. split; [done|]. split; [split; [done|lia]|done].
  - destruct (_ && _) eqn:E; [|done]. intros [= <-].
    apply andb_true_iff in E as [[E1%bool_decide_eq_true E2%Z.leb_le]%andb_true_iff E3%Z.leb_le].
    unfold implements in Hv. rewrite E1 in Hv. destruct (view_reserve _ _ _ n Hv ltac:(lia)) as [Hs Hv'].
    exists (scb_reserve b n). split; [done|]. split; [done|]. split; [|done]. split; [done|reflexivity].
  - intros [= <-]. destruct (view_scb_purge b _ _ _ Hv) as [Hs Hv'].
    exists (scb_purge b). split; [done|]. split; [done|]. split; [|done]. split; [done|reflexivity].
Qed.

Lemma run_sops_spec b q os q' : simplements b q -> spec_sops q os = Some q' ->
  exists b', run_sops b os = Ret b' /\ same_block (buf b) (buf b') /\ simplements b' q' /\ status b' = status b.
Proof.
  revert b q. induction os as [|o os IH]; intros b q Hi; cbn [spec_sops run_sops].
  - intros [= ->]. by exists b.
  - destruct (spec_sop q o) as [q1|] eqn:E; [|done]. intros Hq.
    destruct (run_sop_spec b q o q1 Hi E) as (b1 & E1 & S1 & I1 & T1). rewrite E1, res_bind_Ret.
    destruct (IH b1 q1 I1 Hq) as (b' & E' & S' & I' & T'). exists b'.
    split; [done|]. split; [by transitivity (buf b1)|]. split; [done|congruence].
Qed.

(** What [kmalloc] promises about a block. *)
Definition kmalloc_ok (kmalloc : Z -> option (Z * list Z)) : Prop :=
  forall n p m, kmalloc n = Some (p, m) -> Zlen m = n /\ 0 <= p /\ p + n < W32 /\ Forall is_byte m.

Lemma alloc_scb_view sz kmalloc n b : kmalloc_ok kmalloc -> 0 <= sz -> 0 <= n -> sz + n < 2147483648 ->
  alloc_scb sz kmalloc n = Some b -> view (buf b) 0 [] n /\ status b = XMIT_OK.
Proof.
  intros Hk Hsz Hn Hs. unfold alloc_scb. rewrite u32_id by (unfold W32; lia).
  destruct (kmalloc (sz + n)) as [[p m]|] eqn:E; [|done]. destruct (Hk _ _ _ E) as (Hm & Hp & Hpn & Hmb).
  intros [= <-]. cbn [buf status]. split; [|done].
  rewrite (u32_id (p + sz)) by lia. rewrite u32_id by lia.
  split; [|split; [|split]]; cbn [self head data tail end_ len mem]; try lia; try done.
  split; cbn [self head data tail end_ len mem]; try lia.
  - unfold Zlen in *. rewrite length_skipn. lia.
  - by apply Forall_drop.
Qed.

(** a message buffer of the smart-card and CEC drivers holds up to 255
    bytes as a double-ended queue.  Every sequence of reserve, put, push, pull
    and purge that stays within the block and within 255 bytes runs without an
    access outside the block, ends with the bytes and rooms of the
    specification, with [scb_tailroom] the room behind, and no warning. *)
Theorem scb_refines_deque sz kmalloc n b os q :
  kmalloc_ok kmalloc -> 0 <= sz -> 0 <= n -> sz + n < 2147483648 -> alloc_scb sz kmalloc n = Some b ->
  spec_sops (mkDeque 0 [] n) os = Some q ->
  exists b', run_sops b os = Ret b' /\ bload (buf b') (data (buf b')) (len (buf b')) = Ret (items q) /\
    len (buf b') = Zlen (items q) /\ scb_tailroom b' = back q /\ CHECK_BOUNDRARY_scb b' = false /\ status b' = XMIT_OK.
Proof.
  intros Hk Hsz Hn Hs Ha Hq. destruct (alloc_scb_view _ _ _ _ Hk Hsz Hn Hs Ha) as (Hv & Hst).
  destruct (run_sops_spec b (mkDeque 0 [] n) os q) as (b' & E & _ & (Hi & _) & Hst'); [by split|done|].
  exists b'. split; [done|]. pose proof Hi as Hv'. destruct (view_len _ _ _ _ Hv') as (HL & _).
  pose proof (mcpb_tailroom_view _ _ _ _ Hv') as Ht. destruct Hv' as (Hva & _ & Hc & _).
  split; [rewrite load_contents by done; by rewrite Hc|]. split; [done|]. split; [done|]. split; [|congruence].
  destruct Hva. unfold CHECK_BOUNDRARY_scb. rewrite Z.gtb_ltb. by repeat zcase.
Qed.

(** An allocator that answers from one place. *)
Definition demo_kmalloc : Z -> option (Z * list Z) := fun n => demo_alloc KMALLOC n.

Lemma demo_kmalloc_ok : kmalloc_ok demo_kmalloc.
Proof. intros n p m. apply demo_alloc_ok. Qed.

Definition demo_scb (size : nat) : sc_buff :=
  mkSc 0 0 0 (mkBuff 4096 4140 4140 4140 (4140 + Z.of_nat size) 0 (replicate size 0)).

Lemma scb_refines_deque_witness :
  exists b', run_sops (demo_scb 64) [SReserve 8; SPut [1; 2; 3]; SPush [9; 8]; SPull 1; SPut [4]] = Ret b' /\
    bload (buf b') (data (buf b')) (len (buf b')) = Ret [8; 1; 2; 3; 4] /\
    len (buf b') = 5 /\ scb_tailroom b' = 52 /\ CHECK_BOUNDRARY_scb b' = false /\ status b' = XMIT_OK.
Proof.
  apply (scb_refines_deque 44 demo_kmalloc 64 (demo_scb 64) [SReserve 8; SPut [1; 2; 3]; SPush [9; 8]; SPull 1; SPut [4]]
           (mkDeque 7 [8; 1; 2; 3; 4] 52)); [apply demo_kmalloc_ok|lia|lia|lia|reflexivity|reflexivity].
Defined.

(** the length of a message buffer is an [unsigned char]: a put that
    brings the bytes held to 256 makes the length 0, although the bytes fit in
    the block and no warning is printed; the buffer then says that it is empty
    and [scb_pull] refuses to take even one byte. *)
Theorem scb_len_wraps b h l t bs n :
  view (buf b) h l t -> Forall is_byte bs -> Zlen bs <= t -> Zlen l + Zlen bs = 256 -> 0 < n ->
  exists b', run_sop b (SPut bs) = Ret b' /\ CHECK_BOUNDRARY_scb b' = false /\
    bload (buf b') (data (buf b')) 256 = Ret (l ++ bs) /\ len (buf b') = 0 /\ scb_pull b' n = (None, b').
Proof.
  intros Hv Hb Ht Hl Hn. destruct (view_put _ _ _ _ _ Hv Hb Ht) as (m & E & _ & Hv').
  destruct (view_len _ _ _ _ Hv) as (HL & _). destruct (view_len _ _ _ _ Hv') as (HL' & _).
  rewrite Zlen_app, Hl in HL'. pose proof (bstore_put _ _ _ _ (Zlen bs) E) as Ep.
  destruct Hv' as (Hva & _ & Hc & _). pose proof (load_contents _ Hva) as Hld. rewrite Hc, HL' in Hld.
  pose proof Hva as []. unfold mcpb_put, set_ptrs, bload in *. cbn [snd head data tail end_ len mem] in *.
  cbn [run_sop]. unfold scb_put, set_ptrs. cbn [buf set_buf]. unfold bstore in *. cbn [head mem] in *.
  destruct (store (mem (buf b)) (tail (buf b) - head (buf b)) bs) as [m'| |]; [|done|done].
  rewrite res_bind_Ret in *. injection E as <-. cbn [set_mem self head data tail end_ len mem] in *.
  rewrite res_bind_Ret. eexists. split; [reflexivity|]. unfold CHECK_BOUNDRARY_scb, bload, scb_pull.
  cbn [buf set_buf set_mem head data tail end_ len mem]. split; [rewrite Z.gtb_ltb; by repeat zcase|]. split; [done|].
  assert (E0 : u8 (len (buf b) + Zlen bs) = 0) by (rewrite HL, Hl; done). rewrite E0. split; [done|]. by zcase.
Qed.

Lemma scb_len_wraps_witness :
  exists b', run_sop (demo_scb 300) (SPut (replicate 256 7)) = Ret b' /\ CHECK_BOUNDRARY_scb b' = false /\
    bload (buf b') (data (buf b')) 256 = Ret ([] ++ replicate 256 7) /\ len (buf b') = 0 /\ scb_pull b' 1 = (None, b').
Proof.
  apply (scb_len_wraps (demo_scb 300) 0 [] 300); [|apply Forall_replicate; unfold is_byte; lia|by vm_compute|reflexivity|lia].
  apply (alloc_scb_view 44 demo_kmalloc 300); [apply demo_kmalloc_ok|lia|lia|lia|reflexivity].
Defined.
