(* ===== verification/Queue.v ===== *)
(** * Buffer queues: [drivers/smartcard/core/scd_buff.c], [drivers/cec/core/cm_buff.c]

    Smart card and CEC messages wait in queues: doubly linked lists through the
    [list] field of the buffers ([include/linux/list.h]), with a length and a
    spin lock.  The two files have the same code; the model has it once, with
    the names of both.

    The [next] and [prev] fields of all list heads are two maps from addresses;
    access to an address that has no list head is a [Fault].  The [list] field
    is the first of a buffer, so a buffer and its list head have the same
    address. *)
From stdpp Require Import base tactics list numbers option gmap.
From Stdlib Require Import ZArith Lia.
From S2P Require Import Prelude Buff.

(** ** [list.h] *)

Record lists := mkLists { nx : gmap Z Z; pv : gmap Z Z }.

Definition get_next (h : lists) (a : Z) : res Z := match nx h !! a with Some v => Ret v | None => Fault end.
Definition get_prev (h : lists) (a : Z) : res Z := match pv h !! a with Some v => Ret v | None => Fault end.
Definition set_next (h : lists) (a v : Z) : res lists :=
  match nx h !! a with Some _ => Ret (mkLists (<[a := v]> (nx h)) (pv h)) | None => Fault end.
Definition set_prev (h : lists) (a v : Z) : res lists :=
  match pv h !! a with Some _ => Ret (mkLists (nx h) (<[a := v]> (pv h))) | None => Fault end.

Definition INIT_LIST_HEAD (h : lists) (a : Z) : res lists :=
  h ← set_next h a a;
  set_prev h a a.

Definition __list_add (h : lists) (new prev next : Z) : res lists :=
  h ← set_prev h next new;
  h ← set_next h new next;
  h ← set_prev h new prev;
  set_next h prev new.

Definition list_add (h : lists) (new head : Z) : res lists :=
  n ← get_next h head;
  __list_add h new head n.

Definition list_add_tail (h : lists) (new head : Z) : res lists :=
  p ← get_prev h head;
  __list_add h new p head.

Definition __list_del (h : lists) (prev next : Z) : res lists :=
  h ← set_prev h next prev;
  set_next h prev next.

Definition list_del_init (h : lists) (entry : Z) : res lists :=
  p ← get_prev h entry;
  n ← get_next h entry;
  h ← __list_del h p n;
  INIT_LIST_HEAD h entry.

Definition list_empty (h : lists) (head : Z) : res bool :=
  n ← get_next h head;
  Ret (n =? head).

(** ** The queues *)

(** [sc_buff_head], [cm_buff_head]: [qaddr] is the address of its list head. *)
Record queue := mkQueue { qaddr : Z; locked : bool; qlen : Z }.

(** [smp]: on a single processor the lock only disables interrupts; on several
    it waits for the holder, for ever if that is the caller itself. *)
Definition spin_lock_irqsave (smp : bool) (q : queue) : res queue :=
  if smp && locked q then Fault else Ret (mkQueue (qaddr q) true (qlen q)).
Definition spin_unlock_irqrestore (was : bool) (q : queue) : queue := mkQueue (qaddr q) was (qlen q).

Definition scb_queue_head_init (h : lists) (q : queue) : res (lists * queue) :=
  h ← INIT_LIST_HEAD h (qaddr q);
  Ret (h, mkQueue (qaddr q) false 0).

Section ops.
Variable smp : bool.

Definition scb_queue_head (h : lists) (q : queue) (scb : Z) : res (lists * queue) :=
  let was := locked q in
  q ← spin_lock_irqsave smp q;
  h ← list_add h scb (qaddr q);
  let q := mkQueue (qaddr q) (locked q) (u32 (qlen q + 1)) in
  Ret (h, spin_unlock_irqrestore was q).

Definition scb_queue_tail (h : lists) (q : queue) (scb : Z) : res (lists * queue) :=
  let was := locked q in
  q ← spin_lock_irqsave smp q;
  h ← list_add_tail h scb (qaddr q);
  let q := mkQueue (qaddr q) (locked q) (u32 (qlen q + 1)) in
  Ret (h, spin_unlock_irqrestore was q).

(** 0 is NULL. *)
Definition scb_dequeue (h : lists) (q : queue) : res (Z * lists * queue) :=
  let was := locked q in
  q ← spin_lock_irqsave smp q;
  e ← list_empty h (qaddr q);
  if (e : bool) then Ret (0, h, spin_unlock_irqrestore was q)
  else
    scb ← get_next h (qaddr q);
    h ← list_del_init h scb;
    let q := mkQueue (qaddr q) (locked q) (u32 (qlen q - 1)) in
    Ret (scb, h, spin_unlock_irqrestore was q).

Definition scb_dequeue_tail (h : lists) (q : queue) : res (Z * lists * queue) :=
  let was := locked q in
  q ← spin_lock_irqsave smp q;
  e ← list_empty h (qaddr q);
  if (e : bool) then Ret (0, h, spin_unlock_irqrestore was q)
  else
    scb ← get_prev h (qaddr q);
    h ← list_del_init h scb;
    let q := mkQueue (qaddr q) (locked q) (u32 (qlen q - 1)) in
    Ret (scb, h, spin_unlock_irqrestore was q).

Definition scb_queue_len (q : queue) : Z := qlen q.

(** The memory of a released buffer is gone. *)
Definition kfree_scb (h : lists) (scb : Z) : lists :=
  if scb =? 0 then h else mkLists (delete scb (nx h)) (delete scb (pv h)).

(** [while ((scb = scb_dequeue(head)) != NULL) kfree_scb(scb);] *)
Fixpoint purge_loop (fuel : nat) (h : lists) (q : queue) (out : list Z) : res (lists * queue * list Z) :=
  match fuel with
  | O => OutOfFuel
  | S fuel' =>
      '(scb, h, q) ← scb_dequeue h q;
      if scb =? 0 then Ret (h, q, out) else purge_loop fuel' (kfree_scb h scb) q (out ++ [scb])
  end.

(** The buffers released, in order. *)
Definition scb_queue_purge (fuel : nat) (h : lists) (q : queue) : res (lists * queue * list Z) :=
  let was := locked q in
  q ← spin_lock_irqsave smp q;
  '(h, q, out) ← purge_loop fuel h q [];
  Ret (h, spin_unlock_irqrestore was q, out).

Definition cmb_queue_head := scb_queue_head.
Definition cmb_queue_tail := scb_queue_tail.
Definition cmb_dequeue := scb_dequeue.
Definition cmb_dequeue_tail := scb_dequeue_tail.
Definition cmb_queue_purge := scb_queue_purge.
End ops.

Definition cmb_queue_head_init := scb_queue_head_init.
Definition cmb_queue_len := scb_queue_len.
Definition kfree_cmb := kfree_scb.

(** ** Linked lists *)

(** The nodes from [a] through [l] to [b] point to each other. *)
Fixpoint links (h : lists) (a : Z) (l : list Z) (b : Z) : Prop :=
  match l with
  | [] => nx h !! a = Some b /\ pv h !! b = Some a
  | x :: l' => nx h !! a = Some x /\ pv h !! x = Some a /\ links h x l' b
  end.

(** The list head at [a] holds the nodes [l]; all of them have both fields. *)
Record list_rep (h : lists) (a : Z) (l : list Z) : Prop := {
  lr_nodup : NoDup (a :: l);
  lr_links : links h a l a;
  lr_null : 0 ∉ l
}.

Lemma links_front h h' a a' l b :
  links h a l b -> nx h' !! a' = Some (hd b l) -> pv h' !! hd b l = Some a' ->
  (forall x, x ∈ l -> nx h' !! x = nx h !! x) -> (forall x, x ∈ tl (l ++ [b]) -> pv h' !! x = pv h !! x) ->
  links h' a' l b.
Proof.
  revert a a'. induction l as [|y l IH]; intros a a' Hl Hn Hp Hx Hy; [done|]. cbn [hd tl app links] in *.
  destruct Hl as (H1 & H2 & H3). split; [done|]. split; [done|]. apply (IH y y H3).
  - rewrite Hx by set_solver. destruct l; cbn [links hd] in *; [apply H3|apply H3].
  - rewrite Hy by (destruct l; set_solver). destruct l; cbn [links hd] in *; [apply H3|apply H3].
  - intros x Hin. apply Hx. set_solver.
  - intros x Hin. apply Hy. destruct l; set_solver.
Qed.

Lemma last_cons (y : Z) l d : List.last (y :: l) d = List.last l y.
Proof.
  revert y d. induction l as [|z l IH]; intros y d; [done|]. change (List.last (y :: z :: l) d) with (List.last (z :: l) d).
  by rewrite !IH.
Qed.

Lemma links_back h h' a l b b' :
  links h a l b -> nx h' !! List.last l a = Some b' -> pv h' !! b' = Some (List.last l a) ->
  (forall x, x ∈ removelast (a :: l) -> nx h' !! x = nx h !! x) -> (forall x, x ∈ l -> pv h' !! x = pv h !! x) ->
  links h' a l b'.
Proof.
  revert a. induction l as [|y l IH]; intros a Hl Hn Hp Hx Hy; [done|]. destruct Hl as (H1 & H2 & H3).
  rewrite last_cons in Hn, Hp. cbn [links]. split; [|split].
  - rewrite Hx; [done|]. cbn. set_solver.
  - rewrite Hy; [done|]. set_solver.
  - apply IH; try done; intros x Hin; [apply Hx|apply Hy; set_solver]. cbn in *. destruct l; set_solver.
Qed.

Lemma links_hd h a l b : links h a l b -> nx h !! a = Some (hd b l) /\ pv h !! hd b l = Some a.
Proof. destruct l; cbn; [done|]. intros (H1 & H2 & _). done. Qed.

Lemma links_last h a l b : links h a l b -> nx h !! List.last l a = Some b /\ pv h !! b = Some (List.last l a).
Proof.
  revert a. induction l as [|y l IH]; intros a; [done|]. cbn [links]. intros (_ & _ & H).
  rewrite last_cons. by apply IH.
Qed.

Lemma links_snoc h a l x b : links h a (l ++ [x]) b <-> links h a l x /\ nx h !! x = Some b /\ pv h !! b = Some x.
Proof. revert a. induction l as [|y l IH]; intros a; cbn [links app]; [tauto|]. rewrite IH. tauto. Qed.

(** ** The list operations *)

(** An address with a list head. *)
Definition node (h : lists) (x : Z) : Prop := is_Some (nx h !! x) /\ is_Some (pv h !! x).

Lemma set_next_ok h a v : is_Some (nx h !! a) -> set_next h a v = Ret (mkLists (<[a := v]> (nx h)) (pv h)).
Proof. intros [w Hw]. unfold set_next. by rewrite Hw. Qed.

Lemma set_prev_ok h a v : is_Some (pv h !! a) -> set_prev h a v = Ret (mkLists (nx h) (<[a := v]> (pv h))).
Proof. intros [w Hw]. unfold set_prev. by rewrite Hw. Qed.

Lemma insert_is_Some (m : gmap Z Z) a v x : is_Some (m !! x) -> is_Some (<[a := v]> m !! x).
Proof. intros H. destruct (decide (a = x)) as [->|]; [by rewrite lookup_insert_eq|by rewrite lookup_insert_ne]. Qed.

Lemma __list_add_ok h new prev next : node h new -> is_Some (nx h !! prev) -> is_Some (pv h !! next) ->
  __list_add h new prev next =
  Ret (mkLists (<[prev := new]> (<[new := next]> (nx h))) (<[new := prev]> (<[next := new]> (pv h)))).
Proof.
  intros [Hn Hp] H1 H2. unfold __list_add. rewrite set_prev_ok, res_bind_Ret by done.
  rewrite set_next_ok, res_bind_Ret by done. rewrite set_prev_ok, res_bind_Ret by (by apply insert_is_Some).
  rewrite set_next_ok by (by apply insert_is_Some). done.
Qed.

(** Nothing but the nodes of the list and [new] is touched, and no node is lost. *)
Definition frame (h h' : lists) (touched : list Z) : Prop :=
  (forall x, node h x -> node h' x) /\
  (forall x, x ∉ touched -> nx h' !! x = nx h !! x /\ pv h' !! x = pv h !! x).

Lemma hd_elem (a : Z) l : hd a l ∈ a :: l.
Proof. destruct l; set_solver. Qed.

Lemma last_elem (a : Z) l : List.last l a ∈ a :: l.
Proof.
  revert a. induction l as [|y l IH]; intros a; [set_solver|]. rewrite last_cons. specialize (IH y). set_solver.
Qed.

Lemma add_frame h new prev next touched : new ∈ touched -> prev ∈ touched -> next ∈ touched ->
  frame h (mkLists (<[prev := new]> (<[new := next]> (nx h))) (<[new := prev]> (<[next := new]> (pv h)))) touched.
Proof.
  intros H1 H2 H3. split.
  - intros x [Hn Hp]. split; cbn; by apply insert_is_Some, insert_is_Some.
  - intros x Hx. cbn. rewrite !lookup_insert_ne by (intros ->; contradiction). done.
Qed.

Lemma list_add_spec h a l new : list_rep h a l -> new ∉ a :: l -> new <> 0 -> node h new ->
  exists h', list_add h new a = Ret h' /\ list_rep h' a (new :: l) /\ frame h h' (new :: a :: l).
Proof.
  intros [Hnd Hl Hz] Hnew Hn0 Hnode. destruct (links_hd _ _ _ _ Hl) as [H1 H2].
  eexists. split.
  { unfold list_add, get_next. rewrite H1, res_bind_Ret. apply __list_add_ok; [done|by rewrite H1|by rewrite H2]. }
  split; [|apply add_frame; pose proof (hd_elem a l); set_solver].
  apply NoDup_cons in Hnd as [Ha Hnd].
  split; [|cbn [links]|set_solver].
  - repeat (apply NoDup_cons; split); [set_solver|set_solver|done].
  - cbn. split; [by rewrite lookup_insert_eq|]. split; [by rewrite lookup_insert_eq|].
    assert (Hhd : hd a l <> new) by (pose proof (hd_elem a l); set_solver).
    apply (links_front h _ a new l a Hl); cbn.
    + rewrite lookup_insert_ne by set_solver. by rewrite lookup_insert_eq.
    + rewrite lookup_insert_ne by done. by rewrite lookup_insert_eq.
    + intros x Hx. rewrite !lookup_insert_ne by set_solver. done.
    + intros x Hx. rewrite lookup_insert_ne by (destruct l; set_solver).
      rewrite lookup_insert_ne; [done|]. destruct l as [|y l]; cbn in *; [set_solver|].
      apply NoDup_cons in Hnd as [Hy _]. set_solver.
Qed.

Lemma removelast_nodup (a : Z) l x : NoDup (a :: l) -> x ∈ removelast (a :: l) -> x ∈ a :: l /\ x <> List.last l a.
Proof.
  intros Hnd Hx.
  assert (E : a :: l = removelast (a :: l) ++ [List.last l a])
    by (rewrite <- (last_cons a l a); by apply app_removelast_last).
  split; [rewrite E; set_solver|]. intros ->. rewrite E in Hnd. apply NoDup_app in Hnd as (_ & Hd & _).
  apply (Hd _ Hx). set_solver.
Qed.

Lemma list_add_tail_spec h a l new : list_rep h a l -> new ∉ a :: l -> new <> 0 -> node h new ->
  exists h', list_add_tail h new a = Ret h' /\ list_rep h' a (l ++ [new]) /\ frame h h' (new :: a :: l).
Proof.
  intros [Hnd Hl Hz] Hnew Hn0 Hnode. destruct (links_last _ _ _ _ Hl) as [H1 H2].
  eexists. split.
  { unfold list_add_tail, get_prev. rewrite H2, res_bind_Ret. apply __list_add_ok; [done|by rewrite H1|by rewrite H2]. }
  pose proof (last_elem a l) as Hin.
  split; [|apply add_frame; set_solver].
  assert (Hlast : List.last l a <> new) by set_solver.
  split; [| |set_solver].
  - change (a :: l ++ [new]) with ((a :: l) ++ [new]). apply NoDup_app. split; [done|]. split; [set_solver|apply NoDup_singleton].
  - apply links_snoc. split.
    + apply (links_back h _ a l a new Hl); cbn [nx pv].
      * by rewrite lookup_insert_eq.
      * by rewrite lookup_insert_eq.
      * intros x Hx. destruct (removelast_nodup _ _ _ Hnd Hx) as [Hx1 Hx2].
        rewrite lookup_insert_ne by done. rewrite lookup_insert_ne; [done|set_solver].
      * intros x Hx. apply NoDup_cons in Hnd as [Ha _]. rewrite !lookup_insert_ne by set_solver. done.
    + cbn [nx pv]. rewrite lookup_insert_ne by done. rewrite lookup_insert_eq. split; [done|].
      rewrite lookup_insert_ne by set_solver. by rewrite lookup_insert_eq.
Qed.

Lemma links_app h a l1 x l2 b : links h a (l1 ++ x :: l2) b <-> links h a l1 x /\ links h x l2 b.
Proof. revert a. induction l1 as [|y l IH]; intros a; cbn [links app]; [tauto|]. rewrite IH. tauto. Qed.

Lemma list_del_init_ok h x p n : node h x -> nx h !! x = Some n -> pv h !! x = Some p ->
  is_Some (nx h !! p) -> is_Some (pv h !! n) ->
  list_del_init h x = Ret (mkLists (<[x := x]> (<[p := n]> (nx h))) (<[x := x]> (<[n := p]> (pv h)))).
Proof.
  intros [Hn Hp] H1 H2 H3 H4. unfold list_del_init, get_prev, get_next, __list_del, INIT_LIST_HEAD.
  rewrite H2, res_bind_Ret, H1, res_bind_Ret. rewrite set_prev_ok, res_bind_Ret by done.
  rewrite set_next_ok, res_bind_Ret by done. rewrite set_next_ok, res_bind_Ret by (by apply insert_is_Some).
  rewrite set_prev_ok by (by apply insert_is_Some). done.
Qed.

Lemma links_node h a l b x : links h a l b -> x ∈ l -> node h x.
Proof.
  intros Hl Hx. apply list_elem_of_split in Hx as (l1 & l2 & ->). apply links_app in Hl as [Ha Hb].
  destruct (links_last _ _ _ _ Ha) as [_ H1]. destruct (links_hd _ _ _ _ Hb) as [H2 _].
  split; [by rewrite H2|by rewrite H1].
Qed.

Lemma list_del_init_spec h a l1 x l2 : list_rep h a (l1 ++ x :: l2) ->
  exists h', list_del_init h x = Ret h' /\ list_rep h' a (l1 ++ l2) /\ frame h h' (a :: l1 ++ x :: l2).
Proof.
  intros [Hnd Hl Hz]. pose proof (links_node _ _ _ _ x Hl ltac:(set_solver)) as Hnode.
  apply links_app in Hl as [La Lb]. destruct (links_last _ _ _ _ La) as [H1 H2].
  destruct (links_hd _ _ _ _ Lb) as [H3 H4].
  pose proof (last_elem a l1) as Hi1. pose proof (hd_elem a l2) as Hi2.
  eexists. split; [apply (list_del_init_ok h x _ _ Hnode H3 H2); [by rewrite H1|by rewrite H4]|].
  assert (Hnd1 : NoDup (a :: l1)) by (change (NoDup ((a :: l1) ++ x :: l2)) in Hnd; by apply NoDup_app in Hnd as [? _]).
  assert (Hx : x ∉ a :: l1 ++ l2 /\ NoDup (a :: l1 ++ l2)).
  { apply NoDup_cons. eapply NoDup_Permutation_proper; [|exact Hnd]. cbn. rewrite <- Permutation_middle. apply Permutation_swap. }
  destruct Hx as [Hx Hnd'].
  split; [split; [done| |set_solver]|].
  - assert (Hd : hd a l2 ∉ l1).
    { destruct l2 as [|y l2]; cbn [hd]; [by apply NoDup_cons in Hnd1 as [? _]|].
      change (NoDup ((a :: l1) ++ y :: l2)) in Hnd'. apply NoDup_app in Hnd' as (_ & Hd & _). set_solver. }
    match goal with |- links ?h' _ _ _ => set (H' := h') end.
    assert (Lk : links H' a l1 (hd a l2)).
    { apply (links_back h _ a l1 x _ La); cbn [nx pv H'].
      - rewrite lookup_insert_ne by set_solver. by rewrite lookup_insert_eq.
      - rewrite lookup_insert_ne by set_solver. by rewrite lookup_insert_eq.
      - intros y Hy. destruct (removelast_nodup _ _ _ Hnd1 Hy) as [Hy1 Hy2]. rewrite !lookup_insert_ne by set_solver. done.
      - intros y Hy. rewrite !lookup_insert_ne by set_solver. done. }
    destruct l2 as [|y l2]; [by rewrite app_nil_r|]. apply links_app. split; [done|].
    destruct Lb as (_ & _ & Lb). destruct (links_hd _ _ _ _ Lb) as [H5 H6].
    assert (Hny : y ∉ a :: l2 /\ forall z, z ∈ y :: l2 -> z <> List.last l1 a).
    { change (NoDup ((a :: l1) ++ y :: l2)) in Hnd'. apply NoDup_app in Hnd' as (_ & Hd' & Hy). apply NoDup_cons in Hy as [Hy _]. set_solver. }
    destruct Hny as [Hny Hnl]. pose proof (hd_elem a l2) as Hi3.
    apply (links_front h _ y y l2 a Lb); cbn [nx pv H' hd].
    + rewrite !lookup_insert_ne by set_solver. done.
    + rewrite !lookup_insert_ne by set_solver. done.
    + intros z Hz'. rewrite !lookup_insert_ne by set_solver. done.
    + intros z Hz'. assert (z ∈ a :: l2) by (destruct l2; set_solver). rewrite !lookup_insert_ne by set_solver. done.
  - split.
    + intros z [Hn Hp]. split; cbn; by apply insert_is_Some, insert_is_Some.
    + intros z Hz'. cbn. assert (hd a l2 ∈ a :: l1 ++ x :: l2) by set_solver.
      assert (List.last l1 a ∈ a :: l1 ++ x :: l2) by set_solver. rewrite !lookup_insert_ne by set_solver. done.
Qed.

(** ** The queue operations *)

(** The queue [q] holds the buffers [l], and its lock is free. *)
Record queue_rep (h : lists) (q : queue) (l : list Z) : Prop := {
  qr_rep : list_rep h (qaddr q) l;
  qr_len : qlen q = Zlen l;
  qr_free : locked q = false;
  qr_bound : Zlen l < W32
}.

(** What an operation changes: nothing outside the queue, [x] and the head. *)
Definition touches (h h' : lists) (q : queue) (l : list Z) (x : Z) : Prop := frame h h' (x :: qaddr q :: l).

Lemma lock_free smp q : locked q = false -> spin_lock_irqsave smp q = Ret (mkQueue (qaddr q) true (qlen q)).
Proof. intros H. unfold spin_lock_irqsave. rewrite H. by rewrite andb_false_r. Qed.

Lemma queue_head_spec smp h q l x : queue_rep h q l -> x ∉ qaddr q :: l -> x <> 0 -> node h x -> Zlen l + 1 < W32 ->
  exists h' q', scb_queue_head smp h q x = Ret (h', q') /\ qaddr q' = qaddr q /\ queue_rep h' q' (x :: l) /\
    touches h h' q l x.
Proof.
  intros [Hr Hl Hf Hb] Hx Hx0 Hn Hw. destruct (list_add_spec _ _ _ _ Hr Hx Hx0 Hn) as (h' & E & Hr' & Hfr).
  eexists h', _. unfold scb_queue_head. rewrite lock_free, res_bind_Ret by done. cbn [qaddr locked qlen].
  rewrite E, res_bind_Ret. split; [reflexivity|]. split; [done|]. split; [|done].
  pose proof (Zlen_nonneg l). split; cbn [qaddr locked qlen spin_unlock_irqrestore]; [done| |done|rewrite Zlen_cons; lia].
  rewrite Zlen_cons. rewrite u32_id by lia. lia.
Qed.

Lemma queue_tail_spec smp h q l x : queue_rep h q l -> x ∉ qaddr q :: l -> x <> 0 -> node h x -> Zlen l + 1 < W32 ->
  exists h' q', scb_queue_tail smp h q x = Ret (h', q') /\ qaddr q' = qaddr q /\ queue_rep h' q' (l ++ [x]) /\
    touches h h' q l x.
Proof.
  intros [Hr Hl Hf Hb] Hx Hx0 Hn Hw. destruct (list_add_tail_spec _ _ _ _ Hr Hx Hx0 Hn) as (h' & E & Hr' & Hfr).
  eexists h', _. unfold scb_queue_tail. rewrite lock_free, res_bind_Ret by done. cbn [qaddr locked qlen].
  rewrite E, res_bind_Ret. split; [reflexivity|]. split; [done|]. split; [|done].
  pose proof (Zlen_nonneg l). assert (HL : Zlen (l ++ [x]) = Zlen l + 1) by (rewrite Zlen_app; reflexivity).
  split; cbn [qaddr locked qlen spin_unlock_irqrestore]; [done| |done|lia].
  rewrite HL, u32_id by lia. lia.
Qed.

(** Dequeueing, whatever the lock: the purge loop calls it with the lock held. *)
Lemma dequeue_spec smp h a k l : smp && k = false -> list_rep h a l -> Zlen l < W32 ->
  exists h', scb_dequeue smp h (mkQueue a k (Zlen l)) = Ret (hd 0 l, h', mkQueue a k (Zlen (tl l))) /\
    list_rep h' a (tl l) /\ frame h h' (a :: l).
Proof.
  intros Hk Hr Hb. destruct (links_hd _ _ _ _ (lr_links _ _ _ Hr)) as [H1 _].
  unfold scb_dequeue, spin_lock_irqsave, list_empty, get_next. cbn [qaddr locked qlen].
  rewrite Hk, res_bind_Ret. cbn [qaddr locked qlen]. rewrite H1, !res_bind_Ret.
  destruct l as [|x l]; cbn [hd tl] in *.
  - rewrite Z.eqb_refl. exists h. split; [done|]. split; [done|]. by split.
  - assert (Hxa : x <> a) by (destruct Hr as [Hnd _ _]; apply NoDup_cons in Hnd as [Hnd _]; set_solver).
    destruct (Z.eqb_spec x a); [done|].
    destruct (list_del_init_spec h a [] x l Hr) as (h' & E & Hr' & Hfr). rewrite E, res_bind_Ret.
    exists h'. split; [|done]. unfold spin_unlock_irqrestore. cbn [qaddr locked qlen]. do 3 f_equal.
    pose proof (Zlen_nonneg l). rewrite Zlen_cons in *. rewrite u32_id by lia. lia.
Qed.

Lemma dequeue_tail_spec smp h a k l : smp && k = false -> list_rep h a l -> Zlen l < W32 ->
  exists h', scb_dequeue_tail smp h (mkQueue a k (Zlen l)) =
      Ret (List.last l 0, h', mkQueue a k (Zlen (removelast l))) /\
    list_rep h' a (removelast l) /\ frame h h' (a :: l).
Proof.
  intros Hk Hr Hb. destruct (links_last _ _ _ _ (lr_links _ _ _ Hr)) as [_ H2].
  destruct (links_hd _ _ _ _ (lr_links _ _ _ Hr)) as [H1 _].
  unfold scb_dequeue_tail, spin_lock_irqsave, list_empty, get_next, get_prev. cbn [qaddr locked qlen].
  rewrite Hk, res_bind_Ret. cbn [qaddr locked qlen]. rewrite H1, H2, !res_bind_Ret.
  induction l as [|x l _] using rev_ind.
  - cbn [hd]. rewrite Z.eqb_refl. exists h. split; [done|]. split; [done|]. by split.
  - rewrite !last_last, removelast_last.
    assert (Hxa : hd a (l ++ [x]) <> a).
    { destruct Hr as [Hnd _ _]; apply NoDup_cons in Hnd as [Hnd _]. destruct l; cbn in *; set_solver. }
    destruct (Z.eqb_spec (hd a (l ++ [x])) a); [done|].
    destruct (list_del_init_spec h a l x [] Hr) as (h' & E & Hr' & Hfr). rewrite E, res_bind_Ret, app_nil_r in *.
    exists h'. split; [|done]. unfold spin_unlock_irqrestore. cbn [qaddr locked qlen]. do 3 f_equal.
    pose proof (Zlen_nonneg l). rewrite Zlen_app in *. change (Zlen [x]) with 1 in *. rewrite u32_id by lia. lia.
Qed.

(** ** A queue as a double-ended queue of buffers *)

Inductive qop := QHead (x : Z) | QTail (x : Z) | QDequeue | QDequeueTail.

(** An operation and the pointer it returns (0 for those that return none). *)
Definition run_qop (smp : bool) (h : lists) (q : queue) (o : qop) : res (Z * lists * queue) :=
  match o with
  | QHead x => '(h, q) ← scb_queue_head smp h q x; Ret (0, h, q)
  | QTail x => '(h, q) ← scb_queue_tail smp h q x; Ret (0, h, q)
  | QDequeue => scb_dequeue smp h q
  | QDequeueTail => scb_dequeue_tail smp h q
  end.

Fixpoint run_qops (smp : bool) (h : lists) (q : queue) (os : list qop) : res (list Z * lists * queue) :=
  match os with
  | [] => Ret ([], h, q)
  | o :: os' =>
      '(r, h, q) ← run_qop smp h q o;
      '(rs, h, q) ← run_qops smp h q os';
      Ret (r :: rs, h, q)
  end.

(** The specification; a buffer is added only while it is not queued. *)
Definition spec_qop (pool : list Z) (l : list Z) (o : qop) : option (Z * list Z) :=
  match o with
  | QHead x => if bool_decide (x ∈ pool) && bool_decide (x ∉ l) then Some (0, x :: l) else None
  | QTail x => if bool_decide (x ∈ pool) && bool_decide (x ∉ l) then Some (0, l ++ [x]) else None
  | QDequeue => Some (hd 0 l, tl l)
  | QDequeueTail => Some (List.last l 0, removelast l)
  end.

Fixpoint spec_qops (pool : list Z) (l : list Z) (os : list qop) : option (list Z * list Z) :=
  match os with
  | [] => Some ([], l)
  | o :: os' =>
      '(r, l) ← spec_qop pool l o;
      '(rs, l) ← spec_qops pool l os';
      Some (r :: rs, l)
  end.

(** The buffers of the pool exist, none is the head, and there are fewer than
    [2^32]. *)
Definition pool_ok (h : lists) (a : Z) (pool : list Z) : Prop :=
  (forall x, x ∈ pool -> node h x /\ x <> 0 /\ x <> a) /\ Zlen pool < W32.

Lemma pool_bound (pool l : list Z) x : NoDup l -> l ⊆ pool -> x ∈ pool -> x ∉ l -> Zlen l + 1 <= Zlen pool.
Proof.
  intros Hnd Hs Hx Hn. assert (Hn' : NoDup (x :: l)) by (apply NoDup_cons; done).
  assert (H : x :: l ⊆ pool) by set_solver.
  pose proof (submseteq_length _ _ (NoDup_submseteq _ _ Hn' H)) as HL. unfold Zlen. cbn in HL. lia.
Qed.

(** The queue invariant for a pool of buffers. *)
Definition qinv (a : Z) (pool : list Z) (h : lists) (q : queue) (l : list Z) : Prop :=
  qaddr q = a /\ queue_rep h q l /\ l ⊆ pool /\ pool_ok h a pool.

Lemma pool_ok_frame h h' a pool t : frame h h' t -> pool_ok h a pool -> pool_ok h' a pool.
Proof. intros [Hf _] [Hp Hl]. split; [|done]. intros x Hx. destruct (Hp x Hx) as (Hn & H). auto. Qed.

Lemma qadd_pre a pool h q l x : qinv a pool h q l -> bool_decide (x ∈ pool) && bool_decide (x ∉ l) = true ->
  x ∉ qaddr q :: l /\ x <> 0 /\ node h x /\ Zlen l + 1 < W32 /\ x ∈ pool.
Proof.
  intros (<- & Hr & Hs & Hp & Hw) [H1%bool_decide_eq_true H2%bool_decide_eq_true]%andb_true_iff.
  destruct (Hp x H1) as (Hn & H0 & Ha). destruct Hr as [[Hnd _ _] _ _ _]. apply NoDup_cons in Hnd as [_ Hnd].
  pose proof (pool_bound pool l x Hnd Hs H1 H2). repeat split; try done; [set_solver|apply Hn|apply Hn|lia].
Qed.

Lemma run_qop_spec smp a pool h q l o r l' : qinv a pool h q l -> spec_qop pool l o = Some (r, l') ->
  exists h' q', run_qop smp h q o = Ret (r, h', q') /\ qinv a pool h' q' l'.
Proof.
  intros Hi. pose proof Hi as (Ha & [Hr Hl Hf Hb] & Hs & Hp).
  assert (Eq : q = mkQueue (qaddr q) false (Zlen l)) by (destruct q; cbn in *; by subst).
  destruct o as [x|x| |]; cbn [spec_qop run_qop].
  - destruct (_ && _) eqn:E; [|done]. intros [= <- <-]. destruct (qadd_pre _ _ _ _ _ _ Hi E) as (H1 & H2 & H3 & H4 & H5).
    destruct (queue_head_spec smp h q l x) as (h' & q' & E' & Ha' & Hr' & Hfr); [done..|].
    rewrite E', res_bind_Ret. exists h', q'. split; [done|]. split; [congruence|]. split; [done|]. split; [set_solver|].
    by apply (pool_ok_frame _ _ _ _ _ Hfr).
  - destruct (_ && _) eqn:E; [|done]. intros [= <- <-]. destruct (qadd_pre _ _ _ _ _ _ Hi E) as (H1 & H2 & H3 & H4 & H5).
    destruct (queue_tail_spec smp h q l x) as (h' & q' & E' & Ha' & Hr' & Hfr); [done..|].
    rewrite E', res_bind_Ret. exists h', q'. split; [done|]. split; [congruence|]. split; [done|]. split; [set_solver|].
    by apply (pool_ok_frame _ _ _ _ _ Hfr).
  - intros [= <- <-]. rewrite Eq.
    destruct (dequeue_spec smp h (qaddr q) false l (andb_false_r _) Hr Hb) as (h' & E & Hr' & Hfr).
    exists h', (mkQueue (qaddr q) false (Zlen (tl l))). split; [done|]. split; [done|]. split; [|split].
    + split; [done..|]. destruct l; cbn [tl]; [done|]. rewrite Zlen_cons in Hb. lia.
    + destruct l; set_solver.
    + by apply (pool_ok_frame _ _ _ _ _ Hfr).
  - intros [= <- <-]. rewrite Eq.
    destruct (dequeue_tail_spec smp h (qaddr q) false l (andb_false_r _) Hr Hb) as (h' & E & Hr' & Hfr).
    exists h', (mkQueue (qaddr q) false (Zlen (removelast l))). split; [done|].
    assert (Hsub : removelast l ⊆ l /\ Zlen (removelast l) <= Zlen l).
    { destruct l as [|y l _] using rev_ind; [split; [set_solver|done]|]. rewrite removelast_last, Zlen_app.
      pose proof (Zlen_nonneg [y]). split; [set_solver|lia]. }
    split; [done|]. split; [|split; [set_solver|by apply (pool_ok_frame _ _ _ _ _ Hfr)]]. split; [done..|]. cbn. lia.
Qed.

Lemma run_qops_spec smp a pool h q l os rs l' : qinv a pool h q l -> spec_qops pool l os = Some (rs, l') ->
  exists h' q', run_qops smp h q os = Ret (rs, h', q') /\ qinv a pool h' q' l'.
Proof.
  revert h q l rs l'. induction os as [|o os IH]; intros h q l rs l' Hi; cbn [spec_qops run_qops].
  - intros [= <- <-]. by exists h, q.
  - destruct (spec_qop pool l o) as [[r l1]|] eqn:E1; [|done]. cbn.
    destruct (spec_qops pool l1 os) as [[rs1 l2]|] eqn:E2; [|done]. cbn. intros [= <- <-].
    destruct (run_qop_spec smp a pool h q l o r l1 Hi E1) as (h1 & q1 & R1 & Hi1).
    destruct (IH h1 q1 l1 rs1 l2 Hi1 E2) as (h2 & q2 & R2 & Hi2).
    exists h2, q2. rewrite R1, res_bind_Ret, R2, res_bind_Ret. done.
Qed.

Lemma queue_init_spec h a k n : node h a ->
  exists h', scb_queue_head_init h (mkQueue a k n) = Ret (h', mkQueue a false 0) /\
    queue_rep h' (mkQueue a false 0) [] /\ frame h h' [a].
Proof.
  intros [Hn Hp]. unfold scb_queue_head_init, INIT_LIST_HEAD. cbn [qaddr].
  rewrite set_next_ok, res_bind_Ret, set_prev_ok, res_bind_Ret by done. eexists. split; [done|]. split.
  - split; [split; [apply NoDup_singleton| |set_solver]|done..]. cbn. by rewrite !lookup_insert_eq.
  - split; cbn.
    + intros x [Hx Hy]. split; cbn; by apply insert_is_Some.
    + intros x Hx. rewrite !lookup_insert_ne by set_solver. done.
Qed.

(** C36: a buffer queue, once initialised, is a double-ended queue of buffers.
    For every sequence of additions and removals at both ends that adds
    buffers of a pool only while they are not queued, the linked-list code
    returns exactly the pointers of the specification ([NULL] on an empty
    queue), follows no wild pointer, keeps [qlen] equal to the number of
    queued buffers and the [next] and [prev] chains consistent, and leaves the
    lock free. *)
Theorem queue_refines_deque smp h a k n pool os rs l :
  node h a -> pool_ok h a pool -> spec_qops pool [] os = Some (rs, l) ->
  exists h0 q0 h' q', scb_queue_head_init h (mkQueue a k n) = Ret (h0, q0) /\
    run_qops smp h0 q0 os = Ret (rs, h', q') /\ list_rep h' a l /\ scb_queue_len q' = Zlen l /\ locked q' = false.
Proof.
  intros Ha Hp Hs. destruct (queue_init_spec h a k n Ha) as (h0 & E0 & Hr0 & Hf0).
  destruct (run_qops_spec smp a pool h0 (mkQueue a false 0) [] os rs l) as (h' & q' & E & (Ea & Hr & _)); [|done|].
  { split; [done|]. split; [done|]. split; [set_solver|]. by apply (pool_ok_frame _ _ _ _ _ Hf0). }
  exists h0, (mkQueue a false 0), h', q'. split; [done|]. split; [done|]. destruct Hr as [Hr1 Hr2 Hr3 _].
  rewrite Ea in Hr1. done.
Qed.

(** The queue head at 100 and three buffers. *)
Definition demo_lists : lists :=
  let m : gmap Z Z := <[100 := 0]> (<[1 := 0]> (<[2 := 0]> (<[3 := 0]> ∅))) in mkLists m m.

Lemma demo_pool : node demo_lists 100 /\ pool_ok demo_lists 100 [1; 2; 3].
Proof.
  split; [split; by eexists|]. split; [|reflexivity]. intros x Hx.
  assert (x = 1 \/ x = 2 \/ x = 3) as [->|[->| ->]] by set_solver; (split; [split; by eexists|lia]).
Qed.

Lemma queue_refines_deque_witness : exists h0 q0 h' q',
  scb_queue_head_init demo_lists (mkQueue 100 true 7) = Ret (h0, q0) /\
  run_qops true h0 q0 [QTail 1; QTail 2; QHead 3; QDequeueTail; QHead 2; QDequeue; QDequeue; QTail 2] =
    Ret ([0; 0; 0; 2; 0; 2; 3; 0], h', q') /\
  list_rep h' 100 [1; 2] /\ scb_queue_len q' = Zlen [1; 2] /\ locked q' = false.
Proof.
  apply (queue_refines_deque true demo_lists 100 true 7 [1; 2; 3]);
    [exact (proj1 demo_pool)|exact (proj2 demo_pool)|vm_compute; reflexivity].
Defined.

(** ** Emptying a queue *)

Lemma links_ext h h' a l b : links h a l b ->
  (forall x, x ∈ a :: l -> nx h' !! x = nx h !! x) -> (forall x, x ∈ l ++ [b] -> pv h' !! x = pv h !! x) ->
  links h' a l b.
Proof.
  intros Hl Hx Hy. destruct (links_hd _ _ _ _ Hl) as [H1 H2].
  apply (links_front h h' a a l b Hl).
  - rewrite Hx by set_solver. done.
  - rewrite Hy; [done|]. destruct l; set_solver.
  - intros x Hin. apply Hx. set_solver.
  - intros x Hin. apply Hy. destruct l; set_solver.
Qed.

Lemma kfree_rep h a l x : x ∉ a :: l -> list_rep h a l -> list_rep (kfree_scb h x) a l.
Proof.
  intros Hx [Hnd Hl Hz]. split; [done| |done]. unfold kfree_scb. destruct (x =? 0); [done|].
  apply (links_ext h _ a l a Hl); intros y Hy; cbn; rewrite lookup_delete_ne; (done || set_solver).
Qed.

Lemma purge_loop_spec smp k a : smp && k = false -> forall l h out fuel,
  (length l < fuel)%nat -> list_rep h a l -> Zlen l < W32 ->
  exists h', purge_loop smp fuel h (mkQueue a k (Zlen l)) out = Ret (h', mkQueue a k 0, out ++ l) /\ list_rep h' a [] /\
    (forall x, x ∈ l -> nx h' !! x = None /\ pv h' !! x = None) /\
    (forall x, x ∉ a :: l -> nx h' !! x = nx h !! x /\ pv h' !! x = pv h !! x).
Proof.
  intros Hk. induction l as [|x l IH]; intros h out fuel Hf Hr Hb; (destruct fuel as [|fuel]; [cbn in Hf; lia|]);
    destruct (dequeue_spec smp h a k _ Hk Hr Hb) as (h1 & E & Hr1 & Hfr1);
    cbn [purge_loop]; rewrite E, res_bind_Ret; cbn [hd tl] in *.
  - exists h1. rewrite Z.eqb_refl, app_nil_r. split; [done|]. split; [done|]. split; [set_solver|apply Hfr1].
  - pose proof Hr as [Hnd _ Hz]. apply NoDup_cons in Hnd as [Ha Hnd]. apply NoDup_cons in Hnd as [Hxl Hnd].
    destruct (Z.eqb_spec x 0) as [->|Hx0]; [set_solver|]. rewrite Zlen_cons in Hb. cbn [length] in Hf.
    assert (Hx1 : x ∉ a :: l) by set_solver.
    destruct (IH (kfree_scb h1 x) (out ++ [x]) fuel) as (h2 & E2 & Hr2 & Hg & Ho); [lia|by apply kfree_rep|lia|].
    exists h2. rewrite E2, <- app_assoc. split; [done|]. split; [done|].
    assert (Hk' : kfree_scb h1 x = mkLists (delete x (nx h1)) (delete x (pv h1)))
      by (unfold kfree_scb; by destruct (Z.eqb_spec x 0)).
    rewrite Hk' in Ho. cbn [nx pv] in Ho. split; intros y Hy.
    + destruct (decide (y ∈ l)) as [Hyl|Hyl]; [by apply Hg|]. assert (y = x) as -> by set_solver.
      destruct (Ho x Hx1) as [-> ->]. by rewrite !lookup_delete_eq.
    + destruct (Ho y) as [-> ->]; [set_solver|]. rewrite !lookup_delete_ne by set_solver. by apply Hfr1.
Qed.

(** on a single processor [scb_queue_purge] releases every queued buffer,
    each once, from first to last, and none while it is still linked; the
    queue is then empty with length 0, the lock is as it was, the released
    memory is gone, and nothing outside the queue has changed.  One turn of
    the loop per buffer and one more are enough. *)
Theorem scb_queue_purge_up fuel h q l :
  queue_rep h q l -> (length l < fuel)%nat ->
  exists h' q', scb_queue_purge false fuel h q = Ret (h', q', l) /\ queue_rep h' q' [] /\ qaddr q' = qaddr q /\
    (forall x, x ∈ l -> nx h' !! x = None /\ pv h' !! x = None) /\
    (forall x, x ∉ qaddr q :: l -> nx h' !! x = nx h !! x /\ pv h' !! x = pv h !! x).
Proof.
  intros [Hr Hl Hf Hb] Hfu. unfold scb_queue_purge. rewrite lock_free, res_bind_Ret by done.
  rewrite Hl. destruct (purge_loop_spec false true (qaddr q) eq_refl l h [] fuel Hfu Hr Hb) as (h' & E & Hr' & H1 & H2).
  rewrite E, res_bind_Ret. eexists h', _. split; [reflexivity|]. split; [|done]. rewrite Hf. by split.
Qed.

(** A queue with the buffers 1 and 2, the buffer 3 outside. *)
Definition demo_queue2 : lists :=
  mkLists (<[100 := 1]> (<[1 := 2]> (<[2 := 100]> (<[3 := 3]> ∅)))) (<[100 := 2]> (<[1 := 100]> (<[2 := 1]> (<[3 := 3]> ∅)))).

Lemma demo_queue2_rep : queue_rep demo_queue2 (mkQueue 100 false 2) [1; 2].
Proof.
  split; [split|done..]; [|vm_compute; tauto|set_solver].
  repeat (apply NoDup_cons; split; [set_solver|]). apply NoDup_nil_2.
Qed.

Lemma scb_queue_purge_up_witness :
  exists h' q', scb_queue_purge false 3 demo_queue2 (mkQueue 100 false 2) = Ret (h', q', [1; 2]) /\
    queue_rep h' q' [] /\ qaddr q' = 100 /\
    (forall x, x ∈ [1; 2] -> nx h' !! x = None /\ pv h' !! x = None) /\
    (forall x, x ∉ [100; 1; 2] -> nx h' !! x = nx demo_queue2 !! x /\ pv h' !! x = pv demo_queue2 !! x).
Proof. apply (scb_queue_purge_up 3 demo_queue2 (mkQueue 100 false 2) [1; 2] demo_queue2_rep). cbn. lia. Defined.

(** on several processors [scb_queue_purge] and [cmb_queue_purge] never
    return: they take the lock of the queue and call the dequeue operation,
    which waits for the same lock. *)
Theorem queue_purge_smp fuel h q :
  (0 < fuel)%nat -> scb_queue_purge true fuel h q = Fault /\ cmb_queue_purge true fuel h q = Fault.
Proof.
  intros Hf. unfold cmb_queue_purge. assert (H : scb_queue_purge true fuel h q = Fault); [|done].
  unfold scb_queue_purge, spin_lock_irqsave. cbn [andb]. destruct (locked q); [done|]. rewrite res_bind_Ret.
  destruct fuel as [|fuel]; [lia|done].
Qed.

Lemma queue_purge_smp_witness :
  scb_queue_purge true 3 demo_queue2 (mkQueue 100 false 2) = Fault /\
  cmb_queue_purge true 3 demo_queue2 (mkQueue 100 false 2) = Fault.
Proof. apply (queue_purge_smp 3). lia. Defined.

