(* ===== verification/Kfifo.v ===== *)
(** * Byte queues of the kernel: [kernel/kfifo.c], [include/linux/kfifo.h]

    A ring whose two counters run freely over 32 bits; the remote control
    receiver keeps its keys in one.  [holds f q]: the queue [f] contains the
    bytes [q]. *)
From stdpp Require Import base tactics list numbers option.
From Stdlib Require Import ZArith Lia.
From S2P Require Import Prelude Buff Rpc RpcProofs.

Record kfifo := mkFifo { kf_buffer : list Z; kf_size : Z; kf_in : Z; kf_out : Z }.

(** [blk]: whether there is memory for the structure; [None]: an error pointer. *)
Definition kfifo_init (buffer : list Z) (size : Z) (blk : bool) : res (option kfifo) :=
  if negb (Z.land size (u32 (size - 1)) =? 0) then Fault
  else if blk then Ret (Some (mkFifo buffer size 0 0)) else Ret None.

Definition fls (x : Z) : Z := if x =? 0 then 0 else Z.log2 x + 1.
Definition roundup_pow_of_two (x : Z) : Z := u32 (Z.shiftl 1 (fls (u32 (x - 1)))).

(** [kmalloc]: the block that is given for the bytes. *)
Definition kfifo_alloc (size : Z) (kmalloc : Z -> option (list Z)) (blk : bool) : res (option kfifo) :=
  size ← (if Z.land size (u32 (size - 1)) =? 0 then Ret size
          else if size >? 0x80000000 then Fault else Ret (roundup_pow_of_two size));
  match kmalloc size with
  | None => Ret None
  | Some buffer => kfifo_init buffer size blk
  end.

(** [x & (fifo->size - 1)] *)
Definition kf_index (f : kfifo) (x : Z) : Z := Z.land x (u32 (kf_size f - 1)).

Definition __kfifo_put (f : kfifo) (buffer : list Z) (len : Z) : res (Z * kfifo) :=
  let len := Z.min len (u32 (kf_size f - kf_in f + kf_out f)) in
  let l := Z.min len (u32 (kf_size f - kf_index f (kf_in f))) in
  x ← load buffer 0 l;
  b ← store (kf_buffer f) (kf_index f (kf_in f)) x;
  y ← load buffer l (len - l);
  b ← store b 0 y;
  Ret (len, mkFifo b (kf_size f) (u32 (kf_in f + len)) (kf_out f)).

Definition __kfifo_len (f : kfifo) : Z := u32 (kf_in f - kf_out f).

(** The parts of [__kfifo_get]: the bytes are copied, then [out] moves. *)
Definition kf_copy (f : kfifo) (buffer : list Z) (len : Z) : res (list Z) :=
  let l := Z.min len (u32 (kf_size f - kf_index f (kf_out f))) in
  x ← load (kf_buffer f) (kf_index f (kf_out f)) l;
  b ← store buffer 0 x;
  y ← load (kf_buffer f) 0 (len - l);
  store b l y.
Definition kf_advance (f : kfifo) (len : Z) : kfifo :=
  mkFifo (kf_buffer f) (kf_size f) (kf_in f) (u32 (kf_out f + len)).

(** [buffer]: the destination; its new contents are in the result. *)
Definition __kfifo_get (f : kfifo) (buffer : list Z) (len : Z) : res (Z * list Z * kfifo) :=
  let len := Z.min len (u32 (kf_in f - kf_out f)) in
  b ← kf_copy f buffer len;
  Ret (len, b, kf_advance f len).

Definition __kfifo_reset (f : kfifo) : kfifo := mkFifo (kf_buffer f) (kf_size f) 0 0.
Definition kfifo_reset := __kfifo_reset.

(** With the lock, which is held by nobody else on a single processor. *)
Definition kfifo_put := __kfifo_put.
Definition kfifo_get (f : kfifo) (buffer : list Z) (len : Z) : res (Z * list Z * kfifo) :=
  '(n, b, f) ← __kfifo_get f buffer len;
  Ret (n, b, if kf_in f =? kf_out f then mkFifo (kf_buffer f) (kf_size f) 0 0 else f).

(** ** What a queue holds *)

Record sized (f : kfifo) : Prop := {
  z_pow : exists k, 0 <= k <= 31 /\ kf_size f = 2 ^ k;
  z_len : Zlen (kf_buffer f) = kf_size f;
  z_in : is_u32 (kf_in f);
  z_out : is_u32 (kf_out f)
}.

Record holds (f : kfifo) (q : list Z) : Prop := {
  h_sized : sized f;
  h_len : u32 (kf_in f - kf_out f) = Zlen q;
  h_fits : Zlen q <= kf_size f;
  h_at : forall i, 0 <= i < Zlen q -> q.[i] = (kf_buffer f).[(kf_out f mod kf_size f + i) mod kf_size f]
}.

(** A position in the ring that may have passed its end once. *)
Lemma mod_wrap S x : 0 <= x < 2 * S -> x mod S = if x <? S then x else x - S.
Proof.
  intros Hx. destruct (Z.ltb_spec x S); [apply Z.mod_small; lia|].
  symmetry. apply (Z.mod_unique x S 1); lia.
Qed.

Section sized.
Variable f : kfifo.
Hypothesis Hf : sized f.

Lemma size_range : 1 <= kf_size f <= 2147483648.
Proof.
  destruct (z_pow _ Hf) as (k & Hk & ->). change 1 with (2 ^ 0). change 2147483648 with (2 ^ 31).
  split; apply Z.pow_le_mono_r; lia.
Qed.

Lemma size_divides x : u32 x mod kf_size f = x mod kf_size f.
Proof.
  destruct (z_pow _ Hf) as (k & Hk & ->). unfold u32, W32. change 4294967296 with (2 ^ 32).
  rewrite Z.mod_mod_divide; [done|]. exists (2 ^ (32 - k)). rewrite <- Z.pow_add_r by lia. f_equal. lia.
Qed.

Lemma index_mod x : kf_index f x = x mod kf_size f.
Proof.
  pose proof size_range. unfold kf_index. rewrite u32_small by (unfold is_u32, W32; lia).
  destruct (z_pow _ Hf) as (k & Hk & ->). rewrite <- Z.land_ones by lia. f_equal. rewrite Z.ones_equiv. lia.
Qed.

End sized.

(** ** Operations *)

Section operations.
Variable f : kfifo.
Variable q : list Z.
Hypothesis Hh : holds f q.

Let S := kf_size f.
Let o := kf_out f mod S.
Let p := kf_in f mod S.

Lemma ring_facts : 1 <= S <= 2147483648 /\ 0 <= o < S /\ 0 <= p < S /\ 0 <= Zlen q <= S /\ (p = o + Zlen q \/ p = o + Zlen q - S).
Proof.
  pose proof (size_range f (h_sized _ _ Hh)) as HS. fold S in HS. pose proof (Z.mod_pos_bound (kf_out f) S ltac:(lia)) as Ho. fold o in Ho.
  pose proof (Z.mod_pos_bound (kf_in f) S ltac:(lia)) as Hp. fold p in Hp. pose proof (Zlen_nonneg q). pose proof (h_fits _ _ Hh) as Hq. fold S in Hq.
  split; [done|]. split; [done|]. split; [done|]. split; [lia|].
  assert (E : p = (o + Zlen q) mod S).
  { rewrite <- (h_len _ _ Hh). unfold p, o, S. rewrite Zplus_mod_idemp_l, <- Zplus_mod_idemp_r, (size_divides f (h_sized _ _ Hh)), Zplus_mod_idemp_r. f_equal. lia. }
  rewrite mod_wrap in E by lia. destruct (o + Zlen q <? S); lia.
Qed.

(** As many bytes as there is room for are added at the end. *)
Lemma put_holds x len : 0 <= len <= Zlen x -> len < W32 ->
  let n := Z.min len (S - Zlen q) in
  exists f', __kfifo_put f x len = Ret (n, f') /\ holds f' (q ++ firstn (Z.to_nat n) x) /\ kf_size f' = S.
Proof.
  intros Hlen HW n. pose proof ring_facts as (HS & Ho & Hp & Hq & Hpo). pose proof (h_sized _ _ Hh) as Hz.
  unfold __kfifo_put. fold S. rewrite (index_mod f Hz). fold S p.
  assert (Er : u32 (S - kf_in f + kf_out f) = S - Zlen q).
  { rewrite <- (h_len _ _ Hh). rewrite <- (u32_small (S - u32 _)) by (rewrite (h_len _ _ Hh); unfold is_u32, W32; lia). unfold u32.
    rewrite Zminus_mod_idemp_r. f_equal. lia. }
  rewrite Er, (u32_small (S - p)) by (unfold is_u32, W32; lia). fold n. set (l := Z.min n (S - p)). assert (Hn : 0 <= n <= len) by lia.
  assert (Hl : 0 <= l <= n) by lia. pose proof (z_len _ Hz) as HL. fold S in HL.
  destruct (load x 0 l) as [x1| |] eqn:E1; [|rewrite load_ok in E1 by lia; done..]. pose proof (load_bounds _ _ _ _ E1) as (_ & _ & _ & L1). cbn [mbind res_bind].
  destruct (store (kf_buffer f) p x1) as [b1| |] eqn:E2; [|rewrite store_ok in E2 by lia; done..]. cbn [mbind res_bind].
  destruct (load x l (n - l)) as [x2| |] eqn:E3; [|rewrite load_ok in E3 by lia; done..]. pose proof (load_bounds _ _ _ _ E3) as (_ & _ & _ & L2). cbn [mbind res_bind].
  assert (HL1 : Zlen b1 = S) by (unfold Zlen in *; by rewrite (store_length _ _ _ _ E2)).
  destruct (store b1 0 x2) as [b2| |] eqn:E4; [|rewrite store_ok in E4 by lia; done..]. cbn [mbind res_bind].
  eexists. split; [reflexivity|]. split; [|done]. assert (Hx1 : Zlen (firstn (Z.to_nat n) x) = n) by (rewrite Zlen_firstn; lia).
  split; cbn [kf_buffer kf_size kf_in kf_out]; fold S.
  - destruct Hz as [Z1 Z2 Z3 Z4]. split; [done|cbn [kf_buffer kf_size]|apply u32_range|done]. unfold Zlen in *. rewrite (store_length _ _ _ _ E4). exact HL1.
  - rewrite Zlen_app, Hx1, <- (h_len _ _ Hh). rewrite <- (u32_small (u32 _ + n)) by (rewrite (h_len _ _ Hh); unfold is_u32, W32; lia).
    unfold u32. rewrite Zminus_mod_idemp_l, Zplus_mod_idemp_l. f_equal. lia.
  - rewrite Zlen_app, Hx1. lia.
  - rewrite Zlen_app, Hx1. intros i Hi. fold o. rewrite mod_wrap by lia. rewrite at_app by lia.
    rewrite (store_at _ _ _ _ _ E4), L2 by (destruct (o + i <? S) eqn:?; lia). rewrite (store_at _ _ _ _ _ E2), L1 by (destruct (o + i <? S) eqn:?; lia).
    destruct (Z.ltb_spec i (Zlen q)) as [Hlt|Hge].
    + rewrite (h_at _ _ Hh) by lia. fold S o. rewrite mod_wrap by lia. repeat zcase; cbn [andb]; done || (exfalso; lia).
    + rewrite at_firstn by lia. repeat zcase; cbn [andb]; try (exfalso; lia);
        (rewrite (load_at _ _ _ _ _ E1) by lia) || (rewrite (load_at _ _ _ _ _ E3) by lia); f_equal; lia.
Qed.

(** The first bytes are copied. *)
Lemma copy_holds b n : 0 <= n <= Zlen q -> n <= Zlen b ->
  kf_copy f b n = Ret (firstn (Z.to_nat n) q ++ skipn (Z.to_nat n) b).
Proof.
  intros Hn Hb. pose proof ring_facts as (HS & Ho & Hp & Hq & Hpo). pose proof (h_sized _ _ Hh) as Hz.
  unfold kf_copy. fold S. rewrite (index_mod f Hz). fold S o. rewrite (u32_small (S - o)) by (unfold is_u32, W32; lia).
  set (l := Z.min n (S - o)). pose proof (z_len _ Hz) as HL. fold S in HL.
  destruct (load (kf_buffer f) o l) as [x1| |] eqn:E1; [|rewrite load_ok in E1 by lia; done..]. pose proof (load_bounds _ _ _ _ E1) as (_ & _ & _ & L1). cbn [mbind res_bind].
  destruct (store b 0 x1) as [b1| |] eqn:E2; [|rewrite store_ok in E2 by lia; done..]. cbn [mbind res_bind].
  destruct (load (kf_buffer f) 0 (n - l)) as [x2| |] eqn:E3; [|rewrite load_ok in E3 by lia; done..]. pose proof (load_bounds _ _ _ _ E3) as (_ & _ & _ & L2). cbn [mbind res_bind].
  assert (HL1 : Zlen b1 = Zlen b) by (unfold Zlen in *; by rewrite (store_length _ _ _ _ E2)).
  destruct (store b1 l x2) as [b2| |] eqn:E4; [|rewrite store_ok in E4 by lia; done..]. f_equal.
  assert (Hf : Zlen (firstn (Z.to_nat n) q) = n) by (rewrite Zlen_firstn; lia).
  apply at_ext.
  - rewrite Zlen_app, Hf, Zlen_skipn by lia. unfold Zlen in *. rewrite (store_length _ _ _ _ E4). lia.
  - intros k Hk. assert (HL2 : Zlen b2 = Zlen b) by (unfold Zlen in *; by rewrite (store_length _ _ _ _ E4)).
    rewrite (store_at _ _ _ _ _ E4), L2, (store_at _ _ _ _ _ E2), L1, at_app, Hf by lia.
    destruct (Z.ltb_spec k n) as [Hlt|Hge].
    + rewrite at_firstn, (h_at _ _ Hh) by lia. fold S o. rewrite mod_wrap by lia. repeat zcase; cbn [andb]; try (exfalso; lia);
        (rewrite (load_at _ _ _ _ _ E1) by lia) || (rewrite (load_at _ _ _ _ _ E3) by lia); f_equal; lia.
    + rewrite at_skipn by lia. repeat zcase; cbn [andb]; try (exfalso; lia). f_equal. lia.
Qed.

(** The first bytes are given up. *)
Lemma advance_holds n : 0 <= n <= Zlen q -> holds (kf_advance f n) (skipn (Z.to_nat n) q).
Proof.
  intros Hn. pose proof ring_facts as (HS & Ho & Hp & Hq & Hpo). pose proof (h_sized _ _ Hh) as Hz. unfold kf_advance.
  split; cbn [kf_buffer kf_size kf_in kf_out]; fold S; rewrite ?Zlen_skipn by lia.
  - destruct Hz as [Z1 Z2 Z3 Z4]. split; [done|done|done|apply u32_range].
  - rewrite <- (h_len _ _ Hh). rewrite <- (u32_small (u32 _ - n)) by (rewrite (h_len _ _ Hh); unfold is_u32, W32; lia).
    unfold u32. rewrite Zminus_mod_idemp_r, Zminus_mod_idemp_l. f_equal. lia.
  - lia.
  - intros i Hi. rewrite at_skipn, (h_at _ _ Hh) by lia. fold S o. f_equal. unfold S. rewrite (size_divides f Hz). fold S.
    rewrite (Zplus_mod_idemp_l (kf_out f + n)). unfold o. rewrite Zplus_mod_idemp_l. f_equal. lia.
Qed.
End operations.

Lemma kfifo_len_holds f q : holds f q -> __kfifo_len f = Zlen q.
Proof. apply h_len. Qed.

Lemma get_holds f q b len : holds f q -> 0 <= len <= Zlen b ->
  let n := Z.min len (Zlen q) in
  exists f', __kfifo_get f b len = Ret (n, firstn (Z.to_nat n) q ++ skipn (Z.to_nat n) b, f') /\ holds f' (skipn (Z.to_nat n) q) /\ kf_size f' = kf_size f.
Proof.
  intros Hh Hlen n. pose proof (Zlen_nonneg q). unfold __kfifo_get. rewrite (h_len _ _ Hh). fold n.
  rewrite (copy_holds f q Hh) by lia. cbn [mbind res_bind]. eexists. split; [reflexivity|]. split; [|done]. apply advance_holds; [done|lia].
Qed.

Lemma empty_holds b k : 0 <= k <= 31 -> Zlen b = 2 ^ k -> holds (mkFifo b (2 ^ k) 0 0) [].
Proof.
  intros Hk Hb. split; [split; [by exists k|done|done|done]|done|change (Zlen []) with 0; cbn [kf_size]; lia|]. intros i Hi. change (Zlen []) with 0 in Hi. lia.
Qed.

Lemma reset_holds f : sized f -> holds (kfifo_reset f) [].
Proof. intros [(k & Hk & Es) Hl _ _]. unfold kfifo_reset, __kfifo_reset. rewrite Es in *. by apply empty_holds. Qed.

(** ** Allocation *)

Lemma pow2_land k : 0 <= k -> Z.land (2 ^ k) (2 ^ k - 1) = 0.
Proof.
  intros Hk. replace (2 ^ k - 1) with (Z.ones k) by (rewrite Z.ones_equiv; lia). rewrite Z.land_ones by lia. apply Z.mod_same. lia.
Qed.

Lemma land_pow2 x : 0 < x -> Z.land x (x - 1) = 0 -> x = 2 ^ Z.log2 x.
Proof.
  intros Hx H. pose proof (Z.log2_spec x Hx) as [H1 H2]. destruct (Z.eq_dec x (2 ^ Z.log2 x)) as [|Hne]; [done|exfalso].
  assert (Hb : Z.testbit (Z.land x (x - 1)) (Z.log2 x) = true); [|by rewrite H, Z.bits_0 in Hb].
  rewrite Z.land_spec, Z.bit_log2 by done. cbn [andb]. pose proof (Z.log2_nonneg x).
  rewrite <- (Z.log2_unique (x - 1) (Z.log2 x)) by lia. apply Z.bit_log2. lia.
Qed.

Lemma roundup_spec x : 1 < x <= 0x80000000 -> exists k, 0 <= k <= 31 /\ roundup_pow_of_two x = 2 ^ k /\ x <= 2 ^ k < 2 * x.
Proof.
  intros Hx. exists (Z.log2 (x - 1) + 1). pose proof (Z.log2_spec (x - 1) ltac:(lia)) as [H1 H2]. pose proof (Z.log2_nonneg (x - 1)).
  assert (Hk : Z.log2 (x - 1) < 31) by (apply Z.log2_lt_pow2; lia). unfold Z.succ in H2. rewrite Z.pow_add_r in * by lia. change (2 ^ 1) with 2 in *.
  split; [lia|]. split; [|lia]. unfold roundup_pow_of_two, fls. rewrite (u32_small (x - 1)) by (unfold is_u32, W32; lia). destruct (Z.eqb_spec (x - 1) 0); [lia|].
  rewrite Z.shiftl_mul_pow2, Z.pow_add_r by lia. change (2 ^ 1) with 2. rewrite u32_small; [lia|]. unfold is_u32, W32. lia.
Qed.

(** A queue is allocated for the next power of two. *)
Lemma alloc_holds size kmalloc : 0 < size <= 0x80000000 -> (forall n b, kmalloc n = Some b -> Zlen b = n) ->
  kfifo_alloc size kmalloc true = Ret None \/
  exists f, kfifo_alloc size kmalloc true = Ret (Some f) /\ holds f [] /\ size <= kf_size f < 2 * size.
Proof.
  intros Hs Hk. unfold kfifo_alloc. rewrite (u32_small (size - 1)) by (unfold is_u32, W32; lia).
  assert (H : exists k, 0 <= k <= 31 /\ (if Z.land size (size - 1) =? 0 then Ret size else if size >? 0x80000000 then Fault else Ret (roundup_pow_of_two size)) = Ret (2 ^ k) /\ size <= 2 ^ k < 2 * size).
  { destruct (Z.eqb_spec (Z.land size (size - 1)) 0) as [E|E].
    - apply land_pow2 in E; [|lia]. exists (Z.log2 size). pose proof (Z.log2_nonneg size). rewrite <- E. split; [|split; [done|lia]].
      split; [done|]. apply Z.lt_succ_r, Z.log2_lt_pow2; lia.
    - rewrite Z.gtb_ltb. destruct (Z.ltb_spec 0x80000000 size); [lia|]. destruct (roundup_spec size) as (k & H1 & H2 & H3); [|by exists k; rewrite H2].
      assert (size <> 1) by (intros ->; done). lia. }
  destruct H as (k & Hk31 & -> & Hr). cbn [mbind res_bind]. destruct (kmalloc (2 ^ k)) as [b|] eqn:Eb; [|by left]. right. apply Hk in Eb.
  unfold kfifo_init. assert (Hp : 0 < 2 ^ k) by lia. rewrite (u32_small (2 ^ k - 1)) by (unfold is_u32, W32; lia). rewrite pow2_land by lia. cbn [negb Z.eqb].
  eexists. split; [reflexivity|]. split; [by apply empty_holds|done].
Qed.

(** ** Sequences of operations *)

Inductive kf_op := KPut (x : list Z) | KGet (n : Z) | KGetLocked (n : Z) | KReset.

(** The number of bytes that were moved, and the bytes that were got. *)
Definition kf_run_op (o : kf_op) (f : kfifo) : res (Z * list Z * kfifo) :=
  match o with
  | KPut x => '(n, f) ← __kfifo_put f x (Zlen x); Ret (n, [], f)
  | KGet n => '(m, b, f) ← __kfifo_get f (replicate (Z.to_nat n) 0) n; Ret (m, firstn (Z.to_nat m) b, f)
  | KGetLocked n => '(m, b, f) ← kfifo_get f (replicate (Z.to_nat n) 0) n; Ret (m, firstn (Z.to_nat m) b, f)
  | KReset => Ret (0, [], kfifo_reset f)
  end.

Fixpoint kf_run (os : list kf_op) (f : kfifo) : res (list (Z * list Z) * kfifo) :=
  match os with
  | [] => Ret ([], f)
  | o :: os' =>
      '(n, x, f) ← kf_run_op o f;
      '(rs, f) ← kf_run os' f;
      Ret ((n, x) :: rs, f)
  end.

(** A queue of at most [cap] bytes. *)
Definition kf_spec_op (cap : Z) (o : kf_op) (q : list Z) : Z * list Z * list Z :=
  match o with
  | KPut x => let n := Z.min (Zlen x) (cap - Zlen q) in (n, [], q ++ firstn (Z.to_nat n) x)
  | KGet n | KGetLocked n => let m := Z.min n (Zlen q) in (m, firstn (Z.to_nat m) q, skipn (Z.to_nat m) q)
  | KReset => (0, [], [])
  end.

Fixpoint kf_spec (cap : Z) (os : list kf_op) (q : list Z) : list (Z * list Z) * list Z :=
  match os with
  | [] => ([], q)
  | o :: os' =>
      let '(n, x, q) := kf_spec_op cap o q in
      let '(rs, q) := kf_spec cap os' q in
      ((n, x) :: rs, q)
  end.

Definition kf_allowed (o : kf_op) : bool :=
  match o with KPut x => Zlen x <? W32 | KGet n | KGetLocked n => 0 <=? n | KReset => true end.

Lemma got_bytes n (q b : list Z) : 0 <= n <= Zlen q -> firstn (Z.to_nat n) (firstn (Z.to_nat n) q ++ b) = firstn (Z.to_nat n) q.
Proof. intros Hn. rewrite take_app_le, take_take; [f_equal; lia|]. rewrite length_firstn. unfold Zlen in Hn. lia. Qed.

Lemma kf_op_refines o f q : holds f q -> kf_allowed o = true ->
  exists f', kf_run_op o f = Ret ((kf_spec_op (kf_size f) o q).1, f') /\ holds f' (kf_spec_op (kf_size f) o q).2 /\ kf_size f' = kf_size f.
Proof.
  intros Hh Ha. pose proof (Zlen_nonneg q) as Hq. destruct o as [x|n|n|]; cbn [kf_run_op kf_spec_op kf_allowed fst snd] in *.
  - apply Z.ltb_lt in Ha. destruct (put_holds f q Hh x (Zlen x)) as (f' & E & H & S); [pose proof (Zlen_nonneg x); lia|done|]. exists f'. by rewrite E.
  - apply Z.leb_le in Ha. destruct (get_holds f q (replicate (Z.to_nat n) 0) n Hh) as (f' & E & H & S); [unfold Zlen; rewrite length_replicate; lia|].
    exists f'. rewrite E. cbn [mbind res_bind]. rewrite got_bytes by lia. done.
  - apply Z.leb_le in Ha. destruct (get_holds f q (replicate (Z.to_nat n) 0) n Hh) as (f' & E & H & S); [unfold Zlen; rewrite length_replicate; lia|].
    unfold kfifo_get. rewrite E. cbn [mbind res_bind]. rewrite got_bytes by lia. destruct (Z.eqb_spec (kf_in f') (kf_out f')) as [Ei|Ei]; [|by exists f'].
    eexists. split; [reflexivity|]. split; [|done]. pose proof (h_len _ _ H) as Hl. rewrite Ei, Z.sub_diag in Hl.
    destruct (skipn _ q) as [|y l]; [|rewrite Zlen_cons in Hl; pose proof (Zlen_nonneg l); change (u32 0) with 0 in Hl; lia]. apply (reset_holds f'), H.
  - eexists. split; [reflexivity|]. split; [apply reset_holds, Hh|done].
Qed.

Lemma kf_run_refines os : forall f q, holds f q -> forallb kf_allowed os = true ->
  exists f', kf_run os f = Ret ((kf_spec (kf_size f) os q).1, f') /\ holds f' (kf_spec (kf_size f) os q).2.
Proof.
  induction os as [|o os IH]; intros f q Hh Ha; cbn [kf_run kf_spec]; [by exists f|]. cbn [forallb] in Ha. apply andb_true_iff in Ha as [Ha1 Ha2].
  destruct (kf_op_refines o f q Hh Ha1) as (f1 & E1 & H1 & S1). rewrite E1. destruct (kf_spec_op (kf_size f) o q) as [[n x] q1]. cbn [fst snd mbind res_bind] in *.
  destruct (IH f1 q1 H1 Ha2) as (f2 & E2 & H2). rewrite S1 in E2, H2. rewrite E2. cbn [mbind res_bind]. exists f2. by destruct (kf_spec (kf_size f) os q1).
Qed.

(** C32: the byte queues refine lists.  A queue that has been allocated, for
    at least the size asked for, gives for every sequence of puts, gets and
    resets the counts and the bytes of a list of bounded length: what does not
    fit is not taken, what is got is the oldest, also when the ring wraps
    around and when the 32-bit counters overflow. *)
Theorem kfifo_refines_queue size kmalloc f os :
  0 < size <= 0x80000000 -> (forall n b, kmalloc n = Some b -> Zlen b = n) -> kfifo_alloc size kmalloc true = Ret (Some f) -> forallb kf_allowed os = true ->
  size <= kf_size f < 2 * size /\ exists f', kf_run os f = Ret ((kf_spec (kf_size f) os []).1, f') /\ holds f' (kf_spec (kf_size f) os []).2.
Proof.
  intros Hs Hk Ef Ha. destruct (alloc_holds size kmalloc Hs Hk) as [E|(g & E & H & Hr)]; rewrite Ef in E; [done|]. injection E as <-.
  split; [done|]. by apply kf_run_refines.
Qed.

Definition demo_block (n : Z) : option (list Z) := if 0 <=? n then Some (replicate (Z.to_nat n) 0) else None.

Lemma demo_block_len n b : demo_block n = Some b -> Zlen b = n.
Proof. unfold demo_block. destruct (Z.leb_spec 0 n); [|done]. intros [= <-]. unfold Zlen. rewrite length_replicate. lia. Qed.

Lemma kfifo_refines_queue_witness :
  8 <= 8 < 2 * 8 /\ exists f', kf_run [KPut [1; 2; 3; 4; 5]; KGet 4; KPut [6; 7; 8; 9; 10; 11; 12; 13]; KGetLocked 9] (mkFifo (replicate 8 0) 8 0 0) =
    Ret ([(5, []); (4, [1; 2; 3; 4]); (7, []); (8, [5; 6; 7; 8; 9; 10; 11; 12])], f') /\ holds f' [].
Proof.
  apply (kfifo_refines_queue 8 demo_block (mkFifo (replicate 8 0) 8 0 0) [KPut [1; 2; 3; 4; 5]; KGet 4; KPut [6; 7; 8; 9; 10; 11; 12; 13]; KGetLocked 9]);
    [lia|apply demo_block_len|reflexivity|reflexivity].
Defined.
