(* ===== verification/ScdAtr.v ===== *)
(** * Smart cards: the answer to reset, [drivers/smartcard/core/scd_atr.c]

    A card answers a reset with a string of bytes whose length follows from its
    content: the driver calls [is_atr_complete] after every byte it receives,
    and [decompress_atr] takes the finished string apart. *)
From stdpp Require Import base tactics list numbers option.
From Stdlib Require Import ZArith Lia.
From S2P Require Import Prelude Buff RpcProofs.

Definition MAX_ATR_SIZE : Z := 32.

Record scd_atr := mkAtr { atr_data : list Z; atr_length : Z }.

Record scd_atr_info := mkInfo {
  ai_status : Z;
  ai_progress : Z;
  ai_T1Len : Z;
  ai_T2Len : Z;
  ai_T3Len : Z;
  ai_nHistoryBytes : Z;
  ai_TS : Z;
  ai_T0 : Z;
  ai_T1 : list Z;      (* 4 bytes *)
  ai_T2 : list Z;
  ai_T3 : list Z;
  ai_History : list Z; (* 16 bytes *)
  ai_TCK : Z
}.

Definition init_atr : scd_atr := mkAtr (replicate 32 0) 0.

(** [for (i=1; i<length; i++) crc ^= data[i]] *)
Definition is_atr_crc_ok (a : scd_atr) : res Z :=
  crc ← forU (Z.to_nat (atr_length a - 1)) 1 (fun i crc => b ← rd (atr_data a) i; Ret (Z.lxor crc b)) 0;
  Ret (if crc =? 0 then 1 else 0).

(** The number of interface bytes a byte announces. *)
Definition nibble_count (t : Z) : Z :=
  Z.land (Z.shiftr t 4) 1 + Z.land (Z.shiftr t 5) 1 + Z.land (Z.shiftr t 6) 1 + Z.land (Z.shiftr t 7) 1.

(** 0: incomplete, 1: complete, -1: wrong check byte. *)
Definition is_atr_complete (a : scd_atr) : res Z :=
  let len := atr_length a in
  if len <? 3 then Ret 0
  else
    TS ← rd (atr_data a) 0;
    if negb (TS =? 59) && negb (TS =? 63) then Ret 1
    else
      T0 ← rd (atr_data a) 1;
      let nHistoryByte := Z.land T0 15 in
      let T1Len := nibble_count T0 in
      if len <? 2 + T1Len then Ret 0
      else
        TD1 ← (if negb (Z.land T0 128 =? 0) then rd (atr_data a) (1 + T1Len) else Ret 0);
        let T2Len := if negb (Z.land T0 128 =? 0) then nibble_count TD1 else 0 in
        let T := if negb (Z.land T0 128 =? 0) then Z.land TD1 15 else 0 in
        if len <? 2 + T1Len + T2Len then Ret 0
        else
          TD2 ← (if negb (Z.land TD1 128 =? 0) then rd (atr_data a) (1 + T1Len + T2Len) else Ret 0);
          let T3Len := if negb (Z.land TD1 128 =? 0) then nibble_count TD2 else 0 in
          if (T =? 0) || (T =? 15) then
            Ret (if len <? 2 + T1Len + T2Len + T3Len + nHistoryByte then 0 else 1)
          else if len <? 3 + T1Len + T2Len + T3Len + nHistoryByte then Ret 0
          else
            ok ← is_atr_crc_ok a;
            Ret (if ok =? 0 then -1 else 1).

(** [for (i=0; i<4; i++) if (ctl & (0x10 << i)) T[i] = data[id++];] *)
Definition take_byte (ctl : Z) (data : list Z) (i : Z) (s : list Z * Z) : res (list Z * Z) :=
  let '(T, id) := s in
  if Z.land ctl (Z.shiftl 16 i) =? 0 then Ret (T, id)
  else
    b ← rd data id;
    T ← wr T i b;
    Ret (T, u8 (id + 1)).

Definition take_T (ctl : Z) (data T : list Z) (id : Z) : res (list Z * Z) := forU 4 0 (take_byte ctl data) (T, id).

(** [memset(p_info, 0, sizeof(p_info))] clears as many bytes as a pointer has;
    the interface bytes keep what the structure held before.  A wrong check
    byte is only reported on the console. *)
Definition decompress_atr (a : scd_atr) (info : scd_atr_info) : res (Z * scd_atr_info) :=
  ret ← is_atr_complete a;
  if ret =? 0 then Ret (-1, info)
  else
    let data := atr_data a in
    let len := atr_length a in
    TS ← rd data 0;
    T0 ← rd data 1;
    '(T1, id) ← take_T T0 data (ai_T1 info) 2;
    TD1 ← rd T1 3;
    '(T2, id) ← take_T TD1 data (ai_T2 info) id;
    TD2 ← rd T2 3;
    '(T3, id) ← take_T TD2 data (ai_T3 info) id;
    let got := mkInfo 0 0 0 0 (ai_T3Len info) (ai_nHistoryBytes info) TS T0 T1 T2 T3 (ai_History info) (ai_TCK info) in
    let T := Z.land TD1 15 in
    let extra := if (T =? 0) || (T =? 15) then len - id else len - id - 1 in
    if negb (extra =? Z.land T0 15) then Ret (-1, got)
    else
      h ← load data id (Z.land T0 15);
      hist ← store (ai_History info) 0 h;
      tck ← rd data (len - 1);
      Ret (0, mkInfo 0 0 0 0 (ai_T3Len info) (ai_nHistoryBytes info) TS T0 T1 T2 T3 hist tck).

(** ** The format *)

(** The four interface bytes of a group: TA, TB, TC, TD. *)
Definition group : Type := (option Z * option Z * option Z * option Z)%type.

Definition group_bytes (g : group) : list Z :=
  let '(a, b, c, d) := g in omap id [a; b; c; d].
Definition group_TD (g : group) : option Z := let '(_, _, _, d) := g in d.
Definition group_fields (g : group) : list Z :=
  let '(a, b, c, d) := g in map (default 0) [a; b; c; d].
Definition bit (o : option Z) : Z := match o with Some _ => 1 | None => 0 end.
(** The high nibble that announces a group. *)
Definition group_nibble (g : group) : Z :=
  let '(a, b, c, d) := g in bit a + 2 * bit b + 4 * bit c + 8 * bit d.

Record answer := mkAnswer {
  an_TS : Z;
  an_g1 : group;
  an_g2 : group;
  an_g3 : group;
  an_history : list Z
}.

(** The protocol named by TD1. *)
Definition an_T (x : answer) : Z := match group_TD (an_g1 x) with Some t => t mod 16 | None => 0 end.
Definition has_TCK (x : answer) : bool := negb ((an_T x =? 0) || (an_T x =? 15)).

Definition an_T0 (x : answer) : Z := 16 * group_nibble (an_g1 x) + Zlen (an_history x).
Definition an_body (x : answer) : list Z :=
  an_T0 x :: group_bytes (an_g1 x) ++ group_bytes (an_g2 x) ++ group_bytes (an_g3 x) ++ an_history x.

Definition xor_all (l : list Z) : Z := fold_right Z.lxor 0 l.

(** The bytes a card sends. *)
Definition encode (x : answer) : list Z :=
  an_TS x :: an_body x ++ (if has_TCK x then [xor_all (an_body x)] else []).

(** The next group is announced by the TD byte of this one. *)
Definition announces (g g' : group) : Prop :=
  match group_TD g with
  | Some t => t / 16 = group_nibble g'
  | None => g' = (None, None, None, None)
  end.

Record well_formed (x : answer) : Prop := {
  wf_TS : an_TS x = 59 \/ an_TS x = 63;
  wf_g2 : announces (an_g1 x) (an_g2 x);
  wf_g3 : announces (an_g2 x) (an_g3 x);
  wf_hist : Zlen (an_history x) <= 15;
  wf_bytes : Forall is_byte (group_bytes (an_g1 x) ++ group_bytes (an_g2 x) ++ group_bytes (an_g3 x) ++ an_history x)
}.

(** The driver's buffer after some bytes have arrived. *)
Definition received (l : list Z) : scd_atr := mkAtr (l ++ replicate (32 - length l) 0) (Zlen l).

(** ** Announcements *)

Definition absent (o : option Z) : bool := match o with Some _ => false | None => true end.

(** What the bits of a byte say about the group it announces. *)
Lemma nibble_bits t a b c d : is_byte t -> t / 16 = group_nibble (a, b, c, d) ->
  nibble_count t = Zlen (group_bytes (a, b, c, d)) /\ Z.land t 15 = t mod 16 /\
  (Z.land t 16 =? 0) = absent a /\ (Z.land t 32 =? 0) = absent b /\
  (Z.land t 64 =? 0) = absent c /\ (Z.land t 128 =? 0) = absent d.
Proof.
  intros [H0 H1] Hn. pose proof (Z.mod_pos_bound t 16 ltac:(lia)).
  pose proof (Z.div_mod t 16 ltac:(lia)) as Ht. set (h := t mod 16) in *. rewrite Hn in Ht. clear Hn. clearbody h.
  assert (Hh : h = 0 \/ h = 1 \/ h = 2 \/ h = 3 \/ h = 4 \/ h = 5 \/ h = 6 \/ h = 7 \/
               h = 8 \/ h = 9 \/ h = 10 \/ h = 11 \/ h = 12 \/ h = 13 \/ h = 14 \/ h = 15) by lia.
  subst t. destruct a, b, c, d; repeat destruct Hh as [->|Hh]; try subst h; by vm_compute.
Qed.

Lemma group_nibble_range g : 0 <= group_nibble g < 16.
Proof. destruct g as [[[[] []] []] []]; cbn; lia. Qed.

Lemma group_len g : 0 <= Zlen (group_bytes g) <= 4.
Proof. destruct g as [[[[] []] []] []]; vm_compute; split; congruence. Qed.

(** The TD byte of a group is its last byte. *)
Lemma group_last g d (suf : list Z) : group_TD g = Some d -> (group_bytes g ++ suf).[Zlen (group_bytes g) - 1] = d.
Proof. destruct g as [[[[] []] []] []]; cbn; intros [= ->]; reflexivity. Qed.

Lemma group_TD_none g : group_TD g = None -> group_nibble g < 8.
Proof. destruct g as [[[[] []] []] []]; cbn; intros; (done || lia). Qed.

(** ** The check byte *)

Lemma xor_all_snoc l b : xor_all (l ++ [b]) = Z.lxor (xor_all l) b.
Proof.
  induction l as [|x l IH]; cbn [xor_all fold_right app]; [by rewrite Z.lxor_0_r|].
  fold (xor_all (l ++ [b])) (xor_all l). by rewrite IH, Z.lxor_assoc.
Qed.

Lemma crc_spec l : (1 <= length l <= 32)%nat ->
  is_atr_crc_ok (received l) = Ret (if xor_all (tl l) =? 0 then 1 else 0).
Proof.
  intros Hl. unfold is_atr_crc_ok, received. cbn [atr_data atr_length].
  set (data := l ++ replicate (32 - length l) 0).
  destruct (forU_inv (fun j crc => crc = xor_all (firstn (Z.to_nat (j - 1)) (tl l)))
    (fun i crc => b ← rd data i; Ret (Z.lxor crc b)) (Z.to_nat (Zlen l - 1)) 1 0) as (crc & E & Hc).
  - done.
  - intros j t Hj ->. unfold Zlen in *.
    assert (Hdl : Zlen data = 32) by (unfold data, Zlen; rewrite length_app, length_replicate; lia).
    rewrite rd_ok by (rewrite Hdl; lia). rewrite res_bind_Ret. eexists. split; [reflexivity|].
    assert (Hd : data.[j] = (tl l).[j - 1]).
    { unfold data. rewrite at_app by lia. unfold Zlen. destruct (Z.ltb_spec j (Z.of_nat (length l))); [|lia].
      destruct l as [|x l]; [simpl in Hl; lia|]. unfold at_. cbn [tl]. replace (Z.to_nat j) with (S (Z.to_nat (j - 1))) by lia. done. }
    assert (Htl : length (tl l) = (length l - 1)%nat) by (by destruct l; simpl; lia).
    replace (Z.to_nat (j + 1 - 1)) with (S (Z.to_nat (j - 1))) by lia.
    rewrite (take_S_r _ _ (tl l).[j - 1]); [by rewrite xor_all_snoc, Hd|].
    unfold at_. rewrite nth_lookup. destruct (lookup_lt_is_Some_2 (tl l) (Z.to_nat (j - 1))) as [v Hv]; [lia|]. by rewrite Hv.
  - rewrite E, res_bind_Ret, Hc. rewrite firstn_all2; [done|].
    unfold Zlen. destruct l; [simpl in Hl; lia|]. cbn [tl length]. lia.
Qed.

(** ** Where the bytes of an answer are *)

Lemma at_cons x (l : list Z) k : 1 <= k -> (x :: l).[k] = l.[k - 1].
Proof. intros Hk. unfold at_. by replace (Z.to_nat k) with (S (Z.to_nat (k - 1))) by lia. Qed.

Section answer.
Context (x : answer) (Hwf : well_formed x).

Definition b1 : Z := Zlen (group_bytes (an_g1 x)).
Definition b2 : Z := Zlen (group_bytes (an_g2 x)).
Definition b3 : Z := Zlen (group_bytes (an_g3 x)).
Definition bh : Z := Zlen (an_history x).

Lemma encode_length : Zlen (encode x) = 2 + b1 + b2 + b3 + bh + (if has_TCK x then 1 else 0).
Proof.
  unfold encode, an_body, b1, b2, b3, bh, Zlen. cbn [length]. rewrite !length_app. destruct (has_TCK x); simpl length; rewrite !length_app; lia.
Qed.

Lemma sizes : 0 <= b1 <= 4 /\ 0 <= b2 <= 4 /\ 0 <= b3 <= 4 /\ 0 <= bh <= 15.
Proof.
  destruct Hwf. unfold b1, b2, b3, bh. pose proof (Zlen_nonneg (an_history x)).
  pose proof (group_len (an_g1 x)). pose proof (group_len (an_g2 x)). pose proof (group_len (an_g3 x)). lia.
Qed.

Lemma T0_facts : is_byte (an_T0 x) /\ an_T0 x / 16 = group_nibble (an_g1 x) /\ an_T0 x mod 16 = bh.
Proof.
  pose proof sizes. pose proof (group_nibble_range (an_g1 x)). unfold an_T0, is_byte. fold bh. split; [lia|]. split; dlia.
Qed.

Lemma encode_TD1 d : group_TD (an_g1 x) = Some d -> (encode x).[1 + b1] = d.
Proof.
  intros Hd. assert (H1 : 1 <= b1) by (unfold b1; destruct (an_g1 x) as [[[[] []] []] []]; cbn in *; done || (vm_compute; congruence)).
  unfold encode. rewrite at_cons by lia. unfold an_body. cbn [app]. replace (1 + b1 - 1) with b1 by lia.
  rewrite at_cons by lia. rewrite <- !app_assoc. by apply group_last.
Qed.

Lemma encode_TD2 d : group_TD (an_g2 x) = Some d -> (encode x).[1 + b1 + b2] = d.
Proof.
  intros Hd. assert (H1 : 1 <= b2) by (unfold b2; destruct (an_g2 x) as [[[[] []] []] []]; cbn in *; done || (vm_compute; congruence)).
  pose proof sizes. unfold encode. rewrite at_cons by lia. unfold an_body. cbn [app]. rewrite at_cons by lia.
  rewrite <- !app_assoc, at_app by lia. fold b1. destruct (Z.ltb_spec (1 + b1 + b2 - 1 - 1) b1); [lia|].
  replace (1 + b1 + b2 - 1 - 1 - b1) with (b2 - 1) by lia. by apply group_last.
Qed.

Lemma TD1_byte d : group_TD (an_g1 x) = Some d -> is_byte d.
Proof.
  intros Hd. destruct Hwf as [_ _ _ _ Hb]. apply Forall_app in Hb as [Hb _].
  rewrite <- (group_last _ _ [] Hd), app_nil_r. apply at_Forall; [done|].
  destruct (an_g1 x) as [[[[] []] []] []]; cbn in Hd; try done; vm_compute; split; congruence.
Qed.

Lemma TD2_byte d : group_TD (an_g2 x) = Some d -> is_byte d.
Proof.
  intros Hd. destruct Hwf as [_ _ _ _ Hb]. apply Forall_app in Hb as [_ Hb]. apply Forall_app in Hb as [Hb _].
  rewrite <- (group_last _ _ [] Hd), app_nil_r. apply at_Forall; [done|].
  destruct (an_g2 x) as [[[[] []] []] []]; cbn in Hd; try done; vm_compute; split; congruence.
Qed.

Lemma rd_received n i : 0 <= i < n -> n <= Zlen (encode x) ->
  rd (atr_data (received (firstn (Z.to_nat n) (encode x)))) i = Ret (encode x).[i].
Proof.
  intros Hi Hn. unfold received. cbn [atr_data].
  rewrite rd_ok by (rewrite Zlen_app, Zlen_firstn by lia; pose proof (Zlen_nonneg (replicate (32 - length (firstn (Z.to_nat n) (encode x))) 0)); lia).
  f_equal. rewrite at_app, Zlen_firstn by lia. destruct (Z.ltb_spec i n); [|lia]. by rewrite at_firstn by lia.
Qed.

(** [is_atr_complete] on the first [n] bytes. *)
Lemma complete_eval n : 3 <= n <= Zlen (encode x) ->
  is_atr_complete (received (firstn (Z.to_nat n) (encode x))) =
  if n <? 2 + b1 + b2 then Ret 0
  else if has_TCK x then
    if n <? 3 + b1 + b2 + b3 + bh then Ret 0
    else ok ← is_atr_crc_ok (received (firstn (Z.to_nat n) (encode x))); Ret (if ok =? 0 then -1 else 1)
  else Ret (if n <? 2 + b1 + b2 + b3 + bh then 0 else 1).
Proof.
  intros Hn. pose proof sizes as (S1 & S2 & S3 & S4). destruct T0_facts as (HTb & HTn & HTm).
  set (rc := received (firstn (Z.to_nat n) (encode x))).
  assert (Hlen : atr_length rc = n) by (unfold rc, received; cbn [atr_length]; by rewrite Zlen_firstn by lia).
  assert (Hrd : forall i, 0 <= i < n -> rd (atr_data rc) i = Ret (encode x).[i]) by (intros; apply rd_received; lia).
  unfold is_atr_complete. rewrite Hlen. destruct (Z.ltb_spec n 3); [lia|].
  rewrite (Hrd 0), (Hrd 1), !res_bind_Ret by lia.
  change ((encode x).[0]) with (an_TS x). change ((encode x).[1]) with (an_T0 x).
  replace (negb (an_TS x =? 59) && negb (an_TS x =? 63)) with false by (destruct Hwf as [[-> | ->] _ _ _ _]; done).
  destruct (an_g1 x) as [[[a1 c1] e1] d1] eqn:G1.
  destruct (nibble_bits (an_T0 x) a1 c1 e1 d1 HTb HTn) as (N1 & N2 & _ & _ & _ & N3).
  rewrite N1, N2, HTm, N3. assert (HB1 : Zlen (group_bytes (a1, c1, e1, d1)) = b1) by (unfold b1; by rewrite G1). rewrite HB1.
  destruct (Z.ltb_spec n (2 + b1)). { destruct (Z.ltb_spec n (2 + b1 + b2)); [done|lia]. }
  destruct Hwf as [_ W2 W3 _ _]. unfold announces in W2, W3. rewrite G1 in W2. cbn [group_TD] in W2.
  destruct d1 as [d1|]; cbn [absent negb].
  - assert (HTD1 : group_TD (an_g1 x) = Some d1) by (by rewrite G1).
    rewrite (Hrd (1 + b1)), res_bind_Ret, (encode_TD1 d1 HTD1) by lia. pose proof (TD1_byte d1 HTD1) as Hd1.
    destruct (an_g2 x) as [[[a2 c2] e2] d2] eqn:G2.
    destruct (nibble_bits d1 a2 c2 e2 d2 Hd1 W2) as (P1 & P2 & _ & _ & _ & P3). rewrite P1, P2, P3.
    assert (HB2 : Zlen (group_bytes (a2, c2, e2, d2)) = b2) by (unfold b2; by rewrite G2). rewrite HB2.
    destruct (Z.ltb_spec n (2 + b1 + b2)); [done|].
    assert (HT : an_T x = d1 mod 16) by (unfold an_T; by rewrite HTD1). unfold has_TCK. rewrite HT.
    cbn [group_TD] in W3. destruct d2 as [d2|]; cbn [absent negb].
    + assert (HTD2 : group_TD (an_g2 x) = Some d2) by (by rewrite G2).
      rewrite (Hrd (1 + b1 + b2)), res_bind_Ret, (encode_TD2 d2 HTD2) by lia. pose proof (TD2_byte d2 HTD2) as Hd2.
      destruct (an_g3 x) as [[[a3 c3] e3] d3] eqn:G3.
      destruct (nibble_bits d2 a3 c3 e3 d3 Hd2 W3) as (Q1 & _). rewrite Q1.
      assert (HB3 : Zlen (group_bytes (a3, c3, e3, d3)) = b3) by (unfold b3; by rewrite G3). rewrite HB3.
      by destruct (_ || _).
    + assert (HB3 : b3 = 0) by (unfold b3; by rewrite W3). rewrite HB3. by destruct (_ || _).
  - assert (HB2 : b2 = 0) by (unfold b2; by rewrite W2). rewrite HB2, W2 in *. cbn [group_TD] in W3.
    assert (HB3 : b3 = 0) by (unfold b3; by rewrite W3). rewrite HB3.
    assert (HT : an_T x = 0) by (unfold an_T; by rewrite G1). unfold has_TCK. rewrite HT. cbn [Z.eqb orb negb].
    rewrite res_bind_Ret, Z.add_0_r. destruct (Z.ltb_spec n (2 + b1)); [lia|]. done.
Qed.

Lemma xor_TCK : has_TCK x = true -> xor_all (tl (encode x)) = 0.
Proof.
  intros Hk. unfold encode. rewrite Hk. cbn [tl]. rewrite xor_all_snoc. apply Z.lxor_nilpotent.
Qed.
End answer.

(** ** Taking an answer apart *)

(** The fields of a group: its bytes, and the old value where a byte is
    absent. *)
Definition group_over (g : group) (old : list Z) : list Z :=
  let '(a, b, c, d) := g in [default old.[0] a; default old.[1] b; default old.[2] c; default old.[3] d].

Lemma group_over_zero g : group_over g [0; 0; 0; 0] = group_fields g.
Proof. by destruct g as [[[[] []] []] []]. Qed.

(** One round of the loop. *)
Lemma take_byte_spec ctl data i T id o : (Z.land ctl (Z.shiftl 16 i) =? 0) = absent o -> 0 <= i < Zlen T -> 0 <= id <= 200 ->
  (forall b, o = Some b -> rd data id = Ret b) ->
  take_byte ctl data i (T, id) = Ret (match o with Some b => <[Z.to_nat i := b]> T | None => T end, id + bit o).
Proof.
  intros Hb Hi Hid Hrd. unfold take_byte. rewrite Hb. destruct o as [b|]; cbn [absent bit].
  - rewrite (Hrd b eq_refl), res_bind_Ret, wr_ok, res_bind_Ret by done. unfold u8. by rewrite Z.mod_small by lia.
  - by rewrite Z.add_0_r.
Qed.

Lemma take_T_spec ctl data T id g : is_byte ctl -> ctl / 16 = group_nibble g -> Zlen T = 4 -> 0 <= id <= 100 ->
  (forall k, 0 <= k < Zlen (group_bytes g) -> rd data (id + k) = Ret (group_bytes g).[k]) ->
  take_T ctl data T id = Ret (group_over g T, id + Zlen (group_bytes g)).
Proof.
  intros Hc Hn HT Hid Hrd. destruct g as [[[a b] c] d].
  destruct (nibble_bits ctl a b c d Hc Hn) as (_ & _ & B0 & B1 & B2 & B3).
  destruct T as [|t0 [|t1 [|t2 [|t3 [|]]]]]; unfold Zlen in HT; simpl in HT; try lia.
  assert (Hbit : forall o, 0 <= bit o <= 1) by (intros []; cbn; lia).
  pose proof (Hbit a). pose proof (Hbit b). pose proof (Hbit c).
  assert (Hlen : Zlen (group_bytes (a, b, c, d)) = bit a + bit b + bit c + bit d) by (by destruct a, b, c, d).
  assert (Ra : forall y, a = Some y -> rd data id = Ret y).
  { intros y ->. specialize (Hrd 0). rewrite Z.add_0_r in Hrd. apply Hrd. rewrite Hlen. cbn [bit] in *. pose proof (Hbit d). lia. }
  assert (Rb : forall y, b = Some y -> rd data (id + bit a) = Ret y).
  { intros y ->. rewrite Hrd by (rewrite Hlen; cbn [bit] in *; pose proof (Hbit d); lia). by destruct a. }
  assert (Rc : forall y, c = Some y -> rd data (id + bit a + bit b) = Ret y).
  { intros y ->. rewrite <- Z.add_assoc, Hrd by (rewrite Hlen; cbn [bit] in *; pose proof (Hbit d); lia). by destruct a, b. }
  assert (Rd : forall y, d = Some y -> rd data (id + bit a + bit b + bit c) = Ret y).
  { intros y ->. rewrite <- !Z.add_assoc, Hrd by (rewrite Hlen; cbn [bit] in *; lia). by destruct a, b, c. }
  unfold take_T. cbn [forU].
  rewrite (take_byte_spec ctl data 0 _ id a B0), res_bind_Ret by (done || (vm_compute; split; congruence) || lia).
  rewrite (take_byte_spec ctl data 1 _ _ b B1), res_bind_Ret by (done || lia || (destruct a; vm_compute; split; congruence)).
  rewrite (take_byte_spec ctl data 2 _ _ c B2), res_bind_Ret by (done || lia || (destruct a, b; vm_compute; split; congruence)).
  rewrite (take_byte_spec ctl data 3 _ _ d B3), res_bind_Ret by (done || lia || (destruct a, b, c; vm_compute; split; congruence)).
  f_equal. f_equal; [by destruct a, b, c, d|rewrite Hlen; lia].
Qed.

Section decompress.
Context (x : answer) (Hwf : well_formed x).

Definition tck_bytes : list Z := if has_TCK x then [xor_all (an_body x)] else [].

Lemma encode_split : encode x = [an_TS x; an_T0 x] ++ group_bytes (an_g1 x) ++ group_bytes (an_g2 x) ++
  group_bytes (an_g3 x) ++ an_history x ++ tck_bytes.
Proof. unfold encode, an_body, tck_bytes. cbn [app]. by rewrite <- !app_assoc. Qed.

Lemma at_mid (a b c : list Z) k : 0 <= k < Zlen b -> (a ++ b ++ c).[Zlen a + k] = b.[k].
Proof.
  intros Hk. pose proof (Zlen_nonneg a). rewrite at_app by lia. destruct (Z.ltb_spec (Zlen a + k) (Zlen a)); [lia|].
  replace (Zlen a + k - Zlen a) with k by lia. rewrite at_app by lia. by destruct (Z.ltb_spec k (Zlen b)); [|lia].
Qed.

Lemma encode_g1 k : 0 <= k < b1 x -> (encode x).[2 + k] = (group_bytes (an_g1 x)).[k].
Proof. intros Hk. rewrite encode_split. by apply (at_mid [an_TS x; an_T0 x]). Qed.

Lemma encode_g2 k : 0 <= k < b2 x -> (encode x).[2 + b1 x + k] = (group_bytes (an_g2 x)).[k].
Proof.
  intros Hk. pose proof (at_mid ([an_TS x; an_T0 x] ++ group_bytes (an_g1 x)) (group_bytes (an_g2 x))
    (group_bytes (an_g3 x) ++ an_history x ++ tck_bytes) k Hk) as H.
  rewrite Zlen_app, <- app_assoc in H. rewrite encode_split. exact H.
Qed.

Lemma encode_g3 k : 0 <= k < b3 x -> (encode x).[2 + b1 x + b2 x + k] = (group_bytes (an_g3 x)).[k].
Proof.
  intros Hk. pose proof (at_mid ([an_TS x; an_T0 x] ++ group_bytes (an_g1 x) ++ group_bytes (an_g2 x)) (group_bytes (an_g3 x))
    (an_history x ++ tck_bytes) k Hk) as H.
  rewrite !Zlen_app, <- !app_assoc in H. rewrite encode_split, <- H. f_equal.
  unfold b1, b2. change (Zlen [an_TS x; an_T0 x]) with 2. lia.
Qed.

Lemma load_mid (a b c : list Z) : load (a ++ b ++ c) (Zlen a) (Zlen b) = Ret b.
Proof.
  pose proof (Zlen_nonneg a). pose proof (Zlen_nonneg b). pose proof (Zlen_nonneg c).
  rewrite load_ok by (rewrite ?Zlen_app; lia). unfold Zlen. rewrite !Nat2Z.id.
  by rewrite drop_app_length, take_app_length.
Qed.

Lemma encode_history (c : list Z) :
  load (encode x ++ c) (2 + b1 x + b2 x + b3 x) (bh x) = Ret (an_history x).
Proof.
  rewrite <- (load_mid ([an_TS x; an_T0 x] ++ group_bytes (an_g1 x) ++ group_bytes (an_g2 x) ++ group_bytes (an_g3 x))
    (an_history x) (tck_bytes ++ c)). rewrite encode_split, <- !app_assoc. f_equal.
  rewrite !Zlen_app. unfold b1, b2, b3. change (Zlen [an_TS x; an_T0 x]) with 2. lia.
Qed.

(** An announced group, or none. *)
Lemma announce_ctl g g' : announces g g' -> (forall d, group_TD g = Some d -> is_byte d) ->
  is_byte (default 0 (group_TD g)) /\ default 0 (group_TD g) / 16 = group_nibble g'.
Proof.
  unfold announces. destruct (group_TD g) as [d|]; intros H Hb; cbn [default]; [by split; [apply Hb|]|].
  subst g'. split; [unfold is_byte; lia|done].
Qed.

Lemma fields_TD g : rd (group_fields g) 3 = Ret (default 0 (group_TD g)).
Proof. by destruct g as [[[[] []] []] []]. Qed.

Definition fresh_info (info : scd_atr_info) : Prop :=
  ai_T1 info = [0; 0; 0; 0] /\ ai_T2 info = [0; 0; 0; 0] /\ ai_T3 info = [0; 0; 0; 0] /\ Zlen (ai_History info) = 16.

Lemma encode_at_most : Zlen (encode x) <= 30.
Proof. pose proof (sizes x Hwf). rewrite encode_length. destruct (has_TCK x); lia. Qed.

Lemma complete_whole : 3 <= Zlen (encode x) -> is_atr_complete (received (encode x)) = Ret 1.
Proof.
  intros Hl. pose proof (complete_eval x Hwf (Zlen (encode x)) ltac:(lia)) as E. pose proof encode_at_most.
  assert (Hf : firstn (Z.to_nat (Zlen (encode x))) (encode x) = encode x) by (unfold Zlen; by rewrite Nat2Z.id, firstn_all).
  rewrite Hf in E. rewrite E, encode_length. pose proof (sizes x Hwf).
  destruct (Z.ltb_spec (2 + b1 x + b2 x + b3 x + bh x + (if has_TCK x then 1 else 0)) (2 + b1 x + b2 x)); [destruct (has_TCK x); lia|].
  destruct (has_TCK x) eqn:Hk.
  - destruct (Z.ltb_spec (2 + b1 x + b2 x + b3 x + bh x + 1) (3 + b1 x + b2 x + b3 x + bh x)); [lia|].
    rewrite crc_spec by (unfold Zlen in *; lia). rewrite res_bind_Ret, (xor_TCK x Hk). done.
  - destruct (Z.ltb_spec (2 + b1 x + b2 x + b3 x + bh x + 0) (2 + b1 x + b2 x + b3 x + bh x)); [lia|done].
Qed.

Lemma decompress_spec info : fresh_info info -> 3 <= Zlen (encode x) ->
  decompress_atr (received (encode x)) info =
  Ret (0, mkInfo 0 0 0 0 (ai_T3Len info) (ai_nHistoryBytes info) (an_TS x) (an_T0 x)
            (group_fields (an_g1 x)) (group_fields (an_g2 x)) (group_fields (an_g3 x))
            (an_history x ++ skipn (length (an_history x)) (ai_History info))
            (encode x).[Zlen (encode x) - 1]).
Proof.
  intros (F1 & F2 & F3 & F4) Hl. unfold decompress_atr. rewrite complete_whole, res_bind_Ret by done. cbn [Z.eqb].
  pose proof (sizes x Hwf) as (S1 & S2 & S3 & S4). destruct (T0_facts x Hwf) as (HTb & HTn & HTm). pose proof encode_at_most as H30.
  pose proof (encode_length x) as Hlen.
  assert (Hrd : forall i, 0 <= i < Zlen (encode x) -> rd (atr_data (received (encode x))) i = Ret (encode x).[i]).
  { intros i Hi. pose proof (rd_received x (Zlen (encode x)) i Hi ltac:(lia)) as Hr.
    unfold Zlen in Hr at 1. rewrite Nat2Z.id, firstn_all in Hr. done. }
  rewrite (Hrd 0), (Hrd 1), !res_bind_Ret by lia.
  change ((encode x).[0]) with (an_TS x). change ((encode x).[1]) with (an_T0 x).
  assert (Htck : 0 <= (if has_TCK x then 1 else 0)) by (destruct (has_TCK x); lia).
  rewrite (take_T_spec (an_T0 x) _ _ 2 (an_g1 x) HTb HTn); [|by rewrite F1|lia|].
  2: { intros k Hk. rewrite Hrd by (fold (b1 x) in Hk; lia). by rewrite encode_g1. }
  rewrite res_bind_Ret, F1, group_over_zero, fields_TD, res_bind_Ret. fold (b1 x).
  destruct (announce_ctl _ _ (wf_g2 x Hwf) (TD1_byte x Hwf)) as [C1 C2].
  rewrite (take_T_spec _ _ _ (2 + b1 x) (an_g2 x) C1 C2); [|by rewrite F2|lia|].
  2: { intros k Hk. rewrite Hrd by (fold (b2 x) in Hk; lia). by rewrite encode_g2. }
  rewrite res_bind_Ret, F2, group_over_zero, fields_TD, res_bind_Ret. fold (b2 x).
  destruct (announce_ctl _ _ (wf_g3 x Hwf) (TD2_byte x Hwf)) as [C3 C4].
  rewrite (take_T_spec _ _ _ (2 + b1 x + b2 x) (an_g3 x) C3 C4); [|by rewrite F3|lia|].
  2: { intros k Hk. rewrite Hrd by (fold (b3 x) in Hk; lia). by rewrite encode_g3. }
  rewrite res_bind_Ret, F3, group_over_zero. fold (b3 x).
  assert (HT : Z.land (default 0 (group_TD (an_g1 x))) 15 = an_T x).
  { unfold an_T. destruct (group_TD (an_g1 x)) as [d|] eqn:Ed; [|done]. cbn [default].
    change 15 with (Z.ones 4). by rewrite Z.land_ones by lia. }
  assert (H15 : Z.land (an_T0 x) 15 = bh x) by (change 15 with (Z.ones 4); by rewrite Z.land_ones by lia).
  rewrite HT, H15. change (atr_length (received (encode x))) with (Zlen (encode x)).
  assert (Hextra : (if (an_T x =? 0) || (an_T x =? 15) then Zlen (encode x) - (2 + b1 x + b2 x + b3 x)
                    else Zlen (encode x) - (2 + b1 x + b2 x + b3 x) - 1) = bh x).
  { rewrite Hlen. unfold has_TCK. destruct (_ || _); cbn [negb]; lia. }
  rewrite Hextra, Z.eqb_refl. cbn [negb].
  assert (Hh : load (atr_data (received (encode x))) (2 + b1 x + b2 x + b3 x) (bh x) = Ret (an_history x))
    by apply encode_history.
  rewrite Hh, res_bind_Ret.
  rewrite store_ok by (fold (bh x); lia). rewrite res_bind_Ret. rewrite Hrd, res_bind_Ret by lia.
  change (Z.to_nat 0) with 0%nat. rewrite Nat.add_0_l, firstn_O. done.
Qed.
End decompress.

(** A prefix of an answer is complete when it is the whole. *)
Lemma complete_prefix x n :
  well_formed x -> 3 <= Zlen (encode x) -> 0 <= n <= Zlen (encode x) ->
  is_atr_complete (received (firstn (Z.to_nat n) (encode x))) = Ret (if n =? Zlen (encode x) then 1 else 0).
Proof.
  intros Hwf Hl Hn. destruct (Z.eqb_spec n (Zlen (encode x))) as [->|Hne].
  - unfold Zlen at 1. rewrite Nat2Z.id, firstn_all. by apply complete_whole.
  - destruct (Z.lt_ge_cases n 3) as [H3|H3].
    + unfold is_atr_complete, received. cbn [atr_length]. rewrite Zlen_firstn by lia. by destruct (Z.ltb_spec n 3); [|lia].
    + rewrite complete_eval by (done || lia). rewrite encode_length in *. pose proof (sizes x Hwf).
      destruct (has_TCK x); repeat (zcase; try done).
Qed.

(** ** Properties *)

(** the driver stops exactly at the end of an answer.  For every well-formed
    answer of at least three bytes, [is_atr_complete] says incomplete after each
    proper prefix and complete after the last byte, whatever interface bytes,
    history and check byte the answer has. *)
Theorem atr_complete_exact x n :
  well_formed x -> 3 <= Zlen (encode x) -> 0 <= n <= Zlen (encode x) ->
  is_atr_complete (received (firstn (Z.to_nat n) (encode x))) = Ret (if n =? Zlen (encode x) then 1 else 0).
Proof. apply complete_prefix. Qed.

(** TA1, TC1 and TD1, then TB2, five bytes of history, T=1 with a check byte. *)
Definition demo_answer : answer :=
  mkAnswer 59 (Some 17, None, Some 2, Some 33) (None, Some 69, None, None) (None, None, None, None) [72; 69; 76; 76; 79].

Lemma demo_answer_wf : well_formed demo_answer.
Proof.
  split; [by left|done|done|vm_compute; discriminate|]. cbn. repeat constructor; unfold is_byte; lia.
Qed.

Lemma atr_complete_exact_witness :
  is_atr_complete (received (firstn (Z.to_nat 11) (encode demo_answer))) = Ret 0 /\
  is_atr_complete (received (firstn (Z.to_nat 12) (encode demo_answer))) = Ret 1.
Proof.
  split.
  - apply (atr_complete_exact demo_answer 11); [apply demo_answer_wf|vm_compute; discriminate|vm_compute; split; discriminate].
  - apply (atr_complete_exact demo_answer 12); [apply demo_answer_wf|vm_compute; discriminate|vm_compute; split; discriminate].
Defined.

(** C37: round trip.  Taking the bytes of a well-formed answer of three bytes or more
    (the shortest one, of two, is taken for incomplete: [atr_two_bytes]) apart into a
    cleared structure (the code does not clear it: [atr_stale_info]) returns 0 and
    gives back the initial byte, the format
    byte, the interface bytes of all three groups (0 for those that are absent)
    and the history. *)
Theorem atr_roundtrip x info :
  well_formed x -> 3 <= Zlen (encode x) -> fresh_info info ->
  exists info', decompress_atr (received (encode x)) info = Ret (0, info') /\
    ai_TS info' = an_TS x /\ ai_T0 info' = an_T0 x /\
    ai_T1 info' = group_fields (an_g1 x) /\ ai_T2 info' = group_fields (an_g2 x) /\ ai_T3 info' = group_fields (an_g3 x) /\
    firstn (length (an_history x)) (ai_History info') = an_history x /\
    (has_TCK x = true -> ai_TCK info' = xor_all (an_body x)).
Proof.
  intros Hwf Hl Hf. eexists. split; [by apply decompress_spec|]. cbn [ai_TS ai_T0 ai_T1 ai_T2 ai_T3 ai_History ai_TCK].
  repeat (split; [done|]). split; [by rewrite take_app_length|]. intros Hk.
  unfold encode. rewrite Hk, app_comm_cons, Zlen_app. change (Zlen [xor_all (an_body x)]) with 1.
  pose proof (Zlen_nonneg (an_TS x :: an_body x)).
  rewrite at_app by lia. destruct (Z.ltb_spec (Zlen (an_TS x :: an_body x) + 1 - 1) (Zlen (an_TS x :: an_body x))); [lia|].
  by replace (Zlen (an_TS x :: an_body x) + 1 - 1 - Zlen (an_TS x :: an_body x)) with 0 by lia.
Qed.

Definition zero_info : scd_atr_info :=
  mkInfo 0 0 0 0 0 0 0 0 [0; 0; 0; 0] [0; 0; 0; 0] [0; 0; 0; 0] (replicate 16 0) 0.

Lemma atr_roundtrip_witness :
  exists info', decompress_atr (received (encode demo_answer)) zero_info = Ret (0, info') /\
    ai_TS info' = 59 /\ ai_T0 info' = 213 /\ ai_T1 info' = [17; 0; 2; 33] /\ ai_T2 info' = [0; 69; 0; 0] /\
    ai_T3 info' = [0; 0; 0; 0] /\ firstn 5 (ai_History info') = [72; 69; 76; 76; 79] /\
    (has_TCK demo_answer = true -> ai_TCK info' = xor_all (an_body demo_answer)).
Proof.
  apply (atr_roundtrip demo_answer zero_info).
  - apply demo_answer_wf.
  - vm_compute. discriminate.
  - by repeat split.
Defined.

(** the structure is not cleared.  [decompress_atr] clears the size of a
    pointer, so the TD1 byte of an earlier card is used for a card that has
    none: the same answer that is accepted with a cleared structure is rejected
    with the structure of the card before. *)
Theorem atr_stale_info :
  exists info1, decompress_atr (received (encode demo_answer)) zero_info = Ret (0, info1) /\
  (exists info2, decompress_atr (received [59; 2; 65; 66]) zero_info = Ret (0, info2)) /\
  (exists info3, decompress_atr (received [59; 2; 65; 66]) info1 = Ret (-1, info3)).
Proof. eexists. split; [vm_compute; reflexivity|]. split; eexists; vm_compute; reflexivity. Qed.

(** The shortest answer, two bytes, is never found complete. *)
Lemma atr_two_bytes T : is_atr_complete (received [59; T]) = Ret 0.
Proof. reflexivity. Qed.

(** A wrong check byte is noticed by [is_atr_complete] but not reported by
    [decompress_atr]. *)
Lemma atr_crc_not_reported :
  let bad := firstn 11 (encode demo_answer) ++ [0] in
  is_atr_complete (received bad) = Ret (-1) /\ exists info, decompress_atr (received bad) zero_info = Ret (0, info).
Proof. split; [vm_compute; reflexivity|]. eexists. vm_compute. reflexivity. Qed.
