(* ===== verification/Cec.v ===== *)
(** * CEC: [drivers/cec/adapter/cec_mars.c], [drivers/cec/core/cec_dev.c]

    The driver of the HDMI control bus.  User programs send and receive
    messages through a device file; the adapter keeps three queues of message
    buffers (to send, received, free), and two state machines, for sending and
    for receiving, that run in the interrupt handler and in deferred work.

    The controller is a parameter: it answers every register read as it likes
    and may change at every access.  The state holds the controller, the list
    heads and buffers in memory, the fields of [mars_cec], and a trace, newest
    event first, of what the driver did to its surroundings. *)
From stdpp Require Import base tactics list numbers option gmap.
From Stdlib Require Import ZArith Lia.
From S2P Require Import Prelude Driver Buff ScBuff Queue.

(** ** The controller *)

(** The controller has some state; a read gives a value and may change it. *)
Class CecHw := {
  hst : Type;
  hread : hst -> Z -> Z * hst;
  hwrite : hst -> Z -> Z -> hst
}.

Definition MIS_ISR : Z := 0xb801b00c.
Definition MIS_CEC_CR0 : Z := 0xb801B900.
Definition MIS_CEC_CR2 : Z := 0xb801B908.
Definition MIS_CEC_RT1 : Z := 0xb801B914.
Definition MIS_CEC_RX0 : Z := 0xb801B918.
Definition MIS_CEC_RX1 : Z := 0xb801B91C.
Definition MIS_CEC_TX0 : Z := 0xb801B920.
Definition MIS_CEC_TX1 : Z := 0xb801B924.
Definition MIS_CEC_TX_FIFO : Z := 0xb801B928.
Definition MIS_CEC_RX_FIFO : Z := 0xb801B92C.
Definition MIS_CEC_RX_START0 : Z := 0xb801B930.
Definition MIS_CEC_RX_START1 : Z := 0xb801B934.
Definition MIS_CEC_TX_START0 : Z := 0xb801B940.
Definition MIS_CEC_TX_START1 : Z := 0xb801B944.
Definition MIS_CEC_TX_DATA0 : Z := 0xb801B948.
Definition MIS_CEC_TX_DATA1 : Z := 0xb801B94C.
Definition MIS_CEC_TX_DATA2 : Z := 0xb801B950.

Definition CEC_RX_INT : Z := 0x800000.
Definition CEC_TX_INT : Z := 0x400000.
Definition CEC_MODE_NORMAL : Z := 0x40.
(** The enable, reset, continuous and interrupt bits of RX0 and TX0, and the
    end-of-message and interrupt bits of RX1 and TX1. *)
Definition RX_EN : Z := 0x80.
Definition RX_RST : Z := 0x40.
Definition RX_INT_EN : Z := 0x10.
Definition RX_EOM : Z := 0x80.
Definition RX_INT : Z := 0x40.
Definition TX_EN : Z := 0x80.
Definition TX_RST : Z := 0x40.
Definition TX_CONTINUOUS : Z := 0x20.
Definition TX_INT_EN : Z := 0x10.
Definition TX_EOM : Z := 0x80.
Definition TX_INT : Z := 0x40.

Definition XMIT_FAIL : Z := 1.
Definition XMIT_TIMEOUT : Z := 2.
Definition XMIT_ABORT : Z := 3.
Definition NONBLOCK : Z := 0x80.
Definition RX_RING_LENGTH : nat := 8.

(** ** The state *)

Inductive cec_fsm := IDEL | XMIT | RCV.

#[export] Instance cec_fsm_eq_dec : EqDecision cec_fsm.
Proof. solve_decision. Defined.

Inductive work := TxWork | RxWork | TxTimeout.

Inductive event :=
| EWrite (reg val : Z)           (* a register was written *)
| ESubmit (cmb : Z) (msg : list Z) (* a message was put on the send queue *)
| EDone (cmb status : Z)         (* the driver is done with a message *)
| ESchedule (w : work)
| ECancel
| EReceived (cmb : Z).           (* a waiting reader was woken *)

(** [cmb] is an address, 0 is NULL. *)
Record mars_cec_xmit := mkXmit { x_enable : bool; x_state : cec_fsm; x_cmb : Z; x_timeout : Z }.
Record mars_cec_rcv := mkRcv { r_enable : bool; r_state : cec_fsm; r_cmb : Z; r_complete : Z }.

Inductive qsel := TXQ | RXQ | FREEQ.

#[export] Instance qsel_eq_dec : EqDecision qsel.
Proof. solve_decision. Defined.

Section cec.
Context {cec_hw : CecHw}.

(** [m_list], [m_bufs]: the list heads and the buffers in memory. *)
Record mars_cec := mkCec {
  regs : hst;
  trace : list event;
  m_list : lists;
  m_bufs : gmap Z sc_buff;
  s_init : bool;
  s_enable : bool;
  xmit : mars_cec_xmit;
  rcv : mars_cec_rcv;
  tx_queue : queue;
  rx_queue : queue;
  rx_free_queue : queue;
  lock : bool
}.

Definition get_q (s : mars_cec) (k : qsel) : queue :=
  match k with TXQ => tx_queue s | RXQ => rx_queue s | FREEQ => rx_free_queue s end.

Definition set_hw (s : mars_cec) (h : hst) (t : list event) : mars_cec :=
  mkCec h t (m_list s) (m_bufs s) (s_init s) (s_enable s) (xmit s) (rcv s) (tx_queue s) (rx_queue s) (rx_free_queue s) (lock s).
Definition set_list (s : mars_cec) (l : lists) : mars_cec :=
  mkCec (regs s) (trace s) l (m_bufs s) (s_init s) (s_enable s) (xmit s) (rcv s) (tx_queue s) (rx_queue s) (rx_free_queue s) (lock s).
Definition set_bufs (s : mars_cec) (b : gmap Z sc_buff) : mars_cec :=
  mkCec (regs s) (trace s) (m_list s) b (s_init s) (s_enable s) (xmit s) (rcv s) (tx_queue s) (rx_queue s) (rx_free_queue s) (lock s).
Definition set_init (s : mars_cec) (b : bool) : mars_cec :=
  mkCec (regs s) (trace s) (m_list s) (m_bufs s) b (s_enable s) (xmit s) (rcv s) (tx_queue s) (rx_queue s) (rx_free_queue s) (lock s).
Definition set_enable (s : mars_cec) (b : bool) : mars_cec :=
  mkCec (regs s) (trace s) (m_list s) (m_bufs s) (s_init s) b (xmit s) (rcv s) (tx_queue s) (rx_queue s) (rx_free_queue s) (lock s).
Definition set_xmit (s : mars_cec) (x : mars_cec_xmit) : mars_cec :=
  mkCec (regs s) (trace s) (m_list s) (m_bufs s) (s_init s) (s_enable s) x (rcv s) (tx_queue s) (rx_queue s) (rx_free_queue s) (lock s).
Definition set_rcv (s : mars_cec) (r : mars_cec_rcv) : mars_cec :=
  mkCec (regs s) (trace s) (m_list s) (m_bufs s) (s_init s) (s_enable s) (xmit s) r (tx_queue s) (rx_queue s) (rx_free_queue s) (lock s).
Definition set_lock (s : mars_cec) (b : bool) : mars_cec :=
  mkCec (regs s) (trace s) (m_list s) (m_bufs s) (s_init s) (s_enable s) (xmit s) (rcv s) (tx_queue s) (rx_queue s) (rx_free_queue s) b.
Definition set_q (s : mars_cec) (k : qsel) (q : queue) : mars_cec :=
  mkCec (regs s) (trace s) (m_list s) (m_bufs s) (s_init s) (s_enable s) (xmit s) (rcv s)
    (if decide (k = TXQ) then q else tx_queue s) (if decide (k = RXQ) then q else rx_queue s)
    (if decide (k = FREEQ) then q else rx_free_queue s) (lock s).

Abbreviation C := (Drv mars_cec).

Definition emit (e : event) : C unit := modify (fun s => set_hw s (regs s) (e :: trace s)).

Definition read_reg32 (a : Z) : C Z := fun s => let '(v, h) := hread (regs s) a in Ret (u32 v, set_hw s h (trace s)).
Definition write_reg32 (a v : Z) : C unit :=
  modify (fun s => set_hw s (hwrite (regs s) a v) (EWrite a v :: trace s)).

(** The buffer a pointer leads to. *)
Definition get_cmb (a : Z) : C sc_buff := fun s =>
  match m_bufs s !! a with Some b => Ret (b, s) | None => Fault end.
Definition put_cmb (a : Z) (b : sc_buff) : C unit := modify (fun s => set_bufs s (<[a := b]> (m_bufs s))).

(** No result: a loop without fuel, or a thread that goes on sleeping. *)
Definition sleep {A} : C A := fun _ => OutOfFuel.

Variable smp : bool.
Variable sizeof_cm_buff : Z.
Variable HZ : Z.

Definition TX_TIMEOUT : Z := Z.shiftl HZ 2.

Definition lock_cec : C unit := fun s => if smp && lock s then Fault else Ret (tt, set_lock s true).
Definition unlock_cec : C unit := modify (fun s => set_lock s false).

Definition q_tail (k : qsel) (a : Z) : C unit := fun s =>
  '(l, q) ← cmb_queue_tail smp (m_list s) (get_q s k) a;
  Ret (tt, set_list (set_q s k q) l).
Definition q_dequeue (k : qsel) : C Z := fun s =>
  '(a, l, q) ← cmb_dequeue smp (m_list s) (get_q s k);
  Ret (a, set_list (set_q s k q) l).
Definition q_init (k : qsel) : C unit := fun s =>
  '(l, q) ← cmb_queue_head_init (m_list s) (get_q s k);
  Ret (tt, set_list (set_q s k q) l).

(** [al] is what [kmalloc] answers; 0 is NULL. *)
Definition new_cmb (al : option (Z * list Z)) (size : Z) : C Z := fun s =>
  match alloc_cmb sizeof_cm_buff (fun _ => al) size, al with
  | Some b, Some (p, _) =>
      l ← INIT_LIST_HEAD (mkLists (<[p := 0]> (nx (m_list s))) (<[p := 0]> (pv (m_list s)))) p;
      Ret (p, set_bufs (set_list s l) (<[p := b]> (m_bufs s)))
  | _, _ => Ret (0, s)
  end.

(** A buffer that is not there cannot be released. *)
Definition free_cmb (a : Z) : C unit := fun s =>
  if a =? 0 then Ret (tt, s)
  else match m_bufs s !! a with
       | Some _ => Ret (tt, set_bufs (set_list s (kfree_cmb (m_list s) a)) (delete a (m_bufs s)))
       | None => Fault
       end.

(** ** The FIFOs *)

(** [for (i=0; i<len; i++) *(ptr++) = read_reg32(MIS_CEC_RX_FIFO) & 0xFF;] *)
Fixpoint rx_bytes (n : nat) (ptr : Z) (a : Z) : C unit :=
  match n with
  | O => mret tt
  | S n' =>
      v ← read_reg32 MIS_CEC_RX_FIFO;
      b ← get_cmb a;
      m ← lift_res (bstore (buf b) ptr [Z.land v 0xFF]);
      _ ← put_cmb a (set_buf b m);
      rx_bytes n' (ptr + 1) a
  end.

Definition _read_rx_fifo (a : Z) : C Z :=
  v ← read_reg32 MIS_CEC_RX1;
  let len := Z.land v 0x0F in
  b ← get_cmb a;
  if cmb_tailroom b >=? len then
    let '(ptr, b) := cmb_put b len in
    _ ← put_cmb a b;
    _ ← rx_bytes (Z.to_nat len) ptr a;
    mret len
  else mret (-12).

(** [for (i=0; i<len; i++) write_reg32(MIS_CEC_TX_FIFO, *(ptr++));] *)
Fixpoint tx_bytes (n : nat) (ptr : Z) (a : Z) : C unit :=
  match n with
  | O => mret tt
  | S n' =>
      b ← get_cmb a;
      x ← lift_res (bload (buf b) ptr 1);
      _ ← write_reg32 MIS_CEC_TX_FIFO x.[0];
      tx_bytes n' (ptr + 1) a
  end.

Definition _write_tx_fifo (a : Z) : C Z :=
  v ← read_reg32 MIS_CEC_TX1;
  let remain := 0x0F - u8 (Z.land v 0x0F) in
  b ← get_cmb a;
  let n := if len (buf b) >? remain then remain else len (buf b) in
  _ ← tx_bytes (Z.to_nat n) (data (buf b)) a;
  _ ← put_cmb a (snd (cmb_pull b n));
  mret n.

(** ** Sending *)

Definition set_status (b : sc_buff) (st : Z) : sc_buff := mkSc st (flags b) (complete b) (buf b).

Definition _cmb_tx_complete (a : Z) : C unit :=
  b ← get_cmb a;
  if negb (Z.land (flags b) NONBLOCK =? 0) then
    _ ← emit (EDone a (status b));
    free_cmb a
  else
    let b := if status b =? WAIT_XMIT then set_status b XMIT_ABORT else b in
    _ ← emit (EDone a (status b));
    put_cmb a (mkSc (status b) (flags b) (complete b + 1) (buf b)).

Definition mars_cec_rx_reset : C unit :=
  _ ← write_reg32 MIS_CEC_RX0 RX_RST;
  _ ← write_reg32 MIS_CEC_RX0 0;
  modify (fun s => set_rcv s (mkRcv (r_enable (rcv s)) IDEL (r_cmb (rcv s)) (r_complete (rcv s)))).

(** [p_xmit->cmb->status = st] *)
Definition tx_status (st : Z) : C unit :=
  s ← get;
  b ← get_cmb (x_cmb (xmit s));
  put_cmb (x_cmb (xmit s)) (set_status b st).

(** The end of a transmission. *)
Definition tx_end : C unit :=
  s ← get;
  _ ← _cmb_tx_complete (x_cmb (xmit s));
  modify (fun s => set_xmit s (mkXmit (x_enable (xmit s)) IDEL 0 (x_timeout (xmit s)))).

(** [RST_TX_HIGH]: the line is set high, the receiver reset and restarted. *)
Definition rst_tx_high : C unit :=
  _ ← write_reg32 MIS_CEC_TX_DATA2 1;
  _ ← mars_cec_rx_reset;
  emit (ESchedule RxWork).

Definition tx_xmitting (jiffies : Z) : C unit :=
  s ← get;
  tx1 ← read_reg32 MIS_CEC_TX1;
  _ ← (if negb (Z.land tx1 TX_INT =? 0) then
         b ← get_cmb (x_cmb (xmit s));
         _ ← (if negb (len (buf b) =? 0) then
                _ ← _write_tx_fifo (x_cmb (xmit s));
                b ← get_cmb (x_cmb (xmit s));
                if len (buf b) =? 0 then
                  v ← read_reg32 MIS_CEC_TX0;
                  write_reg32 MIS_CEC_TX0 (Z.ldiff v TX_CONTINUOUS)
                else mret tt
              else mret tt);
         write_reg32 MIS_CEC_TX1 TX_INT
       else mret tt);
  if time_after jiffies (x_timeout (xmit s)) then
    _ ← write_reg32 MIS_CEC_TX0 0;
    _ ← tx_status XMIT_TIMEOUT;
    _ ← tx_end;
    _ ← rst_tx_high;
    emit ECancel
  else mret tt.

Definition tx_finished : C unit :=
  _ ← emit ECancel;
  tx1 ← read_reg32 MIS_CEC_TX1;
  _ ← tx_status (if Z.land tx1 TX_EOM =? 0 then XMIT_FAIL else XMIT_OK);
  _ ← write_reg32 MIS_CEC_TX0 0;
  _ ← tx_end;
  rst_tx_high.

Definition TX_DATA2 : Z := 0x26.

(** The next message of the queue. *)
Definition tx_next (jiffies : Z) : C unit :=
  a ← q_dequeue TXQ;
  _ ← modify (fun s => set_xmit s (mkXmit (x_enable (xmit s)) (x_state (xmit s)) a (x_timeout (xmit s))));
  if a =? 0 then mret tt
  else
    b ← get_cmb a;
    x ← lift_res (bload (buf b) (data (buf b)) 1);
    let dest := Z.land x.[0] 0xF in
    _ ← put_cmb a (snd (cmb_pull b 1));
    _ ← modify (fun s => set_xmit s (mkXmit (x_enable (xmit s)) (x_state (xmit s)) a (u32 (jiffies + TX_TIMEOUT))));
    _ ← mars_cec_rx_reset;
    _ ← write_reg32 MIS_CEC_TX_DATA2 TX_DATA2;
    _ ← write_reg32 MIS_CEC_TX0 TX_RST;
    _ ← write_reg32 MIS_CEC_TX0 0;
    _ ← _write_tx_fifo a;
    b ← get_cmb a;
    _ ← write_reg32 MIS_CEC_TX0
          (if len (buf b) =? 0 then Z.lor (Z.lor dest TX_EN) TX_INT_EN
           else Z.lor (Z.lor (Z.lor dest TX_EN) TX_INT_EN) TX_CONTINUOUS);
    _ ← modify (fun s => set_xmit s (mkXmit (x_enable (xmit s)) XMIT (x_cmb (xmit s)) (x_timeout (xmit s))));
    emit (ESchedule TxTimeout).

Definition mars_cec_tx_work (jiffies : Z) : C unit :=
  _ ← lock_cec;
  s ← get;
  _ ← (if decide (x_state (xmit s) = XMIT) then
         tx0 ← read_reg32 MIS_CEC_TX0;
         if negb (Z.land tx0 TX_EN =? 0) then tx_xmitting jiffies else tx_finished
       else mret tt);
  s ← get;
  _ ← (if decide (x_state (xmit s) = IDEL) then
         if x_enable (xmit s) then tx_next jiffies else mret tt
       else mret tt);
  unlock_cec.

Definition mars_cec_tx_start : C unit :=
  _ ← lock_cec;
  s ← get;
  _ ← (if x_enable (xmit s) then mret tt
       else modify (fun s => set_xmit s (mkXmit true IDEL 0 (x_timeout (xmit s)))));
  unlock_cec.

(** [while((cmb = cmb_dequeue(&p_this->tx_queue))) _cmb_tx_complete(cmb);] *)
Fixpoint tx_drain (fuel : nat) : C unit :=
  match fuel with
  | O => sleep
  | S fuel' =>
      a ← q_dequeue TXQ;
      if a =? 0 then mret tt
      else
        _ ← _cmb_tx_complete a;
        tx_drain fuel'
  end.

(** One turn per queued buffer and a last one. *)
Definition drain_fuel (s : mars_cec) (k : qsel) : nat := S (Z.to_nat (qlen (get_q s k))).

Definition mars_cec_tx_stop : C unit :=
  _ ← lock_cec;
  s ← get;
  _ ← (if x_enable (xmit s) then
         _ ← mars_cec_rx_reset;
         _ ← (if x_cmb (xmit s) =? 0 then mret tt else _cmb_tx_complete (x_cmb (xmit s)));
         _ ← tx_drain (drain_fuel s TXQ);
         modify (fun s => set_xmit s (mkXmit false IDEL 0 (x_timeout (xmit s))))
       else mret tt);
  unlock_cec.

(** ** Receiving *)

Definition set_rcv_state (st : cec_fsm) : C unit :=
  modify (fun s => set_rcv s (mkRcv (r_enable (rcv s)) st (r_cmb (rcv s)) (r_complete (rcv s)))).
Definition set_rcv_cmb (a : Z) : C unit :=
  modify (fun s => set_rcv s (mkRcv (r_enable (rcv s)) (r_state (rcv s)) a (r_complete (rcv s)))).

(** [complete(&p_this->rcv.complete)] *)
Definition rx_wake (a : Z) : C unit :=
  _ ← emit (EReceived a);
  modify (fun s => set_rcv s (mkRcv (r_enable (rcv s)) (r_state (rcv s)) (r_cmb (rcv s)) (r_complete (rcv s) + 1))).

(** The receiver still runs: more bytes of a message. *)
Definition rx_more (a : Z) : C unit :=
  rx1 ← read_reg32 MIS_CEC_RX1;
  if negb (Z.land rx1 RX_INT =? 0) then
    n ← _read_rx_fifo a;
    _ ← (if n <? 0 then
           _ ← write_reg32 MIS_CEC_RX0 0;
           set_rcv_state IDEL
         else mret tt);
    write_reg32 MIS_CEC_RX1 RX_INT
  else mret tt.

(** The receiver has stopped: the end of a message.  The condition is
    [(read_reg32(MIS_CEC_RX1) & RX_EOM) && _read_rx_fifo(p_rcv->cmb)]. *)
Definition rx_stopped (a : Z) : C unit :=
  rx1 ← read_reg32 MIS_CEC_RX1;
  got ← (if negb (Z.land rx1 RX_EOM =? 0) then
           n ← _read_rx_fifo a;
           mret (negb (n =? 0))
         else mret false);
  _ ← (if (got : bool) then
         b ← get_cmb a;
         let '(p, b) := cmb_push b 1 in
         rx0 ← read_reg32 MIS_CEC_RX0;
         cr0 ← read_reg32 MIS_CEC_CR0;
         m ← lift_res (bstore (buf b) p [u8 (Z.lor (Z.shiftl (Z.land rx0 0xF) 4) (Z.land cr0 0xF))]);
         _ ← put_cmb a (set_buf b m);
         _ ← q_tail RXQ a;
         _ ← set_rcv_cmb 0;
         rx_wake a
       else mret tt);
  set_rcv_state IDEL.

(** A buffer for the next message: a free one, or the oldest received one. *)
Definition rx_buffer : C unit :=
  s ← get;
  if r_cmb (rcv s) =? 0 then
    if negb (cmb_queue_len (rx_free_queue s) =? 0) then
      a ← q_dequeue FREEQ;
      set_rcv_cmb a
    else
      a ← q_dequeue RXQ;
      set_rcv_cmb a
  else mret tt.

Definition rx_restart : C unit :=
  v ← read_reg32 MIS_CEC_TX_DATA2;
  if negb (v =? 1) then mret tt
  else
    _ ← rx_buffer;
    s ← get;
    let a := r_cmb (rcv s) in
    if a =? 0 then mret tt
    else
      b ← get_cmb a;
      _ ← put_cmb a (cmb_reserve (cmb_purge b) 1);
      _ ← write_reg32 MIS_CEC_RX0 RX_RST;
      _ ← write_reg32 MIS_CEC_RX0 0;
      _ ← write_reg32 MIS_CEC_RX0 (Z.lor RX_EN RX_INT_EN);
      set_rcv_state RCV.

Definition mars_cec_rx_work : C unit :=
  _ ← lock_cec;
  s ← get;
  _ ← (if negb (r_enable (rcv s)) then
         if decide (r_state (rcv s) = RCV) then
           _ ← write_reg32 MIS_CEC_RX0 0;
           _ ← free_cmb (r_cmb (rcv s));
           _ ← set_rcv_cmb 0;
           set_rcv_state IDEL
         else mret tt
       else
         _ ← (if decide (r_state (rcv s) = RCV) then
                rx0 ← read_reg32 MIS_CEC_RX0;
                if negb (Z.land rx0 RX_EN =? 0) then rx_more (r_cmb (rcv s))
                else rx_stopped (r_cmb (rcv s))
              else mret tt);
         s ← get;
         if decide (r_state (rcv s) = IDEL) then rx_restart else mret tt);
  unlock_cec.

Definition mars_cec_rx_start : C unit :=
  _ ← lock_cec;
  s ← get;
  _ ← (if r_enable (rcv s) then mret tt
       else
         _ ← modify (fun s => set_rcv s (mkRcv true IDEL 0 0));
         emit (ESchedule RxWork));
  unlock_cec.

(** [cmb_purge(cmb); cmb_reserve(cmb, 1); cmb_queue_tail(&rx_free_queue, cmb);] *)
Definition rx_recycle (a : Z) : C unit :=
  b ← get_cmb a;
  _ ← put_cmb a (cmb_reserve (cmb_purge b) 1);
  q_tail FREEQ a.

Fixpoint rx_drain (fuel : nat) : C unit :=
  match fuel with
  | O => sleep
  | S fuel' =>
      a ← q_dequeue RXQ;
      if a =? 0 then mret tt
      else
        _ ← rx_recycle a;
        rx_drain fuel'
  end.

(** [complete_all] lets every present and later waiter through. *)
Definition COMPLETE_ALL : Z := 0x7fffffff.

Definition mars_cec_rx_stop : C unit :=
  _ ← lock_cec;
  s ← get;
  _ ← (if r_enable (rcv s) then
         _ ← write_reg32 MIS_CEC_RX0 RX_RST;
         _ ← write_reg32 MIS_CEC_RX0 0;
         _ ← (if r_cmb (rcv s) =? 0 then mret tt else rx_recycle (r_cmb (rcv s)));
         _ ← rx_drain (drain_fuel s RXQ);
         modify (fun s => set_rcv s (mkRcv false IDEL 0 (r_complete (rcv s) + COMPLETE_ALL)))
       else mret tt);
  unlock_cec.

(** ** The interrupt handler and the operations of the driver *)

(** 1 is [IRQ_HANDLED], 0 is [IRQ_NONE]. *)
Definition mars_cec_isr (jiffies : Z) : C Z :=
  v ← read_reg32 MIS_ISR;
  let event := Z.land v (Z.lor CEC_TX_INT CEC_RX_INT) in
  if event =? 0 then mret 0
  else
    _ ← (if negb (Z.land event CEC_TX_INT =? 0) then mars_cec_tx_work jiffies else mret tt);
    _ ← (if negb (Z.land event CEC_RX_INT =? 0) then mars_cec_rx_work else mret tt);
    _ ← write_reg32 MIS_ISR event;
    mret 1.

Fixpoint write_regs (l : list (Z * Z)) : C unit :=
  match l with
  | [] => mret tt
  | (a, v) :: l' => _ ← write_reg32 a v; write_regs l'
  end.

Definition init_regs : list (Z * Z) :=
  [(MIS_CEC_CR0, 0x0f); (MIS_CEC_RX0, 0); (MIS_CEC_TX0, 0); (MIS_CEC_RT1, 5); (MIS_CEC_CR2, 0x22);
   (MIS_CEC_RX_START0, 0x8C); (MIS_CEC_RX_START1, 0xBF); (MIS_CEC_TX_START0, 0x94); (MIS_CEC_TX_START1, 0x20);
   (MIS_CEC_TX_DATA0, 0x18); (MIS_CEC_TX_DATA1, 0x24); (MIS_CEC_TX_DATA2, 1)].

(** [for (i=0; i<RX_RING_LENGTH; i++) { cmb = alloc_cmb(RX_BUFFER_SIZE); if (cmb) cmb_queue_tail(...); }] *)
Fixpoint init_ring (als : list (option (Z * list Z))) : C unit :=
  match als with
  | [] => mret tt
  | al :: als' =>
      a ← new_cmb al RX_BUFFER_SIZE;
      _ ← (if a =? 0 then mret tt else q_tail FREEQ a);
      init_ring als'
  end.

(** [als]: the answers of the eight allocations; [irq]: of [request_irq]. *)
Definition mars_cec_init (als : list (option (Z * list Z))) (irq : Z) : C Z :=
  s ← get;
  if s_init s then mret 0
  else
    _ ← write_regs init_regs;
    _ ← modify (fun s => set_lock s false);
    _ ← modify (fun s => set_xmit s (mkXmit (x_enable (xmit s)) IDEL 0 0));
    _ ← modify (fun s => set_rcv s (mkRcv (r_enable (rcv s)) IDEL 0 0));
    _ ← q_init TXQ;
    _ ← q_init RXQ;
    _ ← q_init FREEQ;
    _ ← init_ring als;
    if irq <? 0 then mret (-1)
    else
      _ ← modify (fun s => set_init s true);
      mret 0.

Definition mars_cec_enable (on_off : bool) : C Z :=
  s ← get;
  if on_off then
    if s_enable s then mret 0
    else
      v ← read_reg32 MIS_CEC_CR0;
      _ ← write_reg32 MIS_CEC_CR0 (Z.lor (Z.land v 0x3F) CEC_MODE_NORMAL);
      _ ← mars_cec_rx_start;
      _ ← mars_cec_tx_start;
      _ ← modify (fun s => set_enable s true);
      mret 0
  else
    if s_enable s then
      v ← read_reg32 MIS_CEC_CR0;
      _ ← write_reg32 MIS_CEC_CR0 (Z.land v 0x3F);
      _ ← modify (fun s => set_enable s false);
      _ ← mars_cec_rx_stop;
      _ ← mars_cec_tx_stop;
      mret 0
    else mret 0.

Definition mars_cec_set_logical_addr (log_addr : Z) : C Z :=
  val ← read_reg32 MIS_CEC_CR0;
  if log_addr >? 0x0F then mret (-14)
  else
    _ ← write_reg32 MIS_CEC_CR0 (Z.lor (Z.ldiff val 0xF) log_addr);
    mret 0.

(** [mars_cec_xmit_message] up to the wait, in the two parts between which
    other code can run: the test, and the rest. *)
Definition xmit_allowed : C bool := s ← get; mret (x_enable (xmit s)).

Definition xmit_submit (a fl : Z) : C unit :=
  b ← get_cmb a;
  _ ← put_cmb a (mkSc WAIT_XMIT (u8 fl) (complete b) (buf b));
  m ← lift_res (bload (buf b) (data (buf b)) (len (buf b)));
  _ ← emit (ESubmit a m);
  _ ← q_tail TXQ a;
  emit (ESchedule TxWork).

(** ... and after it; the caller sleeps as long as the count is 0. *)
Definition xmit_finish (a : Z) : C Z :=
  b ← get_cmb a;
  if complete b =? 0 then sleep
  else
    _ ← free_cmb a;
    mret (if status b =? XMIT_OK then 0 else -1).

(** [mars_cec_read_message] after the wait; [al] answers its allocation. *)
Definition read_take (al : option (Z * list Z)) : C Z :=
  s ← get;
  if s_enable s then
    a ← q_dequeue RXQ;
    if a =? 0 then mret 0
    else
      n ← new_cmb al RX_BUFFER_SIZE;
      _ ← q_tail FREEQ n;
      mret a
  else mret 0.

Definition mars_cec_uninit : C unit :=
  _ ← write_reg32 MIS_CEC_CR0 0x0f;
  _ ← write_reg32 MIS_CEC_RX0 0;
  _ ← write_reg32 MIS_CEC_TX0 0;
  _ ← mars_cec_enable false;
  modify (fun s => set_init s false).

(** ** The device file: [CEC_SEND_MESSAGE], [CEC_RCV_MESSAGE]

    [send_prepare] is the ioctl up to the call of [xmit]: the address of the
    message, or an error. *)
Definition send_prepare (al : option (Z * list Z)) (msg : list Z) : C Z :=
  a ← new_cmb al (Zlen msg);
  if a =? 0 then mret (-12)
  else
    b ← get_cmb a;
    let '(p, b) := cmb_put b (Zlen msg) in
    m ← lift_res (bstore (buf b) p msg);
    _ ← put_cmb a (set_buf b m);
    mret a.

(** [CEC_RCV_MESSAGE] after the wait, for a buffer of [size] bytes: the result
    and the bytes copied to the user. *)
Definition rcv_message (al : option (Z * list Z)) (size : Z) : C (Z * list Z) :=
  a ← read_take al;
  if a =? 0 then mret (-14, [])
  else
    b ← get_cmb a;
    if len (buf b) >? size then
      _ ← free_cmb a;
      mret (-12, [])
    else
      m ← lift_res (bload (buf b) (data (buf b)) (len (buf b)));
      _ ← free_cmb a;
      mret (len (buf b), m).

(** ** Waking up from standby *)

Definition CEC_WAKEUP_BY_SET_STREAM_PATH : Z := 0x01.
Definition CEC_WAKEUP_BY_PLAY_CMD : Z := 0x02.
Definition CEC_WAKEUP_BY_IMAGE_VIEW_ON : Z := 0x04.
Definition CEC_MSG_SET_STREAM_PATH : Z := 0x86.
Definition CEC_MSG_IMAGE_VIEW_ON : Z := 0x04.
Definition CEC_MSG_TEXT_VIEW_ON : Z := 0x0D.
Definition CEC_MSG_PLAY : Z := 0x41.

Definition DBG_CHAR (x : Z) : C unit := write_reg32 0xb801b200 x.

(** The receiver is started again. *)
Definition wakeup_restart : C unit :=
  write_regs [(MIS_CEC_CR0, 0x44); (MIS_CEC_RX0, 0x40); (MIS_CEC_RX0, 0x00); (MIS_CEC_RX0, 0x90); (MIS_CEC_TX_DATA2, 1)].

(** [wakeup_flag] is [mars_cec_wakeup_flag]. *)
Definition wakeup_reason (wakeup_flag msg : Z) : Z :=
  if (msg =? CEC_MSG_IMAGE_VIEW_ON) || (msg =? CEC_MSG_TEXT_VIEW_ON) then
    if negb (Z.land wakeup_flag CEC_WAKEUP_BY_IMAGE_VIEW_ON =? 0) then 3 else 0
  else if msg =? CEC_MSG_SET_STREAM_PATH then
    if negb (Z.land wakeup_flag CEC_MSG_SET_STREAM_PATH =? 0) then 4 else 0
  else if msg =? CEC_MSG_PLAY then
    if negb (Z.land wakeup_flag CEC_MSG_PLAY =? 0) then 5 else 0
  else 0.

Definition mars_cec_wakeup_check (wakeup_flag : Z) : C Z :=
  isr ← read_reg32 MIS_ISR;
  _ ← (if negb (Z.land isr (Z.lor CEC_RX_INT CEC_TX_INT) =? 0)
       then write_reg32 MIS_ISR (Z.lor CEC_RX_INT CEC_TX_INT) else mret tt);
  if wakeup_flag =? 0 then mret 0
  else
    cr0 ← read_reg32 MIS_CEC_CR0;
    if negb (Z.land cr0 0xC0 =? 0x40) then
      _ ← DBG_CHAR 115;
      _ ← wakeup_restart;
      mret 0
    else
      rx0 ← read_reg32 MIS_CEC_RX0;
      if Z.land rx0 0x80 =? 0 then
        rx1 ← read_reg32 MIS_CEC_RX1;
        ret ← (if negb (Z.land rx1 0x80 =? 0) then
                 _ ← DBG_CHAR 79;
                 msg ← read_reg32 MIS_CEC_RX_FIFO;
                 mret (wakeup_reason wakeup_flag msg)
               else
                 _ ← DBG_CHAR 119;
                 mret 0);
        _ ← (if ret =? 0 then wakeup_restart
             else write_regs [(MIS_CEC_RX0, 0x40); (MIS_CEC_RX0, 0x00)]);
        mret ret
      else
        _ ← DBG_CHAR 46;
        mret 0.
End cec.

Abbreviation C := (Drv mars_cec).
