(* ===== verification/CecProofs.v ===== *)
(** * CEC: total correctness of the driver's operations

    [wp m s Q]: [m] run from [s] returns, without a fault, in a state that meets
    [Q].  The memory of the driver is described by ghost lists: which buffers
    are in which place. *)
From stdpp Require Import base tactics list numbers option gmap.
From Stdlib Require Import ZArith Lia.
From S2P Require Import Prelude Driver Buff ScBuff Queue Cec.

(** ** Places *)

(** Where a buffer can be: on a queue, being sent, being received into, made
    by a caller and not yet submitted, done and not yet collected by its
    sender, taken from the send queue or from the receive queue by the running
    code. *)
Inductive place := PQ (k : qsel) | PX | PR | PPrep | PWait | PHeld | PUser.

#[export] Instance place_eq_dec : EqDecision place.
Proof. solve_decision. Defined.

Definition ghost : Type := place -> list Z.

Definition upd (G : ghost) (p : place) (l : list Z) : ghost := fun p' => if decide (p = p') then l else G p'.

Lemma upd_eq G p l : upd G p l p = l.
Proof. unfold upd. by rewrite decide_True. Qed.

Lemma upd_ne G p p' l : p <> p' -> upd G p l p' = G p'.
Proof. intros H. unfold upd. by rewrite decide_False. Qed.

(** No buffer is in two places, or twice in one. *)
Record gok (G : ghost) : Prop := {
  gk_nodup : forall p, NoDup (G p);
  gk_disj : forall p p' a, a ∈ G p -> a ∈ G p' -> p = p'
}.

Lemma gok_drop G p a l : gok G -> G p ≡ₚ a :: l -> gok (upd G p l).
Proof.
  intros [Hn Hd] Hp. assert (Hin : forall x, x ∈ l -> x ∈ G p) by (intros x Hx; rewrite Hp; set_solver).
  split.
  - intros p'. unfold upd. destruct (decide (p = p')) as [<-|]; [|done].
    specialize (Hn p). rewrite Hp in Hn. by apply NoDup_cons in Hn as [_ ?].
  - intros p1 p2 x. unfold upd. destruct (decide (p = p1)) as [<-|], (decide (p = p2)) as [<-|]; naive_solver.
Qed.

Lemma gok_drop_notin G p a l p' : gok G -> G p ≡ₚ a :: l -> a ∉ upd G p l p'.
Proof.
  intros [Hn Hd] Hp Ha. unfold upd in Ha. destruct (decide (p = p')) as [<-|Hne].
  - specialize (Hn p). rewrite Hp in Hn. by apply NoDup_cons in Hn as [? _].
  - apply Hne. apply (Hd p p' a); [rewrite Hp; set_solver|done].
Qed.

Lemma gok_add G p a m : gok G -> (forall p', a ∉ G p') -> m ≡ₚ a :: G p -> gok (upd G p m).
Proof.
  intros [Hn Hd] Ha Hm. assert (Hin : forall x, x ∈ m -> x = a \/ x ∈ G p) by (intros x; rewrite Hm; set_solver).
  split.
  - intros p'. unfold upd. destruct (decide (p = p')) as [<-|]; [|done]. rewrite Hm. apply NoDup_cons. auto.
  - intros p1 p2 x. unfold upd.
    destruct (decide (p = p1)) as [<-|], (decide (p = p2)) as [<-|]; [done| | |apply Hd].
    + intros [->|Hx]%Hin Hy; [by apply Ha in Hy|by apply (Hd p p2 x)].
    + intros Hx [->|Hy]%Hin; [by apply Ha in Hx|by apply (Hd p1 p x)].
Qed.

(** ** Memory *)

Record mem_ok (L : lists) (B : gmap Z sc_buff) (q : qsel -> queue) (G : ghost) : Prop := {
  mo_ghost : gok G;
  mo_q : forall k, queue_rep L (q k) (G (PQ k));
  mo_heads : forall k k', qaddr (q k) = qaddr (q k') -> k = k';
  mo_addr : forall p a, a ∈ G p -> 0 < a < W32 /\ node L a /\ is_Some (B !! a) /\ (forall k, a <> qaddr (q k))
}.

Lemma addr_bound (l : list Z) : NoDup l -> (forall a, a ∈ l -> 0 < a < W32) -> Zlen l < W32.
Proof.
  intros Hn Ha. assert (Hs : l ⊆ seqZ 1 (W32 - 1)) by (intros x Hx; apply elem_of_seqZ; apply Ha in Hx; lia).
  pose proof (submseteq_length _ _ (NoDup_submseteq _ _ Hn Hs)) as HL. rewrite length_seqZ in HL. unfold Zlen, W32 in *. lia.
Qed.

Lemma list_rep_frame L L' a l t : list_rep L a l -> frame L L' t -> (forall x, x ∈ a :: l -> x ∉ t) -> list_rep L' a l.
Proof.
  intros [Hn Hl Hz] [_ Hf] Hd. split; [done| |done].
  apply (links_ext L L' a l a Hl); intros x Hx; apply Hf, Hd; set_solver.
Qed.

Lemma queue_rep_frame L L' q l t : queue_rep L q l -> frame L L' t -> (forall x, x ∈ qaddr q :: l -> x ∉ t) -> queue_rep L' q l.
Proof. intros [H1 H2 H3 H4] Hf Hd. split; [by apply (list_rep_frame L L' _ _ t)|done..]. Qed.

Definition setq (q : qsel -> queue) (k : qsel) (v : queue) : qsel -> queue := fun k' => if decide (k = k') then v else q k'.

(** Change of queue [k] to [l'], everything else untouched. *)
Lemma mem_queue_step L L' B q q' G k l' t :
  mem_ok L B q G -> gok (upd G (PQ k) l') -> qaddr q' = qaddr (q k) -> queue_rep L' q' l' ->
  frame L L' t -> (forall x, x ∈ t -> x = qaddr (q k) \/ x ∈ G (PQ k) \/ (forall k', x ∉ G (PQ k') /\ x <> qaddr (q k'))) ->
  (forall a, a ∈ l' -> a ∈ G (PQ k) \/ 0 < a < W32 /\ node L a /\ is_Some (B !! a) /\ (forall k, a <> qaddr (q k))) ->
  mem_ok L' B (setq q k q') (upd G (PQ k) l').
Proof.
  intros [Hg Hq Hh Ha] Hg' Hqa Hr Hf Ht Hl'. pose proof Hf as [Hf1 _].
  assert (Ead : forall k', qaddr (setq q k q' k') = qaddr (q k')) by (intros k'; unfold setq; destruct (decide (k = k')) as [<-|]; done).
  split; [done| | |].
  - intros k'. destruct (decide (k = k')) as [<-|Hne].
    { rewrite upd_eq. unfold setq. by rewrite decide_True. }
    rewrite upd_ne by congruence. unfold setq. rewrite decide_False by done.
    apply (queue_rep_frame L L' _ _ t); [done|done|]. intros x Hx Hxt.
    destruct (Ht x Hxt) as [->|[Hxk|Hxn]].
    + apply elem_of_cons in Hx as [Hx|Hx]; [by apply Hh in Hx|]. destruct (Ha _ _ Hx) as (_ & _ & _ & H); by destruct (H k).
    + apply elem_of_cons in Hx as [->|Hx]; [destruct (Ha _ _ Hxk) as (_ & _ & _ & H); by destruct (H k')|].
      pose proof (gk_disj _ Hg _ _ _ Hxk Hx). congruence.
    + apply elem_of_cons in Hx as [->|Hx]; [by apply (proj2 (Hxn k'))|by apply (proj1 (Hxn k'))].
  - intros k1 k2. rewrite !Ead. apply Hh.
  - intros p a. destruct (decide (PQ k = p)) as [<-|Hne].
    + rewrite upd_eq. intros Hin. destruct (Hl' a Hin) as [H|H].
      * destruct (Ha _ _ H) as (H1 & H2 & H3 & H4). repeat split; auto; try apply H1; try apply Hf1, H2. intros k'. rewrite Ead. auto.
      * destruct H as (H1 & H2 & H3 & H4). repeat split; auto; try apply H1; try apply Hf1, H2. intros k'. rewrite Ead. auto.
    + rewrite upd_ne by done. intros Hin. destruct (Ha _ _ Hin) as (H1 & H2 & H3 & H4).
      repeat split; auto; try apply H1; try apply Hf1, H2. intros k'. rewrite Ead. auto.
Qed.

(** Taking the first buffer of a queue; it is then held by the running code. *)
Lemma mem_dequeue smp L B q G k : mem_ok L B q G ->
  exists L' q', cmb_dequeue smp L (q k) = Ret (hd 0 (G (PQ k)), L', q') /\
    mem_ok L' B (setq q k q') (upd G (PQ k) (tl (G (PQ k)))) /\ (forall x, node L x -> node L' x) /\ qaddr q' = qaddr (q k).
Proof.
  intros Hm. pose proof Hm as [Hg Hq Hh Ha]. destruct (Hq k) as [Hr Hl Hf Hb].
  assert (Eq : q k = mkQueue (qaddr (q k)) false (Zlen (G (PQ k)))) by (destruct (q k); cbn in *; by subst).
  destruct (dequeue_spec smp L (qaddr (q k)) false _ (andb_false_r _) Hr Hb) as (L' & E & Hr' & Hfr).
  exists L', (mkQueue (qaddr (q k)) false (Zlen (tl (G (PQ k))))). split; [unfold cmb_dequeue; by rewrite Eq, E|].
  assert (Hsub : forall a, a ∈ tl (G (PQ k)) -> a ∈ G (PQ k)) by (intros a; destruct (G (PQ k)); set_solver).
  split; [|split; [apply Hfr|done]].
  apply (mem_queue_step L L' B q _ G k _ (qaddr (q k) :: G (PQ k)) Hm).
  - destruct (G (PQ k)) as [|a l] eqn:E0; [|by apply (gok_drop G (PQ k) a l Hg); rewrite E0].
    destruct Hg as [Hn Hd]. split.
    + intros p. unfold upd. destruct (decide _); [apply NoDup_nil_2|apply Hn].
    + intros p1 p2 x. unfold upd. repeat destruct (decide _); [set_solver..|apply Hd].
  - done.
  - split; [done..|]. cbn. destruct (G (PQ k)); [done|]. cbn [tl]. rewrite Zlen_cons in Hb. lia.
  - done.
  - set_solver.
  - auto.
Qed.

(** Putting a buffer at the end of a queue. *)
Lemma mem_enqueue smp L B q G k a : mem_ok L B q G -> (forall p, a ∉ G p) -> 0 < a < W32 -> node L a -> is_Some (B !! a) ->
  (forall k', a <> qaddr (q k')) ->
  exists L' q', cmb_queue_tail smp L (q k) a = Ret (L', q') /\ qaddr q' = qaddr (q k) /\
    mem_ok L' B (setq q k q') (upd G (PQ k) (G (PQ k) ++ [a])).
Proof.
  intros Hm Hn Hr0 Hnode HB Hhd. pose proof Hm as [Hg Hq Hh Ha].
  assert (Hg' : gok (upd G (PQ k) (G (PQ k) ++ [a]))).
  { apply (gok_add G (PQ k) a); [done|done|]. by rewrite Permutation_app_comm. }
  assert (Hlen : Zlen (G (PQ k)) + 1 < W32).
  { pose proof (addr_bound (G (PQ k) ++ [a])) as HL. rewrite Zlen_app in HL. apply HL.
    - pose proof (gk_nodup _ Hg' (PQ k)) as H. by rewrite upd_eq in H.
    - intros x [Hx| ->%list_elem_of_singleton]%elem_of_app; [by apply Ha in Hx as [? _]|done]. }
  destruct (queue_tail_spec smp L (q k) (G (PQ k)) a (Hq k)) as (L' & q' & E & Ead & Hr' & Hfr); [|lia|done|done|].
  { apply not_elem_of_cons. auto. }
  exists L', q'. split; [done|]. split; [done|].
  apply (mem_queue_step L L' B q q' G k _ (a :: qaddr (q k) :: G (PQ k)) Hm); [done|done|done|done| |].
  - intros x [->|[->|Hx]%elem_of_cons]%elem_of_cons; [right; right; auto|auto|auto].
  - intros x [Hx| ->%list_elem_of_singleton]%elem_of_app; [auto|right; auto].
Qed.

(** A place that is not a queue. *)
Definition off_queue (p : place) : Prop := forall k, p <> PQ k.

Lemma mem_relabel L B q G G' : mem_ok L B q G -> gok G' -> (forall k, G' (PQ k) = G (PQ k)) ->
  (forall p a, a ∈ G' p -> (exists p', a ∈ G p') \/
     0 < a < W32 /\ node L a /\ is_Some (B !! a) /\ (forall k, a <> qaddr (q k))) -> mem_ok L B q G'.
Proof.
  intros [Hg Hq Hh Ha] Hg' Hk Hs. split; [done| |done|].
  - intros k. rewrite Hk. apply Hq.
  - intros p a Hin. destruct (Hs p a Hin) as [[p' Hp']|H]; [by apply (Ha p')|done].
Qed.

Lemma mem_add L B q G p a m : mem_ok L B q G -> off_queue p -> (forall p', a ∉ G p') -> m ≡ₚ a :: G p ->
  0 < a < W32 -> node L a -> is_Some (B !! a) -> (forall k, a <> qaddr (q k)) -> mem_ok L B q (upd G p m).
Proof.
  intros Hm Hp Hn Hpm H1 H2 H3 H4. pose proof Hm as [Hg _ _ _].
  apply (mem_relabel L B q G _ Hm); [by apply (gok_add G p a)| |].
  - intros k. apply upd_ne, Hp.
  - intros p' x. unfold upd. destruct (decide (p = p')) as [<-|]; [|eauto].
    rewrite Hpm. intros [->|Hx]%elem_of_cons; [right; auto|eauto].
Qed.

Lemma mem_drop L B q G p a l : mem_ok L B q G -> off_queue p -> G p ≡ₚ a :: l -> mem_ok L B q (upd G p l).
Proof.
  intros Hm Hp Hl. pose proof Hm as [Hg _ _ _]. apply (mem_relabel L B q G _ Hm); [by apply (gok_drop G p a)| |].
  - intros k. apply upd_ne, Hp.
  - intros p' x. unfold upd. destruct (decide (p = p')) as [<-|]; [|eauto]. intros Hx. left. exists p. rewrite Hl. set_solver.
Qed.

(** From a queue to another place. *)
Lemma mem_take smp L B q G k p a l : mem_ok L B q G -> G (PQ k) = a :: l -> off_queue p -> G p = [] ->
  exists L' q', cmb_dequeue smp L (q k) = Ret (a, L', q') /\ qaddr q' = qaddr (q k) /\
    mem_ok L' B (setq q k q') (upd (upd G (PQ k) l) p [a]).
Proof.
  intros Hm Hk Hp Hp0. destruct (mem_dequeue smp L B q G k Hm) as (L' & q' & E & Hm' & Hf & Hqa). rewrite Hk in *.
  exists L', q'. split; [done|]. split; [done|]. cbn [tl] in Hm'.
  destruct (mo_addr _ _ _ _ Hm (PQ k) a) as (H1 & H2 & H3 & H4); [rewrite Hk; set_solver|].
  apply (mem_add L' B _ _ p a); [done|done| | |done|by apply Hf|done|].
  - intros p'. apply (gok_drop_notin G (PQ k) a l); [apply Hm|by rewrite Hk].
  - rewrite upd_ne by (intros E'; by apply (Hp k)). by rewrite Hp0.
  - intros k'. unfold setq. destruct (decide (k = k')) as [<-|]; [rewrite Hqa|]; apply H4.
Qed.

(** From another place to the end of a queue. *)
Lemma mem_give smp L B q G k p a l : mem_ok L B q G -> off_queue p -> G p ≡ₚ a :: l ->
  exists L' q', cmb_queue_tail smp L (q k) a = Ret (L', q') /\ qaddr q' = qaddr (q k) /\
    mem_ok L' B (setq q k q') (upd (upd G p l) (PQ k) (G (PQ k) ++ [a])).
Proof.
  intros Hm Hp Hl. pose proof (mem_drop L B q G p a l Hm Hp Hl) as Hm1.
  destruct (mo_addr _ _ _ _ Hm p a) as (H1 & H2 & H3 & H4); [rewrite Hl; set_solver|].
  destruct (mem_enqueue smp L B q (upd G p l) k a Hm1) as (L' & q' & E & Ea & Hm'); [|done..|].
  - intros p'. apply (gok_drop_notin G p a l); [apply Hm|done].
  - exists L', q'. split; [done|]. split; [done|]. by rewrite upd_ne in Hm' by apply Hp.
Qed.

(** Between two places that are not queues. *)
Lemma mem_move L B q G p p' a l : mem_ok L B q G -> off_queue p -> off_queue p' -> p <> p' -> G p ≡ₚ a :: l ->
  mem_ok L B q (upd (upd G p l) p' (a :: G p')).
Proof.
  intros Hm Hp Hp' Hne Hl. destruct (mo_addr _ _ _ _ Hm p a) as (H1 & H2 & H3 & H4); [rewrite Hl; set_solver|].
  apply (mem_add L B q _ p' a); [by apply (mem_drop L B q G p a)|done| | |done..].
  - intros p2. apply (gok_drop_notin G p a l); [apply Hm|done].
  - by rewrite upd_ne.
Qed.

Lemma node_kfree L a x : x <> a -> node L x -> node (kfree_cmb L a) x.
Proof. intros Hx [H1 H2]. unfold kfree_cmb, kfree_scb. destruct (a =? 0); [done|]. split; cbn; by rewrite lookup_delete_ne. Qed.

Lemma mem_free L B q G p a l : mem_ok L B q G -> off_queue p -> G p ≡ₚ a :: l ->
  mem_ok (kfree_cmb L a) (delete a B) q (upd G p l).
Proof.
  intros Hm Hp Hl. pose proof (mem_drop L B q G p a l Hm Hp Hl) as [Hg Hq Hh Ha].
  destruct (mo_addr _ _ _ _ Hm p a) as (H1 & H2 & H3 & H4); [rewrite Hl; set_solver|].
  assert (Hn : forall p', a ∉ upd G p l p') by (intros p'; apply (gok_drop_notin G p a l); [apply Hm|done]).
  split; [done| |done|].
  - intros k. destruct (Hq k) as [Hr ? ? ?]. split; [|done..]. apply kfree_rep; [|done]. apply not_elem_of_cons. auto.
  - intros p' x Hx. destruct (Ha p' x Hx) as (A1 & A2 & A3 & A4). assert (x <> a) by (intros ->; by apply (Hn p')).
    split; [done|]. split; [by apply node_kfree|]. split; [by rewrite lookup_delete_ne|done].
Qed.

Definition insert_node (L : lists) (p : Z) : lists := mkLists (<[p := p]> (nx L)) (<[p := p]> (pv L)).

Lemma mem_alloc L B q G p a b : mem_ok L B q G -> off_queue p -> B !! a = None -> 0 < a < W32 -> (forall k, a <> qaddr (q k)) ->
  mem_ok (insert_node L a) (<[a := b]> B) q (upd G p (a :: G p)).
Proof.
  intros Hm Hp HB Hr Hh.
  assert (Hn : forall p' x, x ∈ G p' -> x <> a).
  { intros p' x Hx ->. destruct (mo_addr _ _ _ _ Hm p' a Hx) as (_ & _ & [? H] & _). congruence. }
  apply mem_add with (a := a); [|done| |done|done| | |done].
  - destruct Hm as [Hg Hq Hd Ha]. split; [done| |done|].
    + intros k. apply (queue_rep_frame L _ _ _ [a]); [done| |].
      * split; [intros x [? ?]; split; cbn; by apply insert_is_Some|].
        intros x Hx. cbn. rewrite !lookup_insert_ne by set_solver. done.
      * intros x Hx ->%list_elem_of_singleton. apply elem_of_cons in Hx as [Hx|Hx]; [by apply (Hh k)|by apply (Hn (PQ k) a)].
    + intros p' x Hx. destruct (Ha p' x Hx) as (A1 & [A2 A2'] & A3 & A4). pose proof (Hn p' x Hx).
      split; [done|]. split; [split; cbn; by apply insert_is_Some|]. split; [by rewrite lookup_insert_ne|done].
  - intros p' Hx. by apply (Hn p' a).
  - split; cbn; by rewrite lookup_insert_eq.
  - by rewrite lookup_insert_eq.
Qed.

Lemma mem_bufs L B q G a b : mem_ok L B q G -> mem_ok L (<[a := b]> B) q G.
Proof.
  intros [Hg Hq Hh Ha]. split; [done..|]. intros p x Hx. destruct (Ha p x Hx) as (A1 & A2 & A3 & A4).
  split; [done|]. split; [done|]. split; [|done]. destruct (decide (x = a)) as [->|]; [by rewrite lookup_insert_eq|by rewrite lookup_insert_ne].
Qed.

(** Only the value of the queues matters. *)
Lemma mem_ext L B q q' G G' : mem_ok L B q G -> (forall k, q' k = q k) -> (forall p, G' p = G p) -> mem_ok L B q' G'.
Proof.
  intros [[Hn Hd] Hq Hh Ha] Eq EG. split; [split| | |].
  - intros p. rewrite EG. apply Hn.
  - intros p p' a. rewrite !EG. apply Hd.
  - intros k. rewrite Eq, EG. apply Hq.
  - intros k k'. rewrite !Eq. apply Hh.
  - intros p a. rewrite EG. intros H. destruct (Ha p a H) as (A1 & A2 & A3 & A4). repeat split; try apply A1; try apply A2; [done|].
    intros k. rewrite Eq. auto.
Qed.
