(* ===== verification/CecInv.v ===== *)
(** * CEC: histories, the invariant, and rules for total correctness *)
From stdpp Require Import base tactics list numbers option gmap.
From Stdlib Require Import ZArith Lia.
From S2P Require Import Prelude Driver Buff ScBuff Queue Cec CecProofs.

(** ** Histories *)

(** The messages submitted and the messages done, oldest first. *)
Fixpoint submits (tr : list event) : list Z :=
  match tr with
  | [] => []
  | ESubmit a _ :: tr' => submits tr' ++ [a]
  | _ :: tr' => submits tr'
  end.

Fixpoint dones (tr : list event) : list Z :=
  match tr with
  | [] => []
  | EDone a _ :: tr' => dones tr' ++ [a]
  | _ :: tr' => dones tr'
  end.

(** The bytes with which [a] was last submitted. *)
Fixpoint msg_of (tr : list event) (a : Z) : option (list Z) :=
  match tr with
  | [] => None
  | ESubmit a' m :: tr' => if a' =? a then Some m else msg_of tr' a
  | _ :: tr' => msg_of tr' a
  end.

(** A write that switches the line to sending. *)
Definition is_start (reg val : Z) : bool := (reg =? MIS_CEC_TX_DATA2) && (val =? TX_DATA2).

(** The bytes written to the send FIFO since the line was last switched. *)
Fixpoint fifo_since (tr : list event) : list Z :=
  match tr with
  | [] => []
  | EWrite r v :: tr' =>
      if r =? MIS_CEC_TX_FIFO then fifo_since tr' ++ [v]
      else if is_start r v then [] else fifo_since tr'
  | _ :: tr' => fifo_since tr'
  end.

Definition same_hist (t t' : list event) : Prop :=
  submits t' = submits t /\ dones t' = dones t /\ (forall a, msg_of t' a = msg_of t a) /\ fifo_since t' = fifo_since t.

#[export] Instance same_hist_refl : Reflexive same_hist.
Proof. by intros t. Qed.

#[export] Instance same_hist_trans : Transitive same_hist.
Proof.
  intros t1 t2 t3 (A1 & A2 & A3 & A4) (B1 & B2 & B3 & B4). unfold same_hist. rewrite B1, B2, B4.
  split; [done|]. split; [done|]. split; [|done]. intros a. by rewrite B3.
Qed.

(** Events that are no part of a history. *)
Definition quiet (e : event) : bool :=
  match e with
  | EWrite r v => negb (r =? MIS_CEC_TX_FIFO) && negb (is_start r v)
  | ESubmit _ _ | EDone _ _ => false
  | _ => true
  end.

Lemma quiet_hist e t : quiet e = true -> same_hist t (e :: t).
Proof.
  destruct e; try done. cbn [quiet]. rewrite andb_true_iff, !negb_true_iff. intros [H1 H2].
  split; [done|]. split; [done|]. split; [done|]. cbn [fifo_since]. by rewrite H1, H2.
Qed.

(** ** Buffers *)

(** A message to send with the bytes [l] left, of which no completion was
    signalled; a receive buffer; a receive buffer in use. *)
Definition tx_buf (B : gmap Z sc_buff) (a : Z) (l : list Z) : Prop :=
  exists b h t, B !! a = Some b /\ view (buf b) h l t /\ Zlen l < 256 /\ complete b = 0.
Definition rx_buf (B : gmap Z sc_buff) (a : Z) : Prop :=
  exists b h l t, B !! a = Some b /\ view (buf b) h l t /\ h + Zlen l + t = 64.
Definition rx_open (B : gmap Z sc_buff) (a : Z) : Prop :=
  exists b l t, B !! a = Some b /\ view (buf b) 1 l t /\ 1 + Zlen l + t = 64.
(** A message whose sender may continue. *)
Definition done_buf (B : gmap Z sc_buff) (a : Z) : Prop :=
  exists b, B !! a = Some b /\ complete b = 1 /\ status b <> WAIT_XMIT.

(** The data of a buffer in each place. *)
Definition holds (B : gmap Z sc_buff) (tr : list event) (p : place) (a : Z) : Prop :=
  match p with
  | PQ TXQ => exists l, l <> [] /\ tx_buf B a l /\ msg_of tr a = Some l
  | PPrep => exists l, l <> [] /\ tx_buf B a l
  | PX => exists d l, tx_buf B a l /\ msg_of tr a = Some (d :: fifo_since tr ++ l)
  | PQ RXQ | PQ FREEQ | PR | PUser => rx_buf B a
  | PWait => done_buf B a
  | PHeld => exists l, tx_buf B a l
  end.

Definition places (B : gmap Z sc_buff) (tr : list event) (G : ghost) : Prop := forall p a, a ∈ G p -> holds B tr p a.

(** Messages are done in the order in which they were submitted, each once. *)
Definition in_order (tr : list event) (G : ghost) : Prop :=
  submits tr = dones tr ++ G PX ++ G PHeld ++ G (PQ TXQ).

(** Receive buffers are never lost: queue, free queue and the one in use. *)
Definition ring_size (G : ghost) : nat := length (G (PQ RXQ)) + length (G (PQ FREEQ)) + length (G PR).

Lemma holds_hist B t t' p a : same_hist t t' -> holds B t p a -> holds B t' p a.
Proof. intros (_ & _ & H3 & H4). destruct p as [[]| | | | | |]; cbn [holds]; rewrite ?H3, ?H4; done. Qed.

Lemma places_hist B t t' G : same_hist t t' -> places B t G -> places B t' G.
Proof. intros H HP p a Ha. by apply (holds_hist B t), HP. Qed.

Lemma in_order_hist t t' G : same_hist t t' -> in_order t G -> in_order t' G.
Proof. intros (H1 & H2 & _) H. unfold in_order. by rewrite H1, H2. Qed.

(** Buffers are equal away from [a]. *)
Definition away (a : Z) (B B' : gmap Z sc_buff) : Prop := forall x, x <> a -> B' !! x = B !! x.

Lemma away_insert a b B : away a B (<[a := b]> B).
Proof. intros x Hx. by rewrite lookup_insert_ne. Qed.

Lemma away_delete a B : away a B (delete a B).
Proof. intros x Hx. by rewrite lookup_delete_ne. Qed.

Lemma away_refl a B : away a B B.
Proof. done. Qed.

Create HintDb cec.
#[export] Hint Resolve away_insert away_delete away_refl : cec.

Lemma holds_away a B B' t p x : away a B B' -> x <> a -> holds B t p x -> holds B' t p x.
Proof.
  intros H Hx. specialize (H x Hx). unfold holds, tx_buf, rx_buf, done_buf. by destruct p as [[]| | | | | |]; rewrite ?H.
Qed.

Lemma places_move B B' t G p p' a l m : gok G -> places B t G -> p <> p' -> G p ≡ₚ a :: l -> m ≡ₚ a :: G p' ->
  away a B B' -> holds B' t p' a -> places B' t (upd (upd G p l) p' m).
Proof.
  intros Hg HP Hne Hl Hm HB Ha r x Hx. assert (Hap : a ∈ G p) by (rewrite Hl; set_solver).
  assert (Hn : forall r, a ∉ upd G p l r) by (intros r'; by apply (gok_drop_notin G p a l)).
  assert (Hx' : r = p' /\ x = a \/ x ∈ upd G p l r).
  { unfold upd at 1 in Hx. destruct (decide (p' = r)) as [<-|]; [|by right]. rewrite Hm in Hx.
    apply elem_of_cons in Hx as [->|Hx]; [by left|]. right. by rewrite upd_ne. }
  destruct Hx' as [[-> ->]|Hx']; [done|]. assert (x <> a) by (intros ->; by apply (Hn r)).
  apply (holds_away a B); [done|done|]. apply HP. unfold upd in Hx'. destruct (decide (p = r)) as [<-|]; [rewrite Hl; set_solver|done].
Qed.

Lemma places_drop B B' t G p a l : gok G -> places B t G -> G p ≡ₚ a :: l -> away a B B' -> places B' t (upd G p l).
Proof.
  intros Hg HP Hl HB r x Hx. assert (x <> a) by (intros ->; by apply (gok_drop_notin G p a l r)).
  apply (holds_away a B); [done|done|]. apply HP. unfold upd in Hx. destruct (decide (p = r)) as [<-|]; [rewrite Hl; set_solver|done].
Qed.

Lemma places_put B B' t G p a : gok G -> places B t G -> a ∈ G p -> away a B B' -> holds B' t p a -> places B' t G.
Proof.
  intros Hg HP Hin HB Ha r x Hx. destruct (decide (x = a)) as [->|]; [|by apply (holds_away a B), HP].
  by rewrite (gk_disj _ Hg _ _ _ Hx Hin).
Qed.

Lemma places_add B B' t G p a m : places B t G -> (forall r, a ∉ G r) -> m ≡ₚ a :: G p -> away a B B' ->
  holds B' t p a -> places B' t (upd G p m).
Proof.
  intros HP Hn Hm HB Ha r x Hx.
  assert (Hx' : r = p /\ x = a \/ x ∈ G r).
  { unfold upd in Hx. destruct (decide (p = r)) as [<-|]; [|by right]. rewrite Hm in Hx. set_solver. }
  destruct Hx' as [[-> ->]|Hx']; [done|]. apply (holds_away a B); [done|intros ->; by apply (Hn r)|by apply HP].
Qed.

(** ** States *)

Definition nz (a : Z) : list Z := if a =? 0 then [] else [a].

Section inv.
Context {cec_hw : CecHw}.

(** Memory and history. *)
Record Base (s : mars_cec) (G : ghost) : Prop := {
  b_mem : mem_ok (m_list s) (m_bufs s) (get_q s) G;
  b_places : places (m_bufs s) (trace s) G;
  b_order : in_order (trace s) G
}.

Record Core (s : mars_cec) (G : ghost) : Prop := {
  c_base : Base s G;
  c_x : G PX = nz (x_cmb (xmit s));
  c_r : G PR = nz (r_cmb (rcv s));
  c_held : G PHeld = [] /\ G PUser = []
}.

(** The control state, with the lock at [k]. *)
Record Ctl (k : bool) (s : mars_cec) : Prop := {
  t_lock : lock s = k;
  t_x : x_state (xmit s) = XMIT /\ x_cmb (xmit s) <> 0 /\ x_enable (xmit s) = true \/
        x_state (xmit s) = IDEL /\ x_cmb (xmit s) = 0;
  t_r : r_state (rcv s) = RCV /\ r_cmb (rcv s) <> 0 /\ r_enable (rcv s) = true /\ rx_open (m_bufs s) (r_cmb (rcv s)) \/
        r_state (rcv s) = IDEL;
  t_dis : r_enable (rcv s) = false -> r_cmb (rcv s) = 0
}.

(** A message whose sender waits: it is queued, being sent, or done. *)
Definition is_tx (p : place) : bool := match p with PQ TXQ | PX | PHeld | PWait => true | _ => false end.

Definition inflight (s : mars_cec) (G : ghost) (a : Z) : Prop :=
  (exists p, is_tx p = true /\ a ∈ G p) /\ exists b, m_bufs s !! a = Some b /\ Z.land (flags b) NONBLOCK = 0.

(** No waiting sender loses its message, and prepared messages are untouched. *)
Definition keep (s : mars_cec) (G : ghost) (s' : mars_cec) (G' : ghost) : Prop :=
  G' PPrep = G PPrep /\ forall a, inflight s G a -> inflight s' G' a.

Record Inv (k : bool) (s : mars_cec) (G : ghost) : Prop := {
  i_core : Core s G;
  i_ctl : Ctl k s;
  i_ring : ring_size G = RX_RING_LENGTH
}.

(** Between operations the three enable flags agree. *)
Definition agree (s : mars_cec) : Prop := x_enable (xmit s) = s_enable s /\ r_enable (rcv s) = s_enable s.

Definition Post (k : bool) (s : mars_cec) (G : ghost) (s' : mars_cec) : Prop :=
  exists G', Inv k s' G' /\ keep s G s' G' /\ (agree s -> agree s').

Lemma keep_refl s G : keep s G s G.
Proof. by split. Qed.

Lemma keep_trans s1 G1 s2 G2 s3 G3 : keep s1 G1 s2 G2 -> keep s2 G2 s3 G3 -> keep s1 G1 s3 G3.
Proof. intros [A1 A2] [B1 B2]. split; [congruence|]. auto. Qed.

Lemma keep_bufs s G s' G' : G' PPrep = G PPrep -> m_bufs s' = m_bufs s ->
  (forall p a, is_tx p = true -> a ∈ G p -> exists p', is_tx p' = true /\ a ∈ G' p') -> keep s G s' G'.
Proof. intros H1 H2 H3. split; [done|]. intros a [(p & Hp & Ha) Hb]. split; [eauto|]. by rewrite H2. Qed.

(** ** Total correctness *)

Lemma wp_get_cmb a b s (Q : sc_buff -> mars_cec -> Prop) : m_bufs s !! a = Some b -> Q b s -> wp (get_cmb a) s Q.
Proof. intros E H. exists b, s. unfold get_cmb. by rewrite E. Qed.

Lemma wp_put_cmb a b s (Q : unit -> mars_cec -> Prop) : Q tt (set_bufs s (<[a := b]> (m_bufs s))) -> wp (put_cmb a b) s Q.
Proof. intros H. by apply wp_modify. Qed.

Lemma wp_lock smp s (Q : unit -> mars_cec -> Prop) : lock s = false -> Q tt (set_lock s true) -> wp (lock_cec smp) s Q.
Proof. intros E H. exists tt, (set_lock s true). unfold lock_cec. by rewrite E, andb_false_r. Qed.

(** States that differ in the controller and in events of no history. *)
Definition calm (s s' : mars_cec) : Prop := s' = set_hw s (regs s') (trace s') /\ same_hist (trace s) (trace s').

#[export] Instance calm_refl : Reflexive calm.
Proof. intros []. done. Qed.

#[export] Instance calm_trans : Transitive calm.
Proof. intros s1 s2 s3 [E1 H1] [E2 H2]. split; [|by transitivity (trace s2)]. rewrite E2, E1. done. Qed.

Lemma wp_read a s (Q : Z -> mars_cec -> Prop) : (forall v s', calm s s' -> is_u32 v -> Q v s') -> wp (read_reg32 a) s Q.
Proof.
  intros H. unfold wp, read_reg32. destruct (hread (regs s) a) as [v h] eqn:E. eexists _, _. split; [done|].
  apply H; [|apply u32_range]. by destruct s.
Qed.

Lemma wp_write a v s (Q : unit -> mars_cec -> Prop) : quiet (EWrite a v) = true -> (forall s', calm s s' -> Q tt s') -> wp (write_reg32 a v) s Q.
Proof. intros Hq H. apply wp_modify, H. split; [done|]. by apply quiet_hist. Qed.

Lemma wp_emit e s (Q : unit -> mars_cec -> Prop) : quiet e = true -> (forall s', calm s s' -> Q tt s') -> wp (emit e) s Q.
Proof. intros Hq H. apply wp_modify, H. split; [done|]. by apply quiet_hist. Qed.

Lemma Core_calm s s' G : calm s s' -> Core s G -> Core s' G.
Proof. intros [-> Hh] [[Hm Hp Ho] Hx Hr H0]. split; try done. split; cbn; [done|by apply (places_hist _ (trace s))|by apply (in_order_hist (trace s))]. Qed.

Lemma Ctl_calm k s s' : calm s s' -> Ctl k s -> Ctl k s'.
Proof. intros [-> Hh] []. by split. Qed.

Lemma keep_flags s s1 G a b b' : s1 = set_hw s (regs s1) (trace s1) -> m_bufs s !! a = Some b -> flags b' = flags b ->
  keep s G (set_bufs s1 (<[a := b']> (m_bufs s))) G.
Proof.
  intros -> Hb Hf. split; [done|]. intros x [Hx (bx & Hbx & Hfx)]. split; [done|]. cbn.
  destruct (decide (x = a)) as [->|]; [|rewrite lookup_insert_ne by done; eauto].
  rewrite lookup_insert_eq. exists b'. split; [done|]. congruence.
Qed.

Lemma Inv_calm k s s' G : calm s s' -> Inv k s G -> Inv k s' G.
Proof. intros Hc []. split; [by apply (Core_calm s)|by apply (Ctl_calm k s)|done]. Qed.

Lemma keep_calm s s' G : calm s s' -> keep s G s' G.
Proof. intros [-> _]. apply keep_bufs; eauto. Qed.

Lemma Post_refl k s G : Inv k s G -> Post k s G s.
Proof. intros H. exists G. split; [done|]. split; [apply keep_refl|done]. Qed.

Lemma Post_calm k s s' G : calm s s' -> Inv k s G -> Post k s G s'.
Proof. intros Hc H. exists G. split; [by apply (Inv_calm k s)|]. split; [by apply keep_calm|]. by destruct Hc as [-> _]. Qed.

(** What the parts of the driver leave alone. *)
Record same_ctl (s s' : mars_cec) : Prop := {
  sc_xmit : xmit s' = xmit s;
  sc_rcv : rcv s' = rcv s;
  sc_en : s_enable s' = s_enable s;
  sc_lock : lock s' = lock s
}.

Lemma calm_ctl s s' : calm s s' -> same_ctl s s'.
Proof. intros [-> _]. by split. Qed.

#[export] Instance same_ctl_trans : Transitive same_ctl.
Proof. intros s1 s2 s3 [] []. split; congruence. Qed.

(** ** Queues *)

Lemma get_set_q s k q k' : get_q (set_q s k q) k' = setq (get_q s) k q k'.
Proof. unfold setq. destruct k, k'; done. Qed.

Lemma wp_dequeue_nil smp s G k (Q : Z -> mars_cec -> Prop) :
  mem_ok (m_list s) (m_bufs s) (get_q s) G -> G (PQ k) = [] ->
  (forall L q, mem_ok L (m_bufs s) (get_q (set_list (set_q s k q) L)) G -> Q 0 (set_list (set_q s k q) L)) ->
  wp (q_dequeue smp k) s Q.
Proof.
  intros Hm Hk HQ. destruct (mem_dequeue smp _ _ _ _ k Hm) as (L & q & E & Hm' & _). rewrite Hk in E.
  exists 0, (set_list (set_q s k q) L). split; [unfold q_dequeue; by rewrite E|]. apply HQ.
  apply (mem_ext _ _ _ _ _ _ Hm'); [intros k'; apply get_set_q|].
  intros p. unfold upd. destruct (decide (PQ k = p)) as [<-|]; [by rewrite Hk|done].
Qed.

Lemma set_q_addr s k q L k' : qaddr q = qaddr (get_q s k) -> qaddr (get_q (set_list (set_q s k q) L) k') = qaddr (get_q s k').
Proof.
  intros Ea. change (get_q (set_list (set_q s k q) L) k') with (get_q (set_q s k q) k'). rewrite get_set_q. unfold setq.
  destruct (decide (k = k')) as [<-|]; done.
Qed.

(** [_at]: the heads of the queues stay where they are. *)
Lemma wp_dequeue_at smp s G k p a l (Q : Z -> mars_cec -> Prop) :
  mem_ok (m_list s) (m_bufs s) (get_q s) G -> G (PQ k) = a :: l -> off_queue p -> G p = [] ->
  (forall L q, (forall k', qaddr (get_q (set_list (set_q s k q) L) k') = qaddr (get_q s k')) ->
     mem_ok L (m_bufs s) (get_q (set_list (set_q s k q) L)) (upd (upd G (PQ k) l) p [a]) -> Q a (set_list (set_q s k q) L)) ->
  wp (q_dequeue smp k) s Q.
Proof.
  intros Hm Hk Hp Hp0 HQ. destruct (mem_take smp _ _ _ _ k p a l Hm Hk Hp Hp0) as (L & q & E & Ea & Hm').
  exists a, (set_list (set_q s k q) L). split; [unfold q_dequeue; by rewrite E|]. apply HQ; [intros k'; by apply set_q_addr|].
  apply (mem_ext _ _ _ _ _ _ Hm'); [intros k'; apply get_set_q|done].
Qed.

Lemma wp_dequeue smp s G k p a l (Q : Z -> mars_cec -> Prop) :
  mem_ok (m_list s) (m_bufs s) (get_q s) G -> G (PQ k) = a :: l -> off_queue p -> G p = [] ->
  (forall L q, mem_ok L (m_bufs s) (get_q (set_list (set_q s k q) L)) (upd (upd G (PQ k) l) p [a]) -> Q a (set_list (set_q s k q) L)) ->
  wp (q_dequeue smp k) s Q.
Proof. intros Hm Hk Hp Hp0 HQ. apply (wp_dequeue_at smp s G k p a l); auto. Qed.

Lemma wp_q_tail_at smp s G k p a l (Q : unit -> mars_cec -> Prop) :
  mem_ok (m_list s) (m_bufs s) (get_q s) G -> off_queue p -> G p ≡ₚ a :: l ->
  (forall L q, (forall k', qaddr (get_q (set_list (set_q s k q) L) k') = qaddr (get_q s k')) ->
     mem_ok L (m_bufs s) (get_q (set_list (set_q s k q) L)) (upd (upd G p l) (PQ k) (G (PQ k) ++ [a])) -> Q tt (set_list (set_q s k q) L)) ->
  wp (q_tail smp k a) s Q.
Proof.
  intros Hm Hp Hl HQ. destruct (mem_give smp _ _ _ _ k p a l Hm Hp Hl) as (L & q & E & Ea & Hm').
  exists tt, (set_list (set_q s k q) L). split; [unfold q_tail; by rewrite E|]. apply HQ; [intros k'; by apply set_q_addr|].
  apply (mem_ext _ _ _ _ _ _ Hm'); [intros k'; apply get_set_q|done].
Qed.

Lemma wp_q_tail smp s G k p a l (Q : unit -> mars_cec -> Prop) :
  mem_ok (m_list s) (m_bufs s) (get_q s) G -> off_queue p -> G p ≡ₚ a :: l ->
  (forall L q, mem_ok L (m_bufs s) (get_q (set_list (set_q s k q) L)) (upd (upd G p l) (PQ k) (G (PQ k) ++ [a])) -> Q tt (set_list (set_q s k q) L)) ->
  wp (q_tail smp k a) s Q.
Proof. intros Hm Hp Hl HQ. apply (wp_q_tail_at smp s G k p a l); auto. Qed.

Lemma wp_free s G p a l (Q : unit -> mars_cec -> Prop) :
  mem_ok (m_list s) (m_bufs s) (get_q s) G -> off_queue p -> G p ≡ₚ a :: l ->
  (mem_ok (kfree_cmb (m_list s) a) (delete a (m_bufs s)) (get_q s) (upd G p l) ->
   Q tt (set_bufs (set_list s (kfree_cmb (m_list s) a)) (delete a (m_bufs s)))) ->
  wp (free_cmb a) s Q.
Proof.
  intros Hm Hp Hl HQ. destruct (mo_addr _ _ _ _ Hm p a) as (H1 & _ & [b Hb] & _); [rewrite Hl; set_solver|].
  eexists tt, _. split; [|by apply HQ, (mem_free _ _ _ _ p a l)].
  unfold free_cmb. destruct (Z.eqb_spec a 0); [lia|]. by rewrite Hb.
Qed.
End inv.
