(* ===== verification/CecTx.v ===== *)
(** * CEC: the sending side keeps the invariant *)
From stdpp Require Import base tactics list numbers option gmap.
From Stdlib Require Import ZArith Lia.
From S2P Require Import Prelude Driver Buff ScBuff Queue Cec CecProofs CecInv.

Section tx.
Context {cec_hw : CecHw}.
Variable smp : bool.
Variable HZ : Z.

(** The bytes [x] were written to the FIFO and nothing else happened. *)
Definition sent (x : list Z) (s s' : mars_cec) : Prop :=
  s' = set_hw s (regs s') (trace s') /\ submits (trace s') = submits (trace s) /\ dones (trace s') = dones (trace s) /\
  (forall a, msg_of (trace s') a = msg_of (trace s) a) /\ fifo_since (trace s') = fifo_since (trace s) ++ x.

Lemma calm_sent s s1 s2 x : calm s s1 -> sent x s1 s2 -> sent x s s2.
Proof.
  intros [E1 (A1 & A2 & A3 & A4)] (E2 & B1 & B2 & B3 & B4). split; [rewrite E2, E1; done|].
  rewrite B1, B2, B4, A1, A2, A4. split; [done|]. split; [done|]. split; [|done]. intros a. by rewrite B3.
Qed.

Lemma wp_tx_bytes n : forall ptr a b x s (Q : unit -> mars_cec -> Prop),
  m_bufs s !! a = Some b -> bload (buf b) ptr (Z.of_nat n) = Ret x ->
  (forall s', sent x s s' -> Q tt s') -> wp (tx_bytes n ptr a) s Q.
Proof.
  induction n as [|n IH]; intros ptr a b x s Q Hb Hx HQ; cbn [tx_bytes].
  - apply wp_ret, HQ. pose proof (load_bounds _ _ _ _ Hx) as (_ & _ & _ & HL).
    assert (x = []) as -> by (destruct x; [done|rewrite Zlen_cons in HL; pose proof (Zlen_nonneg x); lia]).
    split; [by destruct s|]. by rewrite app_nil_r.
  - unfold bload in Hx. destruct (load_S _ _ _ _ Hx) as (y & x' & -> & H1 & H2).
    apply wp_bind, (wp_get_cmb a b); [done|]. apply wp_bind, (wp_lift _ _ [y]); [done|]. apply wp_bind, wp_modify.
    apply (IH (ptr + 1) a b x'); [done|unfold bload; by replace (ptr + 1 - head (buf b)) with (ptr - head (buf b) + 1) by lia|].
    intros s' (E & B1 & B2 & B3 & B4). apply HQ. split; [by rewrite E|].
    split; [by rewrite B1|]. split; [by rewrite B2|]. split; [intros a'; by rewrite B3|].
    rewrite B4. cbn [trace set_hw fifo_since]. change (MIS_CEC_TX_FIFO =? MIS_CEC_TX_FIFO) with true. cbn [fifo_since].
    by rewrite <- app_assoc.
Qed.

Lemma land_nibble v : 0 <= Z.land v 15 <= 15.
Proof.
  change (Z.land v 15) with (Z.land v (Z.ones 4)). rewrite Z.land_ones by lia.
  pose proof (Z.mod_pos_bound v (2 ^ 4) ltac:(lia)). lia.
Qed.

Lemma wp_write_tx_fifo_raw a b h l t s (Q : Z -> mars_cec -> Prop) :
  m_bufs s !! a = Some b -> view (buf b) h l t -> Zlen l < 256 ->
  (forall n s1 b', 0 <= n <= Zlen l -> sent (firstn (Z.to_nat n) l) s s1 ->
     view (buf b') (h + n) (skipn (Z.to_nat n) l) t -> complete b' = complete b -> flags b' = flags b ->
     Q n (set_bufs s1 (<[a := b']> (m_bufs s)))) ->
  wp (_write_tx_fifo a) s Q.
Proof.
  intros Hb Hv Hl HQ. unfold _write_tx_fifo. apply wp_bind, wp_read. intros v s0 Hc _.
  assert (Hb0 : m_bufs s0 = m_bufs s) by (destruct Hc as [-> _]; done).
  apply wp_bind, (wp_get_cmb a b); [by rewrite Hb0|]. pose proof (land_nibble v) as H15.
  rewrite u8_id by lia. destruct (view_len _ _ _ _ Hv) as (HL & _ & _).
  set (n := if len (buf b) >? 15 - Z.land v 15 then 15 - Z.land v 15 else len (buf b)).
  assert (Hn : 0 <= n <= Zlen l). { pose proof (Zlen_nonneg l). unfold n. rewrite Z.gtb_ltb. repeat zcase; lia. }
  assert (Hld : bload (buf b) (data (buf b)) n = Ret (firstn (Z.to_nat n) l)).
  { destruct Hv as (Hva & _ & Hc' & _). pose proof (load_contents _ Hva) as H. rewrite Hc', HL in H. unfold bload in *.
    pose proof (load_sub _ _ _ _ 0 n H ltac:(lia) ltac:(lia) ltac:(lia)) as H'. rewrite Z.add_0_r in H'. rewrite H'.
    by rewrite load_ok by lia. }
  apply wp_bind, (wp_tx_bytes _ _ a b (firstn (Z.to_nat n) l)); [by rewrite Hb0|by rewrite Z2Nat.id by lia|].
  intros s1 Hs1. apply wp_bind, wp_put_cmb, wp_ret.
  destruct (view_pull (buf b) h l t n Hv Hn) as (m & E & _ & Hv').
  unfold cmb_pull. rewrite scb_pull_small by lia. cbn [snd]. rewrite E. cbn [snd].
  pose proof (calm_sent _ _ _ _ Hc Hs1) as Hs. assert (Eb : m_bufs s1 = m_bufs s) by (destruct Hs as [-> _]; done).
  rewrite Eb. by apply (HQ n s1 (set_buf b m)).
Qed.

(** More bytes of the current message to the FIFO. *)
Lemma wp_write_tx_fifo a s G : Core s G -> a ∈ G PX ->
  wp (_write_tx_fifo a) s (fun _ s' => Core s' G /\ same_ctl s s' /\ away a (m_bufs s) (m_bufs s') /\ keep s G s' G).
Proof.
  intros [[Hm Hp Ho] Hx Hr H0] Ha. destruct (Hp _ _ Ha) as (d & l & (b & h & t & Hb & Hv & Hl & Hc) & Hmsg).
  apply (wp_write_tx_fifo_raw a b h l t); [done|done|done|].
  intros n s1 b' Hn (E & B1 & B2 & B3 & B4) Hv' Hc' Hfl.
  assert (Hsk : Zlen (skipn (Z.to_nat n) l) < 256) by (unfold Zlen in *; rewrite length_skipn; lia).
  split; [|split; [rewrite E; by split|]; split; [by cbn; auto with cec|by apply (keep_flags s _ G a b b')]].
  rewrite E. split; try done. split; cbn [m_list m_bufs get_q set_bufs set_hw trace].
  - by apply mem_bufs.
  - intros p x Hin. destruct (decide (x = a)) as [->|Hne].
    + rewrite (gk_disj _ (mo_ghost _ _ _ _ Hm) _ _ _ Hin Ha). exists d, (skipn (Z.to_nat n) l). split.
      * exists b', (h + n), t. rewrite lookup_insert_eq. by rewrite Hc'.
      * rewrite B3, B4, Hmsg. by rewrite <- app_assoc, firstn_skipn.
    + apply (holds_away a (m_bufs s)); [auto with cec|done|]. specialize (Hp p x Hin).
      destruct p as [[]| | | | | |]; cbn [holds] in *; rewrite ?B3; try done.
      rewrite Hx in Hin, Ha. unfold nz in *. destruct (_ =? 0); set_solver.
  - unfold in_order. by rewrite B1, B2.
Qed.

(** A message leaves the driver: its buffer is released, or its sender is told. *)
Lemma wp_complete a s G p : Base s G -> p = PX \/ p = PHeld /\ G PX = [] -> G p = [a] ->
  wp (_cmb_tx_complete a) s (fun _ s' => exists G', Base s' G' /\ G' p = [] /\ (forall r, r <> p -> r <> PWait -> G' r = G r) /\
    same_ctl s s' /\ away a (m_bufs s) (m_bufs s') /\ keep s G s' G').
Proof.
  intros [Hm Hp Ho] Hpp Hpa. assert (Ha : a ∈ G p) by (rewrite Hpa; set_solver).
  assert (Hoq : off_queue p) by (destruct Hpp as [->|[-> _]]; done).
  assert (Hpw : p <> PWait) by (destruct Hpp as [->|[-> _]]; done).
  assert (Htx : exists l, tx_buf (m_bufs s) a l).
  { specialize (Hp p a Ha). destruct Hpp as [->|[-> _]]; cbn [holds] in Hp; naive_solver. }
  destruct Htx as (l & b & h & t & Hb & Hv & Hl & Hc0). pose proof (mo_ghost _ _ _ _ Hm) as Hg.
  assert (Hord : forall st G', G' p = [] -> (forall r, r <> p -> r <> PWait -> G' r = G r) -> in_order (EDone a st :: trace s) G').
  { intros st G' H1 H2. unfold in_order. cbn [submits dones]. rewrite Ho, <- !app_assoc. f_equal.
    destruct Hpp as [->|[-> Hx]].
    - by rewrite H1, Hpa, !H2.
    - rewrite H1, Hpa, !H2 by done. by rewrite Hx. }
  assert (Hevt : forall st B G', places B (trace s) G' -> places B (EDone a st :: trace s) G').
  { intros st B G' HP q x Hx. specialize (HP q x Hx). by destruct q as [[]| | | | | |]. }
  assert (Hu : forall m r, r <> p -> r <> PWait -> upd (upd G p []) PWait m r = G r).
  { intros m r H1 H2. by rewrite !upd_ne. }
  unfold _cmb_tx_complete. apply wp_bind, (wp_get_cmb a b); [done|].
  destruct (Z.eqb_spec (Z.land (flags b) NONBLOCK) 0) as [Hfl|Hfl]; cbn [negb].
  - apply wp_bind, wp_modify, wp_put_cmb. exists (upd (upd G p []) PWait (a :: G PWait)).
    split; [split; cbn [m_list m_bufs get_q set_bufs set_hw trace]|].
    + by apply mem_bufs, (mem_move _ _ _ G p PWait a []); [..|rewrite Hpa].
    + apply Hevt, (places_move (m_bufs s) _ _ G p PWait a []); [done|done|done|by rewrite Hpa|done|auto with cec|].
      eexists. rewrite lookup_insert_eq. split; [done|]. cbn [complete status].
      destruct (Z.eqb_spec (status b) WAIT_XMIT); cbn [complete status set_status]; (split; [lia|done]).
    + apply Hord; [by rewrite upd_ne, upd_eq|by apply Hu].
    + split; [by rewrite upd_ne, upd_eq|]. split; [by apply Hu|]. split; [done|]. split; [cbn; auto with cec|].
      split; [by apply Hu; [intros <-; destruct Hpp as [?|[? _]]|]|]. intros x [(r & Hr & Hx) Hbx]. split.
      * destruct (decide (x = a)) as [->|Hxa]; [exists PWait; by rewrite upd_eq; split; [|left]|].
        destruct (decide (r = p)) as [->|Hrp]; [rewrite Hpa in Hx; by apply list_elem_of_singleton in Hx|].
        exists r. split; [done|]. destruct (decide (r = PWait)) as [->|]; [rewrite upd_eq; by right|by rewrite Hu].
      * cbn. destruct (decide (x = a)) as [->|Hxa]; [|by rewrite lookup_insert_ne].
        rewrite lookup_insert_eq. eexists. split; [done|]. by destruct (status b =? WAIT_XMIT).
  - apply wp_bind, wp_modify. apply (wp_free _ G p a []); [done|done|by rewrite Hpa|]. intros Hm'.
    assert (Hu' : forall r, r <> p -> upd G p [] r = G r) by (intros r H1; by rewrite upd_ne).
    exists (upd G p []). split; [split; cbn [m_list m_bufs get_q set_bufs set_list set_hw trace]|].
    + done.
    + apply Hevt, (places_drop (m_bufs s) _ _ G p a []); [done|done|by rewrite Hpa|auto with cec].
    + apply Hord; [by rewrite upd_eq|auto].
    + split; [by rewrite upd_eq|]. split; [auto|]. split; [done|]. split; [cbn; auto with cec|].
      split; [by apply Hu'; intros <-; destruct Hpp as [?|[? _]]|]. intros x [(r & Hr & Hx) (bx & Hbx & Hfx)].
      assert (Hxa : x <> a) by (intros ->; congruence). split.
      * exists r. split; [done|]. destruct (decide (r = p)) as [->|]; [|by rewrite Hu'].
        rewrite Hpa in Hx. by apply list_elem_of_singleton in Hx.
      * exists bx. cbn. by rewrite lookup_delete_ne.
Qed.

(** ** Pieces of the state machine *)

(** [Post] with something more about the result. *)
Definition PostR {A} (k : bool) (s : mars_cec) (G : ghost) (R : A -> mars_cec -> Prop) (x : A) (s' : mars_cec) : Prop :=
  exists G', Inv k s' G' /\ keep s G s' G' /\ (agree s -> agree s') /\ R x s'.

Lemma wp_then {A B} (m : C A) (f : A -> C B) k k' s G (R : A -> mars_cec -> Prop) :
  wp m s (PostR k s G R) -> (forall x s' G', Inv k s' G' -> R x s' -> wp (f x) s' (fun _ => Post k' s' G')) ->
  wp (m ≫= f) s (fun _ => Post k' s G).
Proof.
  intros Hm Hf. apply wp_bind. apply (wp_mono _ _ _ _ Hm). intros x s1 (G1 & Hi & Hk & Ha & HR).
  apply (wp_mono _ _ _ _ (Hf x s1 G1 Hi HR)). intros _ s2 (G2 & Hi2 & Hk2 & Ha2).
  exists G2. split; [done|]. split; [by apply (keep_trans _ _ s1 G1)|auto].
Qed.

Lemma wp_seqR {A B} (m : C A) (f : A -> C B) k s G (R : A -> mars_cec -> Prop) (R' : B -> mars_cec -> Prop) :
  wp m s (PostR k s G R) -> (forall x s' G', Inv k s' G' -> R x s' -> wp (f x) s' (PostR k s' G' R')) ->
  wp (m ≫= f) s (PostR k s G R').
Proof.
  intros Hm Hf. apply wp_bind. apply (wp_mono _ _ _ _ Hm). intros x s1 (G1 & Hi & Hk & Ha & HR).
  apply (wp_mono _ _ _ _ (Hf x s1 G1 Hi HR)). intros y s2 (G2 & Hi2 & Hk2 & Ha2 & HR2).
  exists G2. split; [done|]. split; [by apply (keep_trans _ _ s1 G1)|auto].
Qed.

Lemma PostR_calm {A} k s s' G (R : A -> mars_cec -> Prop) x : Inv k s G -> calm s s' -> R x s' -> PostR k s G R x s'.
Proof.
  intros Hi Hc HR. destruct (Post_calm k s s' G Hc Hi) as (G' & H1 & H2 & H3). by exists G'.
Qed.

Lemma write_seq k s G a v : Inv k s G -> quiet (EWrite a v) = true -> wp (write_reg32 a v) s (PostR k s G (fun _ s' => same_ctl s s' /\ m_bufs s' = m_bufs s)).
Proof.
  intros Hi Hq. apply wp_write; [done|]. intros s' Hc. apply PostR_calm; [done|done|]. split; [by apply calm_ctl|]. by destruct Hc as [-> _].
Qed.

Lemma read_seq k s G a : Inv k s G -> wp (read_reg32 a) s (PostR k s G (fun _ s' => same_ctl s s' /\ m_bufs s' = m_bufs s)).
Proof.
  intros Hi. apply wp_read. intros v s' Hc _. apply PostR_calm; [done|done|]. split; [by apply calm_ctl|]. by destruct Hc as [-> _].
Qed.

Lemma emit_seq k s G e : Inv k s G -> quiet e = true -> wp (emit e) s (PostR k s G (fun _ s' => same_ctl s s' /\ m_bufs s' = m_bufs s)).
Proof.
  intros Hi Hq. apply wp_emit; [done|]. intros s' Hc. apply PostR_calm; [done|done|]. split; [by apply calm_ctl|]. by destruct Hc as [-> _].
Qed.

Lemma nz_ne a : a <> 0 -> nz a = [a].
Proof. intros H. unfold nz. by destruct (Z.eqb_spec a 0). Qed.

Lemma rx_open_away a B B' x : away a B B' -> x <> a -> rx_open B x -> rx_open B' x.
Proof. intros H Hx. unfold rx_open. by rewrite (H x Hx). Qed.

(** The buffers in use on both sides are different. *)
Lemma cur_ne s G a p : Core s G -> a ∈ G p -> p <> PR -> a <> r_cmb (rcv s).
Proof.
  intros [[Hm _ _] _ Hr _] Ha Hp ->. destruct (Z.eq_dec (r_cmb (rcv s)) 0) as [E|E].
  - destruct (mo_addr _ _ _ _ Hm _ _ Ha) as (? & _). lia.
  - apply Hp. apply (gk_disj _ (mo_ghost _ _ _ _ Hm) _ _ _ Ha). rewrite Hr, nz_ne by done. by left.
Qed.

Lemma Ctl_away k s s' a : Ctl k s -> same_ctl s s' -> away a (m_bufs s) (m_bufs s') -> a <> r_cmb (rcv s) -> Ctl k s'.
Proof.
  intros [H1 H2 H3 H4] [E1 E2 E3 E4] Haw Hne. split; rewrite ?E1, ?E2, ?E4; try done.
  destruct H3 as [(A1 & A2 & A3 & A4)|H3]; [left|by right]. do 3 (split; [done|]). by apply (rx_open_away a (m_bufs s)); [|congruence|].
Qed.

Lemma fifo_seq s G : Inv true s G -> x_cmb (xmit s) <> 0 ->
  wp (_write_tx_fifo (x_cmb (xmit s))) s (PostR true s G (fun _ s' => same_ctl s s')).
Proof.
  intros [Hc Ht Hr] Hx. assert (Ha : x_cmb (xmit s) ∈ G PX) by (rewrite (c_x _ _ Hc), nz_ne by done; by left).
  apply (wp_mono _ _ _ _ (wp_write_tx_fifo _ s G Hc Ha)). intros n s' (Hc' & Hs & Haw & Hk).
  exists G. split; [|split; [done|]; split; [|done]].
  - split; [done| |done]. apply (Ctl_away true s s' (x_cmb (xmit s))); [done|done|done|]. by apply (cur_ne s G _ PX).
  - unfold agree. destruct Hs as [-> -> -> _]. done.
Qed.

(** A change of the current message's status. *)
Lemma status_seq s G st : Inv true s G -> x_cmb (xmit s) <> 0 -> wp (tx_status st) s (PostR true s G (fun _ s' => same_ctl s s')).
Proof.
  intros [Hc Ht Hr] Hx. assert (Ha : x_cmb (xmit s) ∈ G PX) by (rewrite (c_x _ _ Hc), nz_ne by done; by left).
  pose proof Hc as [[Hm Hp Ho] Hlx Hlr H0]. destruct (Hp _ _ Ha) as (d & l & (b & h & t & Hb & Hv & Hl & Hc0) & Hmsg).
  unfold tx_status. apply wp_bind, wp_get. apply wp_bind, (wp_get_cmb _ b); [done|]. apply wp_put_cmb.
  exists G. split; [split; [split; [split| | |]| |]|]; try done; cbn [m_list m_bufs get_q set_bufs trace].
  - by apply mem_bufs.
  - apply (places_put (m_bufs s) _ _ G PX (x_cmb (xmit s))); [apply Hm|done|done|auto with cec|].
    exists d, l. split; [|done]. exists (set_status b st), h, t. by rewrite lookup_insert_eq.
  - apply (Ctl_away true s _ (x_cmb (xmit s))); [done|done|cbn; auto with cec|]. by apply (cur_ne s G _ PX).
  - split; [by apply (keep_flags s s G _ b (set_status b st)); [destruct s| |]|]. split; [done|by split].
Qed.

Lemma end_seq s G : Inv true s G -> x_cmb (xmit s) <> 0 ->
  wp tx_end s (PostR true s G (fun _ s' => x_state (xmit s') = IDEL /\ x_enable (xmit s') = x_enable (xmit s))).
Proof.
  intros [Hc Ht Hr] Hx. pose proof Hc as [Hb Hlx Hlr H0]. assert (Hpx : G PX = [x_cmb (xmit s)]) by (by rewrite Hlx, nz_ne).
  assert (Ha : x_cmb (xmit s) ∈ G PX) by (rewrite Hpx; by left).
  unfold tx_end. apply wp_bind, wp_get, wp_bind.
  apply (wp_mono _ _ _ _ (wp_complete (x_cmb (xmit s)) s G PX Hb (or_introl eq_refl) Hpx)).
  intros _ s' (G' & Hb' & Hp' & Ho' & [E1 E2 E3 E4] & Haw & Hk). apply wp_modify.
  exists G'. split; [split|].
  - split; cbn; [by destruct Hb'|done|by rewrite Ho', E2|by rewrite !Ho'].
  - destruct Ht as [T1 T2 T3 T4]. split; cbn [lock xmit rcv set_xmit x_state x_cmb x_enable m_bufs]; [congruence|by right| |by rewrite E2].
    rewrite E2. destruct T3 as [(A1 & A2 & A3 & A4)|T3]; [left|by right]. do 3 (split; [done|]).
    apply (rx_open_away (x_cmb (xmit s)) (m_bufs s)); [done| |done]. intros E. by apply (cur_ne s G (x_cmb (xmit s)) PX).
  - unfold ring_size. by rewrite !Ho'.
  - split; [done|]. split; [unfold agree; cbn; by rewrite E1, E2, E3|]. cbn. by rewrite E1.
Qed.

Lemma idle_seq k s G : Inv k s G ->
  PostR k s G (fun (_ : unit) s' => xmit s' = xmit s) tt
    (set_rcv s (mkRcv (r_enable (rcv s)) IDEL (r_cmb (rcv s)) (r_complete (rcv s)))).
Proof.
  intros [[[Hm Hp Ho] Hlx Hlr H0] [T1 T2 T3 T4] Hr]. exists G. split; [split; [split; [by split|done..]|split; [done|done|by right|done]|done]|].
  split; [apply keep_bufs; eauto|]. done.
Qed.

Lemma reset_seq k s G : Inv k s G -> wp mars_cec_rx_reset s (PostR k s G (fun _ s' => xmit s' = xmit s)).
Proof.
  intros Hi. unfold mars_cec_rx_reset. eapply wp_seqR; [by apply write_seq|]. intros [] s1 G1 Hi1 [Hs1 _].
  eapply wp_seqR; [by apply write_seq|]. intros [] s2 G2 Hi2 [Hs2 _]. apply wp_modify.
  destruct (idle_seq k s2 G2 Hi2) as (G3 & A1 & A2 & A3 & A4). exists G3. split; [done|]. split; [done|]. split; [done|].
  by rewrite A4, (sc_xmit _ _ Hs2), (sc_xmit _ _ Hs1).
Qed.

Lemma high_seq k s G : Inv k s G -> wp rst_tx_high s (PostR k s G (fun _ s' => xmit s' = xmit s)).
Proof.
  intros Hi. unfold rst_tx_high. eapply wp_seqR; [by apply write_seq|]. intros [] s1 G1 Hi1 [Hs1 _].
  eapply wp_seqR; [by apply reset_seq|]. intros [] s2 G2 Hi2 E2.
  apply (wp_mono _ _ _ _ (emit_seq k s2 G2 (ESchedule RxWork) Hi2 eq_refl)).
  intros x s3 (G3 & A1 & A2 & A3 & [A4 _]). exists G3. split; [done|]. split; [done|]. split; [done|].
  by rewrite (sc_xmit _ _ A4), E2, (sc_xmit _ _ Hs1).
Qed.

(** An optional piece. *)
Lemma if_seq {A} (b : bool) (m : C A) (x : A) k s G (R : A -> mars_cec -> Prop) :
  Inv k s G -> (b = true -> wp m s (PostR k s G R)) -> R x s -> wp (if b then m else mret x) s (PostR k s G R).
Proof. intros Hi Hm HR. destruct b; [auto|]. apply wp_ret, PostR_calm; [done|reflexivity|done]. Qed.

Lemma weaken_seq {A} (m : C A) k s G (R R' : A -> mars_cec -> Prop) :
  wp m s (PostR k s G R) -> (forall x s', R x s' -> R' x s') -> wp m s (PostR k s G R').
Proof. intros Hm H. apply (wp_mono _ _ _ _ Hm). intros x s' (G' & A1 & A2 & A3 & A4). exists G'. auto. Qed.

Lemma seq_post {A} (m : C A) k s G (R : A -> mars_cec -> Prop) : wp m s (PostR k s G R) -> wp m s (fun _ => Post k s G).
Proof. intros Hm. apply (wp_mono _ _ _ _ Hm). intros x s' (G' & A1 & A2 & A3 & A4). exists G'. auto. Qed.

Lemma bind_read {A} a (f : Z -> C A) s (Q : A -> mars_cec -> Prop) :
  (forall v s', calm s s' -> wp (f v) s' Q) -> wp (read_reg32 a ≫= f) s Q.
Proof. intros H. apply wp_bind, wp_read. auto. Qed.

(** A write of TX0 or TX1 is no part of a history. *)
Lemma quiet_tx0 v : quiet (EWrite MIS_CEC_TX0 v) = true.
Proof. done. Qed.

Lemma same_ctl_refl s : same_ctl s s.
Proof. by split. Qed.

Lemma cmb_of_cur s G : Core s G -> x_cmb (xmit s) <> 0 -> exists b, m_bufs s !! x_cmb (xmit s) = Some b.
Proof.
  intros [[Hm _ _] Hlx _ _] Hx. destruct (mo_addr _ _ _ _ Hm PX (x_cmb (xmit s))) as (_ & _ & [b Hb] & _); [|eauto].
  rewrite Hlx, nz_ne by done. by left.
Qed.

(** Refilling the FIFO when the controller asks for it. *)
Lemma refill_seq s G : Inv true s G -> x_cmb (xmit s) <> 0 ->
  wp (b ← get_cmb (x_cmb (xmit s));
      _ ← (if negb (len (buf b) =? 0) then
             _ ← _write_tx_fifo (x_cmb (xmit s));
             b ← get_cmb (x_cmb (xmit s));
             if len (buf b) =? 0 then
               v ← read_reg32 MIS_CEC_TX0;
               write_reg32 MIS_CEC_TX0 (Z.ldiff v TX_CONTINUOUS)
             else mret tt
           else mret tt);
      write_reg32 MIS_CEC_TX1 TX_INT) s (PostR true s G (fun _ s' => same_ctl s s')).
Proof.
  intros Hi Hx. destruct (cmb_of_cur s G (i_core _ _ _ Hi) Hx) as [b Hb].
  apply wp_bind, (wp_get_cmb _ b); [done|]. eapply (wp_seqR _ _ true s G (fun _ s' => same_ctl s s')).
  - apply if_seq; [done| |by split]. intros _. eapply wp_seqR; [by apply fifo_seq|]. intros n1 s1 G1 Hi1 Hs1.
    destruct (cmb_of_cur s1 G1 (i_core _ _ _ Hi1)) as [b1 Hb1]; [by rewrite (sc_xmit _ _ Hs1)|].
    apply wp_bind, (wp_get_cmb _ b1); [by rewrite <- (sc_xmit _ _ Hs1)|]. apply if_seq; [done| |done]. intros _.
    eapply wp_seqR; [by apply read_seq|]. intros v s2 G2 Hi2 [Hs2 _].
    apply (weaken_seq _ _ _ _ _ _ (write_seq true s2 G2 MIS_CEC_TX0 (Z.ldiff v TX_CONTINUOUS) Hi2 eq_refl)).
    intros _ s3 [Hs3 _]. by transitivity s1; [|transitivity s2].
  - intros [] s1 G1 Hi1 Hs1. apply (weaken_seq _ _ _ _ _ _ (write_seq true s1 G1 MIS_CEC_TX1 TX_INT Hi1 eq_refl)).
    intros _ s2 [Hs2 _]. by transitivity s1.
Qed.

Lemma xmitting_seq s G j : Inv true s G -> x_state (xmit s) = XMIT -> wp (tx_xmitting j) s (fun _ => Post true s G).
Proof.
  intros Hi Hst. assert (Hx : x_cmb (xmit s) <> 0) by (destruct (t_x _ _ (i_ctl _ _ _ Hi)) as [(_ & ? & _)|[? _]]; congruence).
  unfold tx_xmitting. apply wp_bind, wp_get. eapply wp_then; [by apply read_seq|]. intros v s1 G1 Hi1 [Hs1 _].
  rewrite <- (sc_xmit _ _ Hs1) in *. clear Hs1 Hi.
  eapply (wp_then _ _ true true s1 G1 (fun _ s' => same_ctl s1 s')).
  { apply if_seq; [done|intros _; by apply refill_seq|by split]. }
  intros [] s2 G2 Hi2 Hs2. destruct (time_after _ _); [|apply wp_ret, Post_refl; done].
  rewrite <- (sc_xmit _ _ Hs2) in *. eapply wp_then; [by apply write_seq|]. intros [] s3 G3 Hi3 [Hs3 _].
  eapply wp_then; [apply status_seq; [done|by rewrite (sc_xmit _ _ Hs3)]|]. intros [] s4 G4 Hi4 Hs4.
  eapply wp_then; [apply end_seq; [done|by rewrite (sc_xmit _ _ Hs4), (sc_xmit _ _ Hs3)]|]. intros [] s5 G5 Hi5 _.
  eapply wp_then; [by apply high_seq|]. intros [] s6 G6 Hi6 _. eapply seq_post. by apply emit_seq.
Qed.

Lemma finished_seq s G : Inv true s G -> x_state (xmit s) = XMIT -> wp tx_finished s (fun _ => Post true s G).
Proof.
  intros Hi Hst. assert (Hx : x_cmb (xmit s) <> 0) by (destruct (t_x _ _ (i_ctl _ _ _ Hi)) as [(_ & ? & _)|[? _]]; congruence).
  unfold tx_finished. eapply wp_then; [by apply emit_seq|]. intros [] s1 G1 Hi1 [Hs1 _].
  eapply wp_then; [by apply read_seq|]. intros v s2 G2 Hi2 [Hs2 _].
  assert (Hx2 : x_cmb (xmit s2) <> 0) by (by rewrite (sc_xmit _ _ Hs2), (sc_xmit _ _ Hs1)).
  eapply wp_then; [by apply status_seq|]. intros [] s3 G3 Hi3 Hs3.
  eapply wp_then; [by apply write_seq|]. intros [] s4 G4 Hi4 [Hs4 _].
  eapply wp_then; [apply end_seq; [done|by rewrite (sc_xmit _ _ Hs4), (sc_xmit _ _ Hs3)]|]. intros [] s5 G5 Hi5 _.
  eapply seq_post. by apply high_seq.
Qed.

Lemma calm_inv s s' : calm s s' -> exists r tr, s' = set_hw s r tr /\ same_hist (trace s) tr.
Proof. intros [-> H]. eexists _, _. by split; [|apply H]. Qed.

Lemma wp_rx_reset_raw s (Q : unit -> mars_cec -> Prop) :
  (forall s1, calm s s1 -> Q tt (set_rcv s1 (mkRcv (r_enable (rcv s)) IDEL (r_cmb (rcv s)) (r_complete (rcv s))))) ->
  wp mars_cec_rx_reset s Q.
Proof.
  intros HQ. unfold mars_cec_rx_reset. apply wp_bind, wp_write; [done|]. intros s1 H1. apply wp_bind, wp_write; [done|].
  intros s2 H2. apply wp_modify. assert (Hc : calm s s2) by (by transitivity s1). specialize (HQ s2 Hc).
  by replace (rcv s2) with (rcv s) by (destruct Hc as [-> _]; done).
Qed.

(** The next message goes from the queue to the controller: memory and history. *)
Lemma next_core s G a l b d m h t L q s1 tmo :
  Core s G -> G (PQ TXQ) = a :: l -> G PX = [] -> m_bufs s !! a = Some b -> view (buf b) h (d :: m) t ->
  Zlen (d :: m) < 256 -> complete b = 0 -> msg_of (trace s) a = Some (d :: m) ->
  mem_ok L (m_bufs s) (get_q (set_list (set_q s TXQ q) L)) (upd (upd G (PQ TXQ) l) PX [a]) ->
  let S1 := set_xmit (set_bufs (set_list (set_q s TXQ q) L) (<[a := snd (cmb_pull b 1)]> (m_bufs s)))
              (mkXmit (x_enable (xmit s)) (x_state (xmit s)) a tmo) in
  calm S1 s1 ->
  let s2 := set_rcv s1 (mkRcv (r_enable (rcv s)) IDEL (r_cmb (rcv s)) (r_complete (rcv s))) in
  let s3 := set_hw s2 (hwrite (regs s2) MIS_CEC_TX_DATA2 TX_DATA2) (EWrite MIS_CEC_TX_DATA2 TX_DATA2 :: trace s2) in
  Core s3 (upd (upd G (PQ TXQ) l) PX [a]) /\ keep s G s3 (upd (upd G (PQ TXQ) l) PX [a]).
Proof.
  intros [[Hm Hp Ho] Hlx Hlr [H0 H0']] Hq Hx Hb Hv Hl Hc0 Hmsg Hm' S1 (r & tr & -> & B1 & B2 & B3 & B4)%calm_inv s2 s3.
  destruct (view_pull (buf b) h (d :: m) t 1 Hv) as (b1 & Epl & _ & Hv1); [rewrite Zlen_cons; pose proof (Zlen_nonneg m); lia|].
  assert (Ep : snd (cmb_pull b 1) = set_buf b b1).
  { unfold cmb_pull. rewrite scb_pull_small; [by rewrite Epl|lia|]. destruct (view_len _ _ _ _ Hv) as (-> & _). done. }
  change (skipn (Z.to_nat 1) (d :: m)) with m in Hv1. rewrite Zlen_cons in Hl.
  split; [split; [split| | |]|]; unfold s3, s2; cbn [m_list m_bufs get_q set_hw set_rcv trace xmit rcv r_cmb set_xmit set_bufs S1 x_cmb].
  - by apply mem_bufs.
  - assert (Hne : PQ TXQ <> PX) by done.
    assert (Htr : forall p x, p <> PX -> holds (m_bufs s) (trace s) p x -> holds (m_bufs s) (EWrite MIS_CEC_TX_DATA2 TX_DATA2 :: tr) p x).
    { intros p x Hpx. destruct p as [[]| | | | | |]; cbn [holds msg_of]; rewrite ?B3; done. }
    intros p x Hin. destruct (decide (p = PX)) as [->|Hpx].
    + rewrite upd_eq in Hin. apply list_elem_of_singleton in Hin as ->. exists d, m. split.
      * exists (set_buf b b1), (h + 1), t. rewrite Ep, lookup_insert_eq. split; [done|]. split; [done|]. split; [lia|done].
      * cbn [msg_of]. rewrite B3. cbn [trace set_xmit set_bufs set_list set_q S1]. rewrite Hmsg. done.
    + rewrite upd_ne in Hin by done. assert (Hxa : x <> a).
      { intros ->. by apply (gok_drop_notin G (PQ TXQ) a l p (mo_ghost _ _ _ _ Hm)); [rewrite Hq|]. }
      apply (holds_away a (m_bufs s)); [auto with cec|done|]. apply Htr; [done|]. apply Hp.
      unfold upd in Hin. destruct (decide (PQ TXQ = p)) as [<-|]; [rewrite Hq; by right|done].
  - unfold in_order. cbn [submits dones]. rewrite B1, B2, upd_eq. rewrite (upd_ne _ PX (PQ TXQ)), upd_eq by done. rewrite !upd_ne by done.
    cbn [trace set_xmit set_bufs set_list set_q S1]. by rewrite Ho, Hx, Hq, H0.
  - rewrite upd_eq. destruct (mo_addr _ _ _ _ Hm (PQ TXQ) a) as (? & _); [rewrite Hq; by left|]. by rewrite nz_ne by lia.
  - by rewrite !upd_ne.
  - by rewrite !upd_ne.
  - split; [by rewrite !upd_ne|]. intros x [(p & Htx & Hin) (bx & Hbx & Hfx)]. split.
    + destruct (decide (x = a)) as [->|]; [exists PX; rewrite upd_eq; by split; [|left]|].
      exists p. split; [done|]. destruct (decide (p = PX)) as [->|]; [rewrite Hx in Hin; by apply not_elem_of_nil in Hin|].
      rewrite upd_ne by done. destruct (decide (PQ TXQ = p)) as [<-|]; [|by rewrite upd_ne].
      rewrite upd_eq. rewrite Hq in Hin. by apply elem_of_cons in Hin as [?|?].
    + cbn. destruct (decide (x = a)) as [->|]; [|rewrite lookup_insert_ne by done; eauto].
      rewrite lookup_insert_eq, Ep. eexists. split; [done|]. cbn. congruence.
Qed.

(** After the FIFO is filled the state machine moves to [XMIT]. *)
Lemma next_done s G : Core s G -> lock s = true -> x_cmb (xmit s) <> 0 -> x_enable (xmit s) = true ->
  r_state (rcv s) = IDEL -> (r_enable (rcv s) = false -> r_cmb (rcv s) = 0) -> ring_size G = RX_RING_LENGTH ->
  Inv true (set_xmit s (mkXmit (x_enable (xmit s)) XMIT (x_cmb (xmit s)) (x_timeout (xmit s)))) G.
Proof.
  intros [[Hm Hp Ho] Hlx Hlr H0] Hl Hx He Hr Hd Hs. split; [split; [by split|done..]| |done].
  split; cbn; [done|by left|by right|done].
Qed.

Lemma next_seq s G j : Inv true s G -> x_state (xmit s) = IDEL -> x_enable (xmit s) = true ->
  wp (tx_next smp HZ j) s (fun _ => Post true s G).
Proof.
  intros Hi Hst Hen. pose proof Hi as [Hc [T1 T2 T3 T4] Hrs]. pose proof Hc as [[Hm Hp Ho] Hlx Hlr [H0 H0']].
  assert (Hx0 : x_cmb (xmit s) = 0) by (destruct T2 as [[? _]|[_ ?]]; congruence).
  assert (Hpx : G PX = []) by (by rewrite Hlx, Hx0).
  unfold tx_next. destruct (G (PQ TXQ)) as [|a l] eqn:Hq.
  - apply wp_bind, (wp_dequeue_nil _ s G TXQ); [done|done|]. intros L q Hm'. apply wp_bind, wp_modify. cbn [Z.eqb].
    apply wp_ret. exists G. split; [|split; [apply keep_bufs; eauto|done]].
    split; [split; [by split|by cbn; rewrite Hlx, Hx0|done..]| |done].
    split; cbn; [done|by right|done|done].
  - apply wp_bind, (wp_dequeue _ s G TXQ PX a l); [done|done|done|done|]. intros L q Hm'. apply wp_bind, wp_modify.
    destruct (Hp (PQ TXQ) a) as (ml & Hne & (b & h & t & Hb & Hv & Hl & Hc0) & Hmsg); [rewrite Hq; by left|].
    destruct ml as [|d m]; [done|]. destruct (mo_addr _ _ _ _ Hm (PQ TXQ) a) as (Har & _); [rewrite Hq; by left|].
    destruct (Z.eqb_spec a 0); [lia|]. apply wp_bind, (wp_get_cmb a b); [done|].
    apply wp_bind, (wp_lift _ _ [d]).
    { destruct (view_len _ _ _ _ Hv) as (HL & _). destruct Hv as (Hva & _ & Hco & _). pose proof (load_contents _ Hva) as Hld.
      rewrite Hco, HL, Zlen_cons in Hld. unfold Zlen in Hld. unfold bload in *.
      replace (Z.of_nat (length m) + 1) with (Z.of_nat (S (length m))) in Hld by lia.
      by destruct (load_S _ _ _ _ Hld) as (y & x' & [= <- <-] & H1 & _). }
    apply wp_bind, wp_put_cmb. apply wp_bind, wp_modify. apply wp_bind, wp_rx_reset_raw. intros s1 Hs1.
    apply wp_bind, wp_modify. cbn [xmit set_bufs set_xmit x_enable x_state set_list set_q m_bufs rcv] in *.
    destruct (next_core s G a l b d m h t L q s1 (u32 (j + TX_TIMEOUT HZ)) Hc Hq Hpx Hb Hv Hl Hc0 Hmsg Hm' Hs1) as [Hc3 Hk3].
    set (G1 := upd (upd G (PQ TXQ) l) PX [a]) in *.
    match type of Hc3 with Core ?x _ => set (s3 := x) in * end.
    assert (Ex : xmit s3 = mkXmit (x_enable (xmit s)) (x_state (xmit s)) a (u32 (j + TX_TIMEOUT HZ)))
      by (destruct (calm_inv _ _ Hs1) as (r & tr & -> & _); done).
    assert (Er : rcv s3 = mkRcv (r_enable (rcv s)) IDEL (r_cmb (rcv s)) (r_complete (rcv s))) by done.
    assert (El : lock s3 = true /\ s_enable s3 = s_enable s) by (destruct (calm_inv _ _ Hs1) as (r & tr & -> & _); done).
    destruct El as [El Ee].
    apply wp_bind, wp_write; [done|]. intros s4 H4. apply wp_bind, wp_write; [done|]. intros s5 H5.
    assert (H35 : calm s3 s5) by (by transitivity s4). pose proof (calm_ctl _ _ H35) as [X5 R5 E5 L5].
    apply wp_bind. assert (Ha1 : a ∈ G1 PX) by (unfold G1; rewrite upd_eq; by left).
    apply (wp_mono _ _ _ _ (wp_write_tx_fifo a s5 G1 (Core_calm _ _ _ H35 Hc3) Ha1)).
    intros n6 s6 (Hc6 & [X6 R6 E6 L6] & _ & Hk6).
    assert (Hcm : x_cmb (xmit s6) = a) by (rewrite X6, X5, Ex; done).
    destruct (cmb_of_cur s6 G1 Hc6) as [b6 Hb6]; [by rewrite Hcm|]. rewrite Hcm in Hb6.
    apply wp_bind, (wp_get_cmb a b6); [done|]. apply wp_bind, wp_write; [done|]. intros s7 H7.
    pose proof (calm_ctl _ _ H7) as [X7 R7 E7 L7]. apply wp_bind, wp_modify. apply wp_emit; [done|]. intros s9 H9.
    assert (Hring : ring_size G1 = RX_RING_LENGTH) by (rewrite <- Hrs; unfold ring_size, G1; by rewrite !upd_ne).
    assert (Hi8 : Inv true (set_xmit s7 (mkXmit (x_enable (xmit s7)) XMIT (x_cmb (xmit s7)) (x_timeout (xmit s7)))) G1).
    { apply next_done; [by apply (Core_calm s6)|congruence| | | | |done];
        rewrite ?X7, ?X6, ?X5, ?Ex, ?R7, ?R6, ?R5, ?Er; done. }
    exists G1. split; [by apply (Inv_calm _ _ _ _ H9)|]. split.
    + apply (keep_trans _ _ s3 G1); [done|]. apply (keep_trans _ _ s5 G1); [by apply keep_calm|].
      apply (keep_trans _ _ s6 G1); [done|]. apply (keep_trans _ _ s7 G1); [by apply keep_calm|].
      eapply keep_trans; [|by apply keep_calm]. apply keep_bufs; eauto.
    + unfold agree. destruct (calm_ctl _ _ H9) as [-> -> -> _]. cbn [xmit rcv s_enable set_xmit x_enable].
      by rewrite X7, X6, X5, Ex, R7, R6, R5, Er, E7, E6, E5, Ee.
Qed.

(** ** The operations of the sending side *)

Lemma Inv_lock k k' s G : Inv k s G -> Inv k' (set_lock s k') G.
Proof. intros [[[Hm Hp Ho] Hlx Hlr H0] [T1 T2 T3 T4] Hr]. split; [split; [by split|done..]|by split|done]. Qed.

(** Taking and releasing the lock. *)
Lemma wp_lock_post {A} (f : unit -> C A) s G : Inv false s G ->
  (forall s', Inv true s' G -> xmit s' = xmit s -> rcv s' = rcv s -> s_enable s' = s_enable s ->
     wp (f tt) s' (fun _ => Post false s' G)) ->
  wp (lock_cec smp ≫= f) s (fun _ => Post false s G).
Proof.
  intros Hi Hf. apply wp_bind, wp_lock; [apply (i_ctl _ _ _ Hi)|].
  apply (wp_mono _ _ _ _ (Hf _ (Inv_lock _ true _ _ Hi) eq_refl eq_refl eq_refl)). intros x s' (G' & A1 & A2 & A3). by exists G'.
Qed.

Lemma wp_unlock (m : C unit) s G : wp m s (fun _ => Post true s G) -> wp (m ≫= fun _ => unlock_cec) s (fun _ => Post false s G).
Proof.
  intros Hm. apply wp_bind. apply (wp_mono _ _ _ _ Hm). intros _ s' (G' & Hi' & Hk & Ha).
  apply wp_modify. exists G'. split; [by apply (Inv_lock true)|]. split; [|done]. destruct Hk as [Hk1 Hk2]. by split.
Qed.

Lemma tx_work_spec s G j : Inv false s G -> wp (mars_cec_tx_work smp HZ j) s (fun _ => Post false s G).
Proof.
  intros Hi. apply wp_lock_post; [done|]. intros s0 Hi0 _ _ _. clear s Hi. rename s0 into s, Hi0 into Hi.
  apply wp_bind, wp_get. eapply (wp_then _ _ true false s G (fun _ _ => True)).
  - destruct (decide (x_state (xmit s) = XMIT)) as [Hst|]; [|apply wp_ret, PostR_calm; [done|reflexivity|done]].
    apply wp_bind, wp_read. intros v s1 Hc1 _. pose proof (Inv_calm _ _ _ _ Hc1 Hi) as Hi1.
    assert (Hst1 : x_state (xmit s1) = XMIT) by (by rewrite (sc_xmit _ _ (calm_ctl _ _ Hc1))).
    assert (H : wp (if negb (Z.land v TX_EN =? 0) then tx_xmitting j else tx_finished) s1 (fun _ => Post true s1 G)).
    { destruct (negb _); [by apply xmitting_seq|by apply finished_seq]. }
    apply (wp_mono _ _ _ _ H). intros x s2 (G2 & A1 & A2 & A3). exists G2. split; [done|].
    split; [by apply (keep_trans _ _ s1 G); [apply keep_calm|]|]. split; [|done].
    intros Ha. apply A3. unfold agree. by destruct (calm_ctl _ _ Hc1) as [-> -> -> _].
  - intros [] s1 G1 Hi1 _. apply wp_bind, wp_get. apply wp_unlock.
    destruct (decide (x_state (xmit s1) = IDEL)); [|by apply wp_ret, Post_refl].
    destruct (x_enable (xmit s1)) eqn:He; [by apply next_seq|by apply wp_ret, Post_refl].
Qed.

(** What [tx_stop] is left with: nothing to send. *)
Definition tx_empty (G G' : ghost) : Prop :=
  G' PX = [] /\ G' PHeld = [] /\ G' (PQ TXQ) = [] /\ (forall r, is_tx r = false -> G' r = G r).

Lemma take_held s G a l L q : Base s G -> G (PQ TXQ) = a :: l -> G PHeld = [] ->
  mem_ok L (m_bufs s) (get_q (set_list (set_q s TXQ q) L)) (upd (upd G (PQ TXQ) l) PHeld [a]) ->
  Base (set_list (set_q s TXQ q) L) (upd (upd G (PQ TXQ) l) PHeld [a]) /\
  keep s G (set_list (set_q s TXQ q) L) (upd (upd G (PQ TXQ) l) PHeld [a]).
Proof.
  intros [Hm Hp Ho] Hq Hh Hm'. split; [split; [done| |]|].
  - apply (places_move (m_bufs s) _ _ G (PQ TXQ) PHeld a l); [apply Hm|done|done|by rewrite Hq|by rewrite Hh|apply away_refl|].
    destruct (Hp (PQ TXQ) a) as (m & _ & Hb & _); [rewrite Hq; by left|]. by exists m.
  - unfold in_order. rewrite upd_eq. rewrite !(upd_ne _ PHeld) by done. rewrite upd_eq, upd_ne by done. cbn. by rewrite Ho, Hh, Hq.
  - apply keep_bufs; [by rewrite !upd_ne|done|]. intros p x Hp' Hin. destruct (decide (x = a)) as [->|].
    { exists PHeld. rewrite upd_eq. by split; [|left]. }
    exists p. split; [done|]. destruct (decide (p = PHeld)) as [->|]; [rewrite Hh in Hin; by apply not_elem_of_nil in Hin|].
    rewrite upd_ne by done. destruct (decide (PQ TXQ = p)) as [<-|]; [|by rewrite upd_ne].
    rewrite upd_eq. rewrite Hq in Hin. by apply elem_of_cons in Hin as [?|?].
Qed.

Lemma drain_spec fuel : forall s G, Base s G -> G PX = [] -> G PHeld = [] -> (length (G (PQ TXQ)) < fuel)%nat ->
  wp (tx_drain smp fuel) s (fun _ s' => exists G', Base s' G' /\ tx_empty G G' /\ same_ctl s s' /\ keep s G s' G').
Proof.
  induction fuel as [|fuel IH]; intros s G Hb Hx Hh Hf; [lia|]. cbn [tx_drain].
  destruct (G (PQ TXQ)) as [|a l] eqn:Hq.
  - apply wp_bind, (wp_dequeue_nil _ s G TXQ); [apply Hb|done|]. intros L q Hm'. cbn [Z.eqb]. apply wp_ret.
    exists G. split; [destruct Hb; by split|]. split; [by repeat split|]. split; [by split|]. apply keep_bufs; eauto.
  - apply wp_bind, (wp_dequeue _ s G TXQ PHeld a l); [apply Hb|done|done|done|]. intros L q Hm'.
    destruct (take_held s G a l L q Hb Hq Hh Hm') as [Hb1 Hk1].
    destruct (mo_addr _ _ _ _ (b_mem _ _ Hb) (PQ TXQ) a) as (Har & _); [rewrite Hq; by left|].
    destruct (Z.eqb_spec a 0); [lia|]. apply wp_bind.
    set (G1 := upd (upd G (PQ TXQ) l) PHeld [a]) in *.
    assert (Hx1 : G1 PX = []) by (unfold G1; by rewrite !upd_ne).
    assert (Hh1 : G1 PHeld = [a]) by (unfold G1; by rewrite upd_eq).
    assert (Hq1 : G1 (PQ TXQ) = l) by (unfold G1; by rewrite (upd_ne _ PHeld (PQ TXQ)), upd_eq by done).
    apply (wp_mono _ _ _ _ (wp_complete a _ G1 PHeld Hb1 (or_intror (conj eq_refl Hx1)) Hh1)).
    intros _ s2 (G2 & Hb2 & Hh2 & Ho2 & Hs2 & _ & Hk2).
    assert (Hf2 : (length (G2 (PQ TXQ)) < fuel)%nat) by (rewrite Ho2 by done; rewrite Hq1; cbn in Hf; lia).
    apply (wp_mono _ _ _ _ (IH s2 G2 Hb2 ltac:(by rewrite Ho2) Hh2 Hf2)). intros _ s3 (G3 & Hb3 & (E1 & E2 & E3 & E4) & Hs3 & Hk3).
    exists G3. split; [done|]. split.
    + repeat split; try done. intros r Hr. rewrite E4 by done. rewrite Ho2 by (by intros ->). unfold G1. rewrite !upd_ne; [done|by intros <-..].
    + split; [by transitivity s2; [destruct Hs2; by split|]|]. apply (keep_trans _ _ _ G1 _ _ Hk1). by apply (keep_trans _ _ s2 G2).
Qed.

(** No sender is left waiting in the driver. *)
Definition tx_stopped (G G' : ghost) (s s' : mars_cec) : Prop :=
  x_enable (xmit s') = false /\ G' PX = [] /\ G' (PQ TXQ) = [] /\ r_enable (rcv s') = r_enable (rcv s) /\ s_enable s' = s_enable s.

Lemma stop_pieces s G : Inv true s G ->
  wp (_ ← mars_cec_rx_reset;
      _ ← (if x_cmb (xmit s) =? 0 then mret tt else _cmb_tx_complete (x_cmb (xmit s)));
      _ ← tx_drain smp (drain_fuel s TXQ);
      modify (fun s => set_xmit s (mkXmit false IDEL 0 (x_timeout (xmit s))))) s
    (fun _ s' => exists G', Inv true s' G' /\ keep s G s' G' /\ tx_stopped G G' s s').
Proof.
  intros Hi. apply wp_bind, wp_rx_reset_raw. intros s1 H1. pose proof (Inv_calm _ _ _ _ H1 Hi) as [[Hb1 Hlx1 Hlr1 [Hh1 Hu1]] [T1 T2 T3 T4] Hrs].
  pose proof (calm_ctl _ _ H1) as [X1 R1 E1 L1].
  pose proof (qr_len _ _ _ (mo_q _ _ _ _ (b_mem _ _ (c_base _ _ (i_core _ _ _ Hi))) TXQ)) as Hql.
  set (s2 := set_rcv s1 _). assert (Hb2 : Base s2 G) by (destruct Hb1; by split).
  assert (Hcur : wp (if x_cmb (xmit s) =? 0 then mret tt else _cmb_tx_complete (x_cmb (xmit s))) s2 (fun _ s3 =>
     exists G3, Base s3 G3 /\ G3 PX = [] /\ (forall r, r <> PX -> r <> PWait -> G3 r = G r) /\ same_ctl s2 s3 /\ keep s2 G s3 G3)).
  { rewrite X1 in Hlx1. destruct (Z.eqb_spec (x_cmb (xmit s)) 0) as [E|E].
    - apply wp_ret. exists G. rewrite E in Hlx1. split; [done|]. split; [done|]. split; [done|]. split; [by split|apply keep_refl].
    - rewrite nz_ne in Hlx1 by done. apply (wp_mono _ _ _ _ (wp_complete _ s2 G PX Hb2 (or_introl eq_refl) Hlx1)).
      intros _ s3 (G3 & A1 & A2 & A3 & A4 & _ & A6). by exists G3. }
  apply wp_bind. apply (wp_mono _ _ _ _ Hcur). intros _ s3 (G3 & Hb3 & Hx3 & Ho3 & Hs3 & Hk3).
  apply wp_bind. assert (Hf : (length (G3 (PQ TXQ)) < drain_fuel s TXQ)%nat).
  { rewrite Ho3 by done. unfold drain_fuel. rewrite Hql. unfold Zlen. lia. }
  apply (wp_mono _ _ _ _ (drain_spec _ s3 G3 Hb3 Hx3 ltac:(by rewrite Ho3) Hf)).
  intros _ s4 (G4 & Hb4 & (A1 & A2 & A3 & A4) & Hs4 & Hk4). apply wp_modify.
  assert (Hs24 : same_ctl s2 s4) by (by transitivity s3). destruct Hs24 as [X4 R4 E4 L4].
  assert (Hrx : forall r, is_tx r = false -> G4 r = G r) by (intros r Hr; rewrite A4 by done; apply Ho3; by intros ->).
  exists G4. split; [split; [split| |]|split].
  - destruct Hb4; by split.
  - done.
  - cbn. rewrite Hrx, Hlr1, R1 by done. by rewrite R4.
  - split; [done|]. by rewrite Hrx.
  - split; cbn [lock xmit rcv set_xmit x_state x_cmb x_enable]; [by rewrite L4|by right|right; by rewrite R4|].
    rewrite R4. cbn. intros Hd. rewrite <- R1. apply T4. by rewrite R1.
  - unfold ring_size in *. by rewrite !Hrx.
  - apply (keep_trans _ _ s1 G); [by apply keep_calm|]. apply (keep_trans _ _ s2 G); [apply keep_bufs; eauto|].
    apply (keep_trans _ _ s3 G3); [done|]. apply (keep_trans _ _ s4 G4); [done|]. apply keep_bufs; eauto.
  - split; [done|]. split; [done|]. split; [done|]. cbn. rewrite R4, E4. done.
Qed.

Lemma tx_stop_spec s G : Inv false s G ->
  wp (mars_cec_tx_stop smp) s (fun _ s' => exists G', Inv false s' G' /\ keep s G s' G' /\ x_enable (xmit s') = false /\
    r_enable (rcv s') = r_enable (rcv s) /\ s_enable s' = s_enable s /\
    (x_enable (xmit s) = true -> G' PX = [] /\ G' (PQ TXQ) = [])).
Proof.
  intros Hi. unfold mars_cec_tx_stop. apply wp_bind, wp_lock; [apply (i_ctl _ _ _ Hi)|].
  pose proof (Inv_lock _ true _ _ Hi) as Hi1. apply wp_bind, wp_get. apply wp_bind. cbn [xmit set_lock].
  destruct (x_enable (xmit s)) eqn:He.
  - apply (wp_mono _ _ _ _ (stop_pieces _ G Hi1)). intros _ s2 (G2 & Hi2 & Hk2 & H1 & H2 & H3 & H4 & H5).
    apply wp_modify. exists G2. split; [by apply (Inv_lock true)|]. destruct Hk2 as [K1 K2]. split; [by split|]. done.
  - apply wp_ret, wp_modify. exists G. split; [by apply (Inv_lock true)|]. split; [apply keep_bufs; eauto|done].
Qed.

Lemma tx_start_spec s G : Inv false s G ->
  wp (mars_cec_tx_start smp) s (fun _ s' => Inv false s' G /\ keep s G s' G /\ x_enable (xmit s') = true /\
    r_enable (rcv s') = r_enable (rcv s) /\ s_enable s' = s_enable s).
Proof.
  intros Hi. unfold mars_cec_tx_start. apply wp_bind, wp_lock; [apply (i_ctl _ _ _ Hi)|].
  apply wp_bind, wp_get. apply wp_bind. cbn [xmit set_lock]. destruct (x_enable (xmit s)) eqn:He.
  - apply wp_ret, wp_modify. split; [by apply (Inv_lock true), Inv_lock with (k := false)|]. split; [apply keep_bufs; eauto|done].
  - apply wp_modify, wp_modify. destruct Hi as [[[Hm Hp Ho] Hlx Hlr H0] [T1 T2 T3 T4] Hr].
    assert (Hx0 : x_cmb (xmit s) = 0) by (destruct T2 as [(_ & _ & ?)|[_ ?]]; congruence).
    split; [split; [split; [by split|by cbn; rewrite Hlx, Hx0|done..]| |done]|].
    + split; cbn; [done|by right|done|done].
    + split; [apply keep_bufs; eauto|done].
Qed.
End tx.
