(* ===== verification/CecRx.v ===== *)
(** * CEC: the receiving side keeps the invariant *)
From stdpp Require Import base tactics list numbers option gmap.
From Stdlib Require Import ZArith Lia.
From S2P Require Import Prelude Driver Buff ScBuff Queue Cec CecProofs CecInv CecTx.

Section rx.
Context {cec_hw : CecHw}.
Variable smp : bool.

(** ** Reading the FIFO *)

Lemma bstore_1 b p x : valid b -> is_byte x -> head b <= p -> p + 1 <= end_ b ->
  exists m, bstore b p [x] = Ret (set_mem b m) /\ valid (set_mem b m).
Proof.
  intros Hv Hx H1 H2. destruct (bstore_ok b p [x] Hv) as (m & E & _ & Hl & Hf); [by constructor|done|done|].
  exists m. split; [done|]. destruct Hv. split; cbn; try done. congruence.
Qed.

Lemma bstore_cons b p x m xs b' : bstore b p [x] = Ret (set_mem b m) -> bstore (set_mem b m) (p + 1) xs = Ret b' -> bstore b p (x :: xs) = Ret b'.
Proof.
  unfold bstore. cbn [mem set_mem head]. intros H1 H2.
  destruct (store (mem b) (p - head b) [x]) as [m1| |] eqn:E1; [|done..]. cbn in H1. injection H1 as ->.
  destruct (store m (p + 1 - head b) xs) as [m2| |] eqn:E2; [|done..]. cbn in H2. injection H2 as <-.
  assert (E : store (mem b) (p - head b) ([x] ++ xs) = Ret m2).
  { apply (store_app _ _ _ _ m); [done|]. change (Zlen [x]) with 1. by replace (p - head b + 1) with (p + 1 - head b) by lia. }
  cbn [app] in E. by rewrite E.
Qed.

Lemma land_255 v : is_byte (Z.land v 0xFF).
Proof.
  unfold is_byte. change (Z.land v 255) with (Z.land v (Z.ones 8)). rewrite Z.land_ones by lia.
  pose proof (Z.mod_pos_bound v (2 ^ 8) ltac:(lia)). lia.
Qed.

Lemma set_buf_id b : set_buf b (buf b) = b.
Proof. by destruct b. Qed.

Lemma set_bufs_id s : set_bufs s (m_bufs s) = s.
Proof. by destruct s. Qed.

Lemma wp_rx_bytes n : forall ptr a b s (Q : unit -> mars_cec -> Prop),
  m_bufs s !! a = Some b -> valid (buf b) -> head (buf b) <= ptr -> ptr + Z.of_nat n <= end_ (buf b) ->
  (forall bs m s1, length bs = n -> Forall is_byte bs -> bstore (buf b) ptr bs = Ret m -> calm s s1 ->
     Q tt (set_bufs s1 (<[a := set_buf b m]> (m_bufs s)))) -> wp (rx_bytes n ptr a) s Q.
Proof.
  induction n as [|n IH]; intros ptr a b s Q Hb Hv H1 H2 HQ; cbn [rx_bytes].
  - apply wp_ret. specialize (HQ [] (buf b) s eq_refl (Forall_nil_2 _)).
    rewrite set_buf_id, insert_id, set_bufs_id in HQ by done. apply HQ; [|reflexivity].
    unfold bstore. rewrite store_nil by (destruct Hv; lia). by destruct (buf b).
  - apply wp_bind, wp_read. intros v s0 H0 _. assert (Eb : m_bufs s0 = m_bufs s) by (destruct H0 as [-> _]; done).
    apply wp_bind, (wp_get_cmb a b); [by rewrite Eb|].
    destruct (bstore_1 (buf b) ptr (Z.land v 255) Hv (land_255 v)) as (m & E & Hv1); [lia|lia|].
    apply wp_bind, (wp_lift _ _ _ _ E). apply wp_bind, wp_put_cmb.
    apply (IH (ptr + 1) a (set_buf b (set_mem (buf b) m))); [cbn; by rewrite lookup_insert_eq|done|cbn; lia|cbn; lia|].
    intros bs m' s1 Hl Hf Hst Hc. cbn [buf set_buf] in Hst. cbn [m_bufs set_bufs]. rewrite insert_insert_eq, Eb.
    destruct (calm_inv _ _ Hc) as (r & tr & -> & Hh). destruct (calm_inv _ _ H0) as (r0 & tr0 & -> & Hh0).
    specialize (HQ (Z.land v 255 :: bs) m' (set_hw s r tr)). cbn in HQ. apply HQ; [by rewrite Hl|constructor; [apply land_255|done]| |].
    + by apply (bstore_cons _ _ _ m).
    + split; [done|]. cbn. by transitivity tr0.
Qed.

(** The FIFO is read into the room of the buffer, or not at all. *)
Lemma wp_read_rx_fifo a b h l t s (Q : Z -> mars_cec -> Prop) :
  m_bufs s !! a = Some b -> view (buf b) h l t -> h + Zlen l + t = 64 ->
  (forall n s1 m bs, calm s s1 -> view m h (l ++ bs) (t - Zlen bs) -> n = Zlen bs \/ n = -12 /\ bs = [] ->
     Q n (set_bufs s1 (<[a := set_buf b m]> (m_bufs s)))) ->
  wp (_read_rx_fifo a) s Q.
Proof.
  intros Hb Hv Hsz HQ. unfold _read_rx_fifo. apply wp_bind, wp_read. intros v s0 H0 _. pose proof (land_nibble v) as H15.
  assert (Eb : m_bufs s0 = m_bufs s) by (destruct H0 as [-> _]; done).
  apply wp_bind, (wp_get_cmb a b); [by rewrite Eb|]. change (cmb_tailroom b) with (mcpb_tailroom (buf b)).
  rewrite (mcpb_tailroom_view _ _ _ _ Hv). destruct (view_len _ _ _ _ Hv) as (HL & Hh & Ht).
  rewrite Z.geb_leb. destruct (Z.leb_spec (Z.land v 15) t).
  - unfold cmb_put. rewrite scb_put_small by (rewrite HL; pose proof (Zlen_nonneg l); lia).
    set (n := Z.land v 15) in *. apply wp_bind, wp_put_cmb, wp_bind.
    pose proof Hv as (Hva & Hdh & Hco & Het). pose proof Hva as [].
    apply (wp_rx_bytes _ _ a (set_buf b (snd (mcpb_put (buf b) n)))).
    + cbn. by rewrite lookup_insert_eq.
    + cbn [buf set_buf]. unfold mcpb_put, set_ptrs. cbn [snd]. rewrite !u32_id by (unfold W32 in *; lia).
      split; cbn; try lia; done.
    + cbn. lia.
    + cbn. lia.
    + intros bs m s1 Hl Hf Hst Hc. apply wp_ret. cbn [buf set_buf fst mcpb_put] in Hst.
      assert (Hbs : Zlen bs = n) by (unfold Zlen; lia).
      destruct (view_put (buf b) h l t bs Hv Hf ltac:(lia)) as (b' & E & _ & Hv'). rewrite Hbs in Hv'.
      pose proof (bstore_put _ _ _ _ n E) as Ep. cbn [fst mcpb_put] in Hst. rewrite Hst in Ep. injection Ep as ->.
      destruct (calm_inv _ _ Hc) as (r & tr & -> & Hh'). destruct (calm_inv _ _ H0) as (r0 & tr0 & -> & Hh0).
      cbn [m_bufs set_bufs set_hw]. rewrite insert_insert_eq.
      specialize (HQ n (set_hw s r tr) (snd (mcpb_put b' n)) bs). cbn in HQ. apply HQ; [|by rewrite Hbs|by left].
      split; [done|]. cbn in *. by transitivity tr0.
  - apply wp_ret. specialize (HQ (-12) s0 (buf b) [] H0). rewrite app_nil_r in HQ. change (Zlen []) with 0 in HQ. rewrite Z.sub_0_r in HQ.
    rewrite set_buf_id, insert_id in HQ by done. rewrite <- Eb, set_bufs_id in HQ. apply HQ; auto.
Qed.

(** ** Pieces of the state machine *)

(** A step of the receiving side does not touch messages to send. *)
Lemma keep_rx s G s' G' : (forall p, is_tx p = true -> G' p = G p) -> G' PPrep = G PPrep ->
  (forall p x, is_tx p = true -> x ∈ G p -> m_bufs s' !! x = m_bufs s !! x) -> keep s G s' G'.
Proof.
  intros H1 H2 H3. split; [done|]. intros x [(p & Hp & Hx) (b & Hb & Hf)]. split; [exists p; by rewrite H1|].
  exists b. by rewrite (H3 p x Hp Hx).
Qed.

(** The buffer in use is on no other place. *)
Lemma cur_away s G p a x : mem_ok (m_list s) (m_bufs s) (get_q s) G -> a ∈ G p -> is_tx p = false ->
  forall r, is_tx r = true -> x ∈ G r -> x <> a.
Proof. intros Hm Ha Hp r Hr Hx ->. rewrite (gk_disj _ (mo_ghost _ _ _ _ Hm) _ _ _ Hx Ha) in Hr. congruence. Qed.

Lemma rcv_cur s G : Inv true s G -> r_state (rcv s) = RCV ->
  r_cmb (rcv s) <> 0 /\ G PR = [r_cmb (rcv s)] /\ r_enable (rcv s) = true /\ rx_open (m_bufs s) (r_cmb (rcv s)).
Proof.
  intros [[_ _ Hlr _] [_ _ [(H1 & H2 & H3 & H4)|H] _] _] Hst; [|congruence]. by rewrite Hlr, nz_ne.
Qed.

(** The buffer in use changes, and stays a buffer in use. *)
Lemma Inv_put_rx s s1 G m l t b : Inv true s G -> r_state (rcv s) = RCV -> m_bufs s !! r_cmb (rcv s) = Some b ->
  calm s s1 -> view m 1 l t -> 1 + Zlen l + t = 64 ->
  Inv true (set_bufs s1 (<[r_cmb (rcv s) := set_buf b m]> (m_bufs s))) G /\
  keep s G (set_bufs s1 (<[r_cmb (rcv s) := set_buf b m]> (m_bufs s))) G.
Proof.
  intros Hi Hst Hb (r & tr & -> & Hh)%calm_inv Hv Hsz. destruct (rcv_cur s G Hi Hst) as (Hne & Hpr & Hen & _).
  destruct Hi as [[[Hm Hp Ho] Hlx Hlr H0] [T1 T2 T3 T4] Hrs]. assert (Ha : r_cmb (rcv s) ∈ G PR) by (rewrite Hpr; by left).
  assert (Hro : rx_open (<[r_cmb (rcv s) := set_buf b m]> (m_bufs s)) (r_cmb (rcv s))).
  { exists (set_buf b m), l, t. by rewrite lookup_insert_eq. }
  split; [split; [split; [split| | |]| |]|]; cbn [m_list m_bufs get_q set_bufs set_hw trace xmit rcv]; try done.
  - by apply mem_bufs.
  - apply (places_hist _ (trace s)); [done|]. apply (places_put (m_bufs s) _ _ G PR (r_cmb (rcv s))); [apply Hm|done|done|auto with cec|].
    exists (set_buf b m), 1, l, t. by rewrite lookup_insert_eq.
  - by apply (in_order_hist (trace s)).
  - split; cbn; try done. left. done.
  - apply keep_rx; [done|done|]. intros p x Hp' Hx. cbn. rewrite lookup_insert_ne; [done|].
    intros E. by apply (cur_away s G PR (r_cmb (rcv s)) x Hm Ha eq_refl p).
Qed.

Lemma fifo_rx_seq s G : Inv true s G -> r_state (rcv s) = RCV ->
  wp (_read_rx_fifo (r_cmb (rcv s))) s (PostR true s G (fun _ s' => same_ctl s s')).
Proof.
  intros Hi Hst. destruct (rcv_cur s G Hi Hst) as (Hne & Hpr & Hen & (b & l & t & Hb & Hv & Hsz)).
  apply (wp_read_rx_fifo _ b 1 l t); [done|done|done|]. intros n s1 m bs Hc Hv' _.
  destruct (Inv_put_rx s s1 G m (l ++ bs) (t - Zlen bs) b Hi Hst Hb Hc Hv') as [Hi' Hk']; [rewrite Zlen_app; lia|].
  exists G. split; [done|]. split; [done|]. destruct (calm_inv _ _ Hc) as (r & tr & -> & _). split; [done|by split].
Qed.

Lemma state_seq k s G st : Inv k s G -> st = IDEL \/ st = RCV /\ r_state (rcv s) = RCV -> wp (set_rcv_state st) s
  (PostR k s G (fun _ s' => xmit s' = xmit s /\ r_enable (rcv s') = r_enable (rcv s) /\ r_state (rcv s') = st)).
Proof.
  intros [[[Hm Hp Ho] Hlx Hlr H0] [T1 T2 T3 T4] Hr] Hst. apply wp_modify. exists G.
  split; [split; [split; [by split|done..]| |done]|].
  - split; cbn; [done|done| |done]. destruct Hst as [->|[-> Hst]]; [by right|]. by rewrite Hst in T3.
  - split; [apply keep_bufs; eauto|]. done.
Qed.

Lemma more_seq s G : Inv true s G -> r_state (rcv s) = RCV ->
  wp (rx_more (r_cmb (rcv s))) s (PostR true s G (fun _ s' => r_enable (rcv s') = r_enable (rcv s))).
Proof.
  intros Hi Hst. unfold rx_more. eapply wp_seqR; [by apply read_seq|]. intros v s1 G1 Hi1 [Hs1 _].
  rewrite <- (sc_rcv _ _ Hs1) in *. apply if_seq; [done| |done]. intros _.
  eapply wp_seqR; [by apply fifo_rx_seq|]. intros n s2 G2 Hi2 Hs2. cbn beta in Hs2. rewrite <- (sc_rcv _ _ Hs2) in *.
  eapply (wp_seqR _ _ true s2 G2 (fun _ s' => r_enable (rcv s') = r_enable (rcv s2))).
  - apply if_seq; [done| |done]. intros _. eapply wp_seqR; [by apply write_seq|]. intros [] s3 G3 Hi3 [Hs3 _].
    apply (weaken_seq _ _ _ _ _ _ (state_seq true s3 G3 IDEL Hi3 (or_introl eq_refl))). intros _ s4 (_ & E & _).
    by rewrite E, (sc_rcv _ _ Hs3).
  - intros [] s3 G3 Hi3 E3. apply (weaken_seq _ _ _ _ _ _ (write_seq true s3 G3 MIS_CEC_RX1 RX_INT Hi3 eq_refl)).
    intros _ s4 [Hs4 _]. by rewrite (sc_rcv _ _ Hs4).
Qed.

Lemma u8_byte x : is_byte (u8 x).
Proof. unfold is_byte, u8. pose proof (Z.mod_pos_bound x 256 ltac:(lia)). lia. Qed.

(** A received message goes to the receive queue. *)
Lemma deliver_inv s G b m L q s1 s2 n : Inv true s G -> r_state (rcv s) = RCV -> m_bufs s !! r_cmb (rcv s) = Some b ->
  view m 0 n (64 - Zlen n) -> calm s s1 ->
  let a := r_cmb (rcv s) in
  let B := <[a := set_buf b m]> (m_bufs s) in
  let G' := upd (upd G PR []) (PQ RXQ) (G (PQ RXQ) ++ [a]) in
  mem_ok L B (get_q (set_list (set_q (set_bufs s1 B) RXQ q) L)) G' ->
  let S1 := set_rcv (set_list (set_q (set_bufs s1 B) RXQ q) L) (mkRcv (r_enable (rcv s)) RCV 0 (r_complete (rcv s))) in
  calm S1 s2 ->
  PostR true s G (fun (_ : unit) s' => r_enable (rcv s') = r_enable (rcv s)) tt
    (set_rcv s2 (mkRcv (r_enable (rcv s)) IDEL 0 (r_complete (rcv s) + 1))).
Proof.
  intros Hi Hst Hb Hv (r & tr & -> & Hh)%calm_inv a B G' Hm' S1 (r2 & tr2 & -> & Hh2)%calm_inv.
  destruct (rcv_cur s G Hi Hst) as (Hne & Hpr & Hen & _).
  destruct Hi as [[[Hm Hp Ho] Hlx Hlr [H0 H0']] [T1 T2 T3 T4] Hrs]. assert (Ha : a ∈ G PR) by (rewrite Hpr; by left).
  assert (Hhh : same_hist (trace s) tr2) by (cbn in Hh2; by transitivity tr).
  assert (Htx : forall p, p <> PR -> p <> PQ RXQ -> G' p = G p) by (intros p H1 H2; unfold G'; by rewrite !upd_ne).
  exists G'. split; [split; [split; [split| | |]| |]|]; cbn [m_list m_bufs get_q set_hw set_rcv set_list set_q set_bufs S1 trace xmit rcv r_cmb lock].
  - done.
  - apply (places_hist _ (trace s)); [done|]. unfold G'.
    apply (places_move (m_bufs s) _ _ G PR (PQ RXQ) a []); [apply Hm|done|done|by rewrite Hpr|by rewrite Permutation_app_comm|unfold B; auto with cec|].
    pose proof (view_len _ _ _ _ Hv) as (? & _). exists (set_buf b m), 0, n, (64 - Zlen n). unfold B. rewrite lookup_insert_eq. split; [done|]. split; [done|lia].
  - apply (in_order_hist (trace s)); [done|]. unfold in_order. by rewrite !Htx.
  - by rewrite Htx.
  - unfold G'. by rewrite upd_ne, upd_eq.
  - by rewrite !Htx.
  - split; cbn; [done|done|by right|done].
  - unfold ring_size in *. unfold G'. rewrite upd_eq. rewrite !(upd_ne _ (PQ RXQ)) by done. rewrite upd_eq, upd_ne by done.
    rewrite length_app. rewrite Hpr in Hrs. cbn in *. lia.
  - split; [|by split]. apply keep_rx; [intros p Hp'; apply Htx; by intros ->|by apply Htx|].
    intros p x Hp' Hx. cbn. unfold B. rewrite lookup_insert_ne; [done|]. intros E. by apply (cur_away s G PR a x Hm Ha eq_refl p).
Qed.

Lemma stopped_seq s G : Inv true s G -> r_state (rcv s) = RCV ->
  wp (rx_stopped smp (r_cmb (rcv s))) s (PostR true s G (fun _ s' => r_enable (rcv s') = r_enable (rcv s))).
Proof.
  intros Hi Hst. unfold rx_stopped. eapply wp_seqR; [by apply read_seq|]. intros v s1 G1 Hi1 [Hs1 _].
  rewrite <- (sc_rcv _ _ Hs1) in *. clear s G Hi Hs1.
  eapply (wp_seqR _ _ true s1 G1 (fun _ s' => same_ctl s1 s')).
  { apply if_seq; [done| |by split]. intros _. eapply wp_seqR; [by apply fifo_rx_seq|]. intros n s2 G2 Hi2 Hs2.
    apply wp_ret, PostR_calm; [done|reflexivity|done]. }
  intros got s G Hi Hs. cbn beta in Hs. rewrite <- (sc_rcv _ _ Hs) in *. clear s1 G1 Hi1 Hs. destruct got.
  2: { apply wp_bind, wp_ret. eapply weaken_seq; [by apply state_seq; [|left]|]. intros _ s4 (_ & E & _). done. }
  destruct (rcv_cur s G Hi Hst) as (Hne & Hpr & Hen & (b & l & t & Hb & Hv & Hsz)). pose proof (Zlen_nonneg l) as Hl0.
  apply wp_bind, wp_bind, (wp_get_cmb _ b); [done|]. destruct (view_len _ _ _ _ Hv) as (HL & _ & Ht0).
  unfold cmb_push. rewrite scb_push_small by lia. apply wp_bind, wp_read. intros v1 s1 H1 _. apply wp_bind, wp_read. intros v2 s2 H2 _.
  set (x := u8 (Z.lor (Z.shiftl (Z.land v1 15) 4) (Z.land v2 15))).
  destruct (view_push (buf b) 1 l t [x] Hv) as (m & Em & _ & Hvm & _); [constructor; [apply u8_byte|constructor]|done|].
  change (Zlen [x]) with 1 in *. apply wp_bind, (wp_lift _ _ m); [done|]. rewrite set_buf_buf. apply wp_bind, wp_put_cmb.
  assert (H12 : calm s s2) by (by transitivity s1). clear H1 H2.
  assert (Eb : m_bufs s2 = m_bufs s) by (destruct H12 as [-> _]; done). rewrite Eb.
  destruct (Inv_put_rx s s2 G (buf b) l t b Hi Hst Hb H12 Hv Hsz) as [[[[Hm2 _ _] _ _ _] _ _] _].
  apply wp_bind, (wp_q_tail _ _ G RXQ PR _ []); [|done|by rewrite Hpr|].
  { cbn in *. rewrite set_buf_id, insert_id in Hm2 by done. by apply mem_bufs. }
  intros L q Hm'. apply wp_bind, wp_modify. unfold rx_wake. apply wp_bind, wp_emit; [done|]. intros s4 H4. apply wp_modify, wp_modify.
  assert (Er : rcv s2 = rcv s) by (by rewrite (sc_rcv _ _ (calm_ctl _ _ H12))).
  assert (E4 : rcv s4 = mkRcv (r_enable (rcv s)) RCV 0 (r_complete (rcv s))).
  { rewrite (sc_rcv _ _ (calm_ctl _ _ H4)). cbn. by rewrite Er, Hst. }
  cbn [rcv set_rcv r_enable r_cmb r_complete]. rewrite E4. cbn [r_enable r_cmb r_complete].
  apply (deliver_inv s G b m L q s2 s4 ([x] ++ l)); [done|done|done| |done|done|].
  - replace (64 - Zlen ([x] ++ l)) with t; [done|]. rewrite Zlen_app. change (Zlen [x]) with 1. lia.
  - cbn in H4. by rewrite Er, Hst in H4.
Qed.

(** A buffer is taken from queue [k] to receive into. *)
Lemma take_rx s G k a l : Inv true s G -> r_enable (rcv s) = true -> r_cmb (rcv s) = 0 -> k <> TXQ -> G (PQ k) = a :: l ->
  wp (a ← q_dequeue smp k; set_rcv_cmb a) s (PostR true s G (fun _ s' => r_enable (rcv s') = true /\ r_state (rcv s') = r_state (rcv s))).
Proof.
  intros [[[Hm Hp Ho] Hlx Hlr [H0 H0']] [T1 T2 T3 T4] Hrs] Hen Hc Hk Hq. assert (Hpr : G PR = []) by (by rewrite Hlr, Hc).
  apply wp_bind, (wp_dequeue _ s G k PR a l); [done|done|done|done|]. intros L q Hm'. apply wp_modify.
  assert (Ha : 0 < a) by (destruct (mo_addr _ _ _ _ Hm (PQ k) a) as (? & _); [rewrite Hq; by left|lia]).
  assert (Hg : forall p, p <> PR -> p <> PQ k -> upd (upd G (PQ k) l) PR [a] p = G p) by (intros p A1 A2; by rewrite !upd_ne).
  assert (Hk1 : PQ TXQ <> PQ k) by congruence.
  exists (upd (upd G (PQ k) l) PR [a]). split; [split; [split; [split| | |]| |]|].
  - done.
  - apply (places_move (m_bufs s) _ _ G (PQ k) PR a l); [apply Hm|done|done|by rewrite Hq|by rewrite Hpr|apply away_refl|].
    specialize (Hp (PQ k) a ltac:(rewrite Hq; by left)). by destruct k.
  - unfold in_order. by rewrite !Hg.
  - by rewrite Hg.
  - cbn. rewrite upd_eq, nz_ne by lia. done.
  - by rewrite !Hg.
  - split; cbn; [done|done| |congruence]. right. destruct T3 as [(_ & ? & _)|?]; [congruence|done].
  - rewrite <- Hrs. unfold ring_size. rewrite upd_eq, Hpr. destruct k; [done| |];
      rewrite !(upd_ne _ PR), upd_eq, upd_ne, Hq by done; cbn; lia.
  - split; [|done]. apply keep_rx; [intros p Hp'; apply Hg; [by intros ->|intros ->; by destruct k]|by apply Hg|done].
Qed.

Lemma buffer_seq s G : Inv true s G -> r_enable (rcv s) = true -> r_state (rcv s) = IDEL ->
  wp (rx_buffer smp) s (PostR true s G (fun _ s' => r_enable (rcv s') = true /\ r_state (rcv s') = IDEL)).
Proof.
  intros Hi Hen Hst. unfold rx_buffer. apply wp_bind, wp_get.
  destruct (Z.eqb_spec (r_cmb (rcv s)) 0) as [Hc|Hc]; [|apply wp_ret, PostR_calm; [done|reflexivity|done]].
  pose proof (b_mem _ _ (c_base _ _ (i_core _ _ _ Hi))) as Hm.
  pose proof (qr_len _ _ _ (mo_q _ _ _ _ Hm FREEQ)) as Hql. change (cmb_queue_len (rx_free_queue s)) with (qlen (get_q s FREEQ)). rewrite Hql.
  destruct (G (PQ FREEQ)) as [|a l] eqn:Hq.
  - cbn [Zlen length Z.of_nat Z.eqb negb]. destruct (G (PQ RXQ)) as [|a l] eqn:Hq2.
    + apply wp_bind, (wp_dequeue_nil _ s G RXQ); [done|done|]. intros L q Hm'. apply wp_modify.
      destruct Hi as [[[_ Hp Ho] Hlx Hlr H0] [T1 T2 T3 T4] Hrs]. exists G.
      split; [split; [split; [by split|done|by cbn; rewrite Hlr, Hc|done]| |done]|].
      * split; cbn; [done|done|by right|done].
      * split; [apply keep_bufs; eauto|]. done.
    + rewrite <- Hst. by apply (take_rx s G RXQ a l).
  - destruct (Z.eqb_spec (Zlen (a :: l)) 0) as [E|_]; [rewrite Zlen_cons in E; pose proof (Zlen_nonneg l); lia|].
    rewrite <- Hst. by apply (take_rx s G FREEQ a l).
Qed.

(** Emptied, with a byte of head room. *)
Lemma view_fresh b h l t : view (buf b) h l t -> h + Zlen l + t = 64 -> view (buf (cmb_reserve (cmb_purge b) 1)) 1 [] 63.
Proof.
  intros Hv Hs. destruct (view_scb_purge b h l t Hv) as [_ Hv1]. rewrite Hs in Hv1.
  by destruct (view_reserve _ _ _ 1 Hv1) as [_ Hv2].
Qed.

Lemma restart_seq s G : Inv true s G -> r_enable (rcv s) = true -> r_state (rcv s) = IDEL ->
  wp (rx_restart smp) s (fun _ => Post true s G).
Proof.
  intros Hi Hen Hst. unfold rx_restart. eapply wp_then; [by apply read_seq|]. intros v s1 G1 Hi1 [Hs1 _].
  destruct (negb (v =? 1)); [by apply wp_ret, Post_refl|].
  eapply wp_then; [apply buffer_seq; [done|by rewrite (sc_rcv _ _ Hs1)..]|]. clear s G Hi Hen Hst s1 G1 Hi1 Hs1.
  intros [] s G Hi [Hen Hst]. apply wp_bind, wp_get.
  destruct (Z.eqb_spec (r_cmb (rcv s)) 0) as [Hc|Hc]; [by apply wp_ret, Post_refl|].
  pose proof Hi as [[[Hm Hp Ho] Hlx Hlr H0] [T1 T2 T3 T4] Hrs]. rewrite nz_ne in Hlr by done.
  assert (Ha : r_cmb (rcv s) ∈ G PR) by (rewrite Hlr; by left).
  destruct (Hp PR _ Ha) as (b & h & l & t & Hb & Hv & Hsz). apply wp_bind, (wp_get_cmb _ b); [done|]. apply wp_bind, wp_put_cmb.
  pose proof (view_fresh b h l t Hv Hsz) as Hv'. set (b' := cmb_reserve (cmb_purge b) 1) in *.
  assert (Hro : rx_open (<[r_cmb (rcv s) := b']> (m_bufs s)) (r_cmb (rcv s))) by (exists b', [], 63; by rewrite lookup_insert_eq).
  apply wp_bind, wp_write; [done|]. intros s2 H2. apply wp_bind, wp_write; [done|]. intros s3 H3. apply wp_bind, wp_write; [done|].
  intros s5 H5. apply wp_modify.
  assert (Hc5 : calm (set_bufs s (<[r_cmb (rcv s) := b']> (m_bufs s))) s5) by (transitivity s2; [done|]; by transitivity s3).
  destruct (calm_inv _ _ Hc5) as (r & tr & -> & Hh). cbn in Hh. exists G.
  split; [split; [split; [split| | |]| |]|]; cbn [m_list m_bufs get_q set_bufs set_hw set_rcv trace xmit rcv r_cmb]; try done.
  - by apply mem_bufs.
  - apply (places_hist _ (trace s)); [done|]. apply (places_put (m_bufs s) _ _ G PR (r_cmb (rcv s))); [apply Hm|done|done|auto with cec|].
    exists b', 1, [], 63. by rewrite lookup_insert_eq.
  - by apply (in_order_hist (trace s)).
  - by rewrite Hlr, nz_ne.
  - split; cbn; [done|done|by left|done].
  - split; [|done]. apply keep_rx; [done|done|]. intros p x Hp' Hx. cbn. rewrite lookup_insert_ne; [done|].
    intros E. by apply (cur_away s G PR (r_cmb (rcv s)) x Hm Ha eq_refl p).
Qed.

Lemma rx_work_spec s G : Inv false s G -> wp (mars_cec_rx_work smp) s (fun _ => Post false s G).
Proof.
  intros Hi. apply wp_lock_post; [done|]. intros s0 Hi0 _ _ _. clear s Hi. rename s0 into s, Hi0 into Hi.
  apply wp_bind, wp_get. apply wp_unlock. destruct (r_enable (rcv s)) eqn:Hen; cbn [negb].
  - eapply (wp_then _ _ true true s G (fun _ s' => r_enable (rcv s') = true)).
    + destruct (decide (r_state (rcv s) = RCV)) as [Hst|]; [|apply wp_ret, PostR_calm; [done|reflexivity|done]].
      eapply wp_seqR; [by apply read_seq|]. intros v s1 G1 Hi1 [Hs1 _]. rewrite <- (sc_rcv _ _ Hs1) in *.
      destruct (negb _); [eapply weaken_seq; [by apply more_seq|]|eapply weaken_seq; [by apply stopped_seq|]]; cbn; congruence.
    + intros [] s1 G1 Hi1 He1. apply wp_bind, wp_get. destruct (decide _); [by apply restart_seq|by apply wp_ret, Post_refl].
  - destruct (decide (r_state (rcv s) = RCV)) as [Hst|]; [|by apply wp_ret, Post_refl].
    destruct (rcv_cur s G Hi Hst) as (_ & _ & ? & _). congruence.
Qed.

(** ** Starting and stopping *)

Lemma rx_start_spec s G : Inv false s G ->
  wp (mars_cec_rx_start smp) s (fun _ s' => Inv false s' G /\ keep s G s' G /\ r_enable (rcv s') = true /\
    xmit s' = xmit s /\ s_enable s' = s_enable s).
Proof.
  intros Hi. unfold mars_cec_rx_start. apply wp_bind, wp_lock; [apply (i_ctl _ _ _ Hi)|].
  apply wp_bind, wp_get. apply wp_bind. cbn [rcv set_lock]. destruct (r_enable (rcv s)) eqn:He.
  - apply wp_ret, wp_modify. split; [by apply (Inv_lock true), Inv_lock with (k := false)|]. split; [apply keep_bufs; eauto|done].
  - apply wp_bind, wp_modify, wp_emit; [done|]. intros s1 (r & tr & -> & Hh)%calm_inv. apply wp_modify.
    destruct Hi as [[[Hm Hp Ho] Hlx Hlr H0] [T1 T2 T3 T4] Hr]. cbn in Hh.
    split; [split; [split; [split| |by cbn; rewrite Hlr, (T4 He)|]| |]|]; try done.
    + by apply (places_hist _ (trace s)).
    + by apply (in_order_hist (trace s)).
    + split; cbn; [done|done|by right|done].
Qed.

(** A receive buffer goes back to the free queue. *)
Lemma wp_recycle s G p a : Base s G -> p = PR \/ p = PUser -> G p = [a] ->
  wp (rx_recycle smp a) s (fun _ s' => Base s' (upd (upd G p []) (PQ FREEQ) (G (PQ FREEQ) ++ [a])) /\ same_ctl s s' /\
    keep s G s' (upd (upd G p []) (PQ FREEQ) (G (PQ FREEQ) ++ [a]))).
Proof.
  intros [Hm Hp Ho] Hpp Hpa. assert (Ha : a ∈ G p) by (rewrite Hpa; by left).
  assert (Hoq : off_queue p) by (by destruct Hpp as [-> | ->]). assert (Hntx : is_tx p = false) by (by destruct Hpp as [-> | ->]).
  assert (Hrx : rx_buf (m_bufs s) a) by (specialize (Hp p a Ha); by destruct Hpp as [-> | ->]).
  destruct Hrx as (b & h & l & t & Hb & Hv & Hsz). unfold rx_recycle. apply wp_bind, (wp_get_cmb a b); [done|]. apply wp_bind, wp_put_cmb.
  pose proof (view_fresh b h l t Hv Hsz) as Hv'. set (b' := cmb_reserve (cmb_purge b) 1) in *.
  apply (wp_q_tail _ _ G FREEQ p a []); [by apply mem_bufs|done|by rewrite Hpa|]. intros L q Hm'.
  assert (Hg : forall r, r <> p -> r <> PQ FREEQ -> upd (upd G p []) (PQ FREEQ) (G (PQ FREEQ) ++ [a]) r = G r) by (intros r A1 A2; by rewrite !upd_ne).
  assert (Hpne : forall r, is_tx r = true -> r <> p) by (intros r Hr ->; congruence).
  split; [split|split; [by split|]].
  - done.
  - apply (places_move (m_bufs s) _ _ G p (PQ FREEQ) a []); [apply Hm|done|by destruct Hpp as [-> | ->]|by rewrite Hpa|by rewrite Permutation_app_comm|cbn; auto with cec|].
    exists b', 1, [], 63. cbn. by rewrite lookup_insert_eq.
  - unfold in_order. by rewrite !Hg by (done || by apply Hpne).
  - apply keep_rx; [intros r Hr; apply Hg; [by apply Hpne|by intros ->]|apply Hg; [by destruct Hpp as [-> | ->]|done]|].
    intros r x Hr Hx. cbn. rewrite lookup_insert_ne; [done|]. intros E. by apply (cur_away s G p a x Hm Ha Hntx r).
Qed.

Lemma rx_drain_spec fuel : forall s G, Base s G -> G PUser = [] -> (length (G (PQ RXQ)) < fuel)%nat ->
  wp (rx_drain smp fuel) s (fun _ s' => exists G', Base s' G' /\ G' PUser = [] /\ G' (PQ RXQ) = [] /\
    length (G' (PQ FREEQ)) = (length (G (PQ FREEQ)) + length (G (PQ RXQ)))%nat /\
    (forall r, r <> PQ RXQ -> r <> PQ FREEQ -> r <> PUser -> G' r = G r) /\ same_ctl s s' /\ keep s G s' G').
Proof.
  induction fuel as [|fuel IH]; intros s G Hb Hu Hf; [lia|]. cbn [rx_drain]. destruct (G (PQ RXQ)) as [|a l] eqn:Hq.
  - apply wp_bind, (wp_dequeue_nil _ s G RXQ); [apply Hb|done|]. intros L q Hm'. cbn [Z.eqb]. apply wp_ret.
    exists G. split; [destruct Hb; by split|]. split; [done|]. split; [done|]. split; [cbn; lia|]. split; [done|]. split; [by split|]. apply keep_bufs; eauto.
  - apply wp_bind, (wp_dequeue _ s G RXQ PUser a l); [apply Hb|done|done|done|]. intros L q Hm'.
    destruct (mo_addr _ _ _ _ (b_mem _ _ Hb) (PQ RXQ) a) as (Har & _); [rewrite Hq; by left|].
    destruct (Z.eqb_spec a 0); [lia|]. apply wp_bind. set (G1 := upd (upd G (PQ RXQ) l) PUser [a]) in *.
    assert (Hg1 : forall r, r <> PUser -> r <> PQ RXQ -> G1 r = G r) by (intros r A1 A2; unfold G1; by rewrite !upd_ne).
    assert (Hu1 : G1 PUser = [a]) by (unfold G1; by rewrite upd_eq).
    assert (Hq1 : G1 (PQ RXQ) = l) by (unfold G1; by rewrite upd_ne, upd_eq).
    set (s1 := set_list (set_q s RXQ q) L) in *.
    assert (Hb1 : Base s1 G1).
    { destruct Hb as [Hm Hp Ho]. split; [done| |].
      - apply (places_move (m_bufs s) _ _ G (PQ RXQ) PUser a l); [apply Hm|done|done|by rewrite Hq|by rewrite Hu|apply away_refl|].
        apply (Hp (PQ RXQ)). rewrite Hq. by left.
      - unfold in_order. by rewrite !Hg1. }
    assert (Hk1 : keep s G s1 G1) by (apply keep_rx; [intros r Hr; apply Hg1; by intros ->|by apply Hg1|done]).
    apply (wp_mono _ _ _ _ (wp_recycle s1 G1 PUser a Hb1 (or_intror eq_refl) Hu1)). intros _ s2 (Hb2 & Hs2 & Hk2).
    set (G2 := upd (upd G1 PUser []) (PQ FREEQ) (G1 (PQ FREEQ) ++ [a])) in *.
    assert (Hg2 : forall r, r <> PUser -> r <> PQ FREEQ -> G2 r = G1 r) by (intros r A1 A2; unfold G2; by rewrite !upd_ne).
    assert (Hu2 : G2 PUser = []) by (unfold G2; by rewrite upd_ne, upd_eq).
    assert (Hf2 : (length (G2 (PQ RXQ)) < fuel)%nat) by (rewrite Hg2, Hq1 by done; cbn in Hf; lia).
    apply (wp_mono _ _ _ _ (IH s2 G2 Hb2 Hu2 Hf2)). intros _ s3 (G3 & Hb3 & E1 & E2 & E3 & E4 & Hs3 & Hk3).
    exists G3. split; [done|]. split; [done|]. split; [done|]. split; [|split; [|split]].
    + rewrite E3, (Hg2 (PQ RXQ)), Hq1 by done. unfold G2. rewrite upd_eq, length_app, Hg1 by done. cbn. lia.
    + intros r A1 A2 A3. rewrite E4, Hg2, Hg1 by done. done.
    + transitivity s2; [destruct Hs2; by split|done].
    + apply (keep_trans _ _ s1 G1); [done|]. by apply (keep_trans _ _ s2 G2).
Qed.

Lemma rx_stop_spec s G : Inv false s G ->
  wp (mars_cec_rx_stop smp) s (fun _ s' => exists G', Inv false s' G' /\ keep s G s' G' /\ r_enable (rcv s') = false /\
    xmit s' = xmit s /\ s_enable s' = s_enable s /\ G' PX = G PX /\ G' (PQ TXQ) = G (PQ TXQ) /\
    (r_enable (rcv s) = true -> G' (PQ RXQ) = [])).
Proof.
  intros Hi0. unfold mars_cec_rx_stop. apply wp_bind, wp_lock; [apply (i_ctl _ _ _ Hi0)|].
  pose proof (Inv_lock _ true _ _ Hi0) as Hi. apply wp_bind, wp_get. apply wp_bind.
  set (s0 := set_lock s true) in *. change (rcv s0) with (rcv s). destruct (r_enable (rcv s)) eqn:He.
  2: { apply wp_ret, wp_modify. exists G. split; [by apply (Inv_lock true)|]. split; [apply keep_bufs; eauto|done]. }
  apply wp_bind, wp_write; [done|]. intros s1 H1. apply wp_bind, wp_write; [done|]. intros s2 H2.
  assert (H02 : calm s0 s2) by (by transitivity s1). pose proof (Inv_calm _ _ _ _ H02 Hi) as [[Hb2 Hlx2 Hlr2 [Hh2 Hu2]] [T1 T2 T3 T4] Hrs].
  pose proof (calm_ctl _ _ H02) as [X2 R2 E2 L2]. change (rcv s0) with (rcv s) in R2. change (xmit s0) with (xmit s) in X2.
  pose proof (qr_len _ _ _ (mo_q _ _ _ _ (b_mem _ _ (c_base _ _ (i_core _ _ _ Hi))) RXQ)) as Hql.
  assert (Hcur : wp (if r_cmb (rcv s) =? 0 then mret tt else rx_recycle smp (r_cmb (rcv s))) s2 (fun _ s3 =>
     exists G3, Base s3 G3 /\ G3 PR = [] /\ length (G3 (PQ FREEQ)) = (length (G (PQ FREEQ)) + length (G PR))%nat /\
       (forall r, r <> PR -> r <> PQ FREEQ -> G3 r = G r) /\ same_ctl s2 s3 /\ keep s2 G s3 G3)).
  { rewrite R2 in Hlr2. destruct (Z.eqb_spec (r_cmb (rcv s)) 0) as [E|E].
    - apply wp_ret. exists G. rewrite E in Hlr2. rewrite Hlr2. split; [done|]. split; [done|]. split; [cbn; lia|].
      split; [done|]. split; [by split|apply keep_refl].
    - rewrite nz_ne in Hlr2 by done. apply (wp_mono _ _ _ _ (wp_recycle s2 G PR _ Hb2 (or_introl eq_refl) Hlr2)).
      intros _ s3 (A1 & A2 & A3). eexists. split; [exact A1|]. rewrite Hlr2. split; [by rewrite upd_ne, upd_eq|].
      split; [rewrite upd_eq, length_app; cbn; lia|]. split; [intros r B1 B2; by rewrite !upd_ne|done]. }
  apply wp_bind. apply (wp_mono _ _ _ _ Hcur). intros _ s3 (G3 & Hb3 & Hp3 & Hl3 & Ho3 & Hs3 & Hk3).
  apply wp_bind. assert (Hf : (length (G3 (PQ RXQ)) < drain_fuel s0 RXQ)%nat).
  { rewrite Ho3 by done. unfold drain_fuel. rewrite Hql. unfold Zlen. lia. }
  apply (wp_mono _ _ _ _ (rx_drain_spec _ s3 G3 Hb3 ltac:(by rewrite Ho3) Hf)).
  intros _ s4 (G4 & Hb4 & A1 & A2 & A3 & A4 & Hs4 & Hk4). apply wp_modify, wp_modify.
  assert (Hs24 : same_ctl s2 s4) by (by transitivity s3). destruct Hs24 as [X4 R4 E4 L4].
  assert (Hrx : forall r, r <> PR -> r <> PQ RXQ -> r <> PQ FREEQ -> r <> PUser -> G4 r = G r) by (intros; by rewrite A4, Ho3).
  exists G4. split; [split; [split| |]|split].
  - destruct Hb4; by split.
  - cbn. by rewrite Hrx, X4, Hlx2.
  - cbn. by rewrite A4, Hp3.
  - by rewrite Hrx.
  - split; cbn; [done|by rewrite X4|by right|done].
  - unfold ring_size in *. rewrite A2, A3, Hl3, A4, Hp3, Ho3 by done. cbn. lia.
  - apply (keep_trans _ _ s2 G); [destruct (calm_inv _ _ H02) as (r & tr & -> & _); apply keep_bufs; eauto|].
    apply (keep_trans _ _ s3 G3); [done|]. apply (keep_trans _ _ s4 G4); [done|]. apply keep_bufs; eauto.
  - cbn. rewrite X4, X2, E4, E2. do 3 (split; [done|]). split; [by rewrite Hrx|]. split; [by rewrite Hrx|done].
Qed.
End rx.
