(* ===== verification/CecOps.v ===== *)
(** * CEC: the operations of the driver as a whole *)
From stdpp Require Import base tactics list numbers option gmap.
From Stdlib Require Import ZArith Lia.
From S2P Require Import Prelude Driver Buff ScBuff Queue Cec CecProofs CecInv CecTx CecRx.

Section ops.
Context {cec_hw : CecHw}.
Variable smp : bool.
Variable sz : Z.
Variable HZ : Z.
Hypothesis Hsz : 0 <= sz < 1000000.

Lemma Post_trans k k' s G s1 G1 s2 : Inv k s1 G1 -> keep s G s1 G1 -> (agree s -> agree s1) -> Post k' s1 G1 s2 -> Post k' s G s2.
Proof.
  intros _ Hk Ha (G2 & A1 & A2 & A3). exists G2. split; [done|]. split; [by apply (keep_trans _ _ s1 G1)|auto].
Qed.

Lemma isr_spec s G j : Inv false s G -> wp (mars_cec_isr smp HZ j) s (fun _ => Post false s G).
Proof.
  intros Hi. unfold mars_cec_isr. eapply wp_then; [by apply read_seq|]. intros v s1 G1 Hi1 _.
  destruct (_ =? 0); [by apply wp_ret, Post_refl|].
  eapply (wp_then _ _ false false s1 G1 (fun _ _ => True)).
  { destruct (negb _); [|apply wp_ret, PostR_calm; [done|reflexivity|done]].
    apply (wp_mono _ _ _ _ (tx_work_spec smp HZ s1 G1 j Hi1)). intros x s2 (G2 & A1 & A2 & A3). by exists G2. }
  intros [] s2 G2 Hi2 _. eapply (wp_then _ _ false false s2 G2 (fun _ _ => True)).
  { destruct (negb _); [|apply wp_ret, PostR_calm; [done|reflexivity|done]].
    apply (wp_mono _ _ _ _ (rx_work_spec smp s2 G2 Hi2)). intros x s3 (G3 & A1 & A2 & A3). by exists G3. }
  intros [] s3 G3 Hi3 _. eapply wp_then; [by apply write_seq|]. intros [] s4 G4 Hi4 _. by apply wp_ret, Post_refl.
Qed.

Lemma Inv_enable k s G b : Inv k s G -> Inv k (set_enable s b) G.
Proof. intros [[[Hm Hp Ho] Hlx Hlr H0] [T1 T2 T3 T4] Hr]. split; [split; [by split|done..]|by split|done]. Qed.

(** Enabling and disabling; after disabling nothing is queued or being sent. *)
Lemma enable_spec s G b : Inv false s G -> agree s ->
  wp (mars_cec_enable smp b) s (fun _ s' => exists G', Inv false s' G' /\ keep s G s' G' /\ agree s' /\ s_enable s' = b /\
    (s_enable s = true -> b = false -> G' PX = [] /\ G' (PQ TXQ) = [])).
Proof.
  intros Hi [Ha1 Ha2]. unfold mars_cec_enable. apply wp_bind, wp_get. destruct b.
  - destruct (s_enable s) eqn:He; [apply wp_ret; exists G; split; [done|]; split; [apply keep_refl|]; split; [split; congruence|]; by split|].
    apply wp_bind, wp_read. intros v s1 H1 _. apply wp_bind, wp_write; [done|]. intros s2 H2.
    assert (H02 : calm s s2) by (by transitivity s1). apply wp_bind.
    apply (wp_mono _ _ _ _ (rx_start_spec smp s2 G (Inv_calm _ _ _ _ H02 Hi))). intros _ s3 (Hi3 & Hk3 & R3 & X3 & E3). apply wp_bind.
    apply (wp_mono _ _ _ _ (tx_start_spec smp s3 G Hi3)). intros _ s4 (Hi4 & Hk4 & X4 & R4 & E4). apply wp_bind, wp_modify, wp_ret.
    exists G. split; [by apply Inv_enable|]. split; [|split; [split; cbn; congruence|done]].
    apply (keep_trans _ _ s2 G); [by apply keep_calm|]. apply (keep_trans _ _ s3 G); [done|]. apply (keep_trans _ _ s4 G); [done|]. apply keep_bufs; eauto.
  - destruct (s_enable s) eqn:He; [|apply wp_ret; exists G; split; [done|]; split; [apply keep_refl|]; split; [split; congruence|]; by split].
    apply wp_bind, wp_read. intros v s1 H1 _. apply wp_bind, wp_write; [done|]. intros s2 H2.
    assert (H02 : calm s s2) by (by transitivity s1). apply wp_bind, wp_modify, wp_bind.
    pose proof (Inv_calm _ _ _ _ H02 Hi) as Hi2. destruct (calm_ctl _ _ H02) as [X2 R2 E2 L2].
    apply (wp_mono _ _ _ _ (rx_stop_spec smp _ G (Inv_enable _ _ _ false Hi2))).
    intros _ s3 (G3 & Hi3 & Hk3 & R3 & X3 & E3 & P1 & P2 & P3). apply wp_bind.
    apply (wp_mono _ _ _ _ (tx_stop_spec smp s3 G3 Hi3)). intros _ s4 (G4 & Hi4 & Hk4 & X4 & R4 & E4 & Hemp). apply wp_ret.
    exists G4. split; [done|]. split; [|split; [split; rewrite ?E4, ?E3; cbn; congruence|split; [by rewrite E4, E3|]]].
    + apply (keep_trans _ _ s2 G); [by apply keep_calm|]. eapply keep_trans; [|by apply (keep_trans _ _ s3 G3)]. apply keep_bufs; eauto.
    + intros _ _. apply Hemp. rewrite X3. cbn. congruence.
Qed.

(** ** Allocation *)

(** What [kmalloc] promises: a block of the size asked for, in none of the
    memory in use. *)
Definition al_ok (s : mars_cec) (size : Z) (al : option (Z * list Z)) : Prop :=
  exists p m, al = Some (p, m) /\ Zlen m = sz + size /\ 0 < p /\ p + (sz + size) < W32 /\ Forall is_byte m /\
    m_bufs s !! p = None /\ (forall k, p <> qaddr (get_q s k)).

Lemma wp_new_cmb s size al (Q : Z -> mars_cec -> Prop) : 0 <= size < 1000000 -> al_ok s size al ->
  (forall p b, (exists m, al = Some (p, m)) -> 0 < p < W32 -> m_bufs s !! p = None -> (forall k, p <> qaddr (get_q s k)) -> view (buf b) 0 [] size -> complete b = 0 ->
     Q p (set_bufs (set_list s (insert_node (m_list s) p)) (<[p := b]> (m_bufs s)))) ->
  wp (new_cmb sz al size) s Q.
Proof.
  intros Hs (p & m & -> & Hm & Hp & Hpw & Hmb & Hf & Hh) HQ. eexists _, _. split.
  { unfold new_cmb, alloc_cmb, alloc_scb, INIT_LIST_HEAD. rewrite set_next_ok, res_bind_Ret, set_prev_ok, res_bind_Ret.
    - cbn [nx pv]. rewrite !insert_insert_eq. reflexivity.
    - cbn. by rewrite lookup_insert_eq.
    - cbn. by rewrite lookup_insert_eq. }
  apply HQ; [eauto|lia|done|done| |done]. cbn [buf]. rewrite (u32_id (p + sz)) by lia. rewrite u32_id by lia.
  split; [|split; [|split]]; cbn [self head data tail end_ len mem]; try lia; try done.
  split; cbn [self head data tail end_ len mem]; try lia.
  - unfold Zlen in *. rewrite length_skipn. lia.
  - by apply Forall_drop.
Qed.

(** A new buffer in place [p]. *)
Lemma Base_alloc s G p a b : Base s G -> off_queue p -> is_tx p = false -> m_bufs s !! a = None -> 0 < a < W32 ->
  (forall k, a <> qaddr (get_q s k)) -> holds (<[a := b]> (m_bufs s)) (trace s) p a ->
  Base (set_bufs (set_list s (insert_node (m_list s) a)) (<[a := b]> (m_bufs s))) (upd G p (a :: G p)).
Proof.
  intros [Hm Hp Ho] Hoq Htx Hf Hr Hh Hb. split; cbn [m_list m_bufs get_q set_bufs set_list trace].
  - by apply mem_alloc.
  - apply (places_add (m_bufs s) _ _ G p a); [done| |done|auto with cec|done].
    intros r Hx. destruct (mo_addr _ _ _ _ Hm r a Hx) as (_ & _ & [? H] & _). congruence.
  - unfold in_order. rewrite !upd_ne; [done|by intros ->..].
Qed.

Lemma keep_alloc s G p a b : Base s G -> is_tx p = false -> m_bufs s !! a = None -> 
  forall a', inflight s G a' -> inflight (set_bufs (set_list s (insert_node (m_list s) a)) (<[a := b]> (m_bufs s))) (upd G p (a :: G p)) a'.
Proof.
  intros [Hm _ _] Htx Hf x [(r & Hr & Hx) (bx & Hbx & Hfx)]. split.
  - exists r. split; [done|]. rewrite upd_ne; [done|]. intros ->. congruence.
  - exists bx. cbn. rewrite lookup_insert_ne; [done|]. intros ->. congruence.
Qed.

(** ** Sending *)

(** [send_prepare] makes a buffer with the message. *)
Lemma prepare_spec s G al msg : Inv false s G -> al_ok s (Zlen msg) al -> msg <> [] -> Forall is_byte msg -> Zlen msg < 256 ->
  wp (send_prepare sz al msg) s (fun a s' => Inv false s' (upd G PPrep (a :: G PPrep)) /\ 0 < a < W32 /\
    same_ctl s s' /\ (forall x, inflight s G x -> inflight s' (upd G PPrep (a :: G PPrep)) x)).
Proof.
  intros Hi Hal Hne Hby Hlen. unfold send_prepare. pose proof (Zlen_nonneg msg) as H0. apply wp_bind, wp_new_cmb; [lia|done|].
  intros p b _ Hp Hf Hh Hv Hc. destruct (Z.eqb_spec p 0); [lia|]. apply wp_bind, (wp_get_cmb p b); [cbn; by rewrite lookup_insert_eq|].
  destruct (view_len _ _ _ _ Hv) as (HL & _). change (Zlen []) with 0 in HL.
  unfold cmb_put. rewrite scb_put_small by lia. destruct (view_put (buf b) 0 [] (Zlen msg) msg Hv Hby ltac:(lia)) as (m & E & _ & Hv').
  apply wp_bind, (wp_lift _ _ _ _ (bstore_put _ _ _ _ (Zlen msg) E)). rewrite set_buf_buf. apply wp_bind, wp_put_cmb, wp_ret.
  cbn [m_bufs set_bufs set_list]. rewrite insert_insert_eq. rewrite Z.sub_diag in Hv'.
  set (b' := set_buf b (snd (mcpb_put m (Zlen msg)))).
  pose proof Hi as [[Hb Hlx Hlr [H1 H2]] [T1 T2 T3 T4] Hrs].
  assert (Hb' : Base (set_bufs (set_list s (insert_node (m_list s) p)) (<[p := b']> (m_bufs s))) (upd G PPrep (p :: G PPrep))).
  { apply Base_alloc; try done. exists msg. split; [done|]. exists b', 0, 0. rewrite lookup_insert_eq. done. }
  split; [split; [split| |]|split; [done|split; [by split|]]].
  - by destruct Hb'.
  - by rewrite upd_ne.
  - by rewrite upd_ne.
  - by rewrite !upd_ne.
  - split; cbn; [done|done| |done]. destruct T3 as [(A1 & A2 & A3 & A4)|T3]; [left|by right]. do 3 (split; [done|]).
    apply (rx_open_away p (m_bufs s)); [auto with cec| |done]. intros E'. destruct A4 as (bb & ? & ? & Hbb & _). congruence.
  - unfold ring_size in *. by rewrite !upd_ne.
  - apply (keep_alloc s G PPrep p b' Hb eq_refl Hf).
Qed.

(** [xmit_submit]: a prepared message goes to the end of the send queue. *)
Lemma submit_spec s G a fl : Inv false s G -> a ∈ G PPrep ->
  wp (xmit_submit smp a fl) s (fun _ s' => exists G' l, Inv false s' G' /\ G PPrep ≡ₚ a :: l /\ G' PPrep = l /\
    (forall x, inflight s G x -> inflight s' G' x) /\ (Z.land (u8 fl) NONBLOCK = 0 -> inflight s' G' a) /\ same_ctl s s').
Proof.
  intros Hi Ha. pose proof Hi as [[[Hm Hp Ho] Hlx Hlr [H0 H0']] [T1 T2 T3 T4] Hrs].
  destruct (Hp _ _ Ha) as (msg & Hne & (b & h & t & Hb & Hv & Hl & Hc)). unfold xmit_submit.
  apply list_elem_of_split in Ha as (l1 & l2 & El). assert (Hperm : G PPrep ≡ₚ a :: l1 ++ l2) by (rewrite El; by rewrite Permutation_middle).
  assert (Ha : a ∈ G PPrep) by (rewrite Hperm; by left).
  apply wp_bind, (wp_get_cmb a b); [done|]. apply wp_bind, wp_put_cmb. apply wp_bind, (wp_lift _ _ msg).
  { destruct Hv as (Hva & _ & Hco & _). by rewrite load_contents, Hco. }
  apply wp_bind, wp_modify. set (b' := mkSc WAIT_XMIT (u8 fl) (complete b) (buf b)).
  apply wp_bind, (wp_q_tail _ _ G TXQ PPrep a (l1 ++ l2)); [by apply mem_bufs|done|done|]. intros L q Hm'.
  apply wp_emit; [done|]. intros s2 (r & tr & -> & Hh)%calm_inv. cbn [trace set_list set_q set_hw set_bufs] in Hh.
  set (G' := upd (upd G PPrep (l1 ++ l2)) (PQ TXQ) (G (PQ TXQ) ++ [a])) in *.
  assert (Hg : forall p, p <> PPrep -> p <> PQ TXQ -> G' p = G p) by (intros p A1 A2; unfold G'; by rewrite !upd_ne).
  assert (Hq' : G' (PQ TXQ) = G (PQ TXQ) ++ [a]) by (unfold G'; by rewrite upd_eq).
  assert (Hms : forall x, x <> a -> msg_of (ESubmit a msg :: trace s) x = msg_of (trace s) x).
  { intros x Hx. cbn. by destruct (Z.eqb_spec a x). }
  assert (Hpl : places (m_bufs s) (ESubmit a msg :: trace s) (upd G PPrep (l1 ++ l2))).
  { intros p x Hx. assert (x <> a) by (intros ->; by apply (gok_drop_notin G PPrep a (l1 ++ l2) p (mo_ghost _ _ _ _ Hm) Hperm)).
    assert (Hx' : x ∈ G p) by (unfold upd in Hx; destruct (decide (PPrep = p)) as [<-|]; [rewrite Hperm; by right|done]).
    specialize (Hp p x Hx'). destruct p as [[]| | | | | |]; cbn [holds] in *; rewrite ?Hms; done. }
  exists G', (l1 ++ l2). split; [split; [split; [split| | |]| |]|]; cbn [m_list m_bufs get_q set_hw set_list set_q set_bufs trace xmit rcv lock].
  - done.
  - apply (places_hist _ (ESubmit a msg :: trace s)); [done|]. unfold G'.
    replace (G (PQ TXQ) ++ [a]) with (upd G PPrep (l1 ++ l2) (PQ TXQ) ++ [a]) by (by rewrite upd_ne).
    apply (places_add (m_bufs s) _ _ _ (PQ TXQ) a); [done| |by rewrite Permutation_app_comm|auto with cec|].
    + intros p. apply (gok_drop_notin G PPrep a); [apply Hm|done].
    + exists msg. split; [done|]. split; [exists b', h, t; by rewrite lookup_insert_eq|]. cbn. by rewrite Z.eqb_refl.
  - apply (in_order_hist (ESubmit a msg :: trace s)); [done|]. unfold in_order. cbn [submits dones]. rewrite Hq', !Hg by done.
    rewrite Ho, <- !app_assoc. done.
  - by rewrite Hg.
  - by rewrite Hg.
  - by rewrite !Hg.
  - split; cbn; [done|done| |done]. destruct T3 as [(A1 & A2 & A3 & A4)|T3]; [left|by right]. do 3 (split; [done|]).
    apply (rx_open_away a (m_bufs s)); [auto with cec| |done]. intros E'. by apply (cur_ne s G a PPrep (i_core _ _ _ Hi)).
  - unfold ring_size in *. by rewrite !Hg.
  - split; [done|]. split; [unfold G'; by rewrite upd_ne, upd_eq|]. split; [|split; [|by split]].
    + intros x [(p & Hp' & Hx) (bx & Hbx & Hfx)].
      assert (Hxa : x <> a) by (intros ->; by rewrite (gk_disj _ (mo_ghost _ _ _ _ Hm) _ _ _ Hx Ha) in Hp').
      split; [|exists bx; cbn; by rewrite lookup_insert_ne]. exists p. split; [done|].
      destruct (decide (p = PQ TXQ)) as [->|]; [rewrite Hq'; set_solver|]. rewrite Hg; [done|by intros ->|done].
    + intros Hfl. split; [exists (PQ TXQ); rewrite Hq'; set_solver|]. exists b'. cbn. by rewrite lookup_insert_eq.
Qed.

(** A sender that was woken: its message is done. *)
Lemma woken_wait s G a b : Inv false s G -> inflight s G a -> m_bufs s !! a = Some b -> complete b <> 0 -> a ∈ G PWait.
Proof.
  intros [[[Hm Hp Ho] _ _ _] _ _] [(p & Htx & Ha) _] Hb Hc. specialize (Hp p a Ha).
  destruct p as [[]| | | | | |]; try done; cbn [holds] in Hp.
  - destruct Hp as (l & _ & (b1 & h & t & Hb1 & _ & _ & Hc1) & _). congruence.
  - destruct Hp as (d & l & (b1 & h & t & Hb1 & _ & _ & Hc1) & _). congruence.
  - destruct Hp as (l & b1 & h & t & Hb1 & _ & _ & Hc1). congruence.
Qed.

Lemma finish_spec s G a : Inv false s G -> a ∈ G PWait ->
  wp (xmit_finish a) s (fun r s' => exists G' b, Inv false s' G' /\ G' PPrep = G PPrep /\ same_ctl s s' /\
    m_bufs s !! a = Some b /\ r = (if status b =? XMIT_OK then 0 else -1) /\
    (forall x, x <> a -> inflight s G x -> inflight s' G' x)).
Proof.
  intros Hi Ha. pose proof Hi as [[[Hm Hp Ho] Hlx Hlr H0] [T1 T2 T3 T4] Hrs].
  destruct (Hp _ _ Ha) as (b & Hb & Hc & _). unfold xmit_finish. apply wp_bind, (wp_get_cmb a b); [done|].
  destruct (Z.eqb_spec (complete b) 0); [lia|].
  apply list_elem_of_split in Ha as (l1 & l2 & El). assert (Hperm : G PWait ≡ₚ a :: l1 ++ l2) by (rewrite El; by rewrite Permutation_middle).
  assert (Ha : a ∈ G PWait) by (rewrite Hperm; by left).
  apply wp_bind, (wp_free s G PWait a (l1 ++ l2)); [done|done|done|]. intros Hm'. apply wp_ret.
  assert (Hg : forall p, p <> PWait -> upd G PWait (l1 ++ l2) p = G p) by (intros p A1; by rewrite upd_ne).
  exists (upd G PWait (l1 ++ l2)), b. split; [split; [split; [split| | |]| |]|]; cbn [m_list m_bufs get_q set_list set_bufs trace xmit rcv lock].
  - done.
  - apply (places_drop (m_bufs s) _ _ G PWait a); [apply Hm|done|done|auto with cec].
  - unfold in_order. by rewrite !Hg.
  - by rewrite Hg.
  - by rewrite Hg.
  - by rewrite !Hg.
  - split; cbn; [done|done| |done]. destruct T3 as [(A1 & A2 & A3 & A4)|T3]; [left|by right]. do 3 (split; [done|]).
    apply (rx_open_away a (m_bufs s)); [auto with cec| |done]. intros E'. by apply (cur_ne s G a PWait (i_core _ _ _ Hi)).
  - unfold ring_size in *. by rewrite !Hg.
  - split; [by rewrite Hg|]. split; [by split|]. split; [done|]. split; [done|].
    intros x Hxa [(p & Hp' & Hx) (bx & Hbx & Hfx)]. split; [|exists bx; cbn; by rewrite lookup_delete_ne].
    exists p. split; [done|]. destruct (decide (p = PWait)) as [->|]; [|by rewrite Hg]. rewrite upd_eq. rewrite Hperm in Hx.
    by apply elem_of_cons in Hx as [?|?].
Qed.

(** ** Receiving *)

Lemma idle_rx s G G' s' : Inv false s G -> Base s' G' -> same_ctl s s' -> (forall p, p <> PQ RXQ -> p <> PQ FREEQ -> G' p = G p) ->
  (forall x, x ∈ G PR -> m_bufs s' !! x = m_bufs s !! x) -> ring_size G' = RX_RING_LENGTH -> Inv false s' G'.
Proof.
  intros Hi Hb [E1 E2 E3 E4] Hg Hx Hr. pose proof Hi as [[_ Hlx Hlr [H0 H0']] [T1 T2 T3 T4] Hrs].
  split; [split| |done]; try done.
  - by rewrite Hg, E1.
  - by rewrite Hg, E2.
  - by rewrite !Hg.
  - split; rewrite ?E1, ?E2, ?E4; try done. destruct T3 as [(A1 & A2 & A3 & A4)|T3]; [left|by right]. do 3 (split; [done|]).
    unfold rx_open. rewrite Hx; [done|]. rewrite Hlr, nz_ne by done. by left.
Qed.

(** A receive returns the oldest message of the queue, if it fits. *)
Lemma receive_spec s G al size : Inv false s G -> al_ok s RX_BUFFER_SIZE al ->
  wp (rcv_message smp sz al size) s (fun r s' => Post false s G s' /\
    match G (PQ RXQ) with
    | [] => r = (-14, [])
    | a :: _ => s_enable s = false /\ r = (-14, []) \/
        s_enable s = true /\ exists b m h t, m_bufs s !! a = Some b /\ view (buf b) h m t /\
          r = if Zlen m >? size then (-12, []) else (Zlen m, m)
    end).
Proof.
  intros Hi Hal. pose proof Hi as [[Hb Hlx Hlr [H0 H0']] [T1 T2 T3 T4] Hrs]. unfold rcv_message, read_take.
  apply wp_bind, wp_bind, wp_get. destruct (s_enable s) eqn:He.
  2: { apply wp_ret. cbn [Z.eqb]. apply wp_ret. split; [by apply Post_refl|]. destruct (G (PQ RXQ)); [done|by left]. }
  destruct (G (PQ RXQ)) as [|a l] eqn:Hq.
  { apply wp_bind, (wp_dequeue_nil _ s G RXQ); [apply Hb|done|]. intros L q Hm'. cbn [Z.eqb]. apply wp_ret, wp_ret. split; [|done].
    exists G. split; [|split; [apply keep_bufs; eauto|done]]. apply (idle_rx s G); [done|destruct Hb; by split|by split|done|done|done]. }
  destruct Hb as [Hm Hp Ho]. destruct (mo_addr _ _ _ _ Hm (PQ RXQ) a) as (Har & _ & _ & _); [rewrite Hq; by left|].
  apply wp_bind, (wp_dequeue_at _ s G RXQ PUser a l); [done|done|done|done|]. intros L q Hqa Hm'. destruct (Z.eqb_spec a 0) as [?|Hna]; [lia|].
  set (s1 := set_list (set_q s RXQ q) L) in *. set (G1 := upd (upd G (PQ RXQ) l) PUser [a]) in *.
  assert (Hg1 : forall r, r <> PUser -> r <> PQ RXQ -> G1 r = G r) by (intros r A1 A2; unfold G1; by rewrite !upd_ne).
  assert (Hb1 : Base s1 G1).
  { split; [done| |unfold in_order; by rewrite !Hg1].
    apply (places_move (m_bufs s) _ _ G (PQ RXQ) PUser a l); [apply Hm|done|done|by rewrite Hq|by rewrite H0'|apply away_refl|].
    apply (Hp (PQ RXQ)). rewrite Hq. by left. }
  apply wp_bind, wp_new_cmb; [done| |].
  { destruct Hal as (p & m & A1 & A2 & A3 & A4 & A5 & A6 & A7). exists p, m. do 6 (split; [done|]). intros k. by rewrite Hqa. }
  intros p b _ Hpr Hf Hh Hv Hc. change (m_bufs s1) with (m_bufs s) in Hf.
  assert (Hb2 := Base_alloc s1 G1 PUser p b Hb1 ltac:(done) eq_refl Hf Hpr Hh). set (s2 := set_bufs _ _) in *.
  assert (Hu1 : G1 PUser = [a]) by (unfold G1; by rewrite upd_eq). rewrite Hu1 in Hb2. set (G2 := upd G1 PUser [p; a]) in *.
  assert (Hb2' : Base s2 G2) by (apply Hb2; exists b, 0, [], 64; rewrite lookup_insert_eq; done). clear Hb2.
  apply wp_bind, (wp_q_tail _ s2 G2 FREEQ PUser p [a]); [apply Hb2'|done|unfold G2; by rewrite upd_eq|]. intros L3 q3 Hm3.
  set (s3 := set_list (set_q s2 FREEQ q3) L3) in *. set (G3 := upd (upd G2 PUser [a]) (PQ FREEQ) (G2 (PQ FREEQ) ++ [p])) in *.
  assert (Hpa : p <> a) by (intros ->; destruct (mo_addr _ _ _ _ Hm (PQ RXQ) a) as (_ & _ & [? ?] & _); [rewrite Hq; by left|congruence]).
  assert (Hg3 : forall r, r <> PUser -> r <> PQ RXQ -> r <> PQ FREEQ -> G3 r = G r) by (intros r A1 A2 A3; unfold G3, G2; rewrite !upd_ne by done; by apply Hg1).
  assert (Hu3 : G3 PUser = [a]) by (unfold G3; by rewrite upd_ne, upd_eq).
  assert (Hb3 : Base s3 G3).
  { split; [done| |unfold in_order; rewrite !Hg3 by done; done].
    apply (places_move (m_bufs s2) _ _ G2 PUser (PQ FREEQ) p [a]); [apply Hb2'|apply Hb2'|done|unfold G2; by rewrite upd_eq|by rewrite Permutation_app_comm|apply away_refl|].
    exists b, 0, [], 64. cbn. rewrite lookup_insert_eq. done. }
  apply wp_ret. destruct (Z.eqb_spec a 0) as [?|_]; [done|].
  destruct (Hp (PQ RXQ) a) as (ba & h & m & t & Hba & Hva & Hsza); [rewrite Hq; by left|].
  assert (Hba3 : m_bufs s3 !! a = Some ba) by (cbn; by rewrite lookup_insert_ne).
  apply wp_bind, (wp_get_cmb a ba); [done|]. destruct (view_len _ _ _ _ Hva) as (HLa & _). rewrite HLa.
  assert (Hend : forall (r : Z * list Z), r = (if Zlen m >? size then (-12, []) else (Zlen m, m)) ->
    wp (_ ← free_cmb a; mret r) s3 (fun r0 s' => Post false s G s' /\ (true = false /\ r0 = (-14, []) \/ true = true /\
       exists b m h t, m_bufs s !! a = Some b /\ view (buf b) h m t /\ r0 = if Zlen m >? size then (-12, []) else (Zlen m, m)))).
  { intros r Er. apply wp_bind, (wp_free s3 G3 PUser a []); [done|done|by rewrite Hu3|]. intros Hm4. apply wp_ret.
    split; [|right; split; [done|]; by exists ba, m, h, t].
    set (G4 := upd G3 PUser []) in *. assert (Hg4 : forall r, r <> PQ RXQ -> r <> PQ FREEQ -> G4 r = G r).
    { intros r' A1 A2. destruct (decide (r' = PUser)) as [->|]; [unfold G4; by rewrite upd_eq|]. unfold G4. rewrite upd_ne by done. by apply Hg3. }
    exists G4. split; [|split; [|done]].
    - apply (idle_rx s G); [done| |by split|done| |].
      + split; [done| |unfold in_order; rewrite !Hg4 by done; done].
        apply (places_drop (m_bufs s3) _ _ G3 PUser a []); [apply Hm3|apply Hb3|by rewrite Hu3|cbn; auto with cec].
      + intros x Hx. cbn. assert (x <> a) by (intros ->; pose proof (gk_disj _ (mo_ghost _ _ _ _ Hm) PR (PQ RXQ) a Hx ltac:(rewrite Hq; by left)); done).
        rewrite lookup_delete_ne, lookup_insert_ne; [done| |done]. intros ->. destruct (mo_addr _ _ _ _ Hm PR x Hx) as (_ & _ & [? ?] & _). congruence.
      + rewrite <- Hrs. unfold ring_size. rewrite (Hg4 PR), Hq by done. unfold G4, G3, G2, G1.
        rewrite !(upd_ne _ PUser), !(upd_ne _ (PQ FREEQ) (PQ RXQ)), !(upd_ne _ PUser), !upd_eq, (upd_ne _ (PQ RXQ)) by done. rewrite length_app. cbn. lia.
    - apply keep_rx; [intros p' Hp'; apply Hg4; by intros ->|by apply Hg4|].
      intros p' x Hp' Hx. cbn. assert (x <> a) by (intros ->; pose proof (gk_disj _ (mo_ghost _ _ _ _ Hm) p' (PQ RXQ) a Hx ltac:(rewrite Hq; by left)); by subst p').
      rewrite lookup_delete_ne, lookup_insert_ne; [done| |done]. intros ->. destruct (mo_addr _ _ _ _ Hm p' x Hx) as (_ & _ & [? ?] & _). congruence. }
  destruct (Zlen m >? size) eqn:Esz; [by apply Hend|].
  apply wp_bind, (wp_lift _ _ m). { destruct Hva as (Hval & _ & Hco & _). by rewrite <- HLa, load_contents, Hco. } by apply Hend.
Qed.

(** ** Initialisation *)

(** Before [mars_cec_init]: the three list heads exist, nothing else does. *)
Record Fresh (s : mars_cec) : Prop := {
  f_init : s_init s = false;
  f_off : s_enable s = false /\ x_enable (xmit s) = false /\ r_enable (rcv s) = false;
  f_trace : trace s = [];
  f_bufs : m_bufs s = ∅;
  f_node : forall k, node (m_list s) (qaddr (get_q s k));
  f_heads : forall k k', qaddr (get_q s k) = qaddr (get_q s k') -> k = k'
}.

(** The blocks for the receive buffers. *)
Record Blocks (s : mars_cec) (bl : list (Z * list Z)) : Prop := {
  bl_ok : Forall (fun '(p, m) => Zlen m = sz + RX_BUFFER_SIZE /\ 0 < p /\ p + (sz + RX_BUFFER_SIZE) < W32 /\ Forall is_byte m) bl;
  bl_nodup : NoDup bl.*1;
  bl_new : forall p, p ∈ bl.*1 -> m_bufs s !! p = None /\ (forall k, p <> qaddr (get_q s k))
}.

Definition none : ghost := fun _ => [].

Lemma wp_q_init s k (Q : unit -> mars_cec -> Prop) : node (m_list s) (qaddr (get_q s k)) ->
  (forall L, queue_rep L (mkQueue (qaddr (get_q s k)) false 0) [] -> frame (m_list s) L [qaddr (get_q s k)] ->
     Q tt (set_list (set_q s k (mkQueue (qaddr (get_q s k)) false 0)) L)) -> wp (q_init k) s Q.
Proof.
  intros Hn HQ. destruct (get_q s k) as [a lk n] eqn:E. destruct (queue_init_spec (m_list s) a lk n Hn) as (L & Ei & Hr & Hf).
  exists tt, (set_list (set_q s k (mkQueue a false 0)) L). split; [|by apply HQ].
  unfold q_init. rewrite E. unfold cmb_queue_head_init. by rewrite Ei.
Qed.

Lemma wp_write_regs l : forall s (Q : unit -> mars_cec -> Prop), forallb (fun '(a, v) => quiet (EWrite a v)) l = true ->
  (forall s', calm s s' -> Q tt s') -> wp (write_regs l) s Q.
Proof.
  induction l as [|[a v] l IH]; intros s Q Hl HQ; [by apply wp_ret, HQ|]. cbn in Hl. apply andb_true_iff in Hl as [H1 H2].
  apply wp_bind, wp_write; [done|]. intros s1 Hs1. apply IH; [done|]. intros s2 Hs2. apply HQ. by transitivity s1.
Qed.

Lemma wp_init_ring bl : forall s G (Q : unit -> mars_cec -> Prop), Base s G -> G PUser = [] -> Blocks s bl ->
  (forall s' G', Base s' G' -> same_ctl s s' -> s_init s' = s_init s -> (forall p, p <> PQ FREEQ -> G' p = G p) ->
     length (G' (PQ FREEQ)) = (length (G (PQ FREEQ)) + length bl)%nat -> Q tt s') ->
  wp (init_ring smp sz (Some <$> bl)) s Q.
Proof.
  induction bl as [|[p0 m0] bl IH]; intros s G Q Hb Hu [Hok Hnd Hnew] HQ; cbn [fmap list_fmap init_ring].
  { apply wp_ret, (HQ s G); [done|by split|done|done|cbn; lia]. }
  apply Forall_cons in Hok as [(A1 & A2 & A3 & A4) Hok]. cbn [fmap list_fmap fst] in Hnd, Hnew. apply NoDup_cons in Hnd as [Hni Hnd].
  destruct (Hnew p0 ltac:(by left)) as [Hf0 Hh0]. apply wp_bind, wp_new_cmb; [done|by exists p0, m0|].
  intros p b [m [= <- <-]] Hp Hf Hh Hv Hc. destruct (Z.eqb_spec p0 0); [lia|].
  assert (Hb1 : Base (set_bufs (set_list s (insert_node (m_list s) p0)) (<[p0 := b]> (m_bufs s))) (upd G PUser [p0])).
  { rewrite <- Hu. apply Base_alloc; try done. exists b, 0, [], 64. by rewrite lookup_insert_eq. }
  set (s1 := set_bufs _ _) in *. apply wp_bind, (wp_q_tail_at _ s1 (upd G PUser [p0]) FREEQ PUser p0 []); [apply Hb1|done|by rewrite upd_eq|].
  intros L q Hqa Hm2. set (G2 := upd (upd (upd G PUser [p0]) PUser []) _ _) in *.
  assert (Hg2 : forall r, r <> PQ FREEQ -> G2 r = G r).
  { intros r Hr. unfold G2. rewrite upd_ne by done. destruct (decide (r = PUser)) as [->|]; [by rewrite upd_eq|by rewrite !upd_ne]. }
  assert (Hg2' : G2 (PQ FREEQ) = G (PQ FREEQ) ++ [p0]) by (unfold G2; by rewrite upd_eq, upd_ne).
  assert (Hb2 : Base (set_list (set_q s1 FREEQ q) L) G2).
  { split; [done| |unfold in_order; rewrite !Hg2 by done; apply Hb].
    apply (places_move (m_bufs s1) _ _ (upd G PUser [p0]) PUser (PQ FREEQ) p0 []); [apply Hb1|apply Hb1|done|by rewrite upd_eq|by rewrite Permutation_app_comm|apply away_refl|].
    exists b, 0, [], 64. cbn. by rewrite lookup_insert_eq. }
  apply (IH _ G2); [done|by rewrite Hg2| |].
  - split; [done|done|]. intros p Hp'. destruct (Hnew p ltac:(by right)) as [B1 B2]. split; [|intros k; rewrite Hqa; apply B2].
    cbn. rewrite lookup_insert_ne; [done|]. by intros <-.
  - intros s' G' C1 C2 C3 C4 C5. apply (HQ s' G'); [done|by destruct C2; split|done| |].
    + intros r Hr. by rewrite C4, Hg2.
    + rewrite C5, Hg2', length_app. cbn. lia.
Qed.

Lemma queue_rep_one L L' q b : queue_rep L q [] -> frame L L' [b] -> qaddr q <> b -> queue_rep L' q [].
Proof.
  intros Hq Hf Hne. apply (queue_rep_frame L L' q [] [b] Hq Hf). intros x Hx Hb. apply Hne.
  apply list_elem_of_singleton in Hx, Hb. congruence.
Qed.

Lemma queues_init s0 (Q : unit -> mars_cec -> Prop) : (forall k, node (m_list s0) (qaddr (get_q s0 k))) ->
  (forall k k', qaddr (get_q s0 k) = qaddr (get_q s0 k') -> k = k') ->
  (forall s, (forall k, queue_rep (m_list s) (get_q s k) [] /\ qaddr (get_q s k) = qaddr (get_q s0 k)) ->
     m_bufs s = m_bufs s0 -> trace s = trace s0 -> same_ctl s0 s -> s_init s = s_init s0 -> Q tt s) ->
  wp (_ ← q_init TXQ; _ ← q_init RXQ; q_init FREEQ) s0 Q.
Proof.
  intros Hn Hh HQ. apply wp_bind, wp_q_init; [done|]. intros L1 R1 [F1 D1].
  apply wp_bind, wp_q_init; [cbn; by apply F1, (Hn RXQ)|]. cbn [m_list set_list get_q set_q qaddr]. intros L2 R2 [F2 D2].
  apply wp_q_init; [cbn; by apply F2, F1, (Hn FREEQ)|]. cbn [m_list set_list get_q set_q qaddr]. intros L3 R3 [F3 D3].
  assert (Hd : forall k k', k <> k' -> qaddr (get_q s0 k) <> qaddr (get_q s0 k')) by (intros k k' Hk E; by apply Hk, Hh).
  apply HQ; [|done|done|by split|done]. intros k. destruct k; (split; [|done]).
  - change (queue_rep L3 (mkQueue (qaddr (tx_queue s0)) false 0) []).
    apply (queue_rep_one L2 L3 _ (qaddr (rx_free_queue s0))); [|by split|by apply (Hd TXQ FREEQ)].
    apply (queue_rep_one L1 L2 _ (qaddr (rx_queue s0))); [done|by split|by apply (Hd TXQ RXQ)].
  - change (queue_rep L3 (mkQueue (qaddr (rx_queue s0)) false 0) []).
    apply (queue_rep_one L2 L3 _ (qaddr (rx_free_queue s0))); [done|by split|by apply (Hd RXQ FREEQ)].
  - done.
Qed.

Lemma init_spec s bl irq : Fresh s -> Blocks s bl -> length bl = RX_RING_LENGTH -> 0 <= irq ->
  wp (mars_cec_init smp sz (Some <$> bl) irq) s (fun r s' => exists G, r = 0 /\ Inv false s' G /\ agree s' /\
    s_enable s' = false /\ s_init s' = true /\ G PPrep = []).
Proof.
  intros [F1 (F2 & F3 & F4) F5 F6 F7 F8] Hbl Hlen Hirq. unfold mars_cec_init. apply wp_bind, wp_get. rewrite F1.
  apply wp_bind, wp_write_regs; [done|]. intros s1 (r & tr & -> & Hh)%calm_inv.
  apply wp_bind, wp_modify, wp_bind, wp_modify, wp_bind, wp_modify.
  match goal with |- wp _ ?S0 _ => set (s0 := S0) end.
  assert (Hassoc : forall (f : unit -> C Z) Q, wp (_ ← (_ ← q_init TXQ; _ ← q_init RXQ; q_init FREEQ); f tt) s0 Q ->
    wp (_ ← q_init TXQ; _ ← q_init RXQ; _ ← q_init FREEQ; f tt) s0 Q).
  { intros f Q (x & s' & E & HQ). exists x, s'. split; [|done]. revert E. unfold mbind, Drv_bind.
    destruct (q_init TXQ s0) as [[[] t1]| |]; [|done..]. destruct (q_init RXQ t1) as [[[] t2]| |]; [|done..].
    by destruct (q_init FREEQ t2) as [[[] t3]| |]. }
  apply (Hassoc (fun _ => _)). clear Hassoc. apply wp_bind, queues_init; [exact F7|exact F8|].
  intros s2 Hq2 B2 T2 [X2 R2 E2 L2] I2.
  assert (Hb : Base s2 none).
  { destruct Hh as (A1 & A2 & _). split; [split| |].
    - split; [intros p; apply NoDup_nil_2|intros p p' a Ha; by apply not_elem_of_nil in Ha].
    - intros k. apply Hq2.
    - intros k k'. rewrite !(proj2 (Hq2 _)). apply F8.
    - intros p a Ha. by apply not_elem_of_nil in Ha.
    - intros p a Ha. by apply not_elem_of_nil in Ha.
    - unfold in_order, none. rewrite T2. cbn. rewrite A1, A2, F5. done. }
  apply wp_bind, (wp_init_ring bl s2 none); [done|done| |].
  { destruct Hbl as [C1 C2 C3]. split; [done|done|]. intros p Hp. rewrite B2. cbn. rewrite F6. split; [done|]. intros k.
    rewrite (proj2 (Hq2 k)). by apply C3. }
  intros s3 G3 Hb3 [X3 R3 E3 L3] I3 Hg3 Hl3. destruct (Z.ltb_spec irq 0); [lia|]. apply wp_bind, wp_modify, wp_ret.
  exists G3. split; [done|]. split; [split; [split| |]|].
  - by destruct Hb3.
  - cbn. rewrite Hg3, X3, X2 by done. done.
  - cbn. rewrite Hg3, R3, R2 by done. done.
  - rewrite !Hg3 by done. done.
  - split; cbn; rewrite ?X3, ?X2, ?R3, ?R2, ?L3, ?L2; [done|by right|by right|done].
  - unfold ring_size. rewrite Hl3, !Hg3, Hlen by done. done.
  - split; [split; cbn; rewrite ?X3, ?X2, ?R3, ?R2, E3, E2; cbn; congruence|]. cbn. rewrite E3, E2. split; [done|]. split; [done|]. by rewrite Hg3.
Qed.
End ops.
