(* ===== verification/CecLive.v ===== *)
(** * CEC: a transmission comes to an end

    What parts of the driver leave alone whenever they return, and from it:
    once its time is up, [mars_cec_tx_work] ends the transmission, whatever the
    controller answers. *)
From stdpp Require Import base tactics list numbers option gmap.
From Stdlib Require Import ZArith Lia.
From S2P Require Import Prelude Driver Buff ScBuff Queue Cec CecProofs CecInv CecTx.

Section live.
Context {cec_hw : CecHw}.

(** [m] leaves [f] of the state alone. *)
Definition stays {A B} (f : mars_cec -> B) (m : C A) : Prop := forall s x s', m s = Ret (x, s') -> f s' = f s.

(** The messages submitted and done. *)
Definition hist (s : mars_cec) : list Z * list Z := (submits (trace s), dones (trace s)).

Lemma stays_ret {A B} (f : mars_cec -> B) (a : A) : stays f (mret a).
Proof. by intros s x s' [= <- <-]. Qed.

Lemma bind_inv {A B} (m : C A) (k : A -> C B) s y s' : (m ≫= k) s = Ret (y, s') -> exists x s1, m s = Ret (x, s1) /\ k x s1 = Ret (y, s').
Proof. unfold mbind, Drv_bind. destruct (m s) as [[x s1]| |] eqn:E; [|done..]. intros E'. by exists x, s1. Qed.

Lemma stays_bind {A B D} (f : mars_cec -> D) (m : C A) (k : A -> C B) : stays f m -> (forall x, stays f (k x)) -> stays f (m ≫= k).
Proof. intros Hm Hk s y s' (x & s1 & E1 & E2)%bind_inv. rewrite (Hk x _ _ _ E2). by apply (Hm _ x). Qed.

Lemma stays_get {B} (f : mars_cec -> B) : stays f get.
Proof. by intros s x s' [= <- <-]. Qed.

Lemma stays_modify {B} (f : mars_cec -> B) g : (forall s, f (g s) = f s) -> stays f (modify g).
Proof. intros H s x s' [= <- <-]. apply H. Qed.

Lemma stays_read {B} (f : mars_cec -> B) a : (forall s h, f (set_hw s h (trace s)) = f s) -> stays f (read_reg32 a).
Proof. intros H s x s'. unfold read_reg32. destruct (hread (regs s) a). intros [= <- <-]. apply H. Qed.

Lemma stays_get_cmb {B} (f : mars_cec -> B) a : stays f (get_cmb a).
Proof. intros s x s'. unfold get_cmb. destruct (m_bufs s !! a); [|done]. by intros [= <- <-]. Qed.

Lemma stays_lift {A B} (f : mars_cec -> B) (m : res A) : stays f (lift_res m).
Proof. intros s x s'. unfold lift_res. destruct m; [|done..]. by intros [= <- <-]. Qed.

Lemma stays_dequeue {B} (f : mars_cec -> B) smp k : (forall s q L, f (set_list (set_q s k q) L) = f s) -> stays f (q_dequeue smp k).
Proof.
  intros H s x s'. unfold q_dequeue. destruct (cmb_dequeue smp (m_list s) (get_q s k)) as [[[a l] q]| |]; [|done..]. intros [= <- <-]. apply H.
Qed.

Lemma stays_tx_bytes {B} (f : mars_cec -> B) n : forall p a, (forall v, stays f (write_reg32 MIS_CEC_TX_FIFO v)) -> stays f (tx_bytes n p a).
Proof.
  induction n as [|n IH]; intros p a Hw; cbn [tx_bytes]; [apply stays_ret|].
  apply stays_bind; [apply stays_get_cmb|]. intros b. apply stays_bind; [apply stays_lift|]. intros x. apply stays_bind; [apply Hw|]. auto.
Qed.
End live.

(** Goes through the text of an operation; [f] is compared by computation. *)
Ltac stay := repeat first
  [ progress intros
  | match goal with H : forall _, stays _ _ |- _ => apply H | H : forall _ _, stays _ _ |- _ => apply H end
  | match goal with
    | |- context [if ?b then _ else _] => destruct b
    | |- context [let '(_, _) := ?e in _] => destruct e
    end
  | apply stays_bind | apply stays_ret | apply stays_get | apply stays_get_cmb | apply stays_lift
  | apply stays_read | apply stays_dequeue | apply stays_tx_bytes | apply stays_modify | reflexivity ].

Section timeout.
Context {cec_hw : CecHw}.
Variable smp : bool.
Variable HZ : Z.

Lemma stays_write_hist a v : stays hist (write_reg32 a v).
Proof. by apply stays_modify. Qed.
Lemma stays_write_xmit a v : stays xmit (write_reg32 a v).
Proof. by apply stays_modify. Qed.

Lemma stays_fifo {B} (f : mars_cec -> B) a : (forall s h, f (set_hw s h (trace s)) = f s) -> (forall v, stays f (write_reg32 MIS_CEC_TX_FIFO v)) ->
  (forall s b, f (set_bufs s b) = f s) -> stays f (_write_tx_fifo a).
Proof. intros H1 H2 H3. unfold _write_tx_fifo, put_cmb. stay; auto. Qed.

Lemma stays_status {B} (f : mars_cec -> B) st : (forall s b, f (set_bufs s b) = f s) -> stays f (tx_status st).
Proof. intros H. unfold tx_status, put_cmb. stay; auto. Qed.

Lemma free_trace a s x s' : free_cmb a s = Ret (x, s') -> trace s' = trace s.
Proof. unfold free_cmb. destruct (a =? 0); [by intros [= <- <-]|]. destruct (m_bufs s !! a); [|done]. by intros [= <- <-]. Qed.

(** The end of a transmission is one event. *)
Lemma end_hist s x s' : tx_end s = Ret (x, s') ->
  hist s' = (submits (trace s), dones (trace s) ++ [x_cmb (xmit s)]).
Proof.
  unfold tx_end. intros (? & ? & [= <- <-] & ([] & s1 & E1 & E2)%bind_inv)%bind_inv. injection E2 as <- <-.
  change (hist s1 = (submits (trace s), dones (trace s) ++ [x_cmb (xmit s)])). unfold _cmb_tx_complete in E1. apply bind_inv in E1 as (b & s2 & E2 & E1).
  unfold get_cmb in E2. destruct (m_bufs s !! x_cmb (xmit s)); [|done]. injection E2 as <- <-.
  destruct (negb _); apply bind_inv in E1 as (u & s3 & E3 & E1); injection E3 as <- <-.
  - unfold hist. by rewrite (free_trace _ _ _ _ E1).
  - by injection E1 as <-.
Qed.

Lemma high_hist : stays hist rst_tx_high.
Proof. unfold rst_tx_high, mars_cec_rx_reset, write_reg32, emit. stay. Qed.

Lemma next_hist j : stays hist (tx_next smp HZ j).
Proof.
  unfold tx_next, mars_cec_rx_reset, put_cmb, emit. stay; try apply stays_fifo; try done; intros; try apply stays_write_hist; by apply stays_write_hist.
Qed.

(** [m] ends the transmission. *)
Definition ends {A} (m : C A) : Prop := forall s x s', m s = Ret (x, s') ->
  hist s' = (submits (trace s), dones (trace s) ++ [x_cmb (xmit s)]).

Lemma ends_after {A B} (m : C A) (k : A -> C B) : stays hist m -> stays xmit m -> (forall x, ends (k x)) -> ends (m ≫= k).
Proof.
  intros H1 H2 Hk s y s' (x & s1 & E1 & E2)%bind_inv. rewrite (Hk x _ _ _ E2), (H2 _ _ _ E1). specialize (H1 _ _ _ E1).
  unfold hist in H1. by injection H1 as -> ->.
Qed.

Lemma ends_before {A B} (m : C A) (k : A -> C B) : ends m -> (forall x, stays hist (k x)) -> ends (m ≫= k).
Proof. intros Hm Hk s y s' (x & s1 & E1 & E2)%bind_inv. by rewrite (Hk x _ _ _ E2), (Hm _ _ _ E1). Qed.

Lemma ends_finished : ends tx_finished.
Proof.
  unfold tx_finished, emit. apply ends_after; [stay|stay|]. intros _. apply ends_after; [stay|stay|]. intros v.
  apply ends_after; [by apply stays_status|by apply stays_status|]. intros _. apply ends_after; [apply stays_write_hist|apply stays_write_xmit|]. intros _.
  apply ends_before; [intros s x s'; apply end_hist|]. intros _. apply high_hist.
Qed.

Lemma refill_stays {B} (f : mars_cec -> B) a tx1 : (forall s h, f (set_hw s h (trace s)) = f s) -> (forall r v, stays f (write_reg32 r v)) ->
  (forall s b, f (set_bufs s b) = f s) ->
  stays f (if negb (Z.land tx1 TX_INT =? 0) then
         b ← get_cmb a;
         _ ← (if negb (len (buf b) =? 0) then
                _ ← _write_tx_fifo a;
                b ← get_cmb a;
                if len (buf b) =? 0 then
                  v ← read_reg32 MIS_CEC_TX0;
                  write_reg32 MIS_CEC_TX0 (Z.ldiff v TX_CONTINUOUS)
                else mret tt
              else mret tt);
         write_reg32 MIS_CEC_TX1 TX_INT
       else mret tt).
Proof. intros H1 H2 H3. stay; first [apply H1|apply H2|apply H3]. Qed.

Lemma ends_xmitting j s x s' : time_after j (x_timeout (xmit s)) = true -> tx_xmitting j s = Ret (x, s') ->
  hist s' = (submits (trace s), dones (trace s) ++ [x_cmb (xmit s)]).
Proof.
  intros Ht. unfold tx_xmitting. intros (? & ? & [= <- <-] & E)%bind_inv. revert E.
  rewrite Ht. revert s x s' Ht.
  enough (H : forall a, ends (tx1 ← read_reg32 MIS_CEC_TX1;
     _ ← (if negb (Z.land tx1 TX_INT =? 0) then
         b ← get_cmb a;
         _ ← (if negb (len (buf b) =? 0) then
                _ ← _write_tx_fifo a;
                b ← get_cmb a;
                if len (buf b) =? 0 then
                  v ← read_reg32 MIS_CEC_TX0;
                  write_reg32 MIS_CEC_TX0 (Z.ldiff v TX_CONTINUOUS)
                else mret tt
              else mret tt);
         write_reg32 MIS_CEC_TX1 TX_INT
       else mret tt);
    _ ← write_reg32 MIS_CEC_TX0 0; _ ← tx_status XMIT_TIMEOUT; _ ← tx_end; _ ← rst_tx_high; emit ECancel))
    by (intros s x s' _; apply (H (x_cmb (xmit s)))).
  intros a. apply ends_after; [stay|stay|]. intros tx1.
  apply ends_after; [apply refill_stays; [done|apply stays_write_hist|done]|apply refill_stays; [done|apply stays_write_xmit|done]|]. intros _.
  apply ends_after; [apply stays_write_hist|apply stays_write_xmit|]. intros _. apply ends_after; [by apply stays_status|by apply stays_status|]. intros _.
  apply ends_before; [intros s x s'; apply end_hist|]. intros _. apply stays_bind; [apply high_hist|]. intros _. unfold emit. stay.
Qed.

(** Of the messages submitted exactly the one being sent is done. *)
Lemma timeout_hist j s x s' : x_state (xmit s) = XMIT -> time_after j (x_timeout (xmit s)) = true ->
  mars_cec_tx_work smp HZ j s = Ret (x, s') -> hist s' = (submits (trace s), dones (trace s) ++ [x_cmb (xmit s)]).
Proof.
  intros Hst Ht. unfold mars_cec_tx_work. intros ([] & s1 & E1 & E)%bind_inv.
  unfold lock_cec in E1. destruct (smp && lock s); [done|]. injection E1 as <-. apply bind_inv in E as (? & ? & [= <- <-] & E).
  apply bind_inv in E as ([] & s2 & E2 & E). cbn [xmit set_lock] in E2. rewrite decide_True in E2 by done.
  apply bind_inv in E2 as (v & s3 & E3 & E2). unfold read_reg32 in E3. cbn [regs set_lock] in E3. destruct (hread (regs s) MIS_CEC_TX0) as [w h].
  injection E3 as <- <-.
  assert (H2 : hist s2 = (submits (trace s), dones (trace s) ++ [x_cmb (xmit s)])).
  { destruct (negb _); [by rewrite (ends_xmitting j (set_hw (set_lock s true) h (trace s)) tt _ Ht E2)|by rewrite (ends_finished _ tt _ E2)]. }
  rewrite <- H2. revert E. assert (Hs : stays hist (s ← get; _ ← (if decide (x_state (xmit s) = IDEL) then
         if x_enable (xmit s) then tx_next smp HZ j else mret tt else mret tt); unlock_cec)).
  { apply stays_bind; [apply stays_get|]. intros t. apply stays_bind; [|intros _; by apply stays_modify].
    destruct (decide _), (x_enable (xmit t)); try apply stays_ret. apply next_hist. }
  intros E. by apply (Hs _ x).
Qed.
End timeout.
