(* ===== verification/CecTheorems.v ===== *)
(** * CEC: the driver among its callers

    The driver, the callers that sit in its ioctls, and the controller, as one
    transition system: interrupts, deferred work and the parts of the system
    calls between which they can sleep or be interrupted happen in any order. *)
From stdpp Require Import base tactics list numbers option gmap.
From Stdlib Require Import ZArith Lia.
From S2P Require Import Prelude Driver Buff ScBuff Queue Cec CecProofs CecInv CecTx CecRx CecOps CecLive.

(** [LPrepare] is [CEC_SEND_MESSAGE] up to the test in [mars_cec_xmit_message];
    [LSubmit] is the rest up to the wait; [LFinish] is what follows it.
    [LReceive] is [CEC_RCV_MESSAGE] after its wait. *)
Inductive label :=
| LIsr (jiffies : Z)
| LTxWork (jiffies : Z)
| LRxWork
| LEnable (on : bool)
| LAddr (addr : Z)
| LPrepare (al : option (Z * list Z)) (msg : list Z)
| LSubmit (a fl : Z)
| LFinish (a : Z)
| LReceive (al : option (Z * list Z)) (size : Z).

Definition del (a : Z) (l : list Z) : list Z := filter (fun x => x <> a) l.

Section system.
Context {cec_hw : CecHw}.
Variable smp : bool.
Variable sz : Z.
Variable HZ : Z.

(** The driver; messages made and not yet submitted; senders that wait. *)
Record sys := mkSys { dev : mars_cec; prepared : list Z; senders : list Z }.

Definition set_dev (y : sys) (s : mars_cec) : sys := mkSys s (prepared y) (senders y).

(** A step: the result of the call, the bytes given to the caller, the system. *)
Definition run_label (l : label) (y : sys) : res (Z * list Z * sys) :=
  match l with
  | LIsr j => '(r, s) ← mars_cec_isr smp HZ j (dev y); Ret (r, [], set_dev y s)
  | LTxWork j => '(_, s) ← mars_cec_tx_work smp HZ j (dev y); Ret (0, [], set_dev y s)
  | LRxWork => '(_, s) ← mars_cec_rx_work smp (dev y); Ret (0, [], set_dev y s)
  | LEnable b => '(r, s) ← mars_cec_enable smp b (dev y); Ret (r, [], set_dev y s)
  | LAddr v => '(r, s) ← mars_cec_set_logical_addr (u8 v) (dev y); Ret (r, [], set_dev y s)
  | LPrepare al msg =>
      '(a, s) ← send_prepare sz al msg (dev y);
      if a <? 0 then Ret (a, [], set_dev y s)
      else
        '(ok, s) ← xmit_allowed s;
        Ret (if (ok : bool) then (0, [], mkSys s (a :: prepared y) (senders y)) else (-1, [], set_dev y s))
  | LSubmit a fl =>
      '(_, s) ← xmit_submit smp a fl (dev y);
      Ret (0, [], mkSys s (del a (prepared y)) (if Z.land (u8 fl) NONBLOCK =? 0 then a :: senders y else senders y))
  | LFinish a =>
      '(r, s) ← xmit_finish a (dev y);
      Ret (r, [], mkSys s (prepared y) (del a (senders y)))
  | LReceive al size => '(r, s) ← rcv_message smp sz al size (dev y); Ret (fst r, snd r, set_dev y s)
  end.

(** A block that [kmalloc] can return. *)
Definition al_okb (s : mars_cec) (size : Z) (al : option (Z * list Z)) : bool :=
  match al with
  | Some (p, m) =>
      (Zlen m =? sz + size) && (0 <? p) && (p + (sz + size) <? W32) && forallb (fun x => (0 <=? x) && (x <? 256)) m &&
      match m_bufs s !! p with Some _ => false | None => true end &&
      negb (p =? qaddr (tx_queue s)) && negb (p =? qaddr (rx_queue s)) && negb (p =? qaddr (rx_free_queue s))
  | None => false
  end.

(** The completion that a sender waits for was signalled. *)
Definition woken (s : mars_cec) (a : Z) : bool :=
  match m_bufs s !! a with Some b => negb (complete b =? 0) | None => false end.

(** The steps that are considered: messages have 1 to 255 bytes; memory is found for
    what is received, while a message that is sent may find none; a caller goes on
    where it was, and not while it sleeps. *)
Definition allowed (l : label) (y : sys) : bool :=
  match l with
  | LPrepare al msg => match al with None => true | Some _ => al_okb (dev y) (Zlen msg) al end && (0 <? Zlen msg) && (Zlen msg <? 256) &&
                       forallb (fun x => (0 <=? x) && (x <? 256)) msg
  | LSubmit a fl => bool_decide (a ∈ prepared y)
  | LFinish a => bool_decide (a ∈ senders y) && woken (dev y) a
  | LReceive al size => al_okb (dev y) RX_BUFFER_SIZE al
  | _ => true
  end.

Inductive reach : sys -> Prop :=
| reach_init s bl irq r s' : Fresh s -> Blocks sz s bl -> length bl = RX_RING_LENGTH -> 0 <= irq ->
    mars_cec_init smp sz (Some <$> bl) irq s = Ret (r, s') -> reach (mkSys s' [] [])
| reach_step y l r y' : reach y -> allowed l y = true -> run_label l y = Ret (r, y') -> reach y'.

(** ** The invariant of the system *)

Record SInv (y : sys) (G : ghost) : Prop := {
  si_inv : Inv false (dev y) G;
  si_agree : agree (dev y);
  si_prep : forall a, a ∈ prepared y -> a ∈ G PPrep;
  si_send : forall a, a ∈ senders y -> inflight (dev y) G a
}.

Lemma al_okb_ok s size al : al_okb s size al = true -> al_ok sz s size al.
Proof.
  unfold al_okb. destruct al as [[p m]|]; [|done]. rewrite !andb_true_iff, !negb_true_iff, !Z.eqb_neq, Z.eqb_eq, !Z.ltb_lt.
  intros (((((((A1 & A2) & A3) & A4) & A5) & A6) & A7) & A8). exists p, m. split; [done|]. split; [done|]. split; [done|]. split; [done|].
  split; [by apply bytes_ok|]. split; [by destruct (m_bufs s !! p)|]. by intros [].
Qed.

Lemma elem_of_del a x l : x ∈ del a l <-> x <> a /\ x ∈ l.
Proof. unfold del. by rewrite list_elem_of_filter. Qed.

(** A step of the driver alone. *)
Lemma SInv_post y G s' : SInv y G -> Post false (dev y) G s' -> exists G', SInv (set_dev y s') G'.
Proof.
  intros [H1 H2 H3 H4] (G' & Hi & [K1 K2] & Ha). exists G'. split; cbn; [done|auto| |auto]. intros a. rewrite K1. auto.
Qed.

Hypothesis Hsz : 0 <= sz < 1000000.

Lemma sys_step y G l : SInv y G -> allowed l y = true -> exists r y' G', run_label l y = Ret (r, y') /\ SInv y' G'.
Proof.
  intros HS Hal. pose proof HS as [Hi Ha Hpr Hse].
  assert (Hpost : forall A (m : C A) (f : A -> Z * list Z), wp m (dev y) (fun _ => Post false (dev y) G) ->
    exists r y' G', ('(x, s) ← m (dev y); Ret (f x, set_dev y s)) = Ret (r, y') /\ SInv y' G').
  { intros A m f (x & s' & E & HP). destruct (SInv_post y G s' HS HP) as [G' HG']. exists (f x), (set_dev y s'), G'. by rewrite E. }
  destruct l as [j|j| |b|v|al msg|a fl|a|al size]; cbn [run_label allowed] in *.
  - apply (Hpost _ (mars_cec_isr smp HZ j) (fun r => (r, []))). by apply isr_spec.
  - apply (Hpost _ (mars_cec_tx_work smp HZ j) (fun r => (0, []))). by apply tx_work_spec.
  - apply (Hpost _ (mars_cec_rx_work smp) (fun r => (0, []))). by apply rx_work_spec.
  - destruct (enable_spec smp (dev y) G b Hi Ha) as (r & s' & E & G' & Hi' & [K1 K2] & Ha' & _). exists (r, []), (set_dev y s'), G'.
    rewrite E. split; [done|]. split; cbn; [done|done| |auto]. intros a. rewrite K1. auto.
  - apply (Hpost _ (mars_cec_set_logical_addr (u8 v)) (fun r => (r, []))). unfold mars_cec_set_logical_addr.
    eapply wp_then; [by apply read_seq|]. intros w s1 G1 Hi1 _. destruct (u8 v >? 15); [by apply wp_ret, Post_refl|].
    eapply wp_then; [by apply write_seq|]. intros [] s2 G2 Hi2 _. by apply wp_ret, Post_refl.
  - destruct al as [al|]; [|by exists (-12, []), (set_dev y (dev y)), G].
    rewrite !andb_true_iff, !Z.ltb_lt in Hal. destruct Hal as (((A1 & A2) & A3) & A4).
    destruct (prepare_spec sz Hsz (dev y) G (Some al) msg Hi (al_okb_ok _ _ _ A1)) as (a & s' & E & Hi' & Har & Hs & Hk);
      [by destruct msg|by apply bytes_ok|done|]. rewrite E, res_bind_Ret. destruct (Z.ltb_spec a 0); [lia|].
    change (xmit_allowed s') with (Ret (x_enable (xmit s'), s')). rewrite res_bind_Ret. destruct Hs as [X1 R1 E1 _].
    assert (HS' : forall pr, (forall x, x ∈ pr -> x = a \/ x ∈ prepared y) -> SInv (mkSys s' pr (senders y)) (upd G PPrep (a :: G PPrep))).
    { intros pr Hpr'. split; cbn; [done|unfold agree; by rewrite X1, R1, E1| |auto]. intros x [->|Hx]%Hpr'; rewrite upd_eq; [by left|right; auto]. }
    destruct (x_enable (xmit s')) eqn:Hx.
    + eexists (0, []), (mkSys s' (a :: prepared y) (senders y)), _. split; [done|]. apply HS'. intros x Hx'. by apply elem_of_cons in Hx'.
    + eexists (-1, []), (set_dev y s'), _. split; [done|]. apply HS'. auto.
  - apply bool_decide_eq_true in Hal. pose proof (Hpr a Hal) as Hin.
    destruct (submit_spec smp sz Hsz (dev y) G a fl Hi Hin) as (u & s' & E & G' & l & Hi' & Hl & Hl' & Hk & Hk' & [X1 R1 E1 _]).
    rewrite E, res_bind_Ret. eexists (0, []), _, G'. split; [done|]. split; cbn [dev prepared senders]; [done|unfold agree; by rewrite X1, R1, E1| |].
    + intros x [Hxa Hx]%elem_of_del. rewrite Hl'. specialize (Hpr x Hx). rewrite Hl in Hpr. by apply elem_of_cons in Hpr as [?|?].
    + destruct (Z.eqb_spec (Z.land (u8 fl) NONBLOCK) 0); [|auto]. intros x [->|Hx]%elem_of_cons; auto.
  - apply andb_true_iff in Hal as [Hin%bool_decide_eq_true Hw]. unfold woken in Hw. destruct (m_bufs (dev y) !! a) as [b|] eqn:Hb; [|done].
    apply negb_true_iff, Z.eqb_neq in Hw. pose proof (woken_wait (dev y) G a b Hi (Hse a Hin) Hb Hw) as Hwt.
    destruct (finish_spec (dev y) G a Hi Hwt) as (r & s' & E & G' & b' & Hi' & Hp' & [X1 R1 E1 _] & _ & _ & Hk).
    rewrite E, res_bind_Ret. eexists (r, []), _, G'. split; [done|]. split; cbn [dev prepared senders]; [done|unfold agree; by rewrite X1, R1, E1| |].
    + intros x. rewrite Hp'. auto.
    + intros x [Hxa Hx]%elem_of_del. auto.
  - destruct (receive_spec smp sz Hsz (dev y) G al size Hi (al_okb_ok _ _ _ Hal)) as (r & s' & E & HP & _).
    destruct (SInv_post y G s' HS HP) as [G' HG']. exists r, (set_dev y s'), G'. rewrite E, res_bind_Ret. by destruct r.
Qed.

Lemma reach_inv y : reach y -> exists G, SInv y G.
Proof.
  induction 1 as [s bl irq r s' Hf Hb Hl Hi E|y l r y' _ [G HG] Hal E].
  - destruct (init_spec smp sz Hsz s bl irq Hf Hb Hl Hi) as (r1 & s1 & E1 & G & _ & A1 & A2 & _). rewrite E in E1. injection E1 as <- <-.
    exists G. split; cbn; [done|done|by intros a ?%not_elem_of_nil..].
  - destruct (sys_step y G l HG Hal) as (r1 & y1 & G1 & E1 & HG1). rewrite E in E1. injection E1 as <- <-. by exists G1.
Qed.

(** ** Execution of a list of steps *)

Fixpoint run_all (ls : list label) (y : sys) : option sys :=
  match ls with
  | [] => Some y
  | l :: ls' =>
      if allowed l y then
        match run_label l y with Ret (_, y') => run_all ls' y' | _ => None end
      else None
  end.

Lemma run_all_reach ls : forall y y', reach y -> run_all ls y = Some y' -> reach y'.
Proof.
  induction ls as [|l ls IH]; intros y y' Hr E; cbn in E; [by injection E as <-|].
  destruct (allowed l y) eqn:Ha; [|done]. destruct (run_label l y) as [[r y1]| |] eqn:El; [|done..].
  apply (IH y1); [by apply (reach_step y l r y1)|done].
Qed.

Lemma run_all_app l1 l2 : forall y, run_all (l1 ++ l2) y = run_all l1 y ≫= run_all l2.
Proof.
  induction l1 as [|l l1 IH]; intros y; cbn [app run_all]; [done|]. destruct (allowed l y); [|done].
  destruct (run_label l y) as [[r y1]| |]; [apply IH|done..].
Qed.

(** A step that changes nothing can be repeated. *)
Lemma run_all_idle l r y : allowed l y = true -> run_label l y = Ret (r, y) -> forall n, run_all (replicate n l) y = Some y.
Proof. intros Ha E. induction n as [|n IH]; cbn [replicate run_all]; [done|]. by rewrite Ha, E. Qed.

(** ** Properties *)

(** C7: Safety and progress.  From every state that the driver can be brought
    to by interrupts, deferred work and system calls in any order, with any
    answers of the controller, every further step runs to its end: no access
    outside a buffer or through a stale pointer, no corrupted list, no lock
    taken twice, no endless loop.  The steps are those of [allowed]: a message that
    is sent has 1 to 255 bytes, and there is memory for the buffer that replaces a
    received message (without it the driver faults: [cec_receive_no_memory]). *)
Theorem cec_safe y l : reach y -> allowed l y = true -> exists r y', run_label l y = Ret (r, y').
Proof. intros [G HG]%reach_inv Hal. destruct (sys_step y G l HG Hal) as (r & y' & _ & E & _). by exists r, y'. Qed.

(** C8: Messages are sent in order.  Those submitted so far are the ones the
    driver is done with, then the one being sent, then the queue, in this
    order; of the message being sent, the bytes written to the controller
    since the line was switched and the bytes left in the buffer are, after
    the address byte, exactly the message that was submitted. *)
Theorem cec_fifo y : reach y ->
  exists ltx, queue_rep (m_list (dev y)) (tx_queue (dev y)) ltx /\
    submits (trace (dev y)) = dones (trace (dev y)) ++ nz (x_cmb (xmit (dev y))) ++ ltx /\
    (forall a, a ∈ ltx -> exists b h m t, m_bufs (dev y) !! a = Some b /\ view (buf b) h m t /\ msg_of (trace (dev y)) a = Some m) /\
    (x_cmb (xmit (dev y)) <> 0 -> exists b h m t d, m_bufs (dev y) !! x_cmb (xmit (dev y)) = Some b /\ view (buf b) h m t /\
       msg_of (trace (dev y)) (x_cmb (xmit (dev y))) = Some (d :: fifo_since (trace (dev y)) ++ m)).
Proof.
  intros [G [[[[Hm Hp Ho] Hx Hr [H0 _]] _ _] _ _ _]]%reach_inv. exists (G (PQ TXQ)). split; [apply (mo_q _ _ _ _ Hm TXQ)|]. split.
  { unfold in_order in Ho. by rewrite Ho, Hx, H0. } split.
  - intros a Ha. destruct (Hp (PQ TXQ) a Ha) as (l & _ & (b & h & t & Hb & Hv & _) & E). by exists b, h, l, t.
  - intros Hne. destruct (Hp PX (x_cmb (xmit (dev y)))) as (d & l & (b & h & t & Hb & Hv & _) & E).
    { rewrite Hx, nz_ne by done. by left. } by exists b, h, l, t, d.
Qed.

(** C9: The eight receive buffers are never lost: the received messages, the
    free buffers and the one being received into are always eight distinct
    blocks of 64 bytes, and no lock is left taken. *)
Theorem cec_ring y : reach y ->
  exists lrx lfree, queue_rep (m_list (dev y)) (rx_queue (dev y)) lrx /\ queue_rep (m_list (dev y)) (rx_free_queue (dev y)) lfree /\
    let ring := lrx ++ lfree ++ nz (r_cmb (rcv (dev y))) in
    length ring = RX_RING_LENGTH /\ NoDup ring /\ (forall a, a ∈ ring -> rx_buf (m_bufs (dev y)) a) /\ lock (dev y) = false.
Proof.
  intros [G [[[[Hm Hp Ho] Hx Hr [H0 _]] [T1 _ _ _] Hrs] _ _ _]]%reach_inv. exists (G (PQ RXQ)), (G (PQ FREEQ)).
  split; [apply (mo_q _ _ _ _ Hm RXQ)|]. split; [apply (mo_q _ _ _ _ Hm FREEQ)|]. cbn zeta. rewrite <- Hr.
  destruct (mo_ghost _ _ _ _ Hm) as [Hnd Hdj]. split; [unfold ring_size in Hrs; rewrite !length_app; lia|]. split; [|split; [|done]].
  - apply NoDup_app. split; [done|]. split.
    + intros a Ha [Hb|Hb]%elem_of_app; by pose proof (Hdj _ _ a Ha Hb).
    + apply NoDup_app. split; [done|]. split; [|done]. intros a Ha Hb. by pose proof (Hdj _ _ a Ha Hb).
  - intros a [Ha|[Ha|Ha]%elem_of_app]%elem_of_app; [by apply (Hp (PQ RXQ))|by apply (Hp (PQ FREEQ))|by apply (Hp PR)].
Qed.

(** Switching the driver off wakes every sender: whatever state their
    messages are in, after [mars_cec_enable] with 0 on an enabled driver no
    caller is left asleep in [mars_cec_xmit_message]. *)
Theorem cec_disable_wakes y : reach y -> s_enable (dev y) = true ->
  exists r y', run_label (LEnable false) y = Ret (r, y') /\ s_enable (dev y') = false /\ senders y' = senders y /\
    forall a, a ∈ senders y -> woken (dev y') a = true.
Proof.
  intros [G HS]%reach_inv He. pose proof HS as [Hi Ha _ Hse]. cbn [run_label].
  destruct (enable_spec smp (dev y) G false Hi Ha) as (r & s' & E & G' & Hi' & [K1 K2] & Ha' & He' & Hemp). rewrite E.
  exists (r, []), (set_dev y s'). split; [done|]. split; [done|]. split; [done|]. intros a Hin. destruct (Hemp He eq_refl) as [Ex Eq].
  destruct (K2 a (Hse a Hin)) as [(p & Htx & Hap) _]. pose proof Hi' as [[[_ Hp _] _ _ [H0 _]] _ _].
  destruct p as [[]| | | | | |]; try done; rewrite ?Ex, ?Eq, ?H0 in Hap; try by apply not_elem_of_nil in Hap.
  destruct (Hp PWait a Hap) as (b & Hb & Hc & _). unfold woken. cbn. by rewrite Hb, Hc.
Qed.

(** A receive gives the caller the oldest message received, whole, if the
    caller's buffer can hold it, and -ENOMEM if not; with no message, or with
    the driver switched off, -EFAULT. *)
Theorem cec_receive y al size : reach y -> allowed (LReceive al size) y = true ->
  exists r out y' lrx, run_label (LReceive al size) y = Ret (r, out, y') /\ queue_rep (m_list (dev y)) (rx_queue (dev y)) lrx /\
    match lrx with
    | [] => (r, out) = (-14, [])
    | a :: _ =>
        if s_enable (dev y) then
          exists b h m t, m_bufs (dev y) !! a = Some b /\ view (buf b) h m t /\
            (r, out) = if Zlen m >? size then (-12, []) else (Zlen m, m)
        else (r, out) = (-14, [])
    end.
Proof.
  intros [G HS]%reach_inv Hal. pose proof HS as [Hi _ _ _]. cbn [allowed] in Hal.
  destruct (receive_spec smp sz Hsz (dev y) G al size Hi (al_okb_ok _ _ _ Hal)) as ([r out] & s' & E & _ & Hr).
  exists r, out, (set_dev y s'), (G (PQ RXQ)). cbn [run_label]. rewrite E. split; [done|].
  pose proof Hi as [[[Hm _ _] _ _ _] _ _]. split; [apply (mo_q _ _ _ _ Hm RXQ)|].
  destruct (G (PQ RXQ)) as [|a l]; [done|]. destruct Hr as [[-> Hr]|[-> (b & m & h & t & Hb & Hv & Hr)]]; [done|by exists b, h, m, t].
Qed.

(** C38: A transmission comes to an end: when its time is up, the deferred work
    ends it whatever the controller answers; exactly this message is added to
    those done, and its sender is woken. *)
Theorem cec_timeout y j : reach y -> x_state (xmit (dev y)) = XMIT -> time_after j (x_timeout (xmit (dev y))) = true ->
  exists r y', run_label (LTxWork j) y = Ret (r, y') /\
    dones (trace (dev y')) = dones (trace (dev y)) ++ [x_cmb (xmit (dev y))] /\
    (x_cmb (xmit (dev y)) ∈ senders y -> woken (dev y') (x_cmb (xmit (dev y))) = true).
Proof.
  intros [G HS]%reach_inv Hst Ht. pose proof HS as [Hi _ _ Hse].
  destruct (tx_work_spec smp HZ (dev y) G j Hi) as ([] & s' & E & G' & Hi' & [_ Hk] & _).
  exists (0, []), (set_dev y s'). cbn [run_label]. rewrite E. split; [done|]. cbn [dev set_dev].
  pose proof (timeout_hist smp HZ j _ _ _ Hst Ht E) as Hh. unfold hist in Hh. injection Hh as Hs Hd. split; [done|]. intros Hin.
  destruct (Hk _ (Hse _ Hin)) as [(p & Htx & Ha) _]. set (a := x_cmb (xmit (dev y))) in *.
  pose proof Hi as [[[Hm _ Ho] Hx _ [H0 _]] [_ T2 _ _] _]. pose proof Hi' as [[[_ Hp' Ho'] _ _ [H0' _]] _ _].
  assert (Hna : a <> 0) by (destruct T2 as [(_ & ? & _)|[E0 _]]; [done|by rewrite Hst in E0]). fold a in Hx. rewrite nz_ne in Hx by done.
  unfold in_order in Ho, Ho'. rewrite Hs, Hd, H0', Ho, Hx, H0, <- app_assoc in Ho'. cbn [app] in Ho'.
  apply app_inv_head, (app_inv_head [a]) in Ho'.
  assert (Hno : a ∉ G' PX ++ G' (PQ TXQ)).
  { rewrite <- Ho'. intros Hq. pose proof (gk_disj _ (mo_ghost _ _ _ _ Hm) PX (PQ TXQ) a ltac:(rewrite Hx; by left) Hq). done. }
  rewrite not_elem_of_app in Hno. destruct Hno as [N1 N2].
  destruct p as [[]| | | | | |]; try done; try (rewrite H0' in Ha; by apply not_elem_of_nil in Ha).
  destruct (Hp' PWait a Ha) as (b & Hb & Hc & _). unfold woken. by rewrite Hb, Hc.
Qed.
End system.

(** ** Runs with concrete controllers *)

(** Registers that keep what was last written. *)
Definition file_hw : CecHw := {|
  hst := gmap Z Z;
  hread h a := (default 0 (h !! a), h);
  hwrite h a v := <[a := v]> h
|}.

(** A controller that has stopped with three bytes received, and sends nothing. *)
Definition full_hw : CecHw := {|
  hst := unit;
  hread h a := (if a =? MIS_CEC_RX1 then 0x83 else if a =? MIS_CEC_RX_FIFO then 0x36 else
                if a =? MIS_CEC_TX_DATA2 then 1 else if a =? MIS_CEC_CR0 then 4 else 0, h);
  hwrite h a v := h
|}.

Definition size_cmb : Z := 44.
Definition hertz : Z := 100.

(** The blocks for the receive ring, and one for a message of [n] bytes. *)
Definition demo_blocks : list (Z * list Z) := (fun i => (4096 + 256 * Z.of_nat i, replicate 108 0)) <$> seq 0 8.
Definition block (p : Z) (n : Z) : option (Z * list Z) := Some (p, replicate (Z.to_nat (size_cmb + n)) 0).

Section demo.
Context {cec_hw : CecHw}.
Variable h0 : hst.

Definition heads : lists := mkLists (list_to_map [(256, 0); (264, 0); (272, 0)]) (list_to_map [(256, 0); (264, 0); (272, 0)]).
Definition before : mars_cec :=
  mkCec h0 [] heads ∅ false false (mkXmit false IDEL 0 0) (mkRcv false IDEL 0 0)
    (mkQueue 256 false 0) (mkQueue 264 false 0) (mkQueue 272 false 0) false.

Definition booted : sys :=
  match mars_cec_init true size_cmb (Some <$> demo_blocks) 0 before with
  | Ret (_, s) => mkSys s [] []
  | _ => mkSys before [] []
  end.

Lemma before_fresh : Fresh before.
Proof.
  split; try done.
  - intros []; split; by eexists.
  - by intros [] [].
Qed.

Lemma demo_blocks_ok : Blocks size_cmb before demo_blocks.
Proof.
  split.
  - apply Forall_fmap, Forall_seq. intros i Hi. cbv beta iota. split; [done|]. split; [lia|]. unfold size_cmb, RX_BUFFER_SIZE, W32. split; [lia|].
    by apply Forall_replicate.
  - by apply (bool_decide_unpack _); vm_compute.
  - intros p Hp. split; [done|]. intros k ->. revert Hp. apply (bool_decide_eq_true_1 (_ ∉ _)). by destruct k; vm_compute.
Qed.

Lemma booted_reach : reach true size_cmb hertz booted.
Proof.
  destruct (init_spec true size_cmb ltac:(done) before demo_blocks 0 before_fresh demo_blocks_ok eq_refl ltac:(done)) as (r & s' & E & _).
  unfold booted. rewrite E. apply (reach_init true size_cmb hertz before demo_blocks 0 r); [apply before_fresh|apply demo_blocks_ok|done|done|done].
Qed.

(** The state after the steps [ls]. *)
Definition after (ls : list label) : sys := default booted (run_all true size_cmb hertz ls booted).

Lemma after_reach ls : match run_all true size_cmb hertz ls booted with Some _ => true | None => false end = true -> reach true size_cmb hertz (after ls).
Proof.
  unfold after. destruct (run_all _ _ _ ls booted) as [y|] eqn:E; [|done]. intros _. by apply (run_all_reach true size_cmb hertz ls booted); [apply booted_reach|].
Qed.
End demo.

(** The driver is switched on and sends a message of three bytes. *)
Definition sending : list label :=
  [LEnable true; LRxWork; LPrepare (block 8192 3) [0x40; 0x36; 0x01]; LSubmit 8192 0; LTxWork 10].
Definition y_sending := after (cec_hw := file_hw) ∅ sending.
(** It is switched on and receives two messages. *)
Definition receiving : list label := [LEnable true; LRxWork; LRxWork; LRxWork].
Definition y_receiving := after (cec_hw := full_hw) tt receiving.

Lemma sending_reach : reach (cec_hw := file_hw) true size_cmb hertz y_sending.
Proof. apply after_reach. by vm_compute. Qed.

Lemma receiving_reach : reach (cec_hw := full_hw) true size_cmb hertz y_receiving.
Proof. apply after_reach. by vm_compute. Qed.

Lemma size_cmb_ok : 0 <= size_cmb < 1000000.
Proof. done. Qed.

Lemma cec_safe_witness : reach true size_cmb hertz y_sending /\ allowed size_cmb (LIsr 12) y_sending = true /\
  exists r y', run_label true size_cmb hertz (LIsr 12) y_sending = Ret (r, y').
Proof.
  split; [apply sending_reach|]. split; [by vm_compute|].
  apply (cec_safe true size_cmb hertz size_cmb_ok y_sending (LIsr 12) sending_reach). by vm_compute.
Defined.

Lemma cec_fifo_witness : x_cmb (xmit (dev y_sending)) = 8192 /\ fifo_since (trace (dev y_sending)) = [0x36; 0x01] /\
  submits (trace (dev y_sending)) = [8192] /\ exists ltx, queue_rep (m_list (dev y_sending)) (tx_queue (dev y_sending)) ltx.
Proof.
  split; [by vm_compute|]. split; [by vm_compute|]. split; [by vm_compute|].
  destruct (cec_fifo true size_cmb hertz size_cmb_ok y_sending sending_reach) as (ltx & H & _). by exists ltx.
Defined.

Lemma cec_ring_witness : r_cmb (rcv (dev y_receiving)) <> 0 /\ qlen (rx_queue (dev y_receiving)) = 2 /\
  exists lrx lfree, length (lrx ++ lfree ++ nz (r_cmb (rcv (dev y_receiving)))) = RX_RING_LENGTH.
Proof.
  split; [by vm_compute|]. split; [by vm_compute|].
  destruct (cec_ring true size_cmb hertz size_cmb_ok y_receiving receiving_reach) as (l1 & l2 & _ & _ & H & _). by exists l1, l2.
Defined.

Lemma cec_disable_wakes_witness : s_enable (dev y_sending) = true /\ senders y_sending = [8192] /\
  exists r y', run_label true size_cmb hertz (LEnable false) y_sending = Ret (r, y') /\ woken (dev y') 8192 = true.
Proof.
  split; [by vm_compute|]. split; [by vm_compute|].
  destruct (cec_disable_wakes true size_cmb hertz size_cmb_ok y_sending sending_reach ltac:(by vm_compute)) as (r & y' & E & _ & _ & H).
  exists r, y'. split; [exact E|]. apply H. replace (senders y_sending) with [8192] by (by vm_compute). by left.
Defined.

Lemma cec_receive_witness : allowed size_cmb (LReceive (block 8192 64) 16) y_receiving = true /\
  match run_label true size_cmb hertz (LReceive (block 8192 64) 16) y_receiving with
  | Ret (r, out, _) => Some (r, out)
  | _ => None
  end = Some (4, [0x04; 0x36; 0x36; 0x36]) /\
  exists r out y' lrx, run_label true size_cmb hertz (LReceive (block 8192 64) 16) y_receiving = Ret (r, out, y') /\
    queue_rep (m_list (dev y_receiving)) (rx_queue (dev y_receiving)) lrx.
Proof.
  split; [by vm_compute|]. split; [by vm_compute|].
  destruct (cec_receive true size_cmb hertz size_cmb_ok y_receiving (block 8192 64) 16 receiving_reach ltac:(by vm_compute))
    as (r & out & y' & l & E & H & _). exists r, out, y', l. split; [exact E|exact H].
Defined.

Lemma cec_timeout_witness : x_state (xmit (dev y_sending)) = XMIT /\ time_after 1000 (x_timeout (xmit (dev y_sending))) = true /\
  exists r y', run_label true size_cmb hertz (LTxWork 1000) y_sending = Ret (r, y') /\
    dones (trace (dev y')) = dones (trace (dev y_sending)) ++ [x_cmb (xmit (dev y_sending))].
Proof.
  split; [by vm_compute|]. split; [by vm_compute|].
  destruct (cec_timeout true size_cmb hertz size_cmb_ok y_sending 1000 sending_reach ltac:(by vm_compute) ltac:(by vm_compute)) as (r & y' & E & H & _).
  exists r, y'. split; [exact E|exact H].
Defined.

(** ** Defects *)

(** The driver is switched off while it sends, and on again. *)
Definition y_again := after (cec_hw := file_hw) ∅ (sending ++ [LEnable false; LEnable true]).

Lemma rx_work_stuck : run_label (cec_hw := file_hw) true size_cmb hertz LRxWork y_again = Ret (0, [], y_again).
Proof. vm_compute. reflexivity. Qed.

(** [mars_cec_tx_stop] resets the receiver and leaves the line switched to
    sending.  A driver that is switched off during a transmission and on again
    does not receive: however often the deferred work runs, the receiver stays
    idle although it is enabled. *)
Theorem cec_deaf_after_stop n :
  exists y', run_all (cec_hw := file_hw) true size_cmb hertz (sending ++ [LEnable false; LEnable true] ++ replicate n LRxWork) (booted ∅) = Some y' /\
    r_enable (rcv (dev y')) = true /\ r_state (rcv (dev y')) = IDEL /\ regs (dev y') !! MIS_CEC_TX_DATA2 = Some TX_DATA2.
Proof.
  exists y_again. rewrite app_assoc, run_all_app. split; [|split; [|split]; by vm_compute].
  replace (run_all true size_cmb hertz (sending ++ [LEnable false; LEnable true]) (booted ∅)) with (Some y_again) by (by vm_compute).
  apply (run_all_idle (cec_hw := file_hw) true size_cmb hertz LRxWork (0, [])); [reflexivity|apply rx_work_stuck].
Qed.

(** [mars_cec_read_message] puts the result of [alloc_cmb] on the free
    queue without a test: with a message waiting and no memory, a receive
    follows a NULL pointer. *)
Theorem cec_receive_no_memory : s_enable (dev y_receiving) = true /\ qlen (rx_queue (dev y_receiving)) = 2 /\
  run_label true size_cmb hertz (LReceive None 16) y_receiving = Fault.
Proof. split; [|split]; by vm_compute. Qed.

(** A send on a driver that is switched off is refused with -1 and the
    message is not released: its block stays allocated, on no queue and with
    no caller that knows it. *)
Theorem cec_send_disabled_leaks (y := booted (cec_hw := file_hw) ∅) :
  match run_label true size_cmb hertz (LPrepare (block 8192 3) [0x40; 0x36; 0x01]) y with
  | Ret (r, _, y') => (r, bool_decide (is_Some (m_bufs (dev y') !! 8192)), prepared y', senders y', qlen (tx_queue (dev y')))
  | _ => (0, false, [], [], 0)
  end = (-1, true, [], [], 0).
Proof. by vm_compute. Qed.

(** The wake-up test compares the flags with message codes: the flag that
    asks for a wake-up by SET STREAM PATH wakes for PLAY only and the flag for
    PLAY wakes for SET STREAM PATH only. *)
Theorem cec_wakeup_flags_mixed msg :
  (wakeup_reason CEC_WAKEUP_BY_SET_STREAM_PATH msg <> 0 <-> msg = CEC_MSG_PLAY) /\
  (wakeup_reason CEC_WAKEUP_BY_PLAY_CMD msg <> 0 <-> msg = CEC_MSG_SET_STREAM_PATH).
Proof.
  unfold wakeup_reason, CEC_MSG_PLAY, CEC_MSG_SET_STREAM_PATH, CEC_MSG_IMAGE_VIEW_ON, CEC_MSG_TEXT_VIEW_ON.
  destruct (Z.eqb_spec msg 0x04) as [->|]; [done|]. destruct (Z.eqb_spec msg 0x0D) as [->|]; [done|]. cbn [orb].
  destruct (Z.eqb_spec msg 0x86) as [->|]; [done|]. by destruct (Z.eqb_spec msg 0x41) as [->|].
Qed.
