(* ===== verification/Scd.v ===== *)
(** * The smart card reader: [drivers/smartcard/adapter/scd_mars_priv.c],
    [scd_mars.c] and [drivers/smartcard/core/scd_dev.c]

    A timer polls the controller and runs a state machine: disabled, idle,
    resetting a card and collecting its answer, active.  The requests of the
    device file change the state, set the clock, and exchange bytes with the
    card over the two queues of the controller.

    The controller answers as it likes ([reg_at]), but for its receive queue:
    the bytes the card sends ([arrive]) are read in order, and the bit
    [SC_FIFO_RST] of the control register empties the queue.  Time passes while
    a thread sleeps; the timer may run then, any number of times ([naps]). *)
From stdpp Require Import base tactics list numbers option.
From Stdlib Require Import ZArith Lia.
From S2P Require Import Prelude Driver Buff ScBuff ScdAtr.

(** [arrive t]: the bytes that arrive before the [t]-th access; [naps t]: the
    times between runs of the timer in a sleep that begins at the [t]-th access. *)
Class ScdEnv := {
  reg_at : nat -> Z -> Z;
  arrive : nat -> list Z;
  naps : nat -> list Z;
  kmalloc_at : nat -> Z -> option (Z * list Z)
}.

(** ** Registers *)

Definition MIS_ISR : Z := 0xb801b00c.
Definition MIS_SC_ISR (id : Z) : Z := if id =? 0 then Z.shiftl 1 24 else Z.shiftl 1 25.
Definition SC_BASE (id : Z) : Z := if id =? 0 then 0xB801BA00 else 0xB801BC00.
Definition SCFP : Z := 0x00.
Definition SCCR : Z := 0x04.
Definition SCPCR : Z := 0x08.
Definition SCTXFIFO : Z := 0x0C.
Definition SCTXLENR : Z := 0x10.
Definition SCRXFIFO : Z := 0x14.
Definition SCIRSR : Z := 0x20.
Definition SCIRER : Z := 0x24.

(** [((x & mask) << n)] *)
Definition field (mask n x : Z) : Z := u32 (Z.shiftl (Z.land x mask) n).
Definition SC_CLK_EN := field 0x01 24.
Definition SC_CLKDIV := field 0x3F 18.
Definition SC_BAUDDIV2 := field 0x03 16.
Definition SC_BAUDDIV1 := field 0xFF 8.
Definition SC_PRE_CLKDIV := field 0xFF 0.
Definition SC_BAUDDIV_MASK : Z := Z.lor (SC_BAUDDIV1 0xFF) (SC_BAUDDIV2 0x3).
Definition SC_PRE_CLKDIV_MASK : Z := SC_PRE_CLKDIV 0xFF.
Definition SC_FIFO_RST := field 1 31.
Definition SC_RST := field 1 30.
Definition SC_SCEN := field 1 29.
Definition SC_TX_GO := field 1 28.
Definition SC_AUTO_ATR := field 1 27.
Definition SC_CONV := field 1 26.
Definition SC_PS := field 1 24.
Definition SC_BGT := field 0x1F 7.
Definition SC_RCV_INT : Z := 0x02.
Definition SC_ATRS_INT : Z := 0x80.
Definition SC_RXP_INT : Z := 0x100.
Definition SC_RX_FOVER_INT : Z := 0x200.
Definition SC_CPRES_INT : Z := 0x8000.
Definition SC_PRES : Z := 0x10000.

Definition SYSTEM_CLK : Z := 27000000.
Definition MAX_SC_CLK : Z := 8500000.
Definition MIN_SC_CLK : Z := 1000000.

(** [a | b | ...] *)
Definition bits (l : list Z) : Z := fold_right Z.lor 0 l.
Definition has (v m : Z) : bool := negb (Z.land v m =? 0).

(** ** State *)

Inductive IFD_FSM := IFD_FSM_UNKNOWN | IFD_FSM_DISABLE | IFD_FSM_IDEL | IFD_FSM_RESET | IFD_FSM_ACTIVE.

#[export] Instance fsm_eq_dec : EqDecision IFD_FSM.
Proof. solve_decision. Defined.

(** [detected]: the count of [card_detect_completion]; [expires]: the time of the timer. *)
Record mars_scd := mkScd {
  ch_id : Z; fsm : IFD_FSM; clock_div : Z; pre_clock_div : Z; baud_div1 : Z; baud_div2 : Z; parity : Z;
  atr : scd_atr; atr_info : scd_atr_info; atr_timeout : Z; detected : Z; expires : Z
}.

(** [rx]: the receive queue of the controller; [out]: the registers written,
    newest first; [jif]: the time; [live]: the message buffers allocated. *)
Record scd_st := mkS { dev : mars_scd; rx : list Z; out : list (Z * Z); now : nat; jif : Z; live : Z }.

Abbreviation SC := (Drv scd_st).

Definition set_dev (f : mars_scd -> mars_scd) : SC unit :=
  modify (fun s => mkS (f (dev s)) (rx s) (out s) (now s) (jif s) (live s)).
Definition with_fsm (x : IFD_FSM) (d : mars_scd) : mars_scd :=
  mkScd (ch_id d) x (clock_div d) (pre_clock_div d) (baud_div1 d) (baud_div2 d) (parity d) (atr d) (atr_info d) (atr_timeout d) (detected d) (expires d).
Definition with_pre (x : Z) (d : mars_scd) : mars_scd :=
  mkScd (ch_id d) (fsm d) (clock_div d) x (baud_div1 d) (baud_div2 d) (parity d) (atr d) (atr_info d) (atr_timeout d) (detected d) (expires d).
Definition with_baud (x y : Z) (d : mars_scd) : mars_scd :=
  mkScd (ch_id d) (fsm d) (clock_div d) (pre_clock_div d) x y (parity d) (atr d) (atr_info d) (atr_timeout d) (detected d) (expires d).
Definition with_parity (x : Z) (d : mars_scd) : mars_scd :=
  mkScd (ch_id d) (fsm d) (clock_div d) (pre_clock_div d) (baud_div1 d) (baud_div2 d) x (atr d) (atr_info d) (atr_timeout d) (detected d) (expires d).
Definition with_atr (x : scd_atr) (d : mars_scd) : mars_scd :=
  mkScd (ch_id d) (fsm d) (clock_div d) (pre_clock_div d) (baud_div1 d) (baud_div2 d) (parity d) x (atr_info d) (atr_timeout d) (detected d) (expires d).
Definition with_info (x : scd_atr_info) (d : mars_scd) : mars_scd :=
  mkScd (ch_id d) (fsm d) (clock_div d) (pre_clock_div d) (baud_div1 d) (baud_div2 d) (parity d) (atr d) x (atr_timeout d) (detected d) (expires d).
Definition with_timeout (x : Z) (d : mars_scd) : mars_scd :=
  mkScd (ch_id d) (fsm d) (clock_div d) (pre_clock_div d) (baud_div1 d) (baud_div2 d) (parity d) (atr d) (atr_info d) x (detected d) (expires d).
Definition with_detected (x : Z) (d : mars_scd) : mars_scd :=
  mkScd (ch_id d) (fsm d) (clock_div d) (pre_clock_div d) (baud_div1 d) (baud_div2 d) (parity d) (atr d) (atr_info d) (atr_timeout d) x (expires d).
Definition with_expires (x : Z) (d : mars_scd) : mars_scd :=
  mkScd (ch_id d) (fsm d) (clock_div d) (pre_clock_div d) (baud_div1 d) (baud_div2 d) (parity d) (atr d) (atr_info d) (atr_timeout d) (detected d) x.

(** [p_this->atr.length = 0] *)
Definition clear_atr : SC unit := set_dev (fun d => with_atr (mkAtr (atr_data (atr d)) 0) d).

Section scd.
Context {env : ScdEnv}.
Variable HZ : Z.
Variable sizeof_sc_buff : Z.

(** ** Accesses *)

Definition tick : SC nat := fun s =>
  Ret (now s, mkS (dev s) (rx s ++ arrive (now s)) (out s) (S (now s)) (jif s) (live s)).

Definition rtd_inl (a : Z) : SC Z := t ← tick; mret (u32 (reg_at t a)).
Definition rtd_outl (a v : Z) : SC unit :=
  _ ← tick;
  modify (fun s => mkS (dev s) (rx s) ((a, u32 v) :: out s) (now s) (jif s) (live s)).

Definition GET (r : Z) : SC Z := s ← get; rtd_inl (SC_BASE (ch_id (dev s)) + r).
Definition SET (r v : Z) : SC unit := s ← get; rtd_outl (SC_BASE (ch_id (dev s)) + r) v.

Definition SET_SCCR (v : Z) : SC unit :=
  _ ← SET SCCR v;
  if has v (SC_FIFO_RST 1) then modify (fun s => mkS (dev s) [] (out s) (now s) (jif s) (live s)) else mret tt.

Definition GET_SC_RXLENR : SC Z := _ ← tick; s ← get; mret (Zlen (rx s)).

(** What an empty queue gives is up to the controller. *)
Definition GET_SC_RXFIFO : SC Z :=
  t ← tick;
  s ← get;
  match rx s with
  | [] => mret (u32 (reg_at t (SC_BASE (ch_id (dev s)) + SCRXFIFO)))
  | b :: l => _ ← modify (fun s => mkS (dev s) l (out s) (now s) (jif s) (live s)); mret b
  end.

Definition jiffies : SC Z := s ← get; mret (u32 (jif s)).
Definition elapse (d : Z) : SC unit := modify (fun s => mkS (dev s) (rx s) (out s) (now s) (jif s + d) (live s)).

(** ** The state machine *)

Definition mars_scd_card_detect : SC Z :=
  v ← GET SCIRSR;
  mret (if has v SC_PRES then 1 else 0).

(** [mars_scd_set_state] for the states other than reset. *)
Definition set_state_simple (x : IFD_FSM) : SC Z :=
  s ← get;
  if decide (fsm (dev s) = x) then mret 0
  else
    _ ← match x with
        | IFD_FSM_DISABLE =>
            _ ← SET_SCCR (bits [SC_FIFO_RST 1; SC_SCEN 0; SC_AUTO_ATR 1; SC_CONV 0; SC_PS (parity (dev s))]);
            _ ← SET SCIRER 0;
            _ ← SET SCIRSR 0xFFFFFFFF;
            clear_atr
        | IFD_FSM_IDEL =>
            _ ← SET_SCCR (bits [SC_FIFO_RST 0; SC_SCEN 1; SC_AUTO_ATR 1; SC_CONV 0; SC_PS (parity (dev s))]);
            _ ← SET SCIRER SC_CPRES_INT;
            _ ← SET SCIRSR 0xFFFFFFFF;
            clear_atr
        | _ => mret tt
        end;
    _ ← set_dev (with_fsm x);
    mret 0.

Definition mars_scd_set_state (x : IFD_FSM) : SC Z :=
  match x with
  | IFD_FSM_RESET =>
      s ← get;
      if decide (fsm (dev s) = IFD_FSM_RESET) then mret 0
      else
        _ ← clear_atr;
        d ← mars_scd_card_detect;
        if d =? 0 then
          _ ← set_state_simple IFD_FSM_IDEL;
          mret (-1)
        else
          _ ← SET SCIRER (bits [SC_CPRES_INT; SC_ATRS_INT; SC_RXP_INT; SC_RX_FOVER_INT]);
          _ ← SET_SCCR (bits [SC_FIFO_RST 1; SC_RST 1; SC_SCEN 1; SC_AUTO_ATR 1; SC_CONV 0; SC_PS (parity (dev s))]);
          j ← jiffies;
          _ ← set_dev (with_timeout (u32 (j + HZ)));
          _ ← set_dev (with_fsm IFD_FSM_RESET);
          mret 0
  | _ => set_state_simple x
  end.

(** [for (i=0; i<rx_len; i++) GET_SC_RXFIFO(id);] *)
Fixpoint rx_drop (n : nat) : SC unit :=
  match n with
  | O => mret tt
  | S n' => _ ← GET_SC_RXFIFO; rx_drop n'
  end.

(** [while(GET_SC_RXLENR(id)) ...]; [false]: the answer is too long. *)
Fixpoint rx_atr (fuel : nat) : SC bool :=
  match fuel with
  | O => stuck
  | S fuel' =>
      l ← GET_SC_RXLENR;
      if l =? 0 then mret true
      else
        s ← get;
        let a := atr (dev s) in
        if atr_length a >=? MAX_ATR_SIZE then mret false
        else
          b ← GET_SC_RXFIFO;
          d ← lift_res (wr (atr_data a) (atr_length a) (u8 b));
          _ ← set_dev (with_atr (mkAtr d (u8 (atr_length a + 1))));
          rx_atr fuel'
  end.

(** The queue is found empty, or the answer too long, after at most 33 turns. *)
Definition atr_fuel : nat := 34.

(** The check of what has been received; [false]: [err_atr_failed]. *)
Definition atr_check : SC bool :=
  s ← get;
  c ← lift_res (is_atr_complete (atr (dev s)));
  if c =? 0 then mret true
  else
    '(r, info) ← lift_res (decompress_atr (atr (dev s)) (atr_info (dev s)));
    _ ← set_dev (with_info info);
    if r <? 0 then mret false
    else
      _ ← mars_scd_set_state IFD_FSM_ACTIVE;
      mret true.

Definition mars_scd_fsm_reset : SC unit :=
  event ← GET SCIRSR;
  s ← get;
  j ← jiffies;
  ok ← (if has event SC_RXP_INT || negb (has event SC_PRES) || time_after j (atr_timeout (dev s)) then mret false
        else if has event SC_RCV_INT then
          if (atr_length (atr (dev s)) =? 0) && negb (has event SC_ATRS_INT) then
            l ← GET_SC_RXLENR;
            _ ← rx_drop (Z.to_nat l);
            mret true
          else
            fits ← rx_atr atr_fuel;
            if (fits : bool) then atr_check else mret false
        else mret true);
  _ ← (if (ok : bool) then mret 0 else mars_scd_set_state IFD_FSM_IDEL);
  SET SCIRSR event.

Definition mars_scd_fsm_active : SC unit :=
  status ← GET SCIRSR;
  d ← mars_scd_card_detect;
  _ ← (if d =? 0 then mars_scd_set_state IFD_FSM_IDEL else mret 0);
  SET SCIRSR status.

Definition mars_scd_work : SC unit :=
  status ← GET SCIRSR;
  _ ← (if has status SC_CPRES_INT then
         _ ← mars_scd_card_detect;
         set_dev (fun d => with_detected (u32 (detected d + 1)) d)
       else mret tt);
  s ← get;
  _ ← match fsm (dev s) with
      | IFD_FSM_RESET => mars_scd_fsm_reset
      | IFD_FSM_ACTIVE => mars_scd_fsm_active
      | _ => mret tt
      end;
  SET SCIRSR status.

Definition mars_scd_timer : SC unit :=
  v ← rtd_inl MIS_ISR;
  s ← get;
  let event := Z.land v (MIS_SC_ISR (ch_id (dev s))) in
  _ ← (if negb (event =? 0) then mars_scd_work else mret tt);
  _ ← rtd_outl MIS_ISR event;
  j ← jiffies;
  set_dev (with_expires (u32 (j + HZ))).

(** ** Sleeping *)

Fixpoint naps_loop (l : list Z) : SC unit :=
  match l with
  | [] => mret tt
  | d :: l' => _ ← elapse (Z.max 0 d); _ ← mars_scd_timer; naps_loop l'
  end.

(** A sleep of [ms] milliseconds or longer. *)
Definition msleep (ms : Z) : SC unit :=
  s ← get;
  _ ← naps_loop (naps (now s));
  _ ← tick;
  elapse (ms * HZ / 1000).

(** ** Operations *)

Definition mars_scd_enable (on_off : Z) : SC Z :=
  s ← get;
  if negb (on_off =? 0) then
    if decide (fsm (dev s) = IFD_FSM_DISABLE) then mars_scd_set_state IFD_FSM_IDEL else mret 0
  else mars_scd_set_state IFD_FSM_DISABLE.

(** Unsigned division; by zero it traps. *)
Definition udiv (a b : Z) : SC Z := if b =? 0 then fault else mret (a / b).

(** The limits are applied to [clk] after the divisor has been computed from it. *)
Definition mars_scd_set_clock (clk : Z) : SC Z :=
  s ← get;
  q ← udiv SYSTEM_CLK clk;
  div ← udiv q (clock_div (dev s));
  let clk := if clk >? MAX_SC_CLK then MAX_SC_CLK else clk in
  let clk := if clk <? MIN_SC_CLK then MIN_SC_CLK else clk in
  _ ← set_dev (with_pre (u8 div));
  v ← GET SCFP;
  s ← get;
  _ ← SET SCFP (Z.lor (Z.land v (W32 - 1 - SC_PRE_CLKDIV_MASK)) (SC_PRE_CLKDIV (pre_clock_div (dev s))));
  mret 0.

Definition mars_scd_get_clock : SC Z :=
  s ← get;
  q ← udiv SYSTEM_CLK (pre_clock_div (dev s));
  udiv q (clock_div (dev s)).

Definition mars_scd_set_etu (etu : Z) : SC Z :=
  s ← get;
  _ ← set_dev (with_baud (u32 (etu * clock_div (dev s)) / 31) 31);
  v ← GET SCFP;
  s ← get;
  _ ← SET SCFP (Z.lor (Z.land v (W32 - 1 - SC_BAUDDIV_MASK)) (Z.lor (SC_BAUDDIV1 (u32 (baud_div1 (dev s) - 1))) (SC_BAUDDIV2 0)));
  mret 0.

Definition mars_scd_get_etu : SC Z :=
  s ← get;
  udiv (u32 (baud_div2 (dev s) * baud_div1 (dev s))) (clock_div (dev s)).

Definition mars_scd_set_parity (p : Z) : SC Z :=
  _ ← set_dev (with_parity (if p =? 0 then 0 else 1));
  s ← get;
  let val := if decide (fsm (dev s) = IFD_FSM_DISABLE) then bits [SC_FIFO_RST 0; SC_SCEN 1; SC_AUTO_ATR 1; SC_CONV 0]
             else bits [SC_FIFO_RST 0; SC_SCEN 1; SC_AUTO_ATR 1; SC_CONV 0] in
  _ ← SET_SCCR (Z.lor val (SC_PS (parity (dev s))));
  mret 0.

Definition mars_scd_get_parity : SC Z := s ← get; mret (parity (dev s)).

(** [while(!time_after(jiffies,t) && p_this->fsm == IFD_FSM_RESET) msleep(100);] *)
Fixpoint reset_wait (fuel : nat) (t : Z) : SC unit :=
  match fuel with
  | O => stuck
  | S fuel' =>
      j ← jiffies;
      s ← get;
      if negb (time_after j t) && bool_decide (fsm (dev s) = IFD_FSM_RESET) then
        _ ← msleep 100;
        reset_wait fuel' t
      else mret tt
  end.

(** Every turn takes a tenth of a second or longer. *)
Definition reset_fuel : nat := Z.to_nat (4 * HZ + 2).

Definition mars_scd_reset : SC Z :=
  r ← mars_scd_set_state IFD_FSM_RESET;
  if negb (r =? 0) then mret (-1)
  else
    j ← jiffies;
    _ ← reset_wait reset_fuel (u32 (j + Z.shiftl HZ 2));
    s ← get;
    if decide (fsm (dev s) = IFD_FSM_ACTIVE) then mret 0
    else
      _ ← mars_scd_set_state IFD_FSM_IDEL;
      mret (-1).

Definition mars_scd_activate : SC Z :=
  s ← get;
  match fsm (dev s) with
  | IFD_FSM_DISABLE => mret (-1)
  | IFD_FSM_IDEL =>
      r ← mars_scd_reset;
      mret (if r =? 0 then 0 else -1)
  | IFD_FSM_RESET => mret 0
  | IFD_FSM_ACTIVE => mret 0
  | IFD_FSM_UNKNOWN => mret (-1)
  end.

Definition mars_scd_deactivate : SC Z :=
  s ← get;
  if decide (fsm (dev s) = IFD_FSM_DISABLE) then mret 0
  else
    _ ← mars_scd_set_state IFD_FSM_DISABLE;
    _ ← mars_scd_set_state IFD_FSM_IDEL;
    mret 0.

(** The answer as copied to [p_atr]. *)
Definition mars_scd_get_atr : SC (Z * list Z) :=
  s ← get;
  if negb (bool_decide (fsm (dev s) = IFD_FSM_ACTIVE)) then mret (-1, [])
  else
    l ← lift_res (load (atr_data (atr (dev s))) 0 (atr_length (atr (dev s))));
    mret (0, l).

(** [wait_for_completion]; without fuel the thread goes on sleeping. *)
Fixpoint wait_detected (fuel : nat) : SC unit :=
  s ← get;
  if 0 <? detected (dev s) then set_dev (fun d => with_detected (detected d - 1) d)
  else match fuel with
       | O => stuck
       | S fuel' => _ ← msleep 1; wait_detected fuel'
       end.

Definition mars_scd_poll_card_status (fuel : nat) : SC Z :=
  _ ← set_dev (with_detected 0);
  _ ← wait_detected fuel;
  mars_scd_card_detect.

(** [for(i = 0; i < scb->len; i++) SET_SC_TXFIFO(id, scb->data[i]);] *)
Fixpoint tx_fill (n : nat) (p : Z) (b : sc_buff) : SC unit :=
  match n with
  | O => mret tt
  | S n' =>
      x ← lift_res (bload (buf b) p 1);
      _ ← SET SCTXFIFO (hd 0 x);
      tx_fill n' (p + 1) b
  end.

Definition mars_scd_xmit (b : sc_buff) : SC (Z * sc_buff) :=
  v ← GET SCCR;
  _ ← SET_SCCR (Z.lor v (SC_FIFO_RST 1));
  if len (buf b) <=? 32 then
    _ ← tx_fill (Z.to_nat (len (buf b))) (data (buf b)) b;
    _ ← GET SCTXLENR;
    let b' := snd (scb_pull b (len (buf b))) in
    v ← GET SCCR;
    _ ← SET_SCCR (Z.lor v (SC_TX_GO 1));
    _ ← msleep 5;
    mret (0, b')
  else mret (-1, b).

Definition scb_alloc (size : Z) : SC (option sc_buff) :=
  t ← tick;
  match alloc_scb sizeof_sc_buff (kmalloc_at t) size with
  | Some b => _ ← modify (fun s => mkS (dev s) (rx s) (out s) (now s) (jif s) (live s + 1)); mret (Some b)
  | None => mret None
  end.
Definition scb_free : SC unit := modify (fun s => mkS (dev s) (rx s) (out s) (now s) (jif s) (live s - 1)).

(** [for(i = 0; i < len; i++) scb->data[i] = GET_SC_RXFIFO(id);] *)
Fixpoint rx_fill (n : nat) (p : Z) (b : sc_buff) : SC sc_buff :=
  match n with
  | O => mret b
  | S n' =>
      x ← GET_SC_RXFIFO;
      m ← lift_res (bstore (buf b) p [u8 x]);
      rx_fill n' (p + 1) (set_buf b m)
  end.

(** Without memory a NULL pointer is followed. *)
Definition mars_scd_read : SC (option sc_buff) :=
  _ ← GET_SC_RXLENR;
  l ← GET_SC_RXLENR;
  if 0 <? l then
    o ← scb_alloc l;
    match o with
    | None => fault
    | Some b =>
        b ← rx_fill (Z.to_nat l) (data (buf b)) b;
        mret (Some (snd (scb_put b l)))
    end
  else mret None.

(** [blk]: whether [kmalloc] gives memory; [None]: NULL. *)
Definition mars_scd_open (n : Z) (blk : bool) : SC (option unit) :=
  if n >=? 2 then mret None
  else
    v ← rtd_inl 0xb8000364;
    _ ← rtd_outl 0xb8000364 (Z.lor v 0x3000);
    if negb blk then mret None
    else
      _ ← set_dev (fun _ => mkScd n IFD_FSM_UNKNOWN 1 8 12 31 1 init_atr zero_info 0 0 0);
      _ ← SET SCFP (bits [SC_CLK_EN 1; SC_CLKDIV 0; SC_BAUDDIV2 0; SC_BAUDDIV1 11; SC_PRE_CLKDIV 7]);
      _ ← SET_SCCR (bits [SC_FIFO_RST 1; SC_SCEN 1; SC_AUTO_ATR 1; SC_CONV 0; SC_PS 0]);
      _ ← SET SCPCR (SC_BGT 0x16);
      _ ← SET SCIRER 0;
      _ ← SET SCIRSR 0xFFFFFFFF;
      j ← jiffies;
      _ ← set_dev (with_expires (u32 (j + HZ)));
      _ ← mars_scd_set_state IFD_FSM_DISABLE;
      mret (Some tt).

(** Nothing happens to the reader afterwards: that the timer is deleted and the
    memory released is not represented. *)
Definition mars_scd_close : SC unit :=
  _ ← mars_scd_set_state IFD_FSM_DISABLE;
  set_dev (fun d => with_detected (u32 (detected d + 1)) d).

(** ** The driver operations and the device file *)

Record scd_param := mkParam { p_clk : Z; p_etu : Z; p_parity : Z }.

(** [dev_id]: the identification of the device; [blk] as above. *)
Definition ops_probe (dev_id : Z) (blk : bool) : SC Z :=
  if negb (Z.land dev_id 0xFFFFFFFC =? 0x12830000) then mret (-19)
  else
    p ← mars_scd_open (Z.land dev_id 3) blk;
    match p with
    | None => mret (-12)
    | Some _ => mret 0
    end.

Definition ops_set_param (p : scd_param) : SC Z :=
  r1 ← mars_scd_set_clock (p_clk p);
  r2 ← mars_scd_set_etu (p_etu p);
  r3 ← mars_scd_set_parity (p_parity p);
  mret (Z.lor r1 (Z.lor r2 r3)).

Definition ops_get_param : SC (Z * scd_param) :=
  c ← mars_scd_get_clock;
  e ← mars_scd_get_etu;
  q ← mars_scd_get_parity;
  mret (0, mkParam c e q).

(** For a node that has a device. *)
Definition scd_dev_open : SC Z := _ ← mars_scd_enable 1; mret 0.
Definition scd_dev_release : SC Z := _ ← mars_scd_enable 0; mret 0.

Definition SCD_RESET : Z := 0x7301.
Definition SCD_SETPARAM : Z := 0x7302.
Definition SCD_GETPARAM : Z := 0x7303.
Definition SCD_DEACTIVE : Z := 0x7306.
Definition SCD_ACTIVE : Z := 0x7307.
Definition SCD_GET_ATR : Z := 0x7309.
Definition SCD_READ : Z := 0x730a.
Definition SCD_WRITE : Z := 0x730b.
Definition SCD_CARD_DETECT : Z := 0x730d.
Definition SCD_POLL_CARD_STATUS_CHANGE : Z := 0x730e.

(** The argument in the memory of the process ([None]: it cannot be read): as
    parameters; as a message, its length and its bytes. *)
Record scd_arg := mkScdArg { a_param : option scd_param; a_length : option Z; a_data : option (list Z) }.

(** What is written to the process. *)
Inductive scd_reply := RNone | RParam (p : scd_param) | RBytes (l : list Z).

Definition EFAULT : Z := 14.
Definition ENOMEM : Z := 12.

Definition scd_read_msg (length : Z) : SC (Z * scd_reply) :=
  o ← mars_scd_read;
  match o with
  | None => mret (- EFAULT, RNone)
  | Some b =>
      if len (buf b) >? length then
        _ ← scb_free;
        mret (- ENOMEM, RNone)
      else
        l ← lift_res (bload (buf b) (data (buf b)) (len (buf b)));
        _ ← scb_free;
        mret (len (buf b), RBytes l)
  end.

(** [bs]: the [length] bytes of the message. *)
Definition scd_write_msg (length : Z) (bs : option (list Z)) : SC (Z * scd_reply) :=
  o ← scb_alloc length;
  match o with
  | None => mret (- ENOMEM, RNone)
  | Some b =>
      let '(p, b) := scb_put b length in
      match bs with
      | None => mret (- EFAULT, RNone)
      | Some l =>
          m ← lift_res (bstore (buf b) p l);
          '(r, _) ← mars_scd_xmit (set_buf b m);
          mret (r, RNone)
      end
  end.

Definition scd_dev_ioctl (fuel : nat) (cmd : Z) (arg : scd_arg) : SC (Z * scd_reply) :=
  if cmd =? SCD_SETPARAM then
    match a_param arg with
    | None => mret (- EFAULT, RNone)
    | Some p => r ← ops_set_param p; mret (r, RNone)
    end
  else if cmd =? SCD_GETPARAM then
    '(r, p) ← ops_get_param;
    if r <? 0 then mret (- EFAULT, RNone) else mret (0, RParam p)
  else if cmd =? SCD_ACTIVE then r ← mars_scd_activate; mret (r, RNone)
  else if cmd =? SCD_DEACTIVE then r ← mars_scd_deactivate; mret (r, RNone)
  else if cmd =? SCD_RESET then r ← mars_scd_reset; mret (r, RNone)
  else if cmd =? SCD_CARD_DETECT then r ← mars_scd_card_detect; mret (r, RNone)
  else if cmd =? SCD_POLL_CARD_STATUS_CHANGE then r ← mars_scd_poll_card_status fuel; mret (r, RNone)
  else if cmd =? SCD_GET_ATR then
    '(r, l) ← mars_scd_get_atr;
    if negb (r =? 0) then mret (-1, RNone) else mret (0, RBytes l)
  else if cmd =? SCD_READ then
    match a_length arg with
    | None => mret (- EFAULT, RNone)
    | Some n => scd_read_msg n
    end
  else if cmd =? SCD_WRITE then
    match a_length arg with
    | None => mret (- EFAULT, RNone)
    | Some n => scd_write_msg n (a_data arg)
    end
  else mret (- EFAULT, RNone).
End scd.
