(* ===== verification/ScdProofs.v ===== *)
(** * The smart card reader: lemmas

    The functions on answers return for any bytes; what every action of the
    reader keeps. *)
From stdpp Require Import base tactics list numbers option.
From Stdlib Require Import ZArith Lia.
From S2P Require Import Prelude Driver Buff RpcProofs ScBuff ScdAtr Scd.

(** ** Answers of any content *)

Lemma land_ones_range n x : 0 <= n -> 0 <= Z.land x (Z.ones n) < 2 ^ n.
Proof. intros Hn. rewrite Z.land_ones by done. apply Z.mod_pos_bound. lia. Qed.

Lemma land_1 x : 0 <= Z.land x 1 <= 1.
Proof. pose proof (land_ones_range 1 x ltac:(lia)) as H. change (Z.ones 1) with 1 in H. lia. Qed.

Lemma land_15_range x : 0 <= Z.land x 15 <= 15.
Proof. pose proof (land_ones_range 4 x ltac:(lia)) as H. change (Z.ones 4) with 15 in H. lia. Qed.

Lemma nibble_count_range t : 0 <= nibble_count t <= 4.
Proof.
  unfold nibble_count. pose proof (land_1 (Z.shiftr t 4)). pose proof (land_1 (Z.shiftr t 5)).
  pose proof (land_1 (Z.shiftr t 6)). pose proof (land_1 (Z.shiftr t 7)). lia.
Qed.

(** A buffer for an answer. *)
Definition atr_ok (a : scd_atr) : Prop := Zlen (atr_data a) = 32 /\ 0 <= atr_length a <= 32.

Lemma rd_32 a i : Zlen a = 32 -> 0 <= i < 32 -> exists v, rd a i = Ret v.
Proof. intros Ha Hi. eexists. apply rd_ok. lia. Qed.

Lemma crc_total a : atr_ok a -> exists r, is_atr_crc_ok a = Ret r.
Proof.
  intros [Hd Hl]. unfold is_atr_crc_ok.
  assert (H : forall n i c, 0 <= i -> i + Z.of_nat n <= 32 -> exists r, forU n i (fun i crc => b ← rd (atr_data a) i; Ret (Z.lxor crc b)) c = Ret r).
  { induction n as [|n IH]; intros i c Hi Hn; cbn [forU]; [eauto|]. destruct (rd_32 (atr_data a) i Hd ltac:(lia)) as [v ->].
    rewrite !res_bind_Ret. apply IH; lia. }
  destruct (Z_lt_ge_dec 1 (atr_length a)); [|replace (Z.to_nat (atr_length a - 1)) with O by lia; cbn [forU]; rewrite res_bind_Ret; eauto].
  destruct (H (Z.to_nat (atr_length a - 1)) 1 0 ltac:(lia) ltac:(lia)) as [r ->]. rewrite res_bind_Ret. eauto.
Qed.

Lemma complete_total a : atr_ok a -> exists r, is_atr_complete a = Ret r /\ (r <> 0 -> 3 <= atr_length a).
Proof.
  intros Ha. pose proof Ha as [Hd Hl]. unfold is_atr_complete. destruct (Z.ltb_spec (atr_length a) 3); [by exists 0|].
  assert (Hfin : forall o, (exists r, o = Ret r) -> exists r, o = Ret r /\ (r <> 0 -> 3 <= atr_length a)) by (intros o [r ->]; eauto).
  apply Hfin. clear Hfin.
  destruct (rd_32 _ 0 Hd ltac:(lia)) as [TS ->]. rewrite res_bind_Ret. destruct (_ && _); [eauto|].
  destruct (rd_32 _ 1 Hd ltac:(lia)) as [T0 ->]. rewrite res_bind_Ret. pose proof (nibble_count_range T0).
  destruct (_ <? 2 + nibble_count T0); [eauto|].
  assert (H1 : exists TD1, (if negb (Z.land T0 128 =? 0) then rd (atr_data a) (1 + nibble_count T0) else Ret 0) = Ret TD1)
    by (destruct (negb _); [apply rd_32; [done|lia]|eauto]).
  destruct H1 as [TD1 ->]. rewrite res_bind_Ret. set (T2Len := if negb (Z.land T0 128 =? 0) then nibble_count TD1 else 0).
  assert (H2 : 0 <= T2Len <= 4) by (unfold T2Len; destruct (negb _); [apply nibble_count_range|lia]). clearbody T2Len.
  destruct (_ <? 2 + nibble_count T0 + T2Len); [eauto|].
  assert (H3 : exists TD2, (if negb (Z.land TD1 128 =? 0) then rd (atr_data a) (1 + nibble_count T0 + T2Len) else Ret 0) = Ret TD2)
    by (destruct (negb _); [apply rd_32; [done|lia]|eauto]).
  destruct H3 as [TD2 ->]. rewrite res_bind_Ret. destruct (_ || _); [eauto|]. destruct (_ <? _); [eauto|].
  destruct (crc_total a Ha) as [r ->]. rewrite res_bind_Ret. eauto.
Qed.

(** The structure for the parts of an answer. *)
Definition info_ok (i : scd_atr_info) : Prop := Zlen (ai_T1 i) = 4 /\ Zlen (ai_T2 i) = 4 /\ Zlen (ai_T3 i) = 4 /\ Zlen (ai_History i) = 16.

Lemma take_T_total ctl d T i : Zlen d = 32 -> Zlen T = 4 -> 0 <= i <= 20 -> exists T' i', take_T ctl d T i = Ret (T', i') /\ Zlen T' = 4 /\ i <= i' <= i + 4.
Proof.
  intros Hd HT Hi. unfold take_T.
  assert (Hstep : forall k T i, 0 <= k < 4 -> Zlen T = 4 -> 0 <= i < 32 -> exists T' i', take_byte ctl d k (T, i) = Ret (T', i') /\ Zlen T' = 4 /\ i <= i' <= i + 1).
  { intros k T1 i1 Hk H1 Hi1. unfold take_byte. destruct (_ =? 0); [exists T1, i1; split; [done|lia]|].
    destruct (rd_32 d i1 Hd Hi1) as [v ->]. rewrite res_bind_Ret, wr_ok by lia. rewrite res_bind_Ret. eexists _, _. split; [done|].
    rewrite Zlen_insert, u8_id by lia. lia. }
  destruct (Hstep 0 T i ltac:(lia) HT ltac:(lia)) as (T1 & i1 & E1 & HT1 & Hi1). destruct (Hstep 1 T1 i1 ltac:(lia) HT1 ltac:(lia)) as (T2 & i2 & E2 & HT2 & Hi2).
  destruct (Hstep 2 T2 i2 ltac:(lia) HT2 ltac:(lia)) as (T3 & i3 & E3 & HT3 & Hi3). destruct (Hstep 3 T3 i3 ltac:(lia) HT3 ltac:(lia)) as (T4 & i4 & E4 & HT4 & Hi4).
  exists T4, i4. cbn [forU]. rewrite E1, res_bind_Ret. change (0 + 1) with 1. rewrite E2, res_bind_Ret. change (1 + 1) with 2. rewrite E3, res_bind_Ret.
  change (2 + 1) with 3. rewrite E4, res_bind_Ret. split; [done|]. lia.
Qed.

Lemma store_total (m bs : list Z) : Zlen bs <= Zlen m -> exists m', store m 0 bs = Ret m' /\ Zlen m' = Zlen m.
Proof.
  intros H. pose proof (store_ok m 0 bs ltac:(lia) ltac:(lia)) as E. eexists. split; [exact E|]. apply store_length in E. unfold Zlen. by rewrite E.
Qed.

Lemma decompress_total a i : atr_ok a -> info_ok i -> exists r i', decompress_atr a i = Ret (r, i') /\ info_ok i' /\ (r = 0 \/ r = -1).
Proof.
  intros Ha (I1 & I2 & I3 & I4). pose proof Ha as [Hd Hl]. unfold decompress_atr. destruct (complete_total a Ha) as (c & -> & Hc). rewrite res_bind_Ret.
  destruct (Z.eqb_spec c 0); [exists (-1), i; split; [done|]; split; [by split|by right]|]. specialize (Hc n).
  destruct (rd_32 _ 0 Hd ltac:(lia)) as [TS ->]. destruct (rd_32 _ 1 Hd ltac:(lia)) as [T0 ->]. rewrite !res_bind_Ret.
  destruct (take_T_total T0 (atr_data a) (ai_T1 i) 2 Hd I1 ltac:(lia)) as (T1 & i1 & -> & L1 & J1). rewrite !res_bind_Ret, (rd_ok T1 3), res_bind_Ret by lia.
  destruct (take_T_total (T1.[3]) (atr_data a) (ai_T2 i) i1 Hd I2 ltac:(lia)) as (T2 & i2 & -> & L2 & J2). rewrite !res_bind_Ret, (rd_ok T2 3), res_bind_Ret by lia.
  destruct (take_T_total (T2.[3]) (atr_data a) (ai_T3 i) i2 Hd I3 ltac:(lia)) as (T3 & i3 & -> & L3 & J3). rewrite !res_bind_Ret.
  destruct (negb _); [eexists _, _; split; [done|]; split; [by split|by right]|]. pose proof (land_15_range T0).
  rewrite load_ok by lia. rewrite res_bind_Ret. set (h := firstn _ _).
  assert (Hh : Zlen h = Z.land T0 15) by (unfold h; rewrite Zlen_firstn; [done|rewrite Zlen_skipn; lia]).
  destruct (store_total (ai_History i) h ltac:(lia)) as (hist & -> & Hhist).
  rewrite res_bind_Ret, rd_ok, res_bind_Ret by lia. eexists _, _. split; [done|]. split; [|by left].
  split; [done|]. split; [done|]. split; [done|]. by rewrite <- I4.
Qed.

(** ** What the reader keeps *)

(** An active card has given an answer that was found complete and was taken
    apart. *)
Definition answered (d : mars_scd) : Prop :=
  exists c i, is_atr_complete (atr d) = Ret c /\ c <> 0 /\ decompress_atr (atr d) i = Ret (0, atr_info d).

Record SInv (d : mars_scd) : Prop := {
  v_atr : atr_ok (atr d);
  v_info : info_ok (atr_info d);
  v_div : clock_div d = 1;
  v_pre : 0 <= pre_clock_div d < 256;
  v_det : 0 <= detected d;
  v_active : fsm d = IFD_FSM_ACTIVE -> answered d
}.

(** Only the controller has been accessed. *)
Record quiet (s s' : scd_st) : Prop := {
  q_dev : dev s' = dev s;
  q_jif : jif s' = jif s;
  q_live : live s' = live s;
  q_out : out s `suffix_of` out s'
}.

(** The configuration is the same. *)
Record same_cfg (s s' : scd_st) : Prop := {
  g_id : ch_id (dev s') = ch_id (dev s);
  g_pre : pre_clock_div (dev s') = pre_clock_div (dev s);
  g_baud : baud_div1 (dev s') = baud_div1 (dev s) /\ baud_div2 (dev s') = baud_div2 (dev s);
  g_parity : parity (dev s') = parity (dev s);
  g_jif : jif s' = jif s;
  g_live : live s' = live s;
  g_out : out s `suffix_of` out s'
}.

#[export] Instance quiet_refl : Reflexive quiet.
Proof. intros s. by split. Qed.
#[export] Instance quiet_trans : Transitive quiet.
Proof. intros s1 s2 s3 [] []. split; try congruence. by transitivity (out s2). Qed.
#[export] Instance same_cfg_refl : Reflexive same_cfg.
Proof. intros s. by split. Qed.
#[export] Instance same_cfg_trans : Transitive same_cfg.
Proof. intros s1 s2 s3 [A1 A2 [A3 A3'] A4 A5 A6 A7] [B1 B2 [B3 B3'] B4 B5 B6 B7]. split; try congruence; [split; congruence|by transitivity (out s2)]. Qed.

Lemma quiet_cfg s s' : quiet s s' -> same_cfg s s'.
Proof. intros [E1 E2 E3 E4]. split; rewrite ?E1; done. Qed.

Lemma has_first v l : Z.land v v <> 0 -> has (bits (v :: l)) v = true.
Proof.
  intros H. unfold has. cbn [bits fold_right]. rewrite Z.land_lor_distr_l. apply negb_true_iff, Z.eqb_neq. intros E. apply Z.lor_eq_0_l in E. done.
Qed.

Section scd.
Context {env : ScdEnv}.
Variable HZ : Z.

Lemma wp_tick s (Q : nat -> scd_st -> Prop) : (forall s', quiet s s' -> now s' = S (now s) -> out s' = out s -> rx s' = rx s ++ arrive (now s) -> Q (now s) s') -> wp tick s Q.
Proof. intros H. eexists _, _. split; [reflexivity|]. by apply H. Qed.

Lemma wp_get_reg r s (Q : Z -> scd_st -> Prop) :
  (forall s', quiet s s' -> now s' = S (now s) -> out s' = out s -> rx s' = rx s ++ arrive (now s) -> Q (u32 (reg_at (now s) (SC_BASE (ch_id (dev s)) + r))) s') -> wp (GET r) s Q.
Proof. intros H. unfold GET, rtd_inl. apply wp_bind, wp_get, wp_bind, wp_tick. intros s' Hq Hn Ho Hr. by apply wp_ret, H. Qed.

Lemma wp_set_reg r v s (Q : unit -> scd_st -> Prop) :
  (forall s', quiet s s' -> now s' = S (now s) -> out s' = (SC_BASE (ch_id (dev s)) + r, u32 v) :: out s -> rx s' = rx s ++ arrive (now s) -> Q tt s') -> wp (SET r v) s Q.
Proof.
  intros H. unfold SET, rtd_outl. apply wp_bind, wp_get, wp_bind, wp_tick. intros s1 [Q1 Q2 Q3 Q4] Hn Ho Hr. apply wp_modify, H; [split; [done..|by apply suffix_cons_r]|done|cbn; by rewrite Ho|done].
Qed.

Lemma wp_set_sccr v s (Q : unit -> scd_st -> Prop) :
  (forall s', quiet s s' -> now s' = S (now s) -> out s' = (SC_BASE (ch_id (dev s)) + SCCR, u32 v) :: out s ->
     rx s' = (if has v (SC_FIFO_RST 1) then [] else rx s ++ arrive (now s)) -> Q tt s') -> wp (SET_SCCR v) s Q.
Proof.
  intros H. unfold SET_SCCR. apply wp_bind, wp_set_reg. intros s1 Hq Hn Ho Hr. destruct (has v _).
  - apply wp_modify, H; [destruct Hq; by split|done..].
  - apply wp_ret, H; done.
Qed.

Lemma wp_rxlen s (Q : Z -> scd_st -> Prop) :
  (forall s', quiet s s' -> now s' = S (now s) -> rx s' = rx s ++ arrive (now s) -> Q (Zlen (rx s')) s') -> wp GET_SC_RXLENR s Q.
Proof. intros H. unfold GET_SC_RXLENR. apply wp_bind, wp_tick. intros s' Hq Hn _ Hr. apply wp_bind, wp_get, wp_ret. auto. Qed.

Lemma wp_rxfifo s (Q : Z -> scd_st -> Prop) :
  (forall b s', quiet s s' -> now s' = S (now s) -> (forall c l, rx s = c :: l -> b = c /\ rx s' = l ++ arrive (now s)) -> Q b s') -> wp GET_SC_RXFIFO s Q.
Proof.
  intros H. unfold GET_SC_RXFIFO. apply wp_bind, wp_tick. intros s1 Hq Hn _ Hr. apply wp_bind, wp_get. destruct (rx s1) as [|b l] eqn:E.
  - apply wp_ret, H; [done|done|]. intros c l Hc. rewrite Hc in Hr. done.
  - apply wp_bind, wp_modify, wp_ret, H; [destruct Hq; by split|done|]. intros c l' Hc. rewrite Hc in Hr. cbn in Hr. injection Hr as -> ->. done.
Qed.

Lemma wp_jiffies s (Q : Z -> scd_st -> Prop) : Q (u32 (jif s)) s -> wp jiffies s Q.
Proof. intros H. unfold jiffies. by apply wp_bind, wp_get, wp_ret. Qed.

Lemma wp_set_dev f s (Q : unit -> scd_st -> Prop) : Q tt (mkS (f (dev s)) (rx s) (out s) (now s) (jif s) (live s)) -> wp (set_dev f) s Q.
Proof. intros H. by apply wp_modify. Qed.

Lemma card_detect_spec s (Q : Z -> scd_st -> Prop) : (forall r s', quiet s s' -> (r = 0 \/ r = 1) -> Q r s') -> wp mars_scd_card_detect s Q.
Proof. intros H. unfold mars_scd_card_detect. apply wp_bind, wp_get_reg. intros s1 Hq _ _ _. apply wp_ret, H; [done|]. destruct (has _ _); auto. Qed.

(** An action with a device that satisfies the invariant before and after. *)
Definition keeps (s s' : scd_st) : Prop := SInv (dev s') /\ same_cfg s s'.

Lemma keeps_quiet s s' : SInv (dev s) -> quiet s s' -> keeps s s'.
Proof. intros Hi Hq. split; [by rewrite (q_dev _ _ Hq)|by apply quiet_cfg]. Qed.

Lemma keeps_trans s1 s2 s3 : keeps s1 s2 -> keeps s2 s3 -> keeps s1 s3.
Proof. intros [_ C1] [I2 C2]. split; [done|by transitivity s2]. Qed.

(** ** The state machine *)

Lemma clear_inv d : SInv d -> fsm d <> IFD_FSM_ACTIVE -> SInv (with_atr (mkAtr (atr_data (atr d)) 0) d).
Proof. intros [[A1 A2] A3 A4 A5 A6 A7] Hf. by split. Qed.

(** Between the two, the state is not yet the new one. *)
Lemma fsm_inv d x : SInv (with_fsm IFD_FSM_UNKNOWN d) -> (x = IFD_FSM_ACTIVE -> answered d) -> SInv (with_fsm x d).
Proof. intros [A1 A2 A3 A4 A5 A6] Hx. by split. Qed.

Lemma unknown_inv d : SInv d -> SInv (with_fsm IFD_FSM_UNKNOWN d).
Proof. intros []. by split. Qed.

Lemma set_state_simple_spec x s : SInv (with_fsm IFD_FSM_UNKNOWN (dev s)) -> (x = fsm (dev s) -> SInv (dev s)) -> (x = IFD_FSM_ACTIVE -> answered (dev s)) ->
  wp (set_state_simple x) s (fun r s' => r = 0 /\ keeps s s' /\ fsm (dev s') = x).
Proof.
  intros Hu He Ha. unfold set_state_simple. apply wp_bind, wp_get. destruct (decide _) as [E|E].
  { apply wp_ret. split; [done|]. split; [split; [by apply He|done]|]. done. }
  assert (Hsame : keeps s (mkS (with_fsm x (dev s)) (rx s) (out s) (now s) (jif s) (live s))) by (split; [by apply fsm_inv|by split]).
  assert (Hclr : forall cr er, x <> IFD_FSM_ACTIVE ->
    wp (_ ← SET_SCCR cr; _ ← SET SCIRER er; _ ← SET SCIRSR 0xFFFFFFFF; clear_atr) s (fun _ s' => wp (_ ← set_dev (with_fsm x); mret 0) s'
      (fun r s' => r = 0 /\ keeps s s' /\ fsm (dev s') = x))).
  { intros cr er Hx. apply wp_bind, wp_set_sccr. intros s1 H1 _ _ _. apply wp_bind, wp_set_reg. intros s2 H2 _ _ _. apply wp_bind, wp_set_reg. intros s3 H3 _ _ _.
    destruct (quiet_trans _ _ _ H1 (quiet_trans _ _ _ H2 H3)) as [Q1 Q2 Q3 Q4]. unfold clear_atr. apply wp_set_dev, wp_bind, wp_set_dev, wp_ret.
    split; [done|]. split; [|done]. split; cbn [dev].
    - apply fsm_inv; [|done]. rewrite Q1. exact (clear_inv _ Hu ltac:(done)).
    - split; cbn [dev jif live]; rewrite ?Q1; done. }
  destruct x; (apply wp_bind; [by apply Hclr]) || (apply wp_bind, wp_ret, wp_bind, wp_set_dev, wp_ret; done).
Qed.

(** The reader after a reset has been started. *)
Record resetting (s s' : scd_st) : Prop := {
  r_atr : atr (dev s') = mkAtr (atr_data (atr (dev s))) 0;
  r_info : atr_info (dev s') = atr_info (dev s);
  r_timeout : atr_timeout (dev s') = u32 (u32 (jif s) + HZ);
  r_rx : rx s' = [];
  r_now : now s' = (now s + 3)%nat
}.

Lemma set_state_spec x s : SInv (dev s) -> (x = IFD_FSM_ACTIVE -> answered (dev s)) ->
  wp (mars_scd_set_state HZ x) s (fun r s' => keeps s s' /\
    (r = 0 /\ fsm (dev s') = x /\ (x = IFD_FSM_RESET -> fsm (dev s) <> x -> resetting s s') \/ r = -1 /\ x = IFD_FSM_RESET /\ fsm (dev s') = IFD_FSM_IDEL /\ has (u32 (reg_at (now s) (SC_BASE (ch_id (dev s)) + SCIRSR))) SC_PRES = false)).
Proof.
  intros Hi Ha. pose proof (unknown_inv _ Hi) as Hu. destruct (decide (x = IFD_FSM_RESET)) as [->|Hx].
  2: { assert (E : mars_scd_set_state HZ x = set_state_simple x) by (by destruct x). rewrite E.
       apply (wp_mono _ _ _ _ (set_state_simple_spec x s Hu ltac:(done) Ha)). intros r s' (-> & H1 & H2). split; [done|]. left. by split. }
  cbn [mars_scd_set_state]. apply wp_bind, wp_get. destruct (decide _) as [E|E]; [apply wp_ret; split; [by apply keeps_quiet|by left]|].
  unfold clear_atr. apply wp_bind, wp_set_dev. set (s0 := mkS _ _ _ _ _ _).
  assert (Hu0 : SInv (with_fsm IFD_FSM_UNKNOWN (dev s0))) by exact (clear_inv _ Hu ltac:(done)).
  assert (C0 : same_cfg s s0) by (by split).
  unfold mars_scd_card_detect. apply wp_bind, wp_bind, wp_get_reg. intros s1 Q1 N1 _ _. apply wp_ret. cbn [now s0 dev with_atr ch_id] in *.
  destruct (has _ SC_PRES) eqn:Hp; cbn [Z.eqb]; cycle 1.
  - assert (Hs : IFD_FSM_IDEL = fsm (dev s1) -> SInv (dev s1)).
    { rewrite (q_dev _ _ Q1). intros Hf. apply clear_inv; [done|]. cbn in Hf. by rewrite <- Hf. }
    apply wp_bind. apply (wp_mono _ _ _ _ (set_state_simple_spec IFD_FSM_IDEL s1 ltac:(by rewrite (q_dev _ _ Q1)) Hs ltac:(done))).
    intros r s2 (-> & [I2 C2] & F2). apply wp_ret. split; [split; [done|]|by right]. transitivity s0; [done|]. transitivity s1; [by apply quiet_cfg|done].
  - apply wp_bind, wp_set_reg. intros s2 Q2 N2 _ _. apply wp_bind, wp_set_sccr. intros s3 Q3 N3 _ R3.
    destruct (quiet_trans _ _ _ Q1 (quiet_trans _ _ _ Q2 Q3)) as [D1 D2 D3 D4].
    apply wp_bind, wp_jiffies, wp_bind, wp_set_dev, wp_bind, wp_set_dev, wp_ret. split; [split; cbn [dev]|left; split; [done|split; [done|]]].
    + rewrite D1. destruct Hu0. by split.
    + split; cbn [dev jif live]; rewrite ?D1; done.
    + intros _ _. split; cbn [dev rx now with_fsm with_timeout atr atr_info atr_timeout]; rewrite ?D1, ?D2; try done; [|lia]. rewrite R3.
      assert (Hb : has (bits [SC_FIFO_RST 1; SC_RST 1; SC_SCEN 1; SC_AUTO_ATR 1; SC_CONV 0; SC_PS (parity (dev s))]) (SC_FIFO_RST 1) = true); [|by rewrite Hb].
      apply has_first. done.
Qed.

(** ** Collecting an answer *)

(** The bytes that arrive at [k] accesses from the [t]-th on. *)
Definition arrivals (t k : nat) : list Z := concat (arrive <$> seq t k).

Lemma arrivals_S t k : arrivals t (S k) = arrive t ++ arrivals (S t) k.
Proof. done. Qed.

Definition atr_push (a : scd_atr) (b : Z) : scd_atr := mkAtr (<[Z.to_nat (atr_length a) := u8 b]> (atr_data a)) (atr_length a + 1).

(** The loop takes bytes from the queue until it is empty. *)
Lemma rx_atr_spec fuel : forall s, SInv (dev s) -> fsm (dev s) = IFD_FSM_RESET -> (Z.to_nat (33 - atr_length (atr (dev s))) < fuel)%nat ->
  wp (rx_atr fuel) s (fun ok s' => keeps s s' /\ fsm (dev s') = IFD_FSM_RESET /\ atr_info (dev s') = atr_info (dev s) /\
    exists k taken, now s' = (now s + k)%nat /\ taken ++ rx s' = rx s ++ arrivals (now s) k /\
      atr (dev s') = foldl atr_push (atr (dev s)) taken /\ (if ok then rx s' = [] else atr_length (atr (dev s')) = 32)).
Proof.
  induction fuel as [|fuel IH]; intros s Hi Hf Hl; [lia|]. cbn [rx_atr].
  apply wp_bind, wp_rxlen. intros s1 Q1 N1 R1. destruct (Z.eqb_spec (Zlen (rx s1)) 0) as [Hz|Hz].
  { apply wp_ret. split; [by apply keeps_quiet|]. rewrite (q_dev _ _ Q1). split; [done|]. split; [done|]. exists 1%nat, []. rewrite N1. split; [lia|].
    rewrite arrivals_S. cbn [app]. change (arrivals (S (now s)) 0) with (@nil Z). rewrite app_nil_r. split; [done|]. split; [done|]. destruct (rx s1); [done|]. unfold Zlen in Hz. cbn in Hz. lia. }
  apply wp_bind, wp_get. rewrite (q_dev _ _ Q1). pose proof (v_atr _ Hi) as [Hd Hn]. destruct (Z.geb_spec (atr_length (atr (dev s))) MAX_ATR_SIZE) as [Hge|Hlt].
  { apply wp_ret. split; [by apply keeps_quiet|]. rewrite (q_dev _ _ Q1). split; [done|]. split; [done|]. exists 1%nat, []. rewrite N1. split; [lia|].
    rewrite arrivals_S. cbn [app]. change (arrivals (S (now s)) 0) with (@nil Z). rewrite app_nil_r. split; [done|]. split; [done|]. unfold MAX_ATR_SIZE in *. lia. }
  unfold MAX_ATR_SIZE in Hlt. destruct (rx s1) as [|c l] eqn:E1; [done|].
  apply wp_bind, wp_rxfifo. intros b s2 Q2 N2 Hb. destruct (Hb c l E1) as [-> R2]. clear Hb.
  apply wp_bind, (wp_lift _ _ (<[Z.to_nat (atr_length (atr (dev s))) := u8 c]> (atr_data (atr (dev s))))); [apply wr_ok; lia|].
  rewrite (u8_id (_ + 1)) by lia. apply wp_bind, wp_set_dev. fold (atr_push (atr (dev s)) c). set (s3 := mkS _ _ _ _ _ _).
  destruct (quiet_trans _ _ _ Q1 Q2) as [D1 D2 D3 D4].
  assert (Hk3 : keeps s s3).
  { split; [|split; unfold s3; cbn [dev jif live]; rewrite ?D1; done]. unfold s3. cbn [dev]. rewrite D1. destruct Hi. split; try done.
    - split; cbn [atr with_atr atr_push atr_data atr_length]; [by rewrite Zlen_insert|lia].
    - cbn [fsm with_atr]. rewrite Hf. done. }
  assert (Hf3 : fsm (dev s3) = IFD_FSM_RESET) by (unfold s3; cbn [dev fsm with_atr]; by rewrite D1).
  apply (wp_mono _ _ _ _ (IH s3 ltac:(apply Hk3) Hf3 ltac:(unfold s3; cbn [dev with_atr atr atr_push atr_length]; lia))).
  intros ok s4 (K4 & F4 & I4 & k & taken & N4 & T4 & A4 & O4). split; [by apply (keeps_trans _ s3)|]. split; [done|].
  split; [rewrite I4; unfold s3; cbn [dev atr_info with_atr]; by rewrite D1|]. exists (S (S k)), (c :: taken).
  unfold s3 in N4, T4, A4. cbn [now rx dev atr with_atr] in N4, T4, A4. rewrite N4, N2, N1. split; [lia|]. split; [|split; [exact A4|exact O4]].
  rewrite !arrivals_S, app_assoc, <- R1. cbn [app]. rewrite T4, R2, N2, N1, <- app_assoc. done.
Qed.

Lemma atr_check_spec s : SInv (dev s) -> fsm (dev s) = IFD_FSM_RESET ->
  wp (atr_check HZ) s (fun ok s' => keeps s s' /\ atr (dev s') = atr (dev s) /\ exists c, is_atr_complete (atr (dev s)) = Ret c /\
    if c =? 0 then ok = true /\ fsm (dev s') = IFD_FSM_RESET /\ atr_info (dev s') = atr_info (dev s)
    else exists r, decompress_atr (atr (dev s)) (atr_info (dev s)) = Ret (r, atr_info (dev s')) /\
           ok = negb (r <? 0) /\ fsm (dev s') = if r <? 0 then IFD_FSM_RESET else IFD_FSM_ACTIVE).
Proof.
  intros Hi Hf. unfold atr_check. apply wp_bind, wp_get. destruct (complete_total _ (v_atr _ Hi)) as (c & Ec & _).
  apply wp_bind, (wp_lift _ _ _ _ Ec). destruct (Z.eqb_spec c 0) as [->|Hc].
  { apply wp_ret. split; [by apply keeps_quiet|]. split; [done|]. exists 0. done. }
  destruct (decompress_total _ _ (v_atr _ Hi) (v_info _ Hi)) as (r & i & Ed & Hok & Hr). apply wp_bind, (wp_lift _ _ _ _ Ed), wp_bind, wp_set_dev.
  set (s1 := mkS _ _ _ _ _ _).
  assert (K1 : keeps s s1) by (split; [unfold s1; cbn [dev]; destruct Hi; split; try done; cbn; by rewrite Hf|by split]).
  destruct (Z.ltb_spec r 0) as [Hr0|Hr0].
  { apply wp_ret. split; [done|]. split; [done|]. exists c. split; [done|]. destruct (Z.eqb_spec c 0); [done|]. exists r. destruct (Z.ltb_spec r 0); [done|lia]. }
  assert (r = 0) as -> by lia. assert (Ha : answered (dev s1)) by (exists c, (atr_info (dev s)); done).
  apply wp_bind. cbn [mars_scd_set_state]. unfold set_state_simple. apply wp_bind, wp_get.
  destruct (decide (fsm (dev s1) = IFD_FSM_ACTIVE)) as [E|_]; [unfold s1 in E; cbn in E; congruence|].
  apply wp_bind, wp_ret, wp_bind, wp_set_dev, wp_ret, wp_ret. split; [|split; [done|]].
  - split; cbn [dev]; [apply fsm_inv; [apply unknown_inv, K1|done]|by split].
  - exists c. split; [done|]. destruct (Z.eqb_spec c 0); [done|]. exists 0. done.
Qed.

Lemma rx_drop_spec n : forall s, wp (rx_drop n) s (fun _ s' => quiet s s').
Proof.
  induction n as [|n IH]; intros s; cbn [rx_drop]; [by apply wp_ret|]. apply wp_bind, wp_rxfifo. intros b s1 Q1 _ _.
  apply (wp_mono _ _ _ _ (IH s1)). intros _ s2 Q2. by transitivity s1.
Qed.

(** The end of [mars_scd_fsm_reset]. *)
Lemma reset_end_spec ok e s : SInv (dev s) ->
  wp (_ ← (if (ok : bool) then mret 0 else mars_scd_set_state HZ IFD_FSM_IDEL); SET SCIRSR e) s (fun _ s' => keeps s s' /\
    if ok then dev s' = dev s else fsm (dev s') = IFD_FSM_IDEL).
Proof.
  intros Hi. destruct ok.
  - apply wp_bind, wp_ret, wp_set_reg. intros s' Q _ _ _. split; [by apply keeps_quiet|by apply Q].
  - apply wp_bind, (wp_mono _ _ _ _ (set_state_spec IFD_FSM_IDEL s Hi ltac:(done))). intros r s1 [K1 [(_ & F1 & _)|(_ & [=] & _)]].
    apply wp_set_reg. intros s' Q _ _ _. split; [apply (keeps_trans _ s1); [done|apply keeps_quiet; [apply K1|done]]|]. by rewrite (q_dev _ _ Q).
Qed.

Lemma fsm_reset_spec s : SInv (dev s) -> fsm (dev s) = IFD_FSM_RESET -> wp (mars_scd_fsm_reset HZ) s (fun _ s' => keeps s s').
Proof.
  intros Hi Hf. unfold mars_scd_fsm_reset. apply wp_bind, wp_get_reg. intros s1 Q1 _ _ _. apply wp_bind, wp_get, wp_bind, wp_jiffies.
  set (e := u32 _). pose proof (keeps_quiet _ _ Hi Q1) as K1. pose proof (q_dev _ _ Q1) as E1.
  match goal with |- wp (?m ≫= _) _ _ => assert (Hm : wp m s1 (fun _ s2 => keeps s1 s2)) end.
  - destruct (_ || _ || _); [by apply wp_ret, keeps_quiet, quiet_refl; rewrite E1|]. destruct (has e SC_RCV_INT); [|by apply wp_ret, keeps_quiet, quiet_refl; rewrite E1].
    destruct (_ && _).
    + apply wp_bind, wp_rxlen. intros s2 Q2 _ _. apply wp_bind, (wp_mono _ _ _ _ (rx_drop_spec _ s2)). intros _ s3 Q3. apply wp_ret.
      apply keeps_quiet; [by rewrite E1|by transitivity s2].
    + apply wp_bind. assert (Hfu : (Z.to_nat (33 - atr_length (atr (dev s1))) < atr_fuel)%nat) by (rewrite E1; pose proof (v_atr _ Hi) as [_ ?]; unfold atr_fuel; lia).
      apply (wp_mono _ _ _ _ (rx_atr_spec atr_fuel s1 ltac:(apply K1) ltac:(by rewrite E1) Hfu)). intros [] s2 (K2 & F2 & _); [|by apply wp_ret].
      apply (wp_mono _ _ _ _ (atr_check_spec s2 ltac:(apply K2) F2)). intros ok s3 (K3 & _). by apply (keeps_trans _ s2).
  - apply wp_bind, (wp_mono _ _ _ _ Hm). intros ok s2 K2. apply (wp_mono _ _ _ _ (reset_end_spec ok e s2 ltac:(apply K2))). intros _ s3 [K3 _].
    apply (keeps_trans _ s1); [done|]. by apply (keeps_trans _ s2).
Qed.

Lemma fsm_active_spec s : SInv (dev s) -> wp (mars_scd_fsm_active HZ) s (fun _ s' => keeps s s').
Proof.
  intros Hi. unfold mars_scd_fsm_active. apply wp_bind, wp_get_reg. intros s1 Q1 _ _ _. apply wp_bind, card_detect_spec. intros r s2 Q2 _.
  pose proof (keeps_quiet _ _ Hi (quiet_trans _ _ _ Q1 Q2)) as K2. replace (r =? 0) with (negb (negb (r =? 0))) by apply negb_involutive. destruct (negb (r =? 0)); cbn [negb].
  - apply (wp_mono _ _ _ _ (reset_end_spec true _ s2 ltac:(apply K2))). intros _ s3 [K3 _]. by apply (keeps_trans _ s2).
  - apply (wp_mono _ _ _ _ (reset_end_spec false _ s2 ltac:(apply K2))). intros _ s3 [K3 _]. by apply (keeps_trans _ s2).
Qed.

Lemma work_spec s : SInv (dev s) -> wp (mars_scd_work HZ) s (fun _ s' => keeps s s').
Proof.
  intros Hi. unfold mars_scd_work. apply wp_bind, wp_get_reg. intros s1 Q1 _ _ _. set (e := u32 _). pose proof (keeps_quiet _ _ Hi Q1) as K1.
  match goal with |- wp (?m ≫= _) _ _ => assert (Hm : wp m s1 (fun _ s2 => keeps s1 s2)) end.
  { destruct (has e _); [|by apply wp_ret, keeps_quiet, quiet_refl; apply K1]. apply wp_bind, card_detect_spec. intros r s2 Q2 _. apply wp_set_dev.
    destruct Q2 as [D1 D2 D3 D4]. split; [|split; cbn [dev jif live]; rewrite ?D1; done]. cbn [dev]. rewrite D1. destruct (proj1 K1). split; try done.
    cbn. apply u32_range. }
  apply wp_bind, (wp_mono _ _ _ _ Hm). intros _ s2 K2. apply wp_bind, wp_get.
  match goal with |- wp (?m ≫= _) _ _ => assert (Hw : wp m s2 (fun _ s3 => keeps s2 s3)) end.
  { destruct (fsm (dev s2)) eqn:Ef; try (by apply wp_ret, keeps_quiet, quiet_refl; apply K2).
    - apply fsm_reset_spec; [apply K2|done].
    - apply fsm_active_spec, K2. }
  apply wp_bind, (wp_mono _ _ _ _ Hw). intros _ s3 K3. apply wp_set_reg. intros s4 Q4 _ _ _.
  apply (keeps_trans _ s1); [done|]. apply (keeps_trans _ s2); [done|]. apply (keeps_trans _ s3); [done|]. apply keeps_quiet; [apply K3|done].
Qed.

Lemma timer_spec s : SInv (dev s) -> wp (mars_scd_timer HZ) s (fun _ s' => keeps s s').
Proof.
  intros Hi. unfold mars_scd_timer, rtd_inl, rtd_outl. apply wp_bind, wp_bind, wp_tick. intros s1 Q1 _ _ _. apply wp_ret, wp_bind, wp_get. cbn zeta. set (e := Z.land _ _).
  pose proof (keeps_quiet _ _ Hi Q1) as K1.
  assert (Hw : wp (if negb (e =? 0) then mars_scd_work HZ else mret tt) s1 (fun _ s2 => keeps s1 s2)).
  { destruct (negb _); [apply work_spec, K1|apply wp_ret, keeps_quiet, quiet_refl; apply K1]. }
  apply wp_bind, (wp_mono _ _ _ _ Hw). intros _ s2 K2. apply wp_bind, wp_bind, wp_tick. intros s3 Q3 _ _ _. apply wp_modify, wp_bind, wp_jiffies, wp_set_dev.
  apply (keeps_trans _ s1); [done|]. apply (keeps_trans _ s2); [done|]. destruct Q3 as [D1 D2 D3 D4]. split; [|split; cbn [dev jif live out]; rewrite ?D1; [done..|by apply suffix_cons_r]].
  cbn [dev]. rewrite D1. destruct (proj1 K2). by split.
Qed.
End scd.
