(* ===== verification/ScdOps.v ===== *)
(** * The smart card reader: the operations *)
From stdpp Require Import base tactics list numbers option.
From Stdlib Require Import ZArith Lia.
From S2P Require Import Prelude Driver Buff RpcProofs ScBuff ScdAtr Scd ScdProofs.

#[local] Ltac Zify.zify_post_hook ::= Z.div_mod_to_equations.

(** [time_after] compares times that are less than [2^31] apart. *)
Lemma time_after_exact a b : -2147483648 <= b - a < 2147483648 -> time_after (u32 a) (u32 b) = (b <? a).
Proof.
  intros H. unfold time_after, s32, u32, W32. destruct (Z.ltb_spec b a), (Z.ltb_spec ((b mod 4294967296 - a mod 4294967296) mod 4294967296) 2147483648); apply Z.ltb_lt || apply Z.ltb_ge; lia.
Qed.

Lemma u8_bytes l : Forall is_byte l -> u8 <$> l = l.
Proof. induction 1 as [|x l Hx _ IH]; [done|]. cbn [fmap list_fmap]. f_equal; [by apply u8_id|exact IH]. Qed.

(** The settings of a reader. *)
Definition cfg (d : mars_scd) : Z * Z * Z * Z * Z := (ch_id d, pre_clock_div d, baud_div1 d, baud_div2 d, parity d).

(** Time has passed, at least [lo] and at most [hi]. *)
Record rested (lo hi : Z) (s s' : scd_st) : Prop := {
  e_inv : SInv (dev s');
  e_cfg : cfg (dev s') = cfg (dev s);
  e_live : live s' = live s;
  e_out : out s `suffix_of` out s';
  e_jif : jif s + lo <= jif s' <= jif s + hi
}.

Lemma keeps_rested s s' : keeps s s' -> rested 0 0 s s'.
Proof. intros [Hi [C1 C2 [C3 C3'] C4 C5 C6 C7]]. split; [done| |done|done|lia]. unfold cfg. congruence. Qed.

Lemma rested_trans l1 h1 l2 h2 s1 s2 s3 : rested l1 h1 s1 s2 -> rested l2 h2 s2 s3 -> rested (l1 + l2) (h1 + h2) s1 s3.
Proof. intros [] []. split; [done|congruence|congruence|by transitivity (out s2)|lia]. Qed.

Section ops.
Context {env : ScdEnv}.
Variable HZ : Z.
Hypothesis HHZ : 10 <= HZ <= 1000000.

Definition total (l : list Z) : Z := foldr (fun d a => Z.max 0 d + a) 0 l.

Lemma total_nonneg l : 0 <= total l.
Proof. induction l as [|d l IH]; [done|]. change (total (d :: l)) with (Z.max 0 d + total l). lia. Qed.

Lemma naps_loop_spec l : forall s, SInv (dev s) -> wp (naps_loop HZ l) s (fun _ s' => rested (total l) (total l) s s').
Proof.
  induction l as [|d l IH]; intros s Hi; cbn [naps_loop total foldr]; [by apply wp_ret, keeps_rested, keeps_quiet|].
  apply wp_bind, wp_modify. set (s1 := mkS _ _ _ _ _ _). assert (R1 : rested (Z.max 0 d) (Z.max 0 d) s s1) by (split; [done..|cbn; lia]).
  apply wp_bind, (wp_mono _ _ _ _ (timer_spec HZ s1 Hi)). intros _ s2 K2%keeps_rested.
  apply (wp_mono _ _ _ _ (IH s2 (e_inv _ _ _ _ K2))). intros _ s3 R3. pose proof (rested_trans _ _ _ _ _ _ _ R1 (rested_trans _ _ _ _ _ _ _ K2 R3)) as R. by rewrite Z.add_0_l in R.
Qed.

(** No sleep is interrupted for longer than [2^30] ticks of the clock. *)
Definition brisk : Prop := forall t, total (naps t) <= 2 ^ 30.
Hypothesis Hbrisk : brisk.

Lemma msleep_spec ms s : SInv (dev s) -> 0 <= ms -> wp (msleep HZ ms) s (fun _ s' => rested (ms * HZ / 1000) (2 ^ 30 + ms * HZ / 1000) s s').
Proof.
  intros Hi Hms. unfold msleep. apply wp_bind, wp_get, wp_bind, (wp_mono _ _ _ _ (naps_loop_spec _ s Hi)). intros _ s1 [I1 C1 L1 O1 J1].
  apply wp_bind, wp_tick. intros s2 [Q1 Q2 Q3 Q4] _ _ _. apply wp_modify. pose proof (Hbrisk (now s)). pose proof (total_nonneg (naps (now s))).
  split; cbn [dev jif live out]; [congruence|congruence|congruence|by transitivity (out s1)|lia].
Qed.

Lemma reset_wait_spec T fuel : forall s, SInv (dev s) -> -2147483648 <= T - jif s < 2147483648 -> Z.max 0 (T - jif s + 1) < Z.of_nat fuel ->
  wp (reset_wait HZ fuel (u32 T)) s (fun _ s' => SInv (dev s') /\ cfg (dev s') = cfg (dev s) /\ live s' = live s).
Proof.
  induction fuel as [|fuel IH]; intros s Hi HT Hfu; [lia|]. cbn [reset_wait]. apply wp_bind, wp_jiffies, wp_bind, wp_get. rewrite time_after_exact by done.
  destruct (Z.ltb_spec T (jif s)) as [Hlt|Hge]; cbn [negb andb]; [by apply wp_ret|]. destruct (bool_decide _); [|by apply wp_ret].
  apply wp_bind, (wp_mono _ _ _ _ (msleep_spec 100 s Hi ltac:(lia))). intros _ s1 [I1 C1 L1 _ J1].
  assert (H10 : 1 <= 100 * HZ / 1000 <= 100000) by lia. change (2 ^ 30) with 1073741824 in J1.
  apply (wp_mono _ _ _ _ (IH s1 I1 ltac:(lia) ltac:(lia))). intros _ s2 (I2 & C2 & L2). split; [done|]. split; congruence.
Qed.

(** A reset ends with an active card, or with an idle reader. *)
Lemma reset_spec s : SInv (dev s) -> wp (mars_scd_reset HZ) s (fun r s' => SInv (dev s') /\ cfg (dev s') = cfg (dev s) /\ live s' = live s /\
  (r = 0 /\ fsm (dev s') = IFD_FSM_ACTIVE \/ r = -1 /\ fsm (dev s') = IFD_FSM_IDEL)).
Proof.
  intros Hi. unfold mars_scd_reset. apply wp_bind, (wp_mono _ _ _ _ (set_state_spec HZ IFD_FSM_RESET s Hi ltac:(done))).
  intros r s1 [K1%keeps_rested [(-> & _)|(-> & _ & F1 & _)]]; pose proof K1 as [I1 C1 L1 _ _]; cbn [Z.eqb negb].
  - apply wp_bind, wp_jiffies. rewrite (Z.shiftl_mul_pow2 HZ 2) by lia. change (2 ^ 2) with 4. replace (u32 (u32 (jif s1) + HZ * 4)) with (u32 (jif s1 + HZ * 4)) by (unfold u32, W32; lia).
    apply wp_bind, (wp_mono _ _ _ _ (reset_wait_spec (jif s1 + HZ * 4) (reset_fuel HZ) s1 I1 ltac:(lia) ltac:(unfold reset_fuel; lia))). intros _ s2 (I2 & C2 & L2).
    apply wp_bind, wp_get. destruct (decide _) as [Ef|Ef]; [apply wp_ret; split; [done|]; split; [congruence|]; split; [congruence|by left]|].
    apply wp_bind, (wp_mono _ _ _ _ (set_state_spec HZ IFD_FSM_IDEL s2 I2 ltac:(done))). intros r s3 [K3%keeps_rested [(_ & F3 & _)|(_ & [=] & _)]].
    destruct K3 as [I3 C3 L3 _ _]. apply wp_ret. split; [done|]. split; [congruence|]. split; [congruence|by right].
  - apply wp_ret. split; [done|]. split; [done|]. split; [done|by right].
Qed.

Lemma scd_enable_spec n s : SInv (dev s) -> wp (mars_scd_enable HZ n) s (fun r s' => r = 0 /\ keeps s s').
Proof.
  intros Hi. unfold mars_scd_enable. apply wp_bind, wp_get. destruct (negb _).
  - destruct (decide _); [|by apply wp_ret; split; [|apply keeps_quiet]].
    apply (wp_mono _ _ _ _ (set_state_spec HZ IFD_FSM_IDEL s Hi ltac:(done))). by intros r s' [K [(-> & _)|(_ & [=] & _)]].
  - apply (wp_mono _ _ _ _ (set_state_spec HZ IFD_FSM_DISABLE s Hi ltac:(done))). by intros r s' [K [(-> & _)|(_ & [=] & _)]].
Qed.

Lemma activate_spec s : SInv (dev s) -> wp (mars_scd_activate HZ) s (fun r s' => SInv (dev s') /\ cfg (dev s') = cfg (dev s) /\ live s' = live s /\
  (r = 0 -> fsm (dev s') = IFD_FSM_ACTIVE \/ fsm (dev s') = IFD_FSM_RESET)).
Proof.
  intros Hi. unfold mars_scd_activate. apply wp_bind, wp_get. destruct (fsm (dev s)) eqn:Ef; try (apply wp_ret; by auto).
  apply wp_bind, (wp_mono _ _ _ _ (reset_spec s Hi)). intros r s' (I' & C' & L' & H'). apply wp_ret. split; [done|]. split; [done|]. split; [done|].
  destruct H' as [(-> & F)|(-> & F)]; [by left|done].
Qed.

Lemma deactivate_spec s : SInv (dev s) -> wp (mars_scd_deactivate HZ) s (fun r s' => r = 0 /\ keeps s s' /\
  fsm (dev s') = if decide (fsm (dev s) = IFD_FSM_DISABLE) then IFD_FSM_DISABLE else IFD_FSM_IDEL).
Proof.
  intros Hi. unfold mars_scd_deactivate. apply wp_bind, wp_get. destruct (decide _) as [E|E]; [apply wp_ret; split; [done|]; split; [by apply keeps_quiet|done]|].
  apply wp_bind, (wp_mono _ _ _ _ (set_state_spec HZ IFD_FSM_DISABLE s Hi ltac:(done))). intros r1 s1 [K1 _].
  apply wp_bind, (wp_mono _ _ _ _ (set_state_spec HZ IFD_FSM_IDEL s1 ltac:(apply K1) ltac:(done))). intros r2 s2 [K2 [(_ & F2 & _)|(_ & [=] & _)]].
  apply wp_ret. split; [done|]. split; [by apply (keeps_trans _ s1)|done].
Qed.
End ops.

(** ** Settings *)

Section settings.
Context {env : ScdEnv}.

Lemma set_clock_spec clk s : clock_div (dev s) = 1 -> 0 < clk ->
  wp (mars_scd_set_clock clk) s (fun r s' => r = 0 /\ dev s' = with_pre (u8 (SYSTEM_CLK / clk)) (dev s) /\ jif s' = jif s /\ live s' = live s /\ out s `suffix_of` out s').
Proof.
  intros Hd Hc. unfold mars_scd_set_clock, udiv. apply wp_bind, wp_get. destruct (Z.eqb_spec clk 0); [lia|]. apply wp_bind, wp_ret. rewrite Hd. cbn [Z.eqb].
  apply wp_bind, wp_ret. rewrite Z.div_1_r. apply wp_bind, wp_set_dev, wp_bind, wp_get_reg. intros s1 Q1 _ _ _. apply wp_bind, wp_get, wp_bind, wp_set_reg.
  intros s2 Q2 _ _ _. apply wp_ret. destruct (quiet_trans _ _ _ Q1 Q2). done.
Qed.

Lemma set_etu_spec etu s : clock_div (dev s) = 1 ->
  wp (mars_scd_set_etu etu) s (fun r s' => r = 0 /\ dev s' = with_baud (u32 etu / 31) 31 (dev s) /\ jif s' = jif s /\ live s' = live s /\ out s `suffix_of` out s').
Proof.
  intros Hd. unfold mars_scd_set_etu. apply wp_bind, wp_get. rewrite Hd, Z.mul_1_r. apply wp_bind, wp_set_dev, wp_bind, wp_get_reg. intros s1 Q1 _ _ _.
  apply wp_bind, wp_get, wp_bind, wp_set_reg. intros s2 Q2 _ _ _. apply wp_ret. destruct (quiet_trans _ _ _ Q1 Q2). done.
Qed.

Lemma set_parity_spec p s :
  wp (mars_scd_set_parity p) s (fun r s' => r = 0 /\ dev s' = with_parity (if p =? 0 then 0 else 1) (dev s) /\ jif s' = jif s /\ live s' = live s /\ out s `suffix_of` out s').
Proof.
  unfold mars_scd_set_parity. apply wp_bind, wp_set_dev, wp_bind, wp_get, wp_bind, wp_set_sccr. intros s1 [] _ _ _. by apply wp_ret.
Qed.

(** The device after [ops_set_param]. *)
Definition configured (p : scd_param) (d : mars_scd) : mars_scd :=
  with_parity (if p_parity p =? 0 then 0 else 1) (with_baud (u32 (p_etu p) / 31) 31 (with_pre (u8 (SYSTEM_CLK / p_clk p)) d)).

Lemma set_param_spec p s : clock_div (dev s) = 1 -> 0 < p_clk p ->
  wp (ops_set_param p) s (fun r s' => r = 0 /\ dev s' = configured p (dev s) /\ jif s' = jif s /\ live s' = live s).
Proof.
  intros Hd Hc. unfold ops_set_param. apply wp_bind, (wp_mono _ _ _ _ (set_clock_spec _ s Hd Hc)). intros r1 s1 (-> & D1 & J1 & L1 & _).
  apply wp_bind, (wp_mono _ _ _ _ (set_etu_spec (p_etu p) s1 ltac:(by rewrite D1))). intros r2 s2 (-> & D2 & J2 & L2 & _).
  apply wp_bind, (wp_mono _ _ _ _ (set_parity_spec (p_parity p) s2)). intros r3 s3 (-> & D3 & J3 & L3 & _). apply wp_ret.
  split; [done|]. split; [by rewrite D3, D2, D1|]. split; congruence.
Qed.

Lemma configured_inv p d : SInv d -> SInv (configured p d).
Proof. intros []. split; try done. cbn. unfold u8. lia. Qed.

Lemma get_param_spec s : clock_div (dev s) = 1 -> pre_clock_div (dev s) <> 0 ->
  ops_get_param s = Ret ((0, mkParam (SYSTEM_CLK / pre_clock_div (dev s)) (u32 (baud_div2 (dev s) * baud_div1 (dev s))) (parity (dev s))), s).
Proof.
  intros Hd Hp. unfold ops_get_param, mars_scd_get_clock, mars_scd_get_etu, mars_scd_get_parity, udiv, mbind, Drv_bind, get. cbn beta iota.
  destruct (Z.eqb_spec (pre_clock_div (dev s)) 0); [done|]. unfold mret, Drv_ret. rewrite Hd. cbn [Z.eqb]. rewrite Hd. cbn [Z.eqb]. by rewrite !Z.div_1_r.
Qed.

Lemma get_param_fault s : pre_clock_div (dev s) = 0 -> ops_get_param s = Fault.
Proof. intros Hp. unfold ops_get_param, mars_scd_get_clock, udiv, mbind, Drv_bind, get. cbn beta iota. by rewrite Hp. Qed.

(** ** Messages *)

Lemma tx_fill_spec n : forall p b s x, bload (buf b) p (Z.of_nat n) = Ret x ->
  wp (tx_fill n p b) s (fun _ s' => quiet s s' /\ out s' = rev ((fun v => (SC_BASE (ch_id (dev s)) + SCTXFIFO, u32 v)) <$> x) ++ out s).
Proof.
  induction n as [|n IH]; intros p b s x Hx; cbn [tx_fill].
  { apply wp_ret. split; [done|]. unfold bload in Hx. apply load_bounds in Hx as (_ & _ & _ & Hx). destruct x; [done|]. unfold Zlen in Hx. cbn in Hx. lia. }
  unfold bload in Hx. destruct (load_S _ _ _ _ Hx) as (y & x' & -> & H1 & H2). apply wp_bind, (wp_lift _ _ _ _ H1). cbn [hd].
  apply wp_bind, wp_set_reg. intros s1 Q1 _ O1 _.
  apply (wp_mono _ _ _ _ (IH (p + 1) b s1 x' ltac:(unfold bload; by replace (p + 1 - head (buf b)) with (p - head (buf b) + 1) by lia))).
  intros _ s2 [Q2 O2]. split; [by transitivity s1|]. rewrite O2, O1, (q_dev _ _ Q1). cbn [fmap list_fmap rev]. by rewrite <- app_assoc.
Qed.
End settings.

Section messages.
Context {env : ScdEnv}.
Variable HZ : Z.
Hypothesis HHZ : 10 <= HZ <= 1000000.
Hypothesis Hbrisk : brisk.
Variable sizeof_sc_buff : Z.

(** The register writes of a transmission, newest first: the queues are reset,
    the bytes are given, the transmission is started. *)
Definition tx_writes (base : Z) (x : list Z) (l : list (Z * Z)) (o : list (Z * Z)) : Prop :=
  exists v w, (base + SCCR, u32 (Z.lor w (SC_TX_GO 1))) :: rev ((fun b => (base + SCTXFIFO, u32 b)) <$> x) ++ (base + SCCR, u32 (Z.lor v (SC_FIFO_RST 1))) :: l `suffix_of` o.

Lemma xmit_spec b s x : SInv (dev s) -> 0 <= len (buf b) <= 32 -> bload (buf b) (data (buf b)) (len (buf b)) = Ret x ->
  wp (mars_scd_xmit HZ b) s (fun r s' => fst r = 0 /\ SInv (dev s') /\ cfg (dev s') = cfg (dev s) /\ live s' = live s /\
    tx_writes (SC_BASE (ch_id (dev s))) x (out s) (out s')).
Proof.
  intros Hi Hl Hx. unfold mars_scd_xmit. apply wp_bind, wp_get_reg. intros s1 Q1 _ O1 _. apply wp_bind, wp_set_sccr. intros s2 Q2 _ O2 _.
  destruct (Z.leb_spec (len (buf b)) 32); [|lia]. pose proof (quiet_trans _ _ _ Q1 Q2) as Q02.
  apply wp_bind, (wp_mono _ _ _ _ (tx_fill_spec (Z.to_nat (len (buf b))) (data (buf b)) b s2 x ltac:(by rewrite Z2Nat.id by lia))). intros _ s3 [Q3 O3].
  apply wp_bind, wp_get_reg. intros s4 Q4 _ O4 _. apply wp_bind, wp_get_reg. intros s5 Q5 _ O5 _. apply wp_bind, wp_set_sccr. intros s6 Q6 _ O6 _.
  pose proof (quiet_trans _ _ _ Q02 (quiet_trans _ _ _ Q3 (quiet_trans _ _ _ Q4 (quiet_trans _ _ _ Q5 Q6)))) as [D1 D2 D3 _].
  apply wp_bind, (wp_mono _ _ _ _ (msleep_spec HZ Hbrisk 5 s6 ltac:(by rewrite D1) ltac:(lia))). intros _ s7 [I7 C7 L7 O7 _]. apply wp_ret.
  split; [done|]. split; [done|]. split; [congruence|]. split; [congruence|].
  eexists _, _. etrans; [|exact O7]. rewrite O6, O5, O4, O3, O2, O1. rewrite (q_dev _ _ (quiet_trans _ _ _ Q02 (quiet_trans _ _ _ Q3 (quiet_trans _ _ _ Q4 Q5)))).
  rewrite (q_dev _ _ Q02), (q_dev _ _ Q1). reflexivity.
Qed.

(** A message that does not fit into the queue of the controller. *)
Lemma xmit_long b s : SInv (dev s) -> 32 < len (buf b) ->
  wp (mars_scd_xmit HZ b) s (fun r s' => fst r = -1 /\ keeps s s').
Proof.
  intros Hi Hl. unfold mars_scd_xmit. apply wp_bind, wp_get_reg. intros s1 Q1 _ _ _. apply wp_bind, wp_set_sccr. intros s2 Q2 _ _ _.
  destruct (Z.leb_spec (len (buf b)) 32); [lia|]. apply wp_ret. split; [done|]. apply keeps_quiet; [done|]. by transitivity s1.
Qed.

Hypothesis Hsz : 0 <= sizeof_sc_buff.
Hypothesis Hk : forall t, kmalloc_ok (kmalloc_at t).

Lemma scb_alloc_spec n s (Q : option sc_buff -> scd_st -> Prop) : 0 <= n -> sizeof_sc_buff + n < 2147483648 ->
  (forall s', quiet s s' -> alloc_scb sizeof_sc_buff (kmalloc_at (now s)) n = None -> Q None s') ->
  (forall b s', dev s' = dev s -> jif s' = jif s -> live s' = live s + 1 -> out s' = out s -> now s' = S (now s) -> rx s' = rx s ++ arrive (now s) ->
     view (buf b) 0 [] n -> Q (Some b) s') ->
  wp (scb_alloc sizeof_sc_buff n) s Q.
Proof.
  intros Hn Hb HN HS. unfold scb_alloc. apply wp_bind, wp_tick. intros s1 Q1 N1 O1 R1. destruct (alloc_scb _ _ n) as [b|] eqn:E; [|by apply wp_ret, HN].
  apply wp_bind, wp_modify, wp_ret, HS; cbn; try apply Q1; try done; [by rewrite (q_live _ _ Q1)|].
  exact (proj1 (alloc_scb_view _ _ _ _ (Hk (now s)) Hsz Hn Hb E)).
Qed.

(** The buffer of a message that was copied from the process. *)
Lemma written_buff b n bs : view (buf b) 0 [] n -> n = Zlen bs -> sizeof_sc_buff + n < 2147483648 ->
  exists m, bstore (buf (snd (scb_put b n))) (fst (scb_put b n)) bs = Ret m /\ len m = u8 n /\ bload m (data m) (u8 n) = Ret (firstn (Z.to_nat (u8 n)) bs).
Proof.
  intros (Hv & Hd & Hc & Ht) Hn Hb. pose proof (contents_length _ Hv) as HL. rewrite Hc in HL. unfold Zlen in HL at 1. cbn [length Z.of_nat] in HL. pose proof Hv as [].
  pose proof (Zlen_nonneg bs).
  assert (Hu : 0 <= u8 n <= n) by (unfold u8; lia).
  unfold bstore, scb_put. cbn [fst snd buf set_buf set_ptrs mem head]. replace (tail (buf b) - head (buf b)) with 0 by lia.
  pose proof (store_ok (mem (buf b)) 0 bs ltac:(lia) ltac:(lia)) as Es. pose proof (load_store_same _ _ _ _ Es) as El.
  pose proof (load_sub _ _ _ _ 0 (u8 n) El ltac:(lia) ltac:(lia) ltac:(lia)) as Eu. rewrite Es, res_bind_Ret. eexists. split; [reflexivity|].
  unfold set_mem. cbn [len data head mem set_ptrs]. rewrite <- HL, Z.add_0_l. split; [done|]. unfold bload. cbn [head mem data]. rewrite Hd.
  change (0 + 0) with 0 in Eu. rewrite Eu, load_ok by lia. done.
Qed.

Lemma scd_write_spec bs n s : SInv (dev s) -> n = Zlen bs -> sizeof_sc_buff + n < 2147483648 -> u8 n <= 32 ->
  wp (scd_write_msg HZ sizeof_sc_buff n (Some bs)) s (fun r s' => SInv (dev s') /\ cfg (dev s') = cfg (dev s) /\
    (fst r = 0 /\ live s' = live s + 1 /\ tx_writes (SC_BASE (ch_id (dev s))) (firstn (Z.to_nat (u8 n)) bs) (out s) (out s') \/
     fst r = -ENOMEM /\ live s' = live s /\ alloc_scb sizeof_sc_buff (kmalloc_at (now s)) n = None)).
Proof.
  intros Hi Hn Hb Hu. unfold scd_write_msg. pose proof (Zlen_nonneg bs). apply wp_bind, scb_alloc_spec; [lia|done| |].
  - intros s1 Q1 E1. apply wp_ret. pose proof (keeps_quiet _ _ Hi Q1) as K%keeps_rested. destruct K. split; [done|]. split; [done|]. by right.
  - intros b s1 D1 J1 L1 O1 _ _ Hv. destruct (written_buff b n bs Hv Hn Hb) as (m & Em & Elen & El). destruct (scb_put b n) as [p b'] eqn:Ep. cbn [fst snd] in Em.
    apply wp_bind, (wp_lift _ _ _ _ Em). assert (Hu' : 0 <= u8 n) by (unfold u8; lia).
    apply wp_bind, (wp_mono _ _ _ _ (xmit_spec (set_buf b' m) s1 _ ltac:(by rewrite D1) ltac:(cbn; lia) ltac:(cbn [buf set_buf]; by rewrite Elen))).
    intros [r b2] s2 (Hr & I2 & C2 & L2 & T2). cbn [fst] in Hr. apply wp_ret. split; [done|]. split; [congruence|]. left. split; [done|]. split; [congruence|].
    by rewrite D1, O1 in T2.
Qed.

(** Bytes are taken from the queue of the controller into a buffer. *)
Lemma rx_fill_spec n : forall p b s, 0 <= p - head (buf b) -> p - head (buf b) + Z.of_nat n <= Zlen (mem (buf b)) -> (n <= length (rx s))%nat ->
  wp (rx_fill n p b) s (fun b' s' => quiet s s' /\ rx s' = skipn n (rx s) ++ arrivals (now s) n /\ exists m, b' = set_buf b (set_mem (buf b) m) /\
    load m (p - head (buf b)) (Z.of_nat n) = Ret (u8 <$> firstn n (rx s)) /\
    forall i k y, i + k <= p - head (buf b) -> load (mem (buf b)) i k = Ret y -> load m i k = Ret y).
Proof.
  induction n as [|n IH]; intros p b s Hp Hm Hl; cbn [rx_fill].
  { apply wp_ret. split; [done|]. change (arrivals (now s) 0) with (@nil Z). rewrite app_nil_r. split; [done|]. exists (mem (buf b)). split; [by destruct b as [? ? ? []]|].
    split; [|done]. rewrite load_ok by lia. done. }
  destruct (rx s) as [|c q] eqn:Eq; [cbn in Hl; lia|]. apply wp_bind, wp_rxfifo. intros x s1 Q1 N1 Hx. destruct (Hx c q Eq) as [-> R1]. clear Hx.
  assert (Hz1 : Zlen [u8 c] = 1) by done. destruct (store (mem (buf b)) (p - head (buf b)) [u8 c]) as [m1| |] eqn:Em; [|rewrite store_ok in Em by lia; done..].
  apply wp_bind, (wp_lift _ _ (set_mem (buf b) m1)); [unfold bstore; by rewrite Em|]. set (b1 := set_buf b (set_mem (buf b) m1)).
  assert (Hm1 : Zlen m1 = Zlen (mem (buf b))) by (unfold Zlen; by rewrite (store_length _ _ _ _ Em)).
  apply (wp_mono _ _ _ _ (IH (p + 1) b1 s1 ltac:(cbn; lia) ltac:(cbn; lia) ltac:(rewrite R1, length_app; cbn in Hl; lia))).
  intros b' s2 (Q2 & R2 & m & -> & L2 & B2). cbn [b1 buf set_buf set_mem head mem] in L2, B2.
  split; [by transitivity s1|]. split.
  { rewrite R2, R1, N1, arrivals_S. cbn [skipn]. rewrite drop_app_le by (cbn in Hl; lia). by rewrite app_assoc. }
  exists m. split; [done|]. split.
  - cbn [firstn fmap list_fmap]. replace (Z.of_nat (S n)) with (Zlen [u8 c] + Z.of_nat n) by lia. apply (load_app m (p - head (buf b)) (Zlen [u8 c]) (Z.of_nat n) [u8 c]).
    + apply B2; [lia|]. exact (load_store_same _ _ _ _ Em).
    + rewrite R1, take_app_le in L2 by (cbn in Hl; lia). by replace (p - head (buf b) + Zlen [u8 c]) with (p + 1 - head (buf b)) by lia.
  - intros i k y Hik Hy. pose proof (load_bounds _ _ _ _ Hy) as (? & ? & _). apply B2; [lia|]. by rewrite (load_store_below _ _ _ _ _ _ Em) by lia.
Qed.

Lemma scd_read_spec n s (q := rx s ++ arrive (now s) ++ arrive (S (now s))) : SInv (dev s) -> Forall is_byte q -> Zlen q < 256 -> sizeof_sc_buff + Zlen q < 2147483648 ->
  (q <> [] -> alloc_scb sizeof_sc_buff (kmalloc_at (S (S (now s)))) (Zlen q) <> None) ->
  wp (scd_read_msg sizeof_sc_buff n) s (fun r s' => keeps s s' /\
    r = (if Zlen q =? 0 then (- EFAULT, RNone) else if Zlen q >? n then (- ENOMEM, RNone) else (Zlen q, RBytes q)) /\
    exists k, rx s' = arrivals (S (S (now s))) k).
Proof.
  intros Hi Hb Hq Hsum Hal. unfold scd_read_msg, mars_scd_read. apply wp_bind, wp_bind, wp_rxlen. intros s1 Q1 N1 R1. apply wp_bind, wp_rxlen. intros s2 Q2 N2 R2.
  assert (Eq : rx s2 = q) by (rewrite R2, R1, N1; unfold q; by rewrite app_assoc). rewrite Eq. pose proof (quiet_trans _ _ _ Q1 Q2) as Q02.
  destruct (Z.ltb_spec 0 (Zlen q)) as [Hpos|Hz].
  2: { apply wp_ret, wp_ret. split; [by apply keeps_quiet|]. pose proof (Zlen_nonneg q). destruct (Z.eqb_spec (Zlen q) 0); [|lia]. split; [done|]. exists O.
       destruct q; [done|]. unfold Zlen in Hz. cbn in Hz. lia. }
  destruct (Z.eqb_spec (Zlen q) 0); [lia|].
  apply wp_bind, scb_alloc_spec; [lia|done| |].
  { intros s3 _ E3. rewrite N2, N1 in E3. exfalso. apply Hal; [|done]. intros E. rewrite E in Hpos. done. }
  intros b s3 D3 J3 L3 O3 N3 R3 Hv. pose proof Hv as (Hva & Hd & Hc & Ht). pose proof (contents_length _ Hva) as HL. rewrite Hc in HL. change (Zlen []) with 0 in HL. pose proof Hva as [].
  rewrite Eq in R3. apply wp_bind, (wp_mono _ _ _ _ (rx_fill_spec (Z.to_nat (Zlen q)) (data (buf b)) b s3 ltac:(lia) ltac:(lia) ltac:(rewrite R3, length_app; unfold Zlen; lia))).
  intros b' s4 (Q4 & R4 & m & -> & L4 & _). apply wp_ret. cbn [scb_put snd buf set_buf set_ptrs set_mem len data]. rewrite <- HL, Z.add_0_l, u8_id by lia.
  assert (Ex : u8 <$> firstn (Z.to_nat (Zlen q)) (rx s3) = q).
  { rewrite R3. unfold Zlen. rewrite Nat2Z.id, take_app_length. by apply u8_bytes. }
  assert (Hk4 : keeps s (mkS (dev s4) (rx s4) (out s4) (now s4) (jif s4) (live s4 - 1))).
  { destruct Q4 as [A1 A2 A3 A4], Q02 as [B1 B2 B3 B4]. split; [cbn; congruence|]. split; cbn [dev jif live out]; rewrite ?A1, ?D3, ?B1; try done; try congruence; [lia|]. rewrite O3 in A4. by transitivity (out s2). }
  assert (Hr4 : exists k, rx s4 = arrivals (S (S (now s))) k).
  { exists (S (Z.to_nat (Zlen q))). rewrite R4, R3. unfold Zlen. rewrite Nat2Z.id, drop_app_length, N3, arrivals_S, N2, N1. done. }
  destruct (Zlen q >? n) eqn:E.
  - apply wp_bind, wp_modify, wp_ret. done.
  - apply wp_bind, (wp_lift _ _ q).
    + unfold bload. cbn [mem head set_ptrs set_mem]. rewrite Z2Nat.id in L4 by lia. by rewrite L4, Ex.
    + apply wp_bind, wp_modify, wp_ret. done.
Qed.
End messages.
