(* ===== verification/ScdRuns.v ===== *)
(** * The smart card reader: collecting an answer, sequences of requests

    How one poll takes what has arrived of an answer ([timer_collects]), how a
    poll after the time limit ends ([late_reset]), and that every request keeps
    the invariant of the reader ([run_inv]). *)
From stdpp Require Import base tactics list numbers option.
From Stdlib Require Import ZArith Lia.
From S2P Require Import Prelude Driver Buff RpcProofs ScBuff ScdAtr Scd ScdProofs ScdOps.

(** ** Collecting an answer *)

Lemma push_received l b : is_byte b -> (length l < 32)%nat -> atr_push (received l) b = received (l ++ [b]).
Proof.
  intros Hb Hl. unfold atr_push, received. cbn [atr_data atr_length]. rewrite u8_id by exact Hb. f_equal; [|by rewrite Zlen_app].
  unfold Zlen. rewrite Nat2Z.id, <- app_assoc, length_app. cbn [length app].
  replace (32 - length l)%nat with (S (32 - (length l + 1))) by lia. cbn [replicate].
  replace (length l) with (length l + 0)%nat at 1 by lia. by rewrite insert_app_r.
Qed.

Lemma push_all l x : Forall is_byte x -> (length (l ++ x) <= 32)%nat -> foldl atr_push (received l) x = received (l ++ x).
Proof.
  intros Hx. revert l. induction Hx as [|b x Hb Hx IH]; intros l Hl; cbn [foldl]; [by rewrite app_nil_r|].
  rewrite push_received; [|done|rewrite length_app in Hl; cbn in Hl; lia]. rewrite IH; [|by rewrite <- app_assoc]. by rewrite <- app_assoc.
Qed.

Section collect.
Context {env : ScdEnv}.
Variable HZ : Z.

Lemma arrivals_app t a b : arrivals t (a + b) = arrivals t a ++ arrivals (t + a) b.
Proof. unfold arrivals. by rewrite seq_app, fmap_app, concat_app. Qed.

(** The reader has received a part of the answer [x], and what comes is its
    continuation. *)
Record collecting (x : answer) (s : scd_st) (k : Z) : Prop := {
  c_fsm : fsm (dev s) = IFD_FSM_RESET;
  c_range : 0 <= k <= Zlen (encode x);
  c_atr : atr (dev s) = received (firstn (Z.to_nat k) (encode x));
  c_next : forall n, firstn (Z.to_nat k) (encode x) ++ rx s ++ arrivals (now s) n `prefix_of` encode x
}.

(** What is known of the answer when it is complete. *)
Definition decoded (x : answer) (i : scd_atr_info) : Prop :=
  ai_TS i = an_TS x /\ ai_T0 i = an_T0 x /\ ai_T1 i = group_fields (an_g1 x) /\ ai_T2 i = group_fields (an_g2 x) /\ ai_T3 i = group_fields (an_g3 x) /\
  firstn (length (an_history x)) (ai_History i) = an_history x.

(** After a poll that found [m] bytes. *)
Definition collected (x : answer) (m : Z) (d : mars_scd) : Prop :=
  atr d = received (firstn (Z.to_nat m) (encode x)) /\
  if m =? Zlen (encode x) then fsm d = IFD_FSM_ACTIVE /\ decoded x (atr_info d) else fsm d = IFD_FSM_RESET.

Lemma prefix_firstn (l q : list Z) : l `prefix_of` q -> l = firstn (length l) q.
Proof. intros [r ->]. by rewrite take_app_length. Qed.

Lemma encode_bytes x : well_formed x -> Forall is_byte (encode x).
Proof.
  intros Hwf. pose proof (T0_facts x Hwf) as [HT0 _]. pose proof (wf_bytes x Hwf) as Hb.
  assert (Hbody : Forall is_byte (an_body x)) by (constructor; [exact HT0|exact Hb]). unfold encode. constructor.
  - unfold is_byte. destruct (wf_TS x Hwf) as [->| ->]; lia.
  - apply Forall_app. split; [exact Hbody|]. destruct (has_TCK x); [|constructor]. constructor; [|constructor]. unfold xor_all.
    clear - Hbody. induction Hbody as [|b l Hb _ IH]; cbn [fold_right]; [unfold is_byte; lia|by apply lxor_byte].
Qed.

Lemma collecting_quiet x s s' k j : collecting x s k -> fsm (dev s') = fsm (dev s) -> atr (dev s') = atr (dev s) -> now s' = (now s + j)%nat -> rx s' = rx s ++ arrivals (now s) j ->
  collecting x s' k.
Proof.
  intros [C1 C2 C3 C4] Ef Ea En Er. split; [congruence|done|congruence|]. intros n. rewrite Er, En, <- app_assoc, <- arrivals_app. apply C4.
Qed.

(** The check of the answer received so far. *)
Lemma atr_check_prefix x s m : well_formed x -> 3 <= Zlen (encode x) -> fresh_info (atr_info (dev s)) -> SInv (dev s) -> fsm (dev s) = IFD_FSM_RESET ->
  0 <= m <= Zlen (encode x) -> atr (dev s) = received (firstn (Z.to_nat m) (encode x)) ->
  wp (atr_check HZ) s (fun ok s' => ok = true /\ keeps s s' /\ collected x m (dev s')).
Proof.
  intros Hwf Hl Hfi Hi Hf Hm Ha. apply (wp_mono _ _ _ _ (atr_check_spec HZ s Hi Hf)). intros ok s' (K & Ea & c & Ec & H).
  rewrite Ha, (complete_prefix x m Hwf Hl Hm) in Ec. injection Ec as <-. unfold collected. rewrite Ea, Ha.
  destruct (Z.eqb_spec m (Zlen (encode x))) as [->|Hne]; cbn [Z.eqb] in H.
  - destruct H as (r & Ed & -> & F). rewrite Ha in Ed. unfold Zlen in Ed. rewrite Nat2Z.id, firstn_all, (decompress_spec x Hwf _ Hfi Hl) in Ed. injection Ed as <- <-.
    split; [done|]. split; [done|]. split; [done|]. split; [done|]. repeat (split; [done|]). cbn [ai_History]. by rewrite take_app_length.
  - destruct H as (-> & F & _). done.
Qed.

Lemma fsm_reset_collects x s k (e := u32 (reg_at (now s) (SC_BASE (ch_id (dev s)) + SCIRSR))) :
  well_formed x -> 3 <= Zlen (encode x) -> fresh_info (atr_info (dev s)) -> SInv (dev s) -> collecting x s k ->
  has e SC_PRES = true -> has e SC_RXP_INT = false -> has e SC_RCV_INT = true -> (k = 0 -> has e SC_ATRS_INT = true) ->
  time_after (u32 (jif s)) (atr_timeout (dev s)) = false ->
  wp (mars_scd_fsm_reset HZ) s (fun _ s' => keeps s s' /\ exists m, k + Zlen (rx s) <= m <= Zlen (encode x) /\ collected x m (dev s')).
Proof.
  intros Hwf Hl Hfi Hi Hc He1 He2 He3 He4 Ht. unfold mars_scd_fsm_reset. apply wp_bind, wp_get_reg. intros s1 Q1 N1 _ R1. fold e.
  apply wp_bind, wp_get, wp_bind, wp_jiffies. pose proof (q_dev _ _ Q1) as D1. pose proof (q_jif _ _ Q1) as J1.
  pose proof (encode_at_most x Hwf) as H30. pose proof (keeps_quiet _ _ Hi Q1) as K1.
  assert (Hc1 : collecting x s1 k) by (apply (collecting_quiet x s s1 k 1); [done|by rewrite D1|by rewrite D1|lia|rewrite R1, arrivals_S; change (arrivals (S (now s)) 0) with (@nil Z); by rewrite app_nil_r]).
  destruct Hc1 as [C1 C2 C3 C4]. rewrite D1, J1, He1, He2, He3, Ht. cbn [negb orb].
  assert (Hlen : length (firstn (Z.to_nat k) (encode x)) = Z.to_nat k) by (rewrite length_firstn; unfold Zlen in C2; lia).
  assert (Hatr : (atr_length (atr (dev s)) =? 0) && negb (has e SC_ATRS_INT) = false).
  { rewrite <- D1, C3. unfold received. cbn [atr_length]. unfold Zlen. rewrite Hlen. destruct (Z.eqb_spec (Z.of_nat (Z.to_nat k)) 0); [|done].
    cbn [andb]. rewrite He4; [done|lia]. }
  rewrite Hatr.
  assert (Hfu : (Z.to_nat (33 - atr_length (atr (dev s1))) < atr_fuel)%nat) by (rewrite D1; pose proof (v_atr _ Hi) as [_ ?]; unfold atr_fuel; lia).
  apply wp_bind, wp_bind, (wp_mono _ _ _ _ (rx_atr_spec atr_fuel s1 ltac:(apply K1) C1 Hfu)). intros ok s2 (K2 & F2 & I2 & n & taken & N2 & T2 & A2 & O2).
  specialize (C4 n). rewrite <- T2, app_assoc in C4. assert (Hp : firstn (Z.to_nat k) (encode x) ++ taken `prefix_of` encode x) by (etrans; [|exact C4]; by exists (rx s2)).
  assert (Htb : Forall is_byte taken) by (pose proof (encode_bytes x Hwf) as Hb; destruct Hp as [r Hr]; rewrite Hr in Hb; apply Forall_app in Hb as [Hb _]; by apply Forall_app in Hb as [_ Hb]).
  pose proof (prefix_length _ _ Hp) as Hpl. pose proof (prefix_firstn _ _ Hp) as Hpf. rewrite length_app, Hlen in Hpl, Hpf.
  rewrite C3, push_all in A2; [|done|rewrite length_app, Hlen; unfold Zlen in H30; lia]. rewrite Hpf in A2.
  set (m := k + Zlen taken). assert (Em : (Z.to_nat k + length taken)%nat = Z.to_nat m) by (unfold m, Zlen; lia). rewrite Em in A2.
  assert (Hm : 0 <= m <= Zlen (encode x)) by (unfold m, Zlen in *; lia).
  destruct ok.
  2: { exfalso. rewrite A2 in O2. unfold received in O2. cbn [atr_length] in O2. unfold Zlen in O2, H30. rewrite length_firstn in O2. lia. }
  assert (Hfi2 : fresh_info (atr_info (dev s2))) by (by rewrite I2, D1).
  apply (wp_mono _ _ _ _ (atr_check_prefix x s2 m Hwf Hl Hfi2 ltac:(apply K2) F2 Hm A2)). intros ok s3 (-> & K3 & Hcol).
  apply (wp_mono _ _ _ _ (reset_end_spec HZ true e s3 ltac:(apply K3))). intros _ s4 [K4 D4].
  split; [apply (keeps_trans _ s1); [done|]; apply (keeps_trans _ s2); [done|]; by apply (keeps_trans _ s3)|]. exists m. split; [|unfold collected; by rewrite D4].
  rewrite O2, app_nil_r, R1 in T2. unfold m. rewrite T2, !Zlen_app. pose proof (Zlen_nonneg (arrive (now s))). pose proof (Zlen_nonneg (arrivals (now s1) n)).
  split; [lia|]. unfold m in Hm. rewrite T2, !Zlen_app in Hm. lia.
Qed.

(** Between the beginning of a poll and the work of the state machine. *)
Record polled (s s' : scd_st) : Prop := {
  p_inv : SInv (dev s');
  p_fsm : fsm (dev s') = fsm (dev s);
  p_atr : atr (dev s') = atr (dev s);
  p_info : atr_info (dev s') = atr_info (dev s);
  p_timeout : atr_timeout (dev s') = atr_timeout (dev s);
  p_id : ch_id (dev s') = ch_id (dev s);
  p_jif : jif s' = jif s;
  p_rx : exists j, now s' = (now s + S j)%nat /\ rx s' = rx s ++ arrivals (now s) (S j)
}.

Lemma quiet_polled s s' : SInv (dev s) -> quiet s s' -> (exists j, now s' = (now s + S j)%nat /\ rx s' = rx s ++ arrivals (now s) (S j)) -> polled s s'.
Proof. intros Hi [E1 E2 _ _] H. split; rewrite ?E1; done. Qed.

(** A poll with an interrupt pending: what the state machine does is done. *)
Lemma timer_frame s (P : mars_scd -> Prop) : SInv (dev s) -> (forall d t, P d -> P (with_expires t d)) ->
  Z.land (u32 (reg_at (now s) MIS_ISR)) (MIS_SC_ISR (ch_id (dev s))) <> 0 ->
  (forall s', polled s s' ->
     wp (match fsm (dev s) with IFD_FSM_RESET => mars_scd_fsm_reset HZ | IFD_FSM_ACTIVE => mars_scd_fsm_active HZ | _ => mret tt end) s' (fun _ s'' => P (dev s''))) ->
  wp (mars_scd_timer HZ) s (fun _ s' => P (dev s')).
Proof.
  intros Hi HP Hmis Hw. unfold mars_scd_timer, rtd_inl, rtd_outl. apply wp_bind, wp_bind, wp_tick. intros s1 Q1 N1 _ R1. apply wp_ret, wp_bind, wp_get.
  cbn zeta. rewrite (q_dev _ _ Q1). apply Z.eqb_neq in Hmis. rewrite Hmis. cbn [negb]. apply wp_bind. unfold mars_scd_work. apply wp_bind, wp_get_reg. intros s2 Q2 N2 _ R2.
  set (e := u32 _). pose proof (quiet_trans _ _ _ Q1 Q2) as Q02.
  assert (Hd : wp (if has e SC_CPRES_INT then _ ← mars_scd_card_detect; set_dev (fun d => with_detected (u32 (detected d + 1)) d) else mret tt) s2 (fun _ s3 => polled s s3)).
  { destruct (has e SC_CPRES_INT).
    - unfold mars_scd_card_detect. apply wp_bind, wp_bind, wp_get_reg. intros s3 Q3 N3 _ R3. apply wp_ret, wp_set_dev. destruct (quiet_trans _ _ _ Q02 Q3) as [E1 E2 _ _].
      split; cbn [dev with_detected fsm atr atr_info atr_timeout ch_id jif now rx]; rewrite ?E1; try done; [destruct Hi; split; try done; cbn; apply u32_range|].
      exists 2%nat. split; [lia|]. by rewrite R3, R2, R1, N2, N1, <- !app_assoc, !arrivals_S, (app_nil_r (arrive _)).
    - apply wp_ret, quiet_polled; [done|done|]. exists 1%nat. split; [lia|]. by rewrite R2, R1, N1, <- app_assoc, !arrivals_S, (app_nil_r (arrive _)). }
  apply wp_bind, (wp_mono _ _ _ _ Hd). intros _ s3 H3. apply wp_bind, wp_get. rewrite (p_fsm _ _ H3).
  apply wp_bind, (wp_mono _ _ _ _ (Hw s3 H3)). intros _ s4 H4. apply wp_set_reg. intros s5 Q5 _ _ _.
  apply wp_bind, wp_bind, wp_tick. intros s6 Q6 _ _ _. apply wp_modify, wp_bind, wp_jiffies, wp_set_dev. cbn [dev].
  rewrite (q_dev _ _ (quiet_trans _ _ _ Q5 Q6)). by apply HP.
Qed.

Lemma expires_inv d t : SInv d -> SInv (with_expires t d).
Proof. intros []. by split. Qed.

Lemma timer_collects x s k e :
  well_formed x -> 3 <= Zlen (encode x) -> fresh_info (atr_info (dev s)) -> SInv (dev s) -> collecting x s k ->
  Z.land (u32 (reg_at (now s) MIS_ISR)) (MIS_SC_ISR (ch_id (dev s))) <> 0 ->
  (forall t, (now s < t)%nat -> u32 (reg_at t (SC_BASE (ch_id (dev s)) + SCIRSR)) = e) ->
  has e SC_PRES = true -> has e SC_RXP_INT = false -> has e SC_RCV_INT = true -> (k = 0 -> has e SC_ATRS_INT = true) ->
  time_after (u32 (jif s)) (atr_timeout (dev s)) = false ->
  wp (mars_scd_timer HZ) s (fun _ s' => SInv (dev s') /\ exists m, k + Zlen (rx s ++ arrive (now s)) <= m <= Zlen (encode x) /\ collected x m (dev s')).
Proof.
  intros Hwf Hl Hfi Hi Hc Hmis Hst He1 He2 He3 He4 Ht.
  apply (timer_frame s (fun d => SInv d /\ exists m, k + Zlen (rx s ++ arrive (now s)) <= m <= Zlen (encode x) /\ collected x m d)); [done| |done|].
  { intros d t [Id H]. split; [by apply expires_inv|done]. }
  intros s3 [I3 F3 A3 B3 T3 C3 J3 (j & N3 & R3)]. rewrite (c_fsm _ _ _ Hc). pose proof (collecting_quiet x s s3 k (S j) Hc F3 A3 N3 R3) as Hc3.
  assert (He : u32 (reg_at (now s3) (SC_BASE (ch_id (dev s3)) + SCIRSR)) = e) by (rewrite C3; apply Hst; lia).
  apply (wp_mono _ _ _ _ (fsm_reset_collects x s3 k Hwf Hl ltac:(by rewrite B3) I3 Hc3 ltac:(by rewrite He) ltac:(by rewrite He) ltac:(by rewrite He) ltac:(by rewrite He) ltac:(by rewrite J3, T3))).
  intros _ s4 ([I4 _] & m & Hm & Hcol). split; [done|]. exists m. split; [|done].
  rewrite R3, arrivals_S, app_assoc, Zlen_app in Hm. pose proof (Zlen_nonneg (arrivals (S (now s)) j)). lia.
Qed.

(** A poll after the time limit gives up. *)
Lemma fsm_reset_late s : SInv (dev s) -> fsm (dev s) = IFD_FSM_RESET -> time_after (u32 (jif s)) (atr_timeout (dev s)) = true ->
  wp (mars_scd_fsm_reset HZ) s (fun _ s' => SInv (dev s') /\ fsm (dev s') = IFD_FSM_IDEL).
Proof.
  intros Hi Hf Ht. unfold mars_scd_fsm_reset. apply wp_bind, wp_get_reg. intros s1 Q1 _ _ _. apply wp_bind, wp_get, wp_bind, wp_jiffies.
  rewrite (q_dev _ _ Q1), (q_jif _ _ Q1), Ht, orb_true_r. apply wp_bind, wp_ret.
  apply (wp_mono _ _ _ _ (reset_end_spec HZ false _ s1 ltac:(by rewrite (q_dev _ _ Q1)))). intros _ s2 [[I2 _] F2]. done.
Qed.

(** The time limit of a reset and the interval of the timer are the same: a
    poll later than that ends with an idle reader, whatever has arrived. *)
Lemma late_reset d s : 0 <= HZ <= 1000000 -> SInv (dev s) -> fsm (dev s) <> IFD_FSM_RESET -> HZ < d < 2147483648 ->
  (forall t, Z.land (u32 (reg_at t MIS_ISR)) (MIS_SC_ISR (ch_id (dev s))) <> 0) ->
  wp (_ ← mars_scd_set_state HZ IFD_FSM_RESET; _ ← elapse d; mars_scd_timer HZ) s (fun _ s' => SInv (dev s') /\ fsm (dev s') = IFD_FSM_IDEL).
Proof.
  intros HH Hi Hf Hd Hmis. apply wp_bind, (wp_mono _ _ _ _ (set_state_spec HZ IFD_FSM_RESET s Hi ltac:(done))).
  intros r s1 [[I1 C1] Hr]. apply wp_bind, wp_modify.
  apply (timer_frame _ (fun d => SInv d /\ fsm d = IFD_FSM_IDEL)); cbn [dev now]; [done| |rewrite (g_id _ _ C1); apply Hmis|].
  { intros d' t [Id H]. split; [by apply expires_inv|done]. }
  intros s2 [I2 F2 _ _ T2 _ J2 _]. cbn [dev jif] in F2, T2, J2. destruct Hr as [(_ & F1 & R1)|(_ & _ & F1 & _)]; rewrite F1; [|apply wp_ret; split; [done|congruence]].
  specialize (R1 eq_refl Hf). apply fsm_reset_late; [done|congruence|]. rewrite J2, T2, (r_timeout _ _ _ R1), (g_jif _ _ C1).
  replace (u32 (u32 (jif s) + HZ)) with (u32 (jif s + HZ)) by (unfold u32; by rewrite Zplus_mod_idemp_l). rewrite time_after_exact by lia. apply Z.ltb_lt. lia.
Qed.

Lemma arrivals_once t l n : (forall t', (t <= t')%nat -> arrive t' = if decide (t' = t) then l else []) -> arrivals t n = match n with O => [] | _ => l end.
Proof.
  intros H. destruct n as [|n]; [done|]. rewrite arrivals_S, (H t) by lia. rewrite decide_True by done.
  assert (E : forall n t', (t < t')%nat -> arrivals t' n = []); [|by rewrite E, app_nil_r by lia].
  clear n. induction n as [|n IH]; intros t' Ht; [done|]. rewrite arrivals_S, (H t'), decide_False by lia. apply IH. lia.
Qed.

Lemma get_atr_received x s : fsm (dev s) = IFD_FSM_ACTIVE -> atr (dev s) = received (encode x) -> mars_scd_get_atr s = Ret ((0, encode x), s).
Proof.
  intros Hf Ha. unfold mars_scd_get_atr, mbind, Drv_bind, get. cbn beta iota. rewrite bool_decide_true, Ha by done. cbn [negb].
  unfold lift_res, received. cbn [atr_data atr_length]. pose proof (load_mid [] (encode x) (replicate (32 - length (encode x)) 0)) as E. cbn [app] in E. change (Zlen (@nil Z)) with 0 in E. by rewrite E.
Qed.

(** A reset, and the first poll after it within the time limit. *)
Lemma reset_answer x d s e : 0 <= HZ <= 1000000 -> 0 <= d <= HZ ->
  well_formed x -> 3 <= Zlen (encode x) -> SInv (dev s) -> fsm (dev s) <> IFD_FSM_RESET -> atr_data (atr (dev s)) = replicate 32 0 -> fresh_info (atr_info (dev s)) ->
  (forall t, Z.land (u32 (reg_at t MIS_ISR)) (MIS_SC_ISR (ch_id (dev s))) <> 0) ->
  (forall t, u32 (reg_at t (SC_BASE (ch_id (dev s)) + SCIRSR)) = e) ->
  has e SC_PRES = true -> has e SC_RXP_INT = false -> has e SC_RCV_INT = true -> has e SC_ATRS_INT = true ->
  (forall t, (now s + 3 <= t)%nat -> arrive t = if decide (t = now s + 3)%nat then encode x else []) ->
  wp (_ ← mars_scd_set_state HZ IFD_FSM_RESET; _ ← elapse d; _ ← mars_scd_timer HZ; mars_scd_get_atr) s
    (fun r s' => r = (0, encode x) /\ SInv (dev s') /\ fsm (dev s') = IFD_FSM_ACTIVE /\ decoded x (atr_info (dev s'))).
Proof.
  intros HH Hd Hwf Hl Hi Hf Hz Hfi Hmis Hst He1 He2 He3 He4 Harr.
  apply wp_bind, (wp_mono _ _ _ _ (set_state_spec HZ IFD_FSM_RESET s Hi ltac:(done))). intros r s1 [[I1 C1] [(_ & F1 & R1)|(_ & _ & _ & Hn)]]; [|rewrite Hst, He1 in Hn; done].
  specialize (R1 eq_refl Hf). destruct R1 as [Ra Ri Rt Rr Rn]. apply wp_bind, wp_modify. set (s2 := mkS _ _ _ _ _ _).
  assert (Hc : collecting x s2 0).
  { split; cbn [s2 dev rx now]; [done|pose proof (Zlen_nonneg (encode x)); lia|rewrite Ra, Hz; done|]. intros n. rewrite Rr, Rn, (arrivals_once _ (encode x)) by done. cbn.
    destruct n; [apply prefix_nil|done]. }
  assert (Ht : time_after (u32 (jif s2)) (atr_timeout (dev s2)) = false).
  { cbn [s2 jif dev]. rewrite Rt, (g_jif _ _ C1). replace (u32 (u32 (jif s) + HZ)) with (u32 (jif s + HZ)) by (unfold u32; by rewrite Zplus_mod_idemp_l).
    rewrite time_after_exact by lia. apply Z.ltb_ge. lia. }
  apply wp_bind, (wp_mono _ _ _ _ (timer_collects x s2 0 e Hwf Hl ltac:(by cbn; rewrite Ri) I1 Hc ltac:(cbn; rewrite (g_id _ _ C1); apply Hmis) ltac:(intros; cbn; rewrite (g_id _ _ C1); apply Hst) He1 He2 He3 ltac:(done) Ht)).
  intros _ s3 (I3 & m & Hm & Ha & Hfs). cbn [s2 rx now] in Hm. rewrite Rr, Rn, Harr, decide_True in Hm by (done || lia). cbn [app] in Hm.
  assert (m = Zlen (encode x)) as -> by lia. rewrite Z.eqb_refl in Hfs. destruct Hfs as [F3 D3]. unfold Zlen in Ha. rewrite Nat2Z.id, firstn_all in Ha.
  eexists _, s3. split; [by apply get_atr_received|]. done.
Qed.
End collect.

(** ** A reader that has just been found *)

Section probe.
Context {env : ScdEnv}.
Variable HZ : Z.

Lemma initial_inv n : SInv (mkScd n IFD_FSM_UNKNOWN 1 8 12 31 1 init_atr zero_info 0 0 0).
Proof. split; done. Qed.

Lemma probe_spec n s : n = 0 \/ n = 1 ->
  wp (ops_probe HZ (0x12830000 + n) true) s (fun r s' => r = 0 /\ SInv (dev s') /\ fsm (dev s') = IFD_FSM_DISABLE /\ ch_id (dev s') = n /\ pre_clock_div (dev s') = 8 /\
    live s' = live s).
Proof.
  intros Hn. unfold ops_probe. assert (E : negb (Z.land (0x12830000 + n) 0xFFFFFFFC =? 0x12830000) = false /\ Z.land (0x12830000 + n) 3 = n) by (by destruct Hn as [-> | ->]).
  destruct E as [-> ->]. unfold mars_scd_open. destruct (Z.geb_spec n 2); [lia|]. cbn [negb].
  apply wp_bind. unfold rtd_inl at 1, rtd_outl at 1. apply wp_bind, wp_bind, wp_tick. intros s1 Q1 _ _ _. apply wp_ret, wp_bind, wp_bind, wp_tick. intros s2 Q2 _ _ _. apply wp_modify.
  apply wp_bind, wp_set_dev. set (s3 := mkS _ _ _ _ _ _). assert (D3 : dev s3 = mkScd n IFD_FSM_UNKNOWN 1 8 12 31 1 init_atr zero_info 0 0 0) by done.
  assert (L3 : live s3 = live s) by (cbn; by rewrite (q_live _ _ (quiet_trans _ _ _ Q1 Q2))). clearbody s3.
  apply wp_bind, wp_set_reg. intros s4 Q4 _ _ _. apply wp_bind, wp_set_sccr. intros s5 Q5 _ _ _. apply wp_bind, wp_set_reg. intros s6 Q6 _ _ _.
  apply wp_bind, wp_set_reg. intros s7 Q7 _ _ _. apply wp_bind, wp_set_reg. intros s8 Q8 _ _ _.
  pose proof (quiet_trans _ _ _ Q4 (quiet_trans _ _ _ Q5 (quiet_trans _ _ _ Q6 (quiet_trans _ _ _ Q7 Q8)))) as [E1 E2 E3 _].
  apply wp_bind, wp_jiffies, wp_bind, wp_set_dev. rewrite E1, D3.
  apply wp_bind, (wp_mono _ _ _ _ (set_state_spec HZ IFD_FSM_DISABLE (mkS _ _ _ _ _ _) ltac:(cbn [dev]; apply expires_inv, initial_inv) ltac:(done))).
  intros r s9 [[I9 [C1 C2 _ _ _ C6 _]] [(_ & F9 & _)|(_ & [=] & _)]]. apply wp_ret, wp_ret. cbn in C1, C2, C6. split; [done|]. split; [done|]. split; [done|]. split; [done|]. split; [done|congruence].
Qed.
End probe.

(** ** Sequences of requests *)

(** What can happen to a reader that is open: time passes, the timer runs, the
    device file is opened and closed, a request. *)
Inductive scd_op :=
| TElapse (d : Z)
| TTimer
| TOpen
| TRelease
| TIoctl (cmd : Z) (arg : scd_arg).

Definition byteb (x : Z) : bool := (0 <=? x) && (x <? 256).

Lemma bytesb_ok l : forallb byteb l = true -> Forall is_byte l.
Proof.
  intros H. apply Forall_forall. intros x Hx. rewrite forallb_forall in H. specialize (H x Hx).
  unfold byteb in H. unfold is_byte. lia.
Qed.

Section requests.
Context {env : ScdEnv}.
Variable HZ sizeof_sc_buff : Z.

(** The bytes that a read finds. *)
Definition queued (s : scd_st) : list Z := rx s ++ arrive (now s) ++ arrive (S (now s)).

(** Which requests are considered: the clock is not 0, neither as a parameter
    nor as what it was set to; there is memory for a read, and fewer than 256 bytes
    wait; a message lies in
    the process with the length given; no wait for a card. *)
Definition scd_allowed (o : scd_op) (s : scd_st) : bool :=
  match o with
  | TIoctl cmd arg =>
      if cmd =? SCD_SETPARAM then match a_param arg with Some p => 0 <? p_clk p | None => true end
      else if cmd =? SCD_GETPARAM then negb (pre_clock_div (dev s) =? 0)
      else if cmd =? SCD_POLL_CARD_STATUS_CHANGE then false
      else if cmd =? SCD_READ then
        forallb byteb (queued s) && (Zlen (queued s) <? 256) && (sizeof_sc_buff + Zlen (queued s) <? 2147483648) &&
        match queued s, alloc_scb sizeof_sc_buff (kmalloc_at (S (S (now s)))) (Zlen (queued s)) with _ :: _, None => false | _, _ => true end
      else if cmd =? SCD_WRITE then
        match a_length arg with
        | Some n => (0 <=? n) && (sizeof_sc_buff + n <? 2147483648) && match a_data arg with Some l => n =? Zlen l | None => true end
        | None => true
        end
      else true
  | _ => true
  end.

Definition scd_run_op (o : scd_op) : SC (Z * scd_reply) :=
  match o with
  | TElapse d => _ ← elapse (Z.max 0 d); mret (0, RNone)
  | TTimer => _ ← mars_scd_timer HZ; mret (0, RNone)
  | TOpen => r ← scd_dev_open HZ; mret (r, RNone)
  | TRelease => r ← scd_dev_release HZ; mret (r, RNone)
  | TIoctl cmd arg => scd_dev_ioctl HZ sizeof_sc_buff 0 cmd arg
  end.

(** The results of the requests, up to the first that is not allowed. *)
Fixpoint scd_run (ops : list scd_op) (s : scd_st) : res (list (Z * scd_reply) * scd_st) :=
  match ops with
  | [] => Ret ([], s)
  | o :: ops' =>
      if scd_allowed o s then
        '(r, s) ← scd_run_op o s;
        '(rs, s) ← scd_run ops' s;
        Ret (r :: rs, s)
      else Ret ([], s)
  end.

Hypothesis HHZ : 10 <= HZ <= 1000000.
Hypothesis Hbrisk : brisk.
Hypothesis Hsz : 0 <= sizeof_sc_buff.
Hypothesis Hk : forall t, kmalloc_ok (kmalloc_at t).

Lemma wp_reply (m : SC Z) s : wp m s (fun _ s' => SInv (dev s')) -> wp (r ← m; mret (r, RNone)) s (fun _ s' => SInv (dev s')).
Proof. intros H. apply wp_bind, (wp_mono _ _ _ _ H). intros r s' Hi. by apply wp_ret. Qed.

Lemma write_inv n o s : SInv (dev s) -> 0 <= n -> sizeof_sc_buff + n < 2147483648 -> (forall l, o = Some l -> n = Zlen l) ->
  wp (scd_write_msg HZ sizeof_sc_buff n o) s (fun _ s' => SInv (dev s')).
Proof.
  intros Hi Hn Hb Ho. destruct o as [l|].
  - specialize (Ho l eq_refl). destruct (Z_le_gt_dec (u8 n) 32) as [Hu|Hu].
    { apply (wp_mono _ _ _ _ (scd_write_spec HZ Hbrisk sizeof_sc_buff Hsz Hk l n s Hi Ho Hb Hu)). by intros r s' (I & _). }
    unfold scd_write_msg. apply wp_bind, scb_alloc_spec; [done|done|done|done|intros s1 Q1 _; apply wp_ret; by rewrite (q_dev _ _ Q1)|].
    intros b s1 D1 _ _ _ _ _ Hv. destruct (written_buff sizeof_sc_buff b n l Hv Ho Hb) as (m & Em & Elen & _). destruct (scb_put b n) as [p b'] eqn:Ep. cbn [fst snd] in Em.
    apply wp_bind, (wp_lift _ _ _ _ Em), wp_bind, (wp_mono _ _ _ _ (xmit_long HZ (set_buf b' m) s1 ltac:(by rewrite D1) ltac:(cbn; lia))).
    intros [r b2] s2 [_ K]. apply wp_ret, K.
  - unfold scd_write_msg. apply wp_bind, scb_alloc_spec; [done|done|done|done|intros s1 Q1 _; apply wp_ret; by rewrite (q_dev _ _ Q1)|].
    intros b s1 D1 _ _ _ _ _ _. destruct (scb_put b n). apply wp_ret. by rewrite D1.
Qed.

Lemma read_inv n s : SInv (dev s) -> scd_allowed (TIoctl SCD_READ (mkScdArg None (Some n) None)) s = true ->
  wp (scd_read_msg sizeof_sc_buff n) s (fun _ s' => SInv (dev s')).
Proof.
  intros Hi Ha. cbn [scd_allowed Z.eqb Pos.eqb SCD_READ SCD_SETPARAM SCD_GETPARAM SCD_POLL_CARD_STATUS_CHANGE] in Ha.
  apply andb_true_iff in Ha as [[[H1%bytesb_ok H2%Z.ltb_lt]%andb_true_iff H3%Z.ltb_lt]%andb_true_iff H4].
  apply (wp_mono _ _ _ _ (scd_read_spec sizeof_sc_buff Hsz Hk n s Hi H1 H2 H3 ltac:(intros Hq; fold (queued s) in *; destruct (queued s); [done|by destruct (alloc_scb _ _ _)]))).
  intros r s' (K & _). apply K.
Qed.

Lemma poll_refused cmd arg s : scd_allowed (TIoctl cmd arg) s = true -> (cmd =? SCD_POLL_CARD_STATUS_CHANGE) = false.
Proof. intros Ha. destruct (Z.eqb_spec cmd SCD_POLL_CARD_STATUS_CHANGE) as [->|]; done. Qed.

Lemma get_atr_total s : SInv (dev s) -> exists r, mars_scd_get_atr s = Ret (r, s).
Proof.
  intros Hi. destruct (v_atr _ Hi) as [H1 H2]. unfold mars_scd_get_atr, mbind, Drv_bind, get. cbn beta iota. destruct (negb _); [by eexists|].
  unfold lift_res. rewrite load_ok by lia. by eexists.
Qed.

(** A request that is allowed returns, and keeps the invariant. *)
Lemma ioctl_inv cmd arg s : SInv (dev s) -> scd_allowed (TIoctl cmd arg) s = true ->
  wp (scd_dev_ioctl HZ sizeof_sc_buff 0 cmd arg) s (fun _ s' => SInv (dev s')).
Proof.
  intros Hi Ha. pose proof (poll_refused _ _ _ Ha) as Hpoll. unfold scd_dev_ioctl. pose proof (v_div _ Hi) as Hd.
  destruct (Z.eqb_spec cmd SCD_SETPARAM) as [->|_].
  { cbn in Ha. destruct (a_param arg) as [p|]; [|by apply wp_ret]. apply Z.ltb_lt in Ha.
    apply wp_reply, (wp_mono _ _ _ _ (set_param_spec p s Hd Ha)). intros r s' (_ & -> & _). by apply configured_inv. }
  destruct (Z.eqb_spec cmd SCD_GETPARAM) as [->|_].
  { cbn in Ha. apply negb_true_iff, Z.eqb_neq in Ha. apply wp_bind. eexists _, s. split; [by apply get_param_spec|]. cbn [fst]. by apply wp_ret. }
  destruct (cmd =? SCD_ACTIVE); [apply wp_reply, (wp_mono _ _ _ _ (activate_spec HZ HHZ Hbrisk s Hi)); by intros r s' (I & _)|].
  destruct (cmd =? SCD_DEACTIVE); [apply wp_reply, (wp_mono _ _ _ _ (deactivate_spec HZ s Hi)); intros r s' (_ & K & _); apply K|].
  destruct (cmd =? SCD_RESET); [apply wp_reply, (wp_mono _ _ _ _ (reset_spec HZ HHZ Hbrisk s Hi)); by intros r s' (I & _)|].
  destruct (cmd =? SCD_CARD_DETECT); [apply wp_reply, card_detect_spec; intros r s' Q _; by rewrite (q_dev _ _ Q)|].
  rewrite Hpoll. destruct (cmd =? SCD_GET_ATR).
  { destruct (get_atr_total s Hi) as [[r l] E]. apply wp_bind. exists (r, l), s. split; [done|]. destruct (negb _); by apply wp_ret. }
  destruct (Z.eqb_spec cmd SCD_READ) as [->|_]; [destruct (a_length arg) as [n|]; [by apply read_inv|by apply wp_ret]|].
  destruct (Z.eqb_spec cmd SCD_WRITE) as [->|_]; [|by apply wp_ret]. cbn in Ha. destruct (a_length arg) as [n|]; [|by apply wp_ret].
  apply andb_true_iff in Ha as [[H1%Z.leb_le H2%Z.ltb_lt]%andb_true_iff H3]. apply write_inv; [done|done|done|].
  intros l El. rewrite El in H3. by apply Z.eqb_eq.
Qed.

Lemma op_inv o s : SInv (dev s) -> scd_allowed o s = true -> wp (scd_run_op o) s (fun _ s' => SInv (dev s')).
Proof.
  intros Hi Ha. destruct o as [d| | | |cmd arg]; cbn [scd_run_op].
  - by apply wp_bind, wp_modify, wp_ret.
  - apply wp_bind, (wp_mono _ _ _ _ (timer_spec HZ s Hi)). intros _ s' K. apply wp_ret, K.
  - apply wp_reply. unfold scd_dev_open. apply wp_bind, (wp_mono _ _ _ _ (scd_enable_spec HZ 1 s Hi)). intros _ s' [_ K]. apply wp_ret, K.
  - apply wp_reply. unfold scd_dev_release. apply wp_bind, (wp_mono _ _ _ _ (scd_enable_spec HZ 0 s Hi)). intros _ s' [_ K]. apply wp_ret, K.
  - by apply ioctl_inv.
Qed.

(** The run ends with every operation done, or before one that is not allowed. *)
Lemma run_inv ops : forall s, SInv (dev s) -> exists rs s', scd_run ops s = Ret (rs, s') /\ SInv (dev s') /\
  match ops !! length rs with Some o => scd_allowed o s' = false | None => length rs = length ops end.
Proof.
  induction ops as [|o ops IH]; intros s Hi; cbn [scd_run]; [by eexists _, _|].
  destruct (scd_allowed o s) eqn:Ha; [|exists [], s; done].
  destruct (op_inv o s Hi Ha) as (r & s1 & E1 & I1). destruct (IH s1 I1) as (rs & s2 & E2 & I2 & H2).
  exists (r :: rs), s2. rewrite E1. cbn [mbind res_bind]. rewrite E2. split; [done|]. split; [done|]. cbn [length lookup list_lookup].
  by destruct (ops !! length rs); [|rewrite H2].
Qed.

End requests.
