(* ===== verification/ScdTheorems.v ===== *)
(** * The smart card reader: properties *)
From stdpp Require Import base tactics list numbers option.
From Stdlib Require Import ZArith Lia.
From S2P Require Import Prelude Driver Buff ScBuff ScdAtr Scd ScdProofs ScdOps ScdRuns.

Section claims.
Context {env : ScdEnv}.
Variables HZ sizeof_sc_buff : Z.

Definition param_arg (p : scd_param) : scd_arg := mkScdArg (Some p) None None.
Definition message_arg (n : Z) (l : list Z) : scd_arg := mkScdArg None (Some n) (Some l).
Definition length_arg (n : Z) : scd_arg := mkScdArg None (Some n) None.
Definition no_arg : scd_arg := mkScdArg None None None.

(** C26: the reader is safe to use.  Whatever the controller and the card
    answer, and however the polls fall, a reader that has been found runs any
    sequence of polls, opens, closes and allowed requests: each returns, no array of
    the driver is accessed outside its bounds, and the invariant holds at the end;
    in particular a card is active only with an answer that has all its bytes - its
    check byte may be wrong ([atr_crc_not_reported]) - and was taken apart, and the
    divisor of the clock is a byte.  The run stops before the first request that is
    not allowed ([scd_allowed]): a clock of 0 and a query of a clock whose divisor
    was stored as 0, which divide by zero ([scd_clock_divides_by_zero]), a read
    without memory or when 256 bytes or more wait, a message that does not lie in the
    process, a wait for a card. *)
Theorem scd_safe ops n s :
  10 <= HZ <= 1000000 -> brisk -> 0 <= sizeof_sc_buff -> (forall t, kmalloc_ok (kmalloc_at t)) -> n = 0 \/ n = 1 ->
  exists s1 rs s', ops_probe HZ (0x12830000 + n) true s = Ret (0, s1) /\ scd_run HZ sizeof_sc_buff ops s1 = Ret (rs, s') /\ SInv (dev s') /\
    match ops !! length rs with Some o => scd_allowed sizeof_sc_buff o s' = false | None => length rs = length ops end.
Proof.
  intros H1 H2 H3 H4 Hn. destruct (probe_spec HZ n s Hn) as (r & s1 & E & -> & I1 & _).
  destruct (run_inv HZ sizeof_sc_buff H1 H2 H3 H4 ops s1 I1) as (rs & s' & H). by exists s1, rs, s'.
Qed.

(** C27: the first answer is read.  A reset of a card that is present, followed within
    a second by a poll that finds the whole answer [x], of three bytes or more, in
    the receive queue, makes the card active; the answer that [mars_scd_get_atr] then
    gives is the bytes the card sent, and the fields of [atr_info] are those of the
    answer.  The stored answer and its fields are still clear, as after the reader
    has been found: nothing clears them, and what an earlier card left there can
    make the answer of the next one fail ([atr_stale_info]). *)
Theorem scd_reset_reads_answer x d s e :
  0 <= HZ <= 1000000 -> 0 <= d <= HZ ->
  well_formed x -> 3 <= Zlen (encode x) -> SInv (dev s) -> fsm (dev s) <> IFD_FSM_RESET -> atr_data (atr (dev s)) = replicate 32 0 -> fresh_info (atr_info (dev s)) ->
  (forall t, Z.land (u32 (reg_at t MIS_ISR)) (MIS_SC_ISR (ch_id (dev s))) <> 0) ->
  (forall t, u32 (reg_at t (SC_BASE (ch_id (dev s)) + SCIRSR)) = e) ->
  has e SC_PRES = true -> has e SC_RXP_INT = false -> has e SC_RCV_INT = true -> has e SC_ATRS_INT = true ->
  (forall t, (now s + 3 <= t)%nat -> arrive t = if decide (t = now s + 3)%nat then encode x else []) ->
  exists s', (_ ← mars_scd_set_state HZ IFD_FSM_RESET; _ ← elapse d; _ ← mars_scd_timer HZ; mars_scd_get_atr) s = Ret ((0, encode x), s') /\
    fsm (dev s') = IFD_FSM_ACTIVE /\ decoded x (atr_info (dev s')).
Proof.
  intros H1 H2 H3 H4 H5 H6 H7 H8 H9 H10 H11 H12 H13 H14 H15.
  destruct (reset_answer HZ x d s e H1 H2 H3 H4 H5 H6 H7 H8 H9 H10 H11 H12 H13 H14 H15) as (r & s' & E & -> & _ & F & D). by exists s'.
Qed.

(** an answer that is not there at the first poll is lost.  The time limit
    of a reset is one second, and so is the interval of the timer that polls:
    a poll more than a second after the reset leaves the reader idle, whatever
    has arrived and whatever the controller says. *)
Theorem scd_late_poll_fails d s :
  0 <= HZ <= 1000000 -> SInv (dev s) -> fsm (dev s) <> IFD_FSM_RESET -> HZ < d < 2147483648 ->
  (forall t, Z.land (u32 (reg_at t MIS_ISR)) (MIS_SC_ISR (ch_id (dev s))) <> 0) ->
  exists s', (_ ← mars_scd_set_state HZ IFD_FSM_RESET; _ ← elapse d; mars_scd_timer HZ) s = Ret (tt, s') /\ fsm (dev s') = IFD_FSM_IDEL.
Proof.
  intros H1 H2 H3 H4 H5. destruct (late_reset HZ d s H1 H2 H3 H4 H5) as ([] & s' & E & _ & F). by exists s'.
Qed.

(** a reset returns.  Whatever the controller does, [SCD_RESET] comes back
    after at most [reset_fuel] turns of its waiting loop, with 0 and an active
    card whose answer is complete, or with -1 and an idle reader; clock, rate
    and parity are as before. *)
Theorem scd_reset_returns s :
  10 <= HZ <= 1000000 -> brisk -> SInv (dev s) ->
  exists r s', scd_dev_ioctl HZ sizeof_sc_buff 0 SCD_RESET no_arg s = Ret ((r, RNone), s') /\ cfg (dev s') = cfg (dev s) /\ live s' = live s /\
    (r = 0 /\ fsm (dev s') = IFD_FSM_ACTIVE /\ answered (dev s') \/ r = -1 /\ fsm (dev s') = IFD_FSM_IDEL).
Proof.
  intros H1 H2 Hi. destruct (reset_spec HZ H1 H2 s Hi) as (r & s' & E & I & C & L & H). exists r, s'.
  split; [cbn [scd_dev_ioctl Z.eqb Pos.eqb SCD_RESET SCD_SETPARAM SCD_GETPARAM SCD_ACTIVE SCD_DEACTIVE]; unfold mbind, Drv_bind; by rewrite E|].
  split; [done|]. split; [done|]. destruct H as [[-> F]|[-> F]]; [left|by right]. split; [done|]. split; [done|]. by apply (v_active _ I).
Qed.

(** what a write sends.  [SCD_WRITE] with [n] bytes gives the controller a
    reset of its queues, then the first [n mod 256] bytes of the message in
    order, then the start of the transmission, and returns 0, or it returns
    -ENOMEM and has sent nothing; [n mod 256] is at most 32.  The length of the
    message buffer is kept in a byte, so a message of 256 bytes or more is cut
    without an error; and the buffer is never released. *)
Theorem scd_write_sends n bs s :
  brisk -> 0 <= sizeof_sc_buff -> (forall t, kmalloc_ok (kmalloc_at t)) ->
  SInv (dev s) -> n = Zlen bs -> sizeof_sc_buff + n < 2147483648 -> u8 n <= 32 ->
  exists r s', scd_dev_ioctl HZ sizeof_sc_buff 0 SCD_WRITE (message_arg n bs) s = Ret ((r, RNone), s') /\
    (r = 0 /\ live s' = live s + 1 /\ tx_writes (SC_BASE (ch_id (dev s))) (firstn (Z.to_nat (u8 n)) bs) (out s) (out s') \/
     r = - ENOMEM /\ live s' = live s /\ alloc_scb sizeof_sc_buff (kmalloc_at (now s)) n = None).
Proof.
  intros H1 H2 H3 Hi Hn Hs Hu. destruct (scd_write_spec HZ H1 sizeof_sc_buff H2 H3 bs n s Hi Hn Hs Hu) as ([r y] & s' & E & _ & _ & Hr). exists r, s'.
  split; [|exact Hr]. cbn [scd_dev_ioctl Z.eqb Pos.eqb SCD_WRITE message_arg a_length a_data]. assert (y = RNone) as ->; [|exact E].
  clear - E. revert E. unfold scd_write_msg, mbind, Drv_bind. destruct (scb_alloc sizeof_sc_buff n s) as [[[b|] s1]| |]; [|by intros [= _ <- _]|done..].
  destruct (scb_put b n) as [p b']. unfold lift_res. destruct (bstore _ _ _); [|done..]. destruct (mars_scd_xmit _ _ _) as [[[r' b2] s2]| |]; [|done..]. by intros [= _ <- _].
Qed.

(** what a read gives.  [SCD_READ] takes everything the receive queue holds:
    with room for it in the message of the process the bytes are given in the
    order they arrived and their number is returned; an empty queue is
    -EFAULT; and with too little room -ENOMEM is returned and the bytes are
    lost: what is left in the queue has arrived later. *)
Theorem scd_read_gives n s :
  0 <= sizeof_sc_buff -> (forall t, kmalloc_ok (kmalloc_at t)) -> SInv (dev s) ->
  Forall is_byte (queued s) -> Zlen (queued s) < 256 -> sizeof_sc_buff + Zlen (queued s) < 2147483648 ->
  (queued s <> [] -> alloc_scb sizeof_sc_buff (kmalloc_at (S (S (now s)))) (Zlen (queued s)) <> None) ->
  exists s', scd_dev_ioctl HZ sizeof_sc_buff 0 SCD_READ (length_arg n) s =
      Ret (if Zlen (queued s) =? 0 then (- EFAULT, RNone) else if Zlen (queued s) >? n then (- ENOMEM, RNone) else (Zlen (queued s), RBytes (queued s)), s') /\
    live s' = live s /\ exists k, rx s' = arrivals (S (S (now s))) k.
Proof.
  intros H1 H2 Hi Hb Hq Hs Ha. destruct (scd_read_spec sizeof_sc_buff H1 H2 n s Hi Hb Hq Hs Ha) as (r & s' & E & [_ K] & Hr & Hk). exists s'.
  split; [|split; [by apply K|done]]. unfold queued. rewrite <- Hr. exact E.
Qed.

(** parameters survive.  [SCD_SETPARAM] followed by [SCD_GETPARAM] gives a
    clock at least as fast as was asked for, the time unit rounded down to a
    multiple of 31, and the parity as 0 or 1, when the divisor of the clock is
    a byte other than 0. *)
Theorem scd_param_roundtrip p s :
  SInv (dev s) -> 0 < p_clk p -> 0 <= p_etu p < W32 -> 0 < SYSTEM_CLK / p_clk p < 256 ->
  exists q s', (_ ← scd_dev_ioctl HZ sizeof_sc_buff 0 SCD_SETPARAM (param_arg p); scd_dev_ioctl HZ sizeof_sc_buff 0 SCD_GETPARAM no_arg) s = Ret ((0, RParam q), s') /\
    p_clk q = SYSTEM_CLK / (SYSTEM_CLK / p_clk p) /\ p_clk p <= p_clk q /\ p_etu q = 31 * (p_etu p / 31) /\ p_etu p - 31 < p_etu q <= p_etu p /\
    p_parity q = (if p_parity p =? 0 then 0 else 1).
Proof.
  intros Hi Hc He Hd. pose proof (v_div _ Hi) as Hdiv. destruct (set_param_spec p s Hdiv Hc) as (r & s' & E & -> & D & _).
  eexists (mkParam _ _ _), s'. split.
  - unfold mbind at 1, Drv_bind at 1. cbn [scd_dev_ioctl Z.eqb Pos.eqb SCD_SETPARAM SCD_GETPARAM param_arg a_param]. unfold mbind, Drv_bind. rewrite E.
    unfold mret, Drv_ret. rewrite get_param_spec; [reflexivity|by rewrite D|]. rewrite D. cbn. unfold u8. rewrite Z.mod_small; lia.
  - cbn [p_clk p_etu p_parity]. rewrite D. cbn [configured with_parity with_baud with_pre pre_clock_div baud_div1 baud_div2 parity].
    replace (u8 (SYSTEM_CLK / p_clk p)) with (SYSTEM_CLK / p_clk p) by (unfold u8; rewrite Z.mod_small; lia).
    rewrite (u32_small (p_etu p)) by done. pose proof (Z.mul_div_le (p_etu p) 31 ltac:(lia)). pose proof (Z.mul_succ_div_gt (p_etu p) 31 ltac:(lia)).
    rewrite u32_small by (unfold is_u32, W32 in *; lia). split; [done|]. split; [|split; [done|split; [lia|done]]].
    apply Z.div_le_lower_bound; [lia|]. rewrite Z.mul_comm. apply Z.mul_div_le. lia.
Qed.

(** a clock that breaks the reader.  The limits of the clock are checked
    after the divisor has been computed and do not reach it: a clock above
    27 MHz, or one whose divisor is a multiple of 256, is accepted with 0, and
    the next [SCD_GETPARAM] divides by zero. *)
Theorem scd_clock_divides_by_zero p s :
  SInv (dev s) -> 0 < p_clk p -> u8 (SYSTEM_CLK / p_clk p) = 0 ->
  exists s', scd_dev_ioctl HZ sizeof_sc_buff 0 SCD_SETPARAM (param_arg p) s = Ret ((0, RNone), s') /\
    scd_dev_ioctl HZ sizeof_sc_buff 0 SCD_GETPARAM no_arg s' = Fault.
Proof.
  intros Hi Hc Hu. pose proof (v_div _ Hi) as Hdiv. destruct (set_param_spec p s Hdiv Hc) as (r & s' & E & -> & D & _). exists s'.
  cbn [scd_dev_ioctl Z.eqb Pos.eqb SCD_SETPARAM SCD_GETPARAM param_arg a_param]. unfold mbind, Drv_bind. rewrite E. split; [done|].
  rewrite get_param_fault; [done|]. rewrite D. exact Hu.
Qed.
End claims.

(** ** A reader with a card *)

(** The card is present and sends the answer [demo_answer]. *)
Definition demo_env : ScdEnv := {|
  reg_at := fun _ a => if a =? MIS_ISR then 0x03000000 else 0x10082;
  arrive := fun t => if decide (t = 3)%nat then encode demo_answer else [];
  naps := fun _ => [];
  kmalloc_at := fun _ => demo_kmalloc
|}.

Definition demo_reader (x : IFD_FSM) (q : list Z) : scd_st := mkS (mkScd 0 x 1 8 12 31 1 init_atr zero_info 0 0 0) q [] 0 0 0.

Lemma demo_inv x q : x <> IFD_FSM_ACTIVE -> SInv (dev (demo_reader x q)).
Proof. intros Hx. by split. Qed.

Lemma demo_brisk : @brisk demo_env.
Proof. intros t. cbn. lia. Qed.

Lemma demo_memory t : kmalloc_ok (@kmalloc_at demo_env t).
Proof. apply demo_kmalloc_ok. Qed.

Lemma scd_safe_witness :
  exists s1 rs s', @ops_probe demo_env 100 0x12830001 true (demo_reader IFD_FSM_UNKNOWN []) = Ret (0, s1) /\
    @scd_run demo_env 100 44 [TOpen; TIoctl SCD_CARD_DETECT no_arg; TIoctl SCD_SETPARAM (param_arg (mkParam 0 372 1))] s1 = Ret (rs, s') /\ SInv (dev s') /\
    match [TOpen; TIoctl SCD_CARD_DETECT no_arg; TIoctl SCD_SETPARAM (param_arg (mkParam 0 372 1))] !! length rs with
    | Some o => @scd_allowed demo_env 44 o s' = false
    | None => length rs = 3%nat
    end.
Proof.
  apply (@scd_safe demo_env 100 44 [TOpen; TIoctl SCD_CARD_DETECT no_arg; TIoctl SCD_SETPARAM (param_arg (mkParam 0 372 1))] 1 (demo_reader IFD_FSM_UNKNOWN [])); [lia|apply demo_brisk|lia|apply demo_memory|by right].
Defined.

Lemma scd_reset_reads_answer_witness :
  exists s', (_ ← @mars_scd_set_state demo_env 100 IFD_FSM_RESET; _ ← elapse 60; _ ← @mars_scd_timer demo_env 100; mars_scd_get_atr) (demo_reader IFD_FSM_IDEL []) =
      Ret ((0, encode demo_answer), s') /\
    fsm (dev s') = IFD_FSM_ACTIVE /\ decoded demo_answer (atr_info (dev s')).
Proof.
  apply (@scd_reset_reads_answer demo_env 100 demo_answer 60 (demo_reader IFD_FSM_IDEL []) 0x10082);
    [lia|lia|apply demo_answer_wf|vm_compute; discriminate|by apply demo_inv|done|done|by repeat split|done|done|done|done|done|done|done].
Defined.

Lemma scd_late_poll_fails_witness :
  exists s', (_ ← @mars_scd_set_state demo_env 100 IFD_FSM_RESET; _ ← elapse 101; @mars_scd_timer demo_env 100) (demo_reader IFD_FSM_IDEL []) = Ret (tt, s') /\
    fsm (dev s') = IFD_FSM_IDEL.
Proof.
  apply (@scd_late_poll_fails demo_env 100 101 (demo_reader IFD_FSM_IDEL [])); [lia|by apply demo_inv|done|lia|done].
Defined.

Lemma scd_reset_returns_witness :
  exists r s', @scd_dev_ioctl demo_env 100 44 0 SCD_RESET no_arg (demo_reader IFD_FSM_IDEL []) = Ret ((r, RNone), s') /\
    cfg (dev s') = (0, 8, 12, 31, 1) /\ live s' = 0 /\
    (r = 0 /\ fsm (dev s') = IFD_FSM_ACTIVE /\ answered (dev s') \/ r = -1 /\ fsm (dev s') = IFD_FSM_IDEL).
Proof.
  apply (@scd_reset_returns demo_env 100 44 (demo_reader IFD_FSM_IDEL [])); [lia|apply demo_brisk|by apply demo_inv].
Defined.

(** 258 bytes, of which two are sent. *)
Lemma scd_write_sends_witness :
  exists r s', @scd_dev_ioctl demo_env 100 44 0 SCD_WRITE (message_arg 258 (replicate 258 7)) (demo_reader IFD_FSM_IDEL []) = Ret ((r, RNone), s') /\
    (r = 0 /\ live s' = 0 + 1 /\ tx_writes (SC_BASE 0) [7; 7] [] (out s') \/
     r = - ENOMEM /\ live s' = 0 /\ @alloc_scb 44 (@kmalloc_at demo_env 0) 258 = None).
Proof.
  apply (@scd_write_sends demo_env 100 44 258 (replicate 258 7) (demo_reader IFD_FSM_IDEL []));
    [apply demo_brisk|lia|apply demo_memory|by apply demo_inv|reflexivity|lia|vm_compute; discriminate].
Defined.

Lemma scd_read_gives_witness :
  exists s', @scd_dev_ioctl demo_env 100 44 0 SCD_READ (length_arg 8) (demo_reader IFD_FSM_IDEL [144; 0]) = Ret ((2, RBytes [144; 0]), s') /\
    live s' = 0 /\ exists k, rx s' = @arrivals demo_env 2 k.
Proof.
  apply (@scd_read_gives demo_env 100 44 8 (demo_reader IFD_FSM_IDEL [144; 0]));
    [lia|apply demo_memory|by apply demo_inv|repeat constructor; unfold is_byte; lia|reflexivity|reflexivity|done].
Defined.

Lemma scd_param_roundtrip_witness :
  exists q s', (_ ← @scd_dev_ioctl demo_env 100 44 0 SCD_SETPARAM (param_arg (mkParam 5000000 372 2)); @scd_dev_ioctl demo_env 100 44 0 SCD_GETPARAM no_arg)
      (demo_reader IFD_FSM_IDEL []) = Ret ((0, RParam q), s') /\
    p_clk q = 5400000 /\ 5000000 <= p_clk q /\ p_etu q = 372 /\ 372 - 31 < p_etu q <= 372 /\ p_parity q = 1.
Proof.
  apply (@scd_param_roundtrip demo_env 100 44 (mkParam 5000000 372 2) (demo_reader IFD_FSM_IDEL []));
    [by apply demo_inv|done|cbn; unfold W32; lia|vm_compute; split; reflexivity].
Defined.

Lemma scd_clock_divides_by_zero_witness :
  exists s', @scd_dev_ioctl demo_env 100 44 0 SCD_SETPARAM (param_arg (mkParam 105468 372 1)) (demo_reader IFD_FSM_IDEL []) = Ret ((0, RNone), s') /\
    @scd_dev_ioctl demo_env 100 44 0 SCD_GETPARAM no_arg s' = Fault.
Proof.
  apply (@scd_clock_divides_by_zero demo_env 100 44 (mkParam 105468 372 1) (demo_reader IFD_FSM_IDEL [])); [by apply demo_inv|done|reflexivity].
Defined.
