(* ===== verification/Md.v ===== *)
(** * The move engine: [drivers/md.c]

    The driver writes commands of four words into a ring in memory and moves
    the write pointer of the engine; the engine executes them in the background
    and counts them.  On top of this, memory copies are tracked in a table of
    64 tasks that hold the DMA mappings until the copy is done.

    The engine is not code of the repository.  It is described by what the
    driver relies on: as long as its two pointers differ, it executes the
    command at the read pointer, moves the pointer behind it and counts the
    command.  When it does so is a parameter: [turns t] commands before the
    [t]-th access of the driver, any number of them at any access. *)
From stdpp Require Import base tactics list numbers option.
From Stdlib Require Import ZArith Lia.
From S2P Require Import Prelude Driver.

(** ** Surroundings *)

(** [cntl_at], [status_at]: what the control and the status register answer;
    [dma_map]: the bus address of a kernel address; [vma_dvr]: [find_extend_vma]
    finds an area of the process at the address, with the flag [VM_DVR]. *)
Class MdEnv := {
  turns : nat -> nat;
  cntl_at : nat -> Z;
  status_at : nat -> Z;
  dma_map : Z -> Z;
  vma_dvr : Z -> bool
}.

Definition SMQ_COMMAND_ENTRIES : Z := 4096.
Definition MAX_COPY_TASK : Z := 64.
Definition MOVE_DATA_SS : Z := 0x05.
Definition SMQ_CLR_WRITE_DATA : Z := 0.
Definition SMQ_SET_WRITE_DATA : Z := 1.
Definition SMQ_GO : Z := 0x02.
Definition SMQ_CMD_SWAP : Z := 0x04.

(** [ring]: the command buffer; [executed]: the commands done, oldest first;
    [now]: the number of accesses so far; [go]: the engine is switched on.  A
    write to CNTL sets the bits given if its lowest bit is set, and clears them
    otherwise. *)
Record md_hw := mkHw {
  rdp : Z; wrp : Z; hbase : Z; hlimit : Z; inst : Z;
  ring : list Z; executed : list (list Z); now : nat; go : bool
}.

Definition slot (r : list Z) (i : Z) : list Z := firstn 4 (skipn (Z.to_nat i) r).

Definition engine_step (h : md_hw) : md_hw :=
  if negb (go h) || (rdp h =? wrp h) then h
  else
    let r := rdp h + 16 in
    mkHw (if r >=? hlimit h then hbase h else r) (wrp h) (hbase h) (hlimit h) (u32 (inst h + 1))
      (ring h) (executed h ++ [slot (ring h) ((rdp h - hbase h) / 4)]) (now h) (go h).

Fixpoint engine (n : nat) (h : md_hw) : md_hw :=
  match n with O => h | S n' => engine n' (engine_step h) end.

(** ** The state of the driver *)

Record md_copy_t := mkCopy {
  c_dst : Z; c_src : Z; c_len : Z; c_dir : Z;
  copy_id : Z; request_id : Z; dma_dst : Z; dma_src : Z
}.
Definition no_copy : md_copy_t := mkCopy 0 0 0 0 0 0 0 0.

#[export] Instance md_copy_eq_dec : EqDecision md_copy_t.
Proof. solve_decision. Defined.

Record md_dev := mkMd {
  CmdBuf : Z; CmdBase : Z; CmdLimit : Z; wrptr : Z; v_to_p_offset : Z; size : Z;
  sw_low : Z; sw_high : Z; locked : bool; suspended : Z;
  copy_counter : Z; finished_copy_counter : Z; copy_task : list md_copy_t
}.

(** A DMA mapping: bus address, length and direction. *)
Inductive dma_dir := DMA_TO_DEVICE | DMA_FROM_DEVICE.

#[export] Instance dma_dir_eq_dec : EqDecision dma_dir.
Proof. solve_decision. Defined.

Definition mapping : Type := Z * Z * dma_dir.

Record st := mkSt { dv : md_dev; hw : md_hw; maps : list mapping }.

Abbreviation D := (Drv st).

Definition set_dv (f : md_dev -> md_dev) : D unit := fun s => Ret (tt, mkSt (f (dv s)) (hw s) (maps s)).
Definition set_hw (f : md_hw -> md_hw) : D unit := fun s => Ret (tt, mkSt (dv s) (f (hw s)) (maps s)).
Definition set_maps (f : list mapping -> list mapping) : D unit := fun s => Ret (tt, mkSt (dv s) (hw s) (f (maps s))).
Definition with_wrptr (v : Z) (d : md_dev) : md_dev :=
  mkMd (CmdBuf d) (CmdBase d) (CmdLimit d) v (v_to_p_offset d) (size d) (sw_low d) (sw_high d) (locked d) (suspended d)
    (copy_counter d) (finished_copy_counter d) (copy_task d).
Definition with_counter (l h : Z) (d : md_dev) : md_dev :=
  mkMd (CmdBuf d) (CmdBase d) (CmdLimit d) (wrptr d) (v_to_p_offset d) (size d) l h (locked d) (suspended d)
    (copy_counter d) (finished_copy_counter d) (copy_task d).
Definition with_lock (b : bool) (d : md_dev) : md_dev :=
  mkMd (CmdBuf d) (CmdBase d) (CmdLimit d) (wrptr d) (v_to_p_offset d) (size d) (sw_low d) (sw_high d) b (suspended d)
    (copy_counter d) (finished_copy_counter d) (copy_task d).
Definition with_state (v : Z) (d : md_dev) : md_dev :=
  mkMd (CmdBuf d) (CmdBase d) (CmdLimit d) (wrptr d) (v_to_p_offset d) (size d) (sw_low d) (sw_high d) (locked d) v
    (copy_counter d) (finished_copy_counter d) (copy_task d).
Definition with_tasks (c f : Z) (t : list md_copy_t) (d : md_dev) : md_dev :=
  mkMd (CmdBuf d) (CmdBase d) (CmdLimit d) (wrptr d) (v_to_p_offset d) (size d) (sw_low d) (sw_high d) (locked d) (suspended d) c f t.

(** [virt_to_phys] of the kernel segment. *)
Definition virt_to_phys (a : Z) : Z := u32 (a - 0x80000000).

Section md.
Context {env : MdEnv}.

(** ** Registers and memory; the engine runs before every access *)

Definition tick : D nat := fun s =>
  let h := engine (turns (now (hw s))) (hw s) in
  Ret (now h, mkSt (dv s) (mkHw (rdp h) (wrp h) (hbase h) (hlimit h) (inst h) (ring h) (executed h) (S (now h)) (go h)) (maps s)).

Definition read_rdp : D Z := _ ← tick; s ← get; mret (rdp (hw s)).
Definition read_wrp : D Z := _ ← tick; s ← get; mret (wrp (hw s)).
Definition read_inst : D Z := _ ← tick; s ← get; mret (inst (hw s)).
Definition read_cntl : D Z := t ← tick; mret (u32 (cntl_at t)).
Definition read_status : D Z := t ← tick; mret (u32 (status_at t)).

Definition write_wrp (v : Z) : D unit :=
  _ ← tick;
  set_hw (fun h => mkHw (rdp h) v (hbase h) (hlimit h) (inst h) (ring h) (executed h) (now h) (go h)).
Definition write_rdp (v : Z) : D unit :=
  _ ← tick;
  set_hw (fun h => mkHw v (wrp h) (hbase h) (hlimit h) (inst h) (ring h) (executed h) (now h) (go h)).
Definition write_inst (v : Z) : D unit :=
  _ ← tick;
  set_hw (fun h => mkHw (rdp h) (wrp h) (hbase h) (hlimit h) v (ring h) (executed h) (now h) (go h)).
Definition write_base (v : Z) : D unit :=
  _ ← tick;
  set_hw (fun h => mkHw (rdp h) (wrp h) v (hlimit h) (inst h) (ring h) (executed h) (now h) (go h)).
Definition write_limit (v : Z) : D unit :=
  _ ← tick;
  set_hw (fun h => mkHw (rdp h) (wrp h) (hbase h) v (inst h) (ring h) (executed h) (now h) (go h)).
Definition write_cntl (v : Z) : D unit :=
  _ ← tick;
  set_hw (fun h => mkHw (rdp h) (wrp h) (hbase h) (hlimit h) (inst h) (ring h) (executed h) (now h)
                     (if Z.land v SMQ_GO =? 0 then go h else negb (Z.land v SMQ_SET_WRITE_DATA =? 0))).

(** A word stored at the address [a] of the command buffer. *)
Definition store_word (a v : Z) : D unit :=
  _ ← tick;
  s ← get;
  let o := a - CmdBuf (dv s) in
  if o mod 4 =? 0 then
    r ← lift_res (wr (ring (hw s)) (o / 4) v);
    set_hw (fun h => mkHw (rdp h) (wrp h) (hbase h) (hlimit h) (inst h) r (executed h) (now h) (go h))
  else fault.

Definition md_lock : D unit :=
  s ← get;
  if locked (dv s) then fault else set_dv (with_lock true).
Definition md_unlock : D unit := set_dv (with_lock false).

(** [dma_map_single], [dma_unmap_single]; only what is mapped can be unmapped. *)
Definition _md_map_single (p len : Z) (dir : dma_dir) : D Z :=
  _ ← set_maps (fun m => (dma_map p, len, dir) :: m);
  mret (dma_map p).

Fixpoint unmap (x : mapping) (m : list mapping) : option (list mapping) :=
  match m with
  | [] => None
  | y :: m' => if decide (x = y) then Some m' else cons y <$> unmap x m'
  end.

Definition _md_unmap_single (p len : Z) (dir : dma_dir) : D unit :=
  s ← get;
  match unmap (p, len, dir) (maps s) with
  | Some m => set_maps (fun _ => m)
  | None => fault
  end.

(** ** Commands *)

Definition md_check_hardware : D unit :=
  cntl ← read_cntl;
  status ← read_status;
  if Z.land cntl 0x02 =? 0 then write_cntl (Z.lor SMQ_GO (Z.lor SMQ_SET_WRITE_DATA SMQ_CMD_SWAP)) else mret tt.

(** [while(1) { rp = readl(IOA_SMQ_CmdRdptr); if (writeptr == rp) break; udelay(1); }] *)
Fixpoint wait_empty (fuel : nat) (writeptr : Z) : D unit :=
  match fuel with
  | O => stuck
  | S fuel' =>
      rp ← read_rdp;
      if writeptr =? rp then mret tt else wait_empty fuel' writeptr
  end.

(** The loop that waits until [nLen] bytes are free. *)
Fixpoint wait_room (fuel : nat) (writeptr nLen sz : Z) : D unit :=
  match fuel with
  | O => stuck
  | S fuel' =>
      rp ← read_rdp;
      let readptr := if rp <=? writeptr then u32 (rp + sz) else rp in
      if u32 (writeptr + nLen) <? readptr then mret tt else wait_room fuel' writeptr nLen sz
  end.

(** The [n] words from word [i] of the command on; the new write pointer. *)
Fixpoint put_words (n : nat) (i : Z) (pBuf : list Z) (pWptr pWptrLimit base : Z) : D Z :=
  match n with
  | O => mret pWptr
  | S n' =>
      w ← lift_res (rd pBuf i);
      _ ← store_word pWptr w;
      let p := u32 (pWptr + 4) in
      put_words n' (i + 1) pBuf (if p >=? pWptrLimit then base else p) pWptrLimit base
  end.

Variable fuel : nat.

(** [pBuf]: the words of the command, [nLen]: its length in bytes. *)
Definition WriteCmd (pBuf : list Z) (nLen : Z) : D Z :=
  _ ← md_lock;
  _ ← md_check_hardware;
  s ← get;
  let d := dv s in
  let pWptrLimit := u32 (CmdBuf d + size d) in
  let pWptr := u32 (CmdBuf d + wrptr d) in
  writeptr ← read_wrp;
  _ ← (if wrptr d + nLen >=? size d then wait_empty fuel writeptr else mret tt);
  _ ← wait_room fuel writeptr nLen (size d);
  pWptr ← put_words (Z.to_nat ((nLen + 3) / 4)) 0 pBuf pWptr pWptrLimit (CmdBuf d);
  _ ← set_dv (fun d => let w := wrptr d + nLen in with_wrptr (if w >=? size d then w - size d else w) d);
  _ ← write_wrp (u32 (pWptr - v_to_p_offset d));
  _ ← set_dv (fun d => let l := u32 (sw_low d + 1) in with_counter l (if l =? 0 then u32 (sw_high d + 1) else sw_high d) d);
  s ← get;
  _ ← md_unlock;
  mret (Z.lor (Z.shiftl (sw_high (dv s)) 32) (sw_low (dv s))).

Definition md_write (buf : list Z) (count : Z) : D Z := WriteCmd buf count.

Definition md_checkfinish (handle : Z) : D bool :=
  let sw_counter := Z.land (u32 handle) 0xFFFF in
  if handle =? 0 then mret true
  else
    v ← read_inst;
    let hw_counter := Z.land v 0xFFFF in
    if (if hw_counter >=? sw_counter then hw_counter - sw_counter <? 0x8000
        else hw_counter + 0x10000 - sw_counter <? 0x8000)
    then mret true
    else
      _ ← md_check_hardware;
      mret false.

(** ** Copy tasks *)

Definition task (i : Z) : D md_copy_t := fun s =>
  match copy_task (dv s) !! Z.to_nat i with Some t => Ret (t, s) | None => Fault end.
Definition set_task (i : Z) (t : md_copy_t) : D unit :=
  set_dv (fun d => with_tasks (copy_counter d) (finished_copy_counter d) (<[Z.to_nat i := t]> (copy_task d)) d).

(** [req]: the index of a task. *)
Definition md_release_copy_request (req : Z) : D unit :=
  t ← task req;
  _ ← (if negb (request_id t =? 0) then
         _ ← _md_unmap_single (dma_src t) (c_len t) DMA_TO_DEVICE;
         _md_unmap_single (dma_dst t) (c_len t) DMA_FROM_DEVICE
       else mret tt);
  set_task req no_copy.

(** [for (; finished < copy_counter; finished++)]; at most [n] turns. *)
Fixpoint release_loop (n : nat) : D unit :=
  match n with
  | O => mret tt
  | S n' =>
      s ← get;
      let i := finished_copy_counter (dv s) mod MAX_COPY_TASK in
      t ← task i;
      fin ← md_checkfinish (request_id t);
      if (fin : bool) then
        _ ← md_release_copy_request i;
        _ ← set_dv (fun d => with_tasks (copy_counter d) (u64 (finished_copy_counter d + 1)) (copy_task d) d);
        release_loop n'
      else mret tt
  end.

Definition md_check_copy_tasks : D unit :=
  s ← get;
  if finished_copy_counter (dv s) <? copy_counter (dv s) then
    _ ← md_lock;
    _ ← release_loop (Z.to_nat (copy_counter (dv s) - finished_copy_counter (dv s)));
    md_unlock
  else mret tt.

Definition md_alloc_copy_request (dst src len dir : Z) : D (option Z) :=
  _ ← md_check_copy_tasks;
  _ ← md_lock;
  s ← get;
  if suspended (dv s) =? 1 then
    _ ← md_unlock;
    mret None
  else
    let i := copy_counter (dv s) mod MAX_COPY_TASK in
    t ← task i;
    r ← (if request_id t =? 0 then
           dd ← _md_map_single dst len DMA_FROM_DEVICE;
           ds ← _md_map_single src len DMA_TO_DEVICE;
           _ ← set_task i (mkCopy dst src len dir (copy_counter (dv s)) (request_id t) dd ds);
           _ ← set_dv (fun d => with_tasks (u64 (copy_counter d + 1)) (finished_copy_counter d) (copy_task d) d);
           mret (Some i)
         else mret None);
    _ ← md_unlock;
    mret r.

(** The length of the next command. *)
Definition piece (addrSrc len : Z) : Z :=
  let bytes_to_next_8bytes_align := Z.land (8 - Z.land addrSrc 7) 7 in
  if Z.land (len - bytes_to_next_8bytes_align) 0xFF =? 8 then 8 else len.

Definition cmd_words (dir addrDst addrSrc tmp : Z) : list Z :=
  [if dir =? 0 then Z.lor MOVE_DATA_SS 0x80 else MOVE_DATA_SS; u32 addrDst; u32 addrSrc; u32 tmp].

(** [while(len) { ... }] *)
Fixpoint copy_loop (n : nat) (req addrDst addrSrc len : Z) : D unit :=
  if len =? 0 then mret tt
  else
    match n with
    | O => stuck
    | S n' =>
        let tmp := piece addrSrc len in
        t ← task req;
        h ← md_write (cmd_words (c_dir t) addrDst addrSrc tmp) 16;
        t ← task req;
        _ ← set_task req (mkCopy (c_dst t) (c_src t) (c_len t) (c_dir t) (copy_id t) h (dma_dst t) (dma_src t));
        copy_loop n' req (u32 (addrDst + tmp)) (u32 (addrSrc + tmp)) (s32 (len - tmp))
    end.

(** A copy takes at most two commands. *)
Definition copy_fuel : nat := 2.

(** [md_copy_start] after the allocation of the task [req]. *)
Definition copy_commands (req len : Z) : D Z :=
  t ← task req;
  _ ← copy_loop copy_fuel req (dma_dst t) (dma_src t) len;
  t ← task req;
  mret (copy_id t).

Definition md_copy_start (dst src len dir : Z) : D Z :=
  r ← md_alloc_copy_request dst src len dir;
  match r with
  | Some req => copy_commands req len
  | None => mret 0
  end.

(** [while(md_checkfinish(request_id)==0) udelay(1);] *)
Fixpoint wait_finish (n : nat) (h : Z) : D unit :=
  match n with
  | O => stuck
  | S n' =>
      fin ← md_checkfinish h;
      if (fin : bool) then mret tt else wait_finish n' h
  end.

Definition md_copy_sync (handle : Z) : D Z :=
  s ← get;
  if handle >=? finished_copy_counter (dv s) then
    _ ← md_lock;
    t ← task (handle mod MAX_COPY_TASK);
    _ ← md_unlock;
    _ ← wait_finish fuel (request_id t);
    _ ← md_check_copy_tasks;
    mret 0
  else mret 0.

Definition md_memcpy (lpDst lpSrc len forward : Z) : D Z :=
  mdh ← md_copy_start lpDst lpSrc len forward;
  if negb (mdh =? 0) then
    _ ← md_copy_sync mdh;
    mret 0
  else mret (-1).

Definition memset_words (lpDst data len : Z) : list Z :=
  [Z.lor MOVE_DATA_SS 0x40; virt_to_phys lpDst; data; u32 len].

Definition md_memset (lpDst data len : Z) : D Z := md_write (memset_words lpDst data len) 16.

(** ** Opening, closing and power management *)

(** [blk]: what [kmalloc] answers for the command buffer (0 is NULL). *)
Definition md_open (blk : Z * list Z) : D unit :=
  _ ← write_cntl (Z.lor SMQ_GO (Z.lor SMQ_CLR_WRITE_DATA SMQ_CMD_SWAP));
  let cached := fst blk in
  let buf := Z.lor (Z.land cached 0x0FFFFFFF) 0xA0000000 in
  let phys := virt_to_phys cached in
  _ ← set_hw (fun h => mkHw (rdp h) (wrp h) (hbase h) (hlimit h) (inst h) (snd blk) (executed h) (now h) (go h));
  _ ← set_dv (fun _ => mkMd buf phys (u32 (phys + SMQ_COMMAND_ENTRIES * 4)) 0 (buf - phys) (SMQ_COMMAND_ENTRIES * 4)
                 0 0 false 0 0 0 (replicate (Z.to_nat MAX_COPY_TASK) no_copy));
  _ ← write_rdp 1;
  s ← get;
  _ ← write_base (CmdBase (dv s));
  _ ← write_limit (CmdLimit (dv s));
  _ ← write_rdp (CmdBase (dv s));
  _ ← write_wrp (CmdBase (dv s));
  _ ← write_inst 0;
  write_cntl (Z.lor SMQ_GO (Z.lor SMQ_SET_WRITE_DATA SMQ_CMD_SWAP)).

(** [while(readl(IOA_SMQ_CmdWrptr) != readl(IOA_SMQ_CmdRdptr)) { ... if (count++ > 300) return; }];
    whether the queue is empty. *)
Fixpoint close_wait (n : nat) : D bool :=
  w ← read_wrp;
  r ← read_rdp;
  if w =? r then mret true
  else match n with O => mret false | S n' => close_wait n' end.

(** Whether the engine was stopped and the device released. *)
Definition md_close : D bool :=
  e ← close_wait 301;
  if (e : bool) then
    _ ← write_cntl (Z.lor SMQ_GO SMQ_CLR_WRITE_DATA);
    mret true
  else mret false.

(** The copies that are left are waited for with the lock held. *)
Fixpoint suspend_loop (n : nat) : D unit :=
  s ← get;
  if finished_copy_counter (dv s) <? copy_counter (dv s) then
    match n with
    | O => stuck
    | S n' =>
        let i := finished_copy_counter (dv s) mod MAX_COPY_TASK in
        t ← task i;
        fin ← md_checkfinish (request_id t);
        if (fin : bool) then
          _ ← md_release_copy_request i;
          _ ← set_dv (fun d => with_tasks (copy_counter d) (u64 (finished_copy_counter d + 1)) (copy_task d) d);
          suspend_loop n'
        else suspend_loop n'
    end
  else mret tt.

Definition md_drv_suspend : D Z :=
  _ ← md_lock;
  _ ← set_dv (with_state 1);
  _ ← suspend_loop fuel;
  v ← read_inst;
  _ ← set_dv (fun d => with_counter v (sw_high d) d);
  _ ← md_unlock;
  mret 0.

Definition md_drv_resume : D Z :=
  _ ← md_lock;
  _ ← set_dv (with_state 0);
  s ← get;
  _ ← write_inst (sw_low (dv s));
  _ ← md_check_hardware;
  _ ← md_unlock;
  mret 0.
End md.

(** ** Which addresses are accepted *)

(** [for (i=1; i<pc; i++)], [n] turns. *)
Fixpoint align_loop (n : nat) (buff phy_addr : Z) : Z :=
  match n with
  | O => 1
  | S n' =>
      if negb (virt_to_phys buff =? phy_addr) then 0
      else align_loop n' (u32 (buff + 4096)) (u32 (phy_addr + 4096))
  end.

(** [PAGE_SIZE] is an unsigned long, and so is the sum. *)
Definition md_check_physical_alignment (buff len : Z) : Z :=
  let pc := Z.shiftr (u32 (len + Z.land buff 4096)) 12 in
  align_loop (Z.to_nat (pc - 1)) buff (virt_to_phys buff).

Definition md_is_valid_address {env : MdEnv} (addr len : Z) : Z :=
  let address := u32 addr in
  if (0x7FFFFFFF <? address) && (address <? 0xC0000000) then md_check_physical_alignment addr (s32 len)
  else if vma_dvr address then 1
  else 0.

(** ** The device file *)

Record MD_COPY_CMD := mkCopyCmd { m_flags : Z; m_dst : Z; m_src : Z; m_len : Z; m_request_id : Z }.

Definition MD_IOCTL_MEM_COPY : Z := 0x1283A001.
Definition MD_IOCTL_MEM_COPY_SYNC : Z := 0x1283A002.
Definition MD_FLAG_NON_BLOCKING : Z := 1.
Definition EFAULT : Z := 14.

(** What is at the address [arg] in the memory of the process: as a command, as
    a handle ([None]: it cannot be read), and whether it can be written. *)
Record user_arg := mkArg { u_cmd : option MD_COPY_CMD; u_handle : option Z; u_writable : bool }.

(** The answer, and the command written back to the process. *)
Definition md_dev_ioctl {env : MdEnv} (fuel : nat) (cmd : Z) (arg : user_arg) : D (Z * option MD_COPY_CMD) :=
  if cmd =? MD_IOCTL_MEM_COPY then
    match u_cmd arg with
    | None => mret (- EFAULT, None)
    | Some c =>
        if (md_is_valid_address (m_dst c) (u32 (m_len c)) =? 0) || (md_is_valid_address (m_src c) (u32 (m_len c)) =? 0)
        then mret (- EFAULT, None)
        else if negb (Z.land (m_flags c) MD_FLAG_NON_BLOCKING =? 0) then
          h ← md_copy_start fuel (m_dst c) (m_src c) (m_len c) 1;
          if h =? 0 then mret (- EFAULT, None)
          else if u_writable arg then mret (0, Some (mkCopyCmd (m_flags c) (m_dst c) (m_src c) (m_len c) h))
          else mret (- EFAULT, None)
        else
          r ← md_memcpy fuel (m_dst c) (m_src c) (m_len c) 1;
          mret (r, None)
    end
  else if cmd =? MD_IOCTL_MEM_COPY_SYNC then
    match u_handle arg with
    | None => mret (- EFAULT, None)
    | Some h =>
        r ← md_copy_sync fuel h;
        mret (r, None)
    end
  else mret (- EFAULT, None).
