(* ===== verification/MdProofs.v ===== *)
(** * The move engine: the ring of commands

    What the driver and the engine keep true about the ring at every access,
    how long the driver can have to wait, and what [WriteCmd] does. *)
From stdpp Require Import base tactics list numbers option.
From Stdlib Require Import ZArith Lia.
From S2P Require Import Prelude Driver Md.

#[local] Ltac Zify.zify_post_hook ::= Z.div_mod_to_equations.

(** ** Total correctness *)

Lemma wp_set_dv f s (Q : unit -> st -> Prop) : Q tt (mkSt (f (dv s)) (hw s) (maps s)) -> wp (set_dv f) s Q.
Proof. intros H. by eexists tt, _. Qed.

Lemma wp_set_hw f s (Q : unit -> st -> Prop) : Q tt (mkSt (dv s) (f (hw s)) (maps s)) -> wp (set_hw f) s Q.
Proof. intros H. by eexists tt, _. Qed.

Lemma wp_set_maps f s (Q : unit -> st -> Prop) : Q tt (mkSt (dv s) (hw s) (f (maps s))) -> wp (set_maps f) s Q.
Proof. intros H. by eexists tt, _. Qed.

(** ** The ring *)

(** 1024 commands of 16 bytes. *)
Definition SLOTS : Z := 1024.

(** [W]: the commands written so far, oldest first. *)
Record HInv (W : list (list Z)) (h : md_hw) : Prop := {
  h_go : go h = true;
  h_ring : Zlen (ring h) = 4096;
  h_base : 0 <= hbase h < 0x40000000;
  h_limit : hlimit h = hbase h + 16384;
  h_done : executed h = firstn (length (executed h)) W;
  h_left : Zlen (executed h) <= Zlen W < Zlen (executed h) + SLOTS;
  h_rdp : rdp h = hbase h + 16 * (Zlen (executed h) mod SLOTS);
  h_wrp : wrp h = hbase h + 16 * (Zlen W mod SLOTS);
  h_inst : inst h = u32 (Zlen (executed h));
  h_slots : forall i, Zlen (executed h) <= i < Zlen W -> W !! Z.to_nat i = Some (slot (ring h) (4 * (i mod SLOTS)))
}.

(** The commands that wait in the ring. *)
Definition pend (W : list (list Z)) (h : md_hw) : Z := Zlen W - Zlen (executed h).

Lemma rdp_wrp W h : HInv W h -> rdp h = wrp h <-> pend W h = 0.
Proof. intros []. unfold pend, SLOTS in *. rewrite h_rdp0, h_wrp0. lia. Qed.

Lemma engine_step_inv W h : HInv W h -> HInv W (engine_step h) /\
  Zlen (executed (engine_step h)) = Zlen (executed h) + (if pend W h =? 0 then 0 else 1) /\
  ring (engine_step h) = ring h /\ hbase (engine_step h) = hbase h /\ now (engine_step h) = now h.
Proof.
  intros Hh. pose proof (rdp_wrp W h Hh) as Hrw. pose proof Hh as []. unfold engine_step. rewrite h_go0. cbn [negb orb].
  destruct (Z.eqb_spec (rdp h) (wrp h)) as [Heq|Hne].
  { destruct (Z.eqb_spec (pend W h) 0) as [_|]; [|by apply Hrw in Heq]. rewrite Z.add_0_r. done. }
  destruct (Z.eqb_spec (pend W h) 0) as [Hp|Hp]; [by apply Hrw in Hp|]. unfold pend, SLOTS in *.
  assert (Hi : Zlen (executed h) <= Zlen (executed h) < Zlen W) by lia. pose proof (h_slots0 _ Hi) as Hs.
  replace ((rdp h - hbase h) / 4) with (4 * (Zlen (executed h) mod 1024)) by (rewrite h_rdp0; lia).
  set (c := slot (ring h) (4 * (Zlen (executed h) mod 1024))) in *.
  assert (Hz : Zlen (executed h ++ [c]) = Zlen (executed h) + 1) by (unfold Zlen; rewrite length_app; cbn; lia).
  split; [|cbn [executed ring hbase now]; by rewrite Hz].
  split; cbn [go ring hbase hlimit executed rdp wrp inst]; unfold SLOTS; rewrite ?Hz; try done; try lia.
  - rewrite length_app. cbn [length]. unfold Zlen in Hs. rewrite Nat2Z.id in Hs. rewrite Nat.add_1_r, (take_S_r _ _ _ Hs). by rewrite <- h_done0.
  - destruct (Z.geb_spec (rdp h + 16) (hlimit h)); lia.
  - rewrite h_inst0. unfold u32, W32. lia.
  - intros i Hi'. apply h_slots0. lia.
Qed.

Lemma engine_inv W n : forall h, HInv W h -> HInv W (engine n h) /\
  Zlen (executed h) + Z.min (Z.of_nat n) (pend W h) <= Zlen (executed (engine n h)) /\
  ring (engine n h) = ring h /\ hbase (engine n h) = hbase h /\ now (engine n h) = now h.
Proof.
  induction n as [|n IH]; intros h Hh; cbn [engine].
  { pose proof (h_left _ _ Hh). unfold pend. split; [done|]. split; [lia|done]. }
  destruct (engine_step_inv W h Hh) as (H1 & H2 & H3 & H4 & H5). destruct (IH _ H1) as (K1 & K2 & K3 & K4 & K5).
  pose proof (h_left _ _ Hh). split; [done|]. split; [|split; [congruence|split; congruence]]. unfold pend in *. destruct (Z.eqb_spec (Zlen W - Zlen (executed h)) 0); lia.
Qed.

(** A slot keeps its words when another one is written. *)
Lemma slot_insert_ne r j x k : 0 <= j -> 0 <= k -> j / 4 <> k -> slot (<[Z.to_nat j := x]> r) (4 * k) = slot r (4 * k).
Proof.
  intros Hj Hk Hne. unfold slot. destruct (Z_lt_ge_dec j (4 * k)); [by rewrite drop_insert_lt by lia|].
  rewrite drop_insert_ge by lia. by rewrite take_insert_ge by lia.
Qed.

Lemma slot_insert4 r k w0 w1 w2 w3 : 0 <= k -> 4 * k + 4 <= Zlen r ->
  slot (<[Z.to_nat (4 * k + 3) := w3]> (<[Z.to_nat (4 * k + 2) := w2]> (<[Z.to_nat (4 * k + 1) := w1]> (<[Z.to_nat (4 * k) := w0]> r)))) (4 * k)
    = [w0; w1; w2; w3].
Proof.
  intros Hk Hl. unfold slot. rewrite !drop_insert_ge by lia.
  replace (Z.to_nat (4 * k + 3) - Z.to_nat (4 * k))%nat with 3%nat by lia. replace (Z.to_nat (4 * k + 2) - Z.to_nat (4 * k))%nat with 2%nat by lia.
  replace (Z.to_nat (4 * k + 1) - Z.to_nat (4 * k))%nat with 1%nat by lia. rewrite Nat.sub_diag.
  assert (Hd : (4 <= length (drop (Z.to_nat (4 * k)) r))%nat) by (rewrite length_drop; unfold Zlen in Hl; lia).
  destruct (drop (Z.to_nat (4 * k)) r) as [|a [|b [|c [|d l]]]]; cbn in Hd; [lia..|]. done.
Qed.

(** ** Waiting *)

Section fair.
Context {env : MdEnv}.

(** Among [dly] accesses in a row there is one before which the engine executes
    a command, if it has one. *)
Definition fair (dly : nat) : Prop := Driver.fair turns dly.

Variable dly : nat.
Hypothesis Hfair : fair dly.

(** Every access brings the end of a wait nearer. *)
Definition left_over (W : list (list Z)) (s : st) : nat := (Z.to_nat (pend W (hw s)) * dly + gap turns dly (now (hw s)))%nat.

(** What happens around the driver while it does nothing but look. *)
Record ran (W : list (list Z)) (s s' : st) : Prop := {
  n_inv : HInv W (hw s');
  n_dv : dv s' = dv s;
  n_maps : maps s' = maps s;
  n_ring : ring (hw s') = ring (hw s);
  n_base : hbase (hw s') = hbase (hw s);
  n_done : Zlen (executed (hw s)) <= Zlen (executed (hw s'));
  n_left : pend W (hw s') = 0 \/ (left_over W s' <= left_over W s)%nat
}.

Lemma ran_refl W s : HInv W (hw s) -> ran W s s.
Proof. intros H. split; [done..|lia|by right]. Qed.

Lemma ran_trans W s1 s2 s3 : ran W s1 s2 -> ran W s2 s3 -> ran W s1 s3.
Proof.
  intros [] []. split; try congruence; try lia. pose proof (h_left _ _ n_inv1). unfold pend in *.
  destruct n_left1 as [?|H1]; [by left|]. destruct n_left0 as [H0|H0]; [left; lia|right; lia].
Qed.

Lemma tick_spec W s : HInv W (hw s) -> wp tick s (fun _ s' => ran W s s' /\ (pend W (hw s') = 0 \/ (left_over W s' < left_over W s)%nat)).
Proof.
  intros Hh. destruct (engine_inv W (turns (now (hw s))) (hw s) Hh) as (H1 & H2 & H3 & H4 & H5).
  eexists _, _. split; [reflexivity|]. set (h := engine _ _) in *.
  assert (Hi : HInv W (mkHw (rdp h) (wrp h) (hbase h) (hlimit h) (inst h) (ring h) (executed h) (S (now h)) (go h))) by (destruct H1; by split).
  pose proof (h_left _ _ Hh). pose proof (h_left _ _ H1).
  assert (Hlt : pend W h = 0 \/ (Z.to_nat (pend W h) * dly + gap turns dly (S (now h)) < Z.to_nat (pend W (hw s)) * dly + gap turns dly (now (hw s)))%nat).
  { rewrite H5. pose proof (gap_lt turns dly Hfair (S (now (hw s)))) as Hg. unfold pend in *.
    destruct (decide (turns (now (hw s)) = O)) as [E|E].
    - pose proof (gap_next turns dly Hfair _ E). assert (Z.to_nat (Zlen W - Zlen (executed h)) <= Z.to_nat (Zlen W - Zlen (executed (hw s))))%nat by lia. right. nia.
    - destruct (Z.eq_dec (Zlen W - Zlen (executed (hw s))) 0); [left; lia|]. right.
      assert (S (Z.to_nat (Zlen W - Zlen (executed h))) <= Z.to_nat (Zlen W - Zlen (executed (hw s))))%nat by lia. nia. }
  split; [|exact Hlt]. split; try done; [cbn [hw executed]; unfold pend in H2; lia|].
  destruct Hlt as [Hlt|Hlt]; [by left|right; exact (Nat.lt_le_incl _ _ Hlt)].
Qed.

Definition nearer (W : list (list Z)) (s s' : st) : Prop := pend W (hw s') = 0 \/ (left_over W s' < left_over W s)%nat.

Lemma read_spec {A} (f : st -> A) W s : HInv W (hw s) ->
  wp (_ ← tick; s ← get; mret (f s)) s (fun v s' => v = f s' /\ ran W s s' /\ nearer W s s').
Proof. intros H. apply wp_bind, (wp_mono _ _ _ _ (tick_spec W s H)). intros t s' [H1 H2]. by apply wp_bind, wp_get, wp_ret. Qed.

Lemma left_over_bound W s : HInv W (hw s) -> (left_over W s < 1024 * dly)%nat.
Proof.
  intros []. unfold left_over. pose proof (gap_lt turns dly Hfair (now (hw s))). unfold pend, SLOTS in *.
  assert (Z.to_nat (Zlen W - Zlen (executed (hw s))) <= 1023)%nat by lia. nia.
Qed.

Lemma check_hardware_spec W s : HInv W (hw s) -> wp md_check_hardware s (fun _ s' => ran W s s').
Proof.
  intros H. unfold md_check_hardware, read_cntl, read_status.
  apply wp_bind, wp_bind, (wp_mono _ _ _ _ (tick_spec W s H)). intros t1 s1 [R1 _]. apply wp_ret.
  apply wp_bind, wp_bind, (wp_mono _ _ _ _ (tick_spec W s1 (n_inv _ _ _ R1))). intros t2 s2 [R2 _]. apply wp_ret.
  pose proof (ran_trans _ _ _ _ R1 R2) as R12. destruct (_ =? 0); [|by apply wp_ret]. unfold write_cntl.
  apply wp_bind, (wp_mono _ _ _ _ (tick_spec W s2 (n_inv _ _ _ R2))). intros t3 s3 [R3 _]. apply wp_set_hw.
  pose proof (ran_trans _ _ _ _ R12 R3) as [I1 I2 I3 I4 I5 I6 I7]. split; try done. destruct I1. by split.
Qed.

Lemma wait_empty_spec W fuel : forall s w, HInv W (hw s) -> w = wrp (hw s) -> (left_over W s < fuel)%nat ->
  wp (wait_empty fuel w) s (fun _ s' => ran W s s' /\ pend W (hw s') = 0).
Proof.
  induction fuel as [|fuel IH]; intros s w Hh Hw Hf; [lia|]. cbn [wait_empty].
  apply wp_bind, (wp_mono _ _ _ _ (read_spec (fun s => rdp (hw s)) W s Hh)). intros rp s' (-> & R & N).
  pose proof R as [I _ _ _ Eb _ _]. pose proof (rdp_wrp W _ I) as Hrw.
  assert (Ew : w = wrp (hw s')) by (rewrite (h_wrp _ _ I), Eb, Hw; apply (h_wrp _ _ Hh)).
  destruct (Z.eqb_spec w (rdp (hw s'))) as [E|E]; [apply wp_ret; split; [done|apply Hrw; congruence]|].
  destruct N as [N|N]; [exfalso; apply Hrw in N; congruence|].
  apply (wp_mono _ _ _ _ (IH s' w I Ew ltac:(lia))). intros _ s2 [R2 P2]. split; [by apply (ran_trans _ _ s')|done].
Qed.

Lemma wait_room_spec W fuel : forall s w, HInv W (hw s) -> w = wrp (hw s) -> (left_over W s < fuel)%nat ->
  wp (wait_room fuel w 16 16384) s (fun _ s' => ran W s s' /\ pend W (hw s') + 1 < SLOTS).
Proof.
  induction fuel as [|fuel IH]; intros s w Hh Hw Hf; [lia|]. cbn [wait_room].
  apply wp_bind, (wp_mono _ _ _ _ (read_spec (fun s => rdp (hw s)) W s Hh)). intros rp s' (-> & R & N).
  pose proof R as [I _ _ _ Eb _ _]. assert (Ew : w = wrp (hw s')) by (rewrite (h_wrp _ _ I), Eb, Hw; apply (h_wrp _ _ Hh)).
  assert (Hiff : (u32 (w + 16) <? (if rdp (hw s') <=? w then u32 (rdp (hw s') + 16384) else rdp (hw s'))) = true <-> pend W (hw s') + 1 < SLOTS).
  { destruct I. unfold pend, SLOTS in *. rewrite Z.ltb_lt, Ew, h_wrp0, h_rdp0.
    pose proof (Z.mod_pos_bound (Zlen (executed (hw s'))) 1024 ltac:(lia)) as He. pose proof (Z.mod_pos_bound (Zlen W) 1024 ltac:(lia)) as Hv.
    pose proof (Z.div_mod (Zlen (executed (hw s'))) 1024 ltac:(lia)) as Ee. pose proof (Z.div_mod (Zlen W) 1024 ltac:(lia)) as Ev.
    generalize dependent (Zlen (executed (hw s')) mod 1024). generalize dependent (Zlen W mod 1024). intros v ? ? ? e ? ? ?.
    rewrite !(u32_small _) by (unfold is_u32, W32; lia).
    destruct (Z.leb_spec (hbase (hw s') + 16 * e) (hbase (hw s') + 16 * v)); lia. }
  destruct (u32 (w + 16) <? _) eqn:E; [apply wp_ret; split; [done|by apply Hiff]|].
  destruct N as [N|N]; [exfalso; assert (pend W (hw s') + 1 < SLOTS) as H by (unfold SLOTS; lia); apply Hiff in H; congruence|].
  apply (wp_mono _ _ _ _ (IH s' w I Ew ltac:(lia))). intros _ s2 [R2 P2]. split; [by apply (ran_trans _ _ s')|done].
Qed.

(** ** Writing a command *)

(** The driver has changed nothing but the ring. *)
Record moved (W : list (list Z)) (s s' : st) (r : list Z) : Prop := {
  v_inv : HInv W (hw s');
  v_dv : dv s' = dv s;
  v_maps : maps s' = maps s;
  v_ring : ring (hw s') = r;
  v_base : hbase (hw s') = hbase (hw s);
  v_done : Zlen (executed (hw s)) <= Zlen (executed (hw s'))
}.

(** A word stored into the next free slot disturbs no command that waits. *)
Lemma store_spec W s j x : HInv W (hw s) -> 0 <= j < 4096 -> j / 4 = Zlen W mod SLOTS ->
  wp (store_word (CmdBuf (dv s) + 4 * j) x) s (fun _ s' => moved W s s' (<[Z.to_nat j := x]> (ring (hw s)))).
Proof.
  intros Hh Hj Hs. unfold store_word. apply wp_bind, (wp_mono _ _ _ _ (tick_spec W s Hh)). intros _ s1 [[I1 I2 I3 I4 I5 I6 _] _].
  apply wp_bind, wp_get. rewrite I2. replace (CmdBuf (dv s) + 4 * j - CmdBuf (dv s)) with (j * 4) by lia.
  rewrite Z.mod_mul, Z.div_mul by lia. cbn [Z.eqb]. apply wp_bind, (wp_lift _ _ (<[Z.to_nat j := x]> (ring (hw s)))).
  { rewrite I4, wr_ok; [done|]. rewrite (h_ring _ _ Hh). lia. }
  apply wp_set_hw. split; cbn [hw dv maps ring hbase executed]; try done. destruct I1. split; cbn; try done.
  - rewrite <- I4, Zlen_insert. done.
  - intros i Hi. rewrite slot_insert_ne; [rewrite <- I4; auto|lia|unfold SLOTS; lia|]. rewrite Hs. unfold SLOTS in *. lia.
Qed.

Lemma moved_trans W s1 s2 s3 r r' : moved W s1 s2 r -> moved W s2 s3 r' -> moved W s1 s3 r'.
Proof. intros [] []. split; try congruence. lia. Qed.

Lemma put4_spec W s w0 w1 w2 w3 (B := CmdBuf (dv s)) (v := Zlen W mod SLOTS) : HInv W (hw s) -> 0 <= B -> B + 16384 < W32 ->
  wp (put_words 4 0 [w0; w1; w2; w3] (B + 16 * v) (B + 16384) B) s (fun p s' => exists r, p = B + 16 * ((Zlen W + 1) mod SLOTS) /\
    moved W s s' r /\ slot r (4 * v) = [w0; w1; w2; w3]).
Proof.
  intros Hh HB0 HB. assert (Hv : 0 <= v < 1024) by (unfold v, SLOTS; lia).
  assert (Hp : forall j, 0 <= j < 4096 -> u32 (B + 4 * j + 4) = B + 4 * (j + 1)) by (intros j Hj; rewrite u32_small; [lia|unfold is_u32, W32 in *; lia]).
  assert (Hlim : forall j, 0 <= j < 4095 -> (B + 4 * (j + 1) >=? B + 16384) = false) by (intros j Hj; rewrite Z.geb_leb; apply Z.leb_gt; lia).
  assert (Hst : forall s1 r j x, moved W s s1 r -> 4 * v <= j < 4 * v + 4 -> wp (store_word (B + 4 * j) x) s1 (fun _ s' => moved W s s' (<[Z.to_nat j := x]> r))).
  { intros s1 r j x Hm Hj. pose proof Hm as [M1 M2 M3 M4 M5 M6]. unfold B. rewrite <- M2.
    apply (wp_mono _ _ _ _ (store_spec W s1 j x M1 ltac:(lia) ltac:(fold v; lia))). intros _ s2 M. rewrite M4 in M. by apply (moved_trans W s s1 s2 r). }
  replace (B + 16 * v) with (B + 4 * (4 * v)) by lia. cbn [put_words rd].
  apply wp_bind, (wp_lift _ _ w0); [done|]. apply wp_bind, (wp_mono _ _ _ _ (Hst s (ring (hw s)) (4 * v) w0 ltac:(by split) ltac:(lia))).
  intros _ s1 M1. cbn zeta. rewrite Hp, Hlim by lia.
  apply wp_bind, (wp_lift _ _ w1); [done|]. apply wp_bind, (wp_mono _ _ _ _ (Hst s1 _ (4 * v + 1) w1 M1 ltac:(lia))).
  intros _ s2 M2. cbn zeta. rewrite Hp, Hlim by lia. replace (4 * v + 1 + 1) with (4 * v + 2) by lia.
  apply wp_bind, (wp_lift _ _ w2); [done|]. apply wp_bind, (wp_mono _ _ _ _ (Hst s2 _ (4 * v + 2) w2 M2 ltac:(lia))).
  intros _ s3 M3. cbn zeta. rewrite Hp, Hlim by lia. replace (4 * v + 2 + 1) with (4 * v + 3) by lia.
  apply wp_bind, (wp_lift _ _ w3); [done|]. apply wp_bind, (wp_mono _ _ _ _ (Hst s3 _ (4 * v + 3) w3 M3 ltac:(lia))).
  intros _ s4 M4. cbn zeta. rewrite Hp by lia. apply wp_ret. eexists. split; [|split; [exact M4|]].
  - unfold v, SLOTS in *. destruct (Z.geb_spec (B + 4 * (4 * (Zlen W mod 1024) + 3 + 1)) (B + 16384)); lia.
  - apply slot_insert4; [lia|]. rewrite (h_ring _ _ Hh). lia.
Qed.

(** ** The driver *)

Record DInv (W : list (list Z)) (s : st) : Prop := {
  d_hw : HInv W (hw s);
  d_size : size (dv s) = 16384;
  d_wrptr : wrptr (dv s) = 16 * (Zlen W mod SLOTS);
  d_buf : 0 <= CmdBuf (dv s) /\ CmdBuf (dv s) + 16384 < W32;
  d_off : v_to_p_offset (dv s) = CmdBuf (dv s) - hbase (hw s);
  d_low : sw_low (dv s) = u32 (Zlen W);
  d_high : sw_high (dv s) = u32 (Zlen W / W32)
}.

(** The table of copies is untouched. *)
Record same_copies (s s' : st) : Prop := {
  p_counter : copy_counter (dv s') = copy_counter (dv s);
  p_finished : finished_copy_counter (dv s') = finished_copy_counter (dv s);
  p_task : copy_task (dv s') = copy_task (dv s);
  p_susp : suspended (dv s') = suspended (dv s);
  p_maps : maps s' = maps s;
  p_done : Zlen (executed (hw s)) <= Zlen (executed (hw s'))
}.

#[export] Instance same_copies_trans : Transitive same_copies.
Proof. intros s1 s2 s3 [] []. split; try congruence. lia. Qed.

Lemma ran_copies W s s' : ran W s s' -> same_copies s s'.
Proof. intros []. split; congruence. Qed.

Lemma ran_dinv W s s' : ran W s s' -> DInv W s -> DInv W s'.
Proof. intros [] []. split; rewrite ?n_dv0, ?n_base0; done. Qed.

Lemma publish W h cmd r : HInv W h -> pend W h + 1 < SLOTS -> slot (ring h) (4 * (Zlen W mod SLOTS)) = cmd ->
  r = hbase h + 16 * ((Zlen W + 1) mod SLOTS) ->
  HInv (W ++ [cmd]) (mkHw (rdp h) r (hbase h) (hlimit h) (inst h) (ring h) (executed h) (now h) (go h)).
Proof.
  intros [] Hp Hs ->. assert (HZ : Zlen (W ++ [cmd]) = Zlen W + 1) by (unfold Zlen; rewrite length_app; cbn; lia). unfold pend in *.
  split; cbn [go ring hbase hlimit executed rdp wrp inst]; rewrite ?HZ; try done; try lia.
  - rewrite h_done0 at 1. rewrite take_app_le; [done|]. unfold Zlen in *. lia.
  - intros i Hi. destruct (Z.eq_dec i (Zlen W)) as [->|].
    + rewrite lookup_app_r by (unfold Zlen; lia). unfold Zlen. rewrite Nat2Z.id, Nat.sub_diag. change ([cmd] !! O) with (Some cmd). unfold Zlen in Hs. by rewrite Hs.
    + rewrite lookup_app_l by (unfold Zlen in *; lia). apply h_slots0. lia.
Qed.

Lemma lor_u64 n : 0 <= n -> Z.lor (Z.shiftl (u32 (n / W32)) 32) (u32 n) = u64 n.
Proof.
  intros Hn. rewrite lor_shiftl_add by (unfold u32, W32; lia). unfold u32, u64, W32. rewrite Z.rem_mul_r by lia. lia.
Qed.

Variable fuel : nat.
Hypothesis Hfuel : (1024 * dly <= fuel)%nat.

Lemma WriteCmd_spec W s w0 w1 w2 w3 (cmd := [w0; w1; w2; w3]) : DInv W s -> locked (dv s) = false ->
  wp (WriteCmd fuel cmd 16) s (fun h s' => DInv (W ++ [cmd]) s' /\ locked (dv s') = false /\ h = u64 (Zlen W + 1) /\ same_copies s s').
Proof.
  intros Hd Hl. unfold WriteCmd, md_lock. apply wp_bind, wp_bind, wp_get. rewrite Hl. apply wp_set_dv.
  set (s0 := mkSt _ _ _). assert (Hd0 : DInv W s0) by (destruct Hd; by split). clear Hd.
  apply wp_bind, (wp_mono _ _ _ _ (check_hardware_spec W s0 (d_hw _ _ Hd0))). intros _ s1 R1. apply wp_bind, wp_get. cbn zeta.
  pose proof (ran_dinv _ _ _ R1 Hd0) as Hd1. apply wp_bind, (wp_mono _ _ _ _ (read_spec (fun s => wrp (hw s)) W s1 (d_hw _ _ Hd1))).
  intros w s2 (-> & R2 & _). pose proof (ran_dinv _ _ _ R2 Hd1) as Hd2.
  assert (Hwe : forall b, wp (if (b : bool) then wait_empty fuel (wrp (hw s2)) else mret tt) s2 (fun _ s' => ran W s2 s')).
  { intros []; [|by apply wp_ret, ran_refl, (d_hw _ _ Hd2)]. pose proof (left_over_bound W s2 (d_hw _ _ Hd2)).
    apply (wp_mono _ _ _ _ (wait_empty_spec W fuel s2 _ (d_hw _ _ Hd2) eq_refl ltac:(lia))). by intros _ s' [? _]. }
  apply wp_bind, (wp_mono _ _ _ _ (Hwe _)). intros _ s3 R3. pose proof (ran_dinv _ _ _ R3 Hd2) as Hd3. rewrite (d_size _ _ Hd1).
  assert (Ew : wrp (hw s2) = wrp (hw s3)) by (rewrite (h_wrp _ _ (d_hw _ _ Hd2)), (h_wrp _ _ (d_hw _ _ Hd3)), (n_base _ _ _ R3); done).
  rewrite Ew. pose proof (left_over_bound W s3 (d_hw _ _ Hd3)).
  apply wp_bind, (wp_mono _ _ _ _ (wait_room_spec W fuel s3 _ (d_hw _ _ Hd3) eq_refl ltac:(lia))). intros _ s4 [R4 P4].
  pose proof (ran_dinv _ _ _ R4 Hd3) as Hd4. pose proof Hd4 as [H4 Z4 W4 [B4 B4'] O4 L4 G4].
  assert (E14 : dv s1 = dv s4) by (rewrite (n_dv _ _ _ R4), (n_dv _ _ _ R3), (n_dv _ _ _ R2); done). rewrite E14.
  assert (R04 : ran W s0 s4) by (eapply ran_trans; [|exact R4]; eapply ran_trans; [|exact R3]; by eapply ran_trans).
  assert (Hwr : 0 <= wrptr (dv s4) <= 16368) by (rewrite W4; unfold SLOTS; lia).
  rewrite (u32_small (CmdBuf (dv s4) + 16384)), (u32_small (CmdBuf (dv s4) + wrptr (dv s4))) by (unfold is_u32, W32 in *; lia).
  rewrite W4. change (Z.to_nat ((16 + 3) / 4)) with 4%nat.
  apply wp_bind, (wp_mono _ _ _ _ (put4_spec W s4 w0 w1 w2 w3 H4 B4 B4')). intros p s5 (r & -> & M5 & Hslot).
  apply wp_bind, wp_set_dv. unfold write_wrp.
  pose proof M5 as [I5 D5 _ _ _ _]. set (s6 := mkSt _ _ _).
  apply wp_bind, wp_bind, (wp_mono _ _ _ _ (tick_spec W s6 I5)). intros _ s7 [R7 _]. apply wp_set_hw.
  apply wp_bind, wp_set_dv. apply wp_bind, wp_get. apply wp_bind, wp_set_dv, wp_ret. cbn [dv hw maps].
  assert (E7 : dv s7 = dv s6) by apply R7. rewrite E7. cbn [dv s6]. rewrite D5.
  pose proof R04 as [_ Dv _ _ Bs _ _]. pose proof R7 as [I7 _ M7 G7 S7 N7 _]. unfold s6 in M7, G7, S7, N7. cbn [hw maps] in M7, G7, S7, N7. destruct M5 as [_ _ Mp Mg Mb Mn].
  assert (Hz : Zlen (W ++ [cmd]) = Zlen W + 1) by (unfold Zlen; rewrite length_app; cbn; lia). pose proof (Zlen_nonneg W) as Hnn.
  assert (Hbs : hbase (hw s7) = hbase (hw s4)) by congruence.
  assert (Hlow : u32 (sw_low (dv s4) + 1) = u32 (Zlen W + 1)) by (rewrite L4; unfold u32, W32; lia).
  assert (Hhigh : (if u32 (sw_low (dv s4) + 1) =? 0 then u32 (sw_high (dv s4) + 1) else sw_high (dv s4)) = u32 ((Zlen W + 1) / W32)).
  { rewrite Hlow, G4. unfold u32, W32. destruct (Z.eqb_spec ((Zlen W + 1) mod 4294967296) 0); lia. }
  split; [split|split; [|split; [|split]]]; cbn [hw dv maps size wrptr CmdBuf v_to_p_offset sw_low sw_high locked with_lock with_counter with_wrptr hbase]; rewrite ?Hz; try done.
  - apply publish; [done| | |].
    + unfold pend in *. cbn [hw] in N7. lia.
    + rewrite G7, Mg. done.
    + rewrite O4, Hbs. rewrite u32_small; [lia|]. pose proof (Z.mod_pos_bound (Zlen W + 1) SLOTS ltac:(done)). unfold SLOTS in *.
      pose proof (h_base _ _ H4). unfold is_u32, W32. lia.
  - rewrite Z4. unfold SLOTS. rewrite W4. unfold SLOTS. destruct (Z.geb_spec (16 * (Zlen W mod 1024) + 16) 16384); lia.
  - by rewrite Hbs.
  - rewrite Hhigh, Hlow. apply lor_u64. lia.
  - by rewrite Dv.
  - by rewrite Dv.
  - by rewrite Dv.
  - by rewrite Dv.
  - rewrite M7, Mp. apply R04.
  - cbn [hw executed]. pose proof (n_done _ _ _ R04) as N04. unfold s0 in N04. cbn [hw] in N04. lia.
Qed.
End fair.
