(* ===== verification/MdCopy.v ===== *)
(** * The move engine: copies

    The test whether a command is done, the table of copies with their DMA
    mappings, and the operations on it. *)
From stdpp Require Import base tactics list numbers option.
From Stdlib Require Import ZArith Lia.
From S2P Require Import Prelude Driver Md MdProofs.

#[local] Ltac Zify.zify_post_hook ::= Z.div_mod_to_equations.

(** ** Is a command done? *)

(** The comparison of the two 16-bit counters. *)
Definition finished (hw_counter sw_counter : Z) : bool :=
  if hw_counter >=? sw_counter then hw_counter - sw_counter <? 0x8000 else hw_counter + 0x10000 - sw_counter <? 0x8000.

(** It is exact for counters that are at most [2^15] apart. *)
Lemma finished_exact e h : 0 <= e -> 0 <= h -> e - h < 0x8000 -> h - e <= 0x8000 -> finished (e mod 0x10000) (h mod 0x10000) = (h <=? e).
Proof.
  intros He Hh H1 H2. unfold finished. destruct (Z.geb_spec (e mod 0x10000) (h mod 0x10000)), (Z.leb_spec h e).
  - apply Z.ltb_lt. lia.
  - apply Z.ltb_ge. lia.
  - apply Z.ltb_lt. lia.
  - apply Z.ltb_ge. lia.
Qed.

(** Beyond that a command that is done looks as if it were not. *)
Lemma finished_stale e h : 0x8000 <= e - h < 0x10000 -> finished (e mod 0x10000) (h mod 0x10000) = false.
Proof. intros H. unfold finished. destruct (Z.geb_spec (e mod 0x10000) (h mod 0x10000)); apply Z.ltb_ge; lia. Qed.

Lemma low16 n : Z.land (u32 n) 0xFFFF = n mod 0x10000.
Proof. change 0xFFFF with (Z.ones 16). rewrite Z.land_ones by lia. unfold u32, W32. change (2 ^ 16) with 65536. lia. Qed.

(** ** Mappings *)

Lemma unmap_spec x m m' : unmap x m = Some m' -> m ≡ₚ x :: m'.
Proof.
  revert m'. induction m as [|y m IH]; intros m'; cbn [unmap]; [done|]. destruct (decide (x = y)) as [->|]; [by intros [= ->]|].
  destruct (unmap x m) as [m1|]; [|done]. intros [= <-]. rewrite (IH m1) by done. apply Permutation_swap.
Qed.

Lemma unmap_in x m : x ∈ m -> exists m', unmap x m = Some m'.
Proof.
  induction m as [|y m IH]; intros Hx; [by apply not_elem_of_nil in Hx|]. cbn [unmap]. destruct (decide (x = y)) as [->|Hne]; [eauto|].
  apply elem_of_cons in Hx as [?|Hx]; [done|]. destruct (IH Hx) as [m' ->]. by exists (y :: m').
Qed.

Lemma wp_unmap p len dir s m (Q : unit -> st -> Prop) : maps s ≡ₚ (p, len, dir) :: m ->
  (forall m', m' ≡ₚ m -> Q tt (mkSt (dv s) (hw s) m')) -> wp (_md_unmap_single p len dir) s Q.
Proof.
  intros Hm HQ. unfold _md_unmap_single. apply wp_bind, wp_get. destruct (unmap_in (p, len, dir) (maps s)) as [m' E]; [rewrite Hm; by left|].
  rewrite E. apply wp_set_maps, HQ. apply unmap_spec in E. rewrite E in Hm. by apply Permutation_cons_inv in Hm.
Qed.

(** ** The table *)

(** The task of copy number [j]. *)
Definition tsk (ts : list md_copy_t) (j : Z) : md_copy_t := default no_copy (ts !! Z.to_nat (j mod MAX_COPY_TASK)).

Definition task_maps (t : md_copy_t) : list mapping := [(dma_src t, c_len t, DMA_TO_DEVICE); (dma_dst t, c_len t, DMA_FROM_DEVICE)].

(** The mappings that the copies [f], ..., [f + n - 1] hold. *)
Fixpoint held (ts : list md_copy_t) (f : Z) (n : nat) : list mapping :=
  match n with O => [] | S n' => task_maps (tsk ts f) ++ held ts (f + 1) n' end.

Lemma tsk_mod ts j : tsk ts (j mod MAX_COPY_TASK) = tsk ts j.
Proof. unfold tsk. by rewrite Z.mod_mod. Qed.

Lemma tsk_insert_eq ts j t : length ts = 64%nat -> tsk (<[Z.to_nat (j mod MAX_COPY_TASK) := t]> ts) j = t.
Proof. intros Hl. unfold tsk. rewrite list_lookup_insert_eq; [done|]. unfold MAX_COPY_TASK. lia. Qed.

Lemma tsk_insert_ne ts i j t : i mod MAX_COPY_TASK <> j mod MAX_COPY_TASK -> tsk (<[Z.to_nat (i mod MAX_COPY_TASK) := t]> ts) j = tsk ts j.
Proof. intros Hl. unfold tsk. rewrite list_lookup_insert_ne; [done|]. unfold MAX_COPY_TASK in *. lia. Qed.

Lemma held_ext ts ts' n : forall f, (forall j, f <= j < f + Z.of_nat n -> task_maps (tsk ts' j) = task_maps (tsk ts j)) -> held ts' f n = held ts f n.
Proof. induction n as [|n IH]; intros f H; [done|]. cbn [held]. rewrite (H f) by lia. rewrite IH; [done|]. intros j Hj. apply H. lia. Qed.

Lemma held_snoc ts n : forall f, held ts f (S n) = held ts f n ++ task_maps (tsk ts (f + Z.of_nat n)).
Proof.
  induction n as [|n IH]; intros f; [cbn; by rewrite Z.add_0_r|]. change (held ts f (S (S n))) with (task_maps (tsk ts f) ++ held ts (f + 1) (S n)).
  rewrite IH. cbn [held]. rewrite <- app_assoc. by replace (f + 1 + Z.of_nat n) with (f + Z.of_nat (S n)) by lia.
Qed.

(** A copy whose commands have been written. *)
Definition full (W : list (list Z)) (j : Z) (t : md_copy_t) : Prop :=
  copy_id t = j /\ 0 < request_id t <= Zlen W /\ Zlen W - request_id t < 0x8000.

(** The table holds the copies [f], ..., [c - 1], of which the first [n] are
    complete and the others (at most one) are being written. *)
Record TInv (W : list (list Z)) (n : Z) (s : st) : Prop := {
  t_small : Zlen W < W32 * W32;
  t_len : length (copy_task (dv s)) = 64%nat;
  t_cnt : 0 <= finished_copy_counter (dv s) /\ 0 <= n /\
          finished_copy_counter (dv s) + n <= copy_counter (dv s) <= finished_copy_counter (dv s) + n + 1 /\
          copy_counter (dv s) - finished_copy_counter (dv s) <= 64 /\ finished_copy_counter (dv s) + n <= Zlen W;
  t_full : forall j, finished_copy_counter (dv s) <= j < finished_copy_counter (dv s) + n -> full W j (tsk (copy_task (dv s)) j);
  t_mono : forall j k, finished_copy_counter (dv s) <= j < k -> k < finished_copy_counter (dv s) + n ->
             request_id (tsk (copy_task (dv s)) j) < request_id (tsk (copy_task (dv s)) k);
  t_free : forall k, 0 <= k < 64 -> (forall j, finished_copy_counter (dv s) <= j < copy_counter (dv s) -> j mod MAX_COPY_TASK <> k) ->
             tsk (copy_task (dv s)) k = no_copy;
  t_maps : maps s ≡ₚ held (copy_task (dv s)) (finished_copy_counter (dv s)) (Z.to_nat (copy_counter (dv s) - finished_copy_counter (dv s)))
}.

Lemma TInv_same W n s s' : same_copies s s' -> TInv W n s -> TInv W n s'.
Proof. intros [E1 E2 E3 _ E5 _] []. split; rewrite ?E1, ?E2, ?E3, ?E5; done. Qed.

Lemma wp_task j s (Q : md_copy_t -> st -> Prop) : length (copy_task (dv s)) = 64%nat -> Q (tsk (copy_task (dv s)) j) s -> wp (task (j mod MAX_COPY_TASK)) s Q.
Proof.
  intros Hl HQ. eexists _, s. split; [|exact HQ]. unfold task, tsk.
  destruct (lookup_lt_is_Some_2 (copy_task (dv s)) (Z.to_nat (j mod MAX_COPY_TASK))) as [t ->]; [unfold MAX_COPY_TASK; lia|done].
Qed.

(** Nothing of the copies has changed. *)
Ltac kept_id := split; cbn; try done; lia.

Section copy.
Context {env : MdEnv}.
Variable dly : nat.
Hypothesis Hfair : fair dly.

#[local] Abbreviation ran := (ran dly).

(** [md_checkfinish] answers whether the command is done, for a command that is
    not too old. *)
Lemma checkfinish_spec W s h : HInv W (hw s) -> 0 < h <= Zlen W -> Zlen W - h < 0x8000 ->
  wp (md_checkfinish h) s (fun b s' => ran W s s' /\
    if b then h <= Zlen (executed (hw s')) else Zlen (executed (hw s)) < h /\ (left_over dly W s' < left_over dly W s)%nat).
Proof.
  intros Hh Hr Hf. unfold md_checkfinish. destruct (Z.eqb_spec h 0); [lia|].
  apply wp_bind, (wp_mono _ _ _ _ (read_spec dly Hfair (fun s => inst (hw s)) W s Hh)). intros v s1 (-> & R1 & N1).
  pose proof R1 as [I1 _ _ _ _ D1 L1]. rewrite (h_inst _ _ I1), !low16. fold (finished (Zlen (executed (hw s1)) mod 65536) (h mod 65536)).
  pose proof (h_left _ _ I1) as HL. pose proof (Zlen_nonneg (executed (hw s1))). unfold SLOTS in HL. rewrite finished_exact by lia.
  destruct (Z.leb_spec h (Zlen (executed (hw s1)))) as [Hle|Hgt]; [by apply wp_ret|].
  apply wp_bind, (wp_mono _ _ _ _ (check_hardware_spec dly Hfair W s1 I1)). intros _ s2 R2. apply wp_ret.
  split; [by apply (ran_trans _ _ _ s1)|]. split; [lia|]. destruct N1 as [N1|N1]; [unfold pend in N1; lia|].
  pose proof R2 as [I2 _ _ _ _ D2 L2]. destruct L2 as [L2|L2]; [|lia].
  unfold left_over at 1. rewrite L2. pose proof (gap_lt turns dly Hfair (now (hw s2))) as Hg. unfold left_over.
  assert (1 <= Z.to_nat (pend W (hw s)))%nat by (unfold pend; lia). nia.
Qed.

(** The answer for any command. *)
Lemma checkfinish_any W s h : HInv W (hw s) -> 0 < h <= Zlen W ->
  wp (md_checkfinish h) s (fun b s' => (Zlen W - h < 0x8000 -> if b then h <= Zlen (executed (hw s')) else Zlen (executed (hw s)) < h) /\
    (0x8000 <= Zlen (executed (hw s)) - h -> Zlen W - h < 0x10000 -> b = false)).
Proof.
  intros Hh Hr. destruct (Z_lt_ge_dec (Zlen W - h) 0x8000) as [Hf|Hf].
  { pose proof (h_left _ _ Hh). apply (wp_mono _ _ _ _ (checkfinish_spec W s h Hh Hr Hf)). intros [] s' [R1 H1]; split; lia. }
  unfold md_checkfinish. destruct (Z.eqb_spec h 0); [lia|].
  apply wp_bind, (wp_mono _ _ _ _ (read_spec dly Hfair (fun s => inst (hw s)) W s Hh)). intros v s1 (-> & [I1 _ _ _ _ D1 _] & _).
  rewrite (h_inst _ _ I1), !low16. fold (finished (Zlen (executed (hw s1)) mod 65536) (h mod 65536)). pose proof (h_left _ _ I1) as HL.
  destruct (finished _ _) eqn:E; [apply wp_ret|apply wp_bind, (wp_mono _ _ _ _ (check_hardware_spec dly Hfair W s1 I1)); intros _ s2 _; apply wp_ret; split; [lia|done]].
  split; [lia|]. intros Ha Hb. rewrite finished_stale in E by lia. done.
Qed.

Lemma wait_finish_spec W fuel : forall s h, HInv W (hw s) -> 0 < h <= Zlen W -> Zlen W - h < 0x8000 -> (left_over dly W s < fuel)%nat ->
  wp (wait_finish fuel h) s (fun _ s' => ran W s s' /\ h <= Zlen (executed (hw s'))).
Proof.
  induction fuel as [|fuel IH]; intros s h Hh Hr Hf Hl; [lia|]. cbn [wait_finish].
  apply wp_bind, (wp_mono _ _ _ _ (checkfinish_spec W s h Hh Hr Hf)). intros [] s1 [R1 H1]; [by apply wp_ret|].
  apply (wp_mono _ _ _ _ (IH s1 h (n_inv _ _ _ _ R1) Hr Hf ltac:(lia))). intros _ s2 [R2 H2]. split; [by apply (ran_trans _ _ _ s1)|done].
Qed.

(** ** Releasing copies *)

(** Only the table of copies changes. *)
Lemma DInv_tasks W s c f t m : DInv W s -> DInv W (mkSt (with_tasks c f t (dv s)) (hw s) m).
Proof. intros []. by split. Qed.

(** The copies from the first unfinished one on are kept; those before are done. *)
Record kept (s s' : st) : Prop := {
  k_locked : locked (dv s') = locked (dv s);
  k_susp : suspended (dv s') = suspended (dv s);
  k_counter : copy_counter (dv s') = copy_counter (dv s);
  k_finished : finished_copy_counter (dv s) <= finished_copy_counter (dv s');
  k_task : forall j, finished_copy_counter (dv s') <= j < copy_counter (dv s') -> tsk (copy_task (dv s')) j = tsk (copy_task (dv s)) j;
  k_done : Zlen (executed (hw s)) <= Zlen (executed (hw s'));
  k_released : forall j, finished_copy_counter (dv s) <= j < finished_copy_counter (dv s') -> j < copy_counter (dv s) ->
                 request_id (tsk (copy_task (dv s)) j) <= Zlen (executed (hw s'))
}.

Lemma kept_trans s1 s2 s3 : kept s1 s2 -> kept s2 s3 -> kept s1 s3.
Proof.
  intros [A1 A2 A3 A4 A5 A6 A7] [B1 B2 B3 B4 B5 B6 B7]. split; try congruence; try lia; [intros j Hj; rewrite B5 by done; apply A5; lia|].
  intros j Hj Hc. destruct (Z_lt_ge_dec j (finished_copy_counter (dv s2))); [specialize (A7 j ltac:(lia) Hc); lia|].
  rewrite <- A5 by lia. apply B7; lia.
Qed.

Lemma ran_kept W s s' : ran W s s' -> kept s s'.
Proof. intros [_ E _ _ _ Hn _]. split; rewrite ?E; [done..|lia|done|done|lia]. Qed.

Lemma release_step W n s : DInv W s -> TInv W n s -> 0 < n -> request_id (tsk (copy_task (dv s)) (finished_copy_counter (dv s))) <= Zlen (executed (hw s)) ->
  wp (_ ← md_release_copy_request (finished_copy_counter (dv s) mod MAX_COPY_TASK);
      set_dv (fun d => with_tasks (copy_counter d) (u64 (finished_copy_counter d + 1)) (copy_task d) d)) s
    (fun _ s' => DInv W s' /\ TInv W (n - 1) s' /\ kept s s' /\ finished_copy_counter (dv s') = finished_copy_counter (dv s) + 1 /\ hw s' = hw s).
Proof.
  intros Hd Ht Hn Hdn. pose proof Ht as [T0 T1 T2 T3 T4 T5 T6]. set (f := finished_copy_counter (dv s)) in *. set (ts := copy_task (dv s)) in *.
  destruct (T3 f ltac:(lia)) as (Hid & Hr & _). unfold md_release_copy_request.
  apply wp_bind, wp_bind, wp_task; [done|]. fold ts f. destruct (Z.eqb_spec (request_id (tsk ts f)) 0); [lia|]. cbn [negb].
  replace (Z.to_nat (copy_counter (dv s) - f)) with (S (Z.to_nat (copy_counter (dv s) - (f + 1)))) in T6 by lia. cbn [held task_maps app] in T6.
  apply wp_bind, wp_bind, (wp_unmap _ _ _ _ _ _ T6). intros m1 Hm1. apply (wp_unmap _ _ _ (mkSt (dv s) (hw s) m1) _ _ Hm1). intros m2 Hm2.
  unfold set_task. apply wp_set_dv, wp_set_dv. cbn [dv hw maps with_tasks copy_counter finished_copy_counter copy_task].
  fold ts f. set (ts' := <[Z.to_nat (f mod MAX_COPY_TASK) := no_copy]> ts).
  assert (Hu : u64 (f + 1) = f + 1) by (unfold u64; apply Z.mod_small; lia). rewrite Hu.
  assert (Hts : forall j, f + 1 <= j < copy_counter (dv s) -> tsk ts' j = tsk ts j) by (intros j Hj; apply tsk_insert_ne; unfold MAX_COPY_TASK; lia).
  split; [by apply (DInv_tasks W s (copy_counter (dv s)) (f + 1) ts' m2)|]. split; [|split; [|done]].
  2: { split; cbn; try done; try lia. intros j Hj _. by replace j with f by lia. }
  split; cbn [dv with_tasks copy_counter finished_copy_counter copy_task maps]; fold ts; fold ts'.
  - done.
  - unfold ts'. by rewrite length_insert.
  - lia.
  - intros j Hj. rewrite Hts by lia. apply T3. lia.
  - intros j k Hj Hk. rewrite !Hts by lia. apply T4; lia.
  - intros k Hk Hj. destruct (Z.eq_dec (f mod MAX_COPY_TASK) k) as [<-|Hne].
    + rewrite tsk_mod. by apply tsk_insert_eq.
    + unfold ts'. rewrite tsk_insert_ne; [|rewrite (Z.mod_small k); [done|unfold MAX_COPY_TASK; lia]]. apply T5; [done|].
      intros j Hj'. destruct (Z.eq_dec j f) as [->|]; [done|]. apply Hj. lia.
  - rewrite Hm2. symmetry. rewrite (held_ext ts); [done|]. intros j Hj. rewrite Hts; [done|lia].
Qed.

Lemma TInv_ran W n s s' : ran W s s' -> TInv W n s -> TInv W n s'.
Proof. intros R. apply TInv_same. by apply (ran_copies dly W). Qed.

(** The loop over the copies: it stops at the first one that is not done. *)
Lemma release_loop_spec W k : forall n s, DInv W s -> TInv W n s -> Z.of_nat k <= n ->
  wp (release_loop k) s (fun _ s' => exists n', DInv W s' /\ TInv W n' s' /\ kept s s' /\
    finished_copy_counter (dv s') + n' = finished_copy_counter (dv s) + n /\
    (n' = n - Z.of_nat k \/ 0 < n' /\ Zlen (executed (hw s)) < request_id (tsk (copy_task (dv s')) (finished_copy_counter (dv s'))))).
Proof.
  induction k as [|k IH]; intros n s Hd Ht Hk; cbn [release_loop].
  { apply wp_ret. exists n. split; [done|]. split; [done|]. split; [kept_id|]. split; [done|]. left. lia. }
  apply wp_bind, wp_get. pose proof Ht as [T0 T1 T2 T3 _ _ _]. apply wp_bind, wp_task; [done|].
  destruct (T3 (finished_copy_counter (dv s)) ltac:(lia)) as (_ & Hr & Hf).
  apply wp_bind, (wp_mono _ _ _ _ (checkfinish_spec W s _ (d_hw _ _ Hd) Hr Hf)). intros [] s1 [R1 H1].
  - pose proof (ran_dinv _ _ _ _ R1 Hd) as Hd1. pose proof (TInv_ran _ _ _ _ R1 Ht) as Ht1. pose proof (n_dv _ _ _ _ R1) as E1.
    rewrite <- E1. apply (wp_seq _ _ _ _ _ _ (release_step W n s1 Hd1 Ht1 ltac:(lia) ltac:(by rewrite E1))). intros [] s2 (Hd2 & Ht2 & K2 & F2 & _).
    apply (wp_mono _ _ _ _ (IH (n - 1) s2 Hd2 Ht2 ltac:(lia))). intros _ s3 (n' & Hd3 & Ht3 & K3 & F3 & H3).
    exists n'. split; [done|]. split; [done|]. split; [apply (kept_trans _ s1); [by apply (ran_kept W)|by apply (kept_trans _ s2)]|].
    split; [rewrite F3, F2, E1; lia|]. destruct H3 as [H3|[H3 H3']]; [left; lia|right]. split; [done|].
    pose proof (n_done _ _ _ _ R1). pose proof (k_done _ _ K2). lia.
  - apply wp_ret. exists n. split; [by apply (ran_dinv _ _ _ _ R1)|]. split; [by apply (TInv_ran _ _ _ _ R1)|].
    split; [by apply (ran_kept W)|]. rewrite (n_dv _ _ _ _ R1). split; [done|]. right. split; [lia|]. apply H1.
Qed.

(** Between operations. *)
Record Inv (W : list (list Z)) (s : st) : Prop := {
  i_dev : DInv W s;
  i_lock : locked (dv s) = false;
  i_copies : TInv W (copy_counter (dv s) - finished_copy_counter (dv s)) s
}.

Lemma DInv_lock W s b : DInv W s -> DInv W (mkSt (with_lock b (dv s)) (hw s) (maps s)).
Proof. intros []. by split. Qed.

Lemma TInv_lock W n s b : TInv W n s -> TInv W n (mkSt (with_lock b (dv s)) (hw s) (maps s)).
Proof. intros []. by split. Qed.

Lemma wp_md_lock s (Q : unit -> st -> Prop) : locked (dv s) = false -> Q tt (mkSt (with_lock true (dv s)) (hw s) (maps s)) -> wp md_lock s Q.
Proof. intros Hl HQ. unfold md_lock. apply wp_bind, wp_get. rewrite Hl. by apply wp_set_dv. Qed.

(** The finished copies are released, up to the first that is not done. *)
Lemma check_tasks_spec W s : Inv W s ->
  wp md_check_copy_tasks s (fun _ s' => Inv W s' /\ kept s s' /\
    (copy_counter (dv s') = finished_copy_counter (dv s') \/
     Zlen (executed (hw s)) < request_id (tsk (copy_task (dv s')) (finished_copy_counter (dv s'))))).
Proof.
  intros [Hd Hl Ht]. unfold md_check_copy_tasks. apply wp_bind, wp_get. pose proof (t_cnt _ _ _ Ht) as Hc.
  destruct (Z.ltb_spec (finished_copy_counter (dv s)) (copy_counter (dv s))).
  2: { apply wp_ret. split; [by split|]. split; [kept_id|]. left. lia. }
  apply wp_bind, wp_md_lock; [done|]. set (n := copy_counter (dv s) - finished_copy_counter (dv s)) in *.
  apply wp_bind, (wp_mono _ _ _ _ (release_loop_spec W (Z.to_nat n) n _ (DInv_lock _ _ true Hd) (TInv_lock _ _ _ true Ht) ltac:(lia))).
  intros _ s1 (n' & Hd1 & Ht1 & [K1 K2 K3 K4 K5 K6 K7] & F1 & H1). unfold md_unlock. apply wp_set_dv.
  cbn [dv hw with_lock locked suspended copy_counter finished_copy_counter copy_task executed] in K1, K2, K3, K4, K5, K6, K7, F1, H1.
  assert (En : n' = copy_counter (dv s1) - finished_copy_counter (dv s1)) by lia.
  split; [split; [by apply DInv_lock|done|cbn; rewrite <- En; by apply TInv_lock]|]. split; [by split|].
  cbn [dv with_lock copy_counter finished_copy_counter copy_task]. destruct H1 as [H1|[_ H1]]; [left; lia|by right].
Qed.

(** After it every copy of the table has been waiting for a short time only. *)
Lemma fresh_after W s e : Inv W s -> Zlen W < e + SLOTS ->
  copy_counter (dv s) = finished_copy_counter (dv s) \/ e < request_id (tsk (copy_task (dv s)) (finished_copy_counter (dv s))) ->
  forall j, finished_copy_counter (dv s) <= j < copy_counter (dv s) -> Zlen W - request_id (tsk (copy_task (dv s)) j) < SLOTS.
Proof.
  intros [_ _ [_ _ T2 T3 T4 _ _]] He [H|H] j Hj; [lia|]. destruct (Z.eq_dec j (finished_copy_counter (dv s))) as [->|]; [lia|].
  pose proof (T4 (finished_copy_counter (dv s)) j ltac:(lia) ltac:(lia)). lia.
Qed.

(** ** Starting a copy *)

(** The last task of the table is [t], and its commands are being written. *)
Record BInv (W : list (list Z)) (n : Z) (s : st) (t : md_copy_t) : Prop := {
  b_dev : DInv W s;
  b_lock : locked (dv s) = false;
  b_copies : TInv W n s;
  b_last : copy_counter (dv s) = finished_copy_counter (dv s) + n + 1;
  b_task : tsk (copy_task (dv s)) (finished_copy_counter (dv s) + n) = t;
  b_id : copy_id t = finished_copy_counter (dv s) + n
}.

(** The table has room exactly when it holds fewer than 64 copies. *)
Lemma room_iff W s : Inv W s -> request_id (tsk (copy_task (dv s)) (copy_counter (dv s))) = 0 <-> copy_counter (dv s) - finished_copy_counter (dv s) < 64.
Proof.
  intros [_ _ [_ _ T2 T3 _ T5 _]]. set (f := finished_copy_counter (dv s)) in *. set (c := copy_counter (dv s)) in *. split.
  - intros Hr. destruct (Z.eq_dec (c - f) 64) as [E|]; [|lia]. destruct (T3 f ltac:(lia)) as (_ & H & _).
    replace (tsk (copy_task (dv s)) c) with (tsk (copy_task (dv s)) f) in Hr; [lia|].
    rewrite <- tsk_mod, <- (tsk_mod _ c). f_equal. unfold MAX_COPY_TASK. lia.
  - intros Hlt. rewrite <- tsk_mod. rewrite T5; [done|unfold MAX_COPY_TASK; lia|]. intros j Hj. unfold MAX_COPY_TASK. lia.
Qed.

Lemma alloc_spec W s dst src len dir : Inv W s -> Zlen W + 2 < W32 * W32 ->
  wp (md_alloc_copy_request dst src len dir) s (fun r s' =>
    match r with
    | None => Inv W s' /\ kept s s' /\ (suspended (dv s) = 1 \/ copy_counter (dv s') - finished_copy_counter (dv s') = 64)
    | Some i => exists n, i = copy_counter (dv s) mod MAX_COPY_TASK /\ copy_counter (dv s') = copy_counter (dv s) + 1 /\
        BInv W n s' (mkCopy dst src len dir (copy_counter (dv s)) 0 (dma_map dst) (dma_map src)) /\
        Zlen (executed (hw s)) <= Zlen (executed (hw s')) /\
        forall j, finished_copy_counter (dv s') <= j < finished_copy_counter (dv s') + n -> Zlen W - request_id (tsk (copy_task (dv s')) j) < SLOTS
    end).
Proof.
  intros Hi Hs. unfold md_alloc_copy_request. apply wp_bind, (wp_mono _ _ _ _ (check_tasks_spec W s Hi)). intros _ s1 (Hi1 & K1 & H1).
  pose proof (fresh_after W s1 (Zlen (executed (hw s))) Hi1 ltac:(apply (h_left _ _ (d_hw _ _ (i_dev _ _ Hi)))) H1) as Hfr.
  pose proof (room_iff W s1 Hi1) as Hroom. pose proof Hi1 as [Hd1 Hl1 Ht1]. pose proof K1 as [_ Ks Kc _ _ Ke _].
  apply wp_bind, wp_md_lock; [done|]. apply wp_bind, wp_get. cbn [dv with_lock suspended copy_counter].
  destruct (Z.eqb_spec (suspended (dv s1)) 1) as [Es|Es].
  { unfold md_unlock. apply wp_bind, wp_set_dv, wp_ret. split; [split; cbn|]; [by apply (DInv_lock W s1 false)|done|by apply (TInv_lock W _ s1 false)|].
    split; [apply (kept_trans _ s1); [done|kept_id]|]. left. congruence. }
  pose proof Ht1 as [T0 T1 T2 T3 T4 T5 T6]. set (f := finished_copy_counter (dv s1)) in *. set (c := copy_counter (dv s1)) in *. set (ts := copy_task (dv s1)) in *.
  apply wp_bind, wp_task; [done|]. cbn [dv with_lock copy_task]. fold ts. destruct (Z.eqb_spec (request_id (tsk ts c)) 0) as [Hr|Hr].
  2: { apply wp_bind, wp_ret. unfold md_unlock. apply wp_bind, wp_set_dv, wp_ret.
    split; [split; cbn|]; [by apply (DInv_lock W s1 false)|done|by apply (TInv_lock W _ s1 false)|].
    split; [apply (kept_trans _ s1); [done|kept_id]|]. right. cbn. fold c f.
    destruct (Z_lt_ge_dec (c - f) 64) as [Hlt|]; [by apply Hroom in Hlt|lia]. }
  unfold _md_map_single, set_task. apply wp_bind, wp_bind, wp_bind, wp_set_maps, wp_ret, wp_bind, wp_bind, wp_set_maps, wp_ret.
  apply wp_bind, wp_set_dv, wp_bind, wp_set_dv, wp_ret. unfold md_unlock. apply wp_bind, wp_set_dv, wp_ret.
  cbn [dv hw maps with_lock with_tasks copy_counter finished_copy_counter copy_task locked]. fold c f ts. rewrite Hr.
  apply Hroom in Hr. set (t := mkCopy _ _ _ _ _ _ _ _). set (ts' := <[Z.to_nat (c mod MAX_COPY_TASK) := t]> ts).
  assert (Hu : u64 (c + 1) = c + 1) by (unfold u64; apply Z.mod_small; lia). rewrite Hu.
  assert (Hts : forall j, f <= j < c -> tsk ts' j = tsk ts j) by (intros j Hj; apply tsk_insert_ne; unfold MAX_COPY_TASK; lia).
  assert (Htc : tsk ts' c = t) by (by apply tsk_insert_eq).
  exists (c - f). split; [by rewrite <- Kc|]. split; [by rewrite <- Kc|]. split; [|split; [done|]].
  - split; cbn [dv hw maps with_lock with_tasks copy_counter finished_copy_counter copy_task locked]; fold f c ts ts'; try lia; try done.
    + destruct Hd1. by split.
    + split; cbn [dv hw maps with_lock with_tasks copy_counter finished_copy_counter copy_task]; fold f c ts ts'; try lia; try done.
      * unfold ts'. by rewrite length_insert.
      * intros j Hj. rewrite Hts by lia. apply T3. lia.
      * intros j k Hj Hk. rewrite !Hts by lia. apply T4; lia.
      * intros k Hk Hj. unfold ts'. rewrite tsk_insert_ne.
        -- apply T5; [done|]. intros j Hj'. apply Hj. lia.
        -- rewrite (Z.mod_small k); [|unfold MAX_COPY_TASK; lia]. apply Hj. lia.
      * replace (Z.to_nat (c + 1 - f)) with (S (Z.to_nat (c - f))) by lia. rewrite held_snoc.
        replace (f + Z.of_nat (Z.to_nat (c - f))) with c by lia. rewrite Htc, (held_ext ts) by (intros j Hj; rewrite Hts; [done|lia]).
        rewrite Permutation_app_comm. cbn [task_maps app t c_len dma_src dma_dst]. by rewrite T6.
    + replace (f + (c - f)) with c by lia. rewrite Htc. unfold t. by rewrite Kc.
    + cbn. lia.
  - intros j Hj. fold f ts'. rewrite Hts by lia. apply Hfr. lia.
Qed.
End copy.
