(* ===== verification/MdOps.v ===== *)
(** * The move engine: the operations of the driver *)
From stdpp Require Import base tactics list numbers option.
From Stdlib Require Import ZArith Lia.
From S2P Require Import Prelude Driver Md MdProofs MdCopy.

#[local] Ltac Zify.zify_post_hook ::= Z.div_mod_to_equations.

(** ** The commands of a copy *)

Fixpoint copy_cmds (n : nat) (dir d a len : Z) : list (list Z) :=
  if len =? 0 then []
  else match n with
       | O => []
       | S n' => cmd_words dir d a (piece a len) :: copy_cmds n' dir (u32 (d + piece a len)) (u32 (a + piece a len)) (s32 (len - piece a len))
       end.

(** [n] commands are enough. *)
Fixpoint copy_ends (n : nat) (a len : Z) : bool :=
  if len =? 0 then true
  else match n with
       | O => false
       | S n' => copy_ends n' (u32 (a + piece a len)) (s32 (len - piece a len))
       end.

Lemma s32_small x : 0 <= x < 2147483648 -> s32 x = x.
Proof. intros H. unfold s32. rewrite u32_small by (unfold is_u32, W32; lia). by destruct (Z.ltb_spec x 2147483648); [|lia]. Qed.

Lemma land7 x : Z.land x 7 = x mod 8.
Proof. change 7 with (Z.ones 3). by rewrite Z.land_ones by lia. Qed.

Lemma land255 x : Z.land x 255 = x mod 256.
Proof. change 255 with (Z.ones 8). by rewrite Z.land_ones by lia. Qed.

Lemma piece_eq a len : piece a len = if (len - (8 - a mod 8) mod 8) mod 256 =? 8 then 8 else len.
Proof. unfold piece. by rewrite !land7, land255. Qed.

(** The next command moves something, and not more than is left. *)
Lemma piece_bounds a len : 0 < len -> 0 < piece a len <= len.
Proof. intros H. rewrite piece_eq. destruct (Z.eqb_spec ((len - (8 - a mod 8) mod 8) mod 256) 8); lia. Qed.

(** After a command of 8 bytes the rest fits in one. *)
Lemma piece_rest a len : 0 < len -> piece a len <> len -> piece (u32 (a + 8)) (len - 8) = len - 8 /\ piece a len = 8.
Proof.
  intros H. rewrite !piece_eq. destruct (Z.eqb_spec ((len - (8 - a mod 8) mod 8) mod 256) 8) as [E|]; [|done]. intros _. split; [|done].
  assert (Ha : u32 (a + 8) mod 8 = a mod 8) by (unfold u32, W32; lia). rewrite Ha.
  destruct (Z.eqb_spec ((len - 8 - (8 - a mod 8) mod 8) mod 256) 8); lia.
Qed.

Lemma copy_ends_2 a len : 0 <= len < 2147483648 -> copy_ends 2 a len = true.
Proof.
  intros H. cbn [copy_ends]. destruct (Z.eqb_spec len 0); [done|]. pose proof (piece_bounds a len ltac:(lia)) as Hb.
  destruct (Z.eq_dec (piece a len) len) as [->|Hne]; [by rewrite Z.sub_diag|].
  destruct (piece_rest a len ltac:(lia) Hne) as [Hr E8]. rewrite E8 in *. rewrite (s32_small (len - 8)) by lia. rewrite Hr.
  destruct (Z.eqb_spec (len - 8) 0); [done|]. by rewrite Z.sub_diag.
Qed.

Lemma copy_cmds_length n : forall dir d a len, (length (copy_cmds n dir d a len) <= n)%nat.
Proof. induction n as [|n IH]; intros dir d a len; cbn [copy_cmds]; destruct (len =? 0); cbn; [lia..|]. specialize (IH dir (u32 (d + piece a len)) (u32 (a + piece a len)) (s32 (len - piece a len))). lia. Qed.

Lemma TInv_grow W W' n s : TInv W n s -> Zlen W <= Zlen W' < W32 * W32 ->
  (forall j, finished_copy_counter (dv s) <= j < finished_copy_counter (dv s) + n -> Zlen W' - request_id (tsk (copy_task (dv s)) j) < 0x8000) -> TInv W' n s.
Proof.
  intros [T0 T1 T2 T3 T4 T5 T6] Hl Hf. split; try done; try lia. intros j Hj. destruct (T3 j Hj) as (H1 & H2 & H3). split; [done|]. split; [lia|auto].
Qed.

Section ops.
Context {env : MdEnv}.
Variable dly : nat.
Hypothesis Hfair : fair dly.
Variable fuel : nat.
Hypothesis Hfuel : (1024 * dly <= fuel)%nat.

(** The copies before the last one are not too old for [k] more commands. *)
Definition fresh (W : list (list Z)) (n : Z) (s : st) (k : Z) : Prop :=
  forall j, finished_copy_counter (dv s) <= j < finished_copy_counter (dv s) + n -> Zlen W + k - request_id (tsk (copy_task (dv s)) j) < 0x8000.

Lemma build_write W n s t w0 w1 w2 w3 (cmd := [w0; w1; w2; w3]) : BInv W n s t -> fresh W n s 1 -> Zlen W + 1 < W32 * W32 ->
  wp (md_write fuel cmd 16) s (fun h s' => BInv (W ++ [cmd]) n s' t /\ h = Zlen W + 1 /\ same_copies s s').
Proof.
  intros [Hd Hl Ht Hc Hk Hi] Hf Hs. apply (wp_mono _ _ _ _ (WriteCmd_spec dly Hfair fuel Hfuel W s w0 w1 w2 w3 Hd Hl)).
  intros h s' (Hd' & Hl' & -> & P). pose proof P as [P1 P2 P3 P4 P5 P6]. pose proof (Zlen_nonneg W).
  assert (HZ : Zlen (W ++ [cmd]) = Zlen W + 1) by (by rewrite Zlen_app).
  split; [|split; [unfold u64; apply Z.mod_small; lia|done]].
  split; rewrite ?P1, ?P2, ?P3; try done. apply (TInv_grow W); [by apply (TInv_same _ _ s)|lia|]. rewrite P2, P3, HZ. exact Hf.
Qed.

Lemma build_set W n s t t' i : BInv W n s t -> i = (finished_copy_counter (dv s) + n) mod MAX_COPY_TASK ->
  copy_id t' = copy_id t -> task_maps t' = task_maps t ->
  wp (set_task i t') s (fun _ s' => BInv W n s' t' /\ hw s' = hw s /\ finished_copy_counter (dv s') = finished_copy_counter (dv s) /\
    forall j, finished_copy_counter (dv s) <= j < finished_copy_counter (dv s) + n -> tsk (copy_task (dv s')) j = tsk (copy_task (dv s)) j).
Proof.
  intros [Hd Hl Ht Hc Hk Hid] -> Ei Em. unfold set_task. apply wp_set_dv. pose proof Ht as [T0 T1 T2 T3 T4 T5 T6].
  set (f := finished_copy_counter (dv s)) in *. set (c := copy_counter (dv s)) in *. set (ts := copy_task (dv s)) in *.
  cbn [dv with_tasks finished_copy_counter copy_task hw]. fold f ts. set (ts' := <[Z.to_nat ((f + n) mod MAX_COPY_TASK) := t']> ts).
  assert (Hts : forall j, f <= j < f + n -> tsk ts' j = tsk ts j) by (intros j Hj; apply tsk_insert_ne; unfold MAX_COPY_TASK; lia).
  assert (Htc : tsk ts' (f + n) = t') by (by apply tsk_insert_eq).
  split; [|done]. split; cbn [dv with_tasks copy_counter finished_copy_counter copy_task locked]; fold f c ts ts'; try done; try congruence.
  - by apply DInv_tasks.
  - split; cbn [dv maps with_tasks copy_counter finished_copy_counter copy_task]; fold f c ts ts'; try done.
    + unfold ts'. by rewrite length_insert.
    + intros j Hj. rewrite Hts by lia. auto.
    + intros j k Hj Hk'. rewrite !Hts by lia. auto.
    + intros k Hk' Hj. unfold ts'. rewrite tsk_insert_ne; [by apply T5|]. rewrite (Z.mod_small k); [|unfold MAX_COPY_TASK; lia]. apply Hj. lia.
    + rewrite (held_ext ts); [done|]. intros j Hj. destruct (Z.eq_dec j (f + n)) as [->|]; [by rewrite Htc, Hk, Em|]. rewrite Hts; [done|lia].
Qed.

(** The loop writes the commands of the copy and leaves the number of the last
    one in the task. *)
Lemma copy_loop_spec n : forall W m s t d a len, BInv W m s t -> fresh W m s (Z.of_nat n) -> Zlen W + Z.of_nat n < W32 * W32 ->
  copy_ends n a len = true ->
  wp (copy_loop fuel n ((finished_copy_counter (dv s) + m) mod MAX_COPY_TASK) d a len) s (fun _ s' =>
    let cmds := copy_cmds n (c_dir t) d a len in
    exists t', BInv (W ++ cmds) m s' t' /\ finished_copy_counter (dv s') = finished_copy_counter (dv s) /\
      Zlen (executed (hw s)) <= Zlen (executed (hw s')) /\ copy_id t' = copy_id t /\ c_dir t' = c_dir t /\
      request_id t' = (if len =? 0 then request_id t else Zlen (W ++ cmds)) /\
      forall j, finished_copy_counter (dv s) <= j < finished_copy_counter (dv s) + m -> tsk (copy_task (dv s')) j = tsk (copy_task (dv s)) j).
Proof.
  induction n as [|n IH]; intros W m s t d a len Hb Hf Hs He; cbn [copy_loop copy_ends copy_cmds] in *.
  { destruct (len =? 0); [|done]. apply wp_ret. exists t. rewrite app_nil_r. done. }
  destruct (Z.eqb_spec len 0) as [->|Hne]; [apply wp_ret; exists t; rewrite app_nil_r; done|].
  pose proof Hb as [Hd Hl Ht Hc Hk Hid]. set (tmp := piece a len) in *.
  apply wp_bind, wp_task; [apply Ht|]. rewrite Hk.
  assert (Hf1 : fresh W m s 1) by (intros j Hj; specialize (Hf j Hj); lia).
  apply wp_bind, (wp_mono _ _ _ _ (build_write W m s t _ _ _ _ Hb Hf1 ltac:(lia))). intros h s1 (Hb1 & -> & P1).
  fold (cmd_words (c_dir t) d a tmp) in *. set (cmd := cmd_words (c_dir t) d a tmp) in *.
  pose proof P1 as [Q1 Q2 Q3 Q4 Q5 Q6]. rewrite <- Q2. apply wp_bind, wp_task; [apply (b_copies _ _ _ _ Hb1)|]. rewrite (b_task _ _ _ _ Hb1).
  set (t1 := mkCopy _ _ _ _ _ _ _ _).
  apply wp_bind, (wp_mono _ _ _ _ (build_set _ m s1 t t1 _ Hb1 eq_refl eq_refl eq_refl)). intros _ s2 (Hb2 & E2 & F2 & K2).
  rewrite <- F2. assert (Hf2 : fresh (W ++ [cmd]) m s2 (Z.of_nat n)).
  { intros j Hj. rewrite F2, Q2 in Hj. rewrite K2, Q3 by (rewrite Q2; done). specialize (Hf j Hj). rewrite Zlen_app. unfold Zlen at 2. cbn [length]. lia. }
  apply (wp_mono _ _ _ _ (IH (W ++ [cmd]) m s2 t1 _ _ _ Hb2 Hf2 ltac:(rewrite Zlen_app; unfold Zlen at 2; cbn [length]; lia) He)).
  intros _ s3 (t3 & Hb3 & F3 & E3 & I3 & D3 & R3 & K3). exists t3. rewrite <- app_assoc in Hb3, R3. unfold t1 in Hb3, R3. cbn [app c_dir request_id] in Hb3, R3.
  split; [exact Hb3|]. split; [congruence|]. split; [rewrite E2 in E3; lia|]. split; [exact I3|]. split; [exact D3|]. split.
  - rewrite R3. destruct (Z.eqb_spec (s32 (len - tmp)) 0) as [E|E]; [|done].
    unfold t1. cbn [request_id]. rewrite E. destruct n; cbn [copy_cmds Z.eqb]; rewrite Zlen_app; unfold Zlen at 3; cbn; lia.
  - intros j Hj. rewrite (K3 j Hj), K2 by (by rewrite <- F2). by rewrite Q3.
Qed.

Lemma build_done W (W0 : list (list Z)) m s t : BInv W m s t -> request_id t = Zlen W -> Zlen W0 < Zlen W -> finished_copy_counter (dv s) + m <= Zlen W0 ->
  (forall j, finished_copy_counter (dv s) <= j < finished_copy_counter (dv s) + m -> request_id (tsk (copy_task (dv s)) j) <= Zlen W0) -> Inv W s.
Proof.
  intros [Hd Hl Ht Hc Hk Hid] Hr HW Hm Hj. split; [done|done|]. destruct Ht as [T0 T1 T2 T3 T4 T5 T6]. pose proof (Zlen_nonneg W0).
  split; try done; try lia.
  - intros j Hj'. destruct (Z.eq_dec j (finished_copy_counter (dv s) + m)) as [->|]; [|apply T3; lia].
    rewrite Hk. split; [done|]. rewrite Hr. lia.
  - intros j k Hjk Hk'. destruct (Z.eq_dec k (finished_copy_counter (dv s) + m)) as [->|]; [|apply T4; lia].
    rewrite Hk, Hr. specialize (Hj j ltac:(lia)). lia.
Qed.

(** What [md_copy_start] leaves behind when it accepts a copy. *)
Definition started (W : list (list Z)) (s s' : st) (cmds : list (list Z)) : Prop :=
  Inv (W ++ cmds) s' /\ 0 < Zlen cmds <= 2 /\ copy_counter (dv s') = copy_counter (dv s) + 1 /\
  finished_copy_counter (dv s') <= copy_counter (dv s) /\ request_id (tsk (copy_task (dv s')) (copy_counter (dv s))) = Zlen (W ++ cmds).

Lemma start_spec W s dst src len dir : Inv W s -> 0 < len < 2147483648 -> Zlen W + 2 < W32 * W32 ->
  wp (md_copy_start fuel dst src len dir) s (fun r s' => Zlen (executed (hw s)) <= Zlen (executed (hw s')) /\
    (r = copy_counter (dv s) /\ started W s s' (copy_cmds copy_fuel dir (dma_map dst) (dma_map src) len) \/
     r = 0 /\ Inv W s' /\ kept s s' /\ (suspended (dv s) = 1 \/ copy_counter (dv s') - finished_copy_counter (dv s') = 64))).
Proof.
  intros Hi Hlen Hs. unfold md_copy_start. apply wp_bind, (wp_mono _ _ _ _ (alloc_spec dly Hfair W s dst src len dir Hi Hs)).
  intros [i|] s1; [|intros (Hi1 & K1 & H1); apply wp_ret; split; [apply K1|right; done]].
  intros (n & -> & C1 & Hb1 & E1 & Hfr). set (t := mkCopy _ _ _ _ _ _ _ _) in *. pose proof Hb1 as [Hd1 Hl1 Ht1 Hc1 Hk1 Hid1]. cbn [copy_id t] in Hid1.
  unfold copy_commands. rewrite Hid1. apply wp_bind, wp_task; [apply Ht1|]. rewrite Hk1. cbn [dma_dst dma_src t].
  assert (Hf1 : fresh W n s1 (Z.of_nat copy_fuel)) by (intros j Hj; specialize (Hfr j Hj); unfold copy_fuel, SLOTS in *; lia).
  apply wp_bind, (wp_mono _ _ _ _ (copy_loop_spec copy_fuel W n s1 t _ _ _ Hb1 Hf1 ltac:(unfold copy_fuel; lia) (copy_ends_2 _ len ltac:(lia)))).
  cbn zeta. intros _ s2 (t2 & Hb2 & F2 & E2 & I2 & _ & R2 & K2). cbn [c_dir t] in *.
  set (cmds := copy_cmds copy_fuel dir (dma_map dst) (dma_map src) len) in *. rewrite <- F2. apply wp_bind, wp_task; [apply (b_copies _ _ _ _ Hb2)|].
  rewrite (b_task _ _ _ _ Hb2). apply wp_ret. split; [lia|]. left. rewrite I2. split; [rewrite F2; exact Hid1|].
  destruct (Z.eqb_spec len 0); [lia|].
  assert (Hcm : 0 < Zlen cmds <= 2).
  { pose proof (copy_cmds_length copy_fuel dir (dma_map dst) (dma_map src) len). fold cmds in H. unfold copy_fuel, Zlen in *.
    split; [|lia]. unfold cmds. cbn [copy_cmds]. destruct (Z.eqb_spec len 0); [lia|]. cbn [length]. lia. }
  split; [|split; [done|]].
  - apply (build_done _ W n s2 t2 Hb2 R2); [rewrite Zlen_app; lia|rewrite F2; apply Ht1|].
    intros j Hj. rewrite F2 in Hj. rewrite K2 by done. destruct (t_full _ _ _ Ht1 j Hj) as (_ & ? & _). lia.
  - pose proof (t_cnt _ _ _ (b_copies _ _ _ _ Hb2)). split; [rewrite (b_last _ _ _ _ Hb2), F2; lia|]. split; [rewrite F2; lia|].
    rewrite <- R2, Hid1, <- F2. f_equal. apply (b_task _ _ _ _ Hb2).
Qed.

Lemma Inv_ran W s s' : ran dly W s s' -> Inv W s -> Inv W s'.
Proof.
  intros R [A1 A2 A3]. split; [by apply (ran_dinv _ _ _ _ R)|by rewrite (n_dv _ _ _ _ R)|]. rewrite (n_dv _ _ _ _ R).
  apply (TInv_same _ _ s); [by apply (ran_copies dly W)|done].
Qed.

Lemma sync_spec W s handle : Inv W s -> 0 <= handle ->
  wp (md_copy_sync fuel handle) s (fun r s' => r = 0 /\ Inv W s' /\ kept s s' /\
    (handle < copy_counter (dv s) -> handle < finished_copy_counter (dv s')) /\
    (finished_copy_counter (dv s) <= handle < copy_counter (dv s) -> request_id (tsk (copy_task (dv s)) handle) <= Zlen (executed (hw s')))).
Proof.
  intros Hi Hh. pose proof Hi as [Hd Hl Ht]. pose proof Ht as [T0 T1 T2 T3 T4 T5 T6]. unfold md_copy_sync. apply wp_bind, wp_get.
  destruct (Z.geb_spec handle (finished_copy_counter (dv s))) as [Hge|Hlt].
  2: { apply wp_ret. split; [done|]. split; [done|]. split; [kept_id|]. lia. }
  apply wp_bind, wp_md_lock; [done|]. apply wp_bind, wp_task; [done|]. unfold md_unlock. apply wp_bind, wp_set_dv.
  cbn [dv hw maps with_lock copy_task]. set (f := finished_copy_counter (dv s)) in *. set (c := copy_counter (dv s)) in *. set (ts := copy_task (dv s)) in *.
  set (s1 := mkSt _ _ _). assert (Hi1 : Inv W s1) by (split; [apply (DInv_lock W s false Hd)|done|apply (TInv_lock W _ s false Ht)]).
  assert (K1 : kept s s1) by kept_id.
  assert (Hwait : wp (wait_finish fuel (request_id (tsk ts handle))) s1 (fun _ s' => ran dly W s1 s' /\ request_id (tsk ts handle) <= Zlen (executed (hw s')))).
  { pose proof (left_over_bound dly Hfair W s1 (d_hw _ _ Hd)) as Hlo.
    set (j := f + (handle - f) mod 64). assert (Ej : tsk ts handle = tsk ts j) by (rewrite <- tsk_mod, <- (tsk_mod _ j); f_equal; unfold j, MAX_COPY_TASK; lia).
    destruct (Z_lt_ge_dec j c) as [Hj|Hj].
    - destruct (T3 j ltac:(unfold j in *; lia)) as (_ & Hr & Hf). rewrite Ej. apply wait_finish_spec; [done|apply Hd|done|done|lia].
    - assert (E0 : tsk ts handle = no_copy).
      { rewrite <- tsk_mod. apply T5; [unfold MAX_COPY_TASK; lia|]. intros k Hk. unfold j, MAX_COPY_TASK in *. lia. }
      rewrite E0. cbn [request_id no_copy]. destruct fuel as [|fuel']; [lia|]. cbn [wait_finish]. apply wp_bind. unfold md_checkfinish. cbn [Z.eqb].
      apply wp_ret, wp_ret. split; [apply ran_refl, Hd|]. apply Zlen_nonneg. }
  apply wp_bind, (wp_mono _ _ _ _ Hwait). intros _ s2 [R2 H2].
  assert (Hi2 : Inv W s2) by (by apply (Inv_ran _ s1)).
  apply wp_bind, (wp_mono _ _ _ _ (check_tasks_spec dly Hfair W s2 Hi2)). intros _ s3 (Hi3 & K3 & H3). apply wp_ret.
  assert (K03 : kept s s3) by (apply (kept_trans _ s1); [done|]; apply (kept_trans _ s2); [by apply (ran_kept dly W)|done]).
  split; [done|]. split; [done|]. split; [done|]. split.
  - intros Hc. pose proof K03 as [_ _ Kc Kf Kt _ _]. fold c in Kc. fold f in Kf. destruct H3 as [H3|H3]; [lia|].
    destruct (Z_lt_ge_dec handle (finished_copy_counter (dv s3))) as [|Hge']; [done|exfalso].
    rewrite Kt in H3 by lia. fold ts in H3.
    destruct (Z.eq_dec handle (finished_copy_counter (dv s3))) as [Eh|]; [rewrite <- Eh in H3; lia|].
    pose proof (T4 (finished_copy_counter (dv s3)) handle ltac:(lia) ltac:(lia)). lia.
  - intros _. pose proof (k_done _ _ K3). lia.
Qed.

Lemma checkfinish_ran W s h : Inv W s -> wp (md_checkfinish h) s (fun _ s' => Inv W s').
Proof.
  intros Hi. unfold md_checkfinish. destruct (h =? 0); [by apply wp_ret|].
  apply wp_bind, (wp_mono _ _ _ _ (read_spec dly Hfair (fun s => inst (hw s)) W s (d_hw _ _ (i_dev _ _ Hi)))). intros v s1 (_ & R1 & _).
  pose proof (Inv_ran _ _ _ R1 Hi) as Hi1. fold (finished (Z.land v 0xFFFF) (Z.land (u32 h) 0xFFFF)). destruct (finished _ _); [by apply wp_ret|].
  apply wp_bind, (wp_mono _ _ _ _ (check_hardware_spec dly Hfair W s1 (n_inv _ _ _ _ R1))). intros _ s2 R2. apply wp_ret. by apply (Inv_ran _ _ _ R2).
Qed.

(** ** Suspending *)

(** An upper bound of the turns of [suspend_loop]. *)
Definition turns_left (W : list (list Z)) (n : Z) (s : st) : nat :=
  (Z.to_nat n + (if (pend W (hw s) =? 0)%Z then 0 else left_over dly W s))%nat.

Lemma suspend_loop_spec W k : forall n s, DInv W s -> TInv W n s -> n = copy_counter (dv s) - finished_copy_counter (dv s) -> (turns_left W n s <= k)%nat ->
  wp (suspend_loop k) s (fun _ s' => DInv W s' /\ TInv W 0 s' /\ kept s s' /\ copy_counter (dv s') = finished_copy_counter (dv s') /\
    forall j, finished_copy_counter (dv s) <= j < copy_counter (dv s) -> request_id (tsk (copy_task (dv s)) j) <= Zlen (executed (hw s'))).
Proof.
  induction k as [|k IH]; intros n s Hd Ht Hn Hk; cbn [suspend_loop]; apply wp_bind, wp_get; pose proof Ht as [T0 T1 T2 T3 T4 _ _];
    (destruct (Z.ltb_spec (finished_copy_counter (dv s)) (copy_counter (dv s)));
     [|assert (n = 0) as -> by lia; apply wp_ret; split; [done|]; split; [done|]; split; [kept_id|]; split; lia]).
  { unfold turns_left in Hk. lia. }
  destruct (T3 (finished_copy_counter (dv s)) ltac:(lia)) as (_ & Hr & Hf). apply wp_bind, wp_task; [done|].
  apply wp_bind, (wp_mono _ _ _ _ (checkfinish_spec dly Hfair W s _ (d_hw _ _ Hd) Hr Hf)). intros [] s1 [R1 H1];
    pose proof (ran_dinv _ _ _ _ R1 Hd) as Hd1; pose proof (TInv_ran dly W _ _ _ R1 Ht) as Ht1; pose proof (n_dv _ _ _ _ R1) as E1;
    pose proof (h_left _ _ (d_hw _ _ Hd)) as HL; pose proof (h_left _ _ (d_hw _ _ Hd1)) as HL1; pose proof (n_done _ _ _ _ R1) as HD1.
  - rewrite <- E1. apply (wp_seq _ _ _ _ _ _ (release_step W n s1 Hd1 Ht1 ltac:(lia) ltac:(by rewrite E1))). intros [] s2 (Hd2 & Ht2 & K2 & F2 & E2).
    pose proof (k_counter _ _ K2) as C2. rewrite E1 in C2, F2.
    assert (Hk2 : (turns_left W (n - 1) s2 <= k)%nat).
    { assert (El : left_over dly W s2 = left_over dly W s1) by (unfold left_over; by rewrite E2). revert Hk. unfold turns_left. rewrite El, E2. pose proof (n_left _ _ _ _ R1) as Hl. unfold pend in *.
      destruct (Z.eqb_spec (Zlen W - Zlen (executed (hw s1))) 0), (Z.eqb_spec (Zlen W - Zlen (executed (hw s))) 0); lia. }
    apply (wp_mono _ _ _ _ (IH (n - 1) s2 Hd2 Ht2 ltac:(lia) Hk2)).
    intros _ s3 (Hd3 & Ht3 & K3 & F3 & H3). split; [done|]. split; [done|]. split; [apply (kept_trans _ s1); [by apply (ran_kept dly W)|by apply (kept_trans _ s2)]|].
    split; [done|]. rewrite E1. intros j Hj. pose proof (k_done _ _ K3). pose proof (k_done _ _ K2).
    destruct (Z.eq_dec j (finished_copy_counter (dv s))) as [->|]; [lia|]. specialize (H3 j ltac:(lia)).
    rewrite (k_task _ _ K2) in H3 by lia. by rewrite E1 in H3.
  - destruct H1 as [H1 H1']. assert (Hk1 : (turns_left W n s1 <= k)%nat).
    { revert Hk. unfold turns_left, pend in *.
      destruct (Z.eqb_spec (Zlen W - Zlen (executed (hw s1))) 0), (Z.eqb_spec (Zlen W - Zlen (executed (hw s))) 0); lia. }
    apply (wp_mono _ _ _ _ (IH n s1 Hd1 Ht1 ltac:(rewrite E1; lia) Hk1)).
    intros _ s2 (Hd2 & Ht2 & K2 & F2 & H2). split; [done|]. split; [done|]. split; [by apply (kept_trans _ s1); [apply (ran_kept dly W)|]|].
    split; [done|]. rewrite E1 in H2. exact H2.
Qed.

Lemma suspend_spec W s : Inv W s -> (1024 * dly + 64 <= fuel)%nat ->
  wp (md_drv_suspend fuel) s (fun r s' => r = 0 /\ finished_copy_counter (dv s') = copy_counter (dv s) /\ maps s' = [] /\
    (forall j, finished_copy_counter (dv s) <= j < copy_counter (dv s) -> request_id (tsk (copy_task (dv s)) j) <= Zlen (executed (hw s'))) /\
    locked (dv s') = false /\ suspended (dv s') = 1 /\ copy_counter (dv s') = copy_counter (dv s)).
Proof.
  intros [Hd Hl Ht] Hk. unfold md_drv_suspend. apply wp_bind, wp_md_lock; [done|]. apply wp_bind, wp_set_dv. cbn [dv hw maps].
  set (s1 := mkSt _ _ _). set (n := copy_counter (dv s) - finished_copy_counter (dv s)) in *.
  assert (Hd1 : DInv W s1) by (destruct Hd; by split). assert (Ht1 : TInv W n s1) by (destruct Ht; by split).
  assert (Hb : (turns_left W n s1 <= fuel)%nat).
  { unfold turns_left. pose proof (left_over_bound dly Hfair W s1 (d_hw _ _ Hd1)). pose proof (t_cnt _ _ _ Ht). destruct (_ =? _); lia. }
  apply wp_bind, (wp_mono _ _ _ _ (suspend_loop_spec W fuel n s1 Hd1 Ht1 eq_refl Hb)). intros _ s2 (Hd2 & Ht2 & K2 & F2 & H2).
  apply wp_bind, (wp_mono _ _ _ _ (read_spec dly Hfair (fun s => inst (hw s)) W s2 (d_hw _ _ Hd2))). intros v s3 (_ & R3 & _).
  apply wp_bind, wp_set_dv. unfold md_unlock. apply wp_bind, wp_set_dv, wp_ret.
  cbn [dv hw maps with_lock with_counter finished_copy_counter copy_counter locked suspended]. pose proof R3 as [_ E3 M3 _ _ N3 _]. rewrite E3, M3.
  pose proof K2 as [_ K2s K2c _ _ _ _]. unfold s1 in K2s, K2c, H2. cbn [dv with_state with_lock suspended copy_counter finished_copy_counter copy_task] in K2s, K2c, H2.
  split; [done|]. split; [lia|]. split; [|split; [intros j Hj; specialize (H2 j Hj); lia|done]].
  pose proof (t_maps _ _ _ Ht2) as HM. rewrite F2, Z.sub_diag in HM. by apply Permutation_nil_r in HM.
Qed.

Lemma start_suspended s dst src len dir : locked (dv s) = false -> suspended (dv s) = 1 -> copy_counter (dv s) <= finished_copy_counter (dv s) ->
  md_copy_start fuel dst src len dir s = Ret (0, s).
Proof.
  intros Hl Hs Hc. destruct s as [[b1 b2 b3 w o sz lo hi lk su c f ts] h m]. cbn in Hl, Hs, Hc. subst. unfold md_copy_start, md_alloc_copy_request, md_check_copy_tasks, mbind, Drv_bind, get.
  cbn [dv finished_copy_counter copy_counter]. destruct (Z.ltb_spec f c) as [Hlt|]; [clear - Hlt Hc; lia|]. reflexivity.
Qed.

(** A raw command. *)
Lemma write_spec W s w0 w1 w2 w3 (cmd := [w0; w1; w2; w3]) : Inv W s ->
  fresh W (copy_counter (dv s) - finished_copy_counter (dv s)) s 1 -> Zlen W + 1 < W32 * W32 ->
  wp (md_write fuel cmd 16) s (fun h s' => Inv (W ++ [cmd]) s' /\ h = Zlen W + 1 /\ same_copies s s').
Proof.
  intros [Hd Hl Ht] Hf Hs. apply (wp_mono _ _ _ _ (WriteCmd_spec dly Hfair fuel Hfuel W s w0 w1 w2 w3 Hd Hl)).
  intros h s' (Hd' & Hl' & -> & P). pose proof P as [P1 P2 P3 P4 P5 P6]. pose proof (Zlen_nonneg W).
  assert (HZ : Zlen (W ++ [cmd]) = Zlen W + 1) by (by rewrite Zlen_app).
  split; [|split; [unfold u64; apply Z.mod_small; lia|done]]. split; [done|done|]. rewrite P1, P2.
  apply (TInv_grow W); [by apply (TInv_same _ _ s)|lia|]. rewrite P2, P3, HZ. exact Hf.
Qed.
End ops.
