(* ===== verification/MdRuns.v ===== *)
(** * The move engine: sequences of requests and what a copy moves *)
From stdpp Require Import base tactics list numbers option.
From Stdlib Require Import ZArith Lia.
From S2P Require Import Prelude Driver Md MdProofs MdCopy MdOps.

#[local] Ltac Zify.zify_post_hook ::= Z.div_mod_to_equations.

(** ** Requests to the driver *)

Inductive op :=
| OWrite (w0 w1 w2 w3 : Z)
| OMemset (dst data len : Z)
| OStart (dst src len dir : Z)
| OMemcpy (dst src len forward : Z)
| OSync (handle : Z)
| OTasks
| OFinish (handle : Z).

(** The commands that wait in the ring, read from memory between the pointers. *)
Definition waiting (h : md_hw) : list (list Z) :=
  (fun k => slot (ring h) (4 * (((rdp h - hbase h) / 16 + k) mod SLOTS))) <$> seqZ 0 (((wrp h - rdp h) / 16) mod SLOTS).

(** The number of commands written so far. *)
Definition written (h : md_hw) : Z := Zlen (executed h) + ((wrp h - rdp h) / 16) mod SLOTS.

Lemma pend_eq W h : HInv W h -> ((wrp h - rdp h) / 16) mod SLOTS = pend W h.
Proof. intros [_ _ _ _ _ Hleft Hrdp Hwrp _ _]. rewrite Hwrp, Hrdp. unfold pend, SLOTS in *. lia. Qed.

Lemma written_eq W h : HInv W h -> written h = Zlen W.
Proof. intros Hh. unfold written. rewrite (pend_eq W h Hh). unfold pend. lia. Qed.

Lemma slot_index b e i : ((b + 16 * (e mod SLOTS) - b) / 16 + i) mod SLOTS = (e + i) mod SLOTS.
Proof. replace (b + 16 * (e mod SLOTS) - b) with (e mod SLOTS * 16) by ring. rewrite Z.div_mul by done. apply Z.add_mod_idemp_l. done. Qed.

Lemma waiting_eq W h : HInv W h -> executed h ++ waiting h = W.
Proof.
  intros Hh. pose proof (pend_eq W h Hh) as Hp. destruct Hh as [_ _ _ _ Hdone Hleft Hrdp _ _ Hslots]. unfold waiting. rewrite Hp, Hrdp. clear Hp Hrdp.
  rewrite Hdone at 1. rewrite <- (take_drop (length (executed h)) W) at 3. f_equal. apply list_eq. intros i.
  rewrite list_lookup_fmap, lookup_drop. clear Hdone. destruct (Z_lt_ge_dec (Z.of_nat i) (pend W h)) as [Hi|Hi].
  - rewrite lookup_seqZ_lt by done. cbn [fmap option_fmap option_map]. rewrite slot_index. unfold pend in Hi.
    specialize (Hslots (Zlen (executed h) + (0 + Z.of_nat i)) ltac:(lia)). rewrite <- Hslots. f_equal. unfold Zlen. clear. lia.
  - rewrite lookup_seqZ_ge, lookup_ge_None_2; [done| |lia]. unfold pend, Zlen in *. clear - Hi. lia.
Qed.

Lemma all_executed W h : HInv W h -> Zlen W <= Zlen (executed h) -> executed h = W.
Proof. intros [_ _ _ _ Hdone Hleft _ _ _ _] Hl. rewrite Hdone. apply take_ge. unfold Zlen in *. lia. Qed.

Section requests.
Context {env : MdEnv}.
Variable fuel : nat.

Definition run_op (o : op) : D Z :=
  match o with
  | OWrite w0 w1 w2 w3 => md_write fuel [w0; w1; w2; w3] 16
  | OMemset dst data len => md_memset fuel dst data len
  | OStart dst src len dir => md_copy_start fuel dst src len dir
  | OMemcpy dst src len forward => md_memcpy fuel dst src len forward
  | OSync handle => md_copy_sync fuel handle
  | OTasks => _ ← md_check_copy_tasks; mret 0
  | OFinish handle => b ← md_checkfinish handle; mret (if (b : bool) then 1 else 0)
  end.

(** Copies have a positive length, handles are unsigned, the 64-bit counters do
    not overflow, and no copy that still has to be released is more than
    [2^15 - 2] commands old when a raw command is written. *)
Definition allowed (o : op) (s : st) : bool :=
  (written (hw s) + 2 <? W32 * W32) &&
  match o with
  | OWrite _ _ _ _ | OMemset _ _ _ =>
      (copy_counter (dv s) =? finished_copy_counter (dv s)) ||
      (written (hw s) + 1 - request_id (tsk (copy_task (dv s)) (finished_copy_counter (dv s))) <? 0x8000)
  | OStart _ _ len _ | OMemcpy _ _ len _ => (0 <? len) && (len <? 2147483648)
  | OSync handle => 0 <=? handle
  | OTasks | OFinish _ => true
  end.

(** The results of the requests, up to the first that is not allowed. *)
Fixpoint run_ops (ops : list op) (s : st) : res (list Z * st) :=
  match ops with
  | [] => Ret ([], s)
  | o :: ops' =>
      if allowed o s then
        '(r, s) ← run_op o s;
        '(rs, s) ← run_ops ops' s;
        Ret (r :: rs, s)
      else Ret ([], s)
  end.

(** The commands that a request puts into the ring; a copy can be refused. *)
Definition issues (o : op) (cs : list (list Z)) : Prop :=
  match o with
  | OWrite w0 w1 w2 w3 => cs = [[w0; w1; w2; w3]]
  | OMemset dst data len => cs = [memset_words dst data len]
  | OStart dst src len dir | OMemcpy dst src len dir => cs = [] \/ cs = copy_cmds copy_fuel dir (dma_map dst) (dma_map src) len
  | OSync _ | OTasks | OFinish _ => cs = []
  end.

(** ** Opening *)

Lemma engine_off n : forall h, go h = false -> engine n h = h.
Proof. induction n as [|n IH]; intros h Hg; [done|]. cbn [engine]. unfold engine_step. rewrite Hg. by apply IH. Qed.

(** Before [md_open]: the engine is off.  [kmalloc] gives a block of the kernel
    segment. *)
Definition off (s : st) : Prop := go (hw s) = false /\ executed (hw s) = [] /\ maps s = [].
Definition block_ok (b : Z * list Z) : Prop := 0x80000000 <= fst b /\ fst b + 16384 <= 0x90000000 /\ Zlen (snd b) = 4096.

Definition hw_now (n : nat) (h : md_hw) : md_hw := mkHw (rdp h) (wrp h) (hbase h) (hlimit h) (inst h) (ring h) (executed h) n (go h).

#[local] Ltac hwc := cbn [dv hw maps hw_now rdp wrp hbase hlimit inst ring executed now go size wrptr CmdBuf CmdBase CmdLimit v_to_p_offset sw_low sw_high
  locked suspended copy_counter finished_copy_counter copy_task Z.land Z.lor Z.eqb Pos.land Pos.lor Pos.eqb negb SMQ_GO SMQ_SET_WRITE_DATA SMQ_CLR_WRITE_DATA SMQ_CMD_SWAP].

(** A register is written while the engine is off. *)
Lemma set_off f s (Q : unit -> st -> Prop) : go (hw s) = false ->
  (forall n, Q tt (mkSt (dv s) (f (hw_now n (hw s))) (maps s))) -> wp (_ ← tick; set_hw f) s Q.
Proof. intros Hg HQ. apply wp_bind. unfold wp, tick. rewrite engine_off by done. eexists _, _. split; [reflexivity|]. apply wp_set_hw, HQ. Qed.

Lemma kseg a : 0x80000000 <= a < 0x90000000 -> Z.lor (Z.land a 0x0FFFFFFF) 0xA0000000 = a + 0x20000000 /\ virt_to_phys a = a - 0x80000000.
Proof.
  intros H. assert (Hl : Z.land a 0x0FFFFFFF = a - 0x80000000).
  { change 0x0FFFFFFF with (Z.ones 28). rewrite Z.land_ones by lia. change (2 ^ 28) with 268435456. lia. }
  split; [|unfold virt_to_phys, u32, W32; lia]. rewrite Hl, Z.lor_comm. change 0xA0000000 with (Z.shiftl 10 28).
  rewrite lor_shiftl_add by lia. lia.
Qed.

Lemma open_spec s b : off s -> block_ok b -> wp (md_open b) s (fun _ s' => Inv [] s' /\ copy_counter (dv s') = 0 /\ suspended (dv s') = 0).
Proof.
  destruct s as [d [r w b0 l ic rg ex nw g] m]. intros (Hg & He & Hm) (Hb1 & Hb2 & Hr). cbn [hw go executed maps] in Hg, He, Hm. subst g ex m.
  destruct (kseg (fst b) ltac:(lia)) as [E1 E2]. unfold md_open. cbn zeta. rewrite E1, E2.
  apply wp_bind, set_off; [done|]. intros n1. apply wp_bind, wp_set_hw, wp_bind, wp_set_dv. hwc.
  apply wp_bind, set_off; [done|]. intros n2. apply wp_bind, wp_get. hwc.
  apply wp_bind, set_off; [done|]. intros n3. hwc. apply wp_bind, set_off; [done|]. intros n4. hwc.
  apply wp_bind, set_off; [done|]. intros n5. hwc. apply wp_bind, set_off; [done|]. intros n6. hwc.
  apply wp_bind, set_off; [done|]. intros n7. hwc. apply set_off; [done|]. intros n8. hwc.
  split; [|done].
  assert (Hp : 0 <= fst b - 0x80000000 < 0x0FFFC001) by lia.
  split; [split|done|split]; hwc; try done; try lia.
  - split; hwc; try done; try (cbn; lia).
    + unfold SMQ_COMMAND_ENTRIES. rewrite u32_small by (unfold is_u32, W32; lia). lia.
    + by change (16 * (Zlen [] mod SLOTS)) with 0; rewrite Z.add_0_r.
    + by change (16 * (Zlen [] mod SLOTS)) with 0; rewrite Z.add_0_r.
  - unfold W32. lia.
  - intros k Hk _. unfold tsk. by destruct (replicate _ no_copy !! _) as [t|] eqn:E; [apply lookup_replicate in E as [-> _]|].
Qed.

(** ** One request *)

Context {dly : nat} (Hfair : fair dly) (Hfuel : (1024 * dly <= fuel)%nat).

(** The copies of the table are not too old for one more raw command. *)
Lemma allowed_fresh W s : Inv W s ->
  (copy_counter (dv s) =? finished_copy_counter (dv s)) ||
    (written (hw s) + 1 - request_id (tsk (copy_task (dv s)) (finished_copy_counter (dv s))) <? 0x8000) = true ->
  fresh W (copy_counter (dv s) - finished_copy_counter (dv s)) s 1.
Proof.
  intros [Hd _ Ht] Ha j Hj. rewrite (written_eq W _ (d_hw _ _ Hd)) in Ha. pose proof (t_cnt _ _ _ Ht).
  apply orb_true_iff in Ha as [Ha|Ha]; [apply Z.eqb_eq in Ha; lia|]. apply Z.ltb_lt in Ha.
  destruct (Z.eq_dec j (finished_copy_counter (dv s))) as [->|]; [done|].
  pose proof (t_mono _ _ _ Ht (finished_copy_counter (dv s)) j ltac:(lia) ltac:(lia)). lia.
Qed.

Lemma md_op_spec o W s : Inv W s -> allowed o s = true -> wp (run_op o) s (fun _ s' => exists cs, issues o cs /\ Inv (W ++ cs) s').
Proof.
  intros Hi Ha. unfold allowed in Ha. apply andb_true_iff in Ha as [Hs Ha].
  rewrite (written_eq W _ (d_hw _ _ (i_dev _ _ Hi))) in Hs. apply Z.ltb_lt in Hs. destruct o; cbn [run_op issues].
  - apply (wp_mono _ _ _ _ (write_spec dly Hfair fuel Hfuel W s _ _ _ _ Hi (allowed_fresh W s Hi Ha) ltac:(lia))). intros h s' [H _]. eauto.
  - apply (wp_mono _ _ _ _ (write_spec dly Hfair fuel Hfuel W s _ _ _ _ Hi (allowed_fresh W s Hi Ha) ltac:(lia))). intros h s' [H _]. eauto.
  - apply andb_true_iff in Ha as [H1%Z.ltb_lt H2%Z.ltb_lt].
    apply (wp_mono _ _ _ _ (start_spec dly Hfair fuel Hfuel W s _ _ _ _ Hi (conj H1 H2) Hs)).
    intros r s' [_ [(_ & H & _)|(_ & H & _)]]; [eauto|]. exists []. rewrite app_nil_r. auto.
  - apply andb_true_iff in Ha as [H1%Z.ltb_lt H2%Z.ltb_lt]. unfold md_memcpy.
    apply wp_bind, (wp_mono _ _ _ _ (start_spec dly Hfair fuel Hfuel W s _ _ _ _ Hi (conj H1 H2) Hs)).
    pose proof (t_cnt _ _ _ (i_copies _ _ Hi)). intros r s' [_ [(-> & H' & _)|(-> & H' & _)]].
    + destruct (Z.eqb_spec (copy_counter (dv s)) 0); [apply wp_ret; eauto|]. cbn [negb].
      apply wp_bind, (wp_mono _ _ _ _ (sync_spec dly Hfair fuel Hfuel _ s' (copy_counter (dv s)) H' ltac:(lia))). intros r s2 (_ & H2' & _). apply wp_ret. eauto.
    + apply wp_ret. exists []. rewrite app_nil_r. auto.
  - apply Z.leb_le in Ha. apply (wp_mono _ _ _ _ (sync_spec dly Hfair fuel Hfuel W s _ Hi Ha)). intros r s' (_ & H & _). exists []. by rewrite app_nil_r.
  - apply wp_bind, (wp_mono _ _ _ _ (check_tasks_spec dly Hfair W s Hi)). intros r s' (H & _). apply wp_ret. exists []. by rewrite app_nil_r.
  - apply wp_bind, (wp_mono _ _ _ _ (checkfinish_ran dly Hfair W s handle Hi)). intros r s' H. apply wp_ret. exists []. by rewrite app_nil_r.
Qed.

Lemma md_ops_spec ops : forall W s, Inv W s -> exists rs s' css, run_ops ops s = Ret (rs, s') /\ Forall2 issues (firstn (length rs) ops) css /\ Inv (W ++ concat css) s' /\
  (length rs = length ops \/ exists o, ops !! length rs = Some o /\ allowed o s' = false).
Proof.
  induction ops as [|o ops IH]; intros W s Hi; cbn [run_ops].
  { exists [], s, []. cbn. rewrite app_nil_r. by split; [|split; [constructor|split; [|left]]]. }
  destruct (allowed o s) eqn:Ha.
  2: { exists [], s, []. cbn. rewrite app_nil_r. split; [done|]. split; [constructor|]. split; [done|right; eauto]. }
  destruct (md_op_spec o W s Hi Ha) as (r & s1 & E1 & cs & Hcs & Hi1). destruct (IH _ _ Hi1) as (rs & s2 & css & E2 & Hf & Hi2 & He).
  exists (r :: rs), s2, (cs :: css). rewrite E1. cbn [mbind res_bind]. rewrite E2. cbn [mbind res_bind length firstn concat].
  split; [done|]. split; [by constructor|]. split; [by rewrite app_assoc|]. destruct He as [->|He]; [by left|by right].
Qed.

(** A state of the driver between two requests. *)
Definition reached (s : st) : Prop :=
  exists b s0 s1 ops rs, off s0 /\ block_ok b /\ md_open b s0 = Ret (tt, s1) /\ run_ops ops s1 = Ret (rs, s).

Lemma reached_inv s : reached s -> exists W, Inv W s /\ W = executed (hw s) ++ waiting (hw s) /\ Zlen W = written (hw s).
Proof.
  intros (b & s0 & s1 & ops & rs & Ho & Hb & E1 & E2). destruct (open_spec s0 b Ho Hb) as ([] & s1' & E1' & Hi1 & _).
  pose proof (eq_trans (eq_sym E1) E1') as E. injection E as <-. clear E1'. destruct (md_ops_spec ops _ _ Hi1) as (rs' & s2 & css & E2' & _ & Hi2 & _).
  pose proof (eq_trans (eq_sym E2) E2') as E. injection E as <- <-. clear E2'. exists ([] ++ concat css). split; [exact Hi2|]. pose proof (d_hw _ _ (i_dev _ _ Hi2)) as Hh.
  rewrite (waiting_eq _ _ Hh), (written_eq _ _ Hh). split; reflexivity.
Qed.
End requests.

(** ** What a copy moves *)

(** The bytes that a command moves, destination and source. *)
Definition moves (c : list Z) : list (Z * Z) :=
  match c with
  | [_; d; a; n] => (fun i => (u32 (d + i), u32 (a + i))) <$> seqZ 0 n
  | _ => []
  end.

Definition byte_moves (d a len : Z) : list (Z * Z) := (fun i => (u32 (d + i), u32 (a + i))) <$> seqZ 0 len.

(** The lengths that the engine gets wrong, but for a single word of 8 bytes. *)
Definition erratum (c : list Z) : bool :=
  match c with
  | [_; _; a; n] => negb (n =? 8) && ((n - (8 - a mod 8) mod 8) mod 256 =? 8)
  | _ => false
  end.

Lemma moves_words dir d a n : 0 <= n < 2147483648 -> moves (cmd_words dir d a n) = (fun i => (u32 (d + i), u32 (a + i))) <$> seqZ 0 n.
Proof.
  intros Hn. unfold moves, cmd_words. rewrite (u32_small n) by (unfold is_u32, W32; lia). apply list_fmap_ext. intros _ i _.
  f_equal; unfold u32, W32; lia.
Qed.

Lemma erratum_words dir d a n : 0 <= n < 2147483648 -> piece a n = n -> erratum (cmd_words dir d a n) = false.
Proof.
  intros Hn Hp. rewrite piece_eq in Hp. unfold erratum, cmd_words. rewrite (u32_small n) by (unfold is_u32, W32; lia).
  replace (u32 a mod 8) with (a mod 8) by (unfold u32, W32; lia). destruct (Z.eqb_spec ((n - (8 - a mod 8) mod 8) mod 256) 8) as [E|E]; [|apply andb_false_r].
  rewrite <- Hp. done.
Qed.

Lemma moves_split d a k n : 0 <= k <= n ->
  ((fun i => (u32 (d + i), u32 (a + i))) <$> seqZ 0 k) ++ ((fun i => (u32 (u32 (d + k) + i), u32 (u32 (a + k) + i))) <$> seqZ 0 (n - k))
    = (fun i => (u32 (d + i), u32 (a + i))) <$> seqZ 0 n.
Proof.
  intros Hk. replace n with (k + (n - k)) at 2 by lia. rewrite seqZ_app, fmap_app by lia. f_equal.
  rewrite (Z.add_comm 0 k), <- (fmap_add_seqZ k 0 (n - k)), <- list_fmap_compose. apply list_fmap_ext. intros _ i _. unfold compose. f_equal; unfold u32, W32; lia.
Qed.

Lemma copy_cmds_moves dir d a len : 0 < len < 2147483648 ->
  concat (moves <$> copy_cmds copy_fuel dir d a len) = byte_moves d a len /\
  Forall (fun c => erratum c = false) (copy_cmds copy_fuel dir d a len).
Proof.
  intros Hl. unfold copy_fuel. cbn [copy_cmds]. destruct (Z.eqb_spec len 0); [lia|]. pose proof (piece_bounds a len ltac:(lia)) as Hb.
  destruct (Z.eq_dec (piece a len) len) as [E|Hne].
  { rewrite E, Z.sub_diag. cbn [Z.eqb copy_cmds fmap list_fmap concat s32 u32 Z.modulo]. rewrite app_nil_r, moves_words by lia. split; [done|].
    constructor; [|constructor]. apply erratum_words; [lia|done]. }
  destruct (piece_rest a len ltac:(lia) Hne) as [Hr E8]. rewrite E8 in *. rewrite (s32_small (len - 8)) by lia. destruct (Z.eqb_spec (len - 8) 0); [lia|].
  rewrite Hr, Z.sub_diag. cbn [Z.eqb copy_cmds fmap list_fmap concat s32 u32 Z.modulo]. rewrite app_nil_r, !moves_words by lia. split.
  - apply (moves_split d a 8 len). lia.
  - constructor; [by unfold erratum, cmd_words|]. constructor; [|constructor]. apply erratum_words; [lia|done].
Qed.

Section memcpy.
Context {env : MdEnv} (fuel : nat) {dly : nat} (Hfair : fair dly) (Hfuel : (1024 * dly <= fuel)%nat).

Lemma memcpy_spec W s dst src len forward (cmds := copy_cmds copy_fuel forward (dma_map dst) (dma_map src) len) :
  Inv W s -> 0 < len < 2147483648 -> Zlen W + 2 < W32 * W32 -> copy_counter (dv s) <> 0 ->
  wp (md_memcpy fuel dst src len forward) s (fun r s' =>
    r = 0 /\ executed (hw s') = W ++ cmds /\ Zlen cmds <= 2 /\ concat (moves <$> cmds) = byte_moves (dma_map dst) (dma_map src) len /\
       Forall (fun c => erratum c = false) cmds /\ copy_counter (dv s) < finished_copy_counter (dv s') \/
     r = -1 /\ executed (hw s') ++ waiting (hw s') = W /\
       (suspended (dv s) = 1 \/ copy_counter (dv s') - finished_copy_counter (dv s') = 64)).
Proof.
  intros Hi Hl Hs Hc. pose proof (t_cnt _ _ _ (i_copies _ _ Hi)) as Hcnt.
  unfold md_memcpy. apply wp_bind, (wp_mono _ _ _ _ (start_spec dly Hfair fuel Hfuel W s dst src len forward Hi Hl Hs)).
  intros r s1 [_ [(-> & Hi1 & Hz & C1 & F1 & R1)|(-> & Hi1 & K1 & H)]].
  - destruct (Z.eqb_spec (copy_counter (dv s)) 0) as [|_]; [lia|]. cbn [negb].
    apply wp_bind, (wp_mono _ _ _ _ (sync_spec dly Hfair fuel Hfuel _ s1 (copy_counter (dv s)) Hi1 ltac:(lia))).
    intros r s2 (_ & Hi2 & _ & F2 & R2). apply wp_ret. left. split; [reflexivity|].
    split; [|split; [apply Hz|]; split; [|split; [|lia]]]; [|apply copy_cmds_moves; lia..].
    fold cmds in Hi2, R1. rewrite R1 in R2. exact (all_executed _ _ (d_hw _ _ (i_dev _ _ Hi2)) (R2 ltac:(lia))).
  - apply wp_ret. right. split; [reflexivity|]. split; [|exact H]. exact (waiting_eq _ _ (d_hw _ _ (i_dev _ _ Hi1))).
Qed.
End memcpy.

(** ** The check of addresses *)

(** The two sides of the comparison are the same function of the address. *)
Lemma align_loop_true n : forall buff phy, virt_to_phys buff = phy -> align_loop n buff phy = 1.
Proof.
  induction n as [|n IH]; intros buff phy Hp; cbn [align_loop]; [done|]. rewrite Hp, Z.eqb_refl. apply IH. rewrite <- Hp.
  unfold virt_to_phys, u32, W32. lia.
Qed.

Lemma kernel_address_valid {env : MdEnv} a len : 0x80000000 <= a < 0xC0000000 -> md_is_valid_address a len = 1.
Proof.
  intros H. unfold md_is_valid_address. rewrite (u32_small a) by (unfold is_u32, W32; lia).
  destruct (Z.ltb_spec 0x7FFFFFFF a), (Z.ltb_spec a 0xC0000000); try lia. by apply align_loop_true.
Qed.
