(* ===== verification/MdTheorems.v ===== *)
(** * The move engine: properties *)
From stdpp Require Import base tactics list numbers option.
From Stdlib Require Import ZArith Lia.
From S2P Require Import Prelude Driver Md MdProofs MdCopy MdOps MdRuns.

(** ** A concrete engine *)

(** One command before every access. *)
Definition quick : MdEnv :=
  {| turns := fun _ => 1%nat; cntl_at := fun _ => 2; status_at := fun _ => 0; dma_map := virt_to_phys; vma_dvr := fun _ => false |}.

(** One command before every fiftieth access. *)
Definition sleepy : MdEnv :=
  {| turns := fun t => if decide (t mod 50 = 49)%nat then 1%nat else 0%nat; cntl_at := fun _ => 2; status_at := fun _ => 0; dma_map := virt_to_phys; vma_dvr := fun _ => false |}.

Lemma quick_fair : @fair quick 1.
Proof. intros t. exists O. cbn. lia. Defined.

Definition powered : st := mkSt (mkMd 0 0 0 0 0 0 0 0 false 0 0 0 []) (mkHw 0 0 0 0 0 [] [] 0 false) [].
Definition block : Z * list Z := (0x80100000, replicate 4096 0).

Lemma powered_off : off powered.
Proof. by repeat split. Defined.

Lemma block_fits : block_ok block.
Proof. unfold block_ok, block. cbn [fst snd]. split; [lia|]. split; [lia|]. vm_compute. reflexivity. Defined.

(** The state that a run ends in. *)
Definition final {A} (m : res (A * st)) : st := match m with Ret (_, s) => s | _ => powered end.
Definition returned {A} (m : res (A * st)) : bool := match m with Ret _ => true | _ => false end.
Definition opened (env : MdEnv) : st := final (md_open block powered).
Definition after (env : MdEnv) (ops : list op) : st := final (run_ops 1088 ops (opened env)).

Lemma returned_final {A} (m : res (A * st)) : returned m = true -> exists a, m = Ret (a, final m).
Proof. destruct m as [[a s]| |]; [|done..]. eauto. Qed.

(** A copy of 100 bytes from an odd address, a command to clear 64 bytes. *)
Definition some_ops : list op := [OStart 0x80200000 0x80300001 100 1; OMemset 0x80400000 0 64].

Lemma opened_eq (env : MdEnv) : returned (md_open block powered) = true -> md_open block powered = Ret (tt, opened env).
Proof. intros H. destruct (returned_final _ H) as [[] E]. exact E. Qed.

Lemma reached_after : @reached quick 1088 (after quick some_ops).
Proof.
  destruct (returned_final (@run_ops quick 1088 some_ops (opened quick))) as [rs E]; [vm_compute; reflexivity|].
  exists block, powered, (opened quick), some_ops, rs. split; [exact powered_off|]. split; [exact block_fits|].
  split; [apply opened_eq; vm_compute; reflexivity|exact E].
Qed.

Section theorems.
Context {env : MdEnv}.

(** C10: For every engine that executes a command now and then, every sequence of
    requests returns; the commands the engine has executed, followed by those
    that wait in the ring, are exactly the commands of the requests, each
    intact, none lost and none twice, in the order of the requests - however
    often the ring of 1024 entries has wrapped around.  A run ends early only
    at a request that is not allowed ([allowed]): a copy of no length, or a raw
    command while a copy that is still to be released is too old for the 16 bits
    of the counter. *)
Theorem md_commands_in_order dly fuel ops s0 b : fair dly -> (1024 * dly <= fuel)%nat -> off s0 -> block_ok b ->
  exists s1 rs s2 css, md_open b s0 = Ret (tt, s1) /\ run_ops fuel ops s1 = Ret (rs, s2) /\
    Forall2 issues (firstn (length rs) ops) css /\ executed (hw s2) ++ waiting (hw s2) = concat css /\
    (length rs = length ops \/ exists o, ops !! length rs = Some o /\ allowed o s2 = false).
Proof.
  intros Hfair Hfuel Ho Hb. destruct (open_spec s0 b Ho Hb) as ([] & s1 & E1 & Hi1 & _).
  destruct (md_ops_spec fuel Hfair Hfuel ops _ _ Hi1) as (rs & s2 & css & E2 & Hf & Hi2 & He). exists s1, rs, s2, css.
  split; [exact E1|]. split; [exact E2|]. split; [exact Hf|]. split; [|exact He]. exact (waiting_eq _ _ (d_hw _ _ (i_dev _ _ Hi2))).
Qed.

(** [md_memcpy] on a driver that has started a copy before, in every state
    between requests: it returns 0 when everything written so far and then its
    own commands have been executed; these are at most two, they move exactly
    the bytes from the source to the destination, in ascending order, and none
    has a length the engine gets wrong.  The copy has been released.  Otherwise
    it returns -1, has written no command, and the device is suspended or 64
    copies are waiting. *)
Theorem md_memcpy_done dly fuel s dst src len forward (cmds := copy_cmds copy_fuel forward (dma_map dst) (dma_map src) len) :
  fair dly -> (1024 * dly <= fuel)%nat -> reached fuel s -> allowed (OMemcpy dst src len forward) s = true -> copy_counter (dv s) <> 0 ->
  exists r s', md_memcpy fuel dst src len forward s = Ret (r, s') /\
    (r = 0 /\ executed (hw s') = (executed (hw s) ++ waiting (hw s)) ++ cmds /\ Zlen cmds <= 2 /\
       concat (moves <$> cmds) = byte_moves (dma_map dst) (dma_map src) len /\
       Forall (fun c => erratum c = false) cmds /\ copy_counter (dv s) < finished_copy_counter (dv s') \/
     r = -1 /\ executed (hw s') ++ waiting (hw s') = executed (hw s) ++ waiting (hw s) /\
       (suspended (dv s) = 1 \/ copy_counter (dv s') - finished_copy_counter (dv s') = 64)).
Proof.
  intros Hfair Hfuel Hre Ha Hc. destruct (reached_inv fuel Hfair Hfuel s Hre) as (W & Hi & EW & HZ). clear Hre. rewrite <- EW.
  apply andb_true_iff in Ha as [Hs%Z.ltb_lt [H1%Z.ltb_lt H2%Z.ltb_lt]%andb_true_iff]. rewrite <- HZ in Hs.
  exact (memcpy_spec fuel Hfair Hfuel W s dst src len forward Hi (conj H1 H2) Hs Hc).
Qed.

(** C13: [md_checkfinish] for the number of a command that was written: with
    fewer than [2^15] commands after it the answer is exact.  Of a command that
    was executed [2^15] to [2^16] commands ago it says that it is not done. *)
Theorem md_checkfinish_window dly fuel s h : fair dly -> (1024 * dly <= fuel)%nat -> reached fuel s -> 0 < h <= written (hw s) ->
  exists b s', md_checkfinish h s = Ret (b, s') /\
    (written (hw s) - h < 0x8000 -> if b then h <= Zlen (executed (hw s')) else Zlen (executed (hw s)) < h) /\
    (0x8000 <= Zlen (executed (hw s)) - h -> written (hw s) - h < 0x10000 -> b = false).
Proof.
  intros Hfair Hfuel Hre Hh. destruct (reached_inv fuel Hfair Hfuel s Hre) as (W & Hi & _ & HZ). clear Hre. rewrite <- HZ in *.
  exact (checkfinish_any dly Hfair W s h (d_hw _ _ (i_dev _ _ Hi)) Hh).
Qed.

(** C11: [md_copy_sync] returns.  A copy that was started is done then, and so is
    every copy whose DMA mappings have been removed; the mappings that are left
    are exactly those of the copies that are still in the table. *)
Theorem md_copy_sync_releases dly fuel s handle : fair dly -> (1024 * dly <= fuel)%nat -> reached fuel s -> 0 <= handle ->
  exists s', md_copy_sync fuel handle s = Ret (0, s') /\
    (handle < copy_counter (dv s) -> handle < finished_copy_counter (dv s')) /\
    (forall j, finished_copy_counter (dv s) <= j < finished_copy_counter (dv s') -> j < copy_counter (dv s) ->
       request_id (tsk (copy_task (dv s)) j) <= Zlen (executed (hw s'))) /\
    (forall j, finished_copy_counter (dv s') <= j < copy_counter (dv s') -> tsk (copy_task (dv s')) j = tsk (copy_task (dv s)) j) /\
    maps s' ≡ₚ held (copy_task (dv s')) (finished_copy_counter (dv s')) (Z.to_nat (copy_counter (dv s') - finished_copy_counter (dv s'))).
Proof.
  intros Hfair Hfuel Hre Hh. destruct (reached_inv fuel Hfair Hfuel s Hre) as (W & Hi & _). clear Hre.
  destruct (sync_spec dly Hfair fuel Hfuel W s handle Hi Hh) as (r & s' & E & -> & Hi' & K & H & _). exists s'. split; [exact E|]. clear E.
  split; [exact H|]. split; [apply K|]. split; [apply K|]. apply (i_copies _ _ Hi').
Qed.

(** C12: [md_drv_suspend] returns when all copies are done: their commands have
    been executed, all DMA mappings are removed, and no copy is accepted any
    more.  The loop takes at most [1024 * dly + 64] turns. *)
Theorem md_suspend_drains dly fuel s : fair dly -> (1024 * dly + 64 <= fuel)%nat -> reached fuel s ->
  exists s', md_drv_suspend fuel s = Ret (0, s') /\ finished_copy_counter (dv s') = copy_counter (dv s) /\ maps s' = [] /\
    (forall j, finished_copy_counter (dv s) <= j < copy_counter (dv s) -> request_id (tsk (copy_task (dv s)) j) <= Zlen (executed (hw s'))) /\
    forall dst src len dir, md_copy_start fuel dst src len dir s' = Ret (0, s').
Proof.
  intros Hfair Hfuel Hre. destruct (reached_inv fuel Hfair ltac:(lia) s Hre) as (W & Hi & _). clear Hre.
  destruct (suspend_spec dly Hfair fuel ltac:(lia) W s Hi Hfuel) as (r & s' & E & -> & H1 & H2 & H3 & H4 & H5 & H6). exists s'. split; [exact E|]. clear E.
  split; [exact H1|]. split; [exact H2|]. split; [exact H3|]. intros. apply start_suspended; [exact H4|exact H5|lia].
Qed.

(** The first copy after [md_open] through [md_memcpy] fails, whatever it
    is: the number 0 of the copy is taken for an error.  The answer is -1, but
    the commands of the copy have been written and the copy is in the table. *)
Theorem md_first_memcpy_fails dly fuel s0 b dst src len forward : fair dly -> (1024 * dly <= fuel)%nat -> off s0 -> block_ok b -> 0 < len < 2147483648 ->
  exists s1 s2, md_open b s0 = Ret (tt, s1) /\ md_memcpy fuel dst src len forward s1 = Ret (-1, s2) /\
    executed (hw s2) ++ waiting (hw s2) = copy_cmds copy_fuel forward (dma_map dst) (dma_map src) len /\ copy_counter (dv s2) = 1.
Proof.
  intros Hfair Hfuel Ho Hb Hl. destruct (open_spec s0 b Ho Hb) as ([] & s1 & E1 & Hi1 & C1 & S1). exists s1.
  pose proof (t_cnt _ _ _ (i_copies _ _ Hi1)) as Hcnt.
  destruct (start_spec dly Hfair fuel Hfuel [] s1 dst src len forward Hi1 Hl eq_refl) as (r & s2 & E2 & _ & [(-> & Hi2 & _ & C2 & _)|(-> & _ & K & [H|H])]).
  - exists s2. split; [exact E1|]. split; [unfold md_memcpy, mbind, Drv_bind; rewrite E2, C1; reflexivity|]. split; [|lia].
    exact (waiting_eq _ _ (d_hw _ _ (i_dev _ _ Hi2))).
  - lia.
  - pose proof (k_counter _ _ K). pose proof (k_finished _ _ K). lia.
Qed.

(** The check of the addresses lets a process copy to and from any address
    of the unmapped kernel segments: in every state between requests a blocking
    copy request with such addresses is executed as by [md_memcpy]. *)
Theorem md_ioctl_kernel dly fuel s arg c (cmds := copy_cmds copy_fuel 1 (dma_map (m_dst c)) (dma_map (m_src c)) (m_len c)) :
  fair dly -> (1024 * dly <= fuel)%nat -> reached fuel s -> u_cmd arg = Some c -> Z.land (m_flags c) MD_FLAG_NON_BLOCKING = 0 ->
  0x80000000 <= m_dst c < 0xC0000000 -> 0x80000000 <= m_src c < 0xC0000000 ->
  allowed (OMemcpy (m_dst c) (m_src c) (m_len c) 1) s = true -> copy_counter (dv s) <> 0 ->
  exists r s', md_dev_ioctl fuel MD_IOCTL_MEM_COPY arg s = Ret ((r, None), s') /\
    (r = 0 /\ executed (hw s') = (executed (hw s) ++ waiting (hw s)) ++ cmds /\
       concat (moves <$> cmds) = byte_moves (dma_map (m_dst c)) (dma_map (m_src c)) (m_len c) \/
     r = -1 /\ (suspended (dv s) = 1 \/ copy_counter (dv s') - finished_copy_counter (dv s') = 64)).
Proof.
  intros Hfair Hfuel Hre Hu Hfl Hd Hs Ha Hc. destruct (reached_inv fuel Hfair Hfuel s Hre) as (W & Hi & EW & HZ). clear Hre. rewrite <- EW.
  apply andb_true_iff in Ha as [Hw%Z.ltb_lt [H1%Z.ltb_lt H2%Z.ltb_lt]%andb_true_iff]. rewrite <- HZ in Hw.
  destruct (memcpy_spec fuel Hfair Hfuel W s (m_dst c) (m_src c) (m_len c) 1 Hi (conj H1 H2) Hw Hc) as (r & s' & E & H). exists r, s'.
  split; [|destruct H as [(-> & He & _ & Hm & _)|(-> & _ & H)]; [left; auto|right; auto]].
  unfold md_dev_ioctl. rewrite Z.eqb_refl, Hu, !kernel_address_valid, Hfl by assumption. cbn [Z.eqb Pos.eqb orb negb]. unfold mbind, Drv_bind. rewrite E. reflexivity.
Qed.
End theorems.

Lemma md_commands_in_order_witness : exists s1 rs s2 css, @md_open quick block powered = Ret (tt, s1) /\ @run_ops quick 1088 some_ops s1 = Ret (rs, s2) /\
    Forall2 (@issues quick) (firstn (length rs) some_ops) css /\ executed (hw s2) ++ waiting (hw s2) = concat css /\
    (length rs = length some_ops \/ exists o, some_ops !! length rs = Some o /\ allowed o s2 = false).
Proof. apply (@md_commands_in_order quick 1 1088 some_ops powered block quick_fair ltac:(lia) powered_off block_fits). Defined.

(** What the witnesses start from: the state after two requests. *)
Definition busy : st := after quick some_ops.

Lemma busy_reached : @reached quick 1088 busy.
Proof. exact reached_after. Qed.

Lemma md_memcpy_done_witness : exists r s', @md_memcpy quick 1088 0x80200000 0x80300002 1000 1 busy = Ret (r, s') /\ (r = 0 \/ r = -1).
Proof.
  destruct (@md_memcpy_done quick 1 1088 busy 0x80200000 0x80300002 1000 1 quick_fair ltac:(lia) busy_reached) as (r & s' & E & H);
    [vm_compute; reflexivity|vm_compute; discriminate|]. exists r, s'. split; [exact E|]. destruct H as [(-> & _)|(-> & _)]; auto.
Defined.

Lemma md_checkfinish_window_witness : exists b s', @md_checkfinish quick 1 busy = Ret (b, s') /\ (if b then 1 <= Zlen (executed (hw s')) else Zlen (executed (hw busy)) < 1).
Proof.
  destruct (@md_checkfinish_window quick 1 1088 busy 1 quick_fair ltac:(lia) busy_reached) as (b & s' & E & H & _);
    [vm_compute; split; [reflexivity|discriminate]|]. exists b, s'. split; [exact E|]. apply H. vm_compute. reflexivity.
Defined.

Lemma md_copy_sync_releases_witness : exists s', @md_copy_sync quick 1088 0 busy = Ret (0, s') /\ 0 < finished_copy_counter (dv s').
Proof.
  destruct (@md_copy_sync_releases quick 1 1088 busy 0 quick_fair ltac:(lia) busy_reached ltac:(lia)) as (s' & E & H & _).
  exists s'. split; [exact E|]. apply H. vm_compute. reflexivity.
Defined.

Lemma md_first_memcpy_fails_witness : exists s1 s2, @md_open quick block powered = Ret (tt, s1) /\
  @md_memcpy quick 1088 0x80200000 0x80300000 4096 1 s1 = Ret (-1, s2) /\ copy_counter (dv s2) = 1.
Proof.
  destruct (@md_first_memcpy_fails quick 1 1088 powered block 0x80200000 0x80300000 4096 1 quick_fair ltac:(lia) powered_off block_fits ltac:(lia))
    as (s1 & s2 & E1 & E2 & _ & H). exists s1, s2. split; [exact E1|]. split; [exact E2|exact H].
Defined.

Lemma md_suspend_drains_witness : exists s', @md_drv_suspend quick 1088 busy = Ret (0, s') /\ finished_copy_counter (dv s') = 1 /\ maps s' = [].
Proof.
  destruct (@md_suspend_drains quick 1 1088 busy quick_fair ltac:(lia) busy_reached) as (s' & E & H1 & H2 & _).
  exists s'. split; [exact E|]. split; [rewrite H1; vm_compute; reflexivity|exact H2].
Defined.

(** A process asks for the kernel's memory. *)
Definition kernel_cmd : MD_COPY_CMD := mkCopyCmd 0 0x80200000 0x80000000 4096 0.

Lemma md_ioctl_kernel_witness : exists r s', @md_dev_ioctl quick 1088 MD_IOCTL_MEM_COPY (mkArg (Some kernel_cmd) None true) busy = Ret ((r, None), s') /\ (r = 0 \/ r = -1).
Proof.
  destruct (@md_ioctl_kernel quick 1 1088 busy (mkArg (Some kernel_cmd) None true) kernel_cmd quick_fair ltac:(lia) busy_reached eq_refl eq_refl) as (r & s' & E & H);
    [vm_compute; split; [discriminate|reflexivity]|vm_compute; split; [discriminate|reflexivity]|vm_compute; reflexivity|vm_compute; discriminate|].
  exists r, s'. split; [exact E|]. destruct H as [(-> & _)|(-> & _)]; auto.
Defined.

(** ** Interleavings *)

(** Two contexts: one is in [md_copy_start], between the allocation of its task
    and its commands; the other calls [md_check_copy_tasks]. *)
Definition race (env : MdEnv) (dst src len dir : Z) : D Z :=
  r ← md_alloc_copy_request dst src len dir;
  _ ← md_check_copy_tasks;
  match r with
  | Some req => copy_commands 1088 req len
  | None => mret 0
  end.

(** A task whose commands have not been written yet looks like one that is
    done.  When another context calls [md_check_copy_tasks] at that moment, it
    clears the task; the copy of 100 bytes then goes from bus address 0 to bus
    address 0, and its DMA mappings are never removed. *)
Theorem md_copy_race : exists s, race quick 0x80200000 0x80300001 100 1 (opened quick) = Ret (0, s) /\
  executed (hw s) ++ waiting (hw s) = [[0x85; 0; 0; 100]] /\
  maps s = [(0x300001, 100, DMA_TO_DEVICE); (0x200000, 100, DMA_FROM_DEVICE)] /\
  finished_copy_counter (dv s) = 1 /\ copy_counter (dv s) = 1.
Proof.
  exists (final (race quick 0x80200000 0x80300001 100 1 (opened quick))). split; [vm_compute; reflexivity|]. vm_compute. repeat split; reflexivity.
Qed.

(** A command is written, the device is suspended and resumed before the engine
    has executed it, and a second command is written.  The two handles, and
    whether the second is reported as done once the first is. *)
Definition over_suspend (env : MdEnv) : D (Z * Z * bool) :=
  h1 ← md_memset 1088 0x80200000 0 64;
  _ ← md_drv_suspend 1088;
  _ ← md_drv_resume;
  h2 ← md_memset 1088 0x80400000 0 64;
  _ ← wait_finish 1088 h1;
  fin ← md_checkfinish h2;
  mret (h1, h2, fin).

(** Suspending waits for copies only.  With another command still in the
    ring, [md_drv_suspend] sets the counter of the driver back to that of the
    engine: the next command gets the handle of the one that is waiting, and is
    reported as done while it has not been executed. *)
Theorem md_suspend_reuses_handle : exists s, over_suspend sleepy (opened sleepy) = Ret ((1, 1, true), s) /\
  executed (hw s) = [memset_words 0x80200000 0 64] /\ waiting (hw s) = [memset_words 0x80400000 0 64].
Proof.
  exists (final (over_suspend sleepy (opened sleepy))). split; [vm_compute; reflexivity|]. vm_compute. split; reflexivity.
Qed.
