(* ===== verification/Se.v ===== *)
(** * The stream engine: [drivers/se.c]

    Programs draw by commands for the stream engine.  The driver copies their
    words into a ring in memory and moves the write pointer of the engine.  A
    program can hand over commands directly ([se_write]) or leave them in queues
    in memory that it shares with the driver; these are emptied by the interrupt
    of the vertical synchronisation, up to the next mark in each queue.

    The engine is not code of the repository.  It is described by what the
    driver relies on: switched on, and as long as its two pointers differ, it
    fetches the word at the read pointer and moves the pointer behind it, from
    the limit back to the base.  When it does so is a parameter, as for the move
    engine.  The driver runs on two chips.  They have the registers of the engine
    at different places, and the driver uses the places of both. *)
From stdpp Require Import base tactics list numbers option.
From Stdlib Require Import ZArith Lia.
From S2P Require Import Prelude Driver.

(** ** Surroundings *)

(** [int_status_at], [inst_cnt_at]: the interrupt status and the number of
    commands done, as the registers of the older chip give them; [other_at]: what
    that chip answers at the places where the newer one has its pointers;
    [vsync_mem]: where the words of the shared memory begin. *)
Class SeEnv := {
  se_turns : nat -> nat;
  is_mars_cpu : bool;
  int_status_at : nat -> Z;
  inst_cnt_at : nat -> Z;
  other_at : nat -> Z;
  vsync_mem : Z
}.

Definition SE_COMMAND_ENTRIES : Z := 4096.
Definition INST_CNT_MASK : Z := 0xFFFF.
Definition SeWriteData : Z := 1.
Definition SeClearWriteData : Z := 0.
Definition SeGo : Z := 2.
Definition SeEndianSwap : Z := 4.
Definition SE_CLR_WRITE_DATA : Z := 0.
Definition SE_GO : Z := 2.
Definition INT_SYNC : Z := 4.
Definition SE_CNTL : Z := 0xB800C000.
Definition SE_INT_STATUS : Z := 0xB800C004.
Definition SE_INT_ENABLE : Z := 0xB800C008.
Definition SE_INST_CNT : Z := 0xB800C010.

Definition IRQ_NONE : Z := 0.
Definition IRQ_HANDLED : Z := 1.
Definition EFAULT : Z := 14.
Definition ENOTTY : Z := 25.
Definition EINVAL : Z := 22.
Definition ERESTARTSYS : Z := 512.

(** [base0], [base1], [base2]: [SeCmdBase] of the three queues of the newer chip;
    [limit1], [rdp], [wrp], [inst1], [go]: the other registers of queue 1, which
    the driver uses.  [ring]: the command buffer; [fetched]: the words the engine
    has taken, oldest first; [now]: the number of accesses so far; [writes]: what
    has been written to the registers of the older chip. *)
Record se_hw := mkHw {
  base0 : Z; base1 : Z; base2 : Z; limit1 : Z; rdp : Z; wrp : Z; inst1 : Z;
  ring : list Z; fetched : list Z; now : nat; go : bool; writes : list (Z * Z)
}.

Definition engine_step (h : se_hw) : se_hw :=
  if negb (go h) || (rdp h =? wrp h) then h
  else
    let r := rdp h + 4 in
    mkHw (base0 h) (base1 h) (base2 h) (limit1 h) (if r >=? limit1 h then base1 h else r) (wrp h) (inst1 h)
      (ring h) (fetched h ++ [(ring h).[(rdp h - base1 h) / 4]]) (now h) (go h) (writes h).

Fixpoint engine (n : nat) (h : se_hw) : se_hw :=
  match n with O => h | S n' => engine n' (engine_step h) end.

(** ** The state of the driver *)

Record se_dev := mkDev {
  initialized : bool; CmdBuf : Z; CmdBase : Z; CmdLimit : Z; wrptr : Z; v_to_p_offset : Z; size : Z;
  hw_low : Z; hw_high : Z; sem : bool; p_vsync_queue : Z; u32_max_queue_num : Z; isMars : bool
}.

(** [vmem]: the words of the memory shared with the program; [flag]: the word at
    [0xA00000DC], by which the display processor reports the synchronisation;
    [irq]: the interrupt handler is installed. *)
Record st := mkSt { dv : se_dev; hw : se_hw; vmem : list Z; flag : Z; irq : bool }.

Abbreviation D := (Drv st).

Definition set_dv (f : se_dev -> se_dev) : D unit := modify (fun s => mkSt (f (dv s)) (hw s) (vmem s) (flag s) (irq s)).
Definition set_hw (f : se_hw -> se_hw) : D unit := modify (fun s => mkSt (dv s) (f (hw s)) (vmem s) (flag s) (irq s)).
Definition set_vmem (m : list Z) : D unit := modify (fun s => mkSt (dv s) (hw s) m (flag s) (irq s)).
Definition set_flag (v : Z) : D unit := modify (fun s => mkSt (dv s) (hw s) (vmem s) v (irq s)).
Definition set_irq (b : bool) : D unit := modify (fun s => mkSt (dv s) (hw s) (vmem s) (flag s) b).

Definition with_wrptr (v : Z) (d : se_dev) : se_dev :=
  mkDev (initialized d) (CmdBuf d) (CmdBase d) (CmdLimit d) v (v_to_p_offset d) (size d)
    (hw_low d) (hw_high d) (sem d) (p_vsync_queue d) (u32_max_queue_num d) (isMars d).
Definition with_counter (l h : Z) (d : se_dev) : se_dev :=
  mkDev (initialized d) (CmdBuf d) (CmdBase d) (CmdLimit d) (wrptr d) (v_to_p_offset d) (size d)
    l h (sem d) (p_vsync_queue d) (u32_max_queue_num d) (isMars d).
Definition with_sem (b : bool) (d : se_dev) : se_dev :=
  mkDev (initialized d) (CmdBuf d) (CmdBase d) (CmdLimit d) (wrptr d) (v_to_p_offset d) (size d)
    (hw_low d) (hw_high d) b (p_vsync_queue d) (u32_max_queue_num d) (isMars d).
Definition with_queue (q n : Z) (d : se_dev) : se_dev :=
  mkDev (initialized d) (CmdBuf d) (CmdBase d) (CmdLimit d) (wrptr d) (v_to_p_offset d) (size d)
    (hw_low d) (hw_high d) (sem d) q n (isMars d).
Definition with_initialized (b : bool) (d : se_dev) : se_dev :=
  mkDev b (CmdBuf d) (CmdBase d) (CmdLimit d) (wrptr d) (v_to_p_offset d) (size d)
    (hw_low d) (hw_high d) (sem d) (p_vsync_queue d) (u32_max_queue_num d) (isMars d).
Definition with_isMars (b : bool) (d : se_dev) : se_dev :=
  mkDev (initialized d) (CmdBuf d) (CmdBase d) (CmdLimit d) (wrptr d) (v_to_p_offset d) (size d)
    (hw_low d) (hw_high d) (sem d) (p_vsync_queue d) (u32_max_queue_num d) b.
Definition with_buffer (buf base limit off sz : Z) (d : se_dev) : se_dev :=
  mkDev (initialized d) buf base limit 0 off sz
    (hw_low d) (hw_high d) (sem d) (p_vsync_queue d) (u32_max_queue_num d) (isMars d).

(** A semaphore that is taken twice in a row blocks for good. *)
Definition down : D unit :=
  s ← get;
  if sem (dv s) then stuck else set_dv (with_sem true).
Definition up : D unit := set_dv (with_sem false).

Definition endian_swap_32 (a : Z) : Z :=
  Z.lor (Z.shiftr a 24) (Z.lor (Z.land (Z.shiftr a 8) 0xFF00) (Z.lor (Z.land (Z.shiftl a 8) 0xFF0000) (Z.land (Z.shiftl a 24) 0xFF000000))).

Section se.
Context {env : SeEnv}.

(** ** Registers and memory; the engine runs before every access to it *)

Definition tick : D nat := fun s =>
  let h := engine (se_turns (now (hw s))) (hw s) in
  Ret (now h, mkSt (dv s) (mkHw (base0 h) (base1 h) (base2 h) (limit1 h) (rdp h) (wrp h) (inst1 h) (ring h) (fetched h) (S (now h)) (go h) (writes h))
                (vmem s) (flag s) (irq s)).

(** [SeRegInfo->SeCmdReadPtr[1]] and so on. *)
Definition read_rptr : D Z := t ← tick; s ← get; mret (if is_mars_cpu then rdp (hw s) else u32 (other_at t)).
Definition read_wptr : D Z := t ← tick; s ← get; mret (if is_mars_cpu then wrp (hw s) else u32 (other_at t)).

Definition set_mars (a v : Z) (f : se_hw -> se_hw) : D unit :=
  _ ← tick;
  set_hw (fun h => if is_mars_cpu then f h
                   else mkHw (base0 h) (base1 h) (base2 h) (limit1 h) (rdp h) (wrp h) (inst1 h) (ring h) (fetched h) (now h) (go h) (writes h ++ [(a, v)])).

Definition write_wptr (v : Z) : D unit := set_mars 0xB800C028 v (fun h =>
  mkHw (base0 h) (base1 h) (base2 h) (limit1 h) (rdp h) v (inst1 h) (ring h) (fetched h) (now h) (go h) (writes h)).
Definition write_rptr (v : Z) : D unit := set_mars 0xB800C01C v (fun h =>
  mkHw (base0 h) (base1 h) (base2 h) (limit1 h) v (wrp h) (inst1 h) (ring h) (fetched h) (now h) (go h) (writes h)).
Definition write_base (v : Z) : D unit := set_mars 0xB800C004 v (fun h =>
  mkHw (base0 h) v (base2 h) (limit1 h) (rdp h) (wrp h) (inst1 h) (ring h) (fetched h) (now h) (go h) (writes h)).
Definition write_limit (v : Z) : D unit := set_mars 0xB800C010 v (fun h =>
  mkHw (base0 h) (base1 h) (base2 h) v (rdp h) (wrp h) (inst1 h) (ring h) (fetched h) (now h) (go h) (writes h)).
Definition write_inst (v : Z) : D unit := set_mars 0xB800C490 v (fun h =>
  mkHw (base0 h) (base1 h) (base2 h) (limit1 h) (rdp h) (wrp h) v (ring h) (fetched h) (now h) (go h) (writes h)).
(** A write to a control register sets the bits given if its lowest bit is set,
    and clears them otherwise. *)
Definition write_ctrl (v : Z) : D unit := set_mars 0xB800C45C v (fun h =>
  mkHw (base0 h) (base1 h) (base2 h) (limit1 h) (rdp h) (wrp h) (inst1 h) (ring h) (fetched h) (now h)
    (if Z.land v SeGo =? 0 then go h else negb (Z.land v SeWriteData =? 0)) (writes h)).

(** [readl] and [write_l], which the driver uses with the addresses of the older
    chip.  On the newer one [SE_CNTL], [SE_INT_STATUS] and [SE_INT_ENABLE] are the
    bases of the three queues, [SE_INST_CNT] is the limit of queue 1. *)
Definition readl (a : Z) : D Z :=
  t ← tick;
  s ← get;
  if is_mars_cpu then
    if a =? SE_INST_CNT then mret (limit1 (hw s))
    else if a =? SE_INT_STATUS then mret (base1 (hw s))
    else fault
  else if a =? SE_INST_CNT then mret (u32 (inst_cnt_at t))
  else if a =? SE_INT_STATUS then mret (u32 (int_status_at t))
  else fault.

Definition write_l (v a : Z) : D unit := set_mars a v (fun h =>
  if a =? SE_CNTL then mkHw v (base1 h) (base2 h) (limit1 h) (rdp h) (wrp h) (inst1 h) (ring h) (fetched h) (now h) (go h) (writes h)
  else if a =? SE_INT_STATUS then mkHw (base0 h) v (base2 h) (limit1 h) (rdp h) (wrp h) (inst1 h) (ring h) (fetched h) (now h) (go h) (writes h)
  else if a =? SE_INT_ENABLE then mkHw (base0 h) (base1 h) v (limit1 h) (rdp h) (wrp h) (inst1 h) (ring h) (fetched h) (now h) (go h) (writes h)
  else h).

(** Cached and uncached addresses of the kernel that differ in their three
    highest bits only mean the same memory. *)
Definition phys (a : Z) : Z := Z.land a 0x1FFFFFFF.

(** A word stored at the address [a] of the command buffer. *)
Definition store_word (a v : Z) : D unit :=
  _ ← tick;
  s ← get;
  let o := phys a - phys (CmdBuf (dv s)) in
  if o mod 4 =? 0 then
    r ← lift_res (wr (ring (hw s)) (o / 4) v);
    set_hw (fun h => mkHw (base0 h) (base1 h) (base2 h) (limit1 h) (rdp h) (wrp h) (inst1 h) r (fetched h) (now h) (go h) (writes h))
  else fault.

(** Words of the shared memory. *)
Definition ld (a : Z) : D Z :=
  s ← get;
  let o := a - vsync_mem in
  if o mod 4 =? 0 then lift_res (rd (vmem s) (o / 4)) else fault.
Definition sto (a v : Z) : D unit :=
  s ← get;
  let o := a - vsync_mem in
  if o mod 4 =? 0 then m ← lift_res (wr (vmem s) (o / 4) v); set_vmem m else fault.

(** ** Commands *)

(** Where the words of a command come from: a variable of the driver, or the
    shared memory. *)
Inductive cmdbuf := Data (l : list Z) | At (a : Z).

Definition cmd_word (b : cmdbuf) (off : Z) : D Z :=
  match b with
  | Data l => lift_res (rd l (off / 4))
  | At a => ld (u32 (a + off))
  end.

(** [while(0 == (p = ...)) ...] *)
Fixpoint nonzero (fuel : nat) (r : D Z) : D Z :=
  match fuel with
  | O => stuck
  | S fuel' => p ← r; if p =? 0 then nonzero fuel' r else mret p
  end.

Variable fuel : nat.

(** [while(1) { ... if((pbyWritePointer + lCommandLength) < pbyReadPointer) break; }] *)
Fixpoint wait_room (n : nat) (pbyWritePointer lCommandLength sz : Z) : D unit :=
  match n with
  | O => stuck
  | S n' =>
      p ← nonzero fuel read_rptr;
      let pbyReadPointer := if p <=? pbyWritePointer then u32 (p + sz) else p in
      if u32 (pbyWritePointer + lCommandLength) <? pbyReadPointer then mret tt
      else wait_room n' pbyWritePointer lCommandLength sz
  end.

(** The loop over the words of the command from [dwDataCounter] on; the new
    write pointer. *)
Fixpoint put_words (n : nat) (dwDataCounter : Z) (b : cmdbuf) (lCommandLength pWptr pWptrLimit sz : Z) : D Z :=
  if dwDataCounter <? u32 lCommandLength then
    match n with
    | O => stuck
    | S n' =>
        w ← cmd_word b dwDataCounter;
        _ ← store_word (Z.lor pWptr 0xA0000000) w;
        let p := u32 (pWptr + 4) in
        put_words n' (u32 (dwDataCounter + 4)) b lCommandLength (if p >=? pWptrLimit then u32 (p - sz) else p) pWptrLimit sz
    end
  else mret pWptr.

Definition publish (pWptr : Z) : D unit :=
  s ← get;
  _ ← write_wptr (u32 (pWptr - v_to_p_offset (dv s)));
  write_ctrl (Z.lor SeGo (Z.lor SeEndianSwap SeWriteData)).

(** [WriteCmd] up to where it takes the write pointer [pWptr], and from there on. *)
Definition cmd_wait (lCommandLength : Z) : D unit :=
  pbyWritePointer ← nonzero fuel read_wptr;
  s ← get;
  wait_room fuel pbyWritePointer lCommandLength (size (dv s)).

Definition cmd_put (b : cmdbuf) (lCommandLength : Z) (go : bool) (pWptr : Z) : D unit :=
  s ← get;
  let d := dv s in
  pWptr ← put_words fuel 0 b lCommandLength pWptr (u32 (CmdBuf d + size d)) (size d);
  _ ← set_dv (with_wrptr (s32 (pWptr - CmdBuf d)));
  if go then publish pWptr else mret tt.

Definition WriteCmd (b : cmdbuf) (lCommandLength : Z) (go : bool) : D unit :=
  if lCommandLength =? 0 then
    if go then
      s ← get;
      publish (u32 (CmdBuf (dv s) + wrptr (dv s)))
    else mret tt
  else
    _ ← cmd_wait lCommandLength;
    s ← get;
    cmd_put b lCommandLength go (u32 (CmdBuf (dv s) + wrptr (dv s))).

(** ** The interrupt *)

(** [vsync_queue_t]: the offsets of the fields. *)
Definition u32Size_at (q : Z) : Z := u32 (q + 4).
Definition u32RdPtr_at (q : Z) : Z := u32 (q + 8).
Definition u32WrPtr_at (q : Z) : Z := u32 (q + 12).
Definition go_at (q : Z) : Z := u32 (q + 16).
Definition u8Buf_at (q : Z) : Z := u32 (q + 20).

(** A command of a queue, [len] bytes from [rdptr] on; the new [rdptr]. *)
Definition queue_cmd (buf rdptr len u32Size : Z) : D Z :=
  if u32 (rdptr + len) >=? u32Size then
    _ ← WriteCmd (At (u32 (buf + rdptr))) (s32 (u32Size - rdptr)) false;
    _ ← WriteCmd (At buf) (s32 (rdptr + len - u32Size)) true;
    mret (u32 (rdptr + len - u32Size))
  else
    _ ← WriteCmd (At (u32 (buf + rdptr))) (s32 len) true;
    mret (u32 (rdptr + len)).

(** [while(p_vsync_queue->u32RdPtr != p_vsync_queue->u32WrPtr)] *)
Fixpoint queue_loop (n : nat) (q rdptr u32Size : Z) (dirty : bool) : D bool :=
  r ← ld (u32RdPtr_at q);
  w ← ld (u32WrPtr_at q);
  if r =? w then mret dirty
  else
    match n with
    | O => stuck
    | S n' =>
        len ← ld (u32 (u8Buf_at q + rdptr));
        if len =? 0 then
          _ ← sto (u32RdPtr_at q) (u32 (r + 4));
          sz ← ld (u32Size_at q);
          _ ← (if u32 (r + 4) >=? sz then sto (u32RdPtr_at q) (u32 (u32 (r + 4) - sz)) else mret tt);
          mret true
        else
          let len := u32 (len - 4) in
          let rdptr := u32 (rdptr + 4) in
          let rdptr := if rdptr >=? u32Size then u32 (rdptr - u32Size) else rdptr in
          rdptr ← queue_cmd (u8Buf_at q) rdptr len u32Size;
          _ ← sto (u32RdPtr_at q) rdptr;
          queue_loop n' q rdptr u32Size true
    end.

(** The body of the loop over the queues. *)
Definition queue_turn (ii : Z) (dirty : bool) : D bool :=
  s ← get;
  let p := p_vsync_queue (dv s) in
  sz ← ld (u32Size_at p);
  let q := u32 (p + u32 (sz + 20) * ii) in
  g ← ld (go_at q);
  if negb (g =? 0) then
    rdptr ← ld (u32RdPtr_at q);
    u32Size ← ld (u32Size_at q);
    dirty ← queue_loop fuel q rdptr u32Size dirty;
    r ← ld (u32RdPtr_at q);
    w ← ld (u32WrPtr_at q);
    _ ← (if r =? w then sto (go_at q) 0 else mret tt);
    mret dirty
  else mret dirty.

Fixpoint queues (n : nat) (ii : Z) (dirty : bool) : D bool :=
  match n with
  | O => mret dirty
  | S n' => dirty ← queue_turn ii dirty; queues n' (ii + 1) dirty
  end.

Definition vsync_irq : D Z :=
  s ← get;
  if negb (Z.land (flag s) (endian_swap_32 2) =? 0) then
    _ ← set_flag (endian_swap_32 1);
    dirty ← queues (Z.to_nat (u32_max_queue_num (dv s))) 0 false;
    _ ← (if negb dirty then s ← get; set_flag (Z.land (flag s) (endian_swap_32 0)) else mret tt);
    mret IRQ_HANDLED
  else mret IRQ_NONE.

Definition sync_irq : D Z :=
  int_status ← readl SE_INT_STATUS;
  if negb (Z.land int_status INT_SYNC =? 0) then
    _ ← write_l (Z.lor SE_CLR_WRITE_DATA INT_SYNC) SE_INT_STATUS;
    _ ← set_dv (fun d => let low := u32 (hw_low d + (INST_CNT_MASK + 1)) in
                         with_counter low (if hw_low d >? low then u32 (hw_high d + 1) else hw_high d) d);
    _ ← write_l (Z.lor SE_CLR_WRITE_DATA INT_SYNC) SE_INT_ENABLE;
    mret IRQ_HANDLED
  else mret IRQ_NONE.

Definition se_irq_handler : D Z :=
  s ← get;
  if isMars (dv s) then vsync_irq else sync_irq.

(** ** The device file *)

(** [blk]: what [kmalloc] answers for the command buffer; [sig]: a signal arrives
    while the call waits for the semaphore. *)
Definition se_open (blk : Z * list Z) (sig : bool) : D Z :=
  if sig then mret (- ERESTARTSYS)
  else
    _ ← down;
    s ← get;
    _ ← (if negb (initialized (dv s)) then
           _ ← set_irq true;
           _ ← set_dv (with_initialized true);
           _ ← set_dv (fun d => with_queue 0 (u32_max_queue_num d) d);
           _ ← set_dv (with_isMars is_mars_cpu);
           set_flag 0
         else mret tt);
    s ← get;
    _ ← (if isMars (dv s) && (CmdBuf (dv s) =? 0) then
           let buf := fst blk in
           let dwPhysicalAddress := u32 (buf - 0x80000000) in
           _ ← set_hw (fun h => mkHw (base0 h) (base1 h) (base2 h) (limit1 h) (rdp h) (wrp h) (inst1 h) (snd blk) (fetched h) (now h) (go h) (writes h));
           _ ← set_dv (with_buffer buf dwPhysicalAddress (u32 (dwPhysicalAddress + SE_COMMAND_ENTRIES * 4))
                         (s32 (buf - dwPhysicalAddress)) (SE_COMMAND_ENTRIES * 4));
           _ ← write_ctrl (Z.lor SeGo (Z.lor SeEndianSwap SeClearWriteData));
           _ ← write_ctrl (Z.lor SeEndianSwap SeWriteData);
           s ← get;
           _ ← write_base (CmdBase (dv s));
           _ ← write_limit (CmdLimit (dv s));
           _ ← write_rptr (CmdBase (dv s));
           _ ← write_wptr (CmdBase (dv s));
           write_inst 0
         else mret tt);
    _ ← up;
    mret 0.

Definition se_release : D Z :=
  _ ← set_dv (fun d => with_counter 0 0 (with_initialized false d));
  _ ← write_l (Z.lor SE_CLR_WRITE_DATA INT_SYNC) SE_INT_ENABLE;
  _ ← write_l (Z.lor SE_GO SE_CLR_WRITE_DATA) SE_CNTL;
  _ ← set_irq false;
  mret 0.

Definition se_read : D Z := mret (- EFAULT).
Definition se_llseek : D Z := mret (- EINVAL).

(** [char data[32]] *)
Definition DATA_BYTES : Z := 32.

(** [buf]: the words of the program at the address it gives ([None]: not an
    address of the program).  The result, and the position in the file.
    [copy_from_user] writes all [count] bytes of [data] once the address is
    accepted, zeros where the memory of the program ends. *)
Definition se_write (buf : option (list Z)) (count f_pos : Z) (sig : bool) : D (Z * Z) :=
  if sig then mret (- ERESTARTSYS, f_pos)
  else
    _ ← down;
    r ← (if negb (Z.land count 3 =? 0) then mret (- EFAULT, f_pos)
         else match buf with
              | None => mret (- EFAULT, f_pos)
              | Some l =>
                  if DATA_BYTES <? count then fault
                  else if 4 * Zlen l <? count then mret (- EFAULT, f_pos)
                  else
                    _ ← WriteCmd (Data (firstn (Z.to_nat (count / 4)) l)) (s32 count) true;
                    mret (count, f_pos + count)
              end);
    _ ← up;
    mret r.

Definition SE_IOC_READ_HW_CMD_COUNTER : Z := 0x40046B11.
Definition SE_IOC_SET_VSYNC_QUEUE : Z := 0x40086B15.

(** What is at the address [arg] in the memory of the program: the parameters of
    the queues ([None]: it cannot be read), and whether it can be written. *)
Record se_arg := mkArg { a_queue : option (Z * Z); a_writable : bool }.

(** The result, and the counter written to the program (low and high word). *)
Definition se_ioctl (cmd : Z) (arg : se_arg) (sig : bool) : D (Z * option (Z * Z)) :=
  if sig then mret (- ERESTARTSYS, None)
  else
    _ ← down;
    r ← (if cmd =? SE_IOC_SET_VSYNC_QUEUE then
           match a_queue arg with
           | None => mret (- EFAULT, None)
           | Some (u32_max_queue_num, vsync_queue_phy) =>
               _ ← set_dv (with_queue (u32 (vsync_queue_phy + 0xA0000000)) u32_max_queue_num);
               mret (0, None)
           end
         else if cmd =? SE_IOC_READ_HW_CMD_COUNTER then
           v ← readl SE_INST_CNT;
           s ← get;
           if a_writable arg then mret (0, Some (Z.lor (hw_low (dv s)) (Z.land v INST_CNT_MASK), hw_high (dv s)))
           else mret (- EFAULT, None)
         else mret (- ENOTTY, None));
    _ ← up;
    mret r.
End se.
