(* ===== verification/SeProofs.v ===== *)
(** * The stream engine: the ring of commands

    What the driver and the engine keep true about the ring at every access, how
    long the driver can have to wait, and what [WriteCmd] does. *)
From stdpp Require Import base tactics list numbers option.
From Stdlib Require Import ZArith Lia.
From S2P Require Import Prelude Driver Se.

#[local] Ltac Zify.zify_post_hook ::= Z.div_mod_to_equations.

(** ** The ring *)

(** [V]: the words written so far, oldest first; the first [p] of them have been
    handed to the engine. *)
Record HInv (V : list Z) (p : Z) (h : se_hw) : Prop := {
  h_ring : Zlen (ring h) = 4096;
  h_base : 0 < base1 h < 0x1FFFC000;
  h_limit : limit1 h = base1 h + 16384;
  h_done : fetched h = firstn (length (fetched h)) V;
  h_left : Zlen (fetched h) <= p <= Zlen V;
  h_room : Zlen V < Zlen (fetched h) + 4096;
  h_rdp : rdp h = base1 h + 4 * (Zlen (fetched h) mod 4096);
  h_wrp : wrp h = base1 h + 4 * (p mod 4096);
  h_slots : forall i, Zlen (fetched h) <= i < Zlen V -> V.[i] = (ring h).[i mod 4096]
}.

Lemma se_rdp_wrp V p h : HInv V p h -> rdp h = wrp h <-> p = Zlen (fetched h).
Proof. intros []. rewrite h_rdp0, h_wrp0. lia. Qed.

Lemma se_engine_step_inv V p h : HInv V p h -> HInv V p (engine_step h) /\
  Zlen (fetched (engine_step h)) = Zlen (fetched h) + (if go h && negb (p =? Zlen (fetched h)) then 1 else 0) /\
  ring (engine_step h) = ring h /\ base1 (engine_step h) = base1 h /\ now (engine_step h) = now h /\ go (engine_step h) = go h.
Proof.
  intros Hh. pose proof (se_rdp_wrp V p h Hh) as Hrw. pose proof Hh as []. unfold engine_step.
  destruct (go h) eqn:Eg; cbn [negb orb andb]; [|by rewrite Z.add_0_r].
  destruct (Z.eqb_spec (rdp h) (wrp h)) as [Heq|Hne].
  { destruct (Z.eqb_spec p (Zlen (fetched h))) as [_|]; [|by apply Hrw in Heq]. by rewrite Z.add_0_r. }
  destruct (Z.eqb_spec p (Zlen (fetched h))) as [Hp|Hp]; [by apply Hrw in Hp|]. cbn [negb].
  assert (Hi : Zlen (fetched h) <= Zlen (fetched h) < Zlen V) by lia. pose proof (h_slots0 _ Hi) as Hs.
  replace ((rdp h - base1 h) / 4) with (Zlen (fetched h) mod 4096) by (rewrite h_rdp0; lia). rewrite <- Hs.
  set (c := V.[Zlen (fetched h)]) in *.
  assert (Hz : Zlen (fetched h ++ [c]) = Zlen (fetched h) + 1) by (rewrite Zlen_app; done).
  split; [|cbn [fetched ring base1 now go]; by rewrite Hz].
  split; cbn [go ring base1 limit1 fetched rdp wrp]; rewrite ?Hz; try done; try lia.
  - rewrite length_app. cbn [length]. rewrite Nat.add_1_r, (take_S_r _ _ c); [by rewrite <- h_done0|]. apply lookup_at. unfold Zlen in *. lia.
  - destruct (Z.geb_spec (rdp h + 4) (limit1 h)); lia.
  - intros i Hi'. apply h_slots0. lia.
Qed.

Lemma se_engine_inv V p n : forall h, HInv V p h -> HInv V p (engine n h) /\
  Zlen (fetched h) <= Zlen (fetched (engine n h)) /\
  (go h = true -> Zlen (fetched h) + Z.min (Z.of_nat n) (p - Zlen (fetched h)) <= Zlen (fetched (engine n h))) /\
  ring (engine n h) = ring h /\ base1 (engine n h) = base1 h /\ now (engine n h) = now h /\ go (engine n h) = go h.
Proof.
  induction n as [|n IH]; intros h Hh; cbn [engine].
  { pose proof (h_left _ _ _ Hh). repeat split; try done; try lia; apply Hh. }
  destruct (se_engine_step_inv V p h Hh) as (H1 & H2 & H3 & H4 & H5 & H6). destruct (IH _ H1) as (K1 & K2 & K3 & K4 & K5 & K6 & K7).
  pose proof (h_left _ _ _ Hh). split; [done|]. split; [destruct (go h && _); lia|]. split; [|repeat split; congruence].
  intros Eg. rewrite Eg in H2, H6. specialize (K3 H6). cbn [andb] in H2. destruct (Z.eqb_spec p (Zlen (fetched h))); cbn [negb] in H2; lia.
Qed.

(** What happens around the driver while it waits or fills the ring. *)
Record ran (s s' : st) : Prop := {
  n_dv : dv s' = dv s;
  n_vmem : vmem s' = vmem s;
  n_flag : flag s' = flag s;
  n_irq : irq s' = irq s;
  n_base : base1 (hw s') = base1 (hw s);
  n_go : go (hw s') = go (hw s);
  n_done : Zlen (fetched (hw s)) <= Zlen (fetched (hw s'))
}.

#[export] Instance ran_refl : Reflexive ran.
Proof. intros s. by split. Qed.
#[export] Instance ran_trans : Transitive ran.
Proof. intros s1 s2 s3 [] []. split; try congruence. lia. Qed.

(** What writing commands leaves alone. *)
Record kept (s s' : st) : Prop := {
  k_dv : dv s' = with_wrptr (wrptr (dv s')) (dv s);
  k_vmem : vmem s' = vmem s;
  k_flag : flag s' = flag s;
  k_irq : irq s' = irq s;
  k_done : Zlen (fetched (hw s)) <= Zlen (fetched (hw s'))
}.

#[export] Instance kept_refl : Reflexive kept.
Proof. intros s. split; try done. by destruct s as [[] ? ? ? ?]. Qed.
#[export] Instance kept_trans : Transitive kept.
Proof. intros s1 s2 s3 [] []. split; try congruence; [|lia]. rewrite k_dv1, k_dv0. done. Qed.

(** ** Waiting *)

Section fair.
Context {env : SeEnv} (Hmars : is_mars_cpu = true).
Context {dly : nat} (Hfair : fair se_turns dly).

(** The words the engine has still to fetch. *)
Definition pend (p : Z) (s : st) : Z := p - Zlen (fetched (hw s)).

(** Every access brings the end of a wait nearer. *)
Definition left_over (p : Z) (s : st) : nat := (Z.to_nat (pend p s) * dly + gap se_turns dly (now (hw s)))%nat.

(** The engine is running if there is something to do. *)
Definition alive (p : Z) (s : st) : Prop := pend p s = 0 \/ go (hw s) = true.

Lemma ran_alive V p s s' : HInv V p (hw s') -> ran s s' -> alive p s -> alive p s'.
Proof. intros H [] [Hp|Hg]; [left|right; congruence]. pose proof (h_left _ _ _ H). unfold pend in *. lia. Qed.

Lemma se_tick_spec V p s : HInv V p (hw s) ->
  wp tick s (fun _ s' => HInv V p (hw s') /\ ran s s' /\ (alive p s -> pend p s' = 0 \/ (left_over p s' < left_over p s)%nat)).
Proof.
  intros Hh. destruct (se_engine_inv V p (se_turns (now (hw s))) (hw s) Hh) as (H1 & H2 & H3 & H4 & H5 & H6 & H7).
  eexists _, _. split; [reflexivity|]. set (h := engine _ _) in *.
  split; [destruct H1; by split|]. split; [by split|]. intros Ha.
  pose proof (h_left _ _ _ Hh). pose proof (h_left _ _ _ H1). unfold left_over, pend, alive in *. cbn [hw fetched now].
  destruct Ha as [Hp|Hg]; [left; unfold pend in Hp; lia|]. specialize (H3 Hg).
  rewrite H6. pose proof (gap_lt se_turns dly Hfair (S (now (hw s)))) as Hgap.
  destruct (decide (se_turns (now (hw s)) = O)) as [E|E].
  - pose proof (gap_next se_turns dly Hfair _ E). assert (Z.to_nat (p - Zlen (fetched h)) <= Z.to_nat (p - Zlen (fetched (hw s))))%nat by lia. right. nia.
  - destruct (Z.eq_dec (p - Zlen (fetched (hw s))) 0); [left; lia|]. right.
    assert (S (Z.to_nat (p - Zlen (fetched h))) <= Z.to_nat (p - Zlen (fetched (hw s))))%nat by lia. nia.
Qed.

Lemma se_left_over_bound V p s : HInv V p (hw s) -> (left_over p s < 4096 * dly)%nat.
Proof.
  intros []. unfold left_over, pend. pose proof (gap_lt se_turns dly Hfair (now (hw s))).
  assert (Z.to_nat (p - Zlen (fetched (hw s))) <= 4095)%nat by lia. nia.
Qed.

Lemma dly_pos : (0 < dly)%nat.
Proof. pose proof (gap_lt se_turns dly Hfair 0). lia. Qed.

(** A pointer is never 0: the buffer is not at the start of the memory. *)
Lemma nonzero_spec V p s n (r : D Z) (f : se_hw -> Z) : HInv V p (hw s) -> (0 < n)%nat ->
  (forall s, r s = (_ ← tick; s ← get; mret (f (hw s))) s) -> (forall h, HInv V p h -> f h <> 0) ->
  wp (nonzero n r) s (fun v s' => v = f (hw s') /\ HInv V p (hw s') /\ ran s s' /\ (alive p s -> pend p s' = 0 \/ (left_over p s' < left_over p s)%nat)).
Proof.
  intros Hh Hn Hr Hf. destruct n as [|n]; [lia|]. cbn [nonzero]. destruct (se_tick_spec V p s Hh) as (t & s1 & E & H1 & H2).
  exists (f (hw s1)), s1. split; [|done]. unfold mbind, Drv_bind. rewrite Hr. unfold mbind, Drv_bind. rewrite E. cbn.
  destruct (Z.eqb_spec (f (hw s1)) 0) as [E0|]; [by apply Hf in E0|done].
Qed.

Variable fuel : nat.
Hypothesis Hfuel : (4096 * dly <= fuel)%nat.

Lemma se_wait_room_spec V p m n : forall s w, HInv V p (hw s) -> alive p s -> w = wrp (hw s) -> 0 <= m < 4096 -> (left_over p s < n)%nat ->
  wp (wait_room fuel n w (4 * m) 16384) s (fun _ s' => HInv V p (hw s') /\ ran s s' /\ pend p s' + m < 4096).
Proof.
  induction n as [|n IH]; intros s w Hh Ha Hw Hm Hf; [lia|]. cbn [wait_room]. pose proof dly_pos as Hd.
  apply wp_bind, (wp_mono _ _ _ _ (nonzero_spec V p s fuel read_rptr rdp Hh ltac:(lia) ltac:(intros; unfold read_rptr; by rewrite Hmars) ltac:(intros h []; lia))).
  intros rp s' (-> & I & R & N). specialize (N Ha).
  assert (Ew : w = wrp (hw s')) by (rewrite (h_wrp _ _ _ I), (n_base _ _ R), Hw; apply (h_wrp _ _ _ Hh)).
  assert (Hiff : (u32 (w + 4 * m) <? (if rdp (hw s') <=? w then u32 (rdp (hw s') + 16384) else rdp (hw s'))) = true <-> pend p s' + m < 4096).
  { destruct I. unfold pend in *. rewrite Z.ltb_lt, Ew, h_wrp0, h_rdp0. set (k := Zlen (fetched (hw s'))) in *.
    pose proof (Z.mod_pos_bound k 4096 ltac:(lia)). pose proof (Z.mod_pos_bound p 4096 ltac:(lia)).
    pose proof (Z.div_mod k 4096 ltac:(lia)). pose proof (Z.div_mod p 4096 ltac:(lia)).
    generalize dependent (k mod 4096). generalize dependent (p mod 4096). intros v ? ? ? e ? ? ?.
    rewrite !(u32_small _) by (unfold is_u32, W32; lia).
    destruct (Z.leb_spec (base1 (hw s') + 4 * e) (base1 (hw s') + 4 * v)); lia. }
  destruct (u32 (w + 4 * m) <? _) eqn:E; [apply wp_ret; split; [done|split; [done|by apply Hiff]]|].
  destruct N as [N|N]; [exfalso; assert (pend p s' + m < 4096) as H by lia; apply Hiff in H; congruence|].
  apply (wp_mono _ _ _ _ (IH s' w I (ran_alive _ _ _ _ I R Ha) Ew Hm ltac:(lia))). intros _ s2 (I2 & R2 & P2).
  split; [done|split; [by transitivity s'|done]].
Qed.

(** ** Writing a command *)

Lemma phys_cached x : 0 <= x < 0x20000000 -> phys (0x80000000 + x) = x.
Proof. intros Hx. unfold phys. change 0x1FFFFFFF with (Z.ones 29). rewrite Z.land_ones by lia. lia. Qed.

Lemma phys_uncached x : 0 <= x < 0x20000000 -> phys (Z.lor (0x80000000 + x) 0xA0000000) = x.
Proof.
  intros Hx. unfold phys. rewrite Z.land_lor_distr_l. change (Z.land 0xA0000000 0x1FFFFFFF) with 0. rewrite Z.lor_0_r. by apply phys_cached.
Qed.

(** A word stored behind the words written so far disturbs none of them. *)
Lemma se_store_spec V p s x : HInv V p (hw s) -> Zlen V + 1 < Zlen (fetched (hw s)) + 4096 -> CmdBuf (dv s) = 0x80000000 + base1 (hw s) ->
  wp (store_word (Z.lor (CmdBuf (dv s) + 4 * (Zlen V mod 4096)) 0xA0000000) x) s (fun _ s' => HInv (V ++ [x]) p (hw s') /\ ran s s').
Proof.
  intros Hh Hr Hb. unfold store_word. apply wp_bind, (wp_mono _ _ _ _ (se_tick_spec V p s Hh)). intros _ s1 (I & R & _).
  apply wp_bind, wp_get. rewrite (n_dv _ _ R), Hb, <- Z.add_assoc. pose proof (h_base _ _ _ Hh) as Hbase.
  rewrite phys_uncached, phys_cached by lia.
  replace (base1 (hw s) + 4 * (Zlen V mod 4096) - base1 (hw s)) with (Zlen V mod 4096 * 4) by lia.
  rewrite Z.mod_mul, Z.div_mul by lia. cbn [Z.eqb].
  pose proof (Z.mod_pos_bound (Zlen V) 4096 ltac:(lia)) as Hm. pose proof (h_ring _ _ _ I) as Hl.
  apply wp_bind, (wp_lift _ _ (<[Z.to_nat (Zlen V mod 4096) := x]> (ring (hw s1)))); [apply wr_ok; lia|]. apply wp_modify.
  pose proof (n_done _ _ R) as Hk. split; [|by destruct R; split]. destruct I. assert (Hz : Zlen (V ++ [x]) = Zlen V + 1) by (rewrite Zlen_app; done).
  split; cbn [hw ring base1 limit1 fetched rdp wrp]; rewrite ?Zlen_insert, ?Hz; try done; try lia.
  - rewrite take_app_le by (unfold Zlen in *; lia). done.
  - intros i Hi. pose proof (Zlen_nonneg (fetched (hw s1))). destruct (Z.eq_dec i (Zlen V)) as [->|].
    + rewrite at_app_r, Z.sub_diag by lia. rewrite at_insert_eq by lia. done.
    + rewrite at_app_l by lia. rewrite at_insert_ne; [apply h_slots0; lia|lia|lia|]. lia.
Qed.

(** [b] holds the words [ws] from its byte [4 * j] on, while the shared memory is [vm]. *)
Definition Source (b : cmdbuf) (vm : list Z) (j : Z) (ws : list Z) : Prop :=
  forall i s, 0 <= i < Zlen ws -> vmem s = vm -> cmd_word b (4 * (j + i)) s = Ret (ws.[i], s).

Lemma put_words_spec p b m B : forall ws n V j s, Source b (vmem s) j ws -> HInv V p (hw s) -> Zlen V + Zlen ws < Zlen (fetched (hw s)) + 4096 ->
  CmdBuf (dv s) = B -> B = 0x80000000 + base1 (hw s) -> 0 <= j -> j + Zlen ws = m -> m < 4096 -> (length ws <= n)%nat ->
  wp (put_words n (4 * j) b (4 * m) (B + 4 * (Zlen V mod 4096)) (B + 16384) 16384) s
    (fun q s' => q = B + 4 * (Zlen (V ++ ws) mod 4096) /\ HInv (V ++ ws) p (hw s') /\ ran s s').
Proof.
  induction ws as [|x ws IH]; intros n V j s Hs Hh Hr HC HB Hj Hm Hm' Hn.
  { rewrite app_nil_r. assert (E : 4 * j <? u32 (4 * m) = false).
    { apply Z.ltb_ge. unfold Zlen in Hm. cbn in Hm. rewrite u32_small by (unfold is_u32, W32; lia). lia. }
    assert (E2 : forall n, put_words n (4 * j) b (4 * m) (B + 4 * (Zlen V mod 4096)) (B + 16384) 16384 = mret (B + 4 * (Zlen V mod 4096))).
    { intros []; cbn [put_words]; by rewrite E. }
    rewrite E2. by apply wp_ret. }
  rewrite Zlen_cons in *. pose proof (Zlen_nonneg ws) as Hnn. destruct n as [|n]; [cbn in Hn; lia|]. cbn [put_words].
  rewrite (u32_small (4 * m)) by (unfold is_u32, W32; lia). destruct (Z.ltb_spec (4 * j) (4 * m)); [|lia].
  apply wp_bind. exists x, s. split.
  { replace (4 * j) with (4 * (j + 0)) by lia. rewrite (Hs 0 s) by (rewrite ?Zlen_cons; lia || done). done. }
  rewrite <- HC at 1. apply wp_bind, (wp_mono _ _ _ _ (se_store_spec V p s x Hh ltac:(lia) ltac:(congruence))). intros _ s1 [I R]. cbn zeta.
  pose proof (Z.mod_pos_bound (Zlen V) 4096 ltac:(lia)) as Hv. pose proof (h_base _ _ _ Hh).
  assert (Ez : Zlen (V ++ [x]) = Zlen V + 1) by (rewrite Zlen_app; done).
  rewrite (u32_small (4 * j + 4)) by (unfold is_u32, W32; lia). rewrite (u32_small (B + 4 * _ + 4)) by (unfold is_u32, W32; lia).
  replace (4 * j + 4) with (4 * (j + 1)) by lia.
  replace (if _ >=? _ then _ else _) with (B + 4 * (Zlen (V ++ [x]) mod 4096)).
  2: { rewrite Ez. destruct (Z.geb_spec (B + 4 * (Zlen V mod 4096) + 4) (B + 16384)); [rewrite u32_small by (unfold is_u32, W32; lia)|]; lia. }
  assert (Hs1 : Source b (vmem s1) (j + 1) ws).
  { intros i s2 Hi Hv2. replace (j + 1 + i) with (j + (i + 1)) by lia. rewrite Hs; [|rewrite Zlen_cons; lia|rewrite Hv2; apply R].
    unfold at_. by replace (Z.to_nat (i + 1)) with (S (Z.to_nat i)) by lia. }
  pose proof (n_done _ _ R). rewrite <- (n_dv _ _ R) in HC. rewrite <- (n_base _ _ R) in HB.
  apply (wp_mono _ _ _ _ (IH n (V ++ [x]) (j + 1) s1 Hs1 I ltac:(lia) HC HB ltac:(lia) ltac:(lia) Hm' ltac:(cbn in Hn; lia))).
  intros q s2. rewrite <- app_assoc. intros (-> & I2 & R2). split; [done|split; [done|by transitivity s1]].
Qed.

(** ** The driver *)

Record DInv (V : list Z) (p : Z) (s : st) : Prop := {
  d_hw : HInv V p (hw s);
  d_alive : alive p s;
  d_size : size (dv s) = 16384;
  d_wrptr : wrptr (dv s) = 4 * (Zlen V mod 4096);
  d_buf : CmdBuf (dv s) = 0x80000000 + base1 (hw s);
  d_off : v_to_p_offset (dv s) = - 0x80000000
}.

Lemma se_ran_kept s s' : ran s s' -> kept s s'.
Proof. intros []. split; try done. rewrite n_dv0. by destruct (dv s). Qed.

Lemma DInv_ran V p s s' : HInv V p (hw s') -> ran s s' -> DInv V p s -> DInv V p s'.
Proof. intros Hh R []. split; rewrite ?(n_dv _ _ R), ?(n_base _ _ R); try done. by apply (ran_alive V p s). Qed.

Lemma set_mars_spec V p s a v f (Q : unit -> st -> Prop) : HInv V p (hw s) ->
  (forall s', HInv V p (hw s') -> ran s s' -> Q tt (mkSt (dv s') (f (hw s')) (vmem s') (flag s') (irq s'))) -> wp (set_mars a v f) s Q.
Proof.
  intros Hh HQ. unfold set_mars. apply wp_bind, (wp_mono _ _ _ _ (se_tick_spec V p s Hh)). intros _ s' (I & R & _). apply wp_modify.
  rewrite Hmars. by apply HQ.
Qed.

(** The words written are handed to the engine, which is switched on. *)
Lemma publish_spec V p s q : HInv V p (hw s) -> q = CmdBuf (dv s) + 4 * (Zlen V mod 4096) -> size (dv s) = 16384 ->
  wrptr (dv s) = 4 * (Zlen V mod 4096) -> CmdBuf (dv s) = 0x80000000 + base1 (hw s) -> v_to_p_offset (dv s) = - 0x80000000 ->
  wp (publish q) s (fun _ s' => DInv V (Zlen V) s' /\ kept s s').
Proof.
  intros Hh -> Hsz Hwr Hb Ho. unfold publish. apply wp_bind, wp_get. pose proof (h_base _ _ _ Hh).
  assert (E : u32 (CmdBuf (dv s) + 4 * (Zlen V mod 4096) - v_to_p_offset (dv s)) = base1 (hw s) + 4 * (Zlen V mod 4096)).
  { rewrite Hb, Ho. unfold u32, W32. lia. }
  rewrite E. apply wp_bind, (set_mars_spec V p _ _ _ _ _ Hh). intros s1 I1 R1.
  set (s2 := mkSt _ _ _ _ _). assert (I2 : HInv V (Zlen V) (hw s2)).
  { subst s2. cbn [hw]. rewrite <- (n_base _ _ R1). destruct I1. split; try done. cbn [fetched]. lia. }
  apply (set_mars_spec V (Zlen V) s2 _ _ _ _ I2). intros s3 I3 R3.
  assert (Ed : dv s3 = dv s) by (rewrite (n_dv _ _ R3); apply R1). assert (Eb : base1 (hw s3) = base1 (hw s)) by (rewrite (n_base _ _ R3); apply R1).
  split.
  - split; cbn [dv hw base1]; [destruct I3; by split|by right|rewrite ?Ed, ?Eb; done..].
  - subst s2. destruct R1, R3. cbn [dv vmem flag irq hw fetched] in *. split; cbn [dv vmem flag irq hw fetched]; rewrite ?Ed; try congruence; [by destruct (dv s)|lia].
Qed.

Lemma se_WriteCmd_spec V p s b ws g : DInv V p s -> Source b (vmem s) 0 ws -> Zlen ws < 4096 ->
  p = Zlen V \/ Zlen V + Zlen ws < Zlen (fetched (hw s)) + 4096 ->
  wp (WriteCmd fuel b (4 * Zlen ws) g) s (fun _ s' => DInv (V ++ ws) (if (g : bool) then Zlen (V ++ ws) else p) s' /\ kept s s').
Proof.
  intros Hd Hs Hl Hr. pose proof (Zlen_nonneg ws) as Hnn. pose proof (h_base _ _ _ (d_hw _ _ _ Hd)) as Hb.
  pose proof (Z.mod_pos_bound (Zlen V) 4096 ltac:(lia)) as Hv. unfold WriteCmd. destruct (Z.eqb_spec (4 * Zlen ws) 0) as [E|E].
  { assert (ws = []) as -> by (destruct ws; [done|rewrite Zlen_cons in *; pose proof (Zlen_nonneg ws); lia]). rewrite app_nil_r.
    destruct g; [|by apply wp_ret]. apply wp_bind, wp_get. pose proof Hd as []. apply publish_spec with p; try done.
    rewrite d_buf0, d_wrptr0. rewrite u32_small by (unfold is_u32, W32; lia). done. }
  unfold cmd_wait, cmd_put. pose proof dly_pos.
  apply wp_bind, wp_bind, (wp_mono _ _ _ _ (nonzero_spec V p s fuel read_wptr wrp (d_hw _ _ _ Hd) ltac:(lia) ltac:(intros; unfold read_wptr; by rewrite Hmars) ltac:(intros h []; lia))).
  intros w s1 (-> & I1 & R1 & _). pose proof (DInv_ran _ _ _ _ I1 R1 Hd) as Hd1. apply wp_bind, wp_get. rewrite (d_size _ _ _ Hd1).
  pose proof (se_left_over_bound V p s1 I1).
  apply (wp_mono _ _ _ _ (se_wait_room_spec V p (Zlen ws) fuel s1 _ I1 (d_alive _ _ _ Hd1) eq_refl ltac:(lia) ltac:(lia))). intros _ s2 (I2 & R2 & P2).
  pose proof (DInv_ran _ _ _ _ I2 R2 Hd1) as Hd2. apply wp_bind, wp_get, wp_bind, wp_get. pose proof Hd2 as [_ A2 S2 W2 B2 O2]. rewrite S2, W2.
  pose proof (h_base _ _ _ I2). pose proof (n_done _ _ R1). pose proof (n_done _ _ R2). unfold pend in P2. cbn zeta.
  rewrite !(u32_small (CmdBuf (dv s2) + _)) by (unfold is_u32, W32; lia).
  assert (Hs2 : Source b (vmem s2) 0 ws) by (rewrite (n_vmem _ _ R2), (n_vmem _ _ R1); done).
  apply wp_bind, (wp_mono _ _ _ _ (put_words_spec p b (Zlen ws) _ ws fuel V 0 s2 Hs2 I2 ltac:(lia) eq_refl B2 ltac:(lia) ltac:(lia) Hl ltac:(unfold Zlen in *; lia))).
  intros q s3 (-> & I3 & R3). apply wp_bind, wp_modify. set (s4 := mkSt _ _ _ _ _).
  assert (R03 : kept s s3) by (transitivity s1; [by apply se_ran_kept|transitivity s2; by apply se_ran_kept]).
  pose proof (Z.mod_pos_bound (Zlen (V ++ ws)) 4096 ltac:(lia)) as Hv'.
  assert (Ew : s32 (CmdBuf (dv s2) + 4 * (Zlen (V ++ ws) mod 4096) - CmdBuf (dv s2)) = 4 * (Zlen (V ++ ws) mod 4096)).
  { unfold s32, u32, W32. destruct (_ <? _) eqn:?; lia. }
  assert (K4 : kept s s4) by (destruct R03; split; try done; cbn [s4 dv]; rewrite k_dv0; done).
  destruct R3 as [D3 _ _ _ B3 G3 N3].
  destruct g.
  - apply (wp_mono _ _ _ _ (publish_spec (V ++ ws) p s4 _ I3 ltac:(cbn [s4 dv with_wrptr CmdBuf]; by rewrite D3) ltac:(cbn; by rewrite D3) Ew ltac:(cbn; by rewrite D3, B3) ltac:(cbn; by rewrite D3))).
    intros _ s5 [H5 K5]. split; [done|by transitivity s4].
  - apply wp_ret. split; [|done]. split; cbn [s4 dv hw size wrptr CmdBuf v_to_p_offset with_wrptr]; rewrite ?D3; try done.
    + pose proof (h_left _ _ _ I3). destruct A2 as [A|A]; [left; unfold pend in *; cbn [s4 hw]; lia|right; cbn [s4 hw]; congruence].
    + congruence.
Qed.
End fair.
