(* ===== verification/SeQueue.v ===== *)
(** * The stream engine: queues in shared memory

    What the queues of a program mean, and what the interrupt does with them. *)
From stdpp Require Import base tactics list numbers option.
From Stdlib Require Import ZArith Lia.
From S2P Require Import Prelude Driver Se SeProofs.

(** ** Meaning *)

(** A queue holds commands and marks.  A command is preceded by its length in
    bytes, which counts the word of the length; a mark is the length 0. *)
Inductive item := Cmd (ws : list Z) | Mark.

Definition item_words (i : item) : list Z :=
  match i with Cmd ws => (4 * Zlen ws + 4) :: ws | Mark => [0] end.
Definition coded (its : list item) : list Z := concat (map item_words its).

(** The words of the commands up to the next mark, and what is behind it. *)
Fixpoint frame (its : list item) : list Z * list item :=
  match its with
  | [] => ([], [])
  | Mark :: r => ([], r)
  | Cmd ws :: r => (ws ++ fst (frame r), snd (frame r))
  end.

Definition filled {A} (l : list A) : bool := match l with [] => false | _ => true end.

Record vqueue := mkQueue { q_go : bool; q_items : list item }.

(** A queue at the synchronisation: the words that are drawn, and the queue then. *)
Definition vsync_queue (q : vqueue) : list Z * vqueue :=
  if q_go q then (fst (frame (q_items q)), mkQueue (filled (snd (frame (q_items q)))) (snd (frame (q_items q))))
  else ([], q).

Definition vsync_words (qs : list vqueue) : list Z := concat (map (fun q => fst (vsync_queue q)) qs).
Definition vsync_left (qs : list vqueue) : list vqueue := map (fun q => snd (vsync_queue q)) qs.
Definition vsync_dirty (qs : list vqueue) : bool := existsb (fun q => q_go q && filled (q_items q)) qs.

(** ** In memory *)

(** The fields of a queue, the positions counted in words, and its buffer. *)
Record qmem := mkQmem { m_occ : Z; m_rd : Z; m_wr : Z; m_go : Z; m_buf : list Z }.

Definition enc (n : Z) (m : qmem) : list Z := [m_occ m; 4 * n; 4 * m_rd m; 4 * m_wr m; m_go m] ++ m_buf m.

(** Positions in a buffer of [n] words: the one [x], at most once around, and the
    distance of two. *)
Definition adv (n x : Z) : Z := if x >=? n then x - n else x.
Definition dist (n r w : Z) : Z := if r <=? w then w - r else w - r + n.

(** [k] words of the buffer from [r] on, around its end. *)
Fixpoint cyc (buf : list Z) (n r : Z) (k : nat) : list Z :=
  match k with O => [] | S k' => buf.[r] :: cyc buf n (adv n (r + 1)) k' end.

(** The words of a frame from the position [r] on lie without a break, in each
    command. *)
Fixpoint unsplit (n r : Z) (its : list item) : bool :=
  match its with
  | Cmd ws :: rest => (adv n (r + 1) + Zlen ws <=? n) && unsplit n (adv n (adv n (r + 1) + Zlen ws)) rest
  | _ => true
  end.

(** Every command fits the ring of the engine. *)
Definition short (i : item) : bool := match i with Cmd ws => Zlen ws <? 4096 | Mark => true end.

Record QRep (n : Z) (m : qmem) (q : vqueue) : Prop := {
  r_buf : Zlen (m_buf m) = n;
  r_rd : 0 <= m_rd m < n;
  r_wr : 0 <= m_wr m < n;
  r_items : cyc (m_buf m) n (m_rd m) (Z.to_nat (dist n (m_rd m) (m_wr m))) = coded (q_items q);
  r_short : forallb short (q_items q) = true;
  r_go : (m_go m =? 0) = negb (q_go q)
}.

Lemma cyc_length buf n k : forall r, length (cyc buf n r k) = k.
Proof. induction k as [|k IH]; intros r; cbn [cyc length]; [done|by rewrite IH]. Qed.

Lemma cyc_app buf n a : forall b r, 0 <= r < n -> Z.of_nat a <= n ->
  cyc buf n r (a + b) = cyc buf n r a ++ cyc buf n (adv n (r + Z.of_nat a)) b.
Proof.
  induction a as [|a IH]; intros b r Hr Ha.
  { cbn [cyc Nat.add app]. f_equal. unfold adv. destruct (Z.geb_spec (r + Z.of_nat 0) n); lia. }
  cbn [cyc Nat.add app]. f_equal. unfold adv at 1 2. destruct (Z.geb_spec (r + 1) n).
  - rewrite IH by lia. do 2 f_equal. unfold adv. destruct (Z.geb_spec (r + 1 - n + Z.of_nat a) n), (Z.geb_spec (r + Z.of_nat (S a)) n); lia.
  - rewrite IH by lia. do 2 f_equal. unfold adv. destruct (Z.geb_spec (r + 1 + Z.of_nat a) n), (Z.geb_spec (r + Z.of_nat (S a)) n); lia.
Qed.

(** Without the end of the buffer in between, the words follow one another. *)
Lemma cyc_at buf n k : forall r i, 0 <= r -> r + Z.of_nat k <= n -> 0 <= i < Z.of_nat k -> (cyc buf n r k).[i] = buf.[r + i].
Proof.
  induction k as [|k IH]; intros r i Hr Hk Hi; [lia|]. cbn [cyc]. destruct (Z.eq_dec i 0) as [->|]; [by rewrite Z.add_0_r|].
  replace (adv n (r + 1)) with (r + 1) by (unfold adv; destruct (Z.geb_spec (r + 1) n); lia).
  change ((buf.[r] :: cyc buf n (r + 1) k).[i]) with (nth (Z.to_nat i) (buf.[r] :: cyc buf n (r + 1) k) 0).
  replace (Z.to_nat i) with (S (Z.to_nat (i - 1))) by lia. cbn [nth].
  change (nth (Z.to_nat (i - 1)) (cyc buf n (r + 1) k) 0) with ((cyc buf n (r + 1) k).[i - 1]). rewrite IH by lia. f_equal. lia.
Qed.

Lemma dist_adv n r w a : 0 <= r < n -> 0 <= w < n -> 0 <= a <= dist n r w -> dist n (adv n (r + a)) w = dist n r w - a.
Proof. unfold dist, adv. intros Hr Hw Ha. destruct (Z.leb_spec r w), (Z.geb_spec (r + a) n), (Z.leb_spec (r + a) w), (Z.leb_spec (r + a - n) w); lia. Qed.

Lemma adv_adv n r a : 0 <= r < n -> 0 <= a < n -> adv n (adv n (r + 1) + a) = adv n (r + 1 + a).
Proof. unfold adv. intros. destruct (Z.geb_spec (r + 1) n), (Z.geb_spec (r + 1 + a) n), (Z.geb_spec (r + 1 - n + a) n); lia. Qed.

(** The first item, and the rest of the content. *)
Lemma cyc_cons buf n r w x l rest : 0 <= r < n -> 0 <= w < n -> cyc buf n r (Z.to_nat (dist n r w)) = x :: l ++ rest ->
  r <> w /\ buf.[r] = x /\ Zlen l + 1 < n /\ cyc buf n (adv n (r + 1)) (length l) = l /\
  cyc buf n (adv n (r + 1 + Zlen l)) (Z.to_nat (dist n (adv n (r + 1 + Zlen l)) w)) = rest.
Proof.
  intros Hr Hw E. pose proof (f_equal length E) as El. rewrite cyc_length in El. cbn [length] in El. rewrite length_app in El.
  assert (Hd : 0 <= dist n r w < n) by (unfold dist; destruct (Z.leb_spec r w); lia).
  assert (Hdl : dist n r w = 1 + Zlen l + Zlen rest) by (unfold Zlen; lia). pose proof (Zlen_nonneg l). pose proof (Zlen_nonneg rest).
  split; [intros ->; unfold dist in Hdl; rewrite Z.leb_refl in Hdl; lia|].
  replace (Z.to_nat (dist n r w)) with (S (length l + length rest)) in E by lia. cbn [cyc] in E. injection E as E1 E2.
  split; [done|]. split; [lia|].
  assert (Ha : 0 <= adv n (r + 1) < n) by (unfold adv; destruct (Z.geb_spec (r + 1) n); lia).
  rewrite cyc_app in E2 by (unfold Zlen in *; lia). apply app_inj_1 in E2 as [E2 E3]; [|apply cyc_length]. split; [done|].
  rewrite <- E3. rewrite <- adv_adv by lia. change (Z.of_nat (length l)) with (Zlen l).
  f_equal. rewrite dist_adv; [|done|done|]; rewrite dist_adv by lia; unfold Zlen in *; lia.
Qed.

Lemma Zlen_enc n m : Zlen (enc n m) = Zlen (m_buf m) + 5.
Proof. unfold enc. rewrite Zlen_app. unfold Zlen. cbn [length]. lia. Qed.

Lemma enc_buf n m i : 0 <= i -> (enc n m).[5 + i] = (m_buf m).[i].
Proof. intros Hi. unfold enc. rewrite at_app_r by (unfold Zlen; cbn [length]; lia). f_equal. unfold Zlen. cbn [length]. lia. Qed.

Lemma coded_nil its : coded its = [] <-> its = [].
Proof. split; [|by intros ->]. by destruct its as [|[] ?]. Qed.

Lemma coded_length its : (length its <= length (coded its))%nat.
Proof.
  unfold coded. induction its as [|i its IH]; [done|]. cbn [map concat length]. rewrite length_app. destruct i; cbn [item_words length]; lia.
Qed.

Lemma frame_short its : forallb short its = true -> forallb short (snd (frame its)) = true.
Proof. induction its as [|[] its IH]; cbn [frame snd forallb]; [done| |]; rewrite andb_true_iff; [|tauto]. intros [_ ?]. auto. Qed.

Lemma s32_pos x : 0 <= x < 0x80000000 -> s32 x = x.
Proof. intros Hx. unfold s32. rewrite u32_small by (unfold is_u32, W32; lia). destruct (Z.ltb_spec x 2147483648); lia. Qed.

(** What the interrupt leaves alone. *)
Record drew (s s' : st) : Prop := {
  w_dv : dv s' = with_wrptr (wrptr (dv s')) (dv s);
  w_flag : flag s' = flag s;
  w_irq : irq s' = irq s;
  w_done : Zlen (fetched (hw s)) <= Zlen (fetched (hw s'))
}.

Lemma drew_refl s : drew s s.
Proof. split; try done. by destruct s as [[] ? ? ? ?]. Qed.
Lemma drew_trans s1 s2 s3 : drew s1 s2 -> drew s2 s3 -> drew s1 s3.
Proof. intros [] []. split; try congruence; [|lia]. rewrite w_dv1, w_dv0. done. Qed.
Lemma kept_drew s s' : kept s s' -> drew s s'.
Proof. by intros []. Qed.
Lemma drew_vmem s vm : drew s (mkSt (dv s) (hw s) vm (flag s) (irq s)).
Proof. split; try done. cbn. by destruct (dv s). Qed.

Lemma DInv_vmem V p s vm fl : DInv V p s -> DInv V p (mkSt (dv s) (hw s) vm fl (irq s)).
Proof. intros []. by split. Qed.

Definition set_rd (r : Z) (m : qmem) : qmem := mkQmem (m_occ m) r (m_wr m) (m_go m) (m_buf m).
Definition set_go (g : Z) (m : qmem) : qmem := mkQmem (m_occ m) (m_rd m) (m_wr m) g (m_buf m).

(** ** One queue *)

Section one.
Context {env : SeEnv} (Hmars : is_mars_cpu = true).
Context {dly : nat} (Hfair : fair se_turns dly).
Variable fuel : nat.
Hypothesis Hfuel : (4096 * dly <= fuel)%nat.

(** The queue lies between [A] and [C] in the shared memory. *)
Variables (n : Z) (A C : list Z).
Definition q : Z := vsync_mem + 4 * Zlen A.
Hypothesis Hn : 0 < n < 0x8000000.
Hypothesis Hq : 0 <= q /\ q + 4 * (n + 5) < W32.

Definition shared (s : st) (m : qmem) : Prop := vmem s = A ++ enc n m ++ C.

Lemma ld_at s m j a : shared s m -> a = q + 4 * j -> 0 <= j < Zlen (enc n m) -> ld a s = Ret ((enc n m).[j], s).
Proof.
  unfold shared. intros Hs -> Hj. unfold ld, q, get, mbind, Drv_bind. cbv beta iota zeta. replace (vsync_mem + 4 * Zlen A + 4 * j - vsync_mem) with ((Zlen A + j) * 4) by lia.
  rewrite Z.mod_mul, Z.div_mul by lia. cbn [Z.eqb]. unfold lift_res. pose proof (Zlen_nonneg A). pose proof (Zlen_nonneg C).
  rewrite Hs, rd_ok by (rewrite !Zlen_app; lia). rewrite at_app_r, at_app_l by lia. do 3 f_equal. lia.
Qed.

Lemma sto_at s m m' j v a : shared s m -> a = q + 4 * j -> 0 <= j < Zlen (enc n m) -> enc n m' = <[Z.to_nat j := v]> (enc n m) ->
  wp (sto a v) s (fun _ s' => s' = mkSt (dv s) (hw s) (A ++ enc n m' ++ C) (flag s) (irq s)).
Proof.
  unfold shared. intros Hs -> Hj Hm. unfold sto, q. apply wp_bind, wp_get. cbn zeta.
  replace (vsync_mem + 4 * Zlen A + 4 * j - vsync_mem) with ((Zlen A + j) * 4) by lia. rewrite Z.mod_mul, Z.div_mul by lia. cbn [Z.eqb].
  pose proof (Zlen_nonneg A). pose proof (Zlen_nonneg C). apply wp_bind, (wp_lift _ _ (A ++ enc n m' ++ C)).
  { rewrite Hs, wr_ok by (rewrite !Zlen_app; lia). f_equal. rewrite Hm. rewrite insert_app_r_alt by (unfold Zlen; lia).
    replace (Z.to_nat (Zlen A + j) - length A)%nat with (Z.to_nat j) by (unfold Zlen; lia). by rewrite insert_app_l by (unfold Zlen in *; lia). }
  by apply wp_modify.
Qed.

(** The words from [r] on, up to the end of the buffer, as the source of a command. *)
Lemma source_buf s m r k : shared s m -> Zlen (m_buf m) = n -> 0 <= r -> r + Z.of_nat k <= n ->
  Source (At (u32 (u8Buf_at q + 4 * r))) (vmem s) 0 (cyc (m_buf m) n r k).
Proof.
  intros Hs Hb Hr Hk i s1 Hi Hv. unfold Zlen in Hi. rewrite cyc_length in Hi. unfold cmd_word, u8Buf_at.
  rewrite (u32_small (q + 20)) by (unfold is_u32; lia). rewrite (u32_small (q + 20 + 4 * r)) by (unfold is_u32; lia).
  rewrite u32_small by (unfold is_u32; lia). rewrite (ld_at s1 m (5 + (r + i))); [|unfold shared; by rewrite Hv|lia|rewrite Zlen_enc; lia].
  rewrite enc_buf by lia. by rewrite cyc_at by lia.
Qed.

(** A command is handed to the engine; if it lies around the end of the buffer,
    the ring must have room for all of it. *)
Lemma queue_cmd_spec V s m r ws : DInv V (Zlen V) s -> shared s m -> Zlen (m_buf m) = n -> 0 <= r < n -> Zlen ws < n -> Zlen ws < 4096 ->
  cyc (m_buf m) n r (length ws) = ws -> r + Zlen ws <= n \/ Zlen V + Zlen ws < Zlen (fetched (hw s)) + 4096 ->
  wp (queue_cmd fuel (u8Buf_at q) (4 * r) (4 * Zlen ws) (4 * n)) s
    (fun x s' => x = 4 * adv n (r + Zlen ws) /\ DInv (V ++ ws) (Zlen (V ++ ws)) s' /\ kept s s').
Proof.
  intros Hd Hs Hb Hr Hl Hl' Hc Hf. unfold queue_cmd. pose proof (Zlen_nonneg ws) as Hnn.
  rewrite (u32_small (4 * r + 4 * Zlen ws)) by (unfold is_u32, W32; lia). unfold adv.
  destruct (Z.geb_spec (4 * r + 4 * Zlen ws) (4 * n)), (Z.geb_spec (r + Zlen ws) n); [|lia|lia|].
  2: { rewrite s32_pos by lia. pose proof (source_buf s m r (length ws) Hs Hb ltac:(lia) ltac:(unfold Zlen in *; lia)) as Hsrc. rewrite Hc in Hsrc.
       apply wp_bind, (wp_mono _ _ _ _ (se_WriteCmd_spec Hmars Hfair fuel Hfuel V _ s _ ws true Hd Hsrc Hl' (or_introl eq_refl))).
       intros _ s1 [D1 K1]. apply wp_ret. split; [lia|done]. }
  set (a := Z.to_nat (n - r)) in *. set (b := (length ws - a)%nat).
  assert (Hab : length ws = (a + b)%nat) by (unfold Zlen, a, b in *; lia). rewrite Hab, cyc_app in Hc by lia.
  replace (adv n (r + Z.of_nat a)) with 0 in Hc by (unfold adv, a; destruct (Z.geb_spec (r + Z.of_nat (Z.to_nat (n - r))) n); lia).
  set (w1 := cyc (m_buf m) n r a) in *. set (w2 := cyc (m_buf m) n 0 b) in *.
  assert (E1 : Zlen w1 = n - r) by (unfold Zlen, w1; rewrite cyc_length; lia).
  assert (E2 : Zlen w2 = r + Zlen ws - n) by (rewrite <- Hc, Zlen_app; lia).
  rewrite (s32_pos (4 * n - 4 * r)), (s32_pos (4 * r + 4 * Zlen ws - 4 * n)) by lia.
  replace (4 * n - 4 * r) with (4 * Zlen w1) by lia. replace (4 * r + 4 * Zlen ws - 4 * n) with (4 * Zlen w2) by lia.
  pose proof (source_buf s m r a Hs Hb ltac:(lia) ltac:(lia)) as Hs1. fold w1 in Hs1.
  apply wp_bind, (wp_mono _ _ _ _ (se_WriteCmd_spec Hmars Hfair fuel Hfuel V _ s _ w1 false Hd Hs1 ltac:(lia) (or_introl eq_refl))).
  intros _ s1 [D1 K1]. cbn beta iota in D1.
  pose proof (source_buf s1 m 0 b ltac:(unfold shared; rewrite (k_vmem _ _ K1); exact Hs) Hb ltac:(lia) ltac:(unfold Zlen in *; lia)) as Hs2. fold w2 in Hs2.
  replace (u32 (u8Buf_at q + 4 * 0)) with (u8Buf_at q) in Hs2 by (rewrite Z.add_0_r; unfold u8Buf_at; rewrite (u32_small (u32 _)); [done|apply u32_range]).
  assert (Hroom : Zlen (V ++ w1) + Zlen w2 < Zlen (fetched (hw s1)) + 4096).
  { pose proof (k_done _ _ K1). pose proof (h_room _ _ _ (d_hw _ _ _ D1)). rewrite Zlen_app in *. destruct Hf; lia. }
  apply wp_bind, (wp_mono _ _ _ _ (se_WriteCmd_spec Hmars Hfair fuel Hfuel _ _ s1 _ w2 true D1 Hs2 ltac:(lia) (or_intror Hroom))).
  intros _ s2 [D2 K2]. apply wp_ret. rewrite <- app_assoc, Hc in D2. split; [rewrite u32_small by (unfold is_u32, W32; lia); lia|]. split; [done|by transitivity s1].
Qed.

Lemma wp_ld s m j a (Q : Z -> st -> Prop) : shared s m -> a = u32 (q + 4 * j) -> Zlen (m_buf m) = n -> 0 <= j < n + 5 ->
  Q (enc n m).[j] s -> wp (ld a) s Q.
Proof.
  intros Hs -> Hb Hj HQ. exists (enc n m).[j], s. split; [|done]. apply (ld_at s m j); [done| |rewrite Zlen_enc; lia].
  apply u32_small. unfold is_u32. lia.
Qed.

Lemma wp_sto_rd s m r v (Q : unit -> st -> Prop) : shared s m -> Zlen (m_buf m) = n -> v = 4 * r ->
  Q tt (mkSt (dv s) (hw s) (A ++ enc n (set_rd r m) ++ C) (flag s) (irq s)) -> wp (sto (u32RdPtr_at q) v) s Q.
Proof.
  intros Hs Hb -> HQ. unfold u32RdPtr_at. rewrite u32_small by (unfold is_u32; lia).
  by apply (wp_mono _ _ _ _ (sto_at s m (set_rd r m) 2 _ _ Hs eq_refl ltac:(rewrite Zlen_enc; lia) eq_refl)); intros [] ? ->.
Qed.

Lemma wp_sto_go s m g (Q : unit -> st -> Prop) : shared s m -> Zlen (m_buf m) = n ->
  Q tt (mkSt (dv s) (hw s) (A ++ enc n (set_go g m) ++ C) (flag s) (irq s)) -> wp (sto (go_at q) g) s Q.
Proof.
  intros Hs Hb HQ. unfold go_at. rewrite u32_small by (unfold is_u32; lia).
  by apply (wp_mono _ _ _ _ (sto_at s m (set_go g m) 4 _ _ Hs eq_refl ltac:(rewrite Zlen_enc; lia) eq_refl)); intros [] ? ->.
Qed.

(** The ring has room for all words [ws], or the frame has no command that lies
    around the end of the buffer. *)
Definition fits (V ws : list Z) (s : st) : Prop := Zlen V + Zlen ws < Zlen (fetched (hw s)) + 4096.

Lemma next_pos r : 0 <= r < n ->
  (if u32 (4 * r + 4) >=? 4 * n then u32 (u32 (4 * r + 4) - 4 * n) else u32 (4 * r + 4)) = 4 * adv n (r + 1).
Proof.
  intros Hr. unfold adv. rewrite (u32_small (4 * r + 4)) by (unfold is_u32, W32; lia).
  destruct (Z.geb_spec (r + 1) n), (Z.geb_spec (4 * r + 4) (4 * n)); [rewrite u32_small by (unfold is_u32, W32; lia)| | |]; lia.
Qed.

(** A mark is taken out of the queue. *)
Lemma mark_spec s m (Q : bool -> st -> Prop) : shared s m -> Zlen (m_buf m) = n -> 0 <= m_rd m < n ->
  Q true (mkSt (dv s) (hw s) (A ++ enc n (set_rd (adv n (m_rd m + 1)) m) ++ C) (flag s) (irq s)) ->
  wp (_ ← sto (u32RdPtr_at q) (u32 (4 * m_rd m + 4));
      sz ← ld (u32Size_at q);
      _ ← (if u32 (4 * m_rd m + 4) >=? sz then sto (u32RdPtr_at q) (u32 (u32 (4 * m_rd m + 4) - sz)) else mret tt);
      mret true) s Q.
Proof.
  intros Hs Hb Hr HQ. apply wp_bind, (wp_sto_rd s m (m_rd m + 1)); [done|done|rewrite u32_small; [lia|unfold is_u32, W32; lia]|].
  set (s1 := mkSt _ _ _ _ _). apply wp_bind, (wp_ld s1 (set_rd (m_rd m + 1) m) 1); try done; try lia. change ((enc n _).[1]) with (4 * n).
  pose proof (next_pos (m_rd m) Hr) as Hnext. unfold adv in *. rewrite (u32_small (4 * m_rd m + 4)) in * by (unfold is_u32, W32; lia).
  destruct (Z.geb_spec (4 * m_rd m + 4) (4 * n)), (Z.geb_spec (m_rd m + 1) n); [|lia|lia|].
  - apply wp_bind, (wp_sto_rd s1 (set_rd (m_rd m + 1) m) (m_rd m + 1 - n)); [done|done|lia|]. by apply wp_ret.
  - by apply wp_bind, wp_ret, wp_ret.
Qed.

(** A queue is emptied up to the next mark. *)
Lemma queue_loop_spec its : forall f V s m dirty, DInv V (Zlen V) s -> shared s m -> Zlen (m_buf m) = n -> 0 <= m_rd m < n -> 0 <= m_wr m < n ->
  cyc (m_buf m) n (m_rd m) (Z.to_nat (dist n (m_rd m) (m_wr m))) = coded its -> forallb short its = true ->
  unsplit n (m_rd m) its = true \/ fits V (fst (frame its)) s -> (length its <= f)%nat ->
  wp (queue_loop fuel f q (4 * m_rd m) (4 * n) dirty) s (fun d s' => d = dirty || filled its /\ exists r, 0 <= r < n /\ shared s' (set_rd r m) /\
    cyc (m_buf m) n r (Z.to_nat (dist n r (m_wr m))) = coded (snd (frame its)) /\
    DInv (V ++ fst (frame its)) (Zlen (V ++ fst (frame its))) s' /\ drew s s').
Proof.
  induction its as [|it its IH]; intros f V s m dirty Hd Hs Hb Hr Hw Hc Hsh Hf Hlen.
  { assert (E : m_rd m = m_wr m).
    { apply (f_equal length) in Hc. rewrite cyc_length in Hc. cbn in Hc. unfold dist in Hc. destruct (Z.leb_spec (m_rd m) (m_wr m)); lia. }
    assert (wp (queue_loop fuel f q (4 * m_rd m) (4 * n) dirty) s (fun d s' => d = dirty /\ s' = s)) as H.
    { destruct f; cbn [queue_loop]; apply wp_bind, (wp_ld s m 2); try done; try lia; apply wp_bind, (wp_ld s m 3); try done; try lia;
      change ((enc n m).[2]) with (4 * m_rd m); change ((enc n m).[3]) with (4 * m_wr m); rewrite E, Z.eqb_refl; by apply wp_ret. }
    apply (wp_mono _ _ _ _ H). intros d s' [-> ->]. cbn [filled frame fst snd]. rewrite app_nil_r, orb_false_r.
    split; [done|]. exists (m_rd m). split; [done|]. split; [by destruct m|]. split; [done|]. split; [done|apply drew_refl]. }
  destruct f as [|f]; [cbn in Hlen; lia|]. cbn [queue_loop].
  apply wp_bind, (wp_ld s m 2); try done; try lia. apply wp_bind, (wp_ld s m 3); try done; try lia.
  change ((enc n m).[2]) with (4 * m_rd m). change ((enc n m).[3]) with (4 * m_wr m).
  assert (Hw5 : u32 (u8Buf_at q + 4 * m_rd m) = u32 (q + 4 * (5 + m_rd m))).
  { unfold u8Buf_at. rewrite (u32_small (q + 20)) by (unfold is_u32; lia). f_equal. lia. }
  destruct it as [ws|].
  - destruct (cyc_cons _ _ _ _ (4 * Zlen ws + 4) ws (coded its) Hr Hw Hc) as (Hne & Hx & Hl & Hws & Hrest). pose proof (Zlen_nonneg ws) as Hnn.
    destruct (Z.eqb_spec (4 * m_rd m) (4 * m_wr m)); [lia|]. apply wp_bind, (wp_ld s m (5 + m_rd m)); try done; try lia.
    rewrite enc_buf, Hx by lia. destruct (Z.eqb_spec (4 * Zlen ws + 4) 0); [lia|]. cbn zeta.
    cbn [forallb short] in Hsh. apply andb_true_iff in Hsh as [Hsh1 Hsh2]. apply Z.ltb_lt in Hsh1.
    replace (u32 (4 * Zlen ws + 4 - 4)) with (4 * Zlen ws) by (rewrite u32_small by (unfold is_u32, W32; lia); lia).
    rewrite next_pos by done.
    assert (Ha : 0 <= adv n (m_rd m + 1) < n) by (unfold adv; destruct (Z.geb_spec (m_rd m + 1) n); lia).
    cbn [unsplit frame fst snd] in Hf. rewrite andb_true_iff, Z.leb_le in Hf.
    assert (Hf1 : adv n (m_rd m + 1) + Zlen ws <= n \/ Zlen V + Zlen ws < Zlen (fetched (hw s)) + 4096).
    { destruct Hf as [[Hf _]|Hf]; [by left|right]. unfold fits in Hf. rewrite Zlen_app in Hf. pose proof (Zlen_nonneg (fst (frame its))). lia. }
    apply wp_bind, (wp_mono _ _ _ _ (queue_cmd_spec V s m _ ws Hd Hs Hb Ha ltac:(lia) Hsh1 Hws Hf1)). intros x s1 (-> & D1 & K1).
    rewrite adv_adv in * by lia. apply wp_bind, (wp_sto_rd s1 m (adv n (m_rd m + 1 + Zlen ws))); [unfold shared; rewrite (k_vmem _ _ K1); exact Hs|done|done|].
    set (s2 := mkSt _ _ _ _ _). assert (K2 : drew s s2) by (apply (drew_trans s s1); [by apply kept_drew|apply drew_vmem]).
    assert (Ha2 : 0 <= adv n (m_rd m + 1 + Zlen ws) < n) by (unfold adv; destruct (Z.geb_spec (m_rd m + 1 + Zlen ws) n); lia).
    assert (Hf2 : unsplit n (adv n (m_rd m + 1 + Zlen ws)) its = true \/ fits (V ++ ws) (fst (frame its)) s2).
    { destruct Hf as [[_ Hf]|Hf]; [by left|right]. pose proof (w_done _ _ K2). unfold fits in *. rewrite Zlen_app in *. lia. }
    apply (wp_mono _ _ _ _ (IH f (V ++ ws) s2 (set_rd (adv n (m_rd m + 1 + Zlen ws)) m) true (DInv_vmem _ _ _ _ _ D1) eq_refl Hb Ha2 Hw Hrest Hsh2 Hf2 ltac:(cbn in Hlen; lia))).
    intros d s3 (-> & r & Hr3 & S3 & C3 & D3 & K3). cbn [frame fst snd filled orb]. rewrite orb_true_r. split; [done|]. exists r.
    rewrite app_assoc. split; [done|]. split; [done|]. split; [done|]. split; [done|]. by apply (drew_trans s s2).
  - destruct (cyc_cons _ _ _ _ 0 [] (coded its) Hr Hw Hc) as (Hne & Hx & _ & _ & Hrest). change (Zlen (@nil Z)) with 0 in Hrest. rewrite Z.add_0_r in Hrest.
    destruct (Z.eqb_spec (4 * m_rd m) (4 * m_wr m)); [lia|]. apply wp_bind, (wp_ld s m (5 + m_rd m)); try done; try lia.
    rewrite enc_buf, Hx by lia. cbn [Z.eqb]. apply (mark_spec s m); [done..|]. cbn [frame fst snd filled]. rewrite orb_true_r, app_nil_r.
    split; [done|]. exists (adv n (m_rd m + 1)). split; [unfold adv; destruct (Z.geb_spec (m_rd m + 1) n); lia|].
    split; [done|]. split; [done|]. split; [by apply DInv_vmem|apply drew_vmem].
Qed.

Hypothesis Hfuel_n : (Z.to_nat n <= fuel)%nat.

(** The positions are equal exactly when the queue is empty. *)
Lemma empty_iff m r its : 0 <= r < n -> 0 <= m_wr m < n -> cyc (m_buf m) n r (Z.to_nat (dist n r (m_wr m))) = coded its ->
  (4 * r =? 4 * m_wr m) = negb (filled its).
Proof.
  intros Hr Hw Hc. apply (f_equal length) in Hc. rewrite cyc_length in Hc. pose proof (coded_length its).
  assert (Hd : dist n r (m_wr m) = 0 <-> r = m_wr m) by (unfold dist; clear Hc; destruct (Z.leb_spec r (m_wr m)); lia).
  assert (Hge : 0 <= dist n r (m_wr m)) by (unfold dist; clear Hc Hd; destruct (Z.leb_spec r (m_wr m)); lia).
  destruct its as [|it its]; cbn [filled negb].
  - change (length (coded [])) with 0%nat in Hc. apply Z.eqb_eq. f_equal. apply Hd. clear - Hc Hge. lia.
  - cbn [length] in *. apply Z.eqb_neq. intros E. assert (E' : dist n r (m_wr m) = 0) by (apply Hd; clear - E; lia). rewrite E' in Hc. change (Z.to_nat 0) with 0%nat in Hc. lia.
Qed.

(** One turn of the loop over the queues. *)
Lemma queue_turn_spec V s m qv ii dirty : DInv V (Zlen V) s -> shared s m -> QRep n m qv ->
  p_vsync_queue (dv s) = vsync_mem -> (vmem s).[1] = 4 * n -> 0 <= vsync_mem -> Zlen A = (n + 5) * ii -> 0 <= ii ->
  unsplit n (m_rd m) (q_items qv) = true \/ fits V (fst (vsync_queue qv)) s ->
  wp (queue_turn fuel ii dirty) s (fun d s' => d = dirty || (q_go qv && filled (q_items qv)) /\ exists m', shared s' m' /\
    QRep n m' (snd (vsync_queue qv)) /\ DInv (V ++ fst (vsync_queue qv)) (Zlen (V ++ fst (vsync_queue qv))) s' /\ drew s s').
Proof.
  intros Hd Hs Hq' Hp H1 Hvm HA Hii Hf. pose proof Hq' as [Rb Rr Rw Ri Rs Rg]. unfold queue_turn. apply wp_bind, wp_get. rewrite Hp. cbn zeta.
  pose proof (Zlen_nonneg A). pose proof (Zlen_nonneg C). assert (Hqv : q = vsync_mem + 4 * (n + 5) * ii) by (unfold q; lia).
  assert (Hvb : vsync_mem + 4 * (n + 5) < W32) by (unfold q in Hq; lia).
  apply wp_bind. exists (4 * n), s. split.
  { unfold ld, u32Size_at, get, mbind, Drv_bind. cbv beta iota zeta. rewrite u32_small by (unfold is_u32; lia).
    replace (vsync_mem + 4 - vsync_mem) with 4 by lia. change (4 mod 4 =? 0) with true. change (4 / 4) with 1. unfold lift_res.
    rewrite rd_ok; [by rewrite H1|]. rewrite Hs, !Zlen_app, Zlen_enc. lia. }
  replace (u32 (vsync_mem + u32 (4 * n + 20) * ii)) with q.
  2: { rewrite (u32_small (4 * n + 20)) by (unfold is_u32; lia). rewrite u32_small by (unfold is_u32; lia). lia. }
  apply wp_bind, (wp_ld s m 4); try done; try lia. change ((enc n m).[4]) with (m_go m). rewrite Rg, negb_involutive. unfold vsync_queue in *.
  destruct (q_go qv) eqn:Eg; [|apply wp_ret; cbn [andb fst snd]; rewrite orb_false_r, app_nil_r; split; [done|exists m; split; [done|split; [done|split; [done|apply drew_refl]]]]].
  apply wp_bind, (wp_ld s m 2); try done; try lia. apply wp_bind, (wp_ld s m 1); try done; try lia.
  change ((enc n m).[2]) with (4 * m_rd m). change ((enc n m).[1]) with (4 * n). cbn [fst snd andb] in *.
  assert (Hlen : (length (q_items qv) <= fuel)%nat).
  { pose proof (coded_length (q_items qv)). rewrite <- Ri, cyc_length in *. unfold dist in *. destruct (Z.leb_spec (m_rd m) (m_wr m)); lia. }
  apply wp_bind, (wp_mono _ _ _ _ (queue_loop_spec (q_items qv) fuel V s m dirty Hd Hs Rb Rr Rw Ri Rs Hf Hlen)).
  intros d s1 (-> & r & Hr1 & S1 & C1 & D1 & K1).
  apply wp_bind, (wp_ld s1 (set_rd r m) 2); try done; try lia. apply wp_bind, (wp_ld s1 (set_rd r m) 3); try done; try lia.
  change ((enc n (set_rd r m)).[2]) with (4 * r). change ((enc n (set_rd r m)).[3]) with (4 * m_wr m).
  rewrite (empty_iff m r _ Hr1 Rw C1). pose proof (frame_short _ Rs) as Fs.
  destruct (filled (snd (frame (q_items qv)))) eqn:Ef; cbn [negb].
  - apply wp_bind, wp_ret, wp_ret. split; [done|]. exists (set_rd r m). split; [done|]. split; [by split|]. done.
  - apply wp_bind, (wp_sto_go s1 (set_rd r m)); [done|done|]. apply wp_ret. split; [done|]. exists (set_go 0 (set_rd r m)). split; [done|].
    split; [by split|]. split; [by apply DInv_vmem|]. apply (drew_trans s s1); [done|apply drew_vmem].
Qed.
End one.

(** ** All queues *)

Definition mem (n : Z) (ms : list qmem) : list Z := concat (map (enc n) ms).

(** No command that is due lies around the end of its buffer. *)
Definition whole (n : Z) (ms : list qmem) (qs : list vqueue) : Prop :=
  Forall2 (fun m q => unsplit n (m_rd m) (q_items q) = true) ms qs.

Lemma mem_app n a b : mem n (a ++ b) = mem n a ++ mem n b.
Proof. unfold mem. by rewrite map_app, concat_app. Qed.

Lemma Zlen_mem n ms : Forall (fun m => Zlen (m_buf m) = n) ms -> Zlen (mem n ms) = (n + 5) * Zlen ms.
Proof.
  unfold mem. induction 1 as [|m ms Hm _ IH]; cbn [map concat]; [unfold Zlen; cbn; lia|]. rewrite Zlen_app, IH, Zlen_enc, Zlen_cons. lia.
Qed.

Lemma mem_size n ms : ms <> [] -> (mem n ms).[1] = 4 * n.
Proof. by destruct ms. Qed.

Section all.
Context {env : SeEnv} (Hmars : is_mars_cpu = true).
Context {dly : nat} (Hfair : fair se_turns dly).
Variables (fuel : nat) (n : Z).
Hypothesis Hfuel : (4096 * dly <= fuel)%nat.
Hypothesis Hfuel_n : (Z.to_nat n <= fuel)%nat.
Hypothesis Hn : 0 < n < 0x8000000.
Hypothesis Hvm : 0 <= vsync_mem.

Lemma queues_spec ms2 : forall qs2 ms1 V s dirty, DInv V (Zlen V) s -> vmem s = mem n (ms1 ++ ms2) -> p_vsync_queue (dv s) = vsync_mem ->
  vsync_mem + 4 * (n + 5) * Zlen (ms1 ++ ms2) < W32 -> Forall (fun m => Zlen (m_buf m) = n) ms1 -> Forall2 (QRep n) ms2 qs2 ->
  whole n ms2 qs2 \/ fits V (vsync_words qs2) s ->
  wp (queues fuel (length ms2) (Zlen ms1) dirty) s (fun d s' => d = dirty || vsync_dirty qs2 /\ exists ms2', vmem s' = mem n (ms1 ++ ms2') /\
    Forall2 (QRep n) ms2' (vsync_left qs2) /\ DInv (V ++ vsync_words qs2) (Zlen (V ++ vsync_words qs2)) s' /\ drew s s').
Proof.
  induction ms2 as [|m ms2 IH]; intros qs2 ms1 V s dirty Hd Hs Hp Hsz H1 H2 Hf; inversion H2 as [|? qv ? qs Hq Hqs]; subst.
  { apply wp_ret. unfold vsync_words, vsync_dirty, vsync_left. cbn. rewrite orb_false_r, app_nil_r. split; [done|].
    exists []. split; [done|]. split; [constructor|]. split; [done|apply drew_refl]. }
  cbn [length queues]. pose proof (Zlen_nonneg ms1). pose proof (Zlen_nonneg ms2). rewrite Zlen_app, Zlen_cons in Hsz.
  assert (Hqb : 0 <= q (mem n ms1) /\ q (mem n ms1) + 4 * (n + 5) < W32) by (unfold q; rewrite (Zlen_mem n) by done; nia).
  assert (Hsh : shared n (mem n ms1) (mem n ms2) s m) by (unfold shared; rewrite Hs, mem_app; done).
  assert (Hf1 : unsplit n (m_rd m) (q_items qv) = true \/ fits V (fst (vsync_queue qv)) s).
  { destruct Hf as [Hf|Hf]; [left; by inversion Hf|right]. unfold fits, vsync_words in *. cbn [map concat] in Hf. rewrite Zlen_app in Hf.
    pose proof (Zlen_nonneg (concat (map (fun q => fst (vsync_queue q)) qs))). lia. }
  apply wp_bind, (wp_mono _ _ _ _ (queue_turn_spec Hmars Hfair fuel Hfuel n (mem n ms1) (mem n ms2) Hn Hqb Hfuel_n V s m qv (Zlen ms1) dirty
    Hd Hsh Hq Hp ltac:(rewrite Hs; apply mem_size; by destruct ms1) Hvm (Zlen_mem n ms1 H1) ltac:(lia) Hf1)).
  intros d s1 (-> & m' & S1 & Q1 & D1 & K1). replace (Zlen ms1 + 1) with (Zlen (ms1 ++ [m'])) by (rewrite Zlen_app; done).
  assert (Hf2 : whole n ms2 qs \/ fits (V ++ fst (vsync_queue qv)) (vsync_words qs) s1).
  { destruct Hf as [Hf|Hf]; [left; by inversion Hf|right]. pose proof (w_done _ _ K1). unfold fits, vsync_words in *. cbn [map concat] in Hf.
    rewrite Zlen_app in *. lia. }
  assert (S1' : vmem s1 = mem n ((ms1 ++ [m']) ++ ms2)) by (rewrite S1, <- app_assoc, mem_app; done).
  assert (Hp1 : p_vsync_queue (dv s1) = vsync_mem) by (rewrite (w_dv _ _ K1); done).
  apply (wp_mono _ _ _ _ (IH qs (ms1 ++ [m']) _ s1 (dirty || (q_go qv && filled (q_items qv))) D1 S1' Hp1 ltac:(rewrite !Zlen_app; change (Zlen [m']) with 1; lia)
    ltac:(apply Forall_app; split; [done|repeat constructor; apply Q1]) Hqs Hf2)).
  intros d s2 (-> & ms3 & S2 & Q2 & D2 & K2). unfold vsync_dirty at 2. cbn [existsb]. split; [by rewrite orb_assoc|].
  exists (m' :: ms3). rewrite <- app_assoc in S2, D2. split; [done|]. split; [by constructor|]. split; [done|]. by apply (drew_trans s s1).
Qed.

(** The interrupt of the vertical synchronisation. *)
Lemma vsync_irq_spec V s ms qs : DInv V (Zlen V) s -> vmem s = mem n ms -> p_vsync_queue (dv s) = vsync_mem ->
  u32_max_queue_num (dv s) = Zlen ms -> vsync_mem + 4 * (n + 5) * Zlen ms < W32 -> Forall2 (QRep n) ms qs ->
  Z.land (flag s) 0x2000000 <> 0 -> whole n ms qs \/ fits V (vsync_words qs) s ->
  wp (vsync_irq fuel) s (fun r s' => r = IRQ_HANDLED /\ exists ms', vmem s' = mem n ms' /\ Forall2 (QRep n) ms' (vsync_left qs) /\
    DInv (V ++ vsync_words qs) (Zlen (V ++ vsync_words qs)) s' /\ flag s' = (if vsync_dirty qs then 0x1000000 else 0) /\
    dv s' = with_wrptr (wrptr (dv s')) (dv s) /\ irq s' = irq s).
Proof.
  intros Hd Hs Hp Hm Hsz Hq Hfl Hf. unfold vsync_irq. apply wp_bind, wp_get. change (endian_swap_32 2) with 0x2000000.
  destruct (Z.eqb_spec (Z.land (flag s) 0x2000000) 0); [done|]. cbn [negb]. apply wp_bind, wp_modify. set (s1 := mkSt _ _ _ _ _).
  rewrite Hm. unfold Zlen at 1. rewrite Nat2Z.id.
  apply wp_bind, (wp_mono _ _ _ _ (queues_spec ms qs [] V s1 false (DInv_vmem V _ s _ _ Hd) Hs Hp Hsz ltac:(constructor) Hq Hf)).
  intros d s2 (-> & ms' & S2 & Q2 & D2 & [K2 F2 I2 _]). cbn [orb app] in *. destruct (vsync_dirty qs); cbn [negb].
  - apply wp_bind, wp_ret, wp_ret. split; [done|]. by exists ms'.
  - apply wp_bind, wp_bind, wp_get, wp_modify, wp_ret. split; [done|]. exists ms'. split; [done|]. split; [done|]. split; [by apply DInv_vmem|].
    cbn [flag dv irq]. change (endian_swap_32 0) with 0. by rewrite Z.land_0_r.
Qed.
End all.
