(* ===== verification/SeRuns.v ===== *)
(** * The stream engine: sequences of operations *)
From stdpp Require Import base tactics list numbers option.
From Stdlib Require Import ZArith Lia.
From S2P Require Import Prelude Driver Se SeProofs SeQueue.

(** ** What is promised

    The words drawn so far, whether the queues have been made known to the
    driver, and the queues. *)
Record spec := mkSpec { stream : list Z; known : bool; sp_queues : list vqueue }.

(** What happens to the device: calls of programs, the interrupt, and changes of
    the shared memory and of the word [flag] by a program and by the display
    processor. *)
Inductive sop :=
  | OOpen (blk : Z * list Z) (sig : bool)
  | OWrite (buf : option (list Z)) (count f_pos : Z) (sig : bool)
  | OIoctl (cmd : Z) (arg : se_arg) (sig : bool)
  | OIrq
  | OFill (vm : list Z) (qs : list vqueue) (fl : Z).

(** The words a call of [se_write] draws. *)
Definition accepted (buf : option (list Z)) (count : Z) (sig : bool) : list Z :=
  match buf with
  | Some l => if sig || negb (Z.land count 3 =? 0) || (4 * Zlen l <? count) then [] else firstn (Z.to_nat (count / 4)) l
  | None => []
  end.

(** The call makes the queues known. *)
Definition sets_queues (cmd : Z) (arg : se_arg) (sig : bool) : bool :=
  negb sig && (cmd =? SE_IOC_SET_VSYNC_QUEUE) && match a_queue arg with Some _ => true | None => false end.

Definition spec_op (fl : Z) (o : sop) (sp : spec) : spec :=
  match o with
  | OOpen _ _ => sp
  | OWrite buf count _ sig => mkSpec (stream sp ++ accepted buf count sig) (known sp) (sp_queues sp)
  | OIoctl cmd arg sig => mkSpec (stream sp) (known sp || sets_queues cmd arg sig) (sp_queues sp)
  | OIrq =>
      if known sp && negb (Z.land fl 0x2000000 =? 0)
      then mkSpec (stream sp ++ vsync_words (sp_queues sp)) (known sp) (vsync_left (sp_queues sp))
      else sp
  | OFill _ qs _ => mkSpec (stream sp) (known sp) qs
  end.

Section runs.
Context {env : SeEnv}.
Variables (fuel : nat) (n : Z).

Definition run_op (o : sop) : D Z :=
  match o with
  | OOpen blk sig => se_open blk sig
  | OWrite buf count f_pos sig => r ← se_write fuel buf count f_pos sig; mret (fst r)
  | OIoctl cmd arg sig => r ← se_ioctl cmd arg sig; mret (fst r)
  | OIrq => se_irq_handler fuel
  | OFill vm _ fl => fun s => Ret (0, mkSt (dv s) (hw s) vm fl (irq s))
  end.

(** The shared memory holds the queues [qs], in buffers of [n] words. *)
Definition holds (vm : list Z) (qs : list vqueue) : Prop := exists ms, vm = mem n ms /\ Forall2 (QRep n) ms qs.

(** When an operation is covered: at most 32 bytes are written; the queues are
    made known where they are; the ring has room for what an interrupt takes, or
    no command of the queues lies around the end of its buffer. *)
Definition covered (o : sop) (s : st) (sp : spec) : Prop :=
  match o with
  | OOpen _ _ => True
  | OWrite _ count _ _ => 0 <= count <= DATA_BYTES
  | OIoctl cmd arg sig => forall N phy, cmd = SE_IOC_SET_VSYNC_QUEUE -> a_queue arg = Some (N, phy) ->
      N = Zlen (sp_queues sp) /\ u32 (phy + 0xA0000000) = vsync_mem
  | OIrq => (forall ms, vmem s = mem n ms -> Forall2 (QRep n) ms (sp_queues sp) -> whole n ms (sp_queues sp)) \/
      fits (stream sp) (vsync_words (sp_queues sp)) s
  | OFill vm qs _ => holds vm qs /\ length qs = length (sp_queues sp)
  end.

(** A device that has never been opened, and memory for the ring. *)
Record unopened (s : st) : Prop := {
  u_init : initialized (dv s) = false;
  u_buf : CmdBuf (dv s) = 0;
  u_sem : sem (dv s) = false;
  u_num : u32_max_queue_num (dv s) = 0;
  u_go : go (hw s) = false;
  u_fetched : fetched (hw s) = []
}.
Definition block_ok (b : Z * list Z) : Prop := 0x80000000 < fst b < 0x9FFFC000 /\ Zlen (snd b) = 4096.

(** The states that can be reached, with what has been promised by then. *)
Inductive reached : st -> spec -> Prop :=
  | reached_open s0 b s1 qs : unopened s0 -> block_ok b -> holds (vmem s0) qs -> vsync_mem + 4 * (n + 5) * Zlen qs < W32 ->
      se_open b false s0 = Ret (0, s1) -> reached s1 (mkSpec [] false qs)
  | reached_op s sp o r s' : reached s sp -> covered o s sp -> run_op o s = Ret (r, s') -> reached s' (spec_op (flag s) o sp).

Record SInv (s : st) (sp : spec) : Prop := {
  i_dev : DInv (stream sp) (Zlen (stream sp)) s;
  i_sem : sem (dv s) = false;
  i_mars : isMars (dv s) = true;
  i_init : initialized (dv s) = true;
  i_mem : holds (vmem s) (sp_queues sp);
  i_size : vsync_mem + 4 * (n + 5) * Zlen (sp_queues sp) < W32;
  i_num : u32_max_queue_num (dv s) = if known sp then Zlen (sp_queues sp) else 0;
  i_ptr : known sp = true -> p_vsync_queue (dv s) = vsync_mem
}.

Context (Hmars : is_mars_cpu = true) {dly : nat} (Hfair : fair se_turns dly).
Hypothesis Hfuel : (4096 * dly <= fuel)%nat.
Hypothesis Hfuel_n : (Z.to_nat n <= fuel)%nat.
Hypothesis Hn : 0 < n < 0x8000000.
Hypothesis Hvm : 0 <= vsync_mem.

(** ** Opening *)

Lemma engine_idle k h : go h = false -> engine k h = h.
Proof. intros Hg. induction k as [|k IH]; cbn [engine]; [done|]. unfold engine_step. rewrite Hg. done. Qed.

Definition clocked (h : se_hw) : se_hw :=
  mkHw (base0 h) (base1 h) (base2 h) (limit1 h) (rdp h) (wrp h) (inst1 h) (ring h) (fetched h) (S (now h)) (go h) (writes h).

(** A register is written while the engine is switched off. *)
Lemma set_mars_idle s a v f : go (hw s) = false ->
  wp (set_mars a v f) s (fun _ s' => dv s' = dv s /\ vmem s' = vmem s /\ hw s' = f (clocked (hw s))).
Proof. intros Hg. unfold set_mars. apply wp_bind. eexists _, _. split; [reflexivity|]. rewrite engine_idle by done. apply wp_modify. by rewrite Hmars. Qed.

#[local] Ltac fields H := cbn [clocked base0 base1 base2 limit1 rdp wrp inst1 ring fetched now go writes] in H.

(** The registers of the ring are set. *)
Lemma setup_spec s : go (hw s) = false ->
  wp (_ ← write_ctrl (Z.lor SeGo (Z.lor SeEndianSwap SeClearWriteData));
      _ ← write_ctrl (Z.lor SeEndianSwap SeWriteData);
      s ← get;
      _ ← write_base (CmdBase (dv s));
      _ ← write_limit (CmdLimit (dv s));
      _ ← write_rptr (CmdBase (dv s));
      _ ← write_wptr (CmdBase (dv s));
      write_inst 0) s
    (fun _ s' => dv s' = dv s /\ vmem s' = vmem s /\ ring (hw s') = ring (hw s) /\ fetched (hw s') = fetched (hw s) /\
       base1 (hw s') = CmdBase (dv s) /\ limit1 (hw s') = CmdLimit (dv s) /\ rdp (hw s') = CmdBase (dv s) /\ wrp (hw s') = CmdBase (dv s)).
Proof.
  intros Hg. apply wp_bind, (wp_mono _ _ _ _ (set_mars_idle s _ _ _ Hg)). intros _ s1 (D1 & M1 & H1). fields H1.
  apply wp_bind, (wp_mono _ _ _ _ (set_mars_idle s1 _ _ _ ltac:(by rewrite H1))). intros _ s2 (D2 & M2 & H2). rewrite H1 in H2. clear H1. fields H2.
  apply wp_bind, wp_get. rewrite D2, D1 in *.
  apply wp_bind, (wp_mono _ _ _ _ (set_mars_idle s2 _ _ _ ltac:(by rewrite H2))). intros _ s3 (D3 & M3 & H3). rewrite H2 in H3. clear H2. fields H3.
  apply wp_bind, (wp_mono _ _ _ _ (set_mars_idle s3 _ _ _ ltac:(by rewrite H3))). intros _ s4 (D4 & M4 & H4). rewrite H3 in H4. clear H3. fields H4.
  apply wp_bind, (wp_mono _ _ _ _ (set_mars_idle s4 _ _ _ ltac:(by rewrite H4))). intros _ s5 (D5 & M5 & H5). rewrite H4 in H5. clear H4. fields H5.
  apply wp_bind, (wp_mono _ _ _ _ (set_mars_idle s5 _ _ _ ltac:(by rewrite H5))). intros _ s6 (D6 & M6 & H6). rewrite H5 in H6. clear H5. fields H6.
  apply (wp_mono _ _ _ _ (set_mars_idle s6 _ _ _ ltac:(by rewrite H6))). intros _ s7 (D7 & M7 & H7). rewrite H6 in H7. clear H6. fields H7.
  rewrite H7. split; [congruence|]. split; [congruence|]. done.
Qed.

Lemma se_open_spec s0 b qs : unopened s0 -> block_ok b -> holds (vmem s0) qs -> vsync_mem + 4 * (n + 5) * Zlen qs < W32 ->
  wp (se_open b false) s0 (fun r s => r = 0 /\ SInv s (mkSpec [] false qs)).
Proof.
  intros [Hi Hb Hs Hm Hg Hf] [Hb1 Hb2] Hh Hsz. unfold se_open, down. apply wp_bind, wp_bind, wp_get. rewrite Hs. apply wp_modify.
  apply wp_bind, wp_get. cbn [dv initialized with_sem]. rewrite Hi. cbn [negb].
  apply wp_bind, wp_bind, wp_modify, wp_bind, wp_modify, wp_bind, wp_modify, wp_bind, wp_modify, wp_modify.
  apply wp_bind, wp_get. cbn [dv isMars CmdBuf with_isMars with_queue with_initialized with_sem]. rewrite Hmars, Hb. cbn [andb Z.eqb]. cbn zeta.
  apply wp_bind, wp_bind, wp_modify, wp_bind, wp_modify. cbn [dv hw vmem flag irq].
  set (s1 := mkSt _ _ _ _ _). apply (wp_mono _ _ _ _ (setup_spec s1 Hg)). intros _ s2 (D2 & M2 & R2 & F2 & B2 & L2 & P2 & W2).
  unfold s1 in *. cbn [dv hw vmem ring fetched CmdBase CmdLimit with_buffer] in *. clear s1.
  rewrite (u32_small (fst b - _)) in * by (unfold is_u32, W32; lia).
  rewrite (u32_small (_ + SE_COMMAND_ENTRIES * 4)) in * by (unfold SE_COMMAND_ENTRIES, is_u32, W32; lia).
  apply wp_bind, wp_modify, wp_ret. split; [done|].
  split; cbn [stream known sp_queues dv hw vmem]; rewrite ?D2, ?M2; try done.
  split; cbn [hw dv]; rewrite ?D2; cbn [size wrptr CmdBuf v_to_p_offset with_sem with_buffer]; try done; [|left|lia|].
  - split; rewrite ?R2, ?F2, ?L2, ?P2, ?W2, ?B2, ?Hf; change (Zlen (@nil Z)) with 0; unfold SE_COMMAND_ENTRIES; try done; intros; try lia; rewrite Z.mod_0_l; lia.
  - unfold pend. cbn [hw]. by rewrite F2, Hf.
  - replace (fst b - (fst b - 0x80000000)) with 0x80000000 by lia. done.
Qed.

(** ** The other operations *)

(** A later opening changes nothing. *)
Lemma reopen_spec s sp b sig : SInv s sp -> wp (se_open b sig) s (fun _ s' => s' = s).
Proof.
  intros Hi. unfold se_open. destruct sig; [by apply wp_ret|]. pose proof Hi as [Hd Hs Hm Ht _ _ _ _]. unfold down.
  apply wp_bind, wp_bind, wp_get. rewrite Hs. apply wp_modify. apply wp_bind, wp_get. cbn [dv initialized with_sem]. rewrite Ht. cbn [negb].
  apply wp_bind, wp_ret, wp_bind, wp_get. cbn [dv isMars CmdBuf with_sem]. rewrite Hm, (d_buf _ _ _ Hd). pose proof (h_base _ _ _ (d_hw _ _ _ Hd)).
  destruct (Z.eqb_spec (0x80000000 + base1 (hw s)) 0); [lia|]. cbn [andb]. apply wp_bind, wp_ret, wp_bind, wp_modify, wp_ret.
  destruct s as [[] ? ? ? ?]. cbn in *. by rewrite Hs.
Qed.

Lemma DInv_with_sem V p s b : DInv V p s -> DInv V p (mkSt (with_sem b (dv s)) (hw s) (vmem s) (flag s) (irq s)).
Proof. intros []. by split. Qed.

Lemma source_data l s : Source (Data l) (vmem s) 0 l.
Proof.
  intros i s1 Hi _. unfold cmd_word. replace (4 * (0 + i)) with (i * 4) by lia. rewrite Z.div_mul by lia. unfold lift_res. by rewrite rd_ok.
Qed.

Lemma se_write_spec s sp buf count f_pos sig : SInv s sp -> 0 <= count <= DATA_BYTES ->
  wp (se_write fuel buf count f_pos sig) s (fun _ s' => SInv s' (mkSpec (stream sp ++ accepted buf count sig) (known sp) (sp_queues sp))).
Proof.
  intros Hi Hc. pose proof Hi as [Hd Hs Hm Ht Hh Hz Hu Hp]. unfold se_write, accepted. unfold DATA_BYTES in *.
  assert (Hnil : forall s', s' = s -> SInv s' (mkSpec (stream sp ++ []) (known sp) (sp_queues sp))) by (intros ? ->; rewrite app_nil_r; by destruct sp).
  destruct sig; [destruct buf; apply wp_ret, Hnil; done|]. unfold down. apply wp_bind, wp_bind, wp_get. rewrite Hs. apply wp_modify. cbn [orb].
  set (s1 := mkSt _ _ _ _ _). assert (Hs1 : mkSt (with_sem false (dv s1)) (hw s1) (vmem s1) (flag s1) (irq s1) = s) by (destruct s as [[] ? ? ? ?]; cbn in *; by rewrite Hs).
  destruct (Z.eqb_spec (Z.land count 3) 0) as [E|E]; cbn [negb orb].
  2: { destruct buf; apply wp_bind, wp_ret, wp_bind, wp_modify, wp_ret, Hnil; done. }
  destruct buf as [l|]; [|apply wp_bind, wp_ret, wp_bind, wp_modify, wp_ret, Hnil; done].
  destruct (Z.ltb_spec 32 count); [lia|]. destruct (Z.ltb_spec (4 * Zlen l) count); [apply wp_bind, wp_ret, wp_bind, wp_modify, wp_ret, Hnil; done|].
  assert (Hmod : count mod 4 = 0) by (change 3 with (Z.ones 2) in E; by rewrite Z.land_ones in E).
  set (ws := take (Z.to_nat (count / 4)) l).
  assert (Hl : 4 * Zlen ws = count).
  { pose proof (Z.div_mod count 4 ltac:(lia)). unfold ws, Zlen in *. rewrite length_take. lia. }
  rewrite s32_pos by lia. rewrite <- Hl.
  apply wp_bind, wp_bind, (wp_mono _ _ _ _ (se_WriteCmd_spec Hmars Hfair fuel Hfuel _ _ s1 _ ws true (DInv_with_sem _ _ s true Hd) (source_data ws s1) ltac:(lia) (or_introl eq_refl))).
  intros _ s2 [D2 [K2 V2 F2 I2 _]]. apply wp_ret, wp_bind, wp_modify, wp_ret.
  split; [exact (DInv_with_sem _ _ s2 false D2)|..]; cbn [stream known sp_queues dv vmem sem isMars initialized u32_max_queue_num p_vsync_queue with_sem]; rewrite ?V2; try done.
  - by rewrite K2.
  - by rewrite K2.
  - by rewrite K2.
  - rewrite K2. cbn. auto.
Qed.

Lemma readl_spec V p s : HInv V p (hw s) ->
  wp (readl SE_INST_CNT) s (fun v s' => v = limit1 (hw s') /\ HInv V p (hw s') /\ ran s s').
Proof.
  intros Hh. unfold readl. apply wp_bind, (wp_mono _ _ _ _ (se_tick_spec Hfair V p s Hh)). intros t s1 (I & R & _). apply wp_bind, wp_get.
  rewrite Hmars. by apply wp_ret.
Qed.

Lemma ioctl_spec s sp cmd arg sig : SInv s sp -> covered (OIoctl cmd arg sig) s sp ->
  wp (se_ioctl cmd arg sig) s (fun _ s' => SInv s' (mkSpec (stream sp) (known sp || sets_queues cmd arg sig) (sp_queues sp))).
Proof.
  intros Hi Hc. pose proof Hi as [Hd Hs Hm Ht Hh Hz Hu Hp]. unfold se_ioctl, sets_queues.
  assert (Hsame : forall s', s' = s -> SInv s' (mkSpec (stream sp) (known sp || false) (sp_queues sp))) by (intros ? ->; rewrite orb_false_r; by destruct sp).
  destruct sig; [by apply wp_ret, Hsame|]. unfold down. apply wp_bind, wp_bind, wp_get. rewrite Hs. apply wp_modify. cbn [negb andb].
  set (s1 := mkSt _ _ _ _ _). assert (Hs1 : mkSt (with_sem false (dv s1)) (hw s1) (vmem s1) (flag s1) (irq s1) = s) by (destruct s as [[] ? ? ? ?]; cbn in *; by rewrite Hs).
  destruct (Z.eqb_spec cmd SE_IOC_SET_VSYNC_QUEUE) as [->|Hne]; cbn [andb].
  - destruct (a_queue arg) as [[N phy]|] eqn:Ea; [|by apply wp_bind, wp_ret, wp_bind, wp_modify, wp_ret, Hsame].
    destruct (Hc N phy eq_refl Ea) as [-> Hq]. rewrite Hq. apply wp_bind, wp_bind, wp_modify, wp_ret, wp_bind, wp_modify, wp_ret. rewrite orb_true_r.
    split; cbn; try done. by destruct Hd; split.
  - destruct (cmd =? SE_IOC_READ_HW_CMD_COUNTER); [|by apply wp_bind, wp_ret, wp_bind, wp_modify, wp_ret, Hsame]. rewrite orb_false_r.
    apply wp_bind, wp_bind, (wp_mono _ _ _ _ (readl_spec _ _ s1 (d_hw _ _ _ Hd))). intros v s2 (_ & I2 & R2). apply wp_bind, wp_get.
    assert (H2 : SInv (mkSt (with_sem false (dv s2)) (hw s2) (vmem s2) (flag s2) (irq s2)) (mkSpec (stream sp) (known sp) (sp_queues sp))).
    { pose proof (DInv_ran _ _ s1 s2 I2 R2 (DInv_with_sem _ _ s true Hd)) as D2. pose proof R2 as [E1 E2 _ _ _ _ _].
      split; [exact (DInv_with_sem _ _ s2 false D2)|..]; cbn [stream known sp_queues dv vmem sem isMars initialized u32_max_queue_num p_vsync_queue with_sem]; rewrite ?E1, ?E2; done. }
    destruct (a_writable arg); apply wp_ret, wp_bind, wp_modify, wp_ret; exact H2.
Qed.

Lemma irq_spec s sp : SInv s sp -> covered OIrq s sp -> wp (se_irq_handler fuel) s (fun _ s' => SInv s' (spec_op (flag s) OIrq sp)).
Proof.
  intros Hi Hc. pose proof Hi as [Hd Hs Hm Ht (ms & Em & Hq) Hz Hu Hp]. unfold se_irq_handler, spec_op. apply wp_bind, wp_get. rewrite Hm.
  destruct (Z.eqb_spec (Z.land (flag s) 0x2000000) 0) as [E|E]; cbn [negb].
  { rewrite andb_false_r. unfold vsync_irq. apply wp_bind, wp_get. change (endian_swap_32 2) with 0x2000000. rewrite E. by apply wp_ret. }
  rewrite andb_true_r. destruct (known sp) eqn:Ek.
  - assert (El : Zlen ms = Zlen (sp_queues sp)) by (unfold Zlen; by rewrite (Forall2_length Hq)).
    assert (Hf : whole n ms (sp_queues sp) \/ fits (stream sp) (vsync_words (sp_queues sp)) s) by (destruct Hc as [Hc|Hc]; [left; auto|by right]).
    rewrite <- El in *. apply (wp_mono _ _ _ _ (vsync_irq_spec Hmars Hfair fuel n Hfuel Hfuel_n Hn Hvm _ s ms _ Hd Em (Hp eq_refl) Hu Hz Hq E Hf)).
    intros r s' (_ & ms' & Em' & Hq' & D' & _ & K' & _). assert (El' : Zlen (vsync_left (sp_queues sp)) = Zlen ms) by (rewrite El; unfold Zlen, vsync_left; by rewrite length_map).
    split; cbn [stream known sp_queues]; rewrite ?El'; try done; [rewrite K'; done..|by exists ms'|rewrite K'; done|rewrite K'; cbn; auto].
  - unfold vsync_irq. apply wp_bind, wp_get. change (endian_swap_32 2) with 0x2000000. destruct (Z.eqb_spec (Z.land (flag s) 0x2000000) 0); [done|]. cbn [negb].
    apply wp_bind, wp_modify. cbn [dv]. rewrite Hu. cbn [Z.to_nat queues]. apply wp_bind, wp_ret. cbn [negb].
    apply wp_bind, wp_bind, wp_get, wp_modify, wp_ret. split; cbn [dv vmem]; rewrite ?Ek; try done; [by destruct Hd; split|by exists ms].
Qed.

Lemma op_spec s sp o : SInv s sp -> covered o s sp -> wp (run_op o) s (fun _ s' => SInv s' (spec_op (flag s) o sp)).
Proof.
  intros Hi Hc. destruct o; cbn [run_op spec_op].
  - apply (wp_mono _ _ _ _ (reopen_spec s sp _ _ Hi)). by intros _ ? ->.
  - apply wp_bind, (wp_mono _ _ _ _ (se_write_spec s sp _ _ _ _ Hi Hc)). intros r s' H. by apply wp_ret.
  - apply wp_bind, (wp_mono _ _ _ _ (ioctl_spec s sp _ _ _ Hi Hc)). intros r s' H. by apply wp_ret.
  - exact (irq_spec s sp Hi Hc).
  - destruct Hc as [Hh Hl]. eexists _, _. split; [reflexivity|]. assert (El : Zlen qs = Zlen (sp_queues sp)) by (unfold Zlen; by rewrite Hl).
    destruct Hi. split; cbn [stream known sp_queues dv hw vmem]; rewrite ?El; try done. by apply DInv_vmem.
Qed.

Lemma se_reached_inv s sp : reached s sp -> SInv s sp.
Proof.
  induction 1 as [s0 b s1 qs Hu Hb Hh Hz E|s sp o r s' _ IH Hc E].
  - destruct (se_open_spec s0 b qs Hu Hb Hh Hz) as (r & s & E' & _ & H). rewrite E in E'. injection E' as <- <-. done.
  - destruct (op_spec s sp o IH Hc) as (r' & s2 & E' & H). rewrite E in E'. injection E' as <- <-. done.
Qed.
End runs.
