(* ===== verification/SeTheorems.v ===== *)
(** * The stream engine: properties *)
From stdpp Require Import base tactics list numbers option.
From Stdlib Require Import ZArith Lia.
From S2P Require Import Prelude Driver Se SeProofs SeQueue SeRuns.

#[local] Ltac Zify.zify_post_hook ::= Z.div_mod_to_equations.

(** ** The words that wait in the ring *)

Definition waiting (h : se_hw) : list Z :=
  let r := (rdp h - base1 h) / 4 in
  let w := (wrp h - base1 h) / 4 in
  cyc (ring h) 4096 r (Z.to_nat (dist 4096 r w)).

Lemma cyc_stream V h k : forall j, (forall i, j <= i < Zlen V -> V.[i] = (ring h).[i mod 4096]) -> 0 <= j -> j + Z.of_nat k = Zlen V ->
  cyc (ring h) 4096 (j mod 4096) k = drop (Z.to_nat j) V.
Proof.
  induction k as [|k IH]; intros j Hs Hj Hk; cbn [cyc].
  { symmetry. apply drop_ge. unfold Zlen in *. lia. }
  replace (adv 4096 (j mod 4096 + 1)) with ((j + 1) mod 4096) by (unfold adv; destruct (Z.geb_spec (j mod 4096 + 1) 4096); lia).
  rewrite (IH (j + 1)); [|intros; apply Hs; lia|lia|lia]. rewrite <- Hs by lia. replace (Z.to_nat (j + 1)) with (S (Z.to_nat j)) by lia.
  symmetry. apply drop_S. rewrite lookup_at by (unfold Zlen in *; lia). do 2 f_equal. lia.
Qed.

Lemma stream_waiting V h : HInv V (Zlen V) h -> fetched h ++ waiting h = V.
Proof.
  intros [_ _ _ Hdone Hleft Hroom Hrdp Hwrp Hslots]. unfold waiting. rewrite Hrdp, Hwrp. set (k := Zlen (fetched h)) in *.
  replace ((base1 h + 4 * (k mod 4096) - base1 h) / 4) with (k mod 4096) by lia.
  replace ((base1 h + 4 * (Zlen V mod 4096) - base1 h) / 4) with (Zlen V mod 4096) by lia.
  pose proof (Zlen_nonneg (fetched h)) as Hk. fold k in Hk.
  assert (Hd : dist 4096 (k mod 4096) (Zlen V mod 4096) = Zlen V - k) by (unfold dist; destruct (Z.leb_spec (k mod 4096) (Zlen V mod 4096)); lia).
  rewrite Hd, (cyc_stream V) by (done || lia). rewrite Hdone at 1. unfold k, Zlen. rewrite Nat2Z.id. apply take_drop.
Qed.

(** ** A concrete engine *)

(** One word before every access; none at all. *)
Definition quick : SeEnv :=
  {| se_turns := fun _ => 1%nat; is_mars_cpu := true; int_status_at := fun _ => 0; inst_cnt_at := fun _ => 0; other_at := fun _ => 0; vsync_mem := 0xA1000000 |}.
Definition stalled : SeEnv :=
  {| se_turns := fun _ => 0%nat; is_mars_cpu := true; int_status_at := fun _ => 0; inst_cnt_at := fun _ => 0; other_at := fun _ => 0; vsync_mem := 0xA1000000 |}.

Lemma se_quick_fair : fair (@se_turns quick) 1.
Proof. intros t. exists O. cbn. lia. Defined.

(** A queue of 16 words with two commands and a mark between them; the first
    command lies around the end of the buffer. *)
Definition some_qmem : qmem := mkQmem 0 14 6 1 [6; 7; 8; 0; 8; 9; 0; 0; 0; 0; 0; 0; 0; 0; 20; 5].
Definition some_queue : vqueue := mkQueue true [Cmd [5; 6; 7; 8]; Mark; Cmd [9]].

Lemma some_queue_held : holds 16 (mem 16 [some_qmem]) [some_queue].
Proof. exists [some_qmem]. split; [done|]. repeat constructor; cbn; lia. Qed.

Definition powered : st :=
  mkSt (mkDev false 0 0 0 0 0 0 0 0 false 0 0 false) (mkHw 0 0 0 0 0 0 0 [] [] 0 false []) (mem 16 [some_qmem]) 0 false.
Definition block : Z * list Z := (0x80100000, replicate 4096 0).

Lemma se_powered : unopened powered.
Proof. by split. Qed.
Lemma se_block_ok : block_ok block.
Proof. unfold block_ok, block. cbn [fst snd]. split; [lia|]. vm_compute. reflexivity. Qed.

(** The state that a run ends in. *)
Definition final {A} (m : res (A * st)) : st := match m with Ret (_, s) => s | _ => powered end.
Definition value {A} (d : A) (m : res (A * st)) : A := match m with Ret (a, _) => a | _ => d end.
Definition returned {A} (m : res (A * st)) : bool := match m with Ret _ => true | _ => false end.

Lemma se_returned {A} (d : A) (m : res (A * st)) : returned m = true -> m = Ret (value d m, final m).
Proof. by destruct m as [[a s]| |]. Qed.

(** The device is opened and told about the queue, and a synchronisation is
    reported. *)
Definition queue_arg : se_arg := mkArg (Some (1, 0x1000000)) true.
Definition opened (env : SeEnv) : st := final (se_open block false powered).
Definition armed (env : SeEnv) : st :=
  let s := final (se_ioctl SE_IOC_SET_VSYNC_QUEUE queue_arg false (opened env)) in
  mkSt (dv s) (hw s) (vmem s) 0x2000000 (irq s).

Definition quick_fuel : nat := 4096.

Definition told : st := final (@run_op quick quick_fuel (OIoctl SE_IOC_SET_VSYNC_QUEUE queue_arg false) (opened quick)).

Lemma armed_reached : @reached quick quick_fuel 16 (armed quick) (mkSpec [] true [some_queue]).
Proof.
  assert (H0 : @reached quick quick_fuel 16 (opened quick) (mkSpec [] false [some_queue])).
  { apply (@reached_open quick quick_fuel 16 powered block (opened quick) [some_queue]);
      [exact se_powered|exact se_block_ok|exact some_queue_held|vm_compute; reflexivity|vm_compute; reflexivity]. }
  assert (H1 : @reached quick quick_fuel 16 told (mkSpec [] true [some_queue])).
  { refine (@reached_op quick quick_fuel 16 _ _ (OIoctl SE_IOC_SET_VSYNC_QUEUE queue_arg false) 0 told H0 _ _); [|vm_compute; reflexivity].
    intros N phy _ E. injection E as <- <-. by split. }
  refine (@reached_op quick quick_fuel 16 _ _ (OFill (mem 16 [some_qmem]) [some_queue] 0x2000000) 0 (armed quick) H1 _ _); [|vm_compute; reflexivity].
  split; [exact some_queue_held|done].
Qed.

Section theorems.
Context {env : SeEnv}.

(** C14: For every engine that fetches a word now and then: after the device has been
    opened for the first time and any sequence of covered operations (writes of at
    most 32 bytes, requests that make the queues known where they are, interrupts,
    changes of the queues by the program: [covered]), the words the
    engine has fetched, followed by those that wait in the ring, are exactly the
    words that were written and the commands taken from the queues - of each
    queue those up to its next mark, at each synchronisation, the queues in
    their order - however often the ring and the queues have wrapped around; the
    queues in memory hold what is left, the semaphore is free; and every further
    covered operation returns.  Not covered are longer writes, which overrun a
    buffer ([se_write_overflow]), closing the device and opening it again
    ([se_reopen_null]), interrupts in the middle of [se_write] ([se_irq_race]), and
    commands around the end of a queue when the ring is too full for them
    ([se_split_overwrites]). *)
Theorem se_stream_in_order dly fuel n s sp : is_mars_cpu = true -> fair se_turns dly -> (4096 * dly <= fuel)%nat -> (Z.to_nat n <= fuel)%nat ->
  0 < n < 0x8000000 -> 0 <= vsync_mem -> reached fuel n s sp ->
  fetched (hw s) ++ waiting (hw s) = stream sp /\ holds n (vmem s) (sp_queues sp) /\ sem (dv s) = false /\
  forall o, covered n o s sp -> exists r s', run_op fuel o s = Ret (r, s') /\ reached fuel n s' (spec_op (flag s) o sp).
Proof.
  intros Hm Hfair Hfuel Hfn Hn Hv Hr. pose proof (se_reached_inv fuel n Hm Hfair Hfuel Hfn Hn Hv s sp Hr) as Hi. pose proof Hi as [Hd Hs _ _ Hh _ _ _].
  split; [exact (stream_waiting _ _ (d_hw _ _ _ Hd))|]. split; [done|]. split; [done|]. intros o Hc.
  destruct (op_spec fuel n Hm Hfair Hfuel Hfn Hn Hv s sp o Hi Hc) as (r & s' & E & _). exists r, s'. split; [done|]. by apply (reached_op _ _ s sp o r).
Qed.

(** [k] accesses to the engine, by whatever code. *)
Fixpoint accesses (k : nat) : D unit := match k with O => mret tt | S k' => _ ← tick; accesses k' end.

Lemma accesses_spec dly V p (Hfair : fair se_turns dly) k : forall s, HInv V p (hw s) -> alive p s -> pend p s = 0 \/ (@left_over env dly p s < k)%nat ->
  wp (accesses k) s (fun _ s' => HInv V p (hw s') /\ pend p s' = 0).
Proof.
  induction k as [|k IH]; intros s Hh Ha Hl; cbn [accesses]; [apply wp_ret; split; [done|]; destruct Hl; [done|lia]|].
  apply wp_bind, (wp_mono _ _ _ _ (se_tick_spec Hfair V p s Hh)). intros _ s1 (I & R & N). apply IH; [done|by apply (ran_alive V p s)|].
  destruct Hl as [Hl|Hl]; [left|destruct (N Ha); [by left|right; lia]].
  pose proof (h_left _ _ _ I). pose proof (n_done _ _ R). unfold pend in *. lia.
Qed.

(** C15: Every word reaches the engine: in each state that can be reached, after
    [4096 * dly] more accesses the engine has fetched all words, if it fetches
    one among [dly] accesses in a row. *)
Theorem se_drains dly fuel n s sp : is_mars_cpu = true -> fair se_turns dly -> (4096 * dly <= fuel)%nat -> (Z.to_nat n <= fuel)%nat ->
  0 < n < 0x8000000 -> 0 <= vsync_mem -> reached fuel n s sp ->
  exists s', accesses (4096 * dly) s = Ret (tt, s') /\ fetched (hw s') = stream sp.
Proof.
  intros Hm Hfair Hfuel Hfn Hn Hv Hr. destruct (se_reached_inv fuel n Hm Hfair Hfuel Hfn Hn Hv s sp Hr) as [Hd _ _ _ _ _ _ _].
  destruct (accesses_spec dly (stream sp) _ Hfair (4096 * dly) s (d_hw _ _ _ Hd) (d_alive _ _ _ Hd) (or_intror (se_left_over_bound Hfair _ _ s (d_hw _ _ _ Hd))))
    as ([] & s' & E & [_ _ _ Hdone _ _ _ _ _] & Hp). exists s'. split; [done|]. rewrite Hdone. apply take_ge. unfold pend, Zlen in Hp. lia.
Qed.
End theorems.

Lemma se_stream_in_order_witness : exists r s', @run_op quick quick_fuel OIrq (armed quick) = Ret (r, s') /\
  fetched (hw s') ++ waiting (hw s') = [5; 6; 7; 8] /\ holds 16 (vmem s') [mkQueue true [Cmd [9]]].
Proof.
  destruct (@se_stream_in_order quick 1 quick_fuel 16 _ _ eq_refl se_quick_fair ltac:(unfold quick_fuel; lia) ltac:(unfold quick_fuel; lia) ltac:(lia) ltac:(cbn; lia) armed_reached)
    as (_ & _ & _ & H). destruct (H OIrq) as (r & s' & E & Hr); [right; vm_compute; reflexivity|]. exists r, s'. split; [exact E|].
  destruct (@se_stream_in_order quick 1 quick_fuel 16 _ _ eq_refl se_quick_fair ltac:(unfold quick_fuel; lia) ltac:(unfold quick_fuel; lia) ltac:(lia) ltac:(cbn; lia) Hr)
    as (E1 & H1 & _ & _). split; [exact E1|exact H1].
Defined.

Lemma se_drains_witness : exists s', @accesses quick 4096 (final (@se_irq_handler quick quick_fuel (armed quick))) = Ret (tt, s') /\ fetched (hw s') = [5; 6; 7; 8].
Proof.
  refine (@se_drains quick 1 quick_fuel 16 _ (mkSpec [5; 6; 7; 8] true [mkQueue true [Cmd [9]]]) eq_refl se_quick_fair ltac:(unfold quick_fuel; lia) ltac:(unfold quick_fuel; lia) ltac:(lia) ltac:(cbn; lia) _).
  refine (@reached_op quick quick_fuel 16 _ _ OIrq 1 _ armed_reached _ _); [right; vm_compute; reflexivity|vm_compute; reflexivity].
Defined.

(** ** The counter of the older chip *)

Lemma engine_rest k : forall h, now (engine k h) = now h /\ go (engine k h) = go h /\ base0 (engine k h) = base0 h /\
  base2 (engine k h) = base2 h /\ limit1 (engine k h) = limit1 h.
Proof.
  induction k as [|k IH]; intros h; cbn [engine]; [done|]. destruct (IH (engine_step h)) as (-> & -> & -> & -> & ->).
  unfold engine_step. by destruct (_ || _).
Qed.

Section counter.
Context {env : SeEnv} (Hvenus : is_mars_cpu = false).

Fixpoint irqs (fuel k : nat) : D unit :=
  match k with O => mret tt | S k' => _ ← se_irq_handler fuel; irqs fuel k' end.

(** [c] interrupts have been counted. *)
Definition counted (c : Z) (s : st) : Prop :=
  isMars (dv s) = false /\ sem (dv s) = false /\ hw_low (dv s) = u32 (65536 * c) /\ hw_high (dv s) = u32 (65536 * c / W32).

Lemma tick_venus s : wp tick s (fun t s' => t = now (hw s) /\ dv s' = dv s).
Proof. eexists _, _. split; [reflexivity|]. split; [apply engine_rest|done]. Qed.

Lemma write_l_venus v a s : wp (write_l v a) s (fun _ s' => dv s' = dv s).
Proof. unfold write_l, set_mars. apply wp_bind, (wp_mono _ _ _ _ (tick_venus s)). intros _ s1 [_ H]. by apply wp_modify. Qed.

Lemma sync_irq_spec fuel c s : 0 <= c -> (forall t, Z.land (u32 (int_status_at t)) INT_SYNC <> 0) -> counted c s ->
  wp (se_irq_handler fuel) s (fun r s' => r = IRQ_HANDLED /\ counted (c + 1) s').
Proof.
  intros Hc Hst (Hm & Hs & Hl & Hh). unfold se_irq_handler, sync_irq. apply wp_bind, wp_get. rewrite Hm.
  unfold readl. apply wp_bind, wp_bind, (wp_mono _ _ _ _ (tick_venus s)). intros t s1 [-> D1]. apply wp_bind, wp_get. rewrite Hvenus. cbn [Z.eqb Pos.eqb SE_INT_STATUS SE_INST_CNT].
  apply wp_ret. destruct (Z.eqb_spec (Z.land (u32 (int_status_at (now (hw s)))) INT_SYNC) 0) as [E|_]; [by apply Hst in E|]. cbn [negb].
  apply wp_bind, (wp_mono _ _ _ _ (write_l_venus _ _ s1)). intros _ s2 D2. apply wp_bind, wp_modify.
  apply wp_bind, (wp_mono _ _ _ _ (write_l_venus _ _ _)). intros _ s3 D3. cbn [dv] in D3. apply wp_ret. split; [done|].
  rewrite D2, D1 in D3. unfold counted. rewrite D3. cbn [isMars sem hw_low hw_high with_counter]. split; [done|]. split; [done|]. rewrite Hl, Hh.
  unfold INST_CNT_MASK, u32, W32. rewrite Z.gtb_ltb. destruct (_ <? _) eqn:E; split; lia.
Qed.

Lemma counter_value c v : 0 <= c -> 0 <= v < 65536 -> Z.lor (u32 (65536 * c)) v + W32 * u32 (65536 * c / W32) = u64 (65536 * c + v).
Proof.
  intros Hc Hv. replace (u32 (65536 * c)) with (Z.shiftl (c mod 65536) 16) by (rewrite Z.shiftl_mul_pow2 by lia; unfold u32, W32; change (2 ^ 16) with 65536; lia).
  rewrite lor_shiftl_add by (change (2 ^ 16) with 65536; lia). change (2 ^ 16) with 65536. unfold u32, u64, W32. lia.
Qed.

(** With one interrupt per 65536 commands, the counter that a program reads is
    the number of commands, modulo [2^64]. *)
Theorem se_counter fuel k s : counted 0 s -> (forall t, Z.land (u32 (int_status_at t)) INT_SYNC <> 0) ->
  exists s1 lo hi s2 v, irqs fuel k s = Ret (tt, s1) /\ se_ioctl SE_IOC_READ_HW_CMD_COUNTER (mkArg None true) false s1 = Ret ((0, Some (lo, hi)), s2) /\
    v = u32 (inst_cnt_at (now (hw s1))) mod 65536 /\ lo + W32 * hi = u64 (65536 * Z.of_nat k + v).
Proof.
  intros Hcnt Hst. assert (H : forall k c s, 0 <= c -> counted c s -> wp (irqs fuel k) s (fun _ s' => counted (c + Z.of_nat k) s')).
  { clear k s Hcnt. induction k as [|k IH]; intros c s Hc Hs; cbn [irqs]; [apply wp_ret; by rewrite Z.add_0_r|].
    apply wp_bind, (wp_mono _ _ _ _ (sync_irq_spec fuel c s Hc Hst Hs)). intros _ s1 [_ H1].
    apply (wp_mono _ _ _ _ (IH (c + 1) s1 ltac:(lia) H1)). intros _ s2 H2. by replace (c + Z.of_nat (S k)) with (c + 1 + Z.of_nat k) by lia. }
  destruct (H k 0 s ltac:(lia) Hcnt) as ([] & s1 & E1 & Hm & Hs & Hl & Hh). rewrite Z.add_0_l in Hl, Hh.
  set (v := u32 (inst_cnt_at (now (hw s1))) mod 65536).
  assert (E2 : wp (se_ioctl SE_IOC_READ_HW_CMD_COUNTER (mkArg None true) false) s1
    (fun r _ => r = (0, Some (Z.lor (hw_low (dv s1)) v, hw_high (dv s1))))).
  { unfold se_ioctl, down. apply wp_bind, wp_bind, wp_get. rewrite Hs. apply wp_modify. cbn [Z.eqb Pos.eqb SE_IOC_READ_HW_CMD_COUNTER SE_IOC_SET_VSYNC_QUEUE].
    unfold readl. apply wp_bind, wp_bind, wp_bind, (wp_mono _ _ _ _ (tick_venus _)). intros t s2 [-> D2]. apply wp_bind, wp_get. rewrite Hvenus.
    cbn [Z.eqb Pos.eqb SE_INST_CNT]. apply wp_ret, wp_bind, wp_get. cbn [a_writable]. apply wp_ret, wp_bind, wp_modify, wp_ret. rewrite D2.
    unfold INST_CNT_MASK. change 0xFFFF with (Z.ones 16). rewrite Z.land_ones by lia. done. }
  destruct E2 as (r & s2 & E2 & ->). exists s1, (Z.lor (hw_low (dv s1)) v), (hw_high (dv s1)), s2, v. split; [done|]. split; [done|]. split; [done|].
  rewrite Hl, Hh. apply counter_value; [lia|]. unfold v. lia.
Qed.
End counter.

(** ** Defects *)

(** The code for the older chip runs on the newer one, where the same addresses
    are other registers. *)
Section mars.
Context {env : SeEnv} (Hmars : is_mars_cpu = true).

(** Closing the device does not stop the engine: it writes over the base
    registers of the two queues that do not belong to the driver. *)
Theorem se_release_clobbers s : exists s', se_release s = Ret (0, s') /\ base0 (hw s') = 2 /\ base2 (hw s') = 4 /\ go (hw s') = go (hw s).
Proof.
  assert (Ht : forall s, wp tick s (fun _ s' => base2 (hw s') = base2 (hw s) /\ go (hw s') = go (hw s))).
  { intros s0. eexists _, _. split; [reflexivity|]. cbn [hw base2 go]. by destruct (engine_rest (se_turns (now (hw s0))) (hw s0)) as (_ & H1 & _ & H2 & _). }
  assert (wp se_release s (fun r s' => r = 0 /\ base0 (hw s') = 2 /\ base2 (hw s') = 4 /\ go (hw s') = go (hw s))) as (r & s' & E & -> & H).
  { unfold se_release, write_l, set_mars. rewrite Hmars. apply wp_bind, wp_modify, wp_bind, wp_bind, (wp_mono _ _ _ _ (Ht _)). intros _ s1 [_ G1].
    apply wp_modify, wp_bind, wp_bind, (wp_mono _ _ _ _ (Ht _)). intros _ s2 [B2 G2]. apply wp_modify, wp_bind, wp_modify, wp_ret.
    cbn [hw base0 base2 go Z.eqb Pos.eqb SE_CNTL SE_INT_STATUS SE_INT_ENABLE] in *. by rewrite B2, G2, G1. }
  by exists s'.
Qed.

(** The counter that a program reads is part of the address of the end of the
    ring. *)
Theorem se_counter_is_limit s : sem (dv s) = false -> exists s', se_ioctl SE_IOC_READ_HW_CMD_COUNTER (mkArg None true) false s =
  Ret ((0, Some (Z.lor (hw_low (dv s)) (Z.land (limit1 (hw s)) 0xFFFF), hw_high (dv s))), s').
Proof.
  intros Hs. assert (wp (se_ioctl SE_IOC_READ_HW_CMD_COUNTER (mkArg None true) false) s
    (fun r _ => r = (0, Some (Z.lor (hw_low (dv s)) (Z.land (limit1 (hw s)) 0xFFFF), hw_high (dv s))))) as (r & s' & E & ->); [|by exists s'].
  unfold se_ioctl, down. apply wp_bind, wp_bind, wp_get. rewrite Hs. apply wp_modify. cbn [Z.eqb Pos.eqb SE_IOC_READ_HW_CMD_COUNTER SE_IOC_SET_VSYNC_QUEUE].
  unfold readl. apply wp_bind, wp_bind, wp_bind. eexists _, _. split; [reflexivity|]. apply wp_bind, wp_get. rewrite Hmars. cbn [Z.eqb Pos.eqb SE_INST_CNT hw limit1].
  apply wp_ret, wp_bind, wp_get. cbn [a_writable]. apply wp_ret, wp_bind, wp_modify, wp_ret. cbn [dv hw_low hw_high with_sem].
  by destruct (engine_rest (se_turns (now (hw s))) (hw s)) as (_ & _ & _ & _ & ->).
Qed.
End mars.

(** A program that writes more than 32 bytes writes behind the end of a variable
    on the stack of the kernel. *)
Theorem se_write_overflow {env : SeEnv} fuel l count f_pos s : sem (dv s) = false -> Z.land count 3 = 0 -> 32 < count ->
  se_write fuel (Some l) count f_pos false s = Fault.
Proof.
  intros Hs Hc Hl. unfold se_write, down, get, mbind, Drv_bind. rewrite Hs. cbn [modify set_dv]. unfold set_dv, modify. rewrite Hc. cbn [Z.eqb negb].
  unfold DATA_BYTES. by destruct (Z.ltb_spec 32 count); [|lia].
Qed.

(** [se_write] is interrupted after it has taken the write pointer. *)
Definition race (env : SeEnv) (fuel : nat) (l : list Z) : D unit :=
  _ ← cmd_wait fuel (4 * Zlen l);
  s ← get;
  _ ← se_irq_handler fuel;
  cmd_put fuel (Data l) (4 * Zlen l) true (u32 (CmdBuf (dv s) + wrptr (dv s))).

(** The interrupt takes a command of four words out of its queue; the write then
    puts its own words in their place.  Nothing keeps the two apart. *)
Theorem se_irq_race : exists s, race stalled 16 [1; 2; 3; 4] (armed stalled) = Ret (tt, s) /\
  fetched (hw s) ++ waiting (hw s) = [1; 2; 3; 4] /\ holds 16 (vmem s) [mkQueue true [Cmd [9]]].
Proof.
  exists (final (race stalled 16 [1; 2; 3; 4] (armed stalled))). split; [vm_compute; reflexivity|]. split; [vm_compute; reflexivity|].
  exists [set_rd 4 some_qmem]. split; [vm_compute; reflexivity|]. repeat constructor; cbn; lia.
Qed.

(** Closing and opening the device again forgets where the queues are, but not
    how many there are: the next synchronisation reads at address 4. *)
Theorem se_reopen_null : (_ ← @se_release quick; _ ← @se_open quick block false; _ ← set_flag 0x2000000; @se_irq_handler quick quick_fuel) (armed quick) = Fault.
Proof. vm_compute. reflexivity. Qed.

(** A ring with 4090 words that wait, and a queue with a command of eight words,
    three at the end of its buffer and five at the start. *)
Definition crowded_ring : list Z := map Z.of_nat (seq 0 4096).
Definition crowded : st :=
  mkSt (mkDev true 0x80100000 0x100000 0x104000 (4 * 4090) (- 0x80000000) 16384 0 0 false 0xA1000000 1 true)
    (mkHw 0 0x100000 0 0x104000 0x100000 (0x100000 + 4 * 4090) 0 crowded_ring [] 0 true [])
    (mem 16 [mkQmem 0 12 5 1 [4; 5; 6; 7; 8; 0; 0; 0; 0; 0; 0; 0; 36; 1; 2; 3]]) 0x2000000 true.

(** The room for a command is checked for each of its two parts, and for both from
    the same place.  The command fills the ring past its read pointer: the words
    that wait are gone, and the engine finds the last two words of the command. *)
Theorem se_split_overwrites : DInv (firstn 4090 crowded_ring) 4090 crowded /\
  exists s, @se_irq_handler stalled 16 crowded = Ret (IRQ_HANDLED, s) /\ fetched (hw s) = [] /\ waiting (hw s) = [7; 8].
Proof.
  split; [|exists (final (@se_irq_handler stalled 16 crowded)); split; [vm_compute; reflexivity|]; split; vm_compute; reflexivity].
  assert (HV : Zlen (take 4090 crowded_ring) = 4090) by (vm_compute; reflexivity). assert (HR : Zlen crowded_ring = 4096) by (vm_compute; reflexivity).
  set (V := take 4090 crowded_ring) in *. split; [|by right|done|by rewrite HV|done|done].
  split; rewrite ?HV; cbn [hw crowded ring base1 limit1 fetched rdp wrp]; change (Zlen (@nil Z)) with 0; try done; try lia.
  intros i Hi. rewrite Z.mod_small by lia. unfold V, at_. rewrite !nth_lookup, lookup_take_lt by lia. done.
Qed.
