(* ===== verification/Dvr.v ===== *)
(** * The allocator of the recording memory: [mm/dvrblueprint.c]

    A zone of memory is set aside for recording.  It is handed out in blocks of
    [2^order] pages by a buddy allocator: free blocks of each order are on a list,
    and the first page of a free block has its order written in the array
    [dvr_mem_map].  A block that is freed is joined with its buddy as long as
    that is free.

    Pages are numbered from the start of the zone.  The lists of the kernel are
    sequences here, first element first ([Queue] shows that the code of
    [list.h] implements them); taking an element off that is on no list is a
    fault. *)
From stdpp Require Import base tactics list numbers option.
From Stdlib Require Import ZArith Lia.
From S2P Require Import Prelude Driver.

Definition MAX_ORDER : Z := 13.

(** [units]: the field [order] of each [mem_unit] of [dvr_mem_map]; [areas]: the
    lists of [dvr_free_area]; [nr_free]: their counters. *)
Record bp := mkBp { units : list Z; areas : list (list Z); nr_free : list Z }.

(** The zone: the number of its pages, and which are reserved. *)
Class Zone := { spanned_pages : Z; PageReserved : Z -> bool }.

Abbreviation D := (Drv bp).

(** ** Fields *)

Definition unit_order (u : Z) : D Z := s ← get; lift_res (rd (units s) u).
Definition set_order (u v : Z) : D unit :=
  s ← get;
  l ← lift_res (wr (units s) u v);
  modify (fun s => mkBp l (areas s) (nr_free s)).

(** The list of an order, which is inside the array. *)
Definition area (s : bp) (k : Z) : list Z := nth (Z.to_nat k) (areas s) [].
Definition set_area (k : Z) (l : list Z) : D unit :=
  modify (fun s => mkBp (units s) (<[Z.to_nat k := l]> (areas s)) (nr_free s)).

Definition add_free (k d : Z) : D unit :=
  s ← get;
  v ← lift_res (rd (nr_free s) k);
  l ← lift_res (wr (nr_free s) k (v + d));
  modify (fun s => mkBp (units s) (areas s) l).

Definition area_add (u k : Z) : D unit := s ← get; set_area k (u :: area s k).

(** [list_del]: the element is taken off the list it is on. *)
Fixpoint unlink (u : Z) (ls : list (list Z)) : option (list (list Z)) :=
  match ls with
  | [] => None
  | l :: ls' => if decide (u ∈ l) then Some (filter (fun v => v <> u) l :: ls') else cons l <$> unlink u ls'
  end.
Definition area_del (u : Z) : D unit :=
  s ← get;
  match unlink u (areas s) with
  | Some ls => modify (fun s => mkBp (units s) ls (nr_free s))
  | None => fault
  end.

(** ** Allocation *)

(** [while (high > low)], [n] turns. *)
Fixpoint expand (n : nat) (unit high size : Z) : D Z :=
  match n with
  | O => mret unit
  | S n' =>
      let high := high - 1 in
      let size := Z.shiftr size 1 in
      _ ← area_add (unit + size) high;
      _ ← add_free high 1;
      _ ← set_order (unit + size) high;
      expand n' unit high size
  end.

(** [for (current_order = order; current_order < MAX_ORDER; ++current_order)],
    [n] turns. *)
Fixpoint alloc_loop (n : nat) (current_order order : Z) : D (option Z) :=
  match n with
  | O => mret None
  | S n' =>
      s ← get;
      match area s current_order with
      | [] => alloc_loop n' (current_order + 1) order
      | unit :: _ =>
          _ ← area_del unit;
          _ ← set_order unit 0;
          _ ← add_free current_order (-1);
          u ← expand (Z.to_nat (current_order - order)) unit current_order (Z.shiftl 1 current_order);
          mret (Some u)
      end
  end.

Definition alloc_mem_unit_bulk (order : Z) : D (option Z) :=
  alloc_loop (Z.to_nat (MAX_ORDER - order)) order order.

(** ** Freeing *)

Definition unit_find_buddy (unit unit_idx order : Z) : Z :=
  let buddy_idx := Z.lxor unit_idx (Z.shiftl 1 order) in
  unit + (buddy_idx - unit_idx).

(** [while (order < MAX_ORDER-1)], [n] turns; the block that is left, and its
    order. *)
Fixpoint join (n : nat) (unit unit_idx order : Z) : D (Z * Z) :=
  match n with
  | O => mret (unit, order)
  | S n' =>
      let combined_idx := Z.land unit_idx (Z.lnot (Z.shiftl 1 order)) in
      let buddy := unit_find_buddy unit unit_idx order in
      o ← unit_order buddy;
      if negb (o =? order) then mret (unit, order)
      else
        _ ← area_del buddy;
        _ ← add_free order (-1);
        _ ← set_order buddy 0;
        join n' (unit + (combined_idx - unit_idx)) combined_idx (order + 1)
  end.

Definition free_mem_unit_bulk (munit order : Z) : D unit :=
  let unit_idx := Z.land munit (Z.shiftl 1 MAX_ORDER - 1) in
  if negb (Z.land unit_idx (Z.shiftl 1 order - 1) =? 0) then fault
  else
    r ← join (Z.to_nat (MAX_ORDER - 1 - order)) munit unit_idx order;
    let '(munit, order) := r in
    _ ← set_order munit order;
    _ ← area_add munit order;
    add_free order 1.

(** ** The zone *)

Section zone.
Context {zone : Zone}.

(** The order of the pages for [dvr_mem_map]: a [mem_unit] has 12 bytes, and
    [fls] is the number of binary digits. *)
Definition map_order (count : Z) : Z :=
  let m := Z.log2 (count * 12) in
  if count * 12 =? Z.shiftl 1 m then m - 12 else m - 11.

(** [for (index = 0; index < count; index+=256)], [n] turns. *)
Fixpoint init_loop (n : nat) (index : Z) : D unit :=
  match n with
  | O => mret tt
  | S n' =>
      _ ← (if negb (PageReserved index) then free_mem_unit_bulk index 8 else mret tt);
      init_loop n' (index + 256)
  end.

(** [pages]: what the pages for [dvr_mem_map] hold. *)
Definition init_dvrbp (pages : list Z) : D unit :=
  _ ← modify (fun _ => mkBp (replicate (Z.to_nat spanned_pages) 0 ++ drop (Z.to_nat spanned_pages) pages)
                         (replicate (Z.to_nat MAX_ORDER) []) (replicate (Z.to_nat MAX_ORDER) 0));
  init_loop (Z.to_nat ((spanned_pages + 255) / 256)) 0.

(** The page belongs to the zone. *)
Definition page_zone (page : Z) : bool := (0 <=? page) && (page <? spanned_pages).

Definition check_page (page : Z) : bool :=
  if page >=? spanned_pages then true
  else if page <? 0 then true
  else negb (page_zone page).

Definition alloc_dvrbp_memory (order : Z) : D (option Z) :=
  u ← alloc_mem_unit_bulk order;
  match u with
  | None => mret None
  | Some index => if check_page index then fault else mret (Some index)
  end.

(** [None] is the page NULL. *)
Definition free_dvrbp_memory (page : option Z) (order : Z) : D unit :=
  match page with
  | None => mret tt
  | Some index =>
      if negb (page_zone index) then mret tt
      else if check_page index then fault
      else free_mem_unit_bulk index order
  end.
End zone.
