(* ===== verification/DvrProofs.v ===== *)
(** * The allocator of the recording memory: blocks and their buddies *)
From stdpp Require Import base tactics list numbers option.
From Stdlib Require Import ZArith Lia.
From S2P Require Import Prelude Driver Dvr.

(** ** Blocks *)

Definition aligned (i k : Z) : Prop := 0 <= k /\ 0 <= i /\ exists a, i = 2 ^ k * a.
Definition inside (v i k : Z) : Prop := i <= v < i + 2 ^ k.

#[export] Instance inside_dec v i k : Decision (inside v i k).
Proof. unfold inside. apply _. Defined.

(** The other half of the block of the next order, and that block. *)
Definition buddy (i k : Z) : Z := if Z.even (i / 2 ^ k) then i + 2 ^ k else i - 2 ^ k.
Definition parent (i k : Z) : Z := if Z.even (i / 2 ^ k) then i else i - 2 ^ k.

Lemma pow_pos k : 0 <= k -> 0 < 2 ^ k.
Proof. intros. apply Z.pow_pos_nonneg; lia. Qed.
Lemma pow_next k : 0 <= k -> 2 ^ (k + 1) = 2 * 2 ^ k.
Proof. intros. rewrite Z.pow_add_r by lia. lia. Qed.

Lemma nested p d a b v : 0 < p -> 0 < d -> p * a <= v < p * a + p -> p * d * b <= v < p * d * b + p * d ->
  p * d * b <= p * a /\ p * a + p <= p * d * b + p * d.
Proof. intros Hp Hd Hv Hw. rewrite <- !Z.mul_assoc in *. assert (d * b <= a < d * b + d) by nia. nia. Qed.

(** Two blocks that share a page: the smaller one is inside the other. *)
Lemma laminar i k j l v : aligned i k -> aligned j l -> k <= l -> inside v i k -> inside v j l -> j <= i /\ i + 2 ^ k <= j + 2 ^ l.
Proof.
  intros (Hk & Hi & a & ->) (Hl & Hj & b & ->) Hkl. unfold inside. replace l with (k + (l - k)) by lia. rewrite Z.pow_add_r by lia.
  apply nested; apply pow_pos; lia.
Qed.

Lemma buddy_cases i k : aligned i k -> 0 <= k /\ exists c, (i = 2 ^ (k + 1) * c /\ buddy i k = i + 2 ^ k /\ parent i k = i) \/
  (i = 2 ^ (k + 1) * c + 2 ^ k /\ buddy i k = i - 2 ^ k /\ parent i k = i - 2 ^ k).
Proof.
  intros (Hk & Hi & a & ->). pose proof (pow_pos k Hk). split; [done|]. unfold buddy, parent.
  rewrite (Z.mul_comm (2 ^ k) a), Z.div_mul by lia. rewrite pow_next by done. destruct (Z.even a) eqn:E.
  - apply Z.even_spec in E as [c ->]. exists c. left. split; [lia|done].
  - rewrite <- Z.negb_odd in E. apply negb_false_iff, Z.odd_spec in E as [c ->]. exists c. right. split; [lia|done].
Qed.

(** The halves of the parent. *)
Lemma parent_split i k : aligned i k -> aligned (parent i k) (k + 1) /\
  (forall v, inside v (parent i k) (k + 1) <-> inside v i k \/ inside v (buddy i k) k) /\ aligned (buddy i k) k /\
  buddy i k <> i /\ parent (buddy i k) k = parent i k /\ buddy (buddy i k) k = i.
Proof.
  intros Ha. destruct (buddy_cases i k Ha) as (Hk & c & H). pose proof (pow_pos k Hk) as Hp. destruct Ha as (_ & Hi & a & Ea).
  pose proof (pow_next k Hk) as Hn. unfold aligned, inside. rewrite Hn in *.
  assert (Hd : forall x, 2 ^ k * x / 2 ^ k = x) by (intros x; rewrite Z.mul_comm; apply Z.div_mul; lia).
  destruct H as [(E & Eb & Ep)|(E & Eb & Ep)]; rewrite Eb, Ep.
  - unfold parent, buddy. replace (i + 2 ^ k) with (2 ^ k * (2 * c + 1)) by lia. rewrite Hd.
    replace (Z.even (2 * c + 1)) with false by (rewrite Z.even_add, Z.even_mul; done).
    split; [split; [lia|split; [lia|exists c; lia]]|]. split; [intros v; lia|]. split; [split; [lia|split; [nia|by exists (2 * c + 1)]]|]. lia.
  - unfold parent, buddy. replace (i - 2 ^ k) with (2 ^ k * (2 * c)) by lia. rewrite Hd.
    replace (Z.even (2 * c)) with true by (rewrite Z.even_mul; done).
    assert (0 <= c) by nia. split; [split; [lia|split; [nia|exists c; lia]]|]. split; [intros v; lia|]. split; [split; [lia|split; [nia|by exists (2 * c)]]|]. lia.
Qed.

(** Two blocks of the same order are the same or have no page in common. *)
Lemma same_order i j k v : aligned i k -> aligned j k -> inside v i k -> inside v j k -> i = j.
Proof.
  intros Hi Hj Hvi Hvj. pose proof (laminar i k j k v Hi Hj ltac:(lia) Hvi Hvj). pose proof (laminar j k i k v Hj Hi ltac:(lia) Hvj Hvi). lia.
Qed.

(** ** Bits *)

Lemma testbit_even i k : 0 <= k -> Z.testbit i k = negb (Z.even (i / 2 ^ k)).
Proof. intros Hk. rewrite Z.testbit_odd, Z.shiftr_div_pow2 by done. by rewrite <- Z.negb_even. Qed.

Lemma lxor_pow i k : 0 <= i -> 0 <= k -> Z.lxor i (2 ^ k) = if Z.testbit i k then i - 2 ^ k else i + 2 ^ k.
Proof.
  intros Hi Hk. assert (Hd : forall b, Z.testbit i k = b -> Z.lxor i (2 ^ k) = if b then i - 2 ^ k else i + 2 ^ k); [|by apply Hd].
  intros [] Hb.
  - assert (H : i = Z.lxor i (2 ^ k) + 2 ^ k).
    { rewrite Z.add_nocarry_lxor; [by rewrite Z.lxor_assoc, Z.lxor_nilpotent, Z.lxor_0_r|]. apply Z.bits_inj'. intros n Hn.
      rewrite Z.land_spec, Z.lxor_spec, Z.pow2_bits_eqb, Z.bits_0 by done. destruct (Z.eqb_spec k n) as [<-|]; [by rewrite Hb|by rewrite andb_false_r]. }
    lia.
  - rewrite Z.add_nocarry_lxor; [done|]. apply Z.bits_inj'. intros n Hn. rewrite Z.land_spec, Z.pow2_bits_eqb, Z.bits_0 by done.
    destruct (Z.eqb_spec k n) as [<-|]; [by rewrite Hb|by rewrite andb_false_r].
Qed.

Lemma clear_pow i k : 0 <= i -> 0 <= k -> Z.land i (Z.lnot (2 ^ k)) = if Z.testbit i k then i - 2 ^ k else i.
Proof.
  intros Hi Hk. change (Z.land i (Z.lnot (2 ^ k))) with (Z.land i (Z.lnot (2 ^ k))). rewrite <- Z.ldiff_land. destruct (Z.testbit i k) eqn:Hb.
  - rewrite <- Z.sub_nocarry_ldiff; [done|]. apply Z.bits_inj'. intros n Hn. rewrite Z.ldiff_spec, Z.pow2_bits_eqb, Z.bits_0 by done.
    destruct (Z.eqb_spec k n) as [<-|]; [by rewrite Hb|done].
  - apply Z.bits_inj'. intros n Hn. rewrite Z.ldiff_spec, Z.pow2_bits_eqb by done. destruct (Z.eqb_spec k n) as [<-|]; [by rewrite Hb|by rewrite andb_true_r].
Qed.

(** The index of a block modulo [2^13] gives its buddy and its parent. *)
Lemma find_buddy_eq i k : aligned i k -> k <= 12 -> unit_find_buddy i (i mod 2 ^ 13) k = buddy i k.
Proof.
  intros (Hk & Hi & _) Hk2. unfold unit_find_buddy. rewrite Z.shiftl_1_l. pose proof (Z.mod_pos_bound i (2 ^ 13) ltac:(lia)).
  rewrite lxor_pow by lia. rewrite Z.mod_pow2_bits_low by lia. rewrite testbit_even by done. unfold buddy. destruct (Z.even (i / 2 ^ k)); cbn [negb]; lia.
Qed.

Lemma combined_eq i k (idx := i mod 2 ^ 13) (c := Z.land idx (Z.lnot (Z.shiftl 1 k))) : aligned i k -> k <= 12 ->
  i + (c - idx) = parent i k /\ c = parent i k mod 2 ^ 13.
Proof.
  intros (Hk & Hi & a & Ea) Hk2. unfold c, idx. rewrite Z.shiftl_1_l. pose proof (Z.mod_pos_bound i (2 ^ 13) ltac:(lia)).
  rewrite clear_pow by lia. rewrite Z.mod_pow2_bits_low by lia. rewrite testbit_even by done. unfold parent. destruct (Z.even (i / 2 ^ k)) eqn:E; cbn [negb]; [lia|].
  split; [lia|]. assert (Hle : 2 ^ k <= i mod 2 ^ 13).
  { apply Z.nlt_ge. intros Hlt. pose proof (testbit_even i k Hk) as Ht. rewrite E in Ht. rewrite <- (Z.mod_pow2_bits_low i 13 k) in Ht by lia.
    rewrite testbit_even, Z.div_small in Ht by lia. done. }
  apply (Z.mod_unique_pos _ _ (i / 2 ^ 13)); [|pose proof (Z.div_mod i (2 ^ 13) ltac:(lia)); lia]. pose proof (pow_pos k Hk). lia.
Qed.

(** ** The invariant *)

Section inv.
Context {zone : Zone}.
#[local] Abbreviation N := spanned_pages.

(** A block that the allocator can hold. *)
Definition block (i k : Z) : Prop := aligned i k /\ 1 <= k <= 12 /\ i + 2 ^ k <= N.

(** Free blocks are on the list of their order and have it in their first unit;
    they have no page in common; no two buddies are free. *)
Record BInv (s : bp) : Prop := {
  b_units : N <= Zlen (units s);
  b_areas : length (areas s) = 13%nat;
  b_nr : length (nr_free s) = 13%nat;
  b_count : forall k, 0 <= k <= 12 -> (nr_free s).[k] = Zlen (area s k);
  b_nodup : forall k, 0 <= k -> NoDup (area s k);
  b_block : forall i k, 0 <= k -> i ∈ area s k -> block i k /\ (units s).[i] = k;
  b_head : forall i, 0 <= i < N -> (units s).[i] <> 0 -> 0 < (units s).[i] /\ i ∈ area s (units s).[i];
  b_disj : forall i k j l, 0 <= k -> 0 <= l -> i ∈ area s k -> j ∈ area s l -> inside j i k -> i = j /\ k = l;
  b_joined : forall i k, 0 <= k < 12 -> i ∈ area s k -> buddy i k ∉ area s k
}.

(** The page is in a free block. *)
Definition freeu (s : bp) (v : Z) : Prop := exists i k, 0 <= k /\ i ∈ area s k /\ inside v i k.

(** A block and no free page in it. *)
Definition held (s : bp) (i k : Z) : Prop := block i k /\ forall v, inside v i k -> ~ freeu s v.

Lemma inside_start i k : aligned i k -> inside i i k.
Proof. intros (Hk & _). pose proof (pow_pos k Hk). unfold inside. lia. Qed.

Lemma overlap s i k j l v : BInv s -> 0 <= k -> 0 <= l -> i ∈ area s k -> j ∈ area s l -> inside v i k -> inside v j l -> i = j /\ k = l.
Proof.
  intros Hb Hk Hl Hi Hj Hvi Hvj. destruct (b_block s Hb i k Hk Hi) as [[Ai _] _]. destruct (b_block s Hb j l Hl Hj) as [[Aj _] _].
  destruct (Z.le_gt_cases k l) as [Hkl|Hkl].
  - pose proof (laminar i k j l v Ai Aj Hkl Hvi Hvj). destruct (b_disj s Hb j l i k Hl Hk Hj Hi) as [-> ->]; [|done].
    pose proof (inside_start i k Ai). unfold inside in *. lia.
  - pose proof (laminar j l i k v Aj Ai ltac:(lia) Hvj Hvi). apply (b_disj s Hb i k j l Hk Hl Hi Hj). pose proof (inside_start j l Aj). unfold inside in *. lia.
Qed.

Lemma area_insert s k l j us nr : length (areas s) = 13%nat -> 0 <= k <= 12 -> 0 <= j ->
  area (mkBp us (<[Z.to_nat k := l]> (areas s)) nr) j = if j =? k then l else area s j.
Proof.
  intros Hl Hk Hj. unfold area. cbn [areas]. rewrite !nth_lookup. destruct (Z.eqb_spec j k) as [->|].
  - by rewrite list_lookup_insert_eq by lia.
  - by rewrite list_lookup_insert_ne by lia.
Qed.

(** ** A block is taken off its list *)

Definition rem (s : bp) (i k : Z) : bp :=
  mkBp (<[Z.to_nat i := 0]> (units s)) (<[Z.to_nat k := filter (fun v => v <> i) (area s k)]> (areas s)) (<[Z.to_nat k := (nr_free s).[k] + -1]> (nr_free s)).

Lemma rem_area s i k j l : BInv s -> i ∈ area s k -> 0 <= k -> 0 <= l -> j ∈ area (rem s i k) l <-> j ∈ area s l /\ j <> i.
Proof.
  intros Hb Hi Hk Hl. destruct (b_block s Hb i k Hk Hi) as [(Ai & Hk2 & _) _]. unfold rem. rewrite area_insert by (apply Hb || lia).
  destruct (Z.eqb_spec l k) as [->|Hne]; [rewrite list_elem_of_filter; tauto|].
  split; [|tauto]. intros Hj. split; [done|]. intros ->. destruct (overlap s i k i l i Hb Hk Hl Hi Hj); [by apply inside_start| |congruence].
  destruct (b_block s Hb i l Hl Hj) as [[Ai' _] _]. by apply inside_start.
Qed.

Lemma filter_length (l : list Z) i : NoDup l -> i ∈ l -> Zlen (filter (fun v => v <> i) l) = Zlen l - 1.
Proof.
  intros Hn Hi. assert (Hp : l ≡ₚ i :: filter (fun v => v <> i) l).
  { apply NoDup_Permutation; [done| |].
    - constructor; [rewrite list_elem_of_filter; tauto|by apply list.NoDup_filter].
    - intros x. rewrite elem_of_cons, list_elem_of_filter. destruct (decide (x = i)) as [->|]; tauto. }
  unfold Zlen. rewrite Hp at 2. cbn [length]. lia.
Qed.

Lemma rem_inv s i k : BInv s -> i ∈ area s k -> 0 <= k -> BInv (rem s i k).
Proof.
  intros Hb Hi Hk. pose proof (rem_area s i k) as Ha. destruct (b_block s Hb i k Hk Hi) as [(Ai & Hk2 & HiN) Hu]. pose proof (pow_pos k Hk) as Hp.
  destruct Ai as (_ & Hi0 & _). pose proof (b_units s Hb) as HN.
  assert (Hul : forall j, 0 <= j -> (units (rem s i k)).[j] = if i =? j then 0 else (units s).[j]) by (intros j Hj; cbn [rem units]; apply at_insert; lia).
  split.
  - cbn [rem units]. rewrite Zlen_insert. done.
  - cbn [rem areas]. rewrite length_insert. apply Hb.
  - cbn [rem nr_free]. rewrite length_insert. apply Hb.
  - intros l Hl. cbn [rem nr_free]. pose proof (b_nr s Hb). rewrite at_insert by (unfold Zlen; lia). unfold rem. rewrite area_insert by (apply Hb || lia).
    rewrite Z.eqb_sym. destruct (Z.eqb_spec l k) as [->|]; [|by apply Hb]. rewrite filter_length; [|by apply Hb|done]. rewrite (b_count s Hb) by lia. lia.
  - intros l Hl. unfold rem. rewrite area_insert by (apply Hb || lia). destruct (l =? k); [apply list.NoDup_filter|]; by apply Hb.
  - intros j l Hl Hj. rewrite Ha in Hj by done. destruct Hj as [Hj Hne]. destruct (b_block s Hb j l Hl Hj) as [Bj Uj]. split; [done|].
    rewrite Hul by apply Bj. destruct (Z.eqb_spec i j); [congruence|done].
  - intros j Hj Hne. rewrite Hul in * by lia. destruct (Z.eqb_spec i j); [done|]. destruct (b_head s Hb j Hj Hne) as [H1 H2]. split; [done|]. rewrite Ha by (done || lia). done.
  - intros j l j' l' Hl Hl' Hj Hj'. rewrite Ha in Hj, Hj' by done. by apply (b_disj s Hb j l j' l' Hl Hl' (proj1 Hj) (proj1 Hj')).
  - intros j l Hl Hj. rewrite Ha in * by (done || lia). intros [H _]. by apply (b_joined s Hb j l Hl (proj1 Hj)).
Qed.

Lemma rem_freeu s i k v : BInv s -> i ∈ area s k -> 0 <= k -> freeu (rem s i k) v <-> freeu s v /\ ~ inside v i k.
Proof.
  intros Hb Hi Hk. unfold freeu. split.
  - intros (j & l & Hl & Hj & Hv). rewrite rem_area in Hj by done. destruct Hj as [Hj Hne]. split; [eauto|]. intros Hvi.
    by destruct (overlap s i k j l v Hb Hk Hl Hi Hj Hvi Hv).
  - intros [(j & l & Hl & Hj & Hv) Hn]. exists j, l. split; [done|]. split; [|done]. rewrite rem_area by done. split; [done|]. intros ->.
    destruct (overlap s i k i l i Hb Hk Hl Hi Hj) as [_ ->]; [| |done]; apply inside_start; [apply (b_block s Hb i k)|apply (b_block s Hb i l)]; done.
Qed.

(** ** A block is put on its list *)

Definition ins (s : bp) (i k : Z) : bp :=
  mkBp (<[Z.to_nat i := k]> (units s)) (<[Z.to_nat k := i :: area s k]> (areas s)) (<[Z.to_nat k := (nr_free s).[k] + 1]> (nr_free s)).

Lemma ins_area s i k j l : BInv s -> 0 <= k <= 12 -> 0 <= l -> j ∈ area (ins s i k) l <-> j ∈ area s l \/ (j = i /\ l = k).
Proof.
  intros Hb Hk Hl. unfold ins. rewrite area_insert by (apply Hb || lia). destruct (Z.eqb_spec l k) as [->|Hne]; [rewrite elem_of_cons; tauto|].
  split; [by left|]. intros [?|[_ ?]]; [done|congruence].
Qed.

Lemma held_not s i k j l : held s i k -> 0 <= l -> j ∈ area s l -> aligned j l -> ~ inside j i k /\ ~ inside i j l.
Proof.
  intros [[Ai _] Hf] Hl Hj Aj. split.
  - intros Hv. apply (Hf j Hv). exists j, l. split; [done|]. split; [done|by apply inside_start].
  - intros Hv. apply (Hf i (inside_start i k Ai)). by exists j, l.
Qed.

Lemma ins_inv s i k : BInv s -> held s i k -> (k < 12 -> buddy i k ∉ area s k) -> BInv (ins s i k).
Proof.
  intros Hb Hh Hbud. pose proof Hh as [(Ai & Hk & HiN) Hf]. pose proof (ins_area s i k) as Ha. pose proof Ai as (_ & Hi0 & _). pose proof (pow_pos k ltac:(lia)) as Hp.
  pose proof (b_units s Hb) as HN.
  assert (Hnot : forall j l, 0 <= l -> j ∈ area s l -> ~ inside j i k /\ ~ inside i j l) by (intros j l Hl Hj; apply (held_not s i k j l Hh Hl Hj), (b_block s Hb j l Hl Hj)).
  assert (Hul : forall j, 0 <= j -> (units (ins s i k)).[j] = if i =? j then k else (units s).[j]) by (intros j Hj; cbn [ins units]; apply at_insert; lia).
  assert (Hni : forall l, 0 <= l -> i ∉ area s l) by (intros l Hl Hi; destruct (Hnot i l Hl Hi) as [H _]; by apply H, inside_start).
  split.
  - cbn [ins units]. rewrite Zlen_insert. done.
  - cbn [ins areas]. rewrite length_insert. apply Hb.
  - cbn [ins nr_free]. rewrite length_insert. apply Hb.
  - intros l Hl. cbn [ins nr_free]. pose proof (b_nr s Hb). rewrite at_insert by (unfold Zlen; lia). unfold ins. rewrite area_insert by (apply Hb || lia).
    rewrite Z.eqb_sym. destruct (Z.eqb_spec l k) as [->|]; [|by apply Hb]. rewrite Zlen_cons, (b_count s Hb) by lia. done.
  - intros l Hl. unfold ins. rewrite area_insert by (apply Hb || lia). destruct (Z.eqb_spec l k) as [->|]; [|by apply Hb]. constructor; [by apply Hni|by apply Hb].
  - intros j l Hl Hj. rewrite Ha in Hj by (done || lia). destruct Hj as [Hj|[-> ->]]; [|by rewrite Hul, Z.eqb_refl by lia].
    destruct (b_block s Hb j l Hl Hj) as [Bj Uj]. split; [done|]. rewrite Hul by apply Bj. destruct (Z.eqb_spec i j) as [->|]; [by apply Hni in Hj|done].
  - intros j Hj Hne. rewrite Hul in * by lia. destruct (Z.eqb_spec i j) as [->|]; [split; [lia|]; rewrite Ha by (done || lia); by right|].
    destruct (b_head s Hb j Hj Hne) as [H1 H2]. split; [done|]. rewrite Ha by (done || lia). by left.
  - intros j l j' l' Hl Hl' Hj Hj' Hv. rewrite Ha in Hj, Hj' by (done || lia). destruct Hj as [Hj|[-> ->]], Hj' as [Hj'|[-> ->]]; [|exfalso|exfalso|done].
    + by apply (b_disj s Hb j l j' l').
    + by destruct (Hnot j l Hl Hj).
    + by destruct (Hnot j' l' Hl' Hj').
  - intros j l Hl Hj. rewrite Ha in * by (done || lia). intros [H|[H ->]].
    + destruct Hj as [Hj|[-> ->]]; [by apply (b_joined s Hb j l Hl Hj)|apply Hbud; [lia|done]].
    + destruct Hj as [Hj|[-> _]]; [|by destruct (parent_split i k Ai) as (_ & _ & _ & ? & _)].
      destruct (b_block s Hb j k ltac:(lia) Hj) as [[Aj _] _]. destruct (parent_split j k Aj) as (_ & _ & _ & _ & _ & Hbb). rewrite H in Hbb.
      apply Hbud; [lia|]. by rewrite Hbb.
Qed.

Lemma ins_freeu s i k v : BInv s -> 0 <= k <= 12 -> freeu (ins s i k) v <-> freeu s v \/ inside v i k.
Proof.
  intros Hb Hk. unfold freeu. split.
  - intros (j & l & Hl & Hj & Hv). rewrite ins_area in Hj by done. destruct Hj as [Hj|[-> ->]]; [left; eauto|by right].
  - intros [(j & l & Hl & Hj & Hv)|Hv]; [exists j, l|exists i, k]; (split; [lia|]); (split; [rewrite ins_area by (done || lia)|done]); tauto.
Qed.

(** ** What the operations on the lists do *)

Lemma unlink_spec i ls k l : ls !! k = Some l -> i ∈ l -> (forall k' l', (k' < k)%nat -> ls !! k' = Some l' -> i ∉ l') ->
  unlink i ls = Some (<[k := filter (fun v => v <> i) l]> ls).
Proof.
  revert k. induction ls as [|l0 ls IH]; intros k Hk Hi Hn; [done|]. destruct k as [|k]; cbn [unlink].
  - injection Hk as ->. by rewrite decide_True.
  - rewrite decide_False by (apply (Hn O); [lia|done]). rewrite (IH k Hk Hi); [done|]. intros k' l' Hk' Hl'. apply (Hn (S k')); [lia|done].
Qed.

Lemma area_lookup s k : length (areas s) = 13%nat -> 0 <= k <= 12 -> areas s !! Z.to_nat k = Some (area s k).
Proof.
  intros Hl Hk. unfold area. destruct (nth_lookup_or_length (areas s) (Z.to_nat k) []); [done|lia].
Qed.

Lemma area_del_spec s i k (Q : unit -> bp -> Prop) : BInv s -> 0 <= k -> i ∈ area s k ->
  Q tt (mkBp (units s) (<[Z.to_nat k := filter (fun v => v <> i) (area s k)]> (areas s)) (nr_free s)) -> wp (area_del i) s Q.
Proof.
  intros Hb Hk Hi HQ. destruct (b_block s Hb i k Hk Hi) as [(Ai & Hk2 & _) _]. unfold area_del. apply wp_bind, wp_get.
  rewrite (unlink_spec i (areas s) (Z.to_nat k) (area s k)); [by apply wp_modify|apply area_lookup; [apply Hb|lia]|done|].
  intros k' l' Hk' Hl' Hi'. assert (El : l' = area s (Z.of_nat k')) by (unfold area; rewrite Nat2Z.id, nth_lookup, Hl'; done). rewrite El in Hi'.
  destruct (b_block s Hb i (Z.of_nat k') ltac:(lia) Hi') as [[Ai' _] _].
  destruct (overlap s i k i (Z.of_nat k') i Hb Hk ltac:(lia) Hi Hi'); [by apply inside_start|by apply inside_start|lia].
Qed.

Lemma set_order_spec s i v (Q : unit -> bp -> Prop) : 0 <= i < Zlen (units s) ->
  Q tt (mkBp (<[Z.to_nat i := v]> (units s)) (areas s) (nr_free s)) -> wp (set_order i v) s Q.
Proof. intros Hi HQ. unfold set_order. apply wp_bind, wp_get, wp_bind, (wp_lift _ _ _ _ (wr_ok _ _ _ Hi)). by apply wp_modify. Qed.

Lemma add_free_spec s k d (Q : unit -> bp -> Prop) : length (nr_free s) = 13%nat -> 0 <= k <= 12 ->
  Q tt (mkBp (units s) (areas s) (<[Z.to_nat k := (nr_free s).[k] + d]> (nr_free s))) -> wp (add_free k d) s Q.
Proof.
  intros Hl Hk HQ. unfold add_free. assert (Hk' : 0 <= k < Zlen (nr_free s)) by (unfold Zlen; lia).
  apply wp_bind, wp_get, wp_bind, (wp_lift _ _ _ _ (rd_ok _ _ Hk')), wp_bind, (wp_lift _ _ _ _ (wr_ok _ _ _ Hk')). by apply wp_modify.
Qed.
End inv.
