(* ===== verification/DvrOps.v ===== *)
(** * The allocator of the recording memory: the operations *)
From stdpp Require Import base tactics list numbers option.
From Stdlib Require Import ZArith Lia.
From S2P Require Import Prelude Driver Dvr DvrProofs.

Section ops.
Context {zone : Zone}.
#[local] Abbreviation N := spanned_pages.

(** ** Sequences of changes *)

Lemma rem_seq {A} s i k (m : D A) Q : BInv s -> 0 <= k -> i ∈ area s k -> wp m (rem s i k) Q ->
  wp (_ ← area_del i; _ ← set_order i 0; _ ← add_free k (-1); m) s Q /\ wp (_ ← area_del i; _ ← add_free k (-1); _ ← set_order i 0; m) s Q.
Proof.
  intros Hb Hk Hi Hm. destruct (b_block s Hb i k Hk Hi) as [((_ & Hi0 & _) & Hk2 & HN) _]. pose proof (pow_pos k Hk). pose proof (b_units s Hb).
  split; apply wp_bind, (area_del_spec s i k _ Hb Hk Hi).
  - apply wp_bind, set_order_spec; [cbn [units]; lia|]. apply wp_bind, add_free_spec; [apply Hb|lia|]. exact Hm.
  - apply wp_bind, add_free_spec; [apply Hb|lia|]. apply wp_bind, set_order_spec; [cbn [units]; lia|]. exact Hm.
Qed.

Lemma ins_seq s i k : BInv s -> block i k ->
  (forall {A} (m : D A) Q, wp m (ins s i k) Q -> wp (_ ← area_add i k; _ ← add_free k 1; _ ← set_order i k; m) s Q) /\
  (forall Q, Q tt (ins s i k) -> wp (_ ← set_order i k; _ ← area_add i k; add_free k 1) s Q).
Proof.
  intros Hb ((_ & Hi0 & _) & Hk & HN). pose proof (pow_pos k ltac:(lia)). pose proof (b_units s Hb). split.
  - intros A m Q Hm. unfold area_add, set_area. apply wp_bind, wp_bind, wp_get, wp_modify. apply wp_bind, add_free_spec; [apply Hb|lia|].
    apply wp_bind, set_order_spec; [cbn [units]; lia|]. exact Hm.
  - intros Q HQ. apply wp_bind, set_order_spec; [lia|]. unfold area_add, set_area. apply wp_bind, wp_bind, wp_get, wp_modify.
    apply add_free_spec; [apply Hb|lia|]. exact HQ.
Qed.

(** ** Allocation *)

(** The first half of a block. *)
Lemma first_half u h : 0 <= h -> aligned u (h + 1) -> aligned u h /\ buddy u h = u + 2 ^ h /\ parent u h = u.
Proof.
  intros Hh (_ & Hu & a & Ea). pose proof (pow_pos h Hh). rewrite pow_next in Ea by done.
  assert (Ha : aligned u h) by (split; [done|split; [done|exists (2 * a); lia]]). split; [done|].
  destruct (buddy_cases u h Ha) as (_ & c & [(_ & ? & ?)|(E & _)]); [done|]. exfalso. rewrite pow_next in E by done.
  assert (2 ^ h * (2 * a) = 2 ^ h * (2 * c + 1)) as E2 by lia. apply Z.mul_reg_l in E2; lia.
Qed.

Lemma expand_spec low n : forall s u high, BInv s -> held s u high -> 1 <= low -> high = low + Z.of_nat n ->
  wp (expand n u high (2 ^ high)) s (fun r s' => r = u /\ BInv s' /\ held s' u low /\
    forall v, freeu s' v <-> freeu s v \/ (inside v u high /\ ~ inside v u low)).
Proof.
  induction n as [|n IH]; intros s u high Hb Hh Hl E; cbn [expand].
  { rewrite Z.add_0_r in E. subst high. apply wp_ret. split; [done|]. split; [done|]. split; [done|]. intros v. tauto. }
  set (h := high - 1). assert (Eh : high = h + 1) by lia. clearbody h. rewrite Eh in E, Hh |- *. clear high Eh. pose proof (pow_pos h ltac:(lia)) as Hp.
  rewrite Z.shiftr_div_pow2, pow_next by lia. change (2 ^ 1) with 2. replace (2 * 2 ^ h / 2) with (2 ^ h) by (rewrite Z.mul_comm, Z.div_mul; lia). cbn zeta.
  pose proof Hh as [(Ha & Hk & HN) Hf]. destruct (first_half u h ltac:(lia) Ha) as (Au & Eb & Ep). rewrite pow_next in HN by lia.
  destruct (parent_split u h Au) as (_ & Hin & Ab & Hne & _ & Hbb). rewrite Ep, Eb in *.
  assert (Bb : block (u + 2 ^ h) h) by (split; [done|split; lia]).
  assert (Hhb : held s (u + 2 ^ h) h) by (split; [done|intros v Hv; apply Hf, Hin; by right]).
  assert (Hnb : h < 12 -> buddy (u + 2 ^ h) h ∉ area s h).
  { intros _ Hc. rewrite Hbb in Hc. apply (Hf u); [apply Hin; left; by apply inside_start|]. exists u, h. split; [lia|]. split; [done|by apply inside_start]. }
  pose proof (ins_inv s _ _ Hb Hhb Hnb) as Hb'. apply (ins_seq s _ _ Hb Bb).
  assert (Hh' : held (ins s (u + 2 ^ h) h) u h).
  { split; [split; [done|split; lia]|]. intros v Hv. rewrite ins_freeu by (done || lia). intros [Hv'|Hv']; [by apply (Hf v); [apply Hin; left|]|].
    apply Hne. symmetry. by apply (same_order u (u + 2 ^ h) h v). }
  apply (wp_mono _ _ _ _ (IH _ u h Hb' Hh' Hl ltac:(lia))). intros r s' (-> & Hb2 & Hh2 & Hf2). split; [done|]. split; [done|]. split; [done|].
  intros v. rewrite Hf2, ins_freeu, Hin by (done || lia).
  assert (Hlow : inside v u low -> inside v u h). { unfold inside. pose proof (Z.pow_le_mono_r 2 low h ltac:(lia) ltac:(lia)). lia. }
  assert (Hex : inside v (u + 2 ^ h) h -> ~ inside v u low). { intros Hv Hv'. apply Hne. symmetry. apply (same_order u (u + 2 ^ h) h v); auto. }
  tauto.
Qed.

Lemma alloc_loop_spec order n : forall s cur, BInv s -> 1 <= order <= cur -> cur + Z.of_nat n = 13 -> (forall k, order <= k < cur -> area s k = []) ->
  wp (alloc_loop n cur order) s (fun r s' => BInv s' /\
    match r with
    | Some u => held s' u order /\ (forall v, inside v u order -> freeu s v) /\ (forall v, freeu s' v <-> freeu s v /\ ~ inside v u order)
    | None => s' = s /\ forall k, order <= k <= 12 -> area s k = []
    end).
Proof.
  induction n as [|n IH]; intros s cur Hb Ho Hc He; cbn [alloc_loop]; [apply wp_ret; split; [done|split; [done|intros; apply He; lia]]|].
  apply wp_bind, wp_get. destruct (area s cur) as [|u l] eqn:E.
  { apply IH; [done|lia|lia|]. intros k Hk. destruct (Z.eq_dec k cur) as [->|]; [done|apply He; lia]. }
  assert (Hu : u ∈ area s cur) by (rewrite E; left). apply (rem_seq s u cur); [done|lia|done|].
  pose proof (rem_inv s u cur Hb Hu ltac:(lia)) as Hb'. destruct (b_block s Hb u cur ltac:(lia) Hu) as [Bu _].
  assert (Hh : held (rem s u cur) u cur) by (split; [done|]; intros v Hv; rewrite rem_freeu by (done || lia); tauto).
  rewrite Z.shiftl_1_l. apply wp_bind, (wp_mono _ _ _ _ (expand_spec order (Z.to_nat (cur - order)) _ u cur Hb' Hh ltac:(lia) ltac:(lia))).
  intros r s' (-> & Hb2 & Hh2 & Hf2). apply wp_ret. split; [done|]. split; [done|].
  assert (Hlow : forall v, inside v u order -> inside v u cur). { intros v. unfold inside. pose proof (Z.pow_le_mono_r 2 order cur ltac:(lia) ltac:(lia)). lia. }
  assert (Hfr : forall v, inside v u cur -> freeu s v) by (intros v Hv; exists u, cur; split; [lia|done]). split; [auto|].
  intros v. rewrite Hf2, rem_freeu by (done || lia). specialize (Hlow v). specialize (Hfr v). unfold inside in *. destruct (decide (u <= v < u + 2 ^ cur)); tauto.
Qed.

(** ** Freeing *)

Hypothesis HN : N mod 4096 = 0.

Lemma parent_block u k : block u k -> k < 12 -> block (parent u k) (k + 1) /\ buddy u k + 2 ^ k <= N /\ 0 <= buddy u k.
Proof.
  intros (Ha & Hk & Hu) Hk2. destruct (parent_split u k Ha) as (Ap & Hin & Ab & _). pose proof (pow_pos k ltac:(lia)) as Hp.
  assert (Hpn : parent u k + 2 ^ (k + 1) <= N).
  { pose proof Ap as (_ & _ & c & Ec). pose proof (Z.div_mod N 4096 ltac:(lia)) as En. rewrite HN, Z.add_0_r in En. set (m := N / 4096) in *.
    assert (E4 : 4096 = 2 ^ (k + 1) * 2 ^ (11 - k)) by (rewrite <- Z.pow_add_r by lia; by replace (k + 1 + (11 - k)) with 12 by lia).
    pose proof (proj2 (Hin u) (or_introl (inside_start u k Ha))) as Hv. unfold inside in Hv. pose proof (pow_pos (k + 1) ltac:(lia)) as Hp1.
    rewrite Ec in *. rewrite E4, <- Z.mul_assoc in En. set (d := 2 ^ (11 - k) * m) in *. assert (c < d) by nia. nia. }
  split; [split; [done|split; lia]|]. assert (Hb : forall v, inside v (buddy u k) k -> inside v (parent u k) (k + 1)) by (intros v Hv; apply Hin; by right).
  pose proof (Hb (buddy u k + 2 ^ k - 1) ltac:(unfold inside; lia)) as Hb1. unfold inside in Hb1. destruct Ab as (_ & ? & _). lia.
Qed.

Lemma join_spec n : forall s u k, BInv s -> held s u k -> Z.of_nat n = 12 - k ->
  wp (join n u (u mod 2 ^ 13) k) s (fun r s' => BInv s' /\ held s' (fst r) (snd r) /\ (snd r < 12 -> buddy (fst r) (snd r) ∉ area s' (snd r)) /\
    forall v, freeu s' v \/ inside v (fst r) (snd r) <-> freeu s v \/ inside v u k).
Proof.
  induction n as [|n IH]; intros s u k Hb Hh Hn; cbn [join]; [apply wp_ret; cbn [fst snd]; split; [done|split; [done|split; [lia|done]]]|].
  pose proof Hh as [Bu Hf]. pose proof Bu as (Ha & Hk & Hu). destruct (parent_split u k Ha) as (Ap & Hin & Ab & Hne & _).
  destruct (parent_block u k Bu ltac:(lia)) as (Bp & Hb1 & Hb2). rewrite find_buddy_eq by (done || lia). pose proof (pow_pos k ltac:(lia)).
  unfold unit_order. apply wp_bind, wp_bind, wp_get. apply (wp_lift _ _ (units s).[buddy u k]); [apply rd_ok; pose proof (b_units s Hb); lia|].
  destruct (Z.eqb_spec (units s).[buddy u k] k) as [E|E]; cbn [negb].
  2: { apply wp_ret. cbn [fst snd]. split; [done|split; [done|split; [|done]]]. intros _ Hc. by destruct (b_block s Hb _ k ltac:(lia) Hc). }
  destruct (b_head s Hb (buddy u k) ltac:(lia) ltac:(lia)) as [_ Hbk]. rewrite E in Hbk.
  apply (rem_seq s (buddy u k) k); [done|lia|done|]. destruct (combined_eq u k Ha ltac:(lia)) as [-> ->].
  pose proof (rem_inv s _ k Hb Hbk ltac:(lia)) as Hb'.
  assert (Hh' : held (rem s (buddy u k) k) (parent u k) (k + 1)).
  { split; [done|]. intros v Hv. rewrite rem_freeu by (done || lia). apply Hin in Hv as [Hv|Hv]; [|tauto]. intros [Hc _]. by apply (Hf v). }
  apply (wp_mono _ _ _ _ (IH _ _ _ Hb' Hh' ltac:(lia))). intros r s' (Hb3 & Hh3 & Hj3 & Hf3). split; [done|]. split; [done|]. split; [done|].
  intros v. rewrite Hf3, rem_freeu, Hin by (done || lia).
  assert (Hfr : inside v (buddy u k) k -> freeu s v) by (intros Hv; exists (buddy u k), k; split; [lia|done]).
  unfold inside in *. destruct (decide (buddy u k <= v < buddy u k + 2 ^ k)); tauto.
Qed.

Lemma free_spec s u k : BInv s -> held s u k -> wp (free_mem_unit_bulk u k) s (fun _ s' => BInv s' /\ forall v, freeu s' v <-> freeu s v \/ inside v u k).
Proof.
  intros Hb Hh. pose proof Hh as [(Ha & Hk & Hu) Hf]. pose proof Ha as (_ & Hu0 & a & Ea). unfold free_mem_unit_bulk. cbn zeta.
  change (Z.shiftl 1 MAX_ORDER - 1) with (Z.ones 13). rewrite Z.land_ones by lia. rewrite Z.shiftl_1_l.
  replace (2 ^ k - 1) with (Z.ones k) by (rewrite Z.ones_equiv; lia). rewrite Z.land_ones by lia.
  replace (u mod 2 ^ 13 mod 2 ^ k) with 0.
  2: { replace 13 with (k + (13 - k)) by lia. rewrite Z.pow_add_r by lia. pose proof (pow_pos k ltac:(lia)). pose proof (pow_pos (13 - k) ltac:(lia)).
       rewrite Z.rem_mul_r, (Z.mul_comm (2 ^ k) (_ mod _)), Z.mod_add, Z.mod_mod by lia. rewrite Ea, Z.mul_comm, Z.mod_mul; lia. }
  cbn [Z.eqb negb]. replace (Z.to_nat (MAX_ORDER - 1 - k)) with (Z.to_nat (12 - k)) by (unfold MAX_ORDER; lia).
  apply wp_bind, (wp_mono _ _ _ _ (join_spec (Z.to_nat (12 - k)) s u k Hb Hh ltac:(lia))). intros [u' k'] s' (Hb' & Hh' & Hj & Hf'). cbn [fst snd] in *.
  apply (ins_seq s' u' k' Hb' (proj1 Hh')). split; [by apply ins_inv|]. intros v. rewrite ins_freeu by (done || apply Hh' || destruct Hh' as [(_ & ? & _) _]; lia). apply Hf'.
Qed.
End ops.
