(* ===== verification/DvrTheorems.v ===== *)
(** * The allocator of the recording memory: properties *)
From stdpp Require Import base tactics list numbers option.
From Stdlib Require Import ZArith Lia.
From S2P Require Import Prelude Driver Dvr DvrProofs DvrOps.

Section theorems.
Context {zone : Zone}.
#[local] Abbreviation N := spanned_pages.

(** ** Free blocks are as large as they can be *)

(** No free block inside a free run is smaller than the run. *)
Lemma no_fragment s u o : BInv s -> aligned u o -> o <= 12 -> (forall v, inside v u o -> freeu s v) ->
  forall m i k, k = Z.of_nat m -> i ∈ area s k -> k < o -> inside i u o -> False.
Proof.
  intros Hb Au Ho Hf. induction m as [m IH] using lt_wf_ind. intros i k -> Hi Hk Hin. set (k := Z.of_nat m) in *.
  destruct (b_block s Hb i k ltac:(lia) Hi) as [[Ai [Hk1 _]] _]. destruct (parent_split i k Ai) as (Ap & Hp & Ab & Hne & _).
  assert (Hpi : inside i (parent i k) (k + 1)) by (apply Hp; left; by apply inside_start).
  pose proof (laminar (parent i k) (k + 1) u o i Ap Au ltac:(lia) Hpi Hin) as [Hl1 Hl2].
  assert (Hsub : forall v, inside v (buddy i k) k -> inside v u o) by (intros v Hv; assert (inside v (parent i k) (k + 1)) by (apply Hp; by right); unfold inside in *; lia).
  destruct (Hf (buddy i k) (Hsub _ (inside_start _ _ Ab))) as (j & l & Hl & Hj & Hv). destruct (b_block s Hb j l Hl Hj) as [[Aj _] _].
  destruct (Z.lt_trichotomy l k) as [Hlk|[->|Hlk]].
  - pose proof (laminar j l (buddy i k) k _ Aj Ab ltac:(lia) Hv (inside_start _ _ Ab)). apply (IH (Z.to_nat l) ltac:(lia) j l); [lia|done|lia|].
    apply Hsub. pose proof (inside_start j l Aj). unfold inside in *. lia.
  - rewrite (same_order j (buddy i k) k _ Aj Ab Hv (inside_start _ _ Ab)) in Hj. by apply (b_joined s Hb i k ltac:(lia) Hi).
  - assert (Hpb : inside (buddy i k) (parent i k) (k + 1)) by (apply Hp; right; by apply inside_start).
    pose proof (laminar (parent i k) (k + 1) j l _ Ap Aj ltac:(lia) Hpb Hv). assert (Hij : inside i j l) by (unfold inside in *; lia).
    destruct (overlap s i k j l i Hb ltac:(lia) Hl Hi Hj (inside_start i k Ai) Hij). lia.
Qed.

(** A free run is inside one free block. *)
Lemma run_in_block s u o : BInv s -> aligned u o -> o <= 12 -> (forall v, inside v u o -> freeu s v) ->
  exists i k, o <= k /\ i ∈ area s k /\ inside u i k.
Proof.
  intros Hb Au Ho Hf. destruct (Hf u (inside_start u o Au)) as (i & k & Hk & Hi & Hv). destruct (Z.le_gt_cases o k) as [|Hlt]; [by exists i, k|].
  exfalso. destruct (b_block s Hb i k Hk Hi) as [[Ai _] _]. pose proof (laminar i k u o u Ai Au ltac:(lia) Hv (inside_start u o Au)).
  apply (no_fragment s u o Hb Au Ho Hf (Z.to_nat k) i k); [lia|done|done|]. pose proof (inside_start i k Ai). unfold inside in *. lia.
Qed.

(** The free pages determine the lists, up to the order of their elements. *)
Lemma canonical_sub s s' : BInv s -> BInv s' -> (forall v, freeu s v <-> freeu s' v) -> forall i k, 0 <= k -> i ∈ area s k -> i ∈ area s' k.
Proof.
  intros Hb Hb' Heq i k Hk Hi. destruct (b_block s Hb i k Hk Hi) as [[Ai [Hk2 _]] _].
  destruct (run_in_block s' i k Hb' Ai ltac:(lia)) as (j & l & Hkl & Hj & Hij). { intros v Hv. apply Heq. by exists i, k. }
  destruct (b_block s' Hb' j l ltac:(lia) Hj) as [[Aj [Hl2 _]] _].
  destruct (run_in_block s j l Hb Aj ltac:(lia)) as (m & n & Hln & Hm & Hjm). { intros v Hv. apply Heq. exists j, l. split; [lia|done]. }
  destruct (b_block s Hb m n ltac:(lia) Hm) as [[Am _] _].
  pose proof (laminar j l m n j Aj Am Hln (inside_start j l Aj) Hjm). assert (Him : inside i m n) by (unfold inside in *; lia).
  destruct (overlap s i k m n i Hb Hk ltac:(lia) Hi Hm (inside_start i k Ai) Him) as [-> ->]. assert (l = n) as -> by lia.
  by rewrite (same_order m j n m Am Aj (inside_start m n Am) Hij).
Qed.

Lemma canonical s s' k : BInv s -> BInv s' -> (forall v, freeu s v <-> freeu s' v) -> 0 <= k -> area s k ≡ₚ area s' k.
Proof.
  intros Hb Hb' Heq Hk. apply NoDup_Permutation; [by apply Hb|by apply Hb'|]. intros i. split; [by apply canonical_sub|]. apply canonical_sub; [done|done| |done].
  intros v. by rewrite Heq.
Qed.

(** Whether a page is free can be seen from the lists. *)
Lemma freeu_dec s v : BInv s -> {freeu s v} + {~ freeu s v}.
Proof.
  intros Hb. destruct (decide (Exists (fun k => Exists (fun i => inside v i k) (area s k)) (Z.of_nat <$> seq 0 13))) as [Hx|Hx]; [left|right].
  - apply list.Exists_exists in Hx as (l & Hl & Hx). apply list.Exists_exists in Hx as (i & Hi & Hx). exists i, l. apply list_elem_of_fmap in Hl as (n & -> & _).
    split; [lia|]. split; [done|exact Hx].
  - intros (i & l & Hl & Hi & Hv). apply Hx, list.Exists_exists. destruct (b_block s Hb i l Hl Hi) as [[_ [Hl2 _]] _]. exists l. split; [|apply list.Exists_exists; eauto].
    apply list_elem_of_fmap. exists (Z.to_nat l). split; [lia|]. apply elem_of_seq. lia.
Qed.

(** ** The start *)

Hypothesis HN : N mod 4096 = 0.
Hypothesis HN0 : 0 <= N.

(** The pages of the megabyte are not reserved. *)
Definition usable (v : Z) : Prop := 0 <= v < N /\ PageReserved (v - v mod 256) = false.

Definition start (pages : list Z) : bp :=
  mkBp (replicate (Z.to_nat N) 0 ++ drop (Z.to_nat N) pages) (replicate (Z.to_nat MAX_ORDER) []) (replicate (Z.to_nat MAX_ORDER) 0).

Lemma area_start pages k : area (start pages) k = [].
Proof. unfold area, start. cbn [areas]. generalize (Z.to_nat k). intros n. do 13 (destruct n as [|n]; [done|]). by destruct n. Qed.

Lemma start_inv pages : BInv (start pages) /\ forall v, ~ freeu (start pages) v.
Proof.
  pose proof (area_start pages) as Ha. assert (Hno : forall i k, i ∉ area (start pages) k) by (intros i k; rewrite Ha; by apply not_elem_of_nil). split.
  - split; try done.
    + unfold start. cbn [units]. rewrite Zlen_app. unfold Zlen at 1. rewrite length_replicate. pose proof (Zlen_nonneg (drop (Z.to_nat N) pages)). lia.
    + intros k Hk. rewrite Ha. unfold start. cbn [nr_free]. unfold at_. rewrite nth_lookup. change (Z.to_nat MAX_ORDER) with 13%nat. rewrite lookup_replicate_2 by lia. done.
    + intros k _. rewrite Ha. constructor.
    + intros i k _ Hi. by apply Hno in Hi.
    + intros i Hi Hne. exfalso. apply Hne. unfold start. cbn [units]. rewrite at_app_l by (unfold Zlen; rewrite length_replicate; lia).
      unfold at_. rewrite nth_lookup, lookup_replicate_2 by lia. done.
    + intros i k j l _ _ Hi. by apply Hno in Hi.
  - intros v (i & k & _ & Hi & _). by apply Hno in Hi.
Qed.

Lemma mod256 v i : i <= v < i + 256 -> i mod 256 = 0 -> v - v mod 256 = i.
Proof. intros Hv Hi. pose proof (Z.div_mod i 256 ltac:(lia)). rewrite (Z.mod_eq v 256) by lia. assert (v / 256 = i / 256) as -> by (symmetry; apply Z.div_unique with (v - i); lia). lia. Qed.

Lemma init_loop_spec n : forall s index, BInv s -> 0 <= index -> index mod 256 = 0 -> index + 256 * Z.of_nat n = N ->
  (forall v, freeu s v <-> usable v /\ v < index) -> wp (init_loop n index) s (fun _ s' => BInv s' /\ forall v, freeu s' v <-> usable v).
Proof.
  induction n as [|n IH]; intros s index Hb Hi Hm He Hf; cbn [init_loop].
  { apply wp_ret. split; [done|]. intros v. rewrite Hf. split; [tauto|]. intros Hv. split; [done|]. destruct Hv. lia. }
  assert (Hfr : forall s' (b : bool), PageReserved index = negb b -> BInv s' -> (forall v, freeu s' v <-> freeu s v \/ (b = true /\ index <= v < index + 256)) ->
    wp (init_loop n (index + 256)) s' (fun _ s' => BInv s' /\ forall v, freeu s' v <-> usable v)).
  { intros s' b Hr Hb' Hf'. apply IH; [done|lia| |lia|].
    - rewrite Z.add_mod, Hm by lia. done.
    - intros v. rewrite Hf', Hf. unfold usable. destruct (decide (index <= v < index + 256)) as [Hv|Hv].
      + rewrite (mod256 v index Hv Hm), Hr. destruct b; cbn [negb]; split; intros; [|right; split; [done|lia]| |]; lia || naive_solver lia.
      + naive_solver lia. }
  destruct (PageReserved index) eqn:Er; cbn [negb].
  - apply wp_bind, wp_ret. apply (Hfr s false); [done|done|]. intros v. naive_solver.
  - apply wp_bind. assert (Hh : held s index 8).
    { split; [split; [split; [lia|split; [lia|exists (index / 256); change (2 ^ 8) with 256; pose proof (Z.div_mod index 256 ltac:(lia)); lia]]|]|].
      - change (2 ^ 8) with 256. lia.
      - intros v Hv. rewrite Hf. unfold inside in Hv. lia. }
    apply (wp_mono _ _ _ _ (free_spec HN s index 8 Hb Hh)). intros _ s' [Hb' Hf']. apply (Hfr s' true); [done|done|]. intros v. rewrite Hf'.
    unfold inside. change (2 ^ 8) with 256. naive_solver.
Qed.

Lemma dvr_init_spec s0 pages : wp (init_dvrbp pages) s0 (fun _ s => BInv s /\ forall v, freeu s v <-> usable v).
Proof.
  unfold init_dvrbp. apply wp_bind, wp_modify. fold (start pages). destruct (start_inv pages) as [Hb Hf].
  apply init_loop_spec; [done|lia|done| |].
  - rewrite Z2Nat.id by (apply Z.div_pos; lia). clear - HN. Z.div_mod_to_equations. lia.
  - intros v. split; [intros Hv; by apply Hf in Hv|]. intros [[Hv _] Hlt]. lia.
Qed.

(** ** Sequences of allocations *)

(** The states that can be reached, with the blocks that are in use.  Callers ask
    for blocks of order 3 or more ([AUTH_IOCQALLOC]). *)
Inductive reached (pages : list Z) : bp -> list (Z * Z) -> Prop :=
  | reached_init s0 s : init_dvrbp pages s0 = Ret (tt, s) -> reached pages s []
  | reached_alloc s live k u s' : reached pages s live -> 1 <= k <= 12 -> alloc_dvrbp_memory k s = Ret (Some u, s') -> reached pages s' ((u, k) :: live)
  | reached_full s live k s' : reached pages s live -> 1 <= k <= 12 -> alloc_dvrbp_memory k s = Ret (None, s') -> reached pages s' live
  | reached_free s l1 u k l2 s' : reached pages s (l1 ++ (u, k) :: l2) -> free_dvrbp_memory (Some u) k s = Ret (tt, s') -> reached pages s' (l1 ++ l2).

(** How many of the blocks hold the page. *)
Definition holders (v : Z) (live : list (Z * Z)) : nat := length (filter (fun b => fst b <= v < fst b + 2 ^ snd b) live).

(** Every page is free, or in one block, or not for use. *)
Definition accounted (s : bp) (live : list (Z * Z)) (v : Z) : Prop :=
  (usable v /\ freeu s v /\ holders v live = 0%nat) \/ (usable v /\ ~ freeu s v /\ holders v live = 1%nat) \/
  (~ usable v /\ ~ freeu s v /\ holders v live = 0%nat).

Record RInv (s : bp) (live : list (Z * Z)) : Prop := {
  i_inv : BInv s;
  i_live : forall u k, (u, k) ∈ live -> block u k;
  i_pages : forall v, accounted s live v
}.

Lemma holders_cons v b live : holders v (b :: live) = if decide (inside v (fst b) (snd b)) then S (holders v live) else holders v live.
Proof. unfold holders, inside. rewrite filter_cons. by destruct (decide _). Qed.

Lemma holders_middle v l1 b l2 : holders v (l1 ++ b :: l2) = if decide (inside v (fst b) (snd b)) then S (holders v (l1 ++ l2)) else holders v (l1 ++ l2).
Proof.
  pose proof (holders_cons v b (l1 ++ l2)) as E. unfold holders in *. rewrite <- E. rewrite !list.filter_app, !filter_cons, list.filter_app. destruct (decide _); rewrite !length_app; cbn [length]; rewrite ?length_app; lia.
Qed.

Lemma check_page_block u k : block u k -> check_page u = false /\ page_zone u = true.
Proof.
  intros ((Hk & Hu & _) & _ & Hn). pose proof (pow_pos k Hk). unfold check_page, page_zone.
  destruct (Z.geb_spec u N), (Z.ltb_spec u 0), (Z.leb_spec 0 u), (Z.ltb_spec u N); (split; done) || lia.
Qed.

Lemma dvr_alloc_spec s k : BInv s -> 1 <= k <= 12 -> wp (alloc_dvrbp_memory k) s (fun r s' => BInv s' /\
    match r with
    | Some u => held s' u k /\ (forall v, inside v u k -> freeu s v) /\ (forall v, freeu s' v <-> freeu s v /\ ~ inside v u k)
    | None => s' = s /\ forall l, k <= l <= 12 -> area s l = []
    end).
Proof.
  intros Hb Hk. unfold alloc_dvrbp_memory, alloc_mem_unit_bulk, MAX_ORDER.
  apply wp_bind, (wp_mono _ _ _ _ (alloc_loop_spec k (Z.to_nat (13 - k)) s k Hb ltac:(lia) ltac:(lia) ltac:(intros; lia))). intros [u|] s' [Hb' H]; [|by apply wp_ret].
  destruct (check_page_block u k (proj1 (proj1 H))) as [-> _]. by apply wp_ret.
Qed.

Lemma dvr_free_spec s u k : BInv s -> held s u k -> wp (free_dvrbp_memory (Some u) k) s (fun _ s' => BInv s' /\ forall v, freeu s' v <-> freeu s v \/ inside v u k).
Proof. intros Hb Hh. unfold free_dvrbp_memory. destruct (check_page_block u k (proj1 Hh)) as [-> ->]. cbn [negb]. by apply free_spec. Qed.

Lemma RInv_alloc s live k u s' : RInv s live -> BInv s' -> held s' u k -> (forall v, inside v u k -> freeu s v) ->
  (forall v, freeu s' v <-> freeu s v /\ ~ inside v u k) -> RInv s' ((u, k) :: live).
Proof.
  intros [_ Hl Hp] Hb' Hh H1 H2. split; [done| |].
  - intros u' k' Hin. apply elem_of_cons in Hin as [E|Hin]; [injection E as -> ->; apply Hh|by apply Hl].
  - intros v. specialize (Hp v). specialize (H1 v). unfold accounted in *. rewrite H2, holders_cons. cbn [fst snd]. destruct (decide (inside v u k)); [right; left|].
    + destruct Hp as [(? & ? & ->)|[(? & ? & ?)|(? & ? & ?)]]; tauto.
    + tauto.
Qed.

Lemma live_held s l1 u k l2 : RInv s (l1 ++ (u, k) :: l2) -> held s u k.
Proof.
  intros [_ Hl Hp]. split; [apply Hl, elem_of_app; right; left|]. intros v Hv Hf. specialize (Hp v). unfold accounted in Hp. rewrite holders_middle in Hp. cbn [fst snd] in Hp.
  rewrite decide_True in Hp by done. destruct Hp as [(_ & _ & ?)|[(_ & ? & _)|(_ & ? & _)]]; done.
Qed.

Lemma RInv_free s l1 u k l2 s' : RInv s (l1 ++ (u, k) :: l2) -> BInv s' -> (forall v, freeu s' v <-> freeu s v \/ inside v u k) -> RInv s' (l1 ++ l2).
Proof.
  intros [_ Hl Hp] Hb' H2. split; [done| |].
  - intros u' k' Hin. apply Hl. rewrite elem_of_app in *. rewrite elem_of_cons. tauto.
  - intros v. specialize (Hp v). unfold accounted in *. rewrite H2. rewrite holders_middle in Hp. cbn [fst snd] in Hp. destruct (decide (inside v u k)); [left|tauto].
    destruct Hp as [(_ & _ & ?)|[(? & _ & E)|(_ & _ & ?)]]; [done| |done]. injection E as ->. tauto.
Qed.

Lemma dvr_reached_inv pages s live : reached pages s live -> RInv s live.
Proof.
  induction 1 as [s0 s E|s live k u s' _ IH Hk E|s live k s' _ IH Hk E|s l1 u k l2 s' _ IH E].
  - destruct (dvr_init_spec s0 pages) as ([] & s2 & E2 & Hb & Hf). rewrite E in E2. injection E2 as <-. split; [done|intros u k Hin; by apply not_elem_of_nil in Hin|].
    intros v. unfold accounted. rewrite Hf. change (holders v []) with 0%nat. destruct (decide (0 <= v < N)), (PageReserved (v - v mod 256)) eqn:Er; unfold usable; rewrite Er; intuition congruence.
  - destruct (dvr_alloc_spec s k (i_inv _ _ IH) Hk) as (r & s2 & E2 & Hb & H). rewrite E in E2. injection E2 as <- <-. destruct H as (H1 & H2 & H3). by apply (RInv_alloc s).
  - destruct (dvr_alloc_spec s k (i_inv _ _ IH) Hk) as (r & s2 & E2 & Hb & H). rewrite E in E2. injection E2 as <- <-. by destruct H as [-> _].
  - destruct (dvr_free_spec s u k (i_inv _ _ IH) (live_held _ _ _ _ _ IH)) as ([] & s2 & E2 & Hb & H). rewrite E in E2. injection E2 as <-. by apply (RInv_free s l1 u k l2).
Qed.

(** C16: In a zone of a multiple of 16 MB ([HN]), after any sequence of allocations of
    orders 1 to 12 and of frees of blocks in use, every
    page of the zone that is not reserved is either free or in exactly one block
    that is in use, and reserved pages are in none: blocks in use have no page in
    common with each other or with free blocks, and no page is lost.  The lists
    are consistent ([BInv]), and every further allocation of these orders and
    every free of a block in use returns. *)
Theorem dvr_accounted pages s live : reached pages s live ->
  BInv s /\ (forall v, accounted s live v) /\ (forall u k, (u, k) ∈ live -> block u k) /\
  (forall k, 1 <= k <= 12 -> exists r s', alloc_dvrbp_memory k s = Ret (r, s')) /\
  (forall l1 u k l2, live = l1 ++ (u, k) :: l2 -> exists s', free_dvrbp_memory (Some u) k s = Ret (tt, s')).
Proof.
  intros Hr. pose proof (dvr_reached_inv pages s live Hr) as Hi. pose proof Hi as [Hb Hl Hp]. split; [done|]. split; [done|]. split; [done|]. split.
  - intros k Hk. destruct (dvr_alloc_spec s k Hb Hk) as (r & s' & E & _). eauto.
  - intros l1 u k l2 ->. destruct (dvr_free_spec s u k Hb (live_held _ _ _ _ _ Hi)) as ([] & s' & E & _). eauto.
Qed.

(** C19: An allocation of an order from 1 to 12, in such a zone, gives an aligned block of pages that were all free, and takes
    exactly these; it fails only if there is no aligned run of free pages of that
    length.  So memory is never refused because it has been cut up. *)
Theorem dvr_alloc_exact pages s live k : reached pages s live -> 1 <= k <= 12 ->
  exists r s', alloc_dvrbp_memory k s = Ret (r, s') /\
    match r with
    | Some u => block u k /\ (forall v, inside v u k -> freeu s v) /\ (forall v, freeu s' v <-> freeu s v /\ ~ inside v u k)
    | None => s' = s /\ forall u, aligned u k -> exists v, inside v u k /\ ~ freeu s v
    end.
Proof.
  intros Hr Hk. pose proof (dvr_reached_inv pages s live Hr) as [Hb _ _]. destruct (dvr_alloc_spec s k Hb Hk) as (r & s' & E & _ & H). exists r, s'. split; [done|].
  destruct r as [u|]; [destruct H as ([? _] & ? & ?); done|]. destruct H as [-> He]. split; [done|]. intros u Au.
  destruct (list.Forall_Exists_dec (fun j => freeu s (u + j)) (fun j => ~ freeu s (u + j)) (fun j => freeu_dec s (u + j) Hb) (Z.of_nat <$> seq 0 (Z.to_nat (2 ^ k)))) as [Hall|Hn].
  - exfalso. destruct (run_in_block s u k Hb Au ltac:(lia)) as (i & l & Hkl & Hi & _).
    + intros v Hv. rewrite list.Forall_forall in Hall. unfold inside in Hv. replace v with (u + (v - u)) by lia. apply Hall. apply list_elem_of_fmap.
      exists (Z.to_nat (v - u)). split; [lia|]. apply elem_of_seq. lia.
    + destruct (b_block s Hb i l ltac:(lia) Hi) as [[_ [Hl2 _]] _]. rewrite (He l) in Hi by lia. by apply not_elem_of_nil in Hi.
  - apply list.Exists_exists in Hn as (j & Hj & Hn). apply list_elem_of_fmap in Hj as (n & -> & Hj). apply elem_of_seq in Hj.
    exists (u + Z.of_nat n). split; [unfold inside; lia|done].
Qed.

(** C20: Nothing stays cut up: in such a zone, when all blocks have been freed, in whatever order,
    the free lists are those of the start, up to the order of their elements. *)
Theorem dvr_no_fragmentation pages s0 s1 s k : init_dvrbp pages s0 = Ret (tt, s1) -> reached pages s [] -> 0 <= k -> area s k ≡ₚ area s1 k.
Proof.
  intros E Hr Hk. destruct (dvr_reached_inv pages s1 [] (reached_init pages s0 s1 E)) as [Hb1 _ H1]. destruct (dvr_reached_inv pages s [] Hr) as [Hb _ H].
  apply canonical; [done|done| |done]. intros v. specialize (H v). specialize (H1 v). unfold accounted in *. change (holders v []) with 0%nat in *. split; intuition congruence.
Qed.
End theorems.

(** The pages for [dvr_mem_map] have room for a unit per page of the zone. *)
Lemma map_order_enough count : 256 <= count -> 0 <= map_order count /\ count * 12 <= 4096 * 2 ^ map_order count.
Proof.
  intros Hc. unfold map_order. cbn zeta. set (m := Z.log2 (count * 12)). destruct (Z.log2_spec (count * 12) ltac:(lia)) as [H1 H2]. fold m in H1, H2.
  assert (Hm : 11 <= m) by (unfold m; change 11 with (Z.log2 3072); apply Z.log2_le_mono; lia). rewrite Z.shiftl_1_l. change 4096 with (2 ^ 12).
  destruct (Z.eqb_spec (count * 12) (2 ^ m)) as [E|E].
  - assert (12 <= m). { destruct (Z.eq_dec m 11) as [->|]; [|lia]. change (2 ^ 11) with 2048 in E. lia. }
    split; [lia|]. rewrite <- Z.pow_add_r by lia. replace (12 + (m - 12)) with m by lia. lia.
  - split; [lia|]. rewrite <- Z.pow_add_r by lia. replace (12 + (m - 11)) with (Z.succ m) by lia. lia.
Qed.

(** ** A concrete zone *)

(** 16 megabytes, the first one reserved. *)
Definition zone16 : Zone := {| spanned_pages := 4096; PageReserved := fun v => v <? 256 |}.

Definition nothing : bp := mkBp [] [] [].
Definition final {A} (m : res (A * bp)) : bp := match m with Ret (_, s) => s | _ => nothing end.

Definition ready : bp := final (@init_dvrbp zone16 [] nothing).
Definition one_used : bp := final (@alloc_dvrbp_memory zone16 3 ready).
Definition two_used : bp := final (@alloc_dvrbp_memory zone16 4 one_used).
Definition one_freed : bp := final (@free_dvrbp_memory zone16 (Some 256) 3 two_used).
Definition all_freed : bp := final (@free_dvrbp_memory zone16 (Some 272) 4 one_freed).

Lemma two_used_reached : @reached zone16 [] two_used [(272, 4); (256, 3)].
Proof.
  apply (@reached_alloc zone16 [] one_used [(256, 3)] 4 272 two_used); [|lia|vm_compute; reflexivity].
  apply (@reached_alloc zone16 [] ready [] 3 256 one_used); [|lia|vm_compute; reflexivity].
  apply (@reached_init zone16 [] nothing ready). vm_compute. reflexivity.
Qed.

Lemma all_freed_reached : @reached zone16 [] all_freed [].
Proof.
  apply (@reached_free zone16 [] one_freed [] 272 4 [] all_freed); [|vm_compute; reflexivity].
  apply (@reached_free zone16 [] two_used [(272, 4)] 256 3 [] one_freed); [exact two_used_reached|vm_compute; reflexivity].
Qed.

Lemma dvr_accounted_witness : @BInv zone16 two_used /\ @accounted zone16 two_used [(272, 4); (256, 3)] 260.
Proof.
  destruct (@dvr_accounted zone16 eq_refl ltac:(cbn; lia) [] two_used _ two_used_reached) as (H1 & H2 & _). split; [exact H1|exact (H2 260)].
Defined.

Lemma dvr_alloc_exact_witness : exists r s', @alloc_dvrbp_memory zone16 12 two_used = Ret (r, s') /\ (r = None -> s' = two_used).
Proof.
  destruct (@dvr_alloc_exact zone16 eq_refl ltac:(cbn; lia) [] two_used _ 12 two_used_reached ltac:(lia)) as (r & s' & E & H).
  exists r, s'. split; [exact E|]. intros ->. apply H.
Defined.

Lemma dvr_no_fragmentation_witness : area all_freed 8 ≡ₚ area ready 8.
Proof. apply (@dvr_no_fragmentation zone16 eq_refl ltac:(cbn; lia) [] nothing ready all_freed 8); [vm_compute; reflexivity|exact all_freed_reached|lia]. Defined.

(** ** Defects *)

(** A unit that is in use has the order 0, as a free block of one page has.  With
    blocks of one page in use, freeing one takes its buddy, which is in use, off a
    list that it is not on. *)
Theorem dvr_order_zero : (u ← @alloc_dvrbp_memory zone16 0; _ ← @alloc_dvrbp_memory zone16 0; @free_dvrbp_memory zone16 u 0) ready = Fault.
Proof. vm_compute. reflexivity. Qed.

(** A zone of 5 megabytes. *)
Definition zone5 : Zone := {| spanned_pages := 1280; PageReserved := fun _ => false |}.

(** Buddies are not checked to be in the zone.  The array has room for more units
    than there are pages, and only those of the zone are cleared: what happens to
    be there is taken for a free block. *)
Theorem dvr_buddy_outside : map_order 1280 = 2 /\ (4096 * 4) / 12 = 1365 /\ @init_dvrbp zone5 (replicate 1280 0 ++ replicate 85 8) nothing = Fault.
Proof. split; [reflexivity|]. split; [reflexivity|]. vm_compute. reflexivity. Qed.
