(* ===== verification/DvrMem.v ===== *)
(** * Recording memory for drivers and programs: [mm/auth.c]

    Drivers ([dvr_malloc], [dvr_free]) and one authorised program (two requests
    of the device file) get memory from here.  Each piece is noted in a tree under
    its address, with a word that says where it comes from and of which order it
    is.  Pieces of several pages come from the recording memory ([Dvr]): a block
    is taken, its pages are cleared of other uses, and then the page allocator of
    the kernel is asked for it.

    The tree is the radix tree of the kernel: a finite map whose insertion fails
    when the place is taken or there is no memory.  The page allocator and
    [kmalloc] are parameters. *)
From stdpp Require Import base tactics list numbers option gmap sorting.
From Stdlib Require Import ZArith Lia.
From S2P Require Import Prelude Driver Dvr.

(** ** Surroundings *)

(** [zone_start_pfn]: the number of the first page of the zone; [small_room]:
    [kmalloc] has the 8 bytes of a record; [tree_room]: the tree can grow
    ([radix_tree_preload]); [low]: what [kmalloc] and the page allocator answer for
    memory outside the zone (0 is NULL); [gfp_dvr]: what the page allocator answers
    after the block that starts at a page has been cleared; [signalled]: a signal
    comes while the semaphore is waited for.  The others are questions at a time,
    and the time is their number so far. *)
Class MemEnv := {
  zone_start_pfn : Z;
  small_room : nat -> bool;
  tree_room : nat -> bool;
  low : nat -> Z;
  gfp_dvr : Z -> Z;
  signalled : nat -> bool
}.

Definition pli_signature : Z := 0x77000000.
Definition buddy_id : Z := 0x10000.
Definition max_cache_size : Z := Z.shiftl 1 14.
Definition cache_id : Z := 0x20000.
Definition driver_id : Z := 0x30000.

(** [tree]: [dvr_tree], the two words of each record; [sem]: the count of
    [remap_sem]. *)
Record mst := mkMst { blocks : bp; tree : gmap Z (Z * Z); sem : Z; now : nat }.

Abbreviation D := (Drv mst).

Definition set_tree (f : gmap Z (Z * Z) -> gmap Z (Z * Z)) : D unit := modify (fun s => mkMst (blocks s) (f (tree s)) (sem s) (now s)).
Definition set_sem (f : Z -> Z) : D unit := modify (fun s => mkMst (blocks s) (tree s) (f (sem s)) (now s)).

(** A question to the surroundings. *)
Definition ask {A} (f : nat -> A) : D A := fun s => Ret (f (now s), mkMst (blocks s) (tree s) (sem s) (S (now s))).

(** Code of the allocator. *)
Definition in_blocks {A} (m : Drv bp A) : D A := fun s =>
  match m (blocks s) with
  | Ret (a, b) => Ret (a, mkMst b (tree s) (sem s) (now s))
  | Fault => Fault
  | OutOfFuel => OutOfFuel
  end.

(** ** Orders *)

(** [while (num > val) { val <<= 1; cnt++; }] on 32-bit integers. *)
Fixpoint cal_loop (fuel : nat) (num cnt val : Z) : res Z :=
  if num >? val then
    match fuel with
    | O => OutOfFuel
    | S fuel' => cal_loop fuel' num (cnt + 1) (s32 (Z.shiftl val 1))
    end
  else Ret cnt.

Definition cal_order (fuel : nat) (num : Z) : res Z := cal_loop fuel num 0 (Z.shiftl 1 12).

Section mem.
Context {zone : Zone} {env : MemEnv}.

(** ** Addresses *)

Definition page_address (page : Z) : Z := 0x80000000 + 4096 * (zone_start_pfn + page).
Definition virt_to_page (a : Z) : Z := Z.shiftr (u32 (a - 0x80000000)) 12 - zone_start_pfn.
Definition tree_key (addr : Z) : Z := Z.shiftr (Z.land addr 0x0fffffff) 2.

(** ** Records *)

Definition EEXIST : Z := 17.
Definition ENOMEM : Z := 12.

(** The memory of the record is written without a look at whether there is any. *)
Definition record_insert (type addr : Z) : D Z :=
  ptr ← ask small_room;
  if negb ptr then fault
  else
  ok ← ask tree_room;
  if negb ok then mret (- ENOMEM)
  else
    s ← get;
    match tree s !! tree_key addr with
    | Some _ => mret (- EEXIST)
    | None => _ ← set_tree (fun t => <[tree_key addr := (type, addr)]> t); mret 0
    end.

Definition record_lookup (addr : Z) : D Z :=
  s ← get;
  mret match tree s !! tree_key addr with Some p => fst p | None => 0 end.

Definition record_delete (addr : Z) : D unit := set_tree (fun t => delete (tree_key addr) t).

(** ** Taking a block of the recording memory *)

(** The result of [down_interruptible] is not looked at. *)
Definition down_interruptible : D unit :=
  sig ← ask signalled;
  if (sig : bool) then mret tt
  else
    s ← get;
    if sem s <=? 0 then stuck else set_sem (fun v => v - 1).
Definition up : D unit := set_sem (fun v => v + 1).

(** For the order 0 the whole zone is cleared, and its first page is the result. *)
Definition start_remap (order : Z) : D (option Z) :=
  _ ← down_interruptible;
  if order =? 0 then mret (Some 0)
  else if order <? MAX_ORDER then in_blocks (alloc_dvrbp_memory order)
  else mret None.
Definition end_remap (order : Z) : D unit := up.

(** [start_remap] to [end_remap], with the call of the page allocator in between;
    an address or 0. *)
Definition take_block (order : Z) : D Z :=
  page ← start_remap order;
  ret ← match page with
        | Some page => if negb (page_address page =? gfp_dvr page) then fault else mret (gfp_dvr page)
        | None => mret 0
        end;
  _ ← end_remap order;
  mret ret.

(** [free_pages] and the allocator get the block back. *)
Definition give_block (addr order : Z) : D unit :=
  _ ← down_interruptible;
  _ ← in_blocks (free_dvrbp_memory (Some (virt_to_page addr)) order);
  up.

(** ** Drivers *)

Variable fuel : nat.

Definition dvr_malloc (size : Z) : D Z :=
  order ← lift_res (cal_order fuel (s32 size));
  ret ← (if order =? 0 then ask low else take_block order);
  if negb (ret =? 0) then
    e ← record_insert (Z.lor pli_signature (Z.lor driver_id order)) ret;
    if negb (e =? 0) then
      _ ← give_block ret order;
      mret 0
    else mret ret
  else mret ret.

Definition dvr_free (arg : Z) : D unit :=
  value ← record_lookup arg;
  if negb (Z.land value 0xff000000 =? pli_signature) then fault
  else
    _ ← record_delete arg;
    if negb (Z.land value 0x00ff0000 =? driver_id) then fault
    else
      let order := Z.land value 0x000000ff in
      if order =? 0 then mret tt
      else give_block arg order.

(** ** Programs *)

(** [AUTH_IOCQALLOC]; [map_start_addr]: where the memory is in the program. *)
Definition auth_alloc (map_start_addr arg : Z) : D Z :=
  if arg <=? max_cache_size then
    ret ← ask low;
    ret ← (if ret =? 0 then ask low else mret ret);
    if negb (ret =? 0) then
      e ← record_insert (Z.lor pli_signature cache_id) ret;
      if negb (e =? 0) then mret 0 else mret (u32 (Z.land ret 0x0fffffff + map_start_addr))
    else mret ret
  else
    order ← lift_res (cal_order fuel (s32 arg));
    ret ← (if order =? MAX_ORDER - 1 then ask low else mret 0);
    ret ← (if ret =? 0 then take_block order else mret ret);
    if negb (ret =? 0) then
      e ← record_insert (Z.lor pli_signature (Z.lor buddy_id order)) ret;
      if negb (e =? 0) then
        _ ← give_block ret order;
        mret 0
      else mret (u32 (Z.land ret 0x0fffffff + map_start_addr))
    else mret ret.

(** [AUTH_IOCQFREE] *)
Definition auth_free (map_start_addr arg : Z) : D Z :=
  let arg := Z.lor (u32 (arg - map_start_addr)) 0x80000000 in
  value ← record_lookup arg;
  if negb (Z.land value 0xff000000 =? pli_signature) then mret 1
  else
    _ ← record_delete arg;
    if Z.land value 0x00ff0000 =? cache_id then mret 0
    else
      let order := Z.land value 0x000000ff in
      _ ← give_block arg order;
      mret 0.

(** [radix_tree_gang_lookup]: the first [n] records from [start] on. *)
Definition gang_lookup (t : gmap Z (Z * Z)) (start : Z) (n : nat) : list (Z * Z) :=
  take n (omap (fun key => t !! key) (filter (fun key => start <= key) (merge_sort Z.le (fst <$> map_to_list t)))).

(** One record in [free_all_memory_allocation]. *)
Definition free_record (p : Z * Z) : D unit :=
  if Z.land (fst p) 0x00ff0000 =? cache_id then record_delete (snd p)
  else if Z.land (fst p) 0x00ff0000 =? driver_id then mret tt
  else
    _ ← give_block (snd p) (Z.land (fst p) 0x000000ff);
    record_delete (snd p).

Fixpoint free_records (l : list (Z * Z)) : D unit :=
  match l with
  | [] => mret tt
  | p :: l => _ ← free_record p; free_records l
  end.

Definition record_number : nat := 10.

(** [start_index] ends as the address of the last record that was seen. *)
Fixpoint free_all_loop (fuel : nat) (start_index : Z) : D unit :=
  s ← get;
  let pRecords := gang_lookup (tree s) start_index record_number in
  _ ← free_records pRecords;
  if negb (length pRecords =? record_number)%nat then mret tt
  else
    match fuel with
    | O => stuck
    | S fuel => free_all_loop fuel (tree_key (default 0 (snd <$> last pRecords)) + 1)
    end.

Definition free_all_memory_allocation : D unit := free_all_loop fuel 0.
End mem.
