(* ===== verification/DvrMemProofs.v ===== *)
(** * Recording memory for drivers and programs: properties *)
From stdpp Require Import base tactics list numbers option gmap.
From Stdlib Require Import ZArith Lia.
From S2P Require Import Prelude Driver Dvr DvrProofs DvrOps DvrTheorems DvrMem.

#[local] Ltac Zify.zify_post_hook ::= Z.div_mod_to_equations.

(** ** Orders *)

Lemma cal_loop_spec num fuel : forall cnt, 0 <= cnt <= 18 -> num <= 2 ^ 30 -> (cnt = 0 \/ 2 ^ (11 + cnt) < num) -> 18 - cnt < Z.of_nat fuel ->
  exists k, cal_loop fuel num cnt (2 ^ (12 + cnt)) = Ret k /\ cnt <= k <= 18 /\ num <= 2 ^ (12 + k) /\ (k = 0 \/ 2 ^ (11 + k) < num).
Proof.
  induction fuel as [|fuel IH]; intros cnt Hc Hn Hl Hf; [lia|]. cbn [cal_loop]. rewrite Z.gtb_ltb. destruct (Z.ltb_spec (2 ^ (12 + cnt)) num) as [Hlt|Hge].
  - assert (cnt < 18). { apply Z.nle_gt. intros Hc'. assert (cnt = 18) as -> by lia. change (2 ^ (12 + 18)) with (2 ^ 30) in Hlt. lia. }
    assert (Es : s32 (Z.shiftl (2 ^ (12 + cnt)) 1) = 2 ^ (12 + (cnt + 1))).
    { rewrite Z.shiftl_mul_pow2 by lia. rewrite <- Z.pow_add_r by lia. replace (12 + cnt + 1) with (12 + (cnt + 1)) by lia.
      pose proof (Z.pow_le_mono_r 2 (12 + (cnt + 1)) 30 ltac:(lia) ltac:(lia)). pose proof (pow_pos (12 + (cnt + 1)) ltac:(lia)).
      unfold s32. rewrite u32_small by (unfold is_u32, W32; lia). destruct (Z.ltb_spec (2 ^ (12 + (cnt + 1))) 2147483648); lia. }
    rewrite Es. destruct (IH (cnt + 1)) as (k & E & Hk & H1 & H2); [lia|done| |lia|].
    + right. by replace (11 + (cnt + 1)) with (12 + cnt) by lia.
    + exists k. split; [done|]. split; [lia|done].
  - exists cnt. split; [done|]. split; [lia|done].
Qed.

(** The smallest order whose block holds [num] bytes. *)
Lemma cal_order_spec fuel num : num <= 2 ^ 30 -> (19 <= fuel)%nat ->
  exists k, cal_order fuel num = Ret k /\ 0 <= k <= 18 /\ num <= 4096 * 2 ^ k /\ (k = 0 \/ 4096 * 2 ^ k < 2 * num).
Proof.
  intros Hn Hf. destruct (cal_loop_spec num fuel 0 ltac:(lia) Hn ltac:(by left) ltac:(lia)) as (k & E & Hk & H1 & H2). exists k. split; [done|]. split; [done|].
  change 4096 with (2 ^ 12). rewrite <- Z.pow_add_r by lia. split; [done|]. destruct H2 as [H2|H2]; [by left|right].
  replace (12 + k) with (11 + k + 1) by lia. rewrite pow_next by lia. lia.
Qed.

(** A request of more than a gigabyte never returns. *)
Lemma cal_order_hangs fuel num : 2 ^ 30 < num < 2 ^ 31 -> cal_order fuel num = OutOfFuel.
Proof.
  intros Hn. assert (H0 : forall fuel cnt, cal_loop fuel num cnt 0 = OutOfFuel).
  { induction fuel0 as [|f IH]; intros cnt; cbn [cal_loop]; rewrite Z.gtb_ltb; destruct (Z.ltb_spec 0 num); [done|lia|apply IH|lia]. }
  assert (Hs : forall n f cnt, Z.of_nat n <= 18 -> cal_loop f num cnt (2 ^ (30 - Z.of_nat n)) = OutOfFuel).
  { induction n as [|n IH]; intros f cnt Hle.
    - change (2 ^ (30 - Z.of_nat 0)) with (2 ^ 30). destruct f as [|f]; cbn [cal_loop]; rewrite Z.gtb_ltb; destruct (Z.ltb_spec (2 ^ 30) num); [done|lia| |lia].
      change (s32 (Z.shiftl (2 ^ 30) 1)) with (- 2 ^ 31). destruct f as [|f]; cbn [cal_loop]; rewrite Z.gtb_ltb; destruct (Z.ltb_spec (- 2 ^ 31) num); [done|lia| |lia].
      change (s32 (Z.shiftl (- 2 ^ 31) 1)) with 0. apply H0.
    - pose proof (Z.pow_le_mono_r 2 (30 - Z.of_nat (S n)) 30 ltac:(lia) ltac:(lia)).
      destruct f as [|f]; cbn [cal_loop]; rewrite Z.gtb_ltb; destruct (Z.ltb_spec (2 ^ (30 - Z.of_nat (S n))) num); [done|lia| |lia].
      replace (s32 (Z.shiftl (2 ^ (30 - Z.of_nat (S n))) 1)) with (2 ^ (30 - Z.of_nat n)); [apply IH; lia|].
      rewrite Z.shiftl_mul_pow2, <- Z.pow_add_r by lia. replace (30 - Z.of_nat (S n) + 1) with (30 - Z.of_nat n) by lia.
      pose proof (Z.pow_le_mono_r 2 (30 - Z.of_nat n) 30 ltac:(lia) ltac:(lia)). pose proof (pow_pos (30 - Z.of_nat n) ltac:(lia)).
      unfold s32. rewrite u32_small by (unfold is_u32, W32; lia). destruct (Z.ltb_spec (2 ^ (30 - Z.of_nat n)) 2147483648); lia. }
  unfold cal_order. rewrite Z.shiftl_1_l. exact (Hs 18%nat fuel 0 ltac:(lia)).
Qed.

(** ** Records *)

(** The word of a record: where the piece is from, and its order. *)
Lemma record_word o id : 0 <= o <= 18 -> id = driver_id \/ id = buddy_id -> let v := Z.lor pli_signature (Z.lor id o) in
  Z.land v 0xff000000 = pli_signature /\ Z.land v 0x00ff0000 = id /\ Z.land v 0x000000ff = o.
Proof.
  intros Ho Hid. assert (H : Forall (fun o => Forall (fun id => let v := Z.lor pli_signature (Z.lor id o) in
    Z.land v 0xff000000 = pli_signature /\ Z.land v 0x00ff0000 = id /\ Z.land v 0x000000ff = o) [driver_id; buddy_id]) (Z.of_nat <$> seq 0 19)).
  { repeat (apply list.Forall_cons; split; [repeat (apply list.Forall_cons; split; [by vm_compute|]); by apply list.Forall_nil|]). by apply list.Forall_nil. }
  rewrite list.Forall_forall in H. specialize (H o). rewrite list.Forall_forall in H. apply H.
  - apply list_elem_of_fmap. exists (Z.to_nat o). split; [lia|]. apply elem_of_seq. lia.
  - destruct Hid as [->| ->]; [left|right; left].
Qed.

Section mem.
Context {zone : Zone} {env : MemEnv}.
#[local] Abbreviation N := spanned_pages.

(** A word in the first 256 megabytes. *)
Definition addr_ok (a : Z) : Prop := 0x80000000 <= a < 0x90000000 /\ a mod 4 = 0.

(** What is relied on: the zone is made of blocks of 16 megabytes inside the first
    256; the page allocator gives the block that has been cleared; other memory is
    not of the zone; there is memory for records. *)
Class ZoneOk : Prop := {
  z_mod : N mod 4096 = 0;
  z_size : 0 <= N;
  z_start : 0 <= zone_start_pfn;
  z_end : zone_start_pfn + N <= 0x10000;
  z_gfp : forall page, gfp_dvr page = page_address page;
  z_low : forall t, low t = 0 \/ addr_ok (low t) /\ page_zone (virt_to_page (low t)) = false;
  z_small : forall t, small_room t = true;
  z_quiet : forall t, signalled t = false
}.

(** ** Addresses *)

Lemma tree_key_eq a : addr_ok a -> tree_key a = (a - 0x80000000) / 4.
Proof.
  intros [Ha _]. unfold tree_key. change 0x0fffffff with (Z.ones 28). rewrite Z.land_ones, Z.shiftr_div_pow2 by lia. change (2 ^ 28) with 268435456. change (2 ^ 2) with 4. lia.
Qed.

Lemma tree_key_inj a b : addr_ok a -> addr_ok b -> tree_key a = tree_key b -> a = b.
Proof. intros Ha Hb. rewrite !tree_key_eq by done. destruct Ha, Hb. lia. Qed.

Section ok.
Context `{Hz : ZoneOk}.

Lemma page_address_ok u : 0 <= u < N -> addr_ok (page_address u).
Proof. intros Hu. destruct Hz. unfold addr_ok, page_address. lia. Qed.

Lemma virt_page u : 0 <= u < N -> virt_to_page (page_address u) = u.
Proof.
  intros Hu. destruct Hz. unfold virt_to_page, page_address. rewrite u32_small by (unfold is_u32, W32; lia). rewrite Z.shiftr_div_pow2 by lia. change (2 ^ 12) with 4096. lia.
Qed.

Lemma block_start u k : block u k -> 0 <= u < N.
Proof. intros ((Hk & Hu & _) & _ & Hn). pose proof (pow_pos k Hk). lia. Qed.

Lemma page_zone_in u : page_zone u = true <-> 0 <= u < N.
Proof. unfold page_zone. rewrite andb_true_iff, Z.leb_le, Z.ltb_lt. lia. Qed.

(** ** The invariant *)

(** The blocks in use are exactly the records of the zone. *)
Record MInv (s : mst) (live : list (Z * Z)) : Prop := {
  m_blocks : RInv (blocks s) live;
  m_sem : sem s = 1;
  m_entry : forall key ty a, tree s !! key = Some (ty, a) -> key = tree_key a /\ addr_ok a /\ Z.land ty 0xff000000 = pli_signature /\
    (page_zone (virt_to_page a) = true -> a = page_address (virt_to_page a) /\ (virt_to_page a, Z.land ty 0xff) ∈ live /\ Z.land ty 0xff0000 <> cache_id);
  m_live : forall u k, (u, k) ∈ live -> exists ty, tree s !! tree_key (page_address u) = Some (ty, page_address u) /\ Z.land ty 0xff = k;
  m_order : forall u k, (u, k) ∈ live -> 1 <= k
}.

Lemma holders_pos v u k live : (u, k) ∈ live -> inside v u k -> (0 < holders v live)%nat.
Proof.
  intros Hin Hv. unfold holders. assert (H : (u, k) ∈ filter (fun b => fst b <= v < fst b + 2 ^ snd b) live) by (apply list_elem_of_filter; done).
  destruct (filter _ live); [by apply not_elem_of_nil in H|cbn; lia].
Qed.

(** Two blocks in use do not start at the same page. *)
Lemma live_unique s l1 u k l2 k' : RInv s (l1 ++ (u, k) :: l2) -> (u, k') ∉ l1 ++ l2.
Proof.
  intros Hr Hin. pose proof Hr as [_ Hl Hp]. specialize (Hp u). unfold accounted in Hp. rewrite holders_middle in Hp. cbn [fst snd] in Hp.
  assert (Hb : block u k) by (apply Hl, elem_of_app; right; left). assert (Hb' : block u k').
  { apply Hl. rewrite elem_of_app in *. rewrite elem_of_cons. tauto. }
  rewrite decide_True in Hp by (apply inside_start, Hb). pose proof (holders_pos u u k' _ Hin (inside_start u k' (proj1 Hb'))). lia.
Qed.

(** A page that is free is not the start of a block in use. *)
Lemma free_not_live s live u k : RInv s live -> freeu s u -> (u, k) ∉ live.
Proof.
  intros [_ Hl Hp] Hf Hin. specialize (Hp u). pose proof (holders_pos u u k _ Hin (inside_start u k (proj1 (Hl _ _ Hin)))).
  unfold accounted in Hp. destruct Hp as [(_ & _ & ?)|[(_ & ? & _)|(_ & _ & ?)]]; [lia|done|lia].
Qed.

(** The tree has no record at a page of the zone that is free. *)
Lemma no_record s live u : MInv s live -> 0 <= u < N -> freeu (blocks s) u -> tree s !! tree_key (page_address u) = None.
Proof.
  intros [Hr _ He _ _] Hu Hf. destruct (tree s !! tree_key (page_address u)) as [[ty a]|] eqn:E; [|done]. exfalso.
  destruct (He _ _ _ E) as (Hk & Ha & _ & Hzn). apply tree_key_inj in Hk; [|by apply page_address_ok|done]. subst a. rewrite virt_page in Hzn by done.
  destruct Hzn as (_ & Hin & _); [by apply page_zone_in|]. by apply (free_not_live _ _ _ _ Hr Hf) in Hin.
Qed.

(** ** Blocks *)

Lemma wp_in_blocks {A} (m : Drv bp A) s (Q : A -> mst -> Prop) : wp m (blocks s) (fun a b => Q a (mkMst b (tree s) (sem s) (now s))) -> wp (in_blocks m) s Q.
Proof. intros (a & b & E & H). eexists _, _. split; [|exact H]. unfold in_blocks. by rewrite E. Qed.

Lemma wp_ask {A} (f : nat -> A) s (Q : A -> mst -> Prop) : Q (f (now s)) (mkMst (blocks s) (tree s) (sem s) (S (now s))) -> wp (ask f) s Q.
Proof. intros H. by eexists _, _. Qed.

Lemma wp_down s (Q : unit -> mst -> Prop) : sem s = 1 -> Q tt (mkMst (blocks s) (tree s) 0 (S (now s))) -> wp down_interruptible s Q.
Proof.
  intros Hs HQ. unfold down_interruptible. apply wp_bind, wp_ask. rewrite z_quiet. apply wp_bind, wp_get. cbn [sem]. rewrite Hs. cbn [Z.leb Z.compare]. by apply wp_modify.
Qed.

Lemma take_block_spec s live order : MInv s live -> 1 <= order <= 18 ->
  wp (take_block order) s (fun ret s' => tree s' = tree s /\ sem s' = 1 /\ (now s <= now s')%nat /\
    ((ret = 0 /\ RInv (blocks s') live) \/
     exists u, ret = page_address u /\ order <= 12 /\ block u order /\ RInv (blocks s') ((u, order) :: live) /\ freeu (blocks s) u)).
Proof.
  intros Hi Ho. pose proof Hi as [Hr Hs _ _ _]. pose proof z_mod as H1. pose proof z_gfp as H5. unfold take_block, start_remap, end_remap, up, MAX_ORDER.
  apply wp_bind, wp_bind, (wp_down s); [done|]. destruct (Z.eqb_spec order 0); [lia|]. destruct (Z.ltb_spec order 13) as [Hlt|Hlt].
  - apply wp_in_blocks. cbn [blocks tree sem now]. apply (wp_mono _ _ _ _ (dvr_alloc_spec (blocks s) order (i_inv _ _ Hr) ltac:(lia))).
    intros [u|] b [Hb H].
    + destruct H as (Hh & Hf & Hf'). rewrite H5, Z.eqb_refl. cbn [negb]. apply wp_bind, wp_ret, wp_bind, wp_modify, wp_ret. cbn [tree sem now blocks].
      split; [done|]. split; [done|]. split; [lia|]. right. exists u. split; [done|]. split; [lia|]. split; [apply Hh|]. split; [by apply (RInv_alloc (blocks s))|].
      apply Hf, inside_start, Hh.
    + destruct H as [-> _]. apply wp_bind, wp_ret, wp_bind, wp_modify, wp_ret. cbn [tree sem now blocks]. split; [done|]. split; [done|]. split; [lia|]. by left.
  - apply wp_ret, wp_bind, wp_ret, wp_bind, wp_modify, wp_ret. cbn [tree sem now blocks]. split; [done|]. split; [done|]. split; [lia|]. by left.
Qed.

Lemma give_block_spec s a order live : sem s = 1 -> RInv (blocks s) live ->
  (page_zone (virt_to_page a) = true -> exists l1 l2, live = l1 ++ (virt_to_page a, order) :: l2) ->
  wp (give_block a order) s (fun _ s' => tree s' = tree s /\ sem s' = 1 /\
    if page_zone (virt_to_page a) then exists l1 l2, live = l1 ++ (virt_to_page a, order) :: l2 /\ RInv (blocks s') (l1 ++ l2) else RInv (blocks s') live).
Proof.
  intros Hs Hr Hl. pose proof z_mod as H1. unfold give_block, up. apply wp_bind, wp_down; [done|]. apply wp_bind, wp_in_blocks. cbn [blocks tree sem now].
  destruct (page_zone (virt_to_page a)) eqn:E.
  - destruct (Hl eq_refl) as (l1 & l2 & ->). apply (wp_mono _ _ _ _ (dvr_free_spec H1 (blocks s) _ order (i_inv _ _ Hr) (live_held _ _ _ _ _ Hr))).
    intros _ b [Hb Hf]. apply wp_modify. cbn [tree sem blocks]. split; [done|]. split; [done|]. exists l1, l2. split; [done|]. by apply (RInv_free (blocks s) l1 (virt_to_page a) order l2).
  - unfold free_dvrbp_memory. rewrite E. cbn [negb]. apply wp_ret, wp_modify. done.
Qed.
End ok.
End mem.
