(* ===== verification/DvrMemOps.v ===== *)
(** * Recording memory for drivers and programs: what each request does *)
From stdpp Require Import base tactics list numbers option gmap.
From Stdlib Require Import ZArith Lia.
From S2P Require Import Prelude Driver Dvr DvrProofs DvrOps DvrTheorems DvrMem DvrMemProofs.

Section ops.
Context {zone : Zone} {env : MemEnv} {Hz : ZoneOk}.
#[local] Abbreviation N := spanned_pages.

(** ** Records come and go *)

Definition in_zone (a : Z) : bool := page_zone (virt_to_page a).

(** The blocks change as a piece at [a] of the order [k] comes or goes. *)
Definition gains (b : bp) (live : list (Z * Z)) (a k : Z) (live' : list (Z * Z)) : Prop :=
  RInv b live' /\ if in_zone a then a = page_address (virt_to_page a) /\ live' = (virt_to_page a, k) :: live else live' = live.

Definition loses (b : bp) (live : list (Z * Z)) (a k : Z) (live' : list (Z * Z)) : Prop :=
  RInv b live' /\ if in_zone a then exists l1 l2, live = l1 ++ (virt_to_page a, k) :: l2 /\ live' = l1 ++ l2 else live' = live.

Lemma MInv_add s live s' live' a ty : MInv s live -> addr_ok a -> tree s !! tree_key a = None -> Z.land ty 0xff000000 = pli_signature ->
  (in_zone a = true -> Z.land ty 0xff0000 <> cache_id /\ 1 <= Z.land ty 0xff) ->
  gains (blocks s') live a (Z.land ty 0xff) live' -> tree s' = <[tree_key a := (ty, a)]> (tree s) -> sem s' = 1 -> MInv s' live'.
Proof.
  intros [_ _ He Hl Ho] Ha Hn Hty Hc [Hr Hg] Ht Hs. unfold in_zone in *. split; [done|done| | |].
  - intros key ty' a' E. rewrite Ht in E. apply lookup_insert_Some in E as [[<- E]|[Hne E]].
    + injection E as <- <-. split; [done|]. split; [done|]. split; [done|]. intros Hzn. rewrite Hzn in Hg, Hc. destruct Hg as [Hg ->]. split; [done|]. split; [left|by apply Hc].
    + destruct (He _ _ _ E) as (H1 & H2 & H3 & H4). split; [done|]. split; [done|]. split; [done|]. intros Hzn. destruct (H4 Hzn) as (H5 & H6 & H7). split; [done|]. split; [|done].
      destruct (page_zone (virt_to_page a)); [destruct Hg as [_ ->]; by right|by subst].
  - intros u k Hin. destruct (page_zone (virt_to_page a)) eqn:Ez.
    + destruct Hg as [Hg ->]. apply elem_of_cons in Hin as [E|Hin].
      * injection E as -> ->. exists ty. rewrite <- Hg, Ht, lookup_insert_eq. done.
      * destruct (Hl _ _ Hin) as (ty' & E & Hk). exists ty'. rewrite Ht, lookup_insert_ne; [done|]. intros Ek. rewrite Ek in Hn. congruence.
    + subst live'. destruct (Hl _ _ Hin) as (ty' & E & Hk). exists ty'. rewrite Ht, lookup_insert_ne; [done|]. intros Ek. rewrite Ek in Hn. congruence.
  - intros u k Hin. destruct (page_zone (virt_to_page a)); [|subst; by apply (Ho u)]. destruct Hg as [_ ->].
    apply elem_of_cons in Hin as [E|Hin]; [injection E as -> ->; by apply Hc|by apply (Ho u)].
Qed.

Lemma MInv_drop s live s' live' a ty : MInv s live -> tree s !! tree_key a = Some (ty, a) -> loses (blocks s') live a (Z.land ty 0xff) live' ->
  tree s' = delete (tree_key a) (tree s) -> sem s' = 1 -> MInv s' live'.
Proof.
  intros [Hr0 _ He Hl Ho] Ea [Hr Hg] Ht Hs. unfold in_zone in *. destruct (He _ _ _ Ea) as (_ & Ha & _ & Hza).
  assert (Hsub : forall b, b ∈ live' -> b ∈ live).
  { intros b Hin. destruct (page_zone (virt_to_page a)); [|by subst]. destruct Hg as (l1 & l2 & -> & ->). rewrite elem_of_app in *. rewrite elem_of_cons. tauto. }
  split; [done|done| | |intros u k Hin; by apply (Ho u), Hsub].
  - intros key ty' a' E. rewrite Ht in E. apply lookup_delete_Some in E as [Hne E]. destruct (He _ _ _ E) as (H1 & H2 & H3 & H4).
    split; [done|]. split; [done|]. split; [done|]. intros Hzn. destruct (H4 Hzn) as (H5 & H6 & H7). split; [done|]. split; [|done].
    destruct (page_zone (virt_to_page a)) eqn:Ez; [|by subst]. destruct Hg as (l1 & l2 & -> & ->). rewrite elem_of_app, elem_of_cons in H6. rewrite elem_of_app.
    destruct H6 as [H6|[H6|H6]]; [by left| |by right]. exfalso. injection H6 as Eu _. destruct (Hza eq_refl) as [Hp _]. apply Hne. rewrite H1, Hp, <- Eu, <- H5. done.
  - intros u k Hin. pose proof (Hsub _ Hin) as Hin'.
    destruct (Hl _ _ Hin') as (ty' & E & Hk). exists ty'. split; [|done]. rewrite Ht, lookup_delete_ne; [done|]. intros Ek.
    pose proof (block_start u k (i_live _ _ Hr0 _ _ Hin')) as Hu. apply tree_key_inj in Ek; [|done|by apply page_address_ok]. subst a. rewrite virt_page in Hg by done.
    rewrite (proj2 (page_zone_in u) Hu) in Hg. destruct Hg as (l1 & l2 & -> & ->). by apply (live_unique _ _ _ _ _ k Hr0) in Hin.
Qed.

(** A piece is known by its address. *)
Lemma record_at s live a ty a' : MInv s live -> addr_ok a -> tree s !! tree_key a = Some (ty, a') -> a' = a.
Proof. intros [_ _ He _ _] Ha E. destruct (He _ _ _ E) as (Hk & Ha' & _). by apply tree_key_inj in Hk. Qed.

Lemma wp_record_insert s ty a (Q : Z -> mst -> Prop) :
  (forall n e, e <> 0 -> Q e (mkMst (blocks s) (tree s) (sem s) n)) ->
  (forall n, tree s !! tree_key a = None -> Q 0 (mkMst (blocks s) (<[tree_key a := (ty, a)]> (tree s)) (sem s) n)) -> wp (record_insert ty a) s Q.
Proof.
  intros Hf Ht. unfold record_insert. apply wp_bind, wp_ask. rewrite z_small. cbn [negb]. apply wp_bind, wp_ask. destruct (tree_room _); cbn [negb]; [|by apply wp_ret, Hf].
  apply wp_bind, wp_get. cbn [tree]. destruct (tree s !! tree_key a) eqn:E; [by apply wp_ret, Hf|]. apply wp_bind, wp_modify, wp_ret. by apply Ht.
Qed.

(** [give_block] of a piece of the zone that is in use, or of one outside. *)
Lemma give_block_loses s a k live : sem s = 1 -> RInv (blocks s) live -> (in_zone a = true -> (virt_to_page a, k) ∈ live) ->
  wp (give_block a k) s (fun _ s' => tree s' = tree s /\ sem s' = 1 /\ exists live', loses (blocks s') live a k live').
Proof.
  intros Hs Hr Hin. apply (wp_mono _ _ _ _ (give_block_spec s a k live Hs Hr (fun E => list_elem_of_split _ _ (Hin E)))).
  intros _ s' (Ht & Hs' & H). split; [done|]. split; [done|]. unfold loses, in_zone. destruct (page_zone _).
  - destruct H as (l1 & l2 & -> & Hr'). exists (l1 ++ l2). split; [done|]. by exists l1, l2.
  - by exists live.
Qed.

Lemma MInv_same s live s' live' : MInv s live -> tree s' = tree s -> sem s' = 1 -> RInv (blocks s') live' -> live' ≡ₚ live -> MInv s' live'.
Proof.
  intros [_ _ He Hl Ho] Ht Hs Hr Hp. split; [done|done| | |intros u k Hin; apply (Ho u); by rewrite <- Hp].
  - intros key ty a E. rewrite Ht in E. destruct (He _ _ _ E) as (H1 & H2 & H3 & H4). split; [done|]. split; [done|]. split; [done|]. intros Hzn. rewrite Hp. by apply H4.
  - intros u k Hin. rewrite Ht. apply Hl. by rewrite <- Hp.
Qed.

(** What is gained can be lost again. *)
Lemma gains_loses b live a k live1 b' live' : gains b live a k live1 -> loses b' live1 a k live' -> live' ≡ₚ live.
Proof.
  intros [_ Hg] [_ Hl]. destruct (in_zone a); [|by subst]. destruct Hg as [_ ->]. destruct Hl as (l1 & l2 & E & ->).
  apply (Permutation_cons_inv (a := (virt_to_page a, k))). by rewrite Permutation_middle, <- E.
Qed.

(** A piece is noted, or given back if it cannot be. *)
Lemma wp_note s live s1 live1 ret order id r (Q : Z -> mst -> Prop) : MInv s live -> tree s1 = tree s -> sem s1 = 1 -> addr_ok ret ->
  id = driver_id \/ id = buddy_id -> 0 <= order <= 18 -> gains (blocks s1) live ret order live1 -> (in_zone ret = true -> 1 <= order) ->
  (forall s' live', MInv s' live' -> tree s' = tree s -> Q 0 s') ->
  (forall s', MInv s' live1 -> tree s !! tree_key ret = None -> tree s' = <[tree_key ret := (Z.lor pli_signature (Z.lor id order), ret)]> (tree s) -> Q r s') ->
  wp (e ← record_insert (Z.lor pli_signature (Z.lor id order)) ret; if negb (e =? 0) then _ ← give_block ret order; mret 0 else mret r) s1 Q.
Proof.
  intros Hi Ht Hs Ha Hid Ho Hg Hpos HF HT. destruct (record_word order id Ho Hid) as (W1 & W2 & W3). apply wp_bind, wp_record_insert.
  - intros n e He. apply Z.eqb_neq in He. rewrite He. cbn [negb]. apply wp_bind.
    apply (wp_mono _ _ _ _ (give_block_loses (mkMst (blocks s1) (tree s1) (sem s1) n) ret order live1 Hs (proj1 Hg)
      ltac:(intros E; destruct Hg as [_ Hg]; rewrite E in Hg; destruct Hg as [_ ->]; left))).
    intros _ s2 (Ht2 & Hs2 & live' & Hl). apply wp_ret. apply (HF s2 live'); [|by rewrite Ht2]. apply (MInv_same s live); [done|by rewrite Ht2|done|apply Hl|].
    by apply (gains_loses (blocks s1) live ret order live1 (blocks s2)).
  - intros n Hn. cbn [Z.eqb negb]. apply wp_ret. rewrite Ht in *. apply HT; [|done|done].
    apply (MInv_add s live _ _ ret (Z.lor pli_signature (Z.lor id order))); [done|done|done|done| |by rewrite W3|done|done].
    intros Ez. rewrite W2, W3. split; [by destruct Hid as [->| ->]|by apply Hpos].
Qed.

(** A block that is taken is a gain. *)
Lemma take_block_gains s live order : MInv s live -> 1 <= order <= 18 ->
  wp (take_block order) s (fun ret s' => tree s' = tree s /\ sem s' = 1 /\
    ((ret = 0 /\ RInv (blocks s') live) \/
     (order <= 12 /\ addr_ok ret /\ in_zone ret = true /\ ret = page_address (virt_to_page ret) /\ block (virt_to_page ret) order /\
      gains (blocks s') live ret order ((virt_to_page ret, order) :: live)))).
Proof.
  intros Hi Ho. apply (wp_mono _ _ _ _ (take_block_spec s live order Hi Ho)). intros ret s' (Ht & Hs & _ & H). split; [done|]. split; [done|].
  destruct H as [[-> H]|(u & -> & Hk & Hb & Hr & _)]; [by left|right]. pose proof (block_start u order Hb) as Hu. unfold gains, in_zone. rewrite !virt_page by done.
  rewrite (proj2 (page_zone_in u) Hu). split; [done|]. split; [by apply page_address_ok|]. done.
Qed.

Lemma addr_ok_nz a : addr_ok a -> (a =? 0) = false.
Proof. intros [H _]. apply Z.eqb_neq. lia. Qed.

(** ** Requests *)

Lemma dvr_free_ok s live a k : MInv s live -> 0 <= k <= 18 -> tree s !! tree_key a = Some (Z.lor pli_signature (Z.lor driver_id k), a) ->
  wp (dvr_free a) s (fun _ s' => (exists live', MInv s' live') /\ tree s' = delete (tree_key a) (tree s)).
Proof.
  intros Hi Hk E. destruct (record_word k driver_id Hk ltac:(by left)) as (W1 & W2 & W3). unfold dvr_free, record_lookup, record_delete.
  apply wp_bind, wp_bind, wp_get, wp_ret. rewrite E. cbn [fst]. rewrite W1, Z.eqb_refl. cbn [negb]. apply wp_bind, wp_modify. rewrite W2, Z.eqb_refl. cbn [negb]. rewrite W3.
  assert (Hin : in_zone a = true -> (virt_to_page a, k) ∈ live).
  { intros Ez. pose proof (m_entry _ _ Hi _ _ _ E) as (_ & _ & _ & H). rewrite W3 in H. by destruct (H Ez) as (_ & ? & _). }
  destruct (Z.eqb_spec k 0) as [->|Hk0].
  - apply wp_ret. split; [|done]. exists live. apply (MInv_drop s live _ live a _ Hi E); [|done|apply Hi]. rewrite W3. split; [apply Hi|].
    destruct (in_zone a); [|done]. by pose proof (m_order _ _ Hi _ _ (Hin eq_refl)).
  - eapply wp_mono; [apply (give_block_loses _ a k live); [apply Hi|apply Hi|done]|]. intros _ s' (Ht & Hs & live' & Hl). cbn [tree] in Ht. split; [|done].
    exists live'. apply (MInv_drop s live _ live' a _ Hi E); [by rewrite W3|done|done].
Qed.

Lemma auth_free_spec s live map_start arg : MInv s live -> 0 <= arg - map_start < 2 ^ 28 -> (arg - map_start) mod 4 = 0 ->
  wp (auth_free map_start arg) s (fun ret s' => (exists live', MInv s' live') /\ let a := 0x80000000 + (arg - map_start) in
    match tree s !! tree_key a with
    | Some _ => ret = 0 /\ tree s' = delete (tree_key a) (tree s)
    | None => ret = 1 /\ s' = s
    end).
Proof.
  intros Hi Hr Hm. unfold auth_free. rewrite u32_small by (unfold is_u32, W32; lia). assert (Ea : Z.lor (arg - map_start) 0x80000000 = 0x80000000 + (arg - map_start)).
  { rewrite Z.lor_comm. apply (lor_shiftl_add 1 31); lia. }
  cbv zeta. rewrite Ea. set (a := 0x80000000 + (arg - map_start)). assert (Ha : addr_ok a) by (unfold addr_ok, a; Z.div_mod_to_equations; lia).
  apply wp_bind. unfold record_lookup. apply wp_bind, wp_get, wp_ret. destruct (tree s !! tree_key a) as [[ty a']|] eqn:E.
  - assert (a' = a) as -> by (by apply (record_at s live a ty a')). pose proof (m_entry _ _ Hi _ _ _ E) as (_ & _ & W1 & Hin). cbn [fst]. rewrite W1, Z.eqb_refl. cbn [negb].
    unfold record_delete. apply wp_bind, wp_modify. destruct (Z.eqb_spec (Z.land ty 0xff0000) cache_id) as [Ec|Ec].
    + apply wp_ret. split; [|done]. exists live. apply (MInv_drop s live _ live a _ Hi E); [|done|apply Hi]. split; [apply Hi|]. unfold in_zone. destruct (page_zone (virt_to_page a)); [|done].
      by destruct (Hin eq_refl) as (_ & _ & ?).
    + apply wp_bind. eapply wp_mono; [apply (give_block_loses _ a (Z.land ty 0xff) live); [apply Hi|apply Hi|]|].
      * intros Ez. by destruct (Hin Ez) as (_ & ? & _).
      * intros _ s' (Ht & Hs & live' & Hl). cbn [tree] in Ht. apply wp_ret. split; [|done]. exists live'. by apply (MInv_drop s live _ live' a _ Hi E).
  - cbn. apply wp_ret. split; [by exists live|done].
Qed.

Variable fuel : nat.
Hypothesis Hfuel : (19 <= fuel)%nat.

(** A request has failed and nothing has changed, or the piece at [a] is new. *)
Definition given (s s' : mst) (id size a order : Z) : Prop :=
  addr_ok a /\ tree s !! tree_key a = None /\ tree s' = <[tree_key a := (Z.lor pli_signature (Z.lor id order), a)]> (tree s) /\
  0 <= order <= 12 /\ size <= 4096 * 2 ^ order /\ (in_zone a = true -> 1 <= order /\ a = page_address (virt_to_page a) /\ block (virt_to_page a) order).

Lemma s32_id x : 0 <= x < 2 ^ 31 -> s32 x = x.
Proof. intros Hx. unfold s32. rewrite u32_small by (unfold is_u32, W32; lia). destruct (Z.ltb_spec x 2147483648); lia. Qed.

(** The request succeeds with [f] of the address, or nothing has changed. *)
Definition answers (f : Z -> Z) (P : mst -> Z -> Prop) (s : mst) (r : Z) (s' : mst) : Prop :=
  (exists live', MInv s' live') /\ ((r = 0 /\ tree s' = tree s) \/ exists a, r = f a /\ P s' a).

Lemma MInv_time s live n : MInv s live -> MInv (mkMst (blocks s) (tree s) (sem s) n) live.
Proof. intros Hi. by apply (MInv_same s live); [|done|apply Hi|apply Hi|]. Qed.

#[local] Abbreviation note id order f ret :=
  (if negb (ret =? 0) then
     e ← record_insert (Z.lor pli_signature (Z.lor id order)) ret;
     if negb (e =? 0) then _ ← give_block ret order; mret 0 else mret (f ret)
   else mret ret).

Lemma wp_given s live s1 live1 id order size ret (f : Z -> Z) : MInv s live -> tree s1 = tree s -> sem s1 = 1 -> addr_ok ret ->
  id = driver_id \/ id = buddy_id -> 0 <= order <= 12 -> size <= 4096 * 2 ^ order -> gains (blocks s1) live ret order live1 ->
  (in_zone ret = true -> 1 <= order /\ ret = page_address (virt_to_page ret) /\ block (virt_to_page ret) order) ->
  wp (note id order f ret) s1 (answers f (fun s' a => exists order, given s s' id size a order) s).
Proof.
  intros Hi Ht Hs Ha Hid Ho Hsz Hg Hzn. rewrite (addr_ok_nz _ Ha). cbn [negb]. apply (wp_note s live _ live1); [done|done|done|done|done|lia|done|by intros Ez; apply Hzn| |].
  - intros s' live' Hi' Ht'. split; [by exists live'|by left].
  - intros s' Hi' Hn Ht'. split; [by eexists|right]. exists ret. split; [done|]. exists order. done.
Qed.

(** A piece of the zone is asked for. *)
Lemma wp_take_given s live id order size (f : Z -> Z) : MInv s live -> id = driver_id \/ id = buddy_id -> 1 <= order <= 18 -> size <= 4096 * 2 ^ order ->
  wp (ret ← take_block order; note id order f ret) s (answers f (fun s' a => exists order, given s s' id size a order) s).
Proof.
  intros Hi Hid Ho Hsz. apply wp_bind, (wp_mono _ _ _ _ (take_block_gains s live order Hi Ho)).
  intros ret s1 (Ht1 & Hs1 & [[-> Hr]|(Hk12 & Ha & Hzn & Hp & Hb & Hg)]).
  - apply wp_ret. split; [|by left]. exists live. by apply (MInv_same s live).
  - apply (wp_given s live s1 ((virt_to_page ret, order) :: live)); [done|done|done|done|done|lia|done|done|]. intros _. split; [lia|done].
Qed.

(** A piece that is not of the zone, or none. *)
Lemma wp_low_given s live n id order size t (f : Z -> Z) : MInv s live -> id = driver_id \/ id = buddy_id -> 0 <= order <= 12 -> size <= 4096 * 2 ^ order ->
  wp (note id order f (low t)) (mkMst (blocks s) (tree s) (sem s) n) (answers f (fun s' a => exists order, given s s' id size a order) s).
Proof.
  intros Hi Hid Ho Hsz. destruct (z_low t) as [->|[Ha Hout]].
  - apply wp_ret. split; [|by left]. exists live. by apply (MInv_time s).
  - apply (wp_given s live _ live); [done|done|apply Hi|done|done|done|done| |unfold in_zone; congruence]. split; [apply Hi|]. unfold in_zone. by rewrite Hout.
Qed.

Lemma dvr_malloc_spec s live size : MInv s live -> 0 <= size <= 2 ^ 30 ->
  wp (dvr_malloc fuel size) s (answers id (fun s' a => exists order, given s s' driver_id size a order) s).
Proof.
  intros Hi Hsz. unfold dvr_malloc. rewrite s32_id by lia. destruct (cal_order_spec fuel size ltac:(lia) Hfuel) as (k & Ek & Hk & Hle & _). apply wp_bind, (wp_lift _ _ k _ Ek).
  destruct (Z.eqb_spec k 0) as [->|Hk0].
  - apply wp_bind, wp_ask. apply (wp_low_given s live _ driver_id 0 size _ id); [done|by left|lia|done].
  - apply (wp_take_given s live driver_id k size id); [done|by left|lia|done].
Qed.

Lemma auth_cache_spec s live n map_start t : MInv s live ->
  wp (if negb (low t =? 0) then
        e ← record_insert (Z.lor pli_signature cache_id) (low t);
        if negb (e =? 0) then mret 0 else mret (u32 (Z.land (low t) 0x0fffffff + map_start))
      else mret (low t)) (mkMst (blocks s) (tree s) (sem s) n)
    (answers (fun a => u32 (Z.land a 0x0fffffff + map_start)) (fun s' a => addr_ok a /\ in_zone a = false /\ tree s !! tree_key a = None /\
      tree s' = <[tree_key a := (Z.lor pli_signature cache_id, a)]> (tree s)) s).
Proof.
  intros Hi. destruct (z_low t) as [->|[Ha Ho]]; [apply wp_ret; split; [exists live; by apply (MInv_time s)|by left]|].
  rewrite (addr_ok_nz _ Ha). cbn [negb]. apply wp_bind, wp_record_insert.
  - intros n' e He. apply Z.eqb_neq in He. rewrite He. apply wp_ret. split; [exists live; by apply (MInv_time s)|by left].
  - intros n' Hn. cbn [Z.eqb negb]. apply wp_ret. split; [|right; by exists (low t)]. exists live.
    apply (MInv_add s live _ _ (low t) (Z.lor pli_signature cache_id)); [done|done|done|done|unfold in_zone; congruence| |done|apply Hi].
    split; [apply Hi|]. unfold in_zone. by rewrite Ho.
Qed.

(** Where the program sees the piece at [a]. *)
Definition mapped (map_start a : Z) : Z := u32 (Z.land a 0x0fffffff + map_start).

Lemma auth_alloc_spec s live map_start arg : MInv s live -> 0 <= arg <= 2 ^ 30 ->
  wp (auth_alloc fuel map_start arg) s (answers (mapped map_start) (fun s' a =>
    if arg <=? max_cache_size then addr_ok a /\ in_zone a = false /\ tree s !! tree_key a = None /\ tree s' = <[tree_key a := (Z.lor pli_signature cache_id, a)]> (tree s)
    else exists order, given s s' buddy_id arg a order) s).
Proof.
  intros Hi Hsz. unfold auth_alloc. destruct (Z.leb_spec arg max_cache_size) as [Hc|Hc].
  - apply wp_bind, wp_ask. destruct (Z.eqb_spec (low (now s)) 0) as [E|E]; apply wp_bind; [apply wp_ask|apply wp_ret]; by apply (auth_cache_spec s live).
  - rewrite s32_id by lia. destruct (cal_order_spec fuel arg ltac:(lia) Hfuel) as (k & Ek & Hk & Hle & _). apply wp_bind, (wp_lift _ _ k _ Ek).
    assert (Hk0 : 1 <= k). { apply Z.nlt_ge. intros Hk0. assert (k = 0) as -> by lia. unfold max_cache_size in Hc. change (Z.shiftl 1 14) with 16384 in Hc. lia. }
    apply wp_bind. unfold MAX_ORDER. destruct (Z.eqb_spec k (13 - 1)) as [->|Hk12].
    + apply wp_ask. destruct (Z.eqb_spec (low (now s)) 0) as [E|E].
      * eapply wp_mono; [apply (wp_take_given _ live buddy_id (13 - 1) arg (mapped map_start)); [by apply (MInv_time s)|by right|lia|done]|]. by intros r s'.
      * apply wp_bind, wp_ret. apply (wp_low_given s live _ buddy_id (13 - 1) arg _ (mapped map_start)); [done|by right|lia|done].
    + apply wp_ret. apply (wp_take_given s live buddy_id k arg (mapped map_start)); [done|by right|lia|done].
Qed.

End ops.
