(* ===== verification/DvrMemAll.v ===== *)
(** * Freeing all memory of a program: [free_all_memory_allocation]

    The records are read in batches of ten while they are being deleted. *)
From stdpp Require Import base tactics list numbers option gmap sorting.
From Stdlib Require Import ZArith Lia.
From S2P Require Import Prelude Driver Dvr DvrProofs DvrOps DvrTheorems DvrMem DvrMemProofs DvrMemOps.

Section all.
Context {zone : Zone} {env : MemEnv} {Hz : ZoneOk}.
#[local] Abbreviation N := spanned_pages.

(** ** Batches *)

Definition keys (t : gmap Z (Z * Z)) : list Z := merge_sort Z.le (fst <$> map_to_list t).
Definition key_of (p : Z * Z) : Z := tree_key (snd p).

Lemma elem_of_keys t key : key ∈ keys t <-> is_Some (t !! key).
Proof.
  unfold keys. rewrite merge_sort_Permutation, list_elem_of_fmap. split.
  - intros ([k p] & -> & Hin). apply elem_of_map_to_list in Hin. by exists p.
  - intros [p Hp]. exists (key, p). split; [done|]. by apply elem_of_map_to_list.
Qed.

Lemma keys_sorted t : StronglySorted Z.le (keys t) /\ NoDup (keys t).
Proof.
  split; [apply StronglySorted_merge_sort; try apply _|]. unfold keys. rewrite merge_sort_Permutation. apply NoDup_fst_map_to_list.
Qed.

Lemma filter_sorted (P : Z -> Prop) `{forall x, Decision (P x)} l : StronglySorted Z.le l -> StronglySorted Z.le (filter P l).
Proof.
  induction 1 as [|x l Hs IH Hx]; [constructor|]. rewrite filter_cons. destruct (decide (P x)); [|done]. constructor; [done|].
  rewrite list.Forall_forall in *. intros y [_ Hy]%list_elem_of_filter. by apply Hx.
Qed.

(** In order and without repetition, the elements up to the last of the first [n]
    are among the first [n]. *)
Lemma take_sorted n l last x : StronglySorted Z.le l -> NoDup l -> list.last (take n l) = Some last -> x ∈ l -> x <= last -> x ∈ take n l.
Proof.
  intros Hs Hd Hl Hx Hle. rewrite <- (take_drop n l) in Hs, Hd, Hx. apply elem_of_app in Hx as [Hx|Hx]; [done|]. exfalso.
  apply last_Some_elem_of in Hl. pose proof (StronglySorted_app_1_elem_of _ _ _ _ _ Hs Hl Hx). apply list.NoDup_app in Hd as (_ & Hd & _).
  assert (x = last) as -> by lia. by apply (Hd last).
Qed.

Section batch.
Variable t : gmap Z (Z * Z).
Hypothesis Hkey : forall key p, t !! key = Some p -> key = key_of p.

Lemma omap_keys l : Forall (fun key => is_Some (t !! key)) l -> key_of <$> omap (fun key => t !! key) l = l.
Proof.
  induction 1 as [|key l [p Hp] _ IH]; [done|]. cbn. rewrite Hp. cbn. rewrite IH. f_equal. symmetry. by apply Hkey.
Qed.

(** A batch: the records at the first keys from [start] on. *)
Lemma gang_keys start n : key_of <$> gang_lookup t start n = take n (filter (fun key => start <= key) (keys t)).
Proof.
  unfold gang_lookup. fold (keys t). rewrite fmap_take, omap_keys; [done|]. apply list.Forall_forall. intros key [_ Hin]%list_elem_of_filter. by apply elem_of_keys.
Qed.

Lemma gang_in start n p : p ∈ gang_lookup t start n -> t !! key_of p = Some p /\ start <= key_of p.
Proof.
  intros Hin. apply elem_of_take in Hin as (i & Hin & _). apply list_elem_of_lookup_2 in Hin. apply list_elem_of_omap in Hin as (key & Hk & Hp).
  apply list_elem_of_filter in Hk as [Hs _]. by rewrite <- (Hkey _ _ Hp).
Qed.

Lemma gang_nodup start n : NoDup (gang_lookup t start n).
Proof.
  apply (NoDup_fmap_1 key_of). rewrite gang_keys. apply (sublist_NoDup _ (keys t)).
  - apply keys_sorted.
  - etrans; [apply sublist_take|apply sublist_filter].
Qed.

Lemma gang_has start n key p : t !! key = Some p -> key ∈ key_of <$> gang_lookup t start n -> p ∈ gang_lookup t start n.
Proof.
  intros Hp Hin. apply list_elem_of_fmap in Hin as (p' & -> & Hin). pose proof (proj1 (gang_in _ _ _ Hin)) as E. rewrite Hp in E. by injection E as ->.
Qed.

(** A batch that is not full has all records from [start] on. *)
Lemma gang_short start n key p : (length (gang_lookup t start n) < n)%nat -> t !! key = Some p -> start <= key -> p ∈ gang_lookup t start n.
Proof.
  intros Hn Hp Hs. apply (gang_has _ _ key); [done|]. rewrite <- (length_fmap key_of) in Hn. rewrite gang_keys in *. rewrite length_take in Hn.
  rewrite take_ge by lia. apply list_elem_of_filter. split; [done|]. apply elem_of_keys. by exists p.
Qed.

(** Any batch has all records up to its last one. *)
Lemma gang_upto start n last key p : list.last (gang_lookup t start n) = Some last -> t !! key = Some p -> start <= key <= key_of last -> p ∈ gang_lookup t start n.
Proof.
  intros Hl Hp Hs. apply (gang_has _ _ key); [done|]. assert (Hl' : list.last (key_of <$> gang_lookup t start n) = Some (key_of last)) by (by rewrite fmap_last, Hl).
  rewrite gang_keys in *. destruct (keys_sorted t) as [Hso Hnd]. apply (take_sorted _ _ (key_of last)); [by apply filter_sorted|by apply list.NoDup_filter|done| |lia].
  apply list_elem_of_filter. split; [lia|]. apply elem_of_keys. by exists p.
Qed.

Lemma gang_below start n last p : list.last (gang_lookup t start n) = Some last -> p ∈ gang_lookup t start n -> key_of p <= key_of last.
Proof.
  intros Hl Hp. apply (list_elem_of_fmap_2 key_of) in Hp. assert (Hl' : list.last (key_of <$> gang_lookup t start n) = Some (key_of last)) by (by rewrite fmap_last, Hl).
  rewrite gang_keys in *. set (l := filter _ (keys t)) in *. assert (Hs : StronglySorted Z.le l) by (apply filter_sorted, keys_sorted).
  rewrite <- (take_drop n l) in Hs. apply StronglySorted_app_1_l in Hs. apply last_Some in Hl' as [l' E]. rewrite E in *.
  apply elem_of_app in Hp as [Hp|Hp%list_elem_of_singleton]; [|lia]. apply (StronglySorted_app_1_elem_of _ _ _ _ _ Hs Hp). by left.
Qed.
End batch.

(** ** Records *)

Definition is_driver (p : Z * Z) : bool := Z.land (fst p) 0xff0000 =? driver_id.

Lemma free_record_spec s live p : MInv s live -> tree s !! key_of p = Some p ->
  wp (free_record p) s (fun _ s' => (exists live', MInv s' live') /\ tree s' = if is_driver p then tree s else delete (key_of p) (tree s)).
Proof.
  destruct p as [ty a]. intros Hi E. unfold free_record, record_delete, is_driver, key_of in *. cbn [fst snd] in *. destruct (m_entry _ _ Hi _ _ _ E) as (_ & _ & _ & Hin).
  destruct (Z.eqb_spec (Z.land ty 0xff0000) cache_id) as [Ec|Hc].
  - rewrite Ec. change (cache_id =? driver_id) with false. apply wp_modify. split; [|done]. exists live. apply (MInv_drop s live _ live a _ Hi E); [|done|apply Hi]. split; [apply Hi|].
    unfold in_zone. destruct (page_zone (virt_to_page a)); [|done]. by destruct (Hin eq_refl) as (_ & _ & ?).
  - destruct (Z.land ty 0xff0000 =? driver_id); [apply wp_ret; split; [by exists live|done]|].
    apply wp_bind. eapply wp_mono; [apply (give_block_loses s a (Z.land ty 0xff) live); [apply Hi|apply Hi|]|].
    + intros Ez. by destruct (Hin Ez) as (_ & ? & _).
    + intros _ s' (Ht & Hs & live' & Hl). apply wp_modify. cbn [tree]. rewrite Ht. split; [|done]. exists live'. apply (MInv_drop s live _ live' a _ Hi E); [done|done|done].
Qed.

(** Those of the records that are kept. *)
Definition only (f : Z * Z -> bool) (o : option (Z * Z)) : option (Z * Z) := p ← o; if f p then Some p else None.

Lemma tree_keyed s live : MInv s live -> forall key p, tree s !! key = Some p -> key = key_of p.
Proof. intros Hi key [ty a] E. by destruct (m_entry _ _ Hi _ _ _ E) as (? & _). Qed.

Lemma free_records_spec l : forall s live, MInv s live -> NoDup l -> (forall p, p ∈ l -> tree s !! key_of p = Some p) ->
  wp (free_records l) s (fun _ s' => (exists live', MInv s' live') /\ forall key, tree s' !! key = only (fun p => is_driver p || negb (bool_decide (p ∈ l))) (tree s !! key)).
Proof.
  induction l as [|p l IH]; intros s live Hi Hd Hl.
  - apply wp_ret. split; [by exists live|]. intros key. destruct (tree s !! key) as [p|]; [|done]. cbn. rewrite bool_decide_eq_false_2 by apply not_elem_of_nil. by rewrite orb_true_r.
  - apply list.NoDup_cons in Hd as [Hp Hd]. cbn [free_records]. apply wp_bind, (wp_mono _ _ _ _ (free_record_spec s live p Hi (Hl p ltac:(left)))).
    intros _ s1 [(live1 & Hi1) Ht1]. assert (Hlook : forall key, tree s1 !! key = only (fun q => is_driver q || negb (bool_decide (q = p))) (tree s !! key)).
    { intros key. rewrite Ht1. destruct (is_driver p) eqn:Ed.
      - destruct (tree s !! key) as [q|]; [|done]. cbn. destruct (bool_decide_reflect (q = p)) as [->|]; [by rewrite Ed|by rewrite orb_true_r].
      - destruct (decide (key = key_of p)) as [->|Hne].
        + rewrite lookup_delete_eq, (Hl p ltac:(left)). cbn. by rewrite Ed, bool_decide_eq_true_2.
        + rewrite lookup_delete_ne by done. destruct (tree s !! key) as [q|] eqn:Eq; [|done]. cbn. rewrite bool_decide_eq_false_2; [by rewrite orb_true_r|].
          intros ->. by apply Hne, (tree_keyed s live). }
    eapply wp_mono; [apply (IH s1 live1 Hi1 Hd)|].
    + intros q Hq. rewrite Hlook, (Hl q ltac:(by right)). cbn. rewrite bool_decide_eq_false_2; [by rewrite orb_true_r|]. by intros ->.
    + intros _ s' [Hi' Ht']. split; [done|]. intros key. rewrite Ht', Hlook. destruct (tree s !! key) as [q|]; [|done]. cbn. destruct (is_driver q) eqn:Ed; cbn; [by rewrite Ed|].
      case_bool_decide as H1; cbn; [rewrite bool_decide_eq_true_2 by (subst; left); done|]. rewrite Ed. cbn. repeat case_bool_decide; cbn; set_solver.
Qed.

(** ** All batches *)

#[local] Arguments gang_lookup : simpl never.
#[local] Arguments record_number : simpl never.

Section loop.
Variable t0 : gmap Z (Z * Z).
Hypothesis H0 : forall key p, t0 !! key = Some p -> key = key_of p.

(** The records below [start] are done. *)
Definition done_below (start : Z) (t : gmap Z (Z * Z)) : Prop := forall key, t !! key = only (fun p => is_driver p || (start <=? key_of p)) (t0 !! key).

#[local] Abbreviation batch t start := (gang_lookup t start record_number).

Lemma done_from start t key p : done_below start t -> t !! key = Some p -> t0 !! key = Some p.
Proof. intros Ht E. rewrite Ht in E. destruct (t0 !! key) as [q|]; [|done]. cbn in E. by destruct (is_driver q || _). Qed.

Lemma done_keyed start t : done_below start t -> forall key p, t !! key = Some p -> key = key_of p.
Proof. intros Ht key p E. by apply H0, (done_from start t). Qed.

(** A record of a program that is not yet freed is at [start] or later. *)
Lemma done_left start t key p : done_below start t -> t !! key = Some p -> is_driver p = false -> start <= key_of p.
Proof.
  intros Ht E Hd. pose proof (done_from _ _ _ _ Ht E) as E0. rewrite Ht, E0 in E. cbn in E. rewrite Hd in E. cbn in E. by destruct (Z.leb_spec start (key_of p)).
Qed.

Lemma batch_last start t (t' : gmap Z (Z * Z)) : done_below start t -> (length (batch t start) < record_number)%nat ->
  (forall key, t' !! key = only (fun p => is_driver p || negb (bool_decide (p ∈ batch t start))) (t !! key)) -> forall key, t' !! key = only is_driver (t0 !! key).
Proof.
  intros Ht Hn Ht' key. rewrite Ht'. destruct (t !! key) as [p|] eqn:E.
  - rewrite (done_from _ _ _ _ Ht E). cbn. destruct (is_driver p) eqn:Ed; [done|]. cbn. rewrite bool_decide_eq_true_2; [done|].
    apply (gang_short _ (done_keyed _ _ Ht) _ _ key); [done|done|]. rewrite (done_keyed _ _ Ht _ _ E). by apply (done_left start t key).
  - cbn. rewrite Ht in E. destruct (t0 !! key) as [p|]; [|done]. cbn in *. by destruct (is_driver p).
Qed.

Lemma batch_next start t (t' : gmap Z (Z * Z)) q : done_below start t -> list.last (batch t start) = Some q ->
  (forall key, t' !! key = only (fun p => is_driver p || negb (bool_decide (p ∈ batch t start))) (t !! key)) -> done_below (key_of q + 1) t'.
Proof.
  intros Ht Hq Ht' key. pose proof (done_keyed _ _ Ht) as Hk. rewrite Ht'. pose proof (proj2 (gang_in _ Hk _ _ _ (last_Some_elem_of _ _ Hq))) as Hs. destruct (t !! key) as [p|] eqn:E.
  - rewrite (done_from _ _ _ _ Ht E). cbn. destruct (is_driver p) eqn:Ed; [done|]. cbn. pose proof (done_left _ _ _ _ Ht E Ed) as Hp. pose proof (Hk _ _ E) as ->.
    destruct (Z.leb_spec (key_of q + 1) (key_of p)) as [Hlt|Hge].
    + rewrite bool_decide_eq_false_2; [done|]. intros Hin. pose proof (gang_below _ Hk _ _ _ _ Hq Hin). lia.
    + rewrite bool_decide_eq_true_2; [done|]. apply (gang_upto _ Hk _ _ q (key_of p)); [done|done|lia].
  - cbn. rewrite Ht in E. destruct (t0 !! key) as [p|]; [|done]. cbn in *. destruct (is_driver p); [done|]. cbn in *.
    destruct (Z.leb_spec start (key_of p)), (Z.leb_spec (key_of q + 1) (key_of p)); (done || lia).
Qed.

(** How many records are at [start] or later. *)
Definition pending (start : Z) : nat := length (filter (fun key => start <= key) (keys t0)).

(** They become fewer. *)
Lemma batch_fewer start t q : done_below start t -> list.last (batch t start) = Some q ->
  (pending (key_of q + 1) < pending start)%nat.
Proof.
  intros Ht Hq. unfold pending. destruct (gang_in _ (done_keyed _ _ Ht) _ _ _ (last_Some_elem_of _ _ Hq)) as [E Hs].
  rewrite <- (list_filter_filter_l (fun key => key_of q + 1 <= key) (fun key => start <= key)) by (intros; lia). apply (length_filter_lt _ _ (key_of q)); [|lia].
  apply list_elem_of_filter. split; [done|]. apply elem_of_keys. exists q. by apply (done_from start t).
Qed.

Lemma free_all_loop_spec fuel : forall s live start, MInv s live -> done_below start (tree s) -> (pending start <= fuel)%nat ->
  wp (free_all_loop fuel start) s (fun _ s' => (exists live', MInv s' live') /\ forall key, tree s' !! key = only is_driver (t0 !! key)).
Proof.
  induction fuel as [|fuel IH]; intros s live start Hi Ht Hf; cbn [free_all_loop]; apply wp_bind, wp_get; apply wp_bind;
    (eapply wp_mono; [apply (free_records_spec _ s live Hi); [apply gang_nodup, (done_keyed _ _ Ht)|intros p Hp; apply (gang_in _ (done_keyed _ _ Ht) _ _ _ Hp)]|]);
    intros _ s' [(live' & Hi') Ht']; (destruct (Nat.eqb_spec (length (batch (tree s) start)) record_number) as [Hn|Hn]; cbn [negb];
      [|apply wp_ret; split; [by exists live'|]; apply (batch_last start (tree s)); [done| |done];
        unfold gang_lookup in *; rewrite length_take in *; lia]);
    (destruct (list.last (batch (tree s) start)) as [q|] eqn:Hq; [|apply last_None in Hq; by rewrite Hq in Hn]); pose proof (batch_fewer start (tree s) q Ht Hq).
  - lia.
  - apply (IH s' live'); [done|by apply (batch_next start (tree s))|]. change (pending (key_of q + 1) <= fuel)%nat. lia.
Qed.
End loop.

(** All memory of the program is freed, and none of drivers. *)
Lemma free_all_spec fuel s live : MInv s live -> (size (tree s) <= fuel)%nat ->
  wp (free_all_memory_allocation fuel) s (fun _ s' => (exists live', MInv s' live') /\ tree s' = filter (fun kp => is_driver (snd kp) = true) (tree s)).
Proof.
  intros Hi Hf. eapply wp_mono; [apply (free_all_loop_spec (tree s) (tree_keyed s live Hi) fuel s live 0 Hi)|].
  - intros key. destruct (tree s !! key) as [[ty a]|] eqn:E; [|done]. cbn. destruct (m_entry _ _ Hi _ _ _ E) as (_ & Ha & _). unfold key_of. cbn [snd]. rewrite tree_key_eq by done.
    destruct Ha as [Ha _]. rewrite (proj2 (Z.leb_le 0 _)); [by rewrite orb_true_r|]. apply Z.div_pos; lia.
  - unfold pending. etrans; [apply length_filter|]. unfold keys. rewrite merge_sort_Permutation, length_fmap, length_map_to_list. done.
  - intros _ s' [Hi' Ht]. split; [done|]. apply map_eq. intros key. rewrite Ht, map_lookup_filter. destruct (tree s !! key) as [p|]; [|done]. cbn. destruct (is_driver p); cbn.
    + by rewrite option_guard_True.
    + by rewrite option_guard_False.
Qed.
End all.
