(* ===== verification/DvrMemTheorems.v ===== *)
(** * Recording memory for drivers and programs: theorems *)
From stdpp Require Import base tactics list numbers option gmap.
From Stdlib Require Import ZArith Lia.
From S2P Require Import Prelude Driver Dvr DvrProofs DvrOps DvrTheorems DvrMem DvrMemProofs DvrMemOps DvrMemAll.

(** ** Sequences of requests *)

(** [Malloc], [Free]: of drivers; the others are of the program. *)
Inductive request := Malloc (size : Z) | Free (a : Z) | Alloc (arg : Z) | Release (arg : Z) | FreeAll.

Section theorems.
Context {zone : Zone} {env : MemEnv}.
#[local] Abbreviation N := spanned_pages.

(** [map_start]: where the program sees the memory. *)
Variable fuel : nat.
Variable map_start : Z.

Definition serve (r : request) : D Z :=
  match r with
  | Malloc size => dvr_malloc fuel size
  | Free a => _ ← dvr_free a; mret 0
  | Alloc arg => auth_alloc fuel map_start arg
  | Release arg => auth_free map_start arg
  | FreeAll => _ ← free_all_memory_allocation fuel; mret 0
  end.

(** Drivers free what they were given; the program may pass any word of what it
    sees. *)
Definition allowed (r : request) (s : mst) : Prop :=
  match r with
  | Malloc size | Alloc size => 0 <= size <= 2 ^ 30
  | Free a => exists order, 0 <= order <= 18 /\ tree s !! tree_key a = Some (Z.lor pli_signature (Z.lor driver_id order), a)
  | Release arg => 0 <= arg - map_start < 2 ^ 28 /\ (arg - map_start) mod 4 = 0
  | FreeAll => (size (tree s) <= fuel)%nat
  end.

Inductive mreach : mst -> Prop :=
  | mreach_init pages b0 b n : init_dvrbp pages b0 = Ret (tt, b) -> mreach (mkMst b ∅ 1 n)
  | mreach_serve s r v s' : mreach s -> allowed r s -> serve r s = Ret (v, s') -> mreach s'.

(** The page [v] is in the piece of the record. *)
Definition holds (v : Z) (p : Z * Z) : Prop := in_zone (snd p) = true /\ inside v (virt_to_page (snd p)) (Z.land (fst p) 0xff).

(** What has become of a request. *)
Definition served (r : request) (s : mst) (v : Z) (s' : mst) : Prop :=
  match r with
  | Malloc size => (v = 0 /\ tree s' = tree s) \/ exists order, given s s' driver_id size v order
  | Free a => tree s' = delete (tree_key a) (tree s)
  | Alloc arg => (v = 0 /\ tree s' = tree s) \/
      exists a, v = mapped map_start a /\
        if arg <=? max_cache_size then addr_ok a /\ in_zone a = false /\ tree s !! tree_key a = None /\ tree s' = <[tree_key a := (Z.lor pli_signature cache_id, a)]> (tree s)
        else exists order, given s s' buddy_id arg a order
  | Release arg =>
      match tree s !! tree_key (0x80000000 + (arg - map_start)) with
      | Some _ => v = 0 /\ tree s' = delete (tree_key (0x80000000 + (arg - map_start))) (tree s)
      | None => v = 1 /\ s' = s
      end
  | FreeAll => tree s' = filter (fun kp => is_driver (snd kp) = true) (tree s)
  end.

Hypothesis Hfuel : (19 <= fuel)%nat.
Context {Hz : ZoneOk}.

Lemma serve_spec s live r : MInv s live -> allowed r s -> wp (serve r) s (fun v s' => (exists live', MInv s' live') /\ served r s v s').
Proof.
  intros Hi Ha. destruct r as [size|a|arg|arg|]; cbn [serve allowed served] in *.
  - apply (wp_mono _ _ _ _ (dvr_malloc_spec fuel Hfuel s live size Hi Ha)). intros v s' [H1 [H2|(a & -> & H2)]]; eauto.
  - destruct Ha as (order & Ho & E). apply wp_bind, (wp_mono _ _ _ _ (dvr_free_ok s live a order Hi Ho E)). intros _ s' H. by apply wp_ret.
  - apply (wp_mono _ _ _ _ (auth_alloc_spec fuel Hfuel s live map_start arg Hi Ha)). intros v s' H. exact H.
  - apply (wp_mono _ _ _ _ (auth_free_spec s live map_start arg Hi (proj1 Ha) (proj2 Ha))). intros v s' H. exact H.
  - apply wp_bind, (wp_mono _ _ _ _ (free_all_spec fuel s live Hi Ha)). intros _ s' H. by apply wp_ret.
Qed.

Lemma mreach_inv s : mreach s -> exists live, MInv s live.
Proof.
  induction 1 as [pages b0 b n E|s r v s' _ [live IH] Ha E].
  - exists []. split; [|done|intros key ty a Ek; cbn [tree] in Ek; by rewrite lookup_empty in Ek|intros u k Hin; by apply not_elem_of_nil in Hin|intros u k Hin; by apply not_elem_of_nil in Hin].
    apply (dvr_reached_inv z_mod z_size pages). by apply (reached_init pages b0).
  - destruct (serve_spec s live r IH Ha) as (v' & s2 & E2 & H & _). rewrite E in E2. by injection E2 as <- <-.
Qed.

Lemma no_holders s live v : MInv s live -> holders v live = 0%nat -> forall key p, tree s !! key = Some p -> ~ holds v p.
Proof.
  intros Hi H key [ty a] E [Hzn Hv]. destruct (m_entry _ _ Hi _ _ _ E) as (_ & _ & _ & Hin). destruct (Hin Hzn) as (_ & Hl & _). pose proof (holders_pos v _ _ _ Hl Hv). lia.
Qed.

Lemma one_holder s live v : MInv s live -> holders v live = 1%nat ->
  exists key p, tree s !! key = Some p /\ holds v p /\ forall key' p', tree s !! key' = Some p' -> holds v p' -> key' = key.
Proof.
  intros Hi H. destruct (filter (fun b => fst b <= v < fst b + 2 ^ snd b) live) as [|[u k] l] eqn:Ef; [unfold holders in H; by rewrite Ef in H|].
  assert (Hu : (u, k) ∈ filter (fun b => fst b <= v < fst b + 2 ^ snd b) live) by (rewrite Ef; left). apply list_elem_of_filter in Hu as [Hv Hu]. cbn [fst snd] in Hv.
  destruct (m_live _ _ Hi u k Hu) as (ty & E & Hk). pose proof (block_start u k (i_live _ _ (m_blocks _ _ Hi) u k Hu)) as Hn.
  exists (tree_key (page_address u)), (ty, page_address u). split; [done|]. split.
  - unfold holds, in_zone. cbn [fst snd]. rewrite virt_page, Hk by done. split; [by apply page_zone_in|done].
  - intros key' [ty' a'] E' [Hz' Hv']. destruct (m_entry _ _ Hi _ _ _ E') as (-> & _ & _ & Hin). destruct (Hin Hz') as (Ea & Hl & _). cbn [fst snd] in *. f_equal. rewrite Ea. f_equal.
    destruct (list_elem_of_split _ _ Hu) as (l1 & l2 & ->). rewrite holders_middle in H. cbn [fst snd] in H. rewrite decide_True in H by done.
    rewrite elem_of_app, elem_of_cons in Hl. destruct (decide (virt_to_page a' = u)) as [|Hne]; [done|exfalso].
    assert (Hl' : (virt_to_page a', Z.land ty' 255) ∈ l1 ++ l2). { rewrite elem_of_app. destruct Hl as [?|[E2|?]]; [by left|by injection E2|by right]. }
    pose proof (holders_pos v _ _ _ Hl' Hv'). lia.
Qed.

(** C17: After any sequence of requests of drivers and of the program, whatever
    memory runs out on the way: every page of the zone that is not reserved is
    free or is in the piece of exactly one record, reserved pages are neither free
    nor in a piece, and every further request that is allowed returns.  So pieces
    of the zone never overlap, and no page is lost. *)
Theorem mem_accounted s : mreach s ->
  (forall v, (usable v /\ freeu (blocks s) v /\ forall key p, tree s !! key = Some p -> ~ holds v p) \/
     (usable v /\ ~ freeu (blocks s) v /\ exists key p, tree s !! key = Some p /\ holds v p /\ forall key' p', tree s !! key' = Some p' -> holds v p' -> key' = key) \/
     (~ usable v /\ ~ freeu (blocks s) v /\ forall key p, tree s !! key = Some p -> ~ holds v p)) /\
  sem s = 1 /\ forall r, allowed r s -> exists v s', serve r s = Ret (v, s').
Proof.
  intros Hm. destruct (mreach_inv s Hm) as [live Hi]. split; [|split; [apply Hi|]].
  - intros v. destruct (i_pages _ _ (m_blocks _ _ Hi) v) as [(H1 & H2 & H3)|[(H1 & H2 & H3)|(H1 & H2 & H3)]].
    + left. split; [done|]. split; [done|]. by apply (no_holders s live).
    + right. left. split; [done|]. split; [done|]. by apply (one_holder s live).
    + right. right. split; [done|]. split; [done|]. by apply (no_holders s live).
  - intros r Ha. destruct (serve_spec s live r Hi Ha) as (v & s' & E & _). eauto.
Qed.

(** C18: What each request does.  A piece that is given is new (no record has its
    address), has the size that was asked for, is noted with its order, and a piece
    of the zone is an aligned block of pages; a request for one that fails changes
    no record.  A piece that is freed loses its record and nothing else changes; a
    wrong address changes nothing.  Freeing all memory of the program, in batches
    of ten records, ends and deletes exactly the records that are not of drivers. *)
Theorem mem_serve s r : mreach s -> allowed r s -> exists v s', serve r s = Ret (v, s') /\ served r s v s'.
Proof.
  intros Hm Ha. destruct (mreach_inv s Hm) as [live Hi]. destruct (serve_spec s live r Hi Ha) as (v & s' & E & _ & H). eauto.
Qed.
End theorems.

(** ** A concrete machine *)

(** 16 megabytes from the 64th on; other memory is from page 0 on. *)
Definition quiet (sig : bool) : MemEnv := {|
  zone_start_pfn := 0x4000;
  small_room := fun _ => true;
  tree_room := fun _ => true;
  low := fun t => 0x80000000 + 4096 * (Z.of_nat t mod 16384);
  gfp_dvr := fun page => 0x80000000 + 4096 * (0x4000 + page);
  signalled := fun _ => sig
|}.

Lemma quiet_ok : @ZoneOk zone16 (quiet false).
Proof.
  split; try done; try (cbn; lia). intros t. right. cbn [low quiet]. pose proof (Z.mod_pos_bound (Z.of_nat t) 16384 ltac:(lia)) as Hb.
  split; [unfold addr_ok; Z.div_mod_to_equations; lia|]. unfold page_zone, virt_to_page. cbn [zone_start_pfn quiet].
  rewrite u32_small by (unfold is_u32, W32; lia). rewrite Z.shiftr_div_pow2 by lia. change (2 ^ 12) with 4096.
  destruct (Z.leb_spec 0 ((0x80000000 + 4096 * (Z.of_nat t mod 16384) - 0x80000000) / 4096 - 0x4000)); [Z.div_mod_to_equations; lia|done].
Qed.

Definition fresh : mst := mkMst ready ∅ 1 0.
Definition after {A} (m : res (A * mst)) : mst := match m with Ret (_, s) => s | _ => fresh end.

(** A driver has 32 kilobytes, the program has 32 kilobytes and some bytes. *)
Definition machine (r : request) : D Z := @serve zone16 (quiet false) 20 0x40000000 r.
Definition m1 : mst := after (machine (Malloc 32768) fresh).
Definition m2 : mst := after (machine (Alloc 32768) m1).
Definition m3 : mst := after (machine (Alloc 100) m2).

Lemma m3_reached : @mreach zone16 (quiet false) 20 0x40000000 m3.
Proof.
  apply (@mreach_serve zone16 (quiet false) 20 _ m2 (Alloc 100) (0x40000000 + 4096 * 6)); [|cbn; lia|vm_compute; reflexivity].
  apply (@mreach_serve zone16 (quiet false) 20 _ m1 (Alloc 32768) 0x44108000); [|cbn; lia|vm_compute; reflexivity].
  apply (@mreach_serve zone16 (quiet false) 20 _ fresh (Malloc 32768) 0x84100000); [|cbn; lia|vm_compute; reflexivity].
  apply (@mreach_init zone16 (quiet false) 20 _ [] nothing ready 0). vm_compute. reflexivity.
Qed.

Lemma mem_accounted_witness : sem m3 = 1 /\ exists v s', machine FreeAll m3 = Ret (v, s').
Proof.
  destruct (@mem_accounted zone16 (quiet false) 20 0x40000000 ltac:(lia) quiet_ok m3 m3_reached) as (_ & H1 & H2). split; [exact H1|].
  apply (H2 FreeAll). vm_compute. lia.
Defined.

Lemma mem_serve_witness : exists v s', machine (Release 0x44108000) m3 = Ret (v, s') /\ v = 0.
Proof.
  destruct (@mem_serve zone16 (quiet false) 20 0x40000000 ltac:(lia) quiet_ok m3 (Release 0x44108000) m3_reached ltac:(split; [lia|reflexivity])) as (v & s' & E & H).
  exists v, s'. split; [exact E|]. vm_compute in E. injection E as <- _. reflexivity.
Defined.

(** ** Defects *)

(** The program can free memory of a driver; the driver then stops the machine. *)
Theorem mem_release_driver : exists s, machine (Release 0x44100000) m3 = Ret (0, s) /\ machine (Free 0x84100000) s = Fault.
Proof. eexists. split; [vm_compute; reflexivity|]. vm_compute. reflexivity. Qed.

(** The upper bits of an address are not looked at when its record is sought, but
    when its page is: the record is lost, and the pages stay in use. *)
Theorem mem_release_alias : exists s, machine (Release 0x54108000) m3 = Ret (0, s) /\ tree s !! tree_key 0x84108000 = None /\ blocks s = blocks m3.
Proof. eexists. split; [vm_compute; reflexivity|]. split; vm_compute; reflexivity. Qed.

(** A signal while the semaphore is waited for: it is released without having been
    taken, and two processes can have it from then on. *)
Theorem mem_signal : exists v s, @serve zone16 (quiet true) 20 0x40000000 (Malloc 32768) fresh = Ret (v, s) /\ sem s = 2.
Proof. eexists _, _. split; [vm_compute; reflexivity|reflexivity]. Qed.

(** A request of 2 gigabytes or more counts as negative: the program gets the
    first page of the zone, which stays free. *)
Definition zone_all : Zone := {| spanned_pages := 4096; PageReserved := fun _ => false |}.
Definition ready_all : bp := final (@init_dvrbp zone_all [] nothing).

Theorem mem_alloc_huge : exists s, @auth_alloc zone_all (quiet false) 20 0x40000000 0x80000000 (mkMst ready_all ∅ 1 0) = Ret (0x44000000, s) /\ blocks s = ready_all.
Proof. eexists. split; [vm_compute; reflexivity|reflexivity]. Qed.
