(* ===== verification/I2c.v ===== *)
(** * I2C adapter: [drivers/i2c/busses/i2c-venus-priv.c]

    The adapter has a controller with FIFOs that works on interrupts, and a second
    way of transfer in which the driver moves the two lines of the bus itself, as
    general purpose pins ("g2c").  This file has the registers and the pins, the
    set-up, and the second way; [I2cHw] has the controller.

    The lines are open drain: a line is low if the adapter or another device pulls
    it low.  The other devices are a state that sees the levels that the adapter
    leaves the lines at, after each write of a register and during each delay. *)
From stdpp Require Import base tactics list numbers option gmap.
From Stdlib Require Import ZArith Lia.
From S2P Require Import Prelude Driver.

(** ** Surroundings *)

(** [other_scl], [other_sda]: the other devices leave the line alone.  [reads]:
    answers of the registers that hardware changes; [slip]: jiffies that a delay
    takes beyond its least; [arrivals]: interrupts while a transfer is waited for.
    The time of a question is the number of questions so far. *)
Class I2cEnv := {
  other : Type;
  other_scl : other -> bool;
  other_sda : other -> bool;
  other_moves : bool -> bool -> other -> other;
  reads : nat -> Z -> Z;
  slip : nat -> Z;
  arrivals : nat -> nat;
  is_jupiter_cpu : bool;
  irq_free : bool
}.

(** ** Registers *)

Definition MUX_PAD0 : Z := 0xb8000350.
Definition I2C0_LOC_MASK : Z := Z.shiftl 3 18.
Definition I2C0_LOC_QFPA_BGA : Z := 0.
Definition I2C0_LOC_QFPB : Z := Z.shiftl 1 18.
Definition I2C1_LOC_MASK : Z := Z.shiftl 3 20.
Definition I2C1_LOC_MUX_PCI : Z := 0.
Definition I2C1_LOC_MUX_UR0 : Z := Z.shiftl 1 18.
Definition MUX_PAD3 : Z := 0xb800035c.
Definition I2C0_MASK : Z := Z.shiftl 3 4.
Definition I2C0_SDA_SCL : Z := 0.
Definition I2C0_GP4_GP5 : Z := Z.shiftl 1 4.
Definition I2C1_MASK : Z := 3.
Definition I2C1_SDA_SCL : Z := 2.
Definition I2C1_GP0_GP1 : Z := 1.
Definition MUX_PAD5 : Z := 0xb8000364.
Definition PCI_MUX1_MASK : Z := Z.shiftl 3 2.
Definition PCI_MUX1_GPIO : Z := Z.shiftl 1 2.
Definition PCI_MUX1_I2C1 : Z := Z.shiftl 2 2.
Definition MIS_ISR : Z := 0xb801b00c.

Definition GPIO_COUNT : Z := 128.
Definition MIS_GP0DIR : Z := 0xb801b100.
Definition MIS_GP0DATO : Z := 0xb801b110.
Definition MIS_GP0DATI : Z := 0xb801b120.
Definition MIS_GP0IE : Z := 0xb801b130.
Definition GPIO_MASK (x : Z) : Z := Z.shiftl 1 (Z.land x 0x1f).
Definition GPIO_GROUP (x : Z) : Z := Z.shiftr x 5.

(** A register of one of the two controllers. *)
Definition ic (offset i : Z) : Z := (if i =? 0 then 0xb801b300 else 0xb801bb00) + offset.
Definition IC_CON : Z -> Z := ic 0x00.
Definition IC_TAR : Z -> Z := ic 0x04.
Definition IC_SAR : Z -> Z := ic 0x08.
Definition IC_DATA_CMD : Z -> Z := ic 0x10.
Definition IC_SS_SCL_HCNT : Z -> Z := ic 0x14.
Definition IC_SS_SCL_LCNT : Z -> Z := ic 0x18.
Definition IC_INTR_STAT : Z -> Z := ic 0x2c.
Definition IC_INTR_MASK : Z -> Z := ic 0x30.
Definition IC_RX_TL : Z -> Z := ic 0x38.
Definition IC_TX_TL : Z -> Z := ic 0x3c.
Definition IC_CLR_INTR : Z -> Z := ic 0x40.
Definition IC_ENABLE : Z -> Z := ic 0x6c.
Definition IC_STATUS : Z -> Z := ic 0x70.
Definition IC_RXFLR : Z -> Z := ic 0x78.
Definition IC_TX_ABRT_SOURCE : Z -> Z := ic 0x80.
Definition IC_COMP_PARAM_1 : Z -> Z := ic 0xf4.

Definition IC_SLAVE_DISABLE : Z := 0x40.
Definition IC_RESTART_EN : Z := 0x20.
Definition IC_10BITADDR_MASTER : Z := 0x10.
Definition IC_10BITADDR_SLAVE : Z := 0x08.
Definition IC_MASTER_MODE : Z := 0x01.
Definition IC_SPEED : Z := 0x06.
Definition SPEED_SS : Z := 0x02.
Definition FIFO_THRESHOLD : Z := 4.

(** ** State *)

Definition ADDR_MODE_7BITS : Z := 7.
Definition ADDR_MODE_10BITS : Z := 10.
Definition ECMDSPLIT : Z := 40.
Definition ETXABORT : Z := 41.
Definition ETIMEOUT : Z := 42.
Definition EILLEGALMSG : Z := 43.
Definition EADDROVERRANGE : Z := 44.
Definition ENODEV : Z := 19.
Definition HZ : Z := 100.

Definition I2C_IDEL : Z := 0.
Definition I2C_MASTER_READ : Z := 1.
Definition I2C_MASTER_WRITE : Z := 2.
Definition I2C_MASTER_RANDOM_READ : Z := 3.
Definition I2C_NO_STOP : Z := 1.
Definition G2C_WAIT_TIMEOUT : Z := 3.

Record venus_i2c_xfer := mkXfer {
  mode : Z; flags : Z;
  tx_buff : list Z; tx_buff_len : Z; tx_len : Z;
  rx_buff : list Z; rx_buff_len : Z; rx_len : Z;
  timeout : Z; xret : Z; tx_abort_source : Z;
  complete : Z; timer : bool;
  gpio_wait_time : Z; gpio_xfer_state : Z; gpio_xfer_sub_state : Z
}.

Record gpio_pins := mkPins { scl : Z; sda : Z; muxpad : Z; muxpad_mask : Z; muxpad_gpio : Z; muxpad_i2c : Z }.

Record venus_i2c := mkDev {
  id : Z; spd : Z; tick : Z; sar : Z; sar_mode : Z; tar : Z; tar_mode : Z;
  gpio_map : gpio_pins; rx_fifo_depth : Z; tx_fifo_depth : Z; time_stamp : Z;
  xfer : venus_i2c_xfer
}.

Section i2c.
Context {env : I2cEnv}.

(** [fifo]: the words written to the data registers, a history. *)
Record i2c_st := mkI2c { regs : gmap Z Z; p_this : venus_i2c; bus : other; jiffies : Z; now : nat; fifo : list Z }.

Abbreviation D := (Drv i2c_st).

Definition set_regs (f : gmap Z Z -> gmap Z Z) (s : i2c_st) : i2c_st := mkI2c (f (regs s)) (p_this s) (bus s) (jiffies s) (now s) (fifo s).
Definition set_bus (f : other -> other) (s : i2c_st) : i2c_st := mkI2c (regs s) (p_this s) (f (bus s)) (jiffies s) (now s) (fifo s).
Definition set_dev (f : venus_i2c -> venus_i2c) (s : i2c_st) : i2c_st := mkI2c (regs s) (f (p_this s)) (bus s) (jiffies s) (now s) (fifo s).

Definition upd_xfer (f : venus_i2c_xfer -> venus_i2c_xfer) : D unit :=
  modify (set_dev (fun d => mkDev (id d) (spd d) (tick d) (sar d) (sar_mode d) (tar d) (tar_mode d) (gpio_map d) (rx_fifo_depth d) (tx_fifo_depth d) (time_stamp d) (f (xfer d)))).

Definition set_mode (v : Z) : D unit := upd_xfer (fun x => mkXfer v (flags x) (tx_buff x) (tx_buff_len x) (tx_len x) (rx_buff x) (rx_buff_len x) (rx_len x) (timeout x) (xret x) (tx_abort_source x) (complete x) (timer x) (gpio_wait_time x) (gpio_xfer_state x) (gpio_xfer_sub_state x)).
Definition set_tx_len (f : Z -> Z) : D unit := upd_xfer (fun x => mkXfer (mode x) (flags x) (tx_buff x) (tx_buff_len x) (f (tx_len x)) (rx_buff x) (rx_buff_len x) (rx_len x) (timeout x) (xret x) (tx_abort_source x) (complete x) (timer x) (gpio_wait_time x) (gpio_xfer_state x) (gpio_xfer_sub_state x)).
Definition set_rx_buff (v : list Z) : D unit := upd_xfer (fun x => mkXfer (mode x) (flags x) (tx_buff x) (tx_buff_len x) (tx_len x) v (rx_buff_len x) (rx_len x) (timeout x) (xret x) (tx_abort_source x) (complete x) (timer x) (gpio_wait_time x) (gpio_xfer_state x) (gpio_xfer_sub_state x)).
Definition set_rx_len (f : Z -> Z) : D unit := upd_xfer (fun x => mkXfer (mode x) (flags x) (tx_buff x) (tx_buff_len x) (tx_len x) (rx_buff x) (rx_buff_len x) (f (rx_len x)) (timeout x) (xret x) (tx_abort_source x) (complete x) (timer x) (gpio_wait_time x) (gpio_xfer_state x) (gpio_xfer_sub_state x)).
Definition set_timeout (v : Z) : D unit := upd_xfer (fun x => mkXfer (mode x) (flags x) (tx_buff x) (tx_buff_len x) (tx_len x) (rx_buff x) (rx_buff_len x) (rx_len x) v (xret x) (tx_abort_source x) (complete x) (timer x) (gpio_wait_time x) (gpio_xfer_state x) (gpio_xfer_sub_state x)).
Definition set_ret (v : Z) : D unit := upd_xfer (fun x => mkXfer (mode x) (flags x) (tx_buff x) (tx_buff_len x) (tx_len x) (rx_buff x) (rx_buff_len x) (rx_len x) (timeout x) v (tx_abort_source x) (complete x) (timer x) (gpio_wait_time x) (gpio_xfer_state x) (gpio_xfer_sub_state x)).
Definition set_abort_source (v : Z) : D unit := upd_xfer (fun x => mkXfer (mode x) (flags x) (tx_buff x) (tx_buff_len x) (tx_len x) (rx_buff x) (rx_buff_len x) (rx_len x) (timeout x) (xret x) v (complete x) (timer x) (gpio_wait_time x) (gpio_xfer_state x) (gpio_xfer_sub_state x)).
Definition set_complete (f : Z -> Z) : D unit := upd_xfer (fun x => mkXfer (mode x) (flags x) (tx_buff x) (tx_buff_len x) (tx_len x) (rx_buff x) (rx_buff_len x) (rx_len x) (timeout x) (xret x) (tx_abort_source x) (f (complete x)) (timer x) (gpio_wait_time x) (gpio_xfer_state x) (gpio_xfer_sub_state x)).
Definition set_timer (v : bool) : D unit := upd_xfer (fun x => mkXfer (mode x) (flags x) (tx_buff x) (tx_buff_len x) (tx_len x) (rx_buff x) (rx_buff_len x) (rx_len x) (timeout x) (xret x) (tx_abort_source x) (complete x) v (gpio_wait_time x) (gpio_xfer_state x) (gpio_xfer_sub_state x)).
Definition set_wait_time (f : Z -> Z) : D unit := upd_xfer (fun x => mkXfer (mode x) (flags x) (tx_buff x) (tx_buff_len x) (tx_len x) (rx_buff x) (rx_buff_len x) (rx_len x) (timeout x) (xret x) (tx_abort_source x) (complete x) (timer x) (f (gpio_wait_time x)) (gpio_xfer_state x) (gpio_xfer_sub_state x)).
Definition set_state (f : Z -> Z) (sub : Z) : D unit := upd_xfer (fun x => mkXfer (mode x) (flags x) (tx_buff x) (tx_buff_len x) (tx_len x) (rx_buff x) (rx_buff_len x) (rx_len x) (timeout x) (xret x) (tx_abort_source x) (complete x) (timer x) (gpio_wait_time x) (f (gpio_xfer_state x)) sub).
(** [gpio_xfer_sub_state++] *)
Definition next_sub : D unit := upd_xfer (fun x => mkXfer (mode x) (flags x) (tx_buff x) (tx_buff_len x) (tx_len x) (rx_buff x) (rx_buff_len x) (rx_len x) (timeout x) (xret x) (tx_abort_source x) (complete x) (timer x) (gpio_wait_time x) (gpio_xfer_state x) (u8 (gpio_xfer_sub_state x + 1))).

Definition get_dev : D venus_i2c := s ← get; mret (p_this s).
Definition get_xfer : D venus_i2c_xfer := s ← get; mret (xfer (p_this s)).
Definition get_jiffies : D Z := s ← get; mret (jiffies s).

(** ** The lines *)

Definition reg (s : i2c_st) (a : Z) : Z := default 0 (regs s !! a).

Definition gpio_selected (s : i2c_st) : bool :=
  let m := gpio_map (p_this s) in Z.land (reg s (muxpad m)) (muxpad_mask m) =? muxpad_gpio m.

(** How a pin is driven, if it is. *)
Definition drive (s : i2c_st) (pin : Z) : option bool :=
  if gpio_selected s && Z.testbit (reg s (MIS_GP0DIR + Z.shiftl (GPIO_GROUP pin) 2)) (Z.land pin 0x1f)
  then Some (Z.testbit (reg s (MIS_GP0DATO + Z.shiftl (GPIO_GROUP pin) 2)) (Z.land pin 0x1f))
  else None.

(** The adapter does not pull the line low. *)
Definition level (s : i2c_st) (pin : Z) : bool := default true (drive s pin).

(** What can be read from a line. *)
Definition line (s : i2c_st) (pin : Z) (theirs : bool) : bool := default theirs (drive s pin).

(** The other devices see the lines. *)
Definition look (s : i2c_st) : i2c_st := set_bus (other_moves (level s (scl (gpio_map (p_this s)))) (level s (sda (gpio_map (p_this s))))) s.

(** ** Access to registers *)

Definition with_bit (w n : Z) (b : bool) : Z := if b then Z.setbit w n else Z.clearbit w n.

(** Input pins: the two lines, and pins of other uses. *)
Definition pins (s : i2c_st) (a w : Z) : Z :=
  let m := gpio_map (p_this s) in
  let put pin theirs w := if a =? MIS_GP0DATI + Z.shiftl (GPIO_GROUP pin) 2 then with_bit w (Z.land pin 0x1f) (line s pin theirs) else w in
  put (scl m) (other_scl (bus s)) (put (sda m) (other_sda (bus s)) w).

(** Registers that hardware changes. *)
Definition volatile (a : Z) : bool :=
  existsb (fun r => a =? r) (MIS_ISR :: flat_map (fun i => [IC_STATUS i; IC_DATA_CMD i; IC_RXFLR i; IC_INTR_STAT i; IC_TX_ABRT_SOURCE i; IC_CLR_INTR i; IC_COMP_PARAM_1 i]) [0; 1]).

Definition tick_now (s : i2c_st) : i2c_st := mkI2c (regs s) (p_this s) (bus s) (jiffies s) (S (now s)) (fifo s).

Definition rd_reg (a : Z) : D Z := fun s =>
  if (MIS_GP0DATI <=? a) && (a <? MIS_GP0IE) then Ret (pins s a (u32 (reads (now s) a)), tick_now s)
  else if volatile a then Ret (u32 (reads (now s) a), tick_now s)
  else Ret (reg s a, s).

Definition log_fifo (a v : Z) (s : i2c_st) : i2c_st :=
  if (a =? IC_DATA_CMD 0) || (a =? IC_DATA_CMD 1) then mkI2c (regs s) (p_this s) (bus s) (jiffies s) (now s) (fifo s ++ [v]) else s.

Definition wr_reg (a v : Z) : D unit := fun s => Ret (tt, look (log_fifo a v (set_regs (fun r => <[a := u32 v]> r) s))).

(** Time passes, [n] jiffies at least. *)
Definition pass (n : Z) : D unit := fun s =>
  Ret (tt, look (mkI2c (regs s) (p_this s) (bus s) (u32 (jiffies s + n + slip (now s))) (S (now s)) (fifo s))).

Definition udelay (us : Z) : D unit := pass 0.
Definition msleep (ms : Z) : D unit := pass (ms / 10 + 1).

(** ** Pins *)

Definition venus_gpio_set_ie (id on_off : Z) : D Z :=
  let MIS_GPIE := MIS_GP0IE in
  let GPIO_BIT := GPIO_MASK id in
  if id <? GPIO_COUNT then
    let MIS_GPIE := MIS_GPIE + Z.shiftl (GPIO_GROUP id) 2 in
    v ← rd_reg MIS_GPIE;
    _ ← wr_reg MIS_GPIE (if negb (on_off =? 0) then Z.lor v GPIO_BIT else Z.land v (Z.lnot GPIO_BIT));
    mret 0
  else mret (-1).

Definition venus_gpio_set_dir (id dir : Z) : D Z :=
  let MIS_GPDIR := MIS_GP0DIR in
  let GPIO_BIT := GPIO_MASK id in
  if id <? GPIO_COUNT then
    let MIS_GPDIR := MIS_GPDIR + Z.shiftl (GPIO_GROUP id) 2 in
    v ← rd_reg MIS_GPDIR;
    _ ← wr_reg MIS_GPDIR (if negb (dir =? 0) then Z.lor v GPIO_BIT else Z.land v (Z.lnot GPIO_BIT));
    mret 0
  else mret (-1).

Definition venus_gpio_write (id level : Z) : D Z :=
  let MIS_GPDATO := MIS_GP0DATO in
  let GPIO_BIT := GPIO_MASK id in
  if id <? GPIO_COUNT then
    let MIS_GPDATO := MIS_GPDATO + Z.shiftl (GPIO_GROUP id) 2 in
    v ← rd_reg MIS_GPDATO;
    _ ← wr_reg MIS_GPDATO (if negb (level =? 0) then Z.lor v GPIO_BIT else Z.land v (Z.lnot GPIO_BIT));
    mret 0
  else mret (-1).

Definition venus_gpio_read (id : Z) : D Z :=
  let MIS_GPDATI := MIS_GP0DATI in
  let GPIO_BIT := GPIO_MASK id in
  if id <? GPIO_COUNT then
    let MIS_GPDATI := MIS_GPDATI + Z.shiftl (GPIO_GROUP id) 2 in
    v ← rd_reg MIS_GPDATI;
    mret (if negb (Z.land v GPIO_BIT =? 0) then 1 else 0)
  else mret 0.

Definition I2C_MODE : Z := 0.
Definition GPIO_MODE : Z := 1.

Definition venus_i2c_gpio_selection (mode : Z) : D unit :=
  d ← get_dev;
  let m := gpio_map d in
  val ← rd_reg (muxpad m);
  let val := Z.land val (Z.lnot (muxpad_mask m)) in
  let val := Z.lor val (if mode =? GPIO_MODE then muxpad_gpio m else muxpad_i2c m) in
  wr_reg (muxpad m) val.

(** ** Set-up *)

Definition set_pins (m : gpio_pins) : D unit :=
  modify (set_dev (fun d => mkDev (id d) (spd d) (tick d) (sar d) (sar_mode d) (tar d) (tar_mode d) m (rx_fifo_depth d) (tx_fifo_depth d) (time_stamp d) (xfer d))).

(** Which pins the bus is on. *)
Definition venus_i2c_probe : D Z :=
  d ← get_dev;
  if 2 <=? id d then mret (- ENODEV)
  else if is_jupiter_cpu then
    (if id d =? 0 then set_pins (mkPins 61 62 0xb8000378 (Z.shiftl 0xf 22) 0 (Z.shiftl 5 22))
     else set_pins (mkPins 63 64 0xb8000378 (Z.shiftl 0xf 26) 0 (Z.shiftl 5 26)));;
    mret 0
  else if id d =? 0 then
    loc ← rd_reg MUX_PAD0;
    let loc := Z.land loc I2C0_LOC_MASK in
    if (loc =? I2C0_LOC_QFPA_BGA) || (loc =? I2C0_LOC_QFPB) then
      pad ← rd_reg MUX_PAD3;
      if Z.land pad I2C0_MASK =? I2C0_SDA_SCL then
        set_pins (mkPins 4 5 MUX_PAD3 I2C0_MASK I2C0_GP4_GP5 I2C0_SDA_SCL);;
        mret 0
      else mret (- ENODEV)
    else mret (- ENODEV)
  else
    loc ← rd_reg MUX_PAD0;
    let loc := Z.land loc I2C1_LOC_MASK in
    if loc =? I2C1_LOC_MUX_PCI then
      pad ← rd_reg MUX_PAD5;
      if Z.land pad PCI_MUX1_MASK =? PCI_MUX1_I2C1 then
        set_pins (mkPins 40 41 MUX_PAD5 PCI_MUX1_MASK PCI_MUX1_GPIO PCI_MUX1_I2C1);;
        mret 0
      else mret (- ENODEV)
    else if loc =? I2C1_LOC_MUX_UR0 then
      pad ← rd_reg MUX_PAD3;
      if Z.land pad I2C1_MASK =? I2C1_SDA_SCL then
        set_pins (mkPins 0 1 MUX_PAD3 I2C1_MASK I2C1_GP0_GP1 I2C1_SDA_SCL);;
        mret 0
      else mret (- ENODEV)
    else mret (- ENODEV).

Definition venus_i2c_set_tar (addr m : Z) : D Z :=
  d ← get_dev;
  let i := id d in
  let store := modify (set_dev (fun d => mkDev (id d) (spd d) (tick d) (sar d) (sar_mode d) addr m (gpio_map d) (rx_fifo_depth d) (tx_fifo_depth d) (time_stamp d) (xfer d))) in
  if m =? ADDR_MODE_10BITS then
    if 0x3ff <? addr then mret (- EADDROVERRANGE)
    else
      wr_reg (IC_TAR i) (Z.land addr 0x3ff);;
      c ← rd_reg (IC_CON i);
      wr_reg (IC_CON i) (Z.lor (Z.land c (Z.lnot IC_10BITADDR_MASTER)) IC_10BITADDR_MASTER);;
      store;;
      mret 0
  else
    if 0x7f <? addr then mret (- EADDROVERRANGE)
    else
      wr_reg (IC_TAR i) (Z.land addr 0x7f);;
      c ← rd_reg (IC_CON i);
      wr_reg (IC_CON i) (Z.land c (Z.lnot IC_10BITADDR_MASTER));;
      store;;
      mret 0.

(** The register gets the address that is being replaced. *)
Definition venus_i2c_set_sar (addr m : Z) : D Z :=
  d ← get_dev;
  let i := id d in
  (if m =? ADDR_MODE_10BITS then
     wr_reg (IC_SAR i) (Z.land (sar d) 0x3ff);;
     c ← rd_reg (IC_CON i);
     wr_reg (IC_CON i) (Z.lor (Z.land c (Z.lnot IC_10BITADDR_SLAVE)) IC_10BITADDR_SLAVE)
   else
     wr_reg (IC_SAR i) (Z.land (sar d) 0x7f);;
     c ← rd_reg (IC_CON i);
     wr_reg (IC_CON i) (Z.land c (Z.lnot IC_10BITADDR_SLAVE)));;
  modify (set_dev (fun d => mkDev (id d) (spd d) (tick d) addr m (tar d) (tar_mode d) (gpio_map d) (rx_fifo_depth d) (tx_fifo_depth d) (time_stamp d) (xfer d)));;
  mret 0.

(** The dividers are unsigned. *)
Definition venus_i2c_set_spd (KHz : Z) : D Z :=
  d ← get_dev;
  let i := id d in
  if (KHz <? 10) || (150 <? KHz) then mret (-1)
  else
    let div_h := u32 (0x7a * 100) / KHz in
    let div_l := u32 (0x8f * 100) / KHz in
    if (0xffff <=? div_h) || (div_h =? 0) || (0xffff <=? div_l) || (div_l =? 0) then mret (-1)
    else
      c ← rd_reg (IC_CON i);
      wr_reg (IC_CON i) (Z.lor (Z.land c (Z.lnot IC_SPEED)) SPEED_SS);;
      wr_reg (IC_SS_SCL_HCNT i) div_h;;
      wr_reg (IC_SS_SCL_LCNT i) div_l;;
      modify (set_dev (fun d => mkDev (id d) KHz (1000 / KHz) (sar d) (sar_mode d) (tar d) (tar_mode d) (gpio_map d) (rx_fifo_depth d) (tx_fifo_depth d) (time_stamp d) (xfer d)));;
      mret 0.

(** ** A jammed bus *)

Definition venus_i2c_reset_state : D unit :=
  dv ← get_dev;
  let sda := sda (gpio_map dv) in
  let scl := scl (gpio_map dv) in
  let d := tick dv / 2 in
  venus_gpio_set_ie sda 0;;
  venus_gpio_set_ie scl 0;;
  venus_gpio_write sda 0;;
  venus_gpio_write scl 1;;
  venus_gpio_set_dir sda 1;;
  venus_gpio_set_dir scl 1;;
  venus_i2c_gpio_selection GPIO_MODE;;
  udelay d;;
  venus_i2c_gpio_selection I2C_MODE;;
  venus_gpio_set_dir sda 0;;
  venus_gpio_set_dir scl 0;;
  mret tt.

(** [n] clocks. *)
Fixpoint clocks (n : nat) (scl d : Z) : D unit :=
  match n with
  | O => mret tt
  | S n =>
      venus_gpio_write scl 0;;
      udelay d;;
      venus_gpio_write scl 1;;
      udelay d;;
      clocks n scl d
  end.

Definition venus_i2c_bus_jam_recover : D unit :=
  dv ← get_dev;
  let sda := sda (gpio_map dv) in
  let scl := scl (gpio_map dv) in
  let d := tick dv / 2 in
  venus_gpio_set_ie sda 0;;
  venus_gpio_set_ie scl 0;;
  venus_gpio_write sda 0;;
  venus_gpio_write scl 0;;
  venus_gpio_set_dir sda 1;;
  venus_gpio_set_dir scl 1;;
  venus_i2c_gpio_selection GPIO_MODE;;
  udelay 10;;
  venus_gpio_write scl 1;;
  udelay 10;;
  venus_gpio_write sda 1;;
  udelay 10;;
  venus_gpio_set_dir sda 0;;
  clocks 9 scl d;;
  venus_gpio_set_dir scl 0;;
  venus_i2c_gpio_selection I2C_MODE.

(** Up to [n] looks at the lines; 0 if both are high at one of them. *)
Fixpoint jam_loop (n : nat) (sda scl : Z) : D Z :=
  match n with
  | O => mret 1
  | S n =>
      a ← venus_gpio_read sda;
      b ← (if negb (a =? 0) then venus_gpio_read scl else mret 0);
      if negb (a =? 0) && negb (b =? 0) then mret 0
      else
        msleep 1;;
        jam_loop n sda scl
  end.

Definition venus_i2c_bus_jam_detect : D Z :=
  dv ← get_dev;
  let sda := sda (gpio_map dv) in
  let scl := scl (gpio_map dv) in
  venus_gpio_set_ie sda 0;;
  venus_gpio_set_ie scl 0;;
  venus_gpio_set_dir sda 0;;
  venus_gpio_set_dir scl 0;;
  venus_i2c_gpio_selection GPIO_MODE;;
  ret ← jam_loop 30 sda scl;
  (if negb (ret =? 0) then venus_gpio_read sda;; venus_gpio_read scl;; mret tt else mret tt);;
  venus_i2c_gpio_selection I2C_MODE;;
  mret ret.

(** [do ... while (i++ < 3)]: four turns at most. *)
Fixpoint recover_loop (n : nat) : D unit :=
  match n with
  | O => mret tt
  | S n =>
      venus_i2c_bus_jam_recover;;
      msleep 200;;
      r ← venus_i2c_bus_jam_detect;
      if r =? 0 then mret tt else recover_loop n
  end.
Definition venus_i2c_bus_jam_recover_proc : D unit := recover_loop 4.

(** After a transfer that has timed out. *)
Definition after_timeout : D unit :=
  jam ← venus_i2c_bus_jam_detect;
  (if negb (jam =? 0) then venus_i2c_bus_jam_recover_proc;; msleep 50 else mret tt);;
  venus_i2c_reset_state.

Definition venus_i2c_init : D Z :=
  d ← get_dev;
  let i := id d in
  p ← venus_i2c_probe;
  if p <? 0 then mret (- ENODEV)
  else if negb irq_free then mret (- ENODEV)
  else
    a ← rd_reg (IC_COMP_PARAM_1 i);
    b ← rd_reg (IC_COMP_PARAM_1 i);
    let rx := u8 (Z.land (Z.shiftr a 8) 0xff + 1) in
    let tx := u8 (Z.land (Z.shiftr b 16) 0xff + 1) in
    modify (set_dev (fun d => mkDev (id d) (spd d) (tick d) (sar d) (sar_mode d) (tar d) (tar_mode d) (gpio_map d) rx tx (time_stamp d) (xfer d)));;
    wr_reg (IC_ENABLE i) 0;;
    wr_reg (IC_INTR_MASK i) 0;;
    wr_reg (IC_CON i) (Z.lor (Z.lor (Z.lor IC_SLAVE_DISABLE IC_RESTART_EN) SPEED_SS) IC_MASTER_MODE);;
    wr_reg (IC_TX_TL i) FIFO_THRESHOLD;;
    wr_reg (IC_RX_TL i) (rx - FIFO_THRESHOLD);;
    venus_i2c_set_spd (spd d);;
    venus_i2c_set_sar (sar d) (sar_mode d);;
    jam ← venus_i2c_bus_jam_detect;
    (if negb (jam =? 0) then venus_i2c_bus_jam_recover_proc else mret tt);;
    mret 0.

(** ** A message *)

(** [memset] of the transfer while its timer is armed destroys the timer list.
    [NULL] is the empty buffer. *)
Definition venus_i2c_load_message (m : Z) (tx_buf : list Z) (tx_buf_len : Z) (rx_buf : list Z) (rx_buf_len fl : Z) : D Z :=
  x ← get_xfer;
  if timer x then fault
  else
    rx ← lift_res (if (Zlen rx_buf =? 0) || (rx_buf_len =? 0) then Ret rx_buf
                   else if rx_buf_len <=? Zlen rx_buf then Ret (replicate (Z.to_nat rx_buf_len) 0 ++ drop (Z.to_nat rx_buf_len) rx_buf) else Fault);
    upd_xfer (fun _ => mkXfer m fl tx_buf tx_buf_len 0 rx rx_buf_len 0 0 0 0 0 false 0 0 0);;
    mret 0.

(** ** Transfers by moving the lines *)

Definition G2C_STATE_START : Z := 0.
Definition G2C_STATE_ADDR : Z := 1.
Definition G2C_STATE_DATA : Z := 2.
Definition G2C_STATE_STOP : Z := 3.
Definition G2C_STATE_DONE : Z := 4.
Definition G2C_ST (major minor : Z) : Z := Z.shiftl (Z.land major 7) 5 + Z.land minor 0x1f.
Definition G2C_MAJOR_STATE (x : Z) : Z := Z.land (Z.shiftr x 5) 7.
Definition G2C_MINOR_STATE (x : Z) : Z := Z.land x 0x1f.
Definition G2C_ST_ADDR0 : Z := G2C_ST G2C_STATE_ADDR 0.
Definition G2C_ST_DATA0 : Z := G2C_ST G2C_STATE_DATA 0.
Definition G2C_ST_STOP : Z := G2C_ST G2C_STATE_STOP 0.
Definition G2C_ST_DONE : Z := G2C_ST G2C_STATE_DONE 0.

Definition goto (state : Z) : D unit := set_state (fun _ => state) 0.
Definition next_state : D unit := set_state (fun st => u8 (st + 1)) 0.

Definition venus_g2c_do_start : D unit :=
  d ← get_dev;
  let sda := sda (gpio_map d) in
  let scl := scl (gpio_map d) in
  let sub := gpio_xfer_sub_state (xfer d) in
  if sub =? 0 then
    venus_gpio_set_ie sda 0;;
    venus_gpio_set_ie scl 0;;
    venus_gpio_set_dir sda 0;;
    venus_gpio_set_dir scl 0;;
    venus_gpio_write sda 0;;
    venus_gpio_write scl 0;;
    venus_i2c_gpio_selection GPIO_MODE;;
    next_sub
  else if sub =? 1 then
    a ← venus_gpio_read scl;
    b ← (if negb (a =? 0) then venus_gpio_read sda else mret 0);
    if negb (a =? 0) && negb (b =? 0) then next_sub else mret tt
  else if sub =? 2 then
    venus_gpio_set_dir sda 1;;
    next_sub
  else if sub =? 3 then
    venus_gpio_set_dir scl 1;;
    goto G2C_ST_ADDR0
  else mret tt.

(** The address byte; it is of type [unsigned char]. *)
Definition g2c_addr (d : venus_i2c) : Z :=
  let addr := u8 (Z.shiftl (tar d) 1) in
  if mode (xfer d) =? I2C_MASTER_READ then Z.lor addr 1 else addr.

Definition odd_at (v bit_index : Z) : bool := negb (Z.land (Z.shiftr v bit_index) 1 =? 0).

Definition venus_g2c_do_address : D unit :=
  d ← get_dev;
  let sda := sda (gpio_map d) in
  let scl := scl (gpio_map d) in
  let state := G2C_MINOR_STATE (gpio_xfer_state (xfer d)) in
  let sub := gpio_xfer_sub_state (xfer d) in
  if state <=? 7 then
    if sub =? 0 then
      venus_gpio_set_dir scl 1;;
      next_sub
    else if sub =? 1 then
      (if odd_at (g2c_addr d) (7 - state) then venus_gpio_set_dir sda 0 else venus_gpio_set_dir sda 1);;
      next_sub
    else if sub =? 2 then
      lost ← (if odd_at (g2c_addr d) (7 - state) then b ← venus_gpio_read sda; mret (b =? 0) else mret false);
      if (lost : bool) then
        set_ret (- ETXABORT);;
        goto G2C_ST_DONE
      else
        venus_gpio_set_dir scl 0;;
        next_sub
    else if sub =? 3 then
      a ← venus_gpio_read scl;
      if negb (a =? 0) then next_state else mret tt
    else mret tt
  else if state =? 8 then
    if sub =? 0 then
      venus_gpio_set_dir scl 1;;
      next_sub
    else if sub =? 1 then
      venus_gpio_set_dir sda 0;;
      next_sub
    else if sub =? 2 then
      venus_gpio_set_dir scl 0;;
      next_sub
    else if sub =? 3 then
      a ← venus_gpio_read scl;
      if negb (a =? 0) then
        b ← venus_gpio_read sda;
        if negb (b =? 0) then
          set_ret (- ETXABORT);;
          goto G2C_ST_STOP
        else goto G2C_ST_DATA0
      else mret tt
    else mret tt
  else mret tt.

Definition venus_g2c_do_read : D unit :=
  d ← get_dev;
  let sda := sda (gpio_map d) in
  let scl := scl (gpio_map d) in
  let x := xfer d in
  let state := G2C_MINOR_STATE (gpio_xfer_state x) in
  let sub := gpio_xfer_sub_state x in
  if state <? 8 then
    if sub =? 0 then
      venus_gpio_set_dir scl 1;;
      next_sub
    else if sub =? 1 then
      venus_gpio_set_dir sda 0;;
      next_sub
    else if sub =? 2 then
      venus_gpio_set_dir scl 0;;
      next_sub
    else if sub =? 3 then
      a ← venus_gpio_read scl;
      if negb (a =? 0) then
        b ← venus_gpio_read sda;
        (if negb (b =? 0) then
           v ← lift_res (rd (rx_buff x) (rx_len x));
           buf ← lift_res (wr (rx_buff x) (rx_len x) (u8 (Z.lor v (Z.shiftl 1 (7 - state)))));
           set_rx_buff buf
         else mret tt);;
        next_state
      else mret tt
    else mret tt
  else
    if sub =? 0 then
      venus_gpio_set_dir scl 1;;
      next_sub;;
      set_rx_len (fun n => (n + 1) mod 65536)
    else if sub =? 1 then
      (if rx_len x <? rx_buff_len x then venus_gpio_set_dir sda 1 else venus_gpio_set_dir sda 0);;
      next_sub
    else if sub =? 2 then
      venus_gpio_set_dir scl 0;;
      next_sub
    else if sub =? 3 then
      a ← venus_gpio_read scl;
      if negb (a =? 0) then
        if rx_len x <? rx_buff_len x then goto G2C_ST_DATA0 else goto G2C_ST_STOP
      else mret tt
    else mret tt.

Definition venus_g2c_do_write : D unit :=
  d ← get_dev;
  let sda := sda (gpio_map d) in
  let scl := scl (gpio_map d) in
  let x := xfer d in
  let state := G2C_MINOR_STATE (gpio_xfer_state x) in
  let sub := gpio_xfer_sub_state x in
  if state <? 8 then
    if sub =? 0 then
      venus_gpio_set_dir scl 1;;
      next_sub
    else if sub =? 1 then
      v ← lift_res (rd (tx_buff x) (tx_len x));
      (if odd_at v (7 - state) then venus_gpio_set_dir sda 0 else venus_gpio_set_dir sda 1);;
      next_sub
    else if sub =? 2 then
      v ← lift_res (rd (tx_buff x) (tx_len x));
      lost ← (if odd_at v (7 - state) then b ← venus_gpio_read sda; mret (b =? 0) else mret false);
      if (lost : bool) then
        set_ret (- ETXABORT);;
        goto G2C_ST_DONE
      else
        venus_gpio_set_dir scl 0;;
        next_sub
    else if sub =? 3 then
      a ← venus_gpio_read scl;
      if negb (a =? 0) then next_state else mret tt
    else mret tt
  else
    if sub =? 0 then
      venus_gpio_set_dir scl 1;;
      next_sub
    else if sub =? 1 then
      venus_gpio_set_dir sda 0;;
      next_sub
    else if sub =? 2 then
      venus_gpio_set_dir scl 0;;
      next_sub
    else if sub =? 3 then
      a ← venus_gpio_read scl;
      if negb (a =? 0) then
        set_tx_len (fun n => (n + 1) mod 65536);;
        b ← venus_gpio_read sda;
        if negb (b =? 0) || (tx_buff_len x <=? (tx_len x + 1) mod 65536) then
          b ← venus_gpio_read sda;
          (if negb (b =? 0) then set_ret (- ETXABORT) else mret tt);;
          goto G2C_ST_STOP
        else goto G2C_ST_DATA0
      else mret tt
    else mret tt.

Definition venus_g2c_do_stop : D unit :=
  d ← get_dev;
  let sda := sda (gpio_map d) in
  let scl := scl (gpio_map d) in
  let x := xfer d in
  let sub := gpio_xfer_sub_state x in
  if sub =? 0 then
    venus_gpio_set_dir scl 1;;
    next_sub
  else if sub =? 1 then
    (if (Z.land (flags x) I2C_NO_STOP =? 0) || (xret x <? 0) then venus_gpio_set_dir sda 1 else venus_gpio_set_dir sda 0);;
    next_sub
  else if sub =? 2 then
    venus_gpio_set_dir scl 0;;
    next_sub
  else if sub =? 3 then
    a ← venus_gpio_read scl;
    if negb (a =? 0) then
      venus_gpio_set_dir sda 0;;
      goto G2C_ST_DONE
    else mret tt
  else mret tt.

Definition venus_g2c_do_complete : D unit :=
  d ← get_dev;
  let sda := sda (gpio_map d) in
  let scl := scl (gpio_map d) in
  if gpio_xfer_sub_state (xfer d) =? 0 then
    venus_gpio_set_dir sda 0;;
    venus_gpio_set_dir scl 0;;
    venus_i2c_gpio_selection I2C_MODE;;
    next_sub;;
    set_mode I2C_IDEL
  else mret tt.

Definition venus_g2c_isr : D unit :=
  x ← get_xfer;
  j ← get_jiffies;
  (if negb (mode x =? I2C_IDEL) && time_after j (timeout x) then
     set_ret (- ETIMEOUT);;
     goto G2C_ST_DONE
   else mret tt);;
  x ← get_xfer;
  let major := G2C_MAJOR_STATE (gpio_xfer_state x) in
  if major =? G2C_STATE_START then venus_g2c_do_start
  else if major =? G2C_STATE_ADDR then venus_g2c_do_address
  else if major =? G2C_STATE_STOP then venus_g2c_do_stop
  else if major =? G2C_STATE_DONE then venus_g2c_do_complete
  else if major =? G2C_STATE_DATA then
    if mode x =? I2C_MASTER_WRITE then venus_g2c_do_write else venus_g2c_do_read
  else mret tt.

(** The delay of a turn: [udelay], and [msleep] every 3 milliseconds. *)
Definition g2c_wait (d : Z) : D unit :=
  x ← get_xfer;
  if gpio_wait_time x <=? d then
    set_wait_time (fun _ => G2C_WAIT_TIMEOUT * 1000);;
    msleep 1
  else
    set_wait_time (fun w => w - d);;
    udelay d.

Fixpoint g2c_loop (fuel : nat) (d : Z) : D unit :=
  venus_g2c_isr;;
  x ← get_xfer;
  if mode x =? I2C_IDEL then mret tt
  else
    match fuel with
    | O => stuck
    | S fuel => g2c_wait d;; g2c_loop fuel d
    end.

Variable fuel : nat.

Definition venus_g2c_start_xfer : D Z :=
  dv ← get_dev;
  let d := Z.shiftr (tick dv) 2 in
  j ← get_jiffies;
  set_timeout (u32 (j + 2 * HZ));;
  set_wait_time (fun _ => G2C_WAIT_TIMEOUT * 1000);;
  g2c_loop fuel d;;
  x ← get_xfer;
  (if xret x =? - ETIMEOUT then after_timeout else mret tt);;
  mret (xret x).

Definition venus_g2c_write (tx_buf : list Z) (tx_buf_len wait_stop : Z) : D Z :=
  venus_i2c_load_message I2C_MASTER_WRITE tx_buf tx_buf_len [] 0 (if negb (wait_stop =? 0) then 0 else I2C_NO_STOP);;
  venus_g2c_start_xfer.

Definition venus_g2c_read (tx_buf : list Z) (tx_buf_len : Z) (rx_buf : list Z) (rx_buf_len : Z) : D Z :=
  ret ← (if negb (Zlen tx_buf =? 0) && negb (tx_buf_len =? 0) then venus_g2c_write tx_buf tx_buf_len 0 else mret 0);
  if ret <? 0 then mret ret
  else
    venus_i2c_load_message I2C_MASTER_READ [] 0 rx_buf rx_buf_len 0;;
    venus_g2c_start_xfer.
End i2c.
