(* ===== verification/I2cPins.v ===== *)
(** * I2C adapter: the pins

    What the registers of the pins say, and how writing one of them changes it. *)
From stdpp Require Import base tactics list numbers option gmap.
From Stdlib Require Import ZArith Lia.
From S2P Require Import Prelude Driver I2c.

(** ** Bits *)

Lemma testbit_u32 x k : 0 <= k < 32 -> Z.testbit (u32 x) k = Z.testbit x k.
Proof. intros Hk. unfold u32, W32. change 4294967296 with (2 ^ 32). by rewrite Z.mod_pow2_bits_low by lia. Qed.

(** Setting or clearing the bit [n] of a word. *)
Lemma with_mask_bit v n k (b : bool) : 0 <= n < 32 -> 0 <= k < 32 ->
  Z.testbit (u32 (if b then Z.lor v (Z.shiftl 1 n) else Z.land v (Z.lnot (Z.shiftl 1 n)))) k = if k =? n then b else Z.testbit v k.
Proof.
  intros Hn Hk. rewrite testbit_u32, Z.shiftl_1_l by done. destruct b.
  - rewrite Z.lor_spec, Z.pow2_bits_eqb, (Z.eqb_sym k n) by lia. destruct (n =? k); [apply orb_true_r|apply orb_false_r].
  - rewrite Z.land_spec, Z.lnot_spec, Z.pow2_bits_eqb, (Z.eqb_sym k n) by lia. destruct (n =? k); [apply andb_false_r|apply andb_true_r].
Qed.

Lemma with_bit_same w n b : 0 <= n -> Z.testbit (with_bit w n b) n = b.
Proof. intros Hn. destruct b; cbn [with_bit]; [apply Z.setbit_eq; lia|apply Z.clearbit_eq]. Qed.

Lemma with_bit_other w n k b : 0 <= n -> 0 <= k -> n <> k -> Z.testbit (with_bit w n b) k = Z.testbit w k.
Proof. intros Hn Hk Hne. destruct b; cbn [with_bit]; [by apply Z.setbit_neq|by apply Z.clearbit_neq]. Qed.

(** The test of a bit as the code makes it. *)
Lemma mask_test v n : 0 <= n -> negb (Z.land v (Z.shiftl 1 n) =? 0) = Z.testbit v n.
Proof.
  intros Hn. rewrite Z.shiftl_1_l. destruct (Z.testbit v n) eqn:E.
  - apply negb_true_iff, Z.eqb_neq. intros H. apply (f_equal (fun x => Z.testbit x n)) in H. rewrite Z.land_spec, Z.pow2_bits_true, E, Z.bits_0 in H by lia. done.
  - apply negb_false_iff, Z.eqb_eq, Z.bits_inj'. intros k Hk. rewrite Z.land_spec, Z.bits_0, Z.pow2_bits_eqb by lia. destruct (Z.eqb_spec n k) as [<-|]; [by rewrite E|apply andb_false_r].
Qed.

Lemma odd_at_testbit v n : 0 <= n -> odd_at v n = Z.testbit v n.
Proof. intros Hn. unfold odd_at. change 1 with (Z.shiftl 1 0) at 1. by rewrite mask_test, Z.shiftr_spec by lia. Qed.

(** ** Pins and registers *)

Definition pin_ok (p : Z) : Prop := 0 <= p < 128.

Lemma pin_group p : pin_ok p -> GPIO_GROUP p = p / 32 /\ 0 <= p / 32 < 4.
Proof. intros Hp. unfold GPIO_GROUP, pin_ok in *. rewrite Z.shiftr_div_pow2 by lia. change (2 ^ 5) with 32. split; [done|]. split; [apply Z.div_pos; lia|apply Z.div_lt_upper_bound; lia]. Qed.

Lemma pin_bit p : pin_ok p -> Z.land p 0x1f = p mod 32 /\ 0 <= p mod 32 < 32.
Proof. intros Hp. change 0x1f with (Z.ones 5). rewrite Z.land_ones by lia. split; [done|]. apply Z.mod_pos_bound. lia. Qed.

(** The register with the bit of a pin, and the bit. *)
Definition preg (base p : Z) : Z := base + Z.shiftl (GPIO_GROUP p) 2.

Definition is_base (b : Z) : Prop := b = MIS_GP0DIR \/ b = MIS_GP0DATO \/ b = MIS_GP0IE.

Lemma preg_eq base p : pin_ok p -> preg base p = base + 4 * (p / 32).
Proof. intros Hp. unfold preg. destruct (pin_group p Hp) as [-> _]. rewrite Z.shiftl_mul_pow2 by lia. lia. Qed.

Lemma preg_inj b b' p p' : is_base b -> is_base b' -> pin_ok p -> pin_ok p' -> preg b p = preg b' p' -> b = b' /\ p / 32 = p' / 32.
Proof.
  intros Hb Hb' Hp Hp'. rewrite !preg_eq by done. destruct (pin_group p Hp) as [_ H1], (pin_group p' Hp') as [_ H2].
  unfold is_base, MIS_GP0DIR, MIS_GP0DATO, MIS_GP0IE in *. lia.
Qed.

Lemma pin_eq p p' : p / 32 = p' / 32 -> p mod 32 = p' mod 32 -> p = p'.
Proof. intros H1 H2. rewrite (Z.div_mod p 32), (Z.div_mod p' 32), H1, H2 by lia. done. Qed.

Section pins.
Context {env : I2cEnv}.

Definition bit (s : i2c_st) (base p : Z) : bool := Z.testbit (reg s (preg base p)) (Z.land p 0x1f).

(** What does not change. *)
Definition kept (s s' : i2c_st) : Prop :=
  p_this s' = p_this s /\ jiffies s' = jiffies s /\ fifo s' = fifo s /\ forall a, 0xb801b300 <= a -> reg s' a = reg s a.

Lemma rd_kept a s (Q : Z -> i2c_st -> Prop) : (a < MIS_GP0DATI \/ MIS_GP0IE <= a) -> volatile a = false -> Q (reg s a) s -> wp (rd_reg a) s Q.
Proof.
  intros Ha Hv HQ. exists (reg s a), s. split; [|done]. unfold rd_reg. rewrite Hv. destruct (Z.leb_spec MIS_GP0DATI a), (Z.ltb_spec a MIS_GP0IE); cbn [andb]; (done || lia).
Qed.

Lemma volatile_range a : 0xb801b010 <= a < 0xb801b300 -> volatile a = false.
Proof.
  intros Ha. unfold volatile. apply not_true_iff_false. intros H. apply existsb_exists in H as (r & Hr & E). apply Z.eqb_eq in E. subst r.
  cbn in Hr. unfold MIS_ISR, IC_STATUS, IC_DATA_CMD, IC_RXFLR, IC_INTR_STAT, IC_TX_ABRT_SOURCE, IC_CLR_INTR, IC_COMP_PARAM_1, ic in Hr. cbn in Hr. lia.
Qed.

Lemma preg_range b p : is_base b -> pin_ok p -> 0xb801b100 <= preg b p < 0xb801b140 /\ (preg b p < MIS_GP0DATI \/ MIS_GP0IE <= preg b p).
Proof.
  intros Hb Hp. rewrite preg_eq by done. destruct (pin_group p Hp) as [_ H1]. unfold is_base, MIS_GP0DIR, MIS_GP0DATO, MIS_GP0IE, MIS_GP0DATI in *. lia.
Qed.

(** The state after a write. *)
Lemma wr_wp a v s (Q : unit -> i2c_st -> Prop) : (a < 0xb801b300) ->
  Q tt (look (set_regs (fun r => <[a := u32 v]> r) s)) -> wp (wr_reg a v) s Q.
Proof.
  intros Ha HQ. eexists tt, _. split; [|exact HQ]. unfold wr_reg, log_fifo, IC_DATA_CMD, ic. cbn [Z.eqb].
  destruct (Z.eqb_spec a (0xb801b300 + 0x10)), (Z.eqb_spec a (0xb801bb00 + 0x10)); (done || lia).
Qed.

Lemma reg_look a s : reg (look s) a = reg s a.
Proof. done. Qed.

Lemma reg_set a a' v s : reg (set_regs (fun r => <[a := v]> r) s) a' = if a' =? a then v else reg s a'.
Proof. unfold reg, set_regs. cbn [regs]. destruct (Z.eqb_spec a' a) as [->|]; [by rewrite lookup_insert_eq|by rewrite lookup_insert_ne]. Qed.

(** Writing the bit of a pin changes this bit only. *)
Lemma rmw_spec base p (b : bool) s : is_base base -> pin_ok p ->
  let s' := look (set_regs (fun r => <[preg base p := u32 (if b then Z.lor (reg s (preg base p)) (GPIO_MASK p) else Z.land (reg s (preg base p)) (Z.lnot (GPIO_MASK p)))]> r) s) in
  (forall base' p', is_base base' -> pin_ok p' -> bit s' base' p' = if (base' =? base) && (p' =? p) then b else bit s base' p') /\
  (forall a, ~ (0xb801b100 <= a < 0xb801b140) -> reg s' a = reg s a) /\ kept s s'.
Proof.
  intros Hb Hp s'. destruct (preg_range base p Hb Hp) as [Hrg _].
  assert (Hfr : forall a, ~ (0xb801b100 <= a < 0xb801b140) -> reg s' a = reg s a).
  { intros a Ha. unfold s'. rewrite reg_look, reg_set. destruct (Z.eqb_spec a (preg base p)); [lia|done]. }
  split; [|split; [done|split; [done|split; [done|split; [done|intros a Ha; apply Hfr; lia]]]]].
  - intros base' p' Hb' Hp'. unfold bit, s'. rewrite reg_look, reg_set. destruct (pin_bit p Hp) as [Ep Hr], (pin_bit p' Hp') as [Ep' Hr']. rewrite Ep'. unfold GPIO_MASK. rewrite Ep.
    destruct (Z.eqb_spec (preg base' p') (preg base p)) as [E|E].
    + destruct (preg_inj _ _ _ _ Hb' Hb Hp' Hp E) as [-> Eg]. rewrite Z.eqb_refl. cbn [andb]. rewrite with_mask_bit by done.
      destruct (Z.eqb_spec (p' mod 32) (p mod 32)) as [Em|Em].
      * rewrite (pin_eq p' p Eg Em). by rewrite Z.eqb_refl.
      * destruct (Z.eqb_spec p' p) as [->|]; [done|]. by rewrite <- E.
    + destruct (Z.eqb_spec base' base) as [->|]; [|done]. destruct (Z.eqb_spec p' p) as [->|]; [done|]. done.
Qed.

(** ** The two lines *)

(** A line is not pulled low by the adapter: the pins are not selected, or the pin
    is an input, or its output is high. *)
Definition lv (sel c o : bool) : bool := negb sel || c || o.

(** What is required of the pins of the bus. *)
Record wired (m : gpio_pins) : Prop := {
  p_scl : pin_ok (scl m);
  p_sda : pin_ok (sda m);
  p_ne : scl m <> sda m;
  p_pad : muxpad m < MIS_ISR;
  p_gpio : Z.land (muxpad_gpio m) (muxpad_mask m) = muxpad_gpio m;
  p_i2c : Z.land (muxpad_i2c m) (muxpad_mask m) = muxpad_i2c m;
  p_diff : muxpad_i2c m <> muxpad_gpio m;
  p_mask : is_u32 (muxpad_mask m)
}.

(** The pins are selected or not; the directions ([true]: input) and outputs of
    the two pins. *)
Record View (m : gpio_pins) (s : i2c_st) (sel c d oc od : bool) : Prop := {
  vw_m : gpio_map (p_this s) = m;
  vw_sel : gpio_selected s = sel;
  vw_c : bit s MIS_GP0DIR (scl m) = negb c;
  vw_d : bit s MIS_GP0DIR (sda m) = negb d;
  vw_oc : bit s MIS_GP0DATO (scl m) = oc;
  vw_od : bit s MIS_GP0DATO (sda m) = od
}.

(** The state after a step: the pins, and the other devices have seen them. *)
Definition moved (m : gpio_pins) (s s' : i2c_st) (sel c d oc od : bool) : Prop :=
  View m s' sel c d oc od /\ kept s s' /\ bus s' = other_moves (lv sel c oc) (lv sel d od) (bus s).

Section view.
Variable m : gpio_pins.
Hypothesis Hm : wired m.

Lemma drive_view s sel c d oc od : View m s sel c d oc od ->
  drive s (scl m) = (if sel && negb c then Some oc else None) /\ drive s (sda m) = (if sel && negb d then Some od else None).
Proof.
  intros [_ Hs Hc Hd Hoc Hod]. unfold drive. change (MIS_GP0DIR + Z.shiftl (GPIO_GROUP ?p) 2) with (preg MIS_GP0DIR p).
  rewrite Hs. unfold bit, preg in *. by rewrite Hc, Hd, Hoc, Hod.
Qed.

Lemma level_view s sel c d oc od : View m s sel c d oc od -> level s (scl m) = lv sel c oc /\ level s (sda m) = lv sel d od.
Proof. intros Hv. destruct (drive_view s _ _ _ _ _ Hv) as [E1 E2]. unfold level, lv. rewrite E1, E2. by destruct sel, c, d, oc, od. Qed.

(** The bit of a pin is written. *)
Lemma wp_rmw base p v s (Q : Z -> i2c_st -> Prop) : is_base base -> pin_ok p ->
  (forall s', (forall base' p', is_base base' -> pin_ok p' -> bit s' base' p' = if (base' =? base) && (p' =? p) then negb (v =? 0) else bit s base' p') ->
     (forall a, ~ (0xb801b100 <= a < 0xb801b140) -> reg s' a = reg s a) -> kept s s' ->
     bus s' = other_moves (level s' (scl (gpio_map (p_this s)))) (level s' (sda (gpio_map (p_this s)))) (bus s) -> Q 0 s') ->
  wp (if p <? GPIO_COUNT then
        v0 ← rd_reg (preg base p);
        _ ← wr_reg (preg base p) (if negb (v =? 0) then Z.lor v0 (GPIO_MASK p) else Z.land v0 (Z.lnot (GPIO_MASK p)));
        mret 0
      else mret (-1)) s Q.
Proof.
  intros Hb Hp HQ. destruct (preg_range base p Hb Hp) as [Hr Hn]. unfold GPIO_COUNT. destruct (Z.ltb_spec p 128); [|unfold pin_ok in Hp; lia].
  apply wp_bind, rd_kept; [done|apply volatile_range; lia|]. apply wp_bind, wr_wp; [lia|]. apply wp_ret.
  destruct (rmw_spec base p (negb (v =? 0)) s Hb Hp) as (H1 & H2 & H3). by apply HQ.
Qed.

Lemma sel_same s s' : gpio_map (p_this s) = m -> p_this s' = p_this s -> (forall a, ~ (0xb801b100 <= a < 0xb801b140) -> reg s' a = reg s a) -> gpio_selected s' = gpio_selected s.
Proof. intros Hg Ed Hr. unfold gpio_selected. rewrite Ed, Hg, Hr; [done|]. destruct Hm as [_ _ _ Hp _ _ _ _]. unfold MIS_ISR in Hp. lia. Qed.

(** The pins after the bit of one of them has been written. *)
Lemma view_rmw s s' sel c d oc od base p b : View m s sel c d oc od -> is_base base ->
  (forall base' p', is_base base' -> pin_ok p' -> bit s' base' p' = if (base' =? base) && (p' =? p) then b else bit s base' p') ->
  (forall a, ~ (0xb801b100 <= a < 0xb801b140) -> reg s' a = reg s a) -> kept s s' ->
  View m s' sel (if (base =? MIS_GP0DIR) && (p =? scl m) then negb b else c) (if (base =? MIS_GP0DIR) && (p =? sda m) then negb b else d)
    (if (base =? MIS_GP0DATO) && (p =? scl m) then b else oc) (if (base =? MIS_GP0DATO) && (p =? sda m) then b else od).
Proof.
  intros [Hg Hs Hc Hd Hoc Hod] Hb H1 H2 (H3 & _). destruct Hm as [Hp1 Hp2 _ _ _ _ _ _].
  assert (is_base MIS_GP0DIR) by (by left). assert (is_base MIS_GP0DATO) by (by right; left).
  split; [by rewrite H3|rewrite <- Hs; by apply sel_same| | | |]; rewrite H1 by done; rewrite (Z.eqb_sym _ base), (Z.eqb_sym _ p).
  - destruct ((base =? _) && _); [by rewrite negb_involutive|done].
  - destruct ((base =? _) && _); [by rewrite negb_involutive|done].
  - by destruct ((base =? _) && _).
  - by destruct ((base =? _) && _).
Qed.

Ltac rmw_tac Hv base :=
  let s' := fresh "s'" in intros s' H1 H2 H3 H4; pose proof (view_rmw _ s' _ _ _ _ _ base _ _ Hv ltac:(first [by left|by right; left|by right; right]) H1 H2 H3) as Hv';
  rewrite (vw_m _ _ _ _ _ _ _ Hv) in H4; destruct (level_view _ _ _ _ _ _ Hv') as [E1 E2]; rewrite E1, E2 in H4.

Ltac tidy :=
  repeat match goal with H : context [?x =? ?x] |- _ => rewrite (Z.eqb_refl x) in H end;
  change (MIS_GP0DIR =? MIS_GP0DATO) with false in *; change (MIS_GP0DATO =? MIS_GP0DIR) with false in *;
  change (MIS_GP0IE =? MIS_GP0DIR) with false in *; change (MIS_GP0IE =? MIS_GP0DATO) with false in *;
  rewrite ?negb_involutive in *; cbn [andb] in *; by split.

Lemma eqb_scl_sda : (scl m =? sda m) = false /\ (sda m =? scl m) = false.
Proof. pose proof (p_ne m Hm). split; apply Z.eqb_neq; lia. Qed.

Lemma wp_dir_scl v s sel c d oc od (Q : Z -> i2c_st -> Prop) : View m s sel c d oc od ->
  (forall s', moved m s s' sel (v =? 0) d oc od -> Q 0 s') -> wp (venus_gpio_set_dir (scl m) v) s Q.
Proof.
  intros Hv HQ. apply (wp_rmw MIS_GP0DIR); [by left|apply Hm|]. rmw_tac Hv MIS_GP0DIR. apply HQ. destruct eqb_scl_sda as [E3 _]. rewrite E3 in *. tidy.
Qed.

Lemma wp_dir_sda v s sel c d oc od (Q : Z -> i2c_st -> Prop) : View m s sel c d oc od ->
  (forall s', moved m s s' sel c (v =? 0) oc od -> Q 0 s') -> wp (venus_gpio_set_dir (sda m) v) s Q.
Proof.
  intros Hv HQ. apply (wp_rmw MIS_GP0DIR); [by left|apply Hm|]. rmw_tac Hv MIS_GP0DIR. apply HQ. destruct eqb_scl_sda as [_ E3]. rewrite E3 in *. tidy.
Qed.

Lemma wp_out_scl v s sel c d oc od (Q : Z -> i2c_st -> Prop) : View m s sel c d oc od ->
  (forall s', moved m s s' sel c d (negb (v =? 0)) od -> Q 0 s') -> wp (venus_gpio_write (scl m) v) s Q.
Proof.
  intros Hv HQ. apply (wp_rmw MIS_GP0DATO); [by right; left|apply Hm|]. rmw_tac Hv MIS_GP0DATO. apply HQ. destruct eqb_scl_sda as [E3 _]. rewrite E3 in *. tidy.
Qed.

Lemma wp_out_sda v s sel c d oc od (Q : Z -> i2c_st -> Prop) : View m s sel c d oc od ->
  (forall s', moved m s s' sel c d oc (negb (v =? 0)) -> Q 0 s') -> wp (venus_gpio_write (sda m) v) s Q.
Proof.
  intros Hv HQ. apply (wp_rmw MIS_GP0DATO); [by right; left|apply Hm|]. rmw_tac Hv MIS_GP0DATO. apply HQ. destruct eqb_scl_sda as [_ E3]. rewrite E3 in *. tidy.
Qed.

Lemma wp_ie p v s sel c d oc od (Q : Z -> i2c_st -> Prop) : pin_ok p -> View m s sel c d oc od ->
  (forall s', moved m s s' sel c d oc od -> Q 0 s') -> wp (venus_gpio_set_ie p v) s Q.
Proof. intros Hp Hv HQ. apply (wp_rmw MIS_GP0IE); [by right; right|done|]. rmw_tac Hv MIS_GP0IE. apply HQ. tidy. Qed.

Lemma volatile_low a : a < MIS_ISR -> volatile a = false.
Proof.
  intros Ha. unfold volatile. apply not_true_iff_false. intros H. apply existsb_exists in H as (r & Hr & E). apply Z.eqb_eq in E. subst r.
  cbn in Hr. unfold MIS_ISR, IC_STATUS, IC_DATA_CMD, IC_RXFLR, IC_INTR_STAT, IC_TX_ABRT_SOURCE, IC_CLR_INTR, IC_COMP_PARAM_1, ic in *. cbn in Hr. lia.
Qed.

(** The pins are given to the bits of the registers, or to the controller. *)
Lemma select_mask v x mask : is_u32 mask -> Z.land x mask = x -> Z.land (u32 (Z.lor (Z.land v (Z.lnot mask)) x)) mask = x.
Proof.
  intros Hk Hx. apply Z.bits_inj'. intros k Hk0. rewrite Z.land_spec. destruct (Z.ltb_spec k 32).
  - rewrite testbit_u32, Z.lor_spec, Z.land_spec, Z.lnot_spec by lia. rewrite <- Hx at 2. rewrite Z.land_spec. by destruct (Z.testbit v k), (Z.testbit mask k), (Z.testbit x k).
  - rewrite <- Hx. rewrite Z.land_spec. assert (Z.testbit mask k = false) as ->; [|by rewrite !andb_false_r].
    destruct (Z.eq_dec mask 0) as [->|]; [apply Z.bits_0|]. apply Z.bits_above_log2; [apply Hk|]. apply Z.log2_lt_pow2; [unfold is_u32 in Hk; lia|].
    unfold is_u32, W32 in Hk. pose proof (Z.pow_le_mono_r 2 32 k ltac:(lia) ltac:(lia)) as Hp. change (2 ^ 32) with 4294967296 in Hp. lia.
Qed.

Lemma wp_select md s sel c d oc od (Q : unit -> i2c_st -> Prop) : View m s sel c d oc od ->
  (forall s', moved m s s' (md =? GPIO_MODE) c d oc od -> Q tt s') -> wp (venus_i2c_gpio_selection md) s Q.
Proof.
  intros Hv HQ. pose proof Hm as [_ _ _ Hp Hg Hi Hd Hk]. unfold venus_i2c_gpio_selection, get_dev. apply wp_bind, wp_bind, wp_get, wp_ret. cbn zeta. rewrite (vw_m _ _ _ _ _ _ _ Hv).
  apply wp_bind, rd_kept; [unfold MIS_ISR, MIS_GP0DATI in *; lia|by apply volatile_low|]. set (val := Z.lor _ _). apply wr_wp; [unfold MIS_ISR in Hp; lia|].
  set (s' := look _). assert (Hb : forall b p, is_base b -> pin_ok p -> bit s' b p = bit s b p).
  { intros b p Hb Hpk. unfold bit, s'. rewrite reg_look, reg_set. destruct (preg_range b p Hb Hpk). destruct (Z.eqb_spec (preg b p) (muxpad m)); [unfold MIS_ISR in Hp; lia|done]. }
  assert (Hv' : View m s' (md =? GPIO_MODE) c d oc od).
  { assert (is_base MIS_GP0DIR) by (by left). assert (is_base MIS_GP0DATO) by (by right; left).
    split; [apply Hv| |rewrite Hb; [apply Hv|done|apply Hm]|rewrite Hb; [apply Hv|done|apply Hm]|rewrite Hb; [apply Hv|done|apply Hm]|rewrite Hb; [apply Hv|done|apply Hm]].
    unfold gpio_selected. change (p_this s') with (p_this s). rewrite (vw_m _ _ _ _ _ _ _ Hv). unfold s'. rewrite reg_look, reg_set, Z.eqb_refl. unfold val.
    destruct (md =? GPIO_MODE); rewrite select_mask by done; [apply Z.eqb_refl|by apply Z.eqb_neq]. }
  apply HQ. split; [done|]. split; [split; [done|split; [done|split; [done|]]]; intros a Ha; unfold s'; rewrite reg_look, reg_set; destruct (Z.eqb_spec a (muxpad m)); [unfold MIS_ISR in Hp; lia|done]|]. destruct (level_view s' _ _ _ _ _ Hv') as [<- <-]. unfold s', look. cbn [bus set_bus]. change (p_this (set_regs _ s)) with (p_this s).
  by rewrite (vw_m _ _ _ _ _ _ _ Hv).
Qed.

(** What is read from a line. *)
Lemma wp_line p theirs s (o : option bool) (Q : Z -> i2c_st -> Prop) : gpio_map (p_this s) = m ->
  (p = scl m /\ theirs = other_scl (bus s) \/ p = sda m /\ theirs = other_sda (bus s)) -> drive s p = o ->
  Q (if default theirs o then 1 else 0) (tick_now s) -> wp (venus_gpio_read p) s Q.
Proof.
  intros Eg Hp Ed HQ. pose proof Hm as [H1 H2 Hne _ _ _ _ _]. assert (Hpk : pin_ok p) by (by destruct Hp as [[-> _]|[-> _]]).
  unfold venus_gpio_read, GPIO_COUNT. destruct (Z.ltb_spec p 128); [|unfold pin_ok in Hpk; lia].
  change (MIS_GP0DATI + Z.shiftl (GPIO_GROUP p) 2) with (preg MIS_GP0DATI p). cbv zeta. apply wp_bind.
  eexists _, _. split; [unfold rd_reg; rewrite (proj2 (andb_true_iff _ _)); [reflexivity|]|].
  { rewrite preg_eq by done. destruct (pin_group p Hpk) as [_ Hg]. unfold MIS_GP0DATI, MIS_GP0IE. split; [apply Z.leb_le|apply Z.ltb_lt]; lia. }
  apply wp_ret. replace (if negb (_ =? 0) then 1 else 0) with (if default theirs o then 1 else 0); [done|].
  unfold GPIO_MASK. destruct (pin_bit p Hpk) as [Ep Hb]. rewrite mask_test by (rewrite Ep; lia). unfold pins. cbv zeta. rewrite Eg.
  change (MIS_GP0DATI + Z.shiftl (GPIO_GROUP ?q) 2) with (preg MIS_GP0DATI q).
  destruct (pin_bit (scl m) H1) as [E1 B1], (pin_bit (sda m) H2) as [E2 B2].
  destruct Hp as [[-> ->]|[-> ->]].
  - rewrite Z.eqb_refl, with_bit_same by lia. unfold line. by rewrite Ed.
  - rewrite Z.eqb_refl. assert (Hl : Z.testbit (with_bit (u32 (reads (now s) (preg MIS_GP0DATI (sda m)))) (Z.land (sda m) 31) (line s (sda m) (other_sda (bus s)))) (Z.land (sda m) 31) = default (other_sda (bus s)) o).
    { rewrite with_bit_same by lia. unfold line. by rewrite Ed. }
    destruct (Z.eqb_spec (preg MIS_GP0DATI (sda m)) (preg MIS_GP0DATI (scl m))) as [E|E]; [|by rewrite Hl].
    rewrite with_bit_other; [by rewrite Hl|lia|lia|]. rewrite E1, E2. intros Em. apply Hne. apply pin_eq; [|done]. rewrite !preg_eq in E by done. lia.
Qed.

Lemma wp_read_scl s sel c d oc od (Q : Z -> i2c_st -> Prop) : View m s sel c d oc od ->
  Q (if (if sel && negb c then oc else other_scl (bus s)) then 1 else 0) (tick_now s) -> wp (venus_gpio_read (scl m)) s Q.
Proof.
  intros Hv HQ. destruct (drive_view s _ _ _ _ _ Hv) as [E _]. apply (wp_line _ (other_scl (bus s)) s _ _ (vw_m _ _ _ _ _ _ _ Hv) ltac:(by left) E). by destruct (sel && negb c).
Qed.

Lemma wp_read_sda s sel c d oc od (Q : Z -> i2c_st -> Prop) : View m s sel c d oc od ->
  Q (if (if sel && negb d then od else other_sda (bus s)) then 1 else 0) (tick_now s) -> wp (venus_gpio_read (sda m)) s Q.
Proof.
  intros Hv HQ. destruct (drive_view s _ _ _ _ _ Hv) as [_ E]. apply (wp_line _ (other_sda (bus s)) s _ _ (vw_m _ _ _ _ _ _ _ Hv) ltac:(by right) E). by destruct (sel && negb d).
Qed.

(** A delay. *)
Lemma wp_pass n s sel c d oc od (Q : unit -> i2c_st -> Prop) : View m s sel c d oc od ->
  (forall s', View m s' sel c d oc od -> p_this s' = p_this s -> fifo s' = fifo s -> jiffies s' = u32 (jiffies s + n + slip (now s)) ->
     bus s' = other_moves (lv sel c oc) (lv sel d od) (bus s) -> Q tt s') -> wp (pass n) s Q.
Proof.
  intros Hv HQ. eexists tt, _. split; [reflexivity|]. set (s' := look _). assert (Hv' : View m s' sel c d oc od) by (split; apply Hv).
  apply HQ; try done. destruct (level_view s' _ _ _ _ _ Hv') as [<- <-]. unfold s', look. cbn [bus set_bus p_this]. by rewrite (vw_m _ _ _ _ _ _ _ Hv).
Qed.
End view.
End pins.
