(* ===== verification/I2cBus.v ===== *)
(** * I2C adapter: a device on the bus

    The specification of a device, from its side of the two lines.  A transfer
    starts and ends with a change of the data line while the clock line is high;
    otherwise a bit is taken at each rise of the clock, and the data line is set
    after each fall.  The device may hold the clock low for a while. *)
From stdpp Require Import base tactics list numbers option.
From Stdlib Require Import ZArith Lia.
From S2P Require Import Prelude Driver I2c.

(** What the device has seen and done: the start, its address (and whether it is to
    be read), bytes that it has got and sent, the stop. *)
Inductive tevent := EStart | EHello (rd : bool) | EGot (b : Z) | ESent (b : Z) | EStop.

Inductive tphase := Idle | Addr | AckAddr (rd : bool) | Recv | AckData | Send | AckMaster | Away.

(** [cnt], [acc]: the bits of the current byte; [src]: what is to be sent. *)
Record target := mkT { ph : tphase; cnt : nat; acc : Z; src : list Z; log : list tevent }.

(** A device acknowledges a byte or not, on what it has seen so far. *)
Class Device := {
  address : Z;
  accepts : list tevent -> bool;
  stretch : target -> nat
}.

Section device.
Context {dv : Device}.

(** The next byte to be sent. *)
Definition next_byte (t : target) : Z := hd 0xff (src t).

(** The device leaves the data line alone for the next bit. *)
Definition t_out (t : target) : bool :=
  match ph t with
  | AckAddr _ => false
  | AckData => negb (accepts (log t))
  | Send => Z.testbit (next_byte t) (7 - Z.of_nat (cnt t))
  | _ => true
  end.

Definition t_start (t : target) : target := mkT Addr 0 0 (src t) (log t ++ [EStart]).
Definition t_stop (t : target) : target := mkT Idle 0 0 (src t) (log t ++ [EStop]).

Definition shift_in (b : bool) (t : target) : Z := 2 * acc t + Z.b2z b.

(** A bit. *)
Definition t_clock (b : bool) (t : target) : target :=
  let v := shift_in b t in
  let last := (cnt t =? 7)%nat in
  match ph t with
  | Idle | Away => t
  | Addr =>
      if last then
        if v / 2 =? address then mkT (AckAddr b) 0 0 (src t) (log t ++ [EHello b])
        else mkT Away 0 0 (src t) (log t)
      else mkT Addr (S (cnt t)) v (src t) (log t)
  | AckAddr rd => mkT (if rd then Send else Recv) 0 0 (src t) (log t)
  | Recv =>
      if last then mkT AckData 0 0 (src t) (log t ++ [EGot v])
      else mkT Recv (S (cnt t)) v (src t) (log t)
  | AckData => mkT (if accepts (log t) then Recv else Away) 0 0 (src t) (log t)
  | Send =>
      if last then mkT AckMaster 0 0 (tail (src t)) (log t ++ [ESent (next_byte t)])
      else mkT Send (S (cnt t)) v (src t) (log t)
  | AckMaster => mkT (if b then Away else Send) 0 0 (src t) (log t)
  end.

(** ** The lines *)

(** The levels of the two lines, whether the device leaves the data line alone, and
    how long it will still hold the clock. *)
Record wire := mkWire { w_scl : bool; w_sda : bool; w_out : bool; w_hold : nat; w_t : target }.

(** The device sees where the adapter leaves the lines. *)
Definition wire_moves (c d : bool) (w : wire) : wire :=
  let b := d && w_out w in
  if negb c then
    if w_scl w then mkWire false (d && t_out (w_t w)) (t_out (w_t w)) (stretch (w_t w)) (w_t w)
    else mkWire false b (w_out w) (w_hold w) (w_t w)
  else if negb (w_scl w) then
    match w_hold w with
    | S n => mkWire false b (w_out w) n (w_t w)
    | O => mkWire true b (w_out w) 0 (t_clock b (w_t w))
    end
  else if w_sda w && negb b then mkWire true b (w_out w) 0 (t_start (w_t w))
  else if negb (w_sda w) && b then mkWire true b (w_out w) 0 (t_stop (w_t w))
  else w.

(** ** The specification of transfers *)

(** The bytes are taken until one is refused. *)
Fixpoint deliver (l : list tevent) (tx : list Z) : list tevent * bool :=
  match tx with
  | [] => (l, true)
  | b :: tx =>
      let l := l ++ [EGot b] in
      if accepts l then deliver l tx else (l, false)
  end.

(** A write to the address [a]: what the device has seen, and the result. *)
Definition spec_write (a : Z) (tx : list Z) (wait_stop : bool) (l : list tevent) : list tevent * Z :=
  if a =? address then
    let (l, ok) := deliver (l ++ [EStart; EHello false]) tx in
    (if (wait_stop || negb ok : bool) then l ++ [EStop] else l, if ok then 0 else - ETXABORT)
  else (l ++ [EStart; EStop], - ETXABORT).

(** The next [n] bytes. *)
Fixpoint take_bytes (n : nat) (l : list Z) : list Z :=
  match n with O => [] | S n => hd 0xff l :: take_bytes n (tail l) end.

Definition spec_read (a : Z) (n : nat) (t : target) : list tevent * list Z * Z :=
  if a =? address then
    (log t ++ [EStart; EHello true] ++ (ESent <$> take_bytes n (src t)) ++ [EStop], take_bytes n (src t), 0)
  else (log t ++ [EStart; EStop], replicate n 0, - ETXABORT).

(** A read that is preceded by a write without a stop. *)
Definition spec_random_read (a : Z) (tx : list Z) (n : nat) (t : target) : list tevent * option (list Z) * Z :=
  let (l, r) := match tx with [] => (log t, 0) | _ => spec_write a tx false (log t) end in
  if r <? 0 then (l, None, r)
  else let '(l', bs, r') := spec_read a n (mkT Idle 0 0 (src t) l) in (l', Some bs, r').

(** ** An idle bus, and one clock *)

(** The lines are high and the device leaves them alone. *)
Definition quiet_wire (t : target) : wire := mkWire true true true 0 t.

Lemma moves_quiet t : wire_moves true true (quiet_wire t) = quiet_wire t.
Proof. done. Qed.

(** After the fall of the clock. *)
Definition low_wire (d : bool) (h : nat) (t : target) : wire := mkWire false (d && t_out t) (t_out t) h t.

(** After a bit has been taken. *)
Definition high_wire (o b : bool) (t : target) : wire := mkWire true b o 0 t.

Lemma moves_fall d w : w_scl w = true -> wire_moves false d w = low_wire d (stretch (w_t w)) (w_t w).
Proof. intros E. unfold wire_moves. cbn [negb]. by rewrite E. Qed.

Lemma moves_low d d' h t : wire_moves false d (low_wire d' h t) = low_wire d h t.
Proof. done. Qed.

Lemma moves_hold d h t : wire_moves true d (low_wire d (S h) t) = low_wire d h t.
Proof. done. Qed.

Lemma moves_rise d t : wire_moves true d (low_wire d 0 t) = high_wire (t_out t) (d && t_out t) (t_clock (d && t_out t) t).
Proof. done. Qed.

Lemma moves_high d o t : wire_moves true d (high_wire o (d && o) t) = high_wire o (d && o) t.
Proof. unfold wire_moves, high_wire. cbn. by destruct (d && o). Qed.

End device.

(** The other devices are one device, and no delay takes longer than it must. *)
Definition bus_env {dv : Device} (rds : nat -> Z -> Z) : I2cEnv := {|
  other := wire;
  other_scl := w_scl;
  other_sda := w_out;
  other_moves := wire_moves;
  reads := rds;
  slip := fun _ => 0;
  arrivals := fun _ => O;
  is_jupiter_cpu := false;
  irq_free := true
|}.
