(* ===== verification/I2cBits.v ===== *)
(** * I2C adapter: one bit on the lines

    The turns of the loop, with the time they take, and one clock. *)
From stdpp Require Import base tactics list numbers option.
From Stdlib Require Import ZArith Lia.
From S2P Require Import Prelude Driver I2c I2cPins I2cBus.

(** ** Positions in the protocol *)

Lemma major_minor M i : 0 <= M < 8 -> 0 <= i < 32 -> G2C_MAJOR_STATE (32 * M + i) = M /\ G2C_MINOR_STATE (32 * M + i) = i.
Proof.
  intros HM Hi. unfold G2C_MAJOR_STATE, G2C_MINOR_STATE. rewrite Z.shiftr_div_pow2 by lia. change 7 with (Z.ones 3). change 31 with (Z.ones 5). rewrite !Z.land_ones by lia.
  change (2 ^ 5) with 32. change (2 ^ 3) with 8. Z.div_mod_to_equations. lia.
Qed.

(** ** Turns of the loop *)

Section turns.
Context {env : I2cEnv}.

(** [n] turns that do not end the transfer. *)
Fixpoint turns (n : nat) (d : Z) : Drv i2c_st unit :=
  match n with
  | O => mret tt
  | S n =>
      venus_g2c_isr;;
      x ← get_xfer;
      if mode x =? I2C_IDEL then stuck
      else
        g2c_wait d;;
        turns n d
  end.

(** At most [N] turns lead to [P]. *)
Definition Reach (N : nat) (d : Z) (s : i2c_st) (P : i2c_st -> Prop) : Prop := exists n, (n <= N)%nat /\ wp (turns n d) s (fun _ s' => P s').

Lemma reach_refl N d s (P : i2c_st -> Prop) : P s -> Reach N d s P.
Proof. intros HP. exists O. split; [lia|]. by apply wp_ret. Qed.

Lemma reach_turn N d s (P : i2c_st -> Prop) :
  wp venus_g2c_isr s (fun _ s1 => mode (xfer (p_this s1)) <> I2C_IDEL /\ wp (g2c_wait d) s1 (fun _ s2 => Reach N d s2 P)) -> Reach (S N) d s P.
Proof.
  intros ([] & s1 & E1 & Hm & [] & s2 & E2 & n & Hn & H). exists (S n). split; [lia|]. cbn [turns]. apply wp_bind. exists tt, s1. split; [done|].
  unfold get_xfer. apply wp_bind, wp_bind, wp_get, wp_ret. destruct (Z.eqb_spec (mode (xfer (p_this s1))) I2C_IDEL); [done|].
  apply wp_bind. by exists tt, s2.
Qed.

Lemma reach_le N M d s P : Reach N d s P -> (N <= M)%nat -> Reach M d s P.
Proof. intros (n & Hn & H) Hle. exists n. split; [lia|done]. Qed.

Lemma reach_mono N d s (P Q : i2c_st -> Prop) : Reach N d s P -> (forall s', P s' -> Q s') -> Reach N d s Q.
Proof. intros (n & Hn & H) HPQ. exists n. split; [done|]. apply (wp_mono _ _ _ _ H). intros [] s'. apply HPQ. Qed.

Lemma turns_app n n' d : forall s s1, turns n d s = Ret (tt, s1) -> turns (n + n') d s = turns n' d s1.
Proof.
  induction n as [|n IH]; intros s s1 E; [by injection E as <-|]. cbn [turns Nat.add] in *. unfold mbind, Drv_bind in *.
  destruct (venus_g2c_isr s) as [[[] s2]| |]; [|done..]. destruct (get_xfer s2) as [[x s3]| |]; [|done..]. destruct (mode x =? I2C_IDEL); [done|].
  destruct (g2c_wait d s3) as [[[] s4]| |]; [|done..]. by apply IH.
Qed.

Lemma reach_seq N M d s (P Q : i2c_st -> Prop) : Reach N d s P -> (forall s', P s' -> Reach M d s' Q) -> Reach (N + M) d s Q.
Proof.
  intros (n & Hn & [] & s1 & E & HP) HQ. destruct (HQ s1 HP) as (n' & Hn' & H). exists (n + n')%nat. split; [lia|].
  destruct H as (a & s2 & E2 & H). exists a, s2. split; [|done]. by rewrite (turns_app n n' d s s1).
Qed.

(** The loop from a point that can be reached. *)
Lemma loop_turns n f d : forall s s1, turns n d s = Ret (tt, s1) -> g2c_loop (n + f) d s = g2c_loop f d s1.
Proof.
  induction n as [|n IH]; intros s s1 E; [by injection E as <-|]. cbn [turns Nat.add g2c_loop] in *. unfold mbind, Drv_bind in *.
  destruct (venus_g2c_isr s) as [[[] s2]| |]; [|done..]. destruct (get_xfer s2) as [[x s3]| |]; [|done..]. destruct (mode x =? I2C_IDEL); [done|].
  destruct (g2c_wait d s3) as [[[] s4]| |]; [|done..]. by apply IH.
Qed.

Lemma loop_more f d : forall s a s' f', (f <= f')%nat -> g2c_loop f d s = Ret (a, s') -> g2c_loop f' d s = Ret (a, s').
Proof.
  induction f as [|f IH]; intros s a s' f' Hf E.
  - destruct f'; [done|]. cbn [g2c_loop] in *. unfold mbind, Drv_bind in *. destruct (venus_g2c_isr s) as [[[] s2]| |]; [|done..].
    destruct (get_xfer s2) as [[x s3]| |]; [|done..]. by destruct (mode x =? I2C_IDEL).
  - destruct f' as [|f']; [lia|]. cbn [g2c_loop] in *. unfold mbind, Drv_bind in *. destruct (venus_g2c_isr s) as [[[] s2]| |]; [|done..].
    destruct (get_xfer s2) as [[x s3]| |]; [|done..]. destruct (mode x =? I2C_IDEL); [done|]. destruct (g2c_wait d s3) as [[[] s4]| |]; [|done..]. apply IH; [lia|done].
Qed.

(** A transfer whose end can be reached in [N] turns and one more. *)
Lemma loop_reach N f d s Q : Reach N d s (fun s' => wp venus_g2c_isr s' (fun _ s2 => mode (xfer (p_this s2)) = I2C_IDEL /\ Q tt s2)) -> (N <= f)%nat -> wp (g2c_loop f d) s Q.
Proof.
  intros (n & Hn & [] & s1 & E & [] & s2 & E2 & Hm & HQ) Hf. exists tt, s2. split; [|done]. apply (loop_more (n + 0)); [lia|]. rewrite (loop_turns n 0 d s s1 E).
  cbn [g2c_loop]. unfold mbind at 1, Drv_bind at 1. rewrite E2. unfold get_xfer, mbind, Drv_bind, get. cbn. by rewrite Hm.
Qed.
End turns.

(** ** The state of a transfer *)

Definition waitx (wt : Z) (x : venus_i2c_xfer) : venus_i2c_xfer :=
  mkXfer (mode x) (flags x) (tx_buff x) (tx_buff_len x) (tx_len x) (rx_buff x) (rx_buff_len x) (rx_len x) (timeout x) (xret x) (tx_abort_source x) (complete x) (timer x) wt (gpio_xfer_state x) (gpio_xfer_sub_state x).

Definition with_xfer (d : venus_i2c) (x : venus_i2c_xfer) : venus_i2c :=
  mkDev (id d) (spd d) (tick d) (sar d) (sar_mode d) (tar d) (tar_mode d) (gpio_map d) (rx_fifo_depth d) (tx_fifo_depth d) (time_stamp d) x.

(** The position in the protocol. *)
Definition stx (st sub : Z) (x : venus_i2c_xfer) : venus_i2c_xfer :=
  mkXfer (mode x) (flags x) (tx_buff x) (tx_buff_len x) (tx_len x) (rx_buff x) (rx_buff_len x) (rx_len x) (timeout x) (xret x) (tx_abort_source x) (complete x) (timer x) (gpio_wait_time x) st sub.

Section at_.
Context {dv : Device} (rds : nat -> Z -> Z).
#[local] Hint Extern 0 I2cEnv => exact (bus_env rds) : typeclass_instances.

(** The adapter; the time of the start; the time of a turn. *)
Variable m : gpio_pins.
Hypothesis Hm : wired m.
Variable d0 : venus_i2c.
Hypothesis Hd0 : gpio_map d0 = m.
Variables j0 dd : Z.
Hypothesis Hdd : 0 <= dd.

(** At most [k] turns after the start: the directions of the two lines ([true]:
    input), the wire and the transfer. *)
Definition At (k : Z) (c d : bool) (w : wire) (x : venus_i2c_xfer) (s : i2c_st) : Prop :=
  View m s true c d false false /\ bus s = w /\ timeout x = u32 (j0 + 2 * HZ) /\
  exists e wt, p_this s = with_xfer d0 (waitx wt x) /\ jiffies s = u32 (j0 + e) /\ 0 <= e /\ 0 <= wt <= 3000 /\ 3000 * e - wt <= k * dd - 3000.

Lemma at_more k k' c d w x s : At k c d w x s -> k <= k' -> At k' c d w x s.
Proof. intros (H1 & H2 & H3 & e & wt & H4 & H5 & H6 & H7 & H8) Hk. split; [done|]. split; [done|]. split; [done|]. exists e, wt. do 4 (split; [done|]). nia. Qed.

(** Parts of the driver's state change. *)
Lemma at_upd f k c d w x s (Q : unit -> i2c_st -> Prop) : At k c d w x s -> timeout (f x) = timeout x -> (forall wt, f (waitx wt x) = waitx wt (f x)) ->
  (forall s', At k c d w (f x) s' -> Q tt s') -> wp (upd_xfer f) s Q.
Proof.
  intros (H1 & H2 & H3 & e & wt & H4 & H5 & H6) Ht Hf HQ. apply wp_modify, HQ. unfold set_dev. split; [|split; [done|split; [by rewrite Ht|]]].
  - destruct H1 as [V1 V2 V3 V4 V5 V6]. split; try done; unfold gpio_selected in *; cbn [p_this gpio_map] in *; done.
  - exists e, wt. cbn [p_this jiffies]. split; [|done]. rewrite H4. unfold with_xfer. cbn. by rewrite Hf.
Qed.

Lemma at_dev k c d w x s (Q : venus_i2c -> i2c_st -> Prop) : At k c d w x s -> (forall wt, Q (with_xfer d0 (waitx wt x)) s) -> wp get_dev s Q.
Proof. intros (H1 & H2 & H3 & e & wt & H4 & H5) HQ. unfold get_dev. apply wp_bind, wp_get, wp_ret. rewrite H4. apply HQ. Qed.

Lemma at_moved k c d w x s s' c' d' : At k c d w x s -> moved m s s' true c' d' false false -> At k c' d' (wire_moves c' d' w) x s'.
Proof.
  intros (H1 & H2 & H3 & e & wt & H4 & H5 & H6) (M1 & (M2 & M3 & _) & M4). split; [done|]. split.
  - rewrite M4, H2. unfold lv. cbn [negb orb]. by rewrite !orb_false_r.
  - split; [done|]. exists e, wt. by rewrite M2, M3.
Qed.

Lemma at_dir_scl v k c d w x s (Q : Z -> i2c_st -> Prop) : At k c d w x s -> (forall s', At k (v =? 0) d (wire_moves (v =? 0) d w) x s' -> Q 0 s') -> wp (venus_gpio_set_dir (scl m) v) s Q.
Proof. intros Ha HQ. apply (wp_dir_scl m Hm v s _ _ _ _ _ Q (proj1 Ha)). intros s' Hs'. apply HQ. by apply (at_moved k c d w x s). Qed.

Lemma at_dir_sda v k c d w x s (Q : Z -> i2c_st -> Prop) : At k c d w x s -> (forall s', At k c (v =? 0) (wire_moves c (v =? 0) w) x s' -> Q 0 s') -> wp (venus_gpio_set_dir (sda m) v) s Q.
Proof. intros Ha HQ. apply (wp_dir_sda m Hm v s _ _ _ _ _ Q (proj1 Ha)). intros s' Hs'. apply HQ. by apply (at_moved k c d w x s). Qed.

Lemma at_tick k c d w x s : At k c d w x s -> At k c d w x (tick_now s).
Proof. intros ([V1 V2 V3 V4 V5 V6] & H2). split; [split; done|done]. Qed.

Lemma at_read_scl k d w x s (Q : Z -> i2c_st -> Prop) : At k true d w x s -> (forall s', At k true d w x s' -> Q (if w_scl w then 1 else 0) s') -> wp (venus_gpio_read (scl m)) s Q.
Proof.
  intros Ha HQ. apply (wp_read_scl m Hm s _ _ _ _ _ Q (proj1 Ha)). cbn [negb andb]. destruct Ha as (H1 & H2 & H3). rewrite H2. apply HQ, at_tick. by split.
Qed.

Lemma at_read_sda k c d w x s (Q : Z -> i2c_st -> Prop) : At k c d w x s -> (forall s', At k c d w x s' -> Q (if d && w_out w then 1 else 0) s') -> wp (venus_gpio_read (sda m)) s Q.
Proof.
  intros Ha HQ. apply (wp_read_sda m Hm s _ _ _ _ _ Q (proj1 Ha)). cbn [andb]. pose proof Ha as (H1 & H2 & H3). rewrite H2.
  replace (if negb d then false else _) with (d && w_out w) by (by destruct d). by apply HQ, at_tick.
Qed.

(** The time is not up. *)
Definition early (k : Z) : Prop := k * dd <= 6000 * HZ.

Lemma at_time k c d w x s : At k c d w x s -> early k -> time_after (jiffies s) (timeout x) = false.
Proof.
  intros (_ & _ & H3 & e & wt & _ & H5 & H6 & H7 & H8) Hk. rewrite H3, H5. unfold early, HZ in *. unfold time_after, s32, u32 in *.
  rewrite <- Zminus_mod. replace (j0 + 2 * 100 - (j0 + e)) with (200 - e) by lia. rewrite Z.mod_small by (unfold W32; lia).
  destruct (Z.ltb_spec (200 - e) 2147483648); [|lia]. apply Z.ltb_ge. lia.
Qed.

(** What [venus_g2c_isr] does when the time is not up. *)
Definition handler (x : venus_i2c_xfer) : Drv i2c_st unit :=
  let major := G2C_MAJOR_STATE (gpio_xfer_state x) in
  if major =? G2C_STATE_START then venus_g2c_do_start
  else if major =? G2C_STATE_ADDR then venus_g2c_do_address
  else if major =? G2C_STATE_STOP then venus_g2c_do_stop
  else if major =? G2C_STATE_DONE then venus_g2c_do_complete
  else if major =? G2C_STATE_DATA then
    if mode x =? I2C_MASTER_WRITE then venus_g2c_do_write else venus_g2c_do_read
  else mret tt.

Lemma at_isr k c d w x s Q : At k c d w x s -> early k -> wp (handler x) s Q -> wp venus_g2c_isr s Q.
Proof.
  intros Ha Hk HQ. pose proof (at_time k c d w x s Ha Hk) as Ht. destruct Ha as (_ & _ & _ & e & wt & H4 & _).
  unfold venus_g2c_isr, get_xfer, get_jiffies. apply wp_bind, wp_bind, wp_get, wp_ret, wp_bind, wp_bind, wp_get, wp_ret. rewrite H4. cbn [with_xfer xfer waitx mode timeout].
  rewrite Ht, andb_false_r. apply wp_bind, wp_ret, wp_bind, wp_bind, wp_get, wp_ret. rewrite H4. exact HQ.
Qed.

Lemma at_wait k c d w x s (Q : unit -> i2c_st -> Prop) : At k c d w x s -> (forall s', At (k + 1) c d (wire_moves c d w) x s' -> Q tt s') -> wp (g2c_wait dd) s Q.
Proof.
  intros (H1 & H2 & H3 & e & wt & H4 & H5 & H6 & H7 & H8) HQ. unfold g2c_wait, get_xfer. apply wp_bind, wp_bind, wp_get, wp_ret. rewrite H4. cbn [with_xfer xfer waitx gpio_wait_time].
  assert (Hstep : forall f n, 0 <= f wt <= 3000 -> 0 <= n -> 3000 * (e + n) - f wt <= (k + 1) * dd - 3000 -> wp (set_wait_time f;; pass n) s Q).
  { intros f n Hw Hn Hb. apply wp_bind, wp_modify. unfold set_dev.
    apply (wp_pass m n _ true c d false false Q).
    - destruct H1 as [V1 V2 V3 V4 V5 V6]. split; try done.
    - intros s' V1 V2 V3 V4 V5. apply HQ. split; [done|]. split; [rewrite V5; cbn [bus]; rewrite H2; unfold lv; cbn [negb orb]; by rewrite !orb_false_r|]. split; [done|].
      exists (e + n), (f wt). rewrite V2, V4. cbn [p_this jiffies]. rewrite H4, H5. split; [done|]. split; [|lia].
      cbn [slip bus_env]. unfold u32. rewrite Z.add_0_r, Zplus_mod_idemp_l. f_equal. lia. }
  destruct (Z.leb_spec wt dd) as [Hle|Hgt].
  - unfold msleep. change (1 / 10 + 1) with 1. apply Hstep; unfold G2C_WAIT_TIMEOUT; lia.
  - apply (Hstep (fun w => w - dd) 0); lia.
Qed.

(** ** One clock *)

Lemma at_turn N k c d w x s c' d' w' x' P : At k c d w x s -> early k -> mode x' <> I2C_IDEL ->
  wp (handler x) s (fun _ s' => At k c' d' w' x' s') -> (forall s', At (k + 1) c' d' (wire_moves c' d' w') x' s' -> Reach N dd s' P) -> Reach (S N) dd s P.
Proof.
  intros Ha Hk Hx Hh HP. apply reach_turn, (at_isr k c d w x s _ Ha Hk), (wp_mono _ _ _ _ Hh). intros [] s1 Hs1. split.
  - destruct Hs1 as (_ & _ & _ & e & wt & -> & _). done.
  - apply (at_wait k c' d' w' x' s1 _ Hs1). exact HP.
Qed.

(** The clock line is waited for. *)
Lemma poll d t x P N (Hx : mode x <> I2C_IDEL) :
  (forall k w s, At k true d w x s -> w_scl w = false -> wp (handler x) s (fun _ s' => At k true d w x s')) -> forall h k s,
  At k true d (wire_moves true d (low_wire d h t)) x s -> early (k + Z.of_nat h) ->
  (forall s', At (k + Z.of_nat h) true d (high_wire (t_out t) (d && t_out t) (t_clock (d && t_out t) t)) x s' -> Reach N dd s' P) -> Reach (h + N) dd s P.
Proof.
  intros Hw. induction h as [|h IH]; intros k s Ha Hk HP.
  - rewrite moves_rise in Ha. apply HP. by rewrite Z.add_0_r.
  - rewrite moves_hold in Ha. assert (Hk' : early k) by (unfold early in *; nia).
    apply (at_turn _ k true d (low_wire d h t) x s true d (low_wire d h t) x P Ha Hk' Hx (Hw _ _ _ Ha eq_refl)).
    intros s' Hs'. apply (IH (k + 1)); [done|by replace (k + 1 + Z.of_nat h) with (k + Z.of_nat (S h)) by lia|].
    intros s2 Hs2. apply HP. by replace (k + Z.of_nat (S h)) with (k + 1 + Z.of_nat h) by lia.
Qed.

(** The four parts of a bit: the clock falls, the data line is set to [d'], the clock
    is released, and waited for. *)
Lemma cycle x0 x1 x2 x3 c d d' w t h N P k s : At k c d w x0 s -> wire_moves false d w = low_wire d (stretch t) t -> (stretch t <= h)%nat -> early (k + 3 + Z.of_nat h) ->
  mode x1 <> I2C_IDEL -> mode x2 <> I2C_IDEL -> mode x3 <> I2C_IDEL ->
  (forall k s, At k c d w x0 s -> wp (handler x0) s (fun _ s' => At k false d (wire_moves false d w) x1 s')) ->
  (forall k w s, At k false d w x1 s -> wp (handler x1) s (fun _ s' => At k false d' (wire_moves false d' w) x2 s')) ->
  (forall k w s, At k false d' w x2 s -> w_out w = t_out t -> wp (handler x2) s (fun _ s' => At k true d' (wire_moves true d' w) x3 s')) ->
  (forall k w s, At k true d' w x3 s -> w_scl w = false -> wp (handler x3) s (fun _ s' => At k true d' w x3 s')) ->
  (forall s', At (k + 3 + Z.of_nat h) true d' (high_wire (t_out t) (d' && t_out t) (t_clock (d' && t_out t) t)) x3 s' -> Reach N dd s' P) ->
  Reach (3 + h + N) dd s P.
Proof.
  intros Ha Hc Hh Hk M1 M2 M3 C0 C1 C2 C3 HP. assert (Hek : forall j, 0 <= j <= 3 + Z.of_nat h -> early (k + j)) by (unfold early in *; intros; nia).
  eapply (at_turn _ k); [exact Ha|rewrite <- (Z.add_0_r k); apply Hek; lia|exact M1|by apply C0|]. intros s1 A1.
  rewrite Hc, moves_low in A1.
  eapply (at_turn _ (k + 1)); [exact A1|apply Hek; lia|exact M2|by apply C1|]. intros s2 A2. rewrite !moves_low in A2.
  eapply (at_turn _ (k + 1 + 1)); [exact A2|rewrite <- Z.add_assoc; apply Hek; lia|exact M3|by apply C2|]. intros s3 A3.
  assert (Hrise : forall j, wire_moves true d' (wire_moves true d' (low_wire d' j t)) = wire_moves true d' (low_wire d' (pred j) t)).
  { intros [|j]; [rewrite moves_rise at 1; rewrite moves_high; by rewrite moves_rise|by rewrite moves_hold]. }
  rewrite Hrise in A3. apply (reach_le (pred (stretch t) + (h - pred (stretch t) + N))); [|change (pred (stretch t) + (h - pred (stretch t) + N) <= h + N)%nat; lia].
  apply (poll d' t x3 P _ M3 C3 _ (k + 1 + 1 + 1) s3 A3); [replace (k + 1 + 1 + 1 + Z.of_nat (pred (stretch t))) with (k + (3 + Z.of_nat (pred (stretch t)))) by lia; apply Hek; lia|].
  intros s4 A4. assert (A5 : At (k + 3 + Z.of_nat h) true d' (high_wire (t_out t) (d' && t_out t) (t_clock (d' && t_out t) t)) x3 s4) by (apply (at_more _ _ _ _ _ _ _ A4); lia).
  apply (reach_le N); [by apply HP|lia].
Qed.

(** A bit whose last part ends with the clock seen high. *)
Lemma bit_cycle x0 x1 x2 x3 x4 c d d' w t h N P k s : At k c d w x0 s -> wire_moves false d w = low_wire d (stretch t) t -> (stretch t <= h)%nat -> early (k + 4 + Z.of_nat h) ->
  mode x1 <> I2C_IDEL -> mode x2 <> I2C_IDEL -> mode x3 <> I2C_IDEL -> mode x4 <> I2C_IDEL ->
  (forall k s, At k c d w x0 s -> wp (handler x0) s (fun _ s' => At k false d (wire_moves false d w) x1 s')) ->
  (forall k w s, At k false d w x1 s -> wp (handler x1) s (fun _ s' => At k false d' (wire_moves false d' w) x2 s')) ->
  (forall k w s, At k false d' w x2 s -> w_out w = t_out t -> wp (handler x2) s (fun _ s' => At k true d' (wire_moves true d' w) x3 s')) ->
  (forall k w s, At k true d' w x3 s -> w_scl w = false -> wp (handler x3) s (fun _ s' => At k true d' w x3 s')) ->
  (let w' := high_wire (t_out t) (d' && t_out t) (t_clock (d' && t_out t) t) in
   (forall k s, At k true d' w' x3 s -> wp (handler x3) s (fun _ s' => At k true d' w' x4 s')) /\
   (forall s', At (k + 4 + Z.of_nat h) true d' w' x4 s' -> Reach N dd s' P)) ->
  Reach (4 + h + N) dd s P.
Proof.
  intros Ha Hc Hh Hk M1 M2 M3 M4 C0 C1 C2 C3 [C4 HP]. apply (reach_le (3 + h + S N)); [|lia].
  apply (cycle x0 x1 x2 x3 c d d' w t h (S N) P k s Ha Hc Hh); [unfold early in *; nia|done|done|done|done|done|done|done|].
  intros s' Hs'. eapply (at_turn N (k + 3 + Z.of_nat h)); [exact Hs'|unfold early in *; nia|exact M4|by apply C4|].
  intros s2 Hs2. rewrite moves_high in Hs2. apply HP. by replace (k + 4 + Z.of_nat h) with (k + 3 + Z.of_nat h + 1) by lia.
Qed.
End at_.
