(* ===== verification/I2cG2c.v ===== *)
(** * I2C adapter: bytes and transfers on the lines *)
From stdpp Require Import base tactics list numbers option.
From Stdlib Require Import ZArith Lia.
From S2P Require Import Prelude Driver I2c I2cPins I2cBus I2cBits.

Section g2c.
Context {dv : Device} (rds : nat -> Z -> Z).
#[local] Hint Extern 0 I2cEnv => exact (bus_env rds) : typeclass_instances.
Variable m : gpio_pins.
Hypothesis Hm : wired m.
Variable d0 : venus_i2c.
Hypothesis Hd0 : gpio_map d0 = m.
Variables j0 dd : Z.
Hypothesis Hdd : 0 <= dd.

#[local] Abbreviation At := (I2cBits.At rds m d0 j0 dd).
#[local] Abbreviation handler := (I2cBits.handler rds).

(** ** Positions *)

Lemma handler_start sub x : handler (stx 0 sub x) = venus_g2c_do_start.
Proof. done. Qed.

Lemma handler_addr i sub x : 0 <= i < 32 -> handler (stx (32 * 1 + i) sub x) = venus_g2c_do_address.
Proof. intros Hi. unfold I2cBits.handler. cbn [stx gpio_xfer_state]. by rewrite (proj1 (major_minor 1 i ltac:(lia) Hi)). Qed.

Lemma handler_data i sub x : 0 <= i < 32 -> handler (stx (32 * 2 + i) sub x) = if mode x =? I2C_MASTER_WRITE then venus_g2c_do_write else venus_g2c_do_read.
Proof. intros Hi. unfold I2cBits.handler. cbn [stx gpio_xfer_state mode]. by rewrite (proj1 (major_minor 2 i ltac:(lia) Hi)). Qed.

Lemma handler_stop sub x : handler (stx 96 sub x) = venus_g2c_do_stop.
Proof. done. Qed.

Lemma handler_done sub x : handler (stx 128 sub x) = venus_g2c_do_complete.
Proof. done. Qed.

(** ** Steps of the handlers *)

Ltac dev Ha := apply wp_bind; eapply at_dev; [exact Ha|let wt := fresh "wt" in intros wt; cbn [with_xfer waitx stx gpio_map xfer gpio_xfer_state gpio_xfer_sub_state rx_buff rx_len rx_buff_len tx_buff tx_len tx_buff_len flags xret mode tar]; rewrite ?Hd0].
Ltac dir_scl := apply wp_bind; eapply at_dir_scl; [exact Hm|eassumption|let s := fresh "s" in let H := fresh "A" in intros s H; cbn [Z.eqb] in H].
Ltac dir_sda := apply wp_bind; eapply at_dir_sda; [exact Hm|eassumption|let s := fresh "s" in let H := fresh "A" in intros s H; cbn [Z.eqb] in H].
Ltac rd_scl := apply wp_bind; eapply at_read_scl; [exact Hm|eassumption|let s := fresh "s" in let H := fresh "A" in intros s H].
Ltac rd_sda := apply wp_bind; eapply at_read_sda; [exact Hm|eassumption|let s := fresh "s" in let H := fresh "A" in intros s H].
Ltac here := match goal with H : I2cBits.At _ _ _ _ _ _ _ _ _ _ ?s |- I2cBits.At _ _ _ _ _ _ _ _ _ _ ?s => exact H end.
Ltac upd := eapply at_upd; [eassumption|reflexivity|reflexivity|let s := fresh "s" in let H := fresh "A" in intros s H].

(** The byte with the address. *)
Definition abyte (x : venus_i2c_xfer) : Z := let a := u8 (Z.shiftl (tar d0) 1) in if mode x =? I2C_MASTER_READ then Z.lor a 1 else a.

Lemma minor_addr i : 0 <= i < 32 -> G2C_MINOR_STATE (32 * 1 + i) = i.
Proof. intros Hi. apply (major_minor 1 i); lia. Qed.
Lemma minor_data i : 0 <= i < 32 -> G2C_MINOR_STATE (32 * 2 + i) = i.
Proof. intros Hi. apply (major_minor 2 i); lia. Qed.

(** A bit of the address; the device listens. *)
Lemma addr_bit i x c d w t h N P k s : At k c d w (stx (32 * 1 + i) 0 x) s -> 0 <= i <= 7 -> wire_moves false d w = low_wire d (stretch t) t -> (stretch t <= h)%nat -> early dd (k + 4 + Z.of_nat h) ->
  mode x <> I2C_IDEL -> t_out t = true -> let b := Z.testbit (abyte x) (7 - i) in
  (forall s', At (k + 4 + Z.of_nat h) true b (high_wire true b (t_clock b t)) (stx (32 * 1 + (i + 1)) 0 x) s' -> Reach N dd s' P) -> Reach (4 + h + N) dd s P.
Proof.
  intros Ha Hi Hc Hh Hk Hx Ho b HP.
  assert (Hi' : (i <=? 7) = true) by (apply Z.leb_le; lia). pose proof (minor_addr i ltac:(lia)) as Em.
  assert (Eb : forall wt sub, odd_at (g2c_addr (with_xfer d0 (waitx wt (stx (32 * 1 + i) sub x)))) (7 - i) = b) by (intros; by rewrite odd_at_testbit by lia).
  apply (bit_cycle rds m d0 j0 dd Hdd (stx (32 * 1 + i) 0 x) (stx (32 * 1 + i) 1 x) (stx (32 * 1 + i) 2 x) (stx (32 * 1 + i) 3 x) (stx (32 * 1 + (i + 1)) 0 x) c d b w t h N P k s Ha Hc Hh Hk); try done.
  - intros k' s' A. rewrite handler_addr by lia. unfold venus_g2c_do_address. dev A. rewrite Em, Hi'. cbn [Z.eqb]. dir_scl. upd. here.
  - intros k' w' s' A. rewrite handler_addr by lia. unfold venus_g2c_do_address. dev A. rewrite Em, Hi'. cbn [Z.eqb]. cbn beta iota.
    rewrite (Eb wt 1). destruct b; dir_sda; upd; here.
  - intros k' w' s' A Ew. rewrite handler_addr by lia. unfold venus_g2c_do_address. dev A. rewrite Em, Hi'. cbn [Z.eqb]. cbn beta iota. rewrite (Eb wt 2). apply wp_bind.
    destruct b eqn:Eb'.
    + apply wp_bind. eapply at_read_sda; [exact Hm|exact A|]. intros s1 A1. rewrite Ew, Ho. cbn [andb Z.eqb]. apply wp_ret. dir_scl. upd. here.
    + apply wp_ret. dir_scl. upd. here.
  - intros k' w' s' A Ew. rewrite handler_addr by lia. unfold venus_g2c_do_address. dev A. rewrite Em, Hi'. cbn [Z.eqb]. cbn beta iota. rd_scl. rewrite Ew. cbn. by apply wp_ret.
  - rewrite Ho, andb_true_r. split; [|exact HP]. intros k' s' A. rewrite handler_addr by lia. unfold venus_g2c_do_address. dev A. rewrite Em, Hi'. cbn [Z.eqb]. cbn beta iota. rd_scl. cbn [w_scl high_wire Z.eqb negb].
    upd. replace (stx (32 * 1 + (i + 1)) 0 x) with (stx (u8 (32 * 1 + i + 1)) 0 x); [exact A1|]. f_equal. unfold u8. rewrite Z.mod_small; lia.
Qed.

(** A bit of a byte that is written. *)
Lemma write_bit i x c d w t h N P k s : At k c d w (stx (32 * 2 + i) 0 x) s -> 0 <= i <= 7 -> wire_moves false d w = low_wire d (stretch t) t -> (stretch t <= h)%nat -> early dd (k + 4 + Z.of_nat h) ->
  mode x = I2C_MASTER_WRITE -> 0 <= tx_len x < Zlen (tx_buff x) -> t_out t = true -> let b := Z.testbit (tx_buff x).[tx_len x] (7 - i) in
  (forall s', At (k + 4 + Z.of_nat h) true b (high_wire true b (t_clock b t)) (stx (32 * 2 + (i + 1)) 0 x) s' -> Reach N dd s' P) -> Reach (4 + h + N) dd s P.
Proof.
  intros Ha Hi Hc Hh Hk Hx Hl Ho b HP. assert (Hi' : (i <? 8) = true) by (apply Z.ltb_lt; lia). pose proof (minor_data i ltac:(lia)) as Em.
  assert (Hh' : forall sub, handler (stx (32 * 2 + i) sub x) = venus_g2c_do_write) by (intros sub; rewrite handler_data, Hx by lia; done).
  assert (Hx' : mode x <> I2C_IDEL) by (by rewrite Hx).
  assert (Eb : odd_at (tx_buff x).[tx_len x] (7 - i) = b) by (by rewrite odd_at_testbit by lia). pose proof (rd_ok _ _ Hl) as Erd.
  apply (bit_cycle rds m d0 j0 dd Hdd (stx (32 * 2 + i) 0 x) (stx (32 * 2 + i) 1 x) (stx (32 * 2 + i) 2 x) (stx (32 * 2 + i) 3 x) (stx (32 * 2 + (i + 1)) 0 x) c d b w t h N P k s Ha Hc Hh Hk); try done.
  - intros k' s' A. rewrite Hh'. unfold venus_g2c_do_write. dev A. rewrite Em, Hi'. cbn [Z.eqb]. dir_scl. upd. here.
  - intros k' w' s' A. rewrite Hh'. unfold venus_g2c_do_write. dev A. rewrite Em, Hi'. cbn [Z.eqb]. cbn beta iota. apply wp_bind, (wp_lift _ _ _ _ Erd). rewrite Eb.
    destruct b; dir_sda; upd; here.
  - intros k' w' s' A Ew. rewrite Hh'. unfold venus_g2c_do_write. dev A. rewrite Em, Hi'. cbn [Z.eqb]. cbn beta iota. apply wp_bind, (wp_lift _ _ _ _ Erd). rewrite Eb. apply wp_bind.
    destruct b eqn:Eb'.
    + apply wp_bind. eapply at_read_sda; [exact Hm|exact A|]. intros s1 A1. rewrite Ew, Ho. cbn [andb Z.eqb]. apply wp_ret. dir_scl. upd. here.
    + apply wp_ret. dir_scl. upd. here.
  - intros k' w' s' A Ew. rewrite Hh'. unfold venus_g2c_do_write. dev A. rewrite Em, Hi'. cbn [Z.eqb]. cbn beta iota. rd_scl. rewrite Ew. cbn. by apply wp_ret.
  - rewrite Ho, andb_true_r. split; [|exact HP]. intros k' s' A. rewrite Hh'. unfold venus_g2c_do_write. dev A. rewrite Em, Hi'. cbn [Z.eqb]. cbn beta iota. rd_scl. cbn [w_scl high_wire Z.eqb negb].
    upd. replace (stx (32 * 2 + (i + 1)) 0 x) with (stx (u8 (32 * 2 + i + 1)) 0 x); [exact A1|]. f_equal. unfold u8. rewrite Z.mod_small; lia.
Qed.

Definition retx (v : Z) (x : venus_i2c_xfer) : venus_i2c_xfer :=
  mkXfer (mode x) (flags x) (tx_buff x) (tx_buff_len x) (tx_len x) (rx_buff x) (rx_buff_len x) (rx_len x) (timeout x) v (tx_abort_source x) (complete x) (timer x) (gpio_wait_time x) (gpio_xfer_state x) (gpio_xfer_sub_state x).
Definition txx (n : Z) (x : venus_i2c_xfer) : venus_i2c_xfer :=
  mkXfer (mode x) (flags x) (tx_buff x) (tx_buff_len x) n (rx_buff x) (rx_buff_len x) (rx_len x) (timeout x) (xret x) (tx_abort_source x) (complete x) (timer x) (gpio_wait_time x) (gpio_xfer_state x) (gpio_xfer_sub_state x).
Definition rxx (buf : list Z) (n : Z) (x : venus_i2c_xfer) : venus_i2c_xfer :=
  mkXfer (mode x) (flags x) (tx_buff x) (tx_buff_len x) (tx_len x) buf (rx_buff_len x) n (timeout x) (xret x) (tx_abort_source x) (complete x) (timer x) (gpio_wait_time x) (gpio_xfer_state x) (gpio_xfer_sub_state x).

(** The acknowledgement of the address. *)
Lemma addr_ack x c d w t h N P k s : At k c d w (stx (32 * 1 + 8) 0 x) s -> wire_moves false d w = low_wire d (stretch t) t -> (stretch t <= h)%nat -> early dd (k + 4 + Z.of_nat h) ->
  mode x <> I2C_IDEL -> let o := t_out t in
  (forall s', At (k + 4 + Z.of_nat h) true true (high_wire o o (t_clock o t)) (if o then stx 96 0 (retx (- ETXABORT) x) else stx 64 0 x) s' -> Reach N dd s' P) -> Reach (4 + h + N) dd s P.
Proof.
  intros Ha Hc Hh Hk Hx o HP. pose proof (minor_addr 8 ltac:(lia)) as Em.
  apply (bit_cycle rds m d0 j0 dd Hdd (stx (32 * 1 + 8) 0 x) (stx (32 * 1 + 8) 1 x) (stx (32 * 1 + 8) 2 x) (stx (32 * 1 + 8) 3 x) (if o then stx 96 0 (retx (- ETXABORT) x) else stx 64 0 x) c d true w t h N P k s Ha Hc Hh Hk); try done; try (by destruct o).
  - intros k' s' A. rewrite handler_addr by lia. unfold venus_g2c_do_address. dev A. rewrite Em. cbn [Z.eqb Z.leb Z.compare]. dir_scl. upd. here.
  - intros k' w' s' A. rewrite handler_addr by lia. unfold venus_g2c_do_address. dev A. rewrite Em. cbn [Z.eqb Z.leb Z.compare]. cbn. dir_sda. upd. here.
  - intros k' w' s' A Ew. rewrite handler_addr by lia. unfold venus_g2c_do_address. dev A. rewrite Em. cbn. dir_scl. upd. here.
  - intros k' w' s' A Ew. rewrite handler_addr by lia. unfold venus_g2c_do_address. dev A. rewrite Em. cbn. rd_scl. rewrite Ew. cbn. by apply wp_ret.
  - cbn [andb]. split; [|exact HP]. intros k' s' A. rewrite handler_addr by lia. unfold venus_g2c_do_address. dev A. rewrite Em. cbn. rd_scl. cbn [w_scl high_wire Z.eqb negb]. cbn. rd_sda.
    cbn [w_out high_wire]. subst o. cbn [andb]. destruct (t_out t); cbn.
    + apply wp_bind. upd. upd. here.
    + upd. here.
Qed.

(** The acknowledgement of a byte that was written. *)
Lemma write_ack x c d w t h N P k s : At k c d w (stx (32 * 2 + 8) 0 x) s -> wire_moves false d w = low_wire d (stretch t) t -> (stretch t <= h)%nat -> early dd (k + 4 + Z.of_nat h) ->
  mode x = I2C_MASTER_WRITE -> 0 <= tx_len x < 65535 -> let o := t_out t in
  (forall s', At (k + 4 + Z.of_nat h) true true (high_wire o o (t_clock o t))
     (let x := txx (tx_len x + 1) x in if o then stx 96 0 (retx (- ETXABORT) x) else if tx_buff_len x <=? tx_len x then stx 96 0 x else stx 64 0 x) s' -> Reach N dd s' P) ->
  Reach (4 + h + N) dd s P.
Proof.
  intros Ha Hc Hh Hk Hx Hl o HP. pose proof (minor_data 8 ltac:(lia)) as Em. cbn zeta in HP. cbn [txx tx_buff_len tx_len] in HP.
  assert (Hh' : forall sub, handler (stx (32 * 2 + 8) sub x) = venus_g2c_do_write) by (intros sub; rewrite handler_data, Hx by lia; done).
  assert (Hx' : mode x <> I2C_IDEL) by (by rewrite Hx). assert (El : (tx_len x + 1) mod 65536 = tx_len x + 1) by (rewrite Z.mod_small; lia).
  apply (bit_cycle rds m d0 j0 dd Hdd (stx (32 * 2 + 8) 0 x) (stx (32 * 2 + 8) 1 x) (stx (32 * 2 + 8) 2 x) (stx (32 * 2 + 8) 3 x)
    (if o then stx 96 0 (retx (- ETXABORT) (txx (tx_len x + 1) x)) else if tx_buff_len x <=? tx_len x + 1 then stx 96 0 (txx (tx_len x + 1) x) else stx 64 0 (txx (tx_len x + 1) x))
    c d true w t h N P k s Ha Hc Hh Hk); try done; try (by destruct o, (tx_buff_len x <=? tx_len x + 1)).
  - intros k' s' A. rewrite Hh'. unfold venus_g2c_do_write. dev A. rewrite Em. cbn. dir_scl. upd. here.
  - intros k' w' s' A. rewrite Hh'. unfold venus_g2c_do_write. dev A. rewrite Em. cbn. dir_sda. upd. here.
  - intros k' w' s' A Ew. rewrite Hh'. unfold venus_g2c_do_write. dev A. rewrite Em. cbn. dir_scl. upd. here.
  - intros k' w' s' A Ew. rewrite Hh'. unfold venus_g2c_do_write. dev A. rewrite Em. cbn. rd_scl. rewrite Ew. cbn. by apply wp_ret.
  - cbn [andb]. split; [|exact HP]. intros k' s' A. rewrite Hh'. unfold venus_g2c_do_write. dev A. rewrite Em. cbn. rd_scl. cbn [w_scl high_wire Z.eqb negb]. cbn.
    apply wp_bind. upd. cbn [stx tx_len] in A1. rewrite El in *. rd_sda. cbn [w_out high_wire]. subst o. cbn [andb]. destruct (t_out t); cbn.
    + rd_sda. cbn [w_out high_wire andb]. cbn. apply wp_bind. upd. upd. here.
    + destruct (tx_buff_len x <=? tx_len x + 1); cbn; [|upd; here]. rd_sda. cbn. apply wp_bind, wp_ret. upd. here.
Qed.

(** A bit of a byte that is read. *)
Lemma read_bit i x c d w t h N P k s : At k c d w (stx (32 * 2 + i) 0 x) s -> 0 <= i <= 7 -> wire_moves false d w = low_wire d (stretch t) t -> (stretch t <= h)%nat -> early dd (k + 4 + Z.of_nat h) ->
  mode x = I2C_MASTER_READ -> 0 <= rx_len x < Zlen (rx_buff x) -> let o := t_out t in
  (forall s', At (k + 4 + Z.of_nat h) true true (high_wire o o (t_clock o t))
     (stx (32 * 2 + (i + 1)) 0 (rxx (if o then <[Z.to_nat (rx_len x) := u8 (Z.lor (rx_buff x).[rx_len x] (Z.shiftl 1 (7 - i)))]> (rx_buff x) else rx_buff x) (rx_len x) x)) s' -> Reach N dd s' P) ->
  Reach (4 + h + N) dd s P.
Proof.
  intros Ha Hi Hc Hh Hk Hx Hl o HP. assert (Hi' : (i <? 8) = true) by (apply Z.ltb_lt; lia). pose proof (minor_data i ltac:(lia)) as Em.
  assert (Hh' : forall sub, handler (stx (32 * 2 + i) sub x) = venus_g2c_do_read) by (intros sub; rewrite handler_data, Hx by lia; done).
  assert (Hx' : mode x <> I2C_IDEL) by (by rewrite Hx). pose proof (rd_ok _ _ Hl) as Erd.
  assert (Es : u8 (32 * 2 + i + 1) = 32 * 2 + (i + 1)) by (unfold u8; rewrite Z.mod_small; lia).
  apply (bit_cycle rds m d0 j0 dd Hdd (stx (32 * 2 + i) 0 x) (stx (32 * 2 + i) 1 x) (stx (32 * 2 + i) 2 x) (stx (32 * 2 + i) 3 x)
    (stx (32 * 2 + (i + 1)) 0 (rxx (if o then <[Z.to_nat (rx_len x) := u8 (Z.lor (rx_buff x).[rx_len x] (Z.shiftl 1 (7 - i)))]> (rx_buff x) else rx_buff x) (rx_len x) x))
    c d true w t h N P k s Ha Hc Hh Hk); try done.
  - intros k' s' A. rewrite Hh'. unfold venus_g2c_do_read. dev A. rewrite Em, Hi'. cbn. dir_scl. upd. here.
  - intros k' w' s' A. rewrite Hh'. unfold venus_g2c_do_read. dev A. rewrite Em, Hi'. cbn. dir_sda. upd. here.
  - intros k' w' s' A Ew. rewrite Hh'. unfold venus_g2c_do_read. dev A. rewrite Em, Hi'. cbn. dir_scl. upd. here.
  - intros k' w' s' A Ew. rewrite Hh'. unfold venus_g2c_do_read. dev A. rewrite Em, Hi'. cbn. rd_scl. rewrite Ew. cbn. by apply wp_ret.
  - cbn [andb]. split; [|exact HP]. intros k' s' A. rewrite Hh'. unfold venus_g2c_do_read. dev A. rewrite Em, Hi'. cbn. rd_scl. cbn [w_scl high_wire Z.eqb negb]. cbn.
    rd_sda. cbn [w_out high_wire]. subst o. cbn [andb]. destruct (t_out t); cbn.
    + apply wp_bind, wp_bind, (wp_lift _ _ _ _ Erd), wp_bind, (wp_lift _ _ _ _ (wr_ok _ _ _ Hl)). upd. upd. rewrite <- Es. here.
    + apply wp_bind, wp_ret. upd. rewrite <- Es. here.
Qed.

(** The acknowledgement of a byte that was read. *)
Lemma read_ack x c d w t h N P k s : At k c d w (stx (32 * 2 + 8) 0 x) s -> wire_moves false d w = low_wire d (stretch t) t -> (stretch t <= h)%nat -> early dd (k + 4 + Z.of_nat h) ->
  mode x = I2C_MASTER_READ -> 0 <= rx_len x < 65535 -> t_out t = true -> let n := rx_len x + 1 in let b := negb (n <? rx_buff_len x) in
  (forall s', At (k + 4 + Z.of_nat h) true b (high_wire true b (t_clock b t)) (stx (if b then 96 else 64) 0 (rxx (rx_buff x) n x)) s' -> Reach N dd s' P) ->
  Reach (4 + h + N) dd s P.
Proof.
  intros Ha Hc Hh Hk Hx Hl Ho n b HP. pose proof (minor_data 8 ltac:(lia)) as Em.
  assert (Hh' : forall sub y, mode y = I2C_MASTER_READ -> handler (stx (32 * 2 + 8) sub y) = venus_g2c_do_read) by (intros sub y Hy; rewrite handler_data, Hy by lia; done).
  assert (Hx' : mode x <> I2C_IDEL) by (by rewrite Hx). assert (El : (rx_len x + 1) mod 65536 = n) by (rewrite Z.mod_small; lia).
  assert (Eb : (n <? rx_buff_len x) = negb b) by (unfold b; by rewrite negb_involutive). set (y := rxx (rx_buff x) n x) in *. assert (Hy : mode y = I2C_MASTER_READ) by done.
  apply (bit_cycle rds m d0 j0 dd Hdd (stx (32 * 2 + 8) 0 x) (stx (32 * 2 + 8) 1 y) (stx (32 * 2 + 8) 2 y) (stx (32 * 2 + 8) 3 y)
    (stx (if b then 96 else 64) 0 y) c d b w t h N P k s Ha Hc Hh Hk); try done.
  - intros k' s' A. rewrite Hh' by done. unfold venus_g2c_do_read. dev A. rewrite Em. cbn. dir_scl. apply wp_bind. upd. upd. unfold y. rewrite <- El. here.
  - intros k' w' s' A. rewrite Hh' by done. unfold venus_g2c_do_read. dev A. rewrite Em. cbn. rewrite Eb. destruct b; cbn; dir_sda; upd; here.
  - intros k' w' s' A Ew. rewrite Hh' by done. unfold venus_g2c_do_read. dev A. rewrite Em. cbn. dir_scl. upd. here.
  - intros k' w' s' A Ew. rewrite Hh' by done. unfold venus_g2c_do_read. dev A. rewrite Em. cbn. rd_scl. rewrite Ew. cbn. by apply wp_ret.
  - rewrite Ho, andb_true_r. split; [|exact HP]. intros k' s' A. rewrite Hh' by done. unfold venus_g2c_do_read. dev A. rewrite Em. cbn. rd_scl. cbn [w_scl high_wire Z.eqb negb]. cbn.
    rewrite Eb. destruct b; cbn; upd; here.
Qed.

(** ** Start, stop, end *)

(** The pins belong to the controller, and the bus is idle. *)
Definition Pre (t : target) (x : venus_i2c_xfer) (s : i2c_st) : Prop :=
  (exists c d oc od, View m s false c d oc od) /\ bus s = quiet_wire t /\ p_this s = with_xfer d0 x.

Lemma start_first t x s (Q : unit -> i2c_st -> Prop) : Pre t (waitx 3000 (stx 0 0 x)) s -> timeout x = u32 (j0 + 2 * HZ) -> jiffies s = u32 (j0 + 0) ->
  (forall s', At 0 true true (quiet_wire t) (stx 0 1 x) s' -> Q tt s') -> wp venus_g2c_do_start s Q.
Proof.
  intros ((c & d & oc & od & Hv) & Hb & Hp) Ht Hj HQ. unfold venus_g2c_do_start, get_dev. apply wp_bind, wp_bind, wp_get, wp_ret. rewrite Hp. cbn [with_xfer gpio_map xfer waitx stx gpio_xfer_sub_state Z.eqb]. rewrite Hd0.
  assert (Hmv : forall s s' c d oc od, bus s = quiet_wire t -> moved m s s' false c d oc od -> View m s' false c d oc od /\ bus s' = quiet_wire t /\ p_this s' = p_this s /\ jiffies s' = jiffies s).
  { intros s1 s1' c1 d1 oc1 od1 Hb1 (M1 & (M2 & M3 & _) & M4). split; [done|]. split; [|done]. rewrite M4, Hb1. apply moves_quiet. }
  pose proof (p_scl m Hm) as P1. pose proof (p_sda m Hm) as P2.
  apply wp_bind. apply (wp_ie m Hm (sda m) 0 s _ _ _ _ _ _ P2 Hv). intros s1 (V1 & B1 & D1 & J1)%(Hmv s); [|done].
  apply wp_bind. apply (wp_ie m Hm (scl m) 0 s1 _ _ _ _ _ _ P1 V1). intros s2 (V2 & B2 & D2 & J2)%(Hmv s1); [|done].
  apply wp_bind. apply (wp_dir_sda m Hm 0 s2 _ _ _ _ _ _ V2). intros s3 (V3 & B3 & D3 & J3)%(Hmv s2); [|done].
  apply wp_bind. apply (wp_dir_scl m Hm 0 s3 _ _ _ _ _ _ V3). intros s4 (V4 & B4 & D4 & J4)%(Hmv s3); [|done].
  apply wp_bind. apply (wp_out_sda m Hm 0 s4 _ _ _ _ _ _ V4). intros s5 (V5 & B5 & D5 & J5)%(Hmv s4); [|done].
  apply wp_bind. apply (wp_out_scl m Hm 0 s5 _ _ _ _ _ _ V5). intros s6 (V6 & B6 & D6 & J6)%(Hmv s5); [|done].
  apply wp_bind. apply (wp_select m Hm GPIO_MODE s6 _ _ _ _ _ _ V6). intros s7 (V7 & (D7 & J7 & _) & M7).
  assert (Ed : p_this s7 = with_xfer d0 (waitx 3000 (stx 0 0 x))) by (rewrite D7, D6, D5, D4, D3, D2, D1; exact Hp).
  assert (Ej : jiffies s7 = u32 (j0 + 0)) by (rewrite J7, J6, J5, J4, J3, J2, J1; exact Hj).
  assert (Eb : bus s7 = quiet_wire t) by (refine (eq_trans M7 _); rewrite B6; apply moves_quiet).
  assert (A7 : At 0 true true (quiet_wire t) (stx 0 0 x) s7).
  { split; [exact V7|]. split; [exact Eb|]. split; [done|]. exists 0, 3000. split; [exact Ed|]. split; [exact Ej|]. lia. }
  eapply (at_upd rds m d0 j0 dd _ 0 true true (quiet_wire t) (stx 0 0 x)); [exact A7|reflexivity|reflexivity|exact HQ].
Qed.

Lemma start_turns t x s N P : Pre t (waitx 3000 (stx 0 0 x)) s -> timeout x = u32 (j0 + 2 * HZ) -> jiffies s = u32 (j0 + 0) -> mode x <> I2C_IDEL -> early dd 4 ->
  (forall s', let t' := t_start t in At 4 false false (low_wire false (stretch t') t') (stx (32 * 1 + 0) 0 x) s' -> Reach N dd s' P) -> Reach (4 + N) dd s P.
Proof.
  intros Hp Ht Hj Hx Hk HP. assert (He : forall k, 0 <= k <= 4 -> early dd k) by (unfold early in *; intros; nia). cbn [Nat.add].
  apply reach_turn. assert (Hisr : forall Q, wp venus_g2c_do_start s Q -> wp venus_g2c_isr s Q).
  { intros Q HQ. destruct Hp as (_ & _ & Hp). unfold venus_g2c_isr, get_xfer, get_jiffies. apply wp_bind, wp_bind, wp_get, wp_ret, wp_bind, wp_bind, wp_get, wp_ret.
    rewrite Hp. cbn [with_xfer xfer waitx stx mode timeout]. rewrite Ht, Hj. unfold time_after, s32, u32. rewrite <- Zminus_mod. replace (j0 + 2 * HZ - (j0 + 0)) with 200 by (unfold HZ; lia).
    change (200 mod W32) with 200. cbn [Z.ltb Z.compare Pos.compare Pos.compare_cont]. rewrite andb_false_r. apply wp_bind, wp_ret, wp_bind, wp_bind, wp_get, wp_ret. rewrite Hp. exact HQ. }
  apply Hisr, (start_first t x s _ Hp Ht Hj). intros s1 A1. split; [by destruct A1 as (_ & _ & _ & e & wt & -> & _)|].
  apply (at_wait rds m d0 j0 dd Hdd 0 true true (quiet_wire t) _ s1 _ A1). intros s2 A2. rewrite moves_quiet in A2.
  apply (at_turn rds m d0 j0 dd Hdd _ (0 + 1) true true (quiet_wire t) (stx 0 1 x) s2 true true (quiet_wire t) (stx 0 2 x)); [exact A2|apply He; lia|exact Hx| |].
  { rewrite handler_start. unfold venus_g2c_do_start. dev A2. cbn. rd_scl. cbn [w_scl quiet_wire Z.eqb negb]. apply wp_bind. eapply at_read_sda; [exact Hm|exact A|]. intros s4 A4. cbn. upd. here. }
  intros s3 A3. rewrite moves_quiet in A3.
  apply (at_turn rds m d0 j0 dd Hdd _ (0 + 1 + 1) true true (quiet_wire t) (stx 0 2 x) s3 true false (wire_moves true false (quiet_wire t)) (stx 0 3 x)); [exact A3|apply He; lia|exact Hx| |].
  { rewrite handler_start. unfold venus_g2c_do_start. dev A3. cbn. dir_sda. upd. here. }
  intros s4 A4. change (wire_moves true false (wire_moves true false (quiet_wire t))) with (high_wire true false (t_start t)) in A4.
  apply (at_turn rds m d0 j0 dd Hdd _ (0 + 1 + 1 + 1) true false (high_wire true false (t_start t)) (stx 0 3 x) s4 false false (wire_moves false false (high_wire true false (t_start t))) (stx (32 * 1 + 0) 0 x)); [exact A4|apply He; lia|exact Hx| |].
  { rewrite handler_start. unfold venus_g2c_do_start. dev A4. cbn. dir_scl. upd. here. }
  intros s5 A5. apply HP. exact A5.
Qed.

(** Stop, or the bus is left for a start to follow. *)
Lemma stop_turns x c d w t h N P k s : At k c d w (stx 96 0 x) s -> wire_moves false d w = low_wire d (stretch t) t -> (stretch t <= h)%nat -> early dd (k + 4 + Z.of_nat h) ->
  mode x <> I2C_IDEL -> t_out t = true -> let b := negb ((Z.land (flags x) I2C_NO_STOP =? 0) || (xret x <? 0)) in
  (forall s', At (k + 4 + Z.of_nat h) true true (quiet_wire (if b then t_clock true t else t_stop (t_clock false t))) (stx 128 0 x) s' -> Reach N dd s' P) -> Reach (4 + h + N) dd s P.
Proof.
  intros Ha Hc Hh Hk Hx Ho b HP. apply (reach_le (3 + h + S N)); [|lia].
  apply (cycle rds m d0 j0 dd Hdd (stx 96 0 x) (stx 96 1 x) (stx 96 2 x) (stx 96 3 x) c d b w t h (S N) P k s Ha Hc Hh); try done; [unfold early in *; nia|..].
  - intros k' s' A. rewrite handler_stop. unfold venus_g2c_do_stop. dev A. cbn. dir_scl. upd. here.
  - intros k' w' s' A. rewrite handler_stop. unfold venus_g2c_do_stop. dev A. cbn [Z.eqb]. cbn beta iota.
    replace ((Z.land (flags x) I2C_NO_STOP =? 0) || (xret x <? 0)) with (negb b) by (unfold b; by rewrite negb_involutive). destruct b; cbn; dir_sda; upd; here.
  - intros k' w' s' A Ew. rewrite handler_stop. unfold venus_g2c_do_stop. dev A. cbn. dir_scl. upd. here.
  - intros k' w' s' A Ew. rewrite handler_stop. unfold venus_g2c_do_stop. dev A. cbn. rd_scl. rewrite Ew. cbn. by apply wp_ret.
  - rewrite Ho, andb_true_r. intros s' Hs'. eapply (at_turn rds m d0 j0 dd Hdd N (k + 3 + Z.of_nat h) true b _ (stx 96 3 x) s' true true _ (stx 128 0 x)); [exact Hs'|unfold early in *; nia|exact Hx| |].
    + rewrite handler_stop. unfold venus_g2c_do_stop. dev Hs'. cbn. rd_scl. cbn [w_scl high_wire Z.eqb negb]. cbn. dir_sda. upd. here.
    + intros s2 Hs2. apply HP. replace (k + 4 + Z.of_nat h) with (k + 3 + Z.of_nat h + 1) by lia. by destruct b.
Qed.

(** The end: the pins are given back. *)
Lemma done_isr x t k s : At k true true (quiet_wire t) (stx 128 0 x) s -> early dd k ->
  wp venus_g2c_isr s (fun _ s' => mode (xfer (p_this s')) = I2C_IDEL /\ View m s' false true true false false /\ bus s' = quiet_wire t /\ is_u32 (jiffies s') /\
    exists y, p_this s' = with_xfer d0 y /\ xret y = xret x /\ tx_len y = tx_len x /\ rx_buff y = rx_buff x /\ timer y = timer x).
Proof.
  intros Ha Hk. apply (at_isr rds m d0 j0 dd k _ _ _ _ _ _ Ha Hk). rewrite handler_done. unfold venus_g2c_do_complete. dev Ha. cbn [Z.eqb]. dir_sda. dir_scl.
  change (wire_moves true true (wire_moves true true (quiet_wire t))) with (quiet_wire t) in *.
  pose proof A0 as (V & B & _ & e & wt' & E & J & _). apply wp_bind, (wp_select m Hm I2C_MODE _ _ _ _ _ _ _ V). intros s2 (V2 & (D2 & J2 & _) & M2).
  apply wp_bind, wp_modify, wp_modify. unfold set_dev. cbn [p_this bus]. rewrite D2, E. cbn [with_xfer waitx stx xfer mode].
  split; [done|]. split; [|split; [rewrite M2, B; apply moves_quiet|split; [cbn [jiffies]; rewrite J2, J; apply u32_range|by eexists]]].
  destruct V2 as [U1 U2 U3 U4 U5 U6]. rewrite D2, E in U1. split; try done; cbn [p_this gpio_map]. unfold gpio_selected in *. cbn [p_this gpio_map]. rewrite D2, E in U2. exact U2.
Qed.
End g2c.
