(* ===== verification/I2cBytes.v ===== *)
(** * I2C adapter: bytes and transfers on the lines *)
From stdpp Require Import base tactics list numbers option.
From Stdlib Require Import ZArith Lia.
From S2P Require Import Prelude Driver I2c I2cPins I2cBus I2cBits I2cG2c.

(** ** Bits of a byte, from the highest *)

Lemma shift_acc v i : 0 <= i -> v / 2 ^ i = 2 * (v / 2 ^ (i + 1)) + Z.b2z (Z.testbit v i).
Proof.
  intros Hi. rewrite Z.testbit_spec' by done. replace (2 ^ (i + 1)) with (2 ^ i * 2) by (rewrite Z.pow_add_r by lia; lia).
  rewrite <- Z.div_div by (try apply Z.pow_nonzero; lia). apply Z.div_mod. lia.
Qed.

(** The [i] highest bits. *)
Definition high_bits (v i : Z) : Z := Z.ldiff v (Z.ones (8 - i)).

Lemma high_bits_next v i : is_byte v -> 0 <= i <= 7 ->
  high_bits v (i + 1) = if Z.testbit v (7 - i) then u8 (Z.lor (high_bits v i) (Z.shiftl 1 (7 - i))) else high_bits v i.
Proof.
  intros Hv Hi. unfold high_bits.
  assert (Hones : forall n k, 0 <= n -> 0 <= k -> Z.testbit (Z.ones n) k = (k <? n)).
  { intros n k Hn Hk. destruct (Z.ltb_spec k n); [by apply Z.ones_spec_low|by apply Z.ones_spec_high]. }
  assert (Hhi : forall k, 8 <= k -> Z.testbit v k = false).
  { intros k Hk. destruct (Z.eq_dec v 0) as [->|]; [apply Z.bits_0|]. unfold is_byte in Hv. apply Z.bits_above_log2; [lia|]. apply Z.log2_lt_pow2; [lia|].
    pose proof (Z.pow_le_mono_r 2 8 k ltac:(lia) ltac:(lia)) as Hp. change (2 ^ 8) with 256 in Hp. lia. }
  destruct (Z.testbit v (7 - i)) eqn:E; apply Z.bits_inj'; intros k Hk.
  - unfold u8. change 256 with (2 ^ 8). destruct (Z.ltb_spec k 8).
    + rewrite Z.mod_pow2_bits_low, Z.lor_spec, !Z.ldiff_spec, !Hones, Z.shiftl_1_l, Z.pow2_bits_eqb by lia.
      destruct (Z.eqb_spec (7 - i) k) as [<-|].
      * rewrite E, orb_true_r. destruct (Z.ltb_spec (7 - i) (8 - (i + 1))); [lia|done].
      * rewrite orb_false_r. destruct (Z.ltb_spec k (8 - (i + 1))), (Z.ltb_spec k (8 - i)); (done || lia).
    + rewrite Z.mod_pow2_bits_high, Z.ldiff_spec, Hhi by lia. done.
  - rewrite !Z.ldiff_spec, !Hones by lia. destruct (Z.eq_dec k (7 - i)) as [->|]; [by rewrite E|].
    destruct (Z.ltb_spec k (8 - (i + 1))), (Z.ltb_spec k (8 - i)); try lia; done.
Qed.

Lemma high_bits_0 v : is_byte v -> high_bits v 0 = 0.
Proof. intros Hv. unfold high_bits. apply Z.ldiff_ones_r_low; [unfold is_byte in Hv; lia|]. destruct (Z.eq_dec v 0) as [->|]; [done|]. apply Z.log2_lt_pow2; unfold is_byte in *; lia. Qed.

Lemma high_bits_8 v : high_bits v 8 = v.
Proof. unfold high_bits. cbn. apply Z.ldiff_0_r. Qed.

Section bytes.
Context {dv : Device} (rds : nat -> Z -> Z).
#[local] Hint Extern 0 I2cEnv => exact (bus_env rds) : typeclass_instances.
Variable m : gpio_pins.
Hypothesis Hm : wired m.
Variable d0 : venus_i2c.
Hypothesis Hd0 : gpio_map d0 = m.
Variables j0 dd : Z.
Hypothesis Hdd : 0 <= dd.
(** How long the device may hold the clock. *)
Variable h : nat.
Hypothesis Hh : forall t, (stretch t <= h)%nat.

#[local] Abbreviation At := (I2cBits.At rds m d0 j0 dd).

(** The turns for [n] bits. *)
Definition bits (n : nat) : nat := (n * (4 + h))%nat.

Lemma bits_S n : bits (S n) = (4 + h + bits n)%nat.
Proof. done. Qed.

Lemma early_le k k' : early dd k' -> k <= k' -> early dd k.
Proof. unfold early. nia. Qed.

Lemma early_bit k n : early dd (k + Z.of_nat (bits (S n))) -> early dd (k + 4 + Z.of_nat h) /\ early dd (k + 4 + Z.of_nat h + Z.of_nat (bits n)).
Proof. rewrite bits_S. intros H. split; apply (early_le _ _ H); lia. Qed.

(** *** Eight bits out *)

(** A byte of which the device has got [i] bits. *)
Definition mid (p : tphase) (v : Z) (i : nat) (q : list Z) (l : list tevent) : target := mkT p i (v / 2 ^ (8 - Z.of_nat i)) q l.

Definition listens (p : tphase) : Prop := p = Addr \/ p = Recv.
Definition shifts (p : tphase) : Prop := listens p \/ p = Send.

Lemma mid_0 p v q l : is_byte v -> mid p v 0 q l = mkT p 0 0 q l.
Proof. intros Hv. unfold mid. change (2 ^ (8 - Z.of_nat 0)) with 256. by rewrite Z.div_small. Qed.

Lemma mid_next p v i q l : shifts p -> (i < 7)%nat -> t_clock (Z.testbit v (7 - Z.of_nat i)) (mid p v i q l) = mid p v (S i) q l.
Proof.
  intros Hp Hi. unfold t_clock, mid, shift_in. cbn [ph cnt acc src log]. rewrite (proj2 (Nat.eqb_neq i 7)) by lia.
  replace (8 - Z.of_nat i) with (7 - Z.of_nat i + 1) by lia. replace (8 - Z.of_nat (S i)) with (7 - Z.of_nat i) by lia. rewrite (shift_acc v (7 - Z.of_nat i)) by lia.
  by destruct Hp as [[-> | ->] | ->].
Qed.

Lemma mid_out p v i q l : listens p -> t_out (mid p v i q l) = true.
Proof. by intros [-> | ->]. Qed.

(** The byte is complete. *)
Lemma mid_recv v q l : t_clock (Z.testbit v 0) (mid Recv v 7 q l) = mkT AckData 0 0 q (l ++ [EGot v]).
Proof. unfold t_clock, mid, shift_in. cbn [ph cnt acc src log Nat.eqb]. change (8 - Z.of_nat 7) with (0 + 1). rewrite <- (shift_acc v 0) by lia. change (2 ^ 0) with 1. by rewrite Z.div_1_r. Qed.

Lemma mid_addr v q l : t_clock (Z.testbit v 0) (mid Addr v 7 q l) =
  if v / 2 =? address then mkT (AckAddr (Z.testbit v 0)) 0 0 q (l ++ [EHello (Z.testbit v 0)]) else mkT Away 0 0 q l.
Proof. unfold t_clock, mid, shift_in. cbn [ph cnt acc src log Nat.eqb]. change (8 - Z.of_nat 7) with (0 + 1). rewrite <- (shift_acc v 0) by lia. change (2 ^ 0) with 1. by rewrite Z.div_1_r. Qed.

(** One bit of [v] in the part [M] of the protocol. *)
Definition Step (M v : Z) (x : venus_i2c_xfer) : Prop := forall i c d w t N P k s, At k c d w (stx (32 * M + i) 0 x) s -> 0 <= i <= 7 ->
  wire_moves false d w = low_wire d (stretch t) t -> early dd (k + 4 + Z.of_nat h) -> t_out t = true -> let b := Z.testbit v (7 - i) in
  (forall s', At (k + 4 + Z.of_nat h) true b (high_wire true b (t_clock b t)) (stx (32 * M + (i + 1)) 0 x) s' -> Reach N dd s' P) -> Reach (4 + h + N) dd s P.

Lemma byte_bits M v x p q l : Step M v x -> listens p -> forall n c d w k s N P, (n < 8)%nat -> let b := Z.testbit v 0 in
  At k c d w (stx (32 * M + Z.of_nat (7 - n)) 0 x) s -> wire_moves false d w = low_wire d (stretch (mid p v (7 - n) q l)) (mid p v (7 - n) q l) -> early dd (k + Z.of_nat (bits (S n))) ->
  (forall s', At (k + Z.of_nat (bits (S n))) true b (high_wire true b (t_clock b (mid p v 7 q l))) (stx (32 * M + 8) 0 x) s' -> Reach N dd s' P) -> Reach (bits (S n) + N) dd s P.
Proof.
  intros Hs Hp n. induction n as [|n IH]; intros c d w k s N P Hn b Ha Hw Hk HP; destruct (early_bit _ _ Hk) as [K1 K2]; rewrite bits_S, <- Nat.add_assoc.
  - apply (Hs _ _ _ _ _ _ _ _ _ Ha ltac:(lia) Hw K1 (mid_out _ _ _ _ _ Hp)). intros s1 A1. change (bits 0 + N)%nat with N. apply HP.
    replace (k + Z.of_nat (bits 1)) with (k + 4 + Z.of_nat h) by (unfold bits; lia). exact A1.
  - apply (Hs _ _ _ _ _ _ _ _ _ Ha ltac:(lia) Hw K1 (mid_out _ _ _ _ _ Hp)). intros s1 A1.
    rewrite mid_next in A1 by (lia || by left). replace (S (7 - S n)) with (7 - n)%nat in A1 by lia. replace (Z.of_nat (7 - S n) + 1) with (Z.of_nat (7 - n)) in A1 by lia.
    apply (IH _ _ _ _ _ _ _ ltac:(lia) A1); [apply moves_fall; reflexivity|exact K2|]. intros s2 A2. apply HP.
    replace (k + Z.of_nat (bits (S (S n)))) with (k + 4 + Z.of_nat h + Z.of_nat (bits (S n))) by (rewrite (bits_S (S n)); lia). exact A2.
Qed.

(** *** The address *)

Lemma address_byte x c d w k s q l N P : is_byte (abyte d0 x) -> mode x <> I2C_IDEL -> At k c d w (stx 32 0 x) s -> let t := mkT Addr 0 0 q l in
  wire_moves false d w = low_wire d (stretch t) t -> early dd (k + Z.of_nat (bits 9)) ->
  let o := negb (abyte d0 x / 2 =? address) in let rd := Z.testbit (abyte d0 x) 0 in
  let t' := if o then mkT Away 0 0 q l else mkT (if rd then Send else Recv) 0 0 q (l ++ [EHello rd]) in
  (forall s', At (k + Z.of_nat (bits 9)) true true (high_wire o o t') (if o then stx 96 0 (retx (- ETXABORT) x) else stx 64 0 x) s' -> Reach N dd s' P) -> Reach (bits 9 + N) dd s P.
Proof.
  intros Hv Hx Ha t Hw Hk o rd t' HP. unfold t in Hw. rewrite <- (mid_0 Addr (abyte d0 x) q l Hv) in Hw.
  assert (K : early dd (k + Z.of_nat (bits 8)) /\ early dd (k + Z.of_nat (bits 8) + 4 + Z.of_nat h)) by (split; apply (early_le _ _ Hk); unfold bits; lia). destruct K as [K1 K2].
  apply (reach_le (bits 8 + (4 + h + N))); [|unfold bits; lia].
  apply (byte_bits 1 (abyte d0 x) x Addr q l) with (n := 7%nat) (c := c) (d := d) (w := w) (k := k); [|by left|lia|exact Ha|exact Hw|exact K1|].
  { intros i c' d' w' t0 N' P' k' s' A' Hi Hw' Hk' Ho b. apply (addr_bit rds m Hm d0 Hd0 j0 dd Hdd i x c' d' w' t0 h N' P' k' s' A' Hi Hw' (Hh _) Hk' Hx Ho). }
  intros s1 A1. set (t1 := t_clock _ _) in A1. assert (Eo : t_out t1 = o /\ t_clock o t1 = t').
  { unfold t1, t', o. rewrite mid_addr. by destruct (abyte d0 x / 2 =? address). }
  destruct Eo as [Eo Et]. eapply (addr_ack rds m Hm d0 Hd0 j0 dd Hdd x _ _ _ t1 h); [exact A1|apply moves_fall; reflexivity|apply Hh|exact K2|exact Hx|].
  rewrite Eo, Et. intros s2 A2. apply HP. replace (k + Z.of_nat (bits 9)) with (k + Z.of_nat (bits 8) + 4 + Z.of_nat h) by (unfold bits; lia). exact A2.
Qed.

(** *** Bytes to the device *)

Lemma write_byte x c d w k s q l N P : let v := (tx_buff x).[tx_len x] in is_byte v -> mode x = I2C_MASTER_WRITE -> 0 <= tx_len x < Zlen (tx_buff x) -> Zlen (tx_buff x) <= 65535 ->
  At k c d w (stx 64 0 x) s -> let t := mkT Recv 0 0 q l in wire_moves false d w = low_wire d (stretch t) t -> early dd (k + Z.of_nat (bits 9)) ->
  let l' := l ++ [EGot v] in let o := negb (accepts l') in
  (forall s', At (k + Z.of_nat (bits 9)) true true (high_wire o o (mkT (if o then Away else Recv) 0 0 q l'))
     (let x := txx (tx_len x + 1) x in if o then stx 96 0 (retx (- ETXABORT) x) else if tx_buff_len x <=? tx_len x then stx 96 0 x else stx 64 0 x) s' -> Reach N dd s' P) ->
  Reach (bits 9 + N) dd s P.
Proof.
  intros v Hv Hx Hl Hb Ha t Hw Hk l' o HP. unfold t in Hw. rewrite <- (mid_0 Recv v q l Hv) in Hw.
  assert (K : early dd (k + Z.of_nat (bits 8)) /\ early dd (k + Z.of_nat (bits 8) + 4 + Z.of_nat h)) by (split; apply (early_le _ _ Hk); unfold bits; lia). destruct K as [K1 K2].
  apply (reach_le (bits 8 + (4 + h + N))); [|unfold bits; lia].
  apply (byte_bits 2 v x Recv q l) with (n := 7%nat) (c := c) (d := d) (w := w) (k := k); [|by right|lia|exact Ha|exact Hw|exact K1|].
  { intros i c' d' w' t0 N' P' k' s' A' Hi Hw' Hk' Ho b. apply (write_bit rds m Hm d0 Hd0 j0 dd Hdd i x c' d' w' t0 h N' P' k' s' A' Hi Hw' (Hh _) Hk' Hx Hl Ho). }
  intros s1 A1. rewrite mid_recv in A1. eapply (write_ack rds m Hm d0 Hd0 j0 dd Hdd x); [exact A1|apply moves_fall; reflexivity|apply Hh|exact K2|exact Hx|lia|].
  cbn [w_t high_wire]. change (t_out (mkT AckData 0 0 q (l ++ [EGot v]))) with o.
  replace (t_clock o (mkT AckData 0 0 q (l ++ [EGot v]))) with (mkT (if o then Away else Recv) 0 0 q l') by (unfold o, l'; cbn; by destruct (accepts _)).
  intros s2 A2. apply HP. replace (k + Z.of_nat (bits 9)) with (k + Z.of_nat (bits 8) + 4 + Z.of_nat h) by (unfold bits; lia). exact A2.
Qed.

Lemma bits_app a b : bits (a + b) = (bits a + bits b)%nat.
Proof. unfold bits. lia. Qed.

Lemma write_bytes rest : forall x pre c d w k s q l N P, rest <> [] -> tx_buff x = pre ++ rest -> tx_len x = Zlen pre -> tx_buff_len x = Zlen (tx_buff x) -> Zlen (tx_buff x) <= 65535 ->
  Forall is_byte rest -> mode x = I2C_MASTER_WRITE -> xret x = 0 ->
  At k c d w (stx 64 0 x) s -> let t := mkT Recv 0 0 q l in wire_moves false d w = low_wire d (stretch t) t -> let T := bits (9 * length rest) in early dd (k + Z.of_nat T) ->
  let l' := (deliver l rest).1 in let ok := (deliver l rest).2 in
  (forall s' n, At (k + Z.of_nat T) true true (high_wire (negb ok) (negb ok) (mkT (if ok then Recv else Away) 0 0 q l')) (stx 96 0 (retx (if ok then 0 else - ETXABORT) (txx n x))) s' -> Reach N dd s' P) ->
  Reach (T + N) dd s P.
Proof.
  induction rest as [|v rest IH]; [done|]. intros x pre c d w k s q l N P _ Eb El Etl Hb HF Hx Hr Ha t Hw T Hk l' ok HP.
  apply list.Forall_cons_1 in HF as [Hv HF]. assert (Hlen : Zlen (tx_buff x) = Zlen pre + 1 + Zlen rest) by (rewrite Eb, Zlen_app, Zlen_cons; lia). pose proof (Zlen_nonneg pre). pose proof (Zlen_nonneg rest).
  assert (Ev : (tx_buff x).[tx_len x] = v) by (rewrite Eb, El, at_app_r, Z.sub_diag by lia; done).
  assert (ET : T = (bits 9 + bits (9 * length rest))%nat) by (unfold T; rewrite <- bits_app; f_equal; cbn [length]; lia). rewrite ET in Hk, HP |- *. clear T ET. rewrite <- Nat.add_assoc.
  eapply (write_byte x c d w k s q l); [by rewrite Ev|exact Hx|lia|lia|exact Ha|exact Hw|apply (early_le _ _ Hk); lia|]. rewrite Ev. cbn zeta. cbn [txx tx_buff_len tx_len]. subst l' ok. cbn [deliver] in HP.
  destruct (accepts (l ++ [EGot v])); cbn [negb fst snd] in HP |- *; intros s1 A1.
  - destruct (decide (rest = [])) as [->|Hne].
    + change (Zlen (@nil Z)) with 0 in *. rewrite (proj2 (Z.leb_le (tx_buff_len x) (tx_len x + 1))) in A1 by lia. cbn [deliver fst snd negb] in HP. apply (HP s1 (tx_len x + 1)).
      replace (k + Z.of_nat (bits 9 + bits (9 * length (@nil Z)))) with (k + Z.of_nat (bits 9)) by (cbn [length]; unfold bits; lia).
      assert (Es : retx 0 (txx (tx_len x + 1) x) = txx (tx_len x + 1) x) by (unfold retx, txx; cbn; by rewrite Hr). rewrite Es. exact A1.
    + assert (1 <= Zlen rest) by (destruct rest; [done|rewrite Zlen_cons; pose proof (Zlen_nonneg rest); lia]).
      rewrite (proj2 (Z.leb_gt (tx_buff_len x) (tx_len x + 1))) in A1 by lia.
      eapply (IH (txx (tx_len x + 1) x) (pre ++ [v]) _ _ _ _ _ q (l ++ [EGot v])); [exact Hne|cbn; by rewrite Eb, <- app_assoc|cbn; rewrite Zlen_app; unfold Zlen; cbn [length]; unfold Zlen in *; lia|exact Etl|exact Hb|exact HF|exact Hx|exact Hr|exact A1|apply moves_fall; reflexivity| |].
      * apply (early_le _ _ Hk). lia.
      * intros s2 n A2. apply (HP s2 n). replace (k + Z.of_nat (bits 9 + bits (9 * length rest))) with (k + Z.of_nat (bits 9) + Z.of_nat (bits (9 * length rest))) by lia. exact A2.
  - apply (reach_le N); [|lia]. apply (HP s1 (tx_len x + 1)). eapply at_more; [exact Hdd|exact A1|lia].
Qed.

(** *** Bytes from the device *)

Lemma mid_send q l i : t_out (mid Send (hd 0xff q) i q l) = Z.testbit (hd 0xff q) (7 - Z.of_nat i).
Proof. done. Qed.

Lemma mid_sent b q l : t_clock b (mid Send (hd 0xff q) 7 q l) = mkT AckMaster 0 0 (tail q) (l ++ [ESent (hd 0xff q)]).
Proof. done. Qed.

(** The byte at [rx_len], of which there are the [i] highest bits. *)
Definition part (v i : Z) (x : venus_i2c_xfer) : venus_i2c_xfer := rxx (<[Z.to_nat (rx_len x) := high_bits v i]> (rx_buff x)) (rx_len x) x.

Lemma part_next v i x : is_byte v -> 0 <= i <= 7 -> 0 <= rx_len x < Zlen (rx_buff x) ->
  let y := part v i x in
  rxx (if Z.testbit v (7 - i) then <[Z.to_nat (rx_len y) := u8 (Z.lor (rx_buff y).[rx_len y] (Z.shiftl 1 (7 - i)))]> (rx_buff y) else rx_buff y) (rx_len y) y = part v (i + 1) x.
Proof.
  intros Hv Hi Hl y. unfold y, part, rxx. cbn [mode flags tx_buff tx_buff_len tx_len rx_buff rx_buff_len rx_len timeout xret tx_abort_source complete timer gpio_wait_time gpio_xfer_state gpio_xfer_sub_state].
  rewrite (high_bits_next v i Hv Hi). f_equal. destruct (Z.testbit v (7 - i)); [|done]. rewrite at_insert_eq by done. by rewrite list_insert_insert_eq.
Qed.

Lemma recv_step x q l i c d w k s N P : mode x = I2C_MASTER_READ -> 0 <= rx_len x < Zlen (rx_buff x) -> let v := hd 0xff q in is_byte v -> (i <= 7)%nat ->
  At k c d w (stx (32 * 2 + Z.of_nat i) 0 (part v (Z.of_nat i) x)) s -> let t := mid Send v i q l in wire_moves false d w = low_wire d (stretch t) t -> early dd (k + 4 + Z.of_nat h) ->
  let o := Z.testbit v (7 - Z.of_nat i) in
  (forall s', At (k + 4 + Z.of_nat h) true true (high_wire o o (t_clock o t)) (stx (32 * 2 + Z.of_nat (S i)) 0 (part v (Z.of_nat (S i)) x)) s' -> Reach N dd s' P) -> Reach (4 + h + N) dd s P.
Proof.
  intros Hx Hl v Hv Hi Ha t Hw Hk o HP.
  apply (read_bit rds m Hm d0 Hd0 j0 dd Hdd (Z.of_nat i) (part v (Z.of_nat i) x) c d w t h N P k s Ha ltac:(lia) Hw (Hh _) Hk Hx); [cbn [part rxx rx_len rx_buff]; by rewrite Zlen_insert|].
  change (t_out t) with o. intros s1 A1. apply HP. replace (Z.of_nat (S i)) with (Z.of_nat i + 1) by lia. rewrite <- (part_next v (Z.of_nat i) x Hv ltac:(lia) Hl). exact A1.
Qed.

Lemma read_bits x q l : mode x = I2C_MASTER_READ -> 0 <= rx_len x < Zlen (rx_buff x) -> let v := hd 0xff q in is_byte v -> forall n c d w k s N P, (n < 8)%nat ->
  At k c d w (stx (32 * 2 + Z.of_nat (7 - n)) 0 (part v (Z.of_nat (7 - n)) x)) s -> wire_moves false d w = low_wire d (stretch (mid Send v (7 - n) q l)) (mid Send v (7 - n) q l) ->
  early dd (k + Z.of_nat (bits (S n))) ->
  (forall s' o, At (k + Z.of_nat (bits (S n))) true true (high_wire o o (mkT AckMaster 0 0 (tail q) (l ++ [ESent v]))) (stx (32 * 2 + 8) 0 (part v 8 x)) s' -> Reach N dd s' P) -> Reach (bits (S n) + N) dd s P.
Proof.
  intros Hx Hl v Hv n. induction n as [|n IH]; intros c d w k s N P Hn Ha Hw Hk HP; destruct (early_bit _ _ Hk) as [K1 K2]; rewrite bits_S, <- Nat.add_assoc.
  - apply (recv_step x q l (7 - 0) c d w k s _ P Hx Hl Hv ltac:(lia) Ha Hw K1). intros s1 A1. change (bits 0 + N)%nat with N. eapply HP.
    replace (k + Z.of_nat (bits 1)) with (k + 4 + Z.of_nat h) by (unfold bits; lia). exact A1.
  - apply (recv_step x q l (7 - S n) c d w k s _ P Hx Hl Hv ltac:(lia) Ha Hw K1). intros s1 A1.
    rewrite mid_next in A1 by (lia || by right). replace (S (7 - S n)) with (7 - n)%nat in A1 by lia.
    apply (IH _ _ _ _ _ _ _ ltac:(lia) A1); [apply moves_fall; reflexivity|exact K2|]. intros s2 o A2. apply (HP s2 o).
    replace (k + Z.of_nat (bits (S (S n)))) with (k + 4 + Z.of_nat h + Z.of_nat (bits (S n))) by (rewrite (bits_S (S n)); lia). exact A2.
Qed.

Lemma read_byte x c d w k s q l N P : let v := hd 0xff q in is_byte v -> mode x = I2C_MASTER_READ -> 0 <= rx_len x < Zlen (rx_buff x) -> Zlen (rx_buff x) <= 65535 -> (rx_buff x).[rx_len x] = 0 ->
  At k c d w (stx 64 0 x) s -> let t := mkT Send 0 0 q l in wire_moves false d w = low_wire d (stretch t) t -> early dd (k + Z.of_nat (bits 9)) ->
  let n := rx_len x + 1 in let b := negb (n <? rx_buff_len x) in
  (forall s', At (k + Z.of_nat (bits 9)) true b (high_wire true b (mkT (if b then Away else Send) 0 0 (tail q) (l ++ [ESent v])))
     (stx (if b then 96 else 64) 0 (rxx (<[Z.to_nat (rx_len x) := v]> (rx_buff x)) n x)) s' -> Reach N dd s' P) ->
  Reach (bits 9 + N) dd s P.
Proof.
  intros v Hv Hx Hl Hb E0 Ha t Hw Hk n b HP. unfold t in Hw. rewrite <- (mid_0 Send v q l Hv) in Hw.
  assert (K : early dd (k + Z.of_nat (bits 8)) /\ early dd (k + Z.of_nat (bits 8) + 4 + Z.of_nat h)) by (split; apply (early_le _ _ Hk); unfold bits; lia). destruct K as [K1 K2].
  assert (Ep : part v 0 x = x).
  { unfold part, rxx. rewrite high_bits_0 by done. rewrite list_insert_id; [by destruct x|]. unfold at_, Zlen in *.
    destruct (lookup_lt_is_Some_2 (rx_buff x) (Z.to_nat (rx_len x)) ltac:(lia)) as [y Hy]. rewrite (nth_lookup_Some _ _ 0 _ Hy) in E0. by rewrite Hy, E0. }
  apply (reach_le (bits 8 + (4 + h + N))); [|unfold bits; lia].
  apply (read_bits x q l Hx Hl Hv) with (n := 7%nat) (c := c) (d := d) (w := w) (k := k); [lia|change (At k c d w (stx (32 * 2 + 0) 0 (part v 0 x)) s); rewrite Ep; exact Ha|exact Hw|exact K1|].
  intros s1 o A1. eapply (read_ack rds m Hm d0 Hd0 j0 dd Hdd (part v 8 x)); [exact A1|apply moves_fall; reflexivity|apply Hh|exact K2|exact Hx|cbn [part rxx rx_len]; lia|done|].
  intros s2 A2. apply HP. replace (k + Z.of_nat (bits 9)) with (k + Z.of_nat (bits 8) + 4 + Z.of_nat h) by (unfold bits; lia).
  unfold part in A2. rewrite high_bits_8 in A2. exact A2.
Qed.

Lemma insert_at_length (pre : list Z) a b post : <[Z.to_nat (Zlen pre) := b]> (pre ++ a :: post) = pre ++ b :: post.
Proof. unfold Zlen. rewrite Nat2Z.id. replace (length pre) with (length pre + 0)%nat by lia. by rewrite insert_app_r. Qed.

Lemma next_is_byte q : Forall is_byte q -> is_byte (hd 0xff q) /\ Forall is_byte (tail q).
Proof. intros [|b q' Hb Hq]; [split; [done|constructor]|by split]. Qed.

Lemma drop_tail {A} n (l : list A) : drop n (tail l) = drop (S n) l.
Proof. destruct l; cbn; by rewrite ?drop_nil. Qed.

Lemma read_bytes r : forall x pre rest c d w k s q l N P, (0 < r)%nat -> rx_buff x = pre ++ replicate r 0 ++ rest -> rx_len x = Zlen pre -> rx_buff_len x = Zlen pre + Z.of_nat r -> Zlen (rx_buff x) <= 65535 ->
  Forall is_byte q -> mode x = I2C_MASTER_READ ->
  At k c d w (stx 64 0 x) s -> let t := mkT Send 0 0 q l in wire_moves false d w = low_wire d (stretch t) t -> let T := bits (9 * r) in early dd (k + Z.of_nat T) ->
  (forall s', At (k + Z.of_nat T) true true (high_wire true true (mkT Away 0 0 (drop r q) (l ++ (ESent <$> take_bytes r q)))) (stx 96 0 (rxx (pre ++ take_bytes r q ++ rest) (rx_buff_len x) x)) s' -> Reach N dd s' P) ->
  Reach (T + N) dd s P.
Proof.
  induction r as [|r IH]; [lia|]. intros x pre rest c d w k s q l N P _ Eb El Erl Hb HF Hx Ha t Hw T Hk HP.
  destruct (next_is_byte q HF) as [Hv HF']. set (v := hd 0xff q) in *. cbn [replicate app] in Eb.
  assert (Hlen : Zlen (rx_buff x) = Zlen pre + 1 + Z.of_nat r + Zlen rest) by (rewrite Eb, Zlen_app, Zlen_cons, Zlen_app; unfold Zlen at 2; rewrite length_replicate; lia).
  pose proof (Zlen_nonneg pre). pose proof (Zlen_nonneg rest).
  assert (E0 : (rx_buff x).[rx_len x] = 0) by (rewrite Eb, El, at_app_r, Z.sub_diag by lia; done).
  assert (ET : T = (bits 9 + bits (9 * r))%nat) by (unfold T; rewrite <- bits_app; f_equal; lia). rewrite ET in Hk, HP |- *. clear T ET. rewrite <- Nat.add_assoc.
  eapply (read_byte x c d w k s q l); [exact Hv|exact Hx|lia|lia|exact E0|exact Ha|exact Hw|apply (early_le _ _ Hk); lia|]. fold v. cbn zeta.
  assert (Ei : <[Z.to_nat (rx_len x) := v]> (rx_buff x) = pre ++ v :: replicate r 0 ++ rest) by (rewrite Eb, El; apply insert_at_length). rewrite Ei. clear Ei.
  cbn [take_bytes fmap list_fmap] in HP. fold v in HP. intros s1 A1. destruct r as [|r].
  - rewrite (proj2 (Z.ltb_ge (rx_len x + 1) (rx_buff_len x))) in A1 by lia. cbn [negb] in A1. apply HP. rewrite <- drop_tail. cbn [drop take_bytes app fmap list_fmap].
    replace (k + Z.of_nat (bits 9 + bits (9 * 0))) with (k + Z.of_nat (bits 9)) by (unfold bits; lia). replace (rx_buff_len x) with (rx_len x + 1) by lia. exact A1.
  - rewrite (proj2 (Z.ltb_lt (rx_len x + 1) (rx_buff_len x))) in A1 by lia. cbn [negb] in A1.
    eapply (IH (rxx (pre ++ v :: replicate (S r) 0 ++ rest) (rx_len x + 1) x) (pre ++ [v]) rest _ _ _ _ _ (tail q) (l ++ [ESent v])); [lia| | | | |exact HF'|exact Hx|exact A1|apply moves_fall; reflexivity|apply (early_le _ _ Hk); lia|].
    + cbn [rxx rx_buff]. by rewrite <- app_assoc.
    + cbn [rxx rx_len]. rewrite Zlen_app, El. done.
    + cbn [rxx rx_buff_len]. rewrite Zlen_app, Erl. change (Zlen [v]) with 1. lia.
    + cbn [rxx rx_buff]. rewrite Eb in Hb. rewrite Zlen_app, Zlen_cons in *. exact Hb.
    + intros s2 A2. apply HP. rewrite <- drop_tail. replace (k + Z.of_nat (bits 9 + bits (9 * S r))) with (k + Z.of_nat (bits 9) + Z.of_nat (bits (9 * S r))) by lia.
      rewrite <- !app_assoc in A2. exact A2.
Qed.
End bytes.
