(* ===== verification/I2cTransfer.v ===== *)
(** * I2C adapter: whole transfers on the lines

    What a device sees of a transfer, and what the driver returns, are those of the
    specification, as long as the time is enough. *)
From stdpp Require Import base tactics list numbers option.
From Stdlib Require Import ZArith Lia.
From S2P Require Import Prelude Driver I2c I2cPins I2cBus I2cBits I2cG2c I2cBytes.

(** ** The turns of a transfer of [n] bytes *)

Definition xfer_turns (h n : nat) : nat := (4 + bits h (9 * S n) + bits h 1)%nat.

(** The device holds the clock for at most [h] turns at a time; a transfer of [n]
    bytes takes less than 2 seconds. *)
Definition in_time {dv : Device} (h n : nat) (d : venus_i2c) : Prop :=
  0 <= tick d /\ (forall t, (stretch t <= h)%nat) /\ early (Z.shiftr (tick d) 2) (Z.of_nat (xfer_turns h n)).

(** A message that has been loaded, when its time runs. *)
Definition message (md fl : Z) (tx : list Z) (rx : list Z) (rl j : Z) : venus_i2c_xfer :=
  mkXfer md fl tx (Zlen tx) 0 rx rl 0 (u32 (j + 2 * HZ)) 0 0 0 false 0 0 0.

(** A device, the pins with the controller, no transfer. *)
Record Ready {dv : Device} {rds : nat -> Z -> Z} (t : target) (s : @i2c_st (bus_env rds)) : Prop := {
  rd_wired : wired (gpio_map (p_this s));
  rd_unselected : gpio_selected s = false;
  rd_bus : bus s = quiet_wire t;
  rd_timer : timer (xfer (p_this s)) = false;
  rd_jiffies : is_u32 (jiffies s)
}.

Section transfer.
Context {dv : Device} (rds : nat -> Z -> Z).
#[local] Hint Extern 0 I2cEnv => exact (bus_env rds) : typeclass_instances.

(** After a transfer: its result, the buffer, and another transfer may follow. *)
Definition After (s : i2c_st) (t : target) (x : venus_i2c_xfer) (s' : i2c_st) : Prop :=
  Ready t s' /\ exists y, p_this s' = with_xfer (p_this s) y /\ xret y = xret x /\ rx_buff y = rx_buff x.

Section one.
Variable s0 : i2c_st.
Variable h : nat.
Let d0 := p_this s0.
Let m := gpio_map d0.
Let dd := Z.shiftr (tick d0) 2.
Let j0 := jiffies s0.
Hypothesis Hm : wired m.
Hypothesis Hh : forall t, (stretch t <= h)%nat.
Hypothesis Hdd : 0 <= dd.

#[local] Abbreviation At := (I2cBits.At rds m d0 j0 dd).

Lemma end_reach x c d o v t k s N : At k c d (high_wire o v t) (stx 96 0 x) s -> early dd (k + Z.of_nat (bits h 1)) -> mode x <> I2C_IDEL -> timer x = false -> t_out t = true ->
  (bits h 1 <= N)%nat -> let b := negb ((Z.land (flags x) I2C_NO_STOP =? 0) || (xret x <? 0)) in
  Reach N dd s (fun s' => wp venus_g2c_isr s' (fun _ s2 => mode (xfer (p_this s2)) = I2C_IDEL /\ After s0 (if b then t_clock true t else t_stop (t_clock false t)) x s2)).
Proof.
  intros Ha Hk Hx Ht Ho HN b. assert (K : early dd (k + 4 + Z.of_nat h)) by (apply (early_le dd Hdd _ _ Hk); unfold bits; lia).
  apply (reach_le (4 + h + 0)); [|unfold bits in HN; lia]. apply (stop_turns rds m Hm d0 eq_refl j0 dd Hdd x c d (high_wire o v t) t h 0 _ k s Ha (moves_fall d (high_wire o v t) eq_refl) (Hh t) K Hx Ho). fold b.
  intros s1 A1. apply reach_refl. refine (wp_mono _ _ _ _ (done_isr rds m Hm d0 eq_refl j0 dd x _ _ s1 A1 K) _).
  intros [] s2 (H1 & [V1 V2 _ _ _ _] & H3 & H4 & y & H5 & H6 & H7 & H8 & H9). split; [done|]. split; [|by exists y].
  split; [by rewrite V1|done|done|by rewrite H5; cbn; rewrite H9|done].
Qed.

(** *** The start and the address *)

Lemma abyte_ok md x : mode x = md -> 0 <= tar d0 < 128 -> is_byte (abyte d0 x) /\ abyte d0 x / 2 = tar d0 /\ Z.testbit (abyte d0 x) 0 = (md =? I2C_MASTER_READ).
Proof.
  intros <- Ht. unfold abyte, u8. rewrite Z.shiftl_mul_pow2 by lia. change (2 ^ 1) with 2. rewrite Z.mod_small by lia. rewrite (Z.mul_comm _ 2). destruct (mode x =? I2C_MASTER_READ).
  - replace (Z.lor (2 * tar d0) 1) with (2 * tar d0 + 1) by (destruct (tar d0); [done|done|lia]). split; [unfold is_byte; lia|]. split; [|apply Z.testbit_odd_0].
    rewrite Z.mul_comm, Z.div_add_l by lia. change (1 / 2) with 0. lia.
  - split; [unfold is_byte; lia|]. split; [|apply Z.testbit_even_0]. rewrite Z.mul_comm. apply Z.div_mul. lia.
Qed.

Lemma start_address md fl tx rx rl t s N P n : let x := message md fl tx rx rl j0 in
  Pre rds m d0 t (waitx 3000 (stx 0 0 x)) s -> jiffies s = j0 -> is_u32 j0 -> md = I2C_MASTER_WRITE \/ md = I2C_MASTER_READ -> 0 <= tar d0 < 128 -> early dd (Z.of_nat (xfer_turns h n)) ->
  let rd := md =? I2C_MASTER_READ in let ok := tar d0 =? address in
  (forall s', At (4 + Z.of_nat (bits h 9)) true true (high_wire (negb ok) (negb ok) (if ok then mkT (if rd then Send else Recv) 0 0 (src t) (log t ++ [EStart; EHello rd]) else mkT Away 0 0 (src t) (log t ++ [EStart])))
     (if ok then stx 64 0 x else stx 96 0 (retx (- ETXABORT) x)) s' -> Reach N dd s' P) -> Reach (4 + bits h 9 + N) dd s P.
Proof.
  intros x Hp Hj Hj0 Hmd Ht Hk rd ok HP. assert (Hx : mode x <> I2C_IDEL) by (by destruct Hmd as [-> | ->]).
  assert (Hk9 : early dd (4 + Z.of_nat (bits h 9))) by (apply (early_le dd Hdd _ _ Hk); unfold xfer_turns, bits; lia).
  destruct (abyte_ok md x ltac:(done) Ht) as (B1 & B2 & B3). fold rd in B3.
  apply (reach_le (4 + (bits h 9 + N))); [|lia].
  apply (start_turns rds m Hm d0 eq_refl j0 dd Hdd t x s _ P Hp eq_refl); [rewrite Hj, Z.add_0_r; symmetry; by apply u32_small|exact Hx|apply (early_le dd Hdd _ _ Hk9); lia|].
  intros s1 t1 A1. eapply (address_byte rds m Hm d0 eq_refl j0 dd Hdd h Hh x); [exact B1|exact Hx|exact A1|apply moves_low|exact Hk9|].
  rewrite B2, B3. fold ok. cbn zeta. destruct ok; cbn [negb]; intros s2 A2; apply HP; [|exact A2]. rewrite <- app_assoc in A2. exact A2.
Qed.

(** *** The loops *)

(** Sent bytes; where they are refused, or after the last one, the transfer ends. *)
Lemma write_loop t tx fl s f : let x := message I2C_MASTER_WRITE fl tx [] 0 j0 in
  Pre rds m d0 t (waitx 3000 (stx 0 0 x)) s -> jiffies s = j0 -> is_u32 j0 -> 0 <= tar d0 < 128 -> tx <> [] -> Forall is_byte tx -> Zlen tx <= 65535 ->
  early dd (Z.of_nat (xfer_turns h (length tx))) -> (xfer_turns h (length tx) <= f)%nat ->
  wp (g2c_loop f dd) s (fun _ s' => mode (xfer (p_this s')) = I2C_IDEL /\ exists t' x', After s0 t' x' s' /\
    spec_write (tar d0) tx (Z.land fl I2C_NO_STOP =? 0) (log t) = (log t', xret x') /\ src t' = src t).
Proof.
  intros x Hp Hj Hj0 Ht Hne HF Hl Hk Hf. assert (ET : xfer_turns h (length tx) = (4 + bits h 9 + (bits h (9 * length tx) + bits h 1))%nat) by (unfold xfer_turns, bits; lia).
  eapply (loop_reach (xfer_turns h (length tx))); [|exact Hf]. rewrite ET.
  apply (start_address I2C_MASTER_WRITE fl tx [] 0 t s _ _ _ Hp Hj Hj0 ltac:(by left) Ht Hk). fold x. change (I2C_MASTER_WRITE =? I2C_MASTER_READ) with false. unfold spec_write. destruct (tar d0 =? address); cbn [negb]; intros s1 A1.
  - eapply (write_bytes rds m Hm d0 eq_refl j0 dd Hdd h Hh tx x [] _ _ _ _ _ (src t) (log t ++ [EStart; EHello false])); [exact Hne|done|done|done|exact Hl|exact HF|done|done|exact A1|apply moves_fall; reflexivity|apply (early_le dd Hdd _ _ Hk); lia|].
    destruct (deliver (log t ++ [EStart; EHello false]) tx) as [l ok]. cbn [fst snd]. intros s2 n A2.
    eapply reach_mono; [eapply (end_reach _ _ _ _ _ _ _ s2); [exact A2|apply (early_le dd Hdd _ _ Hk); lia|done|done|by destruct ok|done]|].
    intros s3 H3. apply (wp_mono _ _ _ _ H3). intros _ s4 [H4 H5]. split; [exact H4|]. split; [exact H4|]. eexists _, _. split; [exact H5|]. cbn [retx txx x message flags xret w_t high_wire].
    change (- ETXABORT <? 0) with true. destruct ok; cbn [negb]; [|by rewrite !orb_true_r]. change (0 <? 0) with false. rewrite !orb_false_r. by destruct (Z.land fl I2C_NO_STOP =? 0).
  - eapply reach_mono; [eapply (end_reach _ _ _ _ _ _ _ s1); [exact A1|apply (early_le dd Hdd _ _ Hk); lia|done|done|done|lia]|].
    intros s3 H3. apply (wp_mono _ _ _ _ H3). intros _ s4 [H4 H5]. split; [exact H4|]. split; [exact H4|]. eexists _, _. split; [exact H5|]. cbn [retx x message flags xret w_t high_wire].
    rewrite orb_true_r. cbn. by rewrite <- app_assoc.
Qed.

(** Bytes that are received into a buffer of zeros. *)
Lemma read_loop t n rest fl s f : let x := message I2C_MASTER_READ fl [] (replicate n 0 ++ rest) (Z.of_nat n) j0 in
  Pre rds m d0 t (waitx 3000 (stx 0 0 x)) s -> jiffies s = j0 -> is_u32 j0 -> 0 <= tar d0 < 128 -> (0 < n)%nat -> Forall is_byte (src t) -> Zlen (replicate n 0 ++ rest) <= 65535 -> fl = 0 ->
  early dd (Z.of_nat (xfer_turns h n)) -> (xfer_turns h n <= f)%nat ->
  wp (g2c_loop f dd) s (fun _ s' => mode (xfer (p_this s')) = I2C_IDEL /\ exists t' x' bs, After s0 t' x' s' /\
    spec_read (tar d0) n t = (log t', bs, xret x') /\ rx_buff x' = bs ++ rest /\ src t' = if tar d0 =? address then drop n (src t) else src t).
Proof.
  intros x Hp Hj Hj0 Ht Hne HF Hl -> Hk Hf. assert (ET : xfer_turns h n = (4 + bits h 9 + (bits h (9 * n) + bits h 1))%nat) by (unfold xfer_turns, bits; lia).
  eapply (loop_reach (xfer_turns h n)); [|exact Hf]. rewrite ET.
  apply (start_address I2C_MASTER_READ 0 [] _ _ t s _ _ _ Hp Hj Hj0 ltac:(by right) Ht Hk). fold x. change (I2C_MASTER_READ =? I2C_MASTER_READ) with true. unfold spec_read. destruct (tar d0 =? address); cbn [negb]; intros s1 A1.
  - eapply (read_bytes rds m Hm d0 eq_refl j0 dd Hdd h Hh n x [] rest _ _ _ _ _ (src t) (log t ++ [EStart; EHello true])); [exact Hne|done|done|done|exact Hl|exact HF|done|exact A1|apply moves_fall; reflexivity|apply (early_le dd Hdd _ _ Hk); lia|].
    intros s2 A2. eapply reach_mono; [eapply (end_reach _ _ _ _ _ _ _ s2); [exact A2|apply (early_le dd Hdd _ _ Hk); lia|done|done|done|done]|].
    intros s3 H3. apply (wp_mono _ _ _ _ H3). intros _ s4 [H4 H5]. split; [exact H4|]. split; [exact H4|]. eexists _, _, (take_bytes n (src t)). split; [exact H5|]. cbn [rxx x message flags xret rx_buff negb]. change ((Z.land 0 I2C_NO_STOP =? 0) || (0 <? 0)) with true. cbn [negb t_stop t_clock ph log I2cBus.src]. rewrite <- !app_assoc. done.
  - eapply reach_mono; [eapply (end_reach _ _ _ _ _ _ _ s1); [exact A1|apply (early_le dd Hdd _ _ Hk); lia|done|done|done|lia]|].
    intros s3 H3. apply (wp_mono _ _ _ _ H3). intros _ s4 [H4 H5]. split; [exact H4|]. split; [exact H4|]. eexists _, _, (replicate n 0). split; [exact H5|]. cbn [retx x message flags xret rx_buff]. change ((Z.land 0 I2C_NO_STOP =? 0) || (- ETXABORT <? 0)) with true. cbn [negb t_stop t_clock ph log I2cBus.src]. rewrite <- !app_assoc. done.
Qed.
End one.

(** ** The transfers of the driver *)

Lemma Ready_pins t (s : i2c_st) : Ready t s -> exists c d oc od, View (gpio_map (p_this s)) s false c d oc od.
Proof.
  intros H. exists (negb (bit s MIS_GP0DIR (scl (gpio_map (p_this s))))), (negb (bit s MIS_GP0DIR (sda (gpio_map (p_this s))))), (bit s MIS_GP0DATO (scl (gpio_map (p_this s)))), (bit s MIS_GP0DATO (sda (gpio_map (p_this s)))).
  split; rewrite ?negb_involutive; (done || apply H).
Qed.

(** A message is loaded and its transfer begins. *)
Lemma wp_transfer md fl tx rx rx' rl t (s : i2c_st) fuel (R : target -> venus_i2c_xfer -> Prop) (Q : Z -> i2c_st -> Prop) : Ready t s ->
  (if (Zlen rx =? 0) || (rl =? 0) then Ret rx else if rl <=? Zlen rx then Ret (replicate (Z.to_nat rl) 0 ++ drop (Z.to_nat rl) rx) else Fault) = Ret rx' ->
  (forall s1, Pre rds (gpio_map (p_this s)) (p_this s) t (waitx 3000 (stx 0 0 (message md fl tx rx' rl (jiffies s)))) s1 -> jiffies s1 = jiffies s ->
     wp (g2c_loop fuel (Z.shiftr (tick (p_this s)) 2)) s1 (fun _ s' => mode (xfer (p_this s')) = I2C_IDEL /\ exists t' x', After s t' x' s' /\ R t' x')) ->
  (forall t' x' s', R t' x' -> After s t' x' s' -> xret x' <> - ETIMEOUT /\ Q (xret x') s') ->
  wp (venus_i2c_load_message md tx (Zlen tx) rx rl fl;; venus_g2c_start_xfer fuel) s Q.
Proof.
  intros Hr Hrx Hloop HQ. unfold venus_i2c_load_message, venus_g2c_start_xfer, get_xfer, get_dev, get_jiffies. apply wp_bind, wp_bind, wp_bind, wp_get, wp_ret.
  rewrite (rd_timer _ _ Hr). apply wp_bind. eapply wp_lift; [exact Hrx|]. apply wp_bind, wp_modify, wp_ret. unfold set_dev.
  apply wp_bind, wp_bind, wp_get, wp_ret. cbn [p_this tick]. apply wp_bind, wp_bind, wp_get, wp_ret. cbn [jiffies].
  apply wp_bind, wp_modify, wp_bind, wp_modify, wp_bind. unfold set_dev.
  cbn [p_this xfer regs bus jiffies now fifo id spd tick sar sar_mode tar tar_mode gpio_map rx_fifo_depth tx_fifo_depth time_stamp mode flags tx_buff tx_buff_len tx_len rx_buff rx_buff_len rx_len timeout xret tx_abort_source complete timer gpio_wait_time gpio_xfer_state gpio_xfer_sub_state].
  set (s1 := mkI2c _ _ _ _ _ _). assert (Hp : Pre rds (gpio_map (p_this s)) (p_this s) t (waitx 3000 (stx 0 0 (message md fl tx rx' rl (jiffies s)))) s1).
  { split; [|split; [apply (rd_bus _ _ Hr)|done]]. destruct (Ready_pins t s Hr) as (c & d & oc & od & V). exists c, d, oc, od. destruct V as [V1 V2 V3 V4 V5 V6]. by split. }
  refine (wp_mono _ _ _ _ (Hloop s1 Hp eq_refl) _). intros _ s2 (_ & t' & x' & HA & HR). destruct (HQ t' x' s2 HR HA) as [Hne HQ']. destruct HA as (_ & y & E2 & Ey & _).
  assert (Ex : xret (xfer (p_this s2)) = xret x') by (by rewrite E2). apply wp_bind, wp_bind, wp_get, wp_ret. rewrite Ex. rewrite (proj2 (Z.eqb_neq _ _) Hne).
  apply wp_bind, wp_ret, wp_ret. exact HQ'.
Qed.

(** What holds after a transfer: the next one can follow. *)
Definition Follows (s : i2c_st) (t : target) (s' : i2c_st) : Prop := Ready t s' /\ exists y, p_this s' = with_xfer (p_this s) y.

Lemma write_wp t (s : i2c_st) tx wait_stop h fuel : Ready t s -> in_time h (length tx) (p_this s) -> (xfer_turns h (length tx) <= fuel)%nat ->
  0 <= tar (p_this s) < 128 -> tx <> [] -> Forall is_byte tx -> Zlen tx <= 65535 ->
  wp (venus_g2c_write fuel tx (Zlen tx) wait_stop) s (fun r s' => exists t', Follows s t' s' /\
    spec_write (tar (p_this s)) tx (negb (wait_stop =? 0)) (log t) = (log t', r) /\ src t' = src t).
Proof.
  intros Hr (T1 & T2 & T3) Hf Ht Hne HF Hl. unfold venus_g2c_write. assert (Hdd : 0 <= Z.shiftr (tick (p_this s)) 2) by (apply Z.shiftr_nonneg; done).
  apply (wp_transfer _ _ _ _ [] _ t s fuel (fun t' x' => spec_write (tar (p_this s)) tx (negb (wait_stop =? 0)) (log t) = (log t', xret x') /\ src t' = src t)); [done|done| |].
  - intros s1 Hp Hj. refine (wp_mono _ _ _ _ (write_loop s h (rd_wired _ _ Hr) T2 Hdd t tx _ s1 fuel Hp Hj (rd_jiffies _ _ Hr) Ht Hne HF Hl T3 Hf) _).
    intros _ s' (H1 & t' & x' & H2 & H3 & H4). split; [done|]. exists t', x'. split; [done|]. split; [|done]. rewrite <- H3. by destruct (wait_stop =? 0).
  - intros t' x' s' [H1 H2] (H3 & y & H4 & _). split; [|exists t'; split; [split; [done|by exists y]|done]].
    unfold spec_write in H1. destruct (_ =? address); [destruct (deliver _ tx) as [l ok]|]; injection H1 as _ <-; [by destruct ok|done].
Qed.

Lemma read_wp t (s : i2c_st) rx h fuel : Ready t s -> in_time h (length rx) (p_this s) -> (xfer_turns h (length rx) <= fuel)%nat ->
  0 <= tar (p_this s) < 128 -> rx <> [] -> Forall is_byte (src t) -> Zlen rx <= 65535 ->
  wp (venus_g2c_read fuel [] 0 rx (Zlen rx)) s (fun r s' => exists t', Follows s t' s' /\
    spec_read (tar (p_this s)) (length rx) t = (log t', rx_buff (xfer (p_this s')), r) /\ src t' = if tar (p_this s) =? address then drop (length rx) (src t) else src t).
Proof.
  intros Hr (T1 & T2 & T3) Hf Ht Hne HF Hl. unfold venus_g2c_read. assert (Hdd : 0 <= Z.shiftr (tick (p_this s)) 2) by (apply Z.shiftr_nonneg; done).
  cbn [andb negb Z.eqb]. apply wp_bind, wp_ret. change (0 <? 0) with false. cbn iota. assert (Hn : (0 < length rx)%nat) by (destruct rx; [done|cbn; lia]).
  assert (El : replicate (length rx) 0 ++ [] = replicate (Z.to_nat (Zlen rx)) 0 ++ drop (Z.to_nat (Zlen rx)) rx) by (unfold Zlen; by rewrite Nat2Z.id, drop_all).
  apply (wp_transfer I2C_MASTER_READ 0 [] rx (replicate (length rx) 0 ++ []) (Zlen rx) t s fuel (fun t' x' => spec_read (tar (p_this s)) (length rx) t = (log t', rx_buff x', xret x') /\ src t' = if tar (p_this s) =? address then drop (length rx) (src t) else src t)); [done| | |].
  - rewrite (proj2 (Z.eqb_neq (Zlen rx) 0)) by (unfold Zlen; lia). cbn [orb]. rewrite Z.leb_refl. by rewrite El.
  - intros s1 Hp Hj. refine (wp_mono _ _ _ _ (read_loop s h (rd_wired _ _ Hr) T2 Hdd t (length rx) [] 0 s1 fuel Hp Hj (rd_jiffies _ _ Hr) Ht Hn HF _ eq_refl T3 Hf) _).
    { rewrite app_nil_r. unfold Zlen in *. rewrite length_replicate. lia. }
    intros _ s' (H1 & t' & x' & bs & H2 & H3 & H4 & H5). split; [done|]. exists t', x'. split; [done|]. rewrite app_nil_r in H4. by rewrite H4.
  - intros t' x' s' [H1 H2] (H3 & y & H4 & _ & H5). split; [|exists t'; split; [split; [done|by exists y]|]].
    + unfold spec_read in H1. by destruct (_ =? address); injection H1 as _ _ <-.
    + rewrite H4. cbn [with_xfer xfer]. by rewrite H5.
Qed.
End transfer.
