(* ===== verification/I2cEnds.v ===== *)
(** * I2C adapter: every transfer ends

    Here the other devices do as they like: they may hold the lines for ever, and the
    delays may take longer than they must. *)
From stdpp Require Import base tactics list numbers option.
From Stdlib Require Import ZArith Lia.
From S2P Require Import Prelude Driver I2c I2cPins I2cBits.

Section ends.
Context {env : I2cEnv}.
Variable m : gpio_pins.
Hypothesis Hm : wired m.

(** ** The pins, whatever their state *)

Lemma view_any s : gpio_map (p_this s) = m -> exists sel c d oc od, View m s sel c d oc od.
Proof.
  intros H. exists (gpio_selected s), (negb (bit s MIS_GP0DIR (scl m))), (negb (bit s MIS_GP0DIR (sda m))), (bit s MIS_GP0DATO (scl m)), (bit s MIS_GP0DATO (sda m)).
  split; rewrite ?negb_involutive; done.
Qed.

(** The adapter is the same, and the time has not passed. *)
#[local] Abbreviation same := kept.

Ltac any_tac L := let H := fresh in intros H HQ; destruct (view_any _ H) as (? & ? & ? & ? & ? & V); eapply L; [exact Hm|exact V|]; first [intros ? (_ & ? & _); by apply HQ|by apply HQ].

Lemma any_dir_scl v s (Q : Z -> i2c_st -> Prop) : gpio_map (p_this s) = m -> (forall s', same s s' -> Q 0 s') -> wp (venus_gpio_set_dir (scl m) v) s Q.
Proof. any_tac wp_dir_scl. Qed.
Lemma any_dir_sda v s (Q : Z -> i2c_st -> Prop) : gpio_map (p_this s) = m -> (forall s', same s s' -> Q 0 s') -> wp (venus_gpio_set_dir (sda m) v) s Q.
Proof. any_tac wp_dir_sda. Qed.
Lemma any_out_scl v s (Q : Z -> i2c_st -> Prop) : gpio_map (p_this s) = m -> (forall s', same s s' -> Q 0 s') -> wp (venus_gpio_write (scl m) v) s Q.
Proof. any_tac wp_out_scl. Qed.
Lemma any_out_sda v s (Q : Z -> i2c_st -> Prop) : gpio_map (p_this s) = m -> (forall s', same s s' -> Q 0 s') -> wp (venus_gpio_write (sda m) v) s Q.
Proof. any_tac wp_out_sda. Qed.
Lemma any_select md s (Q : unit -> i2c_st -> Prop) : gpio_map (p_this s) = m -> (forall s', same s s' -> Q tt s') -> wp (venus_i2c_gpio_selection md) s Q.
Proof. any_tac wp_select. Qed.
Lemma any_ie_scl v s (Q : Z -> i2c_st -> Prop) : gpio_map (p_this s) = m -> (forall s', same s s' -> Q 0 s') -> wp (venus_gpio_set_ie (scl m) v) s Q.
Proof. intros H HQ. destruct (view_any _ H) as (? & ? & ? & ? & ? & V). eapply (wp_ie m Hm); [apply Hm|exact V|]. intros s' (_ & ? & _). by apply HQ. Qed.
Lemma any_ie_sda v s (Q : Z -> i2c_st -> Prop) : gpio_map (p_this s) = m -> (forall s', same s s' -> Q 0 s') -> wp (venus_gpio_set_ie (sda m) v) s Q.
Proof. intros H HQ. destruct (view_any _ H) as (? & ? & ? & ? & ? & V). eapply (wp_ie m Hm); [apply Hm|exact V|]. intros s' (_ & ? & _). by apply HQ. Qed.
Lemma any_read_scl s (Q : Z -> i2c_st -> Prop) : gpio_map (p_this s) = m -> (forall b s', same s s' -> Q (if b : bool then 1 else 0) s') -> wp (venus_gpio_read (scl m)) s Q.
Proof. any_tac wp_read_scl. Qed.
Lemma any_read_sda s (Q : Z -> i2c_st -> Prop) : gpio_map (p_this s) = m -> (forall b s', same s s' -> Q (if b : bool then 1 else 0) s') -> wp (venus_gpio_read (sda m)) s Q.
Proof. any_tac wp_read_sda. Qed.

(** ** A jammed bus *)

(** The pins are given back to the controller, and the adapter holds no line. *)
Definition Given (s : i2c_st) : Prop := exists oc od, View m s false true true oc od.

Section jammed.
Variable p0 : venus_i2c.
Hypothesis Hp0 : gpio_map p0 = m.
Variables (l0 : list Z) (r0 : Z -> Z).

(** The controller, too, stays as it is. *)
Definition Is (s : i2c_st) : Prop := p_this s = p0 /\ is_u32 (jiffies s) /\ fifo s = l0 /\ forall a, 0xb801b300 <= a -> reg s a = r0 a.

Lemma is_m s : Is s -> gpio_map (p_this s) = m.
Proof. by intros [-> _]. Qed.

Lemma is_same s s' : Is s -> same s s' -> Is s'.
Proof. intros (H1 & H2 & H3 & H4) (E1 & E2 & E3 & E4). split; [by rewrite E1|]. split; [by rewrite E2|]. split; [by rewrite E3|]. intros a Ha. rewrite E4 by done. by apply H4. Qed.

Lemma is_pass k s (Q : unit -> i2c_st -> Prop) : Is s -> (forall s', Is s' -> Q tt s') -> wp (pass k) s Q.
Proof. intros (H1 & H2 & H3 & H4) HQ. eexists tt, _. split; [reflexivity|]. apply HQ. split; [done|]. split; [apply u32_range|]. split; [done|exact H4]. Qed.

Lemma is_dev s (Q : venus_i2c -> i2c_st -> Prop) : Is s -> Q p0 s -> wp get_dev s Q.
Proof. intros [H _] HQ. unfold get_dev. apply wp_bind, wp_get, wp_ret. by rewrite H. Qed.

Ltac is_step L := apply wp_bind; eapply L; [apply is_m; eassumption|let s := fresh "s" in let S := fresh "S" in intros s S;
  match goal with H : Is ?s0, S : same ?s0 s |- _ => let A := fresh "A" in pose proof (is_same _ _ H S) as A; clear S end].
Ltac is_get L := apply wp_bind; eapply L; [apply is_m; eassumption|let s := fresh "s" in let S := fresh "S" in let b := fresh "b" in intros b s S;
  match goal with H : Is ?s0, S : same ?s0 s |- _ => let A := fresh "A" in pose proof (is_same _ _ H S) as A; clear S end; destruct b; cbn [Z.eqb Pos.eqb negb andb]; cbn beta iota].
Ltac is_one := match goal with
  | |- wp (venus_gpio_set_dir (scl m) _ ≫= _) _ _ => is_step any_dir_scl
  | |- wp (venus_gpio_set_dir (sda m) _ ≫= _) _ _ => is_step any_dir_sda
  | |- wp (venus_gpio_set_ie (scl m) _ ≫= _) _ _ => is_step any_ie_scl
  | |- wp (venus_gpio_set_ie (sda m) _ ≫= _) _ _ => is_step any_ie_sda
  | |- wp (venus_gpio_write (scl m) _ ≫= _) _ _ => is_step any_out_scl
  | |- wp (venus_gpio_write (sda m) _ ≫= _) _ _ => is_step any_out_sda
  | |- wp (venus_i2c_gpio_selection _ ≫= _) _ _ => is_step any_select
  | |- wp (venus_gpio_read (scl m) ≫= _) _ _ => is_get any_read_scl
  | |- wp (venus_gpio_read (sda m) ≫= _) _ _ => is_get any_read_sda
  | |- wp (udelay _ ≫= _) _ _ => apply wp_bind; eapply is_pass; [eassumption|intros ? ?]
  | |- wp (msleep _ ≫= _) _ _ => apply wp_bind; eapply is_pass; [eassumption|intros ? ?]
  | |- wp (mret _ ≫= _) _ _ => apply wp_bind, wp_ret; cbn [Z.eqb Pos.eqb negb andb]; cbn beta iota
  | |- wp (mret _) _ _ => apply wp_ret
  | |- wp ((_ ≫= _) ≫= _) _ _ => apply wp_bind
  end.

Lemma clocks_is n d : forall s, Is s -> wp (clocks n (scl m) d) s (fun _ s' => Is s').
Proof. induction n as [|n IH]; intros s Hs; cbn [clocks]; repeat is_one; [done|]. by apply IH. Qed.

Lemma recover_is s : Is s -> wp venus_i2c_bus_jam_recover s (fun _ s' => Is s').
Proof.
  intros Hs. unfold venus_i2c_bus_jam_recover. apply wp_bind. eapply is_dev; [exact Hs|]. rewrite Hp0. repeat is_one. apply wp_bind. eapply wp_mono; [apply clocks_is; eassumption|].
  intros [] z Hz. cbn beta in Hz. is_one. match goal with A : Is ?s |- wp _ ?s _ => apply any_select; [by apply is_m|]; intros z' S; by apply (is_same _ _ A S) end.
Qed.

Lemma jam_is n : forall s, Is s -> wp (jam_loop n (sda m) (scl m)) s (fun r s' => Is s').
Proof. induction n as [|n IH]; intros s Hs; cbn [jam_loop]; repeat is_one; try done; by apply IH. Qed.

Lemma detect_is s : Is s -> wp venus_i2c_bus_jam_detect s (fun r s' => Is s').
Proof.
  intros Hs. unfold venus_i2c_bus_jam_detect. apply wp_bind. eapply is_dev; [exact Hs|]. rewrite Hp0. repeat is_one. apply wp_bind. eapply wp_mono; [apply jam_is; eassumption|].
  intros r z Hz. cbn beta in Hz. destruct (r =? 0); cbn [negb]; cbn iota; repeat is_one; done.
Qed.

Lemma recover_loop_is n : forall s, Is s -> wp (recover_loop n) s (fun _ s' => Is s').
Proof.
  induction n as [|n IH]; intros s Hs; cbn [recover_loop]; [by apply wp_ret|]. apply wp_bind. eapply wp_mono; [by apply recover_is|]. intros [] z Hz. cbn beta in Hz. is_one.
  apply wp_bind. eapply wp_mono; [by apply detect_is|]. intros r z' Hz'. destruct (r =? 0); [by apply wp_ret|by apply IH].
Qed.

Lemma reset_gives s : Is s -> wp venus_i2c_reset_state s (fun _ s' => Is s' /\ Given s').
Proof.
  intros Hs. unfold venus_i2c_reset_state. apply wp_bind. eapply is_dev; [exact Hs|]. rewrite Hp0. do 8 is_one.
  match goal with A : Is ?s |- wp _ ?s _ => destruct (view_any s (is_m _ A)) as (sel & c & d & oc & od & V); rename A into HA end.
  apply wp_bind, (wp_select m Hm _ _ _ _ _ _ _ _ V). intros s1' (V1 & K1 & _). pose proof (is_same _ _ HA K1) as Z1.
  apply wp_bind, (wp_dir_sda m Hm _ _ _ _ _ _ _ _ V1). intros s2' (V2 & K2 & _). pose proof (is_same _ _ Z1 K2) as Z2.
  apply wp_bind, (wp_dir_scl m Hm _ _ _ _ _ _ _ _ V2). intros s3' (V3 & K3 & _).
  apply wp_ret. split; [by apply (is_same _ _ Z2)|]. by exists oc, od.
Qed.

Lemma after_timeout_gives s : Is s -> wp after_timeout s (fun _ s' => Is s' /\ Given s').
Proof.
  intros Hs. unfold after_timeout. apply wp_bind. eapply wp_mono; [by apply detect_is|]. intros r s1 H1. cbn beta in H1.
  destruct (r =? 0); cbn [negb]; cbn iota; apply wp_bind; [apply wp_ret; by apply reset_gives|].
  apply wp_bind. eapply wp_mono; [by apply recover_loop_is|]. intros [] s2 H2. cbn beta in H2. apply is_pass; [done|]. intros s3 H3. by apply reset_gives.
Qed.
End jammed.

(** ** The transfer *)

(** The adapter [d] with the transfer [x], at the time [j]. *)
Definition Now (d : venus_i2c) (x : venus_i2c_xfer) (j : Z) (s : i2c_st) : Prop := p_this s = with_xfer d x /\ jiffies s = j.

Variable d0 : venus_i2c.
Hypothesis Hd0 : gpio_map d0 = m.

Lemma now_m x j s : Now d0 x j s -> gpio_map (p_this s) = m.
Proof. intros [-> _]. done. Qed.

Lemma now_same x j s s' : Now d0 x j s -> same s s' -> Now d0 x j s'.
Proof. intros [H1 H2] (H3 & H4 & _). split; congruence. Qed.

Lemma now_upd f x j s (Q : unit -> i2c_st -> Prop) : Now d0 x j s -> (forall s', Now d0 (f x) j s' -> Q tt s') -> wp (upd_xfer f) s Q.
Proof. intros [H1 H2] HQ. apply wp_modify, HQ. unfold set_dev. split; [|done]. cbn [p_this]. by rewrite H1. Qed.

Lemma now_dev x j s (Q : venus_i2c -> i2c_st -> Prop) : Now d0 x j s -> Q (with_xfer d0 x) s -> wp get_dev s Q.
Proof. intros [H1 H2] HQ. unfold get_dev. apply wp_bind, wp_get, wp_ret. by rewrite H1. Qed.

Lemma now_xfer x j s (Q : venus_i2c_xfer -> i2c_st -> Prop) : Now d0 x j s -> Q x s -> wp get_xfer s Q.
Proof. intros [H1 H2] HQ. unfold get_xfer. apply wp_bind, wp_get, wp_ret. by rewrite H1. Qed.

(** A message that is written, or a buffer of [n] bytes that is read into. *)
Variables (md : Z) (tx : list Z) (n : Z).
Hypothesis Hmd : md = I2C_MASTER_WRITE /\ 0 < Zlen tx \/ md = I2C_MASTER_READ /\ 0 < n.
Hypothesis Htx : Zlen tx <= 65535.
Hypothesis Hn : 0 <= n <= 65535.

(** There is a byte left. *)
Definition more (x : venus_i2c_xfer) : Prop := (md = 2 -> tx_len x < Zlen tx) /\ (md = 1 -> rx_len x < n).

Definition place (x : venus_i2c_xfer) : Prop :=
  let st := gpio_xfer_state x in
  (0 <= gpio_xfer_sub_state x <= 3) /\
  (st = 0 /\ more x \/ 32 <= st <= 40 /\ more x \/ 64 <= st <= 71 /\ more x \/ st = 72 /\ (md = 2 -> tx_len x < Zlen tx) /\ (gpio_xfer_sub_state x = 0 -> md = 1 -> rx_len x < n) \/
   st = 96 \/ st = 128 /\ gpio_xfer_sub_state x = 0).

Definition result_ok (r : Z) : Prop := r = 0 \/ r = - ETXABORT \/ r = - ETIMEOUT.

Record Sound (x : venus_i2c_xfer) : Prop := {
  so_tx : tx_buff x = tx /\ tx_buff_len x = Zlen tx;
  so_rx : Zlen (rx_buff x) = n /\ rx_buff_len x = n;
  so_len : 0 <= tx_len x <= Zlen tx /\ 0 <= rx_len x <= n;
  so_ret : result_ok (xret x);
  so_timer : timer x = false
}.

Record Fine (x : venus_i2c_xfer) : Prop := {
  fi_sound : Sound x;
  fi_mode : mode x = md;
  fi_place : place x
}.

(** The transfer goes on. *)
Definition Goes (x : venus_i2c_xfer) (j : Z) (s' : i2c_st) : Prop := exists x', Now d0 x' j s' /\ Fine x' /\ timeout x' = timeout x /\ gpio_wait_time x' = gpio_wait_time x.

Ltac now_op L := apply wp_bind; eapply L; [eapply now_m; eassumption|let s := fresh "s" in let S := fresh "S" in intros s S;
  match goal with H : Now _ _ _ ?s0, S : same ?s0 s |- _ => let A := fresh "A" in pose proof (now_same _ _ _ _ H S) as A; clear H S end].
Ltac now_read L := apply wp_bind; eapply L; [eapply now_m; eassumption|let s := fresh "s" in let S := fresh "S" in let b := fresh "b" in intros b s S;
  match goal with H : Now _ _ _ ?s0, S : same ?s0 s |- _ => let A := fresh "A" in pose proof (now_same _ _ _ _ H S) as A; clear H S end; destruct b; cbn [Z.eqb Pos.eqb negb andb orb]; cbn beta iota].
Ltac now_set := eapply now_upd; [eassumption|let s := fresh "s" in let A := fresh "A" in intros s A].
Ltac go := match goal with A : Now _ ?y _ ?s |- Goes _ _ ?s => exists y; split; [exact A|] end.

Ltac one := first
  [ match goal with |- wp (venus_gpio_set_dir (scl m) _ ≫= _) _ _ => now_op any_dir_scl
    | |- wp (venus_gpio_set_dir (sda m) _ ≫= _) _ _ => now_op any_dir_sda
    | |- wp (venus_gpio_set_ie (scl m) _ ≫= _) _ _ => now_op any_ie_scl
    | |- wp (venus_gpio_set_ie (sda m) _ ≫= _) _ _ => now_op any_ie_sda
    | |- wp (venus_gpio_write (scl m) _ ≫= _) _ _ => now_op any_out_scl
    | |- wp (venus_gpio_write (sda m) _ ≫= _) _ _ => now_op any_out_sda
    | |- wp (venus_i2c_gpio_selection _ ≫= _) _ _ => now_op any_select
    | |- wp (venus_gpio_read (scl m) ≫= _) _ _ => now_read any_read_scl
    | |- wp (venus_gpio_read (sda m) ≫= _) _ _ => now_read any_read_sda
    | |- wp (mret _ ≫= _) _ _ => apply wp_bind, wp_ret; cbn [Z.eqb Pos.eqb negb andb orb]; cbn beta iota
    | |- wp (mret _) _ _ => apply wp_ret; first [go|cbn [Z.eqb Pos.eqb negb andb orb]; cbn beta iota]
    | |- wp (lift_res _ ≫= _) _ _ => apply wp_bind; eapply wp_lift; [eassumption|]
    | |- wp (upd_xfer _ ≫= _) _ _ => apply wp_bind; now_set
    | |- wp (upd_xfer _) _ _ => now_set; first [go|cbn beta iota]
    | |- wp ((_ ≫= _) ≫= _) _ _ => apply wp_bind
    end ].

(** ** The place in the transfer *)

Lemma place_next x y : place x -> gpio_xfer_sub_state x <> 3 -> gpio_xfer_state x <> 128 -> gpio_xfer_state y = gpio_xfer_state x ->
  gpio_xfer_sub_state y = u8 (gpio_xfer_sub_state x + 1) -> tx_len y = tx_len x -> rx_len y = rx_len x -> place y.
Proof.
  intros [H1 H2] Hs Hd E1 E2 E3 E4. assert (E : u8 (gpio_xfer_sub_state x + 1) = gpio_xfer_sub_state x + 1) by (apply Z.mod_small; lia).
  unfold place, more in *. rewrite E1, E2, E, E3, E4. split; [lia|].
  destruct H2 as [?|[?|[?|[(? & ? & ?)|[?|[? ?]]]]]]; [by left|by right; left|by do 2 right; left|do 3 right; left|by do 4 right; left|done].
  split; [done|]. split; [done|]. intros E0. exfalso. lia.
Qed.

Lemma place_more x : place x -> gpio_xfer_state x <= 71 -> more x.
Proof. intros [_ [[_ H]|[[_ H]|[[_ H]|[[H _]|[H|[H _]]]]]]] Hle; (exact H || exfalso; lia). Qed.

Lemma place_up x y : place x -> 32 <= gpio_xfer_state x < 40 \/ 64 <= gpio_xfer_state x < 72 -> gpio_xfer_state y = u8 (gpio_xfer_state x + 1) ->
  gpio_xfer_sub_state y = 0 -> tx_len y = tx_len x -> rx_len y = rx_len x -> place y.
Proof.
  intros H Hst E1 E2 E3 E4. assert (Hx : more x) by (apply place_more; [done|lia]). clear H. assert (E : u8 (gpio_xfer_state x + 1) = gpio_xfer_state x + 1) by (apply Z.mod_small; lia).
  assert (Hy : more y) by (unfold more; by rewrite E3, E4). unfold place. rewrite E1, E, E2. split; [lia|].
  destruct Hst; [by right; left; split; [lia|]|]. destruct (Z.eq_dec (gpio_xfer_state x) 71); [|by do 2 right; left; split; [lia|]].
  do 3 right; left. destruct Hy. split; [lia|]. by split.
Qed.

Lemma place_go y : gpio_xfer_state y = G2C_ST_ADDR0 \/ gpio_xfer_state y = G2C_ST_DATA0 -> gpio_xfer_sub_state y = 0 -> more y -> place y.
Proof. unfold place. intros [-> | ->] -> Hm'; (split; [lia|]); [by right; left|by do 2 right; left]. Qed.

Lemma place_end y : gpio_xfer_state y = G2C_ST_STOP \/ gpio_xfer_state y = G2C_ST_DONE -> gpio_xfer_sub_state y = 0 -> place y.
Proof. unfold place. intros [-> | ->] ->; (split; [lia|]); [by do 4 right; left|by do 5 right]. Qed.

Lemma place_ack x y : gpio_xfer_state x = 72 -> gpio_xfer_sub_state x = 0 -> gpio_xfer_state y = gpio_xfer_state x -> gpio_xfer_sub_state y = u8 (gpio_xfer_sub_state x + 1) -> md <> 2 -> place y.
Proof. unfold place. intros -> -> -> -> Hne. split; [done|]. do 3 right; left. split; [done|]. split; [intros E; by destruct Hne|done]. Qed.

Lemma place_unsent x : md = 2 -> place x -> gpio_xfer_state x <= 72 -> tx_len x < Zlen tx.
Proof.
  intros E Hp Hle. destruct (Z.eq_dec (gpio_xfer_state x) 72) as [E'|Hne]; [|apply place_more; [done|lia|done]].
  destruct Hp as [_ [[? _]|[[? _]|[[? _]|[(_ & H & _)|[?|[? _]]]]]]]; first [by apply H|exfalso; lia].
Qed.

Lemma place_unread x : md = 1 -> place x -> gpio_xfer_state x <= 72 -> gpio_xfer_sub_state x = 0 -> rx_len x < n.
Proof.
  intros E Hp Hle Hs. destruct (Z.eq_dec (gpio_xfer_state x) 72) as [E'|Hne]; [|apply place_more; [done|lia|done]].
  destruct Hp as [_ [[? _]|[[? _]|[[? _]|[(_ & _ & H)|[?|[? _]]]]]]]; first [by apply H|exfalso; lia].
Qed.

(** What is left: the new transfer is as it must be. *)
Ltac sound := split; cbn [tx_buff tx_buff_len tx_len rx_buff rx_buff_len rx_len xret timer];
  [assumption|first [assumption|rewrite Zlen_insert; assumption]|first [assumption|lia]|first [assumption|by left|by right; left]|assumption].
Ltac placed := first
  [ match goal with H : place ?x |- place ?x => exact H end
  | eapply place_next; [eassumption|lia|lia|reflexivity..]
  | eapply place_up; [eassumption|lia|reflexivity..]
  | apply place_end; [first [left; reflexivity|right; reflexivity]|reflexivity]
  | match goal with H : place ?x |- _ => apply (place_ack x); [lia|assumption|reflexivity|reflexivity|lia] end
  | apply place_go; [first [left; reflexivity|right; reflexivity]|reflexivity|first [match goal with H : place ?x |- _ => exact (place_more x H ltac:(lia)) end|split; cbn [tx_len rx_len]; intros ?; first [lia|exfalso; lia]]] ].
Ltac fine := split; [split; [sound|cbn [mode]; assumption|placed]|split; reflexivity].

Ltac subs x := let E := fresh "E" in assert (E : gpio_xfer_sub_state x = 0 \/ gpio_xfer_sub_state x = 1 \/ gpio_xfer_sub_state x = 2 \/ gpio_xfer_sub_state x = 3) by lia;
  destruct E as [E|[E|[E|E]]]; rewrite E; cbn [Z.eqb Pos.eqb]; cbn iota; unfold next_sub, goto, next_state, set_state, set_ret, set_rx_len, set_tx_len, set_rx_buff.

Ltac begin := intros [[S1 S2 S3 S4 S5] F2 F4] Est HN; pose proof (proj1 F4) as F3; apply wp_bind; eapply now_dev; [exact HN|]; cbn [with_xfer gpio_map xfer]; rewrite ?Hd0.

Lemma start_goes x j s : Fine x -> gpio_xfer_state x = 0 -> Now d0 x j s -> wp venus_g2c_do_start s (fun _ s' => Goes x j s').
Proof. begin. subs x; repeat one; fine. Qed.

Lemma major_at M st : 0 <= M < 8 -> 32 * M <= st < 32 * M + 32 -> G2C_MAJOR_STATE st = M.
Proof. intros HM Hst. replace st with (32 * M + (st - 32 * M)) by lia. apply major_minor; lia. Qed.

Lemma minor_at M st : 0 <= M < 8 -> 32 * M <= st < 32 * M + 32 -> G2C_MINOR_STATE st = st - 32 * M.
Proof. intros HM Hst. replace st with (32 * M + (st - 32 * M)) at 1 by lia. apply major_minor; lia. Qed.

Lemma address_goes x j s : Fine x -> 32 <= gpio_xfer_state x <= 40 -> Now d0 x j s -> wp venus_g2c_do_address s (fun _ s' => Goes x j s').
Proof.
  begin. set (ad := g2c_addr _). assert (Em : G2C_MINOR_STATE (gpio_xfer_state x) = gpio_xfer_state x - 32) by (apply (minor_at 1); lia). rewrite Em.
  destruct (Z.leb_spec (gpio_xfer_state x - 32) 7).
  - destruct (odd_at ad (7 - (gpio_xfer_state x - 32))); subs x; repeat one; fine.
  - rewrite (proj2 (Z.eqb_eq (gpio_xfer_state x - 32) 8)) by lia. subs x; repeat one; fine.
Qed.

Lemma write_goes x j s : md = I2C_MASTER_WRITE -> Fine x -> 64 <= gpio_xfer_state x <= 72 -> Now d0 x j s -> wp venus_g2c_do_write s (fun _ s' => Goes x j s').
Proof.
  intros Ew. begin. assert (Em : G2C_MINOR_STATE (gpio_xfer_state x) = gpio_xfer_state x - 64) by (apply (minor_at 2); lia). rewrite Em.
  unfold I2C_MASTER_WRITE, I2C_MASTER_READ in *. pose proof (place_unsent x Ew F4 ltac:(lia)) as Hu.
  assert (Hl : 0 <= tx_len x < Zlen (tx_buff x)) by (destruct S1 as [-> _]; lia). pose proof (rd_ok _ _ Hl) as Erd.
  assert (El : (tx_len x + 1) mod 65536 = tx_len x + 1) by (apply Z.mod_small; destruct S1 as [E1 _]; rewrite E1 in Hl; lia).
  destruct (Z.ltb_spec (gpio_xfer_state x - 64) 8).
  - destruct (odd_at (tx_buff x).[tx_len x] (7 - (gpio_xfer_state x - 64))) eqn:Eo; subs x; repeat first [one|rewrite Eo]; fine.
  - subs x; repeat one; rewrite ?El; try fine; destruct (Z.leb_spec (tx_buff_len x) (tx_len x + 1)); repeat one; rewrite ?El; fine.
Qed.

Lemma read_goes x j s : md = I2C_MASTER_READ -> Fine x -> 64 <= gpio_xfer_state x <= 72 -> Now d0 x j s -> wp venus_g2c_do_read s (fun _ s' => Goes x j s').
Proof.
  intros Er. begin. assert (Em : G2C_MINOR_STATE (gpio_xfer_state x) = gpio_xfer_state x - 64) by (apply (minor_at 2); lia). rewrite Em.
  unfold I2C_MASTER_WRITE, I2C_MASTER_READ in *.
  destruct (Z.ltb_spec (gpio_xfer_state x - 64) 8).
  - assert (Hl : 0 <= rx_len x < Zlen (rx_buff x)) by (destruct S2 as [-> _]; pose proof (proj2 (place_more x F4 ltac:(lia)) Er); lia). pose proof (rd_ok _ _ Hl) as Erd.
    subs x; repeat one; try fine. apply wp_bind. eapply wp_lift; [apply wr_ok; exact Hl|]. repeat one; fine.
  - assert (Hw : gpio_xfer_sub_state x = 0 -> 0 <= (rx_len x + 1) mod 65536 <= n)
      by (intros E0; pose proof (place_unread x Er F4 ltac:(lia) E0); rewrite Z.mod_small; lia).
    subs x; try specialize (Hw E); try (destruct (Z.ltb_spec (rx_len x) (rx_buff_len x))); repeat one; fine.
Qed.

Lemma stop_goes x j s : Fine x -> gpio_xfer_state x = 96 -> Now d0 x j s -> wp venus_g2c_do_stop s (fun _ s' => Goes x j s').
Proof. begin. subs x; try destruct ((Z.land (flags x) I2C_NO_STOP =? 0) || (xret x <? 0)); repeat one; fine. Qed.

(** ** The end of a transfer *)

Definition Ended (s' : i2c_st) : Prop := Given s' /\ exists x', p_this s' = with_xfer d0 x' /\ Sound x' /\ mode x' = I2C_IDEL.

Lemma complete_ends x j s : Sound x -> gpio_xfer_sub_state x = 0 -> Now d0 x j s -> wp venus_g2c_do_complete s (fun _ s' => Ended s' /\ jiffies s' = j).
Proof.
  intros Hx Es HN. unfold venus_g2c_do_complete. apply wp_bind. eapply now_dev; [exact HN|]. cbn [with_xfer gpio_map xfer]. rewrite Hd0, Es. cbn [Z.eqb].
  destruct (view_any s (now_m _ _ _ HN)) as (sel & c & d & oc & od & V). destruct HN as [N1 N2].
  apply wp_bind, (wp_dir_sda m Hm _ _ _ _ _ _ _ _ V). intros s1 (V1 & (D1 & J1 & _) & _).
  apply wp_bind, (wp_dir_scl m Hm _ _ _ _ _ _ _ _ V1). intros s2 (V2 & (D2 & J2 & _) & _).
  apply wp_bind, (wp_select m Hm _ _ _ _ _ _ _ _ V2). intros s3 (V3 & (D3 & J3 & _) & _).
  apply wp_bind, wp_modify, wp_modify. split; [|cbn [jiffies set_dev]; congruence]. split; [exists oc, od; destruct V3 as [U1 U2 U3 U4 U5 U6]; by split|].
  unfold set_dev. cbn [p_this]. rewrite D3, D2, D1, N1. eexists. split; [reflexivity|]. split; [|done]. destruct Hx. by split.
Qed.

(** One turn. *)
Lemma isr_any x j s : Fine x -> Now d0 x j s ->
  wp venus_g2c_isr s (fun _ s' => jiffies s' = j /\ (Ended s' \/ time_after j (timeout x) = false /\ Goes x j s')).
Proof.
  intros Hx HN. pose proof Hx as [Hs Hmode [Hsub Hpl]]. unfold venus_g2c_isr, get_jiffies. apply wp_bind. eapply now_xfer; [exact HN|]. apply wp_bind, wp_bind, wp_get, wp_ret.
  assert (Hne : (mode x =? I2C_IDEL) = false) by (rewrite Hmode; by destruct Hmd as [[-> _]|[-> _]]). rewrite Hne. pose proof HN as [_ ->]. cbn [negb andb].
  destruct (time_after j (timeout x)).
  - apply wp_bind. unfold set_ret, goto, set_state. apply wp_bind. now_set. now_set. apply wp_bind. eapply now_xfer; [eassumption|].
    cbn [gpio_xfer_state]. change (G2C_MAJOR_STATE G2C_ST_DONE) with 4. cbn [Z.eqb Pos.eqb G2C_STATE_START G2C_STATE_ADDR G2C_STATE_STOP G2C_STATE_DONE].
    match goal with A : Now _ ?y _ ?s |- wp _ ?s _ => refine (wp_mono _ _ _ _ (complete_ends y j s _ eq_refl A) _) end.
    { destruct Hs. split; try done. by right; right. }
    intros _ s' [H1 H2]. split; [done|]. by left.
  - apply wp_bind, wp_ret, wp_bind. eapply now_xfer; [exact HN|].
    assert (Hgo : forall m : Drv i2c_st unit, wp m s (fun _ s' => Goes x j s') -> wp m s (fun _ s' => jiffies s' = j /\ (Ended s' \/ false = false /\ Goes x j s'))).
    { intros m' H. apply (wp_mono _ _ _ _ H). intros _ s' Hg. split; [|by right]. destruct Hg as (x' & [_ H2] & _). done. }
    destruct Hpl as [[E _]|[[E _]|[[E _]|[[E _]|[E|[E E2]]]]]].
    + rewrite E. cbn. by apply Hgo, start_goes.
    + rewrite (major_at 1) by lia. cbn. by apply Hgo, address_goes.
    + rewrite (major_at 2) by lia. cbn. apply Hgo. rewrite Hmode. pose proof Hmd as [[Em _]|[Em _]]; rewrite Em; cbn; [apply write_goes|apply read_goes]; (done || lia).
    + rewrite (major_at 2) by lia. cbn. apply Hgo. rewrite Hmode. pose proof Hmd as [[Em _]|[Em _]]; rewrite Em; cbn; [apply write_goes|apply read_goes]; (done || lia).
    + rewrite E. cbn. by apply Hgo, stop_goes.
    + rewrite E. cbn. refine (wp_mono _ _ _ _ (complete_ends x j s Hs E2 HN) _). intros _ s' [H1 H2]. split; [done|]. by left.
Qed.

(** ** The loop *)

Variables (B j0 : Z).
Hypothesis HB : B < 1073741824.
Hypothesis Hslip : forall t, 0 <= slip t <= B.

Lemma loop_ends d : 1 <= d -> forall fuel x e s, Fine x -> timeout x = u32 (j0 + 2 * HZ) -> 0 < gpio_wait_time x <= 3000 -> Now d0 x (u32 (j0 + e)) s -> 0 <= e <= 201 + B ->
  (e <= 200 -> 3000 * (200 - e) + gpio_wait_time x <= Z.of_nat fuel) -> wp (g2c_loop fuel d) s (fun _ s' => Ended s' /\ is_u32 (jiffies s')).
Proof.
  intros Hd fuel. induction fuel as [|fuel IH]; intros x e s Hx Hto Hw HN He Hf; cbn [g2c_loop]; apply wp_bind; refine (wp_mono _ _ _ _ (isr_any x _ s Hx HN) _);
    intros [] s1 (J1 & [HE|[Ht Hg]]).
  1, 3: apply wp_bind; pose proof HE as (_ & x' & E1 & _ & E2); unfold get_xfer; apply wp_bind, wp_get, wp_ret; rewrite E1; cbn [with_xfer xfer]; rewrite E2; apply wp_ret; split; [done|rewrite J1; apply u32_range].
  all: assert (Hlate : e <= 200).
  1, 3: destruct (Z.le_gt_cases e 200) as [|Hgt]; [done|exfalso]; rewrite Hto in Ht; unfold time_after, s32, u32, HZ in Ht; rewrite <- Zminus_mod in Ht;
    replace (j0 + 2 * 100 - (j0 + e)) with (200 - e) in Ht by lia; rewrite <- (Z.mod_add (200 - e) 1), Z.mod_small in Ht by (unfold W32; lia); unfold W32 in Ht; destruct (Z.ltb_spec (200 - e + 1 * 4294967296) 2147483648); lia.
  - lia.
  - destruct Hg as (x' & HN' & Hx' & E1 & E2). apply wp_bind. eapply now_xfer; [exact HN'|]. rewrite (fi_mode _ Hx'). replace (md =? I2C_IDEL) with false by (by destruct Hmd as [[-> _]|[-> _]]).
    apply wp_bind. unfold g2c_wait. apply wp_bind. eapply now_xfer; [exact HN'|]. rewrite E2.
    assert (Hstep : forall f k, 0 < f (gpio_wait_time x) <= 3000 -> 0 <= k <= 1 ->
      (forall sl, 0 <= sl -> e + k + sl <= 200 -> 3000 * (200 - (e + k + sl)) + f (gpio_wait_time x) <= Z.of_nat fuel) ->
      wp (set_wait_time f;; pass k) s1 (fun _ s' => wp (g2c_loop fuel d) s' (fun _ s' => Ended s' /\ is_u32 (jiffies s')))).
    { intros f k Hf1 Hk Hf2. unfold set_wait_time. apply wp_bind. now_set. eexists tt, _. split; [reflexivity|]. destruct A as [A1 A2].
      match type of A1 with _ = with_xfer _ ?y => apply (IH y (e + k + slip (now s0))) end.
      - destruct Hx' as [[S1 S2 S3 S4 S5] M P]. by split; [split| |].
      - cbn [timeout]. by rewrite E1.
      - cbn [gpio_wait_time]. by rewrite E2.
      - split; [exact A1|]. unfold look. cbn [jiffies set_bus]. rewrite A2. unfold u32. rewrite <- Z.add_assoc, Zplus_mod_idemp_l. f_equal. lia.
      - pose proof (Hslip (now s0)). lia.
      - cbn [gpio_wait_time]. rewrite E2. intros Hle. apply Hf2; [apply Hslip|done]. }
    destruct (Z.leb_spec (gpio_wait_time x) d).
    + unfold msleep. change (1 / 10 + 1) with 1. apply Hstep; [unfold G2C_WAIT_TIMEOUT; lia|lia|]. intros sl Hsl Hle. unfold G2C_WAIT_TIMEOUT. lia.
    + apply (Hstep (fun w => w - d) 0); [lia|lia|]. intros sl Hsl Hle. lia.
Qed.

(** ** Whole transfers *)

(** No transfer is under way. *)
Record Free (s : i2c_st) : Prop := {
  fr_map : gpio_map (p_this s) = m;
  fr_tick : 4 <= tick (p_this s);
  fr_timer : timer (xfer (p_this s)) = false;
  fr_jiffies : is_u32 (jiffies s)
}.
End ends.

(** The turns within which a transfer ends: 2 seconds, and 3 milliseconds for the
    first wait. *)
Definition last_turn : Z := 603000.

Section transfers.
Context {env : I2cEnv}.
Variables (B : Z) (m : gpio_pins).
Hypothesis Hm : wired m.
Hypothesis HB : B < 1073741824.
Hypothesis Hslip : forall t, 0 <= slip t <= B.

Lemma transfer_ends md fl tx rx rl s fuel : Free m s -> md = I2C_MASTER_WRITE /\ 0 < Zlen tx /\ rx = [] /\ rl = 0 \/ md = I2C_MASTER_READ /\ tx = [] /\ rl = Zlen rx /\ 0 < rl ->
  Zlen tx <= 65535 -> Zlen rx <= 65535 -> last_turn <= Z.of_nat fuel ->
  wp (venus_i2c_load_message md tx (Zlen tx) rx rl fl;; venus_g2c_start_xfer fuel) s (fun r s' => result_ok r /\ Free m s' /\ Given m s' /\ mode (xfer (p_this s')) = I2C_IDEL /\ (exists y, p_this s' = with_xfer (p_this s) y) /\ Sound tx rl (xfer (p_this s'))).
Proof.
  intros [F1 F2 F3 F4] Hmd Htx Hrx Hf. assert (Erl : rl = Zlen rx) by (destruct Hmd as [(_ & _ & -> & ->)|(_ & _ & -> & _)]; done).
  unfold venus_i2c_load_message, venus_g2c_start_xfer, get_xfer, get_dev, get_jiffies. apply wp_bind, wp_bind, wp_bind, wp_get, wp_ret. rewrite F3.
  assert (Hload : (if (Zlen rx =? 0) || (rl =? 0) then Ret rx else if rl <=? Zlen rx then Ret (replicate (Z.to_nat rl) 0 ++ drop (Z.to_nat rl) rx) else Fault) = Ret (replicate (length rx) 0)).
  { rewrite Erl, orb_diag, Z.leb_refl. unfold Zlen. rewrite Nat2Z.id, drop_all, app_nil_r. by destruct rx. }
  apply wp_bind. eapply wp_lift; [exact Hload|]. apply wp_bind, wp_modify, wp_ret. unfold set_dev.
  apply wp_bind, wp_bind, wp_get, wp_ret. cbn [p_this tick]. apply wp_bind, wp_bind, wp_get, wp_ret. cbn [jiffies].
  apply wp_bind, wp_modify, wp_bind, wp_modify, wp_bind. unfold set_dev.
  cbn [p_this xfer regs bus jiffies now fifo id spd tick sar sar_mode tar tar_mode gpio_map rx_fifo_depth tx_fifo_depth time_stamp mode flags tx_buff tx_buff_len tx_len rx_buff rx_buff_len rx_len timeout xret tx_abort_source complete timer gpio_wait_time gpio_xfer_state gpio_xfer_sub_state].
  set (x := mkXfer md fl tx _ _ _ _ _ _ _ _ _ _ _ _ _). set (s1 := mkI2c _ _ _ _ _ _). set (d0 := p_this s).
  assert (Hd : 1 <= Z.shiftr (tick d0) 2) by (unfold d0; rewrite Z.shiftr_div_pow2 by lia; change (2 ^ 2) with 4; apply Z.div_le_lower_bound; lia).
  assert (Hmd' : md = I2C_MASTER_WRITE /\ 0 < Zlen tx \/ md = I2C_MASTER_READ /\ 0 < rl) by (destruct Hmd as [(? & ? & _)|(? & _ & _ & ?)]; [by left|by right]).
  pose proof (Zlen_nonneg tx) as Ht0. pose proof (Zlen_nonneg rx) as Hr0.
  assert (Hrl : 0 <= rl <= 65535) by lia.
  eapply wp_mono; [apply (loop_ends m Hm d0 F1 md tx rl Hmd' Htx Hrl B (jiffies s) HB Hslip _ Hd fuel x 0 s1)|].
  - split; [split|done|split].
    + done.
    + cbn. split; [unfold Zlen; by rewrite length_replicate, Erl|done].
    + cbn. lia.
    + by left.
    + done.
    + cbn. lia.
    + left. split; [done|]. unfold more. cbn. unfold I2C_MASTER_WRITE, I2C_MASTER_READ in *. lia.
  - done.
  - cbn. unfold G2C_WAIT_TIMEOUT. lia.
  - split; [done|]. cbn. rewrite Z.add_0_r. symmetry. by apply u32_small.
  - pose proof (Hslip 0). lia.
  - intros _. cbn. unfold last_turn in Hf. unfold G2C_WAIT_TIMEOUT. lia.
  - intros [] s2 ((Hg & x' & E1 & Hs & Hi) & Hj). apply wp_bind, wp_bind, wp_get, wp_ret. rewrite E1. cbn [with_xfer xfer].
    assert (Hend : forall s3, p_this s3 = p_this s2 /\ is_u32 (jiffies s3) -> Given m s3 -> result_ok (xret x') /\ Free m s3 /\ Given m s3 /\ mode (xfer (p_this s3)) = I2C_IDEL /\ (exists y, p_this s3 = with_xfer (p_this s) y) /\ Sound tx rl (xfer (p_this s3))).
    { intros s3 [E3 J3] G3. rewrite E3, E1. cbn [with_xfer xfer]. split; [apply Hs|]. split; [split; rewrite ?E3, ?E1; cbn; try done; apply Hs|]. split; [done|]. split; [done|]. split; [by exists x'|done]. }
    apply wp_bind. destruct (xret x' =? - ETIMEOUT).
    + eapply wp_mono; [apply (after_timeout_gives m Hm (p_this s2) ltac:(by rewrite E1) (fifo s2) (reg s2)); done|]. intros [] s3 [(H3 & J3 & _) G3]. apply wp_ret. by apply Hend.
    + apply wp_ret, wp_ret. by apply Hend.
Qed.

Lemma write_ends tx wait_stop s fuel : Free m s -> tx <> [] -> Zlen tx <= 65535 -> last_turn <= Z.of_nat fuel ->
  wp (venus_g2c_write fuel tx (Zlen tx) wait_stop) s (fun r s' => result_ok r /\ Free m s' /\ Given m s' /\ mode (xfer (p_this s')) = I2C_IDEL /\ (exists y, p_this s' = with_xfer (p_this s) y) /\ Sound tx 0 (xfer (p_this s'))).
Proof. intros HF Hne Htx Hf. apply transfer_ends; [done|left; repeat split; by destruct tx|done|done|done]. Qed.

Lemma read_ends tx rx s fuel : Free m s -> rx <> [] -> Zlen tx <= 65535 -> Zlen rx <= 65535 -> last_turn <= Z.of_nat fuel ->
  wp (venus_g2c_read fuel tx (Zlen tx) rx (Zlen rx)) s (fun r s' => result_ok r /\ Free m s' /\ Given m s' /\ mode (xfer (p_this s')) = I2C_IDEL /\ (exists y, p_this s' = with_xfer (p_this s) y) /\
    (Sound [] (Zlen rx) (xfer (p_this s')) \/ r < 0 /\ Sound tx 0 (xfer (p_this s')))).
Proof.
  intros HF Hne Htx Hrx Hf. unfold venus_g2c_read. apply wp_bind.
  assert (Hread : forall s1, Free m s1 -> (exists y, p_this s1 = with_xfer (p_this s) y) -> wp (venus_i2c_load_message I2C_MASTER_READ [] 0 rx (Zlen rx) 0;; venus_g2c_start_xfer fuel) s1 (fun r s' => result_ok r /\ Free m s' /\ Given m s' /\ mode (xfer (p_this s')) = I2C_IDEL /\ (exists y, p_this s' = with_xfer (p_this s) y) /\
    (Sound [] (Zlen rx) (xfer (p_this s')) \/ r < 0 /\ Sound tx 0 (xfer (p_this s'))))).
  { intros s' HF' (y & Ey). eapply wp_mono; [apply (transfer_ends I2C_MASTER_READ 0 [] rx (Zlen rx) s' fuel HF'); [right; repeat split; by destruct rx|done|done|done]|].
    intros r s2 (H1 & H2 & H3 & H4 & (z & Ez) & H5). repeat (split; [done|]). split; [exists z; by rewrite Ez, Ey|by left]. }
  destruct (Z.eqb_spec (Zlen tx) 0) as [E|E]; cbn [negb andb]; [apply wp_ret; change (0 <? 0) with false; apply Hread; [done|exists (xfer (p_this s)); by destruct (p_this s)]|].
  eapply wp_mono; [apply (write_ends tx 0 s fuel HF); [by intros ->|done|done]|]. intros r s2 (H1 & H2 & H3 & H4 & H5 & H6). destruct (Z.ltb_spec r 0).
  - apply wp_ret. repeat (split; [done|]). by right.
  - by apply Hread.
Qed.
End transfers.
