(* ===== verification/I2cHw.v ===== *)
(** * I2C adapter: transfers of the controller, and messages

    [drivers/i2c/busses/i2c-venus-priv.c], the part that feeds the FIFOs of the
    controller on interrupts; and [i2c-venus-k.c], which makes transfers of messages. *)
From stdpp Require Import base tactics list numbers option gmap.
From Stdlib Require Import ZArith Lia.
From S2P Require Import Prelude Driver I2c.

Definition READ_CMD : Z := 0x100.
Definition STOP_DET_BIT : Z := 0x200.
Definition TX_ABRT_BIT : Z := 0x40.
Definition TX_EMPTY_BIT : Z := 0x10.
Definition RX_FULL_BIT : Z := 0x04.
Definition ST_RFNE_BIT : Z := 0x08.
Definition ST_TFNF_BIT : Z := 0x02.
Definition I2C_INT (i : Z) : Z := if i =? 0 then Z.shiftl 1 4 else Z.shiftl 1 26.
Definition I2C_TIMEOUT_INTERVAL : Z := 100.
Definition EACCES : Z := 13.

Section hw.
Context {env : I2cEnv}.
Variable fuel : nat.

#[local] Abbreviation D := (Drv i2c_st).

(** ** The interrupt *)

(** [while (!TxComplete() && NOT_TXFULL(i))]: words for the FIFO. *)
Fixpoint tx_thread (TxComplete : venus_i2c_xfer -> bool) (word : venus_i2c_xfer -> res Z) (n : nat) (i : Z) : D unit :=
  x ← get_xfer;
  if TxComplete x then mret tt
  else
    st ← rd_reg (IC_STATUS i);
    if Z.land st ST_TFNF_BIT =? 0 then mret tt
    else
      match n with
      | O => stuck
      | S n =>
          v ← lift_res (word x);
          wr_reg (IC_DATA_CMD i) v;;
          set_tx_len (fun k => (k + 1) mod 65536);;
          tx_thread TxComplete word n i
      end.

(** [while (!RxComplete() && NOT_RXEMPTY(i))] *)
Definition RxComplete (x : venus_i2c_xfer) : bool := rx_buff_len x <=? rx_len x.

Fixpoint rx_thread (n : nat) (i : Z) : D unit :=
  x ← get_xfer;
  if RxComplete x then mret tt
  else
    st ← rd_reg (IC_STATUS i);
    if Z.land st ST_RFNE_BIT =? 0 then mret tt
    else
      match n with
      | O => stuck
      | S n =>
          v ← rd_reg (IC_DATA_CMD i);
          buf ← lift_res (wr (rx_buff x) (rx_len x) (Z.land v 0xff));
          set_rx_buff buf;;
          set_rx_len (fun k => (k + 1) mod 65536);;
          rx_thread n i
      end.

(** Bits of the interrupt mask are cleared. *)
Definition mask_off (i bits : Z) : D unit :=
  v ← rd_reg (IC_INTR_MASK i);
  wr_reg (IC_INTR_MASK i) (Z.land v (Z.lnot bits)).

(** The transfer has a result. *)
Definition xfer_done (i : Z) : D unit :=
  x ← get_xfer;
  if xret x =? 0 then mret tt
  else
    wr_reg (IC_INTR_MASK i) 0;;
    wr_reg (IC_ENABLE i) 0;;
    set_mode I2C_IDEL;;
    set_complete (fun c => c + 1).

Definition has (event b : Z) : bool := negb (Z.land event b =? 0).

Definition venus_i2c_msater_write (event tx_abort_source : Z) : D unit :=
  let TxComplete x := tx_buff_len x <=? tx_len x in
  d ← get_dev;
  let i := id d in
  tx_thread TxComplete (fun x => rd (tx_buff x) (tx_len x)) fuel i;;
  x ← get_xfer;
  (if TxComplete x then mask_off i TX_EMPTY_BIT else mret tt);;
  (if has event TX_ABRT_BIT then
     set_ret (- ETXABORT);;
     set_abort_source tx_abort_source
   else if has event STOP_DET_BIT then set_ret (if TxComplete x then tx_len x else - ECMDSPLIT)
   else mret tt);;
  xfer_done i.

(** The end of both handlers of reads. *)
Definition read_result (TxComplete : venus_i2c_xfer -> bool) (i event tx_abort_source : Z) : D unit :=
  x ← get_xfer;
  (if TxComplete x then mask_off i TX_EMPTY_BIT else mret tt);;
  (if has event TX_ABRT_BIT then
     set_ret (- ETXABORT);;
     set_abort_source tx_abort_source
   else if has event STOP_DET_BIT || RxComplete x then
     mask_off i RX_FULL_BIT;;
     set_ret (if RxComplete x then rx_len x else - ECMDSPLIT)
   else mret tt);;
  xfer_done i.

Definition venus_i2c_msater_read (event tx_abort_source : Z) : D unit :=
  let TxComplete x := rx_buff_len x <=? tx_len x in
  d ← get_dev;
  let i := id d in
  tx_thread TxComplete (fun _ => Ret READ_CMD) fuel i;;
  rx_thread fuel i;;
  read_result TxComplete i event tx_abort_source.

Definition venus_i2c_msater_random_read (event tx_abort_source : Z) : D unit :=
  let TxComplete x := rx_buff_len x + tx_buff_len x <=? tx_len x in
  d ← get_dev;
  let i := id d in
  tx_thread TxComplete (fun x => if tx_len x <? tx_buff_len x then rd (tx_buff x) (tx_len x) else Ret READ_CMD) fuel i;;
  rx_thread fuel i;;
  read_result TxComplete i event tx_abort_source.

Definition venus_i2c_isr : D unit :=
  d ← get_dev;
  let i := id d in
  isr ← rd_reg MIS_ISR;
  if Z.land isr (I2C_INT i) =? 0 then mret tt
  else
    event ← rd_reg (IC_INTR_STAT i);
    tx_abrt_source ← rd_reg (IC_TX_ABRT_SOURCE i);
    rd_reg (IC_CLR_INTR i);;
    (if mode (xfer d) =? I2C_MASTER_WRITE then venus_i2c_msater_write event tx_abrt_source
     else if mode (xfer d) =? I2C_MASTER_READ then venus_i2c_msater_read event tx_abrt_source
     else if mode (xfer d) =? I2C_MASTER_RANDOM_READ then venus_i2c_msater_random_read event tx_abrt_source
     else wr_reg (IC_ENABLE i) 0);;
    set_timer true;;
    wr_reg MIS_ISR (I2C_INT i).

(** ** A transfer *)

Definition venus_i2c_timer : D unit :=
  d ← get_dev;
  let i := id d in
  wr_reg (IC_INTR_MASK i) 0;;
  wr_reg (IC_ENABLE i) 0;;
  set_complete (fun c => c + 1).

(** [wait_for_completion], while [n] interrupts arrive; then the timer goes off. *)
Fixpoint await (n : nat) : D unit :=
  x ← get_xfer;
  if 0 <? complete x then set_complete (fun c => c - 1)
  else
    match n with
    | O =>
        pass I2C_TIMEOUT_INTERVAL;;
        set_timer false;;
        venus_i2c_timer;;
        set_complete (fun c => c - 1)
    | S n =>
        pass 0;;
        venus_i2c_isr;;
        await n
    end.

(** [while (GET_IC_RXFLR(i)) GET_IC_DATA_CMD(i);] *)
Fixpoint drain (n : nat) (i : Z) : D unit :=
  l ← rd_reg (IC_RXFLR i);
  if l =? 0 then mret tt
  else
    match n with
    | O => stuck
    | S n => rd_reg (IC_DATA_CMD i);; drain n i
    end.

Definition set_stamp (j : Z) : D unit :=
  modify (set_dev (fun d => mkDev (id d) (spd d) (tick d) (sar d) (sar_mode d) (tar d) (tar_mode d) (gpio_map d) (rx_fifo_depth d) (tx_fifo_depth d) j (xfer d))).

Definition venus_i2c_start_xfer : D Z :=
  d ← get_dev;
  let i := id d in
  let md := mode (xfer d) in
  ok ← (if md =? I2C_MASTER_WRITE then
          wr_reg (IC_INTR_MASK i) (Z.lor (Z.lor TX_EMPTY_BIT TX_ABRT_BIT) STOP_DET_BIT);;
          mret true
        else if (md =? I2C_MASTER_READ) || (md =? I2C_MASTER_RANDOM_READ) then
          l ← rd_reg (IC_RXFLR i);
          (if negb (l =? 0) then drain fuel i else mret tt);;
          wr_reg (IC_INTR_MASK i) (Z.lor (Z.lor (Z.lor RX_FULL_BIT TX_EMPTY_BIT) TX_ABRT_BIT) STOP_DET_BIT);;
          mret true
        else mret false);
  if negb ok then mret (- EILLEGALMSG)
  else
    j ← get_jiffies;
    (if j <=? time_stamp d then udelay 1000 else mret tt);;
    set_timer true;;
    wr_reg (IC_ENABLE i) 1;;
    s ← get;
    await (arrivals (now s));;
    set_timer false;;
    x ← get_xfer;
    (if negb (mode x =? I2C_IDEL) then
       set_ret (- ETIMEOUT);;
       after_timeout
     else mret tt);;
    j ← get_jiffies;
    set_stamp j;;
    x ← get_xfer;
    let ret := xret x in
    (if ret =? - ECMDSPLIT then venus_i2c_probe;; mret tt else mret tt);;
    mret ret.

(** [while (retry > 0)] *)
Fixpoint attempts (retry : nat) (m : D Z) (ret : Z) : D Z :=
  match retry with
  | O => mret ret
  | S retry =>
      ret ← m;
      if ret =? - ETIMEOUT then attempts retry m ret else mret ret
  end.

Definition venus_i2c_read (tx_buf : list Z) (tx_buf_len : Z) (rx_buf : list Z) (rx_buf_len : Z) : D Z :=
  attempts 2 (
    venus_i2c_load_message (if negb (tx_buf_len =? 0) then I2C_MASTER_RANDOM_READ else I2C_MASTER_READ) tx_buf tx_buf_len rx_buf rx_buf_len 0;;
    venus_i2c_start_xfer) 0.

Definition venus_i2c_write (tx_buf : list Z) (tx_buf_len wait_stop : Z) : D Z :=
  attempts 2 (
    venus_i2c_load_message I2C_MASTER_WRITE tx_buf tx_buf_len [] 0 (if negb (wait_stop =? 0) then 0 else I2C_NO_STOP);;
    if wait_stop =? 0 then venus_g2c_start_xfer fuel else venus_i2c_start_xfer) 0.

Definition venus_i2c_get_tx_abort_reason : D Z :=
  x ← get_xfer;
  mret (tx_abort_source x).

Definition venus_i2c_uninit : D Z :=
  d ← get_dev;
  let i := id d in
  wr_reg (IC_ENABLE i) 0;;
  wr_reg (IC_INTR_MASK i) 0;;
  mret 0.

(** ** Messages: [i2c_venus_xfer] *)

Record i2c_msg := mkMsg { addr : Z; mflags : Z; len : Z; buf : list Z }.

Definition I2C_M_RD : Z := 0x01.
Definition I2C_GPIO_RW : Z := 0x80.

Definition IsReadMsg (x : i2c_msg) : bool := has (mflags x) I2C_M_RD.
Definition IsGPIORW (x : i2c_msg) : bool := has (mflags x) I2C_GPIO_RW.
Definition IsSameTarget (x y : i2c_msg) : bool := (addr x =? addr y) && (Z.land (Z.lxor (mflags x) (mflags y)) (Z.lnot I2C_M_RD) =? 0).

(** What has been read is in the buffer of its message; without a buffer the transfer
    that was made last is not the read. *)
Definition got (y : i2c_msg) : D i2c_msg :=
  x ← get_xfer;
  mret (mkMsg (addr y) (mflags y) (len y) (if Zlen (rx_buff x) =? 0 then buf y else rx_buff x)).

(** [todo]: the messages from [i] on; [done]: those before, a history.  The result is the
    number of messages, or the error. *)
Fixpoint xfer_loop (todo : list i2c_msg) (done : list i2c_msg) : D (Z * list i2c_msg) :=
  match todo with
  | [] => mret (Zlen done, done)
  | x :: rest =>
      let fail := (- EACCES, done ++ todo) in
      ret ← venus_i2c_set_tar (addr x) ADDR_MODE_7BITS;
      if ret <? 0 then mret fail
      else if IsReadMsg x then
        ret ← (if IsGPIORW x then venus_g2c_read fuel [] 0 (buf x) (len x) else venus_i2c_read [] 0 (buf x) (len x));
        x' ← got x;
        if ret <? 0 then mret (- EACCES, done ++ x' :: rest) else xfer_loop rest (done ++ [x'])
      else
        match rest with
        | y :: rest' =>
            if IsReadMsg y && IsSameTarget x y then
              ret ← (if IsGPIORW x then venus_g2c_read fuel (buf x) (len x) (buf y) (len y) else venus_i2c_read (buf x) (len x) (buf y) (len y));
              y' ← got y;
              if ret <? 0 then mret (- EACCES, done ++ x :: y' :: rest') else xfer_loop rest' (done ++ [x; y'])
            else
              ret ← (if IsGPIORW x then venus_g2c_write fuel (buf x) (len x) 0 else venus_i2c_write (buf x) (len x) 0);
              if ret <? 0 then mret fail else xfer_loop rest (done ++ [x])
        | [] =>
            ret ← (if IsGPIORW x then venus_g2c_write fuel (buf x) (len x) 1 else venus_i2c_write (buf x) (len x) 1);
            if ret <? 0 then mret fail else xfer_loop rest (done ++ [x])
        end
  end.

Definition i2c_venus_xfer (msgs : list i2c_msg) : D (Z * list i2c_msg) := xfer_loop msgs [].

(** ** Handles *)

(** [venus_i2c_flags]: which of the two units have a handle.  [junk]: what the new
    memory holds. *)
Definition create_venus_i2c_handle (junk : venus_i2c) (venus_i2c_flags i sa sm sp : Z) : option (venus_i2c * Z) :=
  if (2 <=? i) || odd_at venus_i2c_flags i then None
  else Some (mkDev i sp (tick junk) sa sm (tar junk) (tar_mode junk) (gpio_map junk) (rx_fifo_depth junk) (tx_fifo_depth junk) (time_stamp junk)
               (mkXfer I2C_IDEL 0 [] 0 0 [] 0 0 0 0 0 0 false 0 0 0),
             Z.lor venus_i2c_flags (Z.shiftl 1 i)).

Definition destroy_venus_i2c_handle (venus_i2c_flags : Z) : D Z :=
  d ← get_dev;
  venus_i2c_uninit;;
  mret (Z.land venus_i2c_flags (Z.lnot (Z.shiftl 1 (id d)))).
End hw.
