(* ===== verification/I2cHwProofs.v ===== *)
(** * I2C adapter: lemmas on the transfers of the controller *)
From stdpp Require Import base tactics list numbers option gmap.
From Stdlib Require Import ZArith Lia.
From S2P Require Import Prelude Driver I2c I2cPins I2cBits I2cG2c I2cEnds I2cHw.

Section hw.
Context {env : I2cEnv}.

(** ** Registers *)

Lemma rd_any a s (Q : Z -> i2c_st -> Prop) : (forall v, Q v s) -> (forall v, Q v (tick_now s)) -> wp (rd_reg a) s Q.
Proof.
  intros H1 H2. unfold rd_reg. destruct ((MIS_GP0DATI <=? a) && (a <? MIS_GP0IE)); [eexists _, _; split; [reflexivity|apply H2]|].
  destruct (volatile a); eexists _, _; (split; [reflexivity|]); [apply H2|apply H1].
Qed.

Definition is_data (a : Z) : bool := (a =? IC_DATA_CMD 0) || (a =? IC_DATA_CMD 1).

Lemma wr_any a v s (Q : unit -> i2c_st -> Prop) :
  (forall s', p_this s' = p_this s -> jiffies s' = jiffies s -> fifo s' = fifo s ++ (if is_data a then [v] else []) -> (forall a', reg s' a' = if a' =? a then u32 v else reg s a') -> Q tt s') ->
  wp (wr_reg a v) s Q.
Proof.
  intros HQ. eexists tt, _. split; [reflexivity|]. unfold log_fifo. change ((a =? IC_DATA_CMD 0) || (a =? IC_DATA_CMD 1)) with (is_data a) in *.
  apply HQ; destruct (is_data a); try done; try (intros a'; rewrite reg_look; apply reg_set); unfold look; cbn [fifo set_bus set_regs]; by rewrite ?app_nil_r.
Qed.

(** ** The transfer *)

Variable d : venus_i2c.
Let i := id d.
Hypothesis Hi : i = 0 \/ i = 1.

Definition St (x : venus_i2c_xfer) (l : list Z) (s : i2c_st) : Prop := p_this s = with_xfer d x /\ fifo s = l /\ is_u32 (jiffies s).

(** The controller is disabled, and its interrupts are masked. *)
Definition Off (s : i2c_st) : Prop := reg s (IC_INTR_MASK i) = 0 /\ reg s (IC_ENABLE i) = 0.

Lemma st_rd a x l s (Q : Z -> i2c_st -> Prop) : St x l s -> (forall v s', St x l s' -> (Off s -> Off s') -> Q v s') -> wp (rd_reg a) s Q.
Proof. intros H HQ. by apply rd_any; intros v; apply HQ. Qed.

Lemma st_wr a v x l s (Q : unit -> i2c_st -> Prop) : St x l s -> is_data a = false -> (forall s', St x l s' -> (forall a', reg s' a' = if a' =? a then u32 v else reg s a') -> Q tt s') -> wp (wr_reg a v) s Q.
Proof. intros (H1 & H2 & H3) Hd HQ. apply wr_any. intros s' E1 E2 E3 E4. apply HQ; [|done]. rewrite Hd, app_nil_r in E3. split; [congruence|]. split; congruence. Qed.

Lemma st_upd f x l s (Q : unit -> i2c_st -> Prop) : St x l s -> (forall s', St (f x) l s' -> (Off s -> Off s') -> Q tt s') -> wp (upd_xfer f) s Q.
Proof. intros (H1 & H2 & H3) HQ. apply wp_modify, HQ; [|done]. unfold set_dev. split; [cbn [p_this]; by rewrite H1|done]. Qed.

Lemma st_dev x l s (Q : venus_i2c -> i2c_st -> Prop) : St x l s -> Q (with_xfer d x) s -> wp get_dev s Q.
Proof. intros (H1 & _) HQ. unfold get_dev. apply wp_bind, wp_get, wp_ret. by rewrite H1. Qed.

Lemma st_xfer x l s (Q : venus_i2c_xfer -> i2c_st -> Prop) : St x l s -> Q x s -> wp get_xfer s Q.
Proof. intros (H1 & _) HQ. unfold get_xfer. apply wp_bind, wp_get, wp_ret. by rewrite H1. Qed.

Lemma data_regs : is_data (IC_DATA_CMD i) = true /\ is_data (IC_INTR_MASK i) = false /\ is_data (IC_ENABLE i) = false /\ is_data MIS_ISR = false /\
  IC_ENABLE i <> IC_INTR_MASK i /\ IC_ENABLE i <> MIS_ISR /\ IC_INTR_MASK i <> MIS_ISR.
Proof. by destruct Hi as [-> | ->]. Qed.

(** *** The two threads *)

Variables (tx : list Z) (rl : Z) (l0 : list Z).
Hypothesis Hrl : 0 <= rl.

(** What the driver sends to the FIFO. *)
Definition cmds : list Z := tx ++ replicate (Z.to_nat rl) READ_CMD.
Hypothesis Hlen : Zlen cmds <= 65535.

Lemma cmds_len : Zlen cmds = Zlen tx + rl.
Proof. unfold cmds. rewrite Zlen_app. unfold Zlen at 2. rewrite length_replicate. lia. Qed.

Definition sent (k : Z) : list Z := l0 ++ take (Z.to_nat k) cmds.

Lemma sent_next k : 0 <= k < Zlen cmds -> sent k ++ [cmds.[k]] = sent (k + 1).
Proof.
  intros Hk. unfold sent. rewrite <- app_assoc. f_equal. replace (Z.to_nat (k + 1)) with (S (Z.to_nat k)) by lia. unfold Zlen in Hk.
  destruct (lookup_lt_is_Some_2 cmds (Z.to_nat k) ltac:(lia)) as [v Hv]. rewrite (take_S_r _ _ v Hv). unfold at_. by rewrite (nth_lookup_Some _ _ 0 _ Hv).
Qed.

Record Base (x : venus_i2c_xfer) : Prop := {
  ba_tx : tx_buff x = tx /\ tx_buff_len x = Zlen tx;
  ba_rx : Zlen (rx_buff x) = rl /\ rx_buff_len x = rl;
  ba_tl : 0 <= tx_len x <= Zlen cmds;
  ba_rl : 0 <= rx_len x <= rl
}.

Lemma base_txx k x : Base x -> 0 <= k <= Zlen cmds -> Base (txx k x).
Proof. intros [B1 B2 B3 B4] Hk. by split. Qed.

Lemma base_rxx b k x : Base x -> 0 <= k <= rl -> Zlen b = rl -> Base (rxx b k x).
Proof. intros [B1 [_ B2] B3 B4] Hk Hb. by split. Qed.

Lemma tx_thread_ok TC word : (forall x, Base x -> TC x = (Zlen cmds <=? tx_len x)) -> (forall x, Base x -> tx_len x < Zlen cmds -> word x = Ret cmds.[tx_len x]) -> forall n x s,
  St x (sent (tx_len x)) s -> Base x -> Zlen cmds - tx_len x <= Z.of_nat n ->
  wp (tx_thread TC word n i) s (fun _ s' => exists k, tx_len x <= k <= Zlen cmds /\ St (txx k x) (sent k) s').
Proof.
  intros HTC Hword n. induction n as [|n IH]; intros x s Hs Hx Hn; cbn [tx_thread]; apply wp_bind; (eapply st_xfer; [exact Hs|]); rewrite (HTC x Hx);
    (destruct (Z.leb_spec (Zlen cmds) (tx_len x)); [apply wp_ret; exists (tx_len x); split; [pose proof (ba_tl _ Hx); lia|by destruct x]|]).
  - lia.
  - apply wp_bind. eapply st_rd; [exact Hs|]. intros st s1 Hs1 _. destruct (Z.land st ST_TFNF_BIT =? 0); [apply wp_ret; exists (tx_len x); split; [pose proof (ba_tl _ Hx); lia|by destruct x]|].
    rewrite (Hword x Hx) by done. apply wp_bind. eapply wp_lift; [reflexivity|]. apply wp_bind, wr_any. intros s2 E1 E2 E3 _. rewrite (proj1 data_regs) in E3. destruct Hs1 as (S1 & S2 & S3).
    pose proof (ba_tl _ Hx). rewrite S2, sent_next in E3 by lia. assert (Hs2 : St x (sent (tx_len x + 1)) s2) by (split; [congruence|split; congruence]).
    apply wp_bind. eapply st_upd; [exact Hs2|]. intros s3 Hs3 _. cbn beta in Hs3. rewrite (Z.mod_small (tx_len x + 1)) in Hs3 by lia.
    assert (Hx' : Base (txx (tx_len x + 1) x)) by (apply base_txx; [done|lia]). assert (Hn' : Zlen cmds - tx_len (txx (tx_len x + 1) x) <= Z.of_nat n) by (cbn [txx tx_len]; lia).
    refine (wp_mono _ _ _ _ (IH (txx (tx_len x + 1) x) s3 Hs3 Hx' Hn') _). intros _ s4 (k & Hk & Hs4). exists k. cbn [txx tx_len] in Hk. split; [lia|exact Hs4].
Qed.

Lemma rx_thread_ok n : forall x l s, St x l s -> Base x -> rl - rx_len x <= Z.of_nat n ->
  wp (rx_thread n i) s (fun _ s' => exists b k, Base (rxx b k x) /\ St (rxx b k x) l s').
Proof.
  induction n as [|n IH]; intros x l s Hs Hx Hn; cbn [rx_thread]; apply wp_bind; (eapply st_xfer; [exact Hs|]); unfold RxComplete; rewrite (proj2 (ba_rx _ Hx));
    (destruct (Z.leb_spec rl (rx_len x)); [apply wp_ret; exists (rx_buff x), (rx_len x); by destruct x|]).
  - lia.
  - apply wp_bind. eapply st_rd; [exact Hs|]. intros st s1 Hs1 _. destruct (Z.land st ST_RFNE_BIT =? 0); [apply wp_ret; exists (rx_buff x), (rx_len x); by destruct x|].
    apply wp_bind. eapply st_rd; [exact Hs1|]. intros v s2 Hs2 _. pose proof (ba_rl _ Hx). pose proof (ba_rx _ Hx) as [R1 R2].
    apply wp_bind. eapply wp_lift; [apply wr_ok; lia|]. apply wp_bind. eapply st_upd; [exact Hs2|]. intros s3 Hs3 _. apply wp_bind. eapply st_upd; [exact Hs3|]. intros s4 Hs4 _.
    cbn beta in Hs4. pose proof cmds_len. pose proof (Zlen_nonneg tx). cbn [rx_len] in Hs4. rewrite (Z.mod_small (rx_len x + 1)) in Hs4 by lia.
    set (x' := rxx (<[Z.to_nat (rx_len x) := Z.land v 0xff]> (rx_buff x)) (rx_len x + 1) x).
    assert (Hx' : Base x') by (apply base_rxx; [done|lia|by rewrite Zlen_insert]). assert (Hn' : rl - rx_len x' <= Z.of_nat n) by (cbn [x' rxx rx_len]; lia).
    refine (wp_mono _ _ _ _ (IH x' l s4 Hs4 Hx' Hn') _).
    intros _ s5 (b & k & B & Hs5). by exists b, k.
Qed.

(** *** The interrupt *)

Variable md : Z.
Hypothesis Hmd : md = I2C_MASTER_WRITE /\ rl = 0 \/ md = I2C_MASTER_READ /\ tx = [] \/ md = I2C_MASTER_RANDOM_READ.

(** A result that is not a time-out. *)
Definition outcome (r : Z) (x : venus_i2c_xfer) : Prop :=
  r = - ETXABORT \/ r = - ECMDSPLIT \/ md = I2C_MASTER_WRITE /\ r = Zlen tx /\ tx_len x = Zlen cmds \/ md <> I2C_MASTER_WRITE /\ r = rl /\ rx_len x = rl.

Record Running (x : venus_i2c_xfer) : Prop := { ru_base : Base x; ru_mode : mode x = md; ru_ret : xret x = 0; ru_complete : complete x = 0 }.
Record Finished (x : venus_i2c_xfer) : Prop := { fi_base : Base x; fi_mode : mode x = I2C_IDEL; fi_ret : outcome (xret x) x; fi_complete : complete x = 1 }.

Definition Step_ok (s : i2c_st) : Prop := exists x, St x (sent (tx_len x)) s /\ (Running x \/ Finished x /\ Off s).

Lemma xfer_done_ok x s : St x (sent (tx_len x)) s -> Base x -> mode x = md -> complete x = 0 -> xret x = 0 \/ outcome (xret x) x -> wp (xfer_done i) s (fun _ s' => Step_ok s').
Proof.
  intros Hs Hb Hm Hc Hr. unfold xfer_done. apply wp_bind. eapply st_xfer; [exact Hs|]. destruct (Z.eqb_spec (xret x) 0) as [E|E].
  - apply wp_ret. exists x. split; [exact Hs|]. by left.
  - destruct data_regs as (_ & D1 & D2 & _ & N1 & _). apply wp_bind. eapply st_wr; [exact Hs|exact D1|]. intros s1 H1 R1. apply wp_bind. eapply st_wr; [exact H1|exact D2|]. intros s2 H2 R2.
    assert (HO : Off s2). { split; rewrite R2; [|by rewrite Z.eqb_refl]. rewrite (proj2 (Z.eqb_neq (IC_INTR_MASK i) (IC_ENABLE i))) by congruence. by rewrite R1, Z.eqb_refl. }
    apply wp_bind. eapply st_upd; [exact H2|]. intros s3 H3 O3. eapply st_upd; [exact H3|]. intros s4 H4 O4. eexists. split; [exact H4|]. right. split; [|by apply O4, O3].
    destruct Hr as [Hr|Hr]; [done|]. split; [by destruct Hb; split|done|exact Hr|cbn; by rewrite Hc].
Qed.

Lemma mask_off_ok bits x l s : St x l s -> wp (mask_off i bits) s (fun _ s' => St x l s').
Proof. intros Hs. unfold mask_off. apply wp_bind. eapply st_rd; [exact Hs|]. intros v s1 H1 _. eapply st_wr; [exact H1|apply data_regs|]. done. Qed.

Lemma mask_if_ok (b : bool) bits x l s : St x l s -> wp (if b then mask_off i bits else mret tt) s (fun _ s' => St x l s').
Proof. intros Hs. destruct b; [by apply mask_off_ok|by apply wp_ret]. Qed.

Lemma base_ret r a x : Base x -> Base (mkXfer (mode x) (flags x) (tx_buff x) (tx_buff_len x) (tx_len x) (rx_buff x) (rx_buff_len x) (rx_len x) (timeout x) r a (complete x) (timer x) (gpio_wait_time x) (gpio_xfer_state x) (gpio_xfer_sub_state x)).
Proof. intros [B1 B2 B3 B4]. by split. Qed.

(** The abort has a result of its own. *)
Lemma abort_ok ta x s : St x (sent (tx_len x)) s -> Base x -> mode x = md -> complete x = 0 ->
  wp (set_ret (- ETXABORT);; set_abort_source ta) s (fun _ s' => wp (xfer_done i) s' (fun _ s' => Step_ok s')).
Proof.
  intros Hs Hb Hm Hc. apply wp_bind. eapply st_upd; [exact Hs|]. intros s1 H1 _. eapply st_upd; [exact H1|]. intros s2 H2 _. eapply xfer_done_ok; [exact H2|by destruct Hb; split|done|done|]. right. by left.
Qed.

Lemma ret_ok r x s : St x (sent (tx_len x)) s -> Base x -> mode x = md -> complete x = 0 -> r = 0 \/ outcome r x ->
  wp (set_ret r) s (fun _ s' => wp (xfer_done i) s' (fun _ s' => Step_ok s')).
Proof. intros Hs Hb Hm Hc Hr. eapply st_upd; [exact Hs|]. intros s1 H1 _. eapply xfer_done_ok; [exact H1|by destruct Hb; split|done|done|exact Hr]. Qed.

Variable fuel : nat.
Hypothesis Hfuel : Zlen cmds <= Z.of_nat fuel.

Lemma write_handler ev ta x s : md = I2C_MASTER_WRITE -> St x (sent (tx_len x)) s -> Running x -> wp (venus_i2c_msater_write fuel ev ta) s (fun _ s' => Step_ok s').
Proof.
  intros Em Hs [Hb Hm Hr Hc]. assert (E0 : rl = 0) by (destruct Hmd as [[_ ->]|[[E _]|E]]; [done|rewrite Em in E; done|rewrite Em in E; done]).
  assert (El : Zlen cmds = Zlen tx) by (rewrite cmds_len; lia). unfold venus_i2c_msater_write. apply wp_bind. eapply st_dev; [exact Hs|]. change (id (with_xfer d x)) with i.
  apply wp_bind. eapply wp_mono; [apply tx_thread_ok with (x := x); [| |exact Hs|exact Hb|pose proof (ba_tl _ Hb); lia]|].
  { intros y Hy. by rewrite (proj2 (ba_tx _ Hy)), El. }
  { intros y Hy Hlt. rewrite (proj1 (ba_tx _ Hy)). pose proof (ba_tl _ Hy). rewrite rd_ok by lia. unfold cmds. rewrite at_app_l by lia. done. }
  intros _ s1 (k & Hk & H1). set (x1 := txx k x) in *. pose proof (ba_tl _ Hb). assert (Hb1 : Base x1) by (apply base_txx; [done|lia]). apply wp_bind. eapply st_xfer; [exact H1|].
  apply wp_bind. eapply wp_mono; [by apply mask_if_ok|]. intros ? s2 H2. cbn beta in H2. apply wp_bind. destruct (has ev TX_ABRT_BIT); [by apply (abort_ok ta x1)|]. destruct (has ev STOP_DET_BIT).
  - apply (ret_ok _ x1); [done..|]. right. destruct (Z.leb_spec (tx_buff_len x1) (tx_len x1)) as [Hle|]; [|by right; left]. right; right; left. rewrite (proj2 (ba_tx _ Hb1)) in Hle. pose proof (ba_tl _ Hb1). lia.
  - apply wp_ret. apply (xfer_done_ok x1); try done. by left.
Qed.

Lemma read_result_ok TC ev ta x s : md <> I2C_MASTER_WRITE -> St x (sent (tx_len x)) s -> Running x -> wp (read_result TC i ev ta) s (fun _ s' => Step_ok s').
Proof.
  intros Em Hs [Hb Hm Hr Hc]. unfold read_result. apply wp_bind. eapply st_xfer; [exact Hs|].
  apply wp_bind. eapply wp_mono; [by apply mask_if_ok|]. intros ? s2 H2. cbn beta in H2. apply wp_bind. destruct (has ev TX_ABRT_BIT); [by apply (abort_ok ta x)|]. destruct (has ev STOP_DET_BIT || RxComplete x).
  - apply wp_bind. eapply wp_mono; [by apply mask_off_ok|]. intros ? s3 H3. cbn beta in H3. apply (ret_ok _ x); [done..|]. right. unfold RxComplete. destruct (Z.leb_spec (rx_buff_len x) (rx_len x)) as [Hle|]; [|by right; left].
    right; right; right. rewrite (proj2 (ba_rx _ Hb)) in Hle. pose proof (ba_rl _ Hb). split; [done|]. lia.
  - apply wp_ret. apply (xfer_done_ok x); try done. by left.
Qed.

(** The commands of a read, and the bytes that have arrived. *)
Lemma read_handler TC word ev ta x s : md <> I2C_MASTER_WRITE -> (forall x, Base x -> TC x = (Zlen cmds <=? tx_len x)) -> (forall x, Base x -> tx_len x < Zlen cmds -> word x = Ret cmds.[tx_len x]) ->
  St x (sent (tx_len x)) s -> Running x -> wp (tx_thread TC word fuel i;; rx_thread fuel i;; read_result TC i ev ta) s (fun _ s' => Step_ok s').
Proof.
  intros Em HTC Hw Hs Hx. pose proof Hx as [Hb Hm Hr Hc]. pose proof (ba_tl _ Hb) as P1. pose proof (ba_rl _ Hb) as P2. pose proof cmds_len as P3. pose proof (Zlen_nonneg tx) as P4.
  apply wp_bind. eapply wp_mono; [apply tx_thread_ok with (x := x); [done|done|exact Hs|exact Hb|lia]|].
  intros _ s1 (k & Hk & H1). set (x1 := txx k x) in *. assert (Hb1 : Base x1) by (apply base_txx; [done|lia]).
  apply wp_bind. eapply wp_mono; [apply (rx_thread_ok fuel x1 _ s1 H1 Hb1); cbn [x1 txx rx_len]; lia|].
  intros _ s2 (b & k2 & Hb2 & H2). apply (read_result_ok TC ev ta (rxx b k2 x1)); [done|exact H2|by split].
Qed.

Lemma cmd_word x : Base x -> tx_len x < Zlen cmds -> (if tx_len x <? tx_buff_len x then rd (tx_buff x) (tx_len x) else Ret READ_CMD) = Ret cmds.[tx_len x].
Proof.
  intros Hx Hlt. pose proof (ba_tl _ Hx). destruct (ba_tx _ Hx) as [E1 E2]. rewrite E1, E2. pose proof cmds_len. unfold cmds. destruct (Z.ltb_spec (tx_len x) (Zlen tx)).
  - rewrite rd_ok, at_app_l by lia. done.
  - rewrite at_app_r by lia. unfold at_. rewrite (nth_lookup_Some _ _ _ READ_CMD); [done|]. apply lookup_replicate_2. lia.
Qed.

Lemma isr_ok x s : St x (sent (tx_len x)) s -> Running x -> wp (venus_i2c_isr fuel) s (fun _ s' => Step_ok s').
Proof.
  intros Hs Hx. pose proof Hx as [Hb Hm Hr Hc]. unfold venus_i2c_isr. apply wp_bind. eapply st_dev; [exact Hs|]. change (id (with_xfer d x)) with i. change (xfer (with_xfer d x)) with x.
  apply wp_bind. eapply st_rd; [exact Hs|]. intros v s1 H1 _. destruct (Z.land v (I2C_INT i) =? 0); [apply wp_ret; exists x; split; [exact H1|by left]|].
  apply wp_bind. eapply st_rd; [exact H1|]. intros ev s2 H2 _. apply wp_bind. eapply st_rd; [exact H2|]. intros ta s3 H3 _. apply wp_bind. eapply st_rd; [exact H3|]. intros v3 s4 H4 _.
  apply wp_bind. apply (wp_mono _ _ (fun _ s' => Step_ok s')).
  - rewrite Hm. pose proof (cmds_len) as El. assert (Hword : forall x0, Base x0 -> tx_buff_len x0 = Zlen tx /\ rx_buff_len x0 = rl) by (intros x0 B0; split; [apply (ba_tx _ B0)|apply (ba_rx _ B0)]).
    destruct Hmd as [[E _]|[[E Et]|E]]; rewrite E; cbn [Z.eqb Pos.eqb I2C_MASTER_WRITE I2C_MASTER_READ I2C_MASTER_RANDOM_READ].
    + by apply (write_handler ev ta x).
    + unfold venus_i2c_msater_read. apply wp_bind. eapply st_dev; [exact H4|]. apply (read_handler _ _ ev ta x); [by rewrite E| | |done|done].
      * intros y Hy. destruct (Hword y Hy) as [_ ->]. rewrite El, Et. done.
      * intros y Hy Hlt. rewrite <- (cmd_word y Hy Hlt), (proj2 (ba_tx _ Hy)), Et. pose proof (ba_tl _ Hy). rewrite (proj2 (Z.ltb_ge (tx_len y) (Zlen []))) by (unfold Zlen; cbn; lia). done.
    + unfold venus_i2c_msater_random_read. apply wp_bind. eapply st_dev; [exact H4|]. apply (read_handler _ _ ev ta x); [by rewrite E| |by apply cmd_word|done|done].
      intros y Hy. destruct (Hword y Hy) as [-> ->]. by rewrite El, Z.add_comm.
  - intros _ s5 (y & H5 & Hy). apply wp_bind. eapply st_upd; [exact H5|]. intros s6 H6 O6. destruct data_regs as (_ & _ & _ & D3 & _ & N2 & N3).
    eapply st_wr; [exact H6|exact D3|]. intros s7 H7 R7. eexists. split; [exact H7|]. destruct Hy as [[B M R C]|[[B M R C] O]]; [left; split; try done; by destruct B; split|right]. split; [split; try done; by destruct B; split|].
    destruct (O6 O) as [O1 O2]. split; rewrite R7; [rewrite (proj2 (Z.eqb_neq _ _) N3)|rewrite (proj2 (Z.eqb_neq _ _) N2)]; done.
Qed.

(** *** The wait *)

(** The transfer has ended, or the time is up. *)
Definition Waited (s : i2c_st) : Prop := exists x, St x (sent (tx_len x)) s /\ Off s /\ Base x /\ (mode x = I2C_IDEL /\ outcome (xret x) x \/ mode x = md).

Lemma await_ok n : forall s, Step_ok s -> wp (await fuel n) s (fun _ s' => Waited s').
Proof.
  induction n as [|n IH]; intros s (x & Hs & Hx); cbn [await]; apply wp_bind; (eapply st_xfer; [exact Hs|]); destruct Hx as [Hx|[[B M R C] O]].
  2, 4: rewrite C; cbn [Z.ltb Z.compare]; eapply st_upd; [exact Hs|]; intros s1 H1 O1; eexists; split; [exact H1|]; split; [by apply O1|]; split; [by destruct B; split|by left].
  - destruct Hx as [B M R C]. rewrite C. cbn [Z.ltb Z.compare]. destruct data_regs as (_ & D1 & D2 & _ & N1 & _). destruct Hs as (S1 & S2 & S3).
    apply wp_bind. eexists tt, _. split; [reflexivity|]. set (s1 := look _). assert (H1 : St x (sent (tx_len x)) s1) by (split; [done|split; [done|apply u32_range]]).
    apply wp_bind. eapply st_upd; [exact H1|]. intros s2 H2 _. unfold venus_i2c_timer. apply wp_bind, wp_bind. eapply st_dev; [exact H2|]. match goal with |- context [id (with_xfer d ?y)] => change (id (with_xfer d y)) with i end.
    apply wp_bind. eapply st_wr; [exact H2|exact D1|]. intros s3 H3 R3. apply wp_bind. eapply st_wr; [exact H3|exact D2|]. intros s4 H4 R4.
    assert (HO : Off s4). { split; rewrite R4; [|by rewrite Z.eqb_refl]. rewrite (proj2 (Z.eqb_neq (IC_INTR_MASK i) (IC_ENABLE i))) by congruence. by rewrite R3, Z.eqb_refl. }
    eapply st_upd; [exact H4|]. intros s5 H5 O5. eapply st_upd; [exact H5|]. intros s6 H6 O6. eexists. split; [exact H6|]. split; [by apply O6, O5|]. split; [by destruct B; split|by right].
  - pose proof (ru_complete _ Hx) as ->. cbn [Z.ltb Z.compare]. destruct Hs as (S1 & S2 & S3). apply wp_bind. eexists tt, _. split; [reflexivity|]. set (s1 := look _).
    assert (H1 : St x (sent (tx_len x)) s1) by (split; [done|split; [done|apply u32_range]]). apply wp_bind. eapply wp_mono; [by apply (isr_ok x s1)|]. intros ? s2 H2. by apply IH.
Qed.

(** *** The start and the end *)

(** The receive FIFO runs empty when it is read. *)
Definition drains : Prop := forall t, exists k, (k <= fuel)%nat /\ u32 (reads (t + 2 * k)%nat (IC_RXFLR i)) = 0.
Hypothesis Hdrains : drains.

Lemma rd_volatile a s : volatile a = true -> (a < MIS_GP0DATI \/ MIS_GP0IE <= a) -> rd_reg a s = Ret (u32 (reads (now s) a), tick_now s).
Proof. intros Hv Ha. unfold rd_reg. rewrite Hv. destruct (Z.leb_spec MIS_GP0DATI a), (Z.ltb_spec a MIS_GP0IE); cbn [andb]; (done || lia). Qed.

Lemma fifo_regs : rd_reg (IC_RXFLR i) = (fun s => Ret (u32 (reads (now s) (IC_RXFLR i)), tick_now s)) /\ rd_reg (IC_DATA_CMD i) = (fun s => Ret (u32 (reads (now s) (IC_DATA_CMD i)), tick_now s)).
Proof. by destruct Hi as [-> | ->]. Qed.

Lemma st_tick x l s : St x l s -> St x l (tick_now s).
Proof. done. Qed.

Lemma drain_ok n : forall x l s, St x l s -> (exists k, (k <= n)%nat /\ u32 (reads (now s + 2 * k)%nat (IC_RXFLR i)) = 0) -> wp (drain n i) s (fun _ s' => St x l s').
Proof.
  destruct fifo_regs as [F1 F2]. induction n as [|n IH]; intros x l s Hs (k & Hk & E); cbn [drain]; apply wp_bind; rewrite F1; (eexists _, _; split; [reflexivity|]).
  - replace k with O in E by lia. rewrite Nat.add_0_r in E. rewrite E. by apply wp_ret.
  - destruct (Z.eqb_spec (u32 (reads (now s) (IC_RXFLR i))) 0) as [E0|E0]; [by apply wp_ret|]. rewrite F2. apply wp_bind. eexists _, _. split; [reflexivity|]. apply IH; [exact Hs|].
    destruct k as [|k]; [by rewrite Nat.add_0_r in E|]. exists k. split; [lia|]. cbn [tick_now now]. by replace (S (S (now s)) + 2 * k)%nat with (now s + 2 * S k)%nat by lia.
Qed.

Hypothesis Hmap : wired (gpio_map d).

(** What a transfer of the controller leaves. *)
Record Left (r : Z) (s : i2c_st) : Prop := {
  le_tx : exists k, 0 <= k <= Zlen cmds /\ fifo s = sent k /\ (0 <= r -> md = I2C_MASTER_WRITE -> k = Zlen cmds);
  le_ret : r = - ETXABORT \/ r = - ECMDSPLIT \/ r = - ETIMEOUT \/ r = (if md =? I2C_MASTER_WRITE then Zlen tx else rl);
  le_rx : Zlen (rx_buff (xfer (p_this s))) = rl;
  le_off : Off s;
  le_timer : timer (xfer (p_this s)) = false;
  le_jiffies : is_u32 (jiffies s);
  le_dev : id (p_this s) = id d /\ tick (p_this s) = tick d;
  le_map : wired (gpio_map (p_this s))
}.

Definition with_map (e : venus_i2c) (m : gpio_pins) : venus_i2c :=
  mkDev (id e) (spd e) (tick e) (sar e) (sar_mode e) (tar e) (tar_mode e) m (rx_fifo_depth e) (tx_fifo_depth e) (time_stamp e) (xfer e).

(** Only the pins of the bus may be others. *)
Definition remapped (s s' : i2c_st) : Prop :=
  (exists m, (m = gpio_map (p_this s) \/ wired m) /\ p_this s' = with_map (p_this s) m) /\ fifo s' = fifo s /\ jiffies s' = jiffies s /\ (forall a, reg s' a = reg s a).

Lemma remapped_same s s' : p_this s' = p_this s -> fifo s' = fifo s -> jiffies s' = jiffies s -> (forall a, reg s' a = reg s a) -> remapped s s'.
Proof. intros H1 H2 H3 H4. split; [|done]. exists (gpio_map (p_this s)). split; [by left|]. rewrite H1. by destruct (p_this s). Qed.

Lemma set_pins_remaps m s0 s : wired m -> p_this s = p_this s0 -> fifo s = fifo s0 -> jiffies s = jiffies s0 -> (forall a, reg s a = reg s0 a) ->
  wp (set_pins m;; mret 0) s (fun _ s' => remapped s0 s').
Proof. intros Hm H1 H2 H3 H4. apply wp_bind, wp_modify, wp_ret. split; [|done]. exists m. split; [by right|]. unfold set_dev. cbn [p_this]. by rewrite H1. Qed.

Ltac wired_tac := split; [unfold pin_ok; cbn; lia|unfold pin_ok; cbn; lia|done|done|done|done|done|split; vm_compute; [discriminate|reflexivity]].

Lemma probe_remaps s : wp venus_i2c_probe s (fun _ s' => remapped s s').
Proof.
  assert (Hrd : forall a s1 (f : Z -> Drv i2c_st Z), p_this s1 = p_this s -> fifo s1 = fifo s -> jiffies s1 = jiffies s -> (forall a, reg s1 a = reg s a) ->
    (forall v s2, p_this s2 = p_this s -> fifo s2 = fifo s -> jiffies s2 = jiffies s -> (forall a, reg s2 a = reg s a) -> wp (f v) s2 (fun _ s' => remapped s s')) -> wp (rd_reg a ≫= f) s1 (fun _ s' => remapped s s')).
  { intros a s1 f H1 H2 H3 H4 Hf. apply wp_bind, rd_any; intros v; by apply Hf. }
  unfold venus_i2c_probe, get_dev. apply wp_bind, wp_bind, wp_get, wp_ret.
  assert (Hret : forall r s1, p_this s1 = p_this s -> fifo s1 = fifo s -> jiffies s1 = jiffies s -> (forall a, reg s1 a = reg s a) -> wp (mret r : Drv i2c_st Z) s1 (fun _ s' => remapped s s')) by (intros; apply wp_ret; by apply remapped_same).
  destruct (2 <=? id (p_this s)); [by apply Hret|]. destruct is_jupiter_cpu.
  { destruct (id (p_this s) =? 0); apply set_pins_remaps; try done; wired_tac. }
  destruct (id (p_this s) =? 0); apply Hrd; try done; intros v1 s1 A1 A2 A3 A4; cbn zeta; repeat (match goal with |- wp (if ?b then _ else _) _ _ => destruct b end; try by apply Hret);
    apply Hrd; try done; intros v2 s2 B1 B2 B3 B4; match goal with |- wp (if ?b then _ else _) _ _ => destruct b end; try (by apply Hret); apply set_pins_remaps; try done; wired_tac.
Qed.

Lemma off_remap s s' : Off s -> remapped s s' -> Off s'.
Proof. intros [O1 O2] (_ & _ & _ & R). split; by rewrite R. Qed.

(** The result, the stamp of the time, and another look for the pins. *)
Definition finish_xfer : Drv i2c_st Z :=
  j ← get_jiffies;
  set_stamp j;;
  x ← get_xfer;
  let ret := xret x in
  (if ret =? - ECMDSPLIT then venus_i2c_probe;; mret tt else mret tt);;
  mret ret.

Lemma finish_ok x l s : St x l s -> Off s -> timer x = false -> Zlen (rx_buff x) = rl -> (exists k, 0 <= k <= Zlen cmds /\ l = sent k /\ (0 <= xret x -> md = I2C_MASTER_WRITE -> k = Zlen cmds)) ->
  (xret x = - ETXABORT \/ xret x = - ECMDSPLIT \/ xret x = - ETIMEOUT \/ xret x = (if md =? I2C_MASTER_WRITE then Zlen tx else rl)) ->
  wp finish_xfer s (fun r s' => Left r s').
Proof.
  intros (S1 & S2 & S3) HO Ht Hb Hk Hr. unfold finish_xfer, get_jiffies, get_xfer. apply wp_bind, wp_bind, wp_get, wp_ret, wp_bind, wp_modify. unfold set_dev. apply wp_bind, wp_bind, wp_get, wp_ret. cbn [p_this xfer]. rewrite S1. cbn [with_xfer xfer].
  set (s1 := mkI2c _ _ _ _ _ _). assert (HL : Left (xret x) s1) by (split; try done; cbn [s1 p_this fifo jiffies xfer id tick gpio_map]; rewrite S2; exact Hk).
  destruct (xret x =? - ECMDSPLIT); apply wp_bind; [|by apply wp_ret, wp_ret]. apply wp_bind. eapply wp_mono; [apply probe_remaps|]. intros r s2 HR. apply wp_ret, wp_ret. pose proof (off_remap s1 s2 HO HR) as HO2.
  destruct HR as ((m' & Hm' & R1) & R2 & R3 & R4). destruct HL as [L1 L2 L3 L4 L5 L6 L7 L8]. split; try (rewrite R1; done); try (by rewrite R2); try done; [by rewrite R3|]. rewrite R1. cbn [with_map gpio_map]. by destruct Hm' as [-> |].
Qed.

Lemma start_ok x s : St x l0 s -> Running x -> tx_len x = 0 -> wp (venus_i2c_start_xfer fuel) s (fun r s' => Left r s').
Proof.
  intros Hs Hx E0. assert (Hs0 : St x (sent (tx_len x)) s) by (rewrite E0; unfold sent; cbn; by rewrite app_nil_r). pose proof Hx as [Hb Hm _ _]. clear Hs.
  unfold venus_i2c_start_xfer. apply wp_bind. eapply st_dev; [exact Hs0|]. change (id (with_xfer d x)) with i. change (mode (xfer (with_xfer d x))) with (mode x). rewrite Hm.
  destruct data_regs as (_ & D1 & D2 & _ & N1 & _).
  apply wp_bind. apply (wp_mono _ _ (fun ok s' => ok = true /\ St x (sent (tx_len x)) s')).
  { destruct Hmd as [[E _]|[[E _]|E]]; rewrite E; cbn [Z.eqb Pos.eqb orb I2C_MASTER_WRITE I2C_MASTER_READ I2C_MASTER_RANDOM_READ].
    - apply wp_bind. eapply st_wr; [exact Hs0|exact D1|]. intros s1 H1 _. by apply wp_ret.
    - apply wp_bind. eapply st_rd; [exact Hs0|]. intros v s1 H1 _. apply wp_bind. apply (wp_mono _ _ (fun _ s' => St x (sent (tx_len x)) s')); [destruct (v =? 0); [by apply wp_ret|]; apply drain_ok; [done|apply Hdrains]|].
      intros _ s2 H2. apply wp_bind. eapply st_wr; [exact H2|exact D1|]. intros s3 H3 _. by apply wp_ret.
    - apply wp_bind. eapply st_rd; [exact Hs0|]. intros v s1 H1 _. apply wp_bind. apply (wp_mono _ _ (fun _ s' => St x (sent (tx_len x)) s')); [destruct (v =? 0); [by apply wp_ret|]; apply drain_ok; [done|apply Hdrains]|].
      intros _ s2 H2. apply wp_bind. eapply st_wr; [exact H2|exact D1|]. intros s3 H3 _. by apply wp_ret. }
  intros ok s1 [-> H1]. cbn [negb]. cbn iota. unfold get_jiffies at 1. apply wp_bind, wp_bind, wp_get, wp_ret.
  apply wp_bind. apply (wp_mono _ _ (fun _ s' => St x (sent (tx_len x)) s')).
  { destruct (jiffies s1 <=? _); [|by apply wp_ret]. eexists tt, _. split; [reflexivity|]. destruct H1 as (A1 & A2 & A3). split; [done|]. split; [done|]. apply u32_range. }
  intros _ s2 H2. apply wp_bind. eapply st_upd; [exact H2|]. intros s3 H3 _. apply wp_bind. eapply st_wr; [exact H3|exact D2|]. intros s4 H4 _. apply wp_bind, wp_get.
  apply wp_bind. eapply wp_mono; [apply await_ok; eexists; split; [exact H4|left; destruct Hx as [[B1 B2 B3 B4] R1 R2 R3]; split; [split|..]; done]|].
  intros _ s5 (y & H5 & O5 & By & Hy). apply wp_bind. eapply st_upd; [exact H5|]. intros s6 H6 O6. specialize (O6 O5). apply wp_bind. eapply st_xfer; [exact H6|]. cbn [mode].
  assert (Hnm : md <> I2C_IDEL) by (destruct Hmd as [[-> _]|[[-> _]| ->]]; done). destruct Hy as [[E Ho]|E]; rewrite E.
  - rewrite Z.eqb_refl. cbn [negb]. cbn iota. apply wp_bind, wp_ret. apply (finish_ok _ _ _ H6 O6); [done|apply (ba_rx _ By)| |].
    + exists (tx_len y). split; [apply (ba_tl _ By)|]. split; [done|]. cbn [xret]. intros Hr Ew. destruct Ho as [Er|[Er|[(_ & _ & Er)|(Hne & _)]]]; [rewrite Er in Hr; done|rewrite Er in Hr; done|done|done].
    + cbn [xret]. destruct Ho as [Er|[Er|[(Ew & Er & _)|(Hne & Er & _)]]]; [by left|by right; left| |]; right; right; right; [by rewrite Ew|]. by rewrite (proj2 (Z.eqb_neq _ _) Hne).
  - rewrite (proj2 (Z.eqb_neq _ _) Hnm). cbn [negb]. cbn iota. apply wp_bind, wp_bind. eapply st_upd; [exact H6|]. intros s7 H7 O7. specialize (O7 O6). pose proof H7 as (A1 & A2 & A3).
    eapply wp_mono; [apply (after_timeout_gives _ Hmap (p_this s7) ltac:(by rewrite A1) (fifo s7) (reg s7)); split; [done|]; split; done|].
    intros _ s8 [(B1 & B2 & B3 & B4) _]. assert (H8 : St (mkXfer (mode y) (flags y) (tx_buff y) (tx_buff_len y) (tx_len y) (rx_buff y) (rx_buff_len y) (rx_len y) (timeout y) (- ETIMEOUT) (tx_abort_source y) (complete y) false (gpio_wait_time y) (gpio_xfer_state y) (gpio_xfer_sub_state y)) (sent (tx_len y)) s8) by (split; [by rewrite B1, A1|by rewrite B3]).
    apply (finish_ok _ _ _ H8); [|done|apply (ba_rx _ By)| |].
    + destruct O7 as [O7a O7b]. split; rewrite B4; try done; by destruct Hi as [-> | ->].
    + exists (tx_len y). split; [apply (ba_tl _ By)|]. split; [done|]. done.
    + by right; right; left.
Qed.
End hw.
