(* ===== verification/I2cMessages.v ===== *)
(** * I2C adapter: transfers and messages, whatever the bus does *)
From stdpp Require Import base tactics list numbers option gmap.
From Stdlib Require Import ZArith Lia.
From S2P Require Import Prelude Driver I2c I2cPins I2cBits I2cG2c I2cEnds I2cHw I2cHwProofs.

Section messages.
Context {env : I2cEnv}.
Variables (B : Z) (fuel : nat).
Hypothesis HB : B < 1073741824.
Hypothesis Hslip : forall t, 0 <= slip t <= B.
Hypothesis Hfuel : last_turn <= Z.of_nat fuel.

(** The receive FIFOs run empty when they are read. *)
Definition fifos_drain : Prop := forall i t, i = 0 \/ i = 1 -> exists k, (k <= fuel)%nat /\ u32 (reads (t + 2 * k)%nat (IC_RXFLR i)) = 0.
Hypothesis Hdrain : fifos_drain.

(** No transfer is under way. *)
Record At_rest (s : i2c_st) : Prop := {
  ar_id : id (p_this s) = 0 \/ id (p_this s) = 1;
  ar_map : wired (gpio_map (p_this s));
  ar_tick : 4 <= tick (p_this s);
  ar_timer : timer (xfer (p_this s)) = false;
  ar_jiffies : is_u32 (jiffies s)
}.

Lemma rest_free s : At_rest s -> Free (gpio_map (p_this s)) s.
Proof. intros [H1 H2 H3 H4 H5]. by split. Qed.

Lemma load_message_ok (tx rx : list Z) rl : rx = [] /\ rl = 0 \/ rl = Zlen rx ->
  (if (Zlen rx =? 0) || (rl =? 0) then Ret rx else if rl <=? Zlen rx then Ret (replicate (Z.to_nat rl) 0 ++ drop (Z.to_nat rl) rx) else Fault) = Ret (replicate (length rx) 0).
Proof.
  intros H. assert (E : rl = Zlen rx) by (by destruct H as [[-> ->]|H]). rewrite E, orb_diag, Z.leb_refl. unfold Zlen. rewrite Nat2Z.id, drop_all, app_nil_r. by destruct rx.
Qed.

(** One attempt of the controller. *)
Lemma attempt_ok md fl tx rx s : At_rest s -> md = I2C_MASTER_WRITE /\ rx = [] \/ md = I2C_MASTER_READ /\ tx = [] \/ md = I2C_MASTER_RANDOM_READ -> Zlen tx + Zlen rx <= 65535 ->
  wp (venus_i2c_load_message md tx (Zlen tx) rx (Zlen rx) fl;; venus_i2c_start_xfer fuel) s (fun r s' => Left (p_this s) tx (Zlen rx) (fifo s) md r s').
Proof.
  intros [H1 H2 H3 H4 H5] Hmd Hlen. unfold venus_i2c_load_message, get_xfer. apply wp_bind, wp_bind, wp_bind, wp_get, wp_ret. rewrite H4.
  apply wp_bind. eapply wp_lift; [apply (load_message_ok tx); by right|]. apply wp_bind, wp_modify, wp_ret. unfold set_dev.
  pose proof (Zlen_nonneg tx). pose proof (Zlen_nonneg rx). set (x := mkXfer md _ _ _ _ _ _ _ _ _ _ _ _ _ _ _). set (s1 := mkI2c _ _ _ _ _ _).
  assert (Hrl : 0 <= Zlen rx) by done. assert (El : Zlen (cmds tx (Zlen rx)) = Zlen tx + Zlen rx) by (by apply cmds_len).
  assert (Hmd' : md = I2C_MASTER_WRITE /\ Zlen rx = 0 \/ md = I2C_MASTER_READ /\ tx = [] \/ md = I2C_MASTER_RANDOM_READ) by (destruct Hmd as [[? ->]|Hmd]; [by left|by right]).
  apply (start_ok (p_this s) H1 tx (Zlen rx) (fifo s) Hrl ltac:(lia) md Hmd' fuel ltac:(unfold last_turn in Hfuel; lia) ltac:(intros t; by apply Hdrain) H2 x s1); [by split| |done].
  split; try done. split; cbn [x tx_buff tx_buff_len rx_buff rx_buff_len tx_len rx_len]; [done| |lia|lia]. split; [unfold Zlen; by rewrite length_replicate|done].
Qed.

Lemma left_rest d tx rl l0 md r s : 4 <= tick d -> id d = 0 \/ id d = 1 -> Left d tx rl l0 md r s -> At_rest s.
Proof. intros Ht Hi [L1 L2 L3 L4 L5 L6 [L7 L8] L9]. split; try done; [by rewrite L7|by rewrite L8]. Qed.

(** *** Both attempts *)

(** What the controller has been sent in two attempts: no more than the message, in its order, each time. *)
Definition Sent (tx : list Z) (rl md : Z) (s : i2c_st) (r : Z) (s' : i2c_st) : Prop :=
  At_rest s' /\ id (p_this s') = id (p_this s) /\ Off (p_this s') s' /\ Zlen (rx_buff (xfer (p_this s'))) = rl /\
  (r = - ETXABORT \/ r = - ECMDSPLIT \/ r = - ETIMEOUT \/ r = (if md =? I2C_MASTER_WRITE then Zlen tx else rl)) /\
  exists k1 k2, fifo s' = fifo s ++ take k1 (cmds tx rl) ++ take k2 (cmds tx rl) /\ (0 <= r -> md = I2C_MASTER_WRITE -> take k2 (cmds tx rl) = tx).

Lemma off_id d d' s : id d = id d' -> Off d s -> Off d' s.
Proof. intros E. unfold Off. by rewrite E. Qed.

Lemma write_all tx k : k = Zlen (cmds tx 0) -> take (Z.to_nat k) (cmds tx 0) = tx.
Proof. intros ->. unfold cmds. cbn [Z.to_nat replicate]. rewrite app_nil_r. unfold Zlen. rewrite Nat2Z.id. by apply take_ge. Qed.

Lemma two_attempts md fl tx rx s : At_rest s -> md = I2C_MASTER_WRITE /\ rx = [] \/ md = I2C_MASTER_READ /\ tx = [] \/ md = I2C_MASTER_RANDOM_READ -> Zlen tx + Zlen rx <= 65535 ->
  wp (attempts 2 (venus_i2c_load_message md tx (Zlen tx) rx (Zlen rx) fl;; venus_i2c_start_xfer fuel) 0) s (fun r s' => Sent tx (Zlen rx) md s r s').
Proof.
  intros Hs Hmd Hl. cbn [attempts]. apply wp_bind. eapply wp_mono; [by apply (attempt_ok md fl tx rx s)|]. intros r s1 L. pose proof (left_rest _ _ _ _ _ _ _ (ar_tick _ Hs) (ar_id _ Hs) L) as Hs1.
  assert (Hw : forall k, (0 <= k) -> md = I2C_MASTER_WRITE -> k = Zlen (cmds tx (Zlen rx)) -> take (Z.to_nat k) (cmds tx (Zlen rx)) = tx).
  { intros k Hk Em ->. destruct Hmd as [[_ ->]|[[E _]|E]]; [by apply write_all|by rewrite Em in E..]. }
  destruct L as [(k1 & Hk1 & F1 & C1) R1 X1 O1 T1 J1 [I1 I1'] M1]. destruct (Z.eqb_spec r (- ETIMEOUT)) as [E|E].
  - apply wp_bind. eapply wp_mono; [by apply (attempt_ok md fl tx rx s1)|]. intros r2 s2 L2. pose proof (left_rest _ _ _ _ _ _ _ (ar_tick _ Hs1) (ar_id _ Hs1) L2) as Hs2.
    destruct L2 as [(k2 & Hk2 & F2 & C2) R2 X2 O2 T2 J2 [I2 I2'] M2]. assert (HS : Sent tx (Zlen rx) md s r2 s2).
    { split; [done|]. split; [congruence|]. split; [by apply (off_id (p_this s1))|]. split; [done|]. split; [done|]. exists (Z.to_nat k1), (Z.to_nat k2). split; [rewrite F2; unfold sent; rewrite F1; unfold sent; by rewrite <- app_assoc|].
      intros Hr Em. apply Hw; [lia|done|by apply C2]. }
    destruct (r2 =? - ETIMEOUT); by apply wp_ret.
  - apply wp_ret. split; [done|]. split; [done|]. split; [by apply (off_id (p_this s))|]. split; [done|]. split; [done|]. exists O, (Z.to_nat k1). split; [by rewrite F1|]. intros Hr Em. apply Hw; [lia|done|by apply C1].
Qed.

(** ** Messages *)

(** After a call: nothing is under way, and what was read has the size of its buffer. *)
Definition Served (n : Z) (s' : i2c_st) : Prop := At_rest s' /\ (Zlen (rx_buff (xfer (p_this s'))) = n \/ Zlen (rx_buff (xfer (p_this s'))) = 0).

Lemma free_rest s s' : At_rest s -> Free (gpio_map (p_this s)) s' -> (exists y, p_this s' = with_xfer (p_this s) y) -> At_rest s'.
Proof. intros [H1 H2 H3 H4 H5] [F1 F2 F3 F4] (y & E). split; try done; by rewrite E. Qed.

Lemma sent_served tx rl md s r s' : Sent tx rl md s r s' -> Served rl s'.
Proof. intros (H1 & _ & _ & H2 & _). split; [done|]. by left. Qed.

Lemma hw_read_served tx rx s : At_rest s -> Zlen tx + Zlen rx <= 65535 -> wp (venus_i2c_read fuel tx (Zlen tx) rx (Zlen rx)) s (fun _ s' => Served (Zlen rx) s').
Proof.
  intros Hs Hl. unfold venus_i2c_read. eapply wp_mono; [apply two_attempts; [done| |done]|intros r s'; apply sent_served].
  right. destruct (Z.eqb_spec (Zlen tx) 0) as [E|E]; [left; split; [done|]; by destruct tx|by right].
Qed.

Lemma hw_write_served tx s : At_rest s -> Zlen tx <= 65535 -> wp (venus_i2c_write fuel tx (Zlen tx) 1) s (fun _ s' => Served 0 s').
Proof.
  intros Hs Hl. unfold venus_i2c_write. eapply wp_mono; [apply (two_attempts I2C_MASTER_WRITE 0 tx [] s Hs); [by left|unfold Zlen in *; cbn; lia]|intros r s'; apply sent_served].
Qed.

Lemma g2c_attempt_served md fl tx s : At_rest s -> md = I2C_MASTER_WRITE -> tx <> [] -> Zlen tx <= 65535 ->
  wp (venus_i2c_load_message md tx (Zlen tx) [] 0 fl;; venus_g2c_start_xfer fuel) s (fun _ s' => Served 0 s').
Proof.
  intros Hs -> Hne Hl. eapply wp_mono; [apply (transfer_ends B (gpio_map (p_this s)) (ar_map _ Hs) HB Hslip I2C_MASTER_WRITE fl tx [] 0 s fuel (rest_free s Hs)); [left; split; [done|]; split; [|done]; destruct tx; [done|rewrite Zlen_cons; pose proof (Zlen_nonneg tx); lia]|done|by vm_compute|done]|].
  intros r s' (H1 & H2 & H3 & H4 & H5 & H6). split; [by apply (free_rest s)|]. left. apply H6.
Qed.

Lemma nonstop_served tx s : At_rest s -> tx <> [] -> Zlen tx <= 65535 -> wp (venus_i2c_write fuel tx (Zlen tx) 0) s (fun _ s' => Served 0 s').
Proof.
  intros Hs Hne Hl. unfold venus_i2c_write. cbn [attempts Z.eqb negb]. apply wp_bind. eapply wp_mono; [by apply g2c_attempt_served|]. intros r s1 [H1 H1']. destruct (r =? - ETIMEOUT); [|by apply wp_ret].
  apply wp_bind. eapply wp_mono; [by apply g2c_attempt_served|]. intros r2 s2 H2. destruct (r2 =? - ETIMEOUT); by apply wp_ret.
Qed.

Lemma g2c_write_served tx ws s : At_rest s -> tx <> [] -> Zlen tx <= 65535 -> wp (venus_g2c_write fuel tx (Zlen tx) ws) s (fun _ s' => Served 0 s').
Proof. intros Hs Hne Hl. unfold venus_g2c_write. by apply g2c_attempt_served. Qed.

Lemma g2c_read_served tx rx s : At_rest s -> rx <> [] -> Zlen tx <= 65535 -> Zlen rx <= 65535 -> wp (venus_g2c_read fuel tx (Zlen tx) rx (Zlen rx)) s (fun _ s' => Served (Zlen rx) s').
Proof.
  intros Hs Hne Ht Hr. eapply wp_mono; [apply (read_ends B (gpio_map (p_this s)) (ar_map _ Hs) HB Hslip tx rx s fuel (rest_free s Hs)); done|].
  intros r s' (H1 & H2 & H3 & H4 & H5 & H6). split; [by apply (free_rest s)|]. destruct H6 as [H6|[_ H6]]; [left|right]; apply H6.
Qed.

Lemma set_tar_rest a md s : At_rest s -> wp (venus_i2c_set_tar a md) s (fun _ s' => At_rest s').
Proof.
  intros [H1 H2 H3 H4 H5]. unfold venus_i2c_set_tar, get_dev. apply wp_bind, wp_bind, wp_get, wp_ret.
  assert (Hstore : forall s1, p_this s1 = p_this s -> jiffies s1 = jiffies s -> wp (modify (set_dev (fun d => mkDev (id d) (spd d) (tick d) (sar d) (sar_mode d) a md (gpio_map d) (rx_fifo_depth d) (tx_fifo_depth d) (time_stamp d) (xfer d)));; mret 0) s1 (fun _ s' => At_rest s')).
  { intros s1 E1 E2. apply wp_bind, wp_modify, wp_ret. unfold set_dev. split; cbn [p_this id gpio_map tick xfer jiffies]; rewrite ?E1, ?E2; done. }
  assert (Hwrite : forall a1 v1 a2 a3 (f : Z -> Z), wp (wr_reg a1 v1;; (c ← rd_reg a2; (wr_reg a3 (f c);; (modify (set_dev (fun d => mkDev (id d) (spd d) (tick d) (sar d) (sar_mode d) a md (gpio_map d) (rx_fifo_depth d) (tx_fifo_depth d) (time_stamp d) (xfer d)));; mret 0)))) s (fun _ s' => At_rest s')).
  { intros a1 v1 a2 a3 f. apply wp_bind, wr_any. intros s1 E1 E2 _ _. apply wp_bind, rd_any; intros v; apply wp_bind, wr_any; intros s2 E3 E4 _ _; apply Hstore; cbn in E3, E4; congruence. }
  destruct (md =? ADDR_MODE_10BITS).
  - destruct (0x3ff <? a); [apply wp_ret; by split|]. apply (Hwrite _ _ _ _ (fun c => Z.lor (Z.land c (Z.lnot IC_10BITADDR_MASTER)) IC_10BITADDR_MASTER)).
  - destruct (0x7f <? a); [apply wp_ret; by split|]. apply (Hwrite _ _ _ _ (fun c => Z.land c (Z.lnot IC_10BITADDR_MASTER))).
Qed.

(** A message with a buffer; two of them have less than 64 KB. *)
Definition msg_ok (x : i2c_msg) : Prop := len x = Zlen (buf x) /\ 0 < len x <= 32767.

(** Only the bytes of a message that is read may be others. *)
Definition same_msg (x x' : i2c_msg) : Prop := addr x' = addr x /\ mflags x' = mflags x /\ len x' = len x /\ Zlen (buf x') = Zlen (buf x) /\ (IsReadMsg x = false -> x' = x).

Lemma same_msg_refl x : same_msg x x.
Proof. done. Qed.

Lemma got_ok y s : Served (len y) s -> len y = Zlen (buf y) -> IsReadMsg y = true -> wp (got y) s (fun y' s' => same_msg y y' /\ At_rest s').
Proof.
  intros [Hs Hb] El Er. unfold got, get_xfer. apply wp_bind, wp_bind, wp_get, wp_ret, wp_ret. split; [|done]. split; [done|]. split; [done|]. split; [done|]. split; [|by rewrite Er]. cbn [buf].
  destruct (Z.eqb_spec (Zlen (rx_buff (xfer (p_this s)))) 0); [done|]. destruct Hb; congruence.
Qed.

Lemma buf_some x : msg_ok x -> buf x <> [].
Proof. intros [E H] Hn. rewrite Hn in E. unfold Zlen in E; cbn in E; lia. Qed.

Definition Answered (msgs : list i2c_msg) (o : Z * list i2c_msg) (s' : i2c_st) : Prop := At_rest s' /\ Forall2 same_msg msgs o.2 /\ (o.1 = Zlen msgs \/ o.1 = - EACCES).

Lemma same_all l : Forall2 same_msg l l.
Proof. induction l; by constructor. Qed.

Lemma answered_fail l l' dn s : At_rest s -> Forall2 same_msg l dn -> forall l2, Forall2 same_msg l' l2 -> Answered (l ++ l') (- EACCES, dn ++ l2) s.
Proof. intros Hs H1 l2 H2. split; [done|]. split; [by apply Forall2_app|by right]. Qed.

Lemma xfer_loop_ok n : forall todo l dn s, (length todo <= n)%nat -> Forall msg_ok todo -> Forall2 same_msg l dn -> At_rest s ->
  wp (xfer_loop fuel todo dn) s (fun o s' => Answered (l ++ todo) o s').
Proof.
  induction n as [|n IH]; intros todo l dn s Hn Hok Hdn Hs; (destruct todo as [|x rest]; [apply wp_ret; rewrite app_nil_r; split; [done|]; split; [done|left; unfold Zlen; cbn; f_equal; symmetry; by apply Forall2_length in Hdn]|]); [cbn in Hn; lia|].
  apply list.Forall_cons_1 in Hok as [Hx Hok]. pose proof Hx as [Ex Lx]. cbn [xfer_loop]. apply wp_bind. eapply wp_mono; [by apply set_tar_rest|]. intros r0 s1 Hs1.
  assert (Hfail : forall s', At_rest s' -> Answered (l ++ x :: rest) (- EACCES, dn ++ x :: rest) s') by (intros s' Hs'; apply answered_fail; [done|done|apply same_all]).
  destruct (r0 <? 0); [apply wp_ret; by apply Hfail|]. destruct (IsReadMsg x) eqn:Er.
  - apply wp_bind. apply (wp_mono _ _ (fun _ s' => Served (len x) s')).
    { destruct (IsGPIORW x); rewrite Ex; [apply (g2c_read_served [] (buf x))|apply (hw_read_served [] (buf x))]; try done; try (by apply buf_some); change (Zlen (@nil Z)) with 0; lia. }
    intros r s2 H2. apply wp_bind. eapply wp_mono; [by apply got_ok|]. intros x' s3 [Hx' H3]. destruct (r <? 0).
    + apply wp_ret, answered_fail; [done|done|]. constructor; [done|apply same_all].
    + replace (l ++ x :: rest) with ((l ++ [x]) ++ rest) by (by rewrite <- app_assoc). apply IH; [cbn in Hn; lia|done|apply Forall2_app; [done|constructor; [done|constructor]]|done].
  - assert (Hone : forall m, wp m s1 (fun _ s' => At_rest s') -> wp (ret ← m; if ret <? 0 then mret (- EACCES, dn ++ x :: rest) else xfer_loop fuel rest (dn ++ [x])) s1 (fun o s' => Answered (l ++ x :: rest) o s')).
    { intros m' Hm'. apply wp_bind. apply (wp_mono _ _ _ _ Hm'). intros r s2 H2. destruct (r <? 0); [apply wp_ret; by apply Hfail|].
      replace (l ++ x :: rest) with ((l ++ [x]) ++ rest) by (by rewrite <- app_assoc). apply IH; [cbn in Hn; lia|done|apply Forall2_app; [done|constructor; [apply same_msg_refl|constructor]]|done]. }
    destruct rest as [|y rest'].
    + apply Hone. rewrite Ex. destruct (IsGPIORW x); (eapply wp_mono; [first [apply g2c_write_served|apply hw_write_served]; [done|try (by apply buf_some); lia..]|by intros ? ? [? _]]).
    + destruct (IsReadMsg y && IsSameTarget x y) eqn:Ey.
      * apply andb_true_iff in Ey as [Ey _]. apply list.Forall_cons_1 in Hok as [Hy Hok]. pose proof Hy as [Ely Ly]. apply wp_bind. apply (wp_mono _ _ (fun _ s' => Served (len y) s')).
        { rewrite Ely, Ex. destruct (IsGPIORW x); [apply g2c_read_served|apply hw_read_served]; try done; try (by apply buf_some); lia. }
        intros r s2 H2. apply wp_bind. eapply wp_mono; [by apply got_ok|]. intros y' s3 [Hy' H3]. destruct (r <? 0).
        -- apply wp_ret, answered_fail; [done|done|]. constructor; [apply same_msg_refl|]. constructor; [done|apply same_all].
        -- replace (l ++ x :: y :: rest') with ((l ++ [x; y]) ++ rest') by (by rewrite <- app_assoc). apply IH; [cbn in Hn; lia|done|apply Forall2_app; [done|constructor; [apply same_msg_refl|constructor; [done|constructor]]]|done].
      * apply Hone. rewrite Ex. destruct (IsGPIORW x); (eapply wp_mono; [first [apply g2c_write_served|apply nonstop_served]; [done|by apply buf_some|lia]|by intros ? ? [? _]]).
Qed.
End messages.
