(* ===== verification/I2cTheorems.v ===== *)
(** * I2C adapter: theorems *)
From stdpp Require Import base tactics list numbers option gmap.
From Stdlib Require Import ZArith Lia.
From S2P Require Import Prelude Driver I2c I2cPins I2cBus I2cBits I2cG2c I2cBytes I2cTransfer I2cEnds I2cHw I2cHwProofs I2cMessages.

Section theorems.
Context {dv : Device} (rds : nat -> Z -> Z).
#[local] Hint Extern 0 I2cEnv => exact (bus_env rds) : typeclass_instances.

(** C21: a write that the driver makes by moving the lines of the bus is, for a device on the bus, the write of the specification: the device sees a start,
    its address, the bytes until it refuses one, and a stop unless it is left out; for another address it sees a start and a stop.  The driver returns 0
    only if every byte has been taken.  The device may hold the clock.  Afterwards the bus is idle and the pins are the controller's again. *)
Theorem g2c_write_delivers t (s : i2c_st) tx wait_stop h fuel : Ready t s -> in_time h (length tx) (p_this s) -> (xfer_turns h (length tx) <= fuel)%nat ->
  0 <= tar (p_this s) < 128 -> tx <> [] -> Forall is_byte tx -> Zlen tx <= 65535 ->
  wp (venus_g2c_write fuel tx (Zlen tx) wait_stop) s (fun r s' => exists t', Follows rds s t' s' /\
    spec_write (tar (p_this s)) tx (negb (wait_stop =? 0)) (log t) = (log t', r) /\ src t' = src t).
Proof. apply write_wp. Qed.

(** C22: a read returns the bytes that the device sends, acknowledges all of them but the last, and stops; a random read first writes, without a stop, and
    does not read if that fails. *)
Theorem g2c_read_receives t (s : i2c_st) tx rx h fuel : Ready t s -> in_time h (length tx) (p_this s) -> in_time h (length rx) (p_this s) ->
  (xfer_turns h (length tx) <= fuel)%nat -> (xfer_turns h (length rx) <= fuel)%nat ->
  0 <= tar (p_this s) < 128 -> rx <> [] -> Forall is_byte tx -> Forall is_byte (src t) -> Zlen tx <= 65535 -> Zlen rx <= 65535 ->
  wp (venus_g2c_read fuel tx (Zlen tx) rx (Zlen rx)) s (fun r s' => exists t' bs, Follows rds s t' s' /\
    spec_random_read (tar (p_this s)) tx (length rx) t = (log t', bs, r) /\ (forall b, bs = Some b -> rx_buff (xfer (p_this s')) = b)).
Proof.
  intros Hr Ht1 Ht2 Hf1 Hf2 Ha Hne HF HS Hl1 Hl2.
  destruct tx as [|b0 tx0].
  - refine (wp_mono _ _ _ _ (read_wp rds t s rx h fuel Hr Ht2 Hf2 Ha Hne HS Hl2) _). intros r s' (t' & H1 & H2 & _).
    exists t', (Some (rx_buff (xfer (p_this s')))). split; [done|]. split; [|by intros b [= <-]].
    unfold spec_random_read. cbn [Z.ltb Z.compare]. unfold spec_read in *. cbn [log src]. destruct (tar (p_this s) =? address); by injection H2 as <- <- <-.
  - set (tx := b0 :: tx0) in *. unfold venus_g2c_read. rewrite (proj2 (Z.eqb_neq (Zlen tx) 0)) by (unfold tx; rewrite Zlen_cons; pose proof (Zlen_nonneg tx0); lia). cbn [negb andb].
    apply wp_bind. refine (wp_mono _ _ _ _ (write_wp rds t s tx 0 h fuel Hr Ht1 Hf1 Ha ltac:(done) HF Hl1) _). cbn [Z.eqb negb]. intros r s1 (t1 & [R1 (y & E1)] & W1 & W2).
    assert (Es : forall P, (if r <? 0 then P (log t1, None, r) else P (let '(l', bs, r') := spec_read (tar (p_this s)) (length rx) (mkT Idle 0 0 (src t) (log t1)) in (l', Some bs, r'))) -> P (spec_random_read (tar (p_this s)) tx (length rx) t)).
    { intros P HP. unfold spec_random_read. unfold tx at 1. rewrite W1. by destruct (r <? 0). }
    destruct (Z.ltb_spec r 0).
    + apply wp_ret. exists t1, None. split; [split; [done|by exists y]|]. split; [|done]. apply (Es (fun o => o = _)). done.
    + rewrite <- W2 in HS. assert (Ed : tar (p_this s1) = tar (p_this s) /\ tick (p_this s1) = tick (p_this s)) by (by rewrite E1). destruct Ed as [Ea Et].
      assert (Ht3 : in_time h (length rx) (p_this s1)) by (unfold in_time in *; by rewrite Et). rewrite <- Ea in Ha.
      refine (wp_mono _ _ _ _ (read_wp rds t1 s1 rx h fuel R1 Ht3 Hf2 Ha Hne HS Hl2) _). intros r' s2 (t2 & [R2 (y2 & E2)] & H2 & _).
      exists t2, (Some (rx_buff (xfer (p_this s2)))). split; [split; [done|exists y2; by rewrite E2, E1]|]. split; [|by intros b [= <-]].
      apply (Es (fun o => o = _)). rewrite Ea in H2. unfold spec_read in *. cbn [log src]. rewrite <- W2. destruct (tar (p_this s) =? address); by injection H2 as <- <- <-.
Qed.
End theorems.

(** C23: whatever the other devices do (hold a line for ever, refuse, answer anything), and however long the delays take, a read or random read into a buffer that is not empty ends within 603,000 turns
    of the loop; it never reads or writes outside the two buffers; it returns 0, "aborted" or "timed out"; and afterwards the adapter pulls no line, the
    pins are the controller's and another transfer may begin. *)
Theorem g2c_always_ends {env : I2cEnv} B m tx rx s fuel : wired m -> B < 1073741824 -> (forall t, 0 <= slip t <= B) -> Free m s -> rx <> [] -> Zlen tx <= 65535 -> Zlen rx <= 65535 -> last_turn <= Z.of_nat fuel ->
  wp (venus_g2c_read fuel tx (Zlen tx) rx (Zlen rx)) s (fun r s' => result_ok r /\ Free m s' /\ Given m s' /\ mode (xfer (p_this s')) = I2C_IDEL /\ (exists y, p_this s' = with_xfer (p_this s) y) /\
    (Sound [] (Zlen rx) (xfer (p_this s')) \/ r < 0 /\ Sound tx 0 (xfer (p_this s')))).
Proof. intros Hm HB Hs. by apply (read_ends B m Hm HB Hs). Qed.

(** C25: the controller is sent the bytes of a write in their order, in each of at most two attempts, and a success means that all of them have been sent in the
    last one; whatever its registers say, the driver returns, with the controller disabled, its interrupts masked, the timer off and the pins given back.
    Interrupts come while the transfer waits for its end. *)
Theorem controller_write_sent {env : I2cEnv} fuel tx wait_stop s : last_turn <= Z.of_nat fuel -> fifos_drain fuel -> At_rest s -> Zlen tx <= 65535 -> wait_stop <> 0 ->
  wp (venus_i2c_write fuel tx (Zlen tx) wait_stop) s (fun r s' => At_rest s' /\ Off (p_this s') s' /\
    (r = Zlen tx \/ r = - ETXABORT \/ r = - ECMDSPLIT \/ r = - ETIMEOUT) /\
    exists k1 k2, fifo s' = fifo s ++ take k1 tx ++ take k2 tx /\ (0 <= r -> take k2 tx = tx)).
Proof.
  intros Hf Hd Hs Hl Hw. unfold venus_i2c_write. rewrite (proj2 (Z.eqb_neq _ _) Hw). cbn [negb].
  eapply wp_mono; [apply (two_attempts fuel Hf Hd I2C_MASTER_WRITE 0 tx [] s Hs); [by left|unfold Zlen in *; cbn; lia]|].
  intros r s' (H1 & _ & H2 & _ & H3 & k1 & k2 & H4 & H5). assert (E : cmds tx (Zlen (@nil Z)) = tx) by apply app_nil_r. rewrite E in H4, H5.
  split; [done|]. split; [done|]. split; [destruct H3 as [?|[?|[?|?]]]; auto|]. exists k1, k2. split; [done|]. intros Hr. by apply H5.
Qed.

(** C24: a list of messages of 1 to 32,767 bytes each ([msg_ok]), sent through the controller or on the lines, is answered: the result is the number of
    messages, or "access denied" if one of them has failed; nothing but the buffers of the messages that are read is written, and these within their size; and
    the adapter is at rest again.  This holds whatever the devices on the bus do and whatever the registers of the controller answer, as long as its receive
    FIFO, when it is drained, reads as empty within [fuel] turns ([fifos_drain]); interrupts come while a transfer waits for its end.  Not covered are messages
    without a byte, which fault on the lines ([g2c_empty_write], [g2c_empty_read]), and interrupts between two transfers ([stray_interrupt]). *)
Theorem i2c_xfer_answers {env : I2cEnv} B fuel msgs s : B < 1073741824 -> (forall t, 0 <= slip t <= B) -> last_turn <= Z.of_nat fuel -> fifos_drain fuel -> Forall msg_ok msgs -> At_rest s ->
  wp (i2c_venus_xfer fuel msgs) s (fun o s' => At_rest s' /\ Forall2 same_msg msgs o.2 /\ (o.1 = Zlen msgs \/ o.1 = - EACCES)).
Proof.
  intros HB Hsl Hf Hd Hok Hs. apply (xfer_loop_ok B fuel HB Hsl Hf Hd (length msgs) msgs [] []); [done|done|constructor|done].
Qed.

(** ** An example *)

(** A memory that takes at most three bytes. *)
#[local] Instance memory : Device := {|
  address := 0x50;
  accepts := fun l => (length l <=? 5)%nat;
  stretch := fun _ => 1%nat
|}.

Ltac bytes := repeat (apply list.Forall_cons_2; [unfold is_byte; lia|]); apply list.Forall_nil_2.

Definition no_reads (t : nat) (a : Z) : Z := 0.
#[local] Hint Extern 0 I2cEnv => exact (bus_env no_reads) : typeclass_instances.

Definition pins_4_5 : gpio_pins := mkPins 4 5 MUX_PAD3 I2C0_MASK I2C0_GP4_GP5 I2C0_SDA_SCL.

Definition no_transfer : venus_i2c_xfer := mkXfer 0 0 [] 0 0 [] 0 0 0 0 0 0 false 0 0 0.

Definition demo_bus (q : list Z) : i2c_st := mkI2c ∅ (mkDev 0 100 10 0x24 7 0x50 7 pins_4_5 8 8 0 no_transfer) (quiet_wire (mkT Idle 0 0 q [])) 4294967200 0 [].

Lemma pins_wired : wired pins_4_5.
Proof. split; try (unfold pin_ok; cbn; lia); done. Qed.

Lemma demo_ready q : Ready (mkT Idle 0 0 q []) (demo_bus q).
Proof. split; [apply pins_wired|done..]. Qed.

Lemma demo_in_time q n : (n <= 100)%nat -> in_time 1 n (p_this (demo_bus q)).
Proof. intros Hn. split; [cbn; lia|]. split; [intros t; cbn; lia|]. unfold early, xfer_turns, bits, HZ. cbn [demo_bus p_this tick]. change (Z.shiftr 10 2) with 2. lia. Qed.

Lemma g2c_write_delivers_witness : wp (venus_g2c_write 200 [0x12; 0x34] 2 1) (demo_bus []) (fun r s' =>
  r = 0 /\ log (w_t (bus s')) = [EStart; EHello false; EGot 0x12; EGot 0x34; EStop] /\ gpio_selected s' = false).
Proof.
  eapply wp_mono; [apply (g2c_write_delivers no_reads (mkT Idle 0 0 [] []) (demo_bus []) [0x12; 0x34] 1 1 200 (demo_ready [])); [apply demo_in_time; cbn; lia|cbn; lia|cbn; lia|done|bytes|by vm_compute]|].
  intros r s' (t' & [[_ Hsel Hb _ _] _] & H & _). change (([EStart; EHello false; EGot 0x12; EGot 0x34; EStop], 0) = (log t', r)) in H. injection H as H1 H2. rewrite Hb. cbn [quiet_wire w_t]. by rewrite <- H1, <- H2.
Defined.

Lemma g2c_read_receives_witness : wp (venus_g2c_read 200 [0x07] 1 [9; 9; 9] 3) (demo_bus [0xaa; 0x55]) (fun r s' =>
  r = 0 /\ rx_buff (xfer (p_this s')) = [0xaa; 0x55; 0xff] /\
  log (w_t (bus s')) = [EStart; EHello false; EGot 7; EStart; EHello true; ESent 0xaa; ESent 0x55; ESent 0xff; EStop]).
Proof.
  eapply wp_mono; [apply (g2c_read_receives no_reads (mkT Idle 0 0 [0xaa; 0x55] []) (demo_bus [0xaa; 0x55]) [0x07] [9; 9; 9] 1 200 (demo_ready _));
    [apply demo_in_time; cbn; lia|apply demo_in_time; cbn; lia|cbn; lia|cbn; lia|cbn; lia|done|bytes|bytes|by vm_compute|by vm_compute]|].
  intros r s' (t' & bs & [[_ _ Hb _ _] _] & H & Hbs). change (([EStart; EHello false; EGot 7; EStart; EHello true; ESent 0xaa; ESent 0x55; ESent 0xff; EStop], Some [0xaa; 0x55; 0xff], 0) = (log t', bs, r)) in H. injection H as H1 H2 H3. rewrite Hb. cbn [quiet_wire w_t]. rewrite <- H1, <- H3. by rewrite (Hbs _ (eq_sym H2)).
Defined.

(** Another device holds the clock low for ever. *)
Definition stuck_env : I2cEnv := {|
  other := unit;
  other_scl := fun _ => false;
  other_sda := fun _ => true;
  other_moves := fun _ _ _ => tt;
  reads := no_reads;
  slip := fun _ => 1;
  arrivals := fun _ => O;
  is_jupiter_cpu := false;
  irq_free := true
|}.

Lemma g2c_always_ends_witness : let s : @i2c_st stuck_env := @mkI2c stuck_env ∅ (mkDev 0 100 10 0x24 7 0x50 7 pins_4_5 8 8 0 no_transfer) tt 4294967200 0 [] in
  wp (@venus_g2c_read stuck_env (Z.to_nat last_turn) [0x07] 1 [9] 1) s (fun r s' => result_ok r /\ Given pins_4_5 s').
Proof.
  intros s. eapply wp_mono; [apply (@g2c_always_ends stuck_env 1 pins_4_5 [0x07] [9] s (Z.to_nat last_turn) pins_wired); [lia|cbn; lia|split; [done|cbn; lia|done|done]|done|by vm_compute|by vm_compute|rewrite Z2Nat.id; unfold last_turn; lia]|].
  intros r s' (H1 & _ & H3 & _). done.
Defined.

Lemma stuck_drains n : @fifos_drain stuck_env n.
Proof. intros i t _. exists O. split; [lia|done]. Qed.

Definition stuck_bus : @i2c_st stuck_env := @mkI2c stuck_env ∅ (mkDev 0 100 10 0x24 7 0x50 7 pins_4_5 8 8 0 no_transfer) tt 4294967200 0 [].

Lemma stuck_rest : @At_rest stuck_env stuck_bus.
Proof. split; [by left|apply pins_wired|cbn; lia|done|done]. Qed.

Lemma controller_write_sent_witness : wp (@venus_i2c_write stuck_env (Z.to_nat last_turn) [1; 2] 2 1) stuck_bus (fun r s' => r = 2 \/ r < 0).
Proof.
  eapply wp_mono; [apply (@controller_write_sent stuck_env (Z.to_nat last_turn) [1; 2] 1 stuck_bus); [rewrite Z2Nat.id; unfold last_turn; lia|apply stuck_drains|apply stuck_rest|by vm_compute|done]|].
  intros r s' (_ & _ & H & _). unfold ETXABORT, ECMDSPLIT, ETIMEOUT, Zlen in H. cbn in H. lia.
Defined.

Lemma i2c_xfer_answers_witness : wp (@i2c_venus_xfer stuck_env (Z.to_nat last_turn) [mkMsg 0x50 0x80 1 [7]; mkMsg 0x50 0x81 2 [0; 0]; mkMsg 0x31 0 1 [5]]) stuck_bus (fun o s' => o.1 = 3 \/ o.1 = - EACCES).
Proof.
  eapply wp_mono; [apply (@i2c_xfer_answers stuck_env 1 (Z.to_nat last_turn)); [lia|cbn; lia|rewrite Z2Nat.id; unfold last_turn; lia|apply stuck_drains| |apply stuck_rest]|].
  - repeat (apply list.Forall_cons_2; [split; [done|cbn; lia]|]). apply list.Forall_nil_2.
  - intros o s' (_ & _ & H). exact H.
Defined.

(** ** Defects *)

(** The message without a byte: its first byte is read, and sent; the byte that is received goes before the end of the buffer. *)
Lemma g2c_empty_write : venus_g2c_write 200 [] 0 1 (demo_bus []) = Fault.
Proof. by vm_compute. Qed.

Lemma g2c_empty_read : venus_g2c_read 200 [] 0 [] 0 (demo_bus [0x55]) = Fault.
Proof. by vm_compute. Qed.

(** A new address of its own leaves the old one in the register. *)
Lemma set_sar_keeps_old : wp (venus_i2c_set_sar 0x31 7) (demo_bus []) (fun r s' => r = 0 /\ sar (p_this s') = 0x31 /\ reg s' (IC_SAR 0) = 0x24).
Proof. eexists _, _. split; [by vm_compute|]. by vm_compute. Qed.

(** An interrupt between two transfers starts the timer, and the next message is put over it. *)
Definition ringing (t : nat) (a : Z) : Z := if a =? MIS_ISR then 16 else 0.

Lemma stray_interrupt : let s := @mkI2c (bus_env ringing) ∅ (mkDev 0 100 10 0x24 7 0x50 7 pins_4_5 8 8 0 no_transfer) (quiet_wire (mkT Idle 0 0 [] [])) 4294967200 0 [] in
  (@venus_i2c_isr (bus_env ringing) 10;; @venus_i2c_write (bus_env ringing) 10 [1] 1 1) s = Fault.
Proof. by vm_compute. Qed.

(** The second bus on the pins of the serial port: its place is compared with a bit that the mask does not have. *)
Lemma probe_never_on_serial {env : I2cEnv} s : is_jupiter_cpu = false -> id (p_this s) = 1 -> Z.land (reg s MUX_PAD0) I2C1_LOC_MASK <> I2C1_LOC_MUX_PCI -> venus_i2c_probe s = Ret (- ENODEV, s).
Proof.
  intros Hc Hi Hl. unfold venus_i2c_probe, get_dev, mbind, Drv_bind, get. cbn [mret Drv_ret]. rewrite Hi, Hc. cbn [Z.leb Z.compare Pos.compare Pos.compare_cont Z.eqb].
  unfold rd_reg. change ((MIS_GP0DATI <=? MUX_PAD0) && (MUX_PAD0 <? MIS_GP0IE)) with false. change (volatile MUX_PAD0) with false. cbn iota. rewrite (proj2 (Z.eqb_neq _ _) Hl).
  assert (E : (Z.land (reg s MUX_PAD0) I2C1_LOC_MASK =? I2C1_LOC_MUX_UR0) = false); [|by rewrite E].
  apply Z.eqb_neq. intros H. apply (f_equal (fun v => Z.testbit v 18)) in H. rewrite Z.land_spec in H. by destruct (Z.testbit (reg s MUX_PAD0) 18).
Qed.
