(* ===== verification/Ir.v ===== *)
(** * The remote control receiver: [drivers/venus_ir.c] of the board

    The interrupt handler takes the frames that the controller has decoded, or,
    in raw mode, decodes the samples of the signal itself; keys go into a byte
    queue from which the device file is read.

    Registers answer as they like ([ir_reg]); the raw samples come in order
    ([ir_samples]).  A reader can be interrupted between its accesses to the
    queue and sleeps when it is empty; the interrupts that come then are given
    by [ir_events], each with the time that has passed before it. *)
From stdpp Require Import base tactics list numbers option.
From Stdlib Require Import ZArith Lia.
From S2P Require Import Prelude Driver Bi Buff Kfifo.

Class IrEnv := {
  ir_reg : nat -> Z -> Z;
  ir_samples : nat -> list Z;
  ir_events : nat -> list Z;
  ir_signal : nat -> bool;
  ir_freeze : nat -> bool;
  is_mars_cpu : bool
}.

(** ** Registers and constants *)

Definition MIS_ISR : Z := 0xb801b00c.
Definition MIS_DUMMY : Z := 0xb801b030.
Definition MIS_IR_PSR : Z := 0xb801b400.
Definition MIS_IR_PER : Z := 0xb801b404.
Definition MIS_IR_SF : Z := 0xb801b408.
Definition MIS_IR_DPIR : Z := 0xb801b40c.
Definition MIS_IR_CR : Z := 0xb801b410.
Definition MIS_IR_RP : Z := 0xb801b414.
Definition MIS_IR_SR : Z := 0xb801b418.
Definition MIS_IR_RAW_CTRL : Z := 0xb801b41c.
Definition MIS_IR_RAW_SAMPLE_TIME : Z := 0xb801b424.
Definition MIS_IR_RAW_DEB : Z := 0xb801b42c.

Definition FIFO_DEPTH : Z := 16.
Definition REPEAT_MAX_INTERVAL : Z := 200.
Definition HZ : Z := 100.

Definition NEC : Z := 1.
Definition RC5 : Z := 2.
Definition SHARP : Z := 3.
Definition SONY : Z := 4.
Definition C03 : Z := 5.
Definition RC6 : Z := 6.
Definition RAW_NEC : Z := 7.
Definition SINGLE_WORD_IF : Z := 0.
Definition DOUBLE_WORD_IF : Z := 1.

Definition EFAULT : Z := 14.
Definition EPERM : Z := 1.
Definition ENOTTY : Z := 25.
Definition ERESTARTSYS : Z := 512.
Definition ENOIOCTLCMD : Z := 515.
Definition IRQ_NONE : Z := 0.
Definition IRQ_HANDLED : Z := 1.

(** ** State *)

(** [raw]: the samples waiting in the controller; [out]: the registers written,
    newest first; [wakes]: how often sleeping readers have been woken. *)
Record ir_st := mkIr {
  fifo : kfifo; ir_protocol : Z; lastRecvMs : Z; debounce : Z; driver_mode : Z; lastSymbol : Z;
  raw : list Z; out : list (Z * Z); now : nat; jif : Z; wakes : Z
}.

Abbreviation IR := (Drv ir_st).

Definition set_fifo (f : kfifo) (s : ir_st) : ir_st :=
  mkIr f (ir_protocol s) (lastRecvMs s) (debounce s) (driver_mode s) (lastSymbol s) (raw s) (out s) (now s) (jif s) (wakes s).
Definition set_protocol (x : Z) (s : ir_st) : ir_st :=
  mkIr (fifo s) x (lastRecvMs s) (debounce s) (driver_mode s) (lastSymbol s) (raw s) (out s) (now s) (jif s) (wakes s).
Definition set_last (x : Z) (s : ir_st) : ir_st :=
  mkIr (fifo s) (ir_protocol s) x (debounce s) (driver_mode s) (lastSymbol s) (raw s) (out s) (now s) (jif s) (wakes s).
Definition set_debounce (x : Z) (s : ir_st) : ir_st :=
  mkIr (fifo s) (ir_protocol s) (lastRecvMs s) x (driver_mode s) (lastSymbol s) (raw s) (out s) (now s) (jif s) (wakes s).
Definition set_mode (x : Z) (s : ir_st) : ir_st :=
  mkIr (fifo s) (ir_protocol s) (lastRecvMs s) (debounce s) x (lastSymbol s) (raw s) (out s) (now s) (jif s) (wakes s).
Definition set_symbol (x : Z) (s : ir_st) : ir_st :=
  mkIr (fifo s) (ir_protocol s) (lastRecvMs s) (debounce s) (driver_mode s) x (raw s) (out s) (now s) (jif s) (wakes s).
Definition set_raw (x : list Z) (s : ir_st) : ir_st :=
  mkIr (fifo s) (ir_protocol s) (lastRecvMs s) (debounce s) (driver_mode s) (lastSymbol s) x (out s) (now s) (jif s) (wakes s).
Definition add_out (x : Z * Z) (s : ir_st) : ir_st :=
  mkIr (fifo s) (ir_protocol s) (lastRecvMs s) (debounce s) (driver_mode s) (lastSymbol s) (raw s) (x :: out s) (now s) (jif s) (wakes s).
Definition add_time (d : Z) (s : ir_st) : ir_st :=
  mkIr (fifo s) (ir_protocol s) (lastRecvMs s) (debounce s) (driver_mode s) (lastSymbol s) (raw s) (out s) (now s) (jif s + d) (wakes s).
Definition add_wake (s : ir_st) : ir_st :=
  mkIr (fifo s) (ir_protocol s) (lastRecvMs s) (debounce s) (driver_mode s) (lastSymbol s) (raw s) (out s) (now s) (jif s) (wakes s + 1).

Section ir.
Context {env : IrEnv}.
(** The turns given to loops that the controller ends. *)
Variable fuel : nat.

(** ** Accesses *)

Definition tick : IR nat := fun s =>
  Ret (now s, mkIr (fifo s) (ir_protocol s) (lastRecvMs s) (debounce s) (driver_mode s) (lastSymbol s) (raw s ++ ir_samples (now s)) (out s) (S (now s)) (jif s) (wakes s)).

Definition ioread32 (a : Z) : IR Z := t ← tick; mret (u32 (ir_reg t a)).
Definition iowrite32 (v a : Z) : IR unit := _ ← tick; modify (add_out (a, u32 v)).

Definition read_RAW_WL : IR Z := _ ← tick; s ← get; mret (Zlen (raw s)).
(** What is read when there is no sample is up to the controller. *)
Definition read_RAW_FF : IR Z :=
  t ← tick;
  s ← get;
  match raw s with
  | [] => mret (u32 (ir_reg t 0xb801b420))
  | w :: l => _ ← modify (set_raw l); mret (u32 w)
  end.

(** [jiffies_to_msecs(jiffies)], for [HZ] a divisor of 1000. *)
Definition msecs : IR Z := s ← get; mret (u32 (1000 / HZ * jif s)).

(** [__kfifo_put(venus_ir_fifo, &v, 4)]; the number of bytes taken is ignored. *)
Definition put_word (v : Z) : IR unit :=
  s ← get;
  '(_, f) ← lift_res (__kfifo_put (fifo s) (le_bytes (u32 v)) 4);
  modify (set_fifo f).

(** ** Frames of the controller *)

(** The value and whether it is a repetition; [None]: nothing there. *)
Definition examine_ir_avail : IR (option (Z * bool)) :=
  srValue ← ioread32 MIS_IR_SR;
  if negb (Z.land srValue 1 =? 0) then
    let dataRepeat := negb (Z.land srValue 2 =? 0) in
    _ ← iowrite32 3 MIS_IR_SR;
    regValue ← ioread32 MIS_IR_RP;
    mret (Some (regValue, dataRepeat))
  else mret None.

(** One turn of the loop of the handler; whether a key has been queued. *)
Definition ir_frame (regValue : Z) (dataRepeat : bool) : IR bool :=
  ms ← msecs;
  s ← get;
  if dataRepeat && (u32 (ms - lastRecvMs s) <? debounce s) then
    _ ← modify (set_last ms);
    mret false
  else if dataRepeat && (u32 (ms - lastRecvMs s) >? REPEAT_MAX_INTERVAL) then mret false
  else
    _ ← modify (set_last ms);
    let regValue := if ir_protocol s =? RC6 then Z.shiftr regValue 10
                    else if ir_protocol s =? RC5 then Z.land regValue 0xfff else regValue in
    _ ← put_word regValue;
    _ ← (if driver_mode s =? DOUBLE_WORD_IF then put_word (if dataRepeat then 1 else 0) else mret tt);
    mret true.

Fixpoint ir_frames (fuel : nat) (received : bool) : IR bool :=
  match fuel with
  | O => stuck
  | S fuel' =>
      o ← examine_ir_avail;
      match o with
      | None => mret received
      | Some (v, r) =>
          k ← ir_frame v r;
          ir_frames fuel' (received || k)
      end
  end.

(** ** Raw samples *)

(** The sample being looked at: its bits not yet seen, and its value. *)
Record sampler := mkSampler { bit_num : Z; sample_cnt : Z; sample : Z }.

(** [polar]: the level that is counted. *)
Fixpoint bit_cnt_loop (fuel : nat) (a : sampler) (polar : bool) (bit_cnt : Z) : IR (Z * sampler) :=
  match fuel with
  | O => stuck
  | S fuel' =>
      if bit_num a =? 0 then
        wl ← read_RAW_WL;
        if wl >? 0 then
          w ← read_RAW_FF;
          bit_cnt_loop fuel' (mkSampler 32 (sample_cnt a + 1) w) polar bit_cnt
        else mret (bit_cnt, a)
      else if eqb (Z.testbit (sample a) (bit_num a - 1)) polar then
        bit_cnt_loop fuel' (mkSampler (bit_num a - 1) (sample_cnt a) (sample a)) polar (bit_cnt + 1)
      else mret (bit_cnt, a)
  end.

Definition get_bit_cnt (a : sampler) (polar : Z) : IR (Z * sampler) :=
  if negb (polar =? 0) && negb (polar =? 1) then mret (-1, a)
  else bit_cnt_loop fuel a (polar =? 1) 0.

(** [None]: [goto sleep]; otherwise the symbol and [dataRepeat]. *)
Fixpoint nec_bits (n : nat) (i : Z) (a : sampler) (symbol : Z) : IR (option (Z * bool)) :=
  match n with
  | O => mret (Some (symbol, false))
  | S n' =>
      '(length_high, a) ← get_bit_cnt a 0;
      '(length_low, a) ← get_bit_cnt a 1;
      if length_high >=? 2 then
        if length_low >? 10 then s ← get; mret (Some (lastSymbol s, true))
        else if length_low >=? 7 then nec_bits n' (i + 1) a (u32 (Z.lor symbol (Z.shiftl 1 i)))
        else if length_low >=? 2 then nec_bits n' (i + 1) a (Z.land symbol (W32 - 1 - u32 (Z.shiftl 1 i)))
        else mret None
      else mret None
  end.

Definition raw_nec_decoder : IR Z :=
  w ← read_RAW_FF;
  '(length_high, a) ← get_bit_cnt (mkSampler 32 1 w) 0;
  '(length_low, a) ← get_bit_cnt a 1;
  o ← (if (length_high >=? 40) && (length_low <=? 12) then s ← get; mret (Some (lastSymbol s, false))
       else if (length_high <? 40) || (length_low <? 20) then mret None
       else nec_bits 32 0 a 0);
  _ ← match o with
      | None => mret tt
      | Some (symbol, dataRepeat) =>
          _ ← put_word symbol;
          s ← get;
          _ ← (if driver_mode s =? DOUBLE_WORD_IF then put_word (if (dataRepeat : bool) then 1 else 0) else mret tt);
          modify (set_symbol symbol)
      end;
  v ← ioread32 MIS_IR_RAW_SAMPLE_TIME;
  let stopCnt := u32 (v + 0xc8) in
  _ ← iowrite32 (Z.lor 0x03000048 (Z.shiftl stopCnt 8)) MIS_IR_RAW_CTRL;
  mret IRQ_HANDLED.

Definition IR_interrupt_handler : IR Z :=
  regValue ← ioread32 MIS_ISR;
  if negb (Z.land regValue 0x20 =? 0) then
    _ ← iowrite32 0x20 MIS_ISR;
    s ← get;
    if ir_protocol s =? RAW_NEC then raw_nec_decoder
    else
      received ← ir_frames fuel false;
      _ ← (if (received : bool) then modify add_wake else mret tt);
      mret IRQ_HANDLED
  else mret IRQ_NONE.

(** ** Set-up and power management *)

(** What [Venus_IR_Init] writes: value, register. *)
Definition init_writes (mode : Z) : list (Z * Z) :=
  if mode =? NEC then
    [(0x80000000, MIS_IR_CR); (0x5a13133b, MIS_IR_PSR); (0x0001162d, MIS_IR_PER); (0x21b, MIS_IR_SF); (0x1f4, MIS_IR_DPIR); (0x5df, MIS_IR_CR)]
  else if mode =? RC5 then
    [(0x80000000, MIS_IR_CR); (0x00242424, MIS_IR_PSR); (0x00010000, MIS_IR_PER); (0x21b, MIS_IR_SF); (0x3ff, MIS_IR_DPIR); (0x70c, MIS_IR_CR)]
  else if mode =? SHARP then
    [(0x80000000, MIS_IR_CR); (0x000c1b54, MIS_IR_PSR); (0x00010000, MIS_IR_PER); (0x21b, MIS_IR_SF); (0xc8, MIS_IR_DPIR); (0x58e, MIS_IR_CR)]
  else if mode =? SONY then
    [(0x80000000, MIS_IR_CR); (0x18181830, MIS_IR_PSR); (0x00010006, MIS_IR_PER); (0x21b, MIS_IR_SF); (0x1f4, MIS_IR_DPIR); (0xdd3, MIS_IR_CR)]
  else if mode =? C03 then
    [(0x80000000, MIS_IR_CR); (0x25151034, MIS_IR_PSR); (0x00000025, MIS_IR_PER); (0x21b, MIS_IR_SF); (0x3ff, MIS_IR_DPIR); (0x5ff, MIS_IR_CR)]
  else if mode =? RC6 then
    [(0x80000000, MIS_IR_CR); (0x1c0e0e0e, MIS_IR_PSR); (0x00030008, MIS_IR_PER); (0x21b, MIS_IR_SF); (0x3ff, MIS_IR_DPIR); (0x82a3, MIS_DUMMY); (0x515, MIS_IR_CR)]
  else if mode =? RAW_NEC then
    [(0x80000000, MIS_IR_CR); (0x1517, MIS_IR_SF); (0x0a8b, MIS_IR_RAW_DEB); (0x03138848, MIS_IR_RAW_CTRL); (0x7300, MIS_IR_CR)]
  else [].

Fixpoint iowrites (l : list (Z * Z)) : IR unit :=
  match l with
  | [] => mret tt
  | (v, a) :: l' => _ ← iowrite32 v a; iowrites l'
  end.

Definition Venus_IR_Init (mode : Z) : IR Z :=
  if (mode =? RAW_NEC) && negb is_mars_cpu then mret (- EFAULT)
  else
    ms ← msecs;
    _ ← modify (set_last ms);
    _ ← iowrites (init_writes mode);
    mret 0.

Definition ENOMEM : Z := 12.

(** The part of the module's start that is not registration; [kmalloc], [blk]:
    as in [kfifo_alloc]. *)
Definition venus_ir_init_module (kmalloc : Z -> option (list Z)) (blk : bool) : IR Z :=
  o ← lift_res (kfifo_alloc (FIFO_DEPTH * 4) kmalloc blk);
  match o with
  | None => mret (- ENOMEM)
  | Some f =>
      _ ← modify (set_fifo f);
      s ← get;
      _ ← Venus_IR_Init (ir_protocol s);
      mret 0
  end.

(** [while(ioread32(MIS_IR_SR) & 0x1) ...] *)
Fixpoint flush_IRRP (fuel : nat) : IR unit :=
  match fuel with
  | O => stuck
  | S fuel' =>
      v ← ioread32 MIS_IR_SR;
      if negb (Z.land v 1 =? 0) then
        _ ← iowrite32 3 MIS_IR_SR;
        _ ← ioread32 MIS_IR_RP;
        flush_IRRP fuel'
      else mret tt
  end.

Definition venus_ir_suspend : IR Z :=
  _ ← flush_IRRP fuel;
  v ← ioread32 MIS_IR_CR;
  _ ← iowrite32 (Z.land v (W32 - 1 - 0x400)) MIS_IR_CR;
  mret 0.

Definition venus_ir_resume : IR Z :=
  v ← ioread32 MIS_IR_CR;
  _ ← iowrite32 (Z.lor v 0x400) MIS_IR_CR;
  _ ← flush_IRRP fuel;
  mret 0.

(** ** The device file *)

Definition reset_fifo : IR unit := modify (fun s => set_fifo (kfifo_reset (fifo s)) s).

Definition venus_ir_open : IR Z := _ ← reset_fifo; mret 0.

(** The interrupts that come at this point of a reader. *)
Fixpoint interrupts (l : list Z) : IR unit :=
  match l with
  | [] => mret tt
  | d :: l' => _ ← modify (add_time (Z.max 0 d)); _ ← IR_interrupt_handler; interrupts l'
  end.
Definition preempt : IR unit := t ← tick; interrupts (ir_events t).

(** [wait_event_interruptible(venus_ir_read_wait, __kfifo_len(venus_ir_fifo) > 0)];
    [n]: the naps after which the model gives up on a thread that sleeps on. *)
Fixpoint sleep (n : nat) (w : Z) (k : nat -> IR Z) : IR Z :=
  match n with
  | O => stuck
  | S n' =>
      _ ← preempt;
      s ← get;
      if negb (wakes s =? w) || ir_signal (now s) then k n' else sleep n' w k
  end.
Fixpoint wait_event (m n : nat) : IR Z :=
  s ← get;
  if 0 <? __kfifo_len (fifo s) then mret 0
  else if ir_signal (now s) then mret (- ERESTARTSYS)
  else match m with
       | O => stuck
       | S m' => sleep n (wakes s) (wait_event m')
       end.

(** The wait of a read, taken up again after the machine was frozen. *)
Fixpoint read_wait (m n : nat) : IR Z :=
  r ← wait_event n n;
  if r =? 0 then mret 0
  else
    s ← get;
    if ir_freeze (now s) then
      match m with
      | O => stuck
      | S m' => _ ← preempt; read_wait m' n
      end
    else mret (- ERESTARTSYS).

(** [__kfifo_get(venus_ir_fifo, &uintBuf, 4)], with the interrupts between its
    accesses to the queue; [b]: [uintBuf]. *)
Definition get_word (b : list Z) : IR (list Z) :=
  s ← get;
  let len := Z.min 4 (__kfifo_len (fifo s)) in
  _ ← preempt;
  s ← get;
  b ← lift_res (kf_copy (fifo s) b len);
  _ ← preempt;
  _ ← modify (fun s => set_fifo (kf_advance (fifo s) len) s);
  mret b.

(** [for(i = 0 ; i < readCount ; i+=4)]; [ubuf]: the memory at [buf]. *)
Fixpoint read_loop (n : nat) (b ubuf : list Z) : IR (list Z) :=
  match n with
  | O => mret ubuf
  | S n' =>
      b ← get_word b;
      ubuf ← lift_res (store ubuf 0 b);
      read_loop n' b ubuf
  end.

(** [b]: what the stack holds at [uintBuf]; [ubuf]: the memory of the process
    from [buf] on, four bytes or more. *)
Definition venus_ir_read (n : nat) (count : Z) (b ubuf : list Z) : IR (Z * list Z) :=
  r ← read_wait n n;
  if negb (r =? 0) then mret (r, ubuf)
  else
    _ ← preempt;
    s ← get;
    readCount ← (if __kfifo_len (fifo s) <? count then _ ← preempt; s ← get; mret (__kfifo_len (fifo s)) else mret count);
    ubuf ← read_loop (Z.to_nat ((readCount + 3) / 4)) b ubuf;
    mret (readCount, ubuf).

Definition venus_ir_poll : IR Z :=
  s ← get;
  mret (if 0 <? __kfifo_len (fifo s) then 0x41 else 0).

(** [_IOW('r', nr, int)] *)
Definition ir_IOW (nr : Z) : Z := Z.lor (Z.shiftl 4 29) (Z.lor (Z.shiftl 4 16) (Z.lor (Z.shiftl 0x72 8) nr)).
Definition VENUS_IR_IOC_SET_IRIOTCDP : Z := ir_IOW 1.
Definition VENUS_IR_IOC_FLUSH_IRRP : Z := ir_IOW 2.
Definition VENUS_IR_IOC_SET_PROTOCOL : Z := ir_IOW 3.
Definition VENUS_IR_IOC_SET_DEBOUNCE : Z := ir_IOW 4.
Definition VENUS_IR_IOC_SET_IRPSR : Z := ir_IOW 5.
Definition VENUS_IR_IOC_SET_IRPER : Z := ir_IOW 6.
Definition VENUS_IR_IOC_SET_IRSF : Z := ir_IOW 7.
Definition VENUS_IR_IOC_SET_IRCR : Z := ir_IOW 8.
Definition VENUS_IR_IOC_SET_DRIVER_MODE : Z := ir_IOW 9.
Definition VENUS_IR_IOC_MAXNR : Z := 9.

(** [access]: whether [access_ok] accepts the argument; [admin]:
    [capable(CAP_SYS_ADMIN)]. *)
Definition venus_ir_ioctl (cmd arg : Z) (access admin : bool) : IR Z :=
  if negb (Z.land (Z.shiftr cmd 8) 0xff =? 0x72) then mret (- ENOTTY)
  else if Z.land cmd 0xff >? VENUS_IR_IOC_MAXNR then mret (- ENOTTY)
  else
    let dir := Z.land (Z.shiftr cmd 29) 7 in
    let err := if negb (Z.land dir 2 =? 0) then negb access else if negb (Z.land dir 4 =? 0) then negb access else false in
    if (err : bool) then mret (- EFAULT)
    else if negb admin then mret (- EPERM)
    else if cmd =? VENUS_IR_IOC_SET_IRPSR then _ ← iowrite32 arg MIS_IR_PSR; mret 0
    else if cmd =? VENUS_IR_IOC_SET_IRPER then _ ← iowrite32 arg MIS_IR_PER; mret 0
    else if cmd =? VENUS_IR_IOC_SET_IRSF then _ ← iowrite32 arg MIS_IR_SF; mret 0
    else if cmd =? VENUS_IR_IOC_SET_IRCR then _ ← iowrite32 arg MIS_IR_CR; mret 0
    else if cmd =? VENUS_IR_IOC_SET_IRIOTCDP then _ ← iowrite32 arg MIS_IR_DPIR; mret 0
    else if (cmd =? VENUS_IR_IOC_SET_PROTOCOL) || (cmd =? VENUS_IR_IOC_FLUSH_IRRP) then
      _ ← (if cmd =? VENUS_IR_IOC_SET_PROTOCOL then modify (set_protocol (s32 arg)) else mret tt);
      s ← get;
      retval ← Venus_IR_Init (ir_protocol s);
      _ ← (if retval =? 0 then reset_fifo else mret tt);
      mret retval
    else if cmd =? VENUS_IR_IOC_SET_DEBOUNCE then _ ← modify (set_debounce (u32 arg)); mret 0
    else if cmd =? VENUS_IR_IOC_SET_DRIVER_MODE then
      if u32 arg >=? 2 then mret (- EFAULT)
      else
        _ ← reset_fifo;
        _ ← modify (set_mode (u32 arg));
        mret 0
    else mret (- ENOIOCTLCMD).
End ir.
