(* ===== verification/IrProofs.v ===== *)
(** * Lemmas on the remote control receiver

    The keys in the queue ([Keys]), and one interrupt against the receiver of the
    specification. *)
From stdpp Require Import base tactics list numbers option.
From Stdlib Require Import ZArith Lia.
From S2P Require Import Prelude Driver Bi BiIO Rsa Buff Rpc RpcProofs Kfifo Ir.

(** ** The keys in the queue *)

Definition bytes_of (ws : list Z) : list Z := concat (le_bytes <$> ws).

(** The queue holds the words [ws], at most 16. *)
Record Keys (s : ir_st) (ws : list Z) : Prop := {
  k_holds : holds (fifo s) (bytes_of ws);
  k_size : kf_size (fifo s) = 64
}.

(** A word is dropped when the queue is full. *)
Definition enqueue (ws : list Z) (v : Z) : list Z := if (length ws <? 16)%nat then ws ++ [v] else ws.

Lemma bytes_of_app a b : bytes_of (a ++ b) = bytes_of a ++ bytes_of b.
Proof. unfold bytes_of. by rewrite fmap_app, concat_app. Qed.

Lemma Zlen_bytes_of ws : Zlen (bytes_of ws) = 4 * Z.of_nat (length ws).
Proof. induction ws as [|w ws IH]; [done|]. change (bytes_of (w :: ws)) with (le_bytes w ++ bytes_of ws). rewrite Zlen_app, IH. change (Zlen (le_bytes w)) with 4. cbn [length]. lia. Qed.

Lemma keys_bound s ws : Keys s ws -> (length ws <= 16)%nat.
Proof. intros [H1 H2]. pose proof (h_fits _ _ H1) as H. rewrite H2, Zlen_bytes_of in H. lia. Qed.

Lemma keys_len s ws : Keys s ws -> __kfifo_len (fifo s) = 4 * Z.of_nat (length ws).
Proof. intros [H1 _]. by rewrite (kfifo_len_holds _ _ H1), Zlen_bytes_of. Qed.

Lemma keys_same s s' ws : fifo s' = fifo s -> Keys s ws -> Keys s' ws.
Proof. intros E []. by split; rewrite E. Qed.

Lemma put_keys s ws v : Keys s ws ->
  exists n f, __kfifo_put (fifo s) (le_bytes v) 4 = Ret (n, f) /\ Keys (set_fifo f s) (enqueue ws v).
Proof.
  intros HK. pose proof (keys_bound _ _ HK) as Hb. destruct HK as [H1 H2]. destruct (put_holds _ _ H1 (le_bytes v) 4) as (f & E & Hf & Hs); [done|done|].
  rewrite Zlen_bytes_of, H2 in *. eexists _, f. split; [exact E|]. split; cbn [fifo set_fifo]; [|congruence]. unfold enqueue.
  destruct (Nat.ltb_spec (length ws) 16).
  - rewrite bytes_of_app. rewrite Z.min_l in Hf by lia. exact Hf.
  - rewrite Z.min_r in Hf by lia. replace (64 - 4 * Z.of_nat (length ws)) with 0 in Hf by lia. cbn [Z.to_nat firstn] in Hf. by rewrite app_nil_r in Hf.
Qed.

Lemma keys_reset s ws : Keys s ws -> Keys (set_fifo (kfifo_reset (fifo s)) s) [].
Proof. intros [H1 H2]. split; [apply reset_holds, H1|done]. Qed.

Lemma copy_keys s w ws b : Keys s (w :: ws) -> Zlen b = 4 -> kf_copy (fifo s) b 4 = Ret (le_bytes w).
Proof.
  intros [H1 _] Hb. rewrite (copy_holds _ _ H1); [|rewrite Zlen_bytes_of; cbn [length]; lia|lia].
  change (bytes_of (w :: ws)) with (le_bytes w ++ bytes_of ws). change (Z.to_nat 4) with (length (le_bytes w)). rewrite take_app_length.
  rewrite drop_ge by (unfold Zlen in Hb; cbn; lia). by rewrite app_nil_r.
Qed.

Lemma advance_keys s w ws : Keys s (w :: ws) -> Keys (set_fifo (kf_advance (fifo s) 4) s) ws.
Proof.
  intros [H1 H2]. split; [|done]. pose proof (advance_holds _ _ H1 4) as H. rewrite Zlen_bytes_of in H. cbn [length] in H. specialize (H ltac:(lia)).
  change (bytes_of (w :: ws)) with (le_bytes w ++ bytes_of ws) in H. change (Z.to_nat 4) with (length (le_bytes w)) in H. by rewrite drop_app_length in H.
Qed.

(** The queue determines the bytes of its first key. *)
Lemma keys_first s w w' ws ws' : Keys s (w :: ws) -> Keys s (w' :: ws') -> le_bytes w = le_bytes w'.
Proof. intros H H'. pose proof (copy_keys s w ws [0; 0; 0; 0] H eq_refl) as E. rewrite (copy_keys s w' ws' [0; 0; 0; 0] H' eq_refl) in E. by apply (f_equal (fun o => match o with Ret l => l | _ => [] end)) in E. Qed.

(** ** Accesses *)

(** Only the controller has been accessed. *)
Record calm (s s' : ir_st) : Prop := {
  m_fifo : fifo s' = fifo s;
  m_protocol : ir_protocol s' = ir_protocol s;
  m_last : lastRecvMs s' = lastRecvMs s;
  m_debounce : debounce s' = debounce s;
  m_mode : driver_mode s' = driver_mode s;
  m_symbol : lastSymbol s' = lastSymbol s;
  m_jif : jif s' = jif s;
  m_wakes : wakes s' = wakes s
}.

#[export] Instance calm_refl : Reflexive calm.
Proof. intros s. by split. Qed.
#[export] Instance calm_trans : Transitive calm.
Proof. intros s1 s2 s3 [] []. split; congruence. Qed.

Lemma calm_keys s s' ws : calm s s' -> Keys s ws -> Keys s' ws.
Proof. intros H. apply keys_same, H. Qed.

(** ** What an interrupt does with the frames of the controller *)

(** The settings that do not change meanwhile. *)
Record settings := mkSettings { g_protocol : Z; g_debounce : Z; g_mode : Z; g_ms : Z }.
Definition settings_of (s : ir_st) : settings := mkSettings (ir_protocol s) (debounce s) (driver_mode s) (u32 (1000 / HZ * jif s)).

(** The word that is queued for a frame. *)
Definition key_of (protocol v : Z) : Z :=
  if protocol =? RC6 then Z.shiftr v 10 else if protocol =? RC5 then Z.land v 0xfff else v.

(** The keys, the time of the last frame, whether a key has been queued. *)
Record receiver := mkReceiver { keys : list Z; last : Z; got : bool }.

Definition accept (g : settings) (x : receiver) (fr : Z * bool) : receiver :=
  let '(v, r) := fr in
  let d := u32 (g_ms g - last x) in
  if r && (d <? g_debounce g) then mkReceiver (keys x) (g_ms g) (got x)
  else if r && (d >? REPEAT_MAX_INTERVAL) then x
  else
    let ws := enqueue (keys x) (u32 (key_of (g_protocol g) v)) in
    mkReceiver (if g_mode g =? DOUBLE_WORD_IF then enqueue ws (if r then 1 else 0) else ws) (g_ms g) true.

(** The concrete state is that of the receiver. *)
Record represents (g : settings) (w0 : Z) (s : ir_st) (x : receiver) : Prop := {
  e_keys : Keys s (keys x);
  e_last : lastRecvMs s = last x;
  e_settings : settings_of s = g;
  e_wakes : wakes s = w0
}.

Section ir.
Context {env : IrEnv}.

Lemma ir_tick s (Q : nat -> ir_st -> Prop) : (forall s', calm s s' -> now s' = S (now s) -> raw s' = raw s ++ ir_samples (now s) -> Q (now s) s') -> wp tick s Q.
Proof. intros H. eexists _, _. split; [reflexivity|]. by apply H. Qed.

Lemma ir_read a s (Q : Z -> ir_st -> Prop) :
  (forall s', calm s s' -> now s' = S (now s) -> raw s' = raw s ++ ir_samples (now s) -> Q (u32 (ir_reg (now s) a)) s') -> wp (ioread32 a) s Q.
Proof. intros H. unfold ioread32. apply wp_bind, ir_tick. intros s' C N R. by apply wp_ret, H. Qed.

Lemma ir_write v a s (Q : unit -> ir_st -> Prop) :
  (forall s', calm s s' -> now s' = S (now s) -> raw s' = raw s ++ ir_samples (now s) -> out s' = (a, u32 v) :: out s -> Q tt s') -> wp (iowrite32 v a) s Q.
Proof.
  intros H. unfold iowrite32. exists tt. eexists. split; [reflexivity|]. by apply H.
Qed.

Lemma put_spec v s ws : Keys s ws -> wp (put_word v) s (fun _ s' => Keys s' (enqueue ws (u32 v)) /\ s' = set_fifo (fifo s') s).
Proof.
  intros HK. unfold put_word. apply wp_bind, wp_get. destruct (put_keys s ws (u32 v) HK) as (n & f & E & HK').
  apply wp_bind, (wp_lift _ _ _ _ E), wp_modify. done.
Qed.

(** The frames that the controller offers from the [t]-th access on. *)
Fixpoint offered (n t : nat) : option (list (Z * bool)) :=
  match n with
  | O => None
  | S n' =>
      if negb (Z.land (u32 (ir_reg t MIS_IR_SR)) 1 =? 0) then
        match offered n' (S (S (S t))) with
        | Some l => Some ((u32 (ir_reg (S (S t)) MIS_IR_RP), negb (Z.land (u32 (ir_reg t MIS_IR_SR)) 2 =? 0)) :: l)
        | None => None
        end
      else Some []
  end.

Lemma frame_spec g w0 v r s x : represents g w0 s x ->
  wp (ir_frame v r) s (fun k s' => represents g w0 s' (accept g x (v, r)) /\ got (accept g x (v, r)) = got x || k /\ now s' = now s /\ lastSymbol s' = lastSymbol s).
Proof.
  intros [HK Hl Hs Hw]. unfold ir_frame, msecs. apply wp_bind, wp_bind, wp_get, wp_ret, wp_bind, wp_get.
  assert (Ems : u32 (1000 / HZ * jif s) = g_ms g) by (by rewrite <- Hs). assert (Edb : debounce s = g_debounce g) by (by rewrite <- Hs).
  assert (Epr : ir_protocol s = g_protocol g) by (by rewrite <- Hs). assert (Emo : driver_mode s = g_mode g) by (by rewrite <- Hs).
  unfold accept. rewrite Ems, Edb, Epr, Emo, Hl. destruct (r && (_ <? _)).
  { apply wp_bind, wp_modify, wp_ret. cbn [got]. rewrite orb_false_r. split; [|done]. split; [by apply (keys_same s)|done|exact Hs|exact Hw]. }
  destruct (r && (_ >? _)); [apply wp_ret; rewrite orb_false_r; done|].
  apply wp_bind, wp_modify. set (s1 := set_last _ s). assert (HK1 : Keys s1 (keys x)) by (by apply (keys_same s)).
  apply wp_bind, (wp_mono _ _ _ _ (put_spec _ s1 _ HK1)). fold (key_of (g_protocol g) v). intros _ s2 [HK2 E2].
  destruct (g_mode g =? DOUBLE_WORD_IF) eqn:Em.
  - apply wp_bind, (wp_mono _ _ _ _ (put_spec _ s2 _ HK2)). intros _ s3 [HK3 E3]. apply wp_ret. rewrite orb_true_r.
    replace (u32 (if r then 1 else 0)) with (if r then 1 else 0) in HK3 by (by destruct r).
    rewrite E3, E2. split; [|done]. split; [rewrite <- E2, <- E3; exact HK3|done|exact Hs|exact Hw].
  - apply wp_bind, wp_ret, wp_ret. rewrite orb_true_r. rewrite E2. split; [|done]. split; [rewrite <- E2; exact HK2|done|exact Hs|exact Hw].
Qed.

Lemma frames_spec g w0 n : forall fs s x, offered n (now s) = Some fs -> represents g w0 s x ->
  wp (ir_frames n (got x)) s (fun k s' => represents g w0 s' (foldl (accept g) x fs) /\ k = got (foldl (accept g) x fs) /\ lastSymbol s' = lastSymbol s).
Proof.
  induction n as [|n IH]; intros fs s x Ho Hr; [done|]. cbn [ir_frames offered] in *. unfold examine_ir_avail.
  apply wp_bind, wp_bind, ir_read. intros s1 C1 N1 _.
  assert (Hr1 : forall s', calm s s' -> represents g w0 s' x).
  { intros s' C. destruct Hr as [A1 A2 A3 A4]. split; [by apply (calm_keys s)|by rewrite (m_last _ _ C)| |by rewrite (m_wakes _ _ C)].
    rewrite <- A3. unfold settings_of. by rewrite (m_protocol _ _ C), (m_debounce _ _ C), (m_mode _ _ C), (m_jif _ _ C). }
  destruct (negb (Z.land _ 1 =? 0)).
  2: { apply wp_ret, wp_ret. injection Ho as <-. split; [by apply Hr1|]. split; [done|apply C1]. }
  apply wp_bind, ir_write. intros s2 C2 N2 _ _. apply wp_bind, ir_read. intros s3 C3 N3 _. apply wp_ret.
  pose proof (calm_trans _ _ _ C1 (calm_trans _ _ _ C2 C3)) as C. rewrite N2, N1.
  destruct (offered n _) as [l|] eqn:El; [|done]. injection Ho as <-. cbn [foldl].
  apply wp_bind, (wp_mono _ _ _ _ (frame_spec g w0 _ _ s3 x (Hr1 s3 C))). intros k s4 (Hr4 & Hg & N4 & Y4). rewrite <- Hg.
  assert (En : offered n (now s4) = Some l) by (by rewrite N4, N3, N2, N1).
  apply (wp_mono _ _ _ _ (IH l s4 _ En Hr4)). intros k' s5 (Hr5 & Hk5 & Y5). split; [done|]. split; [done|]. by rewrite Y5, Y4, (m_symbol _ _ C).
Qed.

(** A settled state: the driver's own settings are as before. *)
Definition kept (s s' : ir_st) : Prop :=
  ir_protocol s' = ir_protocol s /\ debounce s' = debounce s /\ driver_mode s' = driver_mode s /\ lastSymbol s' = lastSymbol s.

Lemma kept_calm s s' : calm s s' -> kept s s'.
Proof. intros []. by repeat split. Qed.

Lemma ir_kept_trans s1 s2 s3 : kept s1 s2 -> kept s2 s3 -> kept s1 s3.
Proof. intros (A1 & A2 & A3 & A4) (B1 & B2 & B3 & B4). repeat split; congruence. Qed.

Variable fuel : nat.

(** One interrupt. *)
Lemma handler_spec s ws fs (x := foldl (accept (settings_of s)) (mkReceiver ws (lastRecvMs s) false) fs) :
  Keys s ws -> ir_protocol s <> RAW_NEC -> Z.land (u32 (ir_reg (now s) MIS_ISR)) 0x20 <> 0 -> offered fuel (S (S (now s))) = Some fs ->
  wp (IR_interrupt_handler fuel) s (fun r s' => r = IRQ_HANDLED /\ Keys s' (keys x) /\ lastRecvMs s' = last x /\ wakes s' = wakes s + (if got x then 1 else 0) /\ kept s s').
Proof.
  intros HK Hp Hi Ho. unfold IR_interrupt_handler. apply wp_bind, ir_read. intros s1 C1 N1 _. destruct (Z.eqb_spec (Z.land (u32 (ir_reg (now s) MIS_ISR)) 0x20) 0) as [|_]; [done|].
  cbn [negb]. apply wp_bind, ir_write. intros s2 C2 N2 _ _. pose proof (calm_trans _ _ _ C1 C2) as C. apply wp_bind, wp_get. rewrite (m_protocol _ _ C). destruct (Z.eqb_spec (ir_protocol s) RAW_NEC); [done|].
  assert (Hr : represents (settings_of s) (wakes s) s2 (mkReceiver ws (lastRecvMs s) false)).
  { split; [by apply (calm_keys s)|apply C| |apply C]. unfold settings_of. by rewrite (m_protocol _ _ C), (m_debounce _ _ C), (m_mode _ _ C), (m_jif _ _ C). }
  apply wp_bind, (wp_mono _ _ _ _ (frames_spec _ _ fuel fs s2 _ ltac:(by rewrite N2, N1) Hr)). fold x. intros k s3 ([K3 L3 G3 W3] & -> & Y3).
  assert (Hkept : kept s s3) by (unfold settings_of in G3; injection G3 as P1 P2 P3 _; split; [done|]; split; [done|]; split; [done|]; rewrite Y3; apply C).
  destruct (got x); apply wp_bind.
  - apply wp_modify, wp_ret. split; [done|]. split; [by apply (keys_same s3)|]. split; [done|]. split; [cbn; lia|done].
  - apply wp_ret, wp_ret. split; [done|]. split; [done|]. split; [done|]. split; [lia|done].
Qed.

(** The controller runs out of frames within [fuel] of them. *)
Definition polite : Prop := forall t, exists fs, offered fuel t = Some fs.

Lemma enqueue_grows ws v : exists l, enqueue ws v = ws ++ l.
Proof. unfold enqueue. destruct (_ <? _)%nat; [by eexists|exists []; by rewrite app_nil_r]. Qed.

Lemma accept_grows g x fr : exists l, keys (accept g x fr) = keys x ++ l.
Proof.
  destruct fr as [v r]. unfold accept. destruct (r && (_ <? _)); [exists []; by rewrite app_nil_r|]. destruct (r && (_ >? _)); [exists []; by rewrite app_nil_r|]. cbn [keys].
  destruct (enqueue_grows (keys x) (u32 (key_of (g_protocol g) v))) as [l1 ->]. destruct (_ =? _); [|by eexists].
  destruct (enqueue_grows (keys x ++ l1) (if r then 1 else 0)) as [l2 ->]. exists (l1 ++ l2). by rewrite app_assoc.
Qed.

Lemma accepts_grow g fs : forall x, exists l, keys (foldl (accept g) x fs) = keys x ++ l.
Proof.
  induction fs as [|fr fs IH]; intros x; cbn [foldl]; [exists []; by rewrite app_nil_r|]. destruct (IH (accept g x fr)) as [l2 ->]. destruct (accept_grows g x fr) as [l1 ->].
  exists (l1 ++ l2). by rewrite app_assoc.
Qed.

End ir.
