(* ===== verification/IrNec.v ===== *)
(** * Decoding raw samples of a remote control signal

    The samples as one sequence of bits ([signal_of]), how runs of equal bits are
    counted, and that the decoder finds the 32 bits of every signal whose pulses
    are within the tolerances ([raw_decodes]). *)
From stdpp Require Import base tactics list numbers option.
From Stdlib Require Import ZArith Lia.
From S2P Require Import Prelude Driver Bi BiIO Rsa Buff Rpc RpcProofs Kfifo Ir IrProofs.

(** ** Samples as bits *)

(** The [n] low bits of a word, the highest first. *)
Fixpoint low_bits (w : Z) (n : nat) : list bool :=
  match n with
  | O => []
  | S n' => Z.testbit w (Z.of_nat n') :: low_bits w n'
  end.

Definition words_bits (l : list Z) : list bool := concat ((fun w => low_bits (u32 w) 32) <$> l).

(** The bits not yet seen: of the sample at hand, then of those that wait. *)
Definition signal_of (a : sampler) (l : list Z) : list bool := low_bits (sample a) (Z.to_nat (bit_num a)) ++ words_bits l.

Lemma words_bits_app a b : words_bits (a ++ b) = words_bits a ++ words_bits b.
Proof. unfold words_bits. by rewrite fmap_app, concat_app. Qed.

Lemma words_bits_cons w l : words_bits (w :: l) = low_bits (u32 w) 32 ++ words_bits l.
Proof. done. Qed.

Lemma signal_sample a l : 0 < bit_num a -> signal_of a l = Z.testbit (sample a) (bit_num a - 1) :: signal_of (mkSampler (bit_num a - 1) (sample_cnt a) (sample a)) l.
Proof.
  intros H. unfold signal_of. cbn [bit_num sample]. replace (Z.to_nat (bit_num a)) with (S (Z.to_nat (bit_num a - 1))) by lia. cbn [low_bits app]. by rewrite Z2Nat.id by lia.
Qed.

Section nec.
Context {env : IrEnv}.

Lemma ir_wl s (Q : Z -> ir_st -> Prop) : (forall s', calm s s' -> raw s' = raw s ++ ir_samples (now s) -> Q (Zlen (raw s')) s') -> wp read_RAW_WL s Q.
Proof. intros H. unfold read_RAW_WL. apply wp_bind, ir_tick. intros s' C _ R. apply wp_bind, wp_get, wp_ret. auto. Qed.

Lemma ir_ff s w l (Q : Z -> ir_st -> Prop) : raw s = w :: l -> (forall s', calm s s' -> raw s' = l ++ ir_samples (now s) -> Q (u32 w) s') -> wp read_RAW_FF s Q.
Proof.
  intros E H. unfold read_RAW_FF. apply wp_bind, ir_tick. intros s1 C _ R. rewrite E in R. apply wp_bind, wp_get. rewrite R. cbn [app].
  apply wp_bind, wp_modify, wp_ret, H; [|done]. apply (calm_trans _ s1); [done|by split].
Qed.

(** A run of [n] bits [p] that ends is counted and left behind. *)
Lemma bit_cnt_spec fuel : forall a s cnt n p rest, 0 <= bit_num a -> signal_of a (raw s) = replicate n p ++ negb p :: rest ->
  (2 * n + (if (bit_num a =? 0)%Z then 1 else 0) < fuel)%nat ->
  wp (bit_cnt_loop fuel a p cnt) s (fun r s' => fst r = cnt + Z.of_nat n /\ 0 <= bit_num (snd r) /\ calm s s' /\
    exists extra, signal_of (snd r) (raw s') = negb p :: rest ++ extra).
Proof.
  induction fuel as [|fuel IH]; intros a s cnt n p rest Hb Hs Hf; [lia|]. cbn [bit_cnt_loop]. destruct (Z.eqb_spec (bit_num a) 0) as [Ez|Ez].
  - apply wp_bind, ir_wl. intros s1 C1 R1. unfold signal_of in Hs. rewrite Ez in Hs. change (words_bits (raw s) = replicate n p ++ negb p :: rest) in Hs.
    destruct (raw s) as [|w l] eqn:Er; [destruct n; done|]. rewrite R1, Zlen_app, Zlen_cons. pose proof (Zlen_nonneg l). pose proof (Zlen_nonneg (ir_samples (now s))).
    rewrite Z.gtb_ltb. destruct (Z.ltb_spec 0 (Zlen l + 1 + Zlen (ir_samples (now s)))); [|lia].
    apply wp_bind, (ir_ff s1 w (l ++ ir_samples (now s))); [done|]. intros s2 C2 R2.
    set (extra := words_bits (ir_samples (now s)) ++ words_bits (ir_samples (now s1))).
    assert (Hs2 : signal_of (mkSampler 32 (sample_cnt a + 1) (u32 w)) (raw s2) = replicate n p ++ negb p :: rest ++ extra).
    { unfold signal_of. cbn [bit_num sample]. change (Z.to_nat 32) with 32%nat. rewrite R2, <- app_assoc, !words_bits_app, app_assoc, <- words_bits_cons, Hs. by rewrite <- app_assoc. }
    apply (wp_mono _ _ _ _ (IH (mkSampler 32 (sample_cnt a + 1) (u32 w)) s2 cnt n p (rest ++ extra) ltac:(cbn; lia) Hs2 ltac:(cbn [bit_num Z.eqb]; lia))).
    intros r s3 (E1 & E2 & C3 & ex & E3). split; [done|]. split; [done|]. split; [by apply (calm_trans _ s1); [|apply (calm_trans _ s2)]|]. exists (extra ++ ex). by rewrite app_assoc.
  - rewrite signal_sample in Hs by lia. destruct n as [|n]; cbn [replicate app] in Hs; injection Hs as Hb0 Hs; rewrite Hb0.
    + rewrite eqb_negb1. apply wp_ret. cbn [fst snd]. split; [lia|]. split; [done|]. split; [done|]. exists []. rewrite app_nil_r, signal_sample, Hb0 by lia. by f_equal.
    + rewrite eqb_reflx.
      apply (wp_mono _ _ _ _ (IH (mkSampler (bit_num a - 1) (sample_cnt a) (sample a)) s (cnt + 1) n p rest ltac:(cbn; lia) Hs ltac:(cbn [bit_num]; destruct (_ =? 0); lia))).
      intros r s3 (E1 & E2). split; [lia|done].
Qed.

(** ** Pulses *)

Definition pulse (h l : nat) : list bool := replicate h false ++ replicate l true.
Definition pulses (ps : list (nat * nat)) : list bool := concat ((fun '(h, l) => pulse h l) <$> ps).

Variable fuel : nat.

(** A pulse that is followed by another one is measured. *)
Lemma pulse_spec {B} a s h l rest (k : Z -> Z -> sampler -> IR B) (Q : B -> ir_st -> Prop) : 0 <= bit_num a -> (1 <= l)%nat -> (2 * h + 1 < fuel)%nat -> (2 * l + 1 < fuel)%nat ->
  signal_of a (raw s) = pulse h l ++ false :: rest ->
  (forall a' s' extra, 0 <= bit_num a' -> calm s s' -> signal_of a' (raw s') = false :: rest ++ extra -> wp (k (Z.of_nat h) (Z.of_nat l) a') s' Q) ->
  wp ('(x, a) ← get_bit_cnt fuel a 0; '(y, a) ← get_bit_cnt fuel a 1; k x y a) s Q.
Proof.
  intros Hb Hl Hf1 Hf2 Hs HQ. unfold get_bit_cnt. cbn [Z.eqb negb andb Pos.eqb].
  assert (Hs1 : signal_of a (raw s) = replicate h false ++ negb false :: replicate (l - 1) true ++ false :: rest).
  { rewrite Hs. unfold pulse. rewrite <- app_assoc. destruct l as [|l]; [lia|]. by rewrite Nat.sub_1_r. }
  apply wp_bind, (wp_mono _ _ _ _ (bit_cnt_spec fuel a s 0 h false _ Hb Hs1 ltac:(destruct (_ =? 0); lia))). intros [x a1] s1 (Ex & Hb1 & C1 & ex1 & Hs2). cbn [fst snd] in *.
  assert (Hs3 : signal_of a1 (raw s1) = replicate l true ++ negb true :: rest ++ ex1).
  { rewrite Hs2. destruct l as [|l]; [lia|]. rewrite Nat.sub_1_r. cbn [Nat.pred negb replicate app]. by rewrite <- app_assoc. }
  apply wp_bind, (wp_mono _ _ _ _ (bit_cnt_spec fuel a1 s1 0 l true _ Hb1 Hs3 ltac:(destruct (_ =? 0); lia))). intros [y a2] s2 (Ey & Hb2 & C2 & ex2 & Hs4). cbn [fst snd] in *.
  subst x y. rewrite !Z.add_0_l. apply (HQ a2 s2 (ex1 ++ ex2)); [done|by apply (calm_trans _ s1)|]. by rewrite Hs4, <- app_assoc.
Qed.

(** The pulse of a bit, within the tolerances of the decoder. *)
Definition pulse_of (b : bool) (p : nat * nat) : Prop :=
  (2 <= p.1)%nat /\ (2 * p.1 + 1 < fuel)%nat /\ if b then (7 <= p.2 <= 10)%nat else (2 <= p.2 <= 6)%nat.

(** The number with these bits, the lowest first. *)
Definition bits_value (bs : list bool) : Z := foldr (fun b a => Z.b2z b + 2 * a) 0 bs.

Lemma bits_value_range bs : 0 <= bits_value bs < 2 ^ Z.of_nat (length bs).
Proof.
  induction bs as [|b bs IH]; [cbn; lia|]. cbn [bits_value foldr length]. fold (bits_value bs). rewrite Nat2Z.inj_succ, Z.pow_succ_r by lia. destruct b; cbn [Z.b2z]; lia.
Qed.

Lemma bits_value_testbit v n : forall i, bits_value ((fun k => Z.testbit v (Z.of_nat k)) <$> seq i n) = (v / 2 ^ Z.of_nat i) mod 2 ^ Z.of_nat n.
Proof.
  induction n as [|n IH]; intros i; [cbn; by rewrite Z.mod_1_r|]. cbn [seq fmap list_fmap bits_value foldr]. fold (bits_value ((fun k => Z.testbit v (Z.of_nat k)) <$> seq (S i) n)).
  rewrite IH, Z.testbit_spec' by lia. rewrite !Nat2Z.inj_succ, !Z.pow_succ_r by lia.
  rewrite (Z.rem_mul_r (v / 2 ^ Z.of_nat i) 2) by lia. rewrite Z.div_div by lia. do 4 f_equal. lia.
Qed.

Lemma set_bit i x : 0 <= i -> 0 <= x < 2 ^ i -> Z.lor x (Z.shiftl 1 i) = x + 2 ^ i.
Proof. intros Hi Hx. rewrite Z.lor_comm, lor_shiftl_add by done. lia. Qed.

Lemma clear_bit i x : 0 <= i <= 31 -> 0 <= x < 2 ^ i -> Z.land x (W32 - 1 - 2 ^ i) = x.
Proof.
  intros Hi Hx. assert (Ex : Z.land x (Z.ones i) = x) by (rewrite Z.land_ones by lia; apply Z.mod_small; lia). rewrite <- Ex at 1. rewrite <- Z.land_assoc, (Z.land_comm (Z.ones i)), Z.land_ones by lia.
  assert (E : (W32 - 1 - 2 ^ i) mod 2 ^ i = Z.ones i); [|by rewrite E].
  rewrite Z.ones_equiv. symmetry. apply (Z.mod_unique _ _ (2 ^ (32 - i) - 2)); [lia|]. unfold W32. change 4294967296 with (2 ^ 32). replace (2 ^ 32) with (2 ^ i * 2 ^ (32 - i)) by (rewrite <- Z.pow_add_r by lia; f_equal; lia). lia.
Qed.

Lemma pow_small i : 0 <= i <= 31 -> 0 < 2 ^ i < W32.
Proof. intros Hi. split; [lia|]. unfold W32. change 4294967296 with (2 ^ 32). apply Z.pow_lt_mono_r; lia. Qed.

Lemma pulse_bounds b p : pulse_of b p -> (22 < fuel)%nat -> (1 <= p.2)%nat /\ (2 * p.1 + 1 < fuel)%nat /\ (2 * p.2 + 1 < fuel)%nat.
Proof. intros (H1 & H2 & H3) Hf. destruct b; lia. Qed.

(** What follows a pulse begins with the next one. *)
Lemma pulses_head bs ps rest : Forall2 pulse_of bs ps -> exists r, pulses ps ++ false :: rest = false :: r.
Proof.
  intros H. destruct H as [|b [h l] bs ps [H _] _]; [by eexists|]. cbn [fst] in H. destruct h as [|h]; [lia|].
  by eexists.
Qed.

(** The bits of a signal, the lowest first. *)
Lemma nec_bits_spec bs : forall ps i a s symbol rest, (22 < fuel)%nat -> Forall2 pulse_of bs ps -> 0 <= i -> i + Z.of_nat (length bs) <= 32 -> 0 <= symbol < 2 ^ i ->
  0 <= bit_num a -> signal_of a (raw s) = pulses ps ++ false :: rest ->
  wp (nec_bits fuel (length bs) i a symbol) s (fun r s' => r = Some (symbol + 2 ^ i * bits_value bs, false) /\ calm s s').
Proof.
  induction bs as [|b bs IH]; intros ps i a s symbol rest Hf Hps Hi Hi32 Hsym Hb Hs; inversion Hps as [|? p ? ps' Hp Hps']; subst.
  { cbn [length nec_bits]. apply wp_ret. split; [|done]. cbn [bits_value foldr]. do 3 f_equal. lia. }
  cbn [length] in *. destruct p as [h l]. cbn [nec_bits]. pose proof (pulse_bounds _ _ Hp Hf) as (B1 & B2 & B3). cbn [fst snd] in *.
  assert (Hs' : exists rest', signal_of a (raw s) = pulse h l ++ false :: rest' /\ false :: rest' = pulses ps' ++ false :: rest).
  { rewrite Hs. change (pulses ((h, l) :: ps')) with (pulse h l ++ pulses ps'). rewrite <- app_assoc. destruct (pulses_head bs ps' rest Hps') as [r Hr].
    exists r. by rewrite Hr. }
  destruct Hs' as (rest' & Hs1 & Hs2).
  apply (pulse_spec a s h l rest' (fun x y a => _) _ Hb B1 B2 B3 Hs1). intros a' s' extra Hb' C' Hs3.
  assert (Hs4 : signal_of a' (raw s') = pulses ps' ++ false :: rest ++ extra).
  { rewrite Hs3. change (false :: rest' ++ extra) with ((false :: rest') ++ extra). rewrite Hs2, <- app_assoc. done. }
  destruct Hp as (P1 & _ & P3). cbn [fst snd] in *. rewrite !Z.geb_leb, Z.gtb_ltb. destruct (Z.leb_spec 2 (Z.of_nat h)); [|lia].
  destruct (Z.ltb_spec 10 (Z.of_nat l)); [destruct b; lia|]. pose proof (pow_small i ltac:(lia)) as Hpw.
  assert (Hfin : forall sym, 0 <= sym < 2 ^ (i + 1) -> sym = symbol + 2 ^ i * Z.b2z b ->
    wp (nec_bits fuel (length bs) (i + 1) a' sym) s' (fun r s'' => r = Some (symbol + 2 ^ i * bits_value (b :: bs), false) /\ calm s s'')).
  { intros sym Hsym' ->. apply (wp_mono _ _ _ _ (IH ps' (i + 1) a' s' _ (rest ++ extra) Hf Hps' ltac:(lia) ltac:(lia) Hsym' Hb' Hs4)). intros r s'' [-> C'']. split; [|by apply (calm_trans _ s')].
    cbn [bits_value foldr]. do 2 f_equal. fold (bits_value bs). rewrite Z.pow_add_r by lia. change (2 ^ 1) with 2. ring. }
  assert (E2 : 2 ^ (i + 1) = 2 * 2 ^ i) by (rewrite Z.pow_add_r by lia; lia).
  assert (E3 : 2 * 2 ^ i <= W32) by (rewrite <- E2; apply (Z.pow_le_mono_r 2 (i + 1) 32); lia). destruct b.
  - destruct (Z.leb_spec 7 (Z.of_nat l)); [|lia]. rewrite set_bit by lia. rewrite u32_small by (split; lia). apply Hfin; cbn [Z.b2z]; lia.
  - destruct (Z.leb_spec 7 (Z.of_nat l)); [lia|]. destruct (Z.leb_spec 2 (Z.of_nat l)); [|lia]. rewrite Z.shiftl_1_l, u32_small by (split; lia). rewrite clear_bit by lia. apply Hfin; cbn [Z.b2z]; lia.
Qed.

(** The end of the decoder: a symbol that was found is queued. *)
Definition queued_symbol (s : ir_st) (ws : list Z) (symbol : Z) (repeat : bool) : list Z :=
  let ws := enqueue ws (u32 symbol) in
  if driver_mode s =? DOUBLE_WORD_IF then enqueue ws (if repeat then 1 else 0) else ws.

Definition nec_end (o : option (Z * bool)) : IR Z :=
  _ ← match o with
      | None => mret tt
      | Some (symbol, dataRepeat) =>
          _ ← put_word symbol;
          s ← get;
          _ ← (if driver_mode s =? DOUBLE_WORD_IF then put_word (if (dataRepeat : bool) then 1 else 0) else mret tt);
          modify (set_symbol symbol)
      end;
  v ← ioread32 MIS_IR_RAW_SAMPLE_TIME;
  let stopCnt := u32 (v + 0xc8) in
  _ ← iowrite32 (Z.lor 0x03000048 (Z.shiftl stopCnt 8)) MIS_IR_RAW_CTRL;
  mret IRQ_HANDLED.

Lemma nec_end_spec o s ws : Keys s ws ->
  wp (nec_end o) s (fun r s' => r = IRQ_HANDLED /\ wakes s' = wakes s /\
    match o with Some (y, d) => Keys s' (queued_symbol s ws y d) /\ lastSymbol s' = y | None => Keys s' ws /\ lastSymbol s' = lastSymbol s end).
Proof.
  intros HK. unfold nec_end.
  assert (Hq : wp (match o with
      | None => mret tt
      | Some (symbol, dataRepeat) =>
          _ ← put_word symbol;
          s ← get;
          _ ← (if driver_mode s =? DOUBLE_WORD_IF then put_word (if (dataRepeat : bool) then 1 else 0) else mret tt);
          modify (set_symbol symbol)
      end) s (fun _ s' => wakes s' = wakes s /\
    match o with Some (y, d) => Keys s' (queued_symbol s ws y d) /\ lastSymbol s' = y | None => Keys s' ws /\ lastSymbol s' = lastSymbol s end)).
  { destruct o as [[y d]|]; [|by apply wp_ret]. apply wp_bind, (wp_mono _ _ _ _ (put_spec y s ws HK)). intros _ s1 [HK1 E1]. apply wp_bind, wp_get. unfold queued_symbol.
    assert (Em : driver_mode s1 = driver_mode s) by (by rewrite E1). rewrite Em. destruct (driver_mode s =? DOUBLE_WORD_IF).
    - apply wp_bind, (wp_mono _ _ _ _ (put_spec _ s1 _ HK1)). intros _ s2 [HK2 E2]. apply wp_modify. replace (u32 (if d then 1 else 0)) with (if d then 1 else 0) in HK2 by (by destruct d).
      split; [cbn; by rewrite E2, E1|]. split; [by apply (keys_same s2)|done].
    - apply wp_bind, wp_ret, wp_modify. split; [cbn; by rewrite E1|]. split; [by apply (keys_same s1)|done]. }
  apply wp_bind, (wp_mono _ _ _ _ Hq). intros _ s1 [W1 H1]. apply wp_bind, ir_read. intros s2 C2 _ _. apply wp_bind, ir_write. intros s3 C3 _ _ _. apply wp_ret.
  pose proof (calm_trans _ _ _ C2 C3) as C. split; [done|]. split; [rewrite (m_wakes _ _ C); done|].
  destruct o as [[y d]|]; destruct H1 as [K L]; (split; [by apply (calm_keys s1)|by rewrite (m_symbol _ _ C)]).
Qed.

(** A whole signal: the start pulse, 32 bits, and the beginning of the stop
    pulse. *)
Lemma raw_decodes s ws v ph pl ps rest : (22 < fuel)%nat -> Keys s ws -> is_u32 v ->
  (40 <= ph)%nat -> (2 * ph + 1 < fuel)%nat -> (20 <= pl)%nat -> (2 * pl + 1 < fuel)%nat ->
  Forall2 pulse_of ((fun k => Z.testbit v (Z.of_nat k)) <$> seq 0 32) ps ->
  words_bits (raw s) = pulse ph pl ++ pulses ps ++ false :: rest ->
  wp (raw_nec_decoder fuel) s (fun r s' => r = IRQ_HANDLED /\ wakes s' = wakes s /\ Keys s' (queued_symbol s ws v false) /\ lastSymbol s' = v).
Proof.
  intros Hf HK Hv H1 H2 H3 H4 Hps Hs. unfold raw_nec_decoder. destruct (raw s) as [|w l] eqn:Er; [destruct ph; [lia|done]|].
  apply wp_bind, (ir_ff s w l); [done|]. intros s1 C1 R1.
  assert (Hs1 : exists rest', signal_of (mkSampler 32 1 (u32 w)) (raw s1) = pulse ph pl ++ false :: rest' /\ exists extra, false :: rest' = pulses ps ++ false :: rest ++ extra).
  { unfold signal_of. cbn [bit_num sample]. change (Z.to_nat 32) with 32%nat. rewrite R1, words_bits_app, app_assoc, <- words_bits_cons, Hs, <- !app_assoc.
    set (extra := words_bits (ir_samples (now s))). destruct (pulses_head _ ps (rest ++ extra) Hps) as [r' Hr']. exists r'. cbn [app]. split; [by rewrite Hr'|]. by exists extra. }
  destruct Hs1 as (rest' & Hs1 & ex & Hex).
  apply (pulse_spec (mkSampler 32 1 (u32 w)) s1 ph pl rest' (fun x y a => _) _ ltac:(cbn; lia) ltac:(lia) H2 H4 Hs1). intros a2 s2 ex2 Hb2 C2 Hs2.
  rewrite Z.geb_leb. destruct (Z.leb_spec 40 (Z.of_nat ph)); [|lia]. destruct (Z.leb_spec (Z.of_nat pl) 12); [lia|]. destruct (Z.ltb_spec (Z.of_nat ph) 40); [lia|].
  destruct (Z.ltb_spec (Z.of_nat pl) 20); [lia|]. cbn [andb orb].
  assert (Hs3 : signal_of a2 (raw s2) = pulses ps ++ false :: rest ++ ex ++ ex2).
  { rewrite Hs2. change (false :: rest' ++ ex2) with ((false :: rest') ++ ex2). rewrite Hex, <- app_assoc. cbn [app]. by rewrite <- app_assoc. }
  pose proof (nec_bits_spec _ ps 0 a2 s2 0 (rest ++ ex ++ ex2) Hf Hps ltac:(lia) ltac:(rewrite length_fmap, length_seq; lia) ltac:(lia) Hb2 Hs3) as Hd.
  rewrite length_fmap, length_seq, bits_value_testbit in Hd. apply wp_bind, (wp_mono _ _ _ _ Hd). intros o s3 [-> C3].
  change (2 ^ Z.of_nat 0) with 1. rewrite Z.div_1_r. change (2 ^ Z.of_nat 32) with W32. rewrite (Z.mod_small v) by done. replace (0 + 2 ^ 0 * v) with v by lia.
  pose proof (calm_trans _ _ _ C1 (calm_trans _ _ _ C2 C3)) as C.
  apply (wp_mono _ _ _ _ (nec_end_spec (Some (v, false)) s3 ws ltac:(by apply (calm_keys s)))). intros r s4 (-> & W & K & L).
  split; [done|]. split; [rewrite W; apply C|]. split; [|done]. unfold queued_symbol in *. by rewrite (m_mode _ _ C) in K.
Qed.

(** A start pulse with a short pause: the last key again. *)
Lemma raw_repeats s ws ph pl rest : Keys s ws -> (40 <= ph)%nat -> (2 * ph + 1 < fuel)%nat -> (1 <= pl <= 12)%nat -> (2 * pl + 1 < fuel)%nat ->
  words_bits (raw s) = pulse ph pl ++ false :: rest ->
  wp (raw_nec_decoder fuel) s (fun r s' => r = IRQ_HANDLED /\ wakes s' = wakes s /\ Keys s' (queued_symbol s ws (lastSymbol s) false) /\ lastSymbol s' = lastSymbol s).
Proof.
  intros HK H1 H2 H3 H4 Hs. unfold raw_nec_decoder. destruct (raw s) as [|w l] eqn:Er; [destruct ph; [lia|done]|].
  apply wp_bind, (ir_ff s w l); [done|]. intros s1 C1 R1.
  assert (Hs1 : signal_of (mkSampler 32 1 (u32 w)) (raw s1) = pulse ph pl ++ false :: rest ++ words_bits (ir_samples (now s))).
  { unfold signal_of. cbn [bit_num sample]. change (Z.to_nat 32) with 32%nat. by rewrite R1, words_bits_app, app_assoc, <- words_bits_cons, Hs, <- !app_assoc. }
  apply (pulse_spec (mkSampler 32 1 (u32 w)) s1 ph pl _ (fun x y a => _) _ ltac:(cbn; lia) ltac:(lia) H2 H4 Hs1). intros a2 s2 ex2 Hb2 C2 Hs2.
  rewrite Z.geb_leb. destruct (Z.leb_spec 40 (Z.of_nat ph)); [|lia]. destruct (Z.leb_spec (Z.of_nat pl) 12); [|lia]. cbn [andb].
  pose proof (calm_trans _ _ _ C1 C2) as C. apply wp_bind, wp_bind, wp_get, wp_ret.
  apply (wp_mono _ _ _ _ (nec_end_spec (Some (lastSymbol s2, false)) s2 ws ltac:(by apply (calm_keys s)))). intros r s4 (-> & W & K & L).
  rewrite (m_symbol _ _ C) in *. split; [done|]. split; [rewrite W; apply C|]. split; [|done]. unfold queued_symbol in *. by rewrite (m_mode _ _ C) in K.
Qed.
End nec.
