(* ===== verification/IrRun.v ===== *)
(** * The remote control receiver: interrupts and reads

    Both ways of decoding come to an end: how samples arrive and are used up
    ([fed], [at_most]); and what interrupts at any point leave of the queue
    ([grown]), down to a whole read ([ir_read_spec]). *)
From stdpp Require Import base tactics list numbers option.
From Stdlib Require Import ZArith Lia.
From S2P Require Import Prelude Driver Bi BiIO Rsa Buff Rpc RpcProofs Kfifo Ir IrProofs IrNec.

Section ir.
Context {env : IrEnv}.

(** ** Samples *)

(** How many samples arrive during [k] accesses from the [t]-th on. *)
Fixpoint arriving (t k : nat) : nat :=
  match k with
  | O => 0
  | S k' => length (ir_samples t) + arriving (S t) k'
  end.

Lemma arriving_add a : forall t b, arriving t (a + b) = (arriving t a + arriving (t + a) b)%nat.
Proof. induction a as [|a IH]; intros t b; cbn [arriving Nat.add]; [by rewrite Nat.add_0_r|]. rewrite IH, <- Nat.add_succ_comm. lia. Qed.

(** Samples have been used up and others have arrived; the settings of the driver are as before. *)
Record fed (s s' : ir_st) : Prop := {
  d_samples : exists k, now s' = (now s + k)%nat /\ (length (raw s') <= length (raw s) + arriving (now s) k)%nat;
  d_protocol : ir_protocol s' = ir_protocol s;
  d_debounce : debounce s' = debounce s;
  d_mode : driver_mode s' = driver_mode s
}.

#[export] Instance fed_refl : Reflexive fed.
Proof. intros s. split; [|done..]. exists O. cbn. lia. Qed.
#[export] Instance fed_trans : Transitive fed.
Proof.
  intros s1 s2 s3 [(a & N1 & R1) A1 A2 A3] [(b & N2 & R2) B1 B2 B3]. split; [|congruence..]. exists (a + b)%nat. rewrite arriving_add, <- N1. lia.
Qed.

Lemma fed_tick s s' : calm s s' -> now s' = S (now s) -> raw s' = raw s ++ ir_samples (now s) -> fed s s'.
Proof. intros C N R. split; [|apply C..]. exists 1%nat. rewrite N, R, length_app. cbn. lia. Qed.

(** Only the queue, the time or what concerns the last frame has changed. *)
Definition aside (f : ir_st -> ir_st) : Prop := forall s, now (f s) = now s /\ raw (f s) = raw s /\ ir_protocol (f s) = ir_protocol s /\ debounce (f s) = debounce s /\ driver_mode (f s) = driver_mode s.

Lemma fed_aside f s : aside f -> fed s (f s).
Proof. intros H. destruct (H s) as (N & R & P & D & M). split; [|done..]. exists O. rewrite N, R. cbn. lia. Qed.

(** At most [n] samples wait or are still to come. *)
Definition at_most (n : nat) (s : ir_st) : Prop := forall k, (length (raw s) + arriving (now s) k <= n)%nat.

Lemma fed_at_most n s s' : fed s s' -> at_most n s -> at_most n s'.
Proof. intros [(a & N & R) _ _ _] H k. specialize (H (a + k)%nat). rewrite arriving_add, <- N in H. lia. Qed.

(** An action that takes and gets samples but makes none. *)
Definition feeds {A} (m : IR A) : Prop := forall s r s', m s = Ret (r, s') -> fed s s'.

Lemma feeds_ret {A} (a : A) : feeds (mret a).
Proof. by intros s r s' [= <- <-]. Qed.
Lemma feeds_stuck {A} : feeds (stuck : IR A).
Proof. by intros s r s'. Qed.
Lemma feeds_get : feeds get.
Proof. by intros s r s' [= <- <-]. Qed.
Lemma feeds_lift {A} (m : res A) : feeds (lift_res m).
Proof. intros s r s'. unfold lift_res. by destruct m; [intros [= <- <-]|..]. Qed.
Lemma feeds_modify f : aside f -> feeds (modify f).
Proof. intros H s r s' [= <- <-]. by apply fed_aside. Qed.
Lemma feeds_bind {A B} (m : IR A) (f : A -> IR B) : feeds m -> (forall a, feeds (f a)) -> feeds (m ≫= f).
Proof.
  intros Hm Hf s r s'. unfold mbind, Drv_bind. destruct (m s) as [[a s1]| |] eqn:E; [|done..]. intros E2. apply (fed_trans _ s1); [by apply (Hm s a)|by apply (Hf a s1 r)].
Qed.
Lemma feeds_tick : feeds tick.
Proof. intros s r s' [= <- <-]. by apply fed_tick; [split|..]. Qed.
Lemma feeds_ff : feeds read_RAW_FF.
Proof.
  intros s r s'. unfold read_RAW_FF, mbind, Drv_bind, tick, get, modify. cbn [raw now]. destruct (raw s ++ ir_samples (now s)) as [|w l] eqn:E; intros [= <- <-]; (split; [exists 1%nat; cbn [raw now set_raw arriving]|done..]).
  - split; [lia|]. cbn [length]. lia.
  - split; [lia|]. apply (f_equal length) in E. rewrite length_app in E. cbn [length] in E. lia.
Qed.

Lemma wp_feeds {A} (m : IR A) s (Q : A -> ir_st -> Prop) : feeds m -> wp m s Q -> wp m s (fun r s' => Q r s' /\ fed s s').
Proof. intros Hm (r & s' & E & H). exists r, s'. split; [done|]. split; [done|]. by apply (Hm s r). Qed.

Create HintDb feeds discriminated.
#[local] Hint Resolve feeds_ret feeds_stuck feeds_get feeds_lift feeds_tick feeds_ff : feeds.

Ltac feed := repeat (intros; first
  [ solve [auto 1 with feeds nocore]
  | simple apply feeds_bind
  | simple apply feeds_modify; intros ?; repeat split; reflexivity
  | match goal with |- feeds (match ?x with _ => _ end) => destruct x end ]).

Lemma feeds_read a : feeds (ioread32 a).
Proof. unfold ioread32. feed. Qed.
#[local] Hint Resolve feeds_read : feeds.
Lemma feeds_write v a : feeds (iowrite32 v a).
Proof. unfold iowrite32. feed. Qed.
#[local] Hint Resolve feeds_write : feeds.
Lemma feeds_put v : feeds (put_word v).
Proof. unfold put_word. feed. Qed.
#[local] Hint Resolve feeds_put : feeds.

Lemma feeds_bits fuel : forall a p c, feeds (bit_cnt_loop fuel a p c).
Proof. induction fuel as [|fuel IH]; intros a p c; cbn [bit_cnt_loop]; [apply feeds_stuck|]. unfold read_RAW_WL. feed. Qed.
#[local] Hint Resolve feeds_bits : feeds.

Variable fuel : nat.

Lemma feeds_cnt a p : feeds (get_bit_cnt fuel a p).
Proof. unfold get_bit_cnt. destruct (_ && _); [apply feeds_ret|apply feeds_bits]. Qed.
#[local] Hint Resolve feeds_cnt : feeds.

Lemma feeds_nec n : forall i a y, feeds (nec_bits fuel n i a y).
Proof. induction n as [|n IH]; intros i a y; cbn [nec_bits]; [apply feeds_ret|]. feed. Qed.
#[local] Hint Resolve feeds_nec : feeds.

Lemma feeds_frames n : forall b, feeds (ir_frames n b).
Proof.
  induction n as [|n IH]; intros b; cbn [ir_frames]; [apply feeds_stuck|]. unfold examine_ir_avail, ir_frame, msecs. feed.
Qed.
#[local] Hint Resolve feeds_frames : feeds.

Lemma feeds_handler : feeds (IR_interrupt_handler fuel).
Proof. unfold IR_interrupt_handler, raw_nec_decoder. feed. Qed.
#[local] Hint Resolve feeds_handler : feeds.

(** ** The raw decoder ends *)

(** A sample is taken. *)
Lemma ff_spends s w l n (Q : Z -> ir_st -> Prop) : raw s = w :: l -> at_most n s ->
  (forall s', calm s s' -> (1 <= n)%nat -> at_most (n - 1) s' -> Q (u32 w) s') -> wp read_RAW_FF s Q.
Proof.
  intros E H HQ. unfold read_RAW_FF. apply wp_bind. eexists _, _. split; [reflexivity|]. apply wp_bind, wp_get. cbn [raw]. rewrite E. cbn [app]. apply wp_bind, wp_modify, wp_ret.
  assert (Hn : (1 <= n)%nat) by (specialize (H O); rewrite E in H; cbn in H; lia). apply HQ; [by split|done|]. intros k. cbn [raw now set_raw].
  specialize (H (S k)). rewrite E in H. cbn [length arriving] in H. rewrite length_app. lia.
Qed.

Lemma bits_end p n0 : forall a s c n, 0 <= bit_num a <= 32 -> at_most n s -> (33 * n + Z.to_nat (bit_num a) < n0)%nat ->
  wp (bit_cnt_loop n0 a p c) s (fun r s' => calm s s' /\ 0 <= bit_num (snd r) <= 32).
Proof.
  induction n0 as [|n0 IH]; intros a s c n Ha Hn Hf; [lia|]. cbn [bit_cnt_loop]. destruct (Z.eqb_spec (bit_num a) 0) as [Ez|Ez].
  - apply wp_bind. unfold read_RAW_WL. apply wp_bind, ir_tick. intros s1 C1 N1 R1. apply wp_bind, wp_get, wp_ret. rewrite Z.gtb_ltb.
    destruct (Z.ltb_spec 0 (Zlen (raw s1))) as [Hl|Hl]; [|by apply wp_ret]. destruct (raw s1) as [|w l] eqn:Er; [done|].
    apply wp_bind, (ff_spends s1 w l n); [done|by apply (fed_at_most _ s), Hn; apply fed_tick; rewrite ?Er|]. intros s2 C2 H1 Hn2.
    apply (wp_mono _ _ _ _ (IH (mkSampler 32 (sample_cnt a + 1) (u32 w)) s2 c _ ltac:(cbn; lia) Hn2 ltac:(cbn [bit_num]; change (Z.to_nat 32) with 32%nat; lia))).
    intros r s3 [C3 Hr]. split; [|done]. exact (calm_trans _ _ _ C1 (calm_trans _ _ _ C2 C3)).
  - destruct (eqb _ p); [|by apply wp_ret]. apply (IH (mkSampler (bit_num a - 1) (sample_cnt a) (sample a)) s (c + 1) n); [cbn; lia|done|cbn [bit_num]; lia].
Qed.

Variable n : nat.
Hypothesis Hfuel : (33 * n + 33 < fuel)%nat.

Lemma cnt_ends a s p : 0 <= bit_num a <= 32 -> at_most n s ->
  wp (get_bit_cnt fuel a p) s (fun r s' => (calm s s' /\ 0 <= bit_num (snd r) <= 32) /\ at_most n s').
Proof.
  intros Ha Hn. assert (H : wp (get_bit_cnt fuel a p) s (fun r s' => calm s s' /\ 0 <= bit_num (snd r) <= 32)).
  { unfold get_bit_cnt. destruct (_ && _); [by apply wp_ret|]. apply (bits_end _ _ _ _ _ n); [done..|lia]. }
  refine (wp_mono _ _ _ _ (wp_feeds _ _ _ (feeds_cnt a p) H) _). intros r s' [Hr F]. split; [done|]. by apply (fed_at_most _ s).
Qed.

Lemma nec_ends k : forall i a s y, 0 <= bit_num a <= 32 -> at_most n s -> wp (nec_bits fuel k i a y) s (fun _ s' => calm s s').
Proof.
  induction k as [|k IH]; intros i a s y Ha Hn; cbn [nec_bits]; [by apply wp_ret|].
  apply wp_bind, (wp_mono _ _ _ _ (cnt_ends a s 0 Ha Hn)). intros [h a1] s1 [[C1 Ha1] Hn1]. cbn [snd] in Ha1.
  apply wp_bind, (wp_mono _ _ _ _ (cnt_ends a1 s1 1 Ha1 Hn1)). intros [l a2] s2 [[C2 Ha2] Hn2]. cbn [snd] in Ha2. pose proof (calm_trans _ _ _ C1 C2) as C.
  destruct (h >=? 2); [|by apply wp_ret]. destruct (l >? 10); [by apply wp_bind, wp_get, wp_ret|].
  destruct (l >=? 7); [|destruct (l >=? 2); [|by apply wp_ret]]; refine (wp_mono _ _ _ _ (IH _ _ s2 _ Ha2 Hn2) _); intros _ s3 C3; exact (calm_trans _ _ _ C C3).
Qed.

Lemma queued_grows s ws y d : exists l, queued_symbol s ws y d = ws ++ l.
Proof.
  unfold queued_symbol. destruct (enqueue_grows ws (u32 y)) as [l1 E1]. destruct (_ =? _); [|by exists l1].
  destruct (enqueue_grows (enqueue ws (u32 y)) (if d then 1 else 0)) as [l2 E2]. exists (l1 ++ l2). by rewrite E2, E1, app_assoc.
Qed.

(** Whatever the samples are. *)
Lemma decoder_ends s ws : Keys s ws -> at_most n s -> wp (raw_nec_decoder fuel) s (fun _ s' => exists l, Keys s' (ws ++ l)).
Proof.
  intros HK Hn. unfold raw_nec_decoder.
  assert (Hff : wp read_RAW_FF s (fun _ s' => calm s s' /\ fed s s')).
  { assert (Hc : wp read_RAW_FF s (fun _ s' => calm s s')).
    { unfold read_RAW_FF. apply wp_bind, ir_tick. intros s1 C1 _ _. apply wp_bind, wp_get. destruct (raw s1); [by apply wp_ret|]. apply wp_bind, wp_modify, wp_ret. destruct C1. by split. }
    by apply wp_feeds; [apply feeds_ff|]. }
  apply wp_bind, (wp_mono _ _ _ _ Hff). intros w s1 [C1 F1].
  apply wp_bind, (wp_mono _ _ _ _ (cnt_ends (mkSampler 32 1 w) s1 0 ltac:(cbn; lia) (fed_at_most _ _ _ F1 Hn))). intros [h a1] s2 [[C2 Ha1] Hn2]. cbn [snd] in Ha1.
  apply wp_bind, (wp_mono _ _ _ _ (cnt_ends a1 s2 1 Ha1 Hn2)). intros [l a2] s3 [[C3 Ha2] Hn3]. cbn [snd] in Ha2.
  pose proof (calm_trans _ _ _ C1 (calm_trans _ _ _ C2 C3)) as C.
  assert (Ho : wp (if (h >=? 40) && (l <=? 12) then s ← get; mret (Some (lastSymbol s, false))
       else if (h <? 40) || (l <? 20) then mret None
       else nec_bits fuel 32 0 a2 0) s3 (fun _ s' => calm s s')).
  { destruct (_ && _); [by apply wp_bind, wp_get, wp_ret|]. destruct (_ || _); [by apply wp_ret|]. refine (wp_mono _ _ _ _ (nec_ends 32 0 a2 s3 0 Ha2 Hn3) _). intros _ s4 C4. exact (calm_trans _ _ _ C C4). }
  apply wp_bind, (wp_mono _ _ _ _ Ho). intros o s4 C4. refine (wp_mono _ _ _ _ (nec_end_spec o s4 ws ltac:(by apply (calm_keys s))) _). intros _ s5 (_ & _ & H).
  destruct o as [[y d]|]; destruct H as [HK5 _]; [|exists []; by rewrite app_nil_r]. destruct (queued_grows s4 ws y d) as [l' E]. rewrite E in HK5. by exists l'.
Qed.

(** ** Interrupts at any point *)
End ir.

Section grows.
Context {env : IrEnv}.
Variable fuel : nat.
Hypothesis Hpolite : polite fuel.

(** The decoder in use comes to an end: the controller's, or the samples of the raw one run out. *)
Definition Ends (s : ir_st) : Prop := ir_protocol s <> RAW_NEC \/ exists n, at_most n s /\ (33 * n + 33 < fuel)%nat.

Lemma ends_fed s s' : fed s s' -> Ends s -> Ends s'.
Proof. intros F [H|(n & H & Hn)]; [left; by rewrite (d_protocol _ _ F)|right; exists n; split; [by apply (fed_at_most _ s)|done]]. Qed.

(** The queue has grown at its end, the settings are as before. *)
Definition grown (ws : list Z) (s s' : ir_st) : Prop := fed s s' /\ exists l, Keys s' (ws ++ l).

Lemma grown_fed ws s s' : fed s s' -> Keys s' ws -> grown ws s s'.
Proof. intros F HK. split; [done|]. exists []. by rewrite app_nil_r. Qed.

Lemma grown_refl ws s : Keys s ws -> grown ws s s.
Proof. by apply grown_fed. Qed.

Lemma grown_more ws l s1 s2 s3 : fed s1 s2 -> grown (ws ++ l) s2 s3 -> grown ws s1 s3.
Proof. intros F [F' [l' HK]]. split; [by apply (fed_trans _ s2)|]. exists (l ++ l'). by rewrite app_assoc. Qed.

Lemma handler_grows s ws : Keys s ws -> Ends s -> wp (IR_interrupt_handler fuel) s (fun _ s' => grown ws s s').
Proof.
  intros HK He. assert (H : wp (IR_interrupt_handler fuel) s (fun _ s' => exists l, Keys s' (ws ++ l))).
  2: { refine (wp_mono _ _ _ _ (wp_feeds _ _ _ (feeds_handler fuel) H) _). intros r s' [Hl F]. by split. }
  destruct (Z.eq_dec (Z.land (u32 (ir_reg (now s) MIS_ISR)) 0x20) 0) as [E|E].
  - unfold IR_interrupt_handler. apply wp_bind, ir_read. intros s1 C1 _ _. rewrite E. apply wp_ret. exists []. rewrite app_nil_r. by apply (calm_keys s).
  - destruct (Z.eq_dec (ir_protocol s) RAW_NEC) as [Er|Er].
    + destruct He as [He|(n & Hn & Hf)]; [done|]. unfold IR_interrupt_handler. apply wp_bind, ir_read. intros s1 C1 N1 R1. rewrite (proj2 (Z.eqb_neq _ _) E). cbn [negb].
      apply wp_bind, ir_write. intros s2 C2 N2 R2 _. apply wp_bind, wp_get. rewrite (m_protocol _ _ C2), (m_protocol _ _ C1), Er. cbn [Z.eqb Pos.eqb RAW_NEC].
      apply (decoder_ends fuel n Hf); [apply (calm_keys s1), (calm_keys s); done|]. apply (fed_at_most _ s); [|done]. apply (fed_trans _ s1); by apply fed_tick.
    + destruct (Hpolite (S (S (now s)))) as [fs Ho]. apply (wp_mono _ _ _ _ (handler_spec fuel s ws fs HK Er E Ho)). intros r s' (_ & K & _).
      destruct (accepts_grow (settings_of s) fs (mkReceiver ws (lastRecvMs s) false)) as [l El]. rewrite El in K. by exists l.
Qed.

Lemma interrupts_grow l : forall s ws, Keys s ws -> Ends s -> wp (interrupts fuel l) s (fun _ s' => grown ws s s').
Proof.
  induction l as [|d l IH]; intros s ws HK He; cbn [interrupts]; [by apply wp_ret, grown_refl|]. apply wp_bind, wp_modify.
  assert (F : fed s (add_time (Z.max 0 d) s)) by (apply fed_aside; by intros).
  apply wp_bind, (wp_mono _ _ _ _ (handler_grows (add_time (Z.max 0 d) s) ws ltac:(by apply (keys_same s)) (ends_fed _ _ F He))). intros _ s1 [F1 [l1 HK1]].
  pose proof (fed_trans _ _ _ F F1) as F2. refine (wp_mono _ _ _ _ (IH s1 (ws ++ l1) HK1 (ends_fed _ _ F2 He)) _). intros _ s2. by apply grown_more.
Qed.

Lemma preempt_grows s ws : Keys s ws -> Ends s -> wp (preempt fuel) s (fun _ s' => grown ws s s').
Proof.
  intros HK He. unfold preempt. apply wp_bind, ir_tick. intros s1 C1 N1 R1. pose proof (fed_tick _ _ C1 N1 R1) as F.
  refine (wp_mono _ _ _ _ (interrupts_grow _ s1 ws ltac:(by apply (calm_keys s)) (ends_fed _ _ F He)) _). intros _ s2 H. apply (grown_more ws [] s s1); [done|]. by rewrite app_nil_r.
Qed.

(** ** Reading *)

Lemma get_word_spec s w ws b : Keys s (w :: ws) -> Ends s -> Zlen b = 4 ->
  wp (get_word fuel b) s (fun b' s' => b' = le_bytes w /\ grown ws s s').
Proof.
  intros HK He Hb. unfold get_word. apply wp_bind, wp_get. rewrite (keys_len _ _ HK). cbn [length]. rewrite Z.min_l by lia.
  apply wp_bind, (wp_mono _ _ _ _ (preempt_grows s _ HK He)). intros _ s1 [F1 [l1 HK1]]. cbn [app] in HK1. apply wp_bind, wp_get, wp_bind.
  apply (wp_lift _ _ _ _ (copy_keys _ _ _ b HK1 Hb)). apply wp_bind, (wp_mono _ _ _ _ (preempt_grows s1 _ HK1 (ends_fed _ _ F1 He))).
  intros _ s2 [F2 [l2 HK2]]. cbn [app] in HK2. apply wp_bind, wp_modify, wp_ret. split; [done|]. apply (grown_more ws l1 s s2); [by apply (fed_trans _ s1)|].
  split; [apply (fed_aside (fun s => set_fifo (kf_advance (fifo s) 4) s)); by intros|]. exists l2. by apply (advance_keys s2 w).
Qed.

(** The bytes that the process finds after [n] words: every word replaces the one before. *)
Definition last_word (n : nat) (ws ubuf : list Z) : list Z := match n with O => ubuf | S k => le_bytes (nth k ws 0) ++ skipn 4 ubuf end.

Lemma read_loop_spec n : forall s ws b ubuf, Keys s ws -> Ends s -> Zlen b = 4 -> 4 <= Zlen ubuf -> (n <= length ws)%nat ->
  wp (read_loop fuel n b ubuf) s (fun u s' => u = last_word n ws ubuf /\ grown (skipn n ws) s s').
Proof.
  induction n as [|n IH]; intros s ws b ubuf HK He Hb Hu Hn; cbn [read_loop]; [apply wp_ret; split; [done|by apply grown_refl]|].
  destruct ws as [|w ws]; [cbn in Hn; lia|]. apply wp_bind, (wp_mono _ _ _ _ (get_word_spec s w ws b HK He Hb)). intros b1 s1 [-> [F1 [l1 HK1]]].
  assert (Hw4 : Zlen (le_bytes w) = 4) by done. apply wp_bind, (wp_lift _ _ (le_bytes w ++ skipn 4 ubuf)); [rewrite store_ok by lia; cbn [Z.to_nat firstn app]; done|].
  cbn [length] in Hn. apply (wp_mono _ _ _ _ (IH s1 (ws ++ l1) (le_bytes w) (le_bytes w ++ skipn 4 ubuf) HK1 (ends_fed _ _ F1 He) Hw4
    ltac:(rewrite Zlen_app; pose proof (Zlen_nonneg (skipn 4 ubuf)); lia) ltac:(rewrite length_app; lia))).
  intros u s2 [-> G2]. split.
  - unfold last_word. destruct n as [|n]; [done|]. cbn [nth]. by rewrite app_nth1 by lia.
  - cbn [skipn]. rewrite drop_app_le in G2 by lia. by apply (grown_more _ l1 s s1).
Qed.

Lemma wait_ready m n s w ws : Keys s (w :: ws) -> wait_event fuel m n s = Ret (0, s).
Proof.
  intros HK. destruct m; cbn [wait_event]; unfold mbind, Drv_bind, get; cbn beta iota; rewrite (keys_len _ _ HK); cbn [length]; destruct (Z.ltb_spec 0 (4 * Z.of_nat (S (length ws)))); done || lia.
Qed.

Lemma read_wait_ready m n s w ws : Keys s (w :: ws) -> read_wait fuel m n s = Ret (0, s).
Proof. intros HK. destruct m; cbn [read_wait]; unfold mbind, Drv_bind; by rewrite (wait_ready _ _ _ _ _ HK). Qed.

(** How many words a read of [count] bytes takes. *)
Definition words (count : Z) : nat := Z.to_nat ((count + 3) / 4).

Lemma words_whole k : words (4 * Z.of_nat k) = k.
Proof. unfold words. rewrite <- (Z.div_unique (4 * Z.of_nat k + 3) 4 (Z.of_nat k) 3); lia. Qed.

Lemma words_le count k : 0 <= count <= 4 * Z.of_nat k -> (words count <= k)%nat.
Proof. intros H. unfold words. assert ((count + 3) / 4 < Z.of_nat k + 1) by (apply Z.div_lt_upper_bound; lia). pose proof (Z.div_pos (count + 3) 4). lia. Qed.

(** A read of a queue that holds [w :: ws], with interrupts at any point. *)
Lemma ir_read_spec n count b ubuf s w ws : Keys s (w :: ws) -> Ends s -> Zlen b = 4 -> 4 <= Zlen ubuf -> 0 <= count ->
  wp (venus_ir_read fuel n count b ubuf) s (fun r s' => exists l, 0 <= fst r /\ (words (fst r) <= length (w :: ws ++ l))%nat /\
    (count <= 4 * Z.of_nat (length (w :: ws)) -> fst r = count) /\
    snd r = last_word (words (fst r)) (w :: ws ++ l) ubuf /\ grown (skipn (words (fst r)) (w :: ws ++ l)) s s').
Proof.
  intros HK He Hb Hu Hc. unfold venus_ir_read. apply wp_bind. exists 0, s. split; [by apply (read_wait_ready _ _ _ w ws)|]. cbn [Z.eqb negb].
  apply wp_bind, (wp_mono _ _ _ _ (preempt_grows s _ HK He)). intros _ s1 [F1 [l1 HK1]]. pose proof (ends_fed _ _ F1 He) as He1.
  apply wp_bind, wp_get. rewrite (keys_len _ _ HK1).
  assert (Hrc : wp (if 4 * Z.of_nat (length ((w :: ws) ++ l1)) <? count then _ ← preempt fuel; s ← get; mret (__kfifo_len (fifo s)) else mret count) s1
    (fun r s2 => exists l, fed s1 s2 /\ Keys s2 (w :: ws ++ l) /\ 0 <= r <= 4 * Z.of_nat (length (w :: ws ++ l)) /\ (count <= 4 * Z.of_nat (length (w :: ws)) -> r = count))).
  { destruct (Z.ltb_spec (4 * Z.of_nat (length ((w :: ws) ++ l1))) count) as [Hlt|Hge].
    - apply wp_bind, (wp_mono _ _ _ _ (preempt_grows s1 _ HK1 He1)). intros _ s2 [F2 [l2 HK2]]. apply wp_bind, wp_get, wp_ret. rewrite (keys_len _ _ HK2).
      exists (l1 ++ l2). rewrite <- app_assoc in *. rewrite length_app in Hlt. split; [done|]. split; [done|]. split; [split; [lia|done]|lia].
    - apply wp_ret. exists l1. done. }
  apply wp_bind, (wp_mono _ _ _ _ Hrc). intros r s2 (l & F2 & HK2 & Hr & Hcnt). pose proof (fed_trans _ _ _ F1 F2) as F. fold (words r).
  apply wp_bind, (wp_mono _ _ _ _ (read_loop_spec (words r) s2 _ b ubuf HK2 (ends_fed _ _ F2 He1) Hb Hu ltac:(by apply words_le))). intros u s3 [-> G3]. apply wp_ret. exists l.
  cbn [fst snd]. split; [lia|]. split; [by apply words_le|]. split; [done|]. split; [done|]. apply (grown_more _ [] s s2); [done|]. by rewrite app_nil_r.
Qed.
End grows.
