(* ===== verification/IrTheorems.v ===== *)
(** * The remote control receiver: properties *)
From stdpp Require Import base tactics list numbers option.
From Stdlib Require Import ZArith Lia.
From S2P Require Import Prelude Driver Bi BiIO Rsa Buff Rpc RpcProofs Kfifo Ir IrProofs IrNec IrRun.

(** ** Sequences of events *)

(** Time passes, an interrupt comes, calls of the device file and of the power
    management. *)
Inductive ir_op :=
| OElapse (d : Z)
| OInterrupt
| OOpen
| ORead (count : Z)
| OPoll
| OIoctl (cmd arg : Z) (access admin : bool)
| OSuspend
| OResume.

Section runs.
Context {env : IrEnv}.
Variable fuel : nat.
Hypothesis Hpolite : polite fuel.
(** The samples of a run. *)
Variable n : nat.
Hypothesis Hfuel : (33 * n + 33 < fuel)%nat.

(** A read of an empty queue sleeps ([ir_read_wakes]). *)
Definition ir_allowed (o : ir_op) (s : ir_st) : bool :=
  match o with
  | ORead count => (0 <=? count) && (0 <? __kfifo_len (fifo s))
  | _ => true
  end.

(** The result, and the first bytes of the memory that was read into. *)
Definition ir_run_op (o : ir_op) : IR (Z * list Z) :=
  match o with
  | OElapse d => _ ← modify (add_time (Z.max 0 d)); mret (0, [])
  | OInterrupt => r ← IR_interrupt_handler fuel; mret (r, [])
  | OOpen => r ← venus_ir_open; mret (r, [])
  | ORead count => venus_ir_read fuel 0 count [0; 0; 0; 0] [0; 0; 0; 0]
  | OPoll => r ← venus_ir_poll; mret (r, [])
  | OIoctl cmd arg access admin => r ← venus_ir_ioctl cmd arg access admin; mret (r, [])
  | OSuspend => r ← venus_ir_suspend fuel; mret (r, [])
  | OResume => r ← venus_ir_resume fuel; mret (r, [])
  end.

(** The results, up to the first event that is not considered. *)
Fixpoint ir_run (ops : list ir_op) (s : ir_st) : res (list (Z * list Z) * ir_st) :=
  match ops with
  | [] => Ret ([], s)
  | o :: ops' =>
      if ir_allowed o s then
        '(r, s) ← ir_run_op o s;
        '(rs, s) ← ir_run ops' s;
        Ret (r :: rs, s)
      else Ret ([], s)
  end.

(** The queue holds whole words, at most 16; the samples run out. *)
Definition IInv (s : ir_st) : Prop := at_most n s /\ exists ws, Keys s ws.

Lemma inv_ends s : IInv s -> Ends fuel s.
Proof. intros [H _]. right. by exists n. Qed.

Lemma grown_inv ws s s' : IInv s -> grown ws s s' -> IInv s'.
Proof. intros [H _] [F [l HK]]. split; [by apply (fed_at_most _ s)|]. by eexists. Qed.

(** The controller has been accessed [k] times. *)
Definition accessed (s s' : ir_st) : Prop := calm s s' /\ fed s s'.

Lemma accessed_trans s1 s2 s3 : accessed s1 s2 -> accessed s2 s3 -> accessed s1 s3.
Proof. intros [C1 F1] [C2 F2]. split; [exact (calm_trans _ _ _ C1 C2)|exact (fed_trans _ _ _ F1 F2)]. Qed.

Lemma accessed_inv s s' : accessed s s' -> IInv s -> IInv s'.
Proof. intros [C F] [H [ws HK]]. split; [by apply (fed_at_most _ s)|]. exists ws. by apply (calm_keys s). Qed.

Lemma access_read a s (Q : Z -> ir_st -> Prop) : (forall v s', accessed s s' -> now s' = S (now s) -> v = u32 (ir_reg (now s) a) -> Q v s') -> wp (ioread32 a) s Q.
Proof. intros H. apply ir_read. intros s' C N R. apply H; [split; [done|by apply fed_tick]|done..]. Qed.

Lemma access_write v a s (Q : unit -> ir_st -> Prop) : (forall s', accessed s s' -> now s' = S (now s) -> Q tt s') -> wp (iowrite32 v a) s Q.
Proof. intros H. apply ir_write. intros s' C N R _. apply H; [split; [done|by apply fed_tick]|done]. Qed.

Lemma aside_inv (f : ir_st -> ir_st) s : (forall s, now (f s) = now s /\ raw (f s) = raw s) -> fifo (f s) = fifo s -> IInv s -> IInv (f s).
Proof. intros Hf E [H [ws HK]]. destruct (Hf s) as [N R]. split; [intros k; rewrite N, R; apply H|]. exists ws. by apply (keys_same s). Qed.

Lemma reset_inv s : IInv s -> IInv (set_fifo (kfifo_reset (fifo s)) s).
Proof. intros [H [ws HK]]. split; [exact H|]. exists []. by apply (keys_reset s ws). Qed.

Lemma flush_spec m : forall s fs, offered m (now s) = Some fs -> wp (flush_IRRP m) s (fun _ s' => accessed s s').
Proof.
  induction m as [|m IH]; intros s fs Ho; [done|]. cbn [flush_IRRP offered] in *. apply wp_bind, access_read. intros v s1 A1 N1 ->. destruct (negb _); [|by apply wp_ret].
  apply wp_bind, access_write. intros s2 A2 N2. apply wp_bind, access_read. intros v s3 A3 N3 _. destruct (offered m _) as [l|] eqn:El; [|done].
  apply (wp_mono _ _ _ _ (IH s3 l ltac:(by rewrite N3, N2, N1))). intros _ s4 A4. exact (accessed_trans _ _ _ A1 (accessed_trans _ _ _ A2 (accessed_trans _ _ _ A3 A4))).
Qed.

Lemma flush_inv s : IInv s -> wp (flush_IRRP fuel) s (fun _ s' => IInv s').
Proof. intros Hi. destruct (Hpolite (now s)) as [fs Ho]. apply (wp_mono _ _ _ _ (flush_spec fuel s fs Ho)). intros _ s1 A. by apply (accessed_inv s). Qed.

Lemma iowrites_inv l : forall s, IInv s -> wp (iowrites l) s (fun _ s' => IInv s').
Proof.
  induction l as [|[v a] l IH]; intros s Hi; cbn [iowrites]; [by apply wp_ret|]. apply wp_bind, access_write. intros s1 A1 _. by apply IH, (accessed_inv s).
Qed.

Lemma ir_init_spec mode s : IInv s -> wp (Venus_IR_Init mode) s (fun _ s' => IInv s').
Proof.
  intros Hi. unfold Venus_IR_Init. destruct (_ && _); [by apply wp_ret|]. unfold msecs. apply wp_bind, wp_bind, wp_get, wp_ret, wp_bind, wp_modify.
  apply wp_bind, (wp_mono _ _ _ _ (iowrites_inv _ _ (aside_inv (set_last _) s ltac:(done) eq_refl Hi))). intros _ s1 I1. by apply wp_ret.
Qed.

Lemma register_inv v a s : IInv s -> wp (_ ← iowrite32 v a; mret 0) s (fun _ s' => IInv s').
Proof. intros Hi. apply wp_bind, access_write. intros s1 A1 _. by apply wp_ret, (accessed_inv s). Qed.

Lemma ir_ioctl_inv cmd arg access admin s : IInv s -> wp (venus_ir_ioctl cmd arg access admin) s (fun _ s' => IInv s').
Proof.
  intros Hi. unfold venus_ir_ioctl. destruct (negb (_ =? 0x72)); [by apply wp_ret|]. destruct (_ >? _); [by apply wp_ret|]. destruct (if negb _ then _ else _); [by apply wp_ret|].
  destruct (negb admin); [by apply wp_ret|]. do 5 (destruct (cmd =? _); [by apply register_inv|]).
  destruct (_ || _).
  { apply wp_bind. assert (Hp : wp (if cmd =? VENUS_IR_IOC_SET_PROTOCOL then modify (set_protocol (s32 arg)) else mret tt) s (fun _ s' => IInv s')).
    { destruct (cmd =? VENUS_IR_IOC_SET_PROTOCOL); [|by apply wp_ret]. by apply wp_modify, aside_inv. }
    apply (wp_mono _ _ _ _ Hp). intros _ s1 I1. apply wp_bind, wp_get, wp_bind, (wp_mono _ _ _ _ (ir_init_spec _ s1 I1)). intros r s2 I2. apply wp_bind.
    destruct (r =? 0); [apply wp_modify; by apply wp_ret, reset_inv|by apply wp_ret, wp_ret]. }
  destruct (cmd =? _); [by apply wp_bind, wp_modify, wp_ret, aside_inv|]. destruct (cmd =? _); [|by apply wp_ret]. destruct (_ >=? _); [by apply wp_ret|].
  apply wp_bind, wp_modify, wp_bind, wp_modify, wp_ret. by apply aside_inv, reset_inv.
Qed.

Lemma ir_op_inv o s : IInv s -> ir_allowed o s = true -> wp (ir_run_op o) s (fun _ s' => IInv s').
Proof.
  intros Hi Ha. pose proof Hi as [_ [ws HK]]. destruct o as [d| | |count| |cmd arg access admin| |]; cbn [ir_run_op].
  - by apply wp_bind, wp_modify, wp_ret, aside_inv.
  - apply wp_bind, (wp_mono _ _ _ _ (handler_grows fuel Hpolite s ws HK (inv_ends s Hi))). intros r s1 G. apply wp_ret. by apply (grown_inv ws s).
  - apply wp_bind. unfold venus_ir_open. apply wp_bind, wp_modify, wp_ret, wp_ret. exact (reset_inv _ Hi).
  - cbn [ir_allowed] in Ha. apply andb_true_iff in Ha as [H1%Z.leb_le H3%Z.ltb_lt]. rewrite (keys_len _ _ HK) in H3. destruct ws as [|w ws]; [cbn in H3; lia|].
    apply (wp_mono _ _ _ _ (ir_read_spec fuel Hpolite 0 count [0; 0; 0; 0] [0; 0; 0; 0] s w ws HK (inv_ends s Hi) eq_refl ltac:(done) H1)). intros r s1 (l & _ & _ & _ & _ & G). exact (grown_inv _ s s1 Hi G).
  - apply wp_bind. unfold venus_ir_poll. by apply wp_bind, wp_get, wp_ret, wp_ret.
  - apply wp_bind, (wp_mono _ _ _ _ (ir_ioctl_inv _ _ _ _ s Hi)). intros r s1 I1. by apply wp_ret.
  - apply wp_bind. unfold venus_ir_suspend. apply wp_bind, (wp_mono _ _ _ _ (flush_inv s Hi)). intros _ s1 I1.
    apply wp_bind, access_read. intros v s2 A2 _ _. apply wp_bind, access_write. intros s3 A3 _. apply wp_ret, wp_ret, (accessed_inv s1); [|done]. by apply (accessed_trans _ s2).
  - apply wp_bind. unfold venus_ir_resume. apply wp_bind, access_read. intros v s1 A1 _ _. apply wp_bind, access_write. intros s2 A2 _.
    apply wp_bind, (wp_mono _ _ _ _ (flush_inv s2 (accessed_inv _ _ (accessed_trans _ _ _ A1 A2) Hi))). intros _ s3 I3. by apply wp_ret, wp_ret.
Qed.

Lemma ir_run_inv ops : forall s, IInv s -> exists rs s', ir_run ops s = Ret (rs, s') /\ IInv s' /\
  match ops !! length rs with Some o => ir_allowed o s' = false | None => length rs = length ops end.
Proof.
  induction ops as [|o ops IH]; intros s Hi; cbn [ir_run]; [by eexists _, _|].
  destruct (ir_allowed o s) eqn:Ha; [|exists [], s; done].
  destruct (ir_op_inv o s Hi Ha) as (r & s1 & E1 & I1). destruct (IH s1 I1) as (rs & s2 & E2 & I2 & H2).
  exists (r :: rs), s2. rewrite E1. cbn [mbind res_bind]. rewrite E2. split; [done|]. split; [done|]. cbn [length lookup list_lookup].
  by destruct (ops !! length rs); [|rewrite H2].
Qed.
End runs.

(** ** Sleeping readers *)

Section sleeping.
Context {env : IrEnv}.
Variable fuel : nat.

(** The queue has grown by [l]; if it was empty, readers have been woken exactly
    when something was added. *)
Definition stirred (ws l : list Z) (s s' : ir_st) : Prop :=
  kept s s' /\ Keys s' (ws ++ l) /\ wakes s <= wakes s' /\ (ws = [] -> (l = [] <-> wakes s' = wakes s)).

Lemma enqueue_not_nil ws v : enqueue ws v <> [].
Proof. unfold enqueue. destruct (Nat.ltb_spec (length ws) 16); [by destruct ws|]. destruct ws; [cbn in *; lia|done]. Qed.

Lemma accepts_first g fs : forall x, (keys x = [] <-> got x = false) -> (keys (foldl (accept g) x fs) = [] <-> got (foldl (accept g) x fs) = false).
Proof.
  induction fs as [|[v r] fs IH]; intros x H; cbn [foldl]; [done|]. apply IH. unfold accept. destruct (r && (_ <? _)); [done|]. destruct (r && (_ >? _)); [done|].
  cbn [keys got]. split; [|done]. destruct (_ =? _); intros E; by apply enqueue_not_nil in E.
Qed.

Hypothesis Hpolite : polite fuel.

Lemma calm_stirred ws s s' : calm s s' -> Keys s ws -> stirred ws [] s s'.
Proof.
  intros C HK. pose proof (kept_calm _ _ C) as Hk. pose proof (m_wakes _ _ C). split; [done|]. rewrite app_nil_r. split; [by apply (calm_keys s)|]. split; [lia|done].
Qed.

Lemma handler_stirs s ws : Keys s ws -> ir_protocol s <> RAW_NEC -> wp (IR_interrupt_handler fuel) s (fun _ s' => exists l, stirred ws l s s').
Proof.
  intros HK Hp. destruct (Z.eq_dec (Z.land (u32 (ir_reg (now s) MIS_ISR)) 0x20) 0) as [E|E].
  - unfold IR_interrupt_handler. apply wp_bind, ir_read. intros s1 C1 _ _. rewrite E. apply wp_ret. exists []. by apply calm_stirred.
  - destruct (Hpolite (S (S (now s)))) as [fs Ho]. apply (wp_mono _ _ _ _ (handler_spec fuel s ws fs HK Hp E Ho)). intros r s' (_ & K & _ & W & Hk).
    pose proof (accepts_first (settings_of s) fs (mkReceiver ws (lastRecvMs s) false)) as H1. destruct (accepts_grow (settings_of s) fs (mkReceiver ws (lastRecvMs s) false)) as [l El].
    rewrite El in K, H1. cbn [keys got] in *. exists l. split; [done|]. split; [done|]. split; [destruct (got _); lia|]. intros ->. cbn [app] in H1. specialize (H1 ltac:(done)).
    rewrite H1, W. destruct (got _); split; done || lia.
Qed.

Lemma stirred_trans ws l1 l2 s1 s2 s3 : stirred ws l1 s1 s2 -> stirred (ws ++ l1) l2 s2 s3 -> stirred ws (l1 ++ l2) s1 s3.
Proof.
  intros (A1 & A2 & A3 & A4) (B1 & B2 & B3 & B4). split; [by apply (ir_kept_trans _ s2)|]. split; [by rewrite app_assoc|]. split; [lia|]. intros ->. specialize (A4 eq_refl). cbn [app] in *.
  destruct l1 as [|w l1]; cbn [app].
  - specialize (B4 eq_refl). rewrite B4, (proj1 A4 eq_refl). done.
  - split; [done|]. intros Hw. assert (Hw1 : wakes s2 = wakes s1) by lia. by apply A4 in Hw1.
Qed.

Lemma interrupts_stir l : forall s ws, Keys s ws -> ir_protocol s <> RAW_NEC -> wp (interrupts fuel l) s (fun _ s' => exists l', stirred ws l' s s').
Proof.
  induction l as [|d l IH]; intros s ws HK Hp; cbn [interrupts]; [apply wp_ret; exists []; by apply calm_stirred|].
  apply wp_bind, wp_modify, wp_bind, (wp_mono _ _ _ _ (handler_stirs (add_time (Z.max 0 d) s) ws ltac:(by apply (keys_same s)) Hp)). intros _ s1 [l1 H1].
  assert (H1' : stirred ws l1 s s1) by exact H1. destruct H1 as (K1 & HK1 & _).
  apply (wp_mono _ _ _ _ (IH s1 (ws ++ l1) HK1 ltac:(destruct K1 as [E _]; by rewrite E))). intros _ s2 [l2 H2]. exists (l1 ++ l2). by apply (stirred_trans _ _ _ _ s1).
Qed.

Lemma preempt_stirs s ws : Keys s ws -> ir_protocol s <> RAW_NEC -> wp (preempt fuel) s (fun _ s' => exists l, stirred ws l s s').
Proof.
  intros HK Hp. unfold preempt. apply wp_bind, ir_tick. intros s1 C1 _ _.
  apply (wp_mono _ _ _ _ (interrupts_stir _ s1 ws ltac:(by apply (calm_keys s)) ltac:(by rewrite (m_protocol _ _ C1)))). intros _ s2 [l H2]. exists ([] ++ l).
  apply (stirred_trans _ _ _ _ s1); [by apply calm_stirred|by rewrite app_nil_r].
Qed.

(** [naps k s s']: from [s], a sleeper is interrupted [k] times, up to [s']. *)
Inductive naps : nat -> ir_st -> ir_st -> Prop :=
| naps_none s : naps 0 s s
| naps_more k s s1 s2 : preempt fuel s = Ret (tt, s1) -> naps k s1 s2 -> naps (S k) s s2.

(** Later interrupts do not change the first key. *)
Lemma naps_first k s s' : naps k s s' -> forall ws, Keys s ws -> ir_protocol s <> RAW_NEC -> exists l, Keys s' (ws ++ l).
Proof.
  induction 1 as [s|k s s1 s2 E _ IH]; intros ws HK Hp; [exists []; by rewrite app_nil_r|]. destruct (preempt_stirs s ws HK Hp) as ([] & sa & Ea & l & K & HKa & _). rewrite E in Ea. injection Ea as <-.
  destruct (IH (ws ++ l) HKa ltac:(destruct K as [-> _]; done)) as [l2 H]. exists (l ++ l2). by rewrite app_assoc.
Qed.

(** A sleeping reader goes on when a key has come; this is the first key. *)
Lemma sleep_wakes k : forall n s s' w ws (f : nat -> IR Z), (forall t, ir_signal t = false) -> Keys s [] -> ir_protocol s <> RAW_NEC -> naps k s s' -> Keys s' (w :: ws) -> (k <= n)%nat ->
  exists n' s1 w' ws', sleep fuel n (wakes s) f s = f n' s1 /\ Keys s1 (w' :: ws') /\ ir_protocol s1 = ir_protocol s /\ kept s s1 /\ le_bytes w' = le_bytes w.
Proof.
  induction k as [|k IH]; intros n s s' w ws f Hsig HK Hp Hn HK' Hkn; inversion Hn as [? E0|? ? sa ? Epre Hn']; subst.
  { pose proof (keys_len _ _ HK) as H1. pose proof (keys_len _ _ HK') as H2. cbn [length] in *. lia. }
  destruct n as [|n]; [lia|]. destruct (preempt_stirs s [] HK Hp) as ([] & s1 & E1 & l & K1 & HK1 & W1 & Hw1). rewrite Epre in E1. injection E1 as ->.
  assert (Es : sleep fuel (S n) (wakes s) f s = (if negb (wakes s1 =? wakes s) || ir_signal (now s1) then f n else sleep fuel n (wakes s) f) s1)
    by (cbn [sleep]; unfold mbind, Drv_bind; by rewrite Epre).
  assert (Hp1 : ir_protocol s1 <> RAW_NEC) by (destruct K1 as [E _]; by rewrite E).
  rewrite Es, Hsig, orb_false_r. cbn [app] in HK1. specialize (Hw1 eq_refl). destruct l as [|w1 l].
  - rewrite (proj1 Hw1 eq_refl), Z.eqb_refl. cbn [negb].
    destruct (IH n s1 s' w ws f Hsig HK1 Hp1 Hn' HK' ltac:(lia)) as (n' & s2 & w' & ws' & E2 & HK2 & P2 & K2 & Ew2). rewrite (proj1 Hw1 eq_refl) in E2.
    exists n', s2, w', ws'. split; [exact E2|]. split; [done|]. split; [destruct K1 as [E _]; congruence|]. split; [by apply (ir_kept_trans _ s1)|done].
  - destruct (Z.eqb_spec (wakes s1) (wakes s)) as [Ew|Ew]; [by apply Hw1 in Ew|]. cbn [negb]. exists n, s1, w1, l. split; [done|]. split; [done|]. split; [apply K1|]. split; [done|].
    destruct (naps_first k s1 s' Hn' (w1 :: l) HK1 Hp1) as [l2 H2]. by apply (keys_first s' w1 w (l ++ l2) ws).
Qed.
End sleeping.

(** ** Properties *)

Section claims.
Context {env : IrEnv}.
Variable fuel : nat.

(** C29: the receiver is safe to use.  After the module has started, every
    sequence of interrupts, opens, reads of any number of bytes, polls, requests,
    suspends and resumes returns, with interrupts in the middle of reads as well,
    with each protocol of the controller and in raw mode; no access leaves the ring
    of the queue, and the queue always holds whole words, at most 16.  The run
    stops early only before a read of an empty queue, which sleeps.  [polite]: the
    controller runs out of frames within [fuel] of them; and it samples at most
    [n] words of 32 bits, [33 * n + 33] below [fuel], while the receiver runs. *)
Theorem ir_safe n ops kmalloc s s1 :
  polite fuel -> at_most n s -> (33 * n + 33 < fuel)%nat -> (forall m b, kmalloc m = Some b -> Zlen b = m) -> venus_ir_init_module kmalloc true s = Ret (0, s1) ->
  exists rs s' ws, ir_run fuel ops s1 = Ret (rs, s') /\ Keys s' ws /\ (length ws <= 16)%nat /\
    match ops !! length rs with Some o => ir_allowed o s' = false | None => length rs = length ops end.
Proof.
  intros Hp Hn Hf Hk Hi. assert (I1 : IInv n s1).
  { revert Hi. unfold venus_ir_init_module. destruct (alloc_holds (FIFO_DEPTH * 4) kmalloc ltac:(done) Hk) as [E|(f & E & Hh & Hrange)]; unfold mbind, Drv_bind, lift_res; rewrite E; [done|].
    assert (Hsz : kf_size f = 64).
    { destruct (z_pow _ (h_sized _ _ Hh)) as (k & Hk31 & Es). rewrite Es in *. change (FIFO_DEPTH * 4) with (2 ^ 6) in Hrange. change (2 * 2 ^ 6) with (2 ^ 7) in Hrange.
      destruct Hrange as [R1 R2]. apply Z.pow_le_mono_r_iff in R1; [|lia|lia]. apply Z.pow_lt_mono_r_iff in R2; [|lia|lia]. by replace k with 6 by lia. }
    cbn beta iota. unfold modify, get. destruct (ir_init_spec n (ir_protocol s) (set_fifo f s)) as (r & s2 & E2 & I2); [split; [exact Hn|]; exists []; by split|].
    cbn beta iota. change (ir_protocol (set_fifo f s)) with (ir_protocol s). rewrite E2. by intros [= <-]. }
  destruct (ir_run_inv fuel Hp n Hf ops s1 I1) as (rs & s' & E & [_ [ws HK]] & H). exists rs, s', ws. split; [done|]. split; [done|]. split; [by apply (keys_bound s')|done].
Qed.

(** C30: what an interrupt does.  The frames that the controller offers are taken
    in order: repetitions are dropped when they come too early or too late, the
    key of every other frame is accepted and queued, with a word that tells whether
    it is a repetition in the double-word mode, or dropped when the queue is full; the time of the
    last frame is kept, and readers are woken exactly when a key was accepted. *)
Theorem ir_interrupt_queues s ws fs (x := foldl (accept (settings_of s)) (mkReceiver ws (lastRecvMs s) false) fs) :
  Keys s ws -> ir_protocol s <> RAW_NEC -> Z.land (u32 (ir_reg (now s) MIS_ISR)) 0x20 <> 0 -> offered fuel (S (S (now s))) = Some fs ->
  exists s', IR_interrupt_handler fuel s = Ret (IRQ_HANDLED, s') /\ Keys s' (keys x) /\ lastRecvMs s' = last x /\
    wakes s' = wakes s + (if got x then 1 else 0) /\ kept s s'.
Proof.
  intros HK Hp Hi Ho. destruct (handler_spec fuel s ws fs HK Hp Hi Ho) as (r & s' & E & -> & H). by exists s'.
Qed.

(** C28: decoding inverts the coding of the remote control.  In raw mode, a signal
    of a start pulse (40 samples or more, then a pause of 20 or more), of a pulse
    for each of the 32 bits of [v] (two samples or more, then a pause of 7 to 10
    for a one and of 2 to 6 for a zero) and of the beginning of another pulse is
    decoded to [v], if it waits whole among the samples when the interrupt comes: the
    word [v] is queued, if there is room, and remembered for repetitions.  The
    pulses may have any lengths within these bounds and be cut into samples of 32
    bits anywhere; more samples may arrive at any time. *)
Theorem ir_nec_decodes s ws v ph pl ps rest :
  (22 < fuel)%nat -> Keys s ws -> is_u32 v -> ir_protocol s = RAW_NEC -> Z.land (u32 (ir_reg (now s) MIS_ISR)) 0x20 <> 0 ->
  (40 <= ph)%nat -> (2 * ph + 1 < fuel)%nat -> (20 <= pl)%nat -> (2 * pl + 1 < fuel)%nat ->
  Forall2 (pulse_of fuel) ((fun k => Z.testbit v (Z.of_nat k)) <$> seq 0 32) ps ->
  words_bits (raw s) = pulse ph pl ++ pulses ps ++ false :: rest ->
  exists s', IR_interrupt_handler fuel s = Ret (IRQ_HANDLED, s') /\ Keys s' (queued_symbol s ws v false) /\ lastSymbol s' = v /\ wakes s' = wakes s.
Proof.
  intros Hf HK Hv Hp Hi H1 H2 H3 H4 Hps Hs.
  assert (H : wp (IR_interrupt_handler fuel) s (fun r s' => r = IRQ_HANDLED /\ wakes s' = wakes s /\ Keys s' (queued_symbol s ws v false) /\ lastSymbol s' = v)).
  { unfold IR_interrupt_handler. apply wp_bind, ir_read. intros s1 C1 N1 R1. apply Z.eqb_neq in Hi. rewrite Hi. cbn [negb]. apply wp_bind, ir_write. intros s2 C2 N2 R2 _.
    pose proof (calm_trans _ _ _ C1 C2) as C. apply wp_bind, wp_get. rewrite (m_protocol _ _ C), Hp. cbn [Z.eqb Pos.eqb RAW_NEC].
    assert (Hs2 : words_bits (raw s2) = pulse ph pl ++ pulses ps ++ false :: rest ++ words_bits (ir_samples (now s)) ++ words_bits (ir_samples (now s1))).
    { rewrite R2, R1, !words_bits_app, Hs, <- !app_assoc. done. }
    apply (wp_mono _ _ _ _ (raw_decodes fuel s2 ws v ph pl ps _ Hf ltac:(by apply (calm_keys s)) Hv H1 H2 H3 H4 Hps Hs2)). intros r s3 (-> & W & K & L).
    split; [done|]. split; [rewrite W; apply C|]. split; [|done]. unfold queued_symbol in *. by rewrite (m_mode _ _ C) in K. }
  destruct H as (r & s' & E & -> & W & K & L). by exists s'.
Qed.

(** a read of one word gives the oldest key.  With interrupts at any point
    of the read, also between the copy of the bytes and the move of the counter,
    the four bytes are those of the oldest word, and the queue then holds the
    others in order, followed by what the interrupts have added. *)
Theorem ir_read_oldest n b ubuf s w ws :
  polite fuel -> Keys s (w :: ws) -> ir_protocol s <> RAW_NEC -> Zlen b = 4 -> 4 <= Zlen ubuf ->
  exists s' l, venus_ir_read fuel n 4 b ubuf s = Ret ((4, le_bytes w ++ skipn 4 ubuf), s') /\ Keys s' (ws ++ l).
Proof.
  intros Hp HK Hr Hb Hu. destruct (ir_read_spec fuel Hp n 4 b ubuf s w ws HK (or_introl Hr) Hb Hu ltac:(lia)) as ([r u] & s' & E & l & _ & _ & H4 & Eu & [_ [l2 K]]).
  cbn [fst snd] in *. rewrite (H4 ltac:(cbn [length]; lia)) in *. exists s', (l ++ l2). rewrite app_assoc. split; [by rewrite E, Eu|exact K].
Qed.

(** C31: a reader that sleeps is woken by a key.  A read of one word from an empty
    queue returns with the first key that comes while it sleeps: if the interrupts
    of [k] naps have put keys into the queue, of which [w] is the first, the read
    has gone on by then and returns the bytes of [w] - provided that no signal
    comes, and with the protocols of the controller: in raw mode nobody is woken. *)
Theorem ir_read_wakes k n b ubuf s s' w ws :
  polite fuel -> (forall t, ir_signal t = false) -> Keys s [] -> ir_protocol s <> RAW_NEC -> naps fuel k s s' -> Keys s' (w :: ws) -> (k <= n)%nat -> (1 <= n)%nat -> Zlen b = 4 -> 4 <= Zlen ubuf ->
  exists s1 l, venus_ir_read fuel n 4 b ubuf s = Ret ((4, le_bytes w ++ skipn 4 ubuf), s1) /\ Keys s1 l.
Proof.
  intros Hp Hsig HK Hr Hn HK' Hkn Hn1 Hb Hu. destruct n as [|n]; [lia|].
  destruct (sleep_wakes fuel Hp k (S n) s s' w ws (wait_event fuel n) Hsig HK Hr Hn HK' Hkn) as (n' & s1 & w' & ws' & E & HK1 & P1 & _ & Ew').
  assert (Ev : wait_event fuel (S n) (S n) s = (if 0 <? __kfifo_len (fifo s) then mret 0 else if ir_signal (now s) then mret (- ERESTARTSYS) else sleep fuel (S n) (wakes s) (wait_event fuel n)) s) by done.
  rewrite (keys_len _ _ HK), Hsig in Ev. change (0 <? 4 * Z.of_nat (length [])) with false in Ev. cbv iota in Ev. rewrite E, (wait_ready fuel n n' s1 w' ws' HK1) in Ev.
  assert (Ew : read_wait fuel (S n) (S n) s = Ret (0, s1)) by (cbn [read_wait]; unfold mbind, Drv_bind; by rewrite Ev).
  assert (Hr1 : ir_protocol s1 <> RAW_NEC) by (by rewrite P1).
  destruct (ir_read_spec fuel Hp 0 4 b ubuf s1 w' ws' HK1 (or_introl Hr1) Hb Hu ltac:(lia)) as ([r u] & s2 & E2 & l & _ & _ & H4 & Eu & [_ [l2 K]]).
  cbn [fst snd] in *. rewrite (H4 ltac:(cbn [length]; lia)) in *. exists s2, (ws' ++ l ++ l2). split; [|rewrite app_assoc; exact K].
  rewrite <- Ew'. change (venus_ir_read fuel (S n) 4 b ubuf s = Ret ((4, last_word (words 4) (w' :: ws' ++ l) ubuf), s2)). rewrite <- Eu, <- E2.
  unfold venus_ir_read. unfold mbind at 1, Drv_bind at 1. rewrite Ew. symmetry. unfold mbind at 1, Drv_bind at 1. by rewrite (read_wait_ready fuel 0 0 s1 w' ws' HK1).
Qed.

(** A longer read takes [c] words from the queue and returns their length, but
    each word is written over the one before: only the last of them arrives. *)
Lemma ir_read_overwrites n c b ubuf s w ws :
  polite fuel -> Keys s (w :: ws) -> ir_protocol s <> RAW_NEC -> Zlen b = 4 -> 4 <= Zlen ubuf -> (1 <= c <= length (w :: ws))%nat ->
  exists s' l, venus_ir_read fuel n (4 * Z.of_nat c) b ubuf s = Ret ((4 * Z.of_nat c, le_bytes (nth (c - 1) (w :: ws) 0) ++ skipn 4 ubuf), s') /\ Keys s' (skipn c (w :: ws) ++ l).
Proof.
  intros Hp HK Hr Hb Hu Hc.
  destruct (ir_read_spec fuel Hp n (4 * Z.of_nat c) b ubuf s w ws HK (or_introl Hr) Hb Hu ltac:(lia)) as ([r u] & s' & E & l & _ & _ & H4 & Eu & [_ [l2 K]]).
  cbn [fst snd] in *. rewrite (H4 ltac:(lia)), words_whole in *. exists s', (l ++ l2). change (w :: ws ++ l) with ((w :: ws) ++ l) in *.
  rewrite drop_app_le in K by lia. rewrite app_assoc. split; [|done]. rewrite E, Eu. destruct c as [|c]; [lia|]. cbn [last_word]. rewrite app_nth1 by (cbn [length] in *; lia). by rewrite Nat.sub_succ, Nat.sub_0_r.
Qed.

Lemma repeats_dropped g fs : REPEAT_MAX_INTERVAL < g_debounce g -> Forall (fun fr => fr.2 = true) fs -> forall x,
  keys (foldl (accept g) x fs) = keys x /\ got (foldl (accept g) x fs) = got x.
Proof.
  intros Hg Hfs. induction Hfs as [|[v r] fs Hr _ IH]; intros x; [done|]. cbn [foldl snd] in *. subst r.
  assert (Ha : keys (accept g x (v, true)) = keys x /\ got (accept g x (v, true)) = got x).
  { unfold accept. cbn [andb]. destruct (Z.ltb_spec (u32 (g_ms g - last x)) (g_debounce g)); [done|]. rewrite Z.gtb_ltb. destruct (Z.ltb_spec REPEAT_MAX_INTERVAL (u32 (g_ms g - last x))); [done|lia]. }
  destruct (IH (accept g x (v, true))) as [-> ->]. exact Ha.
Qed.

(** no repetition is delivered with the settings the driver starts with.
    Repetitions within [debounce] milliseconds (300 at first) of the last frame
    are dropped, and so are those more than 200 milliseconds after it: with a
    [debounce] above 200 a key that is held down gives one word. *)
Theorem ir_repeats_ignored s ws fs :
  Keys s ws -> ir_protocol s <> RAW_NEC -> REPEAT_MAX_INTERVAL < debounce s ->
  Z.land (u32 (ir_reg (now s) MIS_ISR)) 0x20 <> 0 -> offered fuel (S (S (now s))) = Some fs -> Forall (fun fr => fr.2 = true) fs ->
  exists s', IR_interrupt_handler fuel s = Ret (IRQ_HANDLED, s') /\ Keys s' ws /\ wakes s' = wakes s.
Proof.
  intros HK Hp Hd Hi Ho Hfs. destruct (handler_spec fuel s ws fs HK Hp Hi Ho) as (r & s' & E & -> & K & _ & W & _).
  destruct (repeats_dropped (settings_of s) fs Hd Hfs (mkReceiver ws (lastRecvMs s) false)) as [Ek Eg]. rewrite Ek in K. rewrite Eg in W. cbn [got keys] in *.
  exists s'. split; [done|]. split; [done|]. lia.
Qed.

(** In the double-word mode a queue with room for one word takes the key and
    drops the word that belongs to it: from then on keys and marks are mixed up. *)
Lemma ir_half_pair s ws v : length ws = 15%nat -> driver_mode s = DOUBLE_WORD_IF ->
  keys (accept (settings_of s) (mkReceiver ws (lastRecvMs s) false) (v, false)) = ws ++ [u32 (key_of (ir_protocol s) v)].
Proof.
  intros Hl Hm. unfold accept, settings_of. cbn [andb g_ms g_debounce g_mode g_protocol keys]. rewrite Hm. cbn [Z.eqb Pos.eqb DOUBLE_WORD_IF]. unfold enqueue. rewrite Hl. cbn [Nat.ltb Nat.leb].
  rewrite length_app, Hl. done.
Qed.

(** The raw decoder never wakes a reader. *)
Lemma ir_raw_never_wakes s ws o : Keys s ws -> exists r s', nec_end o s = Ret (r, s') /\ wakes s' = wakes s.
Proof. intros HK. destruct (nec_end_spec o s ws HK) as (r & s' & E & _ & W & _). by exists r, s'. Qed.
End claims.

(** ** A receiver *)

(** Frames are offered by the accesses up to the fourth; an interrupt comes
    during the first of a reader. *)
Definition demo_ir_env : IrEnv := {|
  ir_reg := fun t a => if a =? MIS_ISR then 0x20 else if a =? MIS_IR_SR then (if (t <=? 3)%nat then 3 else 0) else 0x20DF10EF;
  ir_samples := fun _ => [];
  ir_events := fun t => if (t =? 0)%nat then [2] else [];
  ir_signal := fun _ => false;
  ir_freeze := fun _ => false;
  is_mars_cpu := true
|}.

Lemma demo_polite : @polite demo_ir_env 200.
Proof. intros t. do 4 (destruct t as [|t]; [eexists; vm_compute; reflexivity|]). by eexists. Qed.

Definition demo_ir (f : kfifo) (protocol : Z) (l : list Z) : ir_st := mkIr f protocol 0 300 SINGLE_WORD_IF 0 l [] 0 50 0.
Definition empty_fifo : kfifo := mkFifo (replicate 64 0) 64 0 0.
Definition one_key_fifo : kfifo := mkFifo ([239; 16; 223; 32] ++ replicate 60 0) 64 4 0.

Lemma demo_one_key protocol l : Keys (demo_ir one_key_fifo protocol l) [0x20DF10EF].
Proof.
  split; [|done]. split; [split; [by exists 6|done|done|done]|done|done|]. change (Zlen (bytes_of [0x20DF10EF])) with 4. intros i Hi.
  assert (i = 0 \/ i = 1 \/ i = 2 \/ i = 3) as [->|[->|[->| ->]]] by lia; reflexivity.
Qed.

Definition demo_started : ir_st :=
  mkIr empty_fifo NEC 500 300 SINGLE_WORD_IF 0 [] (rev ((fun '(v, a) => (a, v)) <$> init_writes NEC)) 6 50 0.

(** The samples of the key 0x20DF10EF. *)
Definition demo_samples : list Z :=
  [0x0; 0x7ffff; 0xe3fc7f8f; 0xf1fe38ff; 0x1fe3fc71; 0xc71c7f8e; 0x38e3fc7f; 0x8ff1fe3f; 0xc71fe3fc; 0x71c71c71; 0xfe38e000].

(** A signal that arrives at the tenth access. *)
Definition raw_env : IrEnv := {|
  ir_reg := fun t a => if a =? MIS_ISR then 0x20 else if a =? MIS_IR_SR then (if (t <=? 8)%nat then 1 else 0) else 0x20DF10EF;
  ir_samples := fun t => if (t =? 10)%nat then demo_samples else [];
  ir_events := fun t => if (t =? 12)%nat then [2] else [];
  ir_signal := fun _ => false;
  ir_freeze := fun _ => false;
  is_mars_cpu := true
|}.

Lemma raw_polite : @polite raw_env 400.
Proof. intros t. do 9 (destruct t as [|t]; [eexists; vm_compute; reflexivity|]). by eexists. Qed.

Lemma raw_arriving k : forall t, (@arriving raw_env t k <= if (t <=? 10)%nat then 11 else 0)%nat.
Proof.
  induction k as [|k IH]; intros t; cbn [arriving]; [lia|]. specialize (IH (S t)). cbn [raw_env ir_samples] in *.
  destruct (Nat.eqb_spec t 10) as [->|Hne]; [change (length demo_samples) with 11%nat; cbn in IH |- *; lia|]. cbn [length].
  destruct (Nat.leb_spec (S t) 10), (Nat.leb_spec t 10); lia.
Qed.

Definition demo_events : list ir_op :=
  [OOpen; OElapse 3; OInterrupt; OPoll; ORead 3; OOpen; OIoctl VENUS_IR_IOC_SET_PROTOCOL 7 true true; OInterrupt; ORead 4].

Lemma ir_safe_witness :
  exists rs s' ws, @ir_run raw_env 400 demo_events demo_started = Ret (rs, s') /\ Keys s' ws /\ (length ws <= 16)%nat /\
    match demo_events !! length rs with Some o => ir_allowed o s' = false | None => length rs = length demo_events end.
Proof.
  apply (@ir_safe raw_env 400 11 demo_events demo_block (demo_ir empty_fifo NEC []) demo_started);
    [apply raw_polite|intros k; apply (raw_arriving k 0)|lia|apply demo_block_len|reflexivity].
Defined.

(** What this run does: a key of the controller is read, then one from samples.  The
    read of three bytes gives the process four. *)
Example ir_demo_run : match @ir_run raw_env 400 demo_events demo_started with
  | Ret (rs, _) => rs = [(0, []); (0, []); (1, []); (65, []); (3, [239; 16; 223; 32]); (0, []); (0, []); (1, []); (4, [239; 16; 223; 32])]
  | _ => False
  end.
Proof. vm_compute. reflexivity. Qed.

(** A repetition half a second after the last key: too late. *)
Lemma ir_interrupt_queues_witness :
  exists s', @IR_interrupt_handler demo_ir_env 200 (demo_ir one_key_fifo NEC []) = Ret (IRQ_HANDLED, s') /\ Keys s' [0x20DF10EF] /\ lastRecvMs s' = 0 /\
    wakes s' = 0 + 0 /\ kept (demo_ir one_key_fifo NEC []) s'.
Proof.
  apply (@ir_interrupt_queues demo_ir_env 200 (demo_ir one_key_fifo NEC []) [0x20DF10EF] [(0x20DF10EF, true)]); [apply demo_one_key|done|done|reflexivity].
Defined.

Definition demo_pulses : list (nat * nat) :=
  ([(3, 8); (3, 8); (3, 8); (3, 8); (3, 3); (3, 8); (3, 8); (3, 8); (3, 3); (3, 3); (3, 3); (3, 3); (3, 8); (3, 3); (3, 3); (3, 3); (3, 8); (3, 8); (3, 8); (3, 8); (3, 8); (3, 3); (3, 8); (3, 8); (3, 3); (3, 3); (3, 3); (3, 3); (3, 3); (3, 8); (3, 3); (3, 3)])%nat.

Lemma ir_nec_decodes_witness :
  exists s', @IR_interrupt_handler demo_ir_env 200 (demo_ir one_key_fifo RAW_NEC demo_samples) = Ret (IRQ_HANDLED, s') /\
    Keys s' [0x20DF10EF; 0x20DF10EF] /\ lastSymbol s' = 0x20DF10EF /\ wakes s' = 0.
Proof.
  apply (@ir_nec_decodes demo_ir_env 200 (demo_ir one_key_fifo RAW_NEC demo_samples) [0x20DF10EF] 0x20DF10EF 45 22 demo_pulses (replicate 12 false));
    [lia|apply demo_one_key|by split|done|done|lia|lia|lia|lia| |reflexivity].
  unfold demo_pulses. cbn [seq fmap list_fmap]. repeat (constructor; [unfold pulse_of; cbn [fst snd]; split; [lia|split; [lia|vm_compute; lia]]|]). constructor.
Defined.

Lemma ir_read_oldest_witness :
  exists s' l, @venus_ir_read demo_ir_env 200 0 4 [0; 0; 0; 0] [1; 2; 3; 4; 5] (demo_ir one_key_fifo NEC []) = Ret ((4, [239; 16; 223; 32; 5]), s') /\ Keys s' ([] ++ l).
Proof.
  apply (@ir_read_oldest demo_ir_env 200 0 [0; 0; 0; 0] [1; 2; 3; 4; 5] (demo_ir one_key_fifo NEC []) 0x20DF10EF []);
    [apply demo_polite|apply demo_one_key|done|reflexivity|vm_compute; discriminate].
Defined.

Lemma ir_repeats_ignored_witness :
  exists s', @IR_interrupt_handler demo_ir_env 200 (demo_ir one_key_fifo NEC []) = Ret (IRQ_HANDLED, s') /\ Keys s' [0x20DF10EF] /\ wakes s' = 0.
Proof.
  apply (@ir_repeats_ignored demo_ir_env 200 (demo_ir one_key_fifo NEC []) [0x20DF10EF] [(0x20DF10EF, true)]);
    [apply demo_one_key|done|done|done|reflexivity|by repeat constructor].
Defined.

(** A read takes the length of the queue twice: keys that come in between make it
    return more bytes than were asked for. *)
Definition racing_env : IrEnv := {|
  ir_reg := fun t a => if a =? MIS_ISR then 0x20 else if a =? MIS_IR_SR then (if (t <=? 7)%nat then 1 else 0) else 0x20DF10EF;
  ir_samples := fun _ => [];
  ir_events := fun t => if (t =? 1)%nat then [2] else [];
  ir_signal := fun _ => false;
  ir_freeze := fun _ => false;
  is_mars_cpu := true
|}.

Example ir_read_more_than_asked : match @venus_ir_read racing_env 200 0 8 [0; 0; 0; 0] [1; 2; 3; 4] (demo_ir one_key_fifo NEC []) with
  | Ret ((r, _), _) => r = 12
  | _ => False
  end.
Proof. vm_compute. reflexivity. Qed.

(** A key comes while the reader sleeps. *)
Definition sleepy_env : IrEnv := {|
  ir_reg := fun t a => if a =? MIS_ISR then 0x20 else if a =? MIS_IR_SR then (if (t <=? 3)%nat then 1 else 0) else 0x20DF10EF;
  ir_samples := fun _ => [];
  ir_events := fun t => if (t =? 0)%nat then [2] else [];
  ir_signal := fun _ => false;
  ir_freeze := fun _ => false;
  is_mars_cpu := true
|}.

Lemma sleepy_polite : @polite sleepy_env 200.
Proof. intros t. do 4 (destruct t as [|t]; [eexists; vm_compute; reflexivity|]). by eexists. Qed.

Definition awake : ir_st := match @preempt sleepy_env 200 (demo_ir empty_fifo NEC []) with Ret (_, s) => s | _ => demo_ir empty_fifo NEC [] end.

Lemma awake_key : Keys awake [0x20DF10EF].
Proof. apply (keys_same (demo_ir one_key_fifo NEC [])); [vm_compute; reflexivity|apply demo_one_key]. Qed.

Lemma empty_keys protocol l : Keys (demo_ir empty_fifo protocol l) [].
Proof. split; [|done]. apply (empty_holds (replicate 64 0) 6); [lia|done]. Qed.

Lemma ir_read_wakes_witness :
  exists s1 l, @venus_ir_read sleepy_env 200 1 4 [0; 0; 0; 0] [1; 2; 3; 4] (demo_ir empty_fifo NEC []) = Ret ((4, [239; 16; 223; 32]), s1) /\ Keys s1 l.
Proof.
  apply (@ir_read_wakes sleepy_env 200 1 1 [0; 0; 0; 0] [1; 2; 3; 4] (demo_ir empty_fifo NEC []) awake 0x20DF10EF []);
    [apply sleepy_polite|done|apply empty_keys|done| |apply awake_key|lia|lia|reflexivity|vm_compute; discriminate].
  eapply naps_more; [vm_compute; reflexivity|]. vm_compute. constructor.
Defined.
